(* ===== verification/_CoqProject ===== *)
-Q . S2P
Prelude.v
Identity.v
AuditTrail.v
Events.v
Job.v
JobEngine.v
Net.v
Ipam.v
Node.v
Commands.v
NodeService.v
NodeHealth.v
Instances.v
Scheduler.v
RateLimit.v
RingBuffer.v
Quota.v
Invoice.v
Accounts.v
Auth.v
Storage.v
Guest.v
Template.v
Catalog.v
Compute.v
Provision.v
Migration.v
Evacuation.v
Network.v
Wire.v
Agent.v
Cluster.v
Objects.v
Backup.v
Reconcile.v
Recovery.v
Calendar.v
Billing.v
Bus.v
Ssrf.v
Webhook.v
KeyRotation.v
Monitoring.v
Console.v
Notifications.v
AuditService.v
Diagnostics.v
Http.v
InstanceApi.v
OperationsApi.v
AccessApi.v
ResourceApi.v
