(* ===== verification/Prelude.v ===== *)
(** * Aurora control plane: a verification library

    The program is the hub of a small cloud: tenants ask it for instances,
    volumes and addresses, it keeps the books, chooses a hypervisor node and
    sends commands to the agent on that node. This library models its domain
    types, its in-memory repositories, the application services over them and
    the transports in front ([src/internal/domain],
    [src/internal/infra/memory], [src/internal/app],
    [src/internal/transport]), and proves what keeps them correct.

    ** How the code is read

    - A method is a function [World → store → result * store * World] (the
      monad [go] of this file): it returns a value or an error, and a failing
      method keeps the writes it made before it returned. A Go [error] is a
      value of [error]; a nil dereference, an index out of range or a failed
      type assertion is the error [panic].
    - Clock, identifiers, map iteration order and random numbers are oracles
      of [World]; each reading advances a counter. [World_ok] says that an
      iteration visits every key once, and nothing else: the theorems hold for
      every order.
    - Integers are [Z]; [add64], [sub64], [mul64], [quot64] wrap around at 64
      bits, [to_int64] and the [f...] operations are IEEE doubles
      ([SpecFloat]).
    - A repository whose maps share records keeps the records in a heap and
      addresses in the maps ([Node], [Instances], [Accounts]); one that hands
      out copies keeps a map of values. Slices and maps inside a copied record
      stay shared in Go; the modelled services only ever store them in the
      form they already have (see [Template.NormalizeArchitecture_idem]), so
      values suffice.
    - A port (an interface the code calls) is a class of operations, and what
      the callers rely on is a second class of laws: [Authorizer],
      [NodeGateway], [AuditRepository], [EventPublisher], [JobRepository],
      [QuotaEngine], [TemplateLookup], [PKIManager], [SortSlice]. Services
      are proved against the classes, the components discharge the laws.
    - A service that several others call is one store inside a larger one;
      [zoom] runs its methods there. A goroutine is a function of its own,
      and a concurrent history is a step relation over whole calls and stages
      of goroutines.
    - [wp m Q w s] is the postcondition calculus of [go]; [quiet] methods write
      nothing, [polite] ones keep the oracles.

    ** The parts

    - [Identity], [AuditTrail], [Events]: who calls, what is recorded, what is
      published. The access rule of the authorizer; the hash chain of the
      trail (every recorded chain verifies, every tampering is detected).
    - [Job], [JobEngine]: the durable queue and its workers. A claimed job is
      locked exactly while it runs and stays with its worker until the lease
      ends, whatever the other workers do to other jobs; the repository refines
      an abstract queue call for call; a failing job is run MaxRetries + 1
      times. That a late report ends the job of another is stated as an
      example.
    - [Net], [Ipam]: addresses and pools. No address is leased twice; the
      allocator finds the lowest free one.
    - [Node], [Commands], [NodeService], [NodeHealth]: the registry of
      hypervisors, enrollment, certificates and streams, the dispatch of
      commands, the supervisor. Revocation is permanent, tokens are single
      use, a silent node is found out.
    - [Instances], [Scheduler], [Compute]: the fleet. Placement never
      overcommits, in one call and over histories of calls; instances of
      another tenant are out of reach; what a creation leaves behind.
    - [Quota], [Invoice]: plans, reservations, metering, invoices and
      payments. Quotas are not exceeded by requests below 2^62, reservations are
      all or nothing, invoices add up and are billed once per key.
    - [Accounts], [Auth]: users, sessions, keys. Refresh tokens are single use
      and a replay kills their family; revoked keys stay revoked.
    - [Storage]: pools, volumes and snapshots with their accounting.
    - [Guest], [Template], [Catalog], [Provision]: what goes into a guest, the
      catalogue of templates and images with its invariant, and the compute
      service over the catalogue.
    - [Migration], [Evacuation]: moving instances between nodes. One migration
      at a time per instance, each ends completed or rolled back; an
      evacuation accounts for every instance of the node. Calls of [Migrate]
      are whole steps there: two concurrent calls may both pass the check for
      an unfinished migration, which no lock prevents.
    - [Network]: firewall rules and interfaces. What was applied is listed.
    - [Wire], [Agent], [Cluster]: the gateway that turns commands into typed
      messages, the agent with its simulated drivers, and hub and hosts
      together ([Cluster] instantiates [NodeGateway] with gateway, agents and
      drivers, so the theorems of the services hold there too). Only live
      nodes open tunnels, every command is answered once unless a driver panics,
      an accepted creation builds the guest; what is lost on the way is stated there as well.
    - [RateLimit], [RingBuffer]: the request limiter and the telemetry buffer.
    - [Objects], [Backup], [Reconcile], [Recovery]: the object storage with
      its encrypting wrapper, backups with retention, the check that compares
      the records of all components, and restoring. A verified recovery point
      survives every history of calls; the check repairs exactly the lost
      instances; a restore starts only from an intact artifact.
    - [Calendar], [Billing]: calendar dates, and the billing service over
      [Quota] and [Invoice]: valid plans, at most one active subscription of a
      tenant, who may subscribe and for how long.
    - [Bus]: the event bus in any interleaving of its publishers, workers and
      overflow goroutines. Exactly one delivery per accepted event and
      subscription; [Close] terminates and drains what was sent before the last
      worker left; the races around [Close] are stated as examples.
    - [Ssrf], [Webhook]: where outgoing requests may go, and the webhooks that
      make them: bounded attempts, only to public addresses; that retries
      multiply is stated as an example.
    - [KeyRotation]: the records of signing and encryption keys. One active key
      per type, revoked keys stay revoked.
    - [Monitoring]: samples, thresholds and alerts over [RingBuffer]: exactly the
      alerts that are due; that they come in storms is stated as an example.
    - [Console]: terminals, from the socket through hub, stream and agent to the
      simulated shell. Input reaches only an instance its sender was let into;
      what nodes can forge is stated as an example.
    - [Notifications]: the inbox of the tenants over the events. Nobody else's
      and all of one's own notifications, and counts that agree.
    - [AuditService]: queries, reports and exports of [AuditTrail]. Reports read
      back; exports arrive in order and at most once.
    - [Diagnostics]: the diagnostic report and the health probes.
    - [Http]: envelopes, middlewares and routes of the HTTP transport. Every
      endpoint that is not public is behind a credential and the permission of
      its route.
    - [InstanceApi], [OperationsApi], [AccessApi], [ResourceApi]: the handlers
      of instances and firewalls; of jobs, migrations, backups, recovery, keys,
      reconciliation and diagnostics; of sign-in, second factor and API keys;
      of nodes, addresses and storage. Each decodes a request, calls its
      service and maps errors to statuses. Instances and volumes of other
      tenants are out of reach of any request, the operations of the platform
      are the superadmins'; what slips through is stated as examples.

    ** Fuel and bounds

    Go loops over slices and maps are structural. The search for a free
    address ([Ipam.find_loop]) and the sweep of a range query
    ([RingBuffer.points_loop]) count down a measure computed from their
    arguments; the theorems about them state that the whole range was
    covered, never that they stopped early. Bounds on sizes (totals below
    2^63) appear as hypotheses where the code would wrap around, and the
    findings of the manifest name the places where it does.

    ** What is not modelled

    - The Postgres repositories are SQL texts; the in-memory repositories
      implement the same ports and are the ones modelled.
    - Of the HTTP handlers those of templates, billing, monitoring, webhooks,
      audit, notifications, events, health and telemetry, which decode a
      request, call one service and encode the answer (their routes are in
      [Http]); decoding JSON and the router are ports, and a handler that
      panics ends the run, where the [Recoverer] of the router answers 500.
    - The socket drivers of the agent are requests to a third-party hypervisor.
    - Cryptography (SHA-256, Argon2, JWT, TOTP, X.509) is a port with the
      documented behaviour its callers rely on.
    - Environment parsing and the wiring of the processes, and the constant
      texts of the runbooks.
*)

From Stdlib Require Export SpecFloat.
From stdpp Require Export base list gmap strings pretty sorting numbers.
From stdpp Require Export list_numbers.

Declare Scope go_scope.
Delimit Scope go_scope with go.
#[global] Open Scope Z_scope.

(** ** Go errors

    A sentinel ([errors.New] in a package's [errors.go]) is identified by its
    package and text; [fmt.Errorf] without a [%w] verb builds [Errorf], with
    one it builds [Wrapf], whose text is already rendered. *)

Inductive error : Type :=
  | ErrNew (pkg text : string)
  | Errorf (text : string)
  | Wrapf (text : string) (cause : error).

#[export] Instance error_eq_dec : EqDecision error.
Proof. solve_decision. Defined.

Definition Error (e : error) : string :=
  match e with
  | ErrNew _ t | Errorf t | Wrapf t _ => t
  end.

(** [errors.Is]: the chain of causes contains the target. *)
Fixpoint errors_Is (e target : error) : bool :=
  bool_decide (e = target) ||
  match e with Wrapf _ c => errors_Is c target | _ => false end.

Inductive result (A : Type) : Type :=
  | Ok (a : A)
  | Err (e : error).
Arguments Ok {A} _.
Arguments Err {A} _.

#[export] Instance result_ret : MRet result := λ A a, Ok a.
#[export] Instance result_bind : MBind result := λ A B f m,
  match m with Ok a => f a | Err e => Err e end.

(** ** The outside world

    Every nondeterministic library call of the code reads an oracle: the
    clock ([time.Now]), the identifier generator ([uuid.NewString]), the
    iteration order of a Go map and the random source. The counters say how many readings were
    taken, so two calls may return different values. *)

Record World := mkWorld {
  w_clock : nat → Z;                          (* n-th time.Now().UTC() *)
  w_tick : nat;
  w_uuid : nat → string;                      (* n-th uuid.NewString() *)
  w_uuids : nat;
  w_order : nat → list string → list string;  (* n-th map iteration order *)
  w_ranges : nat;
  w_rand : nat → Z;                           (* n-th rand.Int63n(1<<53) *)
  w_rands : nat
}.

(** The Go specification: a [range] over a map visits each entry once, in an
    unspecified order. *)
Definition World_ok (w : World) : Prop :=
  ∀ n l, w_order w n l ≡ₚ l.

(** Two worlds with the same oracles (the readings taken may differ). *)
Definition same_oracles (w w' : World) : Prop :=
  w_clock w' = w_clock w ∧ w_uuid w' = w_uuid w ∧
  w_order w' = w_order w ∧ w_rand w' = w_rand w.

(** ** The monad of Go code

    A method reads and writes the store [S] of the objects it can reach and
    returns a value or an error; a failing method keeps the writes it made
    before its [return]. *)

Definition go (S A : Type) : Type := World → S → result A * S * World.

#[export] Instance go_ret S : MRet (go S) := λ A a w s, (Ok a, s, w).
#[export] Instance go_bind S : MBind (go S) := λ A B f m w s,
  match m w s with
  | (Ok a, s', w') => f a w' s'
  | (Err e, s', w') => (Err e, s', w')
  end.

Definition fail {S A} (e : error) : go S A := λ w s, (Err e, s, w).
Definition get {S} : go S S := λ w s, (Ok s, s, w).
Definition put {S} (s' : S) : go S () := λ w _, (Ok (), s', w).
Definition modify {S} (f : S → S) : go S () := λ w s, (Ok (), f s, w).

(** [if err != nil { return nil, err }] on an already computed result. *)
Definition lift {S A} (r : result A) : go S A := λ w s, (r, s, w).

(** [if c { return nil, e }]. *)
Definition guard_err {S} (P : Prop) `{Decision P} (e : error) : go S () :=
  if decide P then fail e else mret ().

(** [_ = m()]: the error is dropped, the effects stay. *)
Definition ignore {S A} (m : go S A) : go S () := λ w s,
  let '(_, s', w') := m w s in (Ok (), s', w').

(** [v, err := m()] with [err] inspected by the caller. *)
Definition try {S A} (m : go S A) : go S (result A) := λ w s,
  let '(r, s', w') := m w s in (Ok r, s', w').

(** A panic is an error of the runtime here. *)
Fixpoint panicked (e : error) : bool :=
  match e with
  | ErrNew pkg _ => bool_decide (pkg = "runtime")
  | Wrapf _ cause => panicked cause
  | Errorf _ => false
  end.

(** [x, err := m()] where nobody recovers: an error is a value, a panic goes
    on up. *)
Definition try_err {S A} (m : go S A) : go S (result A) := λ w s,
  let '(r, s', w') := m w s in
  match r with
  | Err e => if panicked e then (Err e, s', w') else (Ok (Err e), s', w')
  | Ok x => (Ok (Ok x), s', w')
  end.

(** [fmt.Errorf("...: %w", err)] applied to the error of a call. *)
Definition wrap_err {S A} (f : error → error) (m : go S A) : go S A := λ w s,
  match m w s with
  | (Err e, s', w') => (Err (f e), s', w')
  | x => x
  end.

(** A method of a component run on the part of a larger store it owns. *)
Definition zoom {S T A} (pick : S → T) (place : T → S → S) (m : go T A) : go S A :=
  λ w s, let '(r, t, w') := m w (pick s) in (r, place t s, w').

Definition now_of (w : World) : Z := w_clock w (w_tick w).
Definition tick (w : World) : World :=
  mkWorld (w_clock w) (S (w_tick w)) (w_uuid w) (w_uuids w)
    (w_order w) (w_ranges w) (w_rand w) (w_rands w).
Definition next_uuid (w : World) : World :=
  mkWorld (w_clock w) (w_tick w) (w_uuid w) (S (w_uuids w))
    (w_order w) (w_ranges w) (w_rand w) (w_rands w).
Definition next_range (w : World) : World :=
  mkWorld (w_clock w) (w_tick w) (w_uuid w) (w_uuids w)
    (w_order w) (S (w_ranges w)) (w_rand w) (w_rands w).
Definition next_rand (w : World) : World :=
  mkWorld (w_clock w) (w_tick w) (w_uuid w) (w_uuids w)
    (w_order w) (w_ranges w) (w_rand w) (S (w_rands w)).

Definition time_Now {St} : go St Z := λ w s, (Ok (now_of w), s, tick w).

Definition uuid_NewString {St} : go St string := λ w s,
  (Ok (w_uuid w (w_uuids w)), s, next_uuid w).

(** [rand.Int63n(1 << 53)], the source of [rand.Float64]. *)
Definition rand_53 {St} : go St Z := λ w s,
  (Ok (w_rand w (w_rands w) mod 2 ^ 53), s, next_rand w).

(** [for k, v := range m]: the entries in the order the runtime picks. *)
Definition entries {V} (order : list string → list string)
    (m : gmap string V) : list (string * V) :=
  omap (λ k, pair k <$> m !! k) (order (map_to_list m).*1).

Definition range_map {St V} (m : gmap string V) : go St (list (string * V)) :=
  λ w s, (Ok (entries (w_order w (w_ranges w)) m), s, next_range w).

(** A library call that reads the world and changes nothing. *)
Definition reading {St A} (f : World → A) : go St A := λ w s, (Ok (f w), s, w).

(** The three results of a run. *)
Definition answer {St A} (m : go St A) (w : World) (s : St) : result A := (m w s).1.1.
Definition exec {St A} (m : go St A) (w : World) (s : St) : St := (m w s).1.2.
Definition world {St A} (m : go St A) (w : World) (s : St) : World := (m w s).2.

(** ** Machine integers

    [int] and [int64] are 64-bit two's complement on the platforms the
    control plane is built for. *)

Definition wrap64 (z : Z) : Z := (z + 2 ^ 63) mod 2 ^ 64 - 2 ^ 63.
Definition int64_ok (z : Z) : Prop := - 2 ^ 63 ≤ z < 2 ^ 63.
Definition max_int64 : Z := 2 ^ 63 - 1.
Definition min_int64 : Z := - 2 ^ 63.

Definition add64 (a b : Z) : Z := wrap64 (a + b).
Definition sub64 (a b : Z) : Z := wrap64 (a - b).
Definition mul64 (a b : Z) : Z := wrap64 (a * b).
(** Go's [/] truncates toward zero. *)
Definition quot64 (a b : Z) : Z := wrap64 (Z.quot a b).
#[global] Arguments wrap64 : simpl never.
#[global] Arguments add64 : simpl never.
#[global] Arguments sub64 : simpl never.
#[global] Arguments mul64 : simpl never.
#[global] Arguments quot64 : simpl never.

Lemma wrap64_id z : int64_ok z → wrap64 z = z.
Proof.
  unfold int64_ok, wrap64. intros H.
  rewrite Z.mod_small; lia.
Qed.

Lemma wrap64_ok z : int64_ok (wrap64 z).
Proof.
  unfold int64_ok, wrap64.
  pose proof (Z.mod_pos_bound (z + 2 ^ 63) (2 ^ 64) ltac:(lia)). lia.
Qed.

Lemma wrap64_add_l a b : wrap64 (wrap64 a + b) = wrap64 (a + b).
Proof.
  unfold wrap64. f_equal.
  replace ((a + 2 ^ 63) mod 2 ^ 64 - 2 ^ 63 + b + 2 ^ 63)
    with ((a + 2 ^ 63) mod 2 ^ 64 + b) by lia.
  rewrite Zplus_mod_idemp_l. f_equal. lia.
Qed.

Lemma add64_id a b : int64_ok (a + b) → add64 a b = a + b.
Proof. apply wrap64_id. Qed.
Lemma sub64_id a b : int64_ok (a - b) → sub64 a b = a - b.
Proof. apply wrap64_id. Qed.
Lemma mul64_id a b : int64_ok (a * b) → mul64 a b = a * b.
Proof. apply wrap64_id. Qed.

(** ** Time

    A [time.Time] is a count of nanoseconds since the Unix epoch; the zero
    value is 1 January of year 1. A [time.Duration] is an [int64]. *)

Definition zero_time : Z := -62135596800 * 10 ^ 9.
Definition IsZero (t : Z) : Prop := t = zero_time.
#[export] Instance IsZero_dec t : Decision (IsZero t) := decide (t = zero_time).

Definition Second : Z := 10 ^ 9.
Definition Minute : Z := 60 * Second.
Definition Hour : Z := 60 * Minute.

Definition Unix (t : Z) : Z := t / Second.
Definition UnixNano (t : Z) : Z := wrap64 t.
Definition time_Add (t d : Z) : Z := t + d.
(** [t.Sub u] saturates at the extreme durations. *)
Definition time_Sub (t u : Z) : Z := Z.max min_int64 (Z.min max_int64 (t - u)).

(** [t.AddDate(0, 0, days)] in UTC. *)
Definition time_AddDays (t days : Z) : Z := t + days * (24 * Hour).

(** ** Orders *)

(** [less] is a strict weak order on the elements that satisfy [P]. *)
Definition strict_weak_on {A} (P : A → Prop) (less : A → A → bool) : Prop :=
  (∀ x, P x → less x x = false) ∧
  (∀ x y z, P x → P y → P z → less x y = true → less y z = true → less x z = true) ∧
  (∀ x y z, P x → P y → P z → less x y = false → less y z = false → less x z = false).

(** ** IEEE 754 binary64

    [float64] is the specification type of Rocq's floats: every operation is
    exact arithmetic followed by one rounding to nearest even, so the model
    computes what a processor without fused multiply-add computes. *)

Abbreviation float64 := spec_float.
Definition fadd : float64 → float64 → float64 := SFadd 53 1024.
Definition fsub : float64 → float64 → float64 := SFsub 53 1024.
Definition fmul : float64 → float64 → float64 := SFmul 53 1024.
Definition fdiv : float64 → float64 → float64 := SFdiv 53 1024.
Definition flt (a b : float64) : bool := SFltb a b.
Definition fle (a b : float64) : bool := SFleb a b.
Definition fgt (a b : float64) : bool := flt b a.
Definition fge (a b : float64) : bool := fle b a.

#[export] Instance spec_float_eq_dec : EqDecision spec_float.
Proof. solve_decision. Defined.

Definition of_int (z : Z) : float64 := binary_normalize 53 1024 z 0 false.
(** A decimal literal [num/den]: one correctly rounded division. *)
Definition flit (num den : Z) : float64 := fdiv (of_int num) (of_int den).

(** [±m * 2^e] as a fraction rounded by [round]. *)
Definition round_with (rnd : Z → Z → Z) (x : float64) : Z :=
  match x with
  | S754_finite s m e =>
      let v := if 0 <=? e then Z.pos m * 2 ^ e else rnd (Z.pos m) (2 ^ (- e)) in
      if s then - v else v
  | _ => 0
  end.

Definition ceil_div (n d : Z) : Z := - (- n / d).
Definition half_up_div (n d : Z) : Z := (2 * n + d) / (2 * d).
Definition half_even_div (n d : Z) : Z :=
  let q := n / d in let r := 2 * (n mod d) in
  if r <? d then q else if d <? r then q + 1 else if Z.even q then q else q + 1.

Definition sign_of (x : float64) : bool :=
  match x with
  | S754_zero s | S754_infinity s | S754_finite s _ _ => s
  | S754_nan => false
  end.

Definition to_integral (f : Z → Z) (x : float64) : float64 :=
  match x with
  | S754_finite s _ _ => binary_normalize 53 1024 (f 0) 0 s
  | _ => x
  end.

(** [math.Ceil]: toward plus infinity (a negative number rounds its
    magnitude down); [math.Round]: half away from zero. *)
Definition math_Ceil (x : float64) : float64 :=
  to_integral (λ _, round_with (if sign_of x then Z.div else ceil_div) x) x.
Definition math_Round (x : float64) : float64 :=
  to_integral (λ _, round_with half_up_div x) x.

(** [int64(x)]: truncation; out of range and NaN give the amd64 result. *)
Definition to_int64 (x : float64) : Z :=
  match x with
  | S754_finite _ _ _ =>
      let z := round_with Z.div x in
      if decide (int64_ok z) then z else min_int64
  | S754_zero _ => 0
  | _ => min_int64
  end.

(** [d.Hours()]. *)
Definition Hours (d : Z) : float64 :=
  fadd (of_int (Z.quot d Hour)) (fdiv (of_int (Z.rem d Hour)) (of_int Hour)).

(** [fmt.Sprintf("%.<k>f", x)]: correctly rounded decimal, ties to even. *)
Definition pad_zeros (k : nat) (s : string) : string :=
  Nat.iter (k - String.length s) (String (Ascii.ascii_of_N 48)) s.

Definition fmt_f (k : nat) (x : float64) : string :=
  match x with
  | S754_nan => "NaN"
  | S754_infinity s => if s then "-Inf" else "+Inf"
  | S754_zero s =>
      (if s then "-" else "") +:+ "0" +:+ (if k is O then "" else "." +:+ pad_zeros k "")
  | S754_finite s m e =>
      let v := half_even_div (Z.pos m * 10 ^ Z.of_nat k * 2 ^ Z.max 0 e) (2 ^ Z.max 0 (- e)) in
      (if s then "-" else "") +:+ pretty (v / 10 ^ Z.of_nat k) +:+
      (if k is O then "" else "." +:+ pad_zeros k (pretty (v mod 10 ^ Z.of_nat k)))
  end.

Example fmt_f_ex : fmt_f 1 (flit 25 4) = "6.2" ∧ fmt_f 2 (flit 25 4) = "6.25"
  ∧ fmt_f 0 (of_int 730) = "730" ∧ fmt_f 1 (flit (-1) 20) = "-0.1"
  ∧ fmt_f 2 (flit 1 20) = "0.05".
Proof. vm_compute. auto. Qed.

(** The order on floats is lexicographic on rank, exponent and mantissa. *)
Definition float_key (x : float64) : Z * Z * Z :=
  match x with
  | S754_nan => (0, 0, 0)
  | S754_zero _ => (0, 0, 0)
  | S754_infinity s => if s then (-2, 0, 0) else (2, 0, 0)
  | S754_finite s m e => if s then (-1, - e, - Z.pos m) else (1, e, Z.pos m)
  end.

Definition lex_lt (a b : Z * Z * Z) : Prop :=
  a.1.1 < b.1.1 ∨ a.1.1 = b.1.1 ∧ (a.1.2 < b.1.2 ∨ a.1.2 = b.1.2 ∧ a.2 < b.2).

Lemma flt_key x y : x ≠ S754_nan → y ≠ S754_nan → flt x y = true ↔ lex_lt (float_key x) (float_key y).
Proof.
  intros Hx Hy. unfold flt, SFltb, lex_lt.
  destruct x as [[]|[]| |[] m e], y as [[]|[]| |[] m' e']; try done; cbn [SFcompare float_key fst snd];
    try (split; [try done|]; lia).
  all: destruct (Z.compare_spec e e'); subst; try (split; [try done|]; lia).
  all: rewrite ?Pos.compare_cont_spec; change (Pcompare m m' Eq) with (m ?= m')%positive;
    destruct (Pos.compare_spec m m'); simpl; subst; split; try done; lia.
Qed.

Lemma flt_strict_weak : strict_weak_on (λ x, x ≠ S754_nan) flt.
Proof.
  assert (∀ x y, x ≠ S754_nan → y ≠ S754_nan →
    flt x y = false ↔ ¬ lex_lt (float_key x) (float_key y)) as Hf.
  { intros x y Hx Hy. rewrite <-flt_key by done. by rewrite not_true_iff_false. }
  unfold lex_lt in Hf. split_and!.
  - intros x Hx. apply Hf; [done|done|]. lia.
  - intros x y z Hx Hy Hz. rewrite !flt_key by done. unfold lex_lt. lia.
  - intros x y z Hx Hy Hz. rewrite !Hf by done. lia.
Qed.

(** ** Strings

    Case mapping is the ASCII part of [strings.ToLower] and
    [strings.EqualFold]; other bytes are compared as they are. *)

Definition lower_ascii (c : Ascii.ascii) : Ascii.ascii :=
  let n := Ascii.N_of_ascii c in
  if decide (65 ≤ n ≤ 90)%N then Ascii.ascii_of_N (n + 32) else c.
Definition upper_ascii (c : Ascii.ascii) : Ascii.ascii :=
  let n := Ascii.N_of_ascii c in
  if decide (97 ≤ n ≤ 122)%N then Ascii.ascii_of_N (n - 32) else c.

Fixpoint string_map (f : Ascii.ascii → Ascii.ascii) (s : string) : string :=
  match s with
  | EmptyString => EmptyString
  | String c s' => String (f c) (string_map f s')
  end.

Definition ToLower : string → string := string_map lower_ascii.
Definition ToUpper : string → string := string_map upper_ascii.
Definition EqualFold (a b : string) : Prop := ToLower a = ToLower b.
#[export] Instance EqualFold_dec a b : Decision (EqualFold a b) :=
  decide (ToLower a = ToLower b).

Fixpoint strings_Join (l : list string) (sep : string) : string :=
  match l with
  | [] => ""
  | [s] => s
  | s :: l' => s +:+ sep +:+ strings_Join l' sep
  end.

(** [strconv]-style rendering of the verbs [%d] and [%v] on a bool. *)
Definition fmt_d (z : Z) : string := pretty z.
Definition fmt_bool (b : bool) : string := if b then "true" else "false".

(** [if s == "" { s = d }]. *)
Definition or_default (d s : string) : string := if decide (s = "") then d else s.

Lemma or_default_ne d s : d ≠ "" → or_default d s ≠ "".
Proof. unfold or_default. by case_decide. Qed.

Lemma length_string_app s t : String.length (s +:+ t) = (String.length s + String.length t)%nat.
Proof. induction s as [|c s IH]; simpl; [done|by rewrite IH]. Qed.

Lemma str_app_assoc (a b c : string) : a +:+ b +:+ c = (a +:+ b) +:+ c.
Proof. induction a as [|x a IH]; [done|]. exact (f_equal (String x) IH). Qed.

(** A text is determined by any longer one it ends, up to its length. *)
Lemma string_app_tail a b x y :
  a +:+ x = b +:+ y → String.length x = String.length y → x = y.
Proof.
  intros He Hl. pose proof (f_equal String.length He) as Hlen. rewrite !length_string_app in Hlen.
  assert (String.length a = String.length b) as Hab by lia. clear Hlen Hl. revert b He Hab.
  induction a as [|c a IH]; intros [|c' b] He Hab; simpl in *; try done.
  injection He as _ He. injection Hab as Hab. by apply (IH b).
Qed.

(** ** Dynamic values: [interface{}] and [map[string]interface{}] *)

Inductive any : Type :=
  | AnyStr (s : string)
  | AnyInt (z : Z)
  | AnyFloat (x : float64)
  | AnyBool (b : bool)
  | AnyStrs (l : list string)
  | AnyObj (o : list (string * any)).   (* a nested map, by its entries *)

#[export] Instance any_eq_dec : EqDecision any.
Proof.
  refine (fix go (x y : any) : Decision (x = y) :=
    match x, y with
    | AnyStr a, AnyStr b => cast_if (decide (a = b))
    | AnyInt a, AnyInt b => cast_if (decide (a = b))
    | AnyFloat a, AnyFloat b => cast_if (decide (a = b))
    | AnyBool a, AnyBool b => cast_if (decide (a = b))
    | AnyStrs a, AnyStrs b => cast_if (decide (a = b))
    | AnyObj a, AnyObj b =>
        cast_if ((fix gos (a b : list (string * any)) : Decision (a = b) :=
          match a, b with
          | [], [] => left eq_refl
          | (k, x) :: a, (k', x') :: b =>
              cast_if_and3 (decide (k = k')) (go x x') (gos a b)
          | _, _ => right _
          end) a b)
    | _, _ => right _
    end); abstract congruence.
Defined.

Abbreviation Details := (gmap string any).
Definition details (l : list (string * any)) : Details := list_to_map l.

(** ** Slices *)

(** [l[lo:hi]] panics when the bounds are out of range. *)
Definition panic {A} (why : string) : result A := Err (ErrNew "runtime" why).

Definition slice_range {A} (l : list A) (lo hi : Z) : result (list A) :=
  if decide (0 ≤ lo ∧ lo ≤ hi ∧ hi ≤ Z.of_nat (length l))
  then Ok (take (Z.to_nat (hi - lo)) (drop (Z.to_nat lo) l))
  else panic "slice bounds out of range".

(** [l[i]] and [l[i] = x] panic when the index is out of range. *)
Definition slice_get {A} (l : list A) (i : Z) : result A :=
  if decide (i < 0) then panic "index out of range"
  else match l !! Z.to_nat i with
       | Some x => Ok x
       | None => panic "index out of range"
       end.

Definition slice_set {A} (l : list A) (i : Z) (x : A) : result (list A) :=
  if decide (0 ≤ i < Z.of_nat (length l)) then Ok (<[Z.to_nat i := x]> l)
  else panic "index out of range".

(** The offset/limit window the list endpoints share:
    [if offset >= total { return [] }; end := offset + limit;
    if limit <= 0 || end > total { end = total }; return l[offset:end]]. *)
Definition window {A} (l : list A) (limit offset : Z) : result (list A) :=
  let total := Z.of_nat (length l) in
  if decide (total ≤ offset) then Ok []
  else
    let end_ := add64 offset limit in
    let end_ := if decide (limit ≤ 0 ∨ total < end_) then total else end_ in
    slice_range l offset end_.

(** [sort.Slice]: some permutation of the slice in which no element is less
    than an earlier one; which of several is not specified (the sort is not
    stable). The order has to be a strict weak order on the elements. *)
Class SortSlice := {
  sort_Slice : ∀ {A}, (A → A → bool) → list A → list A;
  sort_Slice_perm : ∀ {A} (less : A → A → bool) l, sort_Slice less l ≡ₚ l;
  sort_Slice_sorted : ∀ {A} (P : A → Prop) (less : A → A → bool) l,
    strict_weak_on P less → Forall P l →
    StronglySorted (λ x y, less y x = false) (sort_Slice less l)
}.

(** Insertion sort is one such function (it is what the library runs on
    short slices). *)
Section insertion.
Context {A : Type} (less : A → A → bool).

Fixpoint insert_sorted (x : A) (l : list A) : list A :=
  match l with
  | [] => [x]
  | y :: l' => if less x y then x :: y :: l' else y :: insert_sorted x l'
  end.

Definition insertion_sort (l : list A) : list A :=
  foldl (λ acc x, insert_sorted x acc) [] l.

Lemma insert_sorted_perm x l : insert_sorted x l ≡ₚ x :: l.
Proof.
  induction l as [|y l IH]; simpl; [done|].
  case_match; [done|]. rewrite IH. apply perm_swap.
Qed.

Lemma insertion_sort_perm l : insertion_sort l ≡ₚ l.
Proof.
  unfold insertion_sort. change l with ([] ++ l) at 2.
  generalize (@nil A) as acc. induction l as [|x l IH]; intros acc; simpl.
  { by rewrite app_nil_r. }
  rewrite IH, insert_sorted_perm. simpl. by rewrite Permutation_middle.
Qed.

Context (P : A → Prop) (Hweak : strict_weak_on P less).

Lemma insert_sorted_sorted x l :
  P x → Forall P l →
  StronglySorted (λ x y, less y x = false) l →
  StronglySorted (λ x y, less y x = false) (insert_sorted x l).
Proof.
  destruct Hweak as (Hirr & Htr & Hneg). intros Hx HP Hl.
  induction Hl as [|y l Hl IH Hy]; simpl; [repeat constructor|].
  apply Forall_cons in HP as [HPy HP].
  destruct (less x y) eqn:Exy.
  - assert (less y x = false) as Hyx.
    { destruct (less y x) eqn:E; [|done]. specialize (Htr x y x Hx HPy Hx Exy E).
      rewrite Hirr in Htr; done. }
    constructor; [by constructor|]. constructor; [done|].
    rewrite Forall_forall in HP, Hy |- *. intros z Hz.
    apply (Hneg z y x); auto.
  - constructor; [by apply IH|]. rewrite insert_sorted_perm. by constructor.
Qed.

Lemma insertion_sort_sorted l :
  Forall P l → StronglySorted (λ x y, less y x = false) (insertion_sort l).
Proof.
  unfold insertion_sort.
  assert (Forall P (@nil A)) as HPacc by constructor.
  assert (Hacc : StronglySorted (λ x y, less y x = false) (@nil A)) by constructor.
  revert HPacc Hacc. generalize (@nil A) as acc.
  induction l as [|x l IH]; intros acc HPacc Hacc HP; simpl; [done|].
  apply Forall_cons in HP as [HPx HP]. apply IH; [|by apply insert_sorted_sorted|done].
  rewrite insert_sorted_perm. by constructor.
Qed.
End insertion.

Definition InsertionSort : SortSlice := {|
  sort_Slice := @insertion_sort;
  sort_Slice_perm := @insertion_sort_perm;
  sort_Slice_sorted := λ A P less l H HP, insertion_sort_sorted less P H l HP
|}.

(** ** Field assignment

    [x <| f := v |>] is the record [x] after the assignment [x.f = v]. Each
    record declares its eta expansion once and derives one instance per
    assigned field. *)

Class Setter {R T : Type} (f : R → T) := set_field : (T → T) → R → R.
#[global] Hint Mode Setter ! ! ! : typeclass_instances.

Ltac setter eta f :=
  let u := fresh "u" in let r := fresh "r" in
  intros u r;
  let t := eval cbv beta delta [eta] in (eta r) in
  let t := eval pattern (f r) in t in
  lazymatch t with
  | ?g _ => let b := eval cbv beta in (g (u (f r))) in exact b
  end.

Notation "x <| f := v |>" := (set_field (f := f) (λ _, v) x)
  (at level 1, left associativity, v at level 200) : go_scope.
#[global] Open Scope go_scope.

(** ** Running Go code: simplification and inversion *)

(** [m] fails and leaves everything as it was. *)
Definition refused {St X} (m : go St X) (s : St) (w : World) : Prop :=
  ∃ e w', m w s = (Err e, s, w').

Create HintDb go.
#[export] Hint Unfold answer exec world fail get put modify lift guard_err
  ignore try wrap_err zoom time_Now uuid_NewString rand_53 range_map : go.

Ltac go_unfold :=
  repeat (progress (autounfold with go in *; unfold mbind, go_bind, mret, go_ret in *;
    cbn [fst snd] in *)).

(** Evaluate the code on every branch, closing the contradictory ones. *)
Ltac go_cases :=
  repeat (go_unfold; simplify_eq/=; case_match; simplify_eq/=).

Section monad.
Context {St : Type}.

Lemma bind_Ok {A B} (m : go St A) (f : A → go St B) w s b s' w' :
  (m ≫= f) w s = (Ok b, s', w') ↔
  ∃ a s1 w1, m w s = (Ok a, s1, w1) ∧ f a w1 s1 = (Ok b, s', w').
Proof.
  unfold mbind, go_bind. destruct (m w s) as [[[a|e] s1] w1].
  - split; [intros H; by exists a, s1, w1|].
    intros (a' & s2 & w2 & E & H). by injection E as <- <- <-.
  - split; [done|]. intros (? & ? & ? & E & ?). discriminate E.
Qed.

Lemma bind_Err {A B} (m : go St A) (f : A → go St B) w s e s' w' :
  (m ≫= f) w s = (Err e, s', w') ↔
  m w s = (Err e, s', w') ∨
  ∃ a s1 w1, m w s = (Ok a, s1, w1) ∧ f a w1 s1 = (Err e, s', w').
Proof.
  unfold mbind, go_bind. destruct (m w s) as [[[a|e1] s1] w1].
  - split; [intros H; right; by exists a, s1, w1|].
    intros [E|(a' & s2 & w2 & E & H)]; [discriminate E|].
    by injection E as <- <- <-.
  - split; [intros [= <- <- <-]; by left|].
    intros [E|(? & ? & ? & E & ?)]; [by injection E as <- <- <-|discriminate E].
Qed.

Lemma answer_exec_world {A} (m : go St A) w s :
  m w s = (answer m w s, exec m w s, world m w s).
Proof. unfold answer, exec, world. by destruct (m w s) as [[??]?]. Qed.

(** A method that leaves the store as it found it. *)
Definition read_only {A} (m : go St A) : Prop := ∀ w s, exec m w s = s.

Lemma read_only_ret {A} (a : A) : read_only (mret a).
Proof. done. Qed.
Lemma read_only_fail {A} e : read_only (fail (A := A) e).
Proof. done. Qed.
Lemma read_only_get : read_only get.
Proof. done. Qed.
Lemma read_only_lift {A} (r : result A) : read_only (lift r).
Proof. done. Qed.
Lemma read_only_now : read_only time_Now.
Proof. done. Qed.
Lemma read_only_uuid : read_only uuid_NewString.
Proof. done. Qed.
Lemma read_only_range {V} (m : gmap string V) : read_only (range_map m).
Proof. done. Qed.
Lemma read_only_guard P `{Decision P} e : read_only (guard_err P e).
Proof. intros w s. unfold guard_err. by case_decide. Qed.
Lemma read_only_bind {A B} (m : go St A) (f : A → go St B) :
  read_only m → (∀ a, read_only (f a)) → read_only (m ≫= f).
Proof.
  intros Hm Hf w s. specialize (Hm w s). unfold exec, mbind, go_bind in *.
  destruct (m w s) as [[[a|e] s1] w1]; simpl in *; [|done].
  subst s1. apply Hf.
Qed.
End monad.

(** A method whose first step is refused is refused. *)
Lemma refused_bind {St X Y} (m : go St X) (f : X → go St Y) s w :
  refused m s w → refused (m ≫= f) s w.
Proof. intros (e & w' & Hm). exists e, w'. unfold mbind, go_bind. by rewrite Hm. Qed.

(** A quiet first step that succeeds. *)
Lemma refused_after {St X Y} (m : go St X) (f : X → go St Y) x s w w' :
  m w s = (Ok x, s, w') → refused (f x) s w' → refused (m ≫= f) s w.
Proof. intros Hm. unfold refused, mbind, go_bind. by rewrite Hm. Qed.

#[export] Hint Resolve read_only_ret read_only_fail read_only_get read_only_lift
  read_only_now read_only_uuid read_only_range read_only_guard read_only_bind : go.

(** [x ← m; k] decomposed in a hypothesis about a successful run. *)
Ltac go_inv :=
  repeat match goal with
  | H : (_ ≫= _) _ _ = (Ok _, _, _) |- _ =>
      apply bind_Ok in H; destruct H as (? & ? & ? & ? & H)
  | H : (_, _, _) = (_, _, _) |- _ => injection H as ???; subst
  end.

(** ** Weakest preconditions

    [wp m Q w s]: the run of [m] from [s] ends with a result, a store and a
    world that satisfy [Q]. Every rule is an equivalence, so a run is
    evaluated by rewriting; [wp_elim] reads a fact off the run. *)

Definition wp {St A} (m : go St A) (Q : result A → St → World → Prop)
    (w : World) (s : St) : Prop := Q (m w s).1.1 (m w s).1.2 (m w s).2.

Section wp.
Context {St : Type}.

Lemma wp_elim {A} (m : go St A) Q w s :
  wp m Q w s ↔ Q (answer m w s) (exec m w s) (world m w s).
Proof. done. Qed.

Lemma wp_mono {A} (m : go St A) (P Q : result A → St → World → Prop) w s :
  wp m P w s → (∀ r s' w', P r s' w' → Q r s' w') → wp m Q w s.
Proof. unfold wp. auto. Qed.

Lemma wp_bind {A B} (m : go St A) (f : A → go St B) Q w s :
  wp (m ≫= f) Q w s ↔
  wp m (λ r s' w', match r with Ok a => wp (f a) Q w' s' | Err e => Q (Err e) s' w' end) w s.
Proof. unfold wp, mbind, go_bind. by destruct (m w s) as [[[a|e] s'] w']. Qed.

Lemma wp_ret {A} (a : A) Q w s : wp (mret (M := go St) a) Q w s ↔ Q (Ok a) s w.
Proof. done. Qed.
Lemma wp_fail {A} e Q w s : wp (fail (S := St) (A := A) e) Q w s ↔ Q (Err e) s w.
Proof. done. Qed.
Lemma wp_lift {A} (r : result A) Q w s : wp (lift (S := St) r) Q w s ↔ Q r s w.
Proof. done. Qed.
Lemma wp_get Q w s : wp (get (S := St)) Q w s ↔ Q (Ok s) s w.
Proof. done. Qed.
Lemma wp_put s' Q w s : wp (put (S := St) s') Q w s ↔ Q (Ok ()) s' w.
Proof. done. Qed.
Lemma wp_modify (f : St → St) Q w s : wp (modify f) Q w s ↔ Q (Ok ()) (f s) w.
Proof. done. Qed.
Lemma wp_now Q w s : wp (time_Now (St := St)) Q w s ↔ Q (Ok (now_of w)) s (tick w).
Proof. done. Qed.
Lemma wp_reading {A} (f : World → A) Q w s : wp (reading (St := St) f) Q w s ↔ Q (Ok (f w)) s w.
Proof. done. Qed.
Lemma wp_uuid Q w s : wp (uuid_NewString (St := St)) Q w s ↔ Q (Ok (w_uuid w (w_uuids w))) s (next_uuid w).
Proof. done. Qed.
Lemma wp_rand Q w s :
  wp (rand_53 (St := St)) Q w s ↔ Q (Ok (w_rand w (w_rands w) mod 2 ^ 53)) s (next_rand w).
Proof. done. Qed.
Lemma wp_range {V} (m : gmap string V) Q w s :
  wp (range_map (St := St) m) Q w s ↔ Q (Ok (entries (w_order w (w_ranges w)) m)) s (next_range w).
Proof. done. Qed.
Lemma wp_ignore {A} (m : go St A) Q w s :
  wp (ignore m) Q w s ↔ wp m (λ _ s' w', Q (Ok ()) s' w') w s.
Proof. unfold wp, ignore. by destruct (m w s) as [[??]?]. Qed.
Lemma wp_try {A} (m : go St A) Q w s :
  wp (try m) Q w s ↔ wp m (λ r s' w', Q (Ok r) s' w') w s.
Proof. unfold wp, try. by destruct (m w s) as [[??]?]. Qed.
Lemma wp_try_err {A} (m : go St A) Q w s :
  wp (try_err m) Q w s ↔
  wp m (λ r s' w', match r with
                   | Ok a => Q (Ok (Ok a)) s' w'
                   | Err e => Q (if panicked e then Err e else Ok (Err e)) s' w'
                   end) w s.
Proof.
  unfold wp, try_err. destruct (m w s) as [[[a|e] ?] ?]; cbn; [tauto|]. destruct (panicked e); cbn; tauto.
Qed.
Lemma wp_wrap_err {A} f (m : go St A) Q w s :
  wp (wrap_err f m) Q w s ↔
  wp m (λ r s' w', match r with Ok a => Q (Ok a) s' w' | Err e => Q (Err (f e)) s' w' end) w s.
Proof. unfold wp, wrap_err. by destruct (m w s) as [[[a|e] ?]?]. Qed.
Lemma wp_zoom {T A} (pick : St → T) place (m : go T A) Q w s :
  wp (zoom pick place m) Q w s ↔ wp m (λ r t w', Q r (place t s) w') w (pick s).
Proof. unfold wp, zoom. by destruct (m w (pick s)) as [[??]?]. Qed.
End wp.

(** A run of a method whose effect is known. *)
Lemma wp_run {St A} (m : go St A) Q w s r s' w' :
  m w s = (r, s', w') → wp m Q w s ↔ Q r s' w'.
Proof. unfold wp. by intros ->. Qed.

Create Rewrite HintDb wp.
#[export] Hint Rewrite @wp_bind @wp_ret @wp_fail @wp_lift @wp_get @wp_put @wp_modify
  @wp_now @wp_reading @wp_uuid @wp_rand @wp_range @wp_ignore @wp_try @wp_try_err @wp_wrap_err @wp_zoom : wp.

(** Evaluate the straight-line prefix of a run. *)
Ltac wp_step := cbn [fst snd]; autorewrite with wp.

Lemma World_ok_tick w : World_ok w → World_ok (tick w).
Proof. done. Qed.
Lemma World_ok_uuid w : World_ok w → World_ok (next_uuid w).
Proof. done. Qed.
Lemma World_ok_range w : World_ok w → World_ok (next_range w).
Proof. done. Qed.
Lemma World_ok_rand w : World_ok w → World_ok (next_rand w).
Proof. done. Qed.
#[export] Hint Resolve World_ok_tick World_ok_uuid World_ok_range World_ok_rand : go.

(** ** Methods that only take readings *)

Lemma same_oracles_refl w : same_oracles w w.
Proof. by split_and!. Qed.
Lemma same_oracles_trans w1 w2 w3 :
  same_oracles w1 w2 → same_oracles w2 w3 → same_oracles w1 w3.
Proof. intros (?&?&?&?) (?&?&?&?). split_and!; congruence. Qed.

(** The store stays, only readings are taken. *)
Definition quiet {St X} (m : go St X) : Prop :=
  ∀ w s, exec m w s = s ∧ same_oracles w (world m w s).

Lemma wp_quiet {St X} (m : go St X) (Q : result X → St → World → Prop) w s :
  quiet m → (∀ r w', same_oracles w w' → Q r s w') → wp m Q w s.
Proof.
  intros Hm HQ. rewrite wp_elim. destruct (Hm w s) as [-> Hw]. by apply HQ.
Qed.

Lemma quiet_ret {St X} (x : X) : quiet (mret (M := go St) x).
Proof. intros w s. split; [done|apply same_oracles_refl]. Qed.
Lemma quiet_fail {St X} e : quiet (fail (S := St) (A := X) e).
Proof. intros w s. split; [done|apply same_oracles_refl]. Qed.
Lemma quiet_lift {St X} (r : result X) : quiet (lift (S := St) r).
Proof. intros w s. split; [done|apply same_oracles_refl]. Qed.
Lemma quiet_get {St} : quiet (get (S := St)).
Proof. intros w s. split; [done|apply same_oracles_refl]. Qed.
Lemma quiet_now {St} : quiet (time_Now (St := St)).
Proof. intros w s. by split_and!. Qed.
Lemma quiet_uuid {St} : quiet (uuid_NewString (St := St)).
Proof. intros w s. by split_and!. Qed.
Lemma quiet_reading {St X} (f : World → X) : quiet (reading (St := St) f).
Proof. intros w s. split; [done|apply same_oracles_refl]. Qed.
Lemma quiet_range {St V} (m : gmap string V) : quiet (range_map (St := St) m).
Proof. intros w s. by split_and!. Qed.
Lemma quiet_bind {St X Y} (m : go St X) (f : X → go St Y) :
  quiet m → (∀ x, quiet (f x)) → quiet (m ≫= f).
Proof.
  intros Hm Hf w s. specialize (Hm w s). unfold exec, world, mbind, go_bind in *.
  destruct (m w s) as [[[x|e] s1] w1]; simpl in *; [|done].
  destruct Hm as [-> Hw]. destruct (Hf x w1 s) as [Hs Hw2]. unfold exec, world in *.
  split; [done|]. by eapply same_oracles_trans.
Qed.
Lemma quiet_try {St X} (m : go St X) : quiet m → quiet (try m).
Proof.
  intros Hm w s. specialize (Hm w s). unfold exec, world, try in *. by destruct (m w s) as [[??]?].
Qed.
Lemma quiet_wrap {St X} f (m : go St X) : quiet m → quiet (wrap_err f m).
Proof.
  intros Hm w s. specialize (Hm w s). unfold exec, world, wrap_err in *.
  by destruct (m w s) as [[[]?]?].
Qed.
#[export] Hint Resolve quiet_ret quiet_fail quiet_lift quiet_get quiet_now quiet_uuid
  quiet_reading quiet_range quiet_bind quiet_try quiet_wrap : go.

(** Splits a method on its tests and closes it with the rules above. *)
Ltac quiet :=
  repeat first [progress intros | apply quiet_bind | apply quiet_try | apply quiet_wrap
               | case_match | solve [auto with go]].

(** ** Methods that keep the oracles

    A method may take readings and write its store, but the world it leaves
    answers from the same oracles. Every method without a foreign port does. *)

Definition polite {St X} (m : go St X) : Prop := ∀ w s, same_oracles w (world m w s).

Lemma World_ok_same w w' : same_oracles w w' → World_ok w → World_ok w'.
Proof. intros (_ & _ & Ho & _) Hw n l. rewrite Ho. apply Hw. Qed.

Section polite.
Context {St : Type}.

Lemma polite_quiet {X} (m : go St X) : quiet m → polite m.
Proof. intros Hm w s. apply Hm. Qed.
Lemma polite_put s' : polite (put (S := St) s').
Proof. intros w s. apply same_oracles_refl. Qed.
Lemma polite_modify (f : St → St) : polite (modify f).
Proof. intros w s. apply same_oracles_refl. Qed.
Lemma polite_rand : polite (rand_53 (St := St)).
Proof. intros w s. by split_and!. Qed.
Lemma polite_bind {X Y} (m : go St X) (f : X → go St Y) :
  polite m → (∀ x, polite (f x)) → polite (m ≫= f).
Proof.
  intros Hm Hf w s. specialize (Hm w s). unfold world, mbind, go_bind in *.
  destruct (m w s) as [[[x|e] s1] w1]; simpl in *; [|done].
  eapply same_oracles_trans; [done|apply Hf].
Qed.
Lemma polite_ignore {X} (m : go St X) : polite m → polite (ignore m).
Proof. intros Hm w s. specialize (Hm w s). unfold world, ignore in *. by destruct (m w s) as [[??]?]. Qed.
Lemma polite_try {X} (m : go St X) : polite m → polite (try m).
Proof. intros Hm w s. specialize (Hm w s). unfold world, try in *. by destruct (m w s) as [[??]?]. Qed.
Lemma polite_wrap {X} f (m : go St X) : polite m → polite (wrap_err f m).
Proof.
  intros Hm w s. specialize (Hm w s). unfold world, wrap_err in *. by destruct (m w s) as [[[]?]?].
Qed.
Lemma polite_zoom {T X} (pick : St → T) place (m : go T X) :
  polite m → polite (zoom pick place m).
Proof.
  intros Hm w s. specialize (Hm w (pick s)). unfold world, zoom in *.
  by destruct (m w (pick s)) as [[??]?].
Qed.
End polite.

(** Its postconditions may rely on that. *)
Lemma wp_polite {St X} (m : go St X) (Q : result X → St → World → Prop) w s :
  polite m → wp m (λ r s' w', same_oracles w w' → Q r s' w') w s → wp m Q w s.
Proof. intros Hm HQ%wp_elim. apply wp_elim, HQ, Hm. Qed.
#[export] Hint Resolve polite_quiet polite_put polite_modify polite_rand polite_bind
  polite_ignore polite_try polite_wrap polite_zoom : go.

Ltac polite :=
  repeat first [progress intros | apply polite_bind | apply polite_ignore | apply polite_try
               | apply polite_wrap | apply polite_zoom | case_match | solve [auto with go]].

(** ** Map iteration *)

Lemma entries_perm {V} (order : list string → list string) (m : gmap string V) :
  (∀ l, order l ≡ₚ l) → entries order m ≡ₚ map_to_list m.
Proof.
  intros Hord. unfold entries.
  trans (omap (λ k, pair k <$> m !! k) (map_to_list m).*1).
  { apply omap_Permutation, Hord. }
  assert (∀ l : list (string * V), (∀ kv, kv ∈ l → m !! kv.1 = Some kv.2) →
    omap (λ k, pair k <$> m !! k) l.*1 = l) as Hgen.
  { induction l as [|[k v] l IH]; intros Hl; simpl; [done|].
    assert (m !! k = Some v) as -> by (apply (Hl (k, v)); set_solver). simpl.
    f_equal. apply IH. intros kv Hkv. apply Hl. set_solver. }
  rewrite Hgen; [done|]. intros [k v] Hkv. by apply elem_of_map_to_list.
Qed.

Lemma elem_of_entries {V} w n (m : gmap string V) k v :
  World_ok w → (k, v) ∈ entries (w_order w n) m ↔ m !! k = Some v.
Proof.
  intros Hw. rewrite (entries_perm _ _ (Hw n)). apply elem_of_map_to_list.
Qed.

(** A loop that returns the first entry satisfying a test. *)
Lemma find_entries_None {V} w n (m : gmap string V) (P : string * V → Prop)
    `{!∀ kv, Decision (P kv)} :
  World_ok w →
  list_find P (entries (w_order w n) m) = None ↔ ∀ k v, m !! k = Some v → ¬ P (k, v).
Proof.
  intros Hw. rewrite list_find_None, Forall_forall. split.
  - intros Hn k v Hk. apply Hn, elem_of_entries; done.
  - intros Hn [k v] Hkv. apply elem_of_entries in Hkv; auto.
Qed.

Lemma find_entries_Some {V} w n (m : gmap string V) (P : string * V → Prop)
    `{!∀ kv, Decision (P kv)} i k v :
  World_ok w →
  list_find P (entries (w_order w n) m) = Some (i, (k, v)) → m !! k = Some v ∧ P (k, v).
Proof.
  intros Hw (Hi & HP & _)%list_find_Some. split; [|done].
  eapply elem_of_entries; [done|]. by eapply list_elem_of_lookup_2.
Qed.

Lemma filter_all {A} (P : A → Prop) `{!∀ x, Decision (P x)} l : Forall P l → filter P l = l.
Proof.
  induction 1 as [|x l Hx _ IH]; [done|]. rewrite filter_cons, decide_True by done. by rewrite IH.
Qed.

(** ** Scanning a map

    The first entry that satisfies a test in iteration order, and all of
    them. *)

Definition find_in {St V} (m : gmap string V) (P : V → Prop) `{!∀ v, Decision (P v)} :
    go St (option V) :=
  es ← range_map m;
  mret ((λ r, r.2.2) <$> list_find (λ kv : string * V, P kv.2) es).

Definition list_in {St V} (m : gmap string V) (P : V → Prop) `{!∀ v, Decision (P v)} :
    go St (list V) :=
  es ← range_map m; mret (filter P es.*2).

Section scan.
Context {St V : Type} (m : gmap string V) (P : V → Prop) `{!∀ v, Decision (P v)}.

Lemma quiet_find_in : quiet (find_in (St := St) m P).
Proof. unfold find_in. quiet. Qed.
Lemma quiet_list_in : quiet (list_in (St := St) m P).
Proof. unfold list_in. quiet. Qed.

Lemma wp_find_in Q w (s : St) :
  World_ok w →
  (∀ o w', same_oracles w w' →
     match o with
     | Some v => ∃ k, m !! k = Some v ∧ P v
     | None => ∀ k v, m !! k = Some v → ¬ P v
     end → Q (Ok o) s w') →
  wp (find_in m P) Q w s.
Proof.
  intros Hw HQ. unfold find_in. wp_step. apply HQ; [by split_and!|].
  destruct (list_find _ _) as [[i [k v]]|] eqn:Ef; cbn.
  - exists k. by apply (find_entries_Some w (w_ranges w) m (λ kv, P kv.2) i).
  - intros k v Hk. exact (proj1 (find_entries_None w (w_ranges w) m (λ kv, P kv.2) Hw) Ef k v Hk).
Qed.

(** Whatever the order is, a scan only meets entries. *)
Lemma entries_sound order k v : (k, v) ∈ entries order m → m !! k = Some v.
Proof.
  unfold entries. rewrite list_elem_of_omap. intros (k' & _ & Hk).
  destruct (m !! k') eqn:Hm; [|done]. by injection Hk as <- <-.
Qed.

Lemma wp_list_in_sound Q w (s : St) :
  (∀ l w', same_oracles w w' → (∀ v, v ∈ l → P v ∧ ∃ k, m !! k = Some v) → Q (Ok l) s w') →
  wp (list_in m P) Q w s.
Proof.
  intros HQ. unfold list_in. wp_step. apply HQ; [by split_and!|]. intros v Hv.
  apply list_elem_of_filter in Hv as [HP Hv]. split; [done|].
  apply list_elem_of_fmap in Hv as ([k v'] & -> & Hkv). exists k. by eapply entries_sound.
Qed.

Lemma wp_list_in Q w (s : St) :
  World_ok w →
  (∀ l w', same_oracles w w' → l ≡ₚ filter P (map_to_list m).*2 → Q (Ok l) s w') →
  wp (list_in m P) Q w s.
Proof.
  intros Hw HQ. unfold list_in. wp_step. apply HQ; [by split_and!|].
  by rewrite (entries_perm _ _ (Hw _)).
Qed.
End scan.
#[export] Hint Resolve quiet_find_in quiet_list_in : go.

(** ** Sums over a map *)

Definition msum {V} (f : V → Z) (m : gmap string V) : Z := map_fold (λ _ v n, f v + n) 0 m.

Section msum.
Context {V : Type} (f : V → Z).
Implicit Types (m : gmap string V).

Lemma msum_empty : msum f ∅ = 0.
Proof. apply map_fold_empty. Qed.

Lemma msum_insert m k v : m !! k = None → msum f (<[k := v]> m) = f v + msum f m.
Proof. intros Hk. unfold msum. rewrite map_fold_insert_L; [done|lia|done]. Qed.

Lemma msum_delete m k v : m !! k = Some v → msum f m = f v + msum f (delete k m).
Proof. intros Hk. unfold msum. rewrite (map_fold_delete_L _ _ k v m); [done|lia|done]. Qed.

Lemma msum_replace m k v v' :
  m !! k = Some v → msum f (<[k := v']> m) = msum f m - f v + f v'.
Proof.
  intros Hk. rewrite (msum_delete m k v Hk), <-insert_delete_eq.
  rewrite msum_insert by apply lookup_delete_eq. lia.
Qed.

Lemma msum_nonneg m : (∀ k v, m !! k = Some v → 0 ≤ f v) → 0 ≤ msum f m.
Proof.
  induction m as [|k v m Hk IH] using map_ind; intros Hf; [by rewrite msum_empty|].
  rewrite msum_insert by done.
  assert (0 ≤ f v) by (apply (Hf k); apply lookup_insert_eq).
  assert (0 ≤ msum f m); [|lia]. apply IH. intros k' v' Hk'.
  apply (Hf k'). rewrite lookup_insert_ne; congruence.
Qed.

(** Every entry is at most the sum of them all. *)
Lemma msum_entry m k v :
  (∀ k v, m !! k = Some v → 0 ≤ f v) → m !! k = Some v → f v ≤ msum f m.
Proof.
  intros Hf Hk. rewrite (msum_delete m k v Hk).
  assert (0 ≤ msum f (delete k m)); [|lia]. apply msum_nonneg.
  intros k' v' [_ Hk']%lookup_delete_Some. by apply (Hf k').
Qed.
End msum.

(** ** The shared window *)

Lemma window_sublist {A} (l : list A) limit offset r :
  window l limit offset = Ok r → r `sublist_of` l.
Proof.
  unfold window, slice_range. repeat case_decide; intros [= <-];
    auto using sublist_nil_l.
  all: etrans; [apply sublist_take|apply sublist_drop].
Qed.

(** With a sane window the result is the slice [offset .. offset+limit). *)
Lemma window_spec {A} (l : list A) limit offset :
  0 < limit → 0 ≤ offset → int64_ok (offset + limit) →
  window l limit offset = Ok (take (Z.to_nat limit) (drop (Z.to_nat offset) l)).
Proof.
  intros Hl Ho Hok. unfold window, slice_range. cbv zeta. rewrite add64_id by done.
  case_decide as H1.
  { rewrite drop_ge by lia. by rewrite take_nil. }
  destruct (decide (limit ≤ 0 ∨ Z.of_nat (length l) < offset + limit)) as [H2|H2].
  - rewrite decide_True by lia. f_equal.
    rewrite !take_ge; [done|rewrite length_drop; lia|rewrite length_drop; lia].
  - rewrite decide_True by lia. do 2 f_equal. lia.
Qed.

(** A window whose start is clipped, but not the overflow of its end. *)
Definition clipped {A} (l : list A) (limit offset : Z) : result (list A) :=
  let total := Z.of_nat (length l) in
  let start := if decide (total < offset) then total else offset in
  let end_ := add64 start limit in
  let end_ := if decide (limit ≤ 0 ∨ total < end_) then total else end_ in
  slice_range l start end_.

(** The paging of the catalogue listings: [limit] defaults to [dflt] and the end
    is clipped. *)
Definition page {A} (dflt : Z) (l : list A) (limit offset : Z) : result (list A) :=
  let total := Z.of_nat (length l) in
  if decide (total ≤ offset) then Ok []
  else
    let limit := if decide (limit ≤ 0) then dflt else limit in
    let end_ := add64 offset limit in
    let end_ := if decide (total < end_) then total else end_ in
    slice_range l offset end_.

Lemma page_spec {A} dflt (l : list A) limit offset :
  0 < limit → 0 ≤ offset → int64_ok (offset + limit) →
  page dflt l limit offset = Ok (take (Z.to_nat limit) (drop (Z.to_nat offset) l)).
Proof.
  intros Hl Ho Hok. rewrite <-window_spec by done. unfold page, window. cbv zeta.
  rewrite (decide_False (P := limit ≤ 0)) by lia.
  case_decide as H1; [done|]. f_equal. repeat case_decide; lia.
Qed.

(** ** A concrete world, for evaluating the model *)

Definition calm (t : Z) : World :=
  mkWorld (λ _, t) 0 (λ n, "uuid-" +:+ pretty n) 0 (λ _ l, l) 0 (λ _, 0) 0.

Lemma calm_ok t : World_ok (calm t).
Proof. intros n l. reflexivity. Qed.
#[export] Hint Resolve calm_ok : go.

(** The same with identifiers that start with [prefix], an hour in. *)
Definition named (prefix : string) : World :=
  mkWorld (λ _, Hour) 0 (λ n, prefix +:+ pretty n) 0 (λ _ l, l) 0 (λ _, 0) 0.

Lemma named_ok p : World_ok (named p).
Proof. intros n l. reflexivity. Qed.
#[export] Hint Resolve named_ok : go.
