(* ===== verification/Identity.v ===== *)
(** * Identity and authorization

    [internal/domain/identity] (subjects, resources, credentials) and
    [internal/app/authz] (the dynamic authorizer every service calls before
    it acts). The [Authorizer] class is the port [identity.Authorizer];
    [AuthorizerLaws] is what the services rely on. *)

From S2P Require Import Prelude.

Definition ErrUnauthorized := ErrNew "identity" "unauthorized request".
Definition ErrInsufficientPermission :=
  ErrNew "identity" "insufficient permission to perform action".
Definition ErrResourceForbidden := ErrNew "identity" "access to resource is forbidden".

Record Subject : Type := mkSubject {
  Subject_Type_ : string;
  Subject_ID : string;
  Subject_UserID : string;
  Subject_Username : string;
  Subject_Email : string;
  Subject_Roles : list string;
  Subject_Permissions : list string;
  Subject_Scopes : list string;
  Subject_Metadata : Details
}.

Record Resource : Type := mkResource {
  Resource_Type_ : string;
  Resource_ID : string;
  Resource_OwnerID : string;
  Resource_LocationID : string
}.

Record APIKey : Type := mkAPIKey {
  APIKey_ID : string;
  APIKey_UserID : string;
  APIKey_Name : string;
  APIKey_KeyHash : string;
  APIKey_Prefix : string;
  APIKey_Scopes : list string;
  APIKey_LastUsedAt : option Z;
  APIKey_ExpiresAt : option Z;
  APIKey_CreatedAt : Z;
  APIKey_IsRevoked : bool
}.

Record RefreshSession : Type := mkRefreshSession {
  RefreshSession_ID : string;
  RefreshSession_UserID : string;
  RefreshSession_TokenHash : string;
  RefreshSession_FamilyID : string;
  RefreshSession_UserAgent : string;
  RefreshSession_IPAddress : string;
  RefreshSession_ExpiresAt : Z;
  RefreshSession_CreatedAt : Z;
  RefreshSession_IsRevoked : bool;
  RefreshSession_RevokedAt : option Z;
  RefreshSession_ReplacedByTokenID : option string
}.

(** [user.go], [HasRole]: the loop over the roles. *)
Definition HasRole (s : Subject) (role : string) : bool :=
  existsb (λ r, bool_decide (r = role)) (Subject_Roles s).

Definition IsSuperadmin (s : Subject) : bool := HasRole s "superadmin".

(** The inner loop over the scopes. *)
Definition scope_allows (scopes : list string) (code : string) : bool :=
  existsb (λ sc, bool_decide (sc = code) || bool_decide (sc = "*")) scopes.

(** The loop over the permissions returns at the first match. *)
Fixpoint has_permission_loop (scopes : list string) (code : string)
    (perms : list string) : bool :=
  match perms with
  | [] => false
  | p :: ps =>
      if bool_decide (p = code) || bool_decide (p = "*") then
        if decide (0 < length scopes)%nat then scope_allows scopes code else true
      else has_permission_loop scopes code ps
  end.

Definition HasPermission (s : Subject) (code : string) : bool :=
  if existsb (λ r, bool_decide (r = "superadmin")) (Subject_Roles s) then true
  else has_permission_loop (Subject_Scopes s) code (Subject_Permissions s).

(** [api_key.go] and [session.go]: validity at the time of the call. *)
Definition APIKey_IsValid {St} (k : APIKey) : go St bool :=
  if APIKey_IsRevoked k then mret false
  else match APIKey_ExpiresAt k with
  | Some e => now ← time_Now; mret (negb (bool_decide (e < now)))
  | None => mret true
  end.

Definition RefreshSession_IsValid {St} (s : RefreshSession) : go St bool :=
  if RefreshSession_IsRevoked s then mret false
  else now ← time_Now; mret (bool_decide (now < RefreshSession_ExpiresAt s)).

(** ** The port *)

Class Authorizer :=
  Authorize : option Subject → string → option Resource → result ().

Class AuthorizerLaws `{Authorizer} := {
  authorize_nil : ∀ action res, Authorize None action res = Err ErrUnauthorized;
  authorize_superadmin : ∀ s action res,
    IsSuperadmin s = true → Authorize (Some s) action res = Ok ();
  (** A caller without an administrative role never passes the check on a
      resource another tenant owns. *)
  authorize_tenant : ∀ s action r,
    Authorize (Some s) action (Some r) = Ok () →
    Resource_OwnerID r ≠ "" →
    Resource_OwnerID r = Subject_UserID s ∨
    ∃ role, HasRole s role = true ∧ role ∈ ["superadmin"; "admin"; "operator"]
}.

(** [if err := s.authorizer.Authorize(...); err != nil { return err }] and the
    caller's [sub.UserID], a dereference. *)
Definition authorize {St} (auth : Authorizer) (sub : option Subject) (action : string)
    (res : option Resource) : go St () := lift (@Authorize auth sub action res).

Definition caller_id {St} (sub : option Subject) : go St string :=
  match sub with
  | Some s => mret (Subject_UserID s)
  | None => lift (panic "nil pointer dereference")
  end.

(** [if s.authorizer != nil && sub != nil && !sub.IsSuperadmin() { ... }]: what
    such a check lets through. *)
Definition maybe_authorize {St} (auth : option Authorizer) (sub : option Subject)
    (action : string) (res : option Resource) : go St () :=
  match auth, sub with
  | Some a, Some s => if IsSuperadmin s then mret () else authorize a sub action res
  | _, _ => mret ()
  end.

Definition permitted (auth : option Authorizer) (sub : option Subject) (action : string)
    (r : Resource) : Prop :=
  ∀ a s, auth = Some a → sub = Some s → IsSuperadmin s = false →
  @Authorize a sub action (Some r) = Ok ().

Lemma wp_admission {St} auth sub action r (P : result () → St → World → Prop) w st :
  (permitted auth sub action r → P (Ok ()) st w) →
  (¬ permitted auth sub action r → ∀ e, P (Err e) st w) →
  wp (maybe_authorize auth sub action (Some r)) P w st.
Proof.
  intros Hyes Hno. unfold maybe_authorize, permitted in *.
  destruct auth as [a|]; [|rewrite wp_ret; by apply Hyes].
  destruct sub as [s|]; [|rewrite wp_ret; by apply Hyes].
  destruct (IsSuperadmin s) eqn:Hsup; [rewrite wp_ret; apply Hyes; intros; congruence|].
  unfold authorize. rewrite wp_lift. destruct (Authorize _ _ _) as [[]|e] eqn:Ha.
  - apply Hyes. intros ? ? [= ->] [= ->] _. done.
  - apply Hno. intros Hp. specialize (Hp a s eq_refl eq_refl Hsup). congruence.
Qed.

Lemma wp_maybe_authorize {St} auth sub action r (P : result () → St → World → Prop) w st :
  (permitted auth sub action r → P (Ok ()) st w) → (∀ e, P (Err e) st w) →
  wp (maybe_authorize auth sub action (Some r)) P w st.
Proof. intros Hyes Hno. by apply wp_admission. Qed.

Lemma maybe_authorize_permitted {St} auth sub action r :
  permitted auth sub action r → maybe_authorize (St := St) auth sub action (Some r) = mret ().
Proof.
  unfold maybe_authorize, permitted, authorize. destruct auth as [a|], sub as [s|]; try done.
  destruct (IsSuperadmin s) eqn:Hs; [done|]. intros Hp. by rewrite (Hp a s).
Qed.

(** ** [authz/authorizer.go] *)

Definition DynamicAuthorizer : Authorizer := λ subject action resource,
  match subject with
  | None => Err ErrUnauthorized
  | Some s =>
      if existsb (λ r, bool_decide (r = "superadmin")) (Subject_Roles s) then Ok ()
      else if negb (HasPermission s action) then Err ErrInsufficientPermission
      else if bool_decide (0 < length (Subject_Scopes s))%nat
              && negb (scope_allows (Subject_Scopes s) action)
      then Err ErrInsufficientPermission
      else match resource with
      | Some r =>
          if decide (Resource_OwnerID r ≠ "") then
            let isAdminOrOperator := existsb
              (λ r, bool_decide (r = "admin") || bool_decide (r = "operator"))
              (Subject_Roles s) in
            if negb isAdminOrOperator
               && negb (bool_decide (Resource_OwnerID r = Subject_UserID s))
            then Err ErrResourceForbidden
            else Ok ()
          else Ok ()
      | None => Ok ()
      end
  end.

(** ** The access rule *)

(** What a call is allowed to do, stated without loops: the grant set, the
    scope restriction and the ownership boundary. *)
Definition granted (s : Subject) (action : string) : Prop :=
  (action ∈ Subject_Permissions s ∨ "*" ∈ Subject_Permissions s) ∧
  (Subject_Scopes s = [] ∨ action ∈ Subject_Scopes s ∨ "*" ∈ Subject_Scopes s).

Definition may_touch (s : Subject) (res : option Resource) : Prop :=
  match res with
  | Some r => Resource_OwnerID r = "" ∨ Resource_OwnerID r = Subject_UserID s ∨
              "admin" ∈ Subject_Roles s ∨ "operator" ∈ Subject_Roles s
  | None => True
  end.

Lemma existsb_eq_true (x : string) l :
  existsb (λ r, bool_decide (r = x)) l = true ↔ x ∈ l.
Proof.
  rewrite existsb_exists. split.
  - intros (y & Hy & ->%bool_decide_eq_true). by apply list_elem_of_In.
  - intros Hx. exists x. split; [by apply list_elem_of_In|]. by apply bool_decide_eq_true.
Qed.

Lemma existsb_eq2_true (x y : string) l :
  existsb (λ r, bool_decide (r = x) || bool_decide (r = y)) l = true ↔ x ∈ l ∨ y ∈ l.
Proof.
  rewrite existsb_exists. setoid_rewrite orb_true_iff.
  setoid_rewrite bool_decide_eq_true. setoid_rewrite <-list_elem_of_In. naive_solver.
Qed.

Lemma scope_allows_spec scopes code :
  scope_allows scopes code = true ↔ code ∈ scopes ∨ "*" ∈ scopes.
Proof. apply existsb_eq2_true. Qed.

Lemma has_permission_loop_spec scopes code perms :
  has_permission_loop scopes code perms = true ↔
  (code ∈ perms ∨ "*" ∈ perms) ∧ (scopes = [] ∨ code ∈ scopes ∨ "*" ∈ scopes).
Proof.
  induction perms as [|p ps IH]; simpl; [set_solver|].
  destruct (bool_decide (p = code) || bool_decide (p = "*")) eqn:E.
  - assert (code ∈ p :: ps ∨ "*" ∈ p :: ps) as Hp.
    { apply orb_true_iff in E as [->%bool_decide_eq_true | ->%bool_decide_eq_true];
        set_solver. }
    clear E. destruct (decide (0 < length scopes)%nat) as [Hl|Hl].
    + rewrite scope_allows_spec. split; [tauto|].
      intros [_ [->|?]]; [simpl in Hl; lia|done].
    + split; [intros _; split; [done|]|done]. left.
      destruct scopes; simpl in Hl; [done|lia].
  - rewrite IH. apply orb_false_iff in E as [E1 E2].
    apply bool_decide_eq_false in E1, E2.
    set_solver.
Qed.

(** The authorizer accepts a call exactly when the caller is a superadmin,
    or holds the action (directly or by the wildcard), within the scopes of
    its key when it has any, and the resource is unowned, its own, or the
    caller is an admin or operator. *)
Theorem authorize_spec (s : Subject) (action : string) (res : option Resource) :
  @Authorize DynamicAuthorizer (Some s) action res = Ok () ↔
  "superadmin" ∈ Subject_Roles s ∨ (granted s action ∧ may_touch s res).
Proof.
  unfold Authorize, DynamicAuthorizer, granted, may_touch.
  destruct (existsb (λ r, bool_decide (r = "superadmin")) _) eqn:Esup.
  { apply existsb_eq_true in Esup. tauto. }
  assert ("superadmin" ∉ Subject_Roles s) as Hsup
    by (rewrite <-existsb_eq_true, Esup; done).
  unfold HasPermission. rewrite Esup. clear Esup.
  destruct (has_permission_loop _ _ _) eqn:Ep; simpl.
  2:{ assert (¬ (granted s action)) as Hg
        by (unfold granted; rewrite <-has_permission_loop_spec, Ep; done).
      unfold granted in Hg. intuition discriminate. }
  apply has_permission_loop_spec in Ep as Hg.
  rewrite (proj2 (andb_false_iff _ _)).
  2:{ rewrite bool_decide_eq_false, negb_false_iff, scope_allows_spec.
      destruct Hg as [_ [->|?]]; [left; simpl; lia|by right]. }
  destruct res as [r|]; [|tauto].
  case_decide as Ho; [|tauto].
  destruct (existsb _ _) eqn:Ea; simpl.
  { apply existsb_eq2_true in Ea. tauto. }
  assert (¬ ("admin" ∈ Subject_Roles s ∨ "operator" ∈ Subject_Roles s)) as Hna
    by (rewrite <-existsb_eq2_true, Ea; done).
  case_bool_decide; simpl; intuition congruence.
Qed.

#[export] Instance DynamicAuthorizer_laws : @AuthorizerLaws DynamicAuthorizer.
Proof.
  split.
  - done.
  - intros s action res H. unfold Authorize, DynamicAuthorizer.
    unfold IsSuperadmin, HasRole in H. by rewrite H.
  - intros s action r Hok Hown. unfold Authorize, DynamicAuthorizer in Hok.
    destruct (existsb (λ r, bool_decide (r = "superadmin")) _) eqn:Esup.
    { right. exists "superadmin". split; [done|set_solver]. }
    destruct (negb _); [done|]. destruct (bool_decide _ && _); [done|].
    rewrite decide_True in Hok by done.
    destruct (existsb _ _) eqn:Ea in Hok.
    { right. apply existsb_eq2_true in Ea.
      destruct Ea; [exists "admin"|exists "operator"];
        (split; [by apply existsb_eq_true|set_solver]). }
    simpl in Hok. case_bool_decide; [by left|done].
Qed.
