(* ===== verification/AuditTrail.v ===== *)
(** * The tamper-evident audit log

    [internal/domain/audit/audit.go] and the [MemoryAuditRepo] of
    [internal/infra/memory/memory_repos.go]. The digest ([crypto/sha256]) and
    the JSON encoder are oracles of the class [Digest]; [AuditRepository] is
    the port the services write their trail to. *)

From S2P Require Import Prelude.

Definition SeverityInfo : string := "info".

Record AuditLog : Type := mkAuditLog {
  AuditLog_ID : Z;
  AuditLog_ActorID : option string;
  AuditLog_ActorIP : string;
  AuditLog_UserAgent : string;
  AuditLog_Action : string;
  AuditLog_ResourceType : string;
  AuditLog_ResourceID : option string;
  AuditLog_RequestID : string;
  AuditLog_StatusCode : Z;
  AuditLog_Details : option Details;
  AuditLog_Severity : string;
  AuditLog_PrevHash : string;
  AuditLog_TamperProofHash : string;
  AuditLog_CreatedAt : Z
}.
#[export] Instance AuditLog_eq_dec : EqDecision AuditLog.
Proof. solve_decision. Defined.

Definition eta_AuditLog (r : AuditLog) : AuditLog :=
  mkAuditLog (AuditLog_ID r) (AuditLog_ActorID r) (AuditLog_ActorIP r)
    (AuditLog_UserAgent r) (AuditLog_Action r) (AuditLog_ResourceType r)
    (AuditLog_ResourceID r) (AuditLog_RequestID r) (AuditLog_StatusCode r)
    (AuditLog_Details r) (AuditLog_Severity r) (AuditLog_PrevHash r)
    (AuditLog_TamperProofHash r) (AuditLog_CreatedAt r).
#[export] Instance set_AuditLog_ID : Setter AuditLog_ID := ltac:(setter eta_AuditLog AuditLog_ID).
#[export] Instance set_AuditLog_UserAgent : Setter AuditLog_UserAgent := ltac:(setter eta_AuditLog AuditLog_UserAgent).
#[export] Instance set_AuditLog_Severity : Setter AuditLog_Severity := ltac:(setter eta_AuditLog AuditLog_Severity).
#[export] Instance set_AuditLog_PrevHash : Setter AuditLog_PrevHash := ltac:(setter eta_AuditLog AuditLog_PrevHash).
#[export] Instance set_AuditLog_TamperProofHash : Setter AuditLog_TamperProofHash := ltac:(setter eta_AuditLog AuditLog_TamperProofHash).
#[export] Instance set_AuditLog_CreatedAt : Setter AuditLog_CreatedAt := ltac:(setter eta_AuditLog AuditLog_CreatedAt).

Record AuditFilter : Type := mkAuditFilter {
  AuditFilter_ActorID : string;
  AuditFilter_Action : string;
  AuditFilter_ResourceType : string;
  AuditFilter_ResourceID : string;
  AuditFilter_Severity : string;
  AuditFilter_From : option Z;
  AuditFilter_To : option Z;
  AuditFilter_Limit : Z;
  AuditFilter_Offset : Z
}.

(** A log entry as the services build it: the other fields are zero. *)
Definition new_log (actor : option string) (action rtype : string)
    (rid : option string) (det : option Prelude.Details) (created : Z) : AuditLog :=
  mkAuditLog 0 actor "" "" action rtype rid "" 0 det "" "" "" created.

(** [hex(sha256(payload))] and [json.Marshal] of the details. *)
Class Digest := {
  sha256_hex : string → string;
  json_details : option Prelude.Details → string
}.

Class CollisionFree `{Digest} := {
  sha256_inj : ∀ a b, sha256_hex a = sha256_hex b → a = b;
  sha256_nonempty : ∀ a, sha256_hex a ≠ ""
}.

Definition deref_or_empty (p : option string) : string := default "" p.

(** ** [ComputeHash] and [VerifyHash] *)

Section hash.
Context `{Digest}.

Definition hash_payload (a : AuditLog) : string :=
  strings_Join [AuditLog_PrevHash a; deref_or_empty (AuditLog_ActorID a);
    AuditLog_ActorIP a; AuditLog_Action a; AuditLog_ResourceType a;
    deref_or_empty (AuditLog_ResourceID a); AuditLog_RequestID a;
    fmt_d (AuditLog_StatusCode a); AuditLog_Severity a;
    json_details (AuditLog_Details a); fmt_d (UnixNano (AuditLog_CreatedAt a))] "|".

Definition ComputeHash (a : AuditLog) : string := sha256_hex (hash_payload a).

Definition VerifyHash (a : AuditLog) : bool :=
  if decide (AuditLog_TamperProofHash a = "") then true
  else bool_decide (ComputeHash a = AuditLog_TamperProofHash a).
End hash.

(** ** The in-memory repository *)

Record AuditStore : Type := mkAuditStore {
  AuditStore_auditLogs : list AuditLog;
  AuditStore_auditCounter : Z
}.

Definition eta_AuditStore (r : AuditStore) : AuditStore :=
  mkAuditStore (AuditStore_auditLogs r) (AuditStore_auditCounter r).
#[export] Instance set_AuditStore_auditLogs : Setter AuditStore_auditLogs := ltac:(setter eta_AuditStore AuditStore_auditLogs).
#[export] Instance set_AuditStore_auditCounter : Setter AuditStore_auditCounter := ltac:(setter eta_AuditStore AuditStore_auditCounter).

Definition empty_audit : AuditStore := mkAuditStore [] 0.

Section repo.
Context `{Digest}.

(** [MemoryAuditRepo.Record]. *)
Definition audit_Record (log : AuditLog) : go AuditStore () :=
  s ← get;
  let counter := add64 (AuditStore_auditCounter s) 1 in
  put (s <| AuditStore_auditCounter := counter |>) ;;
  let copy := log <| AuditLog_ID := counter |> in
  created ← (if decide (IsZero (AuditLog_CreatedAt copy)) then time_Now
             else mret (AuditLog_CreatedAt copy));
  let copy := copy <| AuditLog_CreatedAt := created |> in
  let copy := if decide (AuditLog_Severity copy = "")
              then copy <| AuditLog_Severity := SeverityInfo |> else copy in
  let copy := match last (AuditStore_auditLogs s) with
              | Some prev => copy <| AuditLog_PrevHash := AuditLog_TamperProofHash prev |>
              | None => copy
              end in
  let copy := copy <| AuditLog_TamperProofHash := ComputeHash copy |> in
  modify (λ s, s <| AuditStore_auditLogs := AuditStore_auditLogs s ++ [copy] |>).

Definition audit_matches (f : AuditFilter) (l : AuditLog) : Prop :=
  (AuditFilter_ActorID f = "" ∨ AuditLog_ActorID l = Some (AuditFilter_ActorID f)) ∧
  (AuditFilter_Action f = "" ∨ AuditLog_Action l = AuditFilter_Action f) ∧
  (AuditFilter_ResourceType f = "" ∨ AuditLog_ResourceType l = AuditFilter_ResourceType f) ∧
  (AuditFilter_ResourceID f = "" ∨ AuditLog_ResourceID l = Some (AuditFilter_ResourceID f)) ∧
  (AuditFilter_Severity f = "" ∨ AuditLog_Severity l = AuditFilter_Severity f) ∧
  match AuditFilter_From f with Some t => ¬ AuditLog_CreatedAt l < t | None => True end ∧
  match AuditFilter_To f with Some t => ¬ t < AuditLog_CreatedAt l | None => True end.

#[export] Instance audit_matches_dec f l : Decision (audit_matches f l).
Proof. unfold audit_matches. repeat apply and_dec; try apply _; case_match; apply _. Defined.

(** [ListFiltered]: newest first, [limit <= 0] means 50. *)
Definition audit_ListFiltered (f : AuditFilter) : go AuditStore (list AuditLog * Z) :=
  s ← get;
  let matching := filter (audit_matches f) (reverse (AuditStore_auditLogs s)) in
  let total := Z.of_nat (length matching) in
  if decide (total ≤ AuditFilter_Offset f) then mret ([], total)
  else
    let limit := if decide (AuditFilter_Limit f ≤ 0) then 50 else AuditFilter_Limit f in
    let end_ := add64 (AuditFilter_Offset f) limit in
    let end_ := if decide (total < end_) then total else end_ in
    page ← lift (slice_range matching (AuditFilter_Offset f) end_);
    mret (page, total).

Definition audit_GetLatestLog : go AuditStore (option AuditLog) :=
  s ← get; mret (last (AuditStore_auditLogs s)).

(** The verification loop from index [start]; [prev] is the entry before
    the current one when there is one. The first bad entry is returned. *)
Fixpoint verify_loop (prev : option AuditLog) (ls : list AuditLog) : option AuditLog :=
  match ls with
  | [] => None
  | l :: ls' =>
      if negb (VerifyHash l) then Some l
      else match prev with
      | Some p =>
          if decide (AuditLog_PrevHash l ≠ AuditLog_TamperProofHash p) then Some l
          else verify_loop (Some l) ls'
      | None => verify_loop (Some l) ls'
      end
  end.

Definition audit_VerifyChainIntegrity (limit : Z) : go AuditStore (bool * Z) :=
  s ← get;
  let logs := AuditStore_auditLogs s in
  let n := Z.of_nat (length logs) in
  if decide (n = 0) then mret (true, 0)
  else
    let start := if decide (0 < limit ∧ limit < n) then n - limit else 0 in
    let prev := if decide (0 < start) then logs !! Z.to_nat (start - 1) else None in
    match verify_loop prev (drop (Z.to_nat start) logs) with
    | Some bad => mret (false, AuditLog_ID bad)
    | None => mret (true, n - start)
    end.

(** ** Chain validity *)

Definition linked (a b : AuditLog) : Prop :=
  AuditLog_PrevHash b = AuditLog_TamperProofHash a.

Fixpoint chain (prev : option AuditLog) (ls : list AuditLog) : Prop :=
  match ls with
  | [] => True
  | l :: ls' => VerifyHash l = true ∧
      match prev with Some p => linked p l | None => True end ∧ chain (Some l) ls'
  end.

Lemma verify_loop_chain prev ls : verify_loop prev ls = None ↔ chain prev ls.
Proof.
  revert prev. induction ls as [|l ls IH]; intros prev; simpl; [done|].
  unfold linked. destruct (VerifyHash l); simpl.
  - destruct prev as [p|]; [case_decide|]; rewrite ?IH; intuition congruence.
  - intuition congruence.
Qed.

Lemma chain_app prev ls1 ls2 :
  chain prev (ls1 ++ ls2) ↔
  chain prev ls1 ∧ chain (match last ls1 with Some l => Some l | None => prev end) ls2.
Proof.
  revert prev. induction ls1 as [|l ls1 IH]; intros prev; [simpl; tauto|].
  rewrite last_cons. simpl. rewrite IH. destruct (last ls1); tauto.
Qed.

Lemma chain_drop n ls :
  chain None ls →
  chain (match n with O => None | S k => ls !! k end) (drop n ls).
Proof.
  intros H0. rewrite <-(take_drop n ls) in H0. apply chain_app in H0 as [_ H0].
  destruct n as [|k]; [done|]. destruct (decide (S k ≤ length ls)%nat).
  - rewrite last_lookup, length_take_le in H0 by done. simpl in H0.
    rewrite lookup_take in H0. case_decide; [|lia].
    destruct (ls !! k) eqn:E; [done|]. apply lookup_ge_None in E. lia.
  - by rewrite drop_ge by lia.
Qed.

Lemma audit_Record_run log w s :
  ∃ entry, exec (audit_Record log) w s =
    mkAuditStore (AuditStore_auditLogs s ++ [entry]) (add64 (AuditStore_auditCounter s) 1) ∧
  VerifyHash entry = true ∧
  (∀ p, last (AuditStore_auditLogs s) = Some p → linked p entry) ∧
  AuditLog_Action entry = AuditLog_Action log ∧
  AuditLog_ID entry = add64 (AuditStore_auditCounter s) 1.
Proof.
  unfold audit_Record, exec, mbind, go_bind, get, put, modify, time_Now, mret, go_ret.
  cbn [fst snd].
  assert (∀ c : AuditLog, VerifyHash
    (c <| AuditLog_TamperProofHash := ComputeHash c |>) = true) as Hv.
  { intros c. unfold VerifyHash. case_decide; [done|]. by apply bool_decide_eq_true. }
  destruct (decide (IsZero _)); cbn [fst snd]; destruct (decide (_ = "")) as [E|E];
    (eexists; split; [reflexivity|]); (split; [apply Hv|]);
    destruct (last _) eqn:El; split_and!; intros; simplify_eq/=; done.
Qed.
End repo.

(** ** The port the services use

    The services drop the error of [Record]; what they rely on is that it
    only touches the trail and takes readings of the same world. *)

Class AuditRepository (A : Type) := Record_ : AuditLog → go A ().

#[export] Instance MemoryAuditRepo `{Digest} : AuditRepository AuditStore := audit_Record.

(** ** Services that write to the trail

    A service owns a store [R] and shares an audit repository [A]; a failed
    audit write is ignored. *)

Section service.
Context {R A : Type} `{!AuditRepository A}.

Definition on_store {X} (m : go R X) : go (R * A) X := zoom fst (λ r s, (r, snd s)) m.

Definition audit_event (actor : option string) (action rtype : string) (rid : option string)
    (det : option Prelude.Details) : go (R * A) () :=
  now ← time_Now;
  ignore (zoom snd (λ a s, (fst s, a)) (Record_ (new_log actor action rtype rid det now))).

(** An audit write changes the trail and the clock only, and succeeds. *)
Lemma wp_audit_event actor action rtype rid det (Q : result () → R * A → World → Prop) w r a :
  (∀ a' w', Q (Ok ()) (r, a') w') → wp (audit_event actor action rtype rid det) Q w (r, a).
Proof.
  intros HQ. unfold audit_event. wp_step. unfold wp.
  destruct (Record_ _ _ _) as [[x a'] w']. apply HQ.
Qed.

Lemma wp_on_store {X} (m : go R X) (Q : result X → R * A → World → Prop) w r a :
  wp (on_store m) Q w (r, a) ↔ wp m (λ x r' w', Q x (r', a) w') w r.
Proof. unfold on_store. by rewrite wp_zoom. Qed.

Lemma quiet_on_store {X} (m : go R X) : quiet m → quiet (on_store m).
Proof.
  intros Hm w [r a]. specialize (Hm w r). unfold exec, world, on_store, zoom in *. simpl.
  destruct (m w r) as [[x r'] w']. simpl in *. by destruct Hm as [-> ?].
Qed.
End service.
#[export] Hint Resolve quiet_on_store : go.
Ltac quiet ::=
  repeat first [progress intros | apply quiet_bind | apply quiet_try | apply quiet_wrap
               | apply quiet_on_store | case_match | solve [auto with go]].

(** ** What the trail promises *)

Section promises.
Context `{Digest}.

(** A history of [Record] calls. *)
Fixpoint record_all (logs : list AuditLog) : go AuditStore () :=
  match logs with
  | [] => mret ()
  | l :: logs' => audit_Record l ;; record_all logs'
  end.

Definition store_valid (s : AuditStore) : Prop := chain None (AuditStore_auditLogs s).

Lemma audit_Record_answer log w s : answer (audit_Record log) w s = Ok ().
Proof.
  unfold audit_Record, answer, mbind, go_bind, get, put, modify, time_Now, mret, go_ret.
  by destruct (decide (IsZero _)).
Qed.

Lemma audit_Record_valid log w s :
  store_valid s →
  store_valid (exec (audit_Record log) w s) ∧
  length (AuditStore_auditLogs (exec (audit_Record log) w s)) =
    S (length (AuditStore_auditLogs s)).
Proof.
  destruct (audit_Record_run log w s) as (e & -> & He & Hlink & _).
  unfold store_valid; simpl. intros Hs. rewrite length_app; simpl. split; [|lia].
  apply chain_app. split; [done|]. simpl.
  destruct (last _) as [p|] eqn:El; simpl; auto.
Qed.

Lemma record_all_valid logs w s :
  store_valid s →
  store_valid (exec (record_all logs) w s) ∧
  answer (record_all logs) w s = Ok () ∧
  length (AuditStore_auditLogs (exec (record_all logs) w s)) =
    (length (AuditStore_auditLogs s) + length logs)%nat.
Proof.
  revert w s. induction logs as [|l logs IH]; intros w s Hs; simpl; [split_and!; auto; lia|].
  destruct (audit_Record_valid l w s Hs) as [Hv Hl].
  specialize (IH (world (audit_Record l) w s) _ Hv).
  assert (Hrun : record_all (l :: logs) w s =
    record_all logs (world (audit_Record l) w s) (exec (audit_Record l) w s)).
  { simpl. unfold mbind, go_bind.
    rewrite (answer_exec_world (audit_Record l) w s), audit_Record_answer. done. }
  unfold exec, answer in *. simpl in Hrun. rewrite Hrun. destruct IH as (? & ? & ->).
  split_and!; auto. lia.
Qed.

Lemma verify_valid s limit w :
  store_valid s →
  answer (audit_VerifyChainIntegrity limit) w s =
    Ok (true, let n := Z.of_nat (length (AuditStore_auditLogs s)) in
              if decide (0 < limit ∧ limit < n) then limit else n).
Proof.
  unfold store_valid, audit_VerifyChainIntegrity, answer. intros Hs.
  unfold mbind, go_bind, get, mret, go_ret. cbv zeta.
  set (n := Z.of_nat _). destruct (decide (n = 0)) as [E|E]; simpl.
  { destruct (decide (0 < limit ∧ limit < n)); [lia|congruence]. }
  set (start := if decide (0 < limit ∧ limit < n) then n - limit else 0).
  assert (0 ≤ start) as Hst by (subst start; case_decide; lia).
  pose proof (chain_drop (Z.to_nat start) _ Hs) as Hc.
  replace (if decide (0 < start) then _ else None) with
    (match Z.to_nat start with O => None | S k => AuditStore_auditLogs s !! k end).
  2:{ destruct (Z.to_nat start) as [|k] eqn:Ek; case_decide; try lia; [done|].
      f_equal. lia. }
  apply verify_loop_chain in Hc. rewrite Hc. simpl. do 2 f_equal.
  subst start. case_decide; lia.
Qed.

Lemma verify_bad s w bad :
  verify_loop None (AuditStore_auditLogs s) = Some bad →
  answer (audit_VerifyChainIntegrity 0) w s = Ok (false, AuditLog_ID bad).
Proof.
  intros Hv. unfold answer, audit_VerifyChainIntegrity, mbind, go_bind, get. cbv zeta.
  destruct (decide (Z.of_nat _ = 0)) as [E|E].
  { destruct (AuditStore_auditLogs s); [done|simpl in E; lia]. }
  destruct (decide (0 < 0 ∧ _)); [lia|]. destruct (decide (0 < 0)); [lia|].
  change (drop (Z.to_nat 0) ?l) with l. by rewrite Hv.
Qed.

(** Every trail written through [Record] verifies, whatever the window:
    after any history of records on an empty store the integrity check
    answers true and counts the entries of the window. *)
Theorem recorded_chain_verifies (logs : list AuditLog) (limit : Z) (w : World) :
  answer (record_all logs ≫= λ _, audit_VerifyChainIntegrity limit) w empty_audit =
    Ok (true, let n := Z.of_nat (length logs) in
              if decide (0 < limit ∧ limit < n) then limit else n).
Proof.
  destruct (record_all_valid logs w empty_audit I) as (Hv & Ha & Hl).
  pose proof (verify_valid _ limit (world (record_all logs) w empty_audit) Hv) as Hq.
  rewrite Hl in Hq. simpl in Hq. unfold answer, mbind, go_bind at 1.
  rewrite (answer_exec_world (record_all logs)), Ha. exact Hq.
Qed.

(** C37 tampering is detected: in a valid trail, rewriting the hashed content
    of an entry that has a hash and is not the newest (even with its hash
    recomputed, its links kept or changed) makes the check of the whole trail
    fail, when the digest has no collision. (Nothing follows the newest entry
    that could betray it.) *)
Theorem tampering_detected `{!CollisionFree} (w : World) (counter : Z)
    (pre post : list AuditLog) (l l' next : AuditLog) :
  store_valid (mkAuditStore (pre ++ l :: next :: post) counter) →
  AuditLog_TamperProofHash l ≠ "" →
  hash_payload l' ≠ hash_payload l →
  ∃ id, answer (audit_VerifyChainIntegrity 0) w
          (mkAuditStore (pre ++ l' :: next :: post) counter) = Ok (false, id).
Proof.
  unfold store_valid; simpl. intros Hs Hne Hpay.
  apply chain_app in Hs as [_ Hs]. simpl in Hs. destruct Hs as (Hl & _ & _ & Hnext & _).
  destruct (verify_loop None (pre ++ l' :: next :: post)) as [bad|] eqn:Ev.
  { exists (AuditLog_ID bad). by apply verify_bad. }
  exfalso.
  apply verify_loop_chain, chain_app in Ev as [_ Ev]. simpl in Ev.
  destruct Ev as (Hl' & _ & _ & Hnext' & _). unfold linked in *.
  unfold VerifyHash in Hl, Hl'. rewrite decide_False in Hl by done.
  apply bool_decide_eq_true in Hl. case_decide as E; [congruence|].
  apply bool_decide_eq_true in Hl'. apply Hpay, sha256_inj.
  unfold ComputeHash in *. congruence.
Qed.

(** The hash does not cover the user agent and the identifier, so
    rewriting them goes unnoticed. *)
Lemma user_agent_not_covered (w : World) (counter limit : Z) (pre post : list AuditLog)
    (l : AuditLog) (agent : string) (id : Z) :
  store_valid (mkAuditStore (pre ++ l :: post) counter) →
  store_valid (mkAuditStore
    (pre ++ l <| AuditLog_UserAgent := agent |> <| AuditLog_ID := id |> :: post) counter).
Proof.
  unfold store_valid; simpl. rewrite !chain_app. simpl. intros (? & ? & ? & Hc).
  split_and!; auto. destruct post; simpl in *; auto.
Qed.

(** The separator is not escaped, so two records with different fields can
    have the same hash under every digest. *)
Lemma hash_payload_ambiguous : ∃ a b : AuditLog,
  AuditLog_Action a ≠ AuditLog_Action b ∧ ComputeHash a = ComputeHash b.
Proof.
  exists (mkAuditLog 1 None "10.0.0.1" "" "auth.login|user" "session" None "" 200 None
            "info" "" "" 0),
         (mkAuditLog 1 None "10.0.0.1|auth.login" "" "user" "session" None "" 200 None
            "info" "" "" 0).
  split; [done|]. unfold ComputeHash. f_equal.
Qed.
End promises.

(** ** The trail on a concrete history *)

Definition tagging_digest : Digest := {|
  sha256_hex := λ s, "h" +:+ s;
  json_details := λ d, if d is Some _ then "{}" else "null"
|}.

Lemma tagging_free : @CollisionFree tagging_digest.
Proof. constructor; [|done]. intros a b Hab. by injection Hab. Qed.

Definition demo_log (action : string) : AuditLog :=
  new_log (Some "u1") action "session" None None 1700000000.

Definition demo_trail : list AuditLog :=
  AuditStore_auditLogs (exec (@record_all tagging_digest
    [demo_log "auth.login"; demo_log "auth.logout"]) (calm 0) empty_audit).

Definition demo_entry (n : nat) : AuditLog := default (demo_log "") (demo_trail !! n).

Definition demo_forged : AuditLog := (demo_entry 0) <| AuditLog_Severity := "warning" |>.

Lemma tampering_detected_witness : ∃ id,
  answer (@audit_VerifyChainIntegrity tagging_digest 0) (calm 0)
    (mkAuditStore [demo_forged; demo_entry 1] 2) = Ok (false, id).
Proof.
  apply (@tampering_detected tagging_digest tagging_free (calm 0) 2 [] []
    (demo_entry 0) demo_forged (demo_entry 1)).
  - vm_compute. repeat split.
  - vm_compute. discriminate.
  - vm_compute. discriminate.
Defined.
