(* ===== verification/Events.v ===== *)
(** * Domain events

    The event record of [internal/domain/events/event.go] and the publishing
    port the services share ([EventPublisher]). *)

From S2P Require Import Prelude.

Record Event : Type := mkEvent {
  Event_ID : string;
  Event_TenantID : string;
  Event_Type_ : string;
  Event_ResourceType : string;
  Event_ResourceID : string;
  Event_ActorID : string;
  Event_Timestamp : Z;
  Event_Payload : Details;
  Event_Metadata : list (string * string);
  Event_Version : string
}.
#[export] Instance Event_eq_dec : EqDecision Event.
Proof. solve_decision. Defined.

(** An event as the services build it: the bus fills in the other fields. *)
Definition new_event (tenant type_ rtype rid actor : string) (payload : Details) : Event :=
  mkEvent "" tenant type_ rtype rid actor zero_time payload [] "".

(** [EventPublisher]: the services drop its error. *)
Class EventPublisher (E : Type) := Publish : Event → go E ().

(** A publisher that records what it is given, in order. *)
Definition EventRecorder : EventPublisher (list Event) := λ e, modify (λ es, es ++ [e]).
