(* ===== verification/Job.v ===== *)
(** * Jobs: the durable queue

    [internal/domain/job/job.go] and the in-memory repository
    [internal/infra/memory/job_repo.go]: the job state machine, the claim of
    the next job under a lease, and the transitions a worker or an operator
    makes. Module [Life] is the abstract life cycle the repository refines. *)

From S2P Require Import Prelude Identity.

Definition ErrJobNotFound := ErrNew "job" "job not found".
Definition ErrJobAlreadyClaimed := ErrNew "job" "job is already claimed by another worker".
Definition ErrJobCannotCancel := ErrNew "job" "job is in a non-cancellable state".
Definition ErrJobCannotRetry := ErrNew "job" "job is not eligible for retry".

(** [job.Status]; [StatusUnset] is the empty string. *)
Inductive Status : Type :=
  | StatusUnset | StatusPending | StatusRunning | StatusRetrying
  | StatusSucceeded | StatusFailed | StatusCanceled.

#[export] Instance Status_eq_dec : EqDecision Status.
Proof. solve_decision. Defined.

Definition IsTerminal (s : Status) : bool :=
  bool_decide (s = StatusSucceeded) || bool_decide (s = StatusFailed)
  || bool_decide (s = StatusCanceled).

Record Job : Type := mkJob {
  Job_ID : string;
  Job_TenantID : string;
  Job_Type_ : string;
  Job_ResourceType : string;
  Job_ResourceID : string;
  Job_Status : Status;
  Job_Payload : string;
  Job_Result : string;
  Job_Error : string;
  Job_RetryCount : Z;
  Job_MaxRetries : Z;
  Job_NextRetryAt : option Z;
  Job_LockedByWorker : string;
  Job_LockedUntil : option Z;
  Job_CreatedAt : Z;
  Job_StartedAt : option Z;
  Job_CompletedAt : option Z;
  Job_ProgressPercent : Z
}.
#[export] Instance Job_eq_dec : EqDecision Job.
Proof. solve_decision. Defined.

Definition eta_Job (r : Job) : Job :=
  mkJob (Job_ID r) (Job_TenantID r) (Job_Type_ r) (Job_ResourceType r)
    (Job_ResourceID r) (Job_Status r) (Job_Payload r) (Job_Result r) (Job_Error r)
    (Job_RetryCount r) (Job_MaxRetries r) (Job_NextRetryAt r) (Job_LockedByWorker r)
    (Job_LockedUntil r) (Job_CreatedAt r) (Job_StartedAt r) (Job_CompletedAt r)
    (Job_ProgressPercent r).
#[export] Instance set_Job_ID : Setter Job_ID := ltac:(setter eta_Job Job_ID).
#[export] Instance set_Job_TenantID : Setter Job_TenantID := ltac:(setter eta_Job Job_TenantID).
#[export] Instance set_Job_Status : Setter Job_Status := ltac:(setter eta_Job Job_Status).
#[export] Instance set_Job_Result : Setter Job_Result := ltac:(setter eta_Job Job_Result).
#[export] Instance set_Job_Error : Setter Job_Error := ltac:(setter eta_Job Job_Error).
#[export] Instance set_Job_RetryCount : Setter Job_RetryCount := ltac:(setter eta_Job Job_RetryCount).
#[export] Instance set_Job_MaxRetries : Setter Job_MaxRetries := ltac:(setter eta_Job Job_MaxRetries).
#[export] Instance set_Job_NextRetryAt : Setter Job_NextRetryAt := ltac:(setter eta_Job Job_NextRetryAt).
#[export] Instance set_Job_LockedByWorker : Setter Job_LockedByWorker := ltac:(setter eta_Job Job_LockedByWorker).
#[export] Instance set_Job_LockedUntil : Setter Job_LockedUntil := ltac:(setter eta_Job Job_LockedUntil).
#[export] Instance set_Job_CreatedAt : Setter Job_CreatedAt := ltac:(setter eta_Job Job_CreatedAt).
#[export] Instance set_Job_StartedAt : Setter Job_StartedAt := ltac:(setter eta_Job Job_StartedAt).
#[export] Instance set_Job_CompletedAt : Setter Job_CompletedAt := ltac:(setter eta_Job Job_CompletedAt).
#[export] Instance set_Job_ProgressPercent : Setter Job_ProgressPercent := ltac:(setter eta_Job Job_ProgressPercent).

Definition Job_Resource (j : Job) : Resource :=
  mkResource "job" (Job_ID j) (Job_TenantID j) "".

Record JobAttempt : Type := mkJobAttempt {
  JobAttempt_ID : string;
  JobAttempt_JobID : string;
  JobAttempt_AttemptNumber : Z;
  JobAttempt_WorkerID : string;
  JobAttempt_Error : string;
  JobAttempt_StartedAt : Z;
  JobAttempt_FinishedAt : option Z
}.
#[export] Instance JobAttempt_eq_dec : EqDecision JobAttempt.
Proof. solve_decision. Defined.

Definition eta_JobAttempt (r : JobAttempt) : JobAttempt :=
  mkJobAttempt (JobAttempt_ID r) (JobAttempt_JobID r) (JobAttempt_AttemptNumber r)
    (JobAttempt_WorkerID r) (JobAttempt_Error r) (JobAttempt_StartedAt r)
    (JobAttempt_FinishedAt r).
#[export] Instance set_JobAttempt_ID : Setter JobAttempt_ID := ltac:(setter eta_JobAttempt JobAttempt_ID).
#[export] Instance set_JobAttempt_Error : Setter JobAttempt_Error := ltac:(setter eta_JobAttempt JobAttempt_Error).
#[export] Instance set_JobAttempt_FinishedAt : Setter JobAttempt_FinishedAt := ltac:(setter eta_JobAttempt JobAttempt_FinishedAt).

Record WorkerLease : Type := mkWorkerLease {
  WorkerLease_WorkerID : string;
  WorkerLease_Hostname : string;
  WorkerLease_PID : Z;
  WorkerLease_Status : string;
  WorkerLease_HeartbeatAt : Z;
  WorkerLease_ExpiresAt : Z;
  WorkerLease_CreatedAt : Z
}.
#[export] Instance WorkerLease_eq_dec : EqDecision WorkerLease.
Proof. solve_decision. Defined.

Record JobFilter : Type := mkJobFilter {
  JobFilter_TenantID : string;
  JobFilter_Type_ : string;
  JobFilter_Status : Status;
  JobFilter_ResourceType : string;
  JobFilter_ResourceID : string;
  JobFilter_Limit : Z;
  JobFilter_Offset : Z
}.

Definition eta_JobFilter (r : JobFilter) : JobFilter :=
  mkJobFilter (JobFilter_TenantID r) (JobFilter_Type_ r) (JobFilter_Status r)
    (JobFilter_ResourceType r) (JobFilter_ResourceID r) (JobFilter_Limit r)
    (JobFilter_Offset r).
#[export] Instance set_JobFilter_TenantID : Setter JobFilter_TenantID := ltac:(setter eta_JobFilter JobFilter_TenantID).

Record MemoryJobStore : Type := mkMemoryJobStore {
  MemoryJobStore_jobs : gmap string Job;
  MemoryJobStore_attempts : gmap string (list JobAttempt);
  MemoryJobStore_leases : gmap string WorkerLease
}.

Definition eta_MemoryJobStore (r : MemoryJobStore) : MemoryJobStore :=
  mkMemoryJobStore (MemoryJobStore_jobs r) (MemoryJobStore_attempts r)
    (MemoryJobStore_leases r).
#[export] Instance set_MemoryJobStore_jobs : Setter MemoryJobStore_jobs := ltac:(setter eta_MemoryJobStore MemoryJobStore_jobs).
#[export] Instance set_MemoryJobStore_attempts : Setter MemoryJobStore_attempts := ltac:(setter eta_MemoryJobStore MemoryJobStore_attempts).
#[export] Instance set_MemoryJobStore_leases : Setter MemoryJobStore_leases := ltac:(setter eta_MemoryJobStore MemoryJobStore_leases).

Definition NewMemoryJobStore : MemoryJobStore := mkMemoryJobStore ∅ ∅ ∅.

(** ** [MemoryJobRepo] *)

(** [j, exists := r.s.jobs[id]; if !exists { return ErrJobNotFound }]. *)
Definition find_job (id : string) : go MemoryJobStore Job :=
  s ← get;
  match MemoryJobStore_jobs s !! id with
  | Some j => mret j
  | None => fail ErrJobNotFound
  end.

Definition store_job (id : string) (j : Job) : go MemoryJobStore () :=
  modify (λ s, s <| MemoryJobStore_jobs := <[id := j]> (MemoryJobStore_jobs s) |>).

(** The caller's job is completed in place and a copy is stored; the result
    is the caller's job. *)
Definition completed (id : string) (created : Z) (job : Job) : Job :=
  let job := job <| Job_ID := id |> <| Job_CreatedAt := created |> in
  let job := if decide (Job_Status job = StatusUnset)
             then job <| Job_Status := StatusPending |> else job in
  if decide (Job_MaxRetries job = 0) then job <| Job_MaxRetries := 3 |> else job.

Definition JobCreate (job : Job) : go MemoryJobStore Job :=
  id ← (if decide (Job_ID job = "") then uuid_NewString else mret (Job_ID job));
  created ← (if decide (IsZero (Job_CreatedAt job)) then time_Now
             else mret (Job_CreatedAt job));
  let job := completed id created job in
  store_job (Job_ID job) job ;;
  mret job.

Definition JobGetByID (id : string) : go MemoryJobStore Job := find_job id.

Definition job_matches (f : JobFilter) (j : Job) : Prop :=
  (JobFilter_TenantID f = "" ∨ Job_TenantID j = JobFilter_TenantID f) ∧
  (JobFilter_Type_ f = "" ∨ Job_Type_ j = JobFilter_Type_ f) ∧
  (JobFilter_Status f = StatusUnset ∨ Job_Status j = JobFilter_Status f) ∧
  (JobFilter_ResourceType f = "" ∨ Job_ResourceType j = JobFilter_ResourceType f) ∧
  (JobFilter_ResourceID f = "" ∨ Job_ResourceID j = JobFilter_ResourceID f).

#[export] Instance job_matches_dec f j : Decision (job_matches f j).
Proof. unfold job_matches. apply _. Defined.

(** Newest first. *)
Definition job_newer (a b : Job) : bool := bool_decide (Job_CreatedAt b < Job_CreatedAt a).

Definition JobList `{SortSlice} (f : JobFilter) : go MemoryJobStore (list Job * Z) :=
  s ← get;
  es ← range_map (MemoryJobStore_jobs s);
  let matched := filter (job_matches f) es.*2 in
  let matched := sort_Slice job_newer matched in
  let total := Z.of_nat (length matched) in
  page ← lift (window matched (JobFilter_Limit f) (JobFilter_Offset f));
  mret (page, total).

(** The eligibility test of the claim loop. *)
Definition eligible (now : Z) (j : Job) : Prop :=
  match Job_Status j with
  | StatusPending => True
  | StatusRetrying =>
      match Job_NextRetryAt j with Some t => t < now ∨ now = t | None => True end
  | StatusRunning =>
      match Job_LockedUntil j with Some t => t < now | None => False end
  | _ => False
  end.

#[export] Instance eligible_dec now j : Decision (eligible now j).
Proof. unfold eligible. repeat case_match; apply _. Defined.

Definition claimable (now : Z) (types : list string) (j : Job) : Prop :=
  (types = [] ∨ Job_Type_ j ∈ types) ∧ eligible now j.

#[export] Instance claimable_dec now types j : Decision (claimable now types j).
Proof. unfold claimable. apply _. Defined.

Definition claimed (now until : Z) (worker : string) (j : Job) : Job :=
  let j := j <| Job_Status := StatusRunning |> <| Job_LockedByWorker := worker |>
             <| Job_LockedUntil := Some until |> in
  match Job_StartedAt j with
  | None => j <| Job_StartedAt := Some now |>
  | Some _ => j
  end.

(** The first claimable job in map order; [None] is the nil job. *)
Definition ClaimNextPending (worker : string) (lease : Z) (types : list string) :
    go MemoryJobStore (option Job) :=
  now ← time_Now;
  s ← get;
  es ← range_map (MemoryJobStore_jobs s);
  match list_find (λ kv, claimable now types kv.2) es with
  | Some (_, (k, j)) =>
      let j := claimed now (time_Add now lease) worker j in
      store_job k j ;; mret (Some j)
  | None => mret None
  end.

Definition RenewLease (id worker : string) (lease : Z) : go MemoryJobStore () :=
  j ← find_job id;
  if decide (Job_LockedByWorker j ≠ worker) then fail ErrJobAlreadyClaimed
  else
    now ← time_Now;
    store_job id (j <| Job_LockedUntil := Some (time_Add now lease) |>).

Definition JobUpdateProgress (id : string) (percent : Z) : go MemoryJobStore () :=
  j ← find_job id; store_job id (j <| Job_ProgressPercent := percent |>).

Definition MarkRunning (id worker : string) : go MemoryJobStore () :=
  j ← find_job id;
  now ← time_Now;
  store_job id (j <| Job_Status := StatusRunning |> <| Job_LockedByWorker := worker |>
                  <| Job_StartedAt := Some now |>).

Definition succeeded (now : Z) (res : string) (j : Job) : Job :=
  j <| Job_Status := StatusSucceeded |> <| Job_Result := res |> <| Job_Error := "" |>
    <| Job_ProgressPercent := 100 |> <| Job_CompletedAt := Some now |>
    <| Job_LockedByWorker := "" |> <| Job_LockedUntil := None |>.

Definition MarkSucceeded (id res : string) : go MemoryJobStore () :=
  j ← find_job id; now ← time_Now; store_job id (succeeded now res j).

Definition failed (now : Z) (err : string) (retryIn : option Z) (j : Job) : Job :=
  let j := j <| Job_Error := err |>
             <| Job_RetryCount := add64 (Job_RetryCount j) 1 |> in
  match retryIn with
  | Some d =>
      if decide (Job_RetryCount j ≤ Job_MaxRetries j) then
        j <| Job_Status := StatusRetrying |> <| Job_NextRetryAt := Some (time_Add now d) |>
          <| Job_LockedByWorker := "" |> <| Job_LockedUntil := None |>
      else
        j <| Job_Status := StatusFailed |> <| Job_CompletedAt := Some now |>
          <| Job_LockedByWorker := "" |> <| Job_LockedUntil := None |>
  | None =>
      j <| Job_Status := StatusFailed |> <| Job_CompletedAt := Some now |>
        <| Job_LockedByWorker := "" |> <| Job_LockedUntil := None |>
  end.

Definition MarkFailed (id err : string) (retryIn : option Z) : go MemoryJobStore () :=
  j ← find_job id; now ← time_Now; store_job id (failed now err retryIn j).

Definition canceled (now : Z) (reason : string) (j : Job) : Job :=
  j <| Job_Status := StatusCanceled |> <| Job_Error := reason |>
    <| Job_CompletedAt := Some now |> <| Job_LockedByWorker := "" |>
    <| Job_LockedUntil := None |>.

Definition MarkCanceled (id reason : string) : go MemoryJobStore () :=
  j ← find_job id;
  if IsTerminal (Job_Status j) then fail ErrJobCannotCancel
  else now ← time_Now; store_job id (canceled now reason j).

Definition RecordAttempt (attempt : JobAttempt) : go MemoryJobStore () :=
  id ← (if decide (JobAttempt_ID attempt = "") then uuid_NewString
        else mret (JobAttempt_ID attempt));
  let a := attempt <| JobAttempt_ID := id |> in
  modify (λ s, s <| MemoryJobStore_attempts :=
    <[JobAttempt_JobID a := default [] (MemoryJobStore_attempts s !! JobAttempt_JobID a)
                            ++ [a]]> (MemoryJobStore_attempts s) |>).

(** The test and the update of one job of the recovery loop. *)
Definition abandoned (cutoff : Z) (j : Job) : Prop :=
  Job_Status j = StatusRunning ∧
  match Job_LockedUntil j with Some t => t < cutoff | None => False end.

#[export] Instance abandoned_dec cutoff j : Decision (abandoned cutoff j).
Proof. unfold abandoned. apply and_dec; [|case_match]; apply _. Defined.

Definition reclaimed (j : Job) : Job :=
  j <| Job_Status := StatusPending |> <| Job_LockedByWorker := "" |>
    <| Job_LockedUntil := None |>.

Definition reclaim_step (cutoff : Z) (acc : gmap string Job * Z) (kv : string * Job) :
    gmap string Job * Z :=
  if decide (abandoned cutoff kv.2)
  then (<[kv.1 := reclaimed kv.2]> acc.1, add64 acc.2 1) else acc.

Definition reclaim_loop (cutoff : Z) (es : list (string * Job))
    (acc : gmap string Job * Z) : gmap string Job * Z :=
  foldl (reclaim_step cutoff) acc es.

Definition ReclaimAbandonedJobs (cutoff : Z) : go MemoryJobStore Z :=
  s ← get;
  es ← range_map (MemoryJobStore_jobs s);
  let '(jobs, n) := reclaim_loop cutoff es (MemoryJobStore_jobs s, 0) in
  put (s <| MemoryJobStore_jobs := jobs |>) ;;
  mret n.

(** ** [MemoryWorkerLeaseRepo] *)

Definition RegisterOrHeartbeat (l : WorkerLease) : go MemoryJobStore () :=
  modify (λ s, s <| MemoryJobStore_leases :=
    <[WorkerLease_WorkerID l := l]> (MemoryJobStore_leases s) |>).

Definition GetStaleWorkers (cutoff : Z) : go MemoryJobStore (list WorkerLease) :=
  s ← get;
  es ← range_map (MemoryJobStore_leases s);
  mret (filter (λ l, WorkerLease_HeartbeatAt l < cutoff) es.*2).

Definition Deregister (worker : string) : go MemoryJobStore () :=
  modify (λ s, s <| MemoryJobStore_leases := delete worker (MemoryJobStore_leases s) |>).

(** ** The operations as updates of the job map *)

Definition alter_job (f : Job → Job) (id : string) (s : MemoryJobStore) : MemoryJobStore :=
  s <| MemoryJobStore_jobs := alter f id (MemoryJobStore_jobs s) |>.

Lemma set_jobs_id s : s <| MemoryJobStore_jobs := MemoryJobStore_jobs s |> = s.
Proof. by destruct s. Qed.

(** The shape all the marking operations share. *)
Lemma update_run (id : string) (f : Z → Job → Job) w s :
  (j ← find_job id; now ← time_Now; store_job id (f now j)) w s =
  match MemoryJobStore_jobs s !! id with
  | Some j => (Ok (), alter_job (f (now_of w)) id s, world (St := ()) time_Now w ())
  | None => (Err ErrJobNotFound, s, w)
  end.
Proof.
  unfold find_job, alter_job. go_unfold. destruct (MemoryJobStore_jobs s !! id) as [j|] eqn:E; [|done].
  by rewrite (alter_alt_Some _ _ _ _ E).
Qed.

Lemma alter_job_None f id s : MemoryJobStore_jobs s !! id = None → alter_job f id s = s.
Proof. intros E. unfold alter_job. rewrite alter_id' by done. apply set_jobs_id. Qed.

Lemma exec_update id (f : Z → Job → Job) w s :
  exec (j ← find_job id; now ← time_Now; store_job id (f now j)) w s =
  alter_job (f (now_of w)) id s.
Proof.
  unfold exec. rewrite update_run.
  destruct (_ !! id) eqn:E; [done|]. by rewrite alter_job_None.
Qed.

Lemma exec_MarkSucceeded id res w s :
  exec (MarkSucceeded id res) w s = alter_job (succeeded (now_of w) res) id s.
Proof. apply (exec_update id (λ now, succeeded now res)). Qed.

Lemma exec_MarkRunning id worker w s :
  exec (MarkRunning id worker) w s =
  alter_job (λ j, j <| Job_Status := StatusRunning |> <| Job_LockedByWorker := worker |>
                    <| Job_StartedAt := Some (now_of w) |>) id s.
Proof.
  apply (exec_update id (λ now j, j <| Job_Status := StatusRunning |>
    <| Job_LockedByWorker := worker |> <| Job_StartedAt := Some now |>)).
Qed.

Lemma exec_MarkFailed id err d w s :
  exec (MarkFailed id err d) w s = alter_job (failed (now_of w) err d) id s.
Proof. apply (exec_update id (λ now, failed now err d)). Qed.

Lemma exec_MarkCanceled id reason w s :
  exec (MarkCanceled id reason) w s =
  alter_job (λ j, if IsTerminal (Job_Status j) then j else canceled (now_of w) reason j) id s.
Proof.
  unfold MarkCanceled, find_job, alter_job. go_unfold.
  destruct (MemoryJobStore_jobs s !! id) as [j|] eqn:E.
  - rewrite (alter_alt_Some _ _ _ _ E). destruct (IsTerminal _); [|done].
    simpl. rewrite insert_id by done. by rewrite set_jobs_id.
  - rewrite alter_id' by done. by rewrite set_jobs_id.
Qed.

Lemma exec_RenewLease id worker lease w s :
  exec (RenewLease id worker lease) w s =
  alter_job (λ j, if decide (Job_LockedByWorker j ≠ worker) then j
                  else j <| Job_LockedUntil := Some (time_Add (now_of w) lease) |>) id s.
Proof.
  unfold RenewLease, find_job, alter_job. go_unfold.
  destruct (MemoryJobStore_jobs s !! id) as [j|] eqn:E.
  - rewrite (alter_alt_Some _ _ _ _ E). destruct (decide (_ ≠ _)); [|done].
    simpl. rewrite insert_id by done. by rewrite set_jobs_id.
  - rewrite alter_id' by done. by rewrite set_jobs_id.
Qed.

Lemma exec_JobUpdateProgress id p w s :
  exec (JobUpdateProgress id p) w s = alter_job (λ j, j <| Job_ProgressPercent := p |>) id s.
Proof.
  unfold JobUpdateProgress, find_job, alter_job. go_unfold.
  destruct (MemoryJobStore_jobs s !! id) as [j|] eqn:E.
  - by rewrite (alter_alt_Some _ _ _ _ E).
  - rewrite alter_id' by done. by rewrite set_jobs_id.
Qed.

Lemma JobCreate_run job w s :
  ∃ id created w', JobCreate job w s =
    (Ok (completed id created job),
     s <| MemoryJobStore_jobs :=
            <[id := completed id created job]> (MemoryJobStore_jobs s) |>, w') ∧
    (Job_ID job ≠ "" → id = Job_ID job) ∧ (Job_ID job = "" → id = w_uuid w (w_uuids w)).
Proof.
  assert (∀ id created, Job_ID (completed id created job) = id) as Hid
    by (intros; unfold completed; repeat case_decide; done).
  unfold JobCreate, store_job. go_unfold.
  destruct (decide (Job_ID job = "")) as [Eid|Eid]; cbn [fst snd];
    destruct (decide (IsZero _)); cbn [fst snd]; rewrite Hid;
    do 3 eexists; (split; [reflexivity|]); by split.
Qed.

(** ** Claiming *)

Lemma list_find_snd {K V} (P : V → Prop) `{!∀ v, Decision (P v)} (l : list (K * V)) :
  list_find (λ kv, P kv.2) l = None → Forall (λ kv, ¬ P kv.2) l.
Proof. apply list_find_None. Qed.

Lemma claim_run worker lease types w s :
  World_ok w →
  (ClaimNextPending worker lease types w s = (Ok None, s, world (St := ()) (time_Now ;; range_map (∅ : gmap string ())) w ()) ∧
   ∀ id j, MemoryJobStore_jobs s !! id = Some j → ¬ claimable (now_of w) types j) ∨
  (∃ id j, MemoryJobStore_jobs s !! id = Some j ∧ claimable (now_of w) types j ∧
    let j' := claimed (now_of w) (now_of w + lease) worker j in
    ClaimNextPending worker lease types w s =
      (Ok (Some j'), s <| MemoryJobStore_jobs := <[id := j']> (MemoryJobStore_jobs s) |>,
       world (St := ()) (time_Now ;; range_map (∅ : gmap string ())) w ())).
Proof.
  intros Hw. unfold ClaimNextPending, store_job. go_unfold. fold (now_of w). simpl.
  destruct (list_find _ _) as [[i [k j]]|] eqn:E; simpl.
  - right. apply (find_entries_Some _ _ _ (λ kv, claimable (now_of w) types kv.2)) in E
      as [Hk Hc]; [|done]. by exists k, j.
  - left. split; [done|]. intros id j Hj Hc.
    pose proof (proj1 (find_entries_None w _ _ (λ kv, claimable (now_of w) types kv.2) Hw) E)
      as Hn. by apply (Hn id j).
Qed.

(** What a claim does: it takes a job that is pending, waiting for a retry
    that is due, or running under a lease that has expired, gives the caller
    a fresh lease on it and changes nothing else; it returns no job exactly
    when no job of the requested types is claimable, and it never fails. *)
Theorem ClaimNextPending_spec (worker : string) (lease : Z) (types : list string)
    (w : World) (s : MemoryJobStore) :
  World_ok w →
  match answer (ClaimNextPending worker lease types) w s with
  | Ok (Some j') => ∃ id j,
      MemoryJobStore_jobs s !! id = Some j ∧ claimable (now_of w) types j ∧
      j' = claimed (now_of w) (now_of w + lease) worker j ∧
      exec (ClaimNextPending worker lease types) w s =
        s <| MemoryJobStore_jobs := <[id := j']> (MemoryJobStore_jobs s) |>
  | Ok None =>
      (∀ id j, MemoryJobStore_jobs s !! id = Some j → ¬ claimable (now_of w) types j) ∧
      exec (ClaimNextPending worker lease types) w s = s
  | Err _ => False
  end.
Proof.
  intros Hw. unfold answer, exec.
  destruct (claim_run worker lease types w s Hw) as [[-> Hn]|(id & j & Hj & Hc & ->)]; simpl.
  - done.
  - by exists id, j.
Qed.

(** ** Recovery of abandoned jobs *)

Definition recover (cutoff : Z) (j : Job) : Job :=
  if decide (abandoned cutoff j) then reclaimed j else j.

Lemma reclaim_loop_lookup cutoff es jobs n i :
  NoDup es.*1 → (∀ k j, (k, j) ∈ es → jobs !! k = Some j) →
  (reclaim_loop cutoff es (jobs, n)).1 !! i =
  if decide (i ∈ es.*1) then recover cutoff <$> jobs !! i else jobs !! i.
Proof.
  unfold reclaim_loop. revert jobs n.
  induction es as [|[k j] es IH]; intros jobs n Hnd Hes.
  { rewrite decide_False; [done|apply not_elem_of_nil]. }
  rewrite fmap_cons in *. cbn [fst foldl] in *. apply NoDup_cons in Hnd as [Hk Hnd].
  assert (jobs !! k = Some j) as Hj by (apply Hes; constructor).
  assert (∀ k' j', (k', j') ∈ es → k' ≠ k) as Hfresh.
  { intros k' j' H' ->. apply Hk, list_elem_of_fmap. by exists (k, j'). }
  destruct (reclaim_step cutoff (jobs, n) (k, j)) as [jobs' m] eqn:Est.
  assert ((∀ k', k' ≠ k → jobs' !! k' = jobs !! k') ∧
    jobs' !! k = recover cutoff <$> jobs !! k) as [Hne Heq].
  { unfold reclaim_step in Est. cbn [fst snd] in Est. rewrite Hj. unfold recover. simpl.
    destruct (decide (abandoned cutoff j)); injection Est as <- <-.
    - split; [intros k' ?; by rewrite lookup_insert_ne|by rewrite lookup_insert_eq].
    - done. }
  rewrite IH; [|done|].
  - destruct (decide (i = k)) as [->|Hik].
    + rewrite (decide_False (P := k ∈ es.*1)), decide_True by (done || constructor). done.
    + rewrite Hne by done. destruct (decide (i ∈ es.*1)).
      * by rewrite decide_True by (by constructor).
      * rewrite decide_False; [done|]. by intros [?|?]%elem_of_cons.
  - intros k' j' H'. rewrite Hne by eauto. apply Hes. by constructor.
Qed.

Lemma reclaim_loop_count cutoff es jobs n :
  int64_ok n →
  (reclaim_loop cutoff es (jobs, n)).2 =
  wrap64 (n + Z.of_nat (length (filter (λ kv, abandoned cutoff kv.2) es))).
Proof.
  unfold reclaim_loop. revert jobs n.
  induction es as [|[k j] es IH]; intros jobs n Hn.
  { simpl. rewrite Z.add_0_r. by rewrite wrap64_id. }
  rewrite filter_cons. cbn [foldl]. unfold reclaim_step at 2. cbn [fst snd].
  destruct (decide (abandoned cutoff j)).
  - rewrite IH by apply wrap64_ok. cbn [length]. unfold add64. rewrite wrap64_add_l.
    f_equal. lia.
  - by rewrite IH.
Qed.

Lemma reclaim_run (cutoff : Z) (w : World) (s : MemoryJobStore) :
  World_ok w →
  exec (ReclaimAbandonedJobs cutoff) w s =
    s <| MemoryJobStore_jobs := recover cutoff <$> MemoryJobStore_jobs s |> ∧
  answer (ReclaimAbandonedJobs cutoff) w s =
    Ok (wrap64 (Z.of_nat (length (filter (λ kv, abandoned cutoff kv.2)
                                    (map_to_list (MemoryJobStore_jobs s)))))).
Proof.
  intros Hw. unfold ReclaimAbandonedJobs. go_unfold.
  set (es := entries _ _). set (jobs := MemoryJobStore_jobs s) in *.
  assert (es ≡ₚ map_to_list jobs) as Hperm by (apply entries_perm, Hw).
  assert (NoDup es.*1) as Hnd by (rewrite Hperm; apply NoDup_fst_map_to_list).
  assert (∀ k j, (k, j) ∈ es → jobs !! k = Some j) as Hes
    by (intros k j; rewrite Hperm; apply elem_of_map_to_list).
  pose proof (λ i, reclaim_loop_lookup cutoff es jobs 0 i Hnd Hes) as Hl.
  pose proof (reclaim_loop_count cutoff es jobs 0 ltac:(done)) as Hc.
  destruct (reclaim_loop cutoff es (jobs, 0)) as [jobs' n]; simpl in *. split.
  - assert (jobs' = recover cutoff <$> jobs) as ->; [|done].
    apply map_eq. intros i. rewrite Hl, lookup_fmap. case_decide as Hi; [done|].
    destruct (jobs !! i) as [j|] eqn:E; [|done]. destruct Hi.
    apply list_elem_of_fmap. exists (i, j). split; [done|].
    rewrite Hperm. by apply elem_of_map_to_list.
  - rewrite Hc, Z.add_0_l. by rewrite Hperm.
Qed.

(** Recovery: every running job whose lease ended before the cut-off goes
    back to pending without a lock, every other job is left as it is, and the
    number of recovered jobs is returned, whatever the map iteration order. *)
Theorem ReclaimAbandonedJobs_spec (cutoff : Z) (w : World) (s : MemoryJobStore) :
  World_ok w →
  exec (ReclaimAbandonedJobs cutoff) w s =
    s <| MemoryJobStore_jobs := recover cutoff <$> MemoryJobStore_jobs s |> ∧
  answer (ReclaimAbandonedJobs cutoff) w s =
    Ok (wrap64 (Z.of_nat (length (filter (λ kv, abandoned cutoff kv.2)
                                    (map_to_list (MemoryJobStore_jobs s)))))).
Proof. apply reclaim_run. Qed.

(** ** Interleaved histories

    Workers, the recovery loop and operators call the repository in any
    order; each call is atomic (it holds the store's mutex). [qstep] is one
    such call by the engine. A retry writes back a job read earlier, so its
    argument is any failed or canceled snapshot. *)

Definition fresh_job (j : Job) : Prop :=
  (Job_Status j = StatusUnset ∨ Job_Status j = StatusPending) ∧
  Job_LockedByWorker j = "" ∧ Job_LockedUntil j = None ∧ Job_CompletedAt j = None.

(** [RetryJob]'s rewriting of the job it read. *)
Definition resubmitted (j : Job) : Job :=
  j <| Job_Status := StatusPending |> <| Job_Error := "" |>
    <| Job_ProgressPercent := 0 |> <| Job_NextRetryAt := None |>
    <| Job_LockedByWorker := "" |> <| Job_LockedUntil := None |>.

Inductive qstep : MemoryJobStore → MemoryJobStore → Prop :=
  | q_submit w s j : fresh_job j → qstep s (exec (JobCreate j) w s)
  | q_resubmit w s j :
      Job_Status j = StatusFailed ∨ Job_Status j = StatusCanceled →
      Job_ID j ≠ "" →
      qstep s (exec (JobCreate (resubmitted j)) w s)
  | q_claim w s worker lease types : World_ok w → worker ≠ "" →
      qstep s (exec (ClaimNextPending worker lease types) w s)
  | q_renew w s id worker lease : worker ≠ "" →
      qstep s (exec (RenewLease id worker lease) w s)
  | q_progress w s id p : qstep s (exec (JobUpdateProgress id p) w s)
  | q_succeed w s id res : qstep s (exec (MarkSucceeded id res) w s)
  | q_fail w s id err d : qstep s (exec (MarkFailed id err d) w s)
  | q_cancel w s id reason : qstep s (exec (MarkCanceled id reason) w s)
  | q_attempt w s a : qstep s (exec (RecordAttempt a) w s)
  | q_reclaim w s cutoff : World_ok w → qstep s (exec (ReclaimAbandonedJobs cutoff) w s).

(** A job is locked by a worker, with an end of lease, exactly while it runs. *)
Definition locked (j : Job) : Prop := Job_LockedByWorker j ≠ "" ∧ is_Some (Job_LockedUntil j).
Definition unlocked (j : Job) : Prop := Job_LockedByWorker j = "" ∧ Job_LockedUntil j = None.

Definition job_ok (j : Job) : Prop :=
  match Job_Status j with
  | StatusUnset => False
  | StatusRunning => locked j
  | StatusSucceeded | StatusFailed | StatusCanceled => unlocked j ∧ is_Some (Job_CompletedAt j)
  | StatusPending | StatusRetrying => unlocked j
  end.

Definition queue_ok (s : MemoryJobStore) : Prop :=
  ∀ id j, MemoryJobStore_jobs s !! id = Some j → job_ok j.

Lemma queue_ok_insert s id j :
  queue_ok s → job_ok j →
  queue_ok (s <| MemoryJobStore_jobs := <[id := j]> (MemoryJobStore_jobs s) |>).
Proof.
  intros Hs Hj id' j'. simpl. rewrite lookup_insert. case_decide; [by intros [= <-]|apply Hs].
Qed.

Lemma queue_ok_alter s f id :
  queue_ok s → (∀ j, job_ok j → job_ok (f j)) → queue_ok (alter_job f id s).
Proof.
  intros Hs Hf id' j'. unfold alter_job. simpl. rewrite lookup_alter.
  case_decide; [|apply Hs]. subst.
  destruct (_ !! id') eqn:E; simpl; [|done]. intros [= <-]. eauto.
Qed.

Lemma job_ok_completed id t j : fresh_job j → job_ok (completed id t j).
Proof.
  intros (Hst & H1 & H2 & _). unfold completed, job_ok, unlocked.
  destruct Hst as [E|E]; repeat (case_decide; simpl in *); simpl; rewrite ?E; auto; done.
Qed.

Lemma job_ok_resubmitted id t j : job_ok (completed id t (resubmitted j)).
Proof. unfold completed, job_ok, unlocked. repeat (case_decide; simpl in *); done. Qed.

Lemma job_ok_claimed now until worker j : worker ≠ "" → job_ok (claimed now until worker j).
Proof. intros Hw. unfold claimed, job_ok, locked. destruct (Job_StartedAt _); simpl; eauto. Qed.

Lemma job_ok_failed now err d j : job_ok (failed now err d j).
Proof.
  unfold failed, job_ok, unlocked. destruct d; [case_decide|]; simpl; eauto.
Qed.

Lemma job_ok_renewed until j :
  Job_LockedByWorker j ≠ "" → job_ok j → job_ok (j <| Job_LockedUntil := until |>) ∨ until = None.
Proof.
  intros Hw Hj. destruct until as [t|]; [left|by right]. unfold job_ok, locked, unlocked in *.
  simpl. destruct (Job_Status j); destruct_and?; try done; eauto.
Qed.

Lemma qstep_ok s s' : qstep s s' → queue_ok s → queue_ok s'.
Proof.
  intros Hstep Hs. destruct Hstep as
    [w s j Hj|w s j Hst Hid|w s worker lease types Hw Hne|w s id worker lease Hne|w s id p
    |w s id res|w s id err d|w s id reason|w s a|w s cutoff Hw].
  - destruct (JobCreate_run j w s) as (id & t & w' & Hrun & _). unfold exec. rewrite Hrun.
    apply queue_ok_insert; [done|]. by apply job_ok_completed.
  - destruct (JobCreate_run (resubmitted j) w s) as (id & t & w' & Hrun & _).
    unfold exec. rewrite Hrun. apply queue_ok_insert; [done|]. apply job_ok_resubmitted.
  - pose proof (claim_run worker lease types w s Hw) as Hc.
    destruct Hc as [[Hrun _]|(id & j & _ & _ & Hrun)]; unfold exec; rewrite Hrun; [done|].
    apply queue_ok_insert; [done|]. by apply job_ok_claimed.
  - rewrite exec_RenewLease. apply queue_ok_alter; [done|]. intros j Hj.
    case_decide as E; [done|]. subst worker.
    by destruct (job_ok_renewed (Some (time_Add (now_of w) lease)) j Hne Hj).
  - rewrite exec_JobUpdateProgress. by apply queue_ok_alter.
  - rewrite exec_MarkSucceeded. apply queue_ok_alter; [done|]. intros j _.
    unfold job_ok, unlocked; simpl; eauto.
  - rewrite exec_MarkFailed. apply queue_ok_alter; [done|]. intros j _. apply job_ok_failed.
  - rewrite exec_MarkCanceled. apply queue_ok_alter; [done|]. intros j Hj.
    destruct (IsTerminal _); [done|]. unfold job_ok, unlocked; simpl; eauto.
  - unfold RecordAttempt. go_unfold. destruct (decide _); apply Hs.
  - destruct (reclaim_run cutoff w s Hw) as [-> _]. intros id j. simpl.
    rewrite lookup_fmap. destruct (_ !! id) as [j0|] eqn:E; simpl; [|done].
    intros [= <-]. unfold recover. case_decide; [|by eapply Hs].
    unfold job_ok, unlocked; simpl; eauto.
Qed.

(** Lock discipline: in every interleaving of submissions, claims, lease
    renewals, completions, failures, cancellations, retries and recoveries, a
    stored job names a worker and an end of lease exactly while it is
    running, and has a completion time whenever it is finished. *)
Theorem lock_discipline (s : MemoryJobStore) :
  rtc qstep NewMemoryJobStore s → queue_ok s.
Proof.
  intros Hr. assert (queue_ok NewMemoryJobStore) as H0 by (intros id j; done).
  revert H0. induction Hr as [|s1 s2 s3 H12 _ IH]; [done|].
  intros H0. apply IH. by eapply qstep_ok.
Qed.

(** ** Exclusive leases *)

(** Worker [A] holds job [id] until [T] at least. *)
Definition held (s : MemoryJobStore) (id A : string) (T : Z) : Prop :=
  ∃ j t, MemoryJobStore_jobs s !! id = Some j ∧ Job_Status j = StatusRunning ∧
         Job_LockedByWorker j = A ∧ Job_LockedUntil j = Some t ∧ T ≤ t.

(** What the system does meanwhile: workers claim up to [T], renew their own
    leases and report progress, the recovery loop runs with a cut-off up to
    [T], anything at all is done to other jobs. Only a report or a
    cancellation of the job itself is missing: the repository does not ask who
    reports ([late_report_ends_job]). *)
Inductive foreign (id A : string) (T : Z) : MemoryJobStore → MemoryJobStore → Prop :=
  | f_claim w s B lease types : World_ok w → now_of w ≤ T →
      foreign id A T s (exec (ClaimNextPending B lease types) w s)
  | f_renew w s id' B lease : B ≠ A ∨ id' ≠ id ∨ T ≤ now_of w + lease →
      foreign id A T s (exec (RenewLease id' B lease) w s)
  | f_progress w s id' p : foreign id A T s (exec (JobUpdateProgress id' p) w s)
  | f_attempt w s a : foreign id A T s (exec (RecordAttempt a) w s)
  | f_reclaim w s cutoff : World_ok w → cutoff ≤ T →
      foreign id A T s (exec (ReclaimAbandonedJobs cutoff) w s)
  | f_submit w s j : Job_ID j ≠ "" → Job_ID j ≠ id →
      foreign id A T s (exec (JobCreate j) w s)
  | f_running w s id' B : id' ≠ id → foreign id A T s (exec (MarkRunning id' B) w s)
  | f_succeed w s id' res : id' ≠ id → foreign id A T s (exec (MarkSucceeded id' res) w s)
  | f_fail w s id' err d : id' ≠ id → foreign id A T s (exec (MarkFailed id' err d) w s)
  | f_cancel w s id' reason : id' ≠ id → foreign id A T s (exec (MarkCanceled id' reason) w s).

Lemma held_alter s f id' id A T :
  held s id A T →
  (∀ j t, Job_Status j = StatusRunning → Job_LockedByWorker j = A →
     Job_LockedUntil j = Some t → T ≤ t →
     Job_Status (f j) = StatusRunning ∧ Job_LockedByWorker (f j) = A ∧
     Job_LockedUntil (f j) = Some t) →
  held (alter_job f id' s) id A T.
Proof.
  intros (j & t & Hj & Hst & HA & Ht & HT) Hf. unfold held, alter_job. simpl.
  destruct (decide (id' = id)) as [->|Hne].
  - exists (f j), t. rewrite lookup_alter_eq, Hj.
    destruct (Hf j t) as (? & ? & ?); auto.
  - exists j, t. by rewrite lookup_alter_ne.
Qed.

Lemma held_insert_ne s id' j' id A T :
  id' ≠ id → held s id A T →
  held (s <| MemoryJobStore_jobs := <[id' := j']> (MemoryJobStore_jobs s) |>) id A T.
Proof.
  intros Hne (j & t & Hj & Hrest). exists j, t. simpl. by rewrite lookup_insert_ne.
Qed.

Lemma held_other s f id' id A T : id' ≠ id → held s id A T → held (alter_job f id' s) id A T.
Proof.
  intros Hne (j & t & Hj & Hrest). exists j, t. unfold alter_job. simpl. by rewrite lookup_alter_ne.
Qed.

Lemma held_renewed s id A T lease w :
  held s id A T → T ≤ now_of w + lease → held (exec (RenewLease id A lease) w s) id A T.
Proof.
  intros (j & t & Hj & Hst & HA & Ht & HT) Hle. rewrite exec_RenewLease. unfold held, alter_job. simpl.
  rewrite lookup_alter_eq, Hj. simpl. rewrite decide_False by tauto.
  eexists _, _. split_and!; [reflexivity|done|done|reflexivity|done].
Qed.

Lemma held_not_claimable s id A T now types j :
  held s id A T → now ≤ T → MemoryJobStore_jobs s !! id = Some j → ¬ claimable now types j.
Proof.
  intros (j0 & t & Hj & Hst & _ & Ht & HT) Hnow Hj' [_ He].
  rewrite Hj in Hj'. injection Hj' as <-. unfold eligible in He. rewrite Hst, Ht in He. lia.
Qed.

Lemma foreign_held id A T s s' : foreign id A T s s' → held s id A T → held s' id A T.
Proof.
  intros Hstep Hh. destruct Hstep as
    [w s B lease types Hw Hnow|w s id' B lease HB|w s id' p|w s a|w s cutoff Hw Hc|w s j Hne Hid
    |w s id' B Hne|w s id' res Hne|w s id' err d Hne|w s id' reason Hne].
  - destruct (claim_run B lease types w s Hw) as [[Hrun _]|(id' & j & Hj & Hcl & Hrun)];
      unfold exec; rewrite Hrun; [done|]. apply held_insert_ne; [|done]. intros ->.
    by eapply held_not_claimable.
  - destruct (decide (id' = id)) as [->|Hne]; [|rewrite exec_RenewLease; by apply held_other].
    destruct (decide (B = A)) as [->|HBA].
    + apply held_renewed; [done|]. by destruct HB as [?|[?|?]].
    + rewrite exec_RenewLease. apply held_alter; [done|]. intros j t ? <- ? ?.
      by rewrite decide_True.
  - rewrite exec_JobUpdateProgress. by apply held_alter.
  - unfold RecordAttempt. go_unfold. destruct (decide _); apply Hh.
  - destruct (reclaim_run cutoff w s Hw) as [-> _].
    destruct Hh as (j & t & Hj & Hst & HA & Ht & HT). exists j, t. simpl.
    rewrite lookup_fmap, Hj. simpl. unfold recover. rewrite decide_False; [done|].
    unfold abandoned. rewrite Ht. lia.
  - destruct (JobCreate_run j w s) as (id' & t & w' & Hrun & He & _).
    unfold exec. rewrite Hrun. apply held_insert_ne; [|done]. rewrite He by done. done.
  - rewrite exec_MarkRunning. by apply held_other.
  - rewrite exec_MarkSucceeded. by apply held_other.
  - rewrite exec_MarkFailed. by apply held_other.
  - rewrite exec_MarkCanceled. by apply held_other.
Qed.


(** ** The life cycle *)

(** The queue as its users see it: tasks that wait, back off until they are
    due, are held by a worker under a lease, or are done, with the failures
    counted against a limit. *)
Module Life.
Inductive phase : Type :=
  | Waiting
  | Backoff (due : option Z)
  | Held (worker : string) (until : Z)
  | Done (outcome : Status).

Record task : Type := Task { kind : string; phase_of : phase; tries : Z; limit : Z }.
Abbreviation machine := (gmap string task).

Definition now_in (p : phase) (t : task) : task := Task (kind t) p (tries t) (limit t).
Definition failed_in (p : phase) (t : task) : task := Task (kind t) p (add64 (tries t) 1) (limit t).
Definition default_limit (t : task) : task :=
  Task (kind t) (phase_of t) (tries t) (if decide (limit t = 0) then 3 else limit t).

Definition available (now : Z) (types : list string) (t : task) : Prop :=
  (types = [] ∨ kind t ∈ types) ∧
  match phase_of t with
  | Waiting => True
  | Backoff due => match due with Some d => d ≤ now | None => True end
  | Held _ until => until < now
  | Done _ => False
  end.

(** The lease of a held task ended before [cutoff]: it waits again. *)
Definition recover (cutoff : Z) (t : task) : task :=
  match phase_of t with
  | Held _ until => if decide (until < cutoff) then now_in Waiting t else t
  | _ => t
  end.

(** What happens to the queue, and when. *)
Inductive event : Type :=
  | Submitted (id : string)
  | Resubmitted (id : string)
  | Claimed (now : Z) (worker : string) (lease : Z) (types : list string)
  | Renewed (now : Z) (id worker : string) (lease : Z)
  | Succeeded (id : string)
  | Failed (now : Z) (id : string) (retryIn : option Z)
  | Canceled (id : string)
  | Recovered (cutoff : Z)
  | Noted.

Definition finished (p : phase) : Prop := match p with Done _ => True | _ => False end.

Inductive step : event → machine → machine → Prop :=
  | submit m id t : m !! id = None → phase_of t = Waiting →
      step (Submitted id) m (<[id := t]> m)
  | resubmit m id t : m !! id = Some t →
      phase_of t = Done StatusFailed ∨ phase_of t = Done StatusCanceled →
      step (Resubmitted id) m (<[id := default_limit (now_in Waiting t)]> m)
  | claim m now worker lease types id t : m !! id = Some t → available now types t →
      step (Claimed now worker lease types) m (<[id := now_in (Held worker (now + lease)) t]> m)
  | claim_none m now worker lease types :
      (∀ id t, m !! id = Some t → ¬ available now types t) → step (Claimed now worker lease types) m m
  | renew m now id worker lease t until : m !! id = Some t → phase_of t = Held worker until →
      step (Renewed now id worker lease) m (<[id := now_in (Held worker (now + lease)) t]> m)
  | renew_refused m now id worker lease :
      (∀ t until, m !! id = Some t → phase_of t ≠ Held worker until) →
      step (Renewed now id worker lease) m m
  | succeed m id t worker until : m !! id = Some t → phase_of t = Held worker until →
      step (Succeeded id) m (<[id := now_in (Done StatusSucceeded) t]> m)
  | back_off m now id d t worker until : m !! id = Some t → phase_of t = Held worker until →
      add64 (tries t) 1 ≤ limit t →
      step (Failed now id (Some d)) m (<[id := failed_in (Backoff (Some (now + d))) t]> m)
  | fail_finally m now id retryIn t worker until : m !! id = Some t → phase_of t = Held worker until →
      retryIn = None ∨ limit t < add64 (tries t) 1 →
      step (Failed now id retryIn) m (<[id := failed_in (Done StatusFailed) t]> m)
  | cancel m id t : m !! id = Some t → ¬ finished (phase_of t) →
      step (Canceled id) m (<[id := now_in (Done StatusCanceled) t]> m)
  | cancel_refused m id : (∀ t, m !! id = Some t → finished (phase_of t)) → step (Canceled id) m m
  | recovery m cutoff : step (Recovered cutoff) m (recover cutoff <$> m)
  | note m : step Noted m m.

Lemma others_move (m : machine) i x (t' : task) id t : ¬ finished (phase_of t') → m !! i = Some t' →
  m !! id = Some t → finished (phase_of t) → (<[i := x]> m : machine) !! id = Some t.
Proof.
  intros Hn Hi Ht Hd. rewrite lookup_insert_ne; [done|]. intros ->. rewrite Hi in Ht.
  injection Ht as ->. by apply Hn.
Qed.

(** A finished task stays as it is unless it is submitted again. *)
Lemma done_stays ev m m' id t : step ev m m' → m !! id = Some t → finished (phase_of t) →
  ev = Resubmitted id ∨ m' !! id = Some t.
Proof.
  intros Hs Ht Hd.
  destruct Hs as [m i x Hi _|m i x Hi _|m now wk lease types i x Hi Ha| |m now i wk lease x u Hi Hp|
    |m i x wk u Hi Hp|m now i d x wk u Hi Hp _|m now i d x wk u Hi Hp _|m i x Hi Hp| |m cutoff|];
    try (by right).
  - right. rewrite lookup_insert_ne; [done|congruence].
  - destruct (decide (i = id)) as [->|]; [by left|right; by rewrite lookup_insert_ne].
  - right. eapply (others_move _ _ _ x); [|done..]. destruct Ha as [_ Ha]. destruct (phase_of x); cbn; tauto.
  - right. eapply (others_move _ _ _ x); [|done..]. rewrite Hp; cbn; tauto.
  - right. eapply (others_move _ _ _ x); [|done..]. rewrite Hp; cbn; tauto.
  - right. eapply (others_move _ _ _ x); [|done..]. rewrite Hp; cbn; tauto.
  - right. eapply (others_move _ _ _ x); [|done..]. rewrite Hp; cbn; tauto.
  - right. by eapply others_move.
  - right. rewrite lookup_fmap, Ht. cbn. unfold recover. by destruct (phase_of t).
Qed.
End Life.

(** Histories of labelled steps. *)
Inductive run {L X} (R : L → X → X → Prop) : list L → X → X → Prop :=
  | run_nil x : run R [] x x
  | run_cons l ls x y z : R l x y → run R ls y z → run R (l :: ls) x z.

(** What a stored job is in the life cycle. *)
Definition phase_of_job (j : Job) : Life.phase :=
  match Job_Status j with
  | StatusUnset | StatusPending => Life.Waiting
  | StatusRetrying => Life.Backoff (Job_NextRetryAt j)
  | StatusRunning => Life.Held (Job_LockedByWorker j) (default 0 (Job_LockedUntil j))
  | st => Life.Done st
  end.
Definition task_of (j : Job) : Life.task :=
  Life.Task (Job_Type_ j) (phase_of_job j) (Job_RetryCount j) (Job_MaxRetries j).
Definition view (s : MemoryJobStore) : gmap string Life.task := task_of <$> MemoryJobStore_jobs s.

(** The calls with what they are in the life cycle, by callers that still own
    the job: a worker reports the end of a job that is running, an operator
    retries a job that is finished, a submitted job has a new identifier. The
    repository does not check the first two. *)
Inductive owned_step : Life.event → MemoryJobStore → MemoryJobStore → Prop :=
  | o_submit w s j : fresh_job j → Job_ID j ≠ "" → MemoryJobStore_jobs s !! Job_ID j = None →
      owned_step (Life.Submitted (Job_ID j)) s (exec (JobCreate j) w s)
  | o_submit_new w s j : fresh_job j → Job_ID j = "" →
      MemoryJobStore_jobs s !! w_uuid w (w_uuids w) = None →
      owned_step (Life.Submitted (w_uuid w (w_uuids w))) s (exec (JobCreate j) w s)
  | o_resubmit w s j : Job_ID j ≠ "" → MemoryJobStore_jobs s !! Job_ID j = Some j →
      Job_Status j = StatusFailed ∨ Job_Status j = StatusCanceled →
      owned_step (Life.Resubmitted (Job_ID j)) s (exec (JobCreate (resubmitted j)) w s)
  | o_claim w s worker lease types : World_ok w → worker ≠ "" →
      owned_step (Life.Claimed (now_of w) worker lease types) s
        (exec (ClaimNextPending worker lease types) w s)
  | o_renew w s id worker lease : worker ≠ "" →
      owned_step (Life.Renewed (now_of w) id worker lease) s (exec (RenewLease id worker lease) w s)
  | o_progress w s id p : owned_step Life.Noted s (exec (JobUpdateProgress id p) w s)
  | o_succeed w s id j res : MemoryJobStore_jobs s !! id = Some j →
      Job_Status j = StatusRunning → owned_step (Life.Succeeded id) s (exec (MarkSucceeded id res) w s)
  | o_fail w s id j err d : MemoryJobStore_jobs s !! id = Some j → Job_Status j = StatusRunning →
      owned_step (Life.Failed (now_of w) id d) s (exec (MarkFailed id err d) w s)
  | o_cancel w s id reason : owned_step (Life.Canceled id) s (exec (MarkCanceled id reason) w s)
  | o_attempt w s a : owned_step Life.Noted s (exec (RecordAttempt a) w s)
  | o_reclaim w s cutoff : World_ok w →
      owned_step (Life.Recovered cutoff) s (exec (ReclaimAbandonedJobs cutoff) w s).

Lemma owned_qstep ev s s' : owned_step ev s s' → qstep s s'.
Proof. destruct 1; by econstructor. Qed.

Lemma view_lookup s id : view s !! id = task_of <$> MemoryJobStore_jobs s !! id.
Proof. apply lookup_fmap. Qed.
Lemma view_some s id t : view s !! id = Some t →
  ∃ j, MemoryJobStore_jobs s !! id = Some j ∧ t = task_of j.
Proof. rewrite view_lookup. destruct (_ !! id) as [j|]; [|done]. intros [= <-]. by exists j. Qed.

Lemma view_insert s id j :
  view (s <| MemoryJobStore_jobs := <[id := j]> (MemoryJobStore_jobs s) |>) = <[id := task_of j]> (view s).
Proof. apply fmap_insert. Qed.

Lemma view_alter_at s f id j : MemoryJobStore_jobs s !! id = Some j →
  view (alter_job f id s) = <[id := task_of (f j)]> (view s).
Proof. intros Hj. unfold alter_job. rewrite (alter_alt_Some _ _ _ _ Hj). apply view_insert. Qed.

Lemma view_alter_same s f id :
  (∀ j, MemoryJobStore_jobs s !! id = Some j → task_of (f j) = task_of j) →
  view (alter_job f id s) = view s.
Proof.
  intros Hf. destruct (MemoryJobStore_jobs s !! id) as [j|] eqn:Hj; [|by rewrite alter_job_None].
  rewrite (view_alter_at _ _ _ _ Hj), Hf by done. apply insert_id. by rewrite view_lookup, Hj.
Qed.

Lemma task_completed id t j : fresh_job j → Life.phase_of (task_of (completed id t j)) = Life.Waiting.
Proof.
  intros [[Hst|Hst] _]; unfold completed, task_of, phase_of_job; cbn;
    repeat (case_decide; cbn in * ); cbn; by rewrite ?Hst.
Qed.

Lemma task_resubmitted id t j : Job_Status j = StatusFailed ∨ Job_Status j = StatusCanceled →
  task_of (completed id t (resubmitted j)) = Life.default_limit (Life.now_in Life.Waiting (task_of j)).
Proof.
  intros _. unfold completed, task_of, phase_of_job, Life.default_limit, Life.now_in. cbn.
  rewrite (decide_False (P := StatusPending = StatusUnset)) by done. cbn. by case_decide.
Qed.

Lemma task_claimed now until worker j :
  task_of (claimed now until worker j) = Life.now_in (Life.Held worker until) (task_of j).
Proof. unfold claimed. by destruct (Job_StartedAt _). Qed.

Lemma available_claimable now types j : job_ok j →
  Life.available now types (task_of j) ↔ claimable now types j.
Proof.
  unfold Life.available, claimable, eligible, job_ok, locked. cbn. unfold phase_of_job.
  destruct (Job_Status j); try tauto.
  - intros [_ [u ->]]. cbn. tauto.
  - destruct (Job_NextRetryAt j) as [d|]; [|tauto].
    intros _. assert (d ≤ now ↔ d < now ∨ now = d) by lia. tauto.
Qed.

Lemma task_backed_off now err d j : add64 (Job_RetryCount j) 1 ≤ Job_MaxRetries j →
  task_of (failed now err (Some d) j) = Life.failed_in (Life.Backoff (Some (now + d))) (task_of j).
Proof. intros Hle. unfold failed. cbn. by rewrite decide_True. Qed.
Lemma task_given_up now err d j : d = None ∨ Job_MaxRetries j < add64 (Job_RetryCount j) 1 →
  task_of (failed now err d j) = Life.failed_in (Life.Done StatusFailed) (task_of j).
Proof.
  intros Hd. unfold failed. destruct d as [d|]; [|done]. destruct Hd as [|Hd]; [done|].
  cbn. by rewrite decide_False by lia.
Qed.

Lemma task_recovered cutoff j : job_ok j → task_of (recover cutoff j) = Life.recover cutoff (task_of j).
Proof.
  intros Hok. unfold recover, Life.recover. destruct (decide (abandoned cutoff j)) as [[Hst Hu]|Hn].
  - destruct (Job_LockedUntil j) as [u|] eqn:E; [|done]. unfold task_of, phase_of_job. cbn.
    rewrite Hst, E. cbn. by rewrite decide_True.
  - unfold job_ok, locked, abandoned, task_of, phase_of_job in *. cbn.
    destruct (Job_Status j) eqn:Hst; cbn; try done.
    destruct Hok as [_ [u Hu]]. rewrite Hu in *. cbn. rewrite decide_False; [done|]. tauto.
Qed.

Lemma task_held j : Job_Status j = StatusRunning →
  Life.phase_of (task_of j) = Life.Held (Job_LockedByWorker j) (default 0 (Job_LockedUntil j)).
Proof. intros Hst. unfold task_of, phase_of_job. cbn. by rewrite Hst. Qed.

Lemma renew_simulated w s id worker lease : queue_ok s → worker ≠ "" →
  Life.step (Life.Renewed (now_of w) id worker lease) (view s)
    (view (exec (RenewLease id worker lease) w s)).
Proof.
  intros Hok Hw. rewrite exec_RenewLease.
  destruct (MemoryJobStore_jobs s !! id) as [j|] eqn:Hj.
  - rewrite (view_alter_at _ _ _ _ Hj). case_decide as Hl.
    + rewrite insert_id by by rewrite view_lookup, Hj. apply Life.renew_refused.
      intros t until Ht Hp. rewrite view_lookup, Hj in Ht. injection Ht as <-. apply Hl.
      revert Hp. unfold task_of, phase_of_job. cbn. by destruct (Job_Status j); intros [= ? ?].
    + subst worker. assert (Job_Status j = StatusRunning) as Hst.
      { specialize (Hok id j Hj). unfold job_ok, unlocked in Hok. destruct (Job_Status j); tauto. }
      replace (task_of _) with (Life.now_in (Life.Held (Job_LockedByWorker j) (now_of w + lease)) (task_of j))
        by (unfold task_of, phase_of_job; cbn; by rewrite Hst).
      eapply Life.renew; [by rewrite view_lookup, Hj|by apply task_held].
  - rewrite alter_job_None by done. apply Life.renew_refused. intros t until Ht.
    by rewrite view_lookup, Hj in Ht.
Qed.

Lemma cancel_simulated w s id reason : queue_ok s →
  Life.step (Life.Canceled id) (view s) (view (exec (MarkCanceled id reason) w s)).
Proof.
  intros Hok. rewrite exec_MarkCanceled. destruct (MemoryJobStore_jobs s !! id) as [j|] eqn:Hj.
  - rewrite (view_alter_at _ _ _ _ Hj). destruct (IsTerminal (Job_Status j)) eqn:Ht.
    + rewrite insert_id by by rewrite view_lookup, Hj. apply Life.cancel_refused.
      intros t Hv. rewrite view_lookup, Hj in Hv. injection Hv as <-.
      unfold task_of, phase_of_job. cbn. by destruct (Job_Status j).
    + change (task_of (canceled _ _ j)) with (Life.now_in (Life.Done StatusCanceled) (task_of j)).
      apply Life.cancel; [by rewrite view_lookup, Hj|].
      unfold task_of, phase_of_job. cbn. destruct (Job_Status j); cbn; (discriminate || tauto).
  - rewrite alter_job_None by done. apply Life.cancel_refused. intros t Ht.
    by rewrite view_lookup, Hj in Ht.
Qed.

Lemma claim_simulated w s worker lease types : queue_ok s → World_ok w →
  Life.step (Life.Claimed (now_of w) worker lease types) (view s)
    (view (exec (ClaimNextPending worker lease types) w s)).
Proof.
  intros Hok Hw. destruct (claim_run worker lease types w s Hw)
    as [[Hrun Hno]|(id & j & Hj & Hc & Hrun)]; unfold exec; rewrite Hrun.
  - apply Life.claim_none. intros id t (j & Hj & ->)%view_some.
    rewrite available_claimable by by eapply Hok. by eapply Hno.
  - simpl. rewrite view_insert, task_claimed. apply Life.claim.
    + by rewrite view_lookup, Hj.
    + apply available_claimable; [by eapply Hok|done].
Qed.

Lemma fail_simulated w s id j err d : MemoryJobStore_jobs s !! id = Some j → Job_Status j = StatusRunning →
  Life.step (Life.Failed (now_of w) id d) (view s) (view (exec (MarkFailed id err d) w s)).
Proof.
  intros Hj Hst. rewrite exec_MarkFailed, (view_alter_at _ _ _ _ Hj).
  assert (view s !! id = Some (task_of j)) as Hv by by rewrite view_lookup, Hj.
  destruct d as [d|]; [destruct (decide (add64 (Job_RetryCount j) 1 ≤ Job_MaxRetries j)) as [Hle|Hgt]|].
  - rewrite task_backed_off by done. by eapply Life.back_off; [|apply task_held|].
  - rewrite task_given_up by (right; lia).
    eapply Life.fail_finally; [done|by apply task_held|right; cbn; lia].
  - rewrite task_given_up by by left. by eapply Life.fail_finally; [|apply task_held|left].
Qed.

Lemma submit_simulated w s j id : fresh_job j → MemoryJobStore_jobs s !! id = None →
  (Job_ID j ≠ "" → id = Job_ID j) → (Job_ID j = "" → id = w_uuid w (w_uuids w)) →
  Life.step (Life.Submitted id) (view s) (view (exec (JobCreate j) w s)).
Proof.
  intros Hf Hn H1 H2. destruct (JobCreate_run j w s) as (id' & t & w' & Hrun & H3 & H4).
  assert (id' = id) as ->.
  { destruct (decide (Job_ID j = "")) as [E|E]; [rewrite H4, H2|rewrite H3, H1]; done. }
  unfold exec. rewrite Hrun. simpl. rewrite view_insert.
  apply Life.submit; [by rewrite view_lookup, Hn|by apply task_completed].
Qed.

(** Every call is a step of the life cycle. *)
Lemma owned_simulated ev s s' : queue_ok s → owned_step ev s s' → Life.step ev (view s) (view s').
Proof.
  intros Hok Hstep. destruct Hstep as
    [w s j Hj Hne Hn|w s j Hj He Hn|w s j Hid Hj Hst|w s worker lease types Hw _|w s id worker lease Hne
    |w s id p|w s id j res Hj Hst|w s id j err d Hj Hst|w s id reason|w s a|w s cutoff Hw].
  - by apply submit_simulated.
  - by apply submit_simulated.
  - destruct (JobCreate_run (resubmitted j) w s) as (id & t & w' & Hrun & He & _).
    unfold exec. rewrite Hrun. simpl. rewrite view_insert, (He Hid), task_resubmitted by done.
    apply Life.resubmit; [by rewrite view_lookup; cbn; rewrite Hj|].
    unfold task_of, phase_of_job. cbn. destruct Hst as [-> | ->]; [by left|by right].
  - by apply claim_simulated.
  - by apply renew_simulated.
  - rewrite exec_JobUpdateProgress, view_alter_same by done. apply Life.note.
  - rewrite exec_MarkSucceeded, (view_alter_at _ _ _ _ Hj).
    change (task_of (succeeded _ _ j)) with (Life.now_in (Life.Done StatusSucceeded) (task_of j)).
    eapply Life.succeed; [by rewrite view_lookup, Hj|by apply task_held].
  - by eapply fail_simulated.
  - by apply cancel_simulated.
  - unfold RecordAttempt. go_unfold. destruct (decide _); apply Life.note.
  - destruct (reclaim_run cutoff w s Hw) as [-> _].
    assert (view (s <| MemoryJobStore_jobs := recover cutoff <$> MemoryJobStore_jobs s |>) =
      Life.recover cutoff <$> view s) as ->; [|apply Life.recovery].
    apply map_eq. intros id. rewrite lookup_fmap, !view_lookup. simpl. rewrite lookup_fmap.
    destruct (MemoryJobStore_jobs s !! id) as [j|] eqn:Hj; [|done]. cbn. f_equal.
    by rewrite task_recovered by by eapply Hok.
Qed.


(** ** The missing guard

    The repository marks a job failed or succeeded whatever its status: a
    running job that an operator cancels and whose handler then reports an
    error goes back to the queue. *)
Lemma canceled_job_runs_again (s : MemoryJobStore) (id reason err : string) (d : Z) (j : Job)
    (w1 w2 : World) :
  MemoryJobStore_jobs s !! id = Some j → Job_Status j = StatusRunning →
  0 ≤ Job_RetryCount j < Job_MaxRetries j → Job_MaxRetries j < 2 ^ 63 →
  answer (MarkCanceled id reason) w1 s = Ok () ∧
  ∃ j', MemoryJobStore_jobs (exec (MarkFailed id err (Some d)) w2
          (exec (MarkCanceled id reason) w1 s)) !! id = Some j' ∧
        Job_Status j' = StatusRetrying ∧
        ∀ now, now_of w2 + d ≤ now → claimable now [] j'.
Proof.
  intros Hj Hst Hr Hm. split.
  { unfold MarkCanceled, find_job. go_unfold. rewrite Hj, Hst. done. }
  rewrite exec_MarkFailed, exec_MarkCanceled. unfold alter_job. simpl.
  rewrite !lookup_alter_eq, Hj. simpl. rewrite Hst. simpl.
  eexists. split; [reflexivity|]. unfold failed. simpl.
  rewrite add64_id by (unfold int64_ok; lia). rewrite decide_True by lia. simpl.
  split; [done|]. intros now Hnow. split; [by left|]. unfold eligible, time_Add. simpl. lia.
Qed.

(** ** The queue on a concrete history *)

Definition demo_job : Job :=
  mkJob "" "tenant-1" "migration" "instance" "i-1" StatusUnset "{}" "" "" 0 3 None ""
    None zero_time None None 0.

(** One job submitted at time 5. *)
Definition demo_queue : MemoryJobStore := exec (JobCreate demo_job) (calm 5) NewMemoryJobStore.

Definition demo_claimed : Job :=
  claimed 10 40 "worker-1" (completed "uuid-0" 5 demo_job).

Lemma demo_claim :
  ClaimNextPending "worker-1" 30 ["migration"] (calm 10) demo_queue =
  (Ok (Some demo_claimed),
   demo_queue <| MemoryJobStore_jobs := {["uuid-0" := demo_claimed]} |>,
   next_range (tick (calm 10))).
Proof. vm_compute. reflexivity. Qed.

Lemma ClaimNextPending_spec_witness :
  answer (ClaimNextPending "worker-1" 30 ["migration"]) (calm 10) demo_queue =
    Ok (Some demo_claimed) ∧
  ∃ id j, MemoryJobStore_jobs demo_queue !! id = Some j ∧ claimable 10 ["migration"] j ∧
    demo_claimed = claimed 10 40 "worker-1" j.
Proof.
  pose proof (ClaimNextPending_spec "worker-1" 30 ["migration"] (calm 10) demo_queue
                (calm_ok 10)) as H.
  unfold answer in *. rewrite demo_claim in H |- *. split; [reflexivity|].
  destruct H as (id & j & Hj & Hc & He & _). exists id, j. split; [exact Hj|]. split; [exact Hc|exact He].
Defined.

(** A recovery at time 50 finds the lease of [worker-1] expired. *)
Lemma ReclaimAbandonedJobs_spec_witness :
  answer (ReclaimAbandonedJobs 50) (calm 60)
    (exec (ClaimNextPending "worker-1" 30 ["migration"]) (calm 10) demo_queue) = Ok 1.
Proof.
  destruct (ReclaimAbandonedJobs_spec 50 (calm 60)
    (exec (ClaimNextPending "worker-1" 30 ["migration"]) (calm 10) demo_queue) (calm_ok 60))
    as [_ H].
  rewrite H. vm_compute. reflexivity.
Defined.

Lemma demo_history :
  rtc qstep NewMemoryJobStore
    (exec (ClaimNextPending "worker-1" 30 ["migration"]) (calm 10) demo_queue).
Proof.
  eapply rtc_l; [apply (q_submit (calm 5) _ demo_job)|].
  { split_and!; [by left|done..]. }
  eapply rtc_l; [|apply rtc_refl]. apply q_claim; [apply calm_ok|discriminate].
Qed.

Lemma lock_discipline_witness :
  queue_ok (exec (ClaimNextPending "worker-1" 30 ["migration"]) (calm 10) demo_queue).
Proof. apply lock_discipline. apply demo_history. Defined.



(** The repository does not ask who reports: [worker-1] lost its lease to
    [worker-2] and reports all the same; the job is done while [worker-2] is
    still at it. *)
Example late_report_ends_job :
  let lost := exec (ClaimNextPending "worker-2" 30 ["migration"]) (calm 50)
                (exec (ClaimNextPending "worker-1" 30 ["migration"]) (calm 10) demo_queue) in
  (Job_LockedByWorker <$> MemoryJobStore_jobs lost !! "uuid-0") = Some "worker-2" ∧
  (λ j, (Job_Status j, Job_LockedByWorker j)) <$>
    MemoryJobStore_jobs (exec (MarkSucceeded "uuid-0" "{}") (calm 60) lost) !! "uuid-0"
  = Some (StatusSucceeded, "").
Proof. by vm_compute. Qed.
