(* ===== verification/JobEngine.v ===== *)
(** * The job engine

    [internal/app/job/engine.go]: submission, inspection, cancellation and
    retry of jobs by tenants, and the worker that claims a job, runs its
    handler and reports the outcome. The engine is written against the ports
    [JobRepository], [AuditRepository] and [EventPublisher]; the in-memory
    repository of [Job] is one implementation of the first. *)

From S2P Require Import Prelude Identity AuditTrail Events Job.

(** The port [domainJob.JobRepository] (the part the engine calls). *)
Class JobRepository (J : Type) := {
  jr_Create : Job → go J Job;
  jr_GetByID : string → go J Job;
  jr_List : JobFilter → go J (list Job * Z);
  jr_ClaimNextPending : string → Z → list string → go J (option Job);
  jr_RenewLease : string → string → Z → go J ();
  jr_UpdateProgress : string → Z → go J ();
  jr_MarkSucceeded : string → string → go J ();
  jr_MarkFailed : string → string → option Z → go J ();
  jr_MarkCanceled : string → string → go J ();
  jr_RecordAttempt : JobAttempt → go J ();
  jr_ReclaimAbandonedJobs : Z → go J Z;
  jr_RegisterOrHeartbeat : WorkerLease → go J ();
  jr_Deregister : string → go J ()
}.

#[export] Instance MemoryJobRepo `{SortSlice} : JobRepository MemoryJobStore := {
  jr_Create := JobCreate;
  jr_GetByID := JobGetByID;
  jr_List := JobList;
  jr_ClaimNextPending := ClaimNextPending;
  jr_RenewLease := RenewLease;
  jr_UpdateProgress := JobUpdateProgress;
  jr_MarkSucceeded := MarkSucceeded;
  jr_MarkFailed := MarkFailed;
  jr_MarkCanceled := MarkCanceled;
  jr_RecordAttempt := RecordAttempt;
  jr_ReclaimAbandonedJobs := ReclaimAbandonedJobs;
  jr_RegisterOrHeartbeat := RegisterOrHeartbeat;
  jr_Deregister := Deregister
}.

Section engine.
Context {J A E : Type} `{!JobRepository J, !AuditRepository A, !EventPublisher E}.

(** The stores the engine reaches. *)
Record EngineState := mkEngineState {
  es_jobs : J;
  es_audit : A;
  es_events : E
}.

Definition on_jobs {X} : go J X → go EngineState X :=
  zoom es_jobs (λ j s, mkEngineState j (es_audit s) (es_events s)).
Definition on_audit {X} : go A X → go EngineState X :=
  zoom es_audit (λ a s, mkEngineState (es_jobs s) a (es_events s)).
Definition on_events {X} : go E X → go EngineState X :=
  zoom es_events (λ e s, mkEngineState (es_jobs s) (es_audit s) e).

(** A handler may read and write every store (it reports progress and calls
    other services) and returns a result or an error; a panic is an error
    of the runtime. *)
Definition Handler : Type := Job → go EngineState string.

(** [Engine]: the optional ports are nil or present. *)
Record Engine := mkEngine {
  authorizer : option Authorizer;
  has_audit : bool;
  has_leases : bool;
  has_publisher : bool;
  workerID : string;
  leaseDuration : Z;
  handlers : gmap string Handler
}.

Context (e : Engine).

Definition when (b : bool) (m : go EngineState ()) : go EngineState () :=
  if b then m else mret ().

(** [RegisterHandler]. *)
Definition RegisterHandler (jobType : string) (h : Handler) : Engine :=
  mkEngine (authorizer e) (has_audit e) (has_leases e) (has_publisher e)
    (workerID e) (leaseDuration e)
    (<[jobType := h]> (handlers e)).

Definition Submit (sub : option Subject) (job : Job) : go EngineState Job :=
  let job := if decide (Job_TenantID job = "") then
               job <| Job_TenantID := match sub with
                                     | Some s => Subject_UserID s
                                     | None => "system"
                                     end |>
             else job in
  job ← wrap_err (λ err, Wrapf ("failed to submit job: " +:+ Error err) err)
          (on_jobs (jr_Create job));
  when (has_publisher e) (ignore (on_events (Publish
    (new_event (Job_TenantID job) ("job." +:+ Job_Type_ job +:+ ".submitted") "job"
       (Job_ID job) (Job_TenantID job)
       (details [("jobType", AnyStr (Job_Type_ job));
                 ("resourceType", AnyStr (Job_ResourceType job));
                 ("resourceId", AnyStr (Job_ResourceID job))]))))) ;;
  when (has_audit e) (
    now ← time_Now;
    ignore (on_audit (Record_
      (new_log (Some (Job_TenantID job)) ("job." +:+ Job_Type_ job +:+ ".submitted") "job"
         (Some (Job_ID job)) (Some (details [("jobType", AnyStr (Job_Type_ job))])) now)))) ;;
  mret job.

(** [if e.authorizer != nil && sub != nil && !sub.IsSuperadmin()]. *)
Definition check (sub : option Subject) (action : string) (r : Resource) :
    go EngineState () :=
  match authorizer e, sub with
  | Some auth, Some s =>
      if IsSuperadmin s then mret ()
      else lift (@Authorize auth (Some s) action (Some r))
  | _, _ => mret ()
  end.

Definition GetJob (sub : option Subject) (id : string) : go EngineState Job :=
  job ← on_jobs (jr_GetByID id);
  check sub "job:read" (Job_Resource job) ;;
  mret job.

Definition ListJobs (sub : option Subject) (f : JobFilter) : go EngineState (list Job * Z) :=
  let f := match sub with
           | Some s => if IsSuperadmin s then f
                       else f <| JobFilter_TenantID := Subject_UserID s |>
           | None => f
           end in
  on_jobs (jr_List f).

Definition CancelJob (sub : option Subject) (id reason : string) : go EngineState () :=
  job ← GetJob sub id;
  check sub "job:manage" (Job_Resource job) ;;
  on_jobs (jr_MarkCanceled id reason) ;;
  when (has_publisher e) (ignore (on_events (Publish
    (new_event (Job_TenantID job) "job.canceled" "job" (Job_ID job) ""
       (details [("reason", AnyStr reason)]))))).

Definition RetryJob (sub : option Subject) (id : string) : go EngineState Job :=
  job ← GetJob sub id;
  check sub "job:manage" (Job_Resource job) ;;
  if decide (Job_Status job ≠ StatusFailed ∧ Job_Status job ≠ StatusCanceled)
  then fail ErrJobCannotRetry
  else on_jobs (jr_Create (resubmitted job)).

(** ** The worker *)

Definition base_delays : list Z :=
  [5 * Second; 30 * Second; 2 * Minute; 10 * Minute; 30 * Minute].

Definition backoff_base (attempt : Z) : Z :=
  let idx := sub64 attempt 1 in
  let idx := if decide (idx < 0) then 0 else idx in
  let idx := if decide (5 ≤ idx) then 4 else idx in
  default 0 (base_delays !! Z.to_nat idx).

(** [rand.Float64()] is a multiple of 2^-53 in [0, 1). *)
Definition rand_Float64 : go EngineState float64 :=
  n ← rand_53; mret (fdiv (of_int n) (of_int (2 ^ 53))).

Definition calculateBackoff (attempt : Z) : go EngineState Z :=
  r ← rand_Float64;
  let jitter := fmul (of_int (backoff_base attempt))
                     (fadd (flit 4 5) (fmul (flit 2 5) r)) in
  mret (to_int64 (math_Round jitter)).

(** The deferred [recover] around the handler. *)
Definition recovered (err : error) : error :=
  match err with
  | ErrNew "runtime" why => Errorf ("panic in job handler: " +:+ why)
  | _ => err
  end.

(** The goroutine that renews the lease while the handler runs: one tick of
    its ticker, and the ticks of one run. *)
Definition renewal_tick (job : Job) : go EngineState () :=
  ignore (on_jobs (jr_RenewLease (Job_ID job) (workerID e) (leaseDuration e))).
Fixpoint renewal_ticks (n : nat) (job : Job) : go EngineState () :=
  match n with
  | O => mret ()
  | S n => renewal_tick job ;; renewal_ticks n job
  end.

(** How often the ticker fires during a run is up to the scheduler. *)
Context (renewals : World → nat).

(** The ticks are taken as a block before the effects of the handler. *)
Definition executeJob (job : Job) : go EngineState () :=
  match handlers e !! Job_Type_ job with
  | None =>
      ignore (on_jobs (jr_MarkFailed (Job_ID job)
        ("no handler registered for job type " +:+ Job_Type_ job) None))
  | Some handler =>
      aid ← uuid_NewString;
      started ← time_Now;
      let attempt := mkJobAttempt aid (Job_ID job) (add64 (Job_RetryCount job) 1)
                       (workerID e) "" started None in
      n ← reading renewals;
      renewal_ticks n job ;;
      r ← try (wrap_err recovered (handler job));
      finished ← time_Now;
      let attempt := attempt <| JobAttempt_FinishedAt := Some finished |> in
      match r with
      | Err execErr =>
          ignore (on_jobs (jr_RecordAttempt (attempt <| JobAttempt_Error := Error execErr |>))) ;;
          retryIn ← calculateBackoff (add64 (Job_RetryCount job) 1);
          ignore (on_jobs (jr_MarkFailed (Job_ID job) (Error execErr) (Some retryIn))) ;;
          when (has_publisher e) (ignore (on_events (Publish
            (new_event (Job_TenantID job) "job.failed" "job" (Job_ID job) ""
               (details [("error", AnyStr (Error execErr))])))))
      | Ok res =>
          ignore (on_jobs (jr_RecordAttempt attempt)) ;;
          ignore (on_jobs (jr_MarkSucceeded (Job_ID job) res)) ;;
          when (has_publisher e) (ignore (on_events (Publish
            (new_event (Job_TenantID job) "job.succeeded" "job" (Job_ID job) "" ∅))))
      end
  end.

Definition processNextJob : go EngineState () :=
  registered ← range_map (handlers e);
  let types := registered.*1 in
  if decide (length types = 0%nat) then mret ()
  else
    r ← try (on_jobs (jr_ClaimNextPending (workerID e) (leaseDuration e) types));
    match r with
    | Ok (Some job) => executeJob job
    | _ => mret ()
    end.

(** One tick of [heartbeatAndRecoveryLoop]. *)
Definition heartbeat_tick (hostname : string) (pid : Z) : go EngineState () :=
  now ← time_Now;
  when (has_leases e) (ignore (on_jobs (jr_RegisterOrHeartbeat
    (mkWorkerLease (workerID e) hostname pid "active" now (time_Add now (15 * Second)) now)))) ;;
  ignore (on_jobs (jr_ReclaimAbandonedJobs (time_Add now (- leaseDuration e)))).

Definition Close : go EngineState () :=
  when (has_leases e) (ignore (on_jobs (jr_Deregister (workerID e)))).
End engine.
Arguments EngineState : clear implicits.
Arguments Engine : clear implicits.
Arguments Handler : clear implicits.

(** ** Tenant isolation *)

Section isolation.
Context `{!SortSlice} {A E : Type} `{!AuditRepository A, !EventPublisher E}.
Context (e : Engine MemoryJobStore A E).

Implicit Types (st : EngineState MemoryJobStore A E).

Lemma run_GetByID id w st :
  on_jobs (jr_GetByID id) w st =
  match MemoryJobStore_jobs (es_jobs st) !! id with
  | Some j => (Ok j, st, w)
  | None => (Err ErrJobNotFound, st, w)
  end.
Proof.
  unfold on_jobs. simpl. unfold JobGetByID, find_job. go_unfold.
  destruct (_ !! id); destruct st; done.
Qed.

(** The callers the isolation theorems are about: no administrative role. *)
Definition plain (s : Subject) : Prop :=
  HasRole s "superadmin" = false ∧ HasRole s "admin" = false ∧ HasRole s "operator" = false.

Lemma check_denied auth s action (r : Resource) w st :
  authorizer e = Some auth → @AuthorizerLaws auth → plain s →
  Resource_OwnerID r ≠ "" → Resource_OwnerID r ≠ Subject_UserID s →
  ∃ err, check e (Some s) action r w st = (Err err, st, w).
Proof.
  intros Ha HL (Hs & Had & Hop) Ho Hne. unfold check. rewrite Ha.
  unfold IsSuperadmin. rewrite Hs. unfold lift.
  destruct (@Authorize auth (Some s) action (Some r)) as [[]|err] eqn:Eq; [|by eexists].
  exfalso. destruct (authorize_tenant s action r Eq Ho) as [?|(role & Hr & Hin)]; [done|].
  rewrite !elem_of_cons in Hin. destruct Hin as [->|[->|[->|Hin]]]; try congruence.
  by apply elem_of_nil in Hin.
Qed.

(** Tenant isolation: a caller without an administrative role can
    neither read, cancel nor retry a job another tenant owns; the call
    fails and no store changes. *)
Theorem foreign_job_denied auth (s : Subject) (id reason : string) (w : World) st (j : Job) :
  authorizer e = Some auth → @AuthorizerLaws auth → plain s →
  MemoryJobStore_jobs (es_jobs st) !! id = Some j →
  Job_TenantID j ≠ "" → Job_TenantID j ≠ Subject_UserID s →
  ∃ e1 e2 e3,
    GetJob e (Some s) id w st = (Err e1, st, w) ∧
    CancelJob e (Some s) id reason w st = (Err e2, st, w) ∧
    RetryJob e (Some s) id w st = (Err e3, st, w).
Proof.
  intros Ha HL Hp Hj Ho Hne.
  destruct (check_denied auth s "job:read" (Job_Resource j) w st Ha HL Hp Ho Hne)
    as [err Hc].
  assert (GetJob e (Some s) id w st = (Err err, st, w)) as Hg.
  { unfold GetJob. unfold mbind, go_bind. rewrite run_GetByID, Hj, Hc. done. }
  exists err, err, err. split_and!; [done| |];
    unfold CancelJob, RetryJob; unfold mbind, go_bind; by rewrite Hg.
Qed.

(** Listing is scoped: whatever filter a caller who is not a superadmin
    passes, every job on the returned page belongs to the caller. *)
Theorem ListJobs_scoped (s : Subject) (f : JobFilter) (w : World) st
    (page : list Job) (total : Z) :
  World_ok w → IsSuperadmin s = false → Subject_UserID s ≠ "" →
  answer (ListJobs (Some s) f) w st = Ok (page, total) →
  Forall (λ j, Job_TenantID j = Subject_UserID s ∧
               ∃ id, MemoryJobStore_jobs (es_jobs st) !! id = Some j) page.
Proof.
  intros Hw Hs Hu. unfold ListJobs, answer. rewrite Hs. unfold on_jobs. simpl.
  unfold JobList. go_unfold. simpl.
  set (f' := f <| JobFilter_TenantID := Subject_UserID s |>).
  set (l := sort_Slice _ _).
  destruct (window l _ _) as [pg|] eqn:Ew; simpl; [|done]. intros [= <- <-].
  apply Forall_forall. intros j Hj.
  apply (sublist_subseteq _ _ (window_sublist _ _ _ _ Ew)) in Hj.
  subst l. rewrite sort_Slice_perm in Hj.
  apply list_elem_of_filter in Hj as [Hm Hj].
  apply list_elem_of_fmap in Hj as ([k j'] & -> & Hkj).
  apply elem_of_entries in Hkj; [|done]. simpl in *. split; [|by exists k].
  destruct Hm as [[Hc|Hc] _]; [|done]. by destruct Hu.
Qed.
End isolation.

(** ** A job whose handler always fails *)

Section exhaustion.
Context `{!SortSlice} {A E : Type} `{!AuditRepository A, !EventPublisher E}.
Context (auth : option Authorizer) (audit leases publisher : bool).
Context (worker : string) (lease : Z) (T id : string) (err : error).

(** The engine of one worker with one job type, whose handler returns the
    error [err]. *)
Definition failing_engine : Engine MemoryJobStore A E :=
  mkEngine auth audit leases publisher worker lease {[T := λ _, fail err]}.

(** However often the lease is renewed meanwhile. *)
Context (renewals : World → nat).

Implicit Types (st : EngineState MemoryJobStore A E).

(** [n] ticks of the worker, each in the world of its time. *)
Definition rounds (ws : list World) st : EngineState MemoryJobStore A E :=
  foldl (λ st w, exec (processNextJob failing_engine renewals) w st) st ws.

(** The ticks are far enough apart for the retry to be due. *)
Fixpoint ripe (ws : list World) st : Prop :=
  match ws with
  | [] => True
  | w :: ws' =>
      World_ok w ∧
      (∀ j t, MemoryJobStore_jobs (es_jobs st) !! id = Some j →
         Job_Status j = StatusRetrying → Job_NextRetryAt j = Some t → t ≤ now_of w) ∧
      ripe ws' (exec (processNextJob failing_engine renewals) w st)
  end.

(** [ripe] evaluated. *)
Fixpoint ripe_check (ws : list World) st : bool :=
  match ws with
  | [] => true
  | w :: ws' =>
      match MemoryJobStore_jobs (es_jobs st) !! id ≫= Job_NextRetryAt with
      | Some t => bool_decide (t ≤ now_of w)
      | None => true
      end && ripe_check ws' (exec (processNextJob failing_engine renewals) w st)
  end.

Lemma ripe_check_ok ws st : Forall World_ok ws → ripe_check ws st = true → ripe ws st.
Proof.
  revert st. induction ws as [|w ws IH]; intros st Hw; simpl; [done|].
  apply Forall_cons in Hw as [Hw Hws]. intros [Ht Hr]%andb_prop.
  split_and!; auto. intros j t Hj _ Ht'. rewrite Hj in Ht. simpl in Ht.
  rewrite Ht' in Ht. by apply bool_decide_eq_true in Ht.
Qed.

Lemma registered_types w :
  World_ok w →
  (entries (w_order w (w_ranges w)) (handlers failing_engine)).*1 = [T].
Proof.
  intros Hw. apply Permutation_singleton_r. simpl.
  rewrite (entries_perm _ _ (Hw _)), map_to_list_singleton. done.
Qed.

Lemma exec_RecordAttempt a w s :
  MemoryJobStore_jobs (exec (RecordAttempt a) w s) = MemoryJobStore_jobs s ∧
  length (default [] (MemoryJobStore_attempts (exec (RecordAttempt a) w s)
                        !! JobAttempt_JobID a)) =
    S (length (default [] (MemoryJobStore_attempts s !! JobAttempt_JobID a))).
Proof.
  unfold RecordAttempt. go_unfold. destruct (decide _); simpl;
    rewrite lookup_insert_eq; simpl; rewrite length_app; simpl; split; auto; lia.
Qed.

Lemma wp_publish (Q : result () → EngineState MemoryJobStore A E → World → Prop) b ev w st :
  (∀ st' w', es_jobs st' = es_jobs st → Q (Ok ()) st' w') →
  wp (when b (ignore (on_events (Publish ev)))) Q w st.
Proof.
  intros HQ. unfold when, on_events. destruct b; [|by apply HQ].
  rewrite wp_ignore, wp_zoom, wp_elim. by apply HQ.
Qed.

(** The number of recorded attempts of the job. *)
Definition attempt_count st : nat :=
  length (default [] (MemoryJobStore_attempts (es_jobs st) !! id)).

(** A renewal leaves no trace in a job that then fails. *)
Lemma failed_renewed now text d worker' until j :
  failed now text d (if decide (Job_LockedByWorker j ≠ worker') then j
                     else j <| Job_LockedUntil := until |>) = failed now text d j.
Proof. case_decide; [done|]. unfold failed. destruct d; [|done]. cbn. by case_decide. Qed.

Lemma wp_renewals n job (Q : result () → EngineState MemoryJobStore A E → World → Prop) : ∀ w st,
  Job_ID job = id →
  (∀ st' w', (∀ now text d, alter (failed now text d) id (MemoryJobStore_jobs (es_jobs st')) =
                            alter (failed now text d) id (MemoryJobStore_jobs (es_jobs st))) →
     attempt_count st' = attempt_count st → Q (Ok ()) st' w') →
  wp (renewal_ticks failing_engine n job) Q w st.
Proof.
  induction n as [|n IH]; intros w st Hid HQ; cbn [renewal_ticks]; [rewrite wp_ret; by apply HQ|].
  unfold renewal_tick, on_jobs. rewrite wp_bind, wp_ignore, wp_zoom, wp_elim. simpl jr_RenewLease.
  rewrite exec_RenewLease, Hid. apply IH; [done|]. intros st' w' Hj Ha. apply HQ.
  - intros now text d. rewrite Hj. unfold alter_job. simpl. apply map_eq. intros i.
    destruct (decide (id = i)) as [<-|]; [|by rewrite !lookup_alter_ne].
    rewrite !lookup_alter_eq. destruct (MemoryJobStore_jobs (es_jobs st) !! id) as [j|]; [|done].
    simpl. f_equal. apply failed_renewed.
  - by rewrite Ha.
Qed.

Lemma executeJob_fails w st job :
  Job_Type_ job = T → Job_ID job = id →
  wp (executeJob failing_engine renewals job) (λ _ st' _, ∃ now d,
    MemoryJobStore_jobs (es_jobs st') =
      alter (failed now (Error (recovered err)) (Some d)) id
        (MemoryJobStore_jobs (es_jobs st)) ∧
    attempt_count st' = S (attempt_count st)) w st.
Proof.
  intros HT Hid. unfold executeJob. simpl handlers. rewrite HT, lookup_singleton_eq.
  wp_step. apply wp_renewals; [done|]. intros st1 w1 Hj1 Ha1. unfold on_jobs. wp_step.
  simpl jr_RecordAttempt. rewrite wp_elim.
  match goal with |- context [exec (RecordAttempt ?a) ?v _] =>
    set (att := a); destruct (exec_RecordAttempt att v (es_jobs st1)) as [Hj Ha] end.
  set (s1 := exec (RecordAttempt att) _ _) in *.
  unfold calculateBackoff, rand_Float64. wp_step. simpl jr_MarkFailed. rewrite wp_elim.
  apply wp_publish. intros st' w' Hst'. rewrite <-Ha1. unfold attempt_count. rewrite Hst'.
  simpl es_jobs. rewrite exec_MarkFailed. unfold alter_job. simpl. rewrite Hj, Hid, Hj1.
  do 2 eexists. split; [reflexivity|]. simpl in Ha. rewrite Hid in Ha. exact Ha.
Qed.

Lemma processNextJob_fails w st j :
  World_ok w → MemoryJobStore_jobs (es_jobs st) = {[id := j]} →
  Job_ID j = id → Job_Type_ j = T → claimable (now_of w) [T] j →
  wp (processNextJob failing_engine renewals) (λ _ st' _, ∃ now until d,
    MemoryJobStore_jobs (es_jobs st') =
      {[id := failed now (Error (recovered err)) (Some d)
                (claimed (now_of w) until worker j)]} ∧
    attempt_count st' = S (attempt_count st)) w st.
Proof.
  intros Hw Hst Hid HT Hc. unfold processNextJob. wp_step.
  rewrite registered_types by done.
  destruct (decide _) as [E0|_]; [discriminate E0|]. unfold on_jobs. wp_step.
  simpl jr_ClaimNextPending.
  destruct (claim_run worker lease [T] (next_range w) (es_jobs st)) as
    [[_ Hno]|(id' & j' & Hj' & _ & Hrun)]; [done| |].
  { destruct (Hno id j); [by rewrite Hst, lookup_singleton_eq|done]. }
  cbv zeta in Hrun. apply (proj2 (wp_run _ _ _ _ _ _ _ Hrun)). rewrite Hst in Hj'.
  apply lookup_singleton_Some in Hj' as [<- <-]. cbv beta match.
  set (j' := claimed _ _ _ _).
  assert (Job_Type_ j' = T ∧ Job_ID j' = id) as [HT' Hid'].
  { subst j'. unfold claimed. by destruct (Job_StartedAt _). }
  eapply wp_mono; [by apply executeJob_fails|].
  intros r st' w' (now & d & Hjobs & Hn). do 3 eexists. split; [|exact Hn].
  rewrite Hjobs, Hst. simpl. by rewrite insert_singleton_eq, alter_singleton_eq.
Qed.

(** The state of the job after [k] failures. *)
Definition after_failures (m : Z) (k : nat) st : Prop :=
  ∃ j, MemoryJobStore_jobs (es_jobs st) = {[id := j]} ∧ Job_ID j = id ∧ Job_Type_ j = T ∧
    Job_MaxRetries j = m ∧ Job_RetryCount j = Z.of_nat k ∧ attempt_count st = k ∧
    Job_Status j = (if decide (k = 0%nat) then StatusPending
                    else if decide (Z.of_nat k ≤ m) then StatusRetrying else StatusFailed).

Lemma after_failures_step m k w st :
  World_ok w → m < 2 ^ 63 - 1 → Z.of_nat k ≤ m → after_failures m k st →
  (∀ j t, MemoryJobStore_jobs (es_jobs st) !! id = Some j →
     Job_Status j = StatusRetrying → Job_NextRetryAt j = Some t → t ≤ now_of w) →
  after_failures m (S k) (exec (processNextJob failing_engine renewals) w st).
Proof.
  intros Hw Hm Hk (j & Hst & Hid & HT & Hmax & Hr & Ha & Hs) Hripe.
  assert (claimable (now_of w) [T] j) as Hc.
  { split; [right; rewrite HT; by constructor|]. unfold eligible. rewrite Hs.
    destruct (decide (k = 0%nat)) as [|Hk0]; [done|].
    destruct (decide (Z.of_nat k ≤ m)) as [_|]; [|lia].
    destruct (Job_NextRetryAt j) as [t|] eqn:Et; [|done].
    assert (t ≤ now_of w); [|lia]. eapply Hripe; [by rewrite Hst, lookup_singleton_eq| |done].
    rewrite Hs. by destruct (decide (k = 0%nat)), (decide (Z.of_nat k ≤ m)). }
  pose proof (processNextJob_fails w st j Hw Hst Hid HT Hc) as Hwp.
  apply wp_elim in Hwp as (now & until & d & Hj & Hn).
  eexists. split; [exact Hj|]. rewrite Hn.
  set (c := claimed _ _ _ _). set (f := failed _ _ _ _).
  assert (Job_ID f = Job_ID j ∧ Job_Type_ f = Job_Type_ j ∧ Job_MaxRetries f = m ∧
    Job_RetryCount f = Z.of_nat (S k) ∧
    Job_Status f = if decide (Z.of_nat (S k) ≤ m) then StatusRetrying else StatusFailed)
    as (-> & -> & -> & -> & ->).
  { assert (Job_ID c = Job_ID j ∧ Job_Type_ c = Job_Type_ j ∧ Job_MaxRetries c = m ∧
      Job_RetryCount c = Z.of_nat k) as (<- & <- & Hcm & Hcr).
    { subst c. unfold claimed. by destruct (Job_StartedAt _). }
    subst f. clearbody c. destruct c. simpl in *. unfold failed. simpl.
    rewrite Hcr, Hcm, add64_id by (unfold int64_ok; lia).
    replace (Z.of_nat k + 1) with (Z.of_nat (S k)) by lia.
    by destruct (decide (Z.of_nat (S k) ≤ m)). }
  split_and!; auto; try congruence.
Qed.

Lemma after_failures_idle m w st :
  World_ok w → 0 ≤ m → after_failures m (S (Z.to_nat m)) st →
  exec (processNextJob failing_engine renewals) w st = st.
Proof.
  intros Hw Hm (j & Hst & Hid & HT & _ & _ & _ & Hs).
  rewrite decide_False in Hs by done. rewrite decide_False in Hs by lia.
  apply (proj1 (wp_elim (processNextJob failing_engine renewals) (λ _ st' _, st' = st) w st)).
  unfold processNextJob. wp_step. rewrite registered_types by done.
  destruct (decide _) as [E0|_]; [discriminate E0|]. unfold on_jobs. wp_step. simpl jr_ClaimNextPending.
  destruct (claim_run worker lease [T] (next_range w) (es_jobs st)) as
    [[Hrun _]|(id' & j' & Hj' & [_ Hc] & _)]; [done| |].
  - apply (proj2 (wp_run _ _ _ _ _ _ _ Hrun)). by destruct st.
  - rewrite Hst in Hj'. apply lookup_singleton_Some in Hj' as [_ <-].
    unfold eligible in Hc. by rewrite Hs in Hc.
Qed.

(** C24 retries are bounded: a pending job whose handler always fails is
    executed exactly [MaxRetries + 1] times, however many ticks the worker
    makes once each retry is due and however often its lease is renewed
    meanwhile; it then stays failed. *)
Theorem failing_job_exhausts (m : Z) (ws : list World) st :
  0 ≤ m < 2 ^ 63 - 1 → after_failures m 0 st → ripe ws st →
  after_failures m (Nat.min (length ws) (S (Z.to_nat m))) (rounds ws st).
Proof.
  intros Hm H0 Hripe.
  assert (∀ ws k st, (k ≤ S (Z.to_nat m))%nat → after_failures m k st → ripe ws st →
    after_failures m (Nat.min (k + length ws) (S (Z.to_nat m))) (rounds ws st)) as Hgen.
  { clear ws st H0 Hripe. induction ws as [|w ws IH]; intros k st Hk Hst Hripe; simpl.
    { by replace (Nat.min _ _) with k by lia. }
    destruct Hripe as (Hw & Hdue & Hripe). destruct (decide (Z.of_nat k ≤ m)) as [Hle|Hgt].
    - replace (k + S (length ws))%nat with (S k + length ws)%nat by lia.
      apply IH; [lia| |done]. by apply after_failures_step; [|lia| | |].
    - assert (k = S (Z.to_nat m)) as -> by lia.
      replace (Nat.min _ _) with (Nat.min (S (Z.to_nat m) + length ws) (S (Z.to_nat m)))
        by lia.
      rewrite (after_failures_idle m w st) in *; [|done|lia|done|done|lia|done].
      by apply IH. }
  apply (Hgen ws 0%nat); [lia|done|done].
Qed.
End exhaustion.

(** ** The engine on a concrete queue *)

Section demo.
#[local] Existing Instances InsertionSort tagging_digest EventRecorder.

Definition demo_state : EngineState MemoryJobStore AuditStore (list Event) :=
  mkEngineState demo_queue empty_audit [].

Definition demo_engine : Engine MemoryJobStore AuditStore (list Event) :=
  mkEngine (Some DynamicAuthorizer) true true true "worker-1" 30 ∅.

Definition demo_stranger : Subject := mkSubject "user" "tenant-2" "tenant-2" "eve" "" ["user"] ["job:read"; "job:manage"] [] ∅.

Lemma foreign_job_denied_witness : ∃ err,
  GetJob demo_engine (Some demo_stranger) "uuid-0" (calm 6) demo_state =
    (Err err, demo_state, calm 6).
Proof.
  destruct (foreign_job_denied demo_engine DynamicAuthorizer demo_stranger "uuid-0" "no"
    (calm 6) demo_state (completed "uuid-0" 5 demo_job)) as (err & _ & _ & H & _).
  - reflexivity.
  - apply DynamicAuthorizer_laws.
  - repeat split.
  - reflexivity.
  - discriminate.
  - discriminate.
  - exists err. exact H.
Defined.

Definition demo_owner : Subject := mkSubject "user" "tenant-1" "tenant-1" "ann" "" ["user"] ["job:read"] [] ∅.
Definition any_job : JobFilter := mkJobFilter "" "" StatusUnset "" "" 0 0.

Lemma ListJobs_scoped_witness :
  Forall (λ j, Job_TenantID j = "tenant-1") [completed "uuid-0" 5 demo_job].
Proof.
  eapply Forall_impl.
  - apply (ListJobs_scoped demo_owner any_job (calm 6) demo_state
      [completed "uuid-0" 5 demo_job] 1); [apply calm_ok|reflexivity|discriminate|].
    vm_compute. reflexivity.
  - intros j [H _]. exact H.
Defined.

(** A job whose handler fails, ticked four times with one hour between. *)
Definition demo_ticks : list World :=
  [calm Hour; calm (2 * Hour); calm (3 * Hour); calm (4 * Hour); calm (5 * Hour)].

Lemma failing_job_exhausts_witness :
  after_failures "migration" "uuid-0" 3 4
    (rounds None true true true "worker-1" 30 "migration" (Errorf "boom") (λ _, 2%nat) demo_ticks demo_state).
Proof.
  apply (failing_job_exhausts None true true true "worker-1" 30 "migration" "uuid-0"
    (Errorf "boom") (λ _, 2%nat) 3 demo_ticks demo_state); [lia| |].
  - exists (completed "uuid-0" 5 demo_job). repeat split.
  - apply ripe_check_ok; [|vm_compute; reflexivity].
    repeat (apply Forall_cons; split; [apply calm_ok|]). apply Forall_nil_2.
Defined.
End demo.
