(* ===== verification/Net.v ===== *)
(** * Package [net]

    The functions of Go's [net] package the address management calls, on
    byte lists: [ParseIP], [ParseCIDR], [IP.To4], [IP.String],
    [IPNet.Contains], [IPNet.String], [CIDRMask] and [IPMask.Size], for IPv4
    and IPv6 (no zones: both parsers refuse them), with the facts on IPv4
    that [Ipam] uses. *)

From S2P Require Import Prelude.

(** An address is 4 or 16 bytes. *)
Abbreviation IP := (list Z).
Record IPNet := mkIPNet { IPNet_IP : IP; IPNet_Mask : list Z }.

#[export] Instance IPNet_eq_dec : EqDecision IPNet.
Proof. solve_decision. Defined.

Definition code (c : Ascii.ascii) : Z := Z.of_N (Ascii.N_of_ascii c).

Fixpoint split_on (sep : Z) (s : string) : list string :=
  match s with
  | EmptyString => [""]
  | String c s =>
      if decide (code c = sep) then "" :: split_on sep s
      else match split_on sep s with
           | x :: xs => String c x :: xs
           | [] => [String c ""]
           end
  end.

Definition digit (c : Ascii.ascii) : option Z :=
  if decide (48 ≤ code c ≤ 57) then Some (code c - 48) else None.

Definition hex_digit (c : Ascii.ascii) : option Z :=
  if decide (48 ≤ code c ≤ 57) then Some (code c - 48)
  else if decide (97 ≤ code c ≤ 102) then Some (code c - 87)
  else if decide (65 ≤ code c ≤ 70) then Some (code c - 55)
  else None.

(** A non-empty run of digits; [acc] is the value so far. *)
Fixpoint decimal (acc : Z) (s : string) : option Z :=
  match s with
  | EmptyString => Some acc
  | String c s => d ← digit c; decimal (acc * 10 + d) s
  end.

(** ** Parsing addresses *)

(** A field of a dotted quad: no empty field, no leading zero, at most 255. *)
Definition octet (s : string) : option Z :=
  match s with
  | EmptyString => None
  | String c rest =>
      if decide (code c = 48 ∧ rest ≠ "") then None
      else v ← decimal 0 s; if decide (v ≤ 255) then Some v else None
  end.

Definition parseIPv4 (s : string) : option (list Z) :=
  match split_on 46 s with
  | [a; b; c; d] =>
      a ← octet a; b ← octet b; c ← octet c; d ← octet d; Some [a; b; c; d]
  | _ => None
  end.

(** The hexadecimal run at the head of a string, its length, and the rest. *)
Fixpoint hex_run (acc : Z) (off : nat) (s : string) : Z * nat * string :=
  match s with
  | EmptyString => (acc, off, s)
  | String c s' =>
      match hex_digit c with
      | Some d => hex_run (acc * 16 + d) (S off) s'
      | None => (acc, off, s)
      end
  end.

Definition starts_with (sep : Z) (s : string) : bool :=
  match s with String c _ => bool_decide (code c = sep) | EmptyString => false end.
Definition tail (s : string) : string :=
  match s with String _ s => s | EmptyString => "" end.

(** The fields of an IPv6 address: the bytes read, where the ellipsis stands. *)
Fixpoint parse_fields (fuel : nat) (ip : list Z) (ellipsis : option nat) (s : string) :
    option (list Z * option nat * string) :=
  match fuel with
  | O => Some (ip, ellipsis, s)
  | S fuel =>
      let '(acc, off, rest) := hex_run 0 0 s in
      if decide (off = 0%nat ∨ (4 < off)%nat) then None
      else if starts_with 46 rest then
        if decide ((ellipsis = None ∧ length ip ≠ 12%nat) ∨ (16 < length ip + 4)%nat) then None
        else v4 ← parseIPv4 s; Some (ip ++ v4, ellipsis, "")
      else
        let ip := ip ++ [acc / 256; acc mod 256] in
        match rest with
        | EmptyString => Some (ip, ellipsis, "")
        | String c s =>
            if decide (code c ≠ 58 ∨ s = "") then None
            else if starts_with 58 s then
              if decide (ellipsis ≠ None) then None
              else if decide (tail s = "") then Some (ip, Some (length ip), "")
              else parse_fields fuel ip (Some (length ip)) (tail s)
            else parse_fields fuel ip ellipsis s
        end
  end.

Definition parseIPv6 (s : string) : option (list Z) :=
  let lead := starts_with 58 s && starts_with 58 (tail s) in
  let s := if lead then tail (tail s) else s in
  if decide (lead = true ∧ s = "") then Some (replicate 16 0)
  else
    '(ip, ellipsis, s) ← parse_fields 8 [] (if lead then Some 0%nat else None) s;
    if decide (s ≠ "") then None
    else match ellipsis with
         | None => if decide (length ip = 16%nat) then Some ip else None
         | Some e => if decide (length ip < 16)%nat
                     then Some (take e ip ++ replicate (16 - length ip) 0 ++ drop e ip)
                     else None
         end.

(** [netip.ParseAddr]: the first separator decides the family. *)
Inductive Addr : Type := V4 (bytes : list Z) | V6 (bytes : list Z).

Fixpoint family (s : string) : option Z :=
  match s with
  | EmptyString => None
  | String c s => if decide (code c = 46 ∨ code c = 58 ∨ code c = 37) then Some (code c)
                  else family s
  end.

Definition ParseAddr (s : string) : option Addr :=
  f ← family s;
  if decide (f = 46) then V4 <$> parseIPv4 s
  else if decide (f = 58) then V6 <$> parseIPv6 s
  else None.

Definition v4InV6Prefix : list Z := replicate 10 0 ++ [255; 255].

Definition As16 (a : Addr) : IP :=
  match a with V4 b => v4InV6Prefix ++ b | V6 b => b end.

Definition ParseIP (s : string) : option IP := As16 <$> ParseAddr s.

Definition To4 (ip : IP) : option IP :=
  if decide (length ip = 4%nat) then Some ip
  else if decide (length ip = 16%nat ∧ take 12 ip = v4InV6Prefix) then Some (drop 12 ip)
  else None.

(** ** Networks *)

(** The byte with its [k] high bits set. *)
Definition mask_byte (k : Z) : Z := 256 - 2 ^ (8 - k).

Definition CIDRMask (ones : Z) (len : nat) : list Z :=
  (λ i, mask_byte (Z.max 0 (Z.min 8 (ones - 8 * Z.of_nat i)))) <$> seq 0 len.

Definition ones_of_byte (v : Z) : option Z :=
  snd <$> list_find (λ k, mask_byte k = v) [0; 1; 2; 3; 4; 5; 6; 7; 8].

(** [Mask.Size()], or [None] for a mask with holes. *)
Fixpoint simpleMaskLength (m : list Z) : option Z :=
  match m with
  | [] => Some 0
  | v :: m =>
      if decide (v = 255) then Z.add 8 <$> simpleMaskLength m
      else k ← ones_of_byte v; if decide (Forall (λ x, x = 0) m) then Some k else None
  end.
Definition Size (m : list Z) : Z := default 0 (simpleMaskLength m).

Definition and_bytes (a m : list Z) : list Z := zip_with Z.land a m.

(** [ip.Mask(m)] as [ParseCIDR] calls it: a 16-byte address, whose prefix is
    dropped when the mask has 4 bytes. *)
Definition IP_Mask (ip : IP) (m : list Z) : IP :=
  and_bytes (if decide (length m = 4%nat) then drop 12 ip else ip) m.

Definition ParseCIDR (s : string) : option (IP * IPNet) :=
  match split_on 47 s with
  | addr :: mask :: rest =>
      a ← ParseAddr addr;
      if decide (rest ≠ [] ∨ mask = "") then None
      else
        n ← decimal 0 mask;
        let len := match a with V4 _ => 4%nat | V6 _ => 16%nat end in
        if decide (8 * Z.of_nat len < n) then None
        else
          let m := CIDRMask n len in
          Some (As16 a, mkIPNet (IP_Mask (As16 a) m) m)
  | _ => None
  end.

(** [networkNumberAndMask]. *)
Definition number_and_mask (n : IPNet) : IP * list Z :=
  match To4 (IPNet_IP n) with
  | Some ip => (ip, if decide (length (IPNet_Mask n) = 16%nat) then drop 12 (IPNet_Mask n)
                    else IPNet_Mask n)
  | None => (IPNet_IP n, IPNet_Mask n)
  end.

Definition Contains (n : IPNet) (ip : IP) : Prop :=
  let '(nn, m) := number_and_mask n in
  let ip := default ip (To4 ip) in
  length ip = length nn ∧ and_bytes nn m = and_bytes ip m.
#[export] Instance Contains_dec n ip : Decision (Contains n ip).
Proof. unfold Contains. destruct (number_and_mask n). apply _. Defined.

(** ** Printing *)

Definition dotted (b : list Z) : string := strings_Join (fmt_d <$> b) ".".

Definition hex_char (d : Z) : string :=
  String (Ascii.ascii_of_N (Z.to_N (if decide (d < 10) then 48 + d else 87 + d))) "".

(** A 16-bit group without leading zeros. *)
Definition hex_group (g : Z) : string :=
  (if decide (4096 ≤ g) then hex_char (g / 4096) else "") +:+
  (if decide (256 ≤ g) then hex_char (g / 256 mod 16) else "") +:+
  (if decide (16 ≤ g) then hex_char (g / 16 mod 16) else "") +:+ hex_char (g mod 16).

Fixpoint groups (b : list Z) : list Z :=
  match b with
  | x :: y :: b => (x * 256 + y) :: groups b
  | _ => []
  end.

Fixpoint zero_prefix (g : list Z) : nat :=
  match g with
  | x :: g => if decide (x = 0) then S (zero_prefix g) else 0
  | [] => 0
  end.

(** The first longest run of at least two zero groups: start and length. *)
Definition best_run (g : list Z) : nat * nat :=
  foldl (λ best i, let r := zero_prefix (drop i g) in
                   if decide (2 ≤ r ∧ best.2 < r)%nat then (i, r) else best)
    (0, 0)%nat (seq 0 (length g)).

Definition string6 (b : list Z) : string :=
  let g := groups b in
  let '(i, r) := best_run g in
  if decide (r = 0%nat) then strings_Join (hex_group <$> g) ":"
  else strings_Join (hex_group <$> take i g) ":" +:+ "::" +:+
       strings_Join (hex_group <$> drop (i + r) g) ":".

Definition IP_String (ip : IP) : string :=
  match To4 ip with
  | Some b => dotted b
  | None => if decide (length ip = 16%nat) then string6 ip
            else if decide (ip = []) then "<nil>" else "?"
  end.

(** The mask of a parsed network is contiguous, so [m.String()] is not met. *)
Definition IPNet_String (n : IPNet) : string :=
  let '(nn, m) := number_and_mask n in
  IP_String nn +:+ "/" +:+ fmt_d (Size m).

Example parse_examples :
  ParseIP "10.0.0.1" = Some (v4InV6Prefix ++ [10; 0; 0; 1]) ∧
  ParseIP "10.0.0.01" = None ∧ ParseIP "10.0.0.256" = None ∧ ParseIP "1.2.3" = None ∧
  ParseIP "2001:db8::1" = Some ([32; 1; 13; 184] ++ replicate 11 0 ++ [1]) ∧
  ParseIP "::ffff:10.0.0.1" = ParseIP "10.0.0.1" ∧ ParseIP "::" = Some (replicate 16 0) ∧
  ParseIP "1::2::3" = None ∧ ParseIP ":1" = None ∧ ParseIP "fe80::1%eth0" = None ∧
  (IPNet_String ∘ snd <$> ParseCIDR "192.168.7.9/22") = Some "192.168.4.0/22" ∧
  (IPNet_String ∘ snd <$> ParseCIDR "2001:db8:0:1:0:0:0:9/64") = Some "2001:db8:0:1::/64" ∧
  (IPNet_String ∘ snd <$> ParseCIDR "::ffff:10.1.2.3/120") = Some "10.1.2.0/24" ∧
  ParseCIDR "10.0.0.0/33" = None ∧ ParseCIDR "10.0.0.0" = None ∧ ParseCIDR "10.0.0.0/" = None.
Proof. vm_compute. split_and!; reflexivity. Qed.

(** ** IPv4 facts *)

Definition byte (b : Z) : Prop := 0 ≤ b < 256.
Definition quad (l : list Z) : Prop := length l = 4%nat ∧ Forall byte l.

(** Finite checks on bytes, by evaluation. *)
Lemma all_bytes (P : Z → bool) :
  forallb (λ i, P (Z.of_nat i)) (seq 0 256) = true → ∀ b, byte b → P b = true.
Proof.
  intros H b Hb. unfold byte in Hb. rewrite forallb_forall in H.
  specialize (H (Z.to_nat b)). rewrite Z2Nat.id in H by lia. apply H.
  apply in_seq. lia.
Qed.

(** A byte prints as a field: it reads back and holds no separator. *)
Definition field_ok (v : Z) : bool :=
  bool_decide (octet (fmt_d v) = Some v ∧ decimal 0 (fmt_d v) = Some v ∧
    split_on 46 (fmt_d v) = [fmt_d v] ∧ split_on 47 (fmt_d v) = [fmt_d v] ∧
    family (fmt_d v) = None ∧ fmt_d v ≠ "").

Lemma fmt_field v : byte v → field_ok v = true.
Proof. apply all_bytes. vm_compute. reflexivity. Qed.

Lemma octet_fmt v : byte v → octet (fmt_d v) = Some v.
Proof. intros H%fmt_field. by apply bool_decide_eq_true in H as (? & _). Qed.
Lemma decimal_fmt v : byte v → decimal 0 (fmt_d v) = Some v.
Proof. intros H%fmt_field. by apply bool_decide_eq_true in H as (_ & ? & _). Qed.
Lemma split_fmt v sep : byte v → sep = 46 ∨ sep = 47 → split_on sep (fmt_d v) = [fmt_d v].
Proof.
  intros H%fmt_field. apply bool_decide_eq_true in H as (_ & _ & ? & ? & _).
  by intros [->| ->].
Qed.
Lemma family_fmt v : byte v → family (fmt_d v) = None.
Proof. intros H%fmt_field. by apply bool_decide_eq_true in H as (_ & _ & _ & _ & ? & _). Qed.
Lemma fmt_nonempty v : byte v → fmt_d v ≠ "".
Proof. intros H%fmt_field. by apply bool_decide_eq_true in H as (_ & _ & _ & _ & _ & ?). Qed.

Lemma split_on_ne sep s : split_on sep s ≠ [].
Proof. destruct s; simpl; [done|]. case_decide; [done|]. by destruct (split_on sep s). Qed.

Lemma split_on_app sep (c : Ascii.ascii) a rest :
  code c = sep → split_on sep a = [a] →
  split_on sep (a +:+ String c rest) = a :: split_on sep rest.
Proof.
  intros Hc. induction a as [|x a IH]; cbn [split_on String.app]; intros Ha.
  { change ("" +:+ String c rest) with (String c rest). cbn [split_on]. by rewrite decide_True. }
  change (String x a +:+ String c rest) with (String x (a +:+ String c rest)).
  cbn [split_on]. destruct (decide (code x = sep)); [done|].
  destruct (split_on sep a) as [|y ys] eqn:Es; [by apply split_on_ne in Es|].
  injection Ha as Hy ->. rewrite Hy in *. by rewrite IH.
Qed.

Lemma split_on_none sep (c : Ascii.ascii) a b :
  code c ≠ sep → split_on sep a = [a] → split_on sep b = [b] →
  split_on sep (a +:+ String c b) = [a +:+ String c b].
Proof.
  intros Hc. induction a as [|x a IH]; intros Ha Hb.
  { change ("" +:+ String c b) with (String c b). cbn [split_on].
    by rewrite decide_False, Hb. }
  change (String x a +:+ String c b) with (String x (a +:+ String c b)).
  cbn [split_on] in *. destruct (decide (code x = sep)); [done|].
  destruct (split_on sep a) as [|y ys] eqn:Es; [by apply split_on_ne in Es|].
  injection Ha as Hy ->. rewrite Hy in *. by rewrite IH.
Qed.

Lemma family_app a s : family a = None → family (a +:+ s) = family s.
Proof.
  induction a as [|x a IH]; [done|].
  change (String x a +:+ s) with (String x (a +:+ s)). cbn [family].
  destruct (decide _); [done|]. apply IH.
Qed.

Lemma quad_inv l : quad l → ∃ a b c d, l = [a; b; c; d] ∧ byte a ∧ byte b ∧ byte c ∧ byte d.
Proof.
  intros [Hl Hb]. destruct l as [|a [|b [|c [|d [|? ?]]]]]; try discriminate Hl.
  repeat (apply Forall_cons in Hb as [? Hb]). by exists a, b, c, d.
Qed.

Definition dot : Ascii.ascii := Ascii.ascii_of_N 46.

Lemma dotted_quad a b c d :
  dotted [a; b; c; d] =
    fmt_d a +:+ String dot (fmt_d b +:+ String dot (fmt_d c +:+ String dot (fmt_d d))).
Proof. done. Qed.

Lemma parseIPv4_dotted l : quad l → parseIPv4 (dotted l) = Some l.
Proof.
  intros (a & b & c & d & -> & Ha & Hb & Hc & Hd)%quad_inv. rewrite dotted_quad.
  unfold parseIPv4.
  rewrite !split_on_app, split_fmt by (auto using split_fmt; reflexivity).
  by rewrite !octet_fmt by done.
Qed.

Lemma ParseAddr_dotted l : quad l → ParseAddr (dotted l) = Some (V4 l).
Proof.
  intros Hq. unfold ParseAddr.
  assert (family (dotted l) = Some 46) as ->.
  { apply quad_inv in Hq as (a & b & c & d & -> & Ha & _). rewrite dotted_quad.
    by rewrite family_app by (by apply family_fmt). }
  by rewrite parseIPv4_dotted.
Qed.

Lemma ParseIP_dotted l : quad l → ParseIP (dotted l) = Some (v4InV6Prefix ++ l).
Proof. intros Hq. unfold ParseIP. by rewrite ParseAddr_dotted. Qed.

Lemma dotted_inj l l' : quad l → quad l' → dotted l = dotted l' → l = l'.
Proof.
  intros Hl Hl' E. pose proof (parseIPv4_dotted l Hl) as H1.
  rewrite E, parseIPv4_dotted in H1 by done. congruence.
Qed.

Lemma To4_quad l : quad l → To4 l = Some l.
Proof. intros [Hl _]. unfold To4. by rewrite decide_True. Qed.

Lemma To4_mapped l : quad l → To4 (v4InV6Prefix ++ l) = Some l.
Proof. by intros (a & b & c & d & -> & _)%quad_inv. Qed.

(** ** Addresses as 32-bit numbers *)

(** [binary.BigEndian.Uint32] and [PutUint32]. *)
Definition Uint32 (l : list Z) : Z := foldl (λ acc b, acc * 256 + b) 0 l.
Definition PutUint32 (x : Z) : list Z :=
  [x / 2 ^ 24 mod 256; x / 2 ^ 16 mod 256; x / 2 ^ 8 mod 256; x mod 256].

Lemma PutUint32_quad x : quad (PutUint32 x).
Proof.
  split; [done|]. unfold PutUint32, byte.
  repeat (apply Forall_cons; split); [..|apply Forall_nil_2]; apply Z.mod_pos_bound; lia.
Qed.

Lemma Uint32_Put x : 0 ≤ x < 2 ^ 32 → Uint32 (PutUint32 x) = x.
Proof. intros Hx. unfold Uint32, PutUint32. cbn [foldl].
  change (2 ^ 24) with 16777216. change (2 ^ 16) with 65536. change (2 ^ 8) with 256.
  Z.to_euclidean_division_equations. lia. Qed.

Lemma Uint32_range l : quad l → 0 ≤ Uint32 l < 2 ^ 32.
Proof.
  intros (a & b & c & d & -> & Ha & Hb & Hc & Hd)%quad_inv. unfold Uint32, byte in *.
  cbn [foldl]. lia.
Qed.

Lemma Put_Uint32 l : quad l → PutUint32 (Uint32 l) = l.
Proof.
  intros (a & b & c & d & -> & Ha & Hb & Hc & Hd)%quad_inv. unfold Uint32, PutUint32, byte in *.
  cbn [foldl].
  change (2 ^ 24) with 16777216. change (2 ^ 16) with 65536. change (2 ^ 8) with 256.
  repeat f_equal; Z.to_euclidean_division_equations; lia.
Qed.

Lemma PutUint32_inj x y :
  0 ≤ x < 2 ^ 32 → 0 ≤ y < 2 ^ 32 → PutUint32 x = PutUint32 y → x = y.
Proof. intros Hx Hy E. by rewrite <-(Uint32_Put x), E, Uint32_Put. Qed.

(** ** IPv4 masks *)

(** A statement on every prefix length, by cases. *)
Lemma all_prefixes (P : Z → Prop) :
  Forall P (Z.of_nat <$> seq 0 33) → ∀ n, 0 ≤ n ≤ 32 → P n.
Proof.
  intros H n Hn. rewrite Forall_forall in H. apply H. apply list_elem_of_fmap.
  exists (Z.to_nat n). split; [lia|]. apply elem_of_seq. lia.
Qed.

Lemma simpleMaskLength_CIDR n : 0 ≤ n ≤ 32 → simpleMaskLength (CIDRMask n 4) = Some n.
Proof. revert n. apply all_prefixes. repeat constructor. Qed.

Lemma land_mask_byte b k :
  byte b → 0 ≤ k ≤ 8 → Z.land b (mask_byte k) = b / 2 ^ (8 - k) * 2 ^ (8 - k).
Proof.
  intros Hb Hk. apply Z.eqb_eq. revert b Hb. apply all_bytes.
  assert (k = 0 ∨ k = 1 ∨ k = 2 ∨ k = 3 ∨ k = 4 ∨ k = 5 ∨ k = 6 ∨ k = 7 ∨ k = 8) as Hc by lia.
  repeat destruct Hc as [->|Hc]; subst; vm_compute; reflexivity.
Qed.

(** The first address of the block of [2 ^ (32 - n)] addresses around [x]. *)
Definition block (n x : Z) : Z := x / 2 ^ (32 - n) * 2 ^ (32 - n).

Lemma block_range n x : 0 ≤ n ≤ 32 → 0 ≤ x < 2 ^ 32 →
  0 ≤ block n x ≤ x ∧ x < block n x + 2 ^ (32 - n) ∧ block n x + 2 ^ (32 - n) ≤ 2 ^ 32.
Proof.
  intros Hn Hx. unfold block.
  assert (2 ^ 32 = 2 ^ n * 2 ^ (32 - n)) as E by (rewrite <-Z.pow_add_r by lia; f_equal; lia).
  assert (0 < 2 ^ (32 - n)) by (apply Z.pow_pos_nonneg; lia).
  pose proof (Z.div_mod x (2 ^ (32 - n)) ltac:(lia)).
  pose proof (Z.mod_pos_bound x (2 ^ (32 - n)) ltac:(lia)).
  assert (0 ≤ x / 2 ^ (32 - n)) by (apply Z.div_pos; lia).
  assert (x / 2 ^ (32 - n) < 2 ^ n) by (apply Z.div_lt_upper_bound; lia).
  nia.
Qed.

Lemma block_same n x i : 0 ≤ n ≤ 32 → 0 ≤ i < 2 ^ (32 - n) →
  block n (block n x + i) = block n x.
Proof.
  intros Hn Hi. unfold block.
  rewrite Z.add_comm, Z.div_add by lia. rewrite Z.div_small by lia. done.
Qed.

Lemma and_bytes_quad l n : quad l → 0 ≤ n ≤ 32 → quad (and_bytes l (CIDRMask n 4)).
Proof.
  intros Hq Hn. split; [by destruct (quad_inv l Hq) as (? & ? & ? & ? & -> & _)|].
  destruct (quad_inv l Hq) as (a & b & c & d & -> & Ha & Hb & Hc & Hd).
  assert (∀ x k, byte x → 0 ≤ k ≤ 8 → byte (Z.land x (mask_byte k))) as Hland.
  { intros x k Hx Hk. rewrite land_mask_byte by done. unfold byte in *.
    assert (0 < 2 ^ (8 - k)) by (apply Z.pow_pos_nonneg; lia).
    pose proof (Z.div_mod x (2 ^ (8 - k)) ltac:(lia)).
    pose proof (Z.mod_pos_bound x (2 ^ (8 - k)) ltac:(lia)).
    pose proof (Z.div_pos x (2 ^ (8 - k)) ltac:(lia) ltac:(lia)). nia. }
  unfold and_bytes, CIDRMask. cbn [seq fmap list_fmap zip_with].
  repeat (apply Forall_cons; split); [..|apply Forall_nil_2]; apply Hland; auto; lia.
Qed.

Lemma and_bytes_mask l n :
  quad l → 0 ≤ n ≤ 32 → and_bytes l (CIDRMask n 4) = PutUint32 (block n (Uint32 l)).
Proof.
  intros Hq Hn. rewrite <-(Put_Uint32 (and_bytes _ _)) by by apply and_bytes_quad.
  f_equal. destruct (quad_inv l Hq) as (a & b & c & d & -> & Ha & Hb & Hc & Hd).
  unfold and_bytes, CIDRMask. cbn [seq fmap list_fmap zip_with].
  rewrite !land_mask_byte by (done || lia). revert n Hn. apply all_prefixes.
  unfold block, Uint32, byte in *. cbn [foldl].
  repeat (apply Forall_cons; split); [..|apply Forall_nil_2];
    cbn -[Z.mul Z.add Z.div Z.pow]; 
    repeat match goal with |- context [2 ^ ?e] =>
      let v := eval vm_compute in (2 ^ e) in change (2 ^ e) with v end;
    Z.to_euclidean_division_equations; lia.
Qed.

(** The network of an IPv4 address. *)
Definition net4 (x n : Z) : IPNet := mkIPNet (PutUint32 (block n x)) (CIDRMask n 4).

Lemma IP_String_quad l : quad l → IP_String l = dotted l.
Proof. intros Hq. unfold IP_String. by rewrite To4_quad. Qed.

Lemma number_and_mask_net4 x n : number_and_mask (net4 x n) = (IPNet_IP (net4 x n), CIDRMask n 4).
Proof.
  unfold number_and_mask, net4. cbn [IPNet_IP IPNet_Mask].
  by rewrite To4_quad by apply PutUint32_quad.
Qed.

(** Printing a network and parsing it again gives the network back. *)
Lemma ParseCIDR_print x n :
  0 ≤ n ≤ 32 → 0 ≤ x < 2 ^ 32 →
  ParseCIDR (IPNet_String (net4 x n)) =
    Some (v4InV6Prefix ++ PutUint32 (block n x), net4 x n).
Proof.
  intros Hn Hx. unfold IPNet_String. rewrite number_and_mask_net4. simpl.
  rewrite IP_String_quad by apply PutUint32_quad.
  unfold Size. rewrite simpleMaskLength_CIDR by done. simpl.
  set (l := PutUint32 (block n x)). assert (quad l) as Hq by apply PutUint32_quad.
  assert (byte n) as Hbn by (unfold byte; lia).
  unfold ParseCIDR. change ("/" +:+ fmt_d n) with (String (Ascii.ascii_of_N 47) (fmt_d n)).
  rewrite split_on_app, split_fmt; [|auto|auto|done|].
  2:{ destruct (quad_inv l Hq) as (a & b & c & d & -> & Ha & Hb & Hc & Hd).
      rewrite dotted_quad.
      repeat (apply split_on_none; [done|by apply split_fmt; auto|]).
      by apply split_fmt; auto. }
  rewrite ParseAddr_dotted by done. simpl.
  rewrite decide_False by (intros [?|?]; [done|by apply (fmt_nonempty n)]).
  rewrite decimal_fmt by done. simpl.
  destruct (decide (8 * Z.of_nat 4 < n)); [lia|]. unfold net4, IP_Mask. do 3 f_equal.
  rewrite decide_True by done.
  change (and_bytes l (CIDRMask n 4) = l). rewrite and_bytes_mask by done.
  destruct (block_range n x Hn Hx) as (? & ? & ?). unfold l at 1.
  rewrite Uint32_Put by (pose proof (Z.pow_pos_nonneg 2 (32 - n)); lia).
  replace (block n x) with (block n x + 0) at 1 by lia.
  rewrite block_same; [done|done|]. split; [lia|]. apply Z.pow_pos_nonneg; lia.
Qed.

(** ** What the parsers answer *)

Lemma decimal_nonneg s acc z : 0 ≤ acc → decimal acc s = Some z → 0 ≤ z.
Proof.
  revert acc. induction s as [|c s IH]; intros acc Hacc; simpl; [congruence|].
  unfold digit. destruct (decide (48 ≤ code c ≤ 57)); [|done]. simpl. apply IH. lia.
Qed.

Lemma parseIPv4_quad s l : parseIPv4 s = Some l → quad l.
Proof.
  unfold parseIPv4. destruct (split_on 46 s) as [|a [|b [|c [|d [|? ?]]]]]; try done.
  assert (∀ s v, octet s = Some v → byte v) as Hoct.
  { clear. intros s v. destruct s as [|c rest]; [done|]. unfold octet.
    destruct (decide (code c = 48 ∧ rest ≠ "")); [done|].
    destruct (decimal 0 (String c rest)) as [z|] eqn:Ez; [|done]. simpl.
    destruct (decide (z ≤ 255)); [|done]. intros [= <-]. unfold byte. split; [|lia].
    by eapply decimal_nonneg. }
  destruct (octet a) eqn:Ea, (octet b) eqn:Eb, (octet c) eqn:Ec, (octet d) eqn:Ed; try done.
  simpl. intros [= <-]. split; [done|]. repeat constructor; eauto; by eapply Hoct.
Qed.

Lemma Contains_net4 x n l :
  0 ≤ n ≤ 32 → 0 ≤ x < 2 ^ 32 → quad l →
  Contains (net4 x n) (v4InV6Prefix ++ l) ↔ block n (Uint32 l) = block n x.
Proof.
  intros Hn Hx Hq. unfold Contains. rewrite number_and_mask_net4, To4_mapped by done.
  cbn [default from_option IPNet_IP net4].
  destruct (block_range n x Hn Hx) as (H1 & H2 & H3).
  pose proof (Uint32_range l Hq) as Hl. destruct (block_range n _ Hn Hl) as (H4 & H5 & H6).
  rewrite !and_bytes_mask by (done || apply PutUint32_quad).
  rewrite Uint32_Put by lia.
  replace (block n (block n x)) with (block n x).
  2:{ replace (block n x) with (block n x + 0) at 2 by lia.
      rewrite block_same; [done|done|]. split; [lia|]. apply Z.pow_pos_nonneg; lia. }
  split.
  - intros [_ E]. symmetry. apply PutUint32_inj; [lia|lia|done].
  - unfold id. intros ->. split; [by destruct Hq as [-> _]|done].
Qed.

Lemma parseIPv6_length s b : parseIPv6 s = Some b → length b = 16%nat.
Proof.
  unfold parseIPv6. destruct (decide (_ ∧ _)); [by intros [= <-]|].
  destruct (parse_fields _ _ _ _) as [[[ip e] rest]|]; [|done]. simpl.
  destruct (decide (rest ≠ "")); [done|]. destruct e as [e|].
  - destruct (decide _); [|done]. intros [= <-].
    rewrite !length_app, length_replicate, length_take, length_drop. lia.
  - destruct (decide _); [|done]. by intros [= <-].
Qed.

(** A parsed CIDR is an IPv4 network, or a 16-byte address and mask. *)
Lemma ParseCIDR_inv s ip net :
  ParseCIDR s = Some (ip, net) →
  (∃ x n, 0 ≤ n ≤ 32 ∧ 0 ≤ x < 2 ^ 32 ∧ net = net4 x n) ∨
  (∃ n, 0 ≤ n ≤ 128 ∧ length ip = 16%nat ∧
        net = mkIPNet (and_bytes ip (CIDRMask n 16)) (CIDRMask n 16)).
Proof.
  unfold ParseCIDR. destruct (split_on 47 s) as [|addr [|mask rest]]; [done..|].
  destruct (ParseAddr addr) as [a|] eqn:Ea; [|done]. simpl.
  destruct (decide (rest ≠ [] ∨ mask = "")) as [?|_]; [done|].
  destruct (decimal 0 mask) as [n|] eqn:En; [|done]. simpl.
  apply decimal_nonneg in En; [|lia].
  unfold ParseAddr in Ea. destruct a as [l|l].
  - destruct (decide (8 * Z.of_nat 4 < n)); [done|]. intros [= <- <-]. left.
    assert (quad l) as Hq.
    { destruct (family addr) as [f|]; [|done].
      simpl in Ea.
      destruct (decide (f = 46)); [|destruct (decide (f = 58)); [by destruct (parseIPv6 addr)|done]].
      destruct (parseIPv4 addr) eqn:Ep; [|done]. injection Ea as <-.
      by eapply parseIPv4_quad. }
    exists (Uint32 l), n. split_and!; [lia|lia|by apply Uint32_range|by apply Uint32_range|].
    unfold net4, IP_Mask. rewrite decide_True by done.
    rewrite <-and_bytes_mask by (done || lia). done.
  - destruct (decide (8 * Z.of_nat 16 < n)); [done|]. intros [= <- <-]. right.
    exists n. split_and!; [lia|lia| |by unfold IP_Mask].
    destruct (family addr) as [f|]; [|done].
    simpl in Ea.
    destruct (decide (f = 46)); [by destruct (parseIPv4 addr)|].
    destruct (decide (f = 58)); [|done].
    destruct (parseIPv6 addr) eqn:Ep; [|done]. injection Ea as <-.
    by eapply parseIPv6_length.
Qed.

Lemma simpleMaskLength_CIDR6 n : 0 ≤ n ≤ 128 → simpleMaskLength (CIDRMask n 16) = Some n.
Proof.
  intros Hn.
  assert (forallb (λ i, bool_decide (simpleMaskLength (CIDRMask (Z.of_nat i) 16) =
    Some (Z.of_nat i))) (seq 0 129) = true) as H by (vm_compute; reflexivity).
  rewrite forallb_forall in H. specialize (H (Z.to_nat n)). rewrite Z2Nat.id in H by lia.
  eapply bool_decide_eq_true, H. apply in_seq. lia.
Qed.

(** A 16-byte network with at most 32 mask bits is not an IPv4 network. *)
Lemma To4_short_mask ip n :
  length ip = 16%nat → 0 ≤ n ≤ 32 → To4 (and_bytes ip (CIDRMask n 16)) = None.
Proof.
  intros Hl Hn. unfold To4.
  assert (length (and_bytes ip (CIDRMask n 16)) = 16%nat) as Hlen.
  { unfold and_bytes. rewrite length_zip_with, Hl. done. }
  rewrite decide_False by lia. apply decide_False. intros [_ Htake].
  assert (take 12 (and_bytes ip (CIDRMask n 16)) !! 10%nat = Some 255) as H10
    by (by rewrite Htake).
  rewrite lookup_take, decide_True in H10 by lia.
  unfold and_bytes in H10. apply lookup_zip_with_Some in H10 as (x & y & E & _ & Hy).
  assert (CIDRMask n 16 !! 10%nat = Some (mask_byte (Z.max 0 (Z.min 8 (n - 80))))) as Hy2
    by reflexivity.
  replace (Z.max 0 (Z.min 8 (n - 80))) with 0 in Hy2 by lia.
  assert (y = 0) as -> by (change (mask_byte 0) with 0 in Hy2; congruence).
  by rewrite Z.land_0_r in E.
Qed.
