(* ===== verification/Ipam.v ===== *)
(** * IP address management

    [internal/app/ipam/service.go] over the repositories of
    [internal/infra/memory/ipam_repo.go]: pools are CIDR blocks, allocations
    lease one address of a pool. *)

From S2P Require Import Prelude Identity AuditTrail Net.

Definition ErrIPPoolNotFound := ErrNew "ipam" "ip pool not found".
Definition ErrIPPoolAlreadyExists := ErrNew "ipam" "ip pool with this cidr already exists".
Definition ErrIPPoolExhausted := ErrNew "ipam" "no available ip addresses in pool".
Definition ErrIPAlreadyAllocated := ErrNew "ipam" "ip address is already allocated".
Definition ErrIPAllocationNotFound := ErrNew "ipam" "ip allocation not found".
Definition ErrInvalidCIDR := ErrNew "ipam" "invalid cidr format".

Record IPPool : Type := mkIPPool {
  IPPool_ID : string;
  IPPool_Name : string;
  IPPool_LocationID : string;
  IPPool_IPVersion : Z;
  IPPool_CIDR : string;
  IPPool_Gateway : string;
  IPPool_DNSServers : list string;
  IPPool_VLANID : option Z;
  IPPool_IsPrivate : bool;
  IPPool_CreatedAt : Z;
  IPPool_UpdatedAt : Z
}.
#[export] Instance IPPool_eq_dec : EqDecision IPPool.
Proof. solve_decision. Defined.

Definition eta_IPPool (r : IPPool) : IPPool :=
  mkIPPool (IPPool_ID r) (IPPool_Name r) (IPPool_LocationID r) (IPPool_IPVersion r)
    (IPPool_CIDR r) (IPPool_Gateway r) (IPPool_DNSServers r) (IPPool_VLANID r)
    (IPPool_IsPrivate r) (IPPool_CreatedAt r) (IPPool_UpdatedAt r).
#[export] Instance set_IPPool_ID : Setter IPPool_ID := ltac:(setter eta_IPPool IPPool_ID).
#[export] Instance set_IPPool_CreatedAt : Setter IPPool_CreatedAt := ltac:(setter eta_IPPool IPPool_CreatedAt).
#[export] Instance set_IPPool_UpdatedAt : Setter IPPool_UpdatedAt := ltac:(setter eta_IPPool IPPool_UpdatedAt).

Record IPAllocation : Type := mkIPAllocation {
  IPAllocation_ID : string;
  IPAllocation_PoolID : string;
  IPAllocation_InstanceID : option string;
  IPAllocation_IPAddress : string;
  IPAllocation_MACAddress : string;
  IPAllocation_InterfaceName : string;
  IPAllocation_IsReserved : bool;
  IPAllocation_Notes : string;
  IPAllocation_AllocatedAt : Z;
  IPAllocation_ReleasedAt : option Z
}.
#[export] Instance IPAllocation_eq_dec : EqDecision IPAllocation.
Proof. solve_decision. Defined.

Definition eta_IPAllocation (r : IPAllocation) : IPAllocation :=
  mkIPAllocation (IPAllocation_ID r) (IPAllocation_PoolID r) (IPAllocation_InstanceID r)
    (IPAllocation_IPAddress r) (IPAllocation_MACAddress r)
    (IPAllocation_InterfaceName r) (IPAllocation_IsReserved r) (IPAllocation_Notes r)
    (IPAllocation_AllocatedAt r) (IPAllocation_ReleasedAt r).
#[export] Instance set_IPAllocation_ID : Setter IPAllocation_ID := ltac:(setter eta_IPAllocation IPAllocation_ID).
#[export] Instance set_IPAllocation_AllocatedAt : Setter IPAllocation_AllocatedAt := ltac:(setter eta_IPAllocation IPAllocation_AllocatedAt).
#[export] Instance set_IPAllocation_ReleasedAt : Setter IPAllocation_ReleasedAt := ltac:(setter eta_IPAllocation IPAllocation_ReleasedAt).

Record PoolUtilization : Type := mkPoolUtilization {
  PoolUtilization_PoolID : string;
  PoolUtilization_CIDR : string;
  PoolUtilization_TotalIPs : Z;
  PoolUtilization_AllocatedIPs : Z;
  PoolUtilization_ReservedIPs : Z;
  PoolUtilization_FreeIPs : Z;
  PoolUtilization_UsagePercentage : float64
}.
#[export] Instance PoolUtilization_eq_dec : EqDecision PoolUtilization.
Proof. solve_decision. Defined.

Definition ContainsIP (p : IPPool) (ipStr : string) : bool :=
  match ParseCIDR (IPPool_CIDR p) with
  | None => false
  | Some (_, ipNet) =>
      match ParseIP ipStr with
      | None => false
      | Some ip => bool_decide (Contains ipNet ip)
      end
  end.

(** ** The repositories *)

Record IpamStore : Type := mkIpamStore {
  IpamStore_pools : gmap string IPPool;
  IpamStore_allocations : gmap string IPAllocation
}.

Definition eta_IpamStore (r : IpamStore) : IpamStore :=
  mkIpamStore (IpamStore_pools r) (IpamStore_allocations r).
#[export] Instance set_IpamStore_pools : Setter IpamStore_pools := ltac:(setter eta_IpamStore IpamStore_pools).
#[export] Instance set_IpamStore_allocations : Setter IpamStore_allocations := ltac:(setter eta_IpamStore IpamStore_allocations).

Definition empty_ipam : IpamStore := mkIpamStore ∅ ∅.

Definition pool_Create (pool : IPPool) : go IpamStore IPPool :=
  s ← get;
  es ← range_map (IpamStore_pools s);
  match list_find (λ kv, IPPool_CIDR kv.2 = IPPool_CIDR pool) es with
  | Some _ => fail ErrIPPoolAlreadyExists
  | None =>
      id ← (if decide (IPPool_ID pool = "") then uuid_NewString else mret (IPPool_ID pool));
      now ← time_Now;
      let pool := pool <| IPPool_ID := id |> <| IPPool_CreatedAt := now |>
                       <| IPPool_UpdatedAt := now |> in
      modify (λ s, s <| IpamStore_pools := <[id := pool]> (IpamStore_pools s) |>) ;;
      mret pool
  end.

Definition pool_GetByID (id : string) : go IpamStore IPPool :=
  s ← get;
  match IpamStore_pools s !! id with
  | Some p => mret p
  | None => fail ErrIPPoolNotFound
  end.

Definition pool_GetByCIDR (cidr : string) : go IpamStore IPPool :=
  s ← get;
  es ← range_map (IpamStore_pools s);
  match list_find (λ kv, IPPool_CIDR kv.2 = cidr) es with
  | Some (_, (_, p)) => mret p
  | None => fail ErrIPPoolNotFound
  end.

Definition pool_List (locationID : string) : go IpamStore (list IPPool) :=
  s ← get;
  es ← range_map (IpamStore_pools s);
  mret (filter (λ p, locationID = "" ∨ IPPool_LocationID p = locationID) es.*2).

Definition pool_Delete (id : string) : go IpamStore () :=
  pool_GetByID id ;;
  modify (λ s, s <| IpamStore_pools := delete id (IpamStore_pools s) |>).

(** An allocation that was not released. *)
Definition active (a : IPAllocation) : Prop := IPAllocation_ReleasedAt a = None.
#[export] Instance active_dec a : Decision (active a).
Proof. unfold active. apply _. Defined.

Definition alloc_Create (alloc : IPAllocation) : go IpamStore IPAllocation :=
  s ← get;
  es ← range_map (IpamStore_allocations s);
  match list_find (λ kv, IPAllocation_IPAddress kv.2 = IPAllocation_IPAddress alloc ∧
                         active kv.2) es with
  | Some _ => fail ErrIPAlreadyAllocated
  | None =>
      id ← (if decide (IPAllocation_ID alloc = "") then uuid_NewString
            else mret (IPAllocation_ID alloc));
      now ← time_Now;
      let alloc := alloc <| IPAllocation_ID := id |> <| IPAllocation_AllocatedAt := now |>
                         <| IPAllocation_ReleasedAt := None |> in
      modify (λ s, s <| IpamStore_allocations := <[id := alloc]> (IpamStore_allocations s) |>) ;;
      mret alloc
  end.

Definition alloc_GetByID (id : string) : go IpamStore IPAllocation :=
  s ← get;
  match IpamStore_allocations s !! id with
  | Some a => mret a
  | None => fail ErrIPAllocationNotFound
  end.

Definition alloc_GetByIP (ip : string) : go IpamStore IPAllocation :=
  s ← get;
  es ← range_map (IpamStore_allocations s);
  match list_find (λ kv, IPAllocation_IPAddress kv.2 = ip ∧ active kv.2) es with
  | Some (_, (_, a)) => mret a
  | None => fail ErrIPAllocationNotFound
  end.

Definition alloc_ListByPoolID (poolID : string) : go IpamStore (list IPAllocation) :=
  s ← get;
  es ← range_map (IpamStore_allocations s);
  mret (filter (λ a, IPAllocation_PoolID a = poolID ∧ active a) es.*2).

Definition alloc_ListByInstanceID (instanceID : string) : go IpamStore (list IPAllocation) :=
  s ← get;
  es ← range_map (IpamStore_allocations s);
  mret (filter (λ a, IPAllocation_InstanceID a = Some instanceID ∧ active a) es.*2).

Definition alloc_Release (id : string) : go IpamStore () :=
  a ← alloc_GetByID id;
  now ← time_Now;
  modify (λ s, s <| IpamStore_allocations :=
    <[id := (a <| IPAllocation_ReleasedAt := Some now |>)]> (IpamStore_allocations s) |>).

Definition alloc_Delete (id : string) : go IpamStore () :=
  alloc_GetByID id ;;
  modify (λ s, s <| IpamStore_allocations := delete id (IpamStore_allocations s) |>).

(** ** The address search *)

Definition wrap32 (z : Z) : Z := z mod 2 ^ 32.

(** [for i := ...; i < totalHosts-1; i++], [n] iterations left. *)
Fixpoint find_loop (n : nat) (startInt i : Z) (allocated : gset string) : result string :=
  match n with
  | O => Err ErrIPPoolExhausted
  | S n =>
      let ipStr := IP_String (PutUint32 (wrap32 (startInt + i))) in
      if decide (ipStr ∈ allocated) then find_loop n startInt (i + 1) allocated else Ok ipStr
  end.

Definition findNextAvailableIP (cidr : string) (allocated : gset string) : result string :=
  match ParseCIDR cidr with
  | None => Err ErrInvalidCIDR
  | Some (_, ipNet) =>
      match To4 (IPNet_IP ipNet) with
      | None => Err ErrIPPoolExhausted
      | Some ip4 =>
          let maskSize := Size (IPNet_Mask ipNet) in
          if decide (32 - maskSize < 0) then panic "negative shift amount"
          else
            let totalHosts := wrap32 (Z.shiftl 1 (32 - maskSize)) in
            let last := wrap32 (totalHosts - 1) in
            find_loop (Z.to_nat (last - 1)) (Uint32 ip4) 1 allocated
      end
  end.

Definition calculateTotalHostIPs (ipNet : IPNet) : Z :=
  let maskSize := Size (IPNet_Mask ipNet) in
  match To4 (IPNet_IP ipNet) with
  | Some _ => if decide (31 ≤ maskSize) then 2 else Z.shiftl 1 (32 - maskSize) - 2
  | None => 65536
  end.

(** ** The service *)

Record CreatePoolRequest : Type := mkCreatePoolRequest {
  CreatePoolRequest_Name : string;
  CreatePoolRequest_LocationID : string;
  CreatePoolRequest_CIDR : string;
  CreatePoolRequest_Gateway : string;
  CreatePoolRequest_DNSServers : list string;
  CreatePoolRequest_VLANID : option Z;
  CreatePoolRequest_IsPrivate : bool
}.

Section service.
Context {A : Type} `{!AuditRepository A} (auth : Authorizer).

Definition CreatePool (sub : option Subject) (req : CreatePoolRequest) :
    go (IpamStore * A) IPPool :=
  authorize auth sub "ipam:manage" None ;;
  match ParseCIDR (CreatePoolRequest_CIDR req) with
  | None => fail ErrInvalidCIDR
  | Some (ip, ipNet) =>
      let ipVer := match To4 ip with Some _ => 4 | None => 6 end in
      let inside := match ParseIP (CreatePoolRequest_Gateway req) with
                    | Some gw => bool_decide (Contains ipNet gw)
                    | None => false
                    end in
      if negb inside then
        fail (Errorf ("gateway " +:+ CreatePoolRequest_Gateway req +:+ " is not within cidr "
                      +:+ CreatePoolRequest_CIDR req))
      else
        let dns := match CreatePoolRequest_DNSServers req with
                   | [] => ["1.1.1.1"; "8.8.8.8"]
                   | l => l
                   end in
        created ← time_Now;
        updated ← time_Now;
        pool ← on_store (pool_Create
          (mkIPPool "" (CreatePoolRequest_Name req) (CreatePoolRequest_LocationID req) ipVer
             (IPNet_String ipNet) (CreatePoolRequest_Gateway req) dns
             (CreatePoolRequest_VLANID req) (CreatePoolRequest_IsPrivate req) created updated));
        actor ← caller_id sub;
        audit_event (Some actor) "ipam:pool:create" "ip_pool" (Some (IPPool_ID pool)) None ;;
        mret pool
  end.

Definition ListPools (sub : option Subject) (locationID : string) :
    go (IpamStore * A) (list IPPool) :=
  authorize auth sub "ipam:read" None ;;
  on_store (pool_List locationID).

Definition count_if {X} (f : X → bool) (l : list X) : Z :=
  foldl (λ n x, if f x then n + 1 else n) 0 l.

Definition GetPoolUtilization (pool : IPPool) : go (IpamStore * A) PoolUtilization :=
  allocations ← on_store (alloc_ListByPoolID (IPPool_ID pool));
  match ParseCIDR (IPPool_CIDR pool) with
  | None => fail (Errorf ("invalid CIDR address: " +:+ IPPool_CIDR pool))
  | Some (_, ipNet) =>
      let total := calculateTotalHostIPs ipNet in
      let reserved := count_if IPAllocation_IsReserved allocations in
      let allocated := count_if (λ a, negb (IPAllocation_IsReserved a)) allocations in
      let free := total - (allocated + reserved) in
      let free := if decide (free < 0) then 0 else free in
      let usagePct := if decide (0 < total)
                      then fmul (fdiv (of_int (allocated + reserved)) (of_int total)) (of_int 100)
                      else of_int 0 in
      mret (mkPoolUtilization (IPPool_ID pool) (IPPool_CIDR pool) total allocated reserved free
              (fdiv (math_Round (fmul usagePct (of_int 100))) (of_int 100)))
  end.

Definition GetPool (sub : option Subject) (poolID : string) :
    go (IpamStore * A) (IPPool * PoolUtilization) :=
  authorize auth sub "ipam:read" None ;;
  pool ← on_store (pool_GetByID poolID);
  utilization ← GetPoolUtilization pool;
  mret (pool, utilization).

Definition AllocateIP (sub : option Subject) (poolID : string) (instanceID : option string)
    (ifaceName : string) (isReserved : bool) (notes : string) :
    go (IpamStore * A) IPAllocation :=
  authorize auth sub "ipam:manage" None ;;
  pool ← on_store (pool_GetByID poolID);
  allocations ← on_store (alloc_ListByPoolID poolID);
  let allocatedMap : gset string :=
    {[IPPool_Gateway pool]} ∪ list_to_set (IPAllocation_IPAddress <$> allocations) in
  nextIP ← lift (findNextAvailableIP (IPPool_CIDR pool) allocatedMap);
  let ifaceName := if decide (ifaceName = "") then "eth0" else ifaceName in
  now ← time_Now;
  alloc ← on_store (alloc_Create
    (mkIPAllocation "" poolID instanceID nextIP "" ifaceName isReserved notes now None));
  actor ← caller_id sub;
  audit_event (Some actor) "ipam:ip:allocate" "ip_allocation" (Some (IPAllocation_ID alloc))
    None ;;
  mret alloc.

Definition ReleaseIP (sub : option Subject) (allocationID : string) : go (IpamStore * A) () :=
  authorize auth sub "ipam:manage" None ;;
  alloc ← on_store (alloc_GetByID allocationID);
  on_store (alloc_Release allocationID) ;;
  actor ← caller_id sub;
  audit_event (Some actor) "ipam:ip:release" "ip_allocation" (Some (IPAllocation_ID alloc)) None.

Definition ListAllocations (sub : option Subject) (poolID : string) :
    go (IpamStore * A) (list IPAllocation) :=
  authorize auth sub "ipam:read" None ;;
  on_store (alloc_ListByPoolID poolID).
End service.

(** ** The search finds the lowest free host address *)

(** Host number [i] of the block that starts at [start], as text. *)
Definition host (start i : Z) : string := dotted (PutUint32 (start + i)).

Lemma host_inj start i j :
  0 ≤ start + i < 2 ^ 32 → 0 ≤ start + j < 2 ^ 32 → host start i = host start j → i = j.
Proof.
  intros Hi Hj E. apply dotted_inj in E; [|apply PutUint32_quad..].
  apply PutUint32_inj in E; lia.
Qed.

Lemma find_loop_spec n start i allocated :
  0 ≤ start + i → start + i + Z.of_nat n ≤ 2 ^ 32 →
  match find_loop n start i allocated with
  | Ok ip => ∃ j, i ≤ j < i + Z.of_nat n ∧ ip = host start j ∧ (ip ∉ allocated) ∧
               ∀ k, i ≤ k < j → host start k ∈ allocated
  | Err e => e = ErrIPPoolExhausted ∧ ∀ k, i ≤ k < i + Z.of_nat n → host start k ∈ allocated
  end.
Proof.
  revert i. induction n as [|n IH]; intros i Hi Hn; cbn [find_loop].
  { split; [done|]. lia. }
  assert (IP_String (PutUint32 (wrap32 (start + i))) = host start i) as ->.
  { unfold wrap32. rewrite Z.mod_small by lia. apply IP_String_quad, PutUint32_quad. }
  destruct (decide (host start i ∈ allocated)) as [Hin|Hin].
  - specialize (IH (i + 1) ltac:(lia) ltac:(lia)). destruct (find_loop _ _ _ _) as [ip|e].
    + destruct IH as (j & Hj & -> & Hfree & Hlow). exists j. split_and!; [lia|lia|done|done|].
      intros k Hk. destruct (decide (k = i)) as [->|]; [done|]. apply Hlow. lia.
    + destruct IH as [-> Hall]. split; [done|]. intros k Hk.
      destruct (decide (k = i)) as [->|]; [done|]. apply Hall. lia.
  - exists i. split_and!; [lia|lia|done|done|]. lia.
Qed.

(** The number of the last host address plus one. *)
Definition broadcast (n : Z) : Z := 2 ^ (32 - n) - 1.

Lemma findNext_v4 cidr p x n allocated :
  0 ≤ n ≤ 32 → 0 ≤ x < 2 ^ 32 → ParseCIDR cidr = Some (p, net4 x n) →
  findNextAvailableIP cidr allocated =
    find_loop (Z.to_nat (broadcast n - 1)) (block n x) 1 allocated.
Proof.
  intros Hn Hx Hp. unfold findNextAvailableIP. rewrite Hp. unfold net4.
  cbn [IPNet_IP IPNet_Mask]. rewrite To4_quad by apply PutUint32_quad.
  unfold Size. rewrite simpleMaskLength_CIDR by done. cbn [default from_option].
  unfold id. destruct (decide (32 - n < 0)); [lia|].
  destruct (block_range n x Hn Hx) as (? & ? & ?).
  assert (0 < 2 ^ (32 - n)) by (apply Z.pow_pos_nonneg; lia).
  rewrite Uint32_Put by lia. f_equal.
  rewrite Z.shiftl_mul_pow2, Z.mul_1_l by lia. unfold wrap32, broadcast.
  destruct (decide (n = 0)) as [->|].
  - reflexivity.
  - assert (2 ^ (32 - n) < 2 ^ 32) by (apply Z.pow_lt_mono_r; lia).
    rewrite (Z.mod_small (2 ^ (32 - n))) by lia. rewrite Z.mod_small by lia. done.
Qed.

(** An IPv6 block (whatever its form) never gives an address. *)
Lemma findNext_v6 cidr ip n allocated :
  length ip = 16%nat → 0 ≤ n ≤ 128 →
  ParseCIDR cidr = Some (ip, mkIPNet (and_bytes ip (CIDRMask n 16)) (CIDRMask n 16)) →
  ∃ e, findNextAvailableIP cidr allocated = Err e.
Proof.
  intros Hl Hn Hp. unfold findNextAvailableIP. rewrite Hp. cbn [IPNet_IP IPNet_Mask].
  destruct (decide (n ≤ 32)).
  - rewrite To4_short_mask by (done || lia). by eexists.
  - destruct (To4 _); [|by eexists]. unfold Size. rewrite simpleMaskLength_CIDR6 by done.
    cbn [default from_option]. unfold id. rewrite decide_True by lia. by eexists.
Qed.

(** An address found lies in the pool's block and is not in the map. *)
Lemma findNext_sound pool allocated ip :
  findNextAvailableIP (IPPool_CIDR pool) allocated = Ok ip →
  ContainsIP pool ip = true ∧ ip ∉ allocated.
Proof.
  intros Hf. destruct (ParseCIDR (IPPool_CIDR pool)) as [[p net]|] eqn:Hp.
  2:{ unfold findNextAvailableIP in Hf. by rewrite Hp in Hf. }
  destruct (ParseCIDR_inv _ _ _ Hp) as [(x & n & Hn & Hx & ->)|(n & Hn & Hl & ->)].
  - rewrite (findNext_v4 _ _ _ _ _ Hn Hx Hp) in Hf.
    destruct (block_range n x Hn Hx) as (H1 & H2 & H3).
    assert (0 < 2 ^ (32 - n)) by (apply Z.pow_pos_nonneg; lia).
    destruct (decide (1 < broadcast n)) as [Hb|Hb].
    2:{ replace (Z.to_nat (broadcast n - 1)) with 0%nat in Hf by lia. done. }
    pose proof (find_loop_spec (Z.to_nat (broadcast n - 1)) (block n x) 1 allocated) as Hspec.
    unfold broadcast in *. rewrite Hf in Hspec.
    destruct Hspec as (j & Hj & -> & Hfree & _); [lia|lia|]. split; [|done].
    unfold ContainsIP. rewrite Hp. unfold host.
    rewrite ParseIP_dotted by apply PutUint32_quad.
    apply bool_decide_eq_true_2, Contains_net4; [done|done|apply PutUint32_quad|].
    rewrite Uint32_Put by lia. apply block_same; [done|lia].
  - by destruct (findNext_v6 _ _ _ allocated Hl Hn Hp) as [e He]; rewrite He in Hf.
Qed.

(** The search answers the lowest host address of the block that is not
    taken: never the network or the broadcast address, and it reports
    exhaustion exactly when every host address is taken. *)
Theorem findNextAvailableIP_spec (x n : Z) (allocated : gset string) :
  0 ≤ n ≤ 32 → 0 ≤ x < 2 ^ 32 →
  match findNextAvailableIP (IPNet_String (net4 x n)) allocated with
  | Ok ip => ∃ j, 1 ≤ j < broadcast n ∧ ip = host (block n x) j ∧ (ip ∉ allocated) ∧
               ∀ k, 1 ≤ k < j → host (block n x) k ∈ allocated
  | Err e => e = ErrIPPoolExhausted ∧
             ∀ k, 1 ≤ k < broadcast n → host (block n x) k ∈ allocated
  end.
Proof.
  intros Hn Hx. rewrite (findNext_v4 _ _ x n _ Hn Hx (ParseCIDR_print x n Hn Hx)).
  destruct (block_range n x Hn Hx) as (H1 & H2 & H3).
  assert (0 < 2 ^ (32 - n)) by (apply Z.pow_pos_nonneg; lia). unfold broadcast in *.
  destruct (decide (1 < 2 ^ (32 - n) - 1)) as [Hb|Hb].
  - pose proof (find_loop_spec (Z.to_nat (2 ^ (32 - n) - 1 - 1)) (block n x) 1 allocated) as Hs.
    destruct (find_loop _ _ _ _) as [ip|e].
    + destruct Hs as (j & Hj & Hs); [lia|lia|]. exists j. split; [lia|done].
    + destruct Hs as [-> Hs]; [lia|lia|]. split; [done|]. intros k Hk. apply Hs. lia.
  - replace (Z.to_nat (2 ^ (32 - n) - 1 - 1)) with 0%nat by lia. simpl. split; [done|]. lia.
Qed.

(** ** Histories of calls *)

Section histories.
Context {A : Type} `{!AuditRepository A} (auth : Authorizer).
Implicit Types (s : IpamStore) (a : A).

(** No active allocation of [s] has the address [ip]. *)
Definition unused s (ip : string) : Prop :=
  ∀ id al, IpamStore_allocations s !! id = Some al → active al → IPAllocation_IPAddress al ≠ ip.

Definition add_alloc s (id : string) (al : IPAllocation) : IpamStore :=
  s <| IpamStore_allocations := <[id := al]> (IpamStore_allocations s) |>.

Lemma alloc_Create_run (al : IPAllocation) w s :
  World_ok w → IPAllocation_ID al = "" →
  (∃ id ex, IpamStore_allocations s !! id = Some ex ∧ active ex ∧
     IPAllocation_IPAddress ex = IPAllocation_IPAddress al ∧
     alloc_Create al w s = (Err ErrIPAlreadyAllocated, s, next_range w)) ∨
  (unused s (IPAllocation_IPAddress al) ∧
   let al' := al <| IPAllocation_ID := w_uuid w (w_uuids w) |>
                 <| IPAllocation_AllocatedAt := now_of w |>
                 <| IPAllocation_ReleasedAt := None |> in
   alloc_Create al w s =
     (Ok al', (add_alloc s (w_uuid w (w_uuids w)) al'), tick (next_uuid (next_range w)))).
Proof.
  intros Hw Hid. unfold alloc_Create. unfold mbind, go_bind, get, range_map. simpl.
  destruct (list_find _ (entries _ _)) as [[i [k ex]]|] eqn:Ef.
  - left. apply find_entries_Some in Ef as [Hk [HP Hact]]; [|done]. by exists k, ex.
  - right. split.
    + intros k ex Hk Hact E.
      by apply (proj1 (find_entries_None w _ _ _ Hw) Ef k ex Hk).
    + cbv zeta. by rewrite decide_True by done.
Qed.

(** What a call of [AllocateIP] does: nothing, or one new allocation. *)
Lemma AllocateIP_effect sub poolID iid ifc res notes w s a :
  World_ok w →
  wp (AllocateIP auth sub poolID iid ifc res notes) (λ r st' _,
    (st'.1 = s ∧ ∃ e, r = Err e) ∨
    ∃ pool id al, IpamStore_pools s !! poolID = Some pool ∧
      IPAllocation_PoolID al = poolID ∧ active al ∧
      ContainsIP pool (IPAllocation_IPAddress al) = true ∧
      IPAllocation_IPAddress al ≠ IPPool_Gateway pool ∧
      unused s (IPAllocation_IPAddress al) ∧ st'.1 = add_alloc s id al) w (s, a).
Proof.
  intros Hw. unfold AllocateIP, authorize. wp_step.
  destruct (@Authorize auth sub _ _) as [[]|e]; [|left; eauto]. wp_step.
  unfold on_store. wp_step. unfold pool_GetByID. wp_step.
  destruct (IpamStore_pools s !! poolID) as [pool|] eqn:Hp; wp_step; [|left; eauto].
  unfold alloc_ListByPoolID. wp_step. 
  set (m := _ ∪ _). destruct (findNextAvailableIP _ _) as [ip|e] eqn:Ef; wp_step; [|left; eauto].
  apply findNext_sound in Ef as [Hin Hfree].
  set (al := mkIPAllocation _ _ _ _ _ _ _ _ _ _).
  destruct (alloc_Create_run al (tick (next_range w)) s Hw eq_refl)
    as [(id & ex & _ & _ & _ & Hrun)|[Hun Hrun]].
  { apply (proj2 (wp_run _ _ _ _ _ _ _ Hrun)). left. eauto. }
  cbv zeta in Hrun. apply (proj2 (wp_run _ _ _ _ _ _ _ Hrun)).
  assert (ip ≠ IPPool_Gateway pool) as Hg by (subst m; set_solver).
  unfold caller_id. destruct sub as [u|]; wp_step.
  - apply wp_audit_event. intros a' w'. wp_step. right.
    exists pool. do 2 eexists. split_and!; [..|reflexivity]; done.
  - right. exists pool. do 2 eexists. split_and!; [..|reflexivity]; done.
Qed.

Lemma pool_Create_effect (p : IPPool) w s :
  World_ok w → IPPool_ID p = "" →
  (∃ e w', pool_Create p w s = (Err e, s, w')) ∨
  ∃ p' w', pool_Create p w s =
    (Ok p', s <| IpamStore_pools := <[w_uuid w (w_uuids w) := p']> (IpamStore_pools s) |>, w').
Proof.
  intros Hw Hid. unfold pool_Create. unfold mbind, go_bind, get, range_map. simpl.
  destruct (list_find _ (entries _ _)) as [[i [k ex]]|]; [left; by do 2 eexists|].
  right. rewrite decide_True by done. by do 2 eexists.
Qed.

(** A pool creation adds one pool or changes nothing. *)
Lemma CreatePool_effect sub req w s a :
  World_ok w →
  wp (CreatePool auth sub req) (λ _ st' _,
    st'.1 = s ∨ ∃ p, st'.1 =
      s <| IpamStore_pools := <[w_uuid w (w_uuids w) := p]> (IpamStore_pools s) |>) w (s, a).
Proof.
  intros Hw. unfold CreatePool, authorize. wp_step.
  destruct (@Authorize auth sub _ _) as [[]|e]; [|by left]. wp_step.
  destruct (ParseCIDR _) as [[ip net]|]; wp_step; [|by left].
  destruct (negb _); wp_step; [by left|]. rewrite wp_on_store.
  set (p := mkIPPool _ _ _ _ _ _ _ _ _ _ _).
  destruct (pool_Create_effect p (tick (tick w)) s Hw eq_refl) as [(e & w' & Hrun)|(p' & w' & Hrun)];
    apply (proj2 (wp_run _ _ _ _ _ _ _ Hrun)); [by left|].
  unfold caller_id. destruct sub; wp_step.
  - apply wp_audit_event. intros a' w''. wp_step. right. by exists p'.
  - right. by exists p'.
Qed.

(** A release closes one allocation or changes nothing. *)
Lemma ReleaseIP_effect sub id w s a :
  wp (ReleaseIP auth sub id) (λ _ st' _,
    st'.1 = s ∨ ∃ al t, IpamStore_allocations s !! id = Some al ∧
      st'.1 = add_alloc s id (al <| IPAllocation_ReleasedAt := Some t |>)) w (s, a).
Proof.
  unfold ReleaseIP, authorize. wp_step.
  destruct (@Authorize auth sub _ _) as [[]|e]; [|by left]. wp_step.
  rewrite wp_on_store. unfold alloc_GetByID. wp_step.
  destruct (IpamStore_allocations s !! id) as [al|] eqn:Hal; wp_step; [|by left].
  rewrite wp_on_store. unfold alloc_Release, alloc_GetByID. wp_step. rewrite Hal. wp_step.
  unfold caller_id. destruct sub; wp_step.
  - apply wp_audit_event. intros a' w'. right. by do 2 eexists.
  - right. by do 2 eexists.
Qed.

(** One call of the service by anyone; a generated pool identifier is new. *)
Inductive ipam_step : IpamStore * A → IpamStore * A → Prop :=
  | i_create w st sub req : World_ok w → IpamStore_pools st.1 !! w_uuid w (w_uuids w) = None →
      ipam_step st (exec (CreatePool auth sub req) w st)
  | i_allocate w st sub pool iid ifc res notes : World_ok w →
      ipam_step st (exec (AllocateIP auth sub pool iid ifc res notes) w st)
  | i_release w st sub id : ipam_step st (exec (ReleaseIP auth sub id) w st).

(** Active allocations have distinct addresses, each inside its pool and not
    the gateway's. *)
Definition ipam_ok s : Prop :=
  (∀ id id' al al', IpamStore_allocations s !! id = Some al →
     IpamStore_allocations s !! id' = Some al' → active al → active al' →
     IPAllocation_IPAddress al = IPAllocation_IPAddress al' → id = id') ∧
  ∀ id al, IpamStore_allocations s !! id = Some al → active al →
    ∃ pool, IpamStore_pools s !! IPAllocation_PoolID al = Some pool ∧
      ContainsIP pool (IPAllocation_IPAddress al) = true ∧
      IPAllocation_IPAddress al ≠ IPPool_Gateway pool.

Lemma ipam_ok_add s id al pool :
  ipam_ok s → (active al → unused s (IPAllocation_IPAddress al) ∧
    IpamStore_pools s !! IPAllocation_PoolID al = Some pool ∧
    ContainsIP pool (IPAllocation_IPAddress al) = true ∧
    IPAllocation_IPAddress al ≠ IPPool_Gateway pool) →
  ipam_ok (add_alloc s id al).
Proof.
  intros [Hu Hp] Hnew. unfold ipam_ok, add_alloc. simpl. split.
  - intros i i' x x'. rewrite !lookup_insert. repeat case_decide; subst; auto.
    + intros [= <-] Hx' Ha Ha' E. destruct (Hnew Ha) as [Hun _].
      by destruct (Hun i' x' Hx' Ha').
    + intros Hx [= <-] Ha Ha' E. destruct (Hnew Ha') as [Hun _]. by destruct (Hun i x Hx Ha).
    + apply Hu.
  - intros i x. rewrite lookup_insert. case_decide; [|apply Hp].
    intros [= <-] Ha. exists pool. by destruct (Hnew Ha).
Qed.

Lemma ipam_step_ok st st' : ipam_step st st' → ipam_ok st.1 → ipam_ok st'.1.
Proof.
  intros Hstep Hok. destruct Hstep as
    [w [s a] sub req Hw Hnew|w [s a] sub pool iid ifc res notes Hw|w [s a] sub id]; simpl in *.
  - pose proof (CreatePool_effect sub req w s a Hw) as [->|[p ->]]%wp_elim; [done|].
    destruct Hok as [Hu Hp]. split; [exact Hu|]. intros id al Hal Ha. simpl in *.
    destruct (Hp id al Hal Ha) as (pool & Hpool & Hrest). exists pool. split; [|done].
    rewrite lookup_insert_ne; [done|]. congruence.
  - pose proof (AllocateIP_effect sub pool iid ifc res notes w s a Hw) as Hwp%wp_elim.
    destruct Hwp as [[-> _]|(p & id & al & Hp & Hpid & Ha & Hin & Hg & Hun & ->)]; [done|].
    apply (ipam_ok_add s id al p Hok). intros _. by rewrite Hpid.
  - pose proof (ReleaseIP_effect sub id w s a) as Hwp%wp_elim.
    destruct Hwp as [->|(al & t & Hal & ->)]; [done|].
    apply (ipam_ok_add s id _ (mkIPPool "" "" "" 0 "" "" [] None false 0 0) Hok). done.
Qed.

(** C1 no address is leased twice: in every history of pool creations,
    allocations and releases by anyone, active allocations have distinct
    addresses, each lies inside the block of its pool and is not the
    gateway's address as the pool records it. *)
Theorem no_double_allocation (a : A) (st : IpamStore * A) :
  rtc ipam_step (empty_ipam, a) st → ipam_ok st.1.
Proof.
  intros Hr. assert (ipam_ok (empty_ipam, a).1) as H0 by (split; intros id; intros; done).
  revert H0. induction Hr as [|s1 s2 s3 H12 _ IH]; [done|].
  intros H0. apply IH. by eapply ipam_step_ok.
Qed.

(** The addresses a pool considers taken: its gateway and its own leases. *)
Definition taken s (poolID : string) (pool : IPPool) (ip : string) : Prop :=
  ip = IPPool_Gateway pool ∨
  ∃ id al, IpamStore_allocations s !! id = Some al ∧ active al ∧
    IPAllocation_PoolID al = poolID ∧ IPAllocation_IPAddress al = ip.

(** Allocation is complete: an authorized caller gets the lowest host
    address of an IPv4 pool that is neither the gateway's nor leased, and is
    refused only when there is none, provided no other pool overlaps the
    block (no other pool has an active lease in it). *)
Theorem AllocateIP_complete (u : Subject) (poolID : string) (iid : option string)
    (ifc notes : string) (res : bool) (w : World) s a (pool : IPPool) (x n : Z) :
  World_ok w → @Authorize auth (Some u) "ipam:manage" None = Ok () →
  IpamStore_pools s !! poolID = Some pool →
  IPPool_CIDR pool = IPNet_String (net4 x n) → 0 ≤ n ≤ 32 → 0 ≤ x < 2 ^ 32 →
  (∀ id al k, IpamStore_allocations s !! id = Some al → active al →
     IPAllocation_IPAddress al = host (block n x) k → IPAllocation_PoolID al = poolID) →
  wp (AllocateIP auth (Some u) poolID iid ifc res notes) (λ r st' _,
    (∃ al j, r = Ok al ∧ 1 ≤ j < broadcast n ∧
       IPAllocation_IPAddress al = host (block n x) j ∧
       ¬ taken s poolID pool (host (block n x) j) ∧
       (∀ k, 1 ≤ k < j → taken s poolID pool (host (block n x) k)) ∧
       st'.1 = add_alloc s (IPAllocation_ID al) al) ∨
    (r = Err ErrIPPoolExhausted ∧ st'.1 = s ∧
     ∀ k, 1 ≤ k < broadcast n → taken s poolID pool (host (block n x) k))) w (s, a).
Proof.
  intros Hw Hauth Hp Hcidr Hn Hx Hown. unfold AllocateIP, authorize. rewrite Hauth. wp_step.
  unfold on_store. wp_step. unfold pool_GetByID. wp_step. rewrite Hp. wp_step.
  unfold alloc_ListByPoolID. wp_step. set (m := _ ∪ _).
  assert (∀ ip, ip ∈ m ↔ taken s poolID pool ip) as Hm.
  { intros ip. subst m. rewrite elem_of_union, elem_of_singleton, elem_of_list_to_set.
    unfold taken. apply or_iff_compat_l. rewrite list_elem_of_fmap. split.
    - intros (al & -> & [[Hpid Ha] Hin]%list_elem_of_filter).
      apply list_elem_of_fmap in Hin as ([id al'] & -> & Hin).
      apply elem_of_entries in Hin; [|done]. by exists id, al'.
    - intros (id & al & Hal & Ha & Hpid & <-). exists al. split; [done|].
      apply list_elem_of_filter. split; [done|]. apply list_elem_of_fmap.
      exists (id, al). split; [done|]. by apply elem_of_entries. }
  rewrite Hcidr, (findNext_v4 _ _ x n _ Hn Hx (ParseCIDR_print x n Hn Hx)).
  destruct (block_range n x Hn Hx) as (H1 & H2 & H3).
  assert (0 < 2 ^ (32 - n)) by (apply Z.pow_pos_nonneg; lia).
  pose proof (find_loop_spec (Z.to_nat (broadcast n - 1)) (block n x) 1 m) as Hs.
  unfold broadcast in *.
  destruct (find_loop _ _ _ _) as [ip|e]; wp_step.
  2:{ right. destruct Hs as [-> Hall]; [lia|lia|]. split_and!; [done|done|].
      intros k Hk. apply Hm, Hall. lia. }
  destruct Hs as (j & Hj & -> & Hfree & Hlow); [lia|lia|].
  set (al := mkIPAllocation _ _ _ _ _ _ _ _ _ _).
  destruct (alloc_Create_run al (tick (next_range w)) s Hw eq_refl)
    as [(id & ex & Hex & Hact & Heq & _)|[_ Hrun]].
  { exfalso. apply Hfree, Hm. right. exists id, ex. split_and!; [exact Hex|exact Hact| |exact Heq].
    exact (Hown id ex j Hex Hact Heq). }
  cbv zeta in Hrun. apply (proj2 (wp_run _ _ _ _ _ _ _ Hrun)). unfold caller_id. wp_step.
  apply wp_audit_event. intros a' w'. wp_step. left. do 2 eexists. split; [reflexivity|].
  split; [|split; [reflexivity|split_and!; [by rewrite <-Hm| |reflexivity]]]; [lia|].
  intros k Hk. apply Hm, Hlow. lia.
Qed.
End histories.

(** ** Concrete pools *)

Section demo.
#[local] Existing Instance tagging_digest.

Definition root : Subject := mkSubject "user" "u0" "u0" "root" "" ["superadmin"] [] [] ∅.

Definition demo_request (cidr gateway : string) : CreatePoolRequest :=
  mkCreatePoolRequest "p" "dc1" cidr gateway [] None false.

Definition create (cidr gateway : string) : go (IpamStore * AuditStore) IPPool :=
  CreatePool DynamicAuthorizer (Some root) (demo_request cidr gateway).
Definition allocate (pool : string) : go (IpamStore * AuditStore) IPAllocation :=
  AllocateIP DynamicAuthorizer (Some root) pool None "" false "".

(** One pool of six host addresses. *)
Definition demo_ipam : IpamStore * AuditStore :=
  exec (create "10.0.0.9/29" "10.0.0.9") (calm 1) (empty_ipam, empty_audit).

Lemma findNextAvailableIP_spec_witness :
  findNextAvailableIP "10.0.0.8/29" {["10.0.0.9"]} = Ok "10.0.0.10" ∧
  ∃ j, "10.0.0.10" = host (block 29 167772169) j ∧ 1 ≤ j < broadcast 29.
Proof.
  split; [vm_compute; reflexivity|].
  pose proof (findNextAvailableIP_spec 167772169 29 {["10.0.0.9"]} ltac:(lia) ltac:(lia)) as H.
  replace (findNextAvailableIP _ _) with (Ok (A := string) "10.0.0.10") in H
    by (vm_compute; reflexivity).
  destruct H as (j & Hj & E & _). exists j. split; [exact E|exact Hj].
Defined.

Lemma no_double_allocation_witness :
  ipam_ok (exec (allocate "uuid-0") (calm 2) demo_ipam).1.
Proof.
  apply (no_double_allocation DynamicAuthorizer empty_audit).
  apply (rtc_l _ _ demo_ipam).
  - exact (i_create DynamicAuthorizer (calm 1) (empty_ipam, empty_audit) (Some root)
             (demo_request "10.0.0.9/29" "10.0.0.9") (calm_ok 1) eq_refl).
  - apply rtc_once.
    exact (i_allocate DynamicAuthorizer (calm 2) demo_ipam (Some root) "uuid-0" None "" false ""
             (calm_ok 2)).
Defined.

Lemma AllocateIP_complete_witness : ∃ al j,
  answer (allocate "uuid-0") (calm 2) demo_ipam = Ok al ∧ 1 ≤ j < broadcast 29 ∧
  IPAllocation_IPAddress al = host (block 29 167772169) j ∧ IPAllocation_IPAddress al = "10.0.0.10".
Proof.
  pose proof (AllocateIP_complete DynamicAuthorizer root "uuid-0" None "" "" false (calm 2)
    demo_ipam.1 demo_ipam.2 (default (mkIPPool "" "" "" 0 "" "" [] None false 0 0)
       (IpamStore_pools demo_ipam.1 !! "uuid-0")) 167772169 29) as H.
  destruct H as [(al & j & Hr & Hj & Hip & _)|(Hr & _)].
  - apply calm_ok.
  - vm_compute. reflexivity.
  - vm_compute. reflexivity.
  - vm_compute. reflexivity.
  - lia.
  - lia.
  - intros id al k Hal. vm_compute in Hal. discriminate Hal.
  - exists al, j. split; [exact Hr|]. split; [exact Hj|]. split; [exact Hip|].
    vm_compute in Hr. injection Hr as <-. reflexivity.
  - vm_compute in Hr. discriminate Hr.
Defined.

(** A gateway given in the IPv4-mapped form is accepted and then leased: the
    map of taken addresses holds its text, not the address. *)
Lemma mapped_gateway_is_leased :
  let st := exec (create "10.0.0.8/29" "::ffff:10.0.0.9") (calm 1) (empty_ipam, empty_audit) in
  IPAllocation_IPAddress <$>
    match answer (allocate "uuid-0") (calm 2) st with Ok al => Some al | Err _ => None end =
  Some "10.0.0.9" ∧ ParseIP "::ffff:10.0.0.9" = ParseIP "10.0.0.9".
Proof. vm_compute. split; reflexivity. Qed.

(** Overlapping pools are accepted, and then the lease of one pool makes
    every allocation in the other fail although it has free addresses. *)
Lemma overlapping_pools_block :
  let st1 := exec (create "10.0.0.0/24" "10.0.0.254") (calm 1) (empty_ipam, empty_audit) in
  let w2 := mkWorld (λ _, 2) 0 (λ _, "second") 0 (λ _ l, l) 0 (λ _, 0) 0 in
  let w3 := mkWorld (λ _, 3) 0 (λ _, "lease") 0 (λ _ l, l) 0 (λ _, 0) 0 in
  let st2 := exec (create "10.0.0.0/25" "10.0.0.126") w2 st1 in
  let st3 := exec (allocate "uuid-0") w3 st2 in
  answer (allocate "second") (calm 4) st3 = Err ErrIPAlreadyAllocated.
Proof. vm_compute. reflexivity. Qed.

(** A /31 pool reports two free addresses and gives none. *)
Lemma slash31_reports_free_addresses :
  let st := exec (create "10.0.0.0/31" "10.0.0.0") (calm 1) (empty_ipam, empty_audit) in
  answer (allocate "uuid-0") (calm 2) st = Err ErrIPPoolExhausted ∧
  match answer (GetPool DynamicAuthorizer (Some root) "uuid-0") (calm 2) st with
  | Ok (_, u) => PoolUtilization_FreeIPs u = 2
  | Err _ => False
  end.
Proof. vm_compute. split; reflexivity. Qed.
End demo.
