(* ===== verification/Node.v ===== *)
(** * Hypervisor nodes and enrollment tokens

    [internal/domain/node/node.go] and [internal/infra/memory/node_repo.go].
    The repository's three node maps (and two token maps) hold pointers to
    shared records: an update through one map is seen through the others. The
    model keeps the records in a heap and addresses in the maps. *)

From S2P Require Import Prelude Identity.

Definition ErrNodeNotFound := ErrNew "node" "node not found".
Definition ErrNodeAlreadyExists := ErrNew "node" "node with this name or fqdn already exists".
Definition ErrNodeRevoked := ErrNew "node" "node certificate has been revoked".
Definition ErrNodeOffline := ErrNew "node" "node is currently offline".
Definition ErrEnrollmentTokenInvalid :=
  ErrNew "node" "invalid or unrecognised enrollment token".
Definition ErrEnrollmentTokenExpired := ErrNew "node" "enrollment token has expired".
Definition ErrEnrollmentTokenUsed := ErrNew "node" "enrollment token has already been consumed".
Definition ErrInvalidCSR :=
  ErrNew "node" "invalid or unparseable pkcs#10 certificate signing request".
Definition ErrCertMismatch :=
  ErrNew "node" "client certificate fingerprint does not match registered node".

Inductive Status : Type :=
  | StatusEnrolling | StatusOnline | StatusDegraded | StatusUnhealthy
  | StatusDraining | StatusOffline | StatusRevoked | StatusMaintenance.
#[export] Instance Status_eq_dec : EqDecision Status.
Proof. solve_decision. Defined.

Definition status_text (s : Status) : string :=
  match s with
  | StatusEnrolling => "enrolling" | StatusOnline => "online" | StatusDegraded => "degraded"
  | StatusUnhealthy => "unhealthy" | StatusDraining => "draining" | StatusOffline => "offline"
  | StatusRevoked => "revoked" | StatusMaintenance => "maintenance"
  end.

Record Node : Type := mkNode {
  Node_ID : string;
  Node_LocationID : string;
  Node_Name : string;
  Node_FQDN : string;
  Node_Status : Status;
  Node_CertFingerprint : string;
  Node_CPUCores : Z;
  Node_MemoryBytes : Z;
  Node_StorageBytes : Z;
  Node_CPUOvercommitRatio : float64;
  Node_MemoryOvercommitRatio : float64;
  Node_Capabilities : option Details;
  Node_MaintenanceMode : bool;
  Node_DrainMode : bool;
  Node_UnhealthyReason : string;
  Node_LastHeartbeatAt : option Z;
  Node_LastStateChangeAt : option Z;
  Node_CreatedAt : Z;
  Node_UpdatedAt : Z
}.
#[export] Instance Node_eq_dec : EqDecision Node.
Proof. solve_decision. Defined.

Definition eta_Node (r : Node) : Node :=
  mkNode (Node_ID r) (Node_LocationID r) (Node_Name r) (Node_FQDN r) (Node_Status r)
    (Node_CertFingerprint r) (Node_CPUCores r) (Node_MemoryBytes r)
    (Node_StorageBytes r) (Node_CPUOvercommitRatio r) (Node_MemoryOvercommitRatio r)
    (Node_Capabilities r) (Node_MaintenanceMode r) (Node_DrainMode r)
    (Node_UnhealthyReason r) (Node_LastHeartbeatAt r) (Node_LastStateChangeAt r)
    (Node_CreatedAt r) (Node_UpdatedAt r).
#[export] Instance set_Node_Status : Setter Node_Status := ltac:(setter eta_Node Node_Status).
#[export] Instance set_Node_Capabilities : Setter Node_Capabilities := ltac:(setter eta_Node Node_Capabilities).
#[export] Instance set_Node_MaintenanceMode : Setter Node_MaintenanceMode := ltac:(setter eta_Node Node_MaintenanceMode).
#[export] Instance set_Node_DrainMode : Setter Node_DrainMode := ltac:(setter eta_Node Node_DrainMode).
#[export] Instance set_Node_UnhealthyReason : Setter Node_UnhealthyReason := ltac:(setter eta_Node Node_UnhealthyReason).
#[export] Instance set_Node_LastHeartbeatAt : Setter Node_LastHeartbeatAt := ltac:(setter eta_Node Node_LastHeartbeatAt).
#[export] Instance set_Node_LastStateChangeAt : Setter Node_LastStateChangeAt := ltac:(setter eta_Node Node_LastStateChangeAt).
#[export] Instance set_Node_UpdatedAt : Setter Node_UpdatedAt := ltac:(setter eta_Node Node_UpdatedAt).

Definition IsConnectable (n : Node) : bool := bool_decide (Node_Status n ≠ StatusRevoked).

Definition IsSchedulable (n : Node) : bool :=
  (bool_decide (Node_Status n = StatusOnline) || bool_decide (Node_Status n = StatusDegraded))
  && negb (Node_MaintenanceMode n) && negb (Node_DrainMode n).

Definition Node_Resource (n : Node) : Resource :=
  mkResource "node" (Node_ID n) "" (Node_LocationID n).

Record EnrollmentSecret : Type := mkEnrollmentSecret {
  EnrollmentSecret_ID : string;
  EnrollmentSecret_LocationID : string;
  EnrollmentSecret_SecretHash : string;
  EnrollmentSecret_NodeNamePattern : string;
  EnrollmentSecret_ExpiresAt : Z;
  EnrollmentSecret_UsedAt : option Z;
  EnrollmentSecret_UsedByNodeID : option string;
  EnrollmentSecret_CreatedBy : option string;
  EnrollmentSecret_CreatedAt : Z
}.
#[export] Instance EnrollmentSecret_eq_dec : EqDecision EnrollmentSecret.
Proof. solve_decision. Defined.

Definition eta_EnrollmentSecret (r : EnrollmentSecret) : EnrollmentSecret :=
  mkEnrollmentSecret (EnrollmentSecret_ID r) (EnrollmentSecret_LocationID r)
    (EnrollmentSecret_SecretHash r) (EnrollmentSecret_NodeNamePattern r)
    (EnrollmentSecret_ExpiresAt r) (EnrollmentSecret_UsedAt r)
    (EnrollmentSecret_UsedByNodeID r) (EnrollmentSecret_CreatedBy r)
    (EnrollmentSecret_CreatedAt r).
#[export] Instance set_EnrollmentSecret_UsedAt : Setter EnrollmentSecret_UsedAt := ltac:(setter eta_EnrollmentSecret EnrollmentSecret_UsedAt).
#[export] Instance set_EnrollmentSecret_UsedByNodeID : Setter EnrollmentSecret_UsedByNodeID := ltac:(setter eta_EnrollmentSecret EnrollmentSecret_UsedByNodeID).

Definition EnrollmentSecret_IsValid {St} (e : EnrollmentSecret) : go St bool :=
  match EnrollmentSecret_UsedAt e with
  | Some _ => mret false
  | None => now ← time_Now; mret (bool_decide (now < EnrollmentSecret_ExpiresAt e))
  end.

(** ** The store: a heap and maps of addresses *)

Abbreviation loc := nat.

Record MemoryNodeStore : Type := mkMemoryNodeStore {
  MemoryNodeStore_heap : gmap loc Node;
  MemoryNodeStore_secret_heap : gmap loc EnrollmentSecret;
  MemoryNodeStore_next : loc;
  MemoryNodeStore_nodes : gmap string loc;
  MemoryNodeStore_nodesByFQDN : gmap string loc;
  MemoryNodeStore_nodesByFP : gmap string loc;
  MemoryNodeStore_secrets : gmap string loc;
  MemoryNodeStore_secretsByH : gmap string loc
}.

Definition eta_MemoryNodeStore (r : MemoryNodeStore) : MemoryNodeStore :=
  mkMemoryNodeStore (MemoryNodeStore_heap r) (MemoryNodeStore_secret_heap r)
    (MemoryNodeStore_next r) (MemoryNodeStore_nodes r) (MemoryNodeStore_nodesByFQDN r)
    (MemoryNodeStore_nodesByFP r) (MemoryNodeStore_secrets r)
    (MemoryNodeStore_secretsByH r).
#[export] Instance set_MemoryNodeStore_heap : Setter MemoryNodeStore_heap := ltac:(setter eta_MemoryNodeStore MemoryNodeStore_heap).
#[export] Instance set_MemoryNodeStore_secret_heap : Setter MemoryNodeStore_secret_heap := ltac:(setter eta_MemoryNodeStore MemoryNodeStore_secret_heap).
#[export] Instance set_MemoryNodeStore_next : Setter MemoryNodeStore_next := ltac:(setter eta_MemoryNodeStore MemoryNodeStore_next).
#[export] Instance set_MemoryNodeStore_nodes : Setter MemoryNodeStore_nodes := ltac:(setter eta_MemoryNodeStore MemoryNodeStore_nodes).
#[export] Instance set_MemoryNodeStore_nodesByFQDN : Setter MemoryNodeStore_nodesByFQDN := ltac:(setter eta_MemoryNodeStore MemoryNodeStore_nodesByFQDN).
#[export] Instance set_MemoryNodeStore_nodesByFP : Setter MemoryNodeStore_nodesByFP := ltac:(setter eta_MemoryNodeStore MemoryNodeStore_nodesByFP).
#[export] Instance set_MemoryNodeStore_secrets : Setter MemoryNodeStore_secrets := ltac:(setter eta_MemoryNodeStore MemoryNodeStore_secrets).
#[export] Instance set_MemoryNodeStore_secretsByH : Setter MemoryNodeStore_secretsByH := ltac:(setter eta_MemoryNodeStore MemoryNodeStore_secretsByH).

Definition NewMemoryNodeStore : MemoryNodeStore := mkMemoryNodeStore ∅ ∅ 0 ∅ ∅ ∅ ∅ ∅.

(** [*p]; a nil or dangling pointer panics. *)
Definition load {V} (h : gmap loc V) (l : loc) : go MemoryNodeStore V :=
  match h !! l with
  | Some v => mret v
  | None => lift (panic "invalid memory address or nil pointer dereference")
  end.

Definition NodeCreate (n : Node) : go MemoryNodeStore () :=
  s ← get;
  match MemoryNodeStore_nodesByFQDN s !! Node_FQDN n with
  | Some _ => fail ErrNodeAlreadyExists
  | None =>
      let p := MemoryNodeStore_next s in
      let s := s <| MemoryNodeStore_heap := <[p := n]> (MemoryNodeStore_heap s) |>
                 <| MemoryNodeStore_next := S p |>
                 <| MemoryNodeStore_nodes := <[Node_ID n := p]> (MemoryNodeStore_nodes s) |>
                 <| MemoryNodeStore_nodesByFQDN :=
                      <[Node_FQDN n := p]> (MemoryNodeStore_nodesByFQDN s) |> in
      put (if decide (Node_CertFingerprint n ≠ "") then
             s <| MemoryNodeStore_nodesByFP :=
                    <[Node_CertFingerprint n := p]> (MemoryNodeStore_nodesByFP s) |>
           else s)
  end.

(** A read through one of the maps. *)
Definition lookup_node (pick : MemoryNodeStore → gmap string loc) (key : string) :
    go MemoryNodeStore Node :=
  s ← get;
  match pick s !! key with
  | Some p => load (MemoryNodeStore_heap s) p
  | None => fail ErrNodeNotFound
  end.

Definition NodeGetByID : string → go MemoryNodeStore Node := lookup_node MemoryNodeStore_nodes.
Definition GetByFQDN : string → go MemoryNodeStore Node :=
  lookup_node MemoryNodeStore_nodesByFQDN.
Definition GetByCertFingerprint : string → go MemoryNodeStore Node :=
  lookup_node MemoryNodeStore_nodesByFP.

(** The update methods write through the pointer found under the identifier;
    [f] is the method's assignments at the time [now]. *)
Definition update_node (id : string) (f : Z → Node → Node) : go MemoryNodeStore () :=
  s ← get;
  match MemoryNodeStore_nodes s !! id with
  | None => fail ErrNodeNotFound
  | Some p =>
      n ← load (MemoryNodeStore_heap s) p;
      now ← time_Now;
      modify (λ s, s <| MemoryNodeStore_heap := <[p := f now n]> (MemoryNodeStore_heap s) |>)
  end.

Definition UpdateStatus (id : string) (status : Status) : go MemoryNodeStore () :=
  update_node id (λ now n, n <| Node_Status := status |> <| Node_UpdatedAt := now |>).

Definition UpdateHealthState (id : string) (status : Status) (reason : string) :
    go MemoryNodeStore () :=
  update_node id (λ now n,
    n <| Node_Status := status |> <| Node_UnhealthyReason := reason |>
      <| Node_LastStateChangeAt := Some now |> <| Node_UpdatedAt := now |>).

Definition UpdateDrainMode (id : string) (drainMode : bool) : go MemoryNodeStore () :=
  update_node id (λ now n,
    let n := n <| Node_DrainMode := drainMode |> in
    let n := if decide (drainMode = true ∧ Node_Status n = StatusOnline)
             then n <| Node_Status := StatusDraining |>
             else if decide (drainMode = false ∧ Node_Status n = StatusDraining)
             then n <| Node_Status := StatusOnline |>
             else n in
    n <| Node_UpdatedAt := now |>).

Definition UpdateHeartbeat (id : string) (lastSeen : Z) (caps : option Details) :
    go MemoryNodeStore () :=
  update_node id (λ now n,
    let n := n <| Node_LastHeartbeatAt := Some lastSeen |> in
    let n := match caps with Some _ => n <| Node_Capabilities := caps |> | None => n end in
    n <| Node_UpdatedAt := now |>).

Definition UpdateMaintenanceMode (id : string) (inMaintenance : bool) : go MemoryNodeStore () :=
  update_node id (λ now n,
    n <| Node_MaintenanceMode := inMaintenance |>
      <| Node_Status := if inMaintenance then StatusMaintenance else StatusOnline |>
      <| Node_UpdatedAt := now |>).

Definition Revoke (id : string) : go MemoryNodeStore () :=
  update_node id (λ now n, n <| Node_Status := StatusRevoked |> <| Node_UpdatedAt := now |>).

Fixpoint load_all {V} (h : gmap loc V) (es : list (string * loc)) : go MemoryNodeStore (list V) :=
  match es with
  | [] => mret []
  | (_, p) :: es => v ← load h p; vs ← load_all h es; mret (v :: vs)
  end.

Definition NodeList : go MemoryNodeStore (list Node) :=
  s ← get;
  es ← range_map (MemoryNodeStore_nodes s);
  load_all (MemoryNodeStore_heap s) es.

(** ** Enrollment tokens *)

Definition SecretCreate (e : EnrollmentSecret) : go MemoryNodeStore () :=
  modify (λ s,
    let p := MemoryNodeStore_next s in
    s <| MemoryNodeStore_secret_heap := <[p := e]> (MemoryNodeStore_secret_heap s) |>
      <| MemoryNodeStore_next := S p |>
      <| MemoryNodeStore_secrets := <[EnrollmentSecret_ID e := p]> (MemoryNodeStore_secrets s) |>
      <| MemoryNodeStore_secretsByH :=
           <[EnrollmentSecret_SecretHash e := p]> (MemoryNodeStore_secretsByH s) |>).

Definition GetBySecretHash (hash : string) : go MemoryNodeStore EnrollmentSecret :=
  s ← get;
  match MemoryNodeStore_secretsByH s !! hash with
  | Some p => load (MemoryNodeStore_secret_heap s) p
  | None => fail ErrEnrollmentTokenInvalid
  end.

Definition MarkUsed (id nodeID : string) : go MemoryNodeStore () :=
  s ← get;
  match MemoryNodeStore_secrets s !! id with
  | None => fail ErrEnrollmentTokenInvalid
  | Some p =>
      e ← load (MemoryNodeStore_secret_heap s) p;
      guard_err (EnrollmentSecret_UsedAt e ≠ None) ErrEnrollmentTokenUsed ;;
      now ← time_Now;
      let e := e <| EnrollmentSecret_UsedAt := Some now |>
                 <| EnrollmentSecret_UsedByNodeID := Some nodeID |> in
      modify (λ s, s <| MemoryNodeStore_secret_heap :=
                          <[p := e]> (MemoryNodeStore_secret_heap s) |>)
  end.

Definition ListActive : go MemoryNodeStore (list EnrollmentSecret) :=
  s ← get;
  now ← time_Now;
  es ← range_map (MemoryNodeStore_secrets s);
  l ← load_all (MemoryNodeStore_secret_heap s) es;
  mret (filter (λ e, EnrollmentSecret_UsedAt e = None ∧ now < EnrollmentSecret_ExpiresAt e) l).

(** ** Well-formed stores: the maps agree *)

(** The record a node identifier points to. *)
Definition node_at (s : MemoryNodeStore) (id : string) : option Node :=
  MemoryNodeStore_nodes s !! id ≫= λ p, MemoryNodeStore_heap s !! p.
Definition secret_at (s : MemoryNodeStore) (id : string) : option EnrollmentSecret :=
  MemoryNodeStore_secrets s !! id ≫= λ p, MemoryNodeStore_secret_heap s !! p.

Record node_store_ok (s : MemoryNodeStore) : Prop := {
  (** no address beyond [next] is in use *)
  ok_fresh : ∀ p, (MemoryNodeStore_next s ≤ p)%nat →
    MemoryNodeStore_heap s !! p = None ∧ MemoryNodeStore_secret_heap s !! p = None;
  (** an identifier leads to its own record, which its host name leads to too *)
  ok_nodes : ∀ id p, MemoryNodeStore_nodes s !! id = Some p →
    ∃ n, MemoryNodeStore_heap s !! p = Some n ∧ Node_ID n = id ∧
         MemoryNodeStore_nodesByFQDN s !! Node_FQDN n = Some p;
  ok_fqdn : ∀ f p, MemoryNodeStore_nodesByFQDN s !! f = Some p →
    ∃ n, MemoryNodeStore_heap s !! p = Some n ∧ Node_FQDN n = f ∧
         MemoryNodeStore_nodes s !! Node_ID n = Some p;
  ok_fp : ∀ fp p, MemoryNodeStore_nodesByFP s !! fp = Some p →
    ∃ n, MemoryNodeStore_heap s !! p = Some n ∧ Node_CertFingerprint n = fp ∧
         MemoryNodeStore_nodes s !! Node_ID n = Some p;
  ok_secrets : ∀ id p, MemoryNodeStore_secrets s !! id = Some p →
    ∃ e, MemoryNodeStore_secret_heap s !! p = Some e ∧ EnrollmentSecret_ID e = id ∧
         MemoryNodeStore_secretsByH s !! EnrollmentSecret_SecretHash e = Some p;
  ok_hash : ∀ h p, MemoryNodeStore_secretsByH s !! h = Some p →
    ∃ e, MemoryNodeStore_secret_heap s !! p = Some e ∧ EnrollmentSecret_SecretHash e = h ∧
         MemoryNodeStore_secrets s !! EnrollmentSecret_ID e = Some p
}.

Lemma node_store_ok_new : node_store_ok NewMemoryNodeStore.
Proof. by split. Qed.

Lemma node_at_id s id n : node_store_ok s → node_at s id = Some n → Node_ID n = id.
Proof.
  intros Hok Hn. unfold node_at in Hn. destruct (_ !! id) as [p|] eqn:Hp; [|done]. simpl in Hn.
  destruct (ok_nodes s Hok id p Hp) as (m & Hm & Hid & _). congruence.
Qed.

(** What an update keeps: identifier, host name and fingerprint. *)
Definition same_keys (n n' : Node) : Prop :=
  Node_ID n' = Node_ID n ∧ Node_FQDN n' = Node_FQDN n ∧
  Node_CertFingerprint n' = Node_CertFingerprint n.

Definition set_node (s : MemoryNodeStore) (p : loc) (n : Node) : MemoryNodeStore :=
  s <| MemoryNodeStore_heap := <[p := n]> (MemoryNodeStore_heap s) |>.

Lemma set_node_ok s p n n' :
  node_store_ok s → MemoryNodeStore_heap s !! p = Some n → same_keys n n' →
  node_store_ok (set_node s p n').
Proof.
  intros [Hf Hn Hq Hp Hs Hh] Hp0 (Hid & Hfq & Hfp).
  assert (∀ q m, MemoryNodeStore_heap s !! q = Some m →
    ∃ m', MemoryNodeStore_heap (set_node s p n') !! q = Some m' ∧ same_keys m m') as Hk.
  { intros q m Hm. simpl. rewrite lookup_insert. case_decide; subst.
    - exists n'. assert (m = n) as -> by congruence. done.
    - by exists m. }
  split; simpl; auto.
  - intros q Hq'. destruct (Hf q Hq') as [H1 H2]. split; [|done].
    rewrite lookup_insert_ne; [done|]. intros ->. congruence.
  - intros id q Hq'. destruct (Hn id q Hq') as (m & Hm & <- & Hm2).
    destruct (Hk q m Hm) as (m' & Hm' & Hi' & Hq2 & _). exists m'. by rewrite Hq2.
  - intros id q Hq'. destruct (Hq id q Hq') as (m & Hm & <- & Hm2).
    destruct (Hk q m Hm) as (m' & Hm' & Hi' & Hq2 & _). exists m'. by rewrite Hi'.
  - intros id q Hq'. destruct (Hp id q Hq') as (m & Hm & <- & Hm2).
    destruct (Hk q m Hm) as (m' & Hm' & Hi' & Hq2 & Hq3). exists m'. by rewrite Hi'.
Qed.

(** An update: the record changes, or the node is unknown. *)
Lemma update_node_run id f w s :
  node_store_ok s →
  match node_at s id with
  | Some n => ∃ p, MemoryNodeStore_nodes s !! id = Some p ∧
      MemoryNodeStore_heap s !! p = Some n ∧ Node_ID n = id ∧
      update_node id f w s = (Ok (), set_node s p (f (now_of w) n), tick w)
  | None => update_node id f w s = (Err ErrNodeNotFound, s, w)
  end.
Proof.
  intros Hok. unfold node_at, update_node, mbind, go_bind, get.
  destruct (MemoryNodeStore_nodes s !! id) as [p|] eqn:Hp; simpl; [|done].
  destruct (ok_nodes s Hok id p Hp) as (n & Hn & Hid & _). rewrite Hn. simpl.
  exists p. split_and!; [done..|]. unfold load. by rewrite Hn.
Qed.

Lemma NodeGetByID_run id w s :
  node_store_ok s →
  NodeGetByID id w s =
    (match node_at s id with Some n => Ok n | None => Err ErrNodeNotFound end, s, w).
Proof.
  intros Hok. unfold NodeGetByID, lookup_node, node_at, mbind, go_bind, get.
  destruct (MemoryNodeStore_nodes s !! id) as [p|] eqn:Hp; simpl; [|done].
  destruct (ok_nodes s Hok id p Hp) as (n & Hn & _). unfold load. by rewrite Hn.
Qed.

(** Which node an update leaves at each identifier. *)
Lemma node_at_set s id p n n' id' :
  node_store_ok s → MemoryNodeStore_nodes s !! id = Some p →
  MemoryNodeStore_heap s !! p = Some n →
  node_at (set_node s p n') id' = if decide (id' = id) then Some n' else node_at s id'.
Proof.
  intros Hok Hp Hn. unfold node_at. simpl. case_decide; subst.
  - rewrite Hp. simpl. by rewrite lookup_insert_eq.
  - destruct (MemoryNodeStore_nodes s !! id') as [q|] eqn:Hq; simpl; [|done].
    rewrite lookup_insert_ne; [done|]. intros <-.
    destruct (ok_nodes s Hok _ _ Hp) as (m & Hm & Hmid & _).
    destruct (ok_nodes s Hok _ _ Hq) as (m' & Hm' & Hmid' & _). congruence.
Qed.

(** ** Creation *)

Lemma NodeCreate_taken n w s :
  is_Some (MemoryNodeStore_nodesByFQDN s !! Node_FQDN n) →
  NodeCreate n w s = (Err ErrNodeAlreadyExists, s, w).
Proof. intros [p Hp]. unfold NodeCreate, mbind, go_bind, get. by rewrite Hp. Qed.

Lemma NodeCreate_run n w s :
  node_store_ok s → MemoryNodeStore_nodes s !! Node_ID n = None →
  MemoryNodeStore_nodesByFQDN s !! Node_FQDN n = None →
  ∃ s', NodeCreate n w s = (Ok (), s', w) ∧ node_store_ok s' ∧
    (∀ id, node_at s' id = if decide (id = Node_ID n) then Some n else node_at s id) ∧
    MemoryNodeStore_secrets s' = MemoryNodeStore_secrets s ∧
    MemoryNodeStore_secret_heap s' = MemoryNodeStore_secret_heap s ∧
    MemoryNodeStore_secretsByH s' = MemoryNodeStore_secretsByH s.
Proof.
  intros [Hf Hn Hq Hp Hs Hh] Hid Hfq. unfold NodeCreate, mbind, go_bind, get, put.
  rewrite Hfq. eexists. split; [reflexivity|]. set (l := MemoryNodeStore_next s) in *.
  assert (∀ p m, MemoryNodeStore_heap s !! p = Some m → p ≠ l) as Hne.
  { intros p m Hm ->. destruct (Hf l) as [Hl _]; [done|]. congruence. }
  assert (∀ id p, MemoryNodeStore_nodes s !! id = Some p → id ≠ Node_ID n ∧ p ≠ l) as Hnn.
  { intros id p H. destruct (Hn id p H) as (m & Hm & _). split; [congruence|]. by eapply Hne. }
  split; [|split].
  2:{ intros id. unfold node_at. destruct (decide (Node_CertFingerprint n ≠ "")); simpl;
        rewrite lookup_insert; case_decide as E; subst.
      all: try (rewrite decide_True by done; simpl; by rewrite lookup_insert_eq).
      all: rewrite decide_False by congruence.
      all: destruct (MemoryNodeStore_nodes s !! id) as [p|] eqn:Ep; simpl; [|done].
      all: apply Hnn in Ep as [_ ?]; by rewrite lookup_insert_ne. }
  2:{ by destruct (decide (Node_CertFingerprint n ≠ "")). }
  assert (∀ byfp, (∀ fp p, byfp !! fp = Some p →
      MemoryNodeStore_nodesByFP s !! fp = Some p ∨ fp = Node_CertFingerprint n ∧ p = l) →
    node_store_ok (mkMemoryNodeStore (<[l := n]> (MemoryNodeStore_heap s))
      (MemoryNodeStore_secret_heap s) (S l) (<[Node_ID n := l]> (MemoryNodeStore_nodes s))
      (<[Node_FQDN n := l]> (MemoryNodeStore_nodesByFQDN s)) byfp (MemoryNodeStore_secrets s)
      (MemoryNodeStore_secretsByH s))) as Hgen.
  { intros byfp Hby. split; simpl; auto.
    - intros p Hp'. destruct (Hf p) as [H1 H2]; [lia|]. split; [|done].
      rewrite lookup_insert_ne; [done|]. lia.
    - intros id p. rewrite lookup_insert. case_decide; subst.
      + intros [= <-]. exists n. rewrite !lookup_insert_eq. done.
      + intros Hi. destruct (Hn id p Hi) as (m & Hm & Hmi & Hmq). exists m.
        rewrite lookup_insert_ne by (intros ->; by eapply Hne).
        split_and!; [done..|]. rewrite lookup_insert_ne; [done|]. intros E.
        rewrite <-E in Hmq. congruence.
    - intros f p. rewrite lookup_insert. case_decide; subst.
      + intros [= <-]. exists n. rewrite !lookup_insert_eq. done.
      + intros Hi. destruct (Hq f p Hi) as (m & Hm & Hmi & Hmq). exists m.
        rewrite lookup_insert_ne by (intros ->; by eapply Hne).
        split_and!; [done..|]. rewrite lookup_insert_ne; [done|]. intros E.
        rewrite <-E in Hmq. congruence.
    - intros fp p Hi. destruct (Hby fp p Hi) as [Hi'|[-> ->]].
      + destruct (Hp fp p Hi') as (m & Hm & Hmi & Hmq). exists m.
        rewrite lookup_insert_ne by (intros ->; by eapply Hne).
        split_and!; [done..|]. rewrite lookup_insert_ne; [done|]. intros E.
        rewrite <-E in Hmq. congruence.
      + exists n. rewrite !lookup_insert_eq. done. }
  destruct (decide (Node_CertFingerprint n ≠ "")); apply Hgen; intros fp p; [|auto].
  simpl. rewrite lookup_insert. case_decide; subst; [|auto]. intros [= <-]. auto.
Qed.

Lemma SecretCreate_run e w s :
  node_store_ok s → MemoryNodeStore_secrets s !! EnrollmentSecret_ID e = None →
  MemoryNodeStore_secretsByH s !! EnrollmentSecret_SecretHash e = None →
  ∃ s', SecretCreate e w s = (Ok (), s', w) ∧ node_store_ok s' ∧
    (∀ id, node_at s' id = node_at s id) ∧
    ∀ id, secret_at s' id = if decide (id = EnrollmentSecret_ID e) then Some e else secret_at s id.
Proof.
  intros [Hf Hn Hq Hp Hs Hh] Hid Hhash. unfold SecretCreate, modify.
  eexists. split; [reflexivity|]. set (l := MemoryNodeStore_next s) in *.
  assert (∀ p m, MemoryNodeStore_secret_heap s !! p = Some m → p ≠ l) as Hne.
  { intros p m Hm ->. destruct (Hf l) as [_ Hl]; [done|]. congruence. }
  split; [|split; [done|]].
  2:{ intros id. unfold secret_at. simpl. rewrite lookup_insert. case_decide as E; subst.
      - rewrite decide_True by done. simpl. by rewrite lookup_insert_eq.
      - rewrite decide_False by congruence.
        destruct (MemoryNodeStore_secrets s !! id) as [p|] eqn:Ep; simpl; [|done].
        destruct (Hs id p Ep) as (m & Hm & _).
        rewrite lookup_insert_ne; [done|]. intros ->. by eapply Hne. }
  split; simpl; auto.
  - intros p Hp'. destruct (Hf p) as [H1 H2]; [lia|]. split; [done|].
    rewrite lookup_insert_ne; [done|]. lia.
  - intros id p. rewrite lookup_insert. case_decide; subst.
    + intros [= <-]. exists e. rewrite !lookup_insert_eq. done.
    + intros Hi. destruct (Hs id p Hi) as (m & Hm & Hmi & Hmq). exists m.
      rewrite lookup_insert_ne by (intros ->; by eapply Hne).
      split_and!; [done..|]. rewrite lookup_insert_ne; [done|]. congruence.
  - intros f p. rewrite lookup_insert. case_decide; subst.
    + intros [= <-]. exists e. rewrite !lookup_insert_eq. done.
    + intros Hi. destruct (Hh f p Hi) as (m & Hm & Hmi & Hmq). exists m.
      rewrite lookup_insert_ne by (intros ->; by eapply Hne).
      split_and!; [done..|]. rewrite lookup_insert_ne; [done|]. congruence.
Qed.

(** The token found by its hash is the one found by its identifier. *)
Lemma GetBySecretHash_run h w s :
  node_store_ok s →
  (MemoryNodeStore_secretsByH s !! h = None ∧
   GetBySecretHash h w s = (Err ErrEnrollmentTokenInvalid, s, w)) ∨
  ∃ e, secret_at s (EnrollmentSecret_ID e) = Some e ∧ EnrollmentSecret_SecretHash e = h ∧
    GetBySecretHash h w s = (Ok e, s, w).
Proof.
  intros Hok. unfold GetBySecretHash, mbind, go_bind, get.
  destruct (MemoryNodeStore_secretsByH s !! h) as [p|] eqn:Hp; [right|by left].
  destruct (ok_hash s Hok h p Hp) as (e & He & Hh & Hi). exists e.
  unfold secret_at, load. by rewrite Hi, He.
Qed.

Definition used_by (now : Z) (nodeID : string) (e : EnrollmentSecret) : EnrollmentSecret :=
  e <| EnrollmentSecret_UsedAt := Some now |> <| EnrollmentSecret_UsedByNodeID := Some nodeID |>.

(** A token is consumed once: marking succeeds exactly on an unused one. *)
Lemma MarkUsed_run id nodeID w s e :
  node_store_ok s → secret_at s id = Some e →
  (EnrollmentSecret_UsedAt e ≠ None ∧
   MarkUsed id nodeID w s = (Err ErrEnrollmentTokenUsed, s, w)) ∨
  (EnrollmentSecret_UsedAt e = None ∧ ∃ s',
   MarkUsed id nodeID w s = (Ok (), s', tick w) ∧ node_store_ok s' ∧
   (∀ id', node_at s' id' = node_at s id') ∧
   ∀ id', secret_at s' id' =
     if decide (id' = id) then Some (used_by (now_of w) nodeID e) else secret_at s id').
Proof.
  intros Hok He. unfold secret_at in He.
  destruct (MemoryNodeStore_secrets s !! id) as [p|] eqn:Hp; [|done]. simpl in He.
  unfold MarkUsed, mbind, go_bind, get. rewrite Hp. unfold load. rewrite He.
  unfold mret, go_ret, guard_err.
  destruct (decide (EnrollmentSecret_UsedAt e ≠ None)) as [Hu|Hu]; [by left|right].
  split; [by destruct (EnrollmentSecret_UsedAt e); [destruct Hu|]|].
  eexists. split; [reflexivity|]. destruct Hok as [Hf Hn Hq Hpp Hs Hh].
  assert (∀ q m, MemoryNodeStore_secret_heap s !! q = Some m →
    ∃ m', <[p := used_by (now_of w) nodeID e]> (MemoryNodeStore_secret_heap s) !! q = Some m' ∧
      EnrollmentSecret_ID m' = EnrollmentSecret_ID m ∧
      EnrollmentSecret_SecretHash m' = EnrollmentSecret_SecretHash m) as Hk.
  { intros q m Hm. rewrite lookup_insert. case_decide; subst; [|by exists m].
    eexists. split; [reflexivity|]. assert (m = e) as -> by congruence. done. }
  split; [|split; [done|]].
  - split; simpl; auto.
    + intros q Hq'. destruct (Hf q Hq') as [H1 H2]. split; [done|].
      rewrite lookup_insert_ne; [done|]. intros ->. congruence.
    + intros i q Hi. destruct (Hs i q Hi) as (m & Hm & <- & Hmh).
      destruct (Hk q m Hm) as (m' & Hm' & Hi' & Hh'). exists m'. unfold used_by in *.
      by rewrite Hh'.
    + intros i q Hi. destruct (Hh i q Hi) as (m & Hm & <- & Hmh).
      destruct (Hk q m Hm) as (m' & Hm' & Hi' & Hh'). exists m'. unfold used_by in *.
      by rewrite Hi'.
  - intros id'. unfold secret_at. simpl. case_decide; subst.
    + rewrite Hp. simpl. by rewrite lookup_insert_eq.
    + destruct (MemoryNodeStore_secrets s !! id') as [q|] eqn:Hq'; simpl; [|done].
      rewrite lookup_insert_ne; [done|]. intros <-.
      destruct (Hs _ _ Hp) as (m & Hm & Hmid & _).
      destruct (Hs _ _ Hq') as (m' & Hm' & Hmid' & _). congruence.
Qed.

(** ** What every call keeps *)

Definition revoked (n : Node) : Prop := Node_Status n = StatusRevoked.
Definition consumed (e : EnrollmentSecret) : Prop := EnrollmentSecret_UsedAt e ≠ None.

(** [s'] comes after [s]: no node is lost or renamed, a revoked node stays
    revoked, a consumed token stays consumed. *)
Record evolves (s s' : MemoryNodeStore) : Prop := {
  ev_ok : node_store_ok s';
  ev_nodes : ∀ id n, node_at s id = Some n →
    ∃ n', node_at s' id = Some n' ∧ same_keys n n' ∧ (revoked n → revoked n');
  ev_secrets : ∀ id e, secret_at s id = Some e →
    ∃ e', secret_at s' id = Some e' ∧
      EnrollmentSecret_SecretHash e' = EnrollmentSecret_SecretHash e ∧
      (consumed e → consumed e')
}.

Lemma evolves_refl s : node_store_ok s → evolves s s.
Proof. intros Hok. split; [done| |]; intros id x Hx; exists x; done. Qed.

Lemma evolves_trans s1 s2 s3 : evolves s1 s2 → evolves s2 s3 → evolves s1 s3.
Proof.
  intros [_ Hn1 He1] [Hok Hn2 He2]. split; [done| |].
  - intros id n Hn. destruct (Hn1 id n Hn) as (n2 & H2 & (Hk1 & Hk2 & Hk3) & Hr).
    destruct (Hn2 id n2 H2) as (n3 & H3 & (Hk4 & Hk5 & Hk6) & Hr2). exists n3.
    unfold same_keys. split_and!; auto; congruence.
  - intros id e He. destruct (He1 id e He) as (e2 & H2 & Hh & Hc).
    destruct (He2 id e2 H2) as (e3 & H3 & Hh2 & Hc2). exists e3. split_and!; auto. congruence.
Qed.

Lemma evolves_set s id p n n' :
  node_store_ok s → MemoryNodeStore_nodes s !! id = Some p →
  MemoryNodeStore_heap s !! p = Some n → same_keys n n' → (revoked n → revoked n') →
  evolves s (set_node s p n').
Proof.
  intros Hok Hp Hn Hk Hr. split.
  - by eapply set_node_ok.
  - intros id' m Hm. rewrite (node_at_set s id p n n' id') by done. case_decide; subst.
    + exists n'. assert (m = n) as ->; [|done]. unfold node_at in Hm. rewrite Hp in Hm.
      simpl in Hm. congruence.
    + by exists m.
  - intros i e He. by exists e.
Qed.

(** The update methods that the callers guard by the status. *)
Lemma update_evolves id f w s :
  node_store_ok s → (∀ now n, same_keys n (f now n)) →
  (∀ n, node_at s id = Some n → revoked n → revoked (f (now_of w) n)) →
  wp (update_node id f) (λ _ s' _, evolves s s') w s.
Proof.
  intros Hok Hk Hr. pose proof (update_node_run id f w s Hok) as Hrun.
  destruct (node_at s id) as [n|] eqn:En.
  - destruct Hrun as (p & Hp & Hn & _ & Hrun).
    apply (proj2 (wp_run _ _ _ _ _ _ _ Hrun)). eapply evolves_set; eauto.
  - apply (proj2 (wp_run _ _ _ _ _ _ _ Hrun)). by apply evolves_refl.
Qed.

Lemma same_keys_refl n : same_keys n n.
Proof. done. Qed.
#[export] Hint Resolve evolves_refl same_keys_refl : go.

(** ** Listing *)

Lemma load_all_run {V} (h : gmap loc V) es w s :
  (∀ k p, (k, p) ∈ es → is_Some (h !! p)) →
  load_all h es w s = (Ok (omap (λ kp, h !! kp.2) es), s, w).
Proof.
  induction es as [|[k p] es IH]; intros Hes; [done|]. cbn [load_all omap list_omap snd].
  destruct (Hes k p) as [v Hv]; [by left|]. unfold mbind, go_bind, load. rewrite Hv. simpl.
  rewrite IH; [done|]. intros k' p' Hin. apply (Hes k'). by right.
Qed.

(** The snapshot: every node once, in some order. *)
Lemma NodeList_run w s :
  node_store_ok s → World_ok w →
  ∃ ns, NodeList w s = (Ok ns, s, next_range w) ∧ NoDup (Node_ID <$> ns) ∧
    ∀ n, n ∈ ns ↔ node_at s (Node_ID n) = Some n.
Proof.
  intros Hok Hw. unfold NodeList. unfold mbind, go_bind, get, range_map.
  set (es := entries _ _).
  assert (∀ k p, (k, p) ∈ es ↔ MemoryNodeStore_nodes s !! k = Some p) as Hes
    by (intros k p; by apply elem_of_entries).
  rewrite load_all_run.
  2:{ intros k p Hin%Hes. destruct (ok_nodes s Hok k p Hin) as (n & -> & _). eauto. }
  eexists. split; [reflexivity|]. split.
  - assert (NoDup es.*1) as Hnd.
    { subst es. rewrite (entries_perm _ _ (Hw _)). apply NoDup_fst_map_to_list. }
    assert (∀ l, (∀ k p, (k, p) ∈ l → MemoryNodeStore_nodes s !! k = Some p) →
      Node_ID <$> omap (λ kp : string * loc, MemoryNodeStore_heap s !! kp.2) l = l.*1) as Heq.
    { induction l as [|[k p] l IH]; intros Hl; [done|].
      destruct (ok_nodes s Hok k p) as (n & Hn & Hid & _); [apply Hl; by left|].
      cbn [omap list_omap snd]. rewrite Hn. rewrite !fmap_cons. cbn [fst]. f_equal; [done|].
      apply IH. intros k' p' Hin. apply Hl. by right. }
    rewrite Heq; [done|]. intros k p. by rewrite Hes.
  - intros n. rewrite list_elem_of_omap. split.
    + intros ([k p] & Hin%Hes & Hn). destruct (ok_nodes s Hok k p Hin) as (m & Hm & Hid & _).
      simpl in Hn. assert (m = n) as -> by congruence. unfold node_at. by rewrite Hid, Hin.
    + unfold node_at. destruct (MemoryNodeStore_nodes s !! Node_ID n) as [p|] eqn:Hp; [|done].
      simpl. intros Hn. exists (Node_ID n, p). split; [by apply Hes|done].
Qed.

Lemma update_node_effect id f w s n :
  node_store_ok s → node_at s id = Some n → same_keys n (f (now_of w) n) →
  ∃ s', update_node id f w s = (Ok (), s', tick w) ∧ node_store_ok s' ∧
    ∀ id', node_at s' id' = if decide (id' = id) then Some (f (now_of w) n) else node_at s id'.
Proof.
  intros Hok Hn Hk. pose proof (update_node_run id f w s Hok) as Hrun. rewrite Hn in Hrun.
  destruct Hrun as (p & Hp & Hh & _ & ->). eexists. split; [done|]. split.
  - by eapply set_node_ok.
  - intros id'. by apply (node_at_set s id p n).
Qed.
