(* ===== verification/Commands.v ===== *)
(** * Commands to hypervisor nodes

    The typed instructions of [internal/domain/node/node.go] and the interface
    through which the storage and compute services reach the nodes: the
    services are proved against [NodeGateway], [NodeService] implements it. *)

From S2P Require Import Prelude Node.

Definition ErrCommandRejected := ErrNew "node" "command rejected by node agent".

Record Command : Type := mkCommand {
  Command_CorrelationID : string;
  Command_Type : string;
  Command_Payload : Prelude.Details;
  Command_CreatedAt : Z
}.
#[export] Instance Command_eq_dec : EqDecision Command.
Proof. solve_decision. Defined.

Definition eta_Command (r : Command) : Command :=
  mkCommand (Command_CorrelationID r) (Command_Type r) (Command_Payload r)
    (Command_CreatedAt r).
#[export] Instance set_Command_CorrelationID : Setter Command_CorrelationID := ltac:(setter eta_Command Command_CorrelationID).
#[export] Instance set_Command_CreatedAt : Setter Command_CreatedAt := ltac:(setter eta_Command Command_CreatedAt).

Record CommandResult : Type := mkCommandResult {
  CommandResult_CorrelationID : string;
  CommandResult_Success : bool;
  CommandResult_ErrorMessage : string;
  CommandResult_Payload : option Prelude.Details;
  CommandResult_CompletedAt : Z
}.
#[export] Instance CommandResult_eq_dec : EqDecision CommandResult.
Proof. solve_decision. Defined.

(** A command as the services build it: the transport stamps the rest. *)
Definition new_command (typ : string) (payload : list (string * any)) : Command :=
  mkCommand "" typ (details payload) zero_time.

(** What the node module offers to the services that place work on nodes: the
    repository of the nodes and the dispatch of commands; [G] is the state
    behind both. *)
Class NodeGateway (G : Type) := {
  gateway_nodes : G → MemoryNodeStore;
  gateway_put : MemoryNodeStore → G → G;
  SendCommand_ : string → Command → go G CommandResult
}.

(** Sending a command does not touch the node records. *)
Class NodeGatewayLaws (G : Type) `{NodeGateway G} := {
  SendCommand_nodes : ∀ id cmd w g,
    gateway_nodes (exec (SendCommand_ id cmd) w g) = gateway_nodes g;
  gateway_get_put : ∀ s g, gateway_nodes (gateway_put s g) = s
}.

(** A read of the node repository by a service. *)
Definition read_nodes `{NodeGateway G} {X} (m : go MemoryNodeStore X) : go G X :=
  zoom gateway_nodes (λ _ g, g) m.

(** A write to it. *)
Definition write_nodes `{NodeGateway G} {X} (m : go MemoryNodeStore X) : go G X :=
  zoom gateway_nodes gateway_put m.

Lemma quiet_read_nodes `{NodeGateway G} {X} (m : go MemoryNodeStore X) :
  quiet m → quiet (read_nodes (G := G) m).
Proof.
  intros Hm w g. specialize (Hm w (gateway_nodes g)). unfold exec, world, read_nodes, zoom in *.
  destruct (m w (gateway_nodes g)) as [[x s] w']. by destruct Hm.
Qed.

Lemma quiet_load {V} (h : gmap loc V) p : quiet (load h p).
Proof. unfold load. quiet. Qed.
Lemma quiet_NodeGetByID id : quiet (NodeGetByID id).
Proof. unfold NodeGetByID, lookup_node, load. quiet. Qed.
Lemma quiet_load_all {V} (h : gmap loc V) es : quiet (load_all h es).
Proof.
  induction es as [|[k p] es IH]; cbn [load_all]; [auto with go|].
  apply quiet_bind; [apply quiet_load|]. intros v. apply quiet_bind; [done|]. quiet.
Qed.
Lemma quiet_NodeList : quiet NodeList.
Proof.
  unfold NodeList. repeat (apply quiet_bind; [auto with go|intros ?]). apply quiet_load_all.
Qed.
#[export] Hint Resolve quiet_read_nodes quiet_NodeGetByID quiet_NodeList : go.

(** [v, ok := payload[key].(string)]. *)
Definition payload_string (p : option Prelude.Details) (key : string) : option string :=
  match p ≫= λ m, m !! key with
  | Some (AnyStr v) => Some v
  | _ => None
  end.

(** A gateway that records what it sends and answers every command in the
    same way, for evaluating the services. *)
Record Loopback := mkLoopback {
  lb_nodes : MemoryNodeStore;
  lb_reply : result CommandResult;
  lb_sent : list (string * Command)
}.

#[export] Instance loopback_gateway : NodeGateway Loopback := {
  gateway_nodes := lb_nodes;
  gateway_put := λ s g, mkLoopback s (lb_reply g) (lb_sent g);
  SendCommand_ := λ id cmd w g,
    (lb_reply g, mkLoopback (lb_nodes g) (lb_reply g) (lb_sent g ++ [(id, cmd)]), w)
}.

#[export] Instance loopback_laws : NodeGatewayLaws Loopback.
Proof. by split. Qed.
