(* ===== verification/NodeService.v ===== *)
(** * Node enrollment, authentication and connections

    [internal/app/node/service.go] and the connection table of
    [internal/app/node/connection_manager.go]. Certificates are issued and
    checked by the port [PKIManager], which the crypto packages implement. *)

From S2P Require Import Prelude AuditTrail Node Commands.

(** The port [node.PKIManager]: certificates are opaque texts, signing may
    read the clock and a random source. *)
Class PKIManager := {
  SignNodeCSR : World → string → string → string → Z → result (string * string);
  VerifyCertificate : string → result (string * string)
}.

(** A certificate the manager signed verifies, with the identifier and the
    fingerprint it was issued for. *)
Class PKILaws `{PKIManager} := {
  verify_signed : ∀ w csr id fqdn ttl cert fp,
    SignNodeCSR w csr id fqdn ttl = Ok (cert, fp) → VerifyCertificate cert = Ok (id, fp)
}.

(** The stream of an agent: [Send], and the reply that arrives for a
    correlation identifier before the context ends. *)
Class AgentLink := {
  stream_Send : World → string → Command → result ();
  await_reply : World → string → result CommandResult
}.

Record ActiveConnection : Type := mkActiveConnection {
  ActiveConnection_NodeID : string;
  ActiveConnection_ConnectedAt : Z;
  ActiveConnection_Sender : string   (* the stream the agent opened *)
}.
#[export] Instance ActiveConnection_eq_dec : EqDecision ActiveConnection.
Proof. solve_decision. Defined.

Section service.
Context {A : Type} `{!AuditRepository A, !PKIManager, !Digest, !AgentLink}.

Record NodeState := mkNodeState {
  ns_store : MemoryNodeStore;
  ns_conns : gmap string ActiveConnection;
  ns_audit : A
}.

Definition on_nodes {X} : go MemoryNodeStore X → go NodeState X :=
  zoom ns_store (λ x s, mkNodeState x (ns_conns s) (ns_audit s)).
Definition on_conns {X} : go (gmap string ActiveConnection) X → go NodeState X :=
  zoom ns_conns (λ x s, mkNodeState (ns_store s) x (ns_audit s)).
Definition on_trail {X} : go A X → go NodeState X :=
  zoom ns_audit (λ x s, mkNodeState (ns_store s) (ns_conns s) x).

(** The audit entries of this service; [present] is [s.auditRepo != nil]. *)
Definition audit_node (present : bool) (actor : option string) (action rtype : string)
    (rid : string) (code : Z) (det : option Prelude.Details) : go NodeState () :=
  if present then
    now ← time_Now;
    ignore (on_trail (Record_
      (mkAuditLog 0 actor "" "" action rtype (Some rid) "" code det "" "" "" now)))
  else mret ().

(** ** The connection table *)

Definition RegisterConnection (nodeID sender : string) : go NodeState () :=
  now ← time_Now;
  on_conns (modify (λ c, <[nodeID := mkActiveConnection nodeID now sender]> c)).

Definition UnregisterConnection (nodeID : string) : go NodeState () :=
  on_conns (modify (λ c, delete nodeID c)).

Definition GetConnection (nodeID : string) : go NodeState (option string) :=
  s ← get; mret (ActiveConnection_Sender <$> (ns_conns s !! nodeID)).

Definition ListConnectedNodeIDs : go NodeState (list string) :=
  s ← get;
  es ← range_map (ns_conns s);
  mret es.*1.

(** The whole exchange of [DispatchCommand]: the command is stamped, sent on
    the stream of the node, and the call waits for the reply with its
    correlation identifier. The waiter of [pendingCmds] lives for the length
    of the call; what [HandleCommandResult] delivers to it, or the end of the
    context, is the answer of the port. *)
Definition DispatchCommand (nodeID : string) (cmd : Command) : go NodeState CommandResult :=
  id ← (if decide (Command_CorrelationID cmd = "") then uuid_NewString
        else mret (Command_CorrelationID cmd));
  at_ ← (if decide (IsZero (Command_CreatedAt cmd)) then time_Now
         else mret (Command_CreatedAt cmd));
  let cmd := cmd <| Command_CorrelationID := id |> <| Command_CreatedAt := at_ |> in
  s ← get;
  match ns_conns s !! nodeID with
  | None => fail ErrNodeOffline
  | Some c =>
      sent ← reading (λ w, stream_Send w (ActiveConnection_Sender c) cmd);
      wrap_err (λ err, Wrapf ("failed to transmit command to node: " +:+ Error err) err)
        (lift sent) ;;
      reply ← reading (λ w, await_reply w id);
      res ← lift reply;
      if CommandResult_Success res then mret res
      else fail (Wrapf (Error ErrCommandRejected +:+ ": " +:+ CommandResult_ErrorMessage res)
                   ErrCommandRejected)
  end.

(** ** The service *)

Definition hashToken (token : string) : string := sha256_hex token.

(** [rawBytes] are the hexadecimal digits of the 32 random bytes read, or the
    error of the random source. *)
Definition CreateEnrollmentToken (rawBytes : result string) (locationID namePattern : string)
    (ttl : Z) (createdBy : option string) : go NodeState (string * EnrollmentSecret) :=
  let ttl := if decide (ttl = 0) then 1 * Hour else ttl in
  raw ← wrap_err (λ err, Wrapf ("failed to generate random token: " +:+ Error err) err)
          (lift rawBytes);
  let plaintextToken := "aur_enroll_" +:+ raw in
  id ← uuid_NewString;
  t1 ← time_Now;
  t2 ← time_Now;
  let secret := mkEnrollmentSecret id locationID (hashToken plaintextToken) namePattern
                  (time_Add t1 ttl) None None createdBy t2 in
  wrap_err (λ err, Wrapf ("failed to save enrollment secret: " +:+ Error err) err)
    (on_nodes (SecretCreate secret)) ;;
  audit_node true createdBy "node.enrollment_token.created" "enrollment_secret" id 201
    (Some (details [("locationId", AnyStr locationID);
                    ("expiresAt", AnyInt (EnrollmentSecret_ExpiresAt secret))])) ;;
  mret (plaintextToken, secret).

(** The identifier and the certificate of the new node. *)
Definition EnrollNode (tokenPlaintext nodeName fqdn csrPEM : string)
    (capabilities : option Prelude.Details) : go NodeState (string * string) :=
  secret ← wrap_err (λ _, ErrEnrollmentTokenInvalid)
             (on_nodes (GetBySecretHash (hashToken tokenPlaintext)));
  valid ← EnrollmentSecret_IsValid secret;
  if negb valid then
    match EnrollmentSecret_UsedAt secret with
    | Some _ => fail ErrEnrollmentTokenUsed
    | None => fail ErrEnrollmentTokenExpired
    end
  else
    nodeID ← uuid_NewString;
    signed ← reading (λ w, SignNodeCSR w csrPEM nodeID fqdn (90 * 24 * Hour));
    match signed with
    | Err err => fail (Wrapf (Error ErrInvalidCSR +:+ ": " +:+ Error err) ErrInvalidCSR)
    | Ok (certPEM, fingerprint) =>
        t1 ← time_Now;
        t2 ← time_Now;
        wrap_err (λ err, Wrapf ("failed to register node record: " +:+ Error err) err)
          (on_nodes (NodeCreate (mkNode nodeID (EnrollmentSecret_LocationID secret) nodeName fqdn
             StatusEnrolling fingerprint 0 0 0 (of_int 0) (of_int 0) capabilities false false ""
             None None t1 t2))) ;;
        wrap_err (λ err, Wrapf ("failed to mark token as used: " +:+ Error err) err)
          (on_nodes (MarkUsed (EnrollmentSecret_ID secret) nodeID)) ;;
        audit_node true None "node.enrolled" "node" nodeID 201
          (Some (details [("name", AnyStr nodeName); ("fqdn", AnyStr fqdn);
                          ("fingerprint", AnyStr fingerprint)])) ;;
        mret (nodeID, certPEM)
    end.

Definition AuthenticateNodeCertificate (certPEM : string) : go NodeState Node :=
  '(nodeID, fingerprint) ← wrap_err
     (λ err, Wrapf ("invalid client certificate: " +:+ Error err) err)
     (lift (VerifyCertificate certPEM));
  n ← wrap_err (λ _, ErrNodeNotFound) (on_nodes (NodeGetByID nodeID));
  if decide (Node_Status n = StatusRevoked) then fail ErrNodeRevoked
  else if decide (Node_CertFingerprint n ≠ fingerprint) then fail ErrCertMismatch
  else mret n.

(** [n, err := GetByID; if n.Status == StatusRevoked { return ErrNodeRevoked }]. *)
Definition get_unrevoked (nodeID : string) : go NodeState Node :=
  n ← on_nodes (NodeGetByID nodeID);
  if decide (Node_Status n = StatusRevoked) then fail ErrNodeRevoked else mret n.

Definition OnStreamConnected (has_audit : bool) (nodeID sender : string) : go NodeState () :=
  n ← get_unrevoked nodeID;
  RegisterConnection nodeID sender ;;
  let newStatus := if Node_MaintenanceMode n then StatusMaintenance else StatusOnline in
  ignore (on_nodes (UpdateStatus nodeID newStatus)) ;;
  audit_node has_audit None "node.gateway.connected" "node" nodeID 200 None.

Definition OnStreamDisconnected (has_audit : bool) (nodeID : string) : go NodeState () :=
  UnregisterConnection nodeID ;;
  n ← try (on_nodes (NodeGetByID nodeID));
  match n with
  | Ok n => if decide (Node_Status n ≠ StatusRevoked)
            then ignore (on_nodes (UpdateStatus nodeID StatusOffline)) else mret ()
  | Err _ => mret ()
  end ;;
  audit_node has_audit None "node.gateway.disconnected" "node" nodeID 200 None.

Definition ProcessHeartbeat (nodeID : string) (caps : option Prelude.Details) : go NodeState () :=
  get_unrevoked nodeID ;;
  now ← time_Now;
  on_nodes (UpdateHeartbeat nodeID now caps).

Definition SendCommand (nodeID : string) (cmd : Command) : go NodeState CommandResult :=
  get_unrevoked nodeID ;;
  DispatchCommand nodeID cmd.

Definition ListNodes : go NodeState (list Node) := on_nodes NodeList.
Definition GetNode (nodeID : string) : go NodeState Node := on_nodes (NodeGetByID nodeID).

Definition ToggleMaintenance (nodeID : string) (inMaintenance : bool) : go NodeState () :=
  get_unrevoked nodeID ;;
  on_nodes (UpdateMaintenanceMode nodeID inMaintenance) ;;
  audit_node true None "node.maintenance.updated" "node" nodeID 200
    (Some (details [("maintenanceMode", AnyBool inMaintenance)])).

Definition ToggleDrainMode (nodeID : string) (drain : bool) : go NodeState () :=
  get_unrevoked nodeID ;;
  on_nodes (UpdateDrainMode nodeID drain) ;;
  audit_node true None "node.drain.updated" "node" nodeID 200
    (Some (details [("drainMode", AnyBool drain)])).

Definition RevokeNode (nodeID : string) : go NodeState () :=
  on_nodes (Revoke nodeID) ;;
  UnregisterConnection nodeID ;;
  audit_node true None "node.revoked" "node" nodeID 200 None.
End service.

Arguments NodeState : clear implicits.

(** ** Histories of calls *)

Section histories.
Context {A : Type} `{!AuditRepository A, !PKIManager, !Digest, !AgentLink}.
Implicit Types (st : NodeState A).

(** A revoked node has no connection. *)
Definition good st : Prop :=
  node_store_ok (ns_store st) ∧
  ∀ id n, node_at (ns_store st) id = Some n → revoked n → ns_conns st !! id = None.

Definition later st st' : Prop := evolves (ns_store st) (ns_store st') ∧ good st'.

Lemma later_refl st : good st → later st st.
Proof. intros [Hok Hc]. split; [by apply evolves_refl|by split]. Qed.

Lemma wp_audit_node b actor action rtype rid code det (Q : result () → NodeState A → World → Prop)
    w st :
  (∀ a' w', Q (Ok ()) (mkNodeState (ns_store st) (ns_conns st) a') w') →
  wp (audit_node b actor action rtype rid code det) Q w st.
Proof.
  intros HQ. unfold audit_node. destruct b; wp_step.
  - unfold on_trail. wp_step. unfold wp. destruct (Record_ _ _ _) as [[x a'] w']. apply HQ.
  - destruct st as [s c a]. apply HQ.
Qed.

(** A closing audit entry changes nothing that matters. *)
Lemma later_audit b actor action rtype rid code det w st0 st :
  later st0 st →
  wp (audit_node b actor action rtype rid code det) (λ _ st' _, later st0 st') w st.
Proof. intros Hl. by apply wp_audit_node. Qed.

Lemma wp_get_unrevoked nodeID (Q : result Node → NodeState A → World → Prop) w st :
  node_store_ok (ns_store st) →
  (node_at (ns_store st) nodeID = None → Q (Err ErrNodeNotFound) st w) →
  (∀ n, node_at (ns_store st) nodeID = Some n → revoked n → Q (Err ErrNodeRevoked) st w) →
  (∀ n, node_at (ns_store st) nodeID = Some n → ¬ revoked n → Q (Ok n) st w) →
  wp (get_unrevoked nodeID) Q w st.
Proof.
  intros Hok Hnone Hrev Hlive. unfold get_unrevoked, on_nodes. wp_step.
  rewrite (wp_run _ _ _ _ _ _ _ (NodeGetByID_run nodeID w (ns_store st) Hok)).
  destruct st as [s c a]. simpl in *.
  destruct (node_at s nodeID) as [n|]; [|by apply Hnone].
  destruct (decide (Node_Status n = StatusRevoked)) as [E|E]; wp_step;
    [by eapply Hrev|by apply Hlive].
Qed.

(** An update of the store that keeps revoked nodes revoked and adds none. *)
Lemma later_update st id p n n' :
  good st → MemoryNodeStore_nodes (ns_store st) !! id = Some p →
  MemoryNodeStore_heap (ns_store st) !! p = Some n → same_keys n n' →
  (revoked n ↔ revoked n') →
  later st (mkNodeState (set_node (ns_store st) p n') (ns_conns st) (ns_audit st)).
Proof.
  intros [Hok Hc] Hp Hn Hk Hr. split; [eapply evolves_set; eauto; tauto|]. split; simpl.
  - by eapply set_node_ok.
  - intros id' m. rewrite (node_at_set _ id p n n' id') by done.
    case_decide; subst; [|by apply Hc]. intros [= <-] Hm. apply (Hc id n); [|tauto].
    unfold node_at. by rewrite Hp.
Qed.

Lemma later_update_node st id f w :
  good st → (∀ now n, same_keys n (f now n)) →
  (∀ n now, node_at (ns_store st) id = Some n → revoked n ↔ revoked (f now n)) →
  wp (on_nodes (update_node id f)) (λ _ st' _, later st st' ∧ ns_conns st' = ns_conns st) w st.
Proof.
  intros Hg Hk Hr. unfold on_nodes. wp_step.
  pose proof (update_node_run id f w (ns_store st) (proj1 Hg)) as Hrun.
  destruct (node_at (ns_store st) id) as [n|] eqn:En.
  - destruct Hrun as (p & Hp & Hn & _ & Hrun).
    apply (proj2 (wp_run _ _ _ _ _ _ _ Hrun)). split; [|done].
    eapply later_update; eauto.
  - apply (proj2 (wp_run _ _ _ _ _ _ _ Hrun)). split; [|done]. destruct st. by apply later_refl.
Qed.

Lemma later_mono {X} (m : go (NodeState A) X) st st1 w :
  later st st1 → (good st1 → wp m (λ _ st' _, later st1 st') w st1) →
  wp m (λ _ st' _, later st st') w st1.
Proof.
  intros [Hev Hg] Hm. eapply wp_mono; [by apply Hm|]. intros r st' w' [Hev' Hg'].
  split; [by eapply evolves_trans|done].
Qed.

(** A stream is registered for every live node, and for no other. *)
Lemma OnStreamConnected_effect b nodeID sender w st :
  good st → wp (OnStreamConnected b nodeID sender) (λ r st' _, later st st' ∧
    ∀ n, node_at (ns_store st) nodeID = Some n → ¬ revoked n →
      r = Ok () ∧
      ActiveConnection_Sender <$> (ns_conns st' !! nodeID) = Some sender) w st.
Proof.
  intros Hg. unfold OnStreamConnected. wp_step. apply wp_get_unrevoked; [apply Hg|..].
  { intros Hn. split; [by apply later_refl|]. congruence. }
  { intros n Hn Hr. split; [by apply later_refl|]. intros. congruence. }
  intros n Hn Hr. unfold RegisterConnection, on_conns. wp_step.
  set (st1 := mkNodeState _ _ _).
  assert (later st st1) as Hl.
  { split; [apply evolves_refl, Hg|]. split; [apply Hg|]. intros id m Hm Hrev. simpl in *.
    rewrite lookup_insert_ne; [by eapply Hg|]. intros <-. congruence. }
  eapply wp_mono.
  - apply (later_update_node st1); [apply Hl|done|].
    intros m now Hm. assert (m = n) as -> by (simpl in Hm; congruence). unfold revoked in *.
    destruct (Node_MaintenanceMode n); simpl; split; done.
  - intros r st2 w2 [Hl2 Hc]. apply wp_audit_node. intros a' w'. split.
    + split; [eapply evolves_trans; [apply Hl|apply Hl2]|apply Hl2].
    + intros _ _ _. split; [done|]. simpl. rewrite Hc. subst st1. simpl.
      by rewrite lookup_insert_eq.
Qed.

Lemma OnStreamConnected_later b nodeID sender w st :
  good st → wp (OnStreamConnected b nodeID sender) (λ _ st' _, later st st') w st.
Proof.
  intros Hg. eapply wp_mono; [by apply OnStreamConnected_effect|]. by intros r st' w' [Hl _].
Qed.

Lemma OnStreamDisconnected_later b nodeID w st :
  good st → wp (OnStreamDisconnected b nodeID) (λ _ st' _, later st st') w st.
Proof.
  intros Hg. unfold OnStreamDisconnected, UnregisterConnection, on_conns. wp_step.
  set (st1 := mkNodeState _ _ _).
  assert (later st st1) as Hl.
  { split; [apply evolves_refl, Hg|]. split; [apply Hg|]. intros id m Hm Hrev. simpl in *.
    rewrite lookup_delete. case_decide; [done|by eapply Hg]. }
  change (wp (on_nodes (NodeGetByID nodeID)) ?Q w st1) with (wp (on_nodes (NodeGetByID nodeID)) Q w st1).
  unfold on_nodes at 1. wp_step.
  rewrite (wp_run _ _ _ _ _ _ _ (NodeGetByID_run nodeID w (ns_store st1) (proj1 (proj2 Hl)))).
  change (mkNodeState (ns_store st1) (ns_conns st1) (ns_audit st1)) with st1.
  destruct (node_at (ns_store st1) nodeID) as [n|] eqn:En; wp_step; [|by apply later_audit].
  destruct (decide (Node_Status n ≠ StatusRevoked)) as [Hr|Hr]; wp_step; [|by apply later_audit].
  eapply wp_mono.
  - apply (later_update_node st1); [apply Hl|done|].
    intros m now Hm. assert (m = n) as -> by congruence. unfold revoked in *. simpl. split; done.
  - intros r st2 w2 [Hl2 _]. apply later_audit.
    split; [eapply evolves_trans; [apply Hl|apply Hl2]|apply Hl2].
Qed.

(** The guarded updates: heartbeat, maintenance, drain. *)
Lemma guarded_later nodeID f w st :
  good st → (∀ now n, same_keys n (f now n)) → (∀ now n, ¬ revoked n → ¬ revoked (f now n)) →
  wp (get_unrevoked nodeID ;; on_nodes (update_node nodeID f)) (λ _ st' _, later st st') w st.
Proof.
  intros Hg Hk Hr. wp_step. apply wp_get_unrevoked; [apply Hg|..].
  1,2: intros; by apply later_refl.
  intros n Hn Hnr. eapply wp_mono.
  - apply (later_update_node st); [done|done|]. intros m now Hm.
    assert (m = n) as -> by congruence. specialize (Hr now n Hnr). tauto.
  - by intros r st' w' [? _].
Qed.

Lemma RevokeNode_later nodeID w st :
  good st → wp (RevokeNode nodeID) (λ _ st' _, later st st') w st.
Proof.
  intros Hg. unfold RevokeNode, on_nodes. wp_step.
  pose proof (update_node_run nodeID (λ now n,
    n <| Node_Status := StatusRevoked |> <| Node_UpdatedAt := now |>) w (ns_store st) (proj1 Hg))
    as Hrun. unfold Revoke.
  destruct (node_at (ns_store st) nodeID) as [n|] eqn:En.
  - destruct Hrun as (p & Hp & Hn & _ & Hrun). apply (proj2 (wp_run _ _ _ _ _ _ _ Hrun)).
    unfold UnregisterConnection, on_conns. wp_step. apply later_audit.
    split; [eapply evolves_set; [apply Hg|..]; by eauto|]. split; simpl.
    + eapply set_node_ok; [apply Hg|done|done].
    + intros id m. rewrite (node_at_set _ nodeID p n) by (done || apply Hg).
      rewrite lookup_delete. intros Hm Hrev. destruct (decide (id = nodeID)) as [->|Hne].
      * by rewrite decide_True.
      * rewrite decide_False by congruence. by eapply Hg.
  - apply (proj2 (wp_run _ _ _ _ _ _ _ Hrun)). destruct st. by apply later_refl.
Qed.

(** ** Enrollment *)

(** The state after an enrollment with token [e] in which [id] was added. *)
Definition enrolled st st' (e : EnrollmentSecret) (id fqdn fp : string) : Prop :=
  later st st' ∧ ns_conns st' = ns_conns st ∧
  (∃ n, node_at (ns_store st') id = Some n ∧ Node_Status n = StatusEnrolling ∧
        Node_FQDN n = fqdn ∧ Node_CertFingerprint n = fp) ∧
  (∀ id', id' ≠ id → node_at (ns_store st') id' = node_at (ns_store st) id') ∧
  ∃ now, secret_at (ns_store st') (EnrollmentSecret_ID e) = Some (used_by now id e).

Lemma evolves_create s s' n :
  node_store_ok s' → node_at s (Node_ID n) = None →
  (∀ id, node_at s' id = if decide (id = Node_ID n) then Some n else node_at s id) →
  MemoryNodeStore_secrets s' = MemoryNodeStore_secrets s →
  MemoryNodeStore_secret_heap s' = MemoryNodeStore_secret_heap s → evolves s s'.
Proof.
  intros Hok Hnone Hat Hs Hh. split; [done| |].
  - intros id m Hm. exists m. rewrite Hat, decide_False by congruence. done.
  - intros id e He. exists e. unfold secret_at in *. by rewrite Hs, Hh.
Qed.

Lemma evolves_use s s' id nodeID now e :
  node_store_ok s' → secret_at s id = Some e →
  (∀ id', node_at s' id' = node_at s id') →
  (∀ id', secret_at s' id' = if decide (id' = id) then Some (used_by now nodeID e)
                            else secret_at s id') → evolves s s'.
Proof.
  intros Hok He Hn Hs. split; [done| |].
  - intros i m Hm. exists m. by rewrite Hn.
  - intros i x Hx. rewrite Hs. case_decide; subst; [|by exists x].
    assert (x = e) as -> by congruence. eexists. split; [reflexivity|]. done.
Qed.

Lemma EnrollNode_effect tok name fqdn csr caps w st :
  good st → MemoryNodeStore_nodes (ns_store st) !! w_uuid w (w_uuids w) = None →
  wp (EnrollNode tok name fqdn csr caps) (λ r st' _,
    match r with
    | Err _ => st' = st
    | Ok (id, cert) => ∃ e fp w0,
        secret_at (ns_store st) (EnrollmentSecret_ID e) = Some e ∧
        EnrollmentSecret_SecretHash e = hashToken tok ∧ ¬ consumed e ∧
        now_of w < EnrollmentSecret_ExpiresAt e ∧
        SignNodeCSR w0 csr id fqdn (90 * 24 * Hour) = Ok (cert, fp) ∧
        enrolled st st' e id fqdn fp
    end) w st.
Proof.
  intros Hg Hfresh. pose proof (proj1 Hg) as Hok. destruct st as [s c a]. simpl in *.
  unfold EnrollNode, on_nodes. wp_step. cbn [ns_store].
  destruct (GetBySecretHash_run (hashToken tok) w s Hok) as [[_ Hrun]|(e & He & Hh & Hrun)];
    rewrite (wp_run _ _ _ _ _ _ _ Hrun); [done|].
  unfold EnrollmentSecret_IsValid.
  destruct (EnrollmentSecret_UsedAt e) as [t|] eqn:Eu; wp_step; [done|].
  destruct (decide (now_of w < EnrollmentSecret_ExpiresAt e)) as [Hv|Hv].
  2:{ rewrite bool_decide_eq_false_2 by done. cbn [negb]. wp_step. done. }
  rewrite bool_decide_eq_true_2 by done. cbn [negb]. wp_step.
  set (id := w_uuid _ _). change (w_uuid w (w_uuids w)) with id in Hfresh.
  destruct (SignNodeCSR _ csr id fqdn _) as [[cert fp]|err] eqn:Esign.
  2:{ wp_step. done. }
  wp_step. cbn [ns_store].
  set (n := mkNode _ _ _ _ _ _ _ _ _ _ _ _ _ _ _ _ _ _ _).
  destruct (MemoryNodeStore_nodesByFQDN s !! fqdn) as [q|] eqn:Hfq.
  { rewrite (wp_run _ _ _ _ _ _ _ (NodeCreate_taken n _ s (mk_is_Some _ _ Hfq))). done. }
  edestruct (NodeCreate_run n) as (s1 & Hrun1 & Hok1 & Hat1 & Hs1 & Hh1 & Hb1);
    [exact Hok|exact Hfresh|exact Hfq|].
  rewrite (wp_run _ _ _ _ _ _ _ Hrun1). cbn [ns_store ns_conns ns_audit]. 
  assert (secret_at s1 (EnrollmentSecret_ID e) = Some e) as He1
    by (unfold secret_at; rewrite Hs1, Hh1; exact He).
  edestruct (MarkUsed_run (EnrollmentSecret_ID e) id) as
    [[Hbad _]|[_ (s2 & Hrun2 & Hok2 & Hat2 & Hsec2)]]; [exact Hok1|exact He1|done|].
  wp_step. cbn [ns_store ns_conns ns_audit].
  rewrite (wp_run _ _ _ _ _ _ _ Hrun2). wp_step. apply wp_audit_node. intros a' w'. wp_step.
  cbn [ns_store ns_conns ns_audit].
  assert (node_at s id = None) as Hnone by (unfold node_at; by rewrite Hfresh).
  assert (evolves s s2) as Hev.
  { eapply evolves_trans; [by eapply (evolves_create s s1 n)|]. by eapply evolves_use. }
  eexists e, fp, _. split_and!; [done|done|by intros ?|done|exact Esign|].
  split_and!; [split; [done|split; [done|]]|done| | |].
  - cbn [ns_store ns_conns]. intros i m. rewrite Hat2, Hat1. case_decide.
    + intros [= <-] Hrev. discriminate Hrev.
    + apply (proj2 Hg).
  - exists n. cbn [ns_store]. rewrite Hat2, Hat1. by rewrite decide_True.
  - intros i Hi. cbn [ns_store]. rewrite Hat2, Hat1. by rewrite decide_False.
  - eexists. cbn [ns_store]. rewrite Hsec2. by rewrite decide_True.
Qed.

(** A known certificate of a live node is accepted. *)
Lemma AuthenticateNodeCertificate_run cert id fp w st :
  good st → VerifyCertificate cert = Ok (id, fp) →
  answer (AuthenticateNodeCertificate cert) w st =
    match node_at (ns_store st) id with
    | None => Err ErrNodeNotFound
    | Some n => if decide (Node_Status n = StatusRevoked) then Err ErrNodeRevoked
                else if decide (Node_CertFingerprint n ≠ fp) then Err ErrCertMismatch
                else Ok n
    end.
Proof.
  intros [Hok _] Hv.
  apply (proj1 (wp_elim (AuthenticateNodeCertificate cert) (λ r _ _, r = _) w st)).
  unfold AuthenticateNodeCertificate. wp_step. rewrite Hv. unfold on_nodes. wp_step.
  rewrite (wp_run _ _ _ _ _ _ _ (NodeGetByID_run id w (ns_store st) Hok)).
  destruct (node_at _ id) as [n|]; [|done].
  destruct (decide _); wp_step; [done|]. by destruct (decide _).
Qed.

(** Enrollment: a call that succeeds used an unconsumed, unexpired token,
    adds exactly one node (enrolling, with the fingerprint of the issued
    certificate) and consumes the token, and the certificate it returns
    authenticates as that node; a call that fails changes nothing. *)
Theorem enrollment_authenticates `{!PKILaws} (tok name fqdn csr : string)
    (caps : option Prelude.Details) (w : World) st :
  good st → MemoryNodeStore_nodes (ns_store st) !! w_uuid w (w_uuids w) = None →
  wp (EnrollNode tok name fqdn csr caps) (λ r st' _,
    match r with
    | Err _ => st' = st
    | Ok (id, cert) => ∃ e fp n,
        secret_at (ns_store st) (EnrollmentSecret_ID e) = Some e ∧
        EnrollmentSecret_SecretHash e = hashToken tok ∧ ¬ consumed e ∧
        now_of w < EnrollmentSecret_ExpiresAt e ∧
        enrolled st st' e id fqdn fp ∧ Node_Status n = StatusEnrolling ∧
        ∀ w', answer (AuthenticateNodeCertificate cert) w' st' = Ok n
    end) w st.
Proof.
  intros Hg Hfresh.
  eapply wp_mono; [by apply EnrollNode_effect|]. intros r st' w' Hr.
  destruct r as [[id cert]|]; [|done]. destruct Hr as (e & fp & w0 & He & Hh & Hu & Hv & Hs & Hen).
  destruct Hen as (Hl & Hc & (n & Hn & Hst & Hfq & Hfp) & Hrest).
  exists e, fp, n. split_and!; [done..| |done|].
  - unfold enrolled. split_and!; [done|done|by exists n|apply Hrest..].
  - intros w2. rewrite (AuthenticateNodeCertificate_run cert id fp) by
      (apply Hl || by eapply verify_signed). rewrite Hn.
    rewrite decide_False by congruence. by rewrite decide_False by congruence.
Qed.

Lemma CreateEnrollmentToken_later raw loc_ pat ttl by_ w st :
  good st → MemoryNodeStore_secrets (ns_store st) !! w_uuid w (w_uuids w) = None →
  (∀ r, raw = Ok r →
     MemoryNodeStore_secretsByH (ns_store st) !! hashToken ("aur_enroll_" +:+ r) = None) →
  wp (CreateEnrollmentToken raw loc_ pat ttl by_) (λ _ st' _, later st st') w st.
Proof.
  intros Hg Hid Hh. unfold CreateEnrollmentToken, on_nodes. wp_step.
  destruct raw as [r|e]; [|by apply later_refl]. wp_step.
  set (e := mkEnrollmentSecret _ _ _ _ _ _ _ _ _).
  edestruct (SecretCreate_run e) as (s' & Hrun & Hok' & Hn & Hs); 
    [exact (proj1 Hg)|exact Hid|by apply (Hh r)|].
  rewrite (wp_run _ _ _ _ _ _ _ Hrun). wp_step. apply wp_audit_node. intros a' w'. wp_step.
  cbn [ns_store ns_conns]. split; [split|split]; cbn [ns_store ns_conns].
  - done.
  - intros id n Hn'. exists n. by rewrite Hn.
  - intros id x Hx. exists x. rewrite Hs, decide_False; [done|]. intros ->.
    unfold secret_at in Hx. simpl in Hx. by rewrite Hid in Hx.
  - done.
  - intros id n. rewrite Hn. apply Hg.
Qed.

(** One call of the service; generated identifiers and tokens are new. *)
Inductive node_step : NodeState A → NodeState A → Prop :=
  | n_token w st raw l p ttl by_ :
      MemoryNodeStore_secrets (ns_store st) !! w_uuid w (w_uuids w) = None →
      (∀ r, raw = Ok r →
         MemoryNodeStore_secretsByH (ns_store st) !! hashToken ("aur_enroll_" +:+ r) = None) →
      node_step st (exec (CreateEnrollmentToken raw l p ttl by_) w st)
  | n_enroll w st tok name fqdn csr caps :
      MemoryNodeStore_nodes (ns_store st) !! w_uuid w (w_uuids w) = None →
      node_step st (exec (EnrollNode tok name fqdn csr caps) w st)
  | n_connect w st b id sender : node_step st (exec (OnStreamConnected b id sender) w st)
  | n_disconnect w st b id : node_step st (exec (OnStreamDisconnected b id) w st)
  | n_heartbeat w st id caps : node_step st (exec (ProcessHeartbeat id caps) w st)
  | n_maintenance w st id b : node_step st (exec (ToggleMaintenance id b) w st)
  | n_drain w st id b : node_step st (exec (ToggleDrainMode id b) w st)
  | n_revoke w st id : node_step st (exec (RevokeNode id) w st).

(** A guarded update followed by an audit entry. *)
Lemma audited_later nodeID f w st action det :
  good st → (∀ now n, same_keys n (f now n)) → (∀ now n, ¬ revoked n → ¬ revoked (f now n)) →
  wp (get_unrevoked nodeID ;; on_nodes (update_node nodeID f) ;;
      audit_node true None action "node" nodeID 200 det) (λ _ st' _, later st st') w st.
Proof.
  intros Hg Hk Hr. wp_step. apply wp_get_unrevoked; [apply Hg|..].
  1,2: intros; by apply later_refl.
  intros n Hn Hnr. wp_step. eapply wp_mono.
  - apply (later_update_node st); [done|done|]. intros m now Hm.
    assert (m = n) as -> by congruence. specialize (Hr now n Hnr). tauto.
  - intros [[]|e] st1 w1 [Hl _]; [|done]. by apply later_audit.
Qed.

Lemma node_step_later st st' : node_step st st' → good st → later st st'.
Proof.
  intros Hstep Hg. destruct Hstep.
  - by apply (proj1 (wp_elim _ _ _ _) (CreateEnrollmentToken_later raw l p ttl by_ w st Hg H2 H3)).
  - pose proof (EnrollNode_effect tok name fqdn csr caps w st Hg H2) as Hwp%wp_elim.
    destruct (answer _ w st) as [[id cert]|err]; [|rewrite Hwp; by apply later_refl].
    by destruct Hwp as (e & fp & w0 & _ & _ & _ & _ & _ & Hl & _).
  - by apply (proj1 (wp_elim _ _ _ _) (OnStreamConnected_later b id sender w st Hg)).
  - by apply (proj1 (wp_elim _ _ _ _) (OnStreamDisconnected_later b id w st Hg)).
  - apply (proj1 (wp_elim _ (λ _ st' _, later st st') _ _)). unfold ProcessHeartbeat. wp_step.
    apply wp_get_unrevoked; [apply Hg|..]. 1,2: intros; by apply later_refl.
    intros n Hn Hnr. wp_step. eapply wp_mono; [apply (later_update_node st); [done|..]|].
    + intros now m. by destruct caps.
    + intros m now Hm. by destruct caps.
    + by intros r st1 w1 [Hl _].
  - apply (proj1 (wp_elim _ (λ _ st' _, later st st') _ _)). apply audited_later; [done|done|].
    intros now n Hn. unfold revoked. simpl. by destruct b.
  - apply (proj1 (wp_elim _ (λ _ st' _, later st st') _ _)). apply audited_later; [done|..].
    + intros now n. destruct n; unfold same_keys; simpl. by repeat case_decide.
    + intros now n Hn. unfold revoked in *. destruct n; simpl in *.
      repeat case_decide; simpl; try done. 
  - by apply (proj1 (wp_elim _ _ _ _) (RevokeNode_later id w st Hg)).
Qed.

Lemma steps_later st st' : rtc node_step st st' → good st → later st st'.
Proof.
  induction 1 as [st|st1 st2 st3 H12 _ IH]; intros Hg; [by apply later_refl|].
  pose proof (node_step_later _ _ H12 Hg) as [Hev Hg2].
  destruct (IH Hg2) as [Hev2 Hg3]. split; [by eapply evolves_trans|done].
Qed.

(** C4 revocation is permanent: after any further history of calls, a revoked
    node is still revoked, has no connection, and every attempt to connect,
    to send a heartbeat, to receive a command, to leave maintenance or to
    authenticate with its certificate is refused. *)
Theorem revocation_permanent st st' (id : string) (n : Node) (w : World) :
  good st → rtc node_step st st' →
  node_at (ns_store st) id = Some n → Node_Status n = StatusRevoked →
  (∃ n', node_at (ns_store st') id = Some n' ∧ Node_Status n' = StatusRevoked ∧
         Node_CertFingerprint n' = Node_CertFingerprint n) ∧
  ns_conns st' !! id = None ∧
  (∀ b sender, answer (OnStreamConnected b id sender) w st' = Err ErrNodeRevoked) ∧
  (∀ caps, answer (ProcessHeartbeat id caps) w st' = Err ErrNodeRevoked) ∧
  (∀ cmd, answer (SendCommand id cmd) w st' = Err ErrNodeRevoked) ∧
  (∀ b, answer (ToggleMaintenance id b) w st' = Err ErrNodeRevoked) ∧
  (∀ cert fp, VerifyCertificate cert = Ok (id, fp) →
     answer (AuthenticateNodeCertificate cert) w st' = Err ErrNodeRevoked).
Proof.
  intros Hg Hr Hn Hrev. destruct (steps_later st st' Hr Hg) as [[_ Hnodes _] Hg'].
  destruct (Hnodes id n Hn) as (n' & Hn' & (_ & _ & Hfp) & Hr'). specialize (Hr' Hrev).
  assert (∀ X (k : Node → go (NodeState A) X),
    answer (get_unrevoked id ≫= k) w st' = Err ErrNodeRevoked) as Hden.
  { intros X k. apply (proj1 (wp_elim (get_unrevoked id ≫= k) (λ r _ _, r = _) w st')). wp_step.
    apply wp_get_unrevoked; [apply Hg'|congruence|done|].
    intros m Hm Hmr. exfalso. apply Hmr. congruence. }
  split_and!; [by exists n'|by eapply Hg'|..]; try (intros; apply Hden).
  intros cert fp Hv. rewrite (AuthenticateNodeCertificate_run cert id fp) by done.
  by rewrite Hn', decide_True.
Qed.

(** Tokens are single-use: once an enrollment succeeded with a token, every
    later enrollment with it, after any further history of calls, is refused
    as already consumed and changes nothing. *)
Theorem token_single_use (tok name fqdn csr name2 fqdn2 csr2 : string)
    (caps caps2 : option Prelude.Details) (w w2 : World) st st2 (res : string * string) :
  good st → MemoryNodeStore_nodes (ns_store st) !! w_uuid w (w_uuids w) = None →
  answer (EnrollNode tok name fqdn csr caps) w st = Ok res →
  rtc node_step (exec (EnrollNode tok name fqdn csr caps) w st) st2 →
  EnrollNode tok name2 fqdn2 csr2 caps2 w2 st2 = (Err ErrEnrollmentTokenUsed, st2, w2).
Proof.
  intros Hg Hfresh Hans Hr.
  pose proof (EnrollNode_effect tok name fqdn csr caps w st Hg Hfresh) as Hwp%wp_elim.
  rewrite Hans in Hwp. destruct res as [id cert].
  destruct Hwp as (e & fp & w0 & He & Hh & _ & _ & _ & Hen).
  destruct Hen as ([Hev Hg1] & _ & _ & _ & now & Hsec).
  destruct (steps_later _ _ Hr Hg1) as [[Hok2 _ Hsecs] Hg2].
  destruct (Hsecs _ _ Hsec) as (e2 & He2 & Hh2 & Hc2). simpl in Hh2.
  unfold secret_at in He2.
  destruct (MemoryNodeStore_secrets _ !! _) as [p|] eqn:Hp; [|done]. simpl in He2.
  destruct (ok_secrets _ Hok2 _ _ Hp) as (e2' & He2' & _ & Hbyh).
  assert (e2' = e2) as -> by congruence.
  unfold EnrollNode, wrap_err, on_nodes, zoom, mbind, go_bind.
  unfold GetBySecretHash, mbind, go_bind, get, load.
  rewrite <-Hh, <-Hh2, Hbyh, He2. destruct st2 as [s2 c2 a2]. simpl.
  unfold EnrollmentSecret_IsValid.
  destruct (EnrollmentSecret_UsedAt e2) eqn:Eu; [done|]. exfalso.
  apply Hc2; [|done]. unfold consumed. done.
Qed.
End histories.

(** ** The interface to the services that place work on nodes *)

#[export] Instance node_service_gateway `{!AuditRepository A, !AgentLink} :
    NodeGateway (NodeState A) := {
  gateway_nodes := ns_store;
  gateway_put := λ s g, mkNodeState s (ns_conns g) (ns_audit g);
  SendCommand_ := SendCommand
}.

Lemma quiet_on_nodes {A X} (m : go MemoryNodeStore X) : quiet m → quiet (on_nodes (A := A) m).
Proof.
  intros Hm w [s c a]. specialize (Hm w s). unfold exec, world, on_nodes, zoom in *. simpl.
  destruct (m w s) as [[x s'] w']. simpl in *. by destruct Hm as [-> ?].
Qed.

(** A reply the dispatcher hands out was a success on the open stream of a
    node that is not revoked. *)
Lemma SendCommand_delivered `{!AuditRepository A, !AgentLink} id cmd w (st : NodeState A) :
  wp (SendCommand id cmd) (λ r st' _, st' = st ∧
    ∀ res, r = Ok res → CommandResult_Success res = true ∧ is_Some (ns_conns st !! id)) w st.
Proof.
  unfold SendCommand. rewrite wp_bind. apply wp_quiet.
  { unfold get_unrevoked. apply quiet_bind; [|intros n; quiet].
    auto using quiet_on_nodes with go. }
  intros [n|e] w1 _; [|done]. unfold DispatchCommand.
  rewrite wp_bind. apply wp_quiet; [quiet|]. intros [cid|e] w2 _; [|done].
  rewrite wp_bind. apply wp_quiet; [quiet|]. intros [at_|e] w3 _; [|done]. wp_step.
  destruct (ns_conns st !! id) as [c|]; wp_step; [|done].
  destruct (stream_Send _ _ _) as [[]|e]; [|done]. wp_step.
  destruct (await_reply _ _) as [res|e]; [|done].
  destruct (CommandResult_Success res) eqn:Es; wp_step; [|done].
  split; [done|]. intros ? [= <-]. eauto.
Qed.

#[export] Instance node_service_gateway_laws `{!AuditRepository A, !AgentLink} :
  NodeGatewayLaws (NodeState A).
Proof.
  split; [|done]. intros id cmd w g. cbn. f_equal.
  apply (proj1 (proj1 (wp_elim _ _ _ _) (SendCommand_delivered id cmd w g))).
Qed.

(** ** A concrete enrollment *)

(** The certificate is the identifier it names. *)
Definition naming_pki : PKIManager := {|
  SignNodeCSR := λ _ _ id _ _, Ok (id, "fp-" +:+ id);
  VerifyCertificate := λ cert, Ok (cert, "fp-" +:+ cert)
|}.

Lemma naming_laws : @PKILaws naming_pki.
Proof. constructor. intros w csr id fqdn ttl cert fp [= <- <-]. reflexivity. Qed.

(** An agent that takes every command and never answers in time. *)
Definition silent_link : AgentLink := {|
  stream_Send := λ _ _ _, Ok ();
  await_reply := λ _ _, Err (ErrNew "context" "context deadline exceeded")
|}.

Section demo.
#[local] Existing Instances naming_pki tagging_digest silent_link.

Definition empty_state : NodeState AuditStore := mkNodeState NewMemoryNodeStore ∅ empty_audit.

Lemma empty_good : good empty_state.
Proof. split; [apply node_store_ok_new|]. intros id n. discriminate. Qed.

Definition demo_tokens : NodeState AuditStore :=
  exec (CreateEnrollmentToken (Ok "00ff") "dc1" "" 0 None) (calm 0) empty_state.

Lemma demo_good : good demo_tokens.
Proof.
  apply (proj1 (wp_elim _ _ _ _)
    (CreateEnrollmentToken_later (Ok "00ff") "dc1" "" 0 None (calm 0) empty_state
       empty_good eq_refl (λ r _, eq_refl))).
Qed.

Definition demo_enroll : go (NodeState AuditStore) (string * string) :=
  EnrollNode "aur_enroll_00ff" "n1" "n1.example" "csr" None.

Lemma enrollment_authenticates_witness : ∃ n,
  answer demo_enroll (calm 1) demo_tokens = Ok ("uuid-0", "uuid-0") ∧
  answer (AuthenticateNodeCertificate "uuid-0") (calm 2) (exec demo_enroll (calm 1) demo_tokens) =
    Ok n.
Proof.
  pose proof (@enrollment_authenticates _ _ naming_pki tagging_digest naming_laws
    "aur_enroll_00ff" "n1" "n1.example" "csr" None (calm 1) demo_tokens demo_good eq_refl) as H.
  apply wp_elim in H. fold demo_enroll in H.
  assert (answer demo_enroll (calm 1) demo_tokens = Ok ("uuid-0", "uuid-0")) as E
    by (vm_compute; reflexivity).
  rewrite E in H. destruct H as (e & fp & n & _ & _ & _ & _ & _ & _ & Ha).
  exists n. split; [exact E|exact (Ha (calm 2))].
Defined.

Lemma token_single_use_witness :
  let st := exec demo_enroll (calm 1) demo_tokens in
  EnrollNode "aur_enroll_00ff" "n2" "n2.example" "csr" None (calm 5) st =
    (Err ErrEnrollmentTokenUsed, st, calm 5).
Proof.
  apply (token_single_use "aur_enroll_00ff" "n1" "n1.example" "csr" "n2" "n2.example" "csr"
    None None (calm 1) (calm 5) demo_tokens (exec demo_enroll (calm 1) demo_tokens)
    ("uuid-0", "uuid-0")).
  - exact demo_good.
  - reflexivity.
  - vm_compute. reflexivity.
  - apply rtc_refl.
Defined.

Definition demo_revoked : NodeState AuditStore :=
  exec (RevokeNode "uuid-0") (calm 3) (exec demo_enroll (calm 1) demo_tokens).

Lemma revocation_permanent_witness :
  answer (OnStreamConnected true "uuid-0" "stream") (calm 9)
    (exec (ToggleMaintenance "uuid-0" false) (calm 4) demo_revoked) = Err ErrNodeRevoked.
Proof.
  assert (good demo_revoked) as Hg.
  { apply (steps_later demo_tokens demo_revoked); [|exact demo_good].
    apply (rtc_l _ _ (exec demo_enroll (calm 1) demo_tokens)).
    - exact (n_enroll (calm 1) demo_tokens "aur_enroll_00ff" "n1" "n1.example" "csr" None eq_refl).
    - apply rtc_once. exact (n_revoke (calm 3) _ "uuid-0"). }
  destruct (node_at (ns_store demo_revoked) "uuid-0") as [n|] eqn:En;
    [|vm_compute in En; discriminate En].
  edestruct (revocation_permanent demo_revoked
    (exec (ToggleMaintenance "uuid-0" false) (calm 4) demo_revoked) "uuid-0" n (calm 9))
    as (_ & _ & H & _).
  - exact Hg.
  - apply rtc_once. exact (n_maintenance (calm 4) demo_revoked "uuid-0" false).
  - exact En.
  - vm_compute in En. injection En as <-. reflexivity.
  - apply H.
Defined.
End demo.
