(* ===== verification/NodeHealth.v ===== *)
(** * The node health supervisor

    [internal/app/nodehealth/supervisor.go]: at each tick the supervisor lists
    the nodes and moves them between online, degraded and unhealthy by the
    age of their last heartbeat and the number of consecutive late checks. *)

From S2P Require Import Prelude AuditTrail Events Node.

(** ** [time.Duration] as text *)

(** [d.Round(m)]. *)
Definition Duration_Round (d m : Z) : Z :=
  let r := Z.rem d m in
  if decide (d < 0) then
    let r := - r in
    if decide (r + r < m) then d + r
    else let d1 := sub64 d (m - r) in if decide (d1 < d) then d1 else min_int64
  else
    if decide (r + r < m) then d - r
    else let d1 := add64 d (m - r) in if decide (d < d1) then d1 else max_int64.

Fixpoint trim_zeros (n : nat) (v : Z) : string :=
  match n with
  | O => ""
  | S n' => if decide (v mod 10 = 0) then trim_zeros n' (v / 10)
            else "." +:+ pad_zeros n (pretty v)
  end.

(** [d.String()] for a duration of whole seconds or of at least one second. *)
Definition Duration_String (d : Z) : string :=
  let u := Z.abs d in
  let s := u / Second in
  let sec := fmt_d (s mod 60) +:+ trim_zeros 9 (u mod Second) +:+ "s" in
  let m := s / 60 in
  let text := if decide (m = 0) then sec
              else if decide (m / 60 = 0) then fmt_d m +:+ "m" +:+ sec
              else fmt_d (m / 60) +:+ "h" +:+ fmt_d (m mod 60) +:+ "m" +:+ sec in
  if decide (d < 0) then "-" +:+ text else text.

Example duration_texts :
  Duration_String (Duration_Round (36 * Second + 600000000) Second) = "37s" ∧
  Duration_String (Duration_Round (90 * Second) Second) = "1m30s" ∧
  Duration_String (Duration_Round max_int64 Second) = "2562047h47m16.854775807s" ∧
  Duration_String (Duration_Round (- 20 * Second) Second) = "-20s" ∧
  Duration_String (Duration_Round 400000000 Second) = "0s".
Proof. vm_compute. auto. Qed.

(** ** The supervisor *)

Section supervisor.
Context {A E : Type} `{!AuditRepository A, !EventPublisher E}.

Record SupState := mkSupState {
  sv_nodes : MemoryNodeStore;
  sv_missed : gmap string Z;
  sv_events : E;
  sv_audit : A
}.

(** The configuration; the optional ports are nil or present. *)
Record Supervisor := mkSupervisor {
  sup_has_publisher : bool;
  sup_has_audit : bool;
  staleLimit : Z;
  unhealthyLimit : Z
}.

Definition NewSupervisor (publisher audit : bool) : Supervisor :=
  mkSupervisor publisher audit (15 * Second) (35 * Second).

Definition on_nodes {X} : go MemoryNodeStore X → go SupState X :=
  zoom sv_nodes (λ x s, mkSupState x (sv_missed s) (sv_events s) (sv_audit s)).
Definition on_events {X} : go E X → go SupState X :=
  zoom sv_events (λ x s, mkSupState (sv_nodes s) (sv_missed s) x (sv_audit s)).
Definition on_trail {X} : go A X → go SupState X :=
  zoom sv_audit (λ x s, mkSupState (sv_nodes s) (sv_missed s) (sv_events s) x).
Definition on_missed (f : gmap string Z → gmap string Z) : go SupState () :=
  modify (λ s, mkSupState (sv_nodes s) (f (sv_missed s)) (sv_events s) (sv_audit s)).

Context (sup : Supervisor).

Definition transitionNode (n : Node) (targetStatus : Status) (reason : string) :
    go SupState () :=
  r ← try (on_nodes (UpdateHealthState (Node_ID n) targetStatus reason));
  match r with
  | Err _ => mret ()
  | Ok _ =>
      let oldStatus := Node_Status n in
      let eventType := if decide (targetStatus = StatusOnline ∧ oldStatus ≠ StatusOnline)
                       then "node.recovered"
                       else "node." +:+ status_text targetStatus in
      let payload := details [("oldStatus", AnyStr (status_text oldStatus));
                              ("newStatus", AnyStr (status_text targetStatus));
                              ("reason", AnyStr reason)] in
      (if sup_has_publisher sup then
         ignore (on_events (Publish
           (new_event "system" eventType "node" (Node_ID n) "" payload)))
       else mret ()) ;;
      (if sup_has_audit sup then
         now ← time_Now;
         ignore (on_trail (Record_
           (new_log (Some "system:supervisor") eventType "node" (Some (Node_ID n))
              (Some payload) now)))
       else mret ())
  end.

(** The body of the loop, for one node of the snapshot. *)
Definition evaluateNode (now : Z) (n : Node) : go SupState () :=
  if decide (Node_Status n = StatusRevoked ∨ Node_Status n = StatusEnrolling ∨
             Node_MaintenanceMode n = true) then
    on_missed (delete (Node_ID n))
  else
    let lastSeen := default zero_time (Node_LastHeartbeatAt n) in
    let age := time_Sub now lastSeen in
    let ago := Duration_String (Duration_Round age Second) in
    if decide (Node_LastHeartbeatAt n = None ∨ staleLimit sup < age) then
      on_missed (λ m, <[Node_ID n := add64 (default 0 (m !! Node_ID n)) 1]> m) ;;
      s ← get;
      let missedCount := default 0 (sv_missed s !! Node_ID n) in
      if decide (unhealthyLimit sup < age ∨ 3 ≤ missedCount) then
        if decide (Node_Status n ≠ StatusUnhealthy)
        then transitionNode n StatusUnhealthy
               ("Heartbeat timed out (last seen " +:+ ago +:+ " ago)")
        else mret ()
      else if decide (2 ≤ missedCount) then
        if decide (Node_Status n ≠ StatusDegraded ∧ Node_Status n ≠ StatusUnhealthy)
        then transitionNode n StatusDegraded ("Delayed heartbeat (last seen " +:+ ago +:+ " ago)")
        else mret ()
      else mret ()
    else
      on_missed (<[Node_ID n := 0]>) ;;
      if decide ((Node_Status n = StatusUnhealthy ∨ Node_Status n = StatusDegraded) ∧
                 Node_DrainMode n = false)
      then transitionNode n StatusOnline "Healthy heartbeats restored"
      else mret ().

Fixpoint for_each {X} (f : X → go SupState ()) (l : list X) : go SupState () :=
  match l with
  | [] => mret ()
  | x :: l => f x ;; for_each f l
  end.

Definition evaluateNodes : go SupState () :=
  nodes ← on_nodes NodeList;
  now ← time_Now;
  for_each (evaluateNode now) nodes.
End supervisor.

Arguments SupState : clear implicits.

(** ** The verdict on one node *)

Section verdict.
Context (sup : Supervisor) (now : Z).

Definition exempt (n : Node) : Prop :=
  Node_Status n = StatusRevoked ∨ Node_Status n = StatusEnrolling ∨
  Node_MaintenanceMode n = true.
#[export] Instance exempt_dec n : Decision (exempt n).
Proof. unfold exempt. apply _. Defined.

(** The heartbeat is missing or older than the stale limit. *)
Definition late (n : Node) : Prop :=
  Node_LastHeartbeatAt n = None ∨
  staleLimit sup < time_Sub now (default zero_time (Node_LastHeartbeatAt n)).
#[export] Instance late_dec n : Decision (late n).
Proof. unfold late. apply _. Defined.

Definition timed_out (n : Node) : Prop :=
  unhealthyLimit sup < time_Sub now (default zero_time (Node_LastHeartbeatAt n)).
#[export] Instance timed_out_dec n : Decision (timed_out n).
Proof. unfold timed_out. apply _. Defined.

(** The number of consecutive late checks after this one. *)
Definition count_after (n : Node) (missed : option Z) : option Z :=
  if decide (exempt n) then None
  else if decide (late n) then Some (add64 (default 0 missed) 1) else Some 0.

Definition status_after (n : Node) (missed : option Z) : Status :=
  if decide (exempt n) then Node_Status n
  else if decide (late n) then
    let c := add64 (default 0 missed) 1 in
    if decide (timed_out n ∨ 3 ≤ c) then StatusUnhealthy
    else if decide (2 ≤ c ∧ Node_Status n ≠ StatusUnhealthy) then StatusDegraded
    else Node_Status n
  else if decide ((Node_Status n = StatusUnhealthy ∨ Node_Status n = StatusDegraded) ∧
                  Node_DrainMode n = false) then StatusOnline
  else Node_Status n.

(** Everything of a node but its status, the reason and two time stamps. *)
Definition same_but_health (n n' : Node) : Prop :=
  same_keys n n' ∧ Node_MaintenanceMode n' = Node_MaintenanceMode n ∧
  Node_DrainMode n' = Node_DrainMode n ∧ Node_LastHeartbeatAt n' = Node_LastHeartbeatAt n ∧
  Node_Capabilities n' = Node_Capabilities n.
End verdict.

(** ** One evaluation *)

Section evaluation.
Context {A E : Type} `{!AuditRepository A, !EventPublisher E} (sup : Supervisor).
Implicit Types (st : SupState A E).

Definition health (now : Z) (status : Status) (reason : string) (n : Node) : Node :=
  n <| Node_Status := status |> <| Node_UnhealthyReason := reason |>
    <| Node_LastStateChangeAt := Some now |> <| Node_UpdatedAt := now |>.

(** A transition writes the status of the node the identifier leads to now,
    whatever the snapshot said. *)
Lemma wp_transition n cur target reason (Q : result () → SupState A E → World → Prop) w st :
  node_store_ok (sv_nodes st) → node_at (sv_nodes st) (Node_ID n) = Some cur →
  (∀ s' ev a w', node_store_ok s' →
     (∀ id, node_at s' id = if decide (id = Node_ID n)
                            then Some (health (now_of w) target reason cur)
                            else node_at (sv_nodes st) id) →
     Q (Ok ()) (mkSupState s' (sv_missed st) ev a) w') →
  wp (transitionNode sup n target reason) Q w st.
Proof.
  intros Hok Hcur HQ. unfold transitionNode, on_nodes. wp_step. unfold UpdateHealthState.
  destruct (update_node_effect (Node_ID n) (λ now n,
    n <| Node_Status := target |> <| Node_UnhealthyReason := reason |>
      <| Node_LastStateChangeAt := Some now |> <| Node_UpdatedAt := now |>) w (sv_nodes st) cur)
    as (s' & Hrun & Hok' & Hat); [done|done|done|].
  rewrite (wp_run _ _ _ _ _ _ _ Hrun). wp_step.
  assert (∀ b m w1 ev a Q',
    (∀ ev' w', Q' (Ok ()) (mkSupState s' (sv_missed st) ev' a) w') →
    wp (if b : bool then ignore (on_events (A := A) (Publish m)) else mret ()) Q' w1
       (mkSupState s' (sv_missed st) ev a)) as Hpub.
  { intros b m w1 ev a Q' HQ'. destruct b; wp_step; [|apply HQ'].
    unfold on_events. wp_step. unfold wp. destruct (Publish m _ _) as [[x ev'] w']. apply HQ'. }
  apply Hpub. intros ev' w'. destruct (sup_has_audit sup); wp_step.
  - unfold on_trail. wp_step. unfold wp. destruct (Record_ _ _ _) as [[x a'] w2]. by apply HQ.
  - by apply HQ.
Qed.

Definition judged st st' (n : Node) (now : Z) : Prop :=
  (∃ n', node_at (sv_nodes st') (Node_ID n) = Some n' ∧ same_but_health n n' ∧
         Node_Status n' = status_after sup now n (sv_missed st !! Node_ID n)) ∧
  sv_missed st' !! Node_ID n = count_after sup now n (sv_missed st !! Node_ID n).

Definition untouched st st' (id : string) : Prop :=
  node_at (sv_nodes st') id = node_at (sv_nodes st) id ∧
  sv_missed st' !! id = sv_missed st !! id.

Lemma evaluateNode_effect now n w st :
  node_store_ok (sv_nodes st) → node_at (sv_nodes st) (Node_ID n) = Some n →
  wp (evaluateNode sup now n) (λ r st' _,
    r = Ok () ∧ node_store_ok (sv_nodes st') ∧ judged st st' n now ∧
    ∀ id, id ≠ Node_ID n → untouched st st' id) w st.
Proof.
  intros Hok Hn.
  assert (∀ m ev a,
    (∀ id, id ≠ Node_ID n → m !! id = sv_missed st !! id) →
    m !! Node_ID n = count_after sup now n (sv_missed st !! Node_ID n) →
    Node_Status n = status_after sup now n (sv_missed st !! Node_ID n) →
    let st' := mkSupState (sv_nodes st) m ev a in
    Ok () = Ok () ∧ node_store_ok (sv_nodes st') ∧ judged st st' n now ∧
    ∀ id, id ≠ Node_ID n → untouched st st' id) as Hstay.
  { intros m ev a Hm Hc Hs. split_and!; [done..| |]; [|by intros id Hid; split; auto].
    split; [|done]. exists n. split_and!; [done| |done]. by split_and!. }
  assert (∀ m ev a w1 target reason,
    (∀ id, id ≠ Node_ID n → m !! id = sv_missed st !! id) →
    m !! Node_ID n = count_after sup now n (sv_missed st !! Node_ID n) →
    target = status_after sup now n (sv_missed st !! Node_ID n) →
    wp (transitionNode sup n target reason) (λ r st' _,
      r = Ok () ∧ node_store_ok (sv_nodes st') ∧ judged st st' n now ∧
      ∀ id, id ≠ Node_ID n → untouched st st' id) w1 (mkSupState (sv_nodes st) m ev a)) as Hmove.
  { intros m ev a w1 target reason Hm Hc Hs. eapply wp_transition; [done|exact Hn|].
    intros s' ev' a' w' Hok' Hat. split_and!; [done..| |].
    - split; [|done]. eexists. simpl. rewrite Hat, decide_True by done. split; [done|].
      split; [|done]. by split_and!.
    - intros id Hid. split; simpl; [|by apply Hm]. by rewrite Hat, decide_False. }
  assert (∀ v id, id ≠ Node_ID n → (<[Node_ID n := v]> (sv_missed st)) !! id = sv_missed st !! id)
    as Hins by (intros; by apply lookup_insert_ne).
  unfold evaluateNode, on_missed. fold (exempt n).
  unfold count_after, status_after, late, timed_out in *.
  destruct (decide (exempt n)) as [He|He]; wp_step.
  { apply Hstay; [|by rewrite lookup_delete_eq|done].
    intros id Hid. by apply lookup_delete_ne. }
  destruct (decide (_ ∨ staleLimit sup < _)) as [Hl|Hl]; wp_step.
  2:{ destruct (decide (_ ∧ Node_DrainMode n = false)) as [Hd|Hd]; wp_step.
      - apply Hmove; [apply Hins|apply lookup_insert_eq|done].
      - apply Hstay; [apply Hins|apply lookup_insert_eq|done]. }
  cbn [sv_missed]. rewrite lookup_insert_eq. cbn [default from_option].
  set (c := add64 (default 0 (sv_missed st !! Node_ID n)) 1) in *.
  change (id c) with c.
  destruct (decide (_ ∨ 3 ≤ c)) as [Ht|Ht]; wp_step.
  { destruct (decide (Node_Status n ≠ StatusUnhealthy)) as [Hu|Hu]; wp_step.
    - apply Hmove; [apply Hins|apply lookup_insert_eq|done].
    - apply Hstay; [apply Hins|apply lookup_insert_eq|]. by apply dec_stable. }
  destruct (decide (2 ≤ c)) as [H2|H2]; wp_step.
  2:{ apply Hstay; [apply Hins|apply lookup_insert_eq|]. by rewrite decide_False by tauto. }
  destruct (decide (Node_Status n ≠ StatusDegraded ∧ _)) as [Hu|Hu]; wp_step.
  - apply Hmove; [apply Hins|apply lookup_insert_eq|]. by rewrite decide_True by tauto.
  - apply Hstay; [apply Hins|apply lookup_insert_eq|].
    destruct (decide (_ ∧ Node_Status n ≠ StatusUnhealthy)) as [[_ Hne]|]; [|done].
    destruct (decide (Node_Status n = StatusDegraded)); [done|]. exfalso. by apply Hu.
Qed.

(** The loop over a snapshot: each listed node is judged once. *)
Lemma for_each_effect now ns w st :
  node_store_ok (sv_nodes st) → NoDup (Node_ID <$> ns) →
  (∀ n, n ∈ ns → node_at (sv_nodes st) (Node_ID n) = Some n) →
  wp (for_each (evaluateNode sup now) ns) (λ r st' _,
    r = Ok () ∧ node_store_ok (sv_nodes st') ∧ (∀ n, n ∈ ns → judged st st' n now) ∧
    ∀ id, id ∉ Node_ID <$> ns → untouched st st' id) w st.
Proof.
  revert w st. induction ns as [|n ns IH]; intros w st Hok Hnd Hat; cbn [for_each]; wp_step.
  { split_and!; [done|done|by intros n ?%elem_of_nil|done]. }
  rewrite fmap_cons in Hnd. apply NoDup_cons in Hnd as [Hnew Hnd].
  eapply wp_mono; [apply (evaluateNode_effect now n); [done|apply Hat; by left]|].
  intros r st1 w1 (-> & Hok1 & Hj & Hu).
  eapply wp_mono.
  - apply IH; [done|done|]. intros m Hm.
    assert (Node_ID m ≠ Node_ID n) as Hne.
    { intros Eid. apply Hnew. rewrite <-Eid. by apply list_elem_of_fmap_2. }
    destruct (Hu _ Hne) as [-> _]. apply Hat. by right.
  - intros r2 st2 w2 (-> & Hok2 & Hj2 & Hu2). split_and!; [done|done| |].
    + intros m [->|Hm]%elem_of_cons.
      * destruct (Hu2 _ Hnew) as [E1 E2]. unfold judged. by rewrite E1, E2.
      * assert (Node_ID m ≠ Node_ID n) as Hne.
        { intros Eid. apply Hnew. rewrite <-Eid. by apply list_elem_of_fmap_2. }
        destruct (Hu _ Hne) as [_ E1]. specialize (Hj2 m Hm). unfold judged in *. by rewrite <-E1.
    + intros id Hid. rewrite fmap_cons, not_elem_of_cons in Hid. destruct Hid as [Hne Hid].
      destruct (Hu _ Hne) as [E1 E2], (Hu2 _ Hid) as [E3 E4]. unfold untouched.
      split; congruence.
Qed.

Lemma evaluate_effect w st :
  node_store_ok (sv_nodes st) → World_ok w →
  node_store_ok (sv_nodes (exec (evaluateNodes sup) w st)) ∧
  (∀ id n, node_at (sv_nodes st) id = Some n → Node_ID n = id ∧
     judged st (exec (evaluateNodes sup) w st) n (now_of w)) ∧
  ∀ id, node_at (sv_nodes st) id = None → untouched st (exec (evaluateNodes sup) w st) id.
Proof.
  intros Hok Hw.
  apply (proj1 (wp_elim (evaluateNodes sup) (λ _ st' _, node_store_ok (sv_nodes st') ∧
    (∀ id n, node_at (sv_nodes st) id = Some n → Node_ID n = id ∧ judged st st' n (now_of w)) ∧
    ∀ id, node_at (sv_nodes st) id = None → untouched st st' id) w st)).
  unfold evaluateNodes, on_nodes. wp_step.
  destruct (NodeList_run w (sv_nodes st) Hok Hw) as (ns & Hrun & Hnd & Hns).
  rewrite (wp_run _ _ _ _ _ _ _ Hrun). wp_step. destruct st as [s m ev a]. cbn [sv_nodes] in *.
  eapply wp_mono.
  - apply for_each_effect; [done|done|]. intros n. apply Hns.
  - intros r st' w' (_ & Hok' & Hj & Hu). split_and!; [done| |].
    + intros id n Hn. assert (Node_ID n = id) as Hid.
      { unfold node_at in Hn. destruct (MemoryNodeStore_nodes s !! id) as [p|] eqn:Hp; [|done].
        destruct (ok_nodes s Hok id p Hp) as (n' & Hn' & <- & _). simpl in Hn. congruence. }
      split; [done|]. apply Hj, Hns. by rewrite Hid.
    + intros id Hid. apply Hu. rewrite list_elem_of_fmap.
      intros (n & -> & Hn%Hns). congruence.
Qed.

(** One check: whatever the iteration order, an evaluation gives every node
    the status and the counter the verdict on it prescribes, keeps everything
    else of it (identity, modes, heartbeat), and adds or loses no node. *)
Theorem evaluateNodes_spec (w : World) st :
  node_store_ok (sv_nodes st) → World_ok w →
  let st' := exec (evaluateNodes sup) w st in
  node_store_ok (sv_nodes st') ∧
  ∀ id,
    match node_at (sv_nodes st) id with
    | None => node_at (sv_nodes st') id = None ∧ sv_missed st' !! id = sv_missed st !! id
    | Some n => ∃ n', node_at (sv_nodes st') id = Some n' ∧ same_but_health n n' ∧
        Node_Status n' = status_after sup (now_of w) n (sv_missed st !! id) ∧
        sv_missed st' !! id = count_after sup (now_of w) n (sv_missed st !! id)
    end.
Proof.
  intros Hok Hw st'. destruct (evaluate_effect w st Hok Hw) as (Hok' & Hj & Hu).
  split; [done|]. intros id. destruct (node_at (sv_nodes st) id) as [n|] eqn:Hn.
  - destruct (Hj id n Hn) as [<- [(n' & Hn' & Hs & Hst) Hc]]. by exists n'.
  - destruct (Hu id Hn) as [E1 E2]. subst st'. by rewrite E1, E2.
Qed.

(** ** Silent nodes are found, live ones recover *)

Definition check (w : World) st : SupState A E := exec (evaluateNodes sup) w st.

(** The node [id] is monitored, its heartbeat is late at [now] and it was late
    at the last [c] checks. *)
Definition silent st (id : string) (now c : Z) : Prop :=
  ∃ n, node_at (sv_nodes st) id = Some n ∧ ¬ exempt n ∧ late sup now n ∧
       default 0 (sv_missed st !! id) = c.

Lemma late_mono now now' n : now ≤ now' → late sup now n → late sup now' n.
Proof.
  intros Hle [Hnone|Hl]; [by left|right]. unfold time_Sub in *.
  destruct (Node_LastHeartbeatAt n); simpl in *; lia.
Qed.

Lemma silent_check w st id c :
  node_store_ok (sv_nodes st) → World_ok w → 0 ≤ c < 2 ^ 62 → silent st id (now_of w) c →
  node_store_ok (sv_nodes (check w st)) ∧ silent (check w st) id (now_of w) (c + 1) ∧
  (2 ≤ c → ∃ n, node_at (sv_nodes (check w st)) id = Some n ∧ Node_Status n = StatusUnhealthy).
Proof.
  intros Hok Hw Hc (n & Hn & He & Hl & Hm).
  destruct (evaluate_effect w st Hok Hw) as (Hok' & Hj & _). fold (check w st) in *.
  destruct (Hj id n Hn) as [Hid [(n' & Hn' & Hs & Hst) Hcount]].
  rewrite Hid in *. unfold count_after, status_after in *.
  rewrite !(decide_False (P := exempt n)) in * by done.
  rewrite !(decide_True (P := late sup (now_of w) n)) in * by done. rewrite Hm in *.
  rewrite add64_id in * by (unfold int64_ok; lia).
  destruct Hs as (Hk & Hmm & Hd & Hhb & _). split_and!; [done| |].
  - exists n'. split_and!; [done| | |by rewrite Hcount].
    + unfold exempt in *. rewrite Hmm, Hst. intros [H|[H|H]]; apply He; auto;
        repeat case_decide; try done; auto.
    + unfold late in *. by rewrite Hhb.
  - intros H2. exists n'. split; [done|]. rewrite Hst. by rewrite decide_True by lia.
Qed.

(** C28 detection: a node the supervisor looks after (not revoked, not
    enrolling, not in maintenance) whose heartbeat is overdue is unhealthy
    after at most three checks, when no heartbeat arrives between them,
    whatever its status, its drain mode and its count of misses were. *)
Theorem silent_node_detected (w1 w2 w3 : World) st (id : string) (c : Z) :
  node_store_ok (sv_nodes st) → World_ok w1 → World_ok w2 → World_ok w3 →
  now_of w1 ≤ now_of w2 ≤ now_of w3 → 0 ≤ c < 2 ^ 61 → silent st id (now_of w1) c →
  ∃ n, node_at (sv_nodes (check w3 (check w2 (check w1 st)))) id = Some n ∧
       Node_Status n = StatusUnhealthy.
Proof.
  intros Hok Hw1 Hw2 Hw3 Hle Hc Hs.
  assert (∀ st c now now', now ≤ now' → silent st id now c → silent st id now' c) as Hmono.
  { intros s c' now now' Hn (n & Hat & He & Hl & Hm). exists n.
    split_and!; [done|done|by eapply late_mono|done]. }
  destruct (silent_check w1 st id c) as (Hok1 & Hs1 & _); [done|done|lia|done|].
  destruct (silent_check w2 (check w1 st) id (c + 1)) as (Hok2 & Hs2 & _);
    [done|done|lia|eapply Hmono; [|exact Hs1]; lia|].
  destruct (silent_check w3 (check w2 (check w1 st)) id (c + 1 + 1)) as (_ & _ & H3);
    [done|done|lia|eapply Hmono; [|exact Hs2]; lia|].
  apply H3. lia.
Qed.

(** A check acts on a snapshot: when an operator revokes a node between the
    listing and the update, the supervisor's transition puts the revoked node
    back online, and it may connect again. *)
Lemma stale_check_unrevokes n cur reason w st :
  node_store_ok (sv_nodes st) → node_at (sv_nodes st) (Node_ID n) = Some cur →
  Node_Status cur = StatusRevoked →
  IsConnectable cur = false ∧
  ∃ n', node_at (sv_nodes (exec (transitionNode sup n StatusOnline reason) w st)) (Node_ID n) =
          Some n' ∧ IsConnectable n' = true.
Proof.
  intros Hok Hcur Hrev. split; [unfold IsConnectable; by rewrite Hrev|].
  apply (proj1 (wp_elim (transitionNode sup n StatusOnline reason)
    (λ _ st' _, ∃ n', node_at (sv_nodes st') (Node_ID n) = Some n' ∧ IsConnectable n' = true) w st)).
  eapply wp_transition; [done|done|]. intros s' ev a w' _ Hat. simpl.
  rewrite Hat, decide_True by done. by eexists.
Qed.

(** A node that never sent a heartbeat counts as last seen in year 1: its
    first check finds it unhealthy, without the grace of two late checks. *)
Lemma new_node_unhealthy_at_once now n missed :
  ¬ exempt n → Node_LastHeartbeatAt n = None → unhealthyLimit sup < 2 ^ 62 →
  - 2 ^ 62 ≤ now - 2 ^ 62 →
  status_after sup now n missed = StatusUnhealthy.
Proof.
  intros He Hh Hlim Hnow. unfold status_after. rewrite decide_False by done.
  rewrite decide_True by (by left). rewrite decide_True; [done|]. left. unfold timed_out.
  rewrite Hh. simpl. unfold time_Sub, zero_time, max_int64, min_int64. lia.
Qed.
End evaluation.

(** ** A concrete fleet *)

Section demo.
#[local] Existing Instances tagging_digest EventRecorder.

Definition demo_node : Node :=
  mkNode "n1" "dc1" "n1" "n1.example" StatusOnline "fp1" 8 0 0 (of_int 1) (of_int 1) None false
    false "" (Some 100) None 0 0.

Definition demo_fleet : SupState AuditStore (list Event) :=
  mkSupState (exec (NodeCreate demo_node) (calm 0) NewMemoryNodeStore) ∅ [] empty_audit.

Lemma demo_fleet_ok : node_store_ok (sv_nodes demo_fleet).
Proof.
  destruct (NodeCreate_run demo_node (calm 0) NewMemoryNodeStore) as (s' & Hrun & Hok & _);
    [apply node_store_ok_new|reflexivity|reflexivity|].
  simpl. unfold exec. rewrite Hrun. exact Hok.
Qed.

(** Late by 20 seconds at the first check, as in the code's thresholds. *)
Lemma silent_node_detected_witness : ∃ n,
  node_at (sv_nodes (check (NewSupervisor true true) (calm (30 * Second))
    (check (NewSupervisor true true) (calm (25 * Second))
      (check (NewSupervisor true true) (calm (20 * Second)) demo_fleet)))) "n1" = Some n ∧
  Node_Status n = StatusUnhealthy.
Proof.
  apply (silent_node_detected (NewSupervisor true true) (calm (20 * Second)) (calm (25 * Second))
    (calm (30 * Second)) demo_fleet "n1" 0).
  - exact demo_fleet_ok.
  - apply calm_ok.
  - apply calm_ok.
  - apply calm_ok.
  - split; vm_compute; discriminate.
  - lia.
  - exists demo_node. split; [reflexivity|]. split; [|split; [|reflexivity]].
    + intros [H|[H|H]]; discriminate H.
    + right. vm_compute. reflexivity.
Defined.

Lemma evaluateNodes_spec_witness : ∃ n,
  node_at (sv_nodes (exec (evaluateNodes (NewSupervisor true true)) (calm (60 * Second)) demo_fleet))
    "n1" = Some n ∧ Node_Status n = StatusUnhealthy.
Proof.
  destruct (evaluateNodes_spec (NewSupervisor true true) (calm (60 * Second)) demo_fleet
    demo_fleet_ok (calm_ok _)) as [_ H]. specialize (H "n1").
  destruct (node_at (sv_nodes demo_fleet) "n1") as [n|] eqn:En; [|discriminate En].
  destruct H as (n' & Hn' & _ & Hs & _). exists n'. split; [exact Hn'|]. rewrite Hs.
  injection En as <-. vm_compute. reflexivity.
Defined.
End demo.
