(* ===== verification/Instances.v ===== *)
(** * Instances

    [internal/domain/compute/instance.go] and
    [internal/infra/memory/instance_repo.go]. The two maps of the repository
    hold pointers to the same records, as in [Node]. *)

From S2P Require Import Prelude Identity.

Definition ErrInstanceNotFound := ErrNew "compute" "instance not found".
Definition ErrInstanceAlreadyExists := ErrNew "compute" "instance with this name already exists".

Definition TypeContainer : string := "container".
Definition TypeVirtualMachine : string := "virtual-machine".

Inductive Status : Type :=
  | StatusPending | StatusCreating | StatusRunning | StatusStopped | StatusRestarting
  | StatusFrozen | StatusError | StatusDeleting | StatusDeleted.
#[export] Instance Status_eq_dec : EqDecision Status.
Proof. solve_decision. Defined.

Record Instance_ : Type := mkInstance_ {
  Instance__ID : string;
  Instance__UserID : string;
  Instance__NodeID : string;
  Instance__Name : string;
  Instance__Type_ : string;
  Instance__Status : Status;
  Instance__CPUCores : Z;
  Instance__MemoryBytes : Z;
  Instance__StorageBytes : Z;
  Instance__Image : string;
  Instance__IPv4Address : string;
  Instance__IPv6Address : string;
  Instance__Config : Details;
  Instance__CreatedAt : Z;
  Instance__UpdatedAt : Z
}.
#[export] Instance Instance__eq_dec : EqDecision Instance_.
Proof. solve_decision. Defined.

Definition eta_Instance_ (r : Instance_) : Instance_ :=
  mkInstance_ (Instance__ID r) (Instance__UserID r) (Instance__NodeID r)
    (Instance__Name r) (Instance__Type_ r) (Instance__Status r) (Instance__CPUCores r)
    (Instance__MemoryBytes r) (Instance__StorageBytes r) (Instance__Image r)
    (Instance__IPv4Address r) (Instance__IPv6Address r) (Instance__Config r)
    (Instance__CreatedAt r) (Instance__UpdatedAt r).
#[export] Instance set_Instance__NodeID : Setter Instance__NodeID := ltac:(setter eta_Instance_ Instance__NodeID).
#[export] Instance set_Instance__Status : Setter Instance__Status := ltac:(setter eta_Instance_ Instance__Status).
#[export] Instance set_Instance__CPUCores : Setter Instance__CPUCores := ltac:(setter eta_Instance_ Instance__CPUCores).
#[export] Instance set_Instance__MemoryBytes : Setter Instance__MemoryBytes := ltac:(setter eta_Instance_ Instance__MemoryBytes).
#[export] Instance set_Instance__StorageBytes : Setter Instance__StorageBytes := ltac:(setter eta_Instance_ Instance__StorageBytes).
#[export] Instance set_Instance__IPv4Address : Setter Instance__IPv4Address := ltac:(setter eta_Instance_ Instance__IPv4Address).
#[export] Instance set_Instance__IPv6Address : Setter Instance__IPv6Address := ltac:(setter eta_Instance_ Instance__IPv6Address).
#[export] Instance set_Instance__UpdatedAt : Setter Instance__UpdatedAt := ltac:(setter eta_Instance_ Instance__UpdatedAt).

Definition Instance_Resource (i : Instance_) : Resource :=
  mkResource "instance" (Instance__ID i) (Instance__UserID i) "".

(** ** The store *)

Record MemoryInstanceStore : Type := mkMemoryInstanceStore {
  MemoryInstanceStore_heap : gmap nat Instance_;
  MemoryInstanceStore_next : nat;
  MemoryInstanceStore_instances : gmap string nat;
  MemoryInstanceStore_byName : gmap string nat
}.

Definition eta_MemoryInstanceStore (r : MemoryInstanceStore) : MemoryInstanceStore :=
  mkMemoryInstanceStore (MemoryInstanceStore_heap r) (MemoryInstanceStore_next r)
    (MemoryInstanceStore_instances r) (MemoryInstanceStore_byName r).
#[export] Instance set_MemoryInstanceStore_heap : Setter MemoryInstanceStore_heap := ltac:(setter eta_MemoryInstanceStore MemoryInstanceStore_heap).
#[export] Instance set_MemoryInstanceStore_next : Setter MemoryInstanceStore_next := ltac:(setter eta_MemoryInstanceStore MemoryInstanceStore_next).
#[export] Instance set_MemoryInstanceStore_instances : Setter MemoryInstanceStore_instances := ltac:(setter eta_MemoryInstanceStore MemoryInstanceStore_instances).
#[export] Instance set_MemoryInstanceStore_byName : Setter MemoryInstanceStore_byName := ltac:(setter eta_MemoryInstanceStore MemoryInstanceStore_byName).

Definition NewMemoryInstanceStore : MemoryInstanceStore := mkMemoryInstanceStore ∅ 0 ∅ ∅.

Definition load_instance (s : MemoryInstanceStore) (p : nat) : go MemoryInstanceStore Instance_ :=
  match MemoryInstanceStore_heap s !! p with
  | Some i => mret i
  | None => lift (panic "invalid memory address or nil pointer dereference")
  end.

Definition InstanceCreate (i : Instance_) : go MemoryInstanceStore () :=
  s ← get;
  match MemoryInstanceStore_byName s !! Instance__Name i with
  | Some _ => fail ErrInstanceAlreadyExists
  | None =>
      let p := MemoryInstanceStore_next s in
      put (s <| MemoryInstanceStore_heap := <[p := i]> (MemoryInstanceStore_heap s) |>
             <| MemoryInstanceStore_next := S p |>
             <| MemoryInstanceStore_instances :=
                  <[Instance__ID i := p]> (MemoryInstanceStore_instances s) |>
             <| MemoryInstanceStore_byName :=
                  <[Instance__Name i := p]> (MemoryInstanceStore_byName s) |>)
  end.

Definition lookup_instance (pick : MemoryInstanceStore → gmap string nat) (key : string) :
    go MemoryInstanceStore Instance_ :=
  s ← get;
  match pick s !! key with
  | Some p => load_instance s p
  | None => fail ErrInstanceNotFound
  end.

Definition InstanceGetByID : string → go MemoryInstanceStore Instance_ :=
  lookup_instance MemoryInstanceStore_instances.
Definition InstanceGetByName : string → go MemoryInstanceStore Instance_ :=
  lookup_instance MemoryInstanceStore_byName.

Fixpoint load_instances (s : MemoryInstanceStore) (es : list (string * nat)) :
    go MemoryInstanceStore (list Instance_) :=
  match es with
  | [] => mret []
  | (_, p) :: es => i ← load_instance s p; l ← load_instances s es; mret (i :: l)
  end.

Definition ListAll : go MemoryInstanceStore (list Instance_) :=
  s ← get;
  es ← range_map (MemoryInstanceStore_instances s);
  load_instances s es.

Definition ListByUser (userID : string) : go MemoryInstanceStore (list Instance_) :=
  l ← ListAll; mret (filter (λ i, Instance__UserID i = userID) l).
Definition ListByNode (nodeID : string) : go MemoryInstanceStore (list Instance_) :=
  l ← ListAll; mret (filter (λ i, Instance__NodeID i = nodeID) l).

Definition update_instance (id : string) (f : Z → Instance_ → Instance_) :
    go MemoryInstanceStore () :=
  s ← get;
  match MemoryInstanceStore_instances s !! id with
  | None => fail ErrInstanceNotFound
  | Some p =>
      i ← load_instance s p;
      now ← time_Now;
      modify (λ s, s <| MemoryInstanceStore_heap :=
                          <[p := f now i]> (MemoryInstanceStore_heap s) |>)
  end.

Definition InstanceUpdateStatus (id : string) (status : Status) (ipv4 ipv6 : string) :
    go MemoryInstanceStore () :=
  update_instance id (λ now i,
    let i := i <| Instance__Status := status |> in
    let i := if decide (ipv4 ≠ "") then i <| Instance__IPv4Address := ipv4 |> else i in
    let i := if decide (ipv6 ≠ "") then i <| Instance__IPv6Address := ipv6 |> else i in
    i <| Instance__UpdatedAt := now |>).

Definition UpdateSpec (id : string) (cpu memory storage : Z) : go MemoryInstanceStore () :=
  update_instance id (λ now i,
    i <| Instance__CPUCores := cpu |> <| Instance__MemoryBytes := memory |>
      <| Instance__StorageBytes := storage |> <| Instance__UpdatedAt := now |>).

Definition UpdateNodeID (id nodeID : string) : go MemoryInstanceStore () :=
  update_instance id (λ now i,
    i <| Instance__NodeID := nodeID |> <| Instance__UpdatedAt := now |>).

Definition InstanceDelete (id : string) : go MemoryInstanceStore () :=
  s ← get;
  match MemoryInstanceStore_instances s !! id with
  | None => fail ErrInstanceNotFound
  | Some p =>
      i ← load_instance s p;
      put (s <| MemoryInstanceStore_byName :=
                  delete (Instance__Name i) (MemoryInstanceStore_byName s) |>
             <| MemoryInstanceStore_instances :=
                  delete id (MemoryInstanceStore_instances s) |>)
  end.

(** ** The two maps agree *)

Definition instance_at (s : MemoryInstanceStore) (id : string) : option Instance_ :=
  MemoryInstanceStore_instances s !! id ≫= λ p, MemoryInstanceStore_heap s !! p.

Record instance_store_ok (s : MemoryInstanceStore) : Prop := {
  oki_fresh : ∀ p, (MemoryInstanceStore_next s ≤ p)%nat → MemoryInstanceStore_heap s !! p = None;
  oki_ids : ∀ id p, MemoryInstanceStore_instances s !! id = Some p →
    ∃ i, MemoryInstanceStore_heap s !! p = Some i ∧ Instance__ID i = id ∧
         MemoryInstanceStore_byName s !! Instance__Name i = Some p;
  oki_names : ∀ name p, MemoryInstanceStore_byName s !! name = Some p →
    ∃ i, MemoryInstanceStore_heap s !! p = Some i ∧ Instance__Name i = name ∧
         MemoryInstanceStore_instances s !! Instance__ID i = Some p
}.

(** One call of the repository; a new instance has a new identifier. *)
Inductive instance_step : MemoryInstanceStore → MemoryInstanceStore → Prop :=
  | is_create w s i : MemoryInstanceStore_instances s !! Instance__ID i = None →
      instance_step s (exec (InstanceCreate i) w s)
  | is_status w s id st v4 v6 : instance_step s (exec (InstanceUpdateStatus id st v4 v6) w s)
  | is_spec w s id c m d : instance_step s (exec (UpdateSpec id c m d) w s)
  | is_node w s id n : instance_step s (exec (UpdateNodeID id n) w s)
  | is_delete w s id : instance_step s (exec (InstanceDelete id) w s).

Lemma instance_store_ok_new : instance_store_ok NewMemoryInstanceStore.
Proof. by split. Qed.

Lemma update_instance_ok id f w s :
  (∀ now i, Instance__ID (f now i) = Instance__ID i ∧ Instance__Name (f now i) = Instance__Name i) →
  instance_store_ok s → instance_store_ok (exec (update_instance id f) w s).
Proof.
  intros Hf Hok. unfold exec, update_instance, mbind, go_bind, get.
  destruct (MemoryInstanceStore_instances s !! id) as [p|] eqn:Hp; [|done]. simpl.
  unfold load_instance. destruct (MemoryInstanceStore_heap s !! p) as [i|] eqn:Hi; [|done]. simpl.
  destruct (Hf (now_of w) i) as [Hid Hname].
  assert (∀ q j, MemoryInstanceStore_heap s !! q = Some j →
    ∃ j', <[p := f (now_of w) i]> (MemoryInstanceStore_heap s) !! q = Some j' ∧
      Instance__ID j' = Instance__ID j ∧ Instance__Name j' = Instance__Name j) as Hk.
  { intros q j Hj. rewrite lookup_insert. case_decide; subst; [|by exists j].
    eexists. split; [done|]. assert (j = i) as -> by congruence. done. }
  destruct Hok as [Hfr Hids Hnames]. split; simpl.
  - intros q Hq. rewrite lookup_insert_ne; [by apply Hfr|]. intros ->. rewrite Hfr in Hi; done.
  - intros k q Hkq. destruct (Hids k q Hkq) as (j & Hj & <- & Hn).
    destruct (Hk q j Hj) as (j' & Hj' & H1 & H2). exists j'. by rewrite H2.
  - intros k q Hkq. destruct (Hnames k q Hkq) as (j & Hj & <- & Hn).
    destruct (Hk q j Hj) as (j' & Hj' & H1 & H2). exists j'. by rewrite H1.
Qed.

Lemma InstanceCreate_ok i w s :
  MemoryInstanceStore_instances s !! Instance__ID i = None →
  instance_store_ok s → instance_store_ok (exec (InstanceCreate i) w s).
Proof.
  intros Hid [Hfr Hids Hnames]. unfold exec, InstanceCreate, mbind, go_bind, get, put.
  destruct (MemoryInstanceStore_byName s !! Instance__Name i) eqn:Hname; [by split|]. simpl.
  set (l := MemoryInstanceStore_next s) in *.
  assert (∀ p j, MemoryInstanceStore_heap s !! p = Some j → p ≠ l) as Hne.
  { intros p j Hj ->. rewrite Hfr in Hj; done. }
  split; simpl.
  - intros p Hp. rewrite lookup_insert_ne by lia. apply Hfr. lia.
  - intros k p. rewrite lookup_insert. case_decide; subst.
    + intros [= <-]. exists i. by rewrite !lookup_insert_eq.
    + intros Hk. destruct (Hids k p Hk) as (j & Hj & Hjk & Hjn). exists j.
      rewrite lookup_insert_ne by (intros ->; by eapply Hne).
      split_and!; [done..|]. rewrite lookup_insert_ne; [done|]. intros Eq.
      rewrite <-Eq in Hjn. congruence.
  - intros k p. rewrite lookup_insert. case_decide; subst.
    + intros [= <-]. exists i. by rewrite !lookup_insert_eq.
    + intros Hk. destruct (Hnames k p Hk) as (j & Hj & Hjk & Hjn). exists j.
      rewrite lookup_insert_ne by (intros ->; by eapply Hne).
      split_and!; [done..|]. rewrite lookup_insert_ne; [done|]. intros Eq.
      rewrite <-Eq in Hjn. congruence.
Qed.

Lemma InstanceDelete_ok id w s :
  instance_store_ok s → instance_store_ok (exec (InstanceDelete id) w s).
Proof.
  intros Hok. unfold exec, InstanceDelete, mbind, go_bind, get, put.
  destruct (MemoryInstanceStore_instances s !! id) as [p|] eqn:Hp; [|done].
  destruct (oki_ids s Hok id p Hp) as (i & Hi & Hid & Hname). unfold load_instance. rewrite Hi.
  simpl. destruct Hok as [Hfr Hids Hnames]. split; simpl; [done|..].
  - intros k q [Hne Hk]%lookup_delete_Some. destruct (Hids k q Hk) as (j & Hj & Hjk & Hjn).
    exists j. split_and!; [done..|]. rewrite lookup_delete_ne; [done|]. intros Eq.
    rewrite <-Eq, Hname in Hjn. injection Hjn as <-. congruence.
  - intros k q [Hne Hk]%lookup_delete_Some. destruct (Hnames k q Hk) as (j & Hj & Hjk & Hjn).
    exists j. split_and!; [done..|]. rewrite lookup_delete_ne; [done|]. intros Eq.
    rewrite <-Eq, Hp in Hjn. injection Hjn as <-. congruence.
Qed.

Lemma instance_step_ok s s' : instance_step s s' → instance_store_ok s → instance_store_ok s'.
Proof.
  intros [] Hok.
  - by apply InstanceCreate_ok.
  - apply update_instance_ok; [|done]. intros now i. by repeat case_decide.
  - by apply update_instance_ok.
  - by apply update_instance_ok.
  - by apply InstanceDelete_ok.
Qed.

Lemma lookup_instance_run pick key w s p i :
  pick s !! key = Some p → MemoryInstanceStore_heap s !! p = Some i →
  lookup_instance pick key w s = (Ok i, s, w).
Proof.
  intros Hp Hi. unfold lookup_instance, mbind, go_bind, get, load_instance. by rewrite Hp, Hi.
Qed.

(** The two indexes agree: after any history of repository calls the record
    found by an identifier is the one found by its name, and conversely, so
    no two instances share a name and no deleted one is left in an index. *)
Theorem instance_indexes_agree (s : MemoryInstanceStore) (w : World) :
  rtc instance_step NewMemoryInstanceStore s →
  (∀ id i, answer (InstanceGetByID id) w s = Ok i →
     Instance__ID i = id ∧ answer (InstanceGetByName (Instance__Name i)) w s = Ok i) ∧
  (∀ name i, answer (InstanceGetByName name) w s = Ok i →
     Instance__Name i = name ∧ answer (InstanceGetByID (Instance__ID i)) w s = Ok i).
Proof.
  intros Hr. assert (instance_store_ok s) as Hok.
  { pose proof instance_store_ok_new as H0. revert H0.
    induction Hr as [|s1 s2 s3 H12 _ IH]; [done|]. intros H0. apply IH.
    by eapply instance_step_ok. }
  unfold answer, InstanceGetByID, InstanceGetByName. split.
  - intros id i. destruct (MemoryInstanceStore_instances s !! id) as [p|] eqn:Hp.
    + destruct (oki_ids s Hok id p Hp) as (j & Hj & Hid & Hname).
      rewrite (lookup_instance_run _ _ w s p j Hp Hj). intros [= <-]. split; [done|].
      by rewrite (lookup_instance_run _ _ w s p j Hname Hj).
    + unfold lookup_instance, mbind, go_bind, get. by rewrite Hp.
  - intros name i. destruct (MemoryInstanceStore_byName s !! name) as [p|] eqn:Hp.
    + destruct (oki_names s Hok name p Hp) as (j & Hj & Hid & Hname).
      rewrite (lookup_instance_run _ _ w s p j Hp Hj). intros [= <-]. split; [done|].
      by rewrite (lookup_instance_run _ _ w s p j Hname Hj).
    + unfold lookup_instance, mbind, go_bind, get. by rewrite Hp.
Qed.

(** The list holds every instance of a well-formed store, once. *)
Lemma ListAll_run w s :
  instance_store_ok s → World_ok w →
  ∃ l, ListAll w s = (Ok l, s, next_range w) ∧
    l ≡ₚ omap (λ kp, MemoryInstanceStore_heap s !! kp.2)
           (map_to_list (MemoryInstanceStore_instances s)) ∧
    ∀ i, i ∈ l ↔ instance_at s (Instance__ID i) = Some i.
Proof.
  intros Hok Hw. unfold ListAll. unfold mbind, go_bind, get, range_map.
  set (es := entries _ _).
  assert (∀ k p, (k, p) ∈ es ↔ MemoryInstanceStore_instances s !! k = Some p) as Hes
    by (intros k p; by apply elem_of_entries).
  assert (∀ es, (∀ k p, (k, p) ∈ es → is_Some (MemoryInstanceStore_heap s !! p)) →
    load_instances s es (next_range w) s =
      (Ok (omap (λ kp : string * nat, MemoryInstanceStore_heap s !! kp.2) es), s, next_range w))
    as Hload.
  { clear. induction es as [|[k p] es IH]; intros Hes; [done|].
    cbn [load_instances omap list_omap snd]. destruct (Hes k p) as [v Hv]; [by left|].
    unfold mbind, go_bind, load_instance. rewrite Hv. simpl. rewrite IH; [done|].
    intros k' p' Hin. apply (Hes k'). by right. }
  rewrite Hload.
  2:{ intros k p Hin%Hes. destruct (oki_ids s Hok k p Hin) as (i & -> & _). eauto. }
  eexists. split; [reflexivity|]. split.
  - apply omap_Permutation. subst es. by apply entries_perm.
  - intros i. rewrite list_elem_of_omap. split.
    + intros ([k p] & Hin%Hes & Hi). simpl in Hi.
      destruct (oki_ids s Hok k p Hin) as (j & Hj & Hid & _).
      assert (j = i) as -> by congruence. unfold instance_at. by rewrite Hid, Hin.
    + unfold instance_at.
      destruct (MemoryInstanceStore_instances s !! Instance__ID i) as [p|] eqn:Hp; [|done].
      simpl. intros Hi. exists (Instance__ID i, p). split; [by apply Hes|done].
Qed.

(** ** The instances as a list *)

(** The instances of a store, in some order. *)
Definition all_instances (s : MemoryInstanceStore) : list Instance_ :=
  omap (λ kp, MemoryInstanceStore_heap s !! kp.2) (map_to_list (MemoryInstanceStore_instances s)).

Lemma omap_heap_same (h h' : gmap nat Instance_) (l : list (string * nat)) :
  (∀ k p, (k, p) ∈ l → h' !! p = h !! p) →
  omap (λ kp, h' !! kp.2) l = omap (λ kp, h !! kp.2) l.
Proof.
  induction l as [|[k p] l IH]; intros Hl; [done|].
  assert (omap (λ kp, h' !! kp.2) l = omap (λ kp, h !! kp.2) l) as E
    by (apply IH; intros k' p' Hin; apply (Hl k'); by right).
  cbn [omap list_omap snd] in *. rewrite (Hl k p) by (by left). by rewrite E.
Qed.

(** Two identifiers never lead to one record. *)
Lemma instances_inj s id id' p :
  instance_store_ok s → MemoryInstanceStore_instances s !! id = Some p →
  MemoryInstanceStore_instances s !! id' = Some p → id = id'.
Proof.
  intros Hok H1 H2. destruct (oki_ids s Hok _ _ H1) as (i & Hi & <- & _).
  destruct (oki_ids s Hok _ _ H2) as (i' & Hi' & <- & _). congruence.
Qed.

Lemma quiet_load_instances s es : quiet (load_instances s es).
Proof.
  induction es as [|[k p] es IH]; cbn [load_instances]; [auto with go|].
  apply quiet_bind; [unfold load_instance; quiet|]. intros v. apply quiet_bind; [done|]. quiet.
Qed.

(** The record of [id] and the others. *)
Lemma all_instances_split s id p i :
  MemoryInstanceStore_instances s !! id = Some p → MemoryInstanceStore_heap s !! p = Some i →
  all_instances s ≡ₚ i :: omap (λ kp, MemoryInstanceStore_heap s !! kp.2)
    (map_to_list (delete id (MemoryInstanceStore_instances s))).
Proof.
  intros Hp Hi. unfold all_instances. rewrite <-(map_to_list_delete _ _ _ Hp).
  cbn [omap list_omap snd]. by rewrite Hi.
Qed.

Lemma InstanceCreate_run i w s :
  (∃ e, InstanceCreate i w s = (Err e, s, w)) ∨
  (∃ s', InstanceCreate i w s = (Ok (), s', w) ∧
    (instance_store_ok s → MemoryInstanceStore_instances s !! Instance__ID i = None →
     instance_at s' (Instance__ID i) = Some i ∧ all_instances s' ≡ₚ i :: all_instances s)).
Proof.
  unfold InstanceCreate, mbind, go_bind, get, put, fail.
  destruct (MemoryInstanceStore_byName s !! Instance__Name i) eqn:Hname; [left; by eexists|].
  right. eexists. split; [reflexivity|]. intros Hok Hid.
  unfold instance_at, all_instances. cbn. split.
  { rewrite lookup_insert_eq. cbn. by rewrite lookup_insert_eq. }
  rewrite map_to_list_insert by done. cbn [omap list_omap snd]. rewrite lookup_insert_eq.
  f_equiv. erewrite omap_heap_same; [done|]. intros k p Hin%elem_of_map_to_list.
  destruct (oki_ids s Hok _ _ Hin) as (j & Hj & _). rewrite lookup_insert_ne; [done|].
  intros <-. rewrite (oki_fresh s Hok) in Hj; [done|lia].
Qed.

(** An update of one record leaves the others alone. *)
Lemma update_instance_run id f w s :
  instance_store_ok s →
  match instance_at s id with
  | None => update_instance id f w s = (Err ErrInstanceNotFound, s, w)
  | Some i => ∃ s' rest, update_instance id f w s = (Ok (), s', tick w) ∧
      instance_at s' id = Some (f (now_of w) i) ∧
      all_instances s ≡ₚ i :: rest ∧ all_instances s' ≡ₚ f (now_of w) i :: rest
  end.
Proof.
  intros Hok. unfold instance_at, update_instance, mbind, go_bind, get, load_instance, fail.
  destruct (MemoryInstanceStore_instances s !! id) as [p|] eqn:Hp; [|done]. simpl.
  destruct (oki_ids s Hok _ _ Hp) as (i & Hi & _). rewrite Hi. simpl.
  do 2 eexists. split; [reflexivity|]. cbn. split.
  { rewrite Hp. cbn. by rewrite lookup_insert_eq. }
  split; [exact (all_instances_split s id p i Hp Hi)|].
  rewrite (all_instances_split _ id p) by (cbn; done || by rewrite lookup_insert_eq).
  cbn. f_equiv. erewrite omap_heap_same; [done|].
  intros k q [Hne Hq]%elem_of_map_to_list%lookup_delete_Some.
  rewrite lookup_insert_ne; [done|]. intros <-. apply Hne. exact (instances_inj s id k p Hok Hp Hq).
Qed.

(** The record of [id], if there is one, became its image under [g]; the other
    records stayed. *)
Definition updated (s s' : MemoryInstanceStore) (id : string) (g : Instance_ → Instance_) : Prop :=
  match instance_at s id with
  | None => s' = s
  | Some i => ∃ rest, instance_at s' id = Some (g i) ∧
      all_instances s ≡ₚ i :: rest ∧ all_instances s' ≡ₚ g i :: rest
  end.

Lemma updated_trans s1 s2 s3 id g h :
  updated s1 s2 id g → updated s2 s3 id h → updated s1 s3 id (λ i, h (g i)).
Proof.
  unfold updated. destruct (instance_at s1 id) as [i|] eqn:E.
  - intros (r1 & E2 & H1 & H2) H3. rewrite E2 in H3. destruct H3 as (r2 & E3 & H4 & H5).
    exists r1. split; [done|]. split; [done|]. rewrite H5. f_equiv.
    apply (Permutation_cons_inv (a := g i)). by rewrite <-H4.
  - intros ->. by rewrite E.
Qed.

Lemma wp_update_instance id f (P : result () → MemoryInstanceStore → World → Prop) w s :
  instance_store_ok s →
  (∀ now i, Instance__ID (f now i) = Instance__ID i ∧ Instance__Name (f now i) = Instance__Name i) →
  (∀ r s' w', instance_store_ok s' → updated s s' id (f (now_of w)) → P r s' w') →
  wp (update_instance id f) P w s.
Proof.
  intros Hok Hf HP. pose proof (update_instance_run id f w s Hok) as Hrun.
  pose proof (update_instance_ok id f w s Hf Hok) as Hok'. unfold updated in HP.
  destruct (instance_at s id) as [i|] eqn:E.
  - destruct Hrun as (s' & rest & Hrun & Hat & Hp & Hp'). unfold exec in Hok'. rewrite Hrun in Hok'.
    apply (proj2 (wp_run _ _ _ _ _ _ _ Hrun)). apply HP; [done|]. by exists rest.
  - apply (proj2 (wp_run _ _ _ _ _ _ _ Hrun)). by apply HP.
Qed.

Lemma InstanceDelete_run id w s :
  instance_store_ok s →
  match instance_at s id with
  | None => InstanceDelete id w s = (Err ErrInstanceNotFound, s, w)
  | Some i => ∃ s', InstanceDelete id w s = (Ok (), s', w) ∧
      all_instances s ≡ₚ i :: all_instances s'
  end.
Proof.
  intros Hok. unfold instance_at, InstanceDelete, mbind, go_bind, get, load_instance, fail, put.
  destruct (MemoryInstanceStore_instances s !! id) as [p|] eqn:Hp; [|done]. simpl.
  destruct (oki_ids s Hok _ _ Hp) as (i & Hi & _). rewrite Hi. simpl.
  eexists. split; [reflexivity|]. exact (all_instances_split s id p i Hp Hi).
Qed.

Lemma InstanceGetByID_run id w s :
  instance_store_ok s →
  InstanceGetByID id w s =
    (match instance_at s id with Some i => Ok i | None => Err ErrInstanceNotFound end, s, w).
Proof.
  intros Hok. unfold InstanceGetByID, lookup_instance, instance_at, mbind, go_bind, get, fail.
  destruct (MemoryInstanceStore_instances s !! id) as [p|] eqn:Hp; [|done]. simpl.
  destruct (oki_ids s Hok _ _ Hp) as (i & Hi & _). unfold load_instance. by rewrite Hi.
Qed.

Lemma instance_at_ID s id i : instance_store_ok s → instance_at s id = Some i → Instance__ID i = id.
Proof.
  intros Hok. unfold instance_at.
  destruct (MemoryInstanceStore_instances s !! id) as [p|] eqn:Hp; [|done]. simpl.
  intros Hi. destruct (oki_ids s Hok _ _ Hp) as (j & Hj & Hid & _). congruence.
Qed.

Definition demo_instance : Instance_ :=
  mkInstance_ "i1" "u1" "n1" "web" TypeContainer StatusRunning 2 (2 ^ 30) (2 ^ 33) "debian" "" ""
    ∅ 0 0.

Definition demo_instances : MemoryInstanceStore :=
  exec (InstanceCreate demo_instance) (calm 0) NewMemoryInstanceStore.

Lemma instance_indexes_agree_witness :
  answer (InstanceGetByID "i1") (calm 1) demo_instances = Ok demo_instance ∧
  answer (InstanceGetByName "web") (calm 1) demo_instances = Ok demo_instance.
Proof.
  split; [reflexivity|].
  destruct (instance_indexes_agree demo_instances (calm 1)) as [H _].
  - apply rtc_once. exact (is_create (calm 0) NewMemoryInstanceStore demo_instance eq_refl).
  - destruct (H "i1" demo_instance eq_refl) as [_ H2]. exact H2.
Defined.
