(* ===== verification/Scheduler.v ===== *)
(** * Placement

    [internal/app/scheduler/scheduler.go] on the types of
    [internal/domain/placement/placement.go]: every node is a candidate, the
    eligible ones are ranked by how evenly they would be loaded. *)

From S2P Require Import Prelude Identity Node Instances.

Definition ErrNoEligibleNodes :=
  ErrNew "placement" "no eligible hypervisor nodes match placement requirements".

Record Request : Type := mkRequest {
  Request_InstanceName : string;
  Request_InstanceType : string;
  Request_CPUCores : Z;
  Request_MemoryBytes : Z;
  Request_StorageBytes : Z;
  Request_Architecture : string;
  Request_LocationID : string;
  Request_PreferredNodeID : string;
  Request_ExcludeNodeIDs : list string;
  Request_RequiredFeatures : list string
}.

Record NodeCandidate : Type := mkNodeCandidate {
  NodeCandidate_Node : Node.Node;
  NodeCandidate_AvailableCPUCores : float64;
  NodeCandidate_AvailableMemoryMB : Z;
  NodeCandidate_AvailableStorageGB : Z;
  NodeCandidate_CurrentInstances : Z;
  NodeCandidate_Score : float64;
  NodeCandidate_Eligible : bool;
  NodeCandidate_IneligibleReason : string
}.

Definition eta_NodeCandidate (r : NodeCandidate) : NodeCandidate :=
  mkNodeCandidate (NodeCandidate_Node r) (NodeCandidate_AvailableCPUCores r)
    (NodeCandidate_AvailableMemoryMB r) (NodeCandidate_AvailableStorageGB r)
    (NodeCandidate_CurrentInstances r) (NodeCandidate_Score r)
    (NodeCandidate_Eligible r) (NodeCandidate_IneligibleReason r).
#[export] Instance set_NodeCandidate_AvailableCPUCores : Setter NodeCandidate_AvailableCPUCores := ltac:(setter eta_NodeCandidate NodeCandidate_AvailableCPUCores).
#[export] Instance set_NodeCandidate_AvailableMemoryMB : Setter NodeCandidate_AvailableMemoryMB := ltac:(setter eta_NodeCandidate NodeCandidate_AvailableMemoryMB).
#[export] Instance set_NodeCandidate_AvailableStorageGB : Setter NodeCandidate_AvailableStorageGB := ltac:(setter eta_NodeCandidate NodeCandidate_AvailableStorageGB).
#[export] Instance set_NodeCandidate_CurrentInstances : Setter NodeCandidate_CurrentInstances := ltac:(setter eta_NodeCandidate NodeCandidate_CurrentInstances).
#[export] Instance set_NodeCandidate_Score : Setter NodeCandidate_Score := ltac:(setter eta_NodeCandidate NodeCandidate_Score).
#[export] Instance set_NodeCandidate_Eligible : Setter NodeCandidate_Eligible := ltac:(setter eta_NodeCandidate NodeCandidate_Eligible).
#[export] Instance set_NodeCandidate_IneligibleReason : Setter NodeCandidate_IneligibleReason := ltac:(setter eta_NodeCandidate NodeCandidate_IneligibleReason).

Record PlacementDecision : Type := mkPlacementDecision {
  PlacementDecision_SelectedNode : Node.Node;
  PlacementDecision_Candidates : list NodeCandidate;
  PlacementDecision_Reason : string
}.

(** ** The load of each node *)

Record Allocation : Type := mkAllocation {
  Allocation_cpuCores : Z;
  Allocation_memoryBytes : Z;
  Allocation_storageBytes : Z;
  Allocation_count : Z
}.
#[export] Instance Allocation_eq_dec : EqDecision Allocation.
Proof. solve_decision. Defined.

Definition no_allocation : Allocation := mkAllocation 0 0 0 0.

Definition holds_resources (i : Instance_) : Prop :=
  Instance__Status i ≠ StatusDeleted ∧ Instance__Status i ≠ StatusPending.
#[export] Instance holds_resources_dec i : Decision (holds_resources i).
Proof. unfold holds_resources. apply _. Defined.

Definition add_instance (m : gmap string Allocation) (i : Instance_) : gmap string Allocation :=
  if decide (holds_resources i) then
    let a := default no_allocation (m !! Instance__NodeID i) in
    <[Instance__NodeID i := mkAllocation (add64 (Allocation_cpuCores a) (Instance__CPUCores i))
        (add64 (Allocation_memoryBytes a) (Instance__MemoryBytes i))
        (add64 (Allocation_storageBytes a) (Instance__StorageBytes i))
        (add64 (Allocation_count a) 1)]> m
  else m.

Definition nodeAllocations (instances : list Instance_) : gmap string Allocation :=
  foldl add_instance ∅ instances.

(** ** One candidate *)

Definition capability (n : Node) (key : string) : option any :=
  c ← Node_Capabilities n; c !! key.

Definition node_arch (n : Node) : string :=
  match capability n "architecture" with
  | Some (AnyStr a) => if decide (a ≠ "") then ToLower a else "x86_64"
  | _ => "x86_64"
  end.

Definition lacks_kvm (req : Request) (n : Node) : Prop :=
  Request_InstanceType req = TypeVirtualMachine ∧ capability n "kvm_supported" = Some (AnyBool false).
#[export] Instance lacks_kvm_dec req n : Decision (lacks_kvm req n).
Proof. unfold lacks_kvm. apply _. Defined.

Definition ratio_or_one (r : float64) : float64 := if fle r (of_int 0) then of_int 1 else r.

Definition maxCPUCores (n : Node) : float64 :=
  let m := fmul (of_int (Node_CPUCores n)) (ratio_or_one (Node_CPUOvercommitRatio n)) in
  if fle m (of_int 0) then of_int 128 else m.
Definition maxMemoryBytes (n : Node) : Z :=
  let m := to_int64 (fmul (of_int (Node_MemoryBytes n))
                       (ratio_or_one (Node_MemoryOvercommitRatio n))) in
  if decide (m ≤ 0) then 512 * 1024 * 1024 * 1024 else m.
Definition maxStorageBytes (n : Node) : Z :=
  if decide (Node_StorageBytes n ≤ 0) then 2000 * 1024 * 1024 * 1024 else Node_StorageBytes n.

Definition reject (c : NodeCandidate) (reason : string) : NodeCandidate :=
  c <| NodeCandidate_Eligible := false |> <| NodeCandidate_IneligibleReason := reason |>.

Definition MB : Z := 1024 * 1024.
Definition GB : Z := 1024 * 1024 * 1024.

(** Steps 1 to 5: the reason a node is not considered. *)
Definition prefilter (req : Request) (n : Node) : option string :=
  if decide (Node_ID n ∈ Request_ExcludeNodeIDs req) then Some "node is in excluded list"
  else if negb (IsSchedulable n) then
    Some (if Node_MaintenanceMode n then "node is in maintenance mode"
          else if Node_DrainMode n then "node is draining workloads"
          else "node health status is " +:+ status_text (Node_Status n))
  else if decide (Request_LocationID req ≠ "" ∧ Node_LocationID n ≠ Request_LocationID req) then
    Some ("location mismatch (node: " +:+ Node_LocationID n +:+ ", required: " +:+
          Request_LocationID req +:+ ")")
  else if decide (Request_Architecture req ≠ "" ∧
                  ¬ EqualFold (Request_Architecture req) (node_arch n)) then
    Some ("architecture mismatch (node: " +:+ node_arch n +:+ ", required: " +:+
          Request_Architecture req +:+ ")")
  else if decide (lacks_kvm req n) then
    Some "node does not support KVM hardware virtualization"
  else None.

Definition score (req : Request) (n : Node) (a : Allocation) : float64 :=
  let cpuUtilRatio := fdiv (of_int (add64 (Allocation_cpuCores a) (Request_CPUCores req)))
                        (maxCPUCores n) in
  let memUtilRatio := fdiv (of_int (add64 (Allocation_memoryBytes a) (Request_MemoryBytes req)))
                        (of_int (maxMemoryBytes n)) in
  let half := flit 1 2 in
  let s := fmul (fadd (fmul (fsub (of_int 1) cpuUtilRatio) half)
                      (fmul (fsub (of_int 1) memUtilRatio) half)) (of_int 100) in
  if decide (Request_PreferredNodeID req = Node_ID n) then fadd s (of_int 15) else s.

Definition evaluate (req : Request) (allocs : gmap string Allocation) (n : Node) :
    NodeCandidate :=
  let c := mkNodeCandidate n (of_int 0) 0 0 0 (of_int 0) true "" in
  match prefilter req n with
  | Some reason => reject c reason
  | None =>
      let a := default no_allocation (allocs !! Node_ID n) in
      let freeMemory := sub64 (maxMemoryBytes n) (Allocation_memoryBytes a) in
      let freeStorage := sub64 (maxStorageBytes n) (Allocation_storageBytes a) in
      let c := c <| NodeCandidate_CurrentInstances := Allocation_count a |>
                 <| NodeCandidate_AvailableCPUCores :=
                      fsub (maxCPUCores n) (of_int (Allocation_cpuCores a)) |>
                 <| NodeCandidate_AvailableMemoryMB := quot64 freeMemory MB |>
                 <| NodeCandidate_AvailableStorageGB := quot64 freeStorage GB |> in
      if fgt (of_int (Request_CPUCores req)) (NodeCandidate_AvailableCPUCores c) then
        reject c ("insufficient CPU capacity (available: " +:+
                  fmt_f 1 (NodeCandidate_AvailableCPUCores c) +:+ ", required: " +:+
                  fmt_d (Request_CPUCores req) +:+ ")")
      else if decide (freeMemory < Request_MemoryBytes req) then
        reject c ("insufficient memory capacity (available: " +:+
                  fmt_d (NodeCandidate_AvailableMemoryMB c) +:+ "MB, required: " +:+
                  fmt_d (quot64 (Request_MemoryBytes req) MB) +:+ "MB)")
      else if decide (freeStorage < Request_StorageBytes req) then
        reject c ("insufficient storage capacity (available: " +:+
                  fmt_d (NodeCandidate_AvailableStorageGB c) +:+ "GB, required: " +:+
                  fmt_d (quot64 (Request_StorageBytes req) GB) +:+ "GB)")
      else c <| NodeCandidate_Score := score req n a |>
  end.

(** ** The engine *)

Record SchedulerState := mkSchedulerState {
  ss_nodes : MemoryNodeStore;
  ss_instances : MemoryInstanceStore
}.

Definition EvaluateCandidates (req : Request) : go SchedulerState (list NodeCandidate) :=
  nodes ← wrap_err (λ e, Wrapf ("failed to list nodes for scheduling: " +:+ Error e) e)
            (zoom ss_nodes (λ x s, mkSchedulerState x (ss_instances s)) NodeList);
  instances ← wrap_err
    (λ e, Wrapf ("failed to list instances for capacity calculation: " +:+ Error e) e)
    (zoom ss_instances (λ x s, mkSchedulerState (ss_nodes s) x) ListAll);
  mret (evaluate req (nodeAllocations instances) <$> nodes).

Definition by_score (a b : NodeCandidate) : bool :=
  fgt (NodeCandidate_Score a) (NodeCandidate_Score b).

Definition rejection (c : NodeCandidate) : option string :=
  if decide (NodeCandidate_IneligibleReason c ≠ "")
  then Some (Node_Name (NodeCandidate_Node c) +:+ " (" +:+ NodeCandidate_IneligibleReason c +:+ ")")
  else None.

Definition SelectNode `{SortSlice} (req : Request) : go SchedulerState PlacementDecision :=
  candidates ← EvaluateCandidates req;
  let eligible := filter (λ c, NodeCandidate_Eligible c = true) candidates in
  if decide (length eligible = 0%nat) then
    fail (Wrapf (Error ErrNoEligibleNodes +:+ ": " +:+
                 strings_Join (omap rejection candidates) ", ") ErrNoEligibleNodes)
  else
    match sort_Slice by_score eligible with
    | [] => lift (panic "index out of range")
    | c :: _ =>
        let selected := NodeCandidate_Node c in
        mret (mkPlacementDecision selected candidates
          ("Selected " +:+ Node_Name selected +:+ " with capacity score " +:+
           fmt_f 2 (NodeCandidate_Score c)))
    end.

(** ** The load is the sum over the hosted instances *)

(** The instances of a list that take resources on node [id]. *)
Definition hosted (l : list Instance_) (id : string) : list Instance_ :=
  filter (λ i, holds_resources i ∧ Instance__NodeID i = id) l.

Definition total (f : Instance_ → Z) (l : list Instance_) : Z := foldr (λ i acc, f i + acc) 0 l.

Lemma total_app f l1 l2 : total f (l1 ++ l2) = total f l1 + total f l2.
Proof. unfold total. induction l1; simpl; lia. Qed.

Lemma total_perm f l1 l2 : l1 ≡ₚ l2 → total f l1 = total f l2.
Proof. unfold total. induction 1; simpl; lia. Qed.

(** What one instance adds to the load of a node. *)
Definition share (f : Instance_ → Z) (i : Instance_) (id : string) : Z :=
  if decide (holds_resources i ∧ Instance__NodeID i = id) then f i else 0.

Lemma total_hosted_cons f i l id :
  total f (hosted (i :: l) id) = share f i id + total f (hosted l id).
Proof.
  unfold hosted, share. case_decide as Hi.
  - by rewrite filter_cons_True.
  - by rewrite filter_cons_False, Z.add_0_l.
Qed.

Lemma total_hosted_perm f l l' id : l ≡ₚ l' → total f (hosted l id) = total f (hosted l' id).
Proof. intros Hp. apply total_perm. unfold hosted. by apply filter_Permutation. Qed.

Lemma total_hosted_nonneg f l id : Forall (λ i, 0 ≤ f i) l → 0 ≤ total f (hosted l id).
Proof.
  induction 1 as [|i l Hi _ IH]; [done|]. rewrite total_hosted_cons. unfold share.
  case_decide; lia.
Qed.

Definition load_of (l : list Instance_) (id : string) : Allocation :=
  mkAllocation (wrap64 (total Instance__CPUCores (hosted l id)))
    (wrap64 (total Instance__MemoryBytes (hosted l id)))
    (wrap64 (total Instance__StorageBytes (hosted l id)))
    (wrap64 (Z.of_nat (length (hosted l id)))).

Lemma nodeAllocations_load l id : default no_allocation (nodeAllocations l !! id) = load_of l id.
Proof.
  unfold nodeAllocations. induction l as [|i l IH] using rev_ind; [done|].
  rewrite foldl_app. cbn [foldl]. unfold load_of, hosted in *. rewrite filter_app.
  unfold add_instance at 1. destruct (decide (holds_resources i)) as [Hh|Hh].
  - destruct (decide (Instance__NodeID i = id)) as [Hid|Hid].
    + subst id. rewrite lookup_insert_eq. cbv zeta. rewrite IH.
      rewrite (filter_cons_True _ i) by done. rewrite filter_nil, !total_app, length_app.
      cbn [default from_option Allocation_cpuCores Allocation_memoryBytes Allocation_storageBytes
        Allocation_count total foldr length]. unfold add64, id. rewrite !wrap64_add_l, !Z.add_0_r.
      do 2 f_equal. lia.
    + rewrite lookup_insert_ne by done. rewrite (filter_cons_False _ i) by tauto.
      by rewrite filter_nil, app_nil_r.
  - rewrite (filter_cons_False _ i) by tauto. by rewrite filter_nil, app_nil_r.
Qed.

Lemma load_of_perm l1 l2 id : l1 ≡ₚ l2 → load_of l1 id = load_of l2 id.
Proof.
  intros Hp. assert (hosted l1 id ≡ₚ hosted l2 id) as Hh by (by apply filter_Permutation).
  unfold load_of. by rewrite !(total_perm _ _ _ Hh), Hh.
Qed.

(** ** What the engine answers *)

Definition candidate (req : Request) (st : SchedulerState) (n : Node) : NodeCandidate :=
  evaluate req (nodeAllocations (all_instances (ss_instances st))) n.

Lemma evaluate_load req m1 m2 n :
  default no_allocation (m1 !! Node_ID n) = default no_allocation (m2 !! Node_ID n) →
  evaluate req m1 n = evaluate req m2 n.
Proof. intros Heq. unfold evaluate. by rewrite Heq. Qed.

Lemma EvaluateCandidates_run req w st :
  node_store_ok (ss_nodes st) → instance_store_ok (ss_instances st) → World_ok w →
  ∃ ns w', EvaluateCandidates req w st = (Ok (candidate req st <$> ns), st, w') ∧
    ∀ n, n ∈ ns ↔ node_at (ss_nodes st) (Node_ID n) = Some n.
Proof.
  intros Hn Hi Hw. unfold EvaluateCandidates, wrap_err, zoom, mbind, go_bind.
  destruct (NodeList_run w (ss_nodes st) Hn Hw) as (ns & -> & _ & Hns).
  destruct (ListAll_run (next_range w) (ss_instances st) Hi Hw) as (l & Hl & Hp & _).
  simpl. rewrite Hl. exists ns. eexists. split; [|done]. destruct st. unfold mret, go_ret.
  do 3 f_equal. apply list_fmap_ext. intros k n _. apply evaluate_load.
  rewrite !nodeAllocations_load. by apply load_of_perm.
Qed.

Lemma flt_irrefl_score c : NodeCandidate_Score c ≠ S754_nan → by_score c c = false.
Proof. intros Hc. unfold by_score, fgt. by apply flt_strict_weak. Qed.

Lemma by_score_weak :
  strict_weak_on (λ c, NodeCandidate_Score c ≠ S754_nan) by_score.
Proof.
  destruct flt_strict_weak as (Hirr & Htr & Hneg). unfold by_score, fgt. split_and!.
  - intros x. apply Hirr.
  - intros x y z Hx Hy Hz H1 H2. by apply (Htr _ (NodeCandidate_Score y) _).
  - intros x y z Hx Hy Hz H1 H2. by apply (Hneg _ (NodeCandidate_Score y) _).
Qed.

(** The evaluated answer: the first of the sorted eligible candidates. *)
Lemma SelectNode_run `{SortSlice} req w st :
  node_store_ok (ss_nodes st) → instance_store_ok (ss_instances st) → World_ok w →
  exec (SelectNode req) w st = st ∧
  match answer (SelectNode req) w st with
  | Ok d => ∃ n, PlacementDecision_SelectedNode d = n ∧ node_at (ss_nodes st) (Node_ID n) = Some n ∧
      NodeCandidate_Eligible (candidate req st n) = true ∧
      ((∀ n', node_at (ss_nodes st) (Node_ID n') = Some n' →
         NodeCandidate_Score (candidate req st n') ≠ S754_nan) →
       ∀ n', node_at (ss_nodes st) (Node_ID n') = Some n' →
         NodeCandidate_Eligible (candidate req st n') = true →
         fgt (NodeCandidate_Score (candidate req st n'))
             (NodeCandidate_Score (candidate req st n)) = false)
  | Err e => errors_Is e ErrNoEligibleNodes = true ∧
      ∀ n, node_at (ss_nodes st) (Node_ID n) = Some n →
        NodeCandidate_Eligible (candidate req st n) = false
  end.
Proof.
  intros Hn Hi Hw. unfold exec, answer, SelectNode, mbind, go_bind.
  destruct (EvaluateCandidates_run req w st Hn Hi Hw) as (ns & w' & -> & Hns).
  set (cs := candidate req st <$> ns). set (el := filter _ cs).
  assert (∀ c, c ∈ el ↔ ∃ n, node_at (ss_nodes st) (Node_ID n) = Some n ∧
    c = candidate req st n ∧ NodeCandidate_Eligible c = true) as Hel.
  { intros c. subst el cs. rewrite list_elem_of_filter, list_elem_of_fmap. split.
    - intros (He & n & -> & Hin). exists n. by rewrite <-Hns.
    - intros (n & Hat & -> & He). split; [done|]. exists n. by rewrite Hns. }
  destruct (decide (length el = 0%nat)) as [Hz|Hz].
  - split; [done|]. simpl. split; [reflexivity|].
    intros n Hat. apply nil_length_inv in Hz. destruct (NodeCandidate_Eligible _) eqn:Ee; [|done].
    assert (candidate req st n ∈ el) as Hin by (apply Hel; by exists n).
    rewrite Hz in Hin. by apply elem_of_nil in Hin.
  - destruct (sort_Slice by_score el) as [|c rest] eqn:Es.
    { exfalso. apply Hz. by rewrite <-(sort_Slice_perm by_score el), Es. }
    split; [done|]. simpl.
    assert (c ∈ el) as Hin by (rewrite <-(sort_Slice_perm by_score el), Es; by left).
    apply Hel in Hin as (n & Hat & -> & He). exists n. split.
    { unfold candidate, evaluate. by repeat case_match. }
    split_and!; [done|done|]. intros Hnan n' Hat' He'.
    assert (Forall (λ c, NodeCandidate_Score c ≠ S754_nan) el) as HP.
    { apply Forall_forall. intros x (m & Hm & -> & _)%Hel. by apply Hnan. }
    pose proof (sort_Slice_sorted _ by_score el by_score_weak HP) as Hsort. rewrite Es in Hsort.
    apply StronglySorted_inv in Hsort as [_ Hfirst].
    assert (candidate req st n' ∈ candidate req st n :: rest) as Hin'.
    { rewrite <-Es, sort_Slice_perm. apply Hel. by exists n'. }
    apply elem_of_cons in Hin' as [->|Hin'].
    + apply flt_irrefl_score. by apply Hnan.
    + rewrite Forall_forall in Hfirst. by apply Hfirst.
Qed.

(** The conditions of placement, stated on the node and its load. *)
Definition fits (req : Request) (st : SchedulerState) (n : Node) : Prop :=
  prefilter req n = None ∧
  let a := load_of (all_instances (ss_instances st)) (Node_ID n) in
  fgt (of_int (Request_CPUCores req)) (fsub (maxCPUCores n) (of_int (Allocation_cpuCores a))) = false ∧
  Request_MemoryBytes req ≤ sub64 (maxMemoryBytes n) (Allocation_memoryBytes a) ∧
  Request_StorageBytes req ≤ sub64 (maxStorageBytes n) (Allocation_storageBytes a).

Lemma eligible_fits req st n : NodeCandidate_Eligible (candidate req st n) = true ↔ fits req st n.
Proof.
  unfold candidate, evaluate, fits. rewrite nodeAllocations_load.
  destruct (prefilter req n) as [reason|]; simpl; [by split; [|intros [? _]]|].
  destruct (fgt _ _) eqn:Ef; simpl; [by split; [|intros (_ & ? & _)]|].
  case_decide; simpl; [split; [done|intros (_ & _ & ? & _); lia]|].
  case_decide; simpl; [split; [done|intros (_ & _ & _ & ?); lia]|].
  split; [|done]. intros _. split_and!; [done|done|lia|lia].
Qed.

Lemma prefilter_None req n :
  prefilter req n = None ↔
  (Node_ID n ∉ Request_ExcludeNodeIDs req) ∧ IsSchedulable n = true ∧
  (Request_LocationID req = "" ∨ Node_LocationID n = Request_LocationID req) ∧
  (Request_Architecture req = "" ∨ EqualFold (Request_Architecture req) (node_arch n)) ∧
  ¬ lacks_kvm req n.
Proof.
  unfold prefilter. repeat case_decide; destruct (IsSchedulable n) eqn:Es; simpl;
    (split; [try done; intros _|intros (? & ? & ? & ? & ?); try done; try tauto]).
  split_and!; [done|done| | |done].
  - destruct (decide (Request_LocationID req = "")); [by left|right].
    apply dec_stable. tauto.
  - destruct (decide (Request_Architecture req = "")); [by left|right].
    apply dec_stable. tauto.
Qed.

Lemma to_int64_ok x : int64_ok (to_int64 x).
Proof.
  unfold to_int64, int64_ok, min_int64. destruct x; try lia. case_decide; [done|lia].
Qed.

Lemma maxMemoryBytes_range n : 0 < maxMemoryBytes n < 2 ^ 63.
Proof.
  unfold maxMemoryBytes. cbv zeta. set (m := to_int64 _).
  pose proof (to_int64_ok (fmul (of_int (Node_MemoryBytes n))
    (ratio_or_one (Node_MemoryOvercommitRatio n)))) as Hm. unfold int64_ok in Hm.
  case_decide; lia.
Qed.

(** What fits has room, on top of what the node already hosts. *)
Lemma fits_room req st n :
  let here := hosted (all_instances (ss_instances st)) (Node_ID n) in
  fits req st n → Node_StorageBytes n < 2 ^ 63 →
  0 ≤ total Instance__MemoryBytes here < 2 ^ 63 → 0 ≤ total Instance__StorageBytes here < 2 ^ 63 →
  total Instance__MemoryBytes here + Request_MemoryBytes req ≤ maxMemoryBytes n ∧
  total Instance__StorageBytes here + Request_StorageBytes req ≤ maxStorageBytes n.
Proof.
  intros here (_ & _ & Hmem & Hsto) Hsn Hm Hs.
  unfold load_of in Hmem, Hsto. cbn [Allocation_memoryBytes Allocation_storageBytes] in *.
  fold here in Hmem, Hsto. pose proof (maxMemoryBytes_range n).
  assert (0 < maxStorageBytes n < 2 ^ 63) by (unfold maxStorageBytes; case_decide; lia).
  rewrite wrap64_id in Hmem, Hsto by (unfold int64_ok; lia).
  rewrite sub64_id in Hmem, Hsto by (unfold int64_ok; lia). lia.
Qed.

(** What the engine selects takes work and has room for the request. *)
Lemma selected_within `{SortSlice} req w st d :
  node_store_ok (ss_nodes st) → instance_store_ok (ss_instances st) → World_ok w →
  answer (SelectNode req) w st = Ok d →
  let n := PlacementDecision_SelectedNode d in
  let here := hosted (all_instances (ss_instances st)) (Node_ID n) in
  node_at (ss_nodes st) (Node_ID n) = Some n ∧ prefilter req n = None ∧
  (Node_StorageBytes n < 2 ^ 63 → 0 ≤ total Instance__MemoryBytes here < 2 ^ 63 →
   0 ≤ total Instance__StorageBytes here < 2 ^ 63 →
   total Instance__MemoryBytes here + Request_MemoryBytes req ≤ maxMemoryBytes n ∧
   total Instance__StorageBytes here + Request_StorageBytes req ≤ maxStorageBytes n).
Proof.
  intros Hn Hi Hw Hd n here.
  destruct (SelectNode_run req w st Hn Hi Hw) as [_ Hrun]. rewrite Hd in Hrun.
  destruct Hrun as (n' & Hn' & Hat & He & _). fold n in Hn'. subst n'.
  apply eligible_fits in He. split_and!; [done|apply He|]. by apply fits_room.
Qed.

(** No overcommitment: a node is only selected when it is schedulable, not
    excluded, in the requested location and of the requested architecture,
    and the memory and storage of all the instances it hosts plus the request
    stay within its (overcommitted) capacity. *)
Theorem placement_within_capacity `{SortSlice} (req : Request) (w : World) (st : SchedulerState)
    (d : PlacementDecision) :
  node_store_ok (ss_nodes st) → instance_store_ok (ss_instances st) → World_ok w →
  answer (SelectNode req) w st = Ok d →
  let n := PlacementDecision_SelectedNode d in
  let here := hosted (all_instances (ss_instances st)) (Node_ID n) in
  Node_StorageBytes n < 2 ^ 63 →
  0 ≤ total Instance__MemoryBytes here < 2 ^ 63 →
  0 ≤ total Instance__StorageBytes here < 2 ^ 63 →
  node_at (ss_nodes st) (Node_ID n) = Some n ∧ IsSchedulable n = true ∧
  (Node_ID n ∉ Request_ExcludeNodeIDs req) ∧
  (Request_LocationID req = "" ∨ Node_LocationID n = Request_LocationID req) ∧
  (Request_Architecture req = "" ∨ EqualFold (Request_Architecture req) (node_arch n)) ∧
  total Instance__MemoryBytes here + Request_MemoryBytes req ≤ maxMemoryBytes n ∧
  total Instance__StorageBytes here + Request_StorageBytes req ≤ maxStorageBytes n.
Proof.
  intros Hn Hi Hw Hd n here Hsn Hm Hs.
  destruct (selected_within req w st d Hn Hi Hw Hd) as (Hat & Hpre & Hfit).
  apply prefilter_None in Hpre as (? & ? & ? & ? & _).
  destruct (Hfit Hsn Hm Hs). split_and!; auto.
Qed.

(** The best fit: the engine fails, with [ErrNoEligibleNodes], exactly when
    no node fits the request; otherwise the selected node fits and no fitting
    node has a higher score, whatever the order of the maps and of the sort. *)
Theorem placement_best `{SortSlice} (req : Request) (w : World) (st : SchedulerState) :
  node_store_ok (ss_nodes st) → instance_store_ok (ss_instances st) → World_ok w →
  (∀ n, node_at (ss_nodes st) (Node_ID n) = Some n →
     NodeCandidate_Score (candidate req st n) ≠ S754_nan) →
  exec (SelectNode req) w st = st ∧
  match answer (SelectNode req) w st with
  | Ok d => let n := PlacementDecision_SelectedNode d in
      node_at (ss_nodes st) (Node_ID n) = Some n ∧ fits req st n ∧
      ∀ n', node_at (ss_nodes st) (Node_ID n') = Some n' → fits req st n' →
        fgt (NodeCandidate_Score (candidate req st n'))
            (NodeCandidate_Score (candidate req st n)) = false
  | Err e => errors_Is e ErrNoEligibleNodes = true ∧
      ∀ n, node_at (ss_nodes st) (Node_ID n) = Some n → ¬ fits req st n
  end.
Proof.
  intros Hn Hi Hw Hnan. destruct (SelectNode_run req w st Hn Hi Hw) as [Hx Hrun].
  split; [done|]. destruct (answer _ w st) as [d|e].
  - destruct Hrun as (n & -> & Hat & He & Hbest). split; [done|].
    split; [by apply eligible_fits|]. intros n' Hat' Hf. apply Hbest; [done|done|].
    by apply eligible_fits.
  - destruct Hrun as [He Hall]. split; [done|]. intros n Hat Hf%eligible_fits.
    by rewrite Hall in Hf.
Qed.

(** ** A concrete cluster *)

Section demo.
#[local] Existing Instance InsertionSort.

Definition demo_host (id : string) (cores : Z) : Node :=
  mkNode id "dc1" id (id +:+ ".example") StatusOnline "" cores (2 ^ 34) (2 ^ 40) (of_int 2)
    (of_int 1) None false false "" None None 0 0.

Definition demo_cluster : SchedulerState :=
  mkSchedulerState
    (exec (NodeCreate (demo_host "n2" 16)) (calm 0)
       (exec (NodeCreate (demo_host "n1" 4)) (calm 0) NewMemoryNodeStore)) demo_instances.

Definition demo_placement : Request :=
  mkRequest "web2" TypeContainer 2 (2 ^ 30) (2 ^ 33) "x86_64" "" "" [] [].

Lemma demo_nodes_ok : node_store_ok (ss_nodes demo_cluster).
Proof.
  destruct (NodeCreate_run (demo_host "n1" 4) (calm 0) NewMemoryNodeStore)
    as (s1 & H1 & Hok1 & _); [apply node_store_ok_new|reflexivity|reflexivity|].
  assert (s1 = exec (NodeCreate (demo_host "n1" 4)) (calm 0) NewMemoryNodeStore) as ->
    by (unfold exec; by rewrite H1).
  destruct (NodeCreate_run (demo_host "n2" 16) (calm 0)
    (exec (NodeCreate (demo_host "n1" 4)) (calm 0) NewMemoryNodeStore))
    as (s2 & H2 & Hok2 & _); [exact Hok1|reflexivity|reflexivity|].
  simpl. unfold exec in *. rewrite H2. exact Hok2.
Qed.

(** The nodes of the cluster. *)
Lemma demo_cluster_nodes n :
  node_at (ss_nodes demo_cluster) (Node_ID n) = Some n →
  n = demo_host "n1" 4 ∨ n = demo_host "n2" 16.
Proof.
  assert (MemoryNodeStore_nodes (ss_nodes demo_cluster) = {["n2" := 1%nat; "n1" := 0%nat]}) as Em
    by (vm_compute; reflexivity).
  intros Hn. destruct (decide (Node_ID n = "n1")) as [E|E].
  { left. rewrite E in Hn. vm_compute in Hn. by injection Hn. }
  destruct (decide (Node_ID n = "n2")) as [E'|E'].
  { right. rewrite E' in Hn. vm_compute in Hn. by injection Hn. }
  exfalso. unfold node_at in Hn.
  rewrite Em, lookup_insert_ne, lookup_singleton_ne in Hn by congruence. discriminate Hn.
Qed.

Lemma demo_instances_ok : instance_store_ok (ss_instances demo_cluster).
Proof. apply InstanceCreate_ok; [reflexivity|apply instance_store_ok_new]. Qed.

Lemma placement_within_capacity_witness : ∃ d,
  answer (SelectNode demo_placement) (calm 1) demo_cluster = Ok d ∧
  Node_ID (PlacementDecision_SelectedNode d) = "n2" ∧
  total Instance__MemoryBytes (hosted (all_instances demo_instances) "n2") + 2 ^ 30 ≤ 2 ^ 34.
Proof.
  destruct (answer (SelectNode demo_placement) (calm 1) demo_cluster) as [d|e] eqn:Ed;
    [|vm_compute in Ed; discriminate Ed].
  pose proof (placement_within_capacity demo_placement (calm 1) demo_cluster d demo_nodes_ok
    demo_instances_ok (calm_ok 1) Ed) as H. cbv zeta in H.
  assert (PlacementDecision_SelectedNode d = demo_host "n2" 16) as En
    by (vm_compute in Ed; injection Ed as <-; vm_compute; reflexivity).
  rewrite En in H. exists d. split; [reflexivity|]. split; [rewrite En; reflexivity|].
  destruct H as (_ & _ & _ & _ & _ & Hm & _).
  - vm_compute. reflexivity.
  - split; vm_compute; [discriminate|reflexivity].
  - split; vm_compute; [discriminate|reflexivity].
  - vm_compute in Hm |- *. exact Hm.
Defined.

Lemma placement_best_witness : ∃ d,
  answer (SelectNode demo_placement) (calm 1) demo_cluster = Ok d ∧
  fgt (NodeCandidate_Score (candidate demo_placement demo_cluster (demo_host "n1" 4)))
      (NodeCandidate_Score (candidate demo_placement demo_cluster (PlacementDecision_SelectedNode d))) = false.
Proof.
  destruct (placement_best demo_placement (calm 1) demo_cluster demo_nodes_ok demo_instances_ok
    (calm_ok 1)) as [_ H].
  - intros n [->| ->]%demo_cluster_nodes; vm_compute; discriminate.
  - destruct (answer (SelectNode demo_placement) (calm 1) demo_cluster) as [d|e] eqn:Ed.
    + exists d. split; [reflexivity|]. destruct H as (_ & _ & Hbest). apply Hbest.
      * vm_compute. reflexivity.
      * apply eligible_fits. vm_compute. reflexivity.
    + vm_compute in Ed. discriminate Ed.
Defined.
End demo.
