(* ===== verification/RateLimit.v ===== *)
(** * The rate limiter

    [internal/infra/memory/ratelimit_repo.go] behind
    [internal/app/ratelimit/service.go]: one bucket per prefixed key, refilled
    at once when its window has passed. *)

From S2P Require Import Prelude.

Record Rule : Type := mkRule {
  Rule_Name : string;
  Rule_Limit : Z;
  Rule_Window : Z;
  Rule_KeyPrefix : string
}.
#[export] Instance Rule_eq_dec : EqDecision Rule.
Proof. solve_decision. Defined.

Record Result : Type := mkResult {
  Result_Allowed : bool;
  Result_Limit : Z;
  Result_Remaining : Z;
  Result_ResetAfter : Z
}.
#[export] Instance Result_eq_dec : EqDecision Result.
Proof. solve_decision. Defined.

Record memoryBucket : Type := mkmemoryBucket {
  memoryBucket_tokens : Z;
  memoryBucket_maxTokens : Z;
  memoryBucket_lastRefillAt : Z;
  memoryBucket_window : Z
}.
#[export] Instance memoryBucket_eq_dec : EqDecision memoryBucket.
Proof. solve_decision. Defined.

Definition eta_memoryBucket (r : memoryBucket) : memoryBucket :=
  mkmemoryBucket (memoryBucket_tokens r) (memoryBucket_maxTokens r)
    (memoryBucket_lastRefillAt r) (memoryBucket_window r).
#[export] Instance set_memoryBucket_tokens : Setter memoryBucket_tokens := ltac:(setter eta_memoryBucket memoryBucket_tokens).
#[export] Instance set_memoryBucket_lastRefillAt : Setter memoryBucket_lastRefillAt := ltac:(setter eta_memoryBucket memoryBucket_lastRefillAt).

Abbreviation MemoryRateLimiter := (gmap string memoryBucket).

(** [fmt.Sprintf("%s:%s", prefix, key)]. *)
Definition bucketKey (prefix key : string) : string := prefix +:+ ":" +:+ key.

Definition Allow (key : string) (rule : Rule) : go MemoryRateLimiter Result :=
  now ← time_Now;
  buckets ← get;
  let k := bucketKey (Rule_KeyPrefix rule) key in
  let b := default (mkmemoryBucket (Rule_Limit rule) (Rule_Limit rule) now (Rule_Window rule))
             (buckets !! k) in
  let elapsed := time_Sub now (memoryBucket_lastRefillAt b) in
  let b := if decide (memoryBucket_window b ≤ elapsed)
           then b <| memoryBucket_tokens := memoryBucket_maxTokens b |>
                  <| memoryBucket_lastRefillAt := now |>
           else b in
  let resetAfter := sub64 (memoryBucket_window b) elapsed in
  if decide (0 < memoryBucket_tokens b) then
    let b := b <| memoryBucket_tokens := sub64 (memoryBucket_tokens b) 1 |> in
    put (<[k := b]> buckets) ;;
    mret (mkResult true (Rule_Limit rule) (memoryBucket_tokens b) resetAfter)
  else
    put (<[k := b]> buckets) ;;
    mret (mkResult false (Rule_Limit rule) 0 resetAfter).

Definition Reset (key keyPrefix : string) : go MemoryRateLimiter () :=
  modify (delete (bucketKey keyPrefix key)).

(** The port [Limiter]; the service works without one. *)
Class Limiter (L : Type) := {
  limiter_Allow : string → Rule → go L Result;
  limiter_Reset : string → string → go L ()
}.
#[export] Instance MemoryLimiter : Limiter MemoryRateLimiter := {
  limiter_Allow := Allow;
  limiter_Reset := Reset
}.

Definition CheckLimit `{!Limiter L} (present : bool) (key : string) (rule : Rule) : go L Result :=
  if present then limiter_Allow key rule
  else mret (mkResult true (Rule_Limit rule) (Rule_Limit rule) 0).

Definition Service_Reset `{!Limiter L} (present : bool) (key keyPrefix : string) : go L () :=
  if present then limiter_Reset key keyPrefix else mret ().

Definition RuleAuthAttempts := mkRule "auth_attempts" 10 (1 * Minute) "auth".
Definition RuleTokenRefresh := mkRule "token_refresh" 30 (1 * Minute) "refresh".
Definition RuleInstanceCreate := mkRule "instance_create" 15 (1 * Minute) "inst_create".
Definition RuleInstanceDelete := mkRule "instance_delete" 20 (1 * Minute) "inst_del".
Definition RuleConsoleSession := mkRule "console_session" 10 (1 * Minute) "console".
Definition RuleWebhookCreate := mkRule "webhook_create" 10 (1 * Minute) "wh_create".
Definition RuleAdminMutations := mkRule "admin_mutations" 60 (1 * Minute) "admin".

(** ** Streams of requests *)

Record Request := mkRequest { rq_world : World; rq_key : string; rq_rule : Rule }.

Definition rq_time (r : Request) : Z := now_of (rq_world r).
Definition rq_bucket (r : Request) : string := bucketKey (Rule_KeyPrefix (rq_rule r)) (rq_key r).

Definition serve_one (r : Request) (s : MemoryRateLimiter) : result Result * MemoryRateLimiter :=
  (answer (Allow (rq_key r) (rq_rule r)) (rq_world r) s,
   exec (Allow (rq_key r) (rq_rule r)) (rq_world r) s).

(** The answers to a stream. *)
Fixpoint serve (rs : list Request) (s : MemoryRateLimiter) : list (Request * result Result) :=
  match rs with
  | [] => []
  | r :: rs => let '(a, s) := serve_one r s in (r, a) :: serve rs s
  end.

Definition accepted (a : result Result) : bool :=
  match a with Ok res => Result_Allowed res | Err _ => false end.

(** How many requests on bucket [k] between [T] and [T + W] were accepted. *)
Definition accepted_in (k : string) (T W : Z) (l : list (Request * result Result)) : nat :=
  length (filter (λ ra, rq_bucket ra.1 = k ∧ T ≤ rq_time ra.1 < T + W ∧ accepted ra.2 = true) l).

Section bound.
Context (k : string) (rule : Rule) (T : Z).
#[local] Abbreviation L := (Rule_Limit rule).
#[local] Abbreviation W := (Rule_Window rule).
Context (HL : 0 ≤ L < 2 ^ 63) (HW : 0 < W < 2 ^ 63).

(** The refill of a bucket at [now], without the caller's effects. *)
Definition refill (now : Z) (o : option memoryBucket) : Z * Z :=
  match o with
  | None => (L, now)
  | Some b => if decide (W ≤ now - memoryBucket_lastRefillAt b) then (L, now)
              else (memoryBucket_tokens b, memoryBucket_lastRefillAt b)
  end.

Definition bucket_wf (now : Z) (o : option memoryBucket) : Prop :=
  match o with
  | None => True
  | Some b => 0 ≤ memoryBucket_tokens b ≤ L ∧ memoryBucket_maxTokens b = L ∧
              memoryBucket_window b = W ∧ memoryBucket_lastRefillAt b ≤ now
  end.

Lemma Allow_run r s :
  rq_rule r = rule → rq_bucket r = k → bucket_wf (rq_time r) (s !! k) →
  let '(t, last) := refill (rq_time r) (s !! k) in
  accepted (serve_one r s).1 = bool_decide (0 < t) ∧
  (serve_one r s).2 =
    <[k := mkmemoryBucket (if decide (0 < t) then t - 1 else t) L last W]> s.
Proof.
  intros Hr Hk Hwf. unfold serve_one, answer, exec, rq_bucket, rq_time in *.
  rewrite Hr in *. unfold Allow. go_unfold. rewrite Hk.
  set (now := now_of (rq_world r)) in *. unfold bucket_wf, refill in *.
  destruct (s !! k) as [b|]; simpl.
  - destruct Hwf as (Ht & Hm & Hw & Hl). destruct b as [t m last w]. simpl in *. subst m w.
    assert (W ≤ time_Sub now last ↔ W ≤ now - last) as Hsub
      by (unfold time_Sub, max_int64, min_int64; lia).
    destruct (decide (W ≤ time_Sub now last)) as [H1|H1]; simpl.
    + rewrite decide_True by (by apply Hsub).
      destruct (decide (0 < L)) as [H2|H2]; simpl.
      * rewrite sub64_id by (unfold int64_ok; lia). by rewrite bool_decide_eq_true_2.
      * by rewrite bool_decide_eq_false_2.
    + rewrite decide_False by (by rewrite <-Hsub).
      destruct (decide (0 < t)) as [H2|H2]; simpl.
      * rewrite sub64_id by (unfold int64_ok; lia). by rewrite bool_decide_eq_true_2.
      * by rewrite bool_decide_eq_false_2.
  - assert (time_Sub now now = 0) as -> by (unfold time_Sub, max_int64, min_int64; lia).
    destruct (decide (W ≤ 0)) as [|_]; [lia|]. simpl.
    destruct (decide (0 < L)) as [H2|H2]; simpl.
    + rewrite sub64_id by (unfold int64_ok; lia). by rewrite bool_decide_eq_true_2.
    + by rewrite bool_decide_eq_false_2.
Qed.

Lemma Allow_other r s : rq_bucket r ≠ k → (serve_one r s).2 !! k = s !! k.
Proof.
  intros Hk. unfold serve_one, exec, Allow, rq_bucket in *. go_unfold.
  repeat case_decide; simpl; by rewrite lookup_insert_ne.
Qed.

(** The requests still allowed in the interval, given the bucket. *)
Definition budget (now : Z) (o : option memoryBucket) : Z :=
  match o with
  | None => 2 * L
  | Some b => if decide (now < T) then 2 * L
              else if decide (memoryBucket_lastRefillAt b < T) then memoryBucket_tokens b + L
              else if decide (memoryBucket_lastRefillAt b < T + W) then memoryBucket_tokens b
              else 0
  end.

Lemma serve_budget rs s now :
  Forall (λ r, rq_bucket r = k → rq_rule r = rule) rs →
  StronglySorted Z.le (now :: (rq_time <$> rs)) →
  bucket_wf now (s !! k) →
  Z.of_nat (accepted_in k T W (serve rs s)) ≤ budget now (s !! k).
Proof.
  revert s now. induction rs as [|r rs IH]; intros s now Hrule Hsort Hwf.
  { unfold accepted_in, budget, bucket_wf in *. simpl.
    destruct (s !! k) as [b|]; repeat case_decide; lia. }
  apply Forall_cons in Hrule as [Hr Hrule]. rewrite fmap_cons in Hsort.
  apply StronglySorted_inv in Hsort as [Hsort Hnow]. apply Forall_cons in Hnow as [Hnow Hnow2].
  cbn [serve]. destruct (serve_one r s) as [a s'] eqn:Erun.
  assert (bucket_wf (rq_time r) (s !! k)) as Hwf'.
  { unfold bucket_wf in *. destruct (s !! k); [|done]. lia. }
  unfold accepted_in. rewrite filter_cons. cbn [fst snd].
  destruct (decide (rq_bucket r = k)) as [Hk|Hk].
  2:{ rewrite decide_False by tauto.
      pose proof (Allow_other r s Hk) as Ho. rewrite Erun in Ho. simpl in Ho.
      rewrite <-Ho. apply StronglySorted_inv in Hsort as [Hsort _].
      apply IH; [done|by constructor|]. by rewrite Ho. }
  pose proof (Allow_run r s (Hr Hk) Hk Hwf') as Hrun.
  rewrite Erun in Hrun. cbn [fst snd] in Hrun.
  destruct (refill (rq_time r) (s !! k)) as [t last] eqn:Eref. destruct Hrun as [Ha Hs'].
  assert (0 ≤ t ≤ L ∧ last ≤ rq_time r) as [Ht Hlast].
  { clear Hs' Ha. unfold refill, bucket_wf in *. destruct (s !! k); [case_decide|]; injection Eref as <- <-; lia. }
  assert (bucket_wf (rq_time r) (s' !! k)) as Hwf2.
  { rewrite Hs', lookup_insert_eq. simpl. case_decide; split_and!; auto; lia. }
  specialize (IH s' (rq_time r) Hrule Hsort Hwf2).
  unfold accepted_in in IH. rewrite Hs', lookup_insert_eq in IH. unfold budget in IH at 1.
  cbn [memoryBucket_lastRefillAt memoryBucket_tokens] in IH. rewrite <-Hs' in IH.
  unfold budget, refill, bucket_wf in *. rewrite Ha.
  assert (0 ≤ L) by lia.
  destruct (decide (rq_bucket r = k ∧ T ≤ rq_time r < T + W ∧ bool_decide (0 < t) = true))
    as [(_ & HT & Hp)|Hn]; cbn [length].
  - apply bool_decide_eq_true in Hp. revert IH Eref. clear - Hwf' HT Hp Ht Hlast HL Hnow.
    destruct (s !! k) as [b|]; [destruct (decide (W ≤ _))|]; intros IH [= <- <-]; revert IH;
      repeat case_decide; lia.
  - rewrite bool_decide_eq_true in Hn. revert IH Eref. clear - Hwf' Hn Hk Ht Hlast HL HW Hnow.
    assert (¬ (T ≤ rq_time r < T + W ∧ 0 < t)) as Hn' by tauto. clear Hn.
    destruct (s !! k) as [b|]; [destruct (decide (W ≤ _))|]; intros IH [= <- <-]; revert IH;
      repeat case_decide; lia.
Qed.
End bound.

(** C26 the bound: whatever requests on whatever keys arrive, in the order of
    the clock, at most twice the limit of a rule is accepted on one of its
    buckets within any interval as long as its window (the bucket is refilled
    at once, so a burst before and a burst after a refill can fall together). *)
Theorem window_bound (k : string) (rule : Rule) (T : Z) (rs : list Request) :
  0 ≤ Rule_Limit rule < 2 ^ 63 → 0 < Rule_Window rule < 2 ^ 63 →
  Forall (λ r, rq_bucket r = k → rq_rule r = rule) rs →
  StronglySorted Z.le (rq_time <$> rs) →
  Z.of_nat (accepted_in k T (Rule_Window rule) (serve rs ∅)) ≤ 2 * Rule_Limit rule.
Proof.
  intros HL HW Hr Hs. destruct rs as [|r rs].
  { unfold accepted_in. simpl. lia. }
  pose proof (serve_budget k rule T HL HW (r :: rs) ∅ (rq_time r) Hr) as Hb.
  rewrite lookup_empty in Hb. apply Hb; [|done]. constructor; [done|].
  rewrite fmap_cons in *. apply StronglySorted_inv in Hs as [_ Hs]. constructor; [lia|done].
Qed.

(** ** A refusal is deserved *)

Definition after (rs : list Request) (s : MemoryRateLimiter) : MemoryRateLimiter :=
  foldl (λ s r, (serve_one r s).2) s rs.

Lemma serve_app rs1 rs2 s : serve (rs1 ++ rs2) s = serve rs1 s ++ serve rs2 (after rs1 s).
Proof.
  revert s. induction rs1 as [|r rs1 IH]; intros s; [done|].
  simpl. destruct (serve_one r s) as [a s'] eqn:E. simpl. by rewrite IH.
Qed.

Lemma accepted_in_app k T W l1 l2 :
  accepted_in k T W (l1 ++ l2) = (accepted_in k T W l1 + accepted_in k T W l2)%nat.
Proof. unfold accepted_in. by rewrite filter_app, length_app. Qed.

(** Widening the interval counts at least as many. *)
Lemma accepted_in_mono k T W T' W' l :
  T' ≤ T → T + W ≤ T' + W' → (accepted_in k T W l ≤ accepted_in k T' W' l)%nat.
Proof.
  intros HT HW. unfold accepted_in. induction l as [|x l IH]; [done|].
  rewrite !filter_cons. repeat case_decide; simpl; try lia.
  destruct_and?. exfalso. match goal with H : ¬ _ |- _ => apply H end. split_and!; auto; lia.
Qed.

Section deserved.
Context (k : string) (rule : Rule).
Context (HL : 0 ≤ Rule_Limit rule < 2 ^ 63) (HW : 0 < Rule_Window rule < 2 ^ 63).

(** Every token missing from a bucket was spent since its last refill. *)
Definition spent (rs : list Request) (now : Z) : Prop :=
  bucket_wf rule now (after rs ∅ !! k) ∧
  match after rs ∅ !! k with
  | None => True
  | Some b =>
      let last := memoryBucket_lastRefillAt b in
      Rule_Limit rule ≤
        memoryBucket_tokens b + Z.of_nat (accepted_in k last (now - last + 1) (serve rs ∅))
  end.

Lemma bucket_wf_mono now now' o : now ≤ now' → bucket_wf rule now o → bucket_wf rule now' o.
Proof. unfold bucket_wf. destruct o; [|done]. lia. Qed.

Lemma spent_step rs r now :
  spent rs now → now ≤ rq_time r → (rq_bucket r = k → rq_rule r = rule) →
  spent (rs ++ [r]) (rq_time r).
Proof.
  intros [Hwf Hsp] Hnow Hr. apply (bucket_wf_mono _ (rq_time r)) in Hwf; [|done].
  unfold spent, after. rewrite foldl_app. fold (after rs ∅). cbn [foldl].
  rewrite serve_app. set (s := after rs ∅) in *. cbn [serve].
  destruct (serve_one r s) as [a s'] eqn:Erun. cbn [snd].
  destruct (decide (rq_bucket r = k)) as [Hk|Hk].
  - pose proof (Allow_run k rule HL HW r s (Hr Hk) Hk Hwf) as Hrun. rewrite Erun in Hrun.
    cbn [fst snd] in Hrun.
    destruct (refill rule (rq_time r) (s !! k)) as [t last] eqn:Eref. destruct Hrun as [Ha ->].
    rewrite lookup_insert_eq. cbn -[accepted_in].
    rewrite accepted_in_app.
    assert (accepted_in k last (rq_time r - last + 1) [(r, a)] =
      if decide (0 < t ∧ last ≤ rq_time r) then 1%nat else 0%nat) as ->.
    { unfold accepted_in. rewrite filter_cons, filter_nil. cbn [fst snd].
      destruct (decide (0 < t ∧ _)) as [[]|Hn].
      - by rewrite decide_True
          by (rewrite Ha, bool_decide_eq_true; split_and!; auto; lia).
      - rewrite decide_False; [done|]. rewrite Ha, bool_decide_eq_true.
        intros (_ & ? & ?). apply Hn. lia. }
    revert Eref. unfold refill, bucket_wf in *. clear Ha Erun.
    destruct (s !! k) as [b|].
    + pose proof (accepted_in_mono k (memoryBucket_lastRefillAt b)
        (now - memoryBucket_lastRefillAt b + 1) (memoryBucket_lastRefillAt b)
        (rq_time r - memoryBucket_lastRefillAt b + 1) (serve rs ∅) ltac:(lia) ltac:(lia)).
      destruct (decide (Rule_Window rule ≤ _)); intros [= <- <-];
        repeat case_decide; try lia; split_and!; lia.
    + intros [= <- <-]. repeat case_decide; split_and!; lia.
  - pose proof (Allow_other k r s Hk) as Ho. rewrite Erun in Ho. cbn [snd] in Ho. rewrite Ho.
    split; [done|]. destruct (s !! k) as [b|]; [|done]. cbn zeta in *.
    rewrite accepted_in_app.
    pose proof (accepted_in_mono k (memoryBucket_lastRefillAt b)
      (now - memoryBucket_lastRefillAt b + 1) (memoryBucket_lastRefillAt b)
      (rq_time r - memoryBucket_lastRefillAt b + 1) (serve rs ∅) ltac:(lia) ltac:(lia)).
    lia.
Qed.

Lemma spent_all rs now :
  Forall (λ r, rq_bucket r = k → rq_rule r = rule) rs →
  StronglySorted Z.le (rq_time <$> rs) → Forall (λ r, rq_time r ≤ now) rs →
  spent rs now ∨ rs = [].
Proof.
  revert now. induction rs as [|r rs IH] using rev_ind; intros now Hr Hs Hn; [by right|left].
  apply Forall_app in Hr as [Hr Hr1]. apply Forall_cons in Hr1 as [Hr1 _].
  apply Forall_app in Hn as [Hn Hn1]. apply Forall_cons in Hn1 as [Hn1 _].
  rewrite fmap_app in Hs. simpl in Hs.
  assert (Forall (λ x, rq_time x ≤ rq_time r) rs ∧ StronglySorted Z.le (rq_time <$> rs))
    as [Hle Hs'].
  { clear -Hs. induction rs as [|x rs IH]; simpl in *; [by repeat constructor|].
    apply StronglySorted_inv in Hs as [Hs Hx]. destruct (IH Hs) as [? ?].
    apply Forall_app in Hx as [Hx Hx']. apply Forall_cons in Hx' as [Hx' _].
    by repeat constructor. }
  assert (spent (rs ++ [r]) (rq_time r)) as [Hwf Hsp].
  { destruct (IH (rq_time r) Hr Hs' Hle) as [Hsp| ->].
    - by apply (spent_step rs r (rq_time r)).
    - apply (spent_step [] r (rq_time r)); [|done..]. by split. }
  split; [by eapply bucket_wf_mono|]. destruct (after _ _ !! k) as [b|]; [|done]. cbn zeta in *.
  pose proof (accepted_in_mono k (memoryBucket_lastRefillAt b)
    (rq_time r - memoryBucket_lastRefillAt b + 1) (memoryBucket_lastRefillAt b)
    (now - memoryBucket_lastRefillAt b + 1) (serve (rs ++ [r]) ∅) ltac:(lia) ltac:(lia)).
  lia.
Qed.
End deserved.

(** No undeserved refusal: a request is refused only when the whole limit
    of its rule was accepted on its bucket within the last window. *)
Theorem refusal_deserved (rs : list Request) (r : Request) :
  let k := rq_bucket r in let rule := rq_rule r in
  0 < Rule_Limit rule < 2 ^ 63 → 0 < Rule_Window rule < 2 ^ 63 →
  Forall (λ r', rq_bucket r' = k → rq_rule r' = rule) rs →
  StronglySorted Z.le (rq_time <$> rs) → Forall (λ r', rq_time r' ≤ rq_time r) rs →
  accepted (serve_one r (after rs ∅)).1 = false →
  Rule_Limit rule ≤
    Z.of_nat (accepted_in k (rq_time r - Rule_Window rule + 1) (Rule_Window rule) (serve rs ∅)).
Proof.
  intros k rule HL HW Hr Hs Hn Href.
  assert (0 ≤ Rule_Limit rule < 2 ^ 63) as HL' by lia.
  destruct (spent_all k rule HL' HW rs (rq_time r) Hr Hs Hn) as [[Hwf Hsp]| ->].
  2:{ exfalso. pose proof (Allow_run k rule HL' HW r ∅ eq_refl eq_refl) as Hrun.
      cbn in Hrun. destruct Hrun as [Ha _]; [done|]. unfold after in Href. cbn in Href.
      rewrite Ha in Href. apply bool_decide_eq_false in Href. subst rule. lia. }
  pose proof (Allow_run k rule HL' HW r (after rs ∅) eq_refl eq_refl Hwf) as Hrun.
  destruct (refill rule (rq_time r) (after rs ∅ !! k)) as [t last] eqn:Eref.
  destruct Hrun as [Ha _]. rewrite Ha in Href. apply bool_decide_eq_false in Href.
  unfold refill, bucket_wf in *. destruct (after rs ∅ !! k) as [b|].
  - cbn zeta in Hsp. destruct (decide (Rule_Window rule ≤ _)); injection Eref as <- <-; [lia|].
    pose proof (accepted_in_mono k (memoryBucket_lastRefillAt b)
      (rq_time r - memoryBucket_lastRefillAt b + 1) (rq_time r - Rule_Window rule + 1)
      (Rule_Window rule) (serve rs ∅) ltac:(lia) ltac:(lia)). lia.
  - injection Eref as <- <-. lia.
Qed.

(** ** Keys and answers *)

Fixpoint has_colon (s : string) : bool :=
  match s with
  | EmptyString => false
  | String c s => bool_decide (c = Ascii.ascii_of_N 58) || has_colon s
  end.

(** Rules whose prefixes hold no separator never share a bucket. *)
Lemma bucketKey_inj p p' key key' :
  has_colon p = false → has_colon p' = false →
  bucketKey p key = bucketKey p' key' → p = p' ∧ key = key'.
Proof.
  unfold bucketKey. revert p'. induction p as [|c p IH]; intros [|c' p'] Hp Hp' E; simpl in *.
  - by injection E.
  - injection E as <- _. by rewrite bool_decide_eq_true_2 in Hp'.
  - injection E as -> _. by rewrite bool_decide_eq_true_2 in Hp.
  - injection E as <- E. apply orb_false_elim in Hp as [_ Hp], Hp' as [_ Hp'].
    destruct (IH p' Hp Hp' E) as [<- <-]. done.
Qed.

(** The answer that refills a bucket reports the time left of the window that
    just ended: never a positive duration. *)
Lemma refilled_ResetAfter_not_positive (key : string) (rule : Rule) (w : World)
    (s : MemoryRateLimiter) (b : memoryBucket) (res : Result) :
  s !! bucketKey (Rule_KeyPrefix rule) key = Some b →
  0 < memoryBucket_window b < 2 ^ 62 →
  memoryBucket_window b ≤ now_of w - memoryBucket_lastRefillAt b < 2 ^ 62 →
  answer (Allow key rule) w s = Ok res → Result_ResetAfter res ≤ 0.
Proof.
  intros Hb Hw He. unfold answer, Allow. go_unfold. rewrite Hb. simpl.
  assert (time_Sub (now_of w) (memoryBucket_lastRefillAt b) =
    now_of w - memoryBucket_lastRefillAt b) as ->
    by (unfold time_Sub, max_int64, min_int64; lia).
  destruct (decide (memoryBucket_window b ≤ now_of w - memoryBucket_lastRefillAt b)) as [_|];
    [|lia]. simpl.
  assert (sub64 (memoryBucket_window b) (now_of w - memoryBucket_lastRefillAt b) ≤ 0) as Hle
    by (rewrite sub64_id by (unfold int64_ok; lia); lia).
  destruct (decide _); intros [= <-]; exact Hle.
Qed.

(** ** A concrete stream: a burst before and a burst after a refill *)

Definition demo_rule : Rule := mkRule "demo" 2 10 "demo".

Definition demo_stream : list Request :=
  (λ t, mkRequest (calm t) "10.0.0.1" demo_rule) <$> [0; 9; 10; 11; 12].

Lemma window_bound_witness :
  accepted_in "demo:10.0.0.1" 9 10 (serve demo_stream ∅) = 3%nat ∧
  Z.of_nat (accepted_in "demo:10.0.0.1" 9 10 (serve demo_stream ∅)) ≤ 4.
Proof.
  split; [vm_compute; reflexivity|].
  apply (window_bound "demo:10.0.0.1" demo_rule 9 demo_stream); [simpl; lia|simpl; lia| |].
  - repeat (apply Forall_cons; split; [intros _; reflexivity|]). apply Forall_nil_2.
  - repeat constructor; vm_compute; discriminate.
Defined.

Lemma refusal_deserved_witness :
  let r := mkRequest (calm 12) "10.0.0.1" demo_rule in
  accepted (serve_one r (after (take 4 demo_stream) ∅)).1 = false ∧
  2 ≤ Z.of_nat (accepted_in "demo:10.0.0.1" 3 10 (serve (take 4 demo_stream) ∅)).
Proof.
  split; [vm_compute; reflexivity|].
  apply (refusal_deserved (take 4 demo_stream) (mkRequest (calm 12) "10.0.0.1" demo_rule));
    [simpl; lia|simpl; lia| | | |vm_compute; reflexivity].
  - repeat (apply Forall_cons; split; [intros _; reflexivity|]). apply Forall_nil_2.
  - repeat constructor; vm_compute; discriminate.
  - repeat constructor; vm_compute; discriminate.
Defined.
