(* ===== verification/RingBuffer.v ===== *)
(** * The telemetry ring buffer

    [internal/infra/telemetry/ringbuffer.go]: the samples of the last minutes
    in a circular array, and the range query that groups them into buckets of
    [step] seconds. Indices are [int]s below the length of an allocated
    slice, so their arithmetic does not wrap. *)

From S2P Require Import Prelude.

Record MetricSample : Type := mkMetricSample {
  MetricSample_ResourceType : string;
  MetricSample_ResourceID : string;
  MetricSample_MetricName : string;
  MetricSample_Value : float64;
  MetricSample_Timestamp : Z
}.
#[export] Instance MetricSample_eq_dec : EqDecision MetricSample.
Proof. solve_decision. Defined.

Record DataPoint : Type := mkDataPoint {
  DataPoint_Timestamp : Z;
  DataPoint_Value : float64
}.
#[export] Instance DataPoint_eq_dec : EqDecision DataPoint.
Proof. solve_decision. Defined.

Record TimeSeries : Type := mkTimeSeries {
  TimeSeries_MetricName : string;
  TimeSeries_Unit : string;
  TimeSeries_DataPoints : list DataPoint
}.
#[export] Instance TimeSeries_eq_dec : EqDecision TimeSeries.
Proof. solve_decision. Defined.

Record RingBuffer : Type := mkRingBuffer {
  RingBuffer_capacity : Z;
  RingBuffer_samples : list (option MetricSample);
  RingBuffer_head : Z;
  RingBuffer_size : Z
}.

Definition eta_RingBuffer (r : RingBuffer) : RingBuffer :=
  mkRingBuffer (RingBuffer_capacity r) (RingBuffer_samples r) (RingBuffer_head r)
    (RingBuffer_size r).
#[export] Instance set_RingBuffer_capacity : Setter RingBuffer_capacity := ltac:(setter eta_RingBuffer RingBuffer_capacity).
#[export] Instance set_RingBuffer_samples : Setter RingBuffer_samples := ltac:(setter eta_RingBuffer RingBuffer_samples).
#[export] Instance set_RingBuffer_head : Setter RingBuffer_head := ltac:(setter eta_RingBuffer RingBuffer_head).
#[export] Instance set_RingBuffer_size : Setter RingBuffer_size := ltac:(setter eta_RingBuffer RingBuffer_size).

Definition NewRingBuffer (capacity : Z) : RingBuffer :=
  let capacity := if decide (capacity ≤ 0) then 50000 else capacity in
  mkRingBuffer capacity (replicate (Z.to_nat capacity) None) 0 0.

(** The body both push methods share. *)
Definition push_one (rb : RingBuffer) (s : MetricSample) : result RingBuffer :=
  samples ← slice_set (RingBuffer_samples rb) (RingBuffer_head rb) (Some s);
  let rb := rb <| RingBuffer_samples := samples |> in
  let rb := rb <| RingBuffer_head := Z.rem (RingBuffer_head rb + 1) (RingBuffer_capacity rb) |> in
  mret (if decide (RingBuffer_size rb < RingBuffer_capacity rb)
        then rb <| RingBuffer_size := RingBuffer_size rb + 1 |> else rb).

(** A nil sample is dropped. *)
Definition Push (rb : RingBuffer) (sample : option MetricSample) : result RingBuffer :=
  match sample with
  | None => mret rb
  | Some s => push_one rb s
  end.

Fixpoint PushBatch (rb : RingBuffer) (samples : list (option MetricSample)) :
    result RingBuffer :=
  match samples with
  | [] => mret rb
  | None :: ss => PushBatch rb ss
  | Some s :: ss => rb ← push_one rb s; PushBatch rb ss
  end.

Definition getMetricUnit (metricName : string) : string :=
  if decide (metricName = "cpu_percent") then "%"
  else if decide (metricName ∈ ["memory_used_bytes"; "memory_total_bytes"; "disk_used_bytes";
                    "disk_total_bytes"; "net_rx_bytes"; "net_tx_bytes"]) then "bytes"
  else if decide (metricName ∈ ["load_1m"; "load_5m"; "load_15m"]) then "load"
  else "value".

Section query.
Context (resType resID metricName : string) (from to : Z).

Definition in_query (s : MetricSample) : Prop :=
  (MetricSample_ResourceType s = resType ∧ MetricSample_ResourceID s = resID ∧
   MetricSample_MetricName s = metricName) ∧
  ¬ MetricSample_Timestamp s < from ∧ ¬ to < MetricSample_Timestamp s.
#[export] Instance in_query_dec s : Decision (in_query s).
Proof. unfold in_query. apply _. Defined.

(** The filtering loop, [n] iterations from [i] on. *)
Fixpoint filter_loop (rb : RingBuffer) (i : Z) (n : nat) : result (list MetricSample) :=
  match n with
  | O => mret []
  | S n =>
      let idx := Z.rem (RingBuffer_head rb - 1 - i + RingBuffer_capacity rb)
                   (RingBuffer_capacity rb) in
      s ← slice_get (RingBuffer_samples rb) idx;
      rest ← filter_loop rb (i + 1) n;
      mret (match s with
            | None => rest
            | Some s => if decide (in_query s) then s :: rest else rest
            end)
  end.

Definition bucketKey (step : Z) (s : MetricSample) : Z :=
  mul64 (quot64 (Unix (MetricSample_Timestamp s)) step) step.

(** A bucket is the sum of its values and their number. *)
Definition add_sample (step : Z) (buckets : gmap Z (float64 * Z)) (s : MetricSample) :
    gmap Z (float64 * Z) :=
  let k := bucketKey step s in
  match buckets !! k with
  | Some (sum, count) => <[k := (fadd sum (MetricSample_Value s), count + 1)]> buckets
  | None => <[k := (MetricSample_Value s, 1)]> buckets
  end.

Definition average (b : float64 * Z) : float64 :=
  fdiv (math_Round (fmul (fdiv b.1 (of_int b.2)) (of_int 100))) (of_int 100).

(** [for t := startBucket; t <= endBucket; t += step], with fuel. *)
Fixpoint points_loop (fuel : nat) (buckets : gmap Z (float64 * Z)) (step t endBucket : Z) :
    option (list DataPoint) :=
  match fuel with
  | O => None
  | S fuel =>
      if decide (t ≤ endBucket) then
        rest ← points_loop fuel buckets step (add64 t step) endBucket;
        mret (match buckets !! t with
              | Some b => if decide (0 < b.2) then mkDataPoint (t * Second) (average b) :: rest
                          else rest
              | None => rest
              end)
      else mret []
  end.

(** [None] is a loop that does not end within the fuel. *)
Definition QueryRange (fuel : nat) (rb : RingBuffer) (stepSeconds : Z) :
    result (option TimeSeries) :=
  let step := if decide (stepSeconds ≤ 0) then 10 else stepSeconds in
  matching ← filter_loop rb 0 (Z.to_nat (RingBuffer_size rb));
  mret (
    if decide (length matching = 0%nat) then
      Some (mkTimeSeries metricName (getMetricUnit metricName) [])
    else
      let buckets := foldl (add_sample step) ∅ matching in
      let startBucket := mul64 (quot64 (Unix from) step) step in
      let endBucket := mul64 (quot64 (Unix to) step) step in
      points ← points_loop fuel buckets step startBucket endBucket;
      mret (mkTimeSeries metricName (getMetricUnit metricName) points)).
End query.

(** ** The buffer is the list of the last [capacity] samples *)

(** The ring holds the history [l] (oldest first). *)
Definition holds (rb : RingBuffer) (l : list MetricSample) : Prop :=
  let c := RingBuffer_capacity rb in
  let n := Z.of_nat (length l) in
  0 < c ∧ Z.of_nat (length (RingBuffer_samples rb)) = c ∧
  RingBuffer_head rb = n mod c ∧ RingBuffer_size rb = Z.min n c ∧
  ∀ i x, l !! i = Some x → n - Z.of_nat i ≤ c →
    RingBuffer_samples rb !! Z.to_nat (Z.of_nat i mod c) = Some (Some x).

Lemma mod_far a b c : 0 < c → 0 < b - a < c → a mod c ≠ b mod c.
Proof.
  intros Hc Hab E. assert ((b - a) mod c = 0) as Hz.
  { rewrite Zminus_mod, E, Z.sub_diag. apply Z.mod_0_l. lia. }
  rewrite Z.mod_small in Hz; lia.
Qed.

Lemma holds_new c : holds (NewRingBuffer c) [].
Proof.
  unfold NewRingBuffer, holds. simpl. split_and!.
  - case_decide; lia.
  - rewrite length_replicate. case_decide; lia.
  - by rewrite Z.mod_0_l by (case_decide; lia).
  - case_decide; lia.
  - by intros i x.
Qed.

Lemma push_one_holds rb l s :
  holds rb l → ∃ rb', push_one rb s = Ok rb' ∧
    RingBuffer_capacity rb' = RingBuffer_capacity rb ∧ holds rb' (l ++ [s]).
Proof.
  intros (Hc & Hlen & Hh & Hs & Hl). unfold push_one, slice_set.
  set (c := RingBuffer_capacity rb) in *. set (n := Z.of_nat (length l)) in *.
  pose proof (Z.mod_pos_bound n c Hc).
  rewrite decide_True by lia. unfold mbind, result_bind, mret, result_ret.
  eexists. split; [reflexivity|].
  assert (Z.of_nat (length (l ++ [s])) = n + 1) as Hn by (rewrite length_app; simpl; lia).
  unfold holds. rewrite Hn.
  assert (Z.rem (n mod c + 1) c = (n + 1) mod c) as Hr.
  { rewrite Z.rem_mod_nonneg by lia. by rewrite Zplus_mod_idemp_l. }
  assert (∀ i x, (l ++ [s]) !! i = Some x → n + 1 - Z.of_nat i ≤ c →
    <[Z.to_nat (n mod c):=Some s]> (RingBuffer_samples rb) !! Z.to_nat (Z.of_nat i mod c) =
      Some (Some x)) as Hlook.
  { intros i x Hi Hic. pose proof (Z.mod_pos_bound (Z.of_nat i) c Hc).
    apply lookup_snoc_Some in Hi as [[Hlt Hi]|[Hi <-]].
    - rewrite list_lookup_insert_ne; [by apply Hl; [|lia]|].
      pose proof (mod_far (Z.of_nat i) n c Hc). lia.
    - rewrite Hi. apply list_lookup_insert_eq. fold n. lia. }
    destruct (decide _) as [Hd|Hd]; simpl in *; fold c in Hd |- *; rewrite length_insert, ?Hh, ?Hr;
    split_and!; auto; lia.
Qed.

Lemma PushBatch_holds rb l ss :
  holds rb l → ∃ rb', PushBatch rb ss = Ok rb' ∧
    RingBuffer_capacity rb' = RingBuffer_capacity rb ∧ holds rb' (l ++ omap id ss).
Proof.
  revert rb l. induction ss as [|[s|] ss IH]; intros rb l Hl; simpl.
  - exists rb. by rewrite app_nil_r.
  - destruct (push_one_holds rb l s Hl) as (rb1 & -> & Hc1 & H1). simpl.
    destruct (IH rb1 _ H1) as (rb2 & -> & Hc2 & H2). exists rb2.
    rewrite <-app_assoc in H2. split_and!; [done|congruence|done].
  - by apply IH.
Qed.

(** The samples the buffer keeps, newest first. *)
Definition recent (c : Z) (l : list MetricSample) : list MetricSample :=
  take (Z.to_nat c) (reverse l).

Lemma filter_loop_holds resType resID metricName from to rb l i n :
  holds rb l → (i + n ≤ Z.to_nat (RingBuffer_size rb))%nat →
  filter_loop resType resID metricName from to rb (Z.of_nat i) n =
    Ok (filter (in_query resType resID metricName from to) (take n (drop i (reverse l)))).
Proof.
  intros Hh. pose proof Hh as (Hc & Hlen & Hhd & Hs & Hl).
  set (c := RingBuffer_capacity rb) in *. revert i.
  induction n as [|n IH]; intros i Hin; simpl; [done|].
  fold c. rewrite Hhd.
  destruct (lookup_lt_is_Some_2 (reverse l) i) as [x Hx]; [rewrite length_reverse; lia|].
  assert (l !! (length l - 1 - i)%nat = Some x) as Hx'.
  { rewrite reverse_lookup in Hx by lia. rewrite <-Hx. f_equal. lia. }
  set (N := Z.of_nat (length l)) in *.
  assert (Z.rem (N mod c - 1 - Z.of_nat i + c) c = (N - 1 - Z.of_nat i) mod c) as ->.
  { pose proof (Z.mod_pos_bound N c Hc). rewrite Z.rem_mod_nonneg by lia.
    replace (N mod c - 1 - Z.of_nat i + c) with (N mod c + (c - 1 - Z.of_nat i)) by lia.
    rewrite Zplus_mod_idemp_l.
    replace (N + (c - 1 - Z.of_nat i)) with (N - 1 - Z.of_nat i + 1 * c) by lia.
    apply Z.mod_add. lia. }
  specialize (Hl _ _ Hx' ltac:(lia)).
  replace (Z.of_nat (length l - 1 - i)) with (N - 1 - Z.of_nat i) in Hl by lia.
  unfold slice_get. pose proof (Z.mod_pos_bound (N - 1 - Z.of_nat i) c Hc).
  rewrite decide_False by lia. rewrite Hl. unfold mbind, result_bind.
  replace (Z.of_nat i + 1) with (Z.of_nat (S i)) by lia.
  rewrite IH by lia. rewrite (drop_S _ _ _ Hx). simpl. unfold mret, result_ret.
  rewrite filter_cons. by case_decide.
Qed.

(** ** The reference query *)

(** The mean of the values of some samples, in that order. *)
Definition mean (l : list MetricSample) : float64 :=
  match l with
  | [] => of_int 0
  | s :: l => average (foldl (λ acc s, fadd acc (MetricSample_Value s)) (MetricSample_Value s) l,
                       Z.of_nat (S (length l)))
  end.

Definition in_bucket (step k : Z) (l : list MetricSample) : list MetricSample :=
  filter (λ s, bucketKey step s = k) l.

(** What a bucket holds after the samples [l]. *)
Definition tally (l : list MetricSample) : option (float64 * Z) :=
  match l with
  | [] => None
  | s :: l => Some (foldl (λ acc s, fadd acc (MetricSample_Value s)) (MetricSample_Value s) l,
                    Z.of_nat (S (length l)))
  end.

Lemma tally_snoc l s :
  tally (l ++ [s]) = Some (match tally l with
                           | Some (sum, n) => (fadd sum (MetricSample_Value s), n + 1)
                           | None => (MetricSample_Value s, 1)
                           end).
Proof.
  destruct l as [|x l]; simpl; [done|]. rewrite foldl_app, length_app. simpl.
  do 2 f_equal. lia.
Qed.

Lemma buckets_spec step l k :
  foldl (add_sample step) ∅ l !! k = tally (in_bucket step k l).
Proof.
  induction l as [|s l IH] using rev_ind; [done|].
  rewrite foldl_app. cbn [foldl]. unfold in_bucket in *. rewrite filter_app.
  unfold add_sample at 1.
  assert (∀ b : float64 * Z, foldl (add_sample step) ∅ l !! bucketKey step s =
     foldl (add_sample step) ∅ l !! k ∨ bucketKey step s ≠ k) as Hk.
  { intros _. destruct (decide (bucketKey step s = k)) as [->|]; auto. }
  destruct (decide (bucketKey step s = k)) as [E|E].
  - rewrite (filter_cons_True _ s) by done. rewrite filter_nil, tally_snoc, <-IH, <-E.
    destruct (foldl _ _ _ !! bucketKey step s) as [[sum n]|]; by rewrite lookup_insert_eq.
  - rewrite (filter_cons_False _ s) by done. rewrite filter_nil, app_nil_r, <-IH.
    destruct (foldl _ _ _ !! bucketKey step s) as [[sum n]|]; by rewrite lookup_insert_ne.
Qed.

(** The loop over the buckets visits the grid [t, t + step, ...]. *)
Definition point (buckets : gmap Z (float64 * Z)) (t : Z) : option DataPoint :=
  match buckets !! t with
  | Some b => if decide (0 < b.2) then Some (mkDataPoint (t * Second) (average b)) else None
  | None => None
  end.

Definition grid (t step : Z) (n : nat) : list Z := (λ i, t + Z.of_nat i * step) <$> seq 0 n.

Lemma grid_S t step n : grid t step (S n) = t :: grid (t + step) step n.
Proof.
  unfold grid. simpl. f_equal; [lia|]. rewrite <-fmap_S_seq, <-list_fmap_compose.
  apply list_fmap_ext. intros i x _. simpl. lia.
Qed.

Lemma points_loop_grid buckets step t n fuel :
  0 < step → int64_ok t → int64_ok (t + Z.of_nat n * step) → (n < fuel)%nat →
  points_loop fuel buckets step t (t + Z.of_nat n * step - step) =
    Some (omap (point buckets) (grid t step n)).
Proof.
  intros Hs Ht Hn. revert t fuel Ht Hn. induction n as [|n IH]; intros t fuel Ht Hn Hf;
    (destruct fuel as [|fuel]; [lia|]); cbn [points_loop].
  - rewrite decide_False by lia. done.
  - rewrite decide_True by lia. unfold int64_ok in *. rewrite add64_id by (unfold int64_ok; lia).
    replace (t + Z.of_nat (S n) * step - step) with (t + step + Z.of_nat n * step - step) by lia.
    rewrite IH by (unfold int64_ok; lia). rewrite grid_S. simpl.
    assert (point buckets t = match buckets !! t with
      | Some b => if decide (0 < b.2) then Some (mkDataPoint (t * Second) (average b)) else None
      | None => None end) as -> by done.
    destruct (buckets !! t) as [b|]; [|done]. by destruct (decide (0 < b.2)).
Qed.

Lemma grid_sorted t step n : 0 < step → StronglySorted Z.lt (grid t step n).
Proof.
  intros Hs. revert t. induction n as [|n IH]; intros t; [constructor|].
  rewrite grid_S. constructor; [apply IH|].
  apply Forall_forall. intros x. unfold grid. rewrite list_elem_of_fmap.
  intros (i & -> & _). lia.
Qed.

Lemma points_sorted buckets l :
  StronglySorted Z.lt l →
  StronglySorted Z.lt (DataPoint_Timestamp <$> omap (point buckets) l).
Proof.
  induction 1 as [|t l Hl IH Ht]; simpl; [constructor|].
  unfold point at 1. destruct (buckets !! t) as [b|]; [|done]. case_decide; [|done]. simpl.
  constructor; [done|]. apply Forall_forall. intros x.
  rewrite list_elem_of_fmap. intros (p & -> & Hp). apply list_elem_of_omap in Hp as (t' & Ht' & Hp).
  unfold point in Hp. rewrite Forall_forall in Ht. specialize (Ht _ Ht').
  destruct (buckets !! t'); [|done]. case_decide; [|done]. injection Hp as <-. simpl.
  unfold Second. lia.
Qed.

(** Times the clock can show. *)
Definition sane_time (t : Z) : Prop := Z.abs (Unix t) ≤ 2 ^ 61.

Lemma bucketKey_quot step t :
  0 < step ≤ 2 ^ 61 → sane_time t →
  mul64 (quot64 (Unix t) step) step = Z.quot (Unix t) step * step ∧
  Z.abs (Z.quot (Unix t) step * step) ≤ 2 ^ 61.
Proof.
  intros Hs Ht. unfold sane_time in Ht. unfold mul64, quot64.
  assert (Z.abs (Z.quot (Unix t) step * step) ≤ Z.abs (Unix t)) as Hle.
  { rewrite Z.abs_mul, <-Z.quot_abs, (Z.abs_eq step), Z.mul_comm by lia.
    rewrite Z.quot_div_nonneg by lia. apply Z.mul_div_le. lia. }
  assert (Z.abs (Z.quot (Unix t) step) ≤ Z.abs (Unix t)) as Hle2.
  { rewrite <-Z.quot_abs, (Z.abs_eq step) by lia. rewrite Z.quot_div_nonneg by lia.
    apply Z.div_le_upper_bound; nia. }
  rewrite (wrap64_id (Z.quot _ _)) by (unfold int64_ok; lia).
  rewrite wrap64_id by (unfold int64_ok; lia). lia.
Qed.

Section refinement.
Context (resType resID metricName : string) (from to step : Z).
Context (Hstep : 0 < step ≤ 2 ^ 61) (Hfrom : sane_time from) (Hto : sane_time to).

Let q (t : Z) : Z := Z.quot (Unix t) step.

Lemma unix_mono a b : a ≤ b → Unix a ≤ Unix b.
Proof. intros. unfold Unix. apply Z.div_le_mono; [unfold Second; lia|done]. Qed.

Lemma kept_bucket s (l : list MetricSample) :
  s ∈ filter (in_query resType resID metricName from to) l →
  bucketKey step s = q (MetricSample_Timestamp s) * step ∧
  q from ≤ q (MetricSample_Timestamp s) ≤ q to.
Proof.
  intros [[_ [H1 H2]] _]%list_elem_of_filter.
  pose proof (unix_mono from (MetricSample_Timestamp s) ltac:(lia)).
  pose proof (unix_mono (MetricSample_Timestamp s) to ltac:(lia)).
  split; [|unfold q; split; apply Z.quot_le_mono; lia].
  apply bucketKey_quot; [done|]. unfold sane_time in *. lia.
Qed.

Lemma elem_of_grid x t n :
  x ∈ grid t step n ↔ ∃ i, (i < n)%nat ∧ x = t + Z.of_nat i * step.
Proof.
  unfold grid. rewrite list_elem_of_fmap. split.
  - intros (i & -> & Hi%elem_of_seq). exists i. split; [lia|done].
  - intros (i & Hi & ->). exists i. split; [done|]. apply elem_of_seq. lia.
Qed.

(** The points computed from a list of matching samples. *)
Lemma points_of (l : list MetricSample) fuel :
  l ≠ [] → (∃ l0, l = filter (in_query resType resID metricName from to) l0) →
  (Z.to_nat (q to - q from + 2) ≤ fuel)%nat →
  ∃ points,
    points_loop fuel (foldl (add_sample step) ∅ l) step
      (mul64 (quot64 (Unix from) step) step) (mul64 (quot64 (Unix to) step) step) = Some points ∧
    StronglySorted Z.lt (DataPoint_Timestamp <$> points) ∧
    ∀ p, p ∈ points ↔ ∃ k, in_bucket step k l ≠ [] ∧
           p = mkDataPoint (k * Second) (mean (in_bucket step k l)).
Proof.
  intros Hne [l0 Hl0] Hfuel.
  destruct (bucketKey_quot step from Hstep Hfrom) as [-> Hbf].
  destruct (bucketKey_quot step to Hstep Hto) as [-> Hbt]. fold (q from) (q to) in *.
  assert (q from ≤ q to) as Hq.
  { destruct l as [|s l]; [done|]. destruct (kept_bucket s l0) as [_ ?]; [|lia].
    rewrite <-Hl0. by left. }
  set (n := Z.to_nat (q to - q from + 1)).
  assert (q to * step = q from * step + Z.of_nat n * step - step) as -> by (subst n; nia).
  rewrite points_loop_grid; [|lia|unfold int64_ok; lia|unfold int64_ok; subst n; nia|subst n; lia].
  eexists. split; [reflexivity|]. split; [apply points_sorted, grid_sorted; lia|].
  intros p. rewrite list_elem_of_omap. unfold point. setoid_rewrite buckets_spec.
  assert (∀ k, in_bucket step k l ≠ [] →
    match tally (in_bucket step k l) with
    | Some b => if decide (0 < b.2) then Some (mkDataPoint (k * Second) (average b)) else None
    | None => None
    end = Some (mkDataPoint (k * Second) (mean (in_bucket step k l)))) as Hk.
  { intros k Hnil. destruct (in_bucket step k l) as [|s r]; [done|].
    cbn [tally mean snd]. by rewrite decide_True by lia. }
  split.
  - intros (k & _ & Hp). exists k.
    assert (in_bucket step k l ≠ []) as Hnil by (intros E; by rewrite E in Hp).
    split; [done|]. rewrite Hk in Hp by done. congruence.
  - intros (k & Hnil & ->). exists k. split; [|by apply Hk].
    destruct (in_bucket step k l) as [|s r] eqn:Eb; [done|].
    assert (s ∈ in_bucket step k l) as [Hs Hin]%list_elem_of_filter by (rewrite Eb; by left).
    rewrite Hl0 in Hin. destruct (kept_bucket s l0 Hin) as [Hb ?].
    apply elem_of_grid. exists (Z.to_nat (q (MetricSample_Timestamp s) - q from)).
    split; [subst n; lia|]. rewrite <-Hs, Hb. nia.
Qed.
End refinement.

(** C29 the ring buffer refines the list of the last [capacity] samples: after
    any sequence of pushes a range query ends, and answers one point per
    non-empty bucket of the matching samples among those, with their mean, in
    ascending order of time; older samples are forgotten, none is lost or
    counted twice. *)
Theorem query_refines (c : Z) (ss : list (option MetricSample))
    (resType resID metricName : string) (from to stepSeconds : Z) (fuel : nat) :
  stepSeconds ≤ 2 ^ 61 → sane_time from → sane_time to →
  let step := if decide (stepSeconds ≤ 0) then 10 else stepSeconds in
  let capacity := if decide (c ≤ 0) then 50000 else c in
  let kept := filter (in_query resType resID metricName from to)
                (recent capacity (omap id ss)) in
  (Z.to_nat (Z.quot (Unix to) step - Z.quot (Unix from) step + 2) ≤ fuel)%nat →
  ∃ rb ts,
    PushBatch (NewRingBuffer c) ss = Ok rb ∧
    QueryRange resType resID metricName from to fuel rb stepSeconds = Ok (Some ts) ∧
    StronglySorted Z.lt (DataPoint_Timestamp <$> TimeSeries_DataPoints ts) ∧
    ∀ p, p ∈ TimeSeries_DataPoints ts ↔ ∃ k, in_bucket step k kept ≠ [] ∧
           p = mkDataPoint (k * Second) (mean (in_bucket step k kept)).
Proof.
  intros Hs Hf Ht step capacity kept Hfuel.
  destruct (PushBatch_holds (NewRingBuffer c) [] ss (holds_new c)) as (rb & Hrun & Hcap & Hh).
  simpl in Hh. exists rb. set (l := omap id ss) in *.
  assert (RingBuffer_capacity rb = capacity) as Hc by (rewrite Hcap; by unfold NewRingBuffer).
  assert (Z.to_nat (RingBuffer_size rb) = Nat.min (Z.to_nat capacity) (length l)) as Hsz.
  { destruct Hh as (Hpos & _ & _ & -> & _). rewrite Hc in *. lia. }
  pose proof (filter_loop_holds resType resID metricName from to rb l 0
                (Z.to_nat (RingBuffer_size rb)) Hh ltac:(lia)) as Hloop.
  rewrite drop_0 in Hloop.
  assert (take (Z.to_nat (RingBuffer_size rb)) (reverse l) = recent capacity l) as Htake.
  { unfold recent. rewrite Hsz. destruct (decide (Z.to_nat capacity ≤ length l)%nat).
    - f_equal. lia.
    - rewrite !take_ge by (rewrite length_reverse; lia). done. }
  rewrite Htake in Hloop. fold kept in Hloop. change (Z.of_nat 0) with 0 in Hloop.
  unfold QueryRange. fold step. rewrite Hloop. unfold mbind at 1, result_bind.
  assert (0 < step ≤ 2 ^ 61) as Hst by (subst step; case_decide; lia).
  destruct (decide (length kept = 0%nat)) as [E|E].
  - apply nil_length_inv in E. eexists. split; [done|]. split; [reflexivity|].
    simpl. split; [constructor|]. intros p. rewrite E. split; [by intros ?%elem_of_nil|].
    by intros (k & Hk & _).
  - destruct (points_of resType resID metricName from to step Hst Hf Ht kept fuel)
      as (points & -> & Hsort & Hin); [by destruct kept|by eexists|done|].
    eexists. split; [done|]. split; [reflexivity|]. done.
Qed.

(** ** A concrete ring *)

Definition demo_sample (v t : Z) : option MetricSample :=
  Some (mkMetricSample "node" "n1" "cpu_percent" (of_int v) (t * Second)).

(** Capacity 2: the first of three samples is forgotten. *)
Lemma query_refines_witness : ∃ rb ts,
  PushBatch (NewRingBuffer 2) [demo_sample 10 100; None; demo_sample 20 101; demo_sample 40 102]
    = Ok rb ∧
  QueryRange "node" "n1" "cpu_percent" 0 (200 * Second) 50 rb 0 = Ok (Some ts) ∧
  mkDataPoint (100 * Second) (of_int 30) ∈ TimeSeries_DataPoints ts.
Proof.
  edestruct (query_refines 2
    [demo_sample 10 100; None; demo_sample 20 101; demo_sample 40 102]
    "node" "n1" "cpu_percent" 0 (200 * Second) 0 50) as (rb & ts & H1 & H2 & _ & H3).
  - lia.
  - vm_compute. discriminate.
  - vm_compute. discriminate.
  - vm_compute. lia.
  - exists rb, ts. split; [exact H1|]. split; [exact H2|].
    apply H3. exists 100. split; [vm_compute; discriminate|vm_compute; reflexivity].
Defined.
