(* ===== verification/Quota.v ===== *)
(** * Plans, subscriptions and quotas

    [internal/domain/billing/{plan,subscription,quota}.go], the repositories
    of [internal/infra/memory/billing_repo.go] and the quota engine of
    [internal/app/billing/quota.go]. Every engine call runs under the engine's
    mutex, so a history of calls is a sequence of whole calls. *)

From S2P Require Import Prelude.

Definition ErrPlanNotFound := ErrNew "billing" "billing plan not found".
Definition ErrPlanSlugExists := ErrNew "billing" "billing plan slug already exists".
Definition ErrInvalidPlanSpec := ErrNew "billing" "invalid plan specification".
Definition ErrSubscriptionNotFound := ErrNew "billing" "subscription not found".
Definition ErrInvalidSubscription := ErrNew "billing" "invalid subscription specification".
Definition ErrQuotaExceeded := ErrNew "billing" "resource quota exceeded".
Definition ErrQuotaNotFound := ErrNew "billing" "quota not found".

Definition MetricVCPUHours := "vcpu_hours".
Definition MetricRAMGBHours := "ram_gb_hours".
Definition MetricStorageGBMonths := "storage_gb_months".
Definition MetricIPv4Addresses := "ipv4_addresses".
Definition MetricSnapshotCount := "snapshot_count".
Definition MetricBackupStorageMB := "backup_storage_mb".
Definition MetricNetworkEgressGB := "network_egress_gb".
Definition MetricInstanceCount := "instance_count".

Record Plan : Type := mkPlan {
  Plan_ID : string;
  Plan_Name : string;
  Plan_Slug : string;
  Plan_Description : string;
  Plan_Currency : string;
  Plan_MonthlyPriceMinor : Z;
  Plan_YearlyPriceMinor : Z;
  Plan_IncludedVCPU : Z;
  Plan_IncludedMemoryMB : Z;
  Plan_IncludedStorageMB : Z;
  Plan_IncludedIPv4 : Z;
  Plan_IncludedSnapshots : Z;
  Plan_IncludedBackups : Z;
  Plan_IncludedBandwidthGB : Z;
  Plan_MaximumInstances : Z;
  Plan_MaximumVCPU : Z;
  Plan_MaximumMemoryMB : Z;
  Plan_MaximumStorageMB : Z;
  Plan_Features : gmap string bool;
  Plan_Active : bool;
  Plan_CreatedAt : Z;
  Plan_UpdatedAt : Z
}.
#[export] Instance Plan_eq_dec : EqDecision Plan.
Proof. solve_decision. Defined.

Definition eta_Plan (r : Plan) : Plan :=
  mkPlan (Plan_ID r) (Plan_Name r) (Plan_Slug r) (Plan_Description r) (Plan_Currency r)
    (Plan_MonthlyPriceMinor r) (Plan_YearlyPriceMinor r) (Plan_IncludedVCPU r)
    (Plan_IncludedMemoryMB r) (Plan_IncludedStorageMB r) (Plan_IncludedIPv4 r)
    (Plan_IncludedSnapshots r) (Plan_IncludedBackups r) (Plan_IncludedBandwidthGB r)
    (Plan_MaximumInstances r) (Plan_MaximumVCPU r) (Plan_MaximumMemoryMB r)
    (Plan_MaximumStorageMB r) (Plan_Features r) (Plan_Active r) (Plan_CreatedAt r)
    (Plan_UpdatedAt r).
#[export] Instance set_Plan_ID : Setter Plan_ID := ltac:(setter eta_Plan Plan_ID).
#[export] Instance set_Plan_Name : Setter Plan_Name := ltac:(setter eta_Plan Plan_Name).
#[export] Instance set_Plan_Slug : Setter Plan_Slug := ltac:(setter eta_Plan Plan_Slug).
#[export] Instance set_Plan_Currency : Setter Plan_Currency := ltac:(setter eta_Plan Plan_Currency).
#[export] Instance set_Plan_Active : Setter Plan_Active := ltac:(setter eta_Plan Plan_Active).
#[export] Instance set_Plan_CreatedAt : Setter Plan_CreatedAt := ltac:(setter eta_Plan Plan_CreatedAt).
#[export] Instance set_Plan_UpdatedAt : Setter Plan_UpdatedAt := ltac:(setter eta_Plan Plan_UpdatedAt).

Inductive SubscriptionStatus : Type :=
  | SubscriptionStatusActive
  | SubscriptionStatusCanceled
  | SubscriptionStatusPastDue
  | SubscriptionStatusIncomplete
  | SubscriptionStatusTrialing.
#[export] Instance SubscriptionStatus_eq_dec : EqDecision SubscriptionStatus.
Proof. solve_decision. Defined.

Definition BillingCycleMonthly := "monthly".
Definition BillingCycleYearly := "yearly".

Record Subscription : Type := mkSubscription {
  Subscription_ID : string;
  Subscription_TenantID : string;
  Subscription_PlanID : string;
  Subscription_Status : SubscriptionStatus;
  Subscription_BillingCycle : string;
  Subscription_CurrentPeriodStart : Z;
  Subscription_CurrentPeriodEnd : Z;
  Subscription_CancelAtPeriodEnd : bool;
  Subscription_CreatedAt : Z;
  Subscription_UpdatedAt : Z
}.
#[export] Instance Subscription_eq_dec : EqDecision Subscription.
Proof. solve_decision. Defined.

Definition eta_Subscription (r : Subscription) : Subscription :=
  mkSubscription (Subscription_ID r) (Subscription_TenantID r) (Subscription_PlanID r)
    (Subscription_Status r) (Subscription_BillingCycle r)
    (Subscription_CurrentPeriodStart r) (Subscription_CurrentPeriodEnd r)
    (Subscription_CancelAtPeriodEnd r) (Subscription_CreatedAt r)
    (Subscription_UpdatedAt r).
#[export] Instance set_Subscription_ID : Setter Subscription_ID := ltac:(setter eta_Subscription Subscription_ID).
#[export] Instance set_Subscription_PlanID : Setter Subscription_PlanID := ltac:(setter eta_Subscription Subscription_PlanID).
#[export] Instance set_Subscription_Status : Setter Subscription_Status := ltac:(setter eta_Subscription Subscription_Status).
#[export] Instance set_Subscription_BillingCycle : Setter Subscription_BillingCycle := ltac:(setter eta_Subscription Subscription_BillingCycle).
#[export] Instance set_Subscription_CancelAtPeriodEnd : Setter Subscription_CancelAtPeriodEnd := ltac:(setter eta_Subscription Subscription_CancelAtPeriodEnd).
#[export] Instance set_Subscription_CreatedAt : Setter Subscription_CreatedAt := ltac:(setter eta_Subscription Subscription_CreatedAt).
#[export] Instance set_Subscription_UpdatedAt : Setter Subscription_UpdatedAt := ltac:(setter eta_Subscription Subscription_UpdatedAt).

Definition Subscription_Validate (s : Subscription) : result () :=
  let bad text := Err (Wrapf ("invalid subscription specification: " +:+ text)
                         ErrInvalidSubscription) in
  if decide (Subscription_TenantID s = "") then bad "tenant ID is required"
  else if decide (Subscription_PlanID s = "") then bad "plan ID is required"
  else if decide (Subscription_BillingCycle s ≠ BillingCycleMonthly ∧
                  Subscription_BillingCycle s ≠ BillingCycleYearly)
  then bad "invalid billing cycle (must be monthly or yearly)"
  else if decide (Subscription_CurrentPeriodEnd s < Subscription_CurrentPeriodStart s)
  then bad "period end cannot precede period start"
  else Ok ().

Record Quota : Type := mkQuota {
  Quota_TenantID : string;
  Quota_Metric : string;
  Quota_Limit : Z;
  Quota_CurrentUsage : Z;
  Quota_ResetPeriod : string;
  Quota_UpdatedAt : Z
}.
#[export] Instance Quota_eq_dec : EqDecision Quota.
Proof. solve_decision. Defined.

Definition eta_Quota (r : Quota) : Quota :=
  mkQuota (Quota_TenantID r) (Quota_Metric r) (Quota_Limit r) (Quota_CurrentUsage r)
    (Quota_ResetPeriod r) (Quota_UpdatedAt r).
#[export] Instance set_Quota_Limit : Setter Quota_Limit := ltac:(setter eta_Quota Quota_Limit).
#[export] Instance set_Quota_CurrentUsage : Setter Quota_CurrentUsage := ltac:(setter eta_Quota Quota_CurrentUsage).
#[export] Instance set_Quota_UpdatedAt : Setter Quota_UpdatedAt := ltac:(setter eta_Quota Quota_UpdatedAt).

Definition Available (q : Quota) : Z :=
  if decide (Quota_Limit q ≤ 0) then 0
  else
    let avail := sub64 (Quota_Limit q) (Quota_CurrentUsage q) in
    if decide (avail < 0) then 0 else avail.

Definition CanAllocate (q : Quota) (delta : Z) : bool :=
  if decide (delta ≤ 0) then true
  else bool_decide (add64 (Quota_CurrentUsage q) delta ≤ Quota_Limit q).

Abbreviation QuotaSet := (gmap string Quota).

Record ResourceSpec : Type := mkResourceSpec {
  ResourceSpec_Instances : Z;
  ResourceSpec_VCPU : Z;
  ResourceSpec_MemoryMB : Z;
  ResourceSpec_StorageMB : Z;
  ResourceSpec_IPv4 : Z;
  ResourceSpec_Snapshots : Z;
  ResourceSpec_Backups : Z
}.
#[export] Instance ResourceSpec_eq_dec : EqDecision ResourceSpec.
Proof. solve_decision. Defined.

Definition ResourceSpec_Validate (s : ResourceSpec) : result () :=
  if decide (ResourceSpec_Instances s < 0 ∨ ResourceSpec_VCPU s < 0 ∨
             ResourceSpec_MemoryMB s < 0 ∨ ResourceSpec_StorageMB s < 0 ∨
             ResourceSpec_IPv4 s < 0)
  then Err (Wrapf "invalid plan specification: resource delta cannot contain negative values"
              ErrInvalidPlanSpec)
  else Ok ().

(** ** The repositories *)

Record BillingStore : Type := mkBillingStore {
  BillingStore_plans : gmap string Plan;
  BillingStore_subscriptions : gmap string Subscription;
  BillingStore_tenantSubs : gmap string string;
  BillingStore_quotas : gmap string QuotaSet
}.

Definition eta_BillingStore (r : BillingStore) : BillingStore :=
  mkBillingStore (BillingStore_plans r) (BillingStore_subscriptions r)
    (BillingStore_tenantSubs r) (BillingStore_quotas r).
#[export] Instance set_BillingStore_plans : Setter BillingStore_plans := ltac:(setter eta_BillingStore BillingStore_plans).
#[export] Instance set_BillingStore_subscriptions : Setter BillingStore_subscriptions := ltac:(setter eta_BillingStore BillingStore_subscriptions).
#[export] Instance set_BillingStore_tenantSubs : Setter BillingStore_tenantSubs := ltac:(setter eta_BillingStore BillingStore_tenantSubs).
#[export] Instance set_BillingStore_quotas : Setter BillingStore_quotas := ltac:(setter eta_BillingStore BillingStore_quotas).

Definition empty_billing : BillingStore := mkBillingStore ∅ ∅ ∅ ∅.

(** [seedDefaultPlans]: the three plans a new plan repository holds. *)
Definition features (l : list string) : gmap string bool :=
  list_to_map ((λ f, (f, true)) <$> l).

Definition default_plans (now : Z) : list Plan :=
  [ mkPlan "plan-starter" "Starter Developer" "starter"
      "Entry level compute for staging and lightweight microservices"
      "EUR" 500 5000 1 1024 10240 1 2 1 1000 5 4 8192 81920
      (features ["snapshots"; "cloudinit"; "ddos_protection"]) true now now;
    mkPlan "plan-pro" "Pro Production" "pro"
      "High performance NVMe workloads for production APIs and databases"
      "EUR" 2000 20000 4 8192 81920 2 10 5 5000 15 16 32768 327680
      (features ["snapshots"; "backups"; "cloudinit"; "monitoring"; "ddos_protection"])
      true now now;
    mkPlan "plan-enterprise" "Enterprise High-Availability" "enterprise"
      "Dedicated cluster resources, priority support, and multi-region failover"
      "EUR" 8000 80000 16 32768 327680 5 50 20 20000 50 64 131072 1310720
      (features ["snapshots"; "backups"; "cloudinit"; "monitoring"; "siem"; "priority_sla"])
      true now now ].

Definition seedDefaultPlans : go BillingStore () :=
  now ← time_Now;
  modify (λ s, s <| BillingStore_plans :=
    foldl (λ m p, <[Plan_ID p := p]> m) (BillingStore_plans s) (default_plans now) |>).

Definition plan_Create (plan : Plan) : go BillingStore Plan :=
  s ← get;
  es ← range_map (BillingStore_plans s);
  match list_find (λ kv, EqualFold (Plan_Slug kv.2) (Plan_Slug plan)) es with
  | Some _ => fail ErrPlanSlugExists
  | None =>
      id ← (if decide (Plan_ID plan = "") then uuid_NewString else mret (Plan_ID plan));
      now ← time_Now;
      let plan := plan <| Plan_ID := id |> <| Plan_CreatedAt := now |>
                       <| Plan_UpdatedAt := now |> in
      modify (λ s, s <| BillingStore_plans := <[id := plan]> (BillingStore_plans s) |>) ;;
      mret plan
  end.

Definition plan_GetByID (id : string) : go BillingStore Plan :=
  s ← get;
  match BillingStore_plans s !! id with
  | Some p => mret p
  | None => fail ErrPlanNotFound
  end.

Definition plan_GetBySlug (slug : string) : go BillingStore Plan :=
  s ← get;
  es ← range_map (BillingStore_plans s);
  match list_find (λ kv, EqualFold (Plan_Slug kv.2) slug) es with
  | Some (_, (_, p)) => mret p
  | None => fail ErrPlanNotFound
  end.

Definition plan_List (activeOnly : bool) : go BillingStore (list Plan) :=
  s ← get;
  es ← range_map (BillingStore_plans s);
  mret (filter (λ p, activeOnly = false ∨ Plan_Active p = true) es.*2).

Definition plan_Update (plan : Plan) : go BillingStore Plan :=
  s ← get;
  match BillingStore_plans s !! Plan_ID plan with
  | None => fail ErrPlanNotFound
  | Some p =>
      es ← range_map (BillingStore_plans s);
      match list_find (λ kv, Plan_ID kv.2 ≠ Plan_ID plan ∧
                             EqualFold (Plan_Slug kv.2) (Plan_Slug plan)) es with
      | Some _ => fail ErrPlanSlugExists
      | None =>
          now ← time_Now;
          let plan := plan <| Plan_CreatedAt := Plan_CreatedAt p |>
                           <| Plan_UpdatedAt := now |> in
          modify (λ s, s <| BillingStore_plans :=
            <[Plan_ID plan := plan]> (BillingStore_plans s) |>) ;;
          mret plan
      end
  end.

Definition plan_Delete (id : string) : go BillingStore () :=
  plan_GetByID id ;;
  modify (λ s, s <| BillingStore_plans := delete id (BillingStore_plans s) |>).

(** [r.subscriptions[sub.ID] = &cp; r.tenantSubs[sub.TenantID] = sub.ID]. *)
Definition store_sub (sub : Subscription) (s : BillingStore) : BillingStore :=
  s <| BillingStore_subscriptions :=
         <[Subscription_ID sub := sub]> (BillingStore_subscriptions s) |>
    <| BillingStore_tenantSubs :=
         <[Subscription_TenantID sub := Subscription_ID sub]> (BillingStore_tenantSubs s) |>.

Definition sub_Create (sub : Subscription) : go BillingStore Subscription :=
  id ← (if decide (Subscription_ID sub = "") then uuid_NewString
        else mret (Subscription_ID sub));
  now ← time_Now;
  let sub := sub <| Subscription_ID := id |> <| Subscription_CreatedAt := now |>
                 <| Subscription_UpdatedAt := now |> in
  modify (store_sub sub) ;;
  mret sub.

Definition sub_GetByID (id : string) : go BillingStore Subscription :=
  s ← get;
  match BillingStore_subscriptions s !! id with
  | Some sub => mret sub
  | None => fail ErrSubscriptionNotFound
  end.

Definition sub_GetByTenantID (tenantID : string) : go BillingStore Subscription :=
  s ← get;
  match BillingStore_tenantSubs s !! tenantID with
  | None => fail ErrSubscriptionNotFound
  | Some subID => sub_GetByID subID
  end.

Definition sub_List : go BillingStore (list Subscription) :=
  s ← get;
  es ← range_map (BillingStore_subscriptions s);
  mret es.*2.

Definition sub_Update (sub : Subscription) : go BillingStore Subscription :=
  existing ← sub_GetByID (Subscription_ID sub);
  now ← time_Now;
  let sub := sub <| Subscription_CreatedAt := Subscription_CreatedAt existing |>
                 <| Subscription_UpdatedAt := now |> in
  modify (store_sub sub) ;;
  mret sub.

Definition sub_Cancel (id : string) : go BillingStore () :=
  sub ← sub_GetByID id;
  now ← time_Now;
  modify (λ s, s <| BillingStore_subscriptions :=
    <[id := (sub <| Subscription_Status := SubscriptionStatusCanceled |>
                 <| Subscription_UpdatedAt := now |>)]> (BillingStore_subscriptions s) |>).

(** [r.quotas[tenantID]], a nil map when the tenant has none. *)
Definition tenant_quotas (s : BillingStore) (tenantID : string) : QuotaSet :=
  default ∅ (BillingStore_quotas s !! tenantID).

Definition put_quota (tenantID metric : string) (q : Quota) (s : BillingStore) : BillingStore :=
  s <| BillingStore_quotas :=
    <[tenantID := <[metric := q]> (tenant_quotas s tenantID)]> (BillingStore_quotas s) |>.

Definition quota_GetQuota (tenantID metric : string) : go BillingStore Quota :=
  s ← get;
  match tenant_quotas s tenantID !! metric with
  | Some q => mret q
  | None => fail ErrQuotaNotFound
  end.

Definition quota_ListQuotas (tenantID : string) : go BillingStore QuotaSet :=
  s ← get;
  mret (tenant_quotas s tenantID).

Definition quota_SetQuota (quota : Quota) : go BillingStore Quota :=
  now ← time_Now;
  let quota := quota <| Quota_UpdatedAt := now |> in
  modify (put_quota (Quota_TenantID quota) (Quota_Metric quota) quota) ;;
  mret quota.

Definition quota_ReserveQuota (tenantID metric : string) (delta limit : Z) :
    go BillingStore () :=
  s ← get;
  q ← match tenant_quotas s tenantID !! metric with
      | Some q => mret q
      | None =>
          now ← time_Now;
          mret (mkQuota tenantID metric limit 0 "none" now)
      end;
  let q := if decide (0 < limit ∧ Quota_Limit q ≠ limit) then q <| Quota_Limit := limit |>
           else q in
  modify (put_quota tenantID metric q) ;;
  let reached := add64 (Quota_CurrentUsage q) delta in
  if decide (0 < Quota_Limit q ∧ Quota_Limit q < reached) then
    fail (Wrapf ("resource quota exceeded: metric " +:+ metric +:+ " limit is "
                 +:+ fmt_d (Quota_Limit q) +:+ ", requested allocation would reach "
                 +:+ fmt_d reached) ErrQuotaExceeded)
  else
    now ← time_Now;
    modify (put_quota tenantID metric
      (q <| Quota_CurrentUsage := reached |> <| Quota_UpdatedAt := now |>)).

Definition quota_ReleaseQuota (tenantID metric : string) (delta : Z) : go BillingStore () :=
  s ← get;
  match tenant_quotas s tenantID !! metric with
  | None => mret ()
  | Some q =>
      let left := sub64 (Quota_CurrentUsage q) delta in
      let left := if decide (left < 0) then 0 else left in
      now ← time_Now;
      modify (put_quota tenantID metric
        (q <| Quota_CurrentUsage := left |> <| Quota_UpdatedAt := now |>))
  end.

(** ** The engine *)

Definition GetTenantPlan (tenantID : string) : go BillingStore Plan :=
  sub ← try (sub_GetByTenantID tenantID);
  match sub with
  | Ok sub => plan_GetByID (Subscription_PlanID sub)
  | Err err =>
      plans ← try (plan_List true);
      match plans with
      | Ok (p :: _) => mret p
      | _ => fail err
      end
  end.

(** [fmt.Errorf("unable to resolve tenant plan: %w", err)]. *)
Definition resolve_plan (tenantID : string) : go BillingStore Plan :=
  wrap_err (λ e, Wrapf ("unable to resolve tenant plan: " +:+ Error e) e)
    (GetTenantPlan tenantID).

(** [current := int64(0); if q != nil { current = q.CurrentUsage }]. *)
Definition current_usage (quotas : QuotaSet) (metric : string) : Z :=
  from_option Quota_CurrentUsage 0 (quotas !! metric).

(** One numbered block of [CheckQuota]. *)
Definition check_metric (quotas : QuotaSet) (metric : string) (requested limit : Z)
    (text : Z → string) : go BillingStore () :=
  let current := current_usage quotas metric in
  guard_err (0 < requested ∧ 0 < limit ∧ limit < add64 current requested)
    (Wrapf ("resource quota exceeded: " +:+ text current) ErrQuotaExceeded).

Definition CheckQuota (tenantID : string) (spec : ResourceSpec) : go BillingStore () :=
  plan ← resolve_plan tenantID;
  quotas ← quota_ListQuotas tenantID;
  check_metric quotas MetricInstanceCount (ResourceSpec_Instances spec)
    (Plan_MaximumInstances plan)
    (λ current, "max instances limit (" +:+ fmt_d (Plan_MaximumInstances plan)
       +:+ ") reached (current: " +:+ fmt_d current +:+ ", requested: +"
       +:+ fmt_d (ResourceSpec_Instances spec) +:+ ")") ;;
  check_metric quotas MetricVCPUHours (ResourceSpec_VCPU spec) (Plan_MaximumVCPU plan)
    (λ current, "max vCPU limit (" +:+ fmt_d (Plan_MaximumVCPU plan)
       +:+ ") reached (current: " +:+ fmt_d current +:+ ", requested: +"
       +:+ fmt_d (ResourceSpec_VCPU spec) +:+ ")") ;;
  check_metric quotas MetricRAMGBHours (ResourceSpec_MemoryMB spec) (Plan_MaximumMemoryMB plan)
    (λ current, "max RAM limit (" +:+ fmt_d (Plan_MaximumMemoryMB plan)
       +:+ " MB) reached (current: " +:+ fmt_d current +:+ " MB, requested: +"
       +:+ fmt_d (ResourceSpec_MemoryMB spec) +:+ " MB)") ;;
  check_metric quotas MetricStorageGBMonths (ResourceSpec_StorageMB spec)
    (Plan_MaximumStorageMB plan)
    (λ current, "max storage limit (" +:+ fmt_d (Plan_MaximumStorageMB plan)
       +:+ " MB) reached (current: " +:+ fmt_d current +:+ " MB, requested: +"
       +:+ fmt_d (ResourceSpec_StorageMB spec) +:+ " MB)").

(** [if spec.X > 0 { _ = e.quotaRepo.ReleaseQuota(...) }]. *)
Definition release_metric (tenantID metric : string) (delta : Z) : go BillingStore () :=
  if decide (0 < delta) then ignore (quota_ReleaseQuota tenantID metric delta) else mret ().

(** [if spec.X > 0 { if err := ...ReserveQuota(...); err != nil { rollback; return err } }]. *)
Definition reserve_metric (tenantID metric : string) (delta limit : Z)
    (rollback : go BillingStore ()) : go BillingStore () :=
  if decide (0 < delta) then
    res ← try (quota_ReserveQuota tenantID metric delta limit);
    match res with
    | Ok _ => mret ()
    | Err err => rollback ;; fail err
    end
  else mret ().

Definition ReserveQuota (tenantID : string) (spec : ResourceSpec) : go BillingStore () :=
  plan ← resolve_plan tenantID;
  let undo_instances :=
    release_metric tenantID MetricInstanceCount (ResourceSpec_Instances spec) in
  let undo_vcpu := release_metric tenantID MetricVCPUHours (ResourceSpec_VCPU spec) in
  let undo_memory := release_metric tenantID MetricRAMGBHours (ResourceSpec_MemoryMB spec) in
  reserve_metric tenantID MetricInstanceCount (ResourceSpec_Instances spec)
    (Plan_MaximumInstances plan) (mret ()) ;;
  reserve_metric tenantID MetricVCPUHours (ResourceSpec_VCPU spec)
    (Plan_MaximumVCPU plan) undo_instances ;;
  reserve_metric tenantID MetricRAMGBHours (ResourceSpec_MemoryMB spec)
    (Plan_MaximumMemoryMB plan) (undo_instances ;; undo_vcpu) ;;
  reserve_metric tenantID MetricStorageGBMonths (ResourceSpec_StorageMB spec)
    (Plan_MaximumStorageMB plan) (undo_instances ;; undo_vcpu ;; undo_memory).

Definition ReleaseQuota (tenantID : string) (spec : ResourceSpec) : go BillingStore () :=
  release_metric tenantID MetricInstanceCount (ResourceSpec_Instances spec) ;;
  release_metric tenantID MetricVCPUHours (ResourceSpec_VCPU spec) ;;
  release_metric tenantID MetricRAMGBHours (ResourceSpec_MemoryMB spec) ;;
  release_metric tenantID MetricStorageGBMonths (ResourceSpec_StorageMB spec) ;;
  release_metric tenantID MetricIPv4Addresses (ResourceSpec_IPv4 spec).

(** [if quotas[m] == nil { quotas[m] = &billing.Quota{...} }]. *)
Definition ensure_metric (tenantID metric : string) (limit : Z) (quotas : QuotaSet) : QuotaSet :=
  match quotas !! metric with
  | Some _ => quotas
  | None => <[metric := mkQuota tenantID metric limit 0 "" zero_time]> quotas
  end.

Definition GetTenantQuotas (tenantID : string) : go BillingStore (QuotaSet * Plan) :=
  plan ← GetTenantPlan tenantID;
  quotas ← quota_ListQuotas tenantID;
  let quotas := ensure_metric tenantID MetricInstanceCount (Plan_MaximumInstances plan) quotas in
  let quotas := ensure_metric tenantID MetricVCPUHours (Plan_MaximumVCPU plan) quotas in
  let quotas := ensure_metric tenantID MetricRAMGBHours (Plan_MaximumMemoryMB plan) quotas in
  let quotas := ensure_metric tenantID MetricStorageGBMonths (Plan_MaximumStorageMB plan) quotas in
  mret (quotas, plan).

(** ** The ledger a store implements

    What callers can observe of the quota records is the usage of each
    tenant and metric. *)

Definition usage (s : BillingStore) (t m : string) : Z := current_usage (tenant_quotas s t) m.

(** The limit [ReserveQuota] enforces: the plan's when it has one, else the
    limit of the record. *)
Definition cap (s : BillingStore) (t m : string) (limit : Z) : Z :=
  if decide (0 < limit) then limit
  else from_option Quota_Limit limit (tenant_quotas s t !! m).

(** A request of [delta] units does not fit. *)
Definition blocked (s : BillingStore) (t m : string) (delta limit : Z) : Prop :=
  0 < delta ∧ 0 < cap s t m limit ∧ cap s t m limit < usage s t m + delta.
#[export] Instance blocked_dec s t m d l : Decision (blocked s t m d l).
Proof. unfold blocked. apply _. Defined.

(** From [s] to [s'] the usages of tenant [t] moved by [f]; only the records
    of the metrics [ms] were written. *)
Definition moved (t : string) (ms : list string) (f : string → Z) (s s' : BillingStore) : Prop :=
  (BillingStore_plans s' = BillingStore_plans s ∧
   BillingStore_subscriptions s' = BillingStore_subscriptions s ∧
   BillingStore_tenantSubs s' = BillingStore_tenantSubs s) ∧
  (∀ t', t' ≠ t → tenant_quotas s' t' = tenant_quotas s t') ∧
  (∀ m, (m ∉ ms) → tenant_quotas s' t !! m = tenant_quotas s t !! m) ∧
  (∀ m, usage s' t m = usage s t m + f m).

Definition only (m : string) (d : Z) : string → Z := λ m', if decide (m' = m) then d else 0.

Lemma only_same m d : only m d m = d.
Proof. unfold only. by rewrite decide_True. Qed.
Lemma only_other m d m' : m' ≠ m → only m d m' = 0.
Proof. intros. unfold only. by rewrite decide_False. Qed.

Lemma moved_refl t s : moved t [] (λ _, 0) s s.
Proof. split_and!; auto; intros; lia. Qed.

Lemma moved_trans t ms ms' f g s1 s2 s3 :
  moved t ms f s1 s2 → moved t ms' g s2 s3 → moved t (ms ++ ms') (λ m, f m + g m) s1 s3.
Proof.
  intros ((Hp & Hs & Ht) & Ho & Hr & Hu) ((Hp' & Hs' & Ht') & Ho' & Hr' & Hu').
  split_and!; try congruence.
  - intros t' Hne. rewrite Ho', Ho; done.
  - intros m Hm. rewrite Hr', Hr; set_solver.
  - intros m. rewrite Hu', Hu. lia.
Qed.

Lemma moved_weaken t ms ms' f g s s' :
  moved t ms f s s' → ms ⊆ ms' → (∀ m, f m = g m) → moved t ms' g s s'.
Proof.
  intros (Hst & Ho & Hr & Hu) Hms Hfg. split_and!; try apply Hst; auto.
  intros m. rewrite Hu. by rewrite Hfg.
Qed.

Lemma tenant_quotas_put t m q s :
  tenant_quotas (put_quota t m q s) t = <[m := q]> (tenant_quotas s t).
Proof. unfold tenant_quotas at 1. simpl. by rewrite lookup_insert_eq. Qed.

Lemma tenant_quotas_put_ne t t' m q s :
  t' ≠ t → tenant_quotas (put_quota t m q s) t' = tenant_quotas s t'.
Proof. intros. unfold tenant_quotas at 1. simpl. by rewrite lookup_insert_ne. Qed.

Lemma put_quota_moved t m q s d :
  Quota_CurrentUsage q = usage s t m + d → moved t [m] (only m d) s (put_quota t m q s).
Proof.
  intros Hd. split_and!; try done.
  - intros t' Hne. by apply tenant_quotas_put_ne.
  - intros m' Hm. rewrite tenant_quotas_put, lookup_insert_ne; set_solver.
  - intros m'. unfold usage at 1, current_usage. rewrite tenant_quotas_put.
    destruct (decide (m' = m)) as [->|Hne].
    + rewrite lookup_insert_eq, only_same. exact Hd.
    + rewrite lookup_insert_ne, only_other by done. unfold usage, current_usage. lia.
Qed.

Lemma moved_blocked t ms f s s' m d l :
  moved t ms f s s' → (m ∉ ms) → f m = 0 → blocked s' t m d l ↔ blocked s t m d l.
Proof.
  intros (_ & _ & Hr & Hu) Hm Hf. unfold blocked, cap. rewrite Hu, Hf, (Hr m Hm), Z.add_0_r. done.
Qed.

(** ** The repository calls *)

Lemma quota_ReserveQuota_run t m d l w s :
  int64_ok (usage s t m + d) → 0 < d →
  wp (quota_ReserveQuota t m d l) (λ r s' _,
    if decide (blocked s t m d l) then (∃ e, r = Err e ∧ errors_Is e ErrQuotaExceeded)
                                       ∧ moved t [m] (only m 0) s s'
    else r = Ok () ∧ moved t [m] (only m d) s s' ∧
         (0 < cap s t m l → usage s' t m ≤ cap s t m l)) w s.
Proof.
  intros Hok Hd. unfold quota_ReserveQuota. wp_step.
  assert (∃ q w1, wp (A := Quota) (match tenant_quotas s t !! m with
      | Some q => mret q
      | None => now ← time_Now; mret (mkQuota t m l 0 "none" now) end)
      (λ r s' w', r = Ok q ∧ s' = s ∧ w' = w1) w s ∧
      Quota_CurrentUsage q = usage s t m ∧
      Quota_Limit (if decide (0 < l ∧ Quota_Limit q ≠ l) then q <| Quota_Limit := l |> else q)
        = cap s t m l) as (q & w1 & Hq & Hu & Hl).
  { unfold usage, current_usage, cap. destruct (tenant_quotas s t !! m) as [q|].
    - exists q, w. wp_step. split_and!; try done. simpl.
      destruct (decide (0 < l)), (decide (0 < l ∧ Quota_Limit q ≠ l)); simpl; try done; lia.
    - eexists _, _. wp_step. split_and!; try done. simpl.
      destruct (decide (0 < l)), (decide (0 < l ∧ l ≠ l)); simpl; try done; lia. }
  eapply wp_mono; [exact Hq|]. intros r s' w' (-> & -> & ->). clear Hq. cbv zeta.
  set (q' := if decide _ then _ else _) in *.
  assert (Quota_CurrentUsage q' = usage s t m) as Hu' by (subst q'; by destruct (decide _)).
  wp_step. rewrite Hl, Hu', add64_id by done.
  pose proof (put_quota_moved t m q' s 0 ltac:(lia)) as Hm.
  destruct (decide (blocked s t m d l)) as [Hb|Hb]; unfold blocked in Hb.
  - rewrite decide_True by lia. wp_step. split; [|done].
    eexists. split; [done|]. by vm_compute.
  - rewrite decide_False by lia. wp_step.
    set (q2 := _ <| Quota_UpdatedAt := _ |>).
    pose proof (put_quota_moved t m q2 _ d ltac:(subst q2; simpl; rewrite (proj2 (proj2 (proj2 Hm)) m),
      only_same; lia)) as Hm2.
    pose proof (moved_trans _ _ _ _ _ _ _ _ Hm Hm2) as Hm3.
    assert (moved t [m] (only m d) s (put_quota t m q2 (put_quota t m q' s))) as Hm4.
    { eapply moved_weaken; [exact Hm3|set_solver|]. intros m'. unfold only.
      destruct (decide (m' = m)); lia. }
    split_and!; [done|done|]. destruct Hm4 as (_ & _ & _ & Hus).
    rewrite Hus, only_same. lia.
Qed.

Lemma quota_ReleaseQuota_run t m d w s :
  0 < d < 2 ^ 63 → 0 ≤ usage s t m < 2 ^ 63 →
  wp (quota_ReleaseQuota t m d) (λ r s' _,
    r = Ok () ∧ moved t [m] (only m (- (d `min` usage s t m))) s s') w s.
Proof.
  intros Hd Hok. unfold quota_ReleaseQuota. wp_step.
  destruct (tenant_quotas s t !! m) as [q|] eqn:Eq.
  - assert (usage s t m = Quota_CurrentUsage q) as Hu.
    { unfold usage, current_usage. by rewrite Eq. }
    wp_step. rewrite sub64_id by (unfold int64_ok; lia). split; [done|].
    apply put_quota_moved. simpl. destruct (decide (Quota_CurrentUsage q - d < 0)); lia.
  - wp_step. split; [done|]. eapply moved_weaken; [apply moved_refl|set_solver|].
    intros m'. assert (usage s t m = 0) as -> by (unfold usage, current_usage; by rewrite Eq).
    unfold only. destruct (decide _); lia.
Qed.

(** ** The engine calls *)

Lemma release_metric_run t m d w s :
  d < 2 ^ 63 → 0 ≤ usage s t m < 2 ^ 63 →
  wp (release_metric t m d) (λ r s' _,
    r = Ok () ∧ moved t [m] (only m (- (Z.max 0 d `min` usage s t m))) s s') w s.
Proof.
  intros Hle Hok. unfold release_metric. destruct (decide (0 < d)) as [Hd|Hd].
  - wp_step. eapply wp_mono; [apply quota_ReleaseQuota_run; [lia|done]|].
    intros r s' w' (-> & Hm). split; [done|]. by replace (Z.max 0 d) with d by lia.
  - wp_step. split; [done|]. eapply moved_weaken; [apply moved_refl|set_solver|].
    intros m'. unfold only. destruct (decide _); lia.
Qed.

Lemma reserve_metric_run t m d l rb (Q : result () → BillingStore → World → Prop) w s :
  int64_ok (usage s t m + Z.max 0 d) →
  (¬ blocked s t m d l → ∀ s' w', moved t [m] (only m (Z.max 0 d)) s s' → Q (Ok ()) s' w') →
  (blocked s t m d l → ∀ s' w' e, moved t [m] (only m 0) s s' → errors_Is e ErrQuotaExceeded →
     wp rb (λ r s2 w2, r = Ok () ∧ Q (Err e) s2 w2) w' s') →
  wp (reserve_metric t m d l rb) Q w s.
Proof.
  intros Hok Hgo Hrb. unfold reserve_metric. destruct (decide (0 < d)) as [Hd|Hd].
  - replace (Z.max 0 d) with d in * by lia. wp_step.
    eapply wp_mono; [by apply quota_ReserveQuota_run|]. intros r s' w' Hr.
    destruct (decide (blocked s t m d l)) as [Hb|Hb].
    + destruct Hr as ((e & -> & He) & Hm). wp_step.
      eapply wp_mono; [by apply Hrb|]. intros r s2 w2 [-> HQ]. by wp_step.
    + destruct Hr as (-> & Hm & _). wp_step. by apply Hgo.
  - wp_step. apply Hgo; [unfold blocked; lia|].
    eapply moved_weaken; [apply moved_refl|set_solver|]. intros m'. unfold only.
    destruct (decide _); lia.
Qed.

Lemma read_only_match_result {St A B} (r : result A) (f : A → go St B) (g : error → go St B) :
  (∀ a, read_only (f a)) → (∀ e, read_only (g e)) →
  read_only (match r with Ok a => f a | Err e => g e end).
Proof. destruct r; auto. Qed.

Lemma read_only_try {St A} (m : go St A) : read_only m → read_only (try m).
Proof.
  intros Hm w s. specialize (Hm w s). unfold exec, try in *. by destruct (m w s) as [[r s'] w'].
Qed.

Lemma GetTenantPlan_read_only t : read_only (GetTenantPlan t).
Proof.
  unfold GetTenantPlan. apply read_only_bind.
  - apply read_only_try, read_only_bind; [auto with go|]. intros s.
    case_match; [|auto with go]. apply read_only_bind; [auto with go|]. intros s'.
    case_match; auto with go.
  - intros r. apply read_only_match_result.
    + intros sub. apply read_only_bind; [auto with go|]. intros s'. case_match; auto with go.
    + intros e. apply read_only_bind.
      { apply read_only_try, read_only_bind; [auto with go|]. intros s'.
        apply read_only_bind; auto with go. }
      intros r'. destruct r' as [[|p ps]|]; auto with go.
Qed.

Lemma resolve_plan_run t p w s :
  answer (GetTenantPlan t) w s = Ok p → ∃ w', resolve_plan t w s = (Ok p, s, w').
Proof.
  intros Ha. pose proof (GetTenantPlan_read_only t w s) as Hs.
  unfold resolve_plan, wrap_err, answer, exec in *.
  destruct (GetTenantPlan t w s) as [[r s'] w']. simpl in *. subst. by exists w'.
Qed.

Definition reserved_metrics : list string :=
  [MetricInstanceCount; MetricVCPUHours; MetricRAMGBHours; MetricStorageGBMonths].

(** What a request adds to the usage of each metric. *)
Definition demand (spec : ResourceSpec) (m : string) : Z :=
  only MetricInstanceCount (Z.max 0 (ResourceSpec_Instances spec)) m +
  only MetricVCPUHours (Z.max 0 (ResourceSpec_VCPU spec)) m +
  only MetricRAMGBHours (Z.max 0 (ResourceSpec_MemoryMB spec)) m +
  only MetricStorageGBMonths (Z.max 0 (ResourceSpec_StorageMB spec)) m.

(** Every part of the request fits. *)
Definition fits (s : BillingStore) (t : string) (p : Plan) (spec : ResourceSpec) : Prop :=
  ¬ blocked s t MetricInstanceCount (ResourceSpec_Instances spec) (Plan_MaximumInstances p) ∧
  ¬ blocked s t MetricVCPUHours (ResourceSpec_VCPU spec) (Plan_MaximumVCPU p) ∧
  ¬ blocked s t MetricRAMGBHours (ResourceSpec_MemoryMB spec) (Plan_MaximumMemoryMB p) ∧
  ¬ blocked s t MetricStorageGBMonths (ResourceSpec_StorageMB spec) (Plan_MaximumStorageMB p).
#[export] Instance fits_dec s t p spec : Decision (fits s t p spec).
Proof. unfold fits. apply _. Defined.

(** Amounts far from the ends of [int64]. *)
Definition moderate (spec : ResourceSpec) : Prop :=
  ResourceSpec_Instances spec < 2 ^ 62 ∧ ResourceSpec_VCPU spec < 2 ^ 62 ∧
  ResourceSpec_MemoryMB spec < 2 ^ 62 ∧ ResourceSpec_StorageMB spec < 2 ^ 62.

Definition sane (s : BillingStore) (t : string) : Prop := ∀ m, 0 ≤ usage s t m < 2 ^ 62.

Ltac metrics := vm_compute; set_solver.

(** Closes [moved t reserved_metrics f s s'] from a chain of moves. *)
Ltac moved_solve H :=
  eapply moved_weaken; [exact H|by vm_compute; set_solver|];
  intros ?; unfold demand, only; repeat destruct (decide _); lia.

Lemma moved_usage t ms f s s' m : moved t ms f s s' → usage s' t m = usage s t m + f m.
Proof. intros (_ & _ & _ & Hu). apply Hu. Qed.

(** One release, from a chain of moves since [s]. *)
Lemma release_step t ms f s s1 m d (Q : result () → BillingStore → World → Prop) w :
  moved t ms f s s1 → d < 2 ^ 63 → 0 ≤ usage s t m + f m < 2 ^ 63 →
  (∀ s2 w2, moved t (ms ++ [m])
     (λ m', f m' + only m (- (Z.max 0 d `min` (usage s t m + f m))) m') s s2 → Q (Ok ()) s2 w2) →
  wp (release_metric t m d) Q w s1.
Proof.
  intros Hm Hd Hok Hrest. rewrite <-(moved_usage _ _ _ _ _ _ Hm) in Hok, Hrest.
  eapply wp_mono; [by apply release_metric_run|]. intros r s2 w2 (-> & Hm2).
  apply Hrest. eapply moved_trans; done.
Qed.

(** The undo of a reservation made since [s]. *)
Lemma undo_step t ms f s s1 m d (Q : result () → BillingStore → World → Prop) w :
  moved t ms f s s1 → d < 2 ^ 63 → Z.max 0 d ≤ usage s t m + f m < 2 ^ 63 →
  (∀ s2 w2, moved t (ms ++ [m]) (λ m', f m' + only m (- Z.max 0 d) m') s s2 → Q (Ok ()) s2 w2) →
  wp (release_metric t m d) Q w s1.
Proof.
  intros Hm Hd Hok Hrest. eapply release_step; [done|done|lia|].
  by rewrite Z.min_l by lia.
Qed.

(** One block of [ReserveQuota], from a chain of moves since [s]. *)
Lemma reserve_step t ms f s s1 m d l rb (Q : result () → BillingStore → World → Prop) w :
  moved t ms f s s1 → (m ∉ ms) → f m = 0 → int64_ok (usage s t m + Z.max 0 d) →
  (¬ blocked s t m d l → ∀ s2 w2,
     moved t (ms ++ [m]) (λ m', f m' + only m (Z.max 0 d) m') s s2 → Q (Ok ()) s2 w2) →
  (blocked s t m d l → ∀ s2 w2 e,
     moved t (ms ++ [m]) (λ m', f m' + only m 0 m') s s2 → errors_Is e ErrQuotaExceeded →
     wp rb (λ r s3 w3, r = Ok () ∧ Q (Err e) s3 w3) w2 s2) →
  wp (reserve_metric t m d l rb) Q w s1.
Proof.
  intros Hm Hnew Hf Hok Hgo Hrb. pose proof (moved_blocked _ _ _ _ _ m d l Hm Hnew Hf) as Hb.
  apply reserve_metric_run.
  - by rewrite (moved_usage _ _ _ _ _ _ Hm), Hf, Z.add_0_r.
  - intros Hn s2 w2 Hm2. apply Hgo; [by rewrite <-Hb|]. eapply moved_trans; done.
  - intros Hy s2 w2 e Hm2. apply Hrb; [by apply Hb|]. eapply moved_trans; done.
Qed.

Ltac amounts :=
  cbv beta; unfold only, int64_ok;
  repeat (let Heq := fresh in destruct (decide _) as [Heq|Heq]; [try discriminate Heq|try done]);
  lia.

Section reserve.
Context (t : string) (spec : ResourceSpec) (p : Plan) (s : BillingStore).
Context (Hsane : sane s t) (Hmod : moderate spec).

Lemma ReserveQuota_run w :
  answer (GetTenantPlan t) w s = Ok p →
  wp (ReserveQuota t spec) (λ r s' _,
    if decide (fits s t p spec) then r = Ok () ∧ moved t reserved_metrics (demand spec) s s'
    else (∃ e, r = Err e ∧ errors_Is e ErrQuotaExceeded) ∧
         moved t reserved_metrics (λ _, 0) s s') w s.
Proof.
  intros Hp. destruct (resolve_plan_run _ _ _ _ Hp) as [w1 Hrun].
  unfold ReserveQuota. rewrite wp_bind, (wp_run _ _ _ _ _ _ _ Hrun).
  destruct Hmod as (Hi & Hv & Hr & Hg).
  pose proof (Hsane MetricInstanceCount) as Ui. pose proof (Hsane MetricVCPUHours) as Uv.
  pose proof (Hsane MetricRAMGBHours) as Ur. pose proof (Hsane MetricStorageGBMonths) as Ug.
  unfold fits.
  wp_step. apply (reserve_step t [] (λ _, 0) s); [apply moved_refl|set_solver|done|amounts|..];
    intros H1 s1 w1'.
  2: { intros e Hm He. wp_step. rewrite decide_False by tauto.
       split_and!; [done|by exists e|]. moved_solve Hm. }
  intros Hm1. wp_step.
  eapply (reserve_step _ _ _ s); [exact Hm1|metrics|done|amounts|..]; intros H2 s2 w2.
  2: { intros e Hm He. eapply undo_step; [exact Hm|amounts..|]. intros. split; [done|].
       rewrite decide_False by tauto. split; [by exists e|]. moved_solve H. }
  intros Hm2. wp_step.
  eapply (reserve_step _ _ _ s); [exact Hm2|metrics|done|amounts|..]; intros H3 s3 w3.
  2: { intros e Hm He. wp_step. eapply undo_step; [exact Hm|amounts..|]. intros s4 w4 Hm4.
       eapply undo_step; [exact Hm4|amounts..|]. intros s5 w5 Hm5. split; [done|].
       rewrite decide_False by tauto. split; [by exists e|]. moved_solve Hm5. }
  intros Hm3. wp_step.
  eapply (reserve_step _ _ _ s); [exact Hm3|metrics|done|amounts|..]; intros H4 s4 w4.
  2: { intros e Hm He. wp_step. eapply undo_step; [exact Hm|amounts..|]. intros s5 w5 Hm5.
       wp_step. eapply undo_step; [exact Hm5|amounts..|]. intros s6 w6 Hm6.
       eapply undo_step; [exact Hm6|amounts..|]. intros s7 w7 Hm7. split; [done|].
       rewrite decide_False by tauto. split; [by exists e|]. moved_solve Hm7. }
  intros Hm4. rewrite decide_True by tauto. split; [done|]. moved_solve Hm4.
Qed.
End reserve.

Lemma ReleaseQuota_run t spec w s :
  sane s t → moderate spec → ResourceSpec_IPv4 spec < 2 ^ 62 →
  wp (ReleaseQuota t spec) (λ r s' _, r = Ok () ∧
    moved t (reserved_metrics ++ [MetricIPv4Addresses])
      (λ m, - ((demand spec m + only MetricIPv4Addresses (Z.max 0 (ResourceSpec_IPv4 spec)) m)
               `min` usage s t m)) s s') w s.
Proof.
  intros Hsane (Hi & Hv & Hr & Hg) Hp. unfold ReleaseQuota.
  pose proof (Hsane MetricInstanceCount) as Ui. pose proof (Hsane MetricVCPUHours) as Uv.
  pose proof (Hsane MetricRAMGBHours) as Ur. pose proof (Hsane MetricStorageGBMonths) as Ug.
  pose proof (Hsane MetricIPv4Addresses) as Up.
  wp_step. eapply release_step; [apply moved_refl|amounts..|]. intros s1 w1 Hm1.
  wp_step. eapply release_step; [exact Hm1|amounts..|]. intros s2 w2 Hm2.
  wp_step. eapply release_step; [exact Hm2|amounts..|]. intros s3 w3 Hm3.
  wp_step. eapply release_step; [exact Hm3|amounts..|]. intros s4 w4 Hm4.
  wp_step. eapply release_step; [exact Hm4|amounts..|]. intros s5 w5 Hm5.
  split; [done|]. eapply moved_weaken; [exact Hm5|done|]. intros m. pose proof (Hsane m).
  unfold demand, only. cbv beta.
  repeat (let Heq := fresh in destruct (decide (MetricInstanceCount = _)) as [Heq|Heq]
    || destruct (decide (MetricVCPUHours = _)) as [Heq|Heq]
    || destruct (decide (MetricRAMGBHours = _)) as [Heq|Heq]
    || destruct (decide (MetricStorageGBMonths = _)) as [Heq|Heq]
    || destruct (decide (MetricIPv4Addresses = _)) as [Heq|Heq];
    [discriminate Heq|clear Heq]).
  repeat (let Heq := fresh in destruct (decide (m = _)) as [Heq|Heq];
    [subst m; repeat rewrite decide_False by done; lia|]). lia.
Qed.

(** [CheckQuota] answers whether the request fits the limits of the plan. *)
Definition over (s : BillingStore) (t m : string) (requested limit : Z) : Prop :=
  0 < requested ∧ 0 < limit ∧ limit < usage s t m + requested.
#[export] Instance over_dec s t m d l : Decision (over s t m d l).
Proof. unfold over. apply _. Defined.

Lemma check_metric_run t m d l text (Q : result () → BillingStore → World → Prop) w s :
  d < 2 ^ 62 → 0 ≤ usage s t m < 2 ^ 62 →
  (¬ over s t m d l → Q (Ok ()) s w) →
  (over s t m d l → ∀ e, errors_Is e ErrQuotaExceeded → Q (Err e) s w) →
  wp (check_metric (tenant_quotas s t) m d l text) Q w s.
Proof.
  intros Hd Hu Hno Hyes. unfold check_metric, guard_err. fold (usage s t m).
  destruct (decide (0 < d)) as [Hpos|Hneg].
  - rewrite add64_id by (unfold int64_ok; lia). destruct (decide _) as [Hb|Hb]; wp_step.
    + apply Hyes; [done|]. by vm_compute.
    + by apply Hno.
  - rewrite decide_False by lia. wp_step. apply Hno. unfold over. lia.
Qed.

Definition within_plan (s : BillingStore) (t : string) (p : Plan) (spec : ResourceSpec) : Prop :=
  ¬ over s t MetricInstanceCount (ResourceSpec_Instances spec) (Plan_MaximumInstances p) ∧
  ¬ over s t MetricVCPUHours (ResourceSpec_VCPU spec) (Plan_MaximumVCPU p) ∧
  ¬ over s t MetricRAMGBHours (ResourceSpec_MemoryMB spec) (Plan_MaximumMemoryMB p) ∧
  ¬ over s t MetricStorageGBMonths (ResourceSpec_StorageMB spec) (Plan_MaximumStorageMB p).
#[export] Instance within_plan_dec s t p spec : Decision (within_plan s t p spec).
Proof. unfold within_plan. apply _. Defined.

Lemma CheckQuota_run t spec p w s :
  sane s t → moderate spec → answer (GetTenantPlan t) w s = Ok p →
  wp (CheckQuota t spec) (λ r s' _, s' = s ∧
    if decide (within_plan s t p spec) then r = Ok ()
    else ∃ e, r = Err e ∧ errors_Is e ErrQuotaExceeded) w s.
Proof.
  intros Hsane (Hi & Hv & Hr & Hg) Hp. destruct (resolve_plan_run _ _ _ _ Hp) as [w1 Hrun].
  unfold CheckQuota, quota_ListQuotas, within_plan.
  rewrite wp_bind, (wp_run _ _ _ _ _ _ _ Hrun). wp_step.
  do 3 (apply check_metric_run; [done|apply Hsane| |intros ? e He; split; [done|];
    rewrite decide_False by tauto; by exists e]; intros ?; wp_step).
  apply check_metric_run; [done|apply Hsane| |]; intros Hb.
  - split; [done|]. by rewrite decide_True by tauto.
  - intros e He. split; [done|]. rewrite decide_False by tauto. by exists e.
Qed.

(** The limits of the plan are limits. *)
Definition limited (p : Plan) : Prop :=
  0 < Plan_MaximumInstances p < 2 ^ 62 ∧ 0 < Plan_MaximumVCPU p < 2 ^ 62 ∧
  0 < Plan_MaximumMemoryMB p < 2 ^ 62 ∧ 0 < Plan_MaximumStorageMB p < 2 ^ 62.

Lemma blocked_over s t m d l : 0 < l → blocked s t m d l ↔ over s t m d l.
Proof. intros Hl. unfold blocked, over, cap. by rewrite decide_True. Qed.

Lemma fits_within s t p spec : limited p → fits s t p spec ↔ within_plan s t p spec.
Proof.
  intros (Hi & Hv & Hm & Hs). unfold fits, within_plan. by rewrite !blocked_over by lia.
Qed.

(** ** Histories of engine calls *)

(** Whatever happens to tenant [t], the other tenants, the plans and the
    subscriptions stay as they are. *)
Definition framed (t : string) (s s' : BillingStore) : Prop :=
  (BillingStore_plans s' = BillingStore_plans s ∧
   BillingStore_subscriptions s' = BillingStore_subscriptions s ∧
   BillingStore_tenantSubs s' = BillingStore_tenantSubs s) ∧
  (∀ t', t' ≠ t → tenant_quotas s' t' = tenant_quotas s t').

Definition frames (t : string) {A} (m : go BillingStore A) : Prop :=
  ∀ w s, framed t s (exec m w s).

Section frames.
Context (t : string).

Lemma framed_refl s : framed t s s.
Proof. split_and!; auto. Qed.
Lemma framed_trans s1 s2 s3 : framed t s1 s2 → framed t s2 s3 → framed t s1 s3.
Proof.
  intros [(?&?&?) Ho] [(?&?&?) Ho']. split_and!; try congruence.
  intros t' Hne. by rewrite Ho', Ho.
Qed.

Lemma frames_read {A} (m : go BillingStore A) : read_only m → frames t m.
Proof. intros Hm w s. rewrite (Hm w s). apply framed_refl. Qed.
Lemma frames_put m q : frames t (modify (put_quota t m q)).
Proof. intros w s. split_and!; try done. intros. by apply tenant_quotas_put_ne. Qed.
Lemma frames_bind {A B} (m : go BillingStore A) (f : A → go BillingStore B) :
  frames t m → (∀ a, frames t (f a)) → frames t (m ≫= f).
Proof.
  intros Hm Hf w s. specialize (Hm w s). unfold exec, mbind, go_bind in *.
  destruct (m w s) as [[[a|e] s1] w1]; simpl in *; [|done].
  eapply framed_trans; [exact Hm|]. apply Hf.
Qed.
Lemma frames_try {A} (m : go BillingStore A) : frames t m → frames t (try m).
Proof.
  intros Hm w s. specialize (Hm w s). unfold exec, try in *. by destruct (m w s) as [[r s'] w'].
Qed.
Lemma frames_ignore {A} (m : go BillingStore A) : frames t m → frames t (ignore m).
Proof.
  intros Hm w s. specialize (Hm w s). unfold exec, ignore in *. by destruct (m w s) as [[r s'] w'].
Qed.

Lemma frames_ReserveRepo m d l : frames t (quota_ReserveQuota t m d l).
Proof.
  unfold quota_ReserveQuota. apply frames_bind; [apply frames_read; auto with go|]. intros s.
  apply frames_bind.
  { apply frames_read. case_match; auto with go. }
  intros q. apply frames_bind; [apply frames_put|]. intros _. cbv zeta.
  destruct (decide _); [apply frames_read; auto with go|].
  apply frames_bind; [apply frames_read; auto with go|]. intros. apply frames_put.
Qed.

Lemma frames_release m d : frames t (release_metric t m d).
Proof.
  unfold release_metric. destruct (decide _); [|apply frames_read; auto with go].
  apply frames_ignore. unfold quota_ReleaseQuota.
  apply frames_bind; [apply frames_read; auto with go|]. intros s.
  case_match; [|apply frames_read; auto with go].
  apply frames_bind; [apply frames_read; auto with go|]. intros. apply frames_put.
Qed.

Lemma frames_reserve m d l rb : frames t rb → frames t (reserve_metric t m d l rb).
Proof.
  intros Hrb. unfold reserve_metric. destruct (decide _); [|apply frames_read; auto with go].
  apply frames_bind; [apply frames_try, frames_ReserveRepo|]. intros [?|e].
  - apply frames_read; auto with go.
  - apply frames_bind; [done|]. intros _. apply frames_read; auto with go.
Qed.

Lemma ReleaseQuota_framed spec : frames t (ReleaseQuota t spec).
Proof. unfold ReleaseQuota. repeat (apply frames_bind; intros); apply frames_release. Qed.

Lemma ReserveQuota_framed spec : frames t (ReserveQuota t spec).
Proof.
  unfold ReserveQuota. apply frames_bind.
  { apply frames_read. intros w s. pose proof (GetTenantPlan_read_only t w s) as Hr.
    unfold resolve_plan, wrap_err, exec in *. by destruct (GetTenantPlan t w s) as [[[]?]?]. }
  intros p. cbv zeta.
  repeat (apply frames_bind; intros); apply frames_reserve;
    repeat (apply frames_bind; intros); try apply frames_release;
    apply frames_read; auto with go.
Qed.
End frames.

(** The tenant has a subscription to the plan. *)
Definition subscribed (s : BillingStore) (t : string) (p : Plan) : Prop :=
  ∃ sid sub, BillingStore_tenantSubs s !! t = Some sid ∧
    BillingStore_subscriptions s !! sid = Some sub ∧
    BillingStore_plans s !! Subscription_PlanID sub = Some p.

Lemma subscribed_plan s t p w : subscribed s t p → answer (GetTenantPlan t) w s = Ok p.
Proof.
  intros (sid & sub & Ht & Hs & Hp).
  unfold answer, GetTenantPlan, sub_GetByTenantID, sub_GetByID, plan_GetByID, try, mbind, go_bind,
    get, mret, go_ret. by rewrite Ht, Hs, Hp.
Qed.

Lemma framed_subscribed t s s' t' p : framed t s s' → subscribed s t' p → subscribed s' t' p.
Proof. intros [(Hp & Hs & Ht) _]. unfold subscribed. by rewrite Hp, Hs, Ht. Qed.

(** The calls of the engine that write, by any tenant, with any outcome. *)
Inductive quota_step (s : BillingStore) : BillingStore → Prop :=
  | step_reserve w t spec :
      moderate spec → quota_step s (exec (ReserveQuota t spec) w s)
  | step_release w t spec :
      moderate spec → ResourceSpec_IPv4 spec < 2 ^ 62 →
      quota_step s (exec (ReleaseQuota t spec) w s).

(** The bound the plan puts on the usage of a metric. *)
Definition plan_cap (p : Plan) (m : string) : Z :=
  only MetricInstanceCount (Plan_MaximumInstances p) m +
  only MetricVCPUHours (Plan_MaximumVCPU p) m +
  only MetricRAMGBHours (Plan_MaximumMemoryMB p) m +
  only MetricStorageGBMonths (Plan_MaximumStorageMB p) m.

Definition in_plan (p : Plan) (s : BillingStore) (t : string) : Prop :=
  ∀ m, 0 ≤ usage s t m ≤ plan_cap p m.

Lemma plan_cap_bound p m : limited p → 0 ≤ plan_cap p m < 2 ^ 62.
Proof.
  intros (Hi & Hv & Hm & Hs). unfold plan_cap, only.
  repeat (let Heq := fresh in destruct (decide (m = _)) as [Heq|Heq]; [subst m;
    repeat rewrite decide_False by done; lia|]). lia.
Qed.

Lemma in_plan_sane p s t : limited p → in_plan p s t → sane s t.
Proof.
  intros Hl Hin m. specialize (Hin m). pose proof (plan_cap_bound p m Hl). lia.
Qed.

Lemma fits_demand s t p spec m :
  limited p → in_plan p s t → fits s t p spec → usage s t m + demand spec m ≤ plan_cap p m.
Proof.
  intros Hl Hin Hf. pose proof (Hin m) as Hm. apply (fits_within _ _ _ _ Hl) in Hf.
  destruct Hl as (Hi & Hv & Hr & Hg), Hf as (Fi & Fv & Fr & Fg).
  unfold over in *. revert Hm. unfold demand, plan_cap, only.
  repeat (let Heq := fresh in destruct (decide (m = _)) as [Heq|Heq]; [subst m;
    repeat rewrite decide_False by done; lia|]). lia.
Qed.

Lemma demand_pos spec m : 0 ≤ demand spec m.
Proof. unfold demand, only. repeat destruct (decide _); lia. Qed.

Lemma tenant_usage s s' t m : tenant_quotas s' t = tenant_quotas s t → usage s' t m = usage s t m.
Proof. unfold usage. by intros ->. Qed.

Lemma step_in_plan s s' t p :
  limited p → quota_step s s' → subscribed s t p → in_plan p s t →
  subscribed s' t p ∧ in_plan p s' t.
Proof.
  intros Hl Hstep Hsub Hin. destruct Hstep as [w t' spec Hmod|w t' spec Hmod Hip].
  - pose proof (ReserveQuota_framed t' spec w s) as Hf.
    split; [by eapply framed_subscribed|]. intros m.
    destruct (decide (t = t')) as [<-|Hne].
    + pose proof (ReserveQuota_run t spec p s (in_plan_sane _ _ _ Hl Hin) Hmod w
        (subscribed_plan _ _ _ w Hsub)) as Hr. rewrite wp_elim in Hr.
      pose proof (Hin m). pose proof (demand_pos spec m).
      destruct (decide _) as [Hfit|_], Hr as [_ Hm];
        rewrite (moved_usage _ _ _ _ _ _ Hm); [|lia].
      pose proof (fits_demand s t p spec m Hl Hin Hfit). lia.
    + rewrite (tenant_usage s) by by apply Hf. apply Hin.
  - pose proof (ReleaseQuota_framed t' spec w s) as Hf.
    split; [by eapply framed_subscribed|]. intros m.
    destruct (decide (t = t')) as [<-|Hne].
    + pose proof (ReleaseQuota_run t spec w s (in_plan_sane _ _ _ Hl Hin) Hmod Hip) as [_ Hm].
      rewrite (moved_usage _ _ _ _ _ _ Hm). pose proof (Hin m). pose proof (demand_pos spec m).
      unfold only. destruct (decide _); lia.
    + rewrite (tenant_usage s) by by apply Hf. apply Hin.
Qed.

(** ** Properties *)

Definition no_quotas (s : BillingStore) : Prop := BillingStore_quotas s = ∅.

(** C38 A subscribed tenant is never above the limits of its plan: after any
    sequence of reservations and releases of less than 2^62 of each metric, by
    any tenants and with any outcome, the recorded usage of each metric is
    between zero and the maximum the plan sets for it. (A larger reservation
    overflows the sum and is granted: [overflow_bypasses_quota].) *)
Theorem quota_never_exceeded (s s' : BillingStore) (t : string) (p : Plan) :
  limited p → no_quotas s → subscribed s t p → rtc quota_step s s' →
  ∀ m, 0 ≤ usage s' t m ≤ plan_cap p m.
Proof.
  intros Hl Hno Hsub Hsteps.
  assert (in_plan p s t) as Hin.
  { intros m. unfold usage, current_usage, tenant_quotas. rewrite Hno, lookup_empty. simpl.
    rewrite lookup_empty. simpl. pose proof (plan_cap_bound p m Hl). lia. }
  clear Hno. induction Hsteps as [|s1 s2 s3 H12 _ IH]; [apply Hin|].
  pose proof (step_in_plan _ _ _ _ Hl H12 Hsub Hin) as [Hsub2 Hin2]. by apply IH.
Qed.

(** A reservation of less than 2^62 of each metric, on usages below 2^62, is
    all or nothing: it succeeds exactly when every part of the request fits, then adds the request to the usages of the tenant; when
    it fails, at whatever metric, the rollback leaves every usage as it was
    and the error is a quota error. No other tenant is touched. *)
Theorem reserve_all_or_nothing (s : BillingStore) (t : string) (p : Plan) (spec : ResourceSpec)
    (w : World) :
  sane s t → moderate spec → answer (GetTenantPlan t) w s = Ok p →
  let r := answer (ReserveQuota t spec) w s in
  let s' := exec (ReserveQuota t spec) w s in
  (r = Ok () ↔ fits s t p spec) ∧
  (∀ m, usage s' t m = usage s t m + match r with Ok _ => demand spec m | Err _ => 0 end) ∧
  (∀ e, r = Err e → errors_Is e ErrQuotaExceeded) ∧
  (∀ t' m, t' ≠ t → usage s' t' m = usage s t' m).
Proof.
  intros Hs Hmod Hp r s'. pose proof (ReserveQuota_run t spec p s Hs Hmod w Hp) as Hr.
  rewrite wp_elim in Hr. fold r s' in Hr.
  assert (∀ t' m, t' ≠ t → usage s' t' m = usage s t' m) as Ho.
  { intros t' m Hne. apply tenant_usage. by apply (ReserveQuota_framed t spec w s). }
  destruct (decide (fits s t p spec)) as [Hf|Hf].
  - destruct Hr as [-> Hm]. split_and!; try done. apply Hm.
  - destruct Hr as [(e & -> & He) Hm]. split_and!; try done; [apply Hm|].
    intros e' [= <-]. exact He.
Qed.

(** Under a plan that limits every metric the advisory check and the
    reservation agree: [CheckQuota] accepts a request exactly when
    [ReserveQuota] grants it, and the check itself writes nothing. *)
Theorem check_predicts_reserve (s : BillingStore) (t : string) (p : Plan) (spec : ResourceSpec)
    (w : World) :
  limited p → sane s t → moderate spec → answer (GetTenantPlan t) w s = Ok p →
  (answer (CheckQuota t spec) w s = Ok () ↔ answer (ReserveQuota t spec) w s = Ok ()) ∧
  exec (CheckQuota t spec) w s = s.
Proof.
  intros Hl Hs Hmod Hp.
  pose proof (CheckQuota_run t spec p w s Hs Hmod Hp) as [Hc Ha].
  pose proof (ReserveQuota_run t spec p s Hs Hmod w Hp) as Hr. rewrite wp_elim in Hr.
  unfold answer, exec in *. split; [|done].
  destruct (decide (within_plan s t p spec)) as [Hw|Hw].
  - rewrite decide_True in Hr by by apply fits_within. rewrite Ha. by destruct Hr as [-> _].
  - rewrite decide_False in Hr by by rewrite fits_within.
    destruct Ha as (e & -> & _), Hr as [(e' & -> & _) _]. split; discriminate.
Qed.

(** Releasing a granted request gives back exactly what it took: after
    [ReserveQuota] and [ReleaseQuota] with the same request (without
    addresses, which the reservation does not count) every usage is what it
    was. *)
Theorem release_undoes_reserve (s : BillingStore) (t : string) (p : Plan) (spec : ResourceSpec)
    (w w' : World) :
  limited p → in_plan p s t → moderate spec → ResourceSpec_IPv4 spec ≤ 0 →
  subscribed s t p → answer (ReserveQuota t spec) w s = Ok () →
  ∀ t' m, usage (exec (ReleaseQuota t spec) w' (exec (ReserveQuota t spec) w s)) t' m = usage s t' m.
Proof.
  intros Hl Hin Hmod Hip Hsub Hok t' m.
  destruct (decide (t' = t)) as [->|Hne].
  2: { rewrite (tenant_usage (exec (ReserveQuota t spec) w s)) by by apply ReleaseQuota_framed.
       apply tenant_usage. by apply ReserveQuota_framed. }
  pose proof (step_in_plan _ _ _ _ Hl (step_reserve s w t spec Hmod) Hsub Hin) as [_ Hin'].
  pose proof (ReserveQuota_run t spec p s (in_plan_sane _ _ _ Hl Hin) Hmod w
    (subscribed_plan _ _ _ w Hsub)) as Hr. rewrite wp_elim, Hok in Hr.
  destruct (decide _) as [_|_]; [|by destruct Hr as [(? & ? & _) _]].
  destruct Hr as [_ (_ & _ & _ & Hu)].
  pose proof (ReleaseQuota_run t spec w' _ (in_plan_sane _ _ _ Hl Hin') Hmod ltac:(lia)) as [_ Hm].
  rewrite (moved_usage _ _ _ _ _ _ Hm). rewrite Hu. pose proof (Hin m). pose proof (demand_pos spec m).
  unfold only. destruct (decide _); lia.
Qed.

(** ** Findings *)

(** The limit test [q.CurrentUsage+delta > q.Limit] wraps: next to any
    non-zero usage a request of the largest integer is granted on a limited
    plan, and leaves a negative usage. *)
Definition demo_store : BillingStore :=
  exec (seedDefaultPlans ;;
        sub_Create (mkSubscription "" "acme" "plan-starter" SubscriptionStatusActive
                      BillingCycleMonthly 0 Hour false 0 0)) (calm 0) empty_billing.

Definition memory_request (n : Z) : ResourceSpec := mkResourceSpec 0 0 n 0 0 0 0.

Definition after_one_mb : BillingStore :=
  exec (ReserveQuota "acme" (memory_request 1)) (calm 0) demo_store.

Lemma overflow_bypasses_quota :
  answer (CheckQuota "acme" (memory_request max_int64)) (calm 0) after_one_mb = Ok () ∧
  answer (ReserveQuota "acme" (memory_request max_int64)) (calm 0) after_one_mb = Ok () ∧
  usage (exec (ReserveQuota "acme" (memory_request max_int64)) (calm 0) after_one_mb)
    "acme" MetricRAMGBHours = min_int64.
Proof. by vm_compute. Qed.

(** The "default starter plan" of a tenant without subscription is whichever
    active plan the map iteration meets first. *)
Definition reversed (t : Z) : World :=
  mkWorld (λ _, t) 0 (λ n, "uuid-" +:+ pretty n) 0 (λ _ l, rev l) 0 (λ _, 0) 0.

Lemma fallback_plan_is_arbitrary :
  World_ok (reversed 0) ∧
  ∃ p q, answer (GetTenantPlan "nobody") (calm 0) demo_store = Ok p ∧
    answer (GetTenantPlan "nobody") (reversed 0) demo_store = Ok q ∧ Plan_ID p ≠ Plan_ID q.
Proof.
  split; [intros n l; simpl; symmetry; apply Permutation_rev|].
  eexists _, _. split_and!; [vm_compute; reflexivity|vm_compute; reflexivity|by vm_compute].
Qed.

(** [ReleaseQuota] counts addresses, [ReserveQuota] does not: reserving and
    releasing the same request lowers the address usage. *)
Lemma addresses_released_unreserved :
  let s := exec (quota_SetQuota (mkQuota "acme" MetricIPv4Addresses 5 2 "none" 0)) (calm 0)
             demo_store in
  let spec := mkResourceSpec 1 1 0 0 1 0 0 in
  let s1 := exec (ReserveQuota "acme" spec) (calm 0) s in
  let s2 := exec (ReleaseQuota "acme" spec) (calm 0) s1 in
  answer (ReserveQuota "acme" spec) (calm 0) s = Ok () ∧
  usage s "acme" MetricIPv4Addresses = 2 ∧ usage s2 "acme" MetricIPv4Addresses = 1.
Proof. by vm_compute. Qed.

(** A plan maximum of zero means no limit to [CheckQuota]; the reservation
    still applies the limit of the record, left by an earlier plan. *)
Definition unlimited : Plan :=
  mkPlan "plan-unlimited" "Unlimited" "unlimited" "" "EUR" 0 0 0 0 0 0 0 0 0 0 0 0 0 ∅ true 0 0.

Lemma stale_limit_survives_upgrade :
  let s := exec (ReserveQuota "acme" (memory_request 8192);;
                 plan_Create unlimited;;
                 sub_Create (mkSubscription "up" "acme" "plan-unlimited" SubscriptionStatusActive
                               BillingCycleMonthly 0 Hour false 0 0)) (calm 0) demo_store in
  answer (CheckQuota "acme" (memory_request 1)) (calm 0) s = Ok () ∧
  answer (ReserveQuota "acme" (memory_request 1)) (calm 0) s ≠ Ok ().
Proof. by vm_compute. Qed.

(** ** Witnesses *)

Definition starter : Plan := default unlimited (head (default_plans 0)).
Definition small_request : ResourceSpec := mkResourceSpec 2 3 4096 0 0 0 0.
Definition big_request : ResourceSpec := mkResourceSpec 1 1 8192 0 0 0 0.

Lemma starter_limited : limited starter.
Proof. unfold limited. simpl. lia. Qed.

Lemma demo_subscribed : subscribed demo_store "acme" starter.
Proof. eexists "uuid-0", _. split_and!; [by vm_compute|by vm_compute|by vm_compute]. Qed.

Lemma demo_in_plan : in_plan starter demo_store "acme".
Proof.
  intros m. change (usage demo_store "acme" m) with (current_usage ∅ m). unfold current_usage.
  rewrite lookup_empty. simpl. pose proof (plan_cap_bound starter m starter_limited). lia.
Qed.

Lemma requests_moderate : moderate small_request ∧ moderate big_request.
Proof. unfold moderate. simpl. lia. Qed.

Lemma quota_never_exceeded_witness :
  let s' := exec (ReserveQuota "acme" big_request) (calm 0)
              (exec (ReserveQuota "acme" small_request) (calm 0) demo_store) in
  usage s' "acme" MetricRAMGBHours = 4096 ∧
  0 ≤ usage s' "acme" MetricRAMGBHours ≤ plan_cap starter MetricRAMGBHours.
Proof.
  intros s'. split; [by vm_compute|].
  apply (quota_never_exceeded demo_store s' "acme" starter starter_limited eq_refl demo_subscribed).
  eapply rtc_l; [apply (step_reserve demo_store (calm 0) "acme" small_request), requests_moderate|].
  apply rtc_once, step_reserve, requests_moderate.
Defined.

Lemma reserve_all_or_nothing_witness :
  let s := exec (ReserveQuota "acme" small_request) (calm 0) demo_store in
  let r := answer (ReserveQuota "acme" big_request) (calm 0) s in
  let s' := exec (ReserveQuota "acme" big_request) (calm 0) s in
  ¬ fits s "acme" starter big_request ∧ r ≠ Ok () ∧
  ∀ m, usage s' "acme" m = usage s "acme" m.
Proof.
  intros s r s'.
  assert (in_plan starter s "acme") as Hin.
  { eapply (step_in_plan demo_store s); [apply starter_limited| |apply demo_subscribed|
      apply demo_in_plan]. apply step_reserve, requests_moderate. }
  destruct (reserve_all_or_nothing s "acme" starter big_request (calm 0)
    (in_plan_sane _ _ _ starter_limited Hin) (proj2 requests_moderate) eq_refl)
    as (Hfit & Hu & _).
  fold r s' in Hfit, Hu.
  assert (r ≠ Ok ()) as Hr by by vm_compute.
  split_and!; [by rewrite <-Hfit|done|]. intros m. rewrite Hu.
  destruct r as [[]|e]; [done|lia].
Defined.

Lemma check_predicts_reserve_witness :
  answer (CheckQuota "acme" small_request) (calm 0) demo_store = Ok () ∧
  answer (ReserveQuota "acme" small_request) (calm 0) demo_store = Ok ().
Proof.
  assert (answer (CheckQuota "acme" small_request) (calm 0) demo_store = Ok ()) as Hc
    by by vm_compute.
  split; [done|].
  apply (check_predicts_reserve demo_store "acme" starter small_request (calm 0) starter_limited
    (in_plan_sane _ _ _ starter_limited demo_in_plan) (proj1 requests_moderate) eq_refl). done.
Defined.

Lemma release_undoes_reserve_witness :
  usage (exec (ReserveQuota "acme" small_request) (calm 0) demo_store) "acme" MetricVCPUHours = 3 ∧
  ∀ t' m, usage (exec (ReleaseQuota "acme" small_request) (calm 0)
    (exec (ReserveQuota "acme" small_request) (calm 0) demo_store)) t' m = usage demo_store t' m.
Proof.
  split; [by vm_compute|].
  apply (release_undoes_reserve demo_store "acme" starter small_request (calm 0) (calm 0)
    starter_limited demo_in_plan (proj1 requests_moderate) (Z.le_refl 0) demo_subscribed eq_refl).
Defined.
