(* ===== verification/Invoice.v ===== *)
(** * Usage metering, payments and invoices

    [internal/domain/billing/{usage,invoice}.go], the repositories
    [internal/infra/memory/{usage,invoice}_repo.go], the metering engine
    [internal/app/billing/meter.go], the simulated payment provider
    [payment.go] and the invoice engine [invoice.go]. *)

From S2P Require Import Prelude Quota.

Definition ErrInvoiceNotFound := ErrNew "billing" "invoice not found".
Definition ErrInvalidInvoiceState := ErrNew "billing" "invalid invoice state transition".

Record UsageRecord : Type := mkUsageRecord {
  UsageRecord_ID : string;
  UsageRecord_TenantID : string;
  UsageRecord_ResourceType : string;
  UsageRecord_ResourceID : string;
  UsageRecord_Metric : string;
  UsageRecord_Quantity : float64;
  UsageRecord_Unit : string;
  UsageRecord_PeriodStart : Z;
  UsageRecord_PeriodEnd : Z;
  UsageRecord_IdempotencyKey : string;
  UsageRecord_Metadata : Details;
  UsageRecord_CreatedAt : Z
}.

Definition eta_UsageRecord (r : UsageRecord) : UsageRecord :=
  mkUsageRecord (UsageRecord_ID r) (UsageRecord_TenantID r) (UsageRecord_ResourceType r)
    (UsageRecord_ResourceID r) (UsageRecord_Metric r) (UsageRecord_Quantity r)
    (UsageRecord_Unit r) (UsageRecord_PeriodStart r) (UsageRecord_PeriodEnd r)
    (UsageRecord_IdempotencyKey r) (UsageRecord_Metadata r) (UsageRecord_CreatedAt r).
#[export] Instance set_UsageRecord_ID : Setter UsageRecord_ID := ltac:(setter eta_UsageRecord UsageRecord_ID).
#[export] Instance set_UsageRecord_CreatedAt : Setter UsageRecord_CreatedAt := ltac:(setter eta_UsageRecord UsageRecord_CreatedAt).

Record UsageAggregate : Type := mkUsageAggregate {
  UsageAggregate_TenantID : string;
  UsageAggregate_PeriodStart : Z;
  UsageAggregate_PeriodEnd : Z;
  UsageAggregate_Metrics : gmap string float64
}.

Inductive InvoiceStatus : Type :=
  | InvoiceStatusDraft
  | InvoiceStatusOpen
  | InvoiceStatusPaid
  | InvoiceStatusVoid
  | InvoiceStatusUncollectible.
#[export] Instance InvoiceStatus_eq_dec : EqDecision InvoiceStatus.
Proof. solve_decision. Defined.

Record InvoiceLine : Type := mkInvoiceLine {
  InvoiceLine_ID : string;
  InvoiceLine_InvoiceID : string;
  InvoiceLine_Description : string;
  InvoiceLine_Metric : string;
  InvoiceLine_Quantity : float64;
  InvoiceLine_UnitPriceMinor : Z;
  InvoiceLine_TotalMinor : Z
}.
#[export] Instance InvoiceLine_eq_dec : EqDecision InvoiceLine.
Proof. solve_decision. Defined.

Definition eta_InvoiceLine (r : InvoiceLine) : InvoiceLine :=
  mkInvoiceLine (InvoiceLine_ID r) (InvoiceLine_InvoiceID r) (InvoiceLine_Description r)
    (InvoiceLine_Metric r) (InvoiceLine_Quantity r) (InvoiceLine_UnitPriceMinor r)
    (InvoiceLine_TotalMinor r).
#[export] Instance set_InvoiceLine_ID : Setter InvoiceLine_ID := ltac:(setter eta_InvoiceLine InvoiceLine_ID).
#[export] Instance set_InvoiceLine_InvoiceID : Setter InvoiceLine_InvoiceID := ltac:(setter eta_InvoiceLine InvoiceLine_InvoiceID).

Record Invoice : Type := mkInvoice {
  Invoice_ID : string;
  Invoice_TenantID : string;
  Invoice_SubscriptionID : string;
  Invoice_Currency : string;
  Invoice_SubtotalMinor : Z;
  Invoice_TaxMinor : Z;
  Invoice_TotalMinor : Z;
  Invoice_Status : InvoiceStatus;
  Invoice_PeriodStart : Z;
  Invoice_PeriodEnd : Z;
  Invoice_DueAt : Z;
  Invoice_PaidAt : option Z;
  Invoice_IdempotencyKey : string;
  Invoice_Lines : list InvoiceLine;
  Invoice_CreatedAt : Z
}.
#[export] Instance Invoice_eq_dec : EqDecision Invoice.
Proof. solve_decision. Defined.

Definition eta_Invoice (r : Invoice) : Invoice :=
  mkInvoice (Invoice_ID r) (Invoice_TenantID r) (Invoice_SubscriptionID r)
    (Invoice_Currency r) (Invoice_SubtotalMinor r) (Invoice_TaxMinor r)
    (Invoice_TotalMinor r) (Invoice_Status r) (Invoice_PeriodStart r)
    (Invoice_PeriodEnd r) (Invoice_DueAt r) (Invoice_PaidAt r)
    (Invoice_IdempotencyKey r) (Invoice_Lines r) (Invoice_CreatedAt r).
#[export] Instance set_Invoice_ID : Setter Invoice_ID := ltac:(setter eta_Invoice Invoice_ID).
#[export] Instance set_Invoice_Status : Setter Invoice_Status := ltac:(setter eta_Invoice Invoice_Status).
#[export] Instance set_Invoice_PaidAt : Setter Invoice_PaidAt := ltac:(setter eta_Invoice Invoice_PaidAt).
#[export] Instance set_Invoice_Lines : Setter Invoice_Lines := ltac:(setter eta_Invoice Invoice_Lines).
#[export] Instance set_Invoice_CreatedAt : Setter Invoice_CreatedAt := ltac:(setter eta_Invoice Invoice_CreatedAt).

Definition Invoice_Validate (inv : Invoice) : result () :=
  let bad text := Err (Wrapf ("invalid invoice state transition: " +:+ text)
                         ErrInvalidInvoiceState) in
  if decide (Invoice_TenantID inv = "") then bad "tenant ID is required"
  else if decide (Invoice_Currency inv = "") then bad "currency is required"
  else if decide (Invoice_SubtotalMinor inv < 0 ∨ Invoice_TaxMinor inv < 0 ∨
                  Invoice_TotalMinor inv < 0) then bad "amounts cannot be negative"
  else if decide (add64 (Invoice_SubtotalMinor inv) (Invoice_TaxMinor inv)
                  ≠ Invoice_TotalMinor inv) then bad "subtotal + tax must equal total"
  else Ok ().

(** ** The repositories *)

Record Books : Type := mkBooks {
  Books_billing : BillingStore;
  Books_usage : gmap string UsageRecord;
  Books_usageKeys : gset string;
  Books_invoices : gmap string Invoice;
  Books_invoiceKeys : gmap string string
}.

Definition eta_Books (r : Books) : Books :=
  mkBooks (Books_billing r) (Books_usage r) (Books_usageKeys r) (Books_invoices r)
    (Books_invoiceKeys r).
#[export] Instance set_Books_billing : Setter Books_billing := ltac:(setter eta_Books Books_billing).
#[export] Instance set_Books_usage : Setter Books_usage := ltac:(setter eta_Books Books_usage).
#[export] Instance set_Books_usageKeys : Setter Books_usageKeys := ltac:(setter eta_Books Books_usageKeys).
#[export] Instance set_Books_invoices : Setter Books_invoices := ltac:(setter eta_Books Books_invoices).
#[export] Instance set_Books_invoiceKeys : Setter Books_invoiceKeys := ltac:(setter eta_Books Books_invoiceKeys).

Definition empty_books (b : BillingStore) : Books := mkBooks b ∅ ∅ ∅ ∅.

Definition in_billing {A} (m : go BillingStore A) : go Books A :=
  zoom Books_billing (λ b s, s <| Books_billing := b |>) m.

Definition usage_store (record : UsageRecord) : go Books () :=
  id ← (if decide (UsageRecord_ID record = "") then uuid_NewString
        else mret (UsageRecord_ID record));
  created ← (if decide (IsZero (UsageRecord_CreatedAt record)) then time_Now
             else mret (UsageRecord_CreatedAt record));
  let record := record <| UsageRecord_ID := id |> <| UsageRecord_CreatedAt := created |> in
  modify (λ s, s <| Books_usage := <[id := record]> (Books_usage s) |>).

Definition RecordUsage (record : UsageRecord) : go Books () :=
  s ← get;
  let key := UsageRecord_IdempotencyKey record in
  if decide (key = "") then usage_store record
  else if decide (key ∈ Books_usageKeys s) then mret ()
  else
    modify (λ s, s <| Books_usageKeys := {[key]} ∪ Books_usageKeys s |>) ;;
    usage_store record.

(** [rec.PeriodEnd.Before(start) || rec.PeriodStart.After(end)] skips. *)
Definition in_window (tenantID : string) (start end_ : Z) (rec : UsageRecord) : Prop :=
  UsageRecord_TenantID rec = tenantID ∧
  ¬ (UsageRecord_PeriodEnd rec < start ∨ end_ < UsageRecord_PeriodStart rec).
#[export] Instance in_window_dec t a b rec : Decision (in_window t a b rec).
Proof. unfold in_window. apply _. Defined.

Definition metric_of (metrics : gmap string float64) (m : string) : float64 :=
  default (of_int 0) (metrics !! m).

Definition add_usage (metrics : gmap string float64) (rec : UsageRecord) : gmap string float64 :=
  <[UsageRecord_Metric rec :=
      fadd (metric_of metrics (UsageRecord_Metric rec)) (UsageRecord_Quantity rec)]> metrics.

(** [for _, rec := range r.records { ... agg.Metrics[rec.Metric] += rec.Quantity }]. *)
Definition aggregate (tenantID : string) (start end_ : Z) (records : list UsageRecord) :
    gmap string float64 :=
  foldl (λ m rec, if decide (in_window tenantID start end_ rec) then add_usage m rec else m)
    ∅ records.

Definition GetAggregate (tenantID : string) (start end_ : Z) : go Books UsageAggregate :=
  s ← get;
  es ← range_map (Books_usage s);
  mret (mkUsageAggregate tenantID start end_ (aggregate tenantID start end_ es.*2)).

Section listing.
Context `{SortSlice}.

Definition usage_newer (a b : UsageRecord) : bool :=
  bool_decide (UsageRecord_CreatedAt b < UsageRecord_CreatedAt a).
Definition invoice_newer (a b : Invoice) : bool :=
  bool_decide (Invoice_CreatedAt b < Invoice_CreatedAt a).

Definition usage_ListByTenant (tenantID : string) (limit offset : Z) :
    go Books (list UsageRecord) :=
  s ← get;
  es ← range_map (Books_usage s);
  lift (window (sort_Slice usage_newer
    (filter (λ r, UsageRecord_TenantID r = tenantID) es.*2)) limit offset).

Definition invoice_ListByTenant (tenantID : string) (limit offset : Z) :
    go Books (list Invoice) :=
  s ← get;
  es ← range_map (Books_invoices s);
  lift (window (sort_Slice invoice_newer
    (filter (λ i, Invoice_TenantID i = tenantID) es.*2)) limit offset).

Definition invoice_ListAll (limit offset : Z) : go Books (list Invoice) :=
  s ← get;
  es ← range_map (Books_invoices s);
  lift (window (sort_Slice invoice_newer es.*2) limit offset).
End listing.

(** [for _, l := range invoice.Lines { ... }]. *)
Fixpoint assign_lines (invoiceID : string) (lines : list InvoiceLine) :
    go Books (list InvoiceLine) :=
  match lines with
  | [] => mret []
  | l :: ls =>
      id ← (if decide (InvoiceLine_ID l = "") then uuid_NewString else mret (InvoiceLine_ID l));
      ls' ← assign_lines invoiceID ls;
      mret ((l <| InvoiceLine_ID := id |> <| InvoiceLine_InvoiceID := invoiceID |>) :: ls')
  end.

(** The invoice already filed under an idempotency key. *)
Definition keyed_invoice (s : Books) (key : string) : option Invoice :=
  if decide (key = "") then None
  else id ← Books_invoiceKeys s !! key; Books_invoices s !! id.

Definition file_invoice (inv : Invoice) (s : Books) : Books :=
  s <| Books_invoices := <[Invoice_ID inv := inv]> (Books_invoices s) |>
    <| Books_invoiceKeys :=
         if decide (Invoice_IdempotencyKey inv = "") then Books_invoiceKeys s
         else <[Invoice_IdempotencyKey inv := Invoice_ID inv]> (Books_invoiceKeys s) |>.

Definition invoice_Create (invoice : Invoice) : go Books Invoice :=
  s ← get;
  match keyed_invoice s (Invoice_IdempotencyKey invoice) with
  | Some existing => mret existing
  | None =>
      id ← (if decide (Invoice_ID invoice = "") then uuid_NewString
            else mret (Invoice_ID invoice));
      created ← (if decide (IsZero (Invoice_CreatedAt invoice)) then time_Now
                 else mret (Invoice_CreatedAt invoice));
      lines ← assign_lines id (Invoice_Lines invoice);
      let invoice := invoice <| Invoice_ID := id |> <| Invoice_CreatedAt := created |>
                             <| Invoice_Lines := lines |> in
      modify (file_invoice invoice) ;;
      mret invoice
  end.

Definition invoice_GetByID (id : string) : go Books Invoice :=
  s ← get;
  match Books_invoices s !! id with
  | Some inv => mret inv
  | None => fail ErrInvoiceNotFound
  end.

Definition invoice_GetByIdempotencyKey (key : string) : go Books Invoice :=
  s ← get;
  match Books_invoiceKeys s !! key with
  | Some id => invoice_GetByID id
  | None => fail ErrInvoiceNotFound
  end.

Definition invoice_UpdateStatus (id : string) (status : InvoiceStatus) (paidAt : option Z) :
    go Books () :=
  inv ← invoice_GetByID id;
  let inv := inv <| Invoice_Status := status |> in
  let inv := match paidAt with Some _ => inv <| Invoice_PaidAt := paidAt |> | None => inv end in
  modify (λ s, s <| Books_invoices := <[id := inv]> (Books_invoices s) |>).

(** ** The metering engine *)

Definition bytes_per_gb : float64 := of_int (1024 * 1024 * 1024).

Definition RecordInstanceUsage (tenantID instanceID : string)
    (vcpu memoryBytes storageBytes start end_ : Z) : go Books () :=
  let durationHours := Hours (time_Sub end_ start) in
  if fle durationHours (of_int 0) then mret ()
  else
    let bucketKey := "inst-" +:+ instanceID +:+ "-" +:+ fmt_d (Unix start) +:+ "-"
                     +:+ fmt_d (Unix end_) in
    let vcpuHours := fmul (of_int vcpu) durationHours in
    RecordUsage (mkUsageRecord "" tenantID "instance" instanceID MetricVCPUHours vcpuHours
      "vCPU-hours" start end_ (bucketKey +:+ "-vcpu")
      (details [("vcpu", AnyInt vcpu); ("hours", AnyFloat durationHours)]) zero_time) ;;
    let ramGB := fdiv (of_int memoryBytes) bytes_per_gb in
    let ramGBHours := fmul ramGB durationHours in
    RecordUsage (mkUsageRecord "" tenantID "instance" instanceID MetricRAMGBHours ramGBHours
      "GB-hours" start end_ (bucketKey +:+ "-ram")
      (details [("memoryBytes", AnyInt memoryBytes); ("hours", AnyFloat durationHours)])
      zero_time) ;;
    let storageGB := fdiv (of_int storageBytes) bytes_per_gb in
    let storageGBMonths := fdiv (fmul storageGB durationHours) (of_int 730) in
    RecordUsage (mkUsageRecord "" tenantID "instance" instanceID MetricStorageGBMonths
      storageGBMonths "GB-months" start end_ (bucketKey +:+ "-storage")
      (details [("storageBytes", AnyInt storageBytes); ("hours", AnyFloat durationHours)])
      zero_time).

Definition RecordStorageVolumeUsage (tenantID volumeID : string)
    (storageBytes start end_ : Z) : go Books () :=
  let durationHours := Hours (time_Sub end_ start) in
  if fle durationHours (of_int 0) then mret ()
  else
    let storageGB := fdiv (of_int storageBytes) bytes_per_gb in
    let storageGBMonths := fdiv (fmul storageGB durationHours) (of_int 730) in
    let bucketKey := "vol-" +:+ volumeID +:+ "-" +:+ fmt_d (Unix start) +:+ "-"
                     +:+ fmt_d (Unix end_) in
    RecordUsage (mkUsageRecord "" tenantID "volume" volumeID MetricStorageGBMonths
      storageGBMonths "GB-months" start end_ bucketKey
      (details [("storageBytes", AnyInt storageBytes); ("hours", AnyFloat durationHours)])
      zero_time).

Definition RecordNetworkEgress (tenantID instanceID : string)
    (egressBytes periodStart periodEnd : Z) : go Books () :=
  if decide (egressBytes ≤ 0) then mret ()
  else
    let egressGB := fdiv (of_int egressBytes) bytes_per_gb in
    let bucketKey := "net-" +:+ instanceID +:+ "-" +:+ fmt_d (Unix periodStart) +:+ "-"
                     +:+ fmt_d (Unix periodEnd) in
    RecordUsage (mkUsageRecord "" tenantID "instance" instanceID MetricNetworkEgressGB
      egressGB "GB" periodStart periodEnd bucketKey
      (details [("egressBytes", AnyInt egressBytes)]) zero_time).

(** ** Payments *)

Record PaymentResult : Type := mkPaymentResult {
  PaymentResult_PaymentID : string;
  PaymentResult_IdempotencyKey : string;
  PaymentResult_AmountMinor : Z;
  PaymentResult_Currency : string;
  PaymentResult_Status : string;
  PaymentResult_FailureReason : string;
  PaymentResult_CreatedAt : Z
}.
#[export] Instance PaymentResult_eq_dec : EqDecision PaymentResult.
Proof. solve_decision. Defined.

Definition eta_PaymentResult (r : PaymentResult) : PaymentResult :=
  mkPaymentResult (PaymentResult_PaymentID r) (PaymentResult_IdempotencyKey r)
    (PaymentResult_AmountMinor r) (PaymentResult_Currency r) (PaymentResult_Status r)
    (PaymentResult_FailureReason r) (PaymentResult_CreatedAt r).
#[export] Instance set_PaymentResult_Status : Setter PaymentResult_Status := ltac:(setter eta_PaymentResult PaymentResult_Status).

(** The port the invoice engine charges through. *)
Class PaymentProvider (P : Type) :=
  CreatePayment_ : string → Z → string → string → go P (option PaymentResult).

Record SimulatedPaymentProvider : Type := mkSimulatedPaymentProvider {
  SimulatedPaymentProvider_customers : gmap string string;
  SimulatedPaymentProvider_payments : gmap string PaymentResult;
  SimulatedPaymentProvider_idempotency : gmap string string
}.

Definition eta_SimulatedPaymentProvider (r : SimulatedPaymentProvider) : SimulatedPaymentProvider :=
  mkSimulatedPaymentProvider (SimulatedPaymentProvider_customers r)
    (SimulatedPaymentProvider_payments r) (SimulatedPaymentProvider_idempotency r).
#[export] Instance set_SimulatedPaymentProvider_customers : Setter SimulatedPaymentProvider_customers := ltac:(setter eta_SimulatedPaymentProvider SimulatedPaymentProvider_customers).
#[export] Instance set_SimulatedPaymentProvider_payments : Setter SimulatedPaymentProvider_payments := ltac:(setter eta_SimulatedPaymentProvider SimulatedPaymentProvider_payments).
#[export] Instance set_SimulatedPaymentProvider_idempotency : Setter SimulatedPaymentProvider_idempotency := ltac:(setter eta_SimulatedPaymentProvider SimulatedPaymentProvider_idempotency).

Definition no_payments : SimulatedPaymentProvider := mkSimulatedPaymentProvider ∅ ∅ ∅.

Definition CreateCustomer (tenantID email name : string) :
    go SimulatedPaymentProvider string :=
  s ← get;
  match SimulatedPaymentProvider_customers s !! tenantID with
  | Some cid => mret cid
  | None =>
      u ← uuid_NewString;
      let custID := "cus_" +:+ String.substring 0 12 u in
      modify (λ s, s <| SimulatedPaymentProvider_customers :=
        <[tenantID := custID]> (SimulatedPaymentProvider_customers s) |>) ;;
      mret custID
  end.

Definition CreatePayment (idempotencyKey : string) (amountMinor : Z)
    (currency description : string) : go SimulatedPaymentProvider (option PaymentResult) :=
  s ← get;
  let existing := if decide (idempotencyKey = "") then None
    else pid ← SimulatedPaymentProvider_idempotency s !! idempotencyKey;
         SimulatedPaymentProvider_payments s !! pid in
  match existing with
  | Some _ => mret existing
  | None =>
      u ← uuid_NewString;
      now ← time_Now;
      let paymentID := "pay_" +:+ String.substring 0 12 u in
      let res := mkPaymentResult paymentID idempotencyKey amountMinor currency "succeeded" ""
                   now in
      modify (λ s, s <| SimulatedPaymentProvider_payments :=
                 <[paymentID := res]> (SimulatedPaymentProvider_payments s) |>
               <| SimulatedPaymentProvider_idempotency :=
                 if decide (idempotencyKey = "") then SimulatedPaymentProvider_idempotency s
                 else <[idempotencyKey := paymentID]>
                        (SimulatedPaymentProvider_idempotency s) |>) ;;
      mret (Some res)
  end.

#[export] Instance SimulatedProvider : PaymentProvider SimulatedPaymentProvider := CreatePayment.

Definition GetPaymentStatus (paymentID : string) : go SimulatedPaymentProvider PaymentResult :=
  s ← get;
  match SimulatedPaymentProvider_payments s !! paymentID with
  | Some pay => mret pay
  | None => fail (Errorf ("payment " +:+ paymentID +:+ " not found"))
  end.

Definition Refund (paymentID : string) (amountMinor : Z) : go SimulatedPaymentProvider () :=
  pay ← GetPaymentStatus paymentID;
  modify (λ s, s <| SimulatedPaymentProvider_payments :=
    <[paymentID := (pay <| PaymentResult_Status := "refunded" |>)]>
      (SimulatedPaymentProvider_payments s) |>).

(** ** The invoice engine *)

Definition OveragePriceVCPUHourMinor : Z := 1.
Definition OveragePriceRAMGBHourMinor : Z := 1.
Definition OveragePriceStorageGBMoMinor : Z := 8.
Definition OveragePriceBandwidthGBMinor : Z := 1.

(** [cost := int64(math.Ceil(overage)) * price]. *)
Definition overage_cost (price : Z) (overage : float64) : Z :=
  mul64 (to_int64 (math_Ceil overage)) price.

(** One lettered block: the line of an overage, and the running subtotal. *)
Definition charge_overage (what metric : string) (price : Z) (included actual : float64)
    (acc : list InvoiceLine * Z) : go Books (list InvoiceLine * Z) :=
  let '(lines, subtotalMinor) := acc in
  if fgt actual included then
    let overage := fsub actual included in
    let cost := overage_cost price overage in
    id ← uuid_NewString;
    mret (lines ++ [mkInvoiceLine id "" (what +:+ " (Included: " +:+ fmt_f 0 included
                      +:+ ", Used: " +:+ fmt_f 1 actual +:+ ")") metric overage price cost],
          add64 subtotalMinor cost)
  else mret (lines, subtotalMinor).

Definition base_price (plan : Plan) (cycle : string) : Z :=
  if decide (cycle = BillingCycleYearly) then Plan_YearlyPriceMinor plan
  else Plan_MonthlyPriceMinor plan.

Definition nominal_hours (cycle : string) : float64 :=
  if decide (cycle = BillingCycleYearly) then of_int 8760 else of_int 730.

(** Steps 3 and 4 of [GenerateInvoice]: the lines and their subtotal. *)
Definition price_lines (plan : Plan) (cycle : string) (metrics : gmap string float64) :
    go Books (list InvoiceLine * Z) :=
  let basePrice := base_price plan cycle in
  id ← uuid_NewString;
  let nominalHours := nominal_hours cycle in
  let acc := ([mkInvoiceLine id "" ("Subscription Tier: " +:+ Plan_Name plan +:+ " (" +:+ cycle
                 +:+ ")") "" (of_int 1) basePrice basePrice], add64 0 basePrice) in
  acc ← charge_overage "Compute Overage: vCPU-hours" MetricVCPUHours OveragePriceVCPUHourMinor
          (fmul (of_int (Plan_IncludedVCPU plan)) nominalHours)
          (metric_of metrics MetricVCPUHours) acc;
  acc ← charge_overage "Memory Overage: RAM GB-hours" MetricRAMGBHours
          OveragePriceRAMGBHourMinor
          (fmul (fdiv (of_int (Plan_IncludedMemoryMB plan)) (of_int 1024)) nominalHours)
          (metric_of metrics MetricRAMGBHours) acc;
  acc ← charge_overage "Storage Overage: GB-months" MetricStorageGBMonths
          OveragePriceStorageGBMoMinor
          (fdiv (of_int (Plan_IncludedStorageMB plan)) (of_int 1024))
          (metric_of metrics MetricStorageGBMonths) acc;
  charge_overage "Bandwidth Overage: Egress GB" MetricNetworkEgressGB
    OveragePriceBandwidthGBMinor (of_int (Plan_IncludedBandwidthGB plan))
    (metric_of metrics MetricNetworkEgressGB) acc.

Section engine.
Context {P : Type} `{!PaymentProvider P}.

Definition on_books {A} (m : go Books A) : go (Books * P) A := zoom fst (λ b s, (b, snd s)) m.
Definition on_payments {A} (m : go P A) : go (Books * P) A := zoom snd (λ p s, (fst s, p)) m.

Definition tax_of (taxPercent : float64) (subtotalMinor : Z) : Z :=
  if fgt taxPercent (of_int 0)
  then to_int64 (math_Round (fmul (of_int subtotalMinor) (fdiv taxPercent (of_int 100))))
  else 0.

(** [invoice.Status = InvoiceStatusPaid; invoice.PaidAt = &now]. *)
Definition paid (now : Z) (invoice : Invoice) : Invoice :=
  invoice <| Invoice_Status := InvoiceStatusPaid |> <| Invoice_PaidAt := Some now |>.

(** Step 6: [hasProvider] is [ie.paymentProv != nil]. *)
Definition settle (hasProvider : bool) (plan : Plan) (now : Z) (invoice : Invoice) :
    go (Books * P) Invoice :=
  if decide (hasProvider = true ∧ 0 < Invoice_TotalMinor invoice) then
    payRes ← try (on_payments (CreatePayment_ ("pay-" +:+ Invoice_ID invoice)
      (Invoice_TotalMinor invoice) (Plan_Currency plan)
      ("Invoice " +:+ Invoice_ID invoice +:+ " for " +:+ Plan_Name plan)));
    match payRes with
    | Ok (Some res) =>
        if decide (PaymentResult_Status res = "succeeded") then mret (paid now invoice)
        else mret invoice
    | _ => mret invoice
    end
  else if decide (Invoice_TotalMinor invoice = 0) then mret (paid now invoice)
  else mret invoice.

Definition GenerateInvoice (hasProvider : bool) (taxPercent : float64) (tenantID : string)
    (periodStart periodEnd : Z) (idempotencyKey : string) : go (Books * P) Invoice :=
  existing ← (if decide (idempotencyKey = "") then mret None
              else r ← try (on_books (invoice_GetByIdempotencyKey idempotencyKey));
                   mret (match r with Ok inv => Some inv | Err _ => None end));
  match existing with
  | Some inv => mret inv
  | None =>
      sub ← wrap_err (λ e, Wrapf ("unable to load tenant subscription: " +:+ Error e) e)
              (on_books (in_billing (sub_GetByTenantID tenantID)));
      plan ← wrap_err (λ e, Wrapf ("unable to load plan " +:+ Subscription_PlanID sub +:+ ": "
                                   +:+ Error e) e)
               (on_books (in_billing (plan_GetByID (Subscription_PlanID sub))));
      agg ← wrap_err (λ e, Wrapf ("unable to load usage aggregate: " +:+ Error e) e)
              (on_books (GetAggregate tenantID periodStart periodEnd));
      priced ← on_books (price_lines plan (Subscription_BillingCycle sub)
                           (UsageAggregate_Metrics agg));
      let '(lines, subtotalMinor) := priced in
      let taxMinor := tax_of taxPercent subtotalMinor in
      let totalMinor := add64 subtotalMinor taxMinor in
      now ← time_Now;
      id ← uuid_NewString;
      let invoice := mkInvoice id tenantID (Subscription_ID sub) (Plan_Currency plan)
        subtotalMinor taxMinor totalMinor InvoiceStatusOpen periodStart periodEnd
        (time_Add now (14 * 24 * Hour)) None idempotencyKey lines now in
      lift (Invoice_Validate invoice) ;;
      invoice ← settle hasProvider plan now invoice;
      on_books (invoice_Create invoice)
  end.
End engine.

(** ** What an invoice adds up to *)

Definition line_sum (lines : list InvoiceLine) : Z :=
  wrap64 (foldr (λ l n, InvoiceLine_TotalMinor l + n) 0 lines).

Lemma wrap64_wrap64 z : wrap64 (wrap64 z) = wrap64 z.
Proof. apply wrap64_id, wrap64_ok. Qed.

Lemma foldr_total_app ls n :
  foldr (λ l n, InvoiceLine_TotalMinor l + n) n ls =
  foldr (λ l n, InvoiceLine_TotalMinor l + n) 0 ls + n.
Proof. induction ls as [|l ls IH]; cbn [foldr]; [lia|]. rewrite IH. lia. Qed.

Lemma line_sum_snoc ls l :
  line_sum (ls ++ [l]) = add64 (line_sum ls) (InvoiceLine_TotalMinor l).
Proof.
  unfold line_sum, add64. rewrite foldr_app, foldr_total_app. cbn [foldr].
  rewrite wrap64_add_l. f_equal. lia.
Qed.

(** The overage of one metric, in minor units. *)
Definition overage_due (price : Z) (included actual : float64) : Z :=
  if fgt actual included then overage_cost price (fsub actual included) else 0.

Definition subtotal_due (plan : Plan) (cycle : string) (metrics : gmap string float64) : Z :=
  wrap64 (base_price plan cycle +
    overage_due OveragePriceVCPUHourMinor
      (fmul (of_int (Plan_IncludedVCPU plan)) (nominal_hours cycle))
      (metric_of metrics MetricVCPUHours) +
    overage_due OveragePriceRAMGBHourMinor
      (fmul (fdiv (of_int (Plan_IncludedMemoryMB plan)) (of_int 1024)) (nominal_hours cycle))
      (metric_of metrics MetricRAMGBHours) +
    overage_due OveragePriceStorageGBMoMinor
      (fdiv (of_int (Plan_IncludedStorageMB plan)) (of_int 1024))
      (metric_of metrics MetricStorageGBMonths) +
    overage_due OveragePriceBandwidthGBMinor (of_int (Plan_IncludedBandwidthGB plan))
      (metric_of metrics MetricNetworkEgressGB)).

Lemma charge_overage_run what metric price included actual lines x
    (Q : result (list InvoiceLine * Z) → Books → World → Prop) w s :
  line_sum lines = wrap64 x →
  (∀ lines' w', line_sum lines' = wrap64 (x + overage_due price included actual) →
     w_uuid w' = w_uuid w →
     Q (Ok (lines', wrap64 (x + overage_due price included actual))) s w') →
  wp (charge_overage what metric price included actual (lines, wrap64 x)) Q w s.
Proof.
  intros Hsum HQ. unfold charge_overage, overage_due in *.
  destruct (fgt actual included).
  - wp_step. unfold add64. rewrite wrap64_add_l. apply HQ; [|done].
    rewrite line_sum_snoc, Hsum. unfold add64. by rewrite wrap64_add_l.
  - wp_step. rewrite Z.add_0_r in HQ. by apply HQ.
Qed.

Lemma price_lines_run plan cycle metrics w s :
  wp (price_lines plan cycle metrics) (λ r s' w',
    s' = s ∧ w_uuid w' = w_uuid w ∧ ∃ lines, r = Ok (lines, subtotal_due plan cycle metrics) ∧
    line_sum lines = subtotal_due plan cycle metrics) w s.
Proof.
  unfold price_lines. wp_step. unfold add64 at 1. rewrite Z.add_0_l.
  do 3 (apply charge_overage_run; [unfold line_sum; cbn [foldr InvoiceLine_TotalMinor];
      by rewrite ?Z.add_0_r || eassumption|];
    intros ? ? ? ?; wp_step).
  apply charge_overage_run; [eassumption|]. intros ls wz Hs Hu2.
  cbn [w_uuid next_uuid] in *. split_and!; [done|congruence|]. by exists ls.
Qed.

(** Two invoices that differ in their payment only. *)
Definition same_invoice (a b : Invoice) : Prop :=
  b = a <| Invoice_Status := Invoice_Status b |> <| Invoice_PaidAt := Invoice_PaidAt b |>.

Lemma same_invoice_fields a b :
  same_invoice a b →
  Invoice_ID b = Invoice_ID a ∧ Invoice_TenantID b = Invoice_TenantID a ∧
  Invoice_Currency b = Invoice_Currency a ∧
  Invoice_SubtotalMinor b = Invoice_SubtotalMinor a ∧ Invoice_TaxMinor b = Invoice_TaxMinor a ∧
  Invoice_TotalMinor b = Invoice_TotalMinor a ∧
  Invoice_IdempotencyKey b = Invoice_IdempotencyKey a ∧ Invoice_Lines b = Invoice_Lines a.
Proof. unfold same_invoice. destruct a, b. cbn. intros [=]. by subst. Qed.

Lemma same_invoice_refl a : same_invoice a a.
Proof. by destruct a. Qed.
Lemma same_invoice_trans a b c : same_invoice a b → same_invoice b c → same_invoice a c.
Proof. unfold same_invoice. destruct a, b, c. cbn. intros [=] [=]. by subst. Qed.

Lemma assign_lines_run id lines w s :
  wp (assign_lines id lines) (λ r s' _, s' = s ∧ ∃ lines', r = Ok lines' ∧
    line_sum lines' = line_sum lines ∧
    Forall (λ l, InvoiceLine_InvoiceID l = id) lines') w s.
Proof.
  assert (∀ (Q : result (list InvoiceLine) → Books → World → Prop) w,
    (∀ lines' w', foldr (λ l n, InvoiceLine_TotalMinor l + n) 0 lines' =
       foldr (λ l n, InvoiceLine_TotalMinor l + n) 0 lines →
       Forall (λ l, InvoiceLine_InvoiceID l = id) lines' → Q (Ok lines') s w') →
    wp (assign_lines id lines) Q w s) as Hgen.
  { clear w. induction lines as [|l ls IH]; intros Q w HQ; cbn [assign_lines]; [wp_step; by apply HQ|].
    assert (∀ lid w', wp (ls' ← assign_lines id ls;
      mret ((l <| InvoiceLine_ID := lid |> <| InvoiceLine_InvoiceID := id |>) :: ls')) Q w' s) as Hrest.
    { intros lid w'. wp_step. apply IH. intros ls' w2 Hs Hf. wp_step. apply HQ.
      - cbn [foldr]. by rewrite Hs.
      - by constructor. }
    wp_step. destruct (decide (InvoiceLine_ID l = "")); wp_step; specialize (Hrest);
      [pose proof (Hrest (w_uuid w (w_uuids w)) (next_uuid w)) as Hr|
       pose proof (Hrest (InvoiceLine_ID l) w) as Hr]; rewrite wp_bind in Hr; exact Hr. }
  apply Hgen. intros lines' w' Hs Hf. split; [done|]. exists lines'. split_and!; try done.
  unfold line_sum. by rewrite Hs.
Qed.

Lemma keyed_None s key :
  key ≠ "" → keyed_invoice s key = None →
  ∀ w, ∃ e, invoice_GetByIdempotencyKey key w s = (Err e, s, w).
Proof.
  intros Hk. unfold keyed_invoice. rewrite decide_False by done. intros Hn w.
  unfold invoice_GetByIdempotencyKey, invoice_GetByID, mbind, go_bind, get, mret, go_ret.
  destruct (Books_invoiceKeys s !! key) as [id|]; simpl in Hn; [rewrite Hn|]; by eexists.
Qed.

Lemma keyed_Some s key inv :
  keyed_invoice s key = Some inv →
  key ≠ "" ∧ ∀ w, invoice_GetByIdempotencyKey key w s = (Ok inv, s, w).
Proof.
  unfold keyed_invoice. destruct (decide (key = "")) as [|Hk]; [done|].
  intros (id & Hid & Hinv)%bind_Some. split; [done|]. intros w.
  unfold invoice_GetByIdempotencyKey, invoice_GetByID, mbind, go_bind, get, mret, go_ret.
  by rewrite Hid, Hinv.
Qed.

Lemma sub_lookup_run t w s :
  (∃ sub, sub_GetByTenantID t w s = (Ok sub, s, w)) ∨
  (∃ e, sub_GetByTenantID t w s = (Err e, s, w)).
Proof.
  unfold sub_GetByTenantID, sub_GetByID, mbind, go_bind, get, mret, go_ret.
  destruct (BillingStore_tenantSubs s !! t) as [id|]; [|right; by eexists].
  destruct (BillingStore_subscriptions s !! id); [left|right]; by eexists.
Qed.

Lemma plan_lookup_run id w s :
  (∃ p, plan_GetByID id w s = (Ok p, s, w)) ∨ (∃ e, plan_GetByID id w s = (Err e, s, w)).
Proof.
  unfold plan_GetByID, mbind, go_bind, get, mret, go_ret.
  destruct (BillingStore_plans s !! id); [left|right]; by eexists.
Qed.

Lemma in_billing_run {A} (m : go BillingStore A) (r : result A) w s :
  m w (Books_billing s) = (r, Books_billing s, w) → in_billing m w s = (r, s, w).
Proof. unfold in_billing, zoom. intros ->. by destruct s. Qed.

(** An invoice the engine made, and the books it was filed in. *)
Section charged.
Context (w : World) (s : Books) (tenantID : string) (periodStart periodEnd : Z)
  (key : string) (taxPercent : float64).

Record charged (inv : Invoice) : Prop := {
  charged_id : ∃ n, Invoice_ID inv = w_uuid w n;
  charged_tenant : Invoice_TenantID inv = tenantID;
  charged_key : Invoice_IdempotencyKey inv = key;
  charged_valid : Invoice_Validate inv = Ok ();
  charged_lines : line_sum (Invoice_Lines inv) = Invoice_SubtotalMinor inv;
  charged_owned : Forall (λ l, InvoiceLine_InvoiceID l = Invoice_ID inv) (Invoice_Lines inv);
  charged_tax : Invoice_TaxMinor inv = tax_of taxPercent (Invoice_SubtotalMinor inv);
  charged_total :
    Invoice_TotalMinor inv = add64 (Invoice_SubtotalMinor inv) (Invoice_TaxMinor inv);
  charged_subtotal : ∃ sub plan,
    answer (sub_GetByTenantID tenantID) w (Books_billing s) = Ok sub ∧
    answer (plan_GetByID (Subscription_PlanID sub)) w (Books_billing s) = Ok plan ∧
    Invoice_SubtotalMinor inv = subtotal_due plan (Subscription_BillingCycle sub)
      (aggregate tenantID periodStart periodEnd (entries (w_order w (w_ranges w)) (Books_usage s)).*2)
}.
End charged.

Lemma Validate_amounts (a b : Invoice) :
  Invoice_TenantID b = Invoice_TenantID a → Invoice_Currency b = Invoice_Currency a →
  Invoice_SubtotalMinor b = Invoice_SubtotalMinor a → Invoice_TaxMinor b = Invoice_TaxMinor a →
  Invoice_TotalMinor b = Invoice_TotalMinor a → Invoice_Validate b = Invoice_Validate a.
Proof. unfold Invoice_Validate. by intros -> -> -> -> ->. Qed.

Lemma same_invoice_Validate a b : same_invoice a b → Invoice_Validate b = Invoice_Validate a.
Proof. intros (?&?&?&?&?&?&?&?)%same_invoice_fields. by apply Validate_amounts. Qed.

Section engine_facts.
Context {P : Type} `{!PaymentProvider P}.

Lemma settle_run hp plan now inv w (s : Books * P) :
  wp (settle hp plan now inv) (λ r s' _, fst s' = fst s ∧
    ∃ inv', r = Ok inv' ∧ same_invoice inv inv') w s.
Proof.
  unfold settle. destruct (decide _) as [|_].
  - unfold on_payments. wp_step. unfold wp. destruct (CreatePayment_ _ _ _ _ _ _) as [[r p] w'].
    simpl. destruct r as [[res|]|e]; simpl; [destruct (decide _)|..]; simpl; split; try done;
      eexists; (split; [done|]); destruct inv; done.
  - destruct (decide _); wp_step; split; try done; eexists; (split; [done|]); destruct inv; done.
Qed.

Lemma on_books_run {A} (m : go Books A) (Q : result A → Books * P → World → Prop) w b p :
  wp (on_books m) Q w (b, p) ↔ wp m (λ r b' w', Q r (b', p) w') w b.
Proof. unfold on_books. by rewrite wp_zoom. Qed.

Lemma on_books_exec {A} (m : go Books A) w b (p : P) :
  exec (on_books m) w (b, p) = (exec m w b, p).
Proof. unfold exec, on_books, zoom. simpl. by destruct (m w b) as [[??]?]. Qed.

Lemma invoice_Create_run inv w s :
  Invoice_ID inv ≠ "" → keyed_invoice s (Invoice_IdempotencyKey inv) = None →
  wp (invoice_Create inv) (λ r s' _, ∃ created lines,
    line_sum lines = line_sum (Invoice_Lines inv) ∧
    Forall (λ l, InvoiceLine_InvoiceID l = Invoice_ID inv) lines ∧
    let inv' := inv <| Invoice_CreatedAt := created |> <| Invoice_Lines := lines |> in
    r = Ok inv' ∧ s' = file_invoice inv' s) w s.
Proof.
  intros Hid Hk. unfold invoice_Create. wp_step. rewrite Hk, (decide_False (P := Invoice_ID inv = ""))
    by done. wp_step.
  assert (∀ c w', wp (lines ← assign_lines (Invoice_ID inv) (Invoice_Lines inv);
     let invoice := inv <| Invoice_ID := Invoice_ID inv |> <| Invoice_CreatedAt := c |>
                        <| Invoice_Lines := lines |> in
     modify (file_invoice invoice);; mret invoice) (λ r s' _, ∃ created lines,
    line_sum lines = line_sum (Invoice_Lines inv) ∧
    Forall (λ l, InvoiceLine_InvoiceID l = Invoice_ID inv) lines ∧
    let inv' := inv <| Invoice_CreatedAt := created |> <| Invoice_Lines := lines |> in
    r = Ok inv' ∧ s' = file_invoice inv' s) w' s) as Hrest.
  { intros c w'. wp_step. eapply wp_mono; [apply assign_lines_run|].
    intros r s' w2 (-> & lines & -> & Hs & Hf). cbv zeta. wp_step.
    exists c, lines. split_and!; try done; by destruct inv. }
  destruct (decide (IsZero _)); wp_step; cbv zeta in Hrest |- *.
  - specialize (Hrest (now_of w) (tick w)). rewrite wp_bind in Hrest. exact Hrest.
  - specialize (Hrest (Invoice_CreatedAt inv) w). rewrite wp_bind in Hrest. exact Hrest.
Qed.

(** The run of [GenerateInvoice] once the key is known not to be filed. *)
Lemma GenerateInvoice_run hp tax t a b key w s (p : P) :
  (∀ n, w_uuid w n ≠ "") →
  wp (GenerateInvoice hp tax t a b key) (λ r s' _,
    match keyed_invoice s key, r with
    | Some inv, _ => r = Ok inv ∧ s' = (s, p)
    | None, Err _ => s' = (s, p)
    | None, Ok inv => charged w s t a b key tax inv ∧ fst s' = file_invoice inv s
    end) w (s, p).
Proof.
  intros Hw. unfold GenerateInvoice. rewrite wp_bind.
  assert (∀ Q : result (option Invoice) → Books * P → World → Prop,
    Q (Ok (keyed_invoice s key)) (s, p) w →
    wp (if decide (key = "") then mret None
        else r ← try (on_books (invoice_GetByIdempotencyKey key));
             mret (match r with Ok inv => Some inv | Err _ => None end)) Q w (s, p)) as Hex.
  { intros Q HQ. destruct (keyed_invoice s key) as [inv|] eqn:Hk.
    - apply keyed_Some in Hk as [Hne Hrun]. rewrite decide_False by done. wp_step.
      rewrite on_books_run, (wp_run _ _ _ _ _ _ _ (Hrun w)). wp_step. done.
    - destruct (decide (key = "")) as [|Hne]; [by wp_step|]. wp_step.
      destruct (keyed_None s key Hne Hk w) as [e Hrun].
      rewrite on_books_run, (wp_run _ _ _ _ _ _ _ Hrun). wp_step. done. }
  apply Hex. clear Hex. destruct (keyed_invoice s key) as [inv|] eqn:Hkey; [by wp_step|].
  wp_step. rewrite on_books_run.
  destruct (sub_lookup_run t w (Books_billing s)) as [[sub Hsub]|[e Hsub]];
    rewrite (wp_run _ _ _ _ _ _ _ (in_billing_run _ _ _ _ Hsub)); [|by wp_step].
  wp_step. rewrite on_books_run.
  destruct (plan_lookup_run (Subscription_PlanID sub) w (Books_billing s)) as [[pl Hpl]|[e Hpl]];
    rewrite (wp_run _ _ _ _ _ _ _ (in_billing_run _ _ _ _ Hpl)); [|by wp_step].
  wp_step. rewrite on_books_run. unfold GetAggregate. wp_step. cbn [UsageAggregate_Metrics].
  rewrite on_books_run. eapply wp_mono; [apply price_lines_run|].
  intros r s1 w1 (-> & Hu & lines & -> & Hsum). wp_step. cbn [w_uuid next_range tick] in Hu |- *.
  set (inv := mkInvoice _ _ _ _ _ _ _ _ _ _ _ _ _ _ _).
  assert (∃ n, Invoice_ID inv = w_uuid w n) as [n Hn]
    by (exists (w_uuids (tick w1)); subst inv; simpl; by rewrite Hu).
  destruct (Invoice_Validate inv) as [[]|e] eqn:Hval; [wp_step|done].
  eapply wp_mono; [apply settle_run|]. intros r [s2 p2] w2 (Hs2 & inv2 & -> & Hsame).
  simpl in Hs2. subst s2. rewrite on_books_run.
  destruct (same_invoice_fields _ _ Hsame) as (Hid & Ht2 & Hc2 & Hs2 & Htx2 & Hto2 & Hk2 & Hl2).
  eapply wp_mono; [apply invoice_Create_run; [by rewrite Hid, Hn|by rewrite Hk2]|].
  intros r s3 w3 (c & ls & Hls & Hown & -> & ->). split; [|done].
  pose proof (same_invoice_Validate _ _ Hsame) as Hv2.
  split; cbn [Invoice_ID Invoice_TenantID Invoice_IdempotencyKey Invoice_Lines Invoice_SubtotalMinor
    Invoice_TaxMinor Invoice_TotalMinor set_field set_Invoice_CreatedAt set_Invoice_Lines]; try done.
  - exists n. by rewrite Hid.
  - erewrite Validate_amounts; [by rewrite Hv2|done..].
  - by rewrite Hls, Hl2, Hs2.
  - by rewrite Htx2, Hs2.
  - rewrite Hto2, Hs2, Htx2. subst inv.
    cbn [Invoice_TotalMinor Invoice_SubtotalMinor Invoice_TaxMinor]. reflexivity.
  - exists sub, pl. unfold answer. rewrite Hsub, Hpl. split_and!; try done.
Qed.

(** ** Histories of the billing books *)

Abbreviation State := (Books * P)%type.

(** [uuid.NewString] never answers the empty string, nor an identifier that
    is already taken. *)
Definition fresh_uuids (w : World) (s : Books) : Prop :=
  ∀ n, w_uuid w n ≠ "" ∧ Books_invoices s !! w_uuid w n = None.

(** Invoices are generated and change status, usage is recorded; plans,
    subscriptions, quotas and payments may change in any way. *)
Inductive books_step (s : State) : State → Prop :=
  | step_generate w hp tax t a b key :
      fresh_uuids w (fst s) → books_step s (exec (GenerateInvoice hp tax t a b key) w s)
  | step_usage w record : books_step s (exec (on_books (RecordUsage record)) w s)
  | step_status w id status paidAt :
      books_step s (exec (on_books (invoice_UpdateStatus id status paidAt)) w s)
  | step_billing b : books_step s ((fst s) <| Books_billing := b |>, snd s)
  | step_payments p : books_step s (fst s, p).

Lemma usage_store_run record w s :
  wp (usage_store record) (λ r s' _, r = Ok () ∧ ∃ id rec, s' = s <| Books_usage :=
    <[id := rec]> (Books_usage s) |>) w s.
Proof.
  unfold usage_store. wp_step.
  destruct (decide (UsageRecord_ID record = "")), (decide (IsZero _)); wp_step;
    (split; [done|]; by eexists _, _).
Qed.

Lemma RecordUsage_run record w s :
  wp (RecordUsage record) (λ r s' _, r = Ok () ∧
    Books_invoices s' = Books_invoices s ∧ Books_invoiceKeys s' = Books_invoiceKeys s ∧
    Books_usageKeys s ⊆ Books_usageKeys s' ∧
    (UsageRecord_IdempotencyKey record ≠ "" →
       (UsageRecord_IdempotencyKey record ∈ Books_usageKeys s')) ∧
    ((UsageRecord_IdempotencyKey record ∈ Books_usageKeys s) →
       UsageRecord_IdempotencyKey record ≠ "" → s' = s)) w s.
Proof.
  unfold RecordUsage. wp_step. destruct (decide (_ = "")).
  - eapply wp_mono; [apply usage_store_run|]. intros r s' w' (-> & id & rec & ->).
    split_and!; done.
  - destruct (decide (_ ∈ _)); wp_step; [split_and!; done|].
    eapply wp_mono; [apply usage_store_run|]. intros r s' w' (-> & id & rec & ->). simpl.
    split_and!; try done; set_solver.
Qed.

(** What a step does to the filed invoices. *)
Inductive filed_change (s s' : Books) : Prop :=
  | filed_same :
      Books_invoices s' = Books_invoices s → Books_invoiceKeys s' = Books_invoiceKeys s →
      filed_change s s'
  | filed_new w t a b key tax inv :
      keyed_invoice s key = None → Books_invoices s !! Invoice_ID inv = None →
      charged w s t a b key tax inv → s' = file_invoice inv s → filed_change s s'
  | filed_status id inv inv' :
      Books_invoices s !! id = Some inv → same_invoice inv inv' →
      Books_invoices s' = <[id := inv']> (Books_invoices s) →
      Books_invoiceKeys s' = Books_invoiceKeys s → filed_change s s'.

Lemma books_step_filed s s' : books_step s s' → filed_change (fst s) (fst s').
Proof.
  destruct s as [s p]. destruct 1 as [w hp tax t a b key Hf|w record|w id st pa|b|p']; simpl.
  - pose proof (GenerateInvoice_run hp tax t a b key w s p (λ n, proj1 (Hf n))) as Hr.
    rewrite wp_elim in Hr. destruct (keyed_invoice s key) eqn:Hk.
    { destruct Hr as [_ ->]. by apply filed_same. }
    destruct (answer _ _ _) as [inv|e]; [|rewrite Hr; by apply filed_same].
    destruct Hr as [Hc Hs]. destruct (charged_id _ _ _ _ _ _ _ _ Hc) as [n Hn].
    eapply filed_new; [done| |done|done]. rewrite Hn. apply Hf.
  - pose proof (RecordUsage_run record w s) as (_ & Hi & Hk & _).
    rewrite on_books_exec. by apply filed_same.
  - rewrite on_books_exec. simpl. unfold invoice_UpdateStatus, invoice_GetByID, exec, mbind, go_bind,
      get, mret, go_ret, fail, modify.
    destruct (Books_invoices s !! id) as [inv|] eqn:Hi; simpl; [|by apply filed_same].
    eapply (filed_status _ _ id inv); [done| |simpl; reflexivity|done].
    destruct inv, pa; done.
  - by apply filed_same.
  - by apply filed_same.
Qed.

(** Every filed invoice adds up and is filed under its identifier. *)
Definition balanced (id : string) (inv : Invoice) : Prop :=
  Invoice_ID inv = id ∧ Invoice_Validate inv = Ok () ∧
  line_sum (Invoice_Lines inv) = Invoice_SubtotalMinor inv ∧
  Forall (λ l, InvoiceLine_InvoiceID l = id) (Invoice_Lines inv).

Definition books_ok (s : Books) : Prop := map_Forall balanced (Books_invoices s).

Lemma filed_balanced s s' : filed_change s s' → books_ok s → books_ok s'.
Proof.
  intros [Hi _|w t a b key tax inv _ _ Hc ->|id inv inv' Hid Hsame Hi _] Hok; unfold books_ok.
  - by rewrite Hi.
  - apply map_Forall_insert_2; [|done].
    destruct Hc. by split_and!.
  - rewrite Hi. apply map_Forall_insert_2; [|done].
    destruct (Hok id inv Hid) as (H1 & H2 & H3 & H4).
    destruct (same_invoice_fields _ _ Hsame) as (E1 & _ & _ & E4 & _ & _ & _ & E8).
    unfold balanced. rewrite (same_invoice_Validate _ _ Hsame). by rewrite E1, E4, E8.
Qed.

(** The invoice of a key stays the same but for its payment. *)
Lemma filed_keyed s s' key inv :
  filed_change s s' → keyed_invoice s key = Some inv →
  ∃ inv', keyed_invoice s' key = Some inv' ∧ same_invoice inv inv'.
Proof.
  unfold keyed_invoice. destruct (decide (key = "")) as [|Hne]; [done|].
  intros Hch (id & Hk & Hi)%bind_Some.
  destruct Hch as [Hi' Hk'|w t a b key' tax new Hnone Hfresh Hc ->|id' old new Hold Hsame Hi' Hk'].
  - rewrite Hk', Hk. simpl. rewrite Hi'. eauto using same_invoice_refl.
  - exists inv. split; [|apply same_invoice_refl]. unfold file_invoice. simpl.
    rewrite (charged_key _ _ _ _ _ _ _ _ Hc).
    assert (key' ≠ key) as Hkk.
    { intros ->. unfold keyed_invoice in Hnone. rewrite decide_False, Hk in Hnone by done. simpl in Hnone. congruence. }
    destruct (decide (key' = "")); rewrite ?lookup_insert_ne, Hk by done; simpl;
      rewrite lookup_insert_ne; congruence.
  - rewrite Hk', Hk. simpl. rewrite Hi'. destruct (decide (id = id')) as [->|Hd].
    + rewrite lookup_insert_eq. rewrite Hold in Hi. injection Hi as ->. eauto.
    + rewrite lookup_insert_ne by done. eauto using same_invoice_refl.
Qed.

Lemma steps_balanced s s' : rtc books_step s s' → books_ok (fst s) → books_ok (fst s').
Proof.
  induction 1 as [|s1 s2 s3 Hstep _ IH]; [done|]. intros Hok.
  apply IH. eapply filed_balanced; [by apply books_step_filed|done].
Qed.

Lemma steps_keyed s s' key inv :
  rtc books_step s s' → keyed_invoice (fst s) key = Some inv →
  ∃ inv', keyed_invoice (fst s') key = Some inv' ∧ same_invoice inv inv'.
Proof.
  intros Hsteps. revert inv. induction Hsteps as [|s1 s2 s3 Hstep _ IH]; intros inv Hk.
  { eauto using same_invoice_refl. }
  destruct (filed_keyed _ _ _ _ (books_step_filed _ _ Hstep) Hk) as (inv2 & Hk2 & Hs2).
  destruct (IH _ Hk2) as (inv3 & Hk3 & Hs3). eauto using same_invoice_trans.
Qed.

(** Recorded usage keys are never forgotten. *)
Lemma books_step_keys s s' :
  books_step s s' → Books_usageKeys (fst s) ⊆ Books_usageKeys (fst s').
Proof.
  destruct s as [s p]. destruct 1 as [w hp tax t a b key Hf|w record|w id st pa|b|p']; try done.
  - pose proof (GenerateInvoice_run hp tax t a b key w s p (λ n, proj1 (Hf n))) as Hr.
    rewrite wp_elim in Hr. destruct (keyed_invoice s key); [by destruct Hr as [_ ->]|].
    destruct (answer _ _ _); [by destruct Hr as [_ ->]|by rewrite Hr].
  - rewrite on_books_exec. by apply (RecordUsage_run record w s).
  - rewrite on_books_exec. unfold invoice_UpdateStatus, invoice_GetByID, exec, mbind, go_bind,
      get, mret, go_ret, fail, modify. by destruct (Books_invoices _ !! id).
Qed.

Lemma steps_keys s s' : rtc books_step s s' → Books_usageKeys (fst s) ⊆ Books_usageKeys (fst s').
Proof.
  induction 1 as [|s1 s2 s3 Hstep _ IH]; [done|]. etrans; [by apply books_step_keys|done].
Qed.

(** The keys one metering call records. *)
Definition instance_keys (instanceID : string) (start end_ : Z) : list string :=
  let bucketKey := "inst-" +:+ instanceID +:+ "-" +:+ fmt_d (Unix start) +:+ "-"
                   +:+ fmt_d (Unix end_) in
  [bucketKey +:+ "-vcpu"; bucketKey +:+ "-ram"; bucketKey +:+ "-storage"].

Lemma RecordInstanceUsage_keys t i v m st a b w s :
  fle (Hours (time_Sub b a)) (of_int 0) = false →
  ∀ k, k ∈ instance_keys i a b → k ∈ Books_usageKeys (exec (RecordInstanceUsage t i v m st a b) w s).
Proof.
  intros Hd. unfold RecordInstanceUsage. cbv zeta. rewrite Hd.
  cut (wp (RecordInstanceUsage t i v m st a b) (λ _ s' _,
    ∀ k, k ∈ instance_keys i a b → k ∈ Books_usageKeys s') w s).
  { unfold RecordInstanceUsage. cbv zeta. by rewrite Hd. }
  unfold RecordInstanceUsage. cbv zeta. rewrite Hd. wp_step.
  eapply wp_mono; [apply RecordUsage_run|]. intros r s1 w1 (-> & _ & _ & _ & H1 & _). wp_step.
  eapply wp_mono; [apply RecordUsage_run|]. intros r s2 w2 (-> & _ & _ & S2 & H2 & _).
  eapply wp_mono; [apply RecordUsage_run|]. intros r s3 w3 (-> & _ & _ & S3 & H3 & _).
  specialize (H1 ltac:(discriminate)). specialize (H2 ltac:(discriminate)).
  specialize (H3 ltac:(discriminate)). cbn [UsageRecord_IdempotencyKey] in *.
  unfold instance_keys. cbv zeta. set_solver.
Qed.

Lemma RecordInstanceUsage_again t i v m st a b w s :
  (∀ k, k ∈ instance_keys i a b → k ∈ Books_usageKeys s) →
  exec (RecordInstanceUsage t i v m st a b) w s = s.
Proof.
  intros Hk. unfold instance_keys in Hk. cbv zeta in Hk.
  cut (wp (RecordInstanceUsage t i v m st a b) (λ _ s' _, s' = s) w s); [done|].
  unfold RecordInstanceUsage. cbv zeta. destruct (fle _ _); [by wp_step|]. wp_step.
  eapply wp_mono; [apply RecordUsage_run|]. intros r s1 w1 (-> & _ & _ & _ & _ & H1). wp_step.
  cbn [UsageRecord_IdempotencyKey] in H1. rewrite H1 by (try discriminate; apply Hk; set_solver).
  eapply wp_mono; [apply RecordUsage_run|]. intros r s2 w2 (-> & _ & _ & _ & _ & H2).
  cbn [UsageRecord_IdempotencyKey] in H2. rewrite H2 by (try discriminate; apply Hk; set_solver).
  eapply wp_mono; [apply RecordUsage_run|]. intros r s3 w3 (-> & _ & _ & _ & _ & H3).
  cbn [UsageRecord_IdempotencyKey] in H3. by apply H3; [apply Hk; set_solver|].
Qed.

(** ** Properties *)

(** C39 Every filed invoice is balanced, in every history of the billing
    books: its lines add up to its subtotal, subtotal and tax add up to the
    total, no amount is negative, and its lines refer to it; the charges and
    status changes made meanwhile do not matter. *)
Theorem invoices_balanced (s s' : State) :
  Books_invoices (fst s) = ∅ → rtc books_step s s' →
  ∀ id inv, Books_invoices (fst s') !! id = Some inv →
    Invoice_ID inv = id ∧
    line_sum (Invoice_Lines inv) = Invoice_SubtotalMinor inv ∧
    add64 (Invoice_SubtotalMinor inv) (Invoice_TaxMinor inv) = Invoice_TotalMinor inv ∧
    0 ≤ Invoice_SubtotalMinor inv ∧ 0 ≤ Invoice_TaxMinor inv ∧ 0 ≤ Invoice_TotalMinor inv ∧
    ∀ l, l ∈ Invoice_Lines inv → InvoiceLine_InvoiceID l = id.
Proof.
  intros He Hsteps id inv Hinv.
  assert (books_ok (fst s')) as Hok.
  { eapply steps_balanced; [done|]. unfold books_ok. rewrite He. apply map_Forall_empty. }
  destruct (Hok id inv Hinv) as (Hid & Hv & Hl & Hf). unfold Invoice_Validate in Hv.
  repeat case_decide; try discriminate Hv.
  rewrite Forall_forall in Hf. split_and!; auto; lia.
Qed.

(** A tenant is billed once per idempotency key: after [GenerateInvoice]
    answered an invoice for a key, any later call with that key, whatever
    happened in between and whatever its other arguments, answers that same
    invoice (up to its payment status) and changes nothing, so no second
    payment is taken. *)
Theorem billed_once_per_key (hp hp' : bool) (tax tax' : float64) (t t' : string)
    (a b a' b' : Z) (key : string) (w w' : World) (s s' : State) (inv : Invoice) :
  key ≠ "" → (∀ n, w_uuid w n ≠ "" ∧ w_uuid w' n ≠ "") →
  answer (GenerateInvoice hp tax t a b key) w s = Ok inv →
  rtc books_step (exec (GenerateInvoice hp tax t a b key) w s) s' →
  ∃ inv', answer (GenerateInvoice hp' tax' t' a' b' key) w' s' = Ok inv' ∧
    same_invoice inv inv' ∧ exec (GenerateInvoice hp' tax' t' a' b' key) w' s' = s'.
Proof.
  intros Hkey Hu Ha Hsteps. destruct s as [s p], s' as [s' p'].
  pose proof (GenerateInvoice_run hp tax t a b key w s p (λ n, proj1 (Hu n))) as Hr.
  rewrite wp_elim, Ha in Hr.
  assert (keyed_invoice (fst (exec (GenerateInvoice hp tax t a b key) w (s, p))) key = Some inv)
    as Hk.
  { destruct (keyed_invoice s key) as [inv0|] eqn:Hk; destruct Hr as [Hc Hex].
    { rewrite Hex. simpl. congruence. }
    rewrite Hex.
    unfold keyed_invoice, file_invoice. simpl.
    rewrite (charged_key _ _ _ _ _ _ _ _ Hc), !decide_False by done.
    rewrite lookup_insert_eq. simpl. by rewrite lookup_insert_eq. }
  destruct (steps_keyed _ _ _ _ Hsteps Hk) as (inv' & Hk' & Hsame). simpl in Hk'.
  pose proof (GenerateInvoice_run hp' tax' t' a' b' key w' s' p' (λ n, proj2 (Hu n))) as Hr'.
  rewrite wp_elim, Hk' in Hr'. destruct Hr' as [Ha' Hs']. eauto.
Qed.

(** What an invoice bills: when the key is not filed yet, a call either
    fails and changes nothing, or files exactly one invoice, whose subtotal
    is the price of the tenant's plan plus the overages of the usage recorded
    in the period, and whose tax and total follow from it. *)
Theorem GenerateInvoice_spec (hp : bool) (tax : float64) (t : string) (a b : Z) (key : string)
    (w : World) (s : State) :
  (∀ n, w_uuid w n ≠ "") → keyed_invoice (fst s) key = None →
  match answer (GenerateInvoice hp tax t a b key) w s with
  | Err _ => exec (GenerateInvoice hp tax t a b key) w s = s
  | Ok inv =>
      fst (exec (GenerateInvoice hp tax t a b key) w s) = file_invoice inv (fst s) ∧
      Invoice_TenantID inv = t ∧ Invoice_TaxMinor inv = tax_of tax (Invoice_SubtotalMinor inv) ∧
      Invoice_TotalMinor inv = add64 (Invoice_SubtotalMinor inv) (Invoice_TaxMinor inv) ∧
      ∃ sub plan,
        answer (sub_GetByTenantID t) w (Books_billing (fst s)) = Ok sub ∧
        answer (plan_GetByID (Subscription_PlanID sub)) w (Books_billing (fst s)) = Ok plan ∧
        Invoice_SubtotalMinor inv = subtotal_due plan (Subscription_BillingCycle sub)
          (aggregate t a b (entries (w_order w (w_ranges w)) (Books_usage (fst s))).*2)
  end.
Proof.
  intros Hu Hk. destruct s as [s p].
  pose proof (GenerateInvoice_run hp tax t a b key w s p Hu) as Hr. simpl in Hk.
  rewrite wp_elim, Hk in Hr. destruct (answer _ _ _) as [inv|e]; [|done].
  destruct Hr as [[] ->]. by split_and!.
Qed.

(** Metering is idempotent: once the usage of an instance over an interval
    is recorded, recording it again, even with other amounts and after any
    other billing activity, changes nothing. *)
Theorem metering_idempotent (t t' i : string) (v v' m m' st st' a b : Z) (w w' : World)
    (s s' : State) :
  rtc books_step (exec (on_books (RecordInstanceUsage t i v m st a b)) w s) s' →
  exec (on_books (RecordInstanceUsage t' i v' m' st' a b)) w' s' = s'.
Proof.
  intros Hsteps. destruct s as [s p], s' as [s' p'].
  rewrite on_books_exec in Hsteps |- *. apply steps_keys in Hsteps. simpl in Hsteps. f_equal.
  destruct (fle (Hours (time_Sub b a)) (of_int 0)) eqn:Hd.
  { unfold RecordInstanceUsage. cbv zeta. by rewrite Hd. }
  apply RecordInstanceUsage_again. intros k Hk. apply Hsteps.
  by apply RecordInstanceUsage_keys.
Qed.
End engine_facts.

(** ** The aggregate *)

Definition quantities (t : string) (a b : Z) (metric : string) (records : list UsageRecord) :
    list float64 :=
  UsageRecord_Quantity <$>
    filter (λ r, in_window t a b r ∧ UsageRecord_Metric r = metric) records.

Lemma aggregate_metric t a b metric records :
  metric_of (aggregate t a b records) metric =
  foldl fadd (of_int 0) (quantities t a b metric records).
Proof.
  unfold aggregate, quantities. change (of_int 0) with (metric_of ∅ metric).
  generalize (∅ : gmap string float64) as acc.
  induction records as [|r rs IH]; intros acc; [done|]. cbn [foldl]. rewrite IH.
  rewrite filter_cons. destruct (decide (in_window t a b r)) as [Hw|Hw].
  - unfold add_usage, metric_of at 1. destruct (decide (UsageRecord_Metric r = metric)) as [<-|Hm].
    + rewrite decide_True by done. cbn [fmap list_fmap foldl]. by rewrite lookup_insert_eq.
    + rewrite decide_False by tauto. by rewrite lookup_insert_ne.
  - by rewrite decide_False by tauto.
Qed.

(** The aggregate of a period has, for every metric, the floating-point sum
    of the quantities of exactly the tenant's records that overlap the
    period, taken in the iteration order of the record map. *)
Theorem GetAggregate_spec (t : string) (a b : Z) (w : World) (s : Books) :
  World_ok w →
  ∃ agg records, answer (GetAggregate t a b) w s = Ok agg ∧
    records ≡ₚ (map_to_list (Books_usage s)).*2 ∧
    ∀ metric, metric_of (UsageAggregate_Metrics agg) metric =
      foldl fadd (of_int 0) (quantities t a b metric records).
Proof.
  intros Hw. eexists _, _. split; [reflexivity|]. split.
  - apply fmap_Permutation, entries_perm, Hw.
  - intros metric. apply aggregate_metric.
Qed.

(** ** Findings *)

(** A runtime that iterates a map from its [k]-th entry on. *)
Definition rotated (k : nat) : World :=
  mkWorld (λ _, Hour) 0 (λ n, "uuid-" +:+ pretty n) 0
    (λ _ l, drop (k mod length l) l ++ take (k mod length l) l) 0 (λ _, 0) 0.

Lemma rotated_ok k : World_ok (rotated k).
Proof. intros n l. simpl. by rewrite Permutation_app_comm, take_drop. Qed.

Definition metered_plan : Plan :=
  mkPlan "metered" "Metered" "metered" "" "EUR" 0 0 0 0 1024 0 0 0 0 0 0 0 0 ∅ true 0 0.

Definition metered_store (cycle : string) : BillingStore :=
  exec (plan_Create metered_plan ;;
        sub_Create (mkSubscription "sub" "acme" "metered" SubscriptionStatusActive cycle
                      0 Hour false 0 0)) (calm 0) empty_billing.

Definition vcpu_record (id : string) (q : float64) (start end_ : Z) : UsageRecord :=
  mkUsageRecord id "acme" "instance" "i-1" MetricVCPUHours q "vCPU-hours" start end_ id ∅ 1.

Definition with_usage (records : list UsageRecord) (b : BillingStore) : Books :=
  foldl (λ s r, exec (RecordUsage r) (calm 1) s) (empty_books b) records.

(** The engine is documented as making deterministic invoices. The aggregate
    sums floats in map order, and rounding each overage up amplifies the last
    bit: the same three records bill three or four cents. *)
Definition three_records : Books :=
  with_usage [vcpu_record "a" (flit 1 10) 0 1; vcpu_record "b" (flit 2 10) 0 1;
              vcpu_record "c" (flit 27 10) 0 1] (metered_store BillingCycleMonthly).

Definition billed (w : World) (s : Books) (a b : Z) : result Z :=
  inv ← answer (GenerateInvoice false (of_int 0) "acme" a b "") w (s, no_payments);
  Ok (Invoice_TotalMinor inv).

Lemma invoice_depends_on_map_order :
  billed (rotated 0) three_records 0 1 = Ok 4 ∧ billed (rotated 1) three_records 0 1 = Ok 3.
Proof. by vm_compute. Qed.

(** A period takes every record that overlaps it, in full: usage that ends
    exactly on the boundary of two periods is billed in both. *)
Lemma boundary_usage_billed_twice :
  let s := with_usage [vcpu_record "a" (of_int 10) 0 Hour] (metered_store BillingCycleMonthly) in
  billed (calm 1) s 0 Hour = Ok 10 ∧ billed (calm 1) s Hour (2 * Hour) = Ok 10.
Proof. by vm_compute. Qed.

(** A yearly allowance scales the included hours to 8760 but not the included
    GB-months: twelve months of exactly the included storage are billed as
    eleven GB-months of overage. *)
Lemma yearly_storage_billed_as_overage :
  let s := with_usage [mkUsageRecord "a" "acme" "volume" "v-1" MetricStorageGBMonths (of_int 12)
             "GB-months" 0 Hour "a" ∅ 1] (metered_store BillingCycleYearly) in
  billed (calm 1) s 0 Hour = Ok (11 * OveragePriceStorageGBMoMinor).
Proof. by vm_compute. Qed.

(** ** Witnesses *)

Definition uuid_world (prefix : string) : World :=
  mkWorld (λ _, Hour) 0 (λ n, prefix +:+ pretty n) 0 (λ _ l, l) 0 (λ _, 0) 0.

Definition shop : Books * SimulatedPaymentProvider :=
  (with_usage [vcpu_record "a" (of_int 900) 0 1] demo_store, no_payments).

Definition bill (w : World) : go (Books * SimulatedPaymentProvider) Invoice :=
  GenerateInvoice true (of_int 20) "acme" 0 Hour "march".

Definition shop_after : Books * SimulatedPaymentProvider :=
  exec (bill (uuid_world "x")) (uuid_world "x") shop.

Definition filed : Invoice :=
  default (mkInvoice "" "" "" "" 0 0 0 InvoiceStatusDraft 0 0 0 None "" [] 0)
    (keyed_invoice (fst shop_after) "march").

Lemma filed_ex : Invoice_SubtotalMinor filed = 670 ∧ Invoice_TaxMinor filed = 134 ∧
  Invoice_TotalMinor filed = 804 ∧ Invoice_Status filed = InvoiceStatusPaid ∧
  length (Invoice_Lines filed) = 2%nat ∧
  (PaymentResult_AmountMinor <$> (map_to_list (SimulatedPaymentProvider_payments
     (snd shop_after))).*2) = [804].
Proof. by vm_compute. Qed.

Lemma uuid_world_nonempty p n : p ≠ "" → w_uuid (uuid_world p) n ≠ "".
Proof. intros Hp. simpl. destruct p; [done|discriminate]. Qed.

Lemma shop_step : books_step shop shop_after.
Proof.
  apply (step_generate shop (uuid_world "x")). intros n.
  split; [by apply uuid_world_nonempty|]. change (Books_invoices shop.1) with (∅ : gmap string Invoice).
  apply lookup_empty.
Qed.

Lemma invoices_balanced_witness :
  Books_invoices (fst shop_after) !! Invoice_ID filed = Some filed ∧
  line_sum (Invoice_Lines filed) = Invoice_SubtotalMinor filed.
Proof.
  assert (Books_invoices (fst shop_after) !! Invoice_ID filed = Some filed) as Hf by by vm_compute.
  split; [done|].
  apply (invoices_balanced shop shop_after eq_refl (rtc_once _ _ shop_step) (Invoice_ID filed)
    filed Hf).
Defined.

Lemma billed_once_per_key_witness :
  let s' := exec (on_books (invoice_UpdateStatus (Invoice_ID filed) InvoiceStatusVoid None))
              (uuid_world "y") shop_after in
  ∃ inv', answer (bill (uuid_world "z")) (uuid_world "z") s' = Ok inv' ∧
    same_invoice filed inv' ∧ exec (bill (uuid_world "z")) (uuid_world "z") s' = s'.
Proof.
  intros s'.
  apply (billed_once_per_key true true (of_int 20) (of_int 20) "acme" "acme" 0 Hour 0 Hour "march"
    (uuid_world "x") (uuid_world "z") shop s' filed).
  - discriminate.
  - intros n. split; by apply uuid_world_nonempty.
  - by vm_compute.
  - apply rtc_once, step_status.
Defined.

Lemma GenerateInvoice_spec_witness :
  ∃ inv, answer (bill (uuid_world "x")) (uuid_world "x") shop = Ok inv ∧
    fst (exec (bill (uuid_world "x")) (uuid_world "x") shop) = file_invoice inv (fst shop).
Proof.
  pose proof (GenerateInvoice_spec true (of_int 20) "acme" 0 Hour "march" (uuid_world "x") shop
    (λ n, uuid_world_nonempty "x" n ltac:(discriminate)) eq_refl) as Hs.
  assert (answer (bill (uuid_world "x")) (uuid_world "x") shop = Ok filed) as Ha by by vm_compute.
  exists filed. split; [exact Ha|]. unfold bill in Ha |- *. rewrite Ha in Hs. apply Hs.
Defined.

Lemma metering_idempotent_witness :
  let s := exec (on_books (RecordInstanceUsage "acme" "i-1" 4 8 16 0 Hour)) (uuid_world "x") shop in
  size (Books_usage (fst s)) = 4%nat ∧
  exec (on_books (RecordInstanceUsage "acme" "i-1" 64 8 16 0 Hour)) (uuid_world "y") s = s.
Proof.
  intros s. split; [by vm_compute|].
  apply (metering_idempotent "acme" "acme" "i-1" 4 64 8 8 16 16 0 Hour (uuid_world "x")
    (uuid_world "y") shop s). constructor.
Defined.

Lemma GetAggregate_spec_witness :
  ∃ agg records, answer (GetAggregate "acme" 0 Hour) (calm 0) (fst shop) = Ok agg ∧
    records ≡ₚ (map_to_list (Books_usage (fst shop))).*2 ∧
    metric_of (UsageAggregate_Metrics agg) MetricVCPUHours = of_int 900.
Proof.
  destruct (GetAggregate_spec "acme" 0 Hour (calm 0) (fst shop) (calm_ok 0))
    as (agg & records & Ha & Hp & Hm).
  exists agg, records. split_and!; [done|done|].
  vm_compute in Ha. injection Ha as <-. by vm_compute.
Defined.
