(* ===== verification/Accounts.v ===== *)
(** * Accounts: users, roles, grants, API keys and sessions

    The identity part of [internal/domain/identity] and the repositories of
    [internal/infra/memory/memory_repos.go]. The two API-key maps share their
    records, so keys live in a heap; the other repositories hand out copies. *)

From S2P Require Import Prelude Identity.

Definition ErrInvalidCredentials :=
  ErrNew "identity" "invalid username, email or password".
Definition ErrAccountDisabled := ErrNew "identity" "account is disabled".
Definition ErrUserNotFound := ErrNew "identity" "user not found".
Definition ErrUsernameExists := ErrNew "identity" "username is already registered".
Definition ErrEmailExists := ErrNew "identity" "email is already registered".
Definition ErrTokenExpired := ErrNew "identity" "access token has expired".
Definition ErrTokenInvalid := ErrNew "identity" "access token is invalid".
Definition ErrRefreshTokenInvalid := ErrNew "identity" "refresh token is invalid".
Definition ErrRefreshTokenReused := ErrNew "identity" "refresh token reuse detected".
Definition ErrTOTPInvalid := ErrNew "identity" "invalid or expired totp code".
Definition ErrTOTPAlreadyEnabled :=
  ErrNew "identity" "totp two-factor authentication is already enabled".
Definition ErrTOTPNotEnabled :=
  ErrNew "identity" "totp two-factor authentication is not enabled".
Definition ErrAPIKeyInvalid := ErrNew "identity" "invalid api key".
Definition ErrAPIKeyExpired := ErrNew "identity" "api key has expired".
Definition ErrAPIKeyRevoked := ErrNew "identity" "api key has been revoked".
Definition ErrAPIKeyNotFound := ErrNew "identity" "api key not found".
Definition ErrRoleNotFound := ErrNew "identity" "role not found".
Definition ErrPermissionNotFound := ErrNew "identity" "permission not found".

Record User : Type := mkUser {
  User_ID : string;
  User_Username : string;
  User_Email : string;
  User_PasswordHash : string;
  User_IsActive : bool;
  User_TwoFactorSecretEnc : string;
  User_TwoFactorEnabled : bool;
  User_Preferences : Details;
  User_CreatedAt : Z;
  User_UpdatedAt : Z;
  User_LastLoginAt : option Z
}.

Definition eta_User (r : User) : User :=
  mkUser (User_ID r) (User_Username r) (User_Email r) (User_PasswordHash r)
    (User_IsActive r) (User_TwoFactorSecretEnc r) (User_TwoFactorEnabled r)
    (User_Preferences r) (User_CreatedAt r) (User_UpdatedAt r) (User_LastLoginAt r).
#[export] Instance set_User_Username : Setter User_Username := ltac:(setter eta_User User_Username).
#[export] Instance set_User_Email : Setter User_Email := ltac:(setter eta_User User_Email).
#[export] Instance set_User_PasswordHash : Setter User_PasswordHash := ltac:(setter eta_User User_PasswordHash).
#[export] Instance set_User_IsActive : Setter User_IsActive := ltac:(setter eta_User User_IsActive).
#[export] Instance set_User_TwoFactorSecretEnc : Setter User_TwoFactorSecretEnc := ltac:(setter eta_User User_TwoFactorSecretEnc).
#[export] Instance set_User_TwoFactorEnabled : Setter User_TwoFactorEnabled := ltac:(setter eta_User User_TwoFactorEnabled).
#[export] Instance set_User_Preferences : Setter User_Preferences := ltac:(setter eta_User User_Preferences).
#[export] Instance set_User_UpdatedAt : Setter User_UpdatedAt := ltac:(setter eta_User User_UpdatedAt).
#[export] Instance set_User_LastLoginAt : Setter User_LastLoginAt := ltac:(setter eta_User User_LastLoginAt).

Record Permission : Type := mkPermission {
  Permission_Code : string;
  Permission_Description : string;
  Permission_Category : string
}.

Record Role : Type := mkRole {
  Role_ID : string;
  Role_Name : string;
  Role_Description : string;
  Role_IsSystem : bool;
  Role_Permissions : list Permission;
  Role_CreatedAt : Z
}.

Record UserRoleGrant : Type := mkUserRoleGrant {
  UserRoleGrant_ID : string;
  UserRoleGrant_UserID : string;
  UserRoleGrant_RoleID : string;
  UserRoleGrant_RoleName : string;
  UserRoleGrant_ScopeType : string;
  UserRoleGrant_ScopeID : option string;
  UserRoleGrant_GrantedBy : option string;
  UserRoleGrant_CreatedAt : Z
}.

Definition eta_RefreshSession (r : RefreshSession) : RefreshSession :=
  mkRefreshSession (RefreshSession_ID r) (RefreshSession_UserID r) (RefreshSession_TokenHash r)
    (RefreshSession_FamilyID r) (RefreshSession_UserAgent r) (RefreshSession_IPAddress r)
    (RefreshSession_ExpiresAt r) (RefreshSession_CreatedAt r) (RefreshSession_IsRevoked r)
    (RefreshSession_RevokedAt r) (RefreshSession_ReplacedByTokenID r).
#[export] Instance set_RefreshSession_IsRevoked : Setter RefreshSession_IsRevoked :=
  ltac:(setter eta_RefreshSession RefreshSession_IsRevoked).
#[export] Instance set_RefreshSession_RevokedAt : Setter RefreshSession_RevokedAt :=
  ltac:(setter eta_RefreshSession RefreshSession_RevokedAt).
#[export] Instance set_RefreshSession_ReplacedByTokenID : Setter RefreshSession_ReplacedByTokenID :=
  ltac:(setter eta_RefreshSession RefreshSession_ReplacedByTokenID).

Definition eta_APIKey (r : APIKey) : APIKey :=
  mkAPIKey (APIKey_ID r) (APIKey_UserID r) (APIKey_Name r) (APIKey_KeyHash r) (APIKey_Prefix r)
    (APIKey_Scopes r) (APIKey_LastUsedAt r) (APIKey_ExpiresAt r) (APIKey_CreatedAt r)
    (APIKey_IsRevoked r).
#[export] Instance set_APIKey_LastUsedAt : Setter APIKey_LastUsedAt :=
  ltac:(setter eta_APIKey APIKey_LastUsedAt).
#[export] Instance set_APIKey_IsRevoked : Setter APIKey_IsRevoked :=
  ltac:(setter eta_APIKey APIKey_IsRevoked).

(** ** The store *)

Record AccountStore : Type := mkAccountStore {
  AccountStore_users : gmap string User;
  AccountStore_roles : gmap string Role;
  AccountStore_permissions : gmap string Permission;
  AccountStore_grants : gmap string (list UserRoleGrant);
  AccountStore_keyHeap : gmap nat APIKey;
  AccountStore_keyNext : nat;
  AccountStore_apiKeys : gmap string nat;
  AccountStore_apiKeysByH : gmap string nat;
  AccountStore_sessions : gmap string RefreshSession
}.

Definition eta_AccountStore (r : AccountStore) : AccountStore :=
  mkAccountStore (AccountStore_users r) (AccountStore_roles r)
    (AccountStore_permissions r) (AccountStore_grants r) (AccountStore_keyHeap r)
    (AccountStore_keyNext r) (AccountStore_apiKeys r) (AccountStore_apiKeysByH r)
    (AccountStore_sessions r).
#[export] Instance set_AccountStore_users : Setter AccountStore_users := ltac:(setter eta_AccountStore AccountStore_users).
#[export] Instance set_AccountStore_roles : Setter AccountStore_roles := ltac:(setter eta_AccountStore AccountStore_roles).
#[export] Instance set_AccountStore_permissions : Setter AccountStore_permissions := ltac:(setter eta_AccountStore AccountStore_permissions).
#[export] Instance set_AccountStore_grants : Setter AccountStore_grants := ltac:(setter eta_AccountStore AccountStore_grants).
#[export] Instance set_AccountStore_keyHeap : Setter AccountStore_keyHeap := ltac:(setter eta_AccountStore AccountStore_keyHeap).
#[export] Instance set_AccountStore_keyNext : Setter AccountStore_keyNext := ltac:(setter eta_AccountStore AccountStore_keyNext).
#[export] Instance set_AccountStore_apiKeys : Setter AccountStore_apiKeys := ltac:(setter eta_AccountStore AccountStore_apiKeys).
#[export] Instance set_AccountStore_apiKeysByH : Setter AccountStore_apiKeysByH := ltac:(setter eta_AccountStore AccountStore_apiKeysByH).
#[export] Instance set_AccountStore_sessions : Setter AccountStore_sessions := ltac:(setter eta_AccountStore AccountStore_sessions).

Definition empty_accounts : AccountStore := mkAccountStore ∅ ∅ ∅ ∅ ∅ 0 ∅ ∅ ∅.

Definition system_permissions : list Permission := [
  mkPermission "*" "All permissions (Superadmin wildcard)" "system";
  mkPermission "instance:read" "View instances" "instance";
  mkPermission "instance:create" "Create new instances" "instance";
  mkPermission "instance:update" "Update instance specs" "instance";
  mkPermission "instance:delete" "Delete instances" "instance";
  mkPermission "instance:power" "Power control instances" "instance";
  mkPermission "instance:console" "Access instance web console" "instance";
  mkPermission "instance:files:read" "Read instance files" "instance";
  mkPermission "instance:files:write" "Write instance files" "instance";
  mkPermission "node:read" "View hypervisor nodes" "node";
  mkPermission "node:create" "Enroll new nodes" "node";
  mkPermission "node:update" "Edit node configuration" "node";
  mkPermission "node:maintenance" "Toggle node maintenance" "node";
  mkPermission "node:drain" "Drain and undrain hypervisor nodes" "node";
  mkPermission "node:evacuate" "Evacuate workloads from hypervisor nodes" "node";
  mkPermission "job:read" "View async jobs" "job";
  mkPermission "job:manage" "Cancel, retry, and manage async jobs" "job";
  mkPermission "migration:read" "View instance migrations" "compute";
  mkPermission "migration:manage" "Initiate and control instance migrations" "compute";
  mkPermission "backup:read" "View and inspect backups" "backup";
  mkPermission "backup:create" "Create backup recovery points" "backup";
  mkPermission "backup:restore" "Restore workloads from backups" "backup";
  mkPermission "backup:delete" "Delete backup recovery points" "backup";
  mkPermission "backup:manage" "Configure backup policies and disaster recovery" "backup";
  mkPermission "reconcile:manage" "Execute control plane state reconciliation" "system";
  mkPermission "keys:manage" "Rotate and revoke cryptographic credentials" "security";
  mkPermission "ipam:read" "View IP pools and subnets" "ipam";
  mkPermission "ipam:manage" "Manage IP pools and port forwards" "ipam";
  mkPermission "storage:read" "View storage pools" "storage";
  mkPermission "storage:manage" "Manage storage pools" "storage";
  mkPermission "volume:read" "View volumes and snapshots" "storage";
  mkPermission "volume:create" "Create storage volumes" "storage";
  mkPermission "volume:update" "Update or resize volumes" "storage";
  mkPermission "volume:delete" "Delete storage volumes" "storage";
  mkPermission "volume:attach" "Attach volume to instance" "storage";
  mkPermission "volume:detach" "Detach volume from instance" "storage";
  mkPermission "volume:snapshot" "Create volume snapshots" "storage";
  mkPermission "volume:restore" "Restore volume from snapshot" "storage";
  mkPermission "monitoring:read" "View telemetry metrics and alerts" "monitoring";
  mkPermission "monitoring:manage" "Configure alert thresholds and acknowledge alerts" "monitoring";
  mkPermission "user:read" "View user accounts" "user";
  mkPermission "user:manage" "Manage users and roles" "user";
  mkPermission "audit:read" "View security audit trails" "audit";
  mkPermission "audit:manage" "Configure SIEM destinations and export compliance reports" "audit";
  mkPermission "template:read" "View OS templates" "template";
  mkPermission "template:create" "Create new OS templates" "template";
  mkPermission "template:update" "Update OS template metadata" "template";
  mkPermission "template:delete" "Delete or deprecate OS templates" "template";
  mkPermission "image:read" "View image artifacts and node cache availability" "image";
  mkPermission "image:manage" "Register, sync, verify, and retire image artifacts" "image";
  mkPermission "billing:read" "View plans, subscriptions, quotas, and invoices" "billing";
  mkPermission "billing:manage" "Subscribe, change plans, and manage billing" "billing";
  mkPermission "billing:plans" "Create and update system billing plans" "billing";
  mkPermission "billing:admin" "Manage cross-tenant subscriptions, usage, and invoices" "billing";
  mkPermission "notification:read" "View user notifications and preferences" "notification";
  mkPermission "notification:manage" "Manage notifications and preferences" "notification";
  mkPermission "webhook:read" "View webhook endpoints and delivery history" "webhook";
  mkPermission "webhook:create" "Create webhook endpoints" "webhook";
  mkPermission "webhook:update" "Update webhook endpoints" "webhook";
  mkPermission "webhook:delete" "Delete webhook endpoints" "webhook";
  mkPermission "webhook:rotate" "Rotate webhook signing secret" "webhook";
  mkPermission "webhook:test" "Trigger test webhook delivery ping" "webhook" ].

Definition customer_codes : list string :=
  [ "instance:read"; "instance:create"; "instance:power"; "instance:console";
    "instance:files:read"; "instance:files:write"; "backup:read"; "backup:create";
    "backup:restore"; "volume:read"; "volume:create"; "volume:update"; "volume:delete";
    "volume:attach"; "volume:detach"; "volume:snapshot"; "volume:restore"; "storage:read";
    "monitoring:read"; "monitoring:manage"; "template:read"; "billing:read"; "billing:manage";
    "notification:read"; "notification:manage"; "webhook:read"; "webhook:create";
    "webhook:update"; "webhook:delete"; "webhook:rotate"; "webhook:test" ].

Definition operator_codes : list string :=
  [ "instance:read"; "node:read"; "node:maintenance"; "ipam:read"; "audit:read" ].

(** [*m.permissions["code"]], a dereference: a missing code would panic. *)
Definition permission_list (perms : gmap string Permission) (codes : list string) :
    result (list Permission) :=
  foldr (λ c r, match perms !! c with
                | Some p => ps ← r; Ok (p :: ps)
                | None => panic "nil pointer dereference"
                end) (Ok []) codes.

(** A role is filed under its identifier and under its name. *)
Definition file_role (r : Role) (m : gmap string Role) : gmap string Role :=
  <[Role_Name r := r]> (<[Role_ID r := r]> m).

Definition seedDefaults : go AccountStore () :=
  let perms := foldl (λ m p, <[Permission_Code p := p]> m) ∅ system_permissions in
  t1 ← time_Now;
  let superadmin := mkRole "role_superadmin" "superadmin" "Unrestricted platform administrator"
                      true system_permissions t1 in
  customer_perms ← lift (permission_list perms customer_codes);
  t2 ← time_Now;
  let customer := mkRole "role_customer" "customer" "Standard tenant / VPS owner" true
                    customer_perms t2 in
  operator_perms ← lift (permission_list perms operator_codes);
  t3 ← time_Now;
  let operator := mkRole "role_operator" "operator" "Infrastructure hypervisor operator" true
                    operator_perms t3 in
  modify (λ s, s <| AccountStore_permissions := perms |>
                 <| AccountStore_roles := file_role operator (file_role customer
                      (file_role superadmin (AccountStore_roles s))) |>).

(** ** Users *)

(** The scan of [Create]: the first conflict met decides the error. *)
Fixpoint user_conflict (u : User) (us : list User) : option error :=
  match us with
  | [] => None
  | e :: us =>
      if decide (User_Username e = User_Username u) then Some ErrUsernameExists
      else if decide (User_Email e = User_Email u) then Some ErrEmailExists
      else user_conflict u us
  end.

Definition user_Create (u : User) : go AccountStore () :=
  s ← get;
  es ← range_map (AccountStore_users s);
  match user_conflict u es.*2 with
  | Some e => fail e
  | None => modify (λ s, s <| AccountStore_users := <[User_ID u := u]> (AccountStore_users s) |>)
  end.

Definition user_GetByID (id : string) : go AccountStore User :=
  s ← get;
  match AccountStore_users s !! id with
  | Some u => mret u
  | None => fail ErrUserNotFound
  end.

Definition user_find (P : User → Prop) `{!∀ u, Decision (P u)} : go AccountStore User :=
  s ← get;
  es ← range_map (AccountStore_users s);
  match list_find (λ kv, P kv.2) es with
  | Some (_, (_, u)) => mret u
  | None => fail ErrUserNotFound
  end.

Definition user_GetByUsername (username : string) : go AccountStore User :=
  user_find (λ u, User_Username u = username).
Definition user_GetByEmail (email : string) : go AccountStore User :=
  user_find (λ u, User_Email u = email).

(** [existing, exists := r.s.users[id]; ...; existing.F = v]. *)
Definition update_user (id : string) (f : Z → User → User) : go AccountStore () :=
  u ← user_GetByID id;
  now ← time_Now;
  modify (λ s, s <| AccountStore_users := <[id := f now u]> (AccountStore_users s) |>).

Definition user_Update (u : User) : go AccountStore () :=
  update_user (User_ID u) (λ now e,
    e <| User_Username := User_Username u |> <| User_Email := User_Email u |>
      <| User_IsActive := User_IsActive u |> <| User_Preferences := User_Preferences u |>
      <| User_UpdatedAt := now |>).

Definition user_UpdatePassword (id passwordHash : string) : go AccountStore () :=
  update_user id (λ now e, e <| User_PasswordHash := passwordHash |> <| User_UpdatedAt := now |>).

Definition user_Update2FA (id : string) (enabled : bool) (secretEnc : string) :
    go AccountStore () :=
  update_user id (λ now e,
    e <| User_TwoFactorEnabled := enabled |> <| User_TwoFactorSecretEnc := secretEnc |>
      <| User_UpdatedAt := now |>).

Definition user_UpdateLastLogin (id : string) : go AccountStore () :=
  update_user id (λ now e, e <| User_LastLoginAt := Some now |>).

Definition user_Count : go AccountStore Z :=
  s ← get; mret (Z.of_nat (size (AccountStore_users s))).

(** ** Roles *)

Definition role_GetByID (id : string) : go AccountStore Role :=
  s ← get;
  match AccountStore_roles s !! id with
  | Some r => mret r
  | None => fail ErrRoleNotFound
  end.

Definition role_GetByName (name : string) : go AccountStore Role :=
  s ← get;
  es ← range_map (AccountStore_roles s);
  match list_find (λ kv, Role_Name kv.2 = name) es with
  | Some (_, (_, r)) => mret r
  | None => fail ErrRoleNotFound
  end.

(** [seen[role.ID]]: each role once, although it is filed twice. *)
Fixpoint distinct_roles (seen : gset string) (rs : list Role) : list Role :=
  match rs with
  | [] => []
  | r :: rs =>
      if decide (Role_ID r ∈ seen) then distinct_roles seen rs
      else r :: distinct_roles ({[Role_ID r]} ∪ seen) rs
  end.

Definition role_List : go AccountStore (list Role) :=
  s ← get;
  es ← range_map (AccountStore_roles s);
  mret (distinct_roles ∅ es.*2).

Definition grants_of (s : AccountStore) (userID : string) : list UserRoleGrant :=
  default [] (AccountStore_grants s !! userID).

Definition role_GetGrantsForUser (userID : string) : go AccountStore (list UserRoleGrant) :=
  s ← get; mret (grants_of s userID).

Definition role_AssignRoleToUser (grant : UserRoleGrant) : go AccountStore () :=
  modify (λ s, s <| AccountStore_grants :=
    <[UserRoleGrant_UserID grant := grants_of s (UserRoleGrant_UserID grant) ++ [grant]]>
      (AccountStore_grants s) |>).

Definition role_RevokeRoleFromUser (userID roleID scopeType : string) (scopeID : option string) :
    go AccountStore () :=
  modify (λ s, s <| AccountStore_grants :=
    <[userID := filter (λ g, ¬ (UserRoleGrant_RoleID g = roleID ∧
                                UserRoleGrant_ScopeType g = scopeType ∧
                                UserRoleGrant_ScopeID g = scopeID)) (grants_of s userID)]>
      (AccountStore_grants s) |>).

(** The loop over the grants: a superadmin grant answers at once. *)
Fixpoint collect_permissions (roles : gmap string Role) (gs : list UserRoleGrant)
    (permMap : gmap string bool) : option (gmap string bool) :=
  match gs with
  | [] => Some permMap
  | g :: gs =>
      match roles !! UserRoleGrant_RoleID g with
      | None => collect_permissions roles gs permMap
      | Some role =>
          if decide (Role_Name role = "superadmin") then None
          else collect_permissions roles gs
                 (foldl (λ m p, <[Permission_Code p := true]> m) permMap (Role_Permissions role))
      end
  end.

Definition role_GetUserPermissions (userID : string) : go AccountStore (list string) :=
  s ← get;
  match collect_permissions (AccountStore_roles s) (grants_of s userID) ∅ with
  | None => mret ["*"]
  | Some permMap => es ← range_map permMap; mret es.*1
  end.

Definition permission_GetByCode (code : string) : go AccountStore Permission :=
  s ← get;
  match AccountStore_permissions s !! code with
  | Some p => mret p
  | None => fail ErrPermissionNotFound
  end.

(** ** API keys *)

Definition key_Create (k : APIKey) : go AccountStore () :=
  modify (λ s,
    let p := AccountStore_keyNext s in
    s <| AccountStore_keyHeap := <[p := k]> (AccountStore_keyHeap s) |>
      <| AccountStore_keyNext := S p |>
      <| AccountStore_apiKeys := <[APIKey_ID k := p]> (AccountStore_apiKeys s) |>
      <| AccountStore_apiKeysByH := <[APIKey_KeyHash k := p]> (AccountStore_apiKeysByH s) |>).

Definition load_key (s : AccountStore) (p : nat) : go AccountStore APIKey :=
  match AccountStore_keyHeap s !! p with
  | Some k => mret k
  | None => lift (panic "nil pointer dereference")
  end.

Definition key_GetByID (id : string) : go AccountStore APIKey :=
  s ← get;
  match AccountStore_apiKeys s !! id with
  | Some p => load_key s p
  | None => fail ErrAPIKeyNotFound
  end.

Definition key_GetByKeyHash (keyHash : string) : go AccountStore APIKey :=
  s ← get;
  match AccountStore_apiKeysByH s !! keyHash with
  | Some p => load_key s p
  | None => fail ErrAPIKeyNotFound
  end.

Definition key_ListByUser (userID : string) : go AccountStore (list APIKey) :=
  s ← get;
  es ← range_map (AccountStore_apiKeys s);
  mret (filter (λ k, APIKey_UserID k = userID) (omap (λ p, AccountStore_keyHeap s !! p) es.*2)).

Definition update_key (id : string) (f : APIKey → APIKey) : go AccountStore () :=
  s ← get;
  match AccountStore_apiKeys s !! id with
  | None => fail ErrAPIKeyNotFound
  | Some p =>
      k ← load_key s p;
      put (s <| AccountStore_keyHeap := <[p := f k]> (AccountStore_keyHeap s) |>)
  end.

Definition key_UpdateLastUsed (id : string) : go AccountStore () :=
  key_GetByID id ;;
  now ← time_Now;
  update_key id (λ k, k <| APIKey_LastUsedAt := Some now |>).

Definition key_Revoke (id : string) : go AccountStore () :=
  update_key id (λ k, k <| APIKey_IsRevoked := true |>).

(** ** Sessions *)

Definition session_Create (session : RefreshSession) : go AccountStore () :=
  modify (λ s, s <| AccountStore_sessions :=
    <[RefreshSession_TokenHash session := session]> (AccountStore_sessions s) |>).

Definition session_GetByTokenHash (tokenHash : string) : go AccountStore RefreshSession :=
  s ← get;
  match AccountStore_sessions s !! tokenHash with
  | Some x => mret x
  | None => fail ErrRefreshTokenInvalid
  end.

Definition revoked_at (now : Z) (x : RefreshSession) : RefreshSession :=
  x <| RefreshSession_IsRevoked := true |> <| RefreshSession_RevokedAt := Some now |>.

Definition session_Revoke (id : string) (replacedByID : option string) : go AccountStore () :=
  now ← time_Now;
  s ← get;
  es ← range_map (AccountStore_sessions s);
  match list_find (λ kv, RefreshSession_ID kv.2 = id) es with
  | Some (_, (k, x)) =>
      modify (λ s, s <| AccountStore_sessions :=
        <[k := ((revoked_at now x) <| RefreshSession_ReplacedByTokenID := replacedByID |>)]>
          (AccountStore_sessions s) |>)
  | None => mret ()
  end.

Definition revoke_where (P : RefreshSession → Prop) `{!∀ x, Decision (P x)} :
    go AccountStore () :=
  now ← time_Now;
  modify (λ s, s <| AccountStore_sessions :=
    (λ x, if decide (P x) then revoked_at now x else x) <$> AccountStore_sessions s |>).

Definition session_RevokeFamily (familyID : string) : go AccountStore () :=
  revoke_where (λ x, RefreshSession_FamilyID x = familyID).
Definition session_RevokeAllForUser (userID : string) : go AccountStore () :=
  revoke_where (λ x, RefreshSession_UserID x = userID).

(** ** How the session table evolves *)

Abbreviation Sessions := (gmap string RefreshSession).

(** Sessions are filed under their hash, and identifiers are unique. *)
Record sessions_ok (m : Sessions) : Prop := {
  so_hash : ∀ h x, m !! h = Some x → RefreshSession_TokenHash x = h;
  so_id : ∀ h h' x x', m !! h = Some x → m !! h' = Some x' →
    RefreshSession_ID x = RefreshSession_ID x' → h = h'
}.

(** The same session later: it may have been revoked meanwhile. *)
Definition same_session (x x' : RefreshSession) : Prop :=
  RefreshSession_ID x' = RefreshSession_ID x ∧
  RefreshSession_UserID x' = RefreshSession_UserID x ∧
  RefreshSession_TokenHash x' = RefreshSession_TokenHash x ∧
  RefreshSession_FamilyID x' = RefreshSession_FamilyID x ∧
  (RefreshSession_IsRevoked x = true → RefreshSession_IsRevoked x' = true).

Definition live_in (m : Sessions) (family : string) : Prop :=
  ∃ h x, m !! h = Some x ∧ RefreshSession_FamilyID x = family ∧
    RefreshSession_IsRevoked x = false.

Definition unused_family (m : Sessions) (family : string) : Prop :=
  ∀ h x, m !! h = Some x → RefreshSession_FamilyID x ≠ family.

(** Sessions are never removed nor revived, and a new session either starts a
    family or continues one that has a live session. *)
Record evolves (m m' : Sessions) : Prop := {
  ev_ok : sessions_ok m';
  ev_kept : ∀ h x, m !! h = Some x → ∃ x', m' !! h = Some x' ∧ same_session x x';
  ev_new : ∀ h x', m' !! h = Some x' → m !! h = None →
    unused_family m (RefreshSession_FamilyID x') ∨ live_in m (RefreshSession_FamilyID x')
}.

Lemma same_session_refl x : same_session x x.
Proof. by split_and!. Qed.
Lemma same_session_trans x y z : same_session x y → same_session y z → same_session x z.
Proof. intros (?&?&?&?&?) (?&?&?&?&?). split_and!; try congruence. auto. Qed.

Lemma sess_evolves_refl m : sessions_ok m → evolves m m.
Proof.
  intros Hok. split; [done| |by intros; simplify_eq].
  intros h x Hx. exists x. split; [done|apply same_session_refl].
Qed.

Lemma live_before m m' f : evolves m m' → live_in m' f → unused_family m f ∨ live_in m f.
Proof.
  intros [_ Hk Hn] (h & x' & Hx' & <- & Hl).
  destruct (m !! h) as [x|] eqn:Hx; [|by eapply Hn].
  destruct (Hk h x Hx) as (y & Hy & _ & _ & _ & Hf & Hr). simplify_eq.
  right. exists h, x. split_and!; [done|done|].
  destruct (RefreshSession_IsRevoked x); [|done]. rewrite Hr in Hl; done.
Qed.

Lemma sess_evolves_trans m1 m2 m3 : evolves m1 m2 → evolves m2 m3 → evolves m1 m3.
Proof.
  intros E12 E23. pose proof E12 as [_ Hk1 Hn1]. destruct E23 as [Hok Hk2 Hn2]. split; [done|..].
  - intros h x Hx. destruct (Hk1 h x Hx) as (y & Hy & Hxy).
    destruct (Hk2 h y Hy) as (z & Hz & Hyz). eauto using same_session_trans.
  - intros h z Hz Hnone. destruct (m2 !! h) as [y|] eqn:Hy.
    + destruct (Hk2 h y Hy) as (z' & Hz' & _ & _ & _ & Hf & _). simplify_eq.
      rewrite Hf. by eapply Hn1.
    + destruct (Hn2 h z Hz Hy) as [Hu|Hl]; [|by eapply live_before].
      left. intros h' x Hx Hf. destruct (Hk1 h' x Hx) as (x2 & Hx2 & _ & _ & _ & Hf2 & _).
      eapply Hu; [done|congruence].
Qed.

Lemma evolves_insert m x :
  sessions_ok m → m !! RefreshSession_TokenHash x = None →
  (∀ h y, m !! h = Some y → RefreshSession_ID y ≠ RefreshSession_ID x) →
  unused_family m (RefreshSession_FamilyID x) ∨ live_in m (RefreshSession_FamilyID x) →
  evolves m (<[RefreshSession_TokenHash x := x]> m).
Proof.
  intros [Hh Hid] Hnew Hids Hfam. split; [split|..].
  - intros h y [[<- <-]|[_ Hy]]%lookup_insert_Some; auto.
  - intros h h' y y' [[<- <-]|[_ Hy]]%lookup_insert_Some [[<- <-]|[_ Hy']]%lookup_insert_Some Heq;
      [done|by destruct (Hids h' y')|by destruct (Hids h y)|eauto].
  - intros h y Hy. exists y. rewrite lookup_insert_ne by congruence.
    split; [done|apply same_session_refl].
  - intros h y [[<- <-]|[_ Hy]]%lookup_insert_Some Hn; [done|congruence].
Qed.

Lemma sessions_ok_same m m' :
  sessions_ok m →
  (∀ h x', m' !! h = Some x' → ∃ x, m !! h = Some x ∧ same_session x x') → sessions_ok m'.
Proof.
  intros [Hh Hid] Hback. split.
  - intros h x' Hx'. destruct (Hback h x' Hx') as (x & Hx & _ & _ & Hth & _).
    rewrite Hth. by apply Hh.
  - intros h h' x x' Hx Hx' Heq.
    destruct (Hback h x Hx) as (y & Hy & Hi & _), (Hback h' x' Hx') as (y' & Hy' & Hi' & _).
    apply (Hid h h' y y'); congruence.
Qed.

(** Replacing sessions by later versions of themselves. *)
Lemma evolves_update m m' :
  sessions_ok m → (∀ h x, m !! h = Some x → ∃ x', m' !! h = Some x' ∧ same_session x x') →
  (∀ h x', m' !! h = Some x' → ∃ x, m !! h = Some x) → evolves m m'.
Proof.
  intros Hok Hk Hb. split; [|done|].
  - apply (sessions_ok_same m); [done|]. intros h x' Hx'. destruct (Hb h x' Hx') as [x Hx].
    exists x. split; [done|]. destruct (Hk h x Hx) as (y & Hy & Hs). by simplify_eq.
  - intros h x' Hx' Hn. destruct (Hb h x' Hx'). congruence.
Qed.

(** A family all of whose sessions are revoked. *)
Definition dead_family (m : Sessions) (family : string) : Prop :=
  ¬ unused_family m family ∧ ¬ live_in m family.

Lemma evolves_dead m m' f : evolves m m' → dead_family m f → dead_family m' f.
Proof.
  intros Hev [Hused Hdead]. split.
  - intros Hun. apply Hused. intros h x Hx Hf.
    destruct (ev_kept _ _ Hev h x Hx) as (x' & Hx' & _ & _ & _ & Hf' & _).
    eapply Hun; [done|congruence].
  - intros Hl. by destruct (live_before _ _ _ Hev Hl).
Qed.

Lemma evolves_revoked m m' h x :
  evolves m m' → m !! h = Some x → RefreshSession_IsRevoked x = true →
  ∃ x', m' !! h = Some x' ∧ same_session x x' ∧ RefreshSession_IsRevoked x' = true.
Proof.
  intros Hev Hx Hr. destruct (ev_kept _ _ Hev h x Hx) as (x' & Hx' & Hs).
  exists x'. split_and!; [done|done|]. by apply Hs.
Qed.

(** ** The session repository *)

Lemma session_Revoke_evolves id rep w s :
  sessions_ok (AccountStore_sessions s) →
  evolves (AccountStore_sessions s) (AccountStore_sessions (exec (session_Revoke id rep) w s)).
Proof.
  intros Hok.
  cut (wp (session_Revoke id rep) (λ _ s' _,
    evolves (AccountStore_sessions s) (AccountStore_sessions s')) w s); [done|].
  unfold session_Revoke. wp_step.
  destruct (list_find _ _) as [[i [k x]]|] eqn:Hf; wp_step; [|by apply sess_evolves_refl].
  apply list_find_Some in Hf as (Hi & _ & _). apply list_elem_of_lookup_2 in Hi.
  unfold entries in Hi. apply list_elem_of_omap in Hi as (k' & _ & Hk).
  destruct (AccountStore_sessions s !! k') as [x'|] eqn:Hx; [|done]. simplify_eq/=.
  apply evolves_update; [done|..].
  - intros h y Hy. rewrite lookup_insert. case_decide; subst.
    + eexists. split; [done|]. simplify_eq. by split_and!.
    + exists y. split; [done|apply same_session_refl].
  - intros h y. rewrite lookup_insert. case_decide; subst; eauto.
Qed.

(** With unique identifiers it revokes the session it is given. *)
Lemma session_Revoke_revokes id rep h x w s :
  World_ok w → sessions_ok (AccountStore_sessions s) →
  AccountStore_sessions s !! h = Some x → RefreshSession_ID x = id →
  ∃ x', AccountStore_sessions (exec (session_Revoke id rep) w s) !! h = Some x' ∧
    RefreshSession_IsRevoked x' = true ∧
    RefreshSession_FamilyID x' = RefreshSession_FamilyID x.
Proof.
  intros Hw Hok Hx <-.
  cut (wp (session_Revoke (RefreshSession_ID x) rep) (λ _ s' _, ∃ x',
    AccountStore_sessions s' !! h = Some x' ∧ RefreshSession_IsRevoked x' = true ∧
    RefreshSession_FamilyID x' = RefreshSession_FamilyID x) w s); [done|].
  unfold session_Revoke. wp_step.
  destruct (list_find _ _) as [[i [k y]]|] eqn:Hf; wp_step.
  - apply find_entries_Some in Hf as [Hy Heq]; [|by auto with go]. simpl in Heq.
    assert (k = h) as -> by (by eapply so_id). simplify_eq.
    eexists. simpl. rewrite lookup_insert_eq. by split_and!.
  - eapply find_entries_None in Hf; [|by auto with go|exact Hx]. by simpl in Hf.
Qed.

Lemma revoke_where_evolves (P : RefreshSession → Prop) `{!∀ x, Decision (P x)} w s :
  sessions_ok (AccountStore_sessions s) →
  evolves (AccountStore_sessions s) (AccountStore_sessions (exec (revoke_where P) w s)).
Proof.
  intros Hok. simpl. apply evolves_update; [done|..].
  - intros h x Hx. rewrite lookup_fmap, Hx. simpl. eexists. split; [done|].
    destruct (decide (P x)); [by split_and!|apply same_session_refl].
  - intros h x'. rewrite lookup_fmap. destruct (AccountStore_sessions s !! h); [eauto|done].
Qed.

Lemma revoke_where_revokes (P : RefreshSession → Prop) `{!∀ x, Decision (P x)} w s h x :
  AccountStore_sessions (exec (revoke_where P) w s) !! h = Some x →
  ∃ y, AccountStore_sessions s !! h = Some y ∧ same_session y x ∧
    (P y → RefreshSession_IsRevoked x = true).
Proof.
  simpl. rewrite lookup_fmap. destruct (AccountStore_sessions s !! h) as [y|]; [|done]. simpl.
  intros [= <-]. exists y. split; [done|].
  destruct (decide (P y)); [by split_and!|split; [apply same_session_refl|done]].
Qed.

(** ** The API-key maps agree *)

Record keys_ok (s : AccountStore) : Prop := {
  ko_fresh : ∀ p, (AccountStore_keyNext s ≤ p)%nat → AccountStore_keyHeap s !! p = None;
  ko_ids : ∀ id p, AccountStore_apiKeys s !! id = Some p →
    ∃ k, AccountStore_keyHeap s !! p = Some k ∧ APIKey_ID k = id ∧
         AccountStore_apiKeysByH s !! APIKey_KeyHash k = Some p;
  ko_hashes : ∀ h p, AccountStore_apiKeysByH s !! h = Some p →
    ∃ k, AccountStore_keyHeap s !! p = Some k ∧ APIKey_KeyHash k = h
}.

(** The key a hash leads to. *)
Definition key_by_hash (s : AccountStore) (h : string) : option APIKey :=
  AccountStore_apiKeysByH s !! h ≫= λ p, AccountStore_keyHeap s !! p.

(** Keys are never removed nor revived. *)
Definition keys_later (s s' : AccountStore) : Prop :=
  keys_ok s' ∧ ∀ h k, key_by_hash s h = Some k →
    ∃ k', key_by_hash s' h = Some k' ∧ APIKey_ID k' = APIKey_ID k ∧
      (APIKey_IsRevoked k = true → APIKey_IsRevoked k' = true).

Lemma keys_later_refl s : keys_ok s → keys_later s s.
Proof. intros Hok. split; [done|]. intros h k Hk. by exists k. Qed.

Lemma keys_later_trans s1 s2 s3 : keys_later s1 s2 → keys_later s2 s3 → keys_later s1 s3.
Proof.
  intros [_ H12] [Hok H23]. split; [done|]. intros h k Hk.
  destruct (H12 h k Hk) as (k2 & Hk2 & Hi2 & Hr2).
  destruct (H23 h k2 Hk2) as (k3 & Hk3 & Hi3 & Hr3).
  exists k3. split_and!; [done|congruence|auto].
Qed.

Lemma key_by_hash_inv s h k :
  key_by_hash s h = Some k →
  ∃ p, AccountStore_apiKeysByH s !! h = Some p ∧ AccountStore_keyHeap s !! p = Some k.
Proof. apply bind_Some. Qed.

Lemma key_Create_later k w s :
  keys_ok s → AccountStore_apiKeys s !! APIKey_ID k = None →
  AccountStore_apiKeysByH s !! APIKey_KeyHash k = None →
  keys_later s (exec (key_Create k) w s).
Proof.
  intros Hok Hid Hh. pose proof Hok as [Hf Hi Hs].
  assert (∀ p k', AccountStore_keyHeap s !! p = Some k' → p ≠ AccountStore_keyNext s) as Hne.
  { intros p k' Hp Heq. subst p. by rewrite Hf in Hp by done. }
  split; [split|]; simpl.
  - intros p Hp. rewrite lookup_insert_ne by lia. apply Hf. lia.
  - intros id p [[<- <-]|[Hn Hp]]%lookup_insert_Some.
    { exists k. by rewrite !lookup_insert_eq. }
    destruct (Hi id p Hp) as (k' & Hk' & <- & Hk2). exists k'.
    rewrite lookup_insert_ne by (intros Heq; by eapply Hne).
    rewrite lookup_insert_ne by congruence. done.
  - intros h p [[<- <-]|[Hn Hp]]%lookup_insert_Some; [exists k; by rewrite lookup_insert_eq|].
    destruct (Hs h p Hp) as (k' & Hk' & <-). exists k'.
    by rewrite lookup_insert_ne by (intros Heq; by eapply Hne).
  - intros h k' (p & Hp & Hk')%key_by_hash_inv. exists k'. unfold key_by_hash. simpl.
    rewrite lookup_insert_ne by congruence. rewrite Hp. simpl.
    by rewrite lookup_insert_ne by (intros Heq; by eapply Hne).
Qed.

Lemma update_key_later id f w s :
  keys_ok s →
  (∀ k, APIKey_ID (f k) = APIKey_ID k ∧ APIKey_KeyHash (f k) = APIKey_KeyHash k ∧
        (APIKey_IsRevoked k = true → APIKey_IsRevoked (f k) = true)) →
  keys_later s (exec (update_key id f) w s).
Proof.
  intros Hok Hfk. pose proof Hok as [Hf Hi Hs].
  unfold exec, update_key, load_key, mbind, go_bind, get, put.
  destruct (AccountStore_apiKeys s !! id) as [p|] eqn:Hp; simpl; [|by apply keys_later_refl].
  destruct (Hi id p Hp) as (k & Hk & Hkid & Hkh). rewrite Hk. simpl.
  assert (∀ q j, AccountStore_keyHeap s !! q = Some j → ∃ j',
    <[p:=f k]> (AccountStore_keyHeap s) !! q = Some j' ∧ APIKey_ID j' = APIKey_ID j ∧
    APIKey_KeyHash j' = APIKey_KeyHash j ∧
    (APIKey_IsRevoked j = true → APIKey_IsRevoked j' = true)) as Hup.
  { intros q j Hj. rewrite lookup_insert. case_decide; subst; [|by exists j].
    simplify_eq. eexists. split; [done|]. apply Hfk. }
  split; [split|]; simpl.
  - intros q Hq. rewrite lookup_insert_ne; [by apply Hf|]. intros <-. by rewrite Hf in Hk by done.
  - intros id' q Hq. destruct (Hi id' q Hq) as (j & Hj & <- & Hjh).
    destruct (Hup q j Hj) as (j' & Hj' & Hid' & Hh' & _). exists j'. by rewrite Hh'.
  - intros h q Hq. destruct (Hs h q Hq) as (j & Hj & <-).
    destruct (Hup q j Hj) as (j' & Hj' & _ & Hh' & _). by exists j'.
  - intros h j (q & Hq & Hj)%key_by_hash_inv.
    destruct (Hup q j Hj) as (j' & Hj' & Hid' & _ & Hr'). exists j'.
    unfold key_by_hash. simpl. by rewrite Hq.
Qed.

Lemma key_Revoke_revokes id h k w s :
  keys_ok s → key_by_hash s h = Some k → APIKey_ID k = id →
  AccountStore_apiKeys s !! id = AccountStore_apiKeysByH s !! h →
  ∃ k', key_by_hash (exec (key_Revoke id) w s) h = Some k' ∧ APIKey_IsRevoked k' = true.
Proof.
  intros Hok (p & Hp & Hk)%key_by_hash_inv Hid Heq.
  unfold exec, key_Revoke, update_key, load_key, mbind, go_bind, get, put, key_by_hash.
  rewrite Heq, Hp. simpl. rewrite Hk. simpl. rewrite Hp. simpl. rewrite lookup_insert_eq. eauto.
Qed.
