(* ===== verification/Auth.v ===== *)
(** * Authentication

    [internal/app/auth/service.go] (registration, login, second factor,
    refresh-token rotation), [internal/app/apikeys/service.go],
    [internal/app/account/service.go] and the token manager
    [internal/infra/jwt/jwt.go]. The password hasher, the secret protector, the
    one-time-password manager and the JWT library are ports. *)

From S2P Require Import Prelude Identity AuditTrail Accounts.

(** ** Ports *)

Class PasswordHasher := {
  hasher_Hash : World → string → result string;
  hasher_Verify : string → string → result bool
}.

Class SecretProtector := {
  protector_Encrypt : World → string → result string;
  protector_Decrypt : string → result string
}.

Class TOTPManager := {
  totp_GenerateSecret : World → string → result (string * string);
  totp_ValidateCode : World → string → string → bool
}.

(** ** Tokens *)

Record Claims : Type := mkClaims {
  Claims_UserID : string;
  Claims_Username : string;
  Claims_Email : string;
  Claims_Roles : list string;
  Claims_Permissions : list string;
  Claims_Scopes : list string;
  Claims_TokenType : string;
  Claims_Issuer : string;
  Claims_Subject : string;
  Claims_Audience : list string;
  Claims_ExpiresAt : Z;
  Claims_NotBefore : Z;
  Claims_IssuedAt : Z;
  Claims_ID : string
}.
#[export] Instance Claims_eq_dec : EqDecision Claims.
Proof. solve_decision. Defined.

(** [golang-jwt]: signing with HS256, and parsing with an expected issuer and
    audience at a time. *)
Class JWTLibrary := {
  SignedString : string → Claims → result string;
  ParseWithClaims : string → string → string → Z → string → result Claims
}.
Definition jwt_ErrTokenExpired := ErrNew "jwt" "token is expired".

Record TokenManager : Type := mkTokenManager {
  TokenManager_secretKey : string;
  TokenManager_issuer : string;
  TokenManager_accessExpiry : Z;
  TokenManager_refreshExpiry : Z
}.

Definition NewTokenManager (secretKey : string) : result TokenManager :=
  if decide (String.length secretKey < 32)%nat
  then Err (Errorf "jwt secret key must be at least 32 characters long")
  else Ok (mkTokenManager secretKey "aurora-control-plane" (15 * Minute) (7 * 24 * Hour)).

Section tokens.
Context `{!JWTLibrary, !Digest} (tm : TokenManager).

(** [jwt.NewNumericDate] truncates to seconds. *)
Definition NewNumericDate (t : Z) : Z := t / Second * Second.

Definition GenerateAccessToken {St} (user : User) (roles permissions : list string) :
    go St string :=
  now ← time_Now;
  id ← uuid_NewString;
  let claims := mkClaims (User_ID user) (User_Username user) (User_Email user) roles permissions
    [] "access" (TokenManager_issuer tm) (User_ID user) ["aurora-api"]
    (NewNumericDate (time_Add now (TokenManager_accessExpiry tm))) (NewNumericDate now)
    (NewNumericDate now) id in
  wrap_err (λ err, Wrapf ("failed to sign access token: " +:+ Error err) err)
    (lift (SignedString (TokenManager_secretKey tm) claims)).

Definition ValidateAccessToken {St} (tokenString : string) : go St Identity.Subject :=
  now ← time_Now;
  match ParseWithClaims (TokenManager_secretKey tm) (TokenManager_issuer tm) "aurora-api" now
          tokenString with
  | Err err => fail (if errors_Is err jwt_ErrTokenExpired then ErrTokenExpired
                     else ErrTokenInvalid)
  | Ok c =>
      if decide (Claims_TokenType c ≠ "access") then fail ErrTokenInvalid
      else mret (mkSubject "user" (Claims_UserID c) (Claims_UserID c) (Claims_Username c)
                   (Claims_Email c) (Claims_Roles c) (Claims_Permissions c) (Claims_Scopes c) ∅)
  end.

Definition HashRefreshToken (plaintextToken : string) : string := sha256_hex plaintextToken.

(** [random] is the text of the 32 random bytes read, or the error. *)
Definition GenerateRefreshToken {St} (random : result string) : go St (string * string) :=
  plaintext ← wrap_err (λ err, Wrapf ("failed to generate random token: " +:+ Error err) err)
                (lift random);
  mret (plaintext, HashRefreshToken plaintext).
End tokens.

(** ** Requests and results *)

Record RegisterRequest : Type := mkRegisterRequest {
  RegisterRequest_Username : string;
  RegisterRequest_Email : string;
  RegisterRequest_Password : string;
  RegisterRequest_IPAddress : string;
  RegisterRequest_UserAgent : string
}.

Record LoginRequest : Type := mkLoginRequest {
  LoginRequest_UsernameOrEmail : string;
  LoginRequest_Password : string;
  LoginRequest_IPAddress : string;
  LoginRequest_UserAgent : string
}.

Record TokenPair : Type := mkTokenPair {
  TokenPair_AccessToken : string;
  TokenPair_RefreshToken : string;
  TokenPair_TokenType : string;
  TokenPair_ExpiresIn : Z
}.

Record UserSummary : Type := mkUserSummary {
  UserSummary_ID : string;
  UserSummary_Username : string;
  UserSummary_Email : string;
  UserSummary_Roles : list string;
  UserSummary_Permissions : list string;
  UserSummary_TwoFactorEnabled : bool
}.

Record LoginResult : Type := mkLoginResult {
  LoginResult_Requires2FA : bool;
  LoginResult_ChallengeTemp : string;
  LoginResult_Tokens : option TokenPair;
  LoginResult_User : option UserSummary
}.

Record CreateAPIKeyRequest : Type := mkCreateAPIKeyRequest {
  CreateAPIKeyRequest_Name : string;
  CreateAPIKeyRequest_Scopes : list string;
  CreateAPIKeyRequest_ExpiresAt : option Z
}.

Section service.
Context {A : Type} `{!AuditRepository A, !JWTLibrary, !Digest, !PasswordHasher, !SecretProtector,
  !TOTPManager} (tm : TokenManager).

Abbreviation State := (AccountStore * A)%type.

Definition auth_audit (actor : option string) (ip ua action rtype : string)
    (rid : option string) (code : Z) (det : option Prelude.Details) : go State () :=
  now ← time_Now;
  ignore (zoom snd (λ a s, (fst s, a)) (Record_
    (mkAuditLog 0 actor ip ua action rtype rid "" code det "" "" "" now))).

(** ** Registration and login *)

Definition Register (req : RegisterRequest) : go State User :=
  if decide (String.length (RegisterRequest_Password req) < 8)%nat
  then fail (Errorf "password must be at least 8 characters long")
  else
    hash ← wrap_err (λ err, Wrapf ("failed to hash password: " +:+ Error err) err)
             (h ← reading (λ w, hasher_Hash w (RegisterRequest_Password req)); lift h);
    userCount ← on_store user_Count;
    let isFirstUser := bool_decide (userCount = 0) in
    id ← uuid_NewString;
    t1 ← time_Now;
    t2 ← time_Now;
    let user := mkUser id (RegisterRequest_Username req) (RegisterRequest_Email req) hash true ""
                  false ∅ t1 t2 None in
    on_store (user_Create user) ;;
    let roleName := if isFirstUser then "superadmin" else "customer" in
    role ← try (on_store (role_GetByName roleName));
    match role with
    | Ok role =>
        gid ← uuid_NewString;
        t3 ← time_Now;
        ignore (on_store (role_AssignRoleToUser
          (mkUserRoleGrant gid id (Role_ID role) (Role_Name role) "global" None None t3)))
    | Err _ => mret ()
    end ;;
    auth_audit (Some id) (RegisterRequest_IPAddress req) (RegisterRequest_UserAgent req)
      "auth.register" "user" (Some id) 201
      (Some (details [("username", AnyStr (User_Username user)); ("role", AnyStr roleName)])) ;;
    mret user.

(** The loop over the grants of [getUserRolesAndPermissions]. *)
Fixpoint role_names (grants : list UserRoleGrant) : go State (list string) :=
  match grants with
  | [] => mret []
  | g :: gs =>
      here ← (if decide (UserRoleGrant_RoleName g ≠ "") then mret [UserRoleGrant_RoleName g]
              else if decide (UserRoleGrant_RoleID g ≠ "") then
                role ← try (on_store (role_GetByID (UserRoleGrant_RoleID g)));
                mret (match role with Ok r => [Role_Name r] | Err _ => [] end)
              else mret []);
      rest ← role_names gs;
      mret (here ++ rest)
  end.

Definition getUserRolesAndPermissions (userID : string) :
    go State (list string * list string) :=
  grants ← on_store (role_GetGrantsForUser userID);
  roleNames ← role_names grants;
  perms ← on_store (role_GetUserPermissions userID);
  mret (roleNames, perms).

Definition new_session (id : string) (user : User) (hash family ip ua : string)
    (t1 t2 : Z) : RefreshSession :=
  mkRefreshSession id (User_ID user) hash family ua ip (time_Add t1 (7 * 24 * Hour)) t2 false
    None None.

Definition issueTokensAndRecordSession (random : result string) (user : User)
    (ipAddress userAgent familyID : string) : go State TokenPair :=
  '(roles, perms) ← getUserRolesAndPermissions (User_ID user);
  accessToken ← wrap_err (λ err, Wrapf ("failed to generate access token: " +:+ Error err) err)
                  (GenerateAccessToken tm user roles perms);
  '(plaintextRefresh, refreshHash) ←
     wrap_err (λ err, Wrapf ("failed to generate refresh token: " +:+ Error err) err)
       (GenerateRefreshToken random);
  id ← uuid_NewString;
  t1 ← time_Now;
  t2 ← time_Now;
  wrap_err (λ err, Wrapf ("failed to persist refresh session: " +:+ Error err) err)
    (on_store (session_Create
       (new_session id user refreshHash familyID ipAddress userAgent t1 t2))) ;;
  mret (mkTokenPair accessToken plaintextRefresh "Bearer" 900).

(** The common end of [Login] and [VerifyTOTP]: [familyID] is a new
    identifier. *)
Definition complete_login (random : result string) (user : User)
    (ipAddress userAgent action : string) : go State LoginResult :=
  family ← uuid_NewString;
  tokens ← issueTokensAndRecordSession random user ipAddress userAgent family;
  '(roles, perms) ← getUserRolesAndPermissions (User_ID user);
  ignore (on_store (user_UpdateLastLogin (User_ID user))) ;;
  auth_audit (Some (User_ID user)) ipAddress userAgent action "user" (Some (User_ID user)) 200
    None ;;
  mret (mkLoginResult false "" (Some tokens)
    (Some (mkUserSummary (User_ID user) (User_Username user) (User_Email user) roles perms
             (User_TwoFactorEnabled user)))).

Definition Login (random : result string) (req : LoginRequest) : go State LoginResult :=
  r1 ← try (on_store (user_GetByUsername (LoginRequest_UsernameOrEmail req)));
  found ← match r1 with
          | Ok u => mret (Ok u)
          | Err _ => try (on_store (user_GetByEmail (LoginRequest_UsernameOrEmail req)))
          end;
  match found with
  | Err _ =>
      auth_audit None (LoginRequest_IPAddress req) (LoginRequest_UserAgent req)
        "auth.login.failed" "" None 401
        (Some (details [("identifier", AnyStr (LoginRequest_UsernameOrEmail req));
                        ("reason", AnyStr "user_not_found")])) ;;
      fail ErrInvalidCredentials
  | Ok user =>
      if negb (User_IsActive user) then fail ErrAccountDisabled
      else
        match hasher_Verify (LoginRequest_Password req) (User_PasswordHash user) with
        | Ok true =>
            if User_TwoFactorEnabled user then
              challengeToken ←
                wrap_err (λ err, Wrapf ("failed to generate 2fa challenge token: "
                                        +:+ Error err) err)
                  (GenerateAccessToken tm user ["2fa_challenge"] []);
              mret (mkLoginResult true challengeToken None None)
            else
              complete_login random user (LoginRequest_IPAddress req)
                (LoginRequest_UserAgent req) "auth.login.success"
        | _ =>
            auth_audit (Some (User_ID user)) (LoginRequest_IPAddress req)
              (LoginRequest_UserAgent req) "auth.login.failed" "" None 401
              (Some (details [("reason", AnyStr "invalid_password")])) ;;
            fail ErrInvalidCredentials
        end
  end.

Definition VerifyTOTP (random : result string)
    (challengeToken code ipAddress userAgent : string) : go State LoginResult :=
  subject ← wrap_err (λ _, ErrTokenInvalid) (ValidateAccessToken tm challengeToken);
  user ← wrap_err (λ _, ErrUserNotFound) (on_store (user_GetByID (Subject_UserID subject)));
  if decide (User_TwoFactorEnabled user = false ∨ User_TwoFactorSecretEnc user = "")
  then fail ErrTOTPNotEnabled
  else
    decryptedSecret ←
      wrap_err (λ err, Wrapf ("failed to decrypt totp secret: " +:+ Error err) err)
        (lift (protector_Decrypt (User_TwoFactorSecretEnc user)));
    ok ← reading (λ w, totp_ValidateCode w decryptedSecret code);
    if negb ok then
      auth_audit (Some (User_ID user)) ipAddress userAgent "auth.2fa.failed" "" None 401 None ;;
      fail ErrTOTPInvalid
    else complete_login random user ipAddress userAgent "auth.login.2fa_success".

(** ** Refresh-token rotation *)

(** The reads and checks of [RefreshSession], up to the rotation. *)
Definition refresh_check (plaintextRefreshToken ipAddress userAgent : string) :
    go State (RefreshSession * User) :=
  session ← wrap_err (λ _, ErrRefreshTokenInvalid)
    (on_store (session_GetByTokenHash (HashRefreshToken plaintextRefreshToken)));
  if RefreshSession_IsRevoked session then
    ignore (on_store (session_RevokeFamily (RefreshSession_FamilyID session))) ;;
    auth_audit (Some (RefreshSession_UserID session)) ipAddress userAgent
      "auth.refresh.reuse_detected" "session" (Some (RefreshSession_ID session)) 401
      (Some (details [("familyId", AnyStr (RefreshSession_FamilyID session))])) ;;
    fail ErrRefreshTokenReused
  else
    now ← time_Now;
    if decide (RefreshSession_ExpiresAt session < now) then fail ErrRefreshTokenInvalid
    else
      user ← wrap_err (λ _, ErrAccountDisabled)
               (on_store (user_GetByID (RefreshSession_UserID session)));
      if negb (User_IsActive user) then fail ErrAccountDisabled else mret (session, user).

(** The writes: the new session is created, then the old one is revoked. *)
Definition refresh_rotate (random : result string) (session : RefreshSession) (user : User)
    (ipAddress userAgent : string) : go State TokenPair :=
  '(newPlaintext, newHash) ← GenerateRefreshToken random;
  newSessionID ← uuid_NewString;
  t1 ← time_Now;
  t2 ← time_Now;
  wrap_err (λ err, Wrapf ("failed to create rotated session: " +:+ Error err) err)
    (on_store (session_Create (new_session newSessionID user newHash
       (RefreshSession_FamilyID session) ipAddress userAgent t1 t2))) ;;
  ignore (on_store (session_Revoke (RefreshSession_ID session) (Some newSessionID))) ;;
  '(roles, perms) ← getUserRolesAndPermissions (User_ID user);
  accessToken ← GenerateAccessToken tm user roles perms;
  mret (mkTokenPair accessToken newPlaintext "Bearer" 900).

Definition RefreshSession (random : result string)
    (plaintextRefreshToken ipAddress userAgent : string) : go State TokenPair :=
  '(session, user) ← refresh_check plaintextRefreshToken ipAddress userAgent;
  refresh_rotate random session user ipAddress userAgent.

Definition Logout (plaintextRefreshToken : string) : go State () :=
  r ← try (on_store (session_GetByTokenHash (HashRefreshToken plaintextRefreshToken)));
  match r with
  | Err _ => mret ()
  | Ok session =>
      ignore (on_store (session_Revoke (RefreshSession_ID session) None)) ;;
      auth_audit (Some (RefreshSession_UserID session)) "" "" "auth.logout" "session"
        (Some (RefreshSession_ID session)) 200 None
  end.

(** ** API keys *)

(** [random] is the hexadecimal text of the 32 random bytes, or the error. *)
Definition CreateAPIKey (random : result string) (userID : string)
    (req : CreateAPIKeyRequest) : go State (APIKey * string) :=
  if decide (CreateAPIKeyRequest_Name req = "")
  then fail (Errorf "api key name is required")
  else
    user ← wrap_err (λ _, ErrUserNotFound) (on_store (user_GetByID userID));
    randomStr ← wrap_err (λ err, Wrapf ("failed to generate random key: " +:+ Error err) err)
                  (lift random);
    let plaintextKey := "aur_live_" +:+ randomStr in
    let prefix := "aur_live_" +:+ String.substring 0 6 randomStr +:+ "..." in
    id ← uuid_NewString;
    now ← time_Now;
    let apiKey := mkAPIKey id (User_ID user) (CreateAPIKeyRequest_Name req)
      (sha256_hex plaintextKey) prefix (CreateAPIKeyRequest_Scopes req) None
      (CreateAPIKeyRequest_ExpiresAt req) now false in
    wrap_err (λ err, Wrapf ("failed to save api key: " +:+ Error err) err)
      (on_store (key_Create apiKey)) ;;
    auth_audit (Some userID) "" "" "apikey.created" "apikey" (Some id) 201
      (Some (details [("name", AnyStr (APIKey_Name apiKey)); ("prefix", AnyStr prefix);
                      ("scopes", AnyStrs (APIKey_Scopes apiKey))])) ;;
    mret (apiKey, plaintextKey).

Definition ListAPIKeys (userID : string) : go State (list APIKey) :=
  on_store (key_ListByUser userID).

Definition RevokeAPIKey (userID keyID : string) : go State () :=
  key ← wrap_err (λ _, ErrAPIKeyNotFound) (on_store (key_GetByID keyID));
  if decide (APIKey_UserID key ≠ userID) then fail ErrResourceForbidden
  else
    on_store (key_Revoke keyID) ;;
    auth_audit (Some userID) "" "" "apikey.revoked" "apikey" (Some keyID) 200 None.

(** The checks; the goroutine that then stamps the last use is
    [touch_key]. *)
Definition AuthenticateAPIKey (plaintextKey : string) : go State Identity.Subject :=
  apiKey ← wrap_err (λ _, ErrAPIKeyInvalid)
             (on_store (key_GetByKeyHash (sha256_hex plaintextKey)));
  valid ← APIKey_IsValid apiKey;
  if negb valid then
    if APIKey_IsRevoked apiKey then fail ErrAPIKeyRevoked else fail ErrAPIKeyExpired
  else
    user ← wrap_err (λ _, ErrAccountDisabled) (on_store (user_GetByID (APIKey_UserID apiKey)));
    if negb (User_IsActive user) then fail ErrAccountDisabled
    else
      perms ← on_store (role_GetUserPermissions (User_ID user));
      mret (mkSubject "api_key" (APIKey_ID apiKey) (User_ID user) (User_Username user)
              (User_Email user) [] perms (APIKey_Scopes apiKey) ∅).

Definition touch_key (id : string) : go State () :=
  ignore (on_store (key_UpdateLastUsed id)).

(** ** Second factor *)

Definition Setup2FA (userID : string) : go State (string * string) :=
  user ← wrap_err (λ _, ErrUserNotFound) (on_store (user_GetByID userID));
  if User_TwoFactorEnabled user then fail ErrTOTPAlreadyEnabled
  else
    wrap_err (λ err, Wrapf ("failed to generate totp secret: " +:+ Error err) err)
      (r ← reading (λ w, totp_GenerateSecret w (User_Email user)); lift r).

Definition Enable2FA (userID secret code : string) : go State () :=
  user ← wrap_err (λ _, ErrUserNotFound) (on_store (user_GetByID userID));
  if User_TwoFactorEnabled user then fail ErrTOTPAlreadyEnabled
  else
    ok ← reading (λ w, totp_ValidateCode w secret code);
    if negb ok then fail ErrTOTPInvalid
    else
      encryptedSecret ←
        wrap_err (λ err, Wrapf ("failed to encrypt totp secret: " +:+ Error err) err)
          (r ← reading (λ w, protector_Encrypt w secret); lift r);
      wrap_err (λ err, Wrapf ("failed to update user 2fa status: " +:+ Error err) err)
        (on_store (user_Update2FA userID true encryptedSecret)) ;;
      auth_audit (Some userID) "" "" "auth.2fa.enabled" "user" (Some userID) 200 None.

Definition Disable2FA (userID password code : string) : go State () :=
  user ← wrap_err (λ _, ErrUserNotFound) (on_store (user_GetByID userID));
  if negb (User_TwoFactorEnabled user) then fail ErrTOTPNotEnabled
  else
    match hasher_Verify password (User_PasswordHash user) with
    | Ok true =>
        decryptedSecret ←
          wrap_err (λ err, Wrapf ("failed to decrypt totp secret: " +:+ Error err) err)
            (lift (protector_Decrypt (User_TwoFactorSecretEnc user)));
        ok ← reading (λ w, totp_ValidateCode w decryptedSecret code);
        if negb ok then fail ErrTOTPInvalid
        else
          wrap_err (λ err, Wrapf ("failed to disable user 2fa: " +:+ Error err) err)
            (on_store (user_Update2FA userID false "")) ;;
          auth_audit (Some userID) "" "" "auth.2fa.disabled" "user" (Some userID) 200 None
    | _ => fail ErrInvalidCredentials
    end.

(** ** Methods that write nothing *)

Lemma user_GetByID_quiet id : quiet (user_GetByID id).
Proof. unfold user_GetByID. quiet. Qed.
Lemma user_find_quiet (P : User → Prop) `{!∀ u, Decision (P u)} : quiet (user_find P).
Proof. unfold user_find. quiet. Qed.
Lemma session_lookup_quiet h : quiet (session_GetByTokenHash h).
Proof. unfold session_GetByTokenHash. quiet. Qed.
Lemma role_names_quiet gs : quiet (role_names gs).
Proof. induction gs as [|g gs IH]; cbn [role_names]; [quiet|]. unfold role_GetByID. quiet. Qed.
Lemma getUserRolesAndPermissions_quiet id : quiet (getUserRolesAndPermissions id).
Proof.
  unfold getUserRolesAndPermissions, role_GetGrantsForUser, role_GetUserPermissions.
  pose proof role_names_quiet. quiet.
Qed.
Lemma GenerateAccessToken_quiet {St} user roles perms :
  quiet (GenerateAccessToken (St := St) tm user roles perms).
Proof. unfold GenerateAccessToken. quiet. Qed.
Lemma ValidateAccessToken_quiet {St} tok : quiet (ValidateAccessToken (St := St) tm tok).
Proof. unfold ValidateAccessToken. quiet. Qed.

Lemma wp_auth_audit actor ip ua action rtype rid code det
    (Q : result () → State → World → Prop) w r a :
  (∀ a' w', Q (Ok ()) (r, a') w') →
  wp (auth_audit actor ip ua action rtype rid code det) Q w (r, a).
Proof.
  intros HQ. unfold auth_audit. wp_step. unfold wp.
  destruct (Record_ _ _ _) as [[x a'] w']. apply HQ.
Qed.

(** ** Calls and the session table *)

Definition sess (s : State) : Sessions := AccountStore_sessions (fst s).

(** What [uuid] and the random source promise: generated identifiers and
    tokens are not in use. *)
Definition fresh_for (w : World) (m : Sessions) (random : result string) : Prop :=
  (∀ n h x, m !! h = Some x →
     RefreshSession_ID x ≠ w_uuid w n ∧ RefreshSession_FamilyID x ≠ w_uuid w n) ∧
  (∀ r, random = Ok r → m !! HashRefreshToken r = None).

Lemma fresh_same w w' m random : same_oracles w w' → fresh_for w m random → fresh_for w' m random.
Proof. intros (_ & Hu & _ & _). unfold fresh_for. by rewrite Hu. Qed.

Lemma session_Create_evolves x w (s : State) :
  sessions_ok (sess s) → sess s !! RefreshSession_TokenHash x = None →
  (∀ h y, sess s !! h = Some y → RefreshSession_ID y ≠ RefreshSession_ID x) →
  unused_family (sess s) (RefreshSession_FamilyID x) ∨
    live_in (sess s) (RefreshSession_FamilyID x) →
  evolves (sess s) (sess (exec (on_store (session_Create x)) w s)).
Proof. destruct s as [r a]. unfold sess. simpl. apply evolves_insert. Qed.

Lemma issueTokens_evolves random user ip ua family w (s : State) :
  sessions_ok (sess s) → fresh_for w (sess s) random → unused_family (sess s) family →
  wp (issueTokensAndRecordSession random user ip ua family) (λ _ s' _,
    evolves (sess s) (sess s')) w s.
Proof.
  intros Hok Hfr Hfam. unfold issueTokensAndRecordSession. rewrite wp_bind.
  apply wp_quiet; [apply getUserRolesAndPermissions_quiet|]. intros [[roles perms]|e] w1 Hw1;
    [|by apply sess_evolves_refl].
  rewrite wp_bind. apply wp_quiet; [apply quiet_wrap, GenerateAccessToken_quiet|].
  intros [tok|e] w2 Hw2; [|by apply sess_evolves_refl].
  unfold GenerateRefreshToken. wp_step. destruct random as [r|e]; [|by apply sess_evolves_refl].
  wp_step. pose proof (fresh_same _ _ _ _ (same_oracles_trans _ _ _ Hw1 Hw2) Hfr) as [Hids Hh].
  destruct s as [st a]. rewrite wp_on_store. unfold session_Create. wp_step.
  apply (evolves_insert _ (new_session _ user _ family ip ua _ _)); [done|by apply Hh| |by left].
  intros h y Hy. by eapply Hids.
Qed.

Lemma complete_login_evolves random user ip ua action w (s : State) :
  sessions_ok (sess s) → fresh_for w (sess s) random →
  wp (complete_login random user ip ua action) (λ _ s' _, evolves (sess s) (sess s')) w s.
Proof.
  intros Hok Hfr. unfold complete_login. wp_step.
  eapply wp_mono; [apply issueTokens_evolves; [done|by apply (fresh_same w)|]|].
  { intros h x Hx. by eapply Hfr. }
  intros [tokens|e] [st a] w1 Hev; [|done]. rewrite wp_bind.
  apply wp_quiet; [apply getUserRolesAndPermissions_quiet|]. intros [[roles perms]|e] w2 _; [|done].
  wp_step. rewrite wp_on_store.
  assert (wp (user_UpdateLastLogin (User_ID user)) (λ _ st' _,
    AccountStore_sessions st' = AccountStore_sessions st) w2 st) as Hul.
  { unfold user_UpdateLastLogin, update_user, user_GetByID. wp_step.
    destruct (AccountStore_users st !! User_ID user); by wp_step. }
  eapply wp_mono; [exact Hul|]. intros r st' w3 Hs. wp_step. apply wp_auth_audit. intros a' w4. wp_step.
  unfold sess in *. simpl in *. by rewrite Hs.
Qed.

Lemma wp_auth_audit_sess actor ip ua action rtype rid code det {X} (k : go State X)
    (R : Sessions → Prop) w (s : State) :
  (∀ a' w', wp k (λ _ s' _, R (sess s')) w' (fst s, a')) →
  wp (auth_audit actor ip ua action rtype rid code det ;; k) (λ _ s' _, R (sess s')) w s.
Proof. intros Hk. destruct s as [st a]. wp_step. apply wp_auth_audit. intros. apply Hk. Qed.

Lemma Login_evolves random req w (s : State) :
  sessions_ok (sess s) → fresh_for w (sess s) random →
  evolves (sess s) (sess (exec (Login random req) w s)).
Proof.
  intros Hok Hfr. cut (wp (Login random req) (λ _ s' _, evolves (sess s) (sess s')) w s); [done|].
  unfold Login. rewrite wp_bind.
  apply wp_quiet; [apply quiet_try, quiet_on_store, user_find_quiet|]. intros r1 w1 Hw1.
  destruct r1 as [r1|e]; [|by apply sess_evolves_refl]. rewrite wp_bind.
  apply wp_quiet.
  { destruct r1; [apply quiet_ret|apply quiet_try, quiet_on_store, user_find_quiet]. }
  intros [[user|e]|e] w2 Hw2; [|apply wp_auth_audit_sess; intros; by apply sess_evolves_refl|
    by apply sess_evolves_refl].
  destruct (negb (User_IsActive user)); [by apply sess_evolves_refl|].
  destruct (hasher_Verify _ _) as [[]|]; try (apply wp_auth_audit_sess; intros; by apply sess_evolves_refl).
  destruct (User_TwoFactorEnabled user).
  - rewrite wp_bind. apply wp_quiet; [apply quiet_wrap, GenerateAccessToken_quiet|].
    intros [tok|e] w3 _; by apply sess_evolves_refl.
  - apply complete_login_evolves; [done|].
    exact (fresh_same _ _ _ _ (same_oracles_trans _ _ _ Hw1 Hw2) Hfr).
Qed.

Lemma VerifyTOTP_evolves random tok code ip ua w (s : State) :
  sessions_ok (sess s) → fresh_for w (sess s) random →
  evolves (sess s) (sess (exec (VerifyTOTP random tok code ip ua) w s)).
Proof.
  intros Hok Hfr.
  cut (wp (VerifyTOTP random tok code ip ua) (λ _ s' _, evolves (sess s) (sess s')) w s); [done|].
  unfold VerifyTOTP. rewrite wp_bind. apply wp_quiet; [apply quiet_wrap, ValidateAccessToken_quiet|].
  intros [sub|e] w1 Hw1; [|by apply sess_evolves_refl]. rewrite wp_bind.
  apply wp_quiet; [apply quiet_wrap, quiet_on_store, user_GetByID_quiet|].
  intros [user|e] w2 Hw2; [|by apply sess_evolves_refl].
  destruct (decide _); [by apply sess_evolves_refl|]. wp_step.
  destruct (protector_Decrypt _); [|by apply sess_evolves_refl]. wp_step.
  destruct (negb _); [apply wp_auth_audit_sess; intros; by apply sess_evolves_refl|].
  apply complete_login_evolves; [done|].
  exact (fresh_same _ _ _ _ (same_oracles_trans _ _ _ Hw1 Hw2) Hfr).
Qed.

(** The outcome of the checks of a refresh. *)
Lemma refresh_check_run tok ip ua w (s : State) :
  wp (refresh_check tok ip ua) (λ r s' w',
    match sess s !! HashRefreshToken tok with
    | None => r = Err ErrRefreshTokenInvalid ∧ sess s' = sess s
    | Some x =>
        if RefreshSession_IsRevoked x then
          r = Err ErrRefreshTokenReused ∧ ∃ w0,
          sess s' = AccountStore_sessions
            (exec (session_RevokeFamily (RefreshSession_FamilyID x)) w0 (fst s))
        else s' = s ∧ same_oracles w w' ∧
             match r with Ok (x', _) => x' = x | Err _ => True end
    end) w s.
Proof.
  unfold refresh_check, sess. destruct s as [st a]. cbn [fst]. wp_step. rewrite wp_on_store.
  unfold session_GetByTokenHash. wp_step.
  destruct (AccountStore_sessions st !! HashRefreshToken tok) as [x|] eqn:Hx; wp_step; [|done].
  destruct (RefreshSession_IsRevoked x) eqn:Hrev.
  - wp_step. rewrite wp_on_store, wp_elim. wp_step. apply wp_auth_audit. intros a' w'. wp_step.
    split; [done|]. by eexists.
  - wp_step. destruct (decide _); [by wp_step|]. wp_step. rewrite wp_on_store.
    unfold user_GetByID. wp_step. destruct (AccountStore_users st !! _) as [u|]; wp_step; [|done].
    by destruct (negb (User_IsActive u)); wp_step.
Qed.

Lemma refresh_rotate_run random x user ip ua w (s : State) :
  World_ok w → sessions_ok (sess s) → fresh_for w (sess s) random →
  sess s !! RefreshSession_TokenHash x = Some x → RefreshSession_IsRevoked x = false →
  wp (refresh_rotate random x user ip ua) (λ r s' _,
    evolves (sess s) (sess s') ∧
    match r with
    | Ok _ => ∃ x', sess s' !! RefreshSession_TokenHash x = Some x' ∧
                RefreshSession_IsRevoked x' = true
    | Err _ => True
    end) w s.
Proof.
  intros Hw Hok Hfr Hx Hlive. unfold refresh_rotate, GenerateRefreshToken. wp_step.
  destruct random as [r|e]; [|split; [by apply sess_evolves_refl|done]]. wp_step.
  destruct Hfr as [Hids Hh]. destruct s as [st a]. unfold sess in *. cbn [fst] in *.
  rewrite wp_on_store. unfold session_Create. wp_step.
  set (y := new_session _ _ _ _ _ _ _ _). set (st1 := st <| AccountStore_sessions := _ |>).
  assert (evolves (AccountStore_sessions st) (AccountStore_sessions st1)) as He1.
  { apply evolves_insert; [done|by apply Hh|intros h z Hz; by eapply Hids|].
    right. by exists (RefreshSession_TokenHash x), x. }
  assert (AccountStore_sessions st1 !! RefreshSession_TokenHash x = Some x) as Hx1.
  { unfold st1. simpl. rewrite lookup_insert_ne; [done|]. intros Heq.
    specialize (Hh r eq_refl). unfold HashRefreshToken in *. simpl in Heq. congruence. }
  rewrite wp_on_store, wp_elim. wp_step.
  pose proof (session_Revoke_evolves (RefreshSession_ID x)
    (Some (w_uuid w (w_uuids w))) (tick (tick (next_uuid w))) st1 (ev_ok _ _ He1)) as He2.
  destruct (session_Revoke_revokes (RefreshSession_ID x) (Some (w_uuid w (w_uuids w))) _ x
    (tick (tick (next_uuid w))) st1 Hw (ev_ok _ _ He1) Hx1 eq_refl) as (x' & Hx' & Hr' & _).
  apply wp_quiet; [apply getUserRolesAndPermissions_quiet|]. intros [[roles perms]|e] w3 _;
    [|split; [by eapply sess_evolves_trans|done]].
  wp_step. apply wp_quiet; [apply GenerateAccessToken_quiet|].
  intros [at_|e] w4 _; wp_step; (split; [by eapply sess_evolves_trans|]); eauto.
Qed.

Lemma RefreshSession_run random tok ip ua w (s : State) :
  World_ok w → sessions_ok (sess s) → fresh_for w (sess s) random →
  wp (RefreshSession random tok ip ua) (λ r s' _,
    evolves (sess s) (sess s') ∧
    match r with
    | Ok _ => ∃ x', sess s' !! HashRefreshToken tok = Some x' ∧
                RefreshSession_IsRevoked x' = true
    | Err _ => True
    end) w s.
Proof.
  intros Hw Hok Hfr. unfold RefreshSession. rewrite wp_bind.
  eapply wp_mono; [apply refresh_check_run|]. intros r s1 w1 Hc.
  destruct (sess s !! HashRefreshToken tok) as [x|] eqn:Hx.
  - destruct (RefreshSession_IsRevoked x) eqn:Hrev.
    + destruct Hc as (-> & w0 & Hs). split; [|done]. rewrite Hs. by apply revoke_where_evolves.
    + destruct Hc as (-> & Ho & Hr). destruct r as [[x' user]|e]; [|split; [by apply sess_evolves_refl|done]].
      subst x'. pose proof (so_hash _ Hok _ _ Hx) as Hth. rewrite <-Hth in *.
      apply refresh_rotate_run; [|done|by eapply fresh_same|done|done].
      destruct Ho as (_ & _ & Hord & _). unfold World_ok. by rewrite Hord.
  - destruct Hc as [-> Hs]. split; [|done]. rewrite Hs. by apply sess_evolves_refl.
Qed.

(** A revoked token is refused, and takes its family with it. *)
Lemma RefreshSession_reused random tok ip ua x w (s : State) :
  sess s !! HashRefreshToken tok = Some x → RefreshSession_IsRevoked x = true →
  answer (RefreshSession random tok ip ua) w s = Err ErrRefreshTokenReused ∧
  dead_family (sess (exec (RefreshSession random tok ip ua) w s)) (RefreshSession_FamilyID x).
Proof.
  intros Hx Hrev.
  cut (wp (RefreshSession random tok ip ua) (λ r s' _, r = Err ErrRefreshTokenReused ∧
    dead_family (sess s') (RefreshSession_FamilyID x)) w s); [done|].
  unfold RefreshSession. rewrite wp_bind. eapply wp_mono; [apply refresh_check_run|].
  intros r s1 w1. rewrite Hx, Hrev. intros (-> & w0 & Hs). split; [done|]. rewrite Hs. split.
  - intros Hun. apply (Hun (HashRefreshToken tok) (revoked_at (now_of w0) x)); [|done].
    simpl. unfold sess in Hx. rewrite lookup_fmap, Hx. simpl. by rewrite decide_True.
  - intros (h & y & Hy & Hf & Hl).
    apply revoke_where_revokes in Hy as (z & _ & (_ & _ & _ & Hzf & _) & Hz).
    rewrite Hz in Hl; [done|congruence].
Qed.

Lemma Logout_evolves tok w (s : State) :
  sessions_ok (sess s) → evolves (sess s) (sess (exec (Logout tok) w s)).
Proof.
  intros Hok. cut (wp (Logout tok) (λ _ s' _, evolves (sess s) (sess s')) w s); [done|].
  unfold Logout. rewrite wp_bind. apply wp_quiet; [apply quiet_try, quiet_on_store, session_lookup_quiet|].
  intros [[x|e]|e] w1 _; [|by apply sess_evolves_refl..]. destruct s as [st a]. unfold sess in *.
  cbn [fst] in *. wp_step. rewrite wp_on_store, wp_elim. wp_step. apply wp_auth_audit. intros. wp_step.
  by apply session_Revoke_evolves.
Qed.

(** One call; the calls on users, roles, keys and second factors do not touch
    the sessions. *)
Inductive auth_step (s : State) : State → Prop :=
  | as_login w random req : fresh_for w (sess s) random →
      auth_step s (exec (Login random req) w s)
  | as_totp w random tok code ip ua : fresh_for w (sess s) random →
      auth_step s (exec (VerifyTOTP random tok code ip ua) w s)
  | as_refresh w random tok ip ua : World_ok w → fresh_for w (sess s) random →
      auth_step s (exec (RefreshSession random tok ip ua) w s)
  | as_logout w tok : auth_step s (exec (Logout tok) w s)
  | as_revoke_all w id : auth_step s (exec (on_store (session_RevokeAllForUser id)) w s)
  | as_other s' : sess s' = sess s → auth_step s s'.

Lemma auth_step_evolves s s' : auth_step s s' → sessions_ok (sess s) → evolves (sess s) (sess s').
Proof.
  intros Hstep Hok. destruct Hstep as [w rnd req Hf|w rnd tok c ip ua Hf|w rnd tok ip ua Hw Hf|
    w tok|w id|s' Hs].
  - by apply Login_evolves.
  - by apply VerifyTOTP_evolves.
  - pose proof (RefreshSession_run rnd tok ip ua w s Hw Hok Hf) as [He _]. exact He.
  - by apply Logout_evolves.
  - destruct s as [st a]. by apply revoke_where_evolves.
  - rewrite Hs. by apply sess_evolves_refl.
Qed.

Lemma auth_steps_evolve s s' :
  rtc auth_step s s' → sessions_ok (sess s) → evolves (sess s) (sess s').
Proof.
  induction 1 as [s|s1 s2 s3 Hstep _ IH]; intros Hok; [by apply sess_evolves_refl|].
  pose proof (auth_step_evolves _ _ Hstep Hok) as He.
  eapply sess_evolves_trans; [exact He|]. apply IH, He.
Qed.

(** C40 A refresh token works once, and a replay burns the session, as long as
    calls are made one after the other (the check and the rotation of two
    overlapping refreshes can interleave: [concurrent_refresh_forks]): after a
    token was exchanged, presenting it again, at any later time, is answered
    [ErrRefreshTokenReused]; from then on every token of its family, the ones
    it was rotated into included, is refused as reused for ever. *)
Theorem refresh_token_single_use (random random2 random3 : result string)
    (tok tok' ip ua ip2 ua2 ip3 ua3 : string) (w w2 w3 : World) (s s2 s3 : State)
    (pair : TokenPair) (x x' : Identity.RefreshSession) :
  World_ok w → sessions_ok (sess s) → fresh_for w (sess s) random →
  answer (RefreshSession random tok ip ua) w s = Ok pair →
  rtc auth_step (exec (RefreshSession random tok ip ua) w s) s2 →
  sess s2 !! HashRefreshToken tok = Some x →
  rtc auth_step (exec (RefreshSession random2 tok ip2 ua2) w2 s2) s3 →
  sess s3 !! HashRefreshToken tok' = Some x' →
  RefreshSession_FamilyID x' = RefreshSession_FamilyID x →
  answer (RefreshSession random2 tok ip2 ua2) w2 s2 = Err ErrRefreshTokenReused ∧
  answer (RefreshSession random3 tok' ip3 ua3) w3 s3 = Err ErrRefreshTokenReused.
Proof.
  intros Hw Hok Hfr Ha H12 Hx H23 Hx' Hfam.
  pose proof (RefreshSession_run random tok ip ua w s Hw Hok Hfr) as Hr.
  rewrite wp_elim, Ha in Hr. destruct Hr as (He1 & x1 & Hx1 & Hr1).
  pose proof (auth_steps_evolve _ _ H12 (ev_ok _ _ He1)) as He2.
  destruct (evolves_revoked _ _ _ _ He2 Hx1 Hr1) as (x2 & Hx2 & _ & Hr2). simplify_eq.
  destruct (RefreshSession_reused random2 tok ip2 ua2 x w2 s2 Hx Hr2) as [Ha2 Hdead].
  split; [done|].
  assert (sessions_ok (sess (exec (RefreshSession random2 tok ip2 ua2) w2 s2))) as Hok3.
  { pose proof (refresh_check_run tok ip2 ua2 w2 s2) as Hc. rewrite Hx, Hr2 in Hc.
    cut (wp (RefreshSession random2 tok ip2 ua2) (λ _ s' _, sessions_ok (sess s')) w2 s2); [done|].
    unfold RefreshSession. rewrite wp_bind. eapply wp_mono; [exact Hc|].
    intros r s' w' (-> & w0 & Hs). rewrite Hs. eapply ev_ok, revoke_where_evolves. apply He2. }
  pose proof (evolves_dead _ _ _ (auth_steps_evolve _ _ H23 Hok3) Hdead) as [_ Hd3].
  apply (RefreshSession_reused random3 tok' ip3 ua3 x' w3 s3 Hx').
  destruct (RefreshSession_IsRevoked x') eqn:Hl; [done|]. destruct Hd3.
  by exists (HashRefreshToken tok'), x'.
Qed.

(** ** API keys *)

(** The calls on keys; a new key has a new identifier and a new hash. *)
Inductive key_step (s : State) : State → Prop :=
  | ks_create w random uid req :
      (∀ n, AccountStore_apiKeys (fst s) !! w_uuid w n = None) →
      (∀ r, random = Ok r →
         AccountStore_apiKeysByH (fst s) !! sha256_hex ("aur_live_" +:+ r) = None) →
      key_step s (exec (CreateAPIKey random uid req) w s)
  | ks_revoke w uid id : key_step s (exec (RevokeAPIKey uid id) w s)
  | ks_touch w id : key_step s (exec (touch_key id) w s)
  | ks_other s' :
      AccountStore_keyHeap (fst s') = AccountStore_keyHeap (fst s) →
      AccountStore_keyNext (fst s') = AccountStore_keyNext (fst s) →
      AccountStore_apiKeys (fst s') = AccountStore_apiKeys (fst s) →
      AccountStore_apiKeysByH (fst s') = AccountStore_apiKeysByH (fst s) → key_step s s'.

Lemma CreateAPIKey_later random uid req w (s : State) :
  keys_ok (fst s) → (∀ n, AccountStore_apiKeys (fst s) !! w_uuid w n = None) →
  (∀ r, random = Ok r →
     AccountStore_apiKeysByH (fst s) !! sha256_hex ("aur_live_" +:+ r) = None) →
  keys_later (fst s) (fst (exec (CreateAPIKey random uid req) w s)).
Proof.
  intros Hok Hid Hh.
  cut (wp (CreateAPIKey random uid req) (λ _ s' _, keys_later (fst s) (fst s')) w s); [done|].
  unfold CreateAPIKey. destruct (decide _); [by apply keys_later_refl|]. rewrite wp_bind.
  apply wp_quiet; [apply quiet_wrap, quiet_on_store, user_GetByID_quiet|].
  intros [user|e] w1 Hw1; [|by apply keys_later_refl]. wp_step.
  destruct random as [r|e]; [|by apply keys_later_refl]. wp_step.
  destruct s as [st a]. rewrite wp_on_store. unfold key_Create. wp_step.
  apply wp_auth_audit. intros a' w2. wp_step.
  destruct Hw1 as (_ & Hu & _).
  apply (key_Create_later (mkAPIKey _ _ _ _ _ _ _ _ _ _) w1); simpl; [done| |by apply Hh].
  rewrite Hu. apply Hid.
Qed.

Lemma load_key_run id w st :
  (∃ k, key_GetByID id w st = (Ok k, st, w) ∧ ∃ p, AccountStore_apiKeys st !! id = Some p ∧
     AccountStore_keyHeap st !! p = Some k) ∨ ∃ e, key_GetByID id w st = (Err e, st, w).
Proof.
  unfold key_GetByID, load_key, mbind, go_bind, get, mret, go_ret, lift.
  destruct (AccountStore_apiKeys st !! id) as [p|]; [|right; by eexists].
  destruct (AccountStore_keyHeap st !! p) as [k|] eqn:Hk; [left|right; by eexists].
  exists k. split; [done|]. by exists p.
Qed.

Lemma RevokeAPIKey_run uid id w (s : State) :
  keys_ok (fst s) →
  wp (RevokeAPIKey uid id) (λ r s' _, keys_later (fst s) (fst s') ∧
    (r = Ok () → ∃ p k, AccountStore_apiKeys (fst s) !! id = Some p ∧
       AccountStore_keyHeap (fst s) !! p = Some k ∧ APIKey_UserID k = uid ∧
       ∃ w', fst s' = exec (key_Revoke id) w' (fst s))) w s.
Proof.
  intros Hok. destruct s as [st a]. cbn [fst] in *. unfold RevokeAPIKey. wp_step.
  rewrite wp_on_store.
  destruct (load_key_run id w st) as [(k & Hrun & p & Hp & Hk)|[e Hrun]];
    rewrite (wp_run _ _ _ _ _ _ _ Hrun); wp_step; [|split; [by apply keys_later_refl|done]].
  destruct (decide _); [split; [by apply keys_later_refl|done]|]. wp_step.
  rewrite wp_on_store, wp_elim.
  assert (keys_later st (exec (key_Revoke id) w st)) as Hl by (by apply update_key_later).
  destruct (answer _ _ _) as [[]|e]; [|done]. apply wp_auth_audit. intros a' w2.
  split; [done|]. intros _. exists p, k. split_and!; [done|done|by apply dec_stable|]. by eexists.
Qed.

Lemma touch_key_later id w (s : State) :
  keys_ok (fst s) → keys_later (fst s) (fst (exec (touch_key id) w s)).
Proof.
  intros Hok. destruct s as [st a]. cbn [fst] in *.
  cut (wp (touch_key id) (λ _ s' _, keys_later st (fst s')) w (st, a)); [done|].
  unfold touch_key. rewrite wp_ignore, wp_on_store. unfold key_UpdateLastUsed. wp_step.
  destruct (load_key_run id w st) as [(k & Hrun & _)|[e Hrun]];
    rewrite (wp_run _ _ _ _ _ _ _ Hrun); wp_step; [|by apply keys_later_refl].
  rewrite wp_elim. by apply update_key_later.
Qed.

Lemma key_step_later s s' : key_step s s' → keys_ok (fst s) → keys_later (fst s) (fst s').
Proof.
  intros [w rnd uid req Hi Hh|w uid id|w id|s2 E1 E2 E3 E4] Hok.
  - by apply CreateAPIKey_later.
  - apply (RevokeAPIKey_run uid id w s Hok).
  - by apply touch_key_later.
  - destruct Hok as [Hf Hi Hh]. split; [split|]; unfold key_by_hash; rewrite ?E1, ?E2, ?E3, ?E4;
      eauto.
Qed.

Lemma key_steps_later s s' :
  rtc key_step s s' → keys_ok (fst s) → keys_later (fst s) (fst s').
Proof.
  induction 1 as [s|s1 s2 s3 Hstep _ IH]; intros Hok; [by apply keys_later_refl|].
  pose proof (key_step_later _ _ Hstep Hok) as Hl.
  eapply keys_later_trans; [exact Hl|]. apply IH, Hl.
Qed.

(** A revoked API key is refused for ever: once its owner revoked the key
    that a plaintext opens, presenting that plaintext is answered
    [ErrAPIKeyRevoked], whatever keys are created, used or revoked later. *)
Theorem revoked_key_refused (uid id plaintext : string) (w w' : World) (s s' : State)
    (k : APIKey) :
  keys_ok (fst s) → key_by_hash (fst s) (sha256_hex plaintext) = Some k → APIKey_ID k = id →
  answer (RevokeAPIKey uid id) w s = Ok () →
  rtc key_step (exec (RevokeAPIKey uid id) w s) s' →
  AccountStore_apiKeys (fst s) !! id =
    AccountStore_apiKeysByH (fst s) !! sha256_hex plaintext →
  answer (AuthenticateAPIKey plaintext) w' s' = Err ErrAPIKeyRevoked.
Proof.
  intros Hok Hk Hid Ha Hsteps Heq.
  pose proof (RevokeAPIKey_run uid id w s Hok) as Hr. rewrite wp_elim, Ha in Hr.
  destruct Hr as [Hl Hr]. destruct (Hr eq_refl) as (_ & _ & _ & _ & _ & w2 & Hs).
  destruct (key_Revoke_revokes id _ k w2 (fst s) Hok Hk Hid Heq) as (k1 & Hk1 & Hr1).
  rewrite <-Hs in Hk1. pose proof (key_steps_later _ _ Hsteps (proj1 Hl)) as [_ Hl2].
  destruct (Hl2 _ _ Hk1) as (k2 & Hk2 & _ & Hr2). specialize (Hr2 Hr1).
  apply key_by_hash_inv in Hk2 as (p & Hp & Hh). destruct s' as [st a]. cbn [fst] in *.
  cut (wp (AuthenticateAPIKey plaintext) (λ r _ _, r = Err ErrAPIKeyRevoked) w' (st, a)); [done|].
  unfold AuthenticateAPIKey, key_GetByKeyHash, load_key, APIKey_IsValid. wp_step.
  rewrite wp_on_store. wp_step. rewrite Hp. rewrite Hh. wp_step. rewrite Hr2. by wp_step.
Qed.

(** ** Login *)

Lemma user_find_run (P : User → Prop) `{!∀ u, Decision (P u)} w st :
  wp (user_find P) (λ r s' _, s' = st ∧
    match r with
    | Ok u => (∃ id, AccountStore_users st !! id = Some u) ∧ P u
    | Err _ => True
    end) w st.
Proof.
  unfold user_find. wp_step.
  destruct (list_find _ _) as [[i [k u]]|] eqn:Hf; wp_step; [|done].
  apply list_find_Some in Hf as (Hi & HP & _). split; [done|]. split; [|done].
  apply list_elem_of_lookup_2 in Hi. unfold entries in Hi.
  apply list_elem_of_omap in Hi as (k' & _ & Hk).
  destruct (AccountStore_users st !! k') as [u'|] eqn:Hu; [|done]. simplify_eq/=. eauto.
Qed.

Lemma complete_login_result random user ip ua action w (s : State) :
  wp (complete_login random user ip ua action) (λ r _ _,
    match r with Ok res => LoginResult_Requires2FA res = false | Err _ => True end) w s.
Proof.
  unfold complete_login. wp_step. rewrite wp_elim. destruct (answer _ _ _) as [tk|e]; [|done]. wp_step.
  rewrite wp_elim. destruct (answer _ _ _) as [[roles perms]|e]; [|done]. wp_step.
  rewrite wp_elim. wp_step. match goal with |- wp _ _ _ ?sz => destruct sz as [st a] end.
  apply wp_auth_audit. intros. by wp_step.
Qed.

(** Whoever gets tokens from [Login] has proved a password: a successful
    login names an active account whose user name or address is the one
    presented and whose stored hash verifies the password; tokens are issued
    directly only when the account has no second factor. *)
Theorem login_authentic (random : result string) (req : LoginRequest) (w : World) (s : State)
    (res : LoginResult) :
  answer (Login random req) w s = Ok res →
  ∃ id user, AccountStore_users (fst s) !! id = Some user ∧
    (User_Username user = LoginRequest_UsernameOrEmail req ∨
     User_Email user = LoginRequest_UsernameOrEmail req) ∧
    User_IsActive user = true ∧
    hasher_Verify (LoginRequest_Password req) (User_PasswordHash user) = Ok true ∧
    LoginResult_Requires2FA res = User_TwoFactorEnabled user ∧
    (LoginResult_Tokens res ≠ None → User_TwoFactorEnabled user = false).
Proof.
  intros Ha. destruct s as [st a].
  cut (wp (Login random req) (λ r _ _, match r with
    | Err _ => True
    | Ok res => ∃ id user, AccountStore_users st !! id = Some user ∧
        (User_Username user = LoginRequest_UsernameOrEmail req ∨
         User_Email user = LoginRequest_UsernameOrEmail req) ∧
        User_IsActive user = true ∧
        hasher_Verify (LoginRequest_Password req) (User_PasswordHash user) = Ok true ∧
        LoginResult_Requires2FA res = User_TwoFactorEnabled user ∧
        (LoginResult_Tokens res ≠ None → User_TwoFactorEnabled user = false) end) w (st, a)).
  { rewrite wp_elim, Ha. done. }
  clear Ha. unfold Login, user_GetByUsername, user_GetByEmail. wp_step. rewrite wp_on_store.
  eapply wp_mono; [apply user_find_run|]. intros r1 s1 w1 [-> Hf1]. wp_step.
  match goal with |- wp ?m ?Q ?wz ?sz => cut (wp m (λ r s' _, s' = (st, a) ∧ match r with
    | Ok (Ok u) => (∃ id, AccountStore_users st !! id = Some u) ∧
        (User_Username u = LoginRequest_UsernameOrEmail req ∨
         User_Email u = LoginRequest_UsernameOrEmail req)
    | _ => True end) wz sz) end.
  { intros Hm. eapply wp_mono; [exact Hm|]. clear Hm. intros [[user|e]|e] s2 w2 [-> Hu]; [..|done].
    2: { wp_step. apply wp_auth_audit. intros. by wp_step. }
    destruct Hu as [[id Hid] Hname]. destruct (User_IsActive user) eqn:Hact; [|by wp_step].
    cbn [negb]. destruct (hasher_Verify _ _) as [[]|e] eqn:Hv;
      try (wp_step; apply wp_auth_audit; intros; by wp_step).
    destruct (User_TwoFactorEnabled user) eqn:Hfac.
    - wp_step. rewrite wp_elim. destruct (answer _ _ _); [|done]. wp_step.
      exists id, user. rewrite Hfac. by split_and!.
    - eapply wp_mono; [apply complete_login_result|]. intros [res'|e] s3 w3 Hr; [|done].
      exists id, user. rewrite Hfac. by split_and!. }
  destruct r1 as [u|e].
  - wp_step. split; [done|]. split; [apply Hf1|left; apply Hf1].
  - wp_step. rewrite wp_on_store. eapply wp_mono; [apply user_find_run|].
    intros [u|e'] s2 w2 [-> Hf2]; (split; [done|]); [|done]. split; [apply Hf2|right; apply Hf2].
Qed.
End service.

(** ** A concrete deployment *)

Definition plain_hasher : PasswordHasher := {|
  hasher_Hash := λ _ p, Ok ("#" +:+ p);
  hasher_Verify := λ p h, Ok (bool_decide (h = "#" +:+ p))
|}.
Definition open_protector : SecretProtector := {|
  protector_Encrypt := λ _ s, Ok s;
  protector_Decrypt := λ s, Ok s
|}.
Definition fixed_totp : TOTPManager := {|
  totp_GenerateSecret := λ _ _, Ok ("secret", "url");
  totp_ValidateCode := λ _ s c, bool_decide (c = "code-" +:+ s)
|}.
(** A token library whose tokens are the user identifier. *)
Definition plain_jwt : JWTLibrary := {|
  SignedString := λ _ c, Ok (Claims_UserID c);
  ParseWithClaims := λ _ iss aud _ t,
    Ok (mkClaims t "" "" [] [] [] "access" iss t [aud] 0 0 0 "")
|}.
#[local] Existing Instances plain_hasher open_protector fixed_totp plain_jwt tagging_digest.

Definition demo_tm : TokenManager := mkTokenManager "k" "aurora-control-plane" (15 * Minute) (7 * 24 * Hour).

Abbreviation Demo := (AccountStore * AuditStore)%type.

Definition with_alice : Demo :=
  exec (on_store seedDefaults ;;
        Register (mkRegisterRequest "alice" "alice@example.com" "correct horse" "" "")) (named "a")
    (empty_accounts, empty_audit).

Definition alice_login : LoginRequest := mkLoginRequest "alice@example.com" "correct horse" "" "".

Definition logged_in : Demo := exec (Login demo_tm (Ok "t0") alice_login) (named "b") with_alice.
Definition rotated_once : Demo :=
  exec (RefreshSession demo_tm (Ok "t1") "t0" "" "") (named "c") logged_in.
Definition replayed : Demo :=
  exec (RefreshSession demo_tm (Ok "t2") "t0" "" "") (named "d") rotated_once.

(** The first account is the superadmin, the next ones are customers. *)
Lemma first_user_is_superadmin :
  map UserRoleGrant_RoleName (grants_of (fst with_alice) "a0") = ["superadmin"] ∧
  map UserRoleGrant_RoleName (grants_of (fst (exec (Register
    (mkRegisterRequest "bob" "bob@example.com" "password1" "" "")) (named "e") with_alice)) "e0")
    = ["customer"].
Proof. by vm_compute. Qed.

(** ** Findings *)

Definition live_tokens (s : Demo) : list string :=
  RefreshSession_TokenHash <$>
    filter (λ x, RefreshSession_IsRevoked x = false) (map_to_list (AccountStore_sessions (fst s))).*2.

(** [RefreshSession] checks and rotates under separate repository locks: two
    requests that present the same token at the same time both pass the check
    and both get a working token, so the replay goes undetected. *)
Lemma concurrent_refresh_forks :
  let first := answer (refresh_check "t0" "" "") (named "c") logged_in in
  let second := answer (refresh_check "t0" "" "") (named "d")
                  (exec (refresh_check "t0" "" "") (named "c") logged_in) in
  ∃ x u s2, first = Ok (x, u) ∧ second = Ok (x, u) ∧
    s2 = exec (refresh_rotate demo_tm (Ok "t2") x u "" "") (named "d")
           (exec (refresh_rotate demo_tm (Ok "t1") x u "" "") (named "c") logged_in) ∧
    live_tokens s2 ≡ₚ ["ht1"; "ht2"].
Proof.
  eexists _, _, _. split_and!; [vm_compute; reflexivity|vm_compute; reflexivity|reflexivity|].
  vm_compute. apply perm_swap || reflexivity.
Qed.

(** [VerifyTOTP] does not look at [IsActive], as [Login] and [RefreshSession]
    do: a disabled account with a challenge token still gets a session. *)
Definition disabled_2fa : Demo :=
  exec (Enable2FA "a0" "secret" "code-secret" ;;
        u ← on_store (user_GetByID "a0");
        on_store (user_Update (u <| User_IsActive := false |>))) (named "x") with_alice.

Lemma disabled_account_passes_totp :
  answer (Login demo_tm (Ok "t0") alice_login) (named "b") disabled_2fa = Err ErrAccountDisabled ∧
  ∃ res, answer (VerifyTOTP demo_tm (Ok "t0") "a0" "code-secret" "" "") (named "b") disabled_2fa
           = Ok res ∧ LoginResult_Tokens res ≠ None.
Proof.
  split; [by vm_compute|]. eexists. split; [vm_compute; reflexivity|]. discriminate.
Qed.

(** ** Witnesses *)

Lemma single_session (m : Sessions) h x : m = {[h := x]} → RefreshSession_TokenHash x = h →
  sessions_ok m.
Proof.
  intros -> Hh. split.
  - intros h' y [<- <-]%lookup_singleton_Some. done.
  - intros h1 h2 y1 y2 [<- <-]%lookup_singleton_Some [<- <-]%lookup_singleton_Some. done.
Qed.

Lemma refresh_token_single_use_witness :
  answer (RefreshSession demo_tm (Ok "t2") "t0" "" "") (named "d") rotated_once
    = Err ErrRefreshTokenReused ∧
  answer (RefreshSession demo_tm (Ok "t3") "t1" "" "") (named "e") replayed
    = Err ErrRefreshTokenReused.
Proof.
  assert (∃ x, AccountStore_sessions (fst logged_in) = {["ht0" := x]} ∧
    RefreshSession_TokenHash x = "ht0" ∧ RefreshSession_ID x = "b2" ∧
    RefreshSession_FamilyID x = "b0") as (x0 & Hm & Hh & Hid & Hf).
  { eexists. split; [vm_compute; reflexivity|by vm_compute]. }
  eapply (refresh_token_single_use demo_tm (Ok "t1") (Ok "t2") (Ok "t3") "t0" "t1" "" "" "" "" "" ""
    (named "c") (named "d") (named "e") logged_in rotated_once replayed).
  - apply named_ok.
  - exact (single_session _ _ _ Hm Hh).
  - unfold fresh_for, sess. rewrite Hm. split.
    + intros n h x [<- <-]%lookup_singleton_Some. rewrite Hid, Hf. split; discriminate.
    + intros r [= <-]. by apply lookup_singleton_ne.
  - vm_compute. reflexivity.
  - constructor.
  - vm_compute. reflexivity.
  - constructor.
  - vm_compute. reflexivity.
  - vm_compute. reflexivity.
Defined.

Definition with_key : Demo :=
  exec (CreateAPIKey (Ok "0123456789") "a0" (mkCreateAPIKeyRequest "ci" ["instance:read"] None))
    (named "k") with_alice.

Lemma keys_ok_none s :
  AccountStore_keyHeap s = ∅ → AccountStore_apiKeys s = ∅ → AccountStore_apiKeysByH s = ∅ →
  keys_ok s.
Proof. intros E1 E2 E3. split; rewrite E1, ?E2, ?E3; intros; by simplify_map_eq. Qed.

Lemma with_key_ok : keys_ok (fst with_key).
Proof.
  assert (AccountStore_apiKeys (fst with_alice) = ∅) as E2 by (vm_compute; reflexivity).
  assert (AccountStore_apiKeysByH (fst with_alice) = ∅) as E3 by (vm_compute; reflexivity).
  apply (CreateAPIKey_later (Ok "0123456789") "a0" (mkCreateAPIKeyRequest "ci" ["instance:read"] None)
    (named "k") with_alice).
  - apply keys_ok_none; [vm_compute; reflexivity|done|done].
  - intros n. rewrite E2. apply lookup_empty.
  - intros r _. rewrite E3. apply lookup_empty.
Qed.

Lemma revoked_key_refused_witness :
  let s := exec (RevokeAPIKey "a0" "k0") (named "r") with_key in
  (∃ sub, answer (AuthenticateAPIKey "aur_live_0123456789") (named "u") with_key = Ok sub) ∧
  answer (AuthenticateAPIKey "aur_live_0123456789") (named "u") s = Err ErrAPIKeyRevoked.
Proof.
  intros s. split; [eexists; vm_compute; reflexivity|].
  eapply (revoked_key_refused "a0" "k0" "aur_live_0123456789" (named "r") (named "u") with_key s).
  - exact with_key_ok.
  - vm_compute. reflexivity.
  - vm_compute. reflexivity.
  - vm_compute. reflexivity.
  - constructor.
  - vm_compute. reflexivity.
Defined.

Lemma login_authentic_witness :
  ∃ res id user, answer (Login demo_tm (Ok "t0") alice_login) (named "b") with_alice = Ok res ∧
    AccountStore_users (fst with_alice) !! id = Some user ∧ User_IsActive user = true.
Proof.
  assert (∃ res, answer (Login demo_tm (Ok "t0") alice_login) (named "b") with_alice = Ok res)
    as [res Hres] by (eexists; vm_compute; reflexivity).
  destruct (login_authentic demo_tm (Ok "t0") alice_login (named "b") with_alice res Hres)
    as (id & user & Hu & _ & Ha & _).
  exists res, id, user. by split_and!.
Defined.
