(* ===== verification/Storage.v ===== *)
(** * Storage pools, volumes and snapshots

    [internal/app/storage/service.go] over the repositories of
    [internal/infra/memory/storage_repo.go]. Pools are carved into volumes,
    a volume is attached to at most one instance of the pool's node, and the
    work on the disks is sent to the node through the gateway. *)

From S2P Require Import Prelude Identity AuditTrail Node Commands Instances.

Definition ErrStoragePoolNotFound := ErrNew "storage" "storage pool not found".
Definition ErrStoragePoolAlreadyExists :=
  ErrNew "storage" "storage pool with this name already exists on node".
Definition ErrVolumeNotFound := ErrNew "storage" "volume not found".
Definition ErrVolumeAlreadyExists :=
  ErrNew "storage" "volume with this name already exists in pool".
Definition ErrVolumeAttached := ErrNew "storage" "volume is currently attached to an instance".
Definition ErrVolumeNotAttached := ErrNew "storage" "volume is not attached to an instance".
Definition ErrVolumeResizeDownNotAllowed :=
  ErrNew "storage" "shrinking volume size is not supported".
Definition ErrVolumeSnapshotNotFound := ErrNew "storage" "volume snapshot not found".
Definition ErrVolumeSnapshotAlreadyExists :=
  ErrNew "storage" "volume snapshot with this name already exists".
Definition ErrInvalidVolumeSpec := ErrNew "storage" "invalid volume specification".
Definition ErrInvalidStoragePoolSpec := ErrNew "storage" "invalid storage pool specification".

Definition DriverDir : string := "dir".
Definition ContentTypeFilesystem : string := "filesystem".

Inductive PoolStatus := PoolStatusOnline | PoolStatusDegraded | PoolStatusOffline.
Inductive VolumeStatus :=
  | VolumeStatusCreating | VolumeStatusReady | VolumeStatusAttached | VolumeStatusDeleting.
#[export] Instance PoolStatus_eq_dec : EqDecision PoolStatus.
Proof. solve_decision. Defined.
#[export] Instance VolumeStatus_eq_dec : EqDecision VolumeStatus.
Proof. solve_decision. Defined.

Record StoragePool : Type := mkStoragePool {
  StoragePool_ID : string;
  StoragePool_NodeID : string;
  StoragePool_Name : string;
  StoragePool_Driver : string;
  StoragePool_TotalSpaceBytes : Z;
  StoragePool_UsedSpaceBytes : Z;
  StoragePool_Status : PoolStatus;
  StoragePool_Config : option Prelude.Details;
  StoragePool_CreatedAt : Z;
  StoragePool_UpdatedAt : Z
}.
#[export] Instance StoragePool_eq_dec : EqDecision StoragePool.
Proof. solve_decision. Defined.

Definition eta_StoragePool (r : StoragePool) : StoragePool :=
  mkStoragePool (StoragePool_ID r) (StoragePool_NodeID r) (StoragePool_Name r)
    (StoragePool_Driver r) (StoragePool_TotalSpaceBytes r)
    (StoragePool_UsedSpaceBytes r) (StoragePool_Status r) (StoragePool_Config r)
    (StoragePool_CreatedAt r) (StoragePool_UpdatedAt r).
#[export] Instance set_StoragePool_ID : Setter StoragePool_ID := ltac:(setter eta_StoragePool StoragePool_ID).
#[export] Instance set_StoragePool_UsedSpaceBytes : Setter StoragePool_UsedSpaceBytes := ltac:(setter eta_StoragePool StoragePool_UsedSpaceBytes).
#[export] Instance set_StoragePool_CreatedAt : Setter StoragePool_CreatedAt := ltac:(setter eta_StoragePool StoragePool_CreatedAt).
#[export] Instance set_StoragePool_UpdatedAt : Setter StoragePool_UpdatedAt := ltac:(setter eta_StoragePool StoragePool_UpdatedAt).

Record Volume : Type := mkVolume {
  Volume_ID : string;
  Volume_UserID : string;
  Volume_PoolID : string;
  Volume_InstanceID : option string;
  Volume_Name : string;
  Volume_SizeBytes : Z;
  Volume_ContentType : string;
  Volume_MountPath : string;
  Volume_ReadOnly : bool;
  Volume_Status : VolumeStatus;
  Volume_CreatedAt : Z;
  Volume_UpdatedAt : Z
}.
#[export] Instance Volume_eq_dec : EqDecision Volume.
Proof. solve_decision. Defined.

Definition eta_Volume (r : Volume) : Volume :=
  mkVolume (Volume_ID r) (Volume_UserID r) (Volume_PoolID r) (Volume_InstanceID r)
    (Volume_Name r) (Volume_SizeBytes r) (Volume_ContentType r) (Volume_MountPath r)
    (Volume_ReadOnly r) (Volume_Status r) (Volume_CreatedAt r) (Volume_UpdatedAt r).
#[export] Instance set_Volume_ID : Setter Volume_ID := ltac:(setter eta_Volume Volume_ID).
#[export] Instance set_Volume_InstanceID : Setter Volume_InstanceID := ltac:(setter eta_Volume Volume_InstanceID).
#[export] Instance set_Volume_SizeBytes : Setter Volume_SizeBytes := ltac:(setter eta_Volume Volume_SizeBytes).
#[export] Instance set_Volume_MountPath : Setter Volume_MountPath := ltac:(setter eta_Volume Volume_MountPath).
#[export] Instance set_Volume_ReadOnly : Setter Volume_ReadOnly := ltac:(setter eta_Volume Volume_ReadOnly).
#[export] Instance set_Volume_Status : Setter Volume_Status := ltac:(setter eta_Volume Volume_Status).
#[export] Instance set_Volume_CreatedAt : Setter Volume_CreatedAt := ltac:(setter eta_Volume Volume_CreatedAt).
#[export] Instance set_Volume_UpdatedAt : Setter Volume_UpdatedAt := ltac:(setter eta_Volume Volume_UpdatedAt).

Record VolumeSnapshot : Type := mkVolumeSnapshot {
  VolumeSnapshot_ID : string;
  VolumeSnapshot_VolumeID : string;
  VolumeSnapshot_Name : string;
  VolumeSnapshot_SizeBytes : Z;
  VolumeSnapshot_CreatedAt : Z
}.
#[export] Instance VolumeSnapshot_eq_dec : EqDecision VolumeSnapshot.
Proof. solve_decision. Defined.

Definition eta_VolumeSnapshot (r : VolumeSnapshot) : VolumeSnapshot :=
  mkVolumeSnapshot (VolumeSnapshot_ID r) (VolumeSnapshot_VolumeID r)
    (VolumeSnapshot_Name r) (VolumeSnapshot_SizeBytes r) (VolumeSnapshot_CreatedAt r).
#[export] Instance set_VolumeSnapshot_ID : Setter VolumeSnapshot_ID := ltac:(setter eta_VolumeSnapshot VolumeSnapshot_ID).
#[export] Instance set_VolumeSnapshot_CreatedAt : Setter VolumeSnapshot_CreatedAt := ltac:(setter eta_VolumeSnapshot VolumeSnapshot_CreatedAt).

Definition FreeSpaceBytes (p : StoragePool) : Z :=
  let free := sub64 (StoragePool_TotalSpaceBytes p) (StoragePool_UsedSpaceBytes p) in
  if decide (free < 0) then 0 else free.

Definition UsagePercentage (p : StoragePool) : float64 :=
  if decide (StoragePool_TotalSpaceBytes p ≤ 0) then of_int 0
  else
    let pct := fmul (fdiv (of_int (StoragePool_UsedSpaceBytes p))
                          (of_int (StoragePool_TotalSpaceBytes p))) (of_int 100) in
    fdiv (math_Round (fmul pct (of_int 100))) (of_int 100).

Definition StoragePool_Resource (p : StoragePool) : Resource :=
  mkResource "storage_pool" (StoragePool_ID p) "" (StoragePool_NodeID p).
Definition Volume_Resource (v : Volume) : Resource :=
  mkResource "volume" (Volume_ID v) (Volume_UserID v) "".

Definition IsAttached (v : Volume) : Prop :=
  Volume_InstanceID v ≠ None ∧ Volume_InstanceID v ≠ Some "".
#[export] Instance IsAttached_dec v : Decision (IsAttached v).
Proof. unfold IsAttached. apply _. Defined.

(** ** The repositories *)

Record StorageStore : Type := mkStorageStore {
  StorageStore_pools : gmap string StoragePool;
  StorageStore_volumes : gmap string Volume;
  StorageStore_snapshots : gmap string VolumeSnapshot
}.

Definition eta_StorageStore (r : StorageStore) : StorageStore :=
  mkStorageStore (StorageStore_pools r) (StorageStore_volumes r)
    (StorageStore_snapshots r).
#[export] Instance set_StorageStore_pools : Setter StorageStore_pools := ltac:(setter eta_StorageStore StorageStore_pools).
#[export] Instance set_StorageStore_volumes : Setter StorageStore_volumes := ltac:(setter eta_StorageStore StorageStore_volumes).
#[export] Instance set_StorageStore_snapshots : Setter StorageStore_snapshots := ltac:(setter eta_StorageStore StorageStore_snapshots).

Definition empty_storage : StorageStore := mkStorageStore ∅ ∅ ∅.

Definition pool_Create (pool : StoragePool) : go StorageStore StoragePool :=
  s ← get;
  dup ← find_in (StorageStore_pools s) (λ p, StoragePool_NodeID p = StoragePool_NodeID pool ∧
                                             StoragePool_Name p = StoragePool_Name pool);
  match dup with
  | Some _ => fail ErrStoragePoolAlreadyExists
  | None =>
      id ← (if decide (StoragePool_ID pool = "") then uuid_NewString
            else mret (StoragePool_ID pool));
      now ← time_Now;
      let pool := pool <| StoragePool_ID := id |> <| StoragePool_CreatedAt := now |>
                       <| StoragePool_UpdatedAt := now |> in
      modify (λ s, s <| StorageStore_pools := <[id := pool]> (StorageStore_pools s) |>) ;;
      mret pool
  end.

Definition pool_GetByID (id : string) : go StorageStore StoragePool :=
  s ← get;
  match StorageStore_pools s !! id with
  | Some p => mret p
  | None => fail ErrStoragePoolNotFound
  end.

Definition pool_GetByNodeAndName (nodeID name : string) : go StorageStore StoragePool :=
  s ← get;
  r ← find_in (StorageStore_pools s)
        (λ p, StoragePool_NodeID p = nodeID ∧ StoragePool_Name p = name);
  match r with Some p => mret p | None => fail ErrStoragePoolNotFound end.

Definition pool_List (nodeID : string) : go StorageStore (list StoragePool) :=
  s ← get;
  list_in (StorageStore_pools s) (λ p, nodeID = "" ∨ StoragePool_NodeID p = nodeID).

Definition pool_Update (pool : StoragePool) : go StorageStore () :=
  pool_GetByID (StoragePool_ID pool) ;;
  now ← time_Now;
  modify (λ s, s <| StorageStore_pools :=
    <[StoragePool_ID pool := (pool <| StoragePool_UpdatedAt := now |>)]> (StorageStore_pools s) |>).

Definition pool_Delete (id : string) : go StorageStore () :=
  pool_GetByID id ;;
  modify (λ s, s <| StorageStore_pools := delete id (StorageStore_pools s) |>).

Definition volume_Create (vol : Volume) : go StorageStore Volume :=
  s ← get;
  dup ← find_in (StorageStore_volumes s) (λ v, Volume_PoolID v = Volume_PoolID vol ∧
                                               Volume_Name v = Volume_Name vol);
  match dup with
  | Some _ => fail ErrVolumeAlreadyExists
  | None =>
      id ← (if decide (Volume_ID vol = "") then uuid_NewString else mret (Volume_ID vol));
      now ← time_Now;
      let vol := vol <| Volume_ID := id |> <| Volume_CreatedAt := now |>
                     <| Volume_UpdatedAt := now |> in
      modify (λ s, s <| StorageStore_volumes := <[id := vol]> (StorageStore_volumes s) |>) ;;
      mret vol
  end.

Definition volume_GetByID (id : string) : go StorageStore Volume :=
  s ← get;
  match StorageStore_volumes s !! id with
  | Some v => mret v
  | None => fail ErrVolumeNotFound
  end.

Definition volume_GetByPoolAndName (poolID name : string) : go StorageStore Volume :=
  s ← get;
  r ← find_in (StorageStore_volumes s) (λ v, Volume_PoolID v = poolID ∧ Volume_Name v = name);
  match r with Some v => mret v | None => fail ErrVolumeNotFound end.

Definition volume_ListByUser (userID : string) : go StorageStore (list Volume) :=
  s ← get; list_in (StorageStore_volumes s) (λ v, userID = "" ∨ Volume_UserID v = userID).
Definition volume_ListByPool (poolID : string) : go StorageStore (list Volume) :=
  s ← get; list_in (StorageStore_volumes s) (λ v, Volume_PoolID v = poolID).
Definition volume_ListByInstance (instanceID : string) : go StorageStore (list Volume) :=
  s ← get; list_in (StorageStore_volumes s) (λ v, Volume_InstanceID v = Some instanceID).

(** The stored record: the caller's [vol] with the new time, also in hand. *)
Definition volume_Update (vol : Volume) : go StorageStore Volume :=
  volume_GetByID (Volume_ID vol) ;;
  now ← time_Now;
  let vol := vol <| Volume_UpdatedAt := now |> in
  modify (λ s, s <| StorageStore_volumes :=
    <[Volume_ID vol := vol]> (StorageStore_volumes s) |>) ;;
  mret vol.

Definition volume_Delete (id : string) : go StorageStore () :=
  volume_GetByID id ;;
  modify (λ s, s <| StorageStore_volumes := delete id (StorageStore_volumes s) |>).

Definition snapshot_Create (snap : VolumeSnapshot) : go StorageStore VolumeSnapshot :=
  s ← get;
  dup ← find_in (StorageStore_snapshots s)
          (λ x, VolumeSnapshot_VolumeID x = VolumeSnapshot_VolumeID snap ∧
                VolumeSnapshot_Name x = VolumeSnapshot_Name snap);
  match dup with
  | Some _ => fail ErrVolumeSnapshotAlreadyExists
  | None =>
      id ← (if decide (VolumeSnapshot_ID snap = "") then uuid_NewString
            else mret (VolumeSnapshot_ID snap));
      now ← time_Now;
      let snap := snap <| VolumeSnapshot_ID := id |> <| VolumeSnapshot_CreatedAt := now |> in
      modify (λ s, s <| StorageStore_snapshots := <[id := snap]> (StorageStore_snapshots s) |>) ;;
      mret snap
  end.

Definition snapshot_GetByID (id : string) : go StorageStore VolumeSnapshot :=
  s ← get;
  match StorageStore_snapshots s !! id with
  | Some x => mret x
  | None => fail ErrVolumeSnapshotNotFound
  end.

Definition snapshot_GetByVolumeAndName (volumeID name : string) :
    go StorageStore VolumeSnapshot :=
  s ← get;
  r ← find_in (StorageStore_snapshots s)
        (λ x, VolumeSnapshot_VolumeID x = volumeID ∧ VolumeSnapshot_Name x = name);
  match r with Some x => mret x | None => fail ErrVolumeSnapshotNotFound end.

Definition snapshot_ListByVolume (volumeID : string) : go StorageStore (list VolumeSnapshot) :=
  s ← get; list_in (StorageStore_snapshots s) (λ x, VolumeSnapshot_VolumeID x = volumeID).

Definition snapshot_Delete (id : string) : go StorageStore () :=
  snapshot_GetByID id ;;
  modify (λ s, s <| StorageStore_snapshots := delete id (StorageStore_snapshots s) |>).

(** ** The service *)

Record CreateStoragePoolRequest : Type := mkCreateStoragePoolRequest {
  CreateStoragePoolRequest_NodeID : string;
  CreateStoragePoolRequest_Name : string;
  CreateStoragePoolRequest_Driver : string;
  CreateStoragePoolRequest_TotalSpaceBytes : Z;
  CreateStoragePoolRequest_Config : option Prelude.Details
}.

Record CreateVolumeRequest : Type := mkCreateVolumeRequest {
  CreateVolumeRequest_PoolID : string;
  CreateVolumeRequest_Name : string;
  CreateVolumeRequest_SizeBytes : Z;
  CreateVolumeRequest_ContentType : string;
  CreateVolumeRequest_MountPath : string;
  CreateVolumeRequest_ReadOnly : bool
}.

Definition isGlobalAdmin (sub : option Subject) : bool :=
  match sub with
  | None => false
  | Some s => existsb (λ r, bool_decide (r = "superadmin") || bool_decide (r = "operator"))
                (Subject_Roles s)
  end.

(** What the service reaches: its repositories, the instance repository and
    the node gateway. *)
Record StorageEnv (G : Type) := mkStorageEnv {
  se_store : StorageStore;
  se_instances : MemoryInstanceStore;
  se_nodes : G
}.
Arguments mkStorageEnv {G} _ _ _.
Arguments se_store {G} _.
Arguments se_instances {G} _.
Arguments se_nodes {G} _.

Section service.
Context {G A : Type} `{!NodeGateway G, !AuditRepository A}.
(** [has_audit] is [s.auditRepo != nil]. *)
Context (auth : Authorizer) (has_audit : bool).

Definition on_repo {X} (m : go StorageStore X) : go (StorageEnv G * A) X :=
  on_store (zoom se_store (λ x e, mkStorageEnv x (se_instances e) (se_nodes e)) m).
Definition on_instances {X} (m : go MemoryInstanceStore X) : go (StorageEnv G * A) X :=
  on_store (zoom se_instances (λ x e, mkStorageEnv (se_store e) x (se_nodes e)) m).
Definition on_gateway {X} (m : go G X) : go (StorageEnv G * A) X :=
  on_store (zoom se_nodes (λ x e, mkStorageEnv (se_store e) (se_instances e) x) m).

Definition logAudit (sub : option Subject) (action resourceID : string)
    (det : list (string * any)) : go (StorageEnv G * A) () :=
  if has_audit then
    let actorID := match sub with
                   | Some u => if decide (Subject_UserID u = "") then None
                               else Some (Subject_UserID u)
                   | None => None
                   end in
    let rID := if decide (resourceID = "") then None else Some resourceID in
    audit_event actorID action "" rID (Some (details det))
  else mret ().

(** [_, _ = s.nodeService.SendCommand(...)]. *)
Definition dispatch (nodeID typ : string) (payload : list (string * any)) :
    go (StorageEnv G * A) () :=
  ignore (on_gateway (SendCommand_ nodeID (new_command typ payload))).

Definition CreateStoragePool (sub : option Subject) (req : CreateStoragePoolRequest) :
    go (StorageEnv G * A) StoragePool :=
  if decide (CreateStoragePoolRequest_NodeID req = "" ∨ CreateStoragePoolRequest_Name req = "")
  then fail ErrInvalidStoragePoolSpec
  else
    authorize auth sub "storage:manage"
      (Some (mkResource "node" (CreateStoragePoolRequest_NodeID req) "" "")) ;;
    node ← on_gateway (read_nodes (NodeGetByID (CreateStoragePoolRequest_NodeID req)));
    let driver := if decide (CreateStoragePoolRequest_Driver req = "") then DriverDir
                  else CreateStoragePoolRequest_Driver req in
    t1 ← time_Now;
    t2 ← time_Now;
    pool ← on_repo (pool_Create
      (mkStoragePool "" (Node_ID node) (CreateStoragePoolRequest_Name req) driver
         (CreateStoragePoolRequest_TotalSpaceBytes req) 0 PoolStatusOnline
         (CreateStoragePoolRequest_Config req) t1 t2));
    logAudit sub "storage_pool:create" (StoragePool_ID pool)
      [("nodeId", AnyStr (StoragePool_NodeID pool)); ("name", AnyStr (StoragePool_Name pool));
       ("driver", AnyStr (StoragePool_Driver pool))] ;;
    mret pool.

Definition ListStoragePools (sub : option Subject) (nodeID : string) :
    go (StorageEnv G * A) (list StoragePool) :=
  authorize auth sub "storage:read" None ;;
  on_repo (pool_List nodeID).

Definition GetStoragePool (sub : option Subject) (id : string) :
    go (StorageEnv G * A) StoragePool :=
  pool ← on_repo (pool_GetByID id);
  authorize auth sub "storage:read" (Some (StoragePool_Resource pool)) ;;
  mret pool.

(** [CreateVolume] reads the pool, and later writes the copy it read back with
    the volume's size added; other calls may run in between. *)
Definition create_volume_load (sub : option Subject) (req : CreateVolumeRequest) :
    go (StorageEnv G * A) StoragePool :=
  if decide (CreateVolumeRequest_PoolID req = "" ∨ CreateVolumeRequest_Name req = "" ∨
             CreateVolumeRequest_SizeBytes req ≤ 0)
  then fail ErrInvalidVolumeSpec
  else
    pool ← on_repo (pool_GetByID (CreateVolumeRequest_PoolID req));
    authorize auth sub "volume:create" (Some (StoragePool_Resource pool)) ;;
    mret pool.

Definition create_volume_commit (sub : option Subject) (req : CreateVolumeRequest)
    (pool : StoragePool) : go (StorageEnv G * A) Volume :=
  let contentType := if decide (CreateVolumeRequest_ContentType req = "")
                     then ContentTypeFilesystem else CreateVolumeRequest_ContentType req in
  let mountPath := if decide (CreateVolumeRequest_MountPath req = "")
                   then "/mnt/" +:+ CreateVolumeRequest_Name req
                   else CreateVolumeRequest_MountPath req in
  owner ← caller_id sub;
  t1 ← time_Now;
  t2 ← time_Now;
  vol ← on_repo (volume_Create
    (mkVolume "" owner (StoragePool_ID pool) None (CreateVolumeRequest_Name req)
       (CreateVolumeRequest_SizeBytes req) contentType mountPath
       (CreateVolumeRequest_ReadOnly req) VolumeStatusReady t1 t2));
  ignore (on_repo (pool_Update (pool <| StoragePool_UsedSpaceBytes :=
    add64 (StoragePool_UsedSpaceBytes pool) (CreateVolumeRequest_SizeBytes req) |>))) ;;
  dispatch (StoragePool_NodeID pool) "create_volume"
    [("volume_id", AnyStr (Volume_ID vol)); ("pool_name", AnyStr (StoragePool_Name pool));
     ("volume_name", AnyStr (Volume_Name vol)); ("size_bytes", AnyInt (Volume_SizeBytes vol));
     ("content_type", AnyStr (Volume_ContentType vol))] ;;
  logAudit sub "volume:create" (Volume_ID vol)
    [("poolId", AnyStr (Volume_PoolID vol)); ("name", AnyStr (Volume_Name vol));
     ("sizeBytes", AnyInt (Volume_SizeBytes vol))] ;;
  mret vol.

Definition CreateVolume (sub : option Subject) (req : CreateVolumeRequest) :
    go (StorageEnv G * A) Volume :=
  pool ← create_volume_load sub req;
  create_volume_commit sub req pool.

Definition ListVolumes (sub : option Subject) (poolID instanceID : string) :
    go (StorageEnv G * A) (list Volume) :=
  authorize auth sub "volume:read" None ;;
  if decide (instanceID ≠ "") then
    inst ← on_instances (InstanceGetByID instanceID);
    authorize auth sub "instance:read" (Some (Instance_Resource inst)) ;;
    on_repo (volume_ListByInstance instanceID)
  else if decide (poolID ≠ "") then on_repo (volume_ListByPool poolID)
  else if isGlobalAdmin sub then on_repo (volume_ListByUser "")
  else
    owner ← caller_id sub;
    on_repo (volume_ListByUser owner).

(** [vol, err := GetByID(id); Authorize(ctx, sub, action, vol.Resource())], the
    opening of every method on a volume. *)
Definition open_volume (sub : option Subject) (action volumeID : string) :
    go (StorageEnv G * A) Volume :=
  vol ← on_repo (volume_GetByID volumeID);
  authorize auth sub action (Some (Volume_Resource vol)) ;;
  mret vol.

Definition GetVolume (sub : option Subject) (id : string) : go (StorageEnv G * A) Volume :=
  open_volume sub "volume:read" id.

Definition AttachVolume (sub : option Subject) (volumeID instanceID mountPath : string)
    (readOnly : bool) : go (StorageEnv G * A) Volume :=
  vol ← open_volume sub "volume:attach" volumeID;
  if decide (IsAttached vol) then fail ErrVolumeAttached
  else
    inst ← on_instances (InstanceGetByID instanceID);
    authorize auth sub "instance:update" (Some (Instance_Resource inst)) ;;
    pool ← on_repo (pool_GetByID (Volume_PoolID vol));
    if decide (StoragePool_NodeID pool ≠ Instance__NodeID inst) then
      fail (ErrNew "storage"
              "volume storage pool and instance reside on different hypervisor nodes")
    else
      let vol := if decide (mountPath ≠ "") then vol <| Volume_MountPath := mountPath |>
                 else vol in
      let vol := vol <| Volume_ReadOnly := readOnly |>
                     <| Volume_InstanceID := Some (Instance__ID inst) |>
                     <| Volume_Status := VolumeStatusAttached |> in
      vol ← on_repo (volume_Update vol);
      dispatch (Instance__NodeID inst) "attach_volume"
        [("instance_id", AnyStr (Instance__ID inst)); ("instance_name", AnyStr (Instance__Name inst));
         ("pool_name", AnyStr (StoragePool_Name pool)); ("volume_name", AnyStr (Volume_Name vol));
         ("mount_path", AnyStr (Volume_MountPath vol)); ("read_only", AnyBool (Volume_ReadOnly vol))] ;;
      logAudit sub "volume:attach" (Volume_ID vol)
        [("instanceId", AnyStr (Instance__ID inst)); ("mountPath", AnyStr (Volume_MountPath vol))] ;;
      mret vol.

Definition DetachVolume (sub : option Subject) (volumeID : string) :
    go (StorageEnv G * A) Volume :=
  vol ← open_volume sub "volume:detach" volumeID;
  if decide (¬ IsAttached vol) then fail ErrVolumeNotAttached
  else
    inst ← on_instances (InstanceGetByID (default "" (Volume_InstanceID vol)));
    vol ← on_repo (volume_Update (vol <| Volume_InstanceID := None |>
                                      <| Volume_Status := VolumeStatusReady |>));
    dispatch (Instance__NodeID inst) "detach_volume"
      [("instance_id", AnyStr (Instance__ID inst)); ("instance_name", AnyStr (Instance__Name inst));
       ("volume_name", AnyStr (Volume_Name vol))] ;;
    logAudit sub "volume:detach" (Volume_ID vol) [("instanceId", AnyStr (Instance__ID inst))] ;;
    mret vol.

Definition ResizeVolume (sub : option Subject) (volumeID : string) (newSizeBytes : Z) :
    go (StorageEnv G * A) Volume :=
  vol ← open_volume sub "volume:update" volumeID;
  if decide (newSizeBytes < Volume_SizeBytes vol) then fail ErrVolumeResizeDownNotAllowed
  else
    pool ← on_repo (pool_GetByID (Volume_PoolID vol));
    let delta := sub64 newSizeBytes (Volume_SizeBytes vol) in
    vol ← on_repo (volume_Update (vol <| Volume_SizeBytes := newSizeBytes |>));
    ignore (on_repo (pool_Update (pool <| StoragePool_UsedSpaceBytes :=
      add64 (StoragePool_UsedSpaceBytes pool) delta |>))) ;;
    dispatch (StoragePool_NodeID pool) "resize_volume"
      [("volume_id", AnyStr (Volume_ID vol)); ("pool_name", AnyStr (StoragePool_Name pool));
       ("volume_name", AnyStr (Volume_Name vol)); ("new_size_bytes", AnyInt newSizeBytes)] ;;
    logAudit sub "volume:resize" (Volume_ID vol) [("newSizeBytes", AnyInt newSizeBytes)] ;;
    mret vol.

Definition DeleteVolume (sub : option Subject) (volumeID : string) : go (StorageEnv G * A) () :=
  vol ← open_volume sub "volume:delete" volumeID;
  if decide (IsAttached vol) then fail ErrVolumeAttached
  else
    pool ← on_repo (pool_GetByID (Volume_PoolID vol));
    on_repo (volume_Delete (Volume_ID vol)) ;;
    let used := sub64 (StoragePool_UsedSpaceBytes pool) (Volume_SizeBytes vol) in
    let used := if decide (used < 0) then 0 else used in
    ignore (on_repo (pool_Update (pool <| StoragePool_UsedSpaceBytes := used |>))) ;;
    dispatch (StoragePool_NodeID pool) "delete_volume"
      [("volume_id", AnyStr (Volume_ID vol)); ("pool_name", AnyStr (StoragePool_Name pool));
       ("volume_name", AnyStr (Volume_Name vol))] ;;
    logAudit sub "volume:delete" (Volume_ID vol)
      [("poolId", AnyStr (Volume_PoolID vol)); ("name", AnyStr (Volume_Name vol))].

Definition snapshot_command (pool : StoragePool) (vol : Volume) (snap : VolumeSnapshot)
    (typ : string) : go (StorageEnv G * A) () :=
  dispatch (StoragePool_NodeID pool) typ
    [("volume_id", AnyStr (Volume_ID vol)); ("pool_name", AnyStr (StoragePool_Name pool));
     ("volume_name", AnyStr (Volume_Name vol));
     ("snapshot_name", AnyStr (VolumeSnapshot_Name snap))].

Definition CreateSnapshot (sub : option Subject) (volumeID snapshotName : string) :
    go (StorageEnv G * A) VolumeSnapshot :=
  name ← (if decide (snapshotName = "")
          then now ← time_Now; mret ("snap-" +:+ fmt_d (Unix now))
          else mret snapshotName);
  vol ← open_volume sub "volume:snapshot" volumeID;
  pool ← on_repo (pool_GetByID (Volume_PoolID vol));
  now ← time_Now;
  snap ← on_repo (snapshot_Create
    (mkVolumeSnapshot "" (Volume_ID vol) name (Volume_SizeBytes vol) now));
  snapshot_command pool vol snap "create_volume_snapshot" ;;
  logAudit sub "volume:snapshot:create" (VolumeSnapshot_ID snap)
    [("volumeId", AnyStr (Volume_ID vol)); ("snapshotName", AnyStr (VolumeSnapshot_Name snap))] ;;
  mret snap.

Definition ListSnapshots (sub : option Subject) (volumeID : string) :
    go (StorageEnv G * A) (list VolumeSnapshot) :=
  open_volume sub "volume:read" volumeID ;;
  on_repo (snapshot_ListByVolume volumeID).

Definition RestoreSnapshot (sub : option Subject) (volumeID snapshotID : string) :
    go (StorageEnv G * A) () :=
  vol ← open_volume sub "volume:restore" volumeID;
  snap ← on_repo (snapshot_GetByID snapshotID);
  pool ← on_repo (pool_GetByID (Volume_PoolID vol));
  snapshot_command pool vol snap "restore_volume_snapshot" ;;
  logAudit sub "volume:snapshot:restore" (VolumeSnapshot_ID snap)
    [("volumeId", AnyStr (Volume_ID vol))].

Definition DeleteSnapshot (sub : option Subject) (volumeID snapshotID : string) :
    go (StorageEnv G * A) () :=
  vol ← open_volume sub "volume:snapshot" volumeID;
  snap ← on_repo (snapshot_GetByID snapshotID);
  pool ← on_repo (pool_GetByID (Volume_PoolID vol));
  on_repo (snapshot_Delete snapshotID) ;;
  snapshot_command pool vol snap "delete_volume_snapshot" ;;
  logAudit sub "volume:snapshot:delete" (VolumeSnapshot_ID snap)
    [("volumeId", AnyStr (Volume_ID vol))].
End service.

(** ** What a call does to the repositories *)

(** Records are filed under their own identifiers. *)
Definition keyed (s : StorageStore) : Prop :=
  (∀ id p, StorageStore_pools s !! id = Some p → StoragePool_ID p = id) ∧
  (∀ id v, StorageStore_volumes s !! id = Some v → Volume_ID v = id).

Definition put_pool (p : StoragePool) (s : StorageStore) : StorageStore :=
  s <| StorageStore_pools := <[StoragePool_ID p := p]> (StorageStore_pools s) |>.
Definition put_volume (v : Volume) (s : StorageStore) : StorageStore :=
  s <| StorageStore_volumes := <[Volume_ID v := v]> (StorageStore_volumes s) |>.
Definition drop_volume (id : string) (s : StorageStore) : StorageStore :=
  s <| StorageStore_volumes := delete id (StorageStore_volumes s) |>.

(** The pool record [p] after its usage was set to [used] at time [t]. *)
Definition recharged (p : StoragePool) (used t : Z) : StoragePool :=
  (p <| StoragePool_UsedSpaceBytes := used |>) <| StoragePool_UpdatedAt := t |>.

(** What one call may do to the repositories. [room] bounds the bytes a
    creation or a resize adds to a pool, [off] says which volumes may be
    detached. *)
Inductive change (room : string → Z → Prop) (off : string → Prop) (s : StorageStore) : StorageStore → Prop :=
  | c_same : change room off s s
  | c_snapshots sn : change room off s (s <| StorageStore_snapshots := sn |>)
  | c_pool p : StorageStore_pools s !! StoragePool_ID p = None →
      StoragePool_UsedSpaceBytes p = 0 → change room off s (put_pool p s)
  | c_create v p t :
      StorageStore_volumes s !! Volume_ID v = None →
      (∀ id u, StorageStore_volumes s !! id = Some u →
         ¬ (Volume_PoolID u = Volume_PoolID v ∧ Volume_Name u = Volume_Name v)) →
      StorageStore_pools s !! Volume_PoolID v = Some p →
      0 < Volume_SizeBytes v → room (Volume_PoolID v) (Volume_SizeBytes v) →
      Volume_Status v = VolumeStatusReady → Volume_InstanceID v = None →
      change room off s (put_pool (recharged p
        (add64 (StoragePool_UsedSpaceBytes p) (Volume_SizeBytes v)) t) (put_volume v s))
  | c_attach v i mp ro t : StorageStore_volumes s !! Volume_ID v = Some v → ¬ IsAttached v →
      change room off s (put_volume (v <| Volume_MountPath := mp |> <| Volume_ReadOnly := ro |>
        <| Volume_InstanceID := Some i |> <| Volume_Status := VolumeStatusAttached |>
        <| Volume_UpdatedAt := t |>) s)
  | c_detach v t : StorageStore_volumes s !! Volume_ID v = Some v → IsAttached v → off (Volume_ID v) →
      change room off s (put_volume (v <| Volume_InstanceID := None |>
        <| Volume_Status := VolumeStatusReady |> <| Volume_UpdatedAt := t |>) s)
  | c_resize v p n t t' : StorageStore_volumes s !! Volume_ID v = Some v →
      StorageStore_pools s !! Volume_PoolID v = Some p →
      Volume_SizeBytes v ≤ n → room (Volume_PoolID v) (n - Volume_SizeBytes v) →
      change room off s (put_pool (recharged p
        (add64 (StoragePool_UsedSpaceBytes p) (sub64 n (Volume_SizeBytes v))) t')
        (put_volume (v <| Volume_SizeBytes := n |> <| Volume_UpdatedAt := t |>) s))
  | c_delete v p t : StorageStore_volumes s !! Volume_ID v = Some v → ¬ IsAttached v →
      StorageStore_pools s !! Volume_PoolID v = Some p →
      let used := sub64 (StoragePool_UsedSpaceBytes p) (Volume_SizeBytes v) in
      change room off s (put_pool (recharged p (if decide (used < 0) then 0 else used) t)
        (drop_volume (Volume_ID v) s)).

Section effects.
Context {G A : Type} `{!NodeGateway G, !AuditRepository A}.
Context (auth : Authorizer) (has_audit : bool).
Abbreviation env := (StorageEnv G * A)%type.
Implicit Types (st : env) (room : string → Z → Prop) (off : string → Prop).

Definition the_store st : StorageStore := se_store (fst st).

(** The call [m] changes the repositories of [st] by one [change]. *)
Definition effect {X} room off (m : go env X) st w : Prop :=
  wp m (λ _ st' _, change room off (the_store st) (the_store st')) w st.

Lemma wp_on_repo {X} (m : go StorageStore X) (Q : result X → env → World → Prop) w st :
  wp (on_repo m) Q w st ↔
  wp m (λ x s' w', Q x (mkStorageEnv s' (se_instances st.1) (se_nodes st.1), st.2) w')
    w (the_store st).
Proof. unfold on_repo, on_store, the_store. by rewrite !wp_zoom. Qed.

(** The commands and the audit entries leave the repositories alone. *)
Lemma wp_dispatch id typ pl (Q : result () → env → World → Prop) w st :
  (∀ st' w', the_store st' = the_store st → Q (Ok ()) st' w') →
  wp (dispatch id typ pl) Q w st.
Proof.
  intros HQ. unfold dispatch, on_gateway, on_store. wp_step. unfold wp.
  destruct (SendCommand_ _ _ _ _) as [[x g'] w']. by apply HQ.
Qed.

Lemma wp_logAudit sub action rid det (Q : result () → env → World → Prop) w st :
  (∀ st' w', the_store st' = the_store st → Q (Ok ()) st' w') →
  wp (logAudit has_audit sub action rid det) Q w st.
Proof.
  intros HQ. unfold logAudit. destruct has_audit; [|by apply HQ].
  destruct st as [e a]. apply wp_audit_event. intros a' w'. by apply HQ.
Qed.

Lemma quiet_on_repo {X} (m : go StorageStore X) : quiet m → quiet (on_repo (G := G) (A := A) m).
Proof.
  intros Hm. apply quiet_on_store. intros w [s i g]. specialize (Hm w s).
  unfold exec, world, zoom in *. simpl. destruct (m w s) as [[x s'] w']. simpl in *.
  by destruct Hm as [-> ?].
Qed.

Lemma quiet_lookup_instance id : quiet (on_instances (G := G) (A := A) (InstanceGetByID id)).
Proof.
  apply quiet_on_store. intros w [s i g]. unfold exec, world, zoom. simpl.
  assert (quiet (InstanceGetByID id)) as Hq
    by (unfold InstanceGetByID, lookup_instance, load_instance; quiet).
  specialize (Hq w i). unfold exec, world in Hq. destruct (InstanceGetByID id w i) as [[x i'] w'].
  simpl in *. by destruct Hq as [-> ?].
Qed.

Lemma quiet_lookup_node id :
  quiet (on_gateway (A := A) (read_nodes (G := G) (NodeGetByID id))).
Proof.
  apply quiet_on_store. intros w [s i g]. unfold exec, world, zoom. simpl.
  pose proof (quiet_read_nodes (G := G) _ (quiet_NodeGetByID id) w g) as Hq.
  unfold exec, world in Hq. destruct (read_nodes _ w g) as [[x g'] w']. simpl in *.
  by destruct Hq as [-> ?].
Qed.

(** A quiet prefix: whatever it answers, the store is the same. *)
Lemma wp_prefix {X Y} (m : go env X) (f : X → go env Y) (Q : result Y → env → World → Prop) w st :
  quiet m → (∀ e w', same_oracles w w' → Q (Err e) st w') →
  (∀ x w', same_oracles w w' → wp (f x) Q w' st) → wp (m ≫= f) Q w st.
Proof.
  intros Hm He Hf. rewrite wp_bind. apply wp_quiet; [done|]. intros [x|e] w' Hw; auto.
Qed.

Lemma wp_pool_GetByID id (Q : result StoragePool → StorageStore → World → Prop) w s :
  (∀ p, StorageStore_pools s !! id = Some p → Q (Ok p) s w) →
  (StorageStore_pools s !! id = None → Q (Err ErrStoragePoolNotFound) s w) →
  wp (pool_GetByID id) Q w s.
Proof.
  intros Hs Hn. unfold pool_GetByID. wp_step.
  destruct (StorageStore_pools s !! id); wp_step; auto.
Qed.

Lemma wp_volume_GetByID id (Q : result Volume → StorageStore → World → Prop) w s :
  (∀ v, StorageStore_volumes s !! id = Some v → Q (Ok v) s w) →
  (StorageStore_volumes s !! id = None → Q (Err ErrVolumeNotFound) s w) →
  wp (volume_GetByID id) Q w s.
Proof.
  intros Hs Hn. unfold volume_GetByID. wp_step.
  destruct (StorageStore_volumes s !! id); wp_step; auto.
Qed.

Lemma wp_open_volume sub action id (Q : result Volume → env → World → Prop) w st :
  (∀ e, Q (Err e) st w) →
  (∀ v, StorageStore_volumes (the_store st) !! id = Some v →
     @Authorize auth sub action (Some (Volume_Resource v)) = Ok () → Q (Ok v) st w) →
  wp (open_volume auth sub action id) Q w st.
Proof.
  destruct st as [[s i g] a]. intros He Hv. unfold open_volume. wp_step. rewrite wp_on_repo.
  apply wp_volume_GetByID; intros; wp_step; [|apply He].
  unfold authorize. wp_step. destruct (@Authorize auth _ _ _) as [[]|e] eqn:E; wp_step; auto.
Qed.

(** The update of a pool that was just read. *)
Lemma wp_charge_pool (p : StoragePool) used (Q : result () → env → World → Prop) w st :
  is_Some (StorageStore_pools (the_store st) !! StoragePool_ID p) →
  (∀ st' w', the_store st' = put_pool (recharged p used (now_of w)) (the_store st) →
     Q (Ok ()) st' w') →
  wp (ignore (on_repo (pool_Update (p <| StoragePool_UsedSpaceBytes := used |>)))) Q w st.
Proof.
  destruct st as [[s i g] a]. intros [q Hq] HQ. rewrite wp_ignore, wp_on_repo.
  unfold pool_Update. wp_step. apply wp_pool_GetByID; intros; wp_step; [by apply HQ|].
  cbn in *. congruence.
Qed.

(** The write of a volume that was just read. *)
Lemma wp_put_volume (v : Volume) (Q : result Volume → env → World → Prop) w st :
  is_Some (StorageStore_volumes (the_store st) !! Volume_ID v) →
  (∀ st' w', let v' := v <| Volume_UpdatedAt := now_of w |> in
     the_store st' = put_volume v' (the_store st) → Q (Ok v') st' w') →
  wp (on_repo (volume_Update v)) Q w st.
Proof.
  destruct st as [[s i g] a]. intros [q Hq] HQ. rewrite wp_on_repo.
  unfold volume_Update. wp_step. apply wp_volume_GetByID; intros; wp_step; [by apply HQ|].
  cbn in *. congruence.
Qed.

(** The end of every method that changes something: the command to the node
    and the audit entry. *)
Lemma wp_report {X} id typ pl sub action rid det (x : X) (P : StorageStore → Prop) w st :
  P (the_store st) →
  wp (dispatch id typ pl ;; logAudit has_audit sub action rid det ;; mret x)
    (λ _ st' _, P (the_store st')) w st.
Proof.
  intros HP. wp_step. apply wp_dispatch. intros st1 w1 E1. wp_step. apply wp_logAudit.
  intros st2 w2 E2. wp_step. congruence.
Qed.

Lemma wp_report_unit id typ pl sub action rid det (P : StorageStore → Prop) w st :
  P (the_store st) →
  wp (dispatch id typ pl ;; logAudit has_audit sub action rid det)
    (λ _ st' _, P (the_store st')) w st.
Proof.
  intros HP. wp_step. apply wp_dispatch. intros st1 w1 E1. apply wp_logAudit.
  intros st2 w2 E2. congruence.
Qed.

Lemma volume_Create_run (v : Volume) w s :
  World_ok w → Volume_ID v = "" →
  (∃ e w', volume_Create v w s = (Err e, s, w')) ∨
  ((∀ id u, StorageStore_volumes s !! id = Some u →
      ¬ (Volume_PoolID u = Volume_PoolID v ∧ Volume_Name u = Volume_Name v)) ∧
   ∃ t w', let v' := v <| Volume_ID := w_uuid w (w_uuids w) |> <| Volume_CreatedAt := t |>
                       <| Volume_UpdatedAt := t |> in
     volume_Create v w s = (Ok v', put_volume v' s, w')).
Proof.
  intros Hw Hid. unfold volume_Create, find_in. unfold mbind, go_bind, get, range_map. simpl.
  destruct (list_find _ (entries _ _)) as [[i [k u]]|] eqn:Ef.
  - left. do 2 eexists. reflexivity.
  - right. split.
    + intros id u Hu. by apply (proj1 (find_entries_None w _ _ _ Hw) Ef id u Hu).
    + rewrite decide_True by done. do 2 eexists. reflexivity.
Qed.

Lemma pool_Create_run (p : StoragePool) w s :
  StoragePool_ID p = "" →
  (∃ e w', pool_Create p w s = (Err e, s, w')) ∨
  (∃ t w', let p' := p <| StoragePool_ID := w_uuid w (w_uuids w) |>
                       <| StoragePool_CreatedAt := t |> <| StoragePool_UpdatedAt := t |> in
     pool_Create p w s = (Ok p', put_pool p' s, w')).
Proof.
  intros Hid. unfold pool_Create, find_in. unfold mbind, go_bind, get, range_map. simpl.
  destruct (list_find _ (entries _ _)) as [[i [k u]]|].
  - left. do 2 eexists. reflexivity.
  - right. rewrite decide_True by done. do 2 eexists. reflexivity.
Qed.

Lemma CreateStoragePool_effect room off sub req w st :
  (∀ w', same_oracles w w' → StorageStore_pools (the_store st) !! w_uuid w' (w_uuids w') = None) →
  effect room off (CreateStoragePool auth has_audit sub req) st w.
Proof.
  intros Hfresh. unfold effect, CreateStoragePool. case_decide; [constructor|].
  apply wp_prefix; [apply quiet_lift|constructor|]. intros _ w1 H1.
  apply wp_prefix; [apply quiet_lookup_node|constructor|]. intros n w2 H2. wp_step.
  rewrite wp_on_repo. set (p := mkStoragePool _ _ _ _ _ _ _ _ _ _).
  destruct (pool_Create_run p (tick (tick w2)) (the_store st) eq_refl)
    as [(e & w' & Hr)|(t & w' & Hr)]; apply (proj2 (wp_run _ _ _ _ _ _ _ Hr)); [constructor|].
  wp_step. apply wp_logAudit. intros st' w'' E. wp_step. rewrite E. cbn.
  apply (c_pool _ _ _ (p <| StoragePool_ID := w_uuid w2 (w_uuids w2) |>
    <| StoragePool_CreatedAt := t |> <| StoragePool_UpdatedAt := t |>)); [|done].
  apply (Hfresh w2). by eapply same_oracles_trans.
Qed.

Lemma create_volume_commit_effect room off sub req (p : StoragePool) w st :
  World_ok w → keyed (the_store st) →
  StorageStore_volumes (the_store st) !! w_uuid w (w_uuids w) = None →
  StorageStore_pools (the_store st) !! StoragePool_ID p = Some p →
  0 < CreateVolumeRequest_SizeBytes req →
  room (StoragePool_ID p) (CreateVolumeRequest_SizeBytes req) →
  effect room off (create_volume_commit has_audit sub req p) st w.
Proof.
  intros Hw Hk Hfresh Hp Hpos Hroom. unfold effect, create_volume_commit.
  unfold caller_id. destruct sub as [u|]; wp_step; [|constructor].
  rewrite wp_on_repo. set (v := mkVolume _ _ _ _ _ _ _ _ _ _ _ _).
  destruct (volume_Create_run v (tick (tick w)) (the_store st) Hw eq_refl)
    as [(e & w' & Hr)|(Hnew & t & w' & Hr)]; apply (proj2 (wp_run _ _ _ _ _ _ _ Hr));
    [constructor|].
  rewrite wp_bind. apply wp_charge_pool; [by eexists|]. intros st1 w1 E1. cbv beta iota.
  set (v' := set_field _ _).
  apply (wp_report _ _ _ _ _ _ _ _ (change room off (the_store st))). rewrite E1. cbn.
  by apply (c_create room off (the_store st) v' p (now_of w')).
Qed.

Lemma CreateVolume_effect room off sub req w st :
  World_ok w → keyed (the_store st) →
  StorageStore_volumes (the_store st) !! w_uuid w (w_uuids w) = None →
  room (CreateVolumeRequest_PoolID req) (CreateVolumeRequest_SizeBytes req) →
  effect room off (CreateVolume auth has_audit sub req) st w.
Proof.
  intros Hw Hk Hfresh Hroom. unfold effect, CreateVolume, create_volume_load.
  rewrite wp_bind. case_decide as Hreq; [constructor|]. wp_step. rewrite wp_on_repo.
  apply wp_pool_GetByID; [intros p Hp|intros _]; wp_step; [|destruct st as [[] ?]; constructor].
  pose proof (proj1 Hk _ _ Hp) as Hid. unfold authorize. wp_step.
  destruct (@Authorize auth _ _ _) as [[]|e]; wp_step; [|destruct st as [[] ?]; constructor].
  assert (mkStorageEnv (the_store st) (se_instances st.1) (se_nodes st.1) = st.1) as E
    by (by destruct st as [[] ?]).
  rewrite E, <-surjective_pairing. rewrite <-Hid in Hp, Hroom.
  apply create_volume_commit_effect; [done|done|done|done|lia|done].
Qed.

Lemma AttachVolume_effect room off sub vid iid mp ro w st :
  keyed (the_store st) → effect room off (AttachVolume auth has_audit sub vid iid mp ro) st w.
Proof.
  intros Hk. unfold effect, AttachVolume. rewrite wp_bind.
  apply wp_open_volume; [constructor|]. intros v Hv _. pose proof (proj2 Hk _ _ Hv) as Hid.
  case_decide as Hatt; [constructor|].
  apply wp_prefix; [apply quiet_lookup_instance|constructor|]. intros inst w1 _.
  apply wp_prefix; [apply quiet_lift|constructor|]. intros _ w2 _.
  apply wp_prefix; [|constructor|]. { apply quiet_on_repo. unfold pool_GetByID. quiet. }
  intros p w3 _. destruct (decide (StoragePool_NodeID p ≠ Instance__NodeID inst)); [constructor|].
  cbv zeta. set (v1 := if decide (mp ≠ "") then _ else _).
  rewrite wp_bind. apply wp_put_volume.
  { subst v1. rewrite <-Hid in Hv. case_decide; cbn; by eexists. }
  intros st1 w4 v' E1. cbv beta iota. apply (wp_report _ _ _ _ _ _ _ _ (change room off (the_store st))).
  rewrite E1. subst v' v1. rewrite <-Hid in Hv.
  case_decide; [by apply (c_attach room off (the_store st) v)|].
  pose proof (c_attach room off (the_store st) v (Instance__ID inst) (Volume_MountPath v) ro
    (now_of w3) Hv Hatt) as Hc.
  by destruct v.
Qed.

Lemma DetachVolume_effect room off sub vid w st :
  keyed (the_store st) → off vid → effect room off (DetachVolume auth has_audit sub vid) st w.
Proof.
  intros Hk Hoff. unfold effect, DetachVolume. rewrite wp_bind.
  apply wp_open_volume; [constructor|]. intros v Hv _. pose proof (proj2 Hk _ _ Hv) as Hid.
  case_decide as Hatt; [constructor|].
  apply wp_prefix; [apply quiet_lookup_instance|constructor|]. intros inst w1 _.
  rewrite <-Hid in Hv. rewrite wp_bind. apply wp_put_volume; [by eexists|].
  intros st1 w4 v' E1. cbv beta iota. apply (wp_report _ _ _ _ _ _ _ _ (change room off (the_store st))).
  rewrite E1. subst v'. apply (c_detach room off (the_store st) v); [done| |by rewrite Hid].
  destruct (decide (IsAttached v)); tauto.
Qed.

Lemma wp_volume_pool (v : Volume) {Y} (f : StoragePool → go env Y)
    (Q : result Y → env → World → Prop) w st :
  keyed (the_store st) → (∀ e, Q (Err e) st w) →
  (∀ p, StorageStore_pools (the_store st) !! Volume_PoolID v = Some p →
     StoragePool_ID p = Volume_PoolID v → wp (f p) Q w st) →
  wp (on_repo (pool_GetByID (Volume_PoolID v)) ≫= f) Q w st.
Proof.
  destruct st as [[s i g] a]. intros Hk He Hf. rewrite wp_bind, wp_on_repo.
  apply wp_pool_GetByID; [|intros _; apply He]. intros p Hp. apply Hf; [done|].
  by apply (proj1 Hk).
Qed.

Lemma ResizeVolume_effect room off sub vid n w st :
  keyed (the_store st) →
  (∀ v, StorageStore_volumes (the_store st) !! vid = Some v →
     Volume_SizeBytes v ≤ n → room (Volume_PoolID v) (n - Volume_SizeBytes v)) →
  effect room off (ResizeVolume auth has_audit sub vid n) st w.
Proof.
  intros Hk Hroom. unfold effect, ResizeVolume. rewrite wp_bind.
  apply wp_open_volume; [constructor|]. intros v Hv _. pose proof (proj2 Hk _ _ Hv) as Hid.
  case_decide as Hn; [constructor|].
  apply wp_volume_pool; [done|constructor|]. intros p Hp Hpid.
  specialize (Hroom v Hv ltac:(lia)). rewrite <-Hid in Hv.
  rewrite wp_bind. apply wp_put_volume; [by eexists|]. intros st1 w1 v' E1.
  rewrite wp_bind. apply wp_charge_pool; [rewrite E1; cbn; rewrite Hpid; by eexists|].
  intros st2 w2 E2. cbv beta iota. apply (wp_report _ _ _ _ _ _ _ _ (change room off (the_store st))).
  rewrite E2, E1. apply c_resize; [done|done|lia|done].
Qed.

Lemma DeleteVolume_effect room off sub vid w st :
  keyed (the_store st) → effect room off (DeleteVolume auth has_audit sub vid) st w.
Proof.
  intros Hk. unfold effect, DeleteVolume. rewrite wp_bind.
  apply wp_open_volume; [constructor|]. intros v Hv _. pose proof (proj2 Hk _ _ Hv) as Hid.
  case_decide as Hatt; [constructor|].
  apply wp_volume_pool; [done|constructor|]. intros p Hp Hpid. rewrite <-Hid in Hv.
  rewrite wp_bind, wp_on_repo. unfold volume_Delete. rewrite wp_bind.
  apply wp_volume_GetByID; intros; [|congruence]. cbv beta iota. rewrite wp_modify.
  cbv beta iota zeta. rewrite wp_bind. apply wp_charge_pool; [cbn; rewrite Hpid; by eexists|].
  intros st2 w2 E2. cbv beta iota. apply (wp_report_unit _ _ _ _ _ _ _ (change room off (the_store st))).
  rewrite E2. cbn. by apply (c_delete room off (the_store st) v p).
Qed.

Lemma CreateSnapshot_effect room off sub vid name w st :
  effect room off (CreateSnapshot auth has_audit sub vid name) st w.
Proof.
  unfold effect, CreateSnapshot. apply wp_prefix; [quiet|constructor|]. intros nm w1 _.
  rewrite wp_bind. apply wp_open_volume; [constructor|]. intros v _ _.
  apply wp_prefix; [|constructor|]. { apply quiet_on_repo. unfold pool_GetByID. quiet. }
  intros p w2 _. apply wp_prefix; [apply quiet_now|constructor|]. intros now w3 _.
  rewrite wp_bind, wp_on_repo. unfold snapshot_Create, find_in. wp_step.
  destruct (list_find _ _) as [[i [k u]]|]; cbn; wp_step; [destruct st as [[[] ? ?] ?]; constructor|].
  unfold snapshot_command. apply wp_dispatch. intros st1 w4 E1. wp_step.
  apply wp_logAudit. intros st2 w5 E2. wp_step. rewrite E2, E1. apply c_snapshots.
Qed.

Lemma RestoreSnapshot_effect room off sub vid sid w st :
  effect room off (RestoreSnapshot auth has_audit sub vid sid) st w.
Proof.
  unfold effect, RestoreSnapshot. rewrite wp_bind.
  apply wp_open_volume; [constructor|]. intros v _ _.
  apply wp_prefix; [|constructor|]. { apply quiet_on_repo. unfold snapshot_GetByID. quiet. }
  intros sn w1 _.
  apply wp_prefix; [|constructor|]. { apply quiet_on_repo. unfold pool_GetByID. quiet. }
  intros p w2 _. apply (wp_report_unit _ _ _ _ _ _ _ (change room off (the_store st))). constructor.
Qed.

Lemma DeleteSnapshot_effect room off sub vid sid w st :
  effect room off (DeleteSnapshot auth has_audit sub vid sid) st w.
Proof.
  unfold effect, DeleteSnapshot. rewrite wp_bind.
  apply wp_open_volume; [constructor|]. intros v _ _.
  apply wp_prefix; [|constructor|]. { apply quiet_on_repo. unfold snapshot_GetByID. quiet. }
  intros sn w1 _.
  apply wp_prefix; [|constructor|]. { apply quiet_on_repo. unfold pool_GetByID. quiet. }
  intros p w2 _. rewrite wp_bind, wp_on_repo. unfold snapshot_Delete, snapshot_GetByID. wp_step.
  destruct (_ !! sid); wp_step; [|destruct st as [[[] ? ?] ?]; constructor].
  unfold snapshot_command. apply wp_dispatch. intros st1 w4 E1. wp_step.
  apply wp_logAudit. intros st2 w5 E2. rewrite E2, E1. apply c_snapshots.
Qed.
End effects.

(** ** The books of the pools *)

(** The bytes of the volumes of a pool. *)
Definition allocated (s : StorageStore) (pool : string) : Z :=
  msum (λ v, if decide (Volume_PoolID v = pool) then Volume_SizeBytes v else 0)
    (StorageStore_volumes s).

Definition accounted (s : StorageStore) : Prop :=
  ∀ id p, StorageStore_pools s !! id = Some p →
    StoragePool_UsedSpaceBytes p = allocated s id ∧ allocated s id ≤ max_int64.

(** A volume has a size and a pool, and is marked attached when it has an
    instance. *)
Definition volume_ok (s : StorageStore) (v : Volume) : Prop :=
  0 < Volume_SizeBytes v ∧ is_Some (StorageStore_pools s !! Volume_PoolID v) ∧
  (Volume_Status v = VolumeStatusAttached ↔ Volume_InstanceID v ≠ None).

Record storage_ok (s : StorageStore) : Prop := {
  st_keyed : keyed s;
  st_accounted : accounted s;
  st_volumes : ∀ id v, StorageStore_volumes s !! id = Some v → volume_ok s v;
  st_names : ∀ id id' v v', StorageStore_volumes s !! id = Some v →
    StorageStore_volumes s !! id' = Some v' →
    Volume_PoolID v = Volume_PoolID v' → Volume_Name v = Volume_Name v' → id = id'
}.

(** The bytes a call adds keep the total of the pool an [int64]. *)
Definition fits (s : StorageStore) (pool : string) (n : Z) : Prop :=
  allocated s pool + n ≤ max_int64.

Lemma empty_storage_ok : storage_ok empty_storage.
Proof. by split. Qed.

Lemma allocated_nonneg s pool : (∀ id v, StorageStore_volumes s !! id = Some v → volume_ok s v) →
  0 ≤ allocated s pool.
Proof.
  intros Hv. apply msum_nonneg. intros k v Hk. destruct (Hv _ _ Hk) as (? & _).
  case_decide; lia.
Qed.

Lemma allocated_entry s id v : (∀ id v, StorageStore_volumes s !! id = Some v → volume_ok s v) →
  StorageStore_volumes s !! id = Some v → Volume_SizeBytes v ≤ allocated s (Volume_PoolID v).
Proof.
  intros Hok Hv. unfold allocated.
  pose proof (msum_entry (λ u, if decide (Volume_PoolID u = Volume_PoolID v)
    then Volume_SizeBytes u else 0) _ _ _ ltac:(intros k u Hk; destruct (Hok _ _ Hk) as (? & _);
      simpl; case_decide; lia) Hv) as H. simpl in H. by rewrite decide_True in H.
Qed.

Lemma accounted_charge s s2 p pid d t :
  keyed s → accounted s → StorageStore_pools s2 = StorageStore_pools s →
  StorageStore_pools s !! pid = Some p →
  (∀ id, allocated s2 id = allocated s id + if decide (id = pid) then d else 0) →
  allocated s2 pid ≤ max_int64 →
  accounted (put_pool (recharged p (StoragePool_UsedSpaceBytes p + d) t) s2).
Proof.
  intros Hk Ha Hp2 Hp Hd Hmax id q Hq. cbn in Hq. rewrite (proj1 Hk _ _ Hp), Hp2 in Hq.
  change (allocated (put_pool _ s2) id) with (allocated s2 id).
  apply lookup_insert_Some in Hq as [[<- <-]|[Hne Hq]].
  - cbn. destruct (Ha _ _ Hp) as [-> _]. rewrite Hd, decide_True by done. rewrite Hd in Hmax.
    rewrite decide_True in Hmax; done.
  - destruct (Ha _ _ Hq) as [-> Hm]. rewrite Hd, decide_False by done. lia.
Qed.

(** The volumes stay in order when one is added, rewritten or removed. *)
Lemma volume_ok_pools s s' v :
  (∀ id, is_Some (StorageStore_pools s !! id) → is_Some (StorageStore_pools s' !! id)) →
  volume_ok s v → volume_ok s' v.
Proof. intros Hp (H1 & H2 & H3). split_and!; auto; tauto. Qed.

Lemma put_pool_Some p s id :
  is_Some (StorageStore_pools s !! id) → is_Some (StorageStore_pools (put_pool p s) !! id).
Proof. intros [q Hq]. cbn. destruct (decide (id = StoragePool_ID p)) as [->|];
  [rewrite lookup_insert_eq|rewrite lookup_insert_ne by done]; eauto. Qed.

Lemma keyed_put_pool p s : keyed s → keyed (put_pool p s).
Proof. intros [H1 H2]. split; [|done]. intros id q. cbn.
  intros [[<- <-]|[_ Hq]]%lookup_insert_Some; auto. Qed.
Lemma keyed_put_volume v s : keyed s → keyed (put_volume v s).
Proof. intros [H1 H2]. split; [done|]. intros id q. cbn.
  intros [[<- <-]|[_ Hq]]%lookup_insert_Some; auto. Qed.
Lemma keyed_drop_volume id s : keyed s → keyed (drop_volume id s).
Proof. intros [H1 H2]. split; [done|]. intros id' q. cbn. intros [_ Hq]%lookup_delete_Some; auto. Qed.
#[local] Hint Resolve keyed_put_pool keyed_put_volume keyed_drop_volume : core.

(** A volume is added next to the others. *)
Lemma volumes_add s s2 v :
  storage_ok s → StorageStore_volumes s2 = <[Volume_ID v := v]> (StorageStore_volumes s) →
  (∀ id, is_Some (StorageStore_pools s !! id) → is_Some (StorageStore_pools s2 !! id)) →
  volume_ok s2 v →
  (∀ id u, StorageStore_volumes s !! id = Some u → id ≠ Volume_ID v →
     ¬ (Volume_PoolID u = Volume_PoolID v ∧ Volume_Name u = Volume_Name v)) →
  (∀ id u, StorageStore_volumes s2 !! id = Some u → volume_ok s2 u) ∧
  (∀ id id' u u', StorageStore_volumes s2 !! id = Some u →
     StorageStore_volumes s2 !! id' = Some u' →
     Volume_PoolID u = Volume_PoolID u' → Volume_Name u = Volume_Name u' → id = id').
Proof.
  intros Hok Hs2 Hp Hv Hn. rewrite Hs2. split.
  - intros id u [[_ <-]|[_ Hu]]%lookup_insert_Some; [done|].
    eapply volume_ok_pools; [done|]. by eapply st_volumes.
  - intros id id' u u' [[<- <-]|[Hne Hu]]%lookup_insert_Some
      [[<- <-]|[Hne' Hu']]%lookup_insert_Some Hpool Hname; [done|..].
    + exfalso. by eapply Hn.
    + exfalso. by eapply Hn.
    + by eapply st_names.
Qed.

(** A volume keeps its pool and its name when it is rewritten. *)
Lemma volumes_rewrite s s2 v v' :
  storage_ok s → StorageStore_volumes s !! Volume_ID v = Some v →
  Volume_ID v' = Volume_ID v → Volume_PoolID v' = Volume_PoolID v →
  Volume_Name v' = Volume_Name v →
  StorageStore_volumes s2 = <[Volume_ID v' := v']> (StorageStore_volumes s) →
  (∀ id, is_Some (StorageStore_pools s !! id) → is_Some (StorageStore_pools s2 !! id)) →
  volume_ok s2 v' →
  (∀ id u, StorageStore_volumes s2 !! id = Some u → volume_ok s2 u) ∧
  (∀ id id' u u', StorageStore_volumes s2 !! id = Some u →
     StorageStore_volumes s2 !! id' = Some u' →
     Volume_PoolID u = Volume_PoolID u' → Volume_Name u = Volume_Name u' → id = id').
Proof.
  intros Hok Hv Hid Hpool Hname Hs2 Hp Hv'. apply (volumes_add s s2 v'); try done.
  intros id u Hu Hne [E1 E2]. apply Hne. rewrite Hid.
  apply (st_names s Hok id (Volume_ID v) u v); congruence.
Qed.

Lemma allocated_put s s2 v v' id :
  StorageStore_volumes s !! Volume_ID v = Some v → Volume_ID v' = Volume_ID v →
  Volume_PoolID v' = Volume_PoolID v →
  StorageStore_volumes s2 = <[Volume_ID v' := v']> (StorageStore_volumes s) →
  allocated s2 id = allocated s id +
    if decide (id = Volume_PoolID v) then Volume_SizeBytes v' - Volume_SizeBytes v else 0.
Proof.
  intros Hv Hid Hp Hs2. unfold allocated. rewrite Hs2, Hid, (msum_replace _ _ _ v) by done.
  rewrite Hp. destruct (decide (Volume_PoolID v = id)); destruct (decide (id = Volume_PoolID v));
    try congruence; lia.
Qed.

(** An attachment or a detachment. *)
Lemma relink_ok s v v' :
  storage_ok s → StorageStore_volumes s !! Volume_ID v = Some v →
  Volume_ID v' = Volume_ID v → Volume_PoolID v' = Volume_PoolID v →
  Volume_Name v' = Volume_Name v → Volume_SizeBytes v' = Volume_SizeBytes v →
  (Volume_Status v' = VolumeStatusAttached ↔ Volume_InstanceID v' ≠ None) →
  storage_ok (put_volume v' s).
Proof.
  intros Hok Hv Hid Hpool Hname Hsize Hatt.
  destruct (volumes_rewrite s (put_volume v' s) v v') as [H1 H2]; try done.
  { destruct (st_volumes s Hok _ _ Hv) as (H1 & H2 & _). unfold volume_ok.
    rewrite Hpool, Hsize. by split_and!. }
  split; [apply keyed_put_volume, Hok| |done|done].
  intros id p Hp. rewrite (allocated_put s (put_volume v' s) v v') by done.
  rewrite Hsize, Z.sub_diag. destruct (st_accounted s Hok id p Hp). case_decide; lia.
Qed.

(** The rules below change the volumes of one pool and charge it with the
    difference [d]. *)
Lemma charged_ok s s2 p pid d t :
  storage_ok s → StorageStore_pools s2 = StorageStore_pools s → keyed s2 →
  StorageStore_pools s !! pid = Some p →
  (∀ id, allocated s2 id = allocated s id + if decide (id = pid) then d else 0) →
  allocated s2 pid ≤ max_int64 →
  (∀ id u, StorageStore_volumes s2 !! id = Some u → volume_ok s2 u) ∧
  (∀ id id' u u', StorageStore_volumes s2 !! id = Some u →
     StorageStore_volumes s2 !! id' = Some u' →
     Volume_PoolID u = Volume_PoolID u' → Volume_Name u = Volume_Name u' → id = id') →
  storage_ok (put_pool (recharged p (StoragePool_UsedSpaceBytes p + d) t) s2).
Proof.
  intros Hok Hp2 Hk2 Hp Hd Hmax [H1 H2]. split; [auto| |..|done].
  - by apply (accounted_charge s s2 p pid d t (st_keyed s Hok) (st_accounted s Hok)).
  - intros id u Hu. eapply volume_ok_pools; [|by eapply H1]. intros. by apply put_pool_Some.
Qed.

Lemma create_ok s v p t :
  storage_ok s → StorageStore_volumes s !! Volume_ID v = None →
  (∀ id u, StorageStore_volumes s !! id = Some u →
     ¬ (Volume_PoolID u = Volume_PoolID v ∧ Volume_Name u = Volume_Name v)) →
  StorageStore_pools s !! Volume_PoolID v = Some p → 0 < Volume_SizeBytes v →
  fits s (Volume_PoolID v) (Volume_SizeBytes v) →
  Volume_Status v = VolumeStatusReady → Volume_InstanceID v = None →
  storage_ok (put_pool (recharged p
    (add64 (StoragePool_UsedSpaceBytes p) (Volume_SizeBytes v)) t) (put_volume v s)).
Proof.
  intros Hok Hid Hnew Hp Hpos Hfit Hst Hin.
  assert (∀ id, allocated (put_volume v s) id = allocated s id +
    if decide (id = Volume_PoolID v) then Volume_SizeBytes v else 0) as Hd.
  { intros id. unfold allocated. cbn. rewrite msum_insert by done.
    destruct (decide (Volume_PoolID v = id)); destruct (decide (id = Volume_PoolID v));
      try congruence; lia. }
  destruct (st_accounted s Hok _ _ Hp) as [Hu Hm].
  pose proof (allocated_nonneg s (Volume_PoolID v) (st_volumes s Hok)) as Hnn.
  unfold fits in Hfit. rewrite add64_id by (unfold int64_ok, max_int64 in *; lia).
  apply (charged_ok s (put_volume v s) p (Volume_PoolID v)); [done|done| |done|done| |].
  - apply keyed_put_volume, Hok.
  - rewrite Hd, decide_True by done. lia.
  - apply (volumes_add s _ v); [done|done|done| |].
    + split_and!; [lia|by eexists|by rewrite Hst, Hin].
    + intros id u Hu' _. by eapply Hnew.
Qed.

Lemma resize_ok s v p n t t' :
  storage_ok s → StorageStore_volumes s !! Volume_ID v = Some v →
  StorageStore_pools s !! Volume_PoolID v = Some p → Volume_SizeBytes v ≤ n →
  fits s (Volume_PoolID v) (n - Volume_SizeBytes v) →
  storage_ok (put_pool (recharged p
    (add64 (StoragePool_UsedSpaceBytes p) (sub64 n (Volume_SizeBytes v))) t')
    (put_volume (v <| Volume_SizeBytes := n |> <| Volume_UpdatedAt := t |>) s)).
Proof.
  intros Hok Hv Hp Hn Hfit. set (v' := _ <| Volume_UpdatedAt := t |>).
  destruct (st_accounted s Hok _ _ Hp) as [Hu Hm].
  pose proof (allocated_entry s _ v (st_volumes s Hok) Hv) as Hle.
  destruct (st_volumes s Hok _ _ Hv) as (Hpos & Hpool & Hatt). unfold fits in Hfit.
  assert (int64_ok (n - Volume_SizeBytes v)) as Hi by (unfold int64_ok, max_int64 in *; lia).
  rewrite sub64_id by done. rewrite add64_id by (unfold int64_ok, max_int64 in *; lia).
  apply (charged_ok s (put_volume v' s) p (Volume_PoolID v)); [done|done| |done| |..].
  - apply keyed_put_volume, Hok.
  - intros id. by apply (allocated_put s (put_volume v' s) v v').
  - rewrite (allocated_put s (put_volume v' s) v v') by done.
    rewrite decide_True by done. cbn. lia.
  - apply (volumes_rewrite s _ v v'); try done. split_and!; [cbn; lia|done|done].
Qed.

Lemma delete_ok s v p t :
  storage_ok s → StorageStore_volumes s !! Volume_ID v = Some v →
  StorageStore_pools s !! Volume_PoolID v = Some p →
  let used := sub64 (StoragePool_UsedSpaceBytes p) (Volume_SizeBytes v) in
  storage_ok (put_pool (recharged p (if decide (used < 0) then 0 else used) t)
    (drop_volume (Volume_ID v) s)).
Proof.
  intros Hok Hv Hp used. destruct (st_accounted s Hok _ _ Hp) as [Hu Hm].
  pose proof (allocated_entry s _ v (st_volumes s Hok) Hv) as Hle.
  destruct (st_volumes s Hok _ _ Hv) as (Hpos & _ & _).
  assert (used = StoragePool_UsedSpaceBytes p + - Volume_SizeBytes v) as Hused.
  { subst used. rewrite sub64_id; [lia|]. unfold int64_ok, max_int64 in *. lia. }
  rewrite decide_False by lia. rewrite Hused.
  assert (∀ id, allocated (drop_volume (Volume_ID v) s) id = allocated s id +
    if decide (id = Volume_PoolID v) then - Volume_SizeBytes v else 0) as Hd.
  { intros id. unfold allocated. cbn.
    rewrite (msum_delete _ (StorageStore_volumes s) (Volume_ID v) v) by done.
    destruct (decide (Volume_PoolID v = id)); destruct (decide (id = Volume_PoolID v));
      try congruence; lia. }
  apply (charged_ok s _ p (Volume_PoolID v)); [done|done| |done|done| |].
  - apply keyed_drop_volume, Hok.
  - rewrite Hd, decide_True by done. lia.
  - cbn. split.
    + intros id u [_ Hu']%lookup_delete_Some. by eapply (st_volumes s Hok).
    + intros id id' u u' [_ H1]%lookup_delete_Some [_ H2]%lookup_delete_Some.
      by eapply (st_names s Hok).
Qed.

Lemma change_ok off s s' : storage_ok s → change (fits s) off s s' → storage_ok s'.
Proof.
  intros Hok. destruct 1.
  - done.
  - destruct Hok as [H1 H2 H3 H4]. by split.
  - destruct Hok as [H1 H2 H3 H4]. split; [auto| | |done].
    + intros id q. cbn. intros [[<- <-]|[_ Hq]]%lookup_insert_Some; [|by apply H2].
      match goal with E : StoragePool_UsedSpaceBytes _ = 0 |- _ => rewrite E end.
      assert (allocated s (StoragePool_ID p) = 0) as E0.
      { assert (∀ m : gmap string Volume, (∀ k v, m !! k = Some v → Volume_PoolID v ≠ StoragePool_ID p) →
          msum (λ v, if decide (Volume_PoolID v = StoragePool_ID p) then Volume_SizeBytes v else 0) m = 0)
          as Hz.
        { induction m as [|k v m Hk IH] using map_ind; intros Hm; [apply msum_empty|].
          rewrite msum_insert, decide_False by (done || apply (Hm k), lookup_insert_eq).
          rewrite IH; [done|]. intros k' v' Hk'. apply (Hm k').
          rewrite lookup_insert_ne; congruence. }
        apply Hz. intros k v Hk E. destruct (H3 _ _ Hk) as (_ & [q Hq] & _). congruence. }
      change (allocated (put_pool p s) (StoragePool_ID p)) with (allocated s (StoragePool_ID p)).
      rewrite E0. by split.
    + intros id v Hv. eapply volume_ok_pools; [|by eapply H3]. intros. by apply put_pool_Some.
  - by apply create_ok.
  - by apply (relink_ok s v).
  - by apply (relink_ok s v).
  - by apply resize_ok.
  - by apply delete_ok.
Qed.

(** ** Histories of calls *)

Section histories.
Context {G A : Type} `{!NodeGateway G, !AuditRepository A}.
Context (auth : Authorizer) (has_audit : bool).
Abbreviation env := (StorageEnv G * A)%type.
Implicit Types (st : env).

(** One call by anyone. New records get identifiers that are not in use, the
    bytes added keep the pool's total an [int64], and a volume is detached
    only where [off] says so. The instances, the nodes and the trail may change
    between calls. *)
Inductive storage_step (off : string → Prop) : env → env → Prop :=
  | s_outside st i g a : storage_step off st (mkStorageEnv (the_store st) i g, a)
  | s_pool w st sub req :
      (∀ w', same_oracles w w' →
         StorageStore_pools (the_store st) !! w_uuid w' (w_uuids w') = None) →
      storage_step off st (exec (CreateStoragePool auth has_audit sub req) w st)
  | s_create w st sub req : World_ok w →
      StorageStore_volumes (the_store st) !! w_uuid w (w_uuids w) = None →
      fits (the_store st) (CreateVolumeRequest_PoolID req) (CreateVolumeRequest_SizeBytes req) →
      storage_step off st (exec (CreateVolume auth has_audit sub req) w st)
  | s_attach w st sub vid iid mp ro :
      storage_step off st (exec (AttachVolume auth has_audit sub vid iid mp ro) w st)
  | s_detach w st sub vid : off vid →
      storage_step off st (exec (DetachVolume auth has_audit sub vid) w st)
  | s_resize w st sub vid n :
      (∀ v, StorageStore_volumes (the_store st) !! vid = Some v → Volume_SizeBytes v ≤ n →
         fits (the_store st) (Volume_PoolID v) (n - Volume_SizeBytes v)) →
      storage_step off st (exec (ResizeVolume auth has_audit sub vid n) w st)
  | s_delete w st sub vid : storage_step off st (exec (DeleteVolume auth has_audit sub vid) w st)
  | s_snapshot w st sub vid name :
      storage_step off st (exec (CreateSnapshot auth has_audit sub vid name) w st)
  | s_restore w st sub vid sid :
      storage_step off st (exec (RestoreSnapshot auth has_audit sub vid sid) w st)
  | s_unsnapshot w st sub vid sid :
      storage_step off st (exec (DeleteSnapshot auth has_audit sub vid sid) w st).

Lemma storage_step_change off st st' :
  storage_step off st st' → keyed (the_store st) →
  change (fits (the_store st)) off (the_store st) (the_store st').
Proof.
  intros Hs Hk.
  destruct Hs as [|w st sub req Hf|w st sub req Hw Hf Hr|w st sub vid iid mp ro|w st sub vid Ho
    |w st sub vid n Hr|w st sub vid|w st sub vid name|w st sub vid sid|w st sub vid sid].
  - apply c_same.
  - exact (CreateStoragePool_effect auth has_audit _ off sub req w st Hf).
  - exact (CreateVolume_effect auth has_audit _ off sub req w st Hw Hk Hf Hr).
  - exact (AttachVolume_effect auth has_audit _ off sub vid iid mp ro w st Hk).
  - exact (DetachVolume_effect auth has_audit _ off sub vid w st Hk Ho).
  - exact (ResizeVolume_effect auth has_audit _ off sub vid n w st Hk Hr).
  - exact (DeleteVolume_effect auth has_audit _ off sub vid w st Hk).
  - exact (CreateSnapshot_effect auth has_audit _ off sub vid name w st).
  - exact (RestoreSnapshot_effect auth has_audit _ off sub vid sid w st).
  - exact (DeleteSnapshot_effect auth has_audit _ off sub vid sid w st).
Qed.

Lemma storage_steps_ok off st st' :
  rtc (storage_step off) st st' → storage_ok (the_store st) → storage_ok (the_store st').
Proof.
  induction 1 as [|st1 st2 st3 H12 _ IH]; [done|]. intros Hok. apply IH.
  eapply change_ok; [done|]. apply storage_step_change; [done|apply Hok].
Qed.

(** C11 the books of the pools are right in every history: what a pool records
    as used is the sum of the sizes of its volumes, volume names are unique in
    a pool, and a volume is marked attached exactly while it has an instance. *)
Theorem pool_accounting off st0 st :
  the_store st0 = empty_storage → rtc (storage_step off) st0 st →
  (∀ id p, StorageStore_pools (the_store st) !! id = Some p →
     StoragePool_UsedSpaceBytes p = allocated (the_store st) id ∧
     0 ≤ StoragePool_UsedSpaceBytes p ≤ max_int64) ∧
  (∀ id id' v v', StorageStore_volumes (the_store st) !! id = Some v →
     StorageStore_volumes (the_store st) !! id' = Some v' →
     Volume_PoolID v = Volume_PoolID v' → Volume_Name v = Volume_Name v' → id = id') ∧
  (∀ id v, StorageStore_volumes (the_store st) !! id = Some v →
     Volume_Status v = VolumeStatusAttached ↔ Volume_InstanceID v ≠ None).
Proof.
  intros H0 Hr.
  assert (storage_ok (the_store st)) as Hok.
  { eapply storage_steps_ok; [done|]. rewrite H0. apply empty_storage_ok. }
  split_and!.
  - intros id p Hp. destruct (st_accounted _ Hok id p Hp) as [-> Hm].
    split; [done|]. split; [apply allocated_nonneg, Hok|done].
  - apply Hok.
  - intros id v Hv. apply (st_volumes _ Hok id v Hv).
Qed.

(** The volume [vid] of [s] is attached to [i]; it keeps its identity. *)
Definition bound_to (v : Volume) (i : string) (s : StorageStore) : Prop :=
  ∃ v', StorageStore_volumes s !! Volume_ID v = Some v' ∧ Volume_ID v' = Volume_ID v ∧
    Volume_InstanceID v' = Some i ∧
    Volume_PoolID v' = Volume_PoolID v ∧ Volume_UserID v' = Volume_UserID v ∧
    Volume_Name v' = Volume_Name v ∧ Volume_SizeBytes v ≤ Volume_SizeBytes v'.

(** A change that detaches other volumes only leaves an attached one alone. *)
Lemma bound_to_change room v i s s' :
  i ≠ "" → bound_to v i s → change room (λ id, id ≠ Volume_ID v) s s' → bound_to v i s'.
Proof.
  intros Hi (u & Hu & Hid & Hin & Hp & Ho & Hn & Hsz) Hc.
  assert (IsAttached u) as Hatt by (split; rewrite Hin; congruence).
  destruct Hc as [| | |x p t Hx|x j mp ro t Hx Hna|x t Hx _ Hoff|x p n t t' Hx _ Hn'|x p t Hx Hna];
    cbn; try by (exists u; split_and!).
  - assert (Volume_ID x ≠ Volume_ID v) by congruence.
    exists u. split_and!; [cbn; by rewrite lookup_insert_ne|done..].
  - assert (Volume_ID x ≠ Volume_ID v).
    { intros E. rewrite E in Hx. apply Hna. congruence. }
    exists u. split_and!; [cbn; by rewrite lookup_insert_ne|done..].
  - exists u. split_and!; [cbn; by rewrite lookup_insert_ne|done..].
  - destruct (decide (Volume_ID x = Volume_ID v)) as [E|E].
    + rewrite E in Hx. assert (x = u) as -> by congruence. unfold bound_to. cbn. rewrite E.
      eexists. cbn. split; [apply lookup_insert_eq|]. cbn. split_and!; try done. lia.
    + exists u. split_and!; [cbn; by rewrite lookup_insert_ne|done..].
  - assert (Volume_ID x ≠ Volume_ID v).
    { intros E. rewrite E in Hx. apply Hna. congruence. }
    exists u. split_and!; [cbn; by rewrite lookup_delete_ne|done..].
Qed.

(** What an allowed caller is told about an attached volume. *)
Lemma attached_refused {Y} sub action vid v (k : Volume → go env Y) w st :
  StorageStore_volumes (the_store st) !! vid = Some v →
  @Authorize auth sub action (Some (Volume_Resource v)) = Ok () →
  k v w st = (Err ErrVolumeAttached, st, w) →
  (open_volume auth sub action vid ≫= k) w st = (Err ErrVolumeAttached, st, w).
Proof.
  intros Hv Ha Hk. destruct st as [[s i g] a]. cbn in Hv.
  unfold open_volume, on_repo, on_store, zoom, volume_GetByID, authorize, lift.
  unfold mbind, go_bind, get. cbn. rewrite Hv. cbn. rewrite Ha. exact Hk.
Qed.

(** An attached volume is protected: until it is detached it stays with its
    instance, in its pool and with its owner, however often others call, and
    every attempt to delete it or to attach it elsewhere is refused. *)
Theorem attached_volume_protected st st' (vid i : string) (v : Volume) (w : World) :
  storage_ok (the_store st) → StorageStore_volumes (the_store st) !! vid = Some v →
  Volume_InstanceID v = Some i → i ≠ "" →
  rtc (storage_step (λ id, id ≠ vid)) st st' →
  ∃ v', StorageStore_volumes (the_store st') !! vid = Some v' ∧
    Volume_InstanceID v' = Some i ∧ Volume_PoolID v' = Volume_PoolID v ∧
    Volume_UserID v' = Volume_UserID v ∧ Volume_SizeBytes v ≤ Volume_SizeBytes v' ∧
    (∀ sub, @Authorize auth sub "volume:delete" (Some (Volume_Resource v')) = Ok () →
       DeleteVolume auth has_audit sub vid w st' = (Err ErrVolumeAttached, st', w)) ∧
    (∀ sub iid mp ro, @Authorize auth sub "volume:attach" (Some (Volume_Resource v')) = Ok () →
       AttachVolume auth has_audit sub vid iid mp ro w st' = (Err ErrVolumeAttached, st', w)).
Proof.
  intros Hok Hv Hin Hi Hr. pose proof (proj2 (st_keyed _ Hok) _ _ Hv) as <-.
  assert (bound_to v i (the_store st)) as Hb by (by exists v; split_and!).
  assert (bound_to v i (the_store st')) as (v' & Hv' & Hid & Hin' & Hp & Ho & _ & Hsz).
  { clear Hv. revert Hok Hb. induction Hr as [|st1 st2 st3 H12 _ IH]; [done|]. intros Hok Hb.
    pose proof (storage_step_change _ _ _ H12 (st_keyed _ Hok)) as Hc.
    apply IH; [by eapply change_ok|by eapply bound_to_change]. }
  assert (IsAttached v') as Ha by (split; rewrite Hin'; congruence).
  exists v'. split_and!; [done..| |].
  all: intros; eapply attached_refused; [done|done|by rewrite decide_True].
Qed.

Lemma open_refused `{!@AuthorizerLaws auth} s action vid v st w :
  StorageStore_volumes (the_store st) !! vid = Some v →
  Volume_UserID v ≠ "" → Volume_UserID v ≠ Subject_UserID s →
  (∀ role, role ∈ ["superadmin"; "admin"; "operator"] → HasRole s role = false) →
  refused (open_volume (G := G) (A := A) auth (Some s) action vid) st w.
Proof.
  intros Hv Ho Hne Hroles. destruct st as [[sto i g] a]. cbn in Hv.
  destruct (@Authorize auth (Some s) action (Some (Volume_Resource v))) as [[]|e] eqn:Ha.
  - exfalso. destruct (authorize_tenant _ _ _ Ha Ho) as [E|(role & Hr & Hin)]; [done|].
    by rewrite Hroles in Hr.
  - exists e, w. unfold open_volume, on_repo, on_store, zoom, volume_GetByID, authorize, lift.
    unfold mbind, go_bind, get. cbn. rewrite Hv. cbn. by rewrite Ha.
Qed.

(** Tenants are isolated: a caller without an administrative role gets an
    error from every call on a volume another tenant owns, and nothing
    changes. *)
Theorem foreign_volume_denied `{!@AuthorizerLaws auth} (s : Subject) (vid : string)
    (v : Volume) st (w : World) :
  StorageStore_volumes (the_store st) !! vid = Some v →
  Volume_UserID v ≠ "" → Volume_UserID v ≠ Subject_UserID s →
  (∀ role, role ∈ ["superadmin"; "admin"; "operator"] → HasRole s role = false) →
  refused (GetVolume auth (Some s) vid) st w ∧
  (∀ iid mp ro, refused (AttachVolume auth has_audit (Some s) vid iid mp ro) st w) ∧
  refused (DetachVolume auth has_audit (Some s) vid) st w ∧
  (∀ n, refused (ResizeVolume auth has_audit (Some s) vid n) st w) ∧
  refused (DeleteVolume auth has_audit (Some s) vid) st w ∧
  (∀ name, refused (CreateSnapshot auth has_audit (Some s) vid name) st w) ∧
  refused (ListSnapshots auth (Some s) vid) st w ∧
  (∀ sid, refused (RestoreSnapshot auth has_audit (Some s) vid sid) st w) ∧
  (∀ sid, refused (DeleteSnapshot auth has_audit (Some s) vid sid) st w).
Proof.
  intros Hv Ho Hne Hroles.
  assert (∀ action w, refused (open_volume (G := G) (A := A) auth (Some s) action vid) st w) as Hden
    by (intros; by eapply open_refused).
  split_and!; try (intros; apply refused_bind, Hden); [apply Hden|].
  intros name. unfold CreateSnapshot.
  case_decide; (eapply refused_after; [reflexivity|apply refused_bind, Hden]).
Qed.
End histories.

(** ** A concrete cluster *)

Section demo.
#[local] Existing Instance tagging_digest.

Definition demo_node : Node :=
  mkNode "n1" "dc1" "n1" "n1.example" Node.StatusOnline "fp" 0 0 0 (of_int 0) (of_int 0) None
    false false "" None None 0 0.
Definition demo_env : StorageEnv Loopback * AuditStore :=
  (mkStorageEnv empty_storage demo_instances
     (mkLoopback (exec (NodeCreate demo_node) (calm 0) NewMemoryNodeStore)
        (Err Node.ErrNodeOffline) []), empty_audit).

Definition operator : option Subject :=
  Some (mkSubject "user" "u0" "u0" "root" "" ["superadmin"] [] [] ∅).
Definition tenant (id : string) : Subject :=
  mkSubject "user" id id id "" ["user"]
    ["volume:create"; "volume:read"; "volume:attach"; "volume:detach"; "volume:delete";
     "volume:update"; "volume:snapshot"; "volume:restore"; "instance:update"] [] ∅.

Definition pool_req : CreateStoragePoolRequest :=
  mkCreateStoragePoolRequest "n1" "fast" "zfs" 1000 None.
Definition vol_req (name : string) (n : Z) : CreateVolumeRequest :=
  mkCreateVolumeRequest "p0" name n "" "" false.

Definition with_pool : StorageEnv Loopback * AuditStore :=
  exec (CreateStoragePool DynamicAuthorizer true operator pool_req) (named "p") demo_env.
Definition with_volume : StorageEnv Loopback * AuditStore :=
  exec (CreateVolume DynamicAuthorizer true (Some (tenant "u1")) (vol_req "data" 400))
    (named "v") with_pool.
Definition with_attached : StorageEnv Loopback * AuditStore :=
  exec (AttachVolume DynamicAuthorizer true operator "v0" "i1" "" false) (named "a") with_volume.

(** Nothing compares a new volume with the free space of its pool. *)
Lemma pool_overcommitted :
  ∃ v p, answer (CreateVolume DynamicAuthorizer true (Some (tenant "u1")) (vol_req "huge" 5000))
    (named "h") with_pool = Ok v ∧
  StorageStore_pools (the_store (exec (CreateVolume DynamicAuthorizer true (Some (tenant "u1"))
    (vol_req "huge" 5000)) (named "h") with_pool)) !! "p0" = Some p ∧
  StoragePool_TotalSpaceBytes p < StoragePool_UsedSpaceBytes p ∧ FreeSpaceBytes p = 0.
Proof.
  do 2 eexists. split; [vm_compute; reflexivity|].
  split; [vm_compute; reflexivity|]. by split.
Qed.

(** Two creations that read the pool before either wrote it: the second write
    forgets the first volume. *)
Lemma concurrent_creations_lose_space : ∃ p1 p2 p,
  let load := create_volume_load DynamicAuthorizer (Some (tenant "u1")) in
  answer (load (vol_req "a" 100)) (named "x") with_pool = Ok p1 ∧
  answer (load (vol_req "b" 200)) (named "y") with_pool = Ok p2 ∧
  let st := exec (create_volume_commit true (Some (tenant "u1")) (vol_req "b" 200) p2) (named "y")
    (exec (create_volume_commit true (Some (tenant "u1")) (vol_req "a" 100) p1) (named "x")
       with_pool) in
  StorageStore_pools (the_store st) !! "p0" = Some p ∧
  StoragePool_UsedSpaceBytes p = 200 ∧ allocated (the_store st) "p0" = 300.
Proof.
  do 3 eexists. split; [vm_compute; reflexivity|]. split; [vm_compute; reflexivity|].
  split; [vm_compute; reflexivity|]. by split.
Qed.

(** A tenant deletes the snapshot of another tenant's volume by naming it next
    to a volume of its own. *)
Definition with_snapshot : StorageEnv Loopback * AuditStore :=
  exec (CreateSnapshot DynamicAuthorizer true (Some (tenant "u1")) "v0" "daily") (named "s")
    (exec (CreateVolume DynamicAuthorizer true (Some (tenant "u2")) (vol_req "mine" 10))
       (named "m") with_volume).

Lemma foreign_snapshot_deleted : ∃ v sn,
  StorageStore_volumes (the_store with_snapshot) !! "v0" = Some v ∧ Volume_UserID v = "u1" ∧
  StorageStore_snapshots (the_store with_snapshot) !! "s0" = Some sn ∧
  VolumeSnapshot_VolumeID sn = "v0" ∧
  let del := DeleteSnapshot DynamicAuthorizer true (Some (tenant "u2")) "m0" "s0" in
  answer del (named "d") with_snapshot = Ok () ∧
  StorageStore_snapshots (the_store (exec del (named "d") with_snapshot)) !! "s0" = None.
Proof.
  do 2 eexists. split; [vm_compute; reflexivity|]. split; [reflexivity|].
  split; [vm_compute; reflexivity|]. split; [reflexivity|]. by vm_compute.
Qed.

Lemma demo_steps off : rtc (storage_step DynamicAuthorizer true off) demo_env with_volume.
Proof.
  apply (rtc_l _ _ with_pool).
  { apply s_pool. intros w' _. apply lookup_empty. }
  apply rtc_once. apply s_create; [apply named_ok|reflexivity|].
  by vm_compute.
Qed.

Lemma pool_accounting_witness : ∃ p,
  StorageStore_pools (the_store with_volume) !! "p0" = Some p ∧
  StoragePool_UsedSpaceBytes p = allocated (the_store with_volume) "p0" ∧
  StoragePool_UsedSpaceBytes p = 400.
Proof.
  eexists. split; [vm_compute; reflexivity|]. split; [|reflexivity].
  refine (proj1 (proj1 (pool_accounting DynamicAuthorizer true (λ _, True) demo_env with_volume
    eq_refl (demo_steps _)) "p0" _ _)).
  vm_compute. reflexivity.
Defined.

Lemma with_attached_ok : storage_ok (the_store with_attached).
Proof.
  apply (storage_steps_ok DynamicAuthorizer true (λ _, True) demo_env); [|apply empty_storage_ok].
  eapply rtc_r; [apply demo_steps|]. apply s_attach.
Qed.

Lemma attached_volume_protected_witness : ∃ v,
  StorageStore_volumes (the_store with_attached) !! "v0" = Some v ∧
  let st' := exec (DeleteVolume DynamicAuthorizer true operator "v0") (named "z") with_attached in
  answer (AttachVolume DynamicAuthorizer true operator "v0" "i2" "" false) (named "q") st' =
    Err ErrVolumeAttached.
Proof.
  eassert (StorageStore_volumes (the_store with_attached) !! "v0" = Some _) as Hv
    by (vm_compute; reflexivity).
  eexists. split; [exact Hv|]. intros st'.
  assert (rtc (storage_step DynamicAuthorizer true (λ id, id ≠ "v0")) with_attached st') as Hr
    by (apply rtc_once, s_delete).
  destruct (attached_volume_protected DynamicAuthorizer true with_attached st' "v0" "i1" _
    (named "q") with_attached_ok Hv eq_refl ltac:(discriminate) Hr)
    as (v' & _ & _ & _ & _ & _ & _ & Ha).
  unfold answer. by rewrite (Ha operator "i2" "" false).
Defined.

Lemma foreign_volume_denied_witness :
  ∃ e w', DeleteVolume DynamicAuthorizer true (Some (tenant "u2")) "v0" (named "z") with_volume =
    (Err e, with_volume, w').
Proof.
  refine (proj1 (proj2 (proj2 (proj2 (proj2 (foreign_volume_denied DynamicAuthorizer true
    (tenant "u2") "v0" _ with_volume (named "z") _ _ _ _)))))).
  - vm_compute. reflexivity.
  - discriminate.
  - discriminate.
  - intros role Hr. rewrite !elem_of_cons in Hr.
    destruct Hr as [->|[->|[->|Hr]]]; [reflexivity..|by apply not_elem_of_nil in Hr].
Defined.
End demo.
