(* ===== verification/Guest.v ===== *)
(** * What goes into a guest: file paths and cloud-init

    [CleanGuestPath] of [internal/domain/compute/files.go] and the cloud-init
    configuration of [internal/domain/template/cloudinit.go] with its
    validation, its rendering and its audit summary. White space and letter
    classes are the ASCII ones. *)

From S2P Require Import Prelude Net.

(** ** Strings *)

Definition is_space (c : Ascii.ascii) : Prop := 9 ≤ code c ≤ 13 ∨ code c = 32.
#[export] Instance is_space_dec c : Decision (is_space c).
Proof. unfold is_space. apply _. Defined.

Fixpoint trim_left (s : string) : string :=
  match s with
  | String c s' => if decide (is_space c) then trim_left s' else s
  | EmptyString => s
  end.
Definition TrimSpace (s : string) : string :=
  String.rev (trim_left (String.rev (trim_left s))).

Definition HasPrefix (s pre : string) : bool := String.prefix pre s.

(** [strings.Contains(s, sub)]. *)
Fixpoint Contains_ (s sub : string) : bool :=
  String.prefix sub s || match s with String _ s' => Contains_ s' sub | EmptyString => false end.

(** The longest prefix of characters in a class, and the rest. *)
Fixpoint run_of (P : Ascii.ascii → bool) (s : string) : string * string :=
  match s with
  | String c s' => if P c then let '(a, b) := run_of P s' in (String c a, b) else ("", s)
  | EmptyString => ("", "")
  end.

Definition all_chars (P : Ascii.ascii → bool) (s : string) : bool := bool_decide ((run_of P s).2 = "").

Definition lower_c (c : Ascii.ascii) : bool := bool_decide (97 ≤ code c ≤ 122).
Definition upper_c (c : Ascii.ascii) : bool := bool_decide (65 ≤ code c ≤ 90).
Definition digit_c (c : Ascii.ascii) : bool := bool_decide (48 ≤ code c ≤ 57).
Definition one_of (l : list Z) (c : Ascii.ascii) : bool := bool_decide (code c ∈ l).
(** [\s] of the regular expressions: no vertical tab. *)
Definition blank_c (c : Ascii.ascii) : bool := one_of [9; 10; 12; 13; 32] c.

(** ** Guest paths *)

Definition ErrInvalidPath := ErrNew "compute"
  "invalid file path: must be an absolute path and cannot traverse outside guest root".

(** [path.Clean] on a path that starts with a slash: the elements left of it,
    innermost first. *)
Definition clean_step (stack : list string) (elem : string) : list string :=
  if decide (elem = "" ∨ elem = ".") then stack
  else if decide (elem = "..") then List.tl stack
  else elem :: stack.

Definition path_elems (p : string) : list string :=
  reverse (foldl clean_step [] (split_on 47 p)).
Definition path_Clean (p : string) : string := "/" +:+ strings_Join (path_elems p) "/".

Definition CleanGuestPath (p : string) : result string :=
  let p := TrimSpace p in
  if decide (p = "") then Ok "/"
  else
    let p := if HasPrefix p "/" then p else "/" +:+ p in
    let cleaned := path_Clean p in
    if Contains_ cleaned ".." then Err ErrInvalidPath else Ok cleaned.

(** ** Cloud-init *)

Definition MaxCloudInitSizeBytes : Z := 64 * 1024.
Definition ErrInvalidCloudInit := ErrNew "template" "invalid cloud-init configuration".
Definition ErrCloudInitOversized :=
  ErrNew "template" "cloud-init payload exceeds maximum allowed size (64KB)".

Record CloudInitUser : Type := mkCloudInitUser {
  CloudInitUser_Name : string;
  CloudInitUser_GECOS : string;
  CloudInitUser_Groups : string;
  CloudInitUser_Sudo : string;
  CloudInitUser_Shell : string;
  CloudInitUser_SSHAuthorizedKeys : list string;
  CloudInitUser_LockPasswd : bool
}.
#[export] Instance CloudInitUser_eq_dec : EqDecision CloudInitUser.
Proof. solve_decision. Defined.

Record CloudInitFile : Type := mkCloudInitFile {
  CloudInitFile_Path : string;
  CloudInitFile_Content : string;
  CloudInitFile_Permissions : string;
  CloudInitFile_Encoding : string;
  CloudInitFile_Owner : string
}.
#[export] Instance CloudInitFile_eq_dec : EqDecision CloudInitFile.
Proof. solve_decision. Defined.

Record CloudInitConfig : Type := mkCloudInitConfig {
  CloudInitConfig_Hostname : string;
  CloudInitConfig_Users : list CloudInitUser;
  CloudInitConfig_Packages : list string;
  CloudInitConfig_WriteFiles : list CloudInitFile;
  CloudInitConfig_RunCmd : list string;
  CloudInitConfig_Timezone : string;
  CloudInitConfig_Locale : string;
  CloudInitConfig_NetworkConfig : option Prelude.Details;
  CloudInitConfig_CustomUserData : string
}.

Definition nl : string := String (Ascii.ascii_of_N 10) "".

(** [if v != "" { WriteString(Sprintf(pre + "%s\n", v)) }], and the variant
    with a default line. *)
Definition opt_line (pre v : string) : string := if decide (v ≠ "") then pre +:+ v +:+ nl else "".
Definition line_or (pre v other : string) : string :=
  if decide (v ≠ "") then pre +:+ v +:+ nl else other +:+ nl.
Definition concat_map {X} (f : X → string) (l : list X) : string :=
  foldr (λ x acc, f x +:+ acc) "" l.
(** [if len(l) > 0 { header; for ... }]. *)
Definition block {X} (header : string) (f : X → string) (l : list X) : string :=
  match l with [] => "" | _ => header +:+ nl +:+ concat_map f l end.

Definition render_user (u : CloudInitUser) : string :=
  "  - name: " +:+ CloudInitUser_Name u +:+ nl +:+
  opt_line "    gecos: " (CloudInitUser_GECOS u) +:+
  line_or "    groups: " (CloudInitUser_Groups u) "    groups: sudo, users" +:+
  line_or "    sudo: " (CloudInitUser_Sudo u) "    sudo: ALL=(ALL) NOPASSWD:ALL" +:+
  line_or "    shell: " (CloudInitUser_Shell u) "    shell: /bin/bash" +:+
  (if CloudInitUser_LockPasswd u then "    lock_passwd: true" +:+ nl else "") +:+
  block "    ssh_authorized_keys:" (λ k, "      - " +:+ TrimSpace k +:+ nl)
    (CloudInitUser_SSHAuthorizedKeys u).

Definition render_file (f : CloudInitFile) : string :=
  "  - path: " +:+ CloudInitFile_Path f +:+ nl +:+
  (if decide (CloudInitFile_Permissions f ≠ "")
   then "    permissions: '" +:+ CloudInitFile_Permissions f +:+ "'" +:+ nl
   else "    permissions: '0644'" +:+ nl) +:+
  opt_line "    owner: " (CloudInitFile_Owner f) +:+
  "    content: |" +:+ nl +:+
  concat_map (λ line, "      " +:+ line +:+ nl) (split_on 10 (CloudInitFile_Content f)).

Definition RenderUserData (cfg : option CloudInitConfig) : result string :=
  match cfg with
  | None => Ok ""
  | Some c =>
      let custom := TrimSpace (CloudInitConfig_CustomUserData c) in
      if decide (custom ≠ "") then
        Ok (if HasPrefix custom "#cloud-config" then custom
            else "#cloud-config" +:+ nl +:+ custom)
      else
        Ok ("#cloud-config" +:+ nl +:+
            (if decide (CloudInitConfig_Hostname c ≠ "")
             then "hostname: " +:+ CloudInitConfig_Hostname c +:+ nl +:+
                  "manage_etc_hosts: true" +:+ nl
             else "") +:+
            opt_line "timezone: " (CloudInitConfig_Timezone c) +:+
            opt_line "locale: " (CloudInitConfig_Locale c) +:+
            block "users:" render_user (CloudInitConfig_Users c) +:+
            block "packages:" (λ p, "  - " +:+ TrimSpace p +:+ nl) (CloudInitConfig_Packages c) +:+
            block "write_files:" render_file (CloudInitConfig_WriteFiles c) +:+
            block "runcmd:" (λ cmd, "  - " +:+ cmd +:+ nl) (CloudInitConfig_RunCmd c))
  end.

(** [^[a-z_][a-z0-9_-]{0,31}$]. *)
Definition validUsername (s : string) : bool :=
  match s with
  | EmptyString => false
  | String c s' =>
      (lower_c c || one_of [95] c) &&
      all_chars (λ c, lower_c c || digit_c c || one_of [45; 95] c) s' &&
      bool_decide (String.length s' ≤ 31)%nat
  end.

(** The key type: [ssh-(rsa|dss|ed25519)|ecdsa-sha2-[a-z0-9-]+]; the rest of
    the text. *)
Definition key_type (s : string) : option string :=
  let '(t, rest) := run_of (λ c, lower_c c || digit_c c || one_of [45] c) s in
  if decide (t ∈ ["ssh-rsa"; "ssh-dss"; "ssh-ed25519"]) then Some rest
  else if String.prefix "ecdsa-sha2-" t && bool_decide (11 < String.length t)%nat then Some rest
  else None.

(** The key type, white space, base64 characters with at most three [=] and,
    after more white space, a comment without line breaks. The classes that
    follow each other are disjoint, so the longest runs decide the match. *)
Definition sshKeyPrefix (s : string) : bool :=
  match key_type s with
  | None => false
  | Some s =>
      let '(sp, s) := run_of blank_c s in
      let '(b64, s) := run_of (λ c, lower_c c || upper_c c || digit_c c || one_of [43; 47] c) s in
      let '(pad, s) := run_of (one_of [61]) s in
      let '(sp2, s) := run_of blank_c s in
      bool_decide (sp ≠ "" ∧ b64 ≠ "" ∧ (String.length pad ≤ 3)%nat) &&
      (bool_decide (sp2 = "" ∧ s = "") ||
       bool_decide (sp2 ≠ "") && all_chars (λ c, negb (one_of [10] c)) s)
  end.

(** [for ... { if bad { return err } }]. *)
Definition first_error {X} (check : X → result ()) (l : list X) : result () :=
  foldr (λ x rest, match check x with Ok _ => rest | Err e => Err e end) (Ok ()) l.

Definition cloud_error (text : string) : error :=
  Wrapf (Error ErrInvalidCloudInit +:+ ": " +:+ text) ErrInvalidCloudInit.

Definition check_key (user key : string) : result () :=
  let trimmed := TrimSpace key in
  if decide (trimmed ≠ "") then
    if sshKeyPrefix trimmed then Ok ()
    else Err (cloud_error ("invalid SSH public key format for user '" +:+ user +:+ "'"))
  else Ok ().

Definition check_user (u : CloudInitUser) : result () :=
  if validUsername (CloudInitUser_Name u)
  then first_error (check_key (CloudInitUser_Name u)) (CloudInitUser_SSHAuthorizedKeys u)
  else Err (cloud_error ("invalid username '" +:+ CloudInitUser_Name u +:+ "'")).

Definition check_file (f : CloudInitFile) : result () :=
  if HasPrefix (CloudInitFile_Path f) "/" && negb (Contains_ (CloudInitFile_Path f) "..")
  then Ok ()
  else Err (cloud_error ("file path must be absolute and cannot contain '..' ('" +:+
                         CloudInitFile_Path f +:+ "')")).

Definition Validate (cfg : option CloudInitConfig) : result () :=
  match cfg with
  | None => Ok ()
  | Some c =>
      match RenderUserData cfg with
      | Err e => Err e
      | Ok rendered =>
          if decide (MaxCloudInitSizeBytes < Z.of_nat (String.length rendered))
          then Err ErrCloudInitOversized
          else
            match first_error check_user (CloudInitConfig_Users c) with
            | Err e => Err e
            | Ok _ => first_error check_file (CloudInitConfig_WriteFiles c)
            end
      end
  end.

Definition SanitizeForAudit (cfg : option CloudInitConfig) : Prelude.Details :=
  match cfg with
  | None => ∅
  | Some c => details
      [("hostname", AnyStr (CloudInitConfig_Hostname c));
       ("userCount", AnyInt (Z.of_nat (length (CloudInitConfig_Users c))));
       ("users", AnyStrs (CloudInitUser_Name <$> CloudInitConfig_Users c));
       ("packageCnt", AnyInt (Z.of_nat (length (CloudInitConfig_Packages c))));
       ("fileCount", AnyInt (Z.of_nat (length (CloudInitConfig_WriteFiles c))));
       ("filePaths", AnyStrs (CloudInitFile_Path <$> CloudInitConfig_WriteFiles c));
       ("runcmdCnt", AnyInt (Z.of_nat (length (CloudInitConfig_RunCmd c))))]
  end.

Example guest_path_ex :
  CleanGuestPath "  ../..//etc/./passwd " = Ok "/etc/passwd" ∧
  CleanGuestPath "/a/b/../../.." = Ok "/" ∧ CleanGuestPath "" = Ok "/" ∧
  CleanGuestPath "/notes..txt" = Err ErrInvalidPath.
Proof. vm_compute. auto. Qed.

Example ssh_key_ex :
  sshKeyPrefix "ssh-ed25519 AAAAC3Nz/+== ann@host" = true ∧
  sshKeyPrefix "ecdsa-sha2-nistp256 AAAA" = true ∧ sshKeyPrefix "ecdsa-sha2- AAAA" = false ∧
  sshKeyPrefix "ssh-rsa" = false ∧ sshKeyPrefix "ssh-rsa AAAA====" = false ∧
  sshKeyPrefix "ssh-rsa AAAA%" = false.
Proof. vm_compute. auto 10. Qed.

(** ** Paths stay inside the guest *)

(** A path element after cleaning. *)
Definition plain_elem (e : string) : Prop :=
  e ≠ "" ∧ e ≠ "." ∧ e ≠ ".." ∧ split_on 47 e = [e].

Lemma split_on_pieces sep s e : e ∈ split_on sep s → split_on sep e = [e].
Proof.
  revert e. induction s as [|c s IH]; intros e; cbn [split_on].
  { rewrite list_elem_of_singleton. by intros ->. }
  destruct (decide (code c = sep)) as [Hc|Hc].
  { rewrite elem_of_cons. intros [->|He]; [done|auto]. }
  destruct (split_on sep s) as [|x xs] eqn:Es; [by apply split_on_ne in Es|].
  rewrite elem_of_cons. intros [->|He]; [|apply IH; by right].
  cbn [split_on]. rewrite decide_False by done. rewrite IH; [done|by left].
Qed.

Lemma clean_steps_plain l stack :
  (∀ e, e ∈ l → split_on 47 e = [e]) → Forall plain_elem stack →
  Forall plain_elem (foldl clean_step stack l).
Proof.
  revert stack. induction l as [|e l IH]; intros stack Hl Hs; cbn [foldl]; [done|].
  apply IH; [intros x Hx; apply Hl; by right|]. unfold clean_step. repeat case_decide.
  - done.
  - destruct Hs; simpl; [constructor|done].
  - constructor; [|done]. split_and!; [tauto|tauto|done|]. apply Hl. by left.
Qed.

Lemma path_elems_plain p : Forall plain_elem (path_elems p).
Proof.
  unfold path_elems. apply Forall_reverse, clean_steps_plain; [|constructor].
  intros e. apply split_on_pieces.
Qed.

Lemma clean_plain es : Forall plain_elem es → foldl clean_step [] es = reverse es.
Proof.
  induction es as [|e es IH] using rev_ind; [done|]. intros [Hes He]%Forall_app.
  apply Forall_singleton in He as (? & ? & ? & _).
  rewrite foldl_app, reverse_app, IH by done. cbn. unfold clean_step.
  rewrite decide_False by tauto. by rewrite decide_False.
Qed.

Lemma split_join es : Forall plain_elem es → es ≠ [] → split_on 47 (strings_Join es "/") = es.
Proof.
  induction es as [|e es IH]; intros Hes Hne; [done|]. apply Forall_cons in Hes as [He Hes].
  cbn [strings_Join]. destruct es as [|e2 es]; [apply He|].
  change ("/" +:+ strings_Join (e2 :: es) "/")
    with (String (Ascii.ascii_of_N 47) (strings_Join (e2 :: es) "/")).
  rewrite split_on_app; [|done|apply He]. f_equal. by apply IH.
Qed.

(** A clean path is its own clean form. *)
Lemma path_elems_Clean p : path_elems (path_Clean p) = path_elems p.
Proof.
  unfold path_Clean. pose proof (path_elems_plain p) as Hp. set (es := path_elems p) in *.
  unfold path_elems. change ("/" +:+ strings_Join es "/")
    with (String (Ascii.ascii_of_N 47) (strings_Join es "/")).
  cbn [split_on]. rewrite decide_True by done. cbn [foldl].
  change (clean_step [] "") with (@nil string).
  destruct (decide (es = [])) as [E|E]; [by rewrite E|].
  by rewrite split_join, clean_plain, reverse_involutive.
Qed.

Lemma Contains_dots_app a b :
  Contains_ (a +:+ "/" +:+ b) ".." = Contains_ a ".." || Contains_ b "..".
Proof.
  change ("/" +:+ b) with (String (Ascii.ascii_of_N 47) b).
  induction a as [|x a IH]; [done|].
  change (String x a +:+ String (Ascii.ascii_of_N 47) b)
    with (String x (a +:+ String (Ascii.ascii_of_N 47) b)).
  cbn [Contains_]. rewrite IH, orb_assoc. f_equal. f_equal.
  destruct a as [|y a]; cbn [String.prefix]; destruct (Ascii.ascii_dec _ x); try done.
  set (rest := String (Ascii.ascii_of_N 47) b).
  change (String y a +:+ rest) with (String y (a +:+ rest)). cbn [String.prefix].
  destruct (Ascii.ascii_dec _ y); [|done]. by destruct a.
Qed.

Lemma Contains_dots_join es :
  Contains_ (strings_Join es "/") ".." = existsb (λ e, Contains_ e "..") es.
Proof.
  induction es as [|e es IH]; [done|]. cbn [strings_Join existsb].
  destruct es as [|e2 es]; [by rewrite orb_false_r|]. by rewrite Contains_dots_app, IH.
Qed.

(** Guest paths are safe: an accepted path is absolute and clean, none of
    its elements is empty, a dot or a double dot, nothing in it climbs; a
    path is refused exactly when a name left after cleaning contains two dots. *)
Theorem CleanGuestPath_safe (p : string) :
  match CleanGuestPath p with
  | Ok q => ∃ es, q = "/" +:+ strings_Join es "/" ∧ Forall plain_elem es ∧
      path_Clean q = q ∧ ∀ e, e ∈ es → Contains_ e ".." = false
  | Err e => e = ErrInvalidPath ∧
      ∃ name, name ∈ path_elems (if HasPrefix (TrimSpace p) "/" then TrimSpace p
                                 else "/" +:+ TrimSpace p) ∧ Contains_ name ".." = true
  end.
Proof.
  unfold CleanGuestPath. cbv zeta. case_decide as He.
  { exists []. split_and!; [done|constructor|done|]. intros e Hin. by apply elem_of_nil in Hin. }
  set (q := if HasPrefix _ _ then _ else _).
  assert (Contains_ (path_Clean q) ".." = existsb (λ e, Contains_ e "..") (path_elems q)) as ->.
  { unfold path_Clean. rewrite <-Contains_dots_join. done. }
  destruct (existsb _ _) eqn:Ex.
  - split; [done|]. apply existsb_exists in Ex as (e & Hin & Hc). exists e.
    split; [by apply list_elem_of_In|done].
  - exists (path_elems q). split_and!; [done|apply path_elems_plain| |].
    + unfold path_Clean at 1. by rewrite path_elems_Clean.
    + intros e Hin. destruct (Contains_ e "..") eqn:Ec; [|done].
      assert (existsb (λ e, Contains_ e "..") (path_elems q) = true) as H; [|congruence].
      apply existsb_exists. exists e. by rewrite <-list_elem_of_In.
Qed.

(** ** What validation promises about cloud-init *)

Lemma first_error_Ok {X} (check : X → result ()) l :
  first_error check l = Ok () ↔ ∀ x, x ∈ l → check x = Ok ().
Proof.
  induction l as [|x l IH]; cbn [first_error foldr].
  { split; [intros _ x Hx; by apply elem_of_nil in Hx|done]. }
  change (foldr _ (Ok ()) l) with (first_error check l).
  setoid_rewrite elem_of_cons. destruct (check x) as [[]|e] eqn:Ec.
  - rewrite IH. split; [intros Hl y [->|Hy]; auto|auto].
  - split; [done|]. intros Hl. rewrite <-(Hl x (or_introl eq_refl)). by rewrite Ec.
Qed.

(** An accepted configuration is rendered within the size limit, its users
    have plain names and well-formed keys, and its files stay absolute. *)
Theorem Validate_spec (c : CloudInitConfig) :
  Validate (Some c) = Ok () ↔
  (∃ text, RenderUserData (Some c) = Ok text ∧
     Z.of_nat (String.length text) ≤ MaxCloudInitSizeBytes) ∧
  (∀ u, u ∈ CloudInitConfig_Users c → validUsername (CloudInitUser_Name u) = true ∧
     ∀ k, k ∈ CloudInitUser_SSHAuthorizedKeys u → TrimSpace k = "" ∨
       sshKeyPrefix (TrimSpace k) = true) ∧
  (∀ f, f ∈ CloudInitConfig_WriteFiles c → HasPrefix (CloudInitFile_Path f) "/" = true ∧
     Contains_ (CloudInitFile_Path f) ".." = false).
Proof.
  unfold Validate. destruct (RenderUserData (Some c)) as [text|e] eqn:Er.
  2:{ split; [done|]. by intros ((t & ? & _) & _). }
  assert (∀ u, check_user u = Ok () ↔ validUsername (CloudInitUser_Name u) = true ∧
    ∀ k, k ∈ CloudInitUser_SSHAuthorizedKeys u → TrimSpace k = "" ∨
      sshKeyPrefix (TrimSpace k) = true) as Hu.
  { intros u. unfold check_user. destruct (validUsername _); [|naive_solver].
    rewrite first_error_Ok. split.
    - intros Hk. split; [done|]. intros k Hin. specialize (Hk k Hin). unfold check_key in Hk.
      destruct (decide (TrimSpace k = "")) as [|Hne]; [by left|right]. cbv zeta in Hk.
      rewrite decide_True in Hk by done. by destruct (sshKeyPrefix _).
    - intros [_ Hk] k Hin. unfold check_key. cbv zeta.
      destruct (Hk k Hin) as [->| ->]; [done|by case_decide]. }
  assert (∀ f, check_file f = Ok () ↔ HasPrefix (CloudInitFile_Path f) "/" = true ∧
    Contains_ (CloudInitFile_Path f) ".." = false) as Hf.
  { intros f. unfold check_file. destruct (HasPrefix _ _), (Contains_ _ _); simpl;
      intuition congruence. }
  setoid_rewrite <-Hu. setoid_rewrite <-Hf. rewrite <-!first_error_Ok. clear Hu Hf.
  case_decide as Hlen.
  - split; [done|]. intros ((t & [= <-] & Hle) & _). lia.
  - destruct (first_error check_user _) as [[]|e]; [|naive_solver].
    split; [|naive_solver]. intros Hfiles. split_and!; [|done|done].
    exists text. split; [done|lia].
Qed.

(** The rendered document is always a cloud-config document. *)
Lemma prefix_app p s : String.prefix p (p +:+ s) = true.
Proof.
  induction p as [|c p IH]; [by destruct s|].
  change (String c p +:+ s) with (String c (p +:+ s)). cbn.
  destruct (Ascii.ascii_dec c c); [exact IH|done].
Qed.

Theorem rendered_header (c : CloudInitConfig) (text : string) :
  RenderUserData (Some c) = Ok text → HasPrefix text "#cloud-config" = true.
Proof.
  unfold RenderUserData, HasPrefix. cbv zeta. case_decide.
  - destruct (String.prefix "#cloud-config" (TrimSpace _)) eqn:E; intros [= <-]; [done|].
    apply prefix_app.
  - intros [= <-]. apply prefix_app.
Qed.

(** The audit summary holds none of the keys, file contents, commands or
    custom data: it is the same whatever they are. *)
Theorem sanitized_hides_secrets (c c' : CloudInitConfig) :
  CloudInitConfig_Hostname c = CloudInitConfig_Hostname c' →
  CloudInitUser_Name <$> CloudInitConfig_Users c = CloudInitUser_Name <$> CloudInitConfig_Users c' →
  CloudInitFile_Path <$> CloudInitConfig_WriteFiles c =
    CloudInitFile_Path <$> CloudInitConfig_WriteFiles c' →
  length (CloudInitConfig_Packages c) = length (CloudInitConfig_Packages c') →
  length (CloudInitConfig_RunCmd c) = length (CloudInitConfig_RunCmd c') →
  SanitizeForAudit (Some c) = SanitizeForAudit (Some c').
Proof.
  intros Hh Hu Hf Hp Hr. unfold SanitizeForAudit.
  assert (length (CloudInitConfig_Users c) = length (CloudInitConfig_Users c')) as Hlu
    by (rewrite <-(length_fmap CloudInitUser_Name), Hu; apply length_fmap).
  assert (length (CloudInitConfig_WriteFiles c) = length (CloudInitConfig_WriteFiles c')) as Hlf
    by (rewrite <-(length_fmap CloudInitFile_Path), Hf; apply length_fmap).
  by rewrite Hh, Hu, Hf, Hp, Hr, Hlu, Hlf.
Qed.

(** ** Trimming and case *)

Lemma lower_ascii_idem c : lower_ascii (lower_ascii c) = lower_ascii c.
Proof. by destruct c as [[] [] [] [] [] [] [] []]. Qed.
Lemma lower_ascii_space c : bool_decide (is_space (lower_ascii c)) = bool_decide (is_space c).
Proof. by destruct c as [[] [] [] [] [] [] [] []]. Qed.
Lemma ToLower_idem s : ToLower (ToLower s) = ToLower s.
Proof. induction s as [|c s IH]; cbn; [done|]. f_equal; [apply lower_ascii_idem|done]. Qed.

Lemma rev_app_cons s t : String.rev_app s t = String.rev s +:+ t.
Proof.
  unfold String.rev. revert t. induction s as [|c s IH]; intros t; [done|]. cbn [String.rev_app].
  rewrite IH, (IH (String c "")), <-str_app_assoc. done.
Qed.
Lemma rev_cons c s : String.rev (String c s) = String.rev s +:+ String c "".
Proof. unfold String.rev at 1. cbn [String.rev_app]. apply rev_app_cons. Qed.
Lemma rev_snoc s c : String.rev (s +:+ String c "") = String c (String.rev s).
Proof.
  induction s as [|d s IH]; [done|]. change (String d s +:+ String c "") with (String d (s +:+ String c "")).
  by rewrite !rev_cons, IH.
Qed.
Lemma rev_rev s : String.rev (String.rev s) = s.
Proof. induction s as [|c s IH]; [done|]. by rewrite rev_cons, rev_snoc, IH. Qed.

Lemma trim_left_idem s : trim_left (trim_left s) = trim_left s.
Proof.
  induction s as [|c s IH]; [done|]. cbn. case_decide as Hc; [done|]. cbn. by rewrite decide_False.
Qed.
Lemma trim_left_snoc s c :
  ¬ is_space c → trim_left (s +:+ String c "") = trim_left s +:+ String c "".
Proof.
  intros Hc. induction s as [|d s IH].
  - change ("" +:+ String c "") with (String c ""). cbn. by rewrite decide_False.
  - change (String d s +:+ String c "") with (String d (s +:+ String c "")). cbn [trim_left].
    case_decide; [apply IH|done].
Qed.
Lemma trim_left_head s : match trim_left s with String c _ => ¬ is_space c | EmptyString => True end.
Proof. induction s as [|c s IH]; cbn; [done|]. by case_decide. Qed.

(** Trimming is idempotent and commutes with lowering. *)
Lemma TrimSpace_idem s : TrimSpace (TrimSpace s) = TrimSpace s.
Proof.
  unfold TrimSpace. pose proof (trim_left_head s) as Hh.
  destruct (trim_left s) as [|c u]; [done|].
  rewrite rev_cons, trim_left_snoc, rev_snoc by done. cbn [trim_left].
  rewrite decide_False by done. by rewrite rev_cons, rev_rev, trim_left_snoc, trim_left_idem, rev_snoc.
Qed.
Lemma ToLower_app s t : ToLower (s +:+ t) = ToLower s +:+ ToLower t.
Proof. induction s as [|c s IH]; [done|]. exact (f_equal (String (lower_ascii c)) IH). Qed.
Lemma ToLower_rev s : ToLower (String.rev s) = String.rev (ToLower s).
Proof.
  induction s as [|c s IH]; [done|]. unfold ToLower in *. cbn [string_map].
  rewrite !rev_cons, <-IH. apply ToLower_app.
Qed.
Lemma ToLower_trim_left s : ToLower (trim_left s) = trim_left (ToLower s).
Proof.
  induction s as [|c s IH]; [done|]. unfold ToLower in *. cbn.
  pose proof (lower_ascii_space c) as Hc.
  repeat case_decide; try done; exfalso; rewrite !bool_decide_decide in Hc; by repeat case_decide.
Qed.
Lemma ToLower_TrimSpace s : ToLower (TrimSpace s) = TrimSpace (ToLower s).
Proof. unfold TrimSpace. by rewrite ToLower_rev, ToLower_trim_left, ToLower_rev, ToLower_trim_left. Qed.

