(* ===== verification/Template.v ===== *)
(** * OS templates and images

    The products of [internal/domain/template/template.go] and the interface
    through which the compute service resolves them
    ([TemplateLookupService] of [internal/app/compute/service.go]). *)

From S2P Require Import Prelude Identity Instances Guest.

Definition ErrTemplateNotFound := ErrNew "template" "template not found".
Definition ErrTemplateSlugExists := ErrNew "template" "template slug already exists".
Definition ErrImageArtifactNotFound := ErrNew "template" "image artifact not found".
Definition ErrFingerprintMismatch := ErrNew "template"
  "image verification failed: fingerprint or checksum mismatch".
Definition ErrNoCompatibleImage := ErrNew "template"
  "no compatible image artifact found for requested architecture and instance type".
Definition ErrInvalidFingerprint := ErrNew "template"
  "invalid incus image fingerprint (must be 64 hexadecimal characters)".
Definition ErrInvalidTemplateSpec := ErrNew "template" "invalid template specification".
Definition ErrInvalidImageSpec := ErrNew "template" "invalid image artifact specification".
Definition ErrUnsupportedInstanceType :=
  ErrNew "template" "unsupported instance type for template".
Definition ErrInsufficientDisk := ErrNew "template"
  "instance disk allocation is less than template minimum requirement".
Definition ErrInsufficientMemory := ErrNew "template"
  "instance memory allocation is less than template minimum requirement".

Record OSTemplate : Type := mkOSTemplate {
  OSTemplate_ID : string;
  OSTemplate_Name : string;
  OSTemplate_Slug : string;
  OSTemplate_Description : string;
  OSTemplate_Distribution : string;
  OSTemplate_Version : string;
  OSTemplate_Release : string;
  OSTemplate_SupportedArchitectures : list string;
  OSTemplate_SupportedInstanceTypes : list string;
  OSTemplate_MinDiskBytes : Z;
  OSTemplate_MinMemoryBytes : Z;
  OSTemplate_CloudInitSupported : bool;
  OSTemplate_Status : string;
  OSTemplate_Metadata : option Prelude.Details;
  OSTemplate_CreatedAt : Z;
  OSTemplate_UpdatedAt : Z
}.

Definition eta_OSTemplate (r : OSTemplate) : OSTemplate :=
  mkOSTemplate (OSTemplate_ID r) (OSTemplate_Name r) (OSTemplate_Slug r)
    (OSTemplate_Description r) (OSTemplate_Distribution r) (OSTemplate_Version r)
    (OSTemplate_Release r) (OSTemplate_SupportedArchitectures r)
    (OSTemplate_SupportedInstanceTypes r) (OSTemplate_MinDiskBytes r)
    (OSTemplate_MinMemoryBytes r) (OSTemplate_CloudInitSupported r)
    (OSTemplate_Status r) (OSTemplate_Metadata r) (OSTemplate_CreatedAt r)
    (OSTemplate_UpdatedAt r).
#[export] Instance set_OSTemplate_ID : Setter OSTemplate_ID := ltac:(setter eta_OSTemplate OSTemplate_ID).
#[export] Instance set_OSTemplate_Name : Setter OSTemplate_Name := ltac:(setter eta_OSTemplate OSTemplate_Name).
#[export] Instance set_OSTemplate_Slug : Setter OSTemplate_Slug := ltac:(setter eta_OSTemplate OSTemplate_Slug).
#[export] Instance set_OSTemplate_Description : Setter OSTemplate_Description := ltac:(setter eta_OSTemplate OSTemplate_Description).
#[export] Instance set_OSTemplate_Distribution : Setter OSTemplate_Distribution := ltac:(setter eta_OSTemplate OSTemplate_Distribution).
#[export] Instance set_OSTemplate_Version : Setter OSTemplate_Version := ltac:(setter eta_OSTemplate OSTemplate_Version).
#[export] Instance set_OSTemplate_Release : Setter OSTemplate_Release := ltac:(setter eta_OSTemplate OSTemplate_Release).
#[export] Instance set_OSTemplate_SupportedArchitectures : Setter OSTemplate_SupportedArchitectures := ltac:(setter eta_OSTemplate OSTemplate_SupportedArchitectures).
#[export] Instance set_OSTemplate_SupportedInstanceTypes : Setter OSTemplate_SupportedInstanceTypes := ltac:(setter eta_OSTemplate OSTemplate_SupportedInstanceTypes).
#[export] Instance set_OSTemplate_MinDiskBytes : Setter OSTemplate_MinDiskBytes := ltac:(setter eta_OSTemplate OSTemplate_MinDiskBytes).
#[export] Instance set_OSTemplate_MinMemoryBytes : Setter OSTemplate_MinMemoryBytes := ltac:(setter eta_OSTemplate OSTemplate_MinMemoryBytes).
#[export] Instance set_OSTemplate_CloudInitSupported : Setter OSTemplate_CloudInitSupported := ltac:(setter eta_OSTemplate OSTemplate_CloudInitSupported).
#[export] Instance set_OSTemplate_Status : Setter OSTemplate_Status := ltac:(setter eta_OSTemplate OSTemplate_Status).
#[export] Instance set_OSTemplate_Metadata : Setter OSTemplate_Metadata := ltac:(setter eta_OSTemplate OSTemplate_Metadata).
#[export] Instance set_OSTemplate_CreatedAt : Setter OSTemplate_CreatedAt := ltac:(setter eta_OSTemplate OSTemplate_CreatedAt).
#[export] Instance set_OSTemplate_UpdatedAt : Setter OSTemplate_UpdatedAt := ltac:(setter eta_OSTemplate OSTemplate_UpdatedAt).

Record ImageArtifact : Type := mkImageArtifact {
  ImageArtifact_ID : string;
  ImageArtifact_TemplateID : string;
  ImageArtifact_Architecture : string;
  ImageArtifact_InstanceType : string;
  ImageArtifact_IncusFingerprint : string;
  ImageArtifact_ImageAlias : string;
  ImageArtifact_SourceRemote : string;
  ImageArtifact_SourceURL : string;
  ImageArtifact_SizeBytes : Z;
  ImageArtifact_Checksum : string;
  ImageArtifact_Status : string;
  ImageArtifact_ErrorMessage : string;
  ImageArtifact_Metadata : option Prelude.Details;
  ImageArtifact_CreatedAt : Z;
  ImageArtifact_UpdatedAt : Z
}.

Definition eta_ImageArtifact (r : ImageArtifact) : ImageArtifact :=
  mkImageArtifact (ImageArtifact_ID r) (ImageArtifact_TemplateID r)
    (ImageArtifact_Architecture r) (ImageArtifact_InstanceType r)
    (ImageArtifact_IncusFingerprint r) (ImageArtifact_ImageAlias r)
    (ImageArtifact_SourceRemote r) (ImageArtifact_SourceURL r)
    (ImageArtifact_SizeBytes r) (ImageArtifact_Checksum r) (ImageArtifact_Status r)
    (ImageArtifact_ErrorMessage r) (ImageArtifact_Metadata r)
    (ImageArtifact_CreatedAt r) (ImageArtifact_UpdatedAt r).
#[export] Instance set_ImageArtifact_ID : Setter ImageArtifact_ID := ltac:(setter eta_ImageArtifact ImageArtifact_ID).
#[export] Instance set_ImageArtifact_TemplateID : Setter ImageArtifact_TemplateID := ltac:(setter eta_ImageArtifact ImageArtifact_TemplateID).
#[export] Instance set_ImageArtifact_Architecture : Setter ImageArtifact_Architecture := ltac:(setter eta_ImageArtifact ImageArtifact_Architecture).
#[export] Instance set_ImageArtifact_IncusFingerprint : Setter ImageArtifact_IncusFingerprint := ltac:(setter eta_ImageArtifact ImageArtifact_IncusFingerprint).
#[export] Instance set_ImageArtifact_SourceRemote : Setter ImageArtifact_SourceRemote := ltac:(setter eta_ImageArtifact ImageArtifact_SourceRemote).
#[export] Instance set_ImageArtifact_Checksum : Setter ImageArtifact_Checksum := ltac:(setter eta_ImageArtifact ImageArtifact_Checksum).
#[export] Instance set_ImageArtifact_Status : Setter ImageArtifact_Status := ltac:(setter eta_ImageArtifact ImageArtifact_Status).
#[export] Instance set_ImageArtifact_ErrorMessage : Setter ImageArtifact_ErrorMessage := ltac:(setter eta_ImageArtifact ImageArtifact_ErrorMessage).
#[export] Instance set_ImageArtifact_CreatedAt : Setter ImageArtifact_CreatedAt := ltac:(setter eta_ImageArtifact ImageArtifact_CreatedAt).
#[export] Instance set_ImageArtifact_UpdatedAt : Setter ImageArtifact_UpdatedAt := ltac:(setter eta_ImageArtifact ImageArtifact_UpdatedAt).

Definition OSTemplate_Resource (t : OSTemplate) : Resource :=
  mkResource "template" (OSTemplate_ID t) "" "".
Definition ImageArtifact_Resource (i : ImageArtifact) : Resource :=
  mkResource "image" (ImageArtifact_ID i) "" "".

Definition NormalizeArchitecture (arch : string) : string :=
  let a := ToLower (TrimSpace arch) in
  if decide (a ∈ ["amd64"; "x86_64"; "x86-64"; "x64"]) then "x86_64"
  else if decide (a ∈ ["arm64"; "aarch64"; "armv8"; "armv8l"]) then "aarch64"
  else a.

(** [^[a-z0-9][a-z0-9.-]{1,62}[a-z0-9]$] and [^[a-fA-F0-9]{64}$]. *)
Definition alnum_c (c : Ascii.ascii) : bool := lower_c c || digit_c c.

(** [first][middle]{lo,hi}[last]: the length is between [lo + 2] and [hi + 2],
    the ends are in one class and everything is in the other. *)
Definition bracketed (ends mid : Ascii.ascii → bool) (lo hi : nat) (s : string) : bool :=
  let first_ok s := match s with String c _ => ends c | EmptyString => false end in
  first_ok s && first_ok (String.rev s) && all_chars mid s &&
  bool_decide (lo + 2 ≤ String.length s ≤ hi + 2)%nat.

Definition slugRegex (s : string) : bool :=
  bracketed alnum_c (λ c, alnum_c c || one_of [45; 46] c) 1 62 s.
Definition hex64Regex (s : string) : bool :=
  all_chars (λ c, digit_c c || bool_decide (97 ≤ Net.code c ≤ 102) ||
                  bool_decide (65 ≤ Net.code c ≤ 70)) s &&
  bool_decide (String.length s = 64)%nat.

(** The methods normalise their receiver; the result is the template after
    the call and the error. *)
Definition OSTemplate_Validate (t : OSTemplate) : OSTemplate * result () :=
  let t := t <| OSTemplate_Name := TrimSpace (OSTemplate_Name t) |>
             <| OSTemplate_Slug := TrimSpace (ToLower (OSTemplate_Slug t)) |>
             <| OSTemplate_Distribution := TrimSpace (ToLower (OSTemplate_Distribution t)) |>
             <| OSTemplate_Version := TrimSpace (OSTemplate_Version t) |> in
  if decide (OSTemplate_Name t = "" ∨ OSTemplate_Distribution t = "" ∨ OSTemplate_Version t = "")
  then (t, Err ErrInvalidTemplateSpec)
  else if negb (slugRegex (OSTemplate_Slug t)) then (t, Err ErrInvalidTemplateSpec)
  else
    let t := match OSTemplate_SupportedArchitectures t with
             | [] => t <| OSTemplate_SupportedArchitectures := ["x86_64"] |>
             | l => t <| OSTemplate_SupportedArchitectures := NormalizeArchitecture <$> l |>
             end in
    let t := match OSTemplate_SupportedInstanceTypes t with
             | [] => t <| OSTemplate_SupportedInstanceTypes := [TypeContainer; TypeVirtualMachine] |>
             | _ => t
             end in
    let t := if decide (OSTemplate_MinDiskBytes t ≤ 0)
             then t <| OSTemplate_MinDiskBytes := 5 * 1024 * 1024 * 1024 |> else t in
    let t := if decide (OSTemplate_MinMemoryBytes t ≤ 0)
             then t <| OSTemplate_MinMemoryBytes := 512 * 1024 * 1024 |> else t in
    (if decide (OSTemplate_Status t = "") then t <| OSTemplate_Status := "active" |> else t, Ok ()).

Definition ImageArtifact_Validate (i : ImageArtifact) : ImageArtifact * result () :=
  let i := i <| ImageArtifact_TemplateID := TrimSpace (ImageArtifact_TemplateID i) |>
             <| ImageArtifact_Architecture := NormalizeArchitecture (ImageArtifact_Architecture i) |>
             <| ImageArtifact_IncusFingerprint :=
                  TrimSpace (ToLower (ImageArtifact_IncusFingerprint i)) |>
             <| ImageArtifact_Checksum := TrimSpace (ToLower (ImageArtifact_Checksum i)) |> in
  if decide (ImageArtifact_TemplateID i = "" ∨ ImageArtifact_Architecture i = "")
  then (i, Err ErrInvalidImageSpec)
  else if decide (ImageArtifact_InstanceType i ≠ TypeContainer ∧
                  ImageArtifact_InstanceType i ≠ TypeVirtualMachine)
  then (i, Err ErrUnsupportedInstanceType)
  else if bool_decide (ImageArtifact_IncusFingerprint i ≠ "") &&
          negb (hex64Regex (ImageArtifact_IncusFingerprint i))
  then (i, Err ErrInvalidFingerprint)
  else if bool_decide (ImageArtifact_Checksum i ≠ "") &&
          negb (hex64Regex (ImageArtifact_Checksum i))
  then (i, Err ErrInvalidFingerprint)
  else
    let i := if decide (ImageArtifact_SourceRemote i = "")
             then i <| ImageArtifact_SourceRemote := "images" |> else i in
    (if decide (ImageArtifact_Status i = "") then i <| ImageArtifact_Status := "available" |> else i,
     Ok ()).

(** [TemplateLookupService]; [T] is the state behind it. *)
Class TemplateLookup (T : Type) := {
  GetTemplate_ : option Subject → string → go T OSTemplate;
  FindCompatibleImage_ : string → string → string → go T ImageArtifact;
  ValidateCloudInit_ : option Subject → CloudInitConfig → go T ()
}.

Lemma bracketed_spec ends mid lo hi s :
  bracketed ends mid lo hi s = true → (lo + 2 ≤ String.length s ≤ hi + 2)%nat ∧ s ≠ "".
Proof.
  unfold bracketed. intros [[[H1 _]%andb_prop _]%andb_prop H4%bool_decide_eq_true]%andb_prop.
  split; [done|]. intros ->. discriminate.
Qed.

Lemma NormalizeArchitecture_canonical arch :
  NormalizeArchitecture arch = "x86_64" ∨ NormalizeArchitecture arch = "aarch64" ∨
  NormalizeArchitecture arch = ToLower (TrimSpace arch).
Proof. unfold NormalizeArchitecture. cbv zeta. repeat case_decide; auto. Qed.

(** Normalising an architecture again changes nothing. *)
Lemma NormalizeArchitecture_idem a :
  NormalizeArchitecture (NormalizeArchitecture a) = NormalizeArchitecture a.
Proof.
  assert (∀ b, ToLower (TrimSpace b) = b → NormalizeArchitecture b =
    if decide (b ∈ ["amd64"; "x86_64"; "x86-64"; "x64"]) then "x86_64"
    else if decide (b ∈ ["arm64"; "aarch64"; "armv8"; "armv8l"]) then "aarch64" else b) as Hfix.
  { intros b Hb. unfold NormalizeArchitecture. cbv zeta. by rewrite Hb. }
  destruct (NormalizeArchitecture_canonical a) as [->|[->|Ha]]; [done..|].
  rewrite Ha at 1. rewrite Hfix.
  2:{ by rewrite <-ToLower_TrimSpace, TrimSpace_idem, ToLower_idem. }
  done.
Qed.

Lemma slugRegex_lower s : slugRegex s = true → ToLower s = s.
Proof.
  unfold slugRegex, bracketed. intros [[_ Hall]%andb_prop _]%andb_prop.
  unfold all_chars in Hall. apply bool_decide_eq_true in Hall. revert Hall.
  induction s as [|c s IH]; [done|]. cbn [run_of]. destruct (alnum_c c || _) eqn:Ec; [|done].
  destruct (run_of _ s) as [p q] eqn:Er. cbn in *. intros ->. unfold ToLower in *. cbn.
  f_equal; [|by apply IH]. clear -Ec. by destruct c as [[] [] [] [] [] [] [] []]; vm_compute in Ec.
Qed.

Lemma TrimSpace_ToLower_idem s : TrimSpace (ToLower (TrimSpace (ToLower s))) = TrimSpace (ToLower s).
Proof. by rewrite ToLower_TrimSpace, ToLower_idem, TrimSpace_idem. Qed.

#[local] Arguments TrimSpace _ : simpl never.
#[local] Arguments ToLower _ : simpl never.
#[local] Arguments slugRegex _ : simpl never.
#[local] Arguments NormalizeArchitecture _ : simpl never.

(** What a template that passes becomes, field by field. *)
Definition normal_template (t : OSTemplate) : OSTemplate :=
  mkOSTemplate (OSTemplate_ID t) (TrimSpace (OSTemplate_Name t))
    (TrimSpace (ToLower (OSTemplate_Slug t))) (OSTemplate_Description t)
    (TrimSpace (ToLower (OSTemplate_Distribution t))) (TrimSpace (OSTemplate_Version t))
    (OSTemplate_Release t)
    (match OSTemplate_SupportedArchitectures t with
     | [] => ["x86_64"] | l => NormalizeArchitecture <$> l end)
    (match OSTemplate_SupportedInstanceTypes t with
     | [] => [TypeContainer; TypeVirtualMachine] | l => l end)
    (if decide (OSTemplate_MinDiskBytes t ≤ 0) then 5 * 1024 * 1024 * 1024
     else OSTemplate_MinDiskBytes t)
    (if decide (OSTemplate_MinMemoryBytes t ≤ 0) then 512 * 1024 * 1024
     else OSTemplate_MinMemoryBytes t)
    (OSTemplate_CloudInitSupported t)
    (if decide (OSTemplate_Status t = "") then "active" else OSTemplate_Status t)
    (OSTemplate_Metadata t) (OSTemplate_CreatedAt t) (OSTemplate_UpdatedAt t).

Definition template_fields_ok (t : OSTemplate) : Prop :=
  OSTemplate_Name t ≠ "" ∧ OSTemplate_Distribution t ≠ "" ∧ OSTemplate_Version t ≠ "" ∧
  slugRegex (OSTemplate_Slug t) = true.

Lemma OSTemplate_Validate_run t t' :
  OSTemplate_Validate t = (t', Ok ()) ↔ t' = normal_template t ∧ template_fields_ok t'.
Proof.
  unfold template_fields_ok.
  destruct t as [i n sl d di v r arch types md mm cs st me ca ua]. unfold OSTemplate_Validate.
  cbn. case_decide as Hn; cbn.
  { split; [done|]. intros [-> (? & ? & ? & _)]. cbn in *. tauto. }
  destruct (slugRegex _) eqn:Hs; cbn; [|split; [done|]; intros [-> (_ & _ & _ & Hs')]; cbn in *; congruence].
  trans (t' = normal_template (mkOSTemplate i n sl d di v r arch types md mm cs st me ca ua)).
  - unfold normal_template. cbn. split.
    + intros [= <-]. destruct arch, types; cbn; repeat (case_decide; cbn); done.
    + intros ->. f_equal. destruct arch, types; cbn; repeat (case_decide; cbn); done.
  - split; [intros ->; split; [done|]; cbn; tauto|by intros [-> _]].
Qed.

(** Validation is a normal form: what passed passes again unchanged. *)
Lemma OSTemplate_Validate_idem t t' :
  OSTemplate_Validate t = (t', Ok ()) → OSTemplate_Validate t' = (t', Ok ()).
Proof.
  intros [-> Hok]%OSTemplate_Validate_run. apply OSTemplate_Validate_run. split; [|done].
  unfold normal_template. cbn. rewrite !TrimSpace_idem, !TrimSpace_ToLower_idem. f_equal.
  - destruct (OSTemplate_SupportedArchitectures t) as [|a l]; [done|]. cbn.
    rewrite NormalizeArchitecture_idem. f_equal. induction l as [|b l IH]; [done|]. cbn.
    by rewrite NormalizeArchitecture_idem, <-IH.
  - by destruct (OSTemplate_SupportedInstanceTypes t).
  - repeat case_decide; done || lia.
  - repeat case_decide; done || lia.
  - repeat case_decide; done.
Qed.

(** A template that passes has a name, a distribution, a version and a slug of
    3 to 64 characters, positive minimum sizes and at least one architecture
    and instance type. *)
Theorem OSTemplate_Validate_ok (t t' : OSTemplate) :
  OSTemplate_Validate t = (t', Ok ()) →
  OSTemplate_Name t' ≠ "" ∧ OSTemplate_Distribution t' ≠ "" ∧ OSTemplate_Version t' ≠ "" ∧
  (3 ≤ String.length (OSTemplate_Slug t') ≤ 64)%nat ∧
  ToLower (OSTemplate_Slug t') = OSTemplate_Slug t' ∧
  0 < OSTemplate_MinDiskBytes t' ∧ 0 < OSTemplate_MinMemoryBytes t' ∧
  OSTemplate_SupportedArchitectures t' ≠ [] ∧ OSTemplate_SupportedInstanceTypes t' ≠ [] ∧
  OSTemplate_Status t' ≠ "".
Proof.
  intros [Ht (Hn & Hd & Hv & Hs)]%OSTemplate_Validate_run.
  pose proof (slugRegex_lower _ Hs) as Hl. apply bracketed_spec in Hs as [Hs _].
  split_and!; try done; try lia; rewrite Ht; unfold normal_template; cbn;
    try (case_decide; done || lia); by case_match.
Qed.

(** The same for images. *)
Definition normal_image (i : ImageArtifact) : ImageArtifact :=
  mkImageArtifact (ImageArtifact_ID i) (TrimSpace (ImageArtifact_TemplateID i))
    (NormalizeArchitecture (ImageArtifact_Architecture i)) (ImageArtifact_InstanceType i)
    (TrimSpace (ToLower (ImageArtifact_IncusFingerprint i))) (ImageArtifact_ImageAlias i)
    (if decide (ImageArtifact_SourceRemote i = "") then "images" else ImageArtifact_SourceRemote i)
    (ImageArtifact_SourceURL i) (ImageArtifact_SizeBytes i)
    (TrimSpace (ToLower (ImageArtifact_Checksum i)))
    (if decide (ImageArtifact_Status i = "") then "available" else ImageArtifact_Status i)
    (ImageArtifact_ErrorMessage i) (ImageArtifact_Metadata i) (ImageArtifact_CreatedAt i)
    (ImageArtifact_UpdatedAt i).

Definition image_fields_ok (i : ImageArtifact) : Prop :=
  ImageArtifact_TemplateID i ≠ "" ∧ ImageArtifact_Architecture i ≠ "" ∧
  (ImageArtifact_InstanceType i = TypeContainer ∨ ImageArtifact_InstanceType i = TypeVirtualMachine) ∧
  (ImageArtifact_IncusFingerprint i = "" ∨ hex64Regex (ImageArtifact_IncusFingerprint i) = true) ∧
  (ImageArtifact_Checksum i = "" ∨ hex64Regex (ImageArtifact_Checksum i) = true).
#[local] Arguments hex64Regex _ : simpl never.

Lemma ImageArtifact_Validate_run i i' :
  ImageArtifact_Validate i = (i', Ok ()) ↔ i' = normal_image i ∧ image_fields_ok i'.
Proof.
  unfold image_fields_ok.
  destruct i as [id t a ty fp al sr su sz ck st em me ca ua]. unfold ImageArtifact_Validate. cbn.
  case_decide as Hn; [split; [done|]; intros [-> (? & ? & _)]; cbn in *; tauto|].
  case_decide as Hty; [split; [done|]; intros [-> (_ & _ & ? & _)]; cbn in *; tauto|].
  destruct (bool_decide _ && _) eqn:Hf.
  { split; [done|]. intros [-> (_ & _ & _ & Hx & _)]. cbn in *.
    apply andb_prop in Hf as [Hf1%bool_decide_eq_true Hf2%negb_true_iff].
    destruct Hx; congruence. }
  destruct (bool_decide (TrimSpace (ToLower ck) ≠ "") && _) eqn:Hc.
  { split; [done|]. intros [-> (_ & _ & _ & _ & Hx)]. cbn in *.
    apply andb_prop in Hc as [Hc1%bool_decide_eq_true Hc2%negb_true_iff].
    destruct Hx; congruence. }
  assert (∀ s, bool_decide (s ≠ "") && negb (hex64Regex s) = false → s = "" ∨ hex64Regex s = true) as Hor.
  { intros s [Hs%bool_decide_eq_false|Hs%negb_false_iff]%andb_false_iff; [left|by right].
    by apply dec_stable. }
  trans (i' = normal_image (mkImageArtifact id t a ty fp al sr su sz ck st em me ca ua)).
  - unfold normal_image. cbn. split.
    + intros [= <-]. repeat (case_decide; cbn); done.
    + intros ->. f_equal. repeat (case_decide; cbn); done.
  - split; [|by intros [-> _]]. intros ->. split; [done|]. cbn.
    split_and!; try tauto; [|by apply Hor..].
    destruct (decide (ty = TypeContainer)); [by left|]. right. apply dec_stable. tauto.
Qed.

Lemma ImageArtifact_Validate_idem i i' :
  ImageArtifact_Validate i = (i', Ok ()) → ImageArtifact_Validate i' = (i', Ok ()).
Proof.
  intros [-> Hok]%ImageArtifact_Validate_run. apply ImageArtifact_Validate_run. split; [|done].
  unfold normal_image. cbn. rewrite !TrimSpace_idem, !TrimSpace_ToLower_idem, NormalizeArchitecture_idem.
  f_equal; repeat case_decide; done.
Qed.
