(* ===== verification/Catalog.v ===== *)
(** * The catalogue of templates and images

    [internal/app/template/service.go] over the repositories of
    [internal/infra/memory/template_repo.go], and the image source of
    [internal/infra/imagesource]. The compute service resolves templates
    through [TemplateLookup], which the catalogue implements. *)

From S2P Require Import Prelude Identity AuditTrail Node Commands Instances Guest Template.

Record NodeImageAvailability : Type := mkNodeImageAvailability {
  NodeImageAvailability_NodeID : string;
  NodeImageAvailability_ArtifactID : string;
  NodeImageAvailability_Status : string;
  NodeImageAvailability_LastSyncedAt : Z
}.
#[export] Instance NodeImageAvailability_eq_dec : EqDecision NodeImageAvailability.
Proof. solve_decision. Defined.

Record TemplateFilter : Type := mkTemplateFilter {
  TemplateFilter_Distribution : string;
  TemplateFilter_Architecture : string;
  TemplateFilter_InstanceType : string;
  TemplateFilter_Status : string;
  TemplateFilter_Search : string;
  TemplateFilter_Limit : Z;
  TemplateFilter_Offset : Z
}.

Definition eta_TemplateFilter (r : TemplateFilter) : TemplateFilter :=
  mkTemplateFilter (TemplateFilter_Distribution r) (TemplateFilter_Architecture r)
    (TemplateFilter_InstanceType r) (TemplateFilter_Status r) (TemplateFilter_Search r)
    (TemplateFilter_Limit r) (TemplateFilter_Offset r).
#[export] Instance set_TemplateFilter_Status : Setter TemplateFilter_Status := ltac:(setter eta_TemplateFilter TemplateFilter_Status).

Record ImageFilter : Type := mkImageFilter {
  ImageFilter_TemplateID : string;
  ImageFilter_Architecture : string;
  ImageFilter_InstanceType : string;
  ImageFilter_Status : string;
  ImageFilter_NodeID : string;
  ImageFilter_Limit : Z;
  ImageFilter_Offset : Z
}.

(** ** The repositories *)

Record CatalogStore : Type := mkCatalogStore {
  CatalogStore_templates : gmap string OSTemplate;
  CatalogStore_artifacts : gmap string ImageArtifact;
  CatalogStore_availability : gmap string NodeImageAvailability
}.

Definition eta_CatalogStore (r : CatalogStore) : CatalogStore :=
  mkCatalogStore (CatalogStore_templates r) (CatalogStore_artifacts r)
    (CatalogStore_availability r).
#[export] Instance set_CatalogStore_templates : Setter CatalogStore_templates := ltac:(setter eta_CatalogStore CatalogStore_templates).
#[export] Instance set_CatalogStore_artifacts : Setter CatalogStore_artifacts := ltac:(setter eta_CatalogStore CatalogStore_artifacts).
#[export] Instance set_CatalogStore_availability : Setter CatalogStore_availability := ltac:(setter eta_CatalogStore CatalogStore_availability).

Definition GiB : Z := 1024 * 1024 * 1024.
Definition MiB : Z := 1024 * 1024.

Definition seed_templates (now : Z) : list OSTemplate :=
  let official := Some (details [("official", AnyBool true)]) in
  [mkOSTemplate "tmpl-ubuntu-24-04" "Ubuntu 24.04 LTS (Noble Numbat)" "ubuntu-24.04"
     "Canonical Ubuntu Server 24.04 LTS official cloud release" "ubuntu" "24.04" "noble"
     ["x86_64"; "aarch64"] [TypeContainer; TypeVirtualMachine] (5 * GiB) (512 * MiB)
     true "active" official now now;
   mkOSTemplate "tmpl-debian-12" "Debian 12 (Bookworm)" "debian-12"
     "Debian GNU/Linux 12 Bookworm stable release" "debian" "12" "bookworm"
     ["x86_64"; "aarch64"] [TypeContainer; TypeVirtualMachine] (3 * GiB) (256 * MiB)
     true "active" official now now;
   mkOSTemplate "tmpl-alpine-3-19" "Alpine Linux 3.19" "alpine-3.19"
     "Lightweight, security-oriented container and VM distribution" "alpine" "3.19" "standard"
     ["x86_64"; "aarch64"] [TypeContainer] (1 * GiB) (128 * MiB)
     true "active" official now now].

Definition seed_images (now : Z) : list ImageArtifact :=
  let fp1 := "e3b0c44298fc1c149afbf4c8996fb92427ae41e4649b934ca495991b7852b855" in
  let fp2 := "ca978112ca1bbdcaf064278e4a1f2f0dd128ab44929197d026900f9774b5c2b4" in
  let fp3 := "4b227777d4dd1fc61c6f884f48641d02b4d121d3fd328cb08b5531fcacdabf8a" in
  [mkImageArtifact "img-ubuntu-24-04-x86-c" "tmpl-ubuntu-24-04" "x86_64" TypeContainer fp1
     "images:ubuntu/24.04" "images" "" (350 * MiB) fp1 "available" "" None now now;
   mkImageArtifact "img-ubuntu-24-04-x86-vm" "tmpl-ubuntu-24-04" "x86_64" TypeVirtualMachine fp2
     "images:ubuntu/24.04/cloud" "images" "" (1200 * MiB) fp2 "available" "" None now now;
   mkImageArtifact "img-alpine-3-19-x86-c" "tmpl-alpine-3-19" "x86_64" TypeContainer fp3
     "images:alpine/3.19" "images" "" (45 * MiB) fp3 "available" "" None now now].

(** [NewMemoryTemplateRepo] and [NewMemoryImageRepo], at the times they run. *)
Definition NewCatalog (t1 t2 : Z) : CatalogStore :=
  mkCatalogStore
    (list_to_map ((λ t, (OSTemplate_ID t, t)) <$> seed_templates t1))
    (list_to_map ((λ i, (ImageArtifact_ID i, i)) <$> seed_images t2)) ∅.

(** The value as the repository completed it, which the caller's pointer also
    sees. *)
Definition template_Create (t : OSTemplate) : go CatalogStore OSTemplate :=
  s ← get;
  dup ← find_in (CatalogStore_templates s) (λ e, OSTemplate_Slug e = OSTemplate_Slug t);
  match dup with
  | Some _ => fail ErrTemplateSlugExists
  | None =>
      id ← (if decide (OSTemplate_ID t = "") then uuid_NewString else mret (OSTemplate_ID t));
      created ← (if decide (IsZero (OSTemplate_CreatedAt t)) then time_Now
                 else mret (OSTemplate_CreatedAt t));
      now ← time_Now;
      let t := t <| OSTemplate_ID := id |> <| OSTemplate_CreatedAt := created |>
                 <| OSTemplate_UpdatedAt := now |> in
      modify (λ s, s <| CatalogStore_templates := <[id := t]> (CatalogStore_templates s) |>) ;;
      mret t
  end.

Definition template_GetByID (id : string) : go CatalogStore OSTemplate :=
  s ← get;
  match CatalogStore_templates s !! id with
  | Some t => mret t
  | None => fail ErrTemplateNotFound
  end.

Definition template_GetBySlug (slug : string) : go CatalogStore OSTemplate :=
  s ← get;
  r ← find_in (CatalogStore_templates s) (λ t, EqualFold (OSTemplate_Slug t) slug);
  match r with Some t => mret t | None => fail ErrTemplateNotFound end.

Definition template_Update (t : OSTemplate) : go CatalogStore OSTemplate :=
  existing ← template_GetByID (OSTemplate_ID t);
  s ← get;
  clash ← find_in (CatalogStore_templates s)
    (λ other, OSTemplate_ID other ≠ OSTemplate_ID t ∧
              EqualFold (OSTemplate_Slug other) (OSTemplate_Slug t));
  match clash with
  | Some _ => fail ErrTemplateSlugExists
  | None =>
      now ← time_Now;
      let t := t <| OSTemplate_CreatedAt := OSTemplate_CreatedAt existing |>
                 <| OSTemplate_UpdatedAt := now |> in
      modify (λ s, s <| CatalogStore_templates :=
        <[OSTemplate_ID t := t]> (CatalogStore_templates s) |>) ;;
      mret t
  end.

Definition template_Delete (id : string) : go CatalogStore () :=
  template_GetByID id ;;
  modify (λ s, s <| CatalogStore_templates := delete id (CatalogStore_templates s) |>).

(** The tests of the loop of [List]: a template passes when no test skips it. *)
Definition template_matches (f : TemplateFilter) (t : OSTemplate) : Prop :=
  (TemplateFilter_Distribution f = "" ∨
   EqualFold (OSTemplate_Distribution t) (TemplateFilter_Distribution f)) ∧
  (TemplateFilter_Status f = "" ∨ OSTemplate_Status t = TemplateFilter_Status f) ∧
  (TemplateFilter_Architecture f = "" ∨
   Exists (λ a, EqualFold a (TemplateFilter_Architecture f)) (OSTemplate_SupportedArchitectures t)) ∧
  (TemplateFilter_InstanceType f = "" ∨
   TemplateFilter_InstanceType f ∈ OSTemplate_SupportedInstanceTypes t) ∧
  (TemplateFilter_Search f = "" ∨
   (let s := ToLower (TemplateFilter_Search f) in
    Contains_ (ToLower (OSTemplate_Name t)) s || Contains_ (ToLower (OSTemplate_Slug t)) s ||
    Contains_ (ToLower (OSTemplate_Description t)) s) = true).
#[export] Instance template_matches_dec f t : Decision (template_matches f t).
Proof. unfold template_matches. apply _. Defined.

Definition template_List (f : TemplateFilter) : go CatalogStore (list OSTemplate * Z) :=
  s ← get;
  matching ← list_in (CatalogStore_templates s) (template_matches f);
  items ← lift (page 50 matching (TemplateFilter_Limit f) (TemplateFilter_Offset f));
  mret (items, Z.of_nat (length matching)).

Definition image_Create (img : ImageArtifact) : go CatalogStore ImageArtifact :=
  id ← (if decide (ImageArtifact_ID img = "") then uuid_NewString
        else mret (ImageArtifact_ID img));
  created ← (if decide (IsZero (ImageArtifact_CreatedAt img)) then time_Now
             else mret (ImageArtifact_CreatedAt img));
  now ← time_Now;
  let img := img <| ImageArtifact_ID := id |> <| ImageArtifact_CreatedAt := created |>
                 <| ImageArtifact_UpdatedAt := now |> in
  modify (λ s, s <| CatalogStore_artifacts := <[id := img]> (CatalogStore_artifacts s) |>) ;;
  mret img.

Definition image_GetByID (id : string) : go CatalogStore ImageArtifact :=
  s ← get;
  match CatalogStore_artifacts s !! id with
  | Some i => mret i
  | None => fail ErrImageArtifactNotFound
  end.

Definition image_GetByFingerprint (fp : string) : go CatalogStore ImageArtifact :=
  s ← get;
  r ← find_in (CatalogStore_artifacts s) (λ i, EqualFold (ImageArtifact_IncusFingerprint i) fp);
  match r with Some i => mret i | None => fail ErrImageArtifactNotFound end.

Definition image_ListByTemplate (templateID : string) : go CatalogStore (list ImageArtifact) :=
  s ← get; list_in (CatalogStore_artifacts s) (λ i, ImageArtifact_TemplateID i = templateID).

Definition compatible (templateID architecture instType : string) (i : ImageArtifact) : Prop :=
  ImageArtifact_TemplateID i = templateID ∧
  NormalizeArchitecture (ImageArtifact_Architecture i) = NormalizeArchitecture architecture ∧
  ImageArtifact_InstanceType i = instType ∧ ImageArtifact_Status i = "available".
#[export] Instance compatible_dec t a ty i : Decision (compatible t a ty i).
Proof. unfold compatible. apply _. Defined.

Definition image_FindCompatible (templateID architecture instType : string) :
    go CatalogStore ImageArtifact :=
  s ← get;
  r ← find_in (CatalogStore_artifacts s) (compatible templateID architecture instType);
  match r with Some i => mret i | None => fail ErrNoCompatibleImage end.

Definition image_Update (img : ImageArtifact) : go CatalogStore () :=
  existing ← image_GetByID (ImageArtifact_ID img);
  now ← time_Now;
  let img := img <| ImageArtifact_CreatedAt := ImageArtifact_CreatedAt existing |>
                 <| ImageArtifact_UpdatedAt := now |> in
  modify (λ s, s <| CatalogStore_artifacts :=
    <[ImageArtifact_ID img := img]> (CatalogStore_artifacts s) |>).

Definition image_UpdateStatus (id status errorMsg : string) : go CatalogStore () :=
  img ← image_GetByID id;
  now ← time_Now;
  modify (λ s, s <| CatalogStore_artifacts :=
    <[id := (img <| ImageArtifact_Status := status |> <| ImageArtifact_ErrorMessage := errorMsg |>
                 <| ImageArtifact_UpdatedAt := now |>)]> (CatalogStore_artifacts s) |>).

Definition image_Delete (id : string) : go CatalogStore () :=
  image_GetByID id ;;
  modify (λ s, s <| CatalogStore_artifacts := delete id (CatalogStore_artifacts s) |>).

Definition image_matches (f : ImageFilter) (i : ImageArtifact) : Prop :=
  (ImageFilter_TemplateID f = "" ∨ ImageArtifact_TemplateID i = ImageFilter_TemplateID f) ∧
  (ImageFilter_Architecture f = "" ∨
   EqualFold (ImageArtifact_Architecture i) (ImageFilter_Architecture f)) ∧
  (ImageFilter_InstanceType f = "" ∨ ImageArtifact_InstanceType i = ImageFilter_InstanceType f) ∧
  (ImageFilter_Status f = "" ∨ ImageArtifact_Status i = ImageFilter_Status f).
#[export] Instance image_matches_dec f i : Decision (image_matches f i).
Proof. unfold image_matches. apply _. Defined.

Definition image_List (f : ImageFilter) : go CatalogStore (list ImageArtifact * Z) :=
  s ← get;
  matching ← list_in (CatalogStore_artifacts s) (image_matches f);
  items ← lift (page 50 matching (ImageFilter_Limit f) (ImageFilter_Offset f));
  mret (items, Z.of_nat (length matching)).

Definition RecordNodeAvailability (nodeID artifactID status : string) : go CatalogStore () :=
  now ← time_Now;
  modify (λ s, s <| CatalogStore_availability :=
    <[nodeID +:+ ":" +:+ artifactID := mkNodeImageAvailability nodeID artifactID status now]>
      (CatalogStore_availability s) |>).

Definition GetNodeAvailability (nodeID artifactID : string) :
    go CatalogStore (option NodeImageAvailability) :=
  s ← get; mret (CatalogStore_availability s !! (nodeID +:+ ":" +:+ artifactID)).

Definition ListNodeAvailability (nodeID : string) : go CatalogStore (list NodeImageAvailability) :=
  s ← get; list_in (CatalogStore_availability s) (λ a, NodeImageAvailability_NodeID a = nodeID).

(** ** The image source

    [template.ImageSource]: what [Verify] answers on an artifact that is not
    [nil], both components of the Go result. *)

Class ImageSource := VerifySource : ImageArtifact → bool * option error.

(** [imagesource/image_source.go]: the registry of trusted remotes. *)
Definition NewRegistry (trustedRemotes : list string) : list string :=
  ToLower <$> (match trustedRemotes with [] => ["images"; "ubuntu"; "local"] | l => l end).

Definition Inspect {St} `{Digest} (allowedRemotes : list string) (remote alias : string) :
    go St ImageArtifact :=
  let remote := TrimSpace (ToLower remote) in
  let alias := TrimSpace alias in
  let remote := if decide (remote = "") then "images" else remote in
  if decide (remote ∉ allowedRemotes) then
    fail (Errorf ("untrusted or disallowed image remote '" +:+ remote +:+ "'"))
  else if decide (alias = "") then
    fail (ErrNew "imagesource" "image alias or fingerprint is required")
  else
    let fp := sha256_hex (remote +:+ ":" +:+ alias) in
    let instType := if Contains_ alias "vm" || Contains_ alias "cloud"
                    then TypeVirtualMachine else TypeContainer in
    let arch := if Contains_ alias "arm64" || Contains_ alias "aarch64"
                then "aarch64" else "x86_64" in
    t1 ← time_Now;
    t2 ← time_Now;
    mret (mkImageArtifact "" "" arch instType fp (remote +:+ ":" +:+ alias) remote "" 0 fp
            "available" "" None t1 t2).

Definition RegistryVerify (i : ImageArtifact) : bool * option error :=
  if decide (ImageArtifact_IncusFingerprint i = "" ∧ ImageArtifact_Checksum i = "") then
    (false, Some (ErrNew "imagesource" "artifact missing fingerprint or checksum"))
  else if decide (ImageArtifact_Checksum i ≠ "" ∧ ImageArtifact_IncusFingerprint i ≠ "" ∧
                  ¬ EqualFold (ImageArtifact_Checksum i) (ImageArtifact_IncusFingerprint i)) then
    (false, Some ErrFingerprintMismatch)
  else (true, None).
Definition Registry : ImageSource := RegistryVerify.

(** ** The service *)

Record CreateTemplateRequest : Type := mkCreateTemplateRequest {
  CreateTemplateRequest_Name : string;
  CreateTemplateRequest_Slug : string;
  CreateTemplateRequest_Description : string;
  CreateTemplateRequest_Distribution : string;
  CreateTemplateRequest_Version : string;
  CreateTemplateRequest_Release : string;
  CreateTemplateRequest_SupportedArchitectures : list string;
  CreateTemplateRequest_SupportedInstanceTypes : list string;
  CreateTemplateRequest_MinDiskBytes : Z;
  CreateTemplateRequest_MinMemoryBytes : Z;
  CreateTemplateRequest_CloudInitSupported : bool;
  CreateTemplateRequest_Metadata : option Prelude.Details
}.

Record UpdateTemplateRequest : Type := mkUpdateTemplateRequest {
  UpdateTemplateRequest_Name : string;
  UpdateTemplateRequest_Slug : string;
  UpdateTemplateRequest_Description : string;
  UpdateTemplateRequest_Distribution : string;
  UpdateTemplateRequest_Version : string;
  UpdateTemplateRequest_Release : string;
  UpdateTemplateRequest_SupportedArchitectures : list string;
  UpdateTemplateRequest_SupportedInstanceTypes : list string;
  UpdateTemplateRequest_MinDiskBytes : Z;
  UpdateTemplateRequest_MinMemoryBytes : Z;
  UpdateTemplateRequest_CloudInitSupported : bool;
  UpdateTemplateRequest_Status : string;
  UpdateTemplateRequest_Metadata : option Prelude.Details
}.

Record RegisterImageRequest : Type := mkRegisterImageRequest {
  RegisterImageRequest_TemplateID : string;
  RegisterImageRequest_Architecture : string;
  RegisterImageRequest_InstanceType : string;
  RegisterImageRequest_IncusFingerprint : string;
  RegisterImageRequest_ImageAlias : string;
  RegisterImageRequest_SourceRemote : string;
  RegisterImageRequest_SourceURL : string;
  RegisterImageRequest_SizeBytes : Z;
  RegisterImageRequest_Checksum : string;
  RegisterImageRequest_Metadata : option Prelude.Details
}.

Record SyncImageRequest : Type := mkSyncImageRequest {
  SyncImageRequest_ImageID : string;
  SyncImageRequest_NodeID : string
}.

Definition isSuperadminOrOperator (sub : option Subject) : bool :=
  match sub with
  | None => false
  | Some s =>
      existsb (λ r, bool_decide (r = "superadmin") || bool_decide (r = "operator"))
        (Subject_Roles s) ||
      existsb (λ p, bool_decide (p = "*") || HasPrefix p "template:" || HasPrefix p "image:")
        (Subject_Permissions s)
  end.

(** [if req.F != "" { t.F = req.F }] *)
Definition keep_empty (new old : string) : string := if decide (new ≠ "") then new else old.

(** The assignments of [UpdateTemplate]. *)
Definition apply_update (req : UpdateTemplateRequest) (t : OSTemplate) : OSTemplate :=
  mkOSTemplate (OSTemplate_ID t)
    (keep_empty (UpdateTemplateRequest_Name req) (OSTemplate_Name t))
    (keep_empty (UpdateTemplateRequest_Slug req) (OSTemplate_Slug t))
    (keep_empty (UpdateTemplateRequest_Description req) (OSTemplate_Description t))
    (keep_empty (UpdateTemplateRequest_Distribution req) (OSTemplate_Distribution t))
    (keep_empty (UpdateTemplateRequest_Version req) (OSTemplate_Version t))
    (keep_empty (UpdateTemplateRequest_Release req) (OSTemplate_Release t))
    (match UpdateTemplateRequest_SupportedArchitectures req with
     | [] => OSTemplate_SupportedArchitectures t | l => l end)
    (match UpdateTemplateRequest_SupportedInstanceTypes req with
     | [] => OSTemplate_SupportedInstanceTypes t | l => l end)
    (if decide (0 < UpdateTemplateRequest_MinDiskBytes req)
     then UpdateTemplateRequest_MinDiskBytes req else OSTemplate_MinDiskBytes t)
    (if decide (0 < UpdateTemplateRequest_MinMemoryBytes req)
     then UpdateTemplateRequest_MinMemoryBytes req else OSTemplate_MinMemoryBytes t)
    (UpdateTemplateRequest_CloudInitSupported req)
    (keep_empty (UpdateTemplateRequest_Status req) (OSTemplate_Status t))
    (match UpdateTemplateRequest_Metadata req with
     | None => OSTemplate_Metadata t | m => m end)
    (OSTemplate_CreatedAt t) (OSTemplate_UpdatedAt t).

(** What the service reaches: its repositories and the node gateway. *)
Record CatalogEnv (G : Type) := mkCatalogEnv { cat_store : CatalogStore; cat_nodes : G }.
Arguments mkCatalogEnv {G} _ _.
Arguments cat_store {G} _.
Arguments cat_nodes {G} _.

Section service.
Context {G A : Type} `{!NodeGateway G, !AuditRepository A}.
(** [has_audit] is [s.auditRepo != nil], [source] the image source if any. *)
Context (auth : Authorizer) (has_audit : bool) (source : option ImageSource).
Abbreviation env := (CatalogEnv G * A)%type.

Definition on_catalog {X} (m : go CatalogStore X) : go env X :=
  on_store (zoom cat_store (λ x e, mkCatalogEnv x (cat_nodes e)) m).
Definition on_gateway {X} (m : go G X) : go env X :=
  on_store (zoom cat_nodes (λ x e, mkCatalogEnv (cat_store e) x) m).

Definition logAudit (sub : option Subject) (action resourceID : string)
    (det : list (string * any)) : go env () :=
  if has_audit then
    let actorID := match sub with
                   | Some u => if decide (Subject_UserID u = "") then None
                               else Some (Subject_UserID u)
                   | None => None
                   end in
    let rID := if decide (resourceID = "") then None else Some resourceID in
    now ← time_Now;
    ignore (zoom snd (λ a s, (fst s, a)) (Record_
      (mkAuditLog 0 actorID "" "" action "template" rID "" 200 (Some (details det))
         SeverityInfo "" "" now)))
  else mret ().

Definition CreateTemplate (sub : option Subject) (req : CreateTemplateRequest) :
    go env OSTemplate :=
  authorize auth sub "template:create" None ;;
  let '(t, err) := OSTemplate_Validate
    (mkOSTemplate "" (CreateTemplateRequest_Name req) (CreateTemplateRequest_Slug req)
       (CreateTemplateRequest_Description req) (CreateTemplateRequest_Distribution req)
       (CreateTemplateRequest_Version req) (CreateTemplateRequest_Release req)
       (CreateTemplateRequest_SupportedArchitectures req)
       (CreateTemplateRequest_SupportedInstanceTypes req)
       (CreateTemplateRequest_MinDiskBytes req) (CreateTemplateRequest_MinMemoryBytes req)
       (CreateTemplateRequest_CloudInitSupported req) "active"
       (CreateTemplateRequest_Metadata req) zero_time zero_time) in
  lift err ;;
  t ← on_catalog (template_Create t);
  logAudit sub "template.created" (OSTemplate_ID t)
    [("name", AnyStr (OSTemplate_Name t)); ("slug", AnyStr (OSTemplate_Slug t));
     ("distribution", AnyStr (OSTemplate_Distribution t));
     ("version", AnyStr (OSTemplate_Version t))] ;;
  mret t.

Definition GetTemplate (sub : option Subject) (idOrSlug : string) : go env OSTemplate :=
  authorize auth sub "template:read" None ;;
  r ← try (on_catalog (template_GetByID idOrSlug));
  match r with
  | Ok t => mret t
  | Err _ => on_catalog (template_GetBySlug idOrSlug)
  end.

Definition ListTemplates (sub : option Subject) (filter : TemplateFilter) :
    go env (list OSTemplate * Z) :=
  authorize auth sub "template:read" None ;;
  let filter := if decide (isSuperadminOrOperator sub = false ∧ TemplateFilter_Status filter = "")
                then filter <| TemplateFilter_Status := "active" |> else filter in
  on_catalog (template_List filter).

Definition UpdateTemplate (sub : option Subject) (id : string) (req : UpdateTemplateRequest) :
    go env OSTemplate :=
  t ← on_catalog (template_GetByID id);
  authorize auth sub "template:update" (Some (OSTemplate_Resource t)) ;;
  let '(t, err) := OSTemplate_Validate (apply_update req t) in
  lift err ;;
  t ← on_catalog (template_Update t);
  logAudit sub "template.updated" (OSTemplate_ID t)
    [("name", AnyStr (OSTemplate_Name t)); ("slug", AnyStr (OSTemplate_Slug t));
     ("status", AnyStr (OSTemplate_Status t))] ;;
  mret t.

Definition DeleteTemplate (sub : option Subject) (id : string) : go env () :=
  t ← on_catalog (template_GetByID id);
  authorize auth sub "template:delete" (Some (OSTemplate_Resource t)) ;;
  on_catalog (template_Delete id) ;;
  logAudit sub "template.deleted" id
    [("name", AnyStr (OSTemplate_Name t)); ("slug", AnyStr (OSTemplate_Slug t))].

Definition RegisterImage (sub : option Subject) (req : RegisterImageRequest) :
    go env ImageArtifact :=
  authorize auth sub "image:manage" None ;;
  tmpl ← wrap_err (λ err, Wrapf ("invalid template ID: " +:+ Error err) err)
           (on_catalog (template_GetByID (RegisterImageRequest_TemplateID req)));
  let '(img, err) := ImageArtifact_Validate
    (mkImageArtifact "" (OSTemplate_ID tmpl) (RegisterImageRequest_Architecture req)
       (RegisterImageRequest_InstanceType req) (RegisterImageRequest_IncusFingerprint req)
       (RegisterImageRequest_ImageAlias req) (RegisterImageRequest_SourceRemote req)
       (RegisterImageRequest_SourceURL req) (RegisterImageRequest_SizeBytes req)
       (RegisterImageRequest_Checksum req) "available" "" (RegisterImageRequest_Metadata req)
       zero_time zero_time) in
  lift err ;;
  img ← on_catalog (image_Create img);
  logAudit sub "image.registered" (ImageArtifact_ID img)
    [("templateId", AnyStr (ImageArtifact_TemplateID img));
     ("architecture", AnyStr (ImageArtifact_Architecture img));
     ("instanceType", AnyStr (ImageArtifact_InstanceType img));
     ("fingerprint", AnyStr (ImageArtifact_IncusFingerprint img))] ;;
  mret img.

Definition ListImages (sub : option Subject) (filter : ImageFilter) :
    go env (list ImageArtifact * Z) :=
  authorize auth sub "image:read" None ;;
  on_catalog (image_List filter).

Definition GetImage (sub : option Subject) (id : string) : go env ImageArtifact :=
  authorize auth sub "image:read" None ;;
  on_catalog (image_GetByID id).

(** The call up to the start of its goroutine, with what the goroutine
    captures; [sync_task] is the goroutine, which runs at any later time. *)
Definition SyncImageToNode (sub : option Subject) (req : SyncImageRequest) :
    go env (ImageArtifact * Node) :=
  authorize auth sub "image:manage" None ;;
  img ← on_catalog (image_GetByID (SyncImageRequest_ImageID req));
  n ← on_gateway (read_nodes (NodeGetByID (SyncImageRequest_NodeID req)));
  if decide (Node_Status n ≠ StatusOnline) then fail ErrNodeOffline
  else
    logAudit sub "image.sync.started" (ImageArtifact_ID img)
      [("nodeId", AnyStr (Node_ID n)); ("fingerprint", AnyStr (ImageArtifact_IncusFingerprint img));
       ("alias", AnyStr (ImageArtifact_ImageAlias img))] ;;
    mret (img, n).

(** Why a command failed, if it did. *)
Definition sync_failure (r : result CommandResult) : option string :=
  match r with
  | Err e => Some (Error e)
  | Ok res =>
      if CommandResult_Success res then None
      else Some (if decide (CommandResult_ErrorMessage res = "") then "unknown sync error"
                 else CommandResult_ErrorMessage res)
  end.

Definition sync_task (sub : option Subject) (img : ImageArtifact) (n : Node) : go env () :=
  corr ← uuid_NewString;
  ignore (on_catalog (RecordNodeAvailability (Node_ID n) (ImageArtifact_ID img) "syncing")) ;;
  r ← try (on_gateway (SendCommand_ (Node_ID n)
    (mkCommand corr "sync_image" (details
      [("image_id", AnyStr (ImageArtifact_ID img));
       ("template_id", AnyStr (ImageArtifact_TemplateID img));
       ("incus_fingerprint", AnyStr (ImageArtifact_IncusFingerprint img));
       ("image_alias", AnyStr (ImageArtifact_ImageAlias img));
       ("source_remote", AnyStr (ImageArtifact_SourceRemote img));
       ("source_url", AnyStr (ImageArtifact_SourceURL img));
       ("architecture", AnyStr (ImageArtifact_Architecture img));
       ("instance_type", AnyStr (ImageArtifact_InstanceType img));
       ("expected_checksum", AnyStr (ImageArtifact_Checksum img))]) zero_time)));
  match sync_failure r with
  | Some errMsg =>
      ignore (on_catalog (RecordNodeAvailability (Node_ID n) (ImageArtifact_ID img) "failed")) ;;
      ignore (on_catalog (image_UpdateStatus (ImageArtifact_ID img) "sync_failed" errMsg)) ;;
      logAudit sub "image.sync.failed" (ImageArtifact_ID img)
        [("nodeId", AnyStr (Node_ID n)); ("error", AnyStr errMsg)]
  | None =>
      ignore (on_catalog (RecordNodeAvailability (Node_ID n) (ImageArtifact_ID img) "available")) ;;
      ignore (on_catalog (image_UpdateStatus (ImageArtifact_ID img) "available" "")) ;;
      logAudit sub "image.sync.completed" (ImageArtifact_ID img)
        [("nodeId", AnyStr (Node_ID n));
         ("fingerprint", AnyStr (ImageArtifact_IncusFingerprint img))]
  end.

Definition VerifyImage (sub : option Subject) (imageID : string) : go env bool :=
  authorize auth sub "image:manage" None ;;
  img ← on_catalog (image_GetByID imageID);
  match source with
  | None => mret true
  | Some src =>
      let '(valid, err) := @VerifySource src img in
      if decide (err ≠ None ∨ valid = false) then
        ignore (on_catalog (image_UpdateStatus (ImageArtifact_ID img) "verification_failed"
                              "fingerprint verification failed")) ;;
        match err with
        | None => lift (panic "nil pointer dereference")   (* [err.Error()] *)
        | Some e =>
            logAudit sub "image.verification.failed" (ImageArtifact_ID img)
              [("fingerprint", AnyStr (ImageArtifact_IncusFingerprint img));
               ("error", AnyStr (Error e))] ;;
            fail e
        end
      else mret true
  end.

Definition RetireImage (sub : option Subject) (imageID : string) : go env () :=
  authorize auth sub "image:manage" None ;;
  img ← on_catalog (image_GetByID imageID);
  on_catalog (image_UpdateStatus (ImageArtifact_ID img) "retired" "retired by administrator") ;;
  logAudit sub "image.retired" (ImageArtifact_ID img)
    [("fingerprint", AnyStr (ImageArtifact_IncusFingerprint img));
     ("templateId", AnyStr (ImageArtifact_TemplateID img))].

Definition ValidateCloudInit (sub : option Subject) (cfg : option CloudInitConfig) : go env () :=
  match cfg with
  | None => mret ()
  | Some c =>
      match Validate (Some c) with
      | Ok _ => mret ()
      | Err e =>
          logAudit sub "cloudinit.validation.failed" "" [("error", AnyStr (Error e))] ;;
          fail e
      end
  end.

Definition FindCompatibleImage (templateID architecture instType : string) :
    go env ImageArtifact := on_catalog (image_FindCompatible templateID architecture instType).

(** The lookup service of the compute module. *)
Definition catalog_lookup : TemplateLookup env := {|
  GetTemplate_ := GetTemplate;
  FindCompatibleImage_ := FindCompatibleImage;
  ValidateCloudInit_ := λ sub c, ValidateCloudInit sub (Some c)
|}.
End service.

(** ** The catalogue stays well formed

    Records are stored under their identifier, every stored template and image
    is one that validation leaves alone, and no two templates share a slug,
    whatever its case. *)

Record catalog_ok (s : CatalogStore) : Prop := {
  ct_keyed : ∀ id t, CatalogStore_templates s !! id = Some t → OSTemplate_ID t = id;
  ct_valid : ∀ id t, CatalogStore_templates s !! id = Some t → OSTemplate_Validate t = (t, Ok ());
  ct_slugs : ∀ id id' t t', CatalogStore_templates s !! id = Some t →
    CatalogStore_templates s !! id' = Some t' →
    EqualFold (OSTemplate_Slug t) (OSTemplate_Slug t') → id = id';
  ct_images : ∀ id i, CatalogStore_artifacts s !! id = Some i →
    ImageArtifact_ID i = id ∧ ImageArtifact_Validate i = (i, Ok ())
}.

Lemma valid_slug t : OSTemplate_Validate t = (t, Ok ()) → ToLower (OSTemplate_Slug t) = OSTemplate_Slug t.
Proof. intros (_ & _ & _ & _ & ? & _)%OSTemplate_Validate_ok. done. Qed.

#[local] Arguments TrimSpace _ : simpl never.
#[local] Arguments ToLower _ : simpl never.
#[local] Arguments NormalizeArchitecture _ : simpl never.

(** The fields validation does not look at. *)
Lemma valid_restamp t id c u :
  OSTemplate_Validate t = (t, Ok ()) →
  let t' := t <| OSTemplate_ID := id |> <| OSTemplate_CreatedAt := c |>
              <| OSTemplate_UpdatedAt := u |> in
  OSTemplate_Validate t' = (t', Ok ()).
Proof.
  rewrite !OSTemplate_Validate_run. intros [Ht Hok]. split; [|apply Hok].
  trans ((normal_template t) <| OSTemplate_ID := id |> <| OSTemplate_CreatedAt := c |>
           <| OSTemplate_UpdatedAt := u |>); [by rewrite <-Ht|by destruct t].
Qed.

Lemma image_valid_restamp i id c u :
  ImageArtifact_Validate i = (i, Ok ()) →
  let i' := i <| ImageArtifact_ID := id |> <| ImageArtifact_CreatedAt := c |>
              <| ImageArtifact_UpdatedAt := u |> in
  ImageArtifact_Validate i' = (i', Ok ()).
Proof.
  rewrite !ImageArtifact_Validate_run. intros [Hi Hok]. split; [|apply Hok].
  trans ((normal_image i) <| ImageArtifact_ID := id |> <| ImageArtifact_CreatedAt := c |>
           <| ImageArtifact_UpdatedAt := u |>); [by rewrite <-Hi|by destruct i].
Qed.

Lemma image_valid_status i st msg u :
  ImageArtifact_Validate i = (i, Ok ()) → st ≠ "" →
  let i' := i <| ImageArtifact_Status := st |> <| ImageArtifact_ErrorMessage := msg |>
              <| ImageArtifact_UpdatedAt := u |> in
  ImageArtifact_Validate i' = (i', Ok ()).
Proof.
  rewrite !ImageArtifact_Validate_run. intros [Hi Hok] Hst. split; [|apply Hok].
  trans ((normal_image i) <| ImageArtifact_Status := st |> <| ImageArtifact_ErrorMessage := msg |>
           <| ImageArtifact_UpdatedAt := u |>); [by rewrite <-Hi|].
  destruct i. unfold normal_image. cbn. by rewrite (decide_False (P := st = "")).
Qed.

Lemma catalog_put_template s t :
  catalog_ok s → OSTemplate_Validate t = (t, Ok ()) →
  (∀ id t', CatalogStore_templates s !! id = Some t' → id ≠ OSTemplate_ID t →
     ¬ EqualFold (OSTemplate_Slug t') (OSTemplate_Slug t)) →
  catalog_ok (s <| CatalogStore_templates := <[OSTemplate_ID t := t]> (CatalogStore_templates s) |>).
Proof.
  intros [Hk Hv Hs Hi] Ht Hnew. split; cbn; [| | |exact Hi].
  - intros id t' [[<- <-]|[_ H]]%lookup_insert_Some; [done|by apply Hk].
  - intros id t' [[<- <-]|[_ H]]%lookup_insert_Some; [done|by eapply Hv].
  - intros id id' t1 t2 [[<- <-]|[Hne1 H1]]%lookup_insert_Some
      [[<- <-]|[Hne2 H2]]%lookup_insert_Some He; [done| | |by eapply Hs].
    + exfalso. apply (Hnew id' t2); [done|done|]. unfold EqualFold in *. congruence.
    + exfalso. by apply (Hnew id t1).
Qed.

Lemma catalog_drop_template s id :
  catalog_ok s →
  catalog_ok (s <| CatalogStore_templates := delete id (CatalogStore_templates s) |>).
Proof.
  intros [Hk Hv Hs Hi]. split; cbn; [| | |exact Hi].
  - intros ? ? [_ H]%lookup_delete_Some. by apply Hk.
  - intros ? ? [_ H]%lookup_delete_Some. by eapply Hv.
  - intros ? ? ? ? [_ H1]%lookup_delete_Some [_ H2]%lookup_delete_Some. by eapply Hs.
Qed.

Lemma catalog_put_image s i :
  catalog_ok s → ImageArtifact_Validate i = (i, Ok ()) →
  catalog_ok (s <| CatalogStore_artifacts := <[ImageArtifact_ID i := i]> (CatalogStore_artifacts s) |>).
Proof.
  intros [Hk Hv Hs Hi] Ht. split; cbn; [done..|].
  intros id i' [[<- <-]|[_ H]]%lookup_insert_Some; [done|by apply Hi].
Qed.

Lemma catalog_availability s a :
  catalog_ok s → catalog_ok (s <| CatalogStore_availability := a |>).
Proof. intros [Hk Hv Hs Hi]. by split. Qed.

(** *** Methods that keep it

    [keeps P m]: from a well-formed catalogue and a world in [P]. *)

Definition keeps {St X} (cat : St → CatalogStore) (P : World → Prop) (m : go St X) : Prop :=
  ∀ w s, P w → catalog_ok (cat s) → catalog_ok (cat (exec m w s)).

Section keeps.
Context {St : Type} (cat : St → CatalogStore).
Implicit Types (P : World → Prop).

Lemma keeps_quiet {X} P (m : go St X) : quiet m → keeps cat P m.
Proof. intros Hm w s _ Hok. destruct (Hm w s) as [-> _]. done. Qed.

Lemma keeps_bind {X Y} P (m : go St X) (f : X → go St Y) :
  keeps cat P m → (∀ x, keeps cat (λ _, True) (f x)) → keeps cat P (m ≫= f).
Proof.
  intros Hm Hf w s HP Hok. specialize (Hm w s HP Hok). unfold exec, mbind, go_bind in *.
  destruct (m w s) as [[[x|e] s1] w1]; cbn in *; [by apply Hf|done].
Qed.

(** A quiet start: what it answers may be used. *)
Lemma keeps_after {X Y} (m : go St X) (f : X → go St Y) (R : X → Prop) :
  quiet m → (∀ w s x, answer m w s = Ok x → catalog_ok (cat s) → R x) →
  (∀ x, R x → keeps cat World_ok (f x)) → keeps cat World_ok (m ≫= f).
Proof.
  intros Hm HR Hf w s Hw Hok. specialize (HR w s). destruct (Hm w s) as [Hs Hw'].
  unfold answer, exec, world, mbind, go_bind in *.
  destruct (m w s) as [[[x|e] s1] w1]; cbn in *; [|by rewrite Hs].
  rewrite Hs. apply Hf; [by apply HR| |done]. by eapply World_ok_same.
Qed.

Lemma keeps_lift_err {X Y} P e (f : X → go St Y) : keeps cat P (lift (Err e) ≫= f).
Proof. by intros w s _ Hok. Qed.

Lemma keeps_ignore {X} P (m : go St X) : keeps cat P m → keeps cat P (ignore m).
Proof.
  intros Hm w s HP Hok. specialize (Hm w s HP Hok). unfold exec, ignore in *.
  by destruct (m w s) as [[??]?].
Qed.
Lemma keeps_try {X} P (m : go St X) : keeps cat P m → keeps cat P (try m).
Proof.
  intros Hm w s HP Hok. specialize (Hm w s HP Hok). unfold exec, try in *.
  by destruct (m w s) as [[??]?].
Qed.
Lemma keeps_weaken {X} P (m : go St X) : keeps cat (λ _, True) m → keeps cat P m.
Proof. intros Hm w s _. by apply Hm. Qed.
End keeps.

(** *** The repositories *)

Abbreviation repo_keeps := (keeps (λ s : CatalogStore, s)).

Lemma keeps_template_Create t :
  OSTemplate_Validate t = (t, Ok ()) → repo_keeps World_ok (template_Create t).
Proof.
  intros Ht w s Hw Hok. unfold template_Create.
  assert (wp (template_Create t) (λ _ s' _, catalog_ok s') w s) as Hwp; [|exact Hwp].
  unfold template_Create. rewrite wp_bind, wp_get, wp_bind. apply wp_find_in; [done|].
  intros [t'|] w1 _ Hscan; [wp_step; done|].
  assert (∀ id c u, catalog_ok (s <| CatalogStore_templates := <[id := (t <| OSTemplate_ID := id |>
    <| OSTemplate_CreatedAt := c |> <| OSTemplate_UpdatedAt := u |>)]> (CatalogStore_templates s) |>)) as Hput.
  { intros id c u. refine (catalog_put_template s (t <| OSTemplate_ID := id |>
      <| OSTemplate_CreatedAt := c |> <| OSTemplate_UpdatedAt := u |>) Hok (valid_restamp t _ _ _ Ht) _).
    intros id' t' Hl _ He. apply (Hscan id' t' Hl).
    unfold EqualFold in He. cbn in He.
    by rewrite (valid_slug t), (valid_slug t') in He by (try done; by eapply ct_valid). }
  repeat case_decide; wp_step; apply Hput.
Qed.

Lemma keeps_template_Update t :
  OSTemplate_Validate t = (t, Ok ()) → repo_keeps World_ok (template_Update t).
Proof.
  intros Ht w s Hw Hok.
  assert (wp (template_Update t) (λ _ s' _, catalog_ok s') w s) as Hwp; [|exact Hwp].
  unfold template_Update, template_GetByID. wp_step.
  destruct (CatalogStore_templates s !! OSTemplate_ID t) as [ex|] eqn:Hex; wp_step; [|done].
  apply wp_find_in; [done|]. intros [t'|] w1 _ Hscan; wp_step; [done|].
  refine (catalog_put_template s (t <| OSTemplate_ID := OSTemplate_ID t |>
    <| OSTemplate_CreatedAt := OSTemplate_CreatedAt ex |> <| OSTemplate_UpdatedAt := now_of w1 |>)
    Hok (valid_restamp t _ _ _ Ht) _).
  intros id' t' Hl Hne He. apply (Hscan id' t' Hl). split; [|done].
  by rewrite (ct_keyed _ Hok id' t').
Qed.

Lemma keeps_template_Delete id : repo_keeps (λ _, True) (template_Delete id).
Proof.
  intros w s _ Hok. unfold exec, template_Delete, template_GetByID.
  go_unfold. destruct (CatalogStore_templates s !! id); cbn; [by apply catalog_drop_template|done].
Qed.

Lemma keeps_image_Create i :
  ImageArtifact_Validate i = (i, Ok ()) → repo_keeps (λ _, True) (image_Create i).
Proof.
  intros Hi w s _ Hok.
  assert (wp (image_Create i) (λ _ s' _, catalog_ok s') w s) as Hwp; [|exact Hwp].
  unfold image_Create. repeat case_decide; wp_step;
    match goal with |- catalog_ok (_ <| _ := <[?id := ?i']> _ |>) =>
      exact (catalog_put_image s i' Hok (image_valid_restamp i _ _ _ Hi)) end.
Qed.

Lemma keeps_image_UpdateStatus id st msg :
  st ≠ "" → repo_keeps (λ _, True) (image_UpdateStatus id st msg).
Proof.
  intros Hst w s _ Hok.
  assert (wp (image_UpdateStatus id st msg) (λ _ s' _, catalog_ok s') w s) as Hwp; [|exact Hwp].
  unfold image_UpdateStatus, image_GetByID. wp_step.
  destruct (CatalogStore_artifacts s !! id) as [i|] eqn:Hl; wp_step; [|done].
  destruct (ct_images _ Hok _ _ Hl) as [<- Hv].
  exact (catalog_put_image s (i <| ImageArtifact_Status := st |> <| ImageArtifact_ErrorMessage := msg |>
    <| ImageArtifact_UpdatedAt := now_of w |>) Hok (image_valid_status i st msg _ Hv Hst)).
Qed.

Lemma keeps_RecordNodeAvailability n i st : repo_keeps (λ _, True) (RecordNodeAvailability n i st).
Proof. intros w s _ Hok. by apply catalog_availability. Qed.
#[export] Hint Resolve keeps_template_Delete keeps_image_UpdateStatus keeps_RecordNodeAvailability : go.

(** *** The service *)

Section histories.
Context {G A : Type} `{!NodeGateway G, !AuditRepository A}.
Context (auth : Authorizer) (has_audit : bool) (source : option ImageSource).
Abbreviation env := (CatalogEnv G * A)%type.
Implicit Types (st : env).

Definition the_catalog st : CatalogStore := cat_store st.1.
Abbreviation svc_keeps := (keeps the_catalog).

Lemma keeps_on_catalog {X} P (m : go CatalogStore X) :
  repo_keeps P m → svc_keeps P (on_catalog (G := G) (A := A) m).
Proof.
  intros Hm w [[s g] a] HP Hok. specialize (Hm w s HP Hok).
  unfold exec, on_catalog, on_store, zoom in *. cbn in *. by destruct (m w s) as [[??]?].
Qed.

Lemma keeps_on_gateway {X} P (m : go G X) : svc_keeps P (on_gateway (A := A) m).
Proof.
  intros w [[s g] a] _ Hok. unfold exec, on_gateway, on_store, zoom. cbn.
  by destruct (m w g) as [[??]?].
Qed.

Lemma keeps_logAudit P sub action rid det :
  svc_keeps P (logAudit (G := G) (A := A) has_audit sub action rid det).
Proof.
  intros w [[s g] a] _ Hok. unfold logAudit. destruct has_audit; [|done].
  match goal with |- catalog_ok (the_catalog (exec ?m _ _)) =>
    assert (wp m (λ _ st _, catalog_ok (the_catalog st)) w (mkCatalogEnv s g, a)) as H; [|exact H] end.
  wp_step. unfold wp. by destruct (Record_ _ _ _) as [[??]?].
Qed.

Lemma quiet_cat_zoom {X} (m : go CatalogStore X) :
  quiet m → quiet (zoom (cat_store (G := G)) (λ x e, mkCatalogEnv x (cat_nodes e)) m).
Proof.
  intros Hm w [s g]. specialize (Hm w s).
  unfold exec, world, zoom in *. cbn. destruct (m w s) as [[??]?]. cbn in *. by destruct Hm as [-> ?].
Qed.
Lemma quiet_on_catalog {X} (m : go CatalogStore X) :
  quiet m → quiet (on_catalog (G := G) (A := A) m).
Proof. intros Hm. by apply quiet_on_store, quiet_cat_zoom. Qed.
Lemma quiet_template_GetByID id : quiet (template_GetByID id).
Proof. unfold template_GetByID. quiet. Qed.
Lemma quiet_template_GetBySlug slug : quiet (template_GetBySlug slug).
Proof. unfold template_GetBySlug. quiet. Qed.
Lemma quiet_template_List f : quiet (template_List f).
Proof. unfold template_List. quiet. Qed.
Lemma quiet_image_GetByID id : quiet (image_GetByID id).
Proof. unfold image_GetByID. quiet. Qed.
Lemma quiet_image_List f : quiet (image_List f).
Proof. unfold image_List. quiet. Qed.
Lemma quiet_image_FindCompatible t a ty : quiet (image_FindCompatible t a ty).
Proof. unfold image_FindCompatible. quiet. Qed.
Lemma quiet_authorize_cat sub action res :
  quiet (authorize (St := env) auth sub action res).
Proof. apply quiet_lift. Qed.
#[local] Hint Resolve keeps_on_catalog keeps_on_gateway keeps_logAudit quiet_cat_zoom
  quiet_template_GetByID quiet_template_GetBySlug quiet_template_List quiet_image_GetByID
  quiet_image_List quiet_image_FindCompatible quiet_authorize_cat : go.

Ltac keeps :=
  repeat first [progress intros | apply keeps_bind | apply keeps_ignore | apply keeps_try
               | case_match | solve [auto with go] | solve [apply keeps_quiet; quiet]].

Lemma quiet_GetTemplate sub id : quiet (GetTemplate (G := G) (A := A) auth sub id).
Proof. unfold GetTemplate. quiet. Qed.
Lemma quiet_ListTemplates sub f : quiet (ListTemplates (G := G) (A := A) auth sub f).
Proof. unfold ListTemplates. quiet. Qed.
Lemma quiet_ListImages sub f : quiet (ListImages (G := G) (A := A) auth sub f).
Proof. unfold ListImages. quiet. Qed.
Lemma quiet_GetImage sub id : quiet (GetImage (G := G) (A := A) auth sub id).
Proof. unfold GetImage. quiet. Qed.

(** A validated record reaches the repository as validation left it. *)
Lemma keeps_CreateTemplate sub req :
  svc_keeps World_ok (CreateTemplate (G := G) (A := A) auth has_audit sub req).
Proof.
  unfold CreateTemplate. eapply (keeps_after _ _ _ (λ _, True)); [apply quiet_lift|done|].
  intros _ _. destruct (OSTemplate_Validate _) as [t [[]|e]] eqn:Ht; [|apply keeps_lift_err].
  apply (keeps_after _ _ _ (λ _, True)); [apply quiet_lift|done|]. intros _ _. keeps.
  apply keeps_on_catalog, keeps_template_Create. by eapply OSTemplate_Validate_idem.
Qed.

Lemma keeps_UpdateTemplate sub id req :
  svc_keeps World_ok (UpdateTemplate (G := G) (A := A) auth has_audit sub id req).
Proof.
  unfold UpdateTemplate. eapply (keeps_after _ _ _ (λ _, True)); [apply quiet_on_catalog; auto with go|done|].
  intros t0 _. apply (keeps_after _ _ _ (λ _, True)); [apply quiet_lift|done|]. intros _ _.
  destruct (OSTemplate_Validate _) as [t [[]|e]] eqn:Ht; [|apply keeps_lift_err].
  apply (keeps_after _ _ _ (λ _, True)); [apply quiet_lift|done|]. intros _ _. keeps.
  apply keeps_on_catalog, keeps_template_Update. by eapply OSTemplate_Validate_idem.
Qed.

Lemma keeps_DeleteTemplate P sub id :
  svc_keeps P (DeleteTemplate (G := G) (A := A) auth has_audit sub id).
Proof. unfold DeleteTemplate. keeps. Qed.

Lemma keeps_RegisterImage P sub req :
  svc_keeps P (RegisterImage (G := G) (A := A) auth has_audit sub req).
Proof.
  unfold RegisterImage. apply keeps_bind; [apply keeps_quiet, quiet_lift|]. intros _.
  apply keeps_bind; [apply keeps_quiet; quiet|]. intros t0.
  destruct (ImageArtifact_Validate _) as [i [[]|e]] eqn:Hi; [|apply keeps_lift_err].
  keeps. apply keeps_on_catalog, keeps_image_Create. by eapply ImageArtifact_Validate_idem.
Qed.

Lemma keeps_SyncImageToNode P sub req :
  svc_keeps P (SyncImageToNode (G := G) (A := A) auth has_audit sub req).
Proof. unfold SyncImageToNode. keeps. Qed.

Lemma keeps_sync_task P sub img n :
  svc_keeps P (sync_task (G := G) (A := A) has_audit sub img n).
Proof. unfold sync_task. keeps. Qed.

Lemma keeps_VerifyImage P sub id :
  svc_keeps P (VerifyImage (G := G) (A := A) auth has_audit source sub id).
Proof. unfold VerifyImage. keeps. Qed.

Lemma keeps_RetireImage P sub id :
  svc_keeps P (RetireImage (G := G) (A := A) auth has_audit sub id).
Proof. unfold RetireImage. keeps. Qed.
(** A call of the service, or a synchronisation that was started before. *)
Inductive catalog_step : env → env → Prop :=
  | s_create sub req w st : World_ok w →
      catalog_step st (exec (CreateTemplate auth has_audit sub req) w st)
  | s_update sub id req w st : World_ok w →
      catalog_step st (exec (UpdateTemplate auth has_audit sub id req) w st)
  | s_delete sub id w st : catalog_step st (exec (DeleteTemplate auth has_audit sub id) w st)
  | s_register sub req w st : catalog_step st (exec (RegisterImage auth has_audit sub req) w st)
  | s_sync sub req w st : catalog_step st (exec (SyncImageToNode auth has_audit sub req) w st)
  | s_synced sub img n w st : catalog_step st (exec (sync_task has_audit sub img n) w st)
  | s_verify sub id w st : catalog_step st (exec (VerifyImage auth has_audit source sub id) w st)
  | s_retire sub id w st : catalog_step st (exec (RetireImage auth has_audit sub id) w st).

Lemma catalog_steps_ok st st' :
  rtc catalog_step st st' → catalog_ok (the_catalog st) → catalog_ok (the_catalog st').
Proof.
  induction 1 as [|st1 st2 st3 H12 _ IH]; [done|]. intros Hok. apply IH. clear IH.
  destruct H12.
  - by apply keeps_CreateTemplate.
  - by apply keeps_UpdateTemplate.
  - by apply (keeps_DeleteTemplate (λ _, True)).
  - by apply (keeps_RegisterImage (λ _, True)).
  - by apply (keeps_SyncImageToNode (λ _, True)).
  - by apply (keeps_sync_task (λ _, True)).
  - by apply (keeps_VerifyImage (λ _, True)).
  - by apply (keeps_RetireImage (λ _, True)).
Qed.

Lemma NewCatalog_ok t1 t2 : catalog_ok (NewCatalog t1 t2).
Proof.
  assert (∀ id t, CatalogStore_templates (NewCatalog t1 t2) !! id = Some t →
    OSTemplate_ID t = id ∧ t ∈ seed_templates t1) as Ht.
  { intros id t Hl%elem_of_list_to_map_2. apply list_elem_of_fmap in Hl as (t' & [= -> ->] & Hl).
    done. }
  assert (∀ id i, CatalogStore_artifacts (NewCatalog t1 t2) !! id = Some i →
    ImageArtifact_ID i = id ∧ i ∈ seed_images t2) as Hi.
  { intros id i Hl%elem_of_list_to_map_2. apply list_elem_of_fmap in Hl as (i' & [= -> ->] & Hl).
    done. }
  split.
  - intros id t Hl. by apply Ht.
  - intros id t [_ Hl]%Ht. unfold seed_templates in Hl. rewrite !elem_of_cons in Hl.
    destruct Hl as [->|[->|[->|Hl]]]; [reflexivity..|by apply not_elem_of_nil in Hl].
  - intros id id' t t' [<- Hl]%Ht [<- Hl']%Ht He. unfold seed_templates in Hl, Hl'.
    rewrite !elem_of_cons in Hl, Hl'.
    destruct Hl as [->|[->|[->|Hl]]], Hl' as [->|[->|[->|Hl']]];
      first [reflexivity|discriminate He|by apply not_elem_of_nil in Hl|by apply not_elem_of_nil in Hl'].
  - intros id i [<- Hl]%Hi. split; [done|]. unfold seed_images in Hl. rewrite !elem_of_cons in Hl.
    destruct Hl as [->|[->|[->|Hl]]]; [reflexivity..|by apply not_elem_of_nil in Hl].
Qed.

(** C17 the catalogue is well formed in every history: from the shipped
    templates on, every stored template and image is in the normal form of
    validation, with positive minimum sizes and canonical architectures, and
    no two templates answer to the same slug. *)
Theorem catalog_well_formed st0 st t1 t2 :
  the_catalog st0 = NewCatalog t1 t2 → rtc catalog_step st0 st →
  (∀ id t, CatalogStore_templates (the_catalog st) !! id = Some t →
     OSTemplate_ID t = id ∧ OSTemplate_Validate t = (t, Ok ()) ∧
     0 < OSTemplate_MinDiskBytes t ∧ 0 < OSTemplate_MinMemoryBytes t ∧
     (3 ≤ String.length (OSTemplate_Slug t) ≤ 64)%nat ∧
     (∀ a, a ∈ OSTemplate_SupportedArchitectures t → NormalizeArchitecture a = a)) ∧
  (∀ id id' t t', CatalogStore_templates (the_catalog st) !! id = Some t →
     CatalogStore_templates (the_catalog st) !! id' = Some t' →
     EqualFold (OSTemplate_Slug t) (OSTemplate_Slug t') → id = id') ∧
  (∀ id i, CatalogStore_artifacts (the_catalog st) !! id = Some i →
     ImageArtifact_ID i = id ∧ ImageArtifact_Validate i = (i, Ok ())).
Proof.
  intros H0 Hr.
  assert (catalog_ok (the_catalog st)) as Hok
    by (eapply catalog_steps_ok; [done|]; rewrite H0; apply NewCatalog_ok).
  split_and!; [|apply Hok..]. intros id t Hl. pose proof (ct_valid _ Hok _ _ Hl) as Hv.
  pose proof (OSTemplate_Validate_ok _ _ Hv) as (_ & _ & _ & Hlen & _ & Hd & Hm & Ha & _).
  split_and!; [by eapply ct_keyed|done|done|done|apply Hlen|apply Hlen|].
  intros a Hin. apply OSTemplate_Validate_run in Hv as [Hv _]. rewrite Hv in Hin.
  unfold normal_template in Hin. cbn in Hin.
  destruct (OSTemplate_SupportedArchitectures t) as [|a0 l]; [done|].
  change (a ∈ NormalizeArchitecture <$> (a0 :: l)) in Hin.
  apply list_elem_of_fmap in Hin as (b & -> & _). apply NormalizeArchitecture_idem.
Qed.

(** *** Lookups *)

Lemma wp_on_catalog {X} (m : go CatalogStore X) (Q : result X → env → World → Prop) w st :
  wp (on_catalog m) Q w st ↔
  wp m (λ x s' w', Q x (mkCatalogEnv s' (cat_nodes st.1), st.2) w') w (the_catalog st).
Proof. destruct st as [e a]. unfold on_catalog. rewrite wp_on_store, wp_zoom. done. Qed.

(** A template is found by its identifier first and by its slug otherwise. *)
Definition named_template (s : CatalogStore) (key : string) (t : OSTemplate) : Prop :=
  CatalogStore_templates s !! key = Some t ∨
  (CatalogStore_templates s !! key = None ∧
   ∃ id, CatalogStore_templates s !! id = Some t ∧ EqualFold (OSTemplate_Slug t) key).

Lemma GetTemplate_effect sub key w st :
  World_ok w →
  wp (GetTemplate auth sub key) (λ r st' w', st' = st ∧ same_oracles w w' ∧
    match r with
    | Ok t => named_template (the_catalog st) key t
    | Err e => @Authorize auth sub "template:read" None = Err e ∨
        (e = ErrTemplateNotFound ∧ ∀ t, ¬ named_template (the_catalog st) key t)
    end) w st.
Proof.
  intros Hw. unfold GetTemplate, authorize. rewrite wp_bind, wp_lift.
  destruct (@Authorize auth sub "template:read" None) as [[]|e] eqn:Ha;
    [|split_and!; [done|apply same_oracles_refl|by left]].
  rewrite wp_bind, wp_try, wp_on_catalog. unfold template_GetByID. wp_step.
  assert ((mkCatalogEnv (the_catalog st) (cat_nodes st.1), st.2) = st) as Est by (by destruct st as [[]]).
  destruct (CatalogStore_templates (the_catalog st) !! key) as [t|] eqn:Hl; wp_step.
  { rewrite Est. split_and!; [done|apply same_oracles_refl|by left]. }
  rewrite Est, wp_on_catalog. unfold template_GetBySlug. rewrite wp_bind, wp_get, wp_bind.
  apply wp_find_in; [done|]. intros [t|] w1 Hw1 Hscan; wp_step; rewrite Est.
  - destruct Hscan as (k & Hk & He). split_and!; [done|done|right]. split; [done|]. by exists k.
  - split_and!; [done|done|right]. split; [done|].
    intros t [H|[_ (k & Hk & He)]]; [congruence|by eapply Hscan].
Qed.

Lemma FindCompatibleImage_effect tid arch ty w st :
  World_ok w →
  wp (FindCompatibleImage (G := G) (A := A) tid arch ty) (λ r st' w', st' = st ∧ same_oracles w w' ∧
    match r with
    | Ok i => ∃ id, CatalogStore_artifacts (the_catalog st) !! id = Some i ∧ compatible tid arch ty i
    | Err e => e = ErrNoCompatibleImage ∧
        ∀ id i, CatalogStore_artifacts (the_catalog st) !! id = Some i → ¬ compatible tid arch ty i
    end) w st.
Proof.
  intros Hw. unfold FindCompatibleImage. rewrite wp_on_catalog. unfold image_FindCompatible.
  rewrite wp_bind, wp_get, wp_bind. apply wp_find_in; [done|].
  assert ((mkCatalogEnv (the_catalog st) (cat_nodes st.1), st.2) = st) as Est by (by destruct st as [[]]).
  intros [i|] w1 Hw1 Hscan; wp_step; rewrite Est; split_and!; try done.
Qed.

(** *** Synchronisation *)

Lemma wp_catalog_audit sub action rid det (Q : result () → env → World → Prop) w st :
  (∀ r a w', Q r (st.1, a) w') → wp (logAudit has_audit sub action rid det) Q w st.
Proof.
  intros HQ. destruct st as [e a]. unfold logAudit. destruct has_audit; [|apply HQ].
  wp_step. unfold wp. destruct (Record_ _ _ _) as [[??]?]. apply HQ.
Qed.

(** The outcome of a synchronisation of [img] with node [nid]: it is on record
    for the node, and the image has the matching status. *)
Definition synced (s s' : CatalogStore) (nid iid : string) : Prop :=
  ∃ a, CatalogStore_availability s' !! (nid +:+ ":" +:+ iid) = Some a ∧
    (NodeImageAvailability_Status a = "available" ∨ NodeImageAvailability_Status a = "failed") ∧
    ∀ i, CatalogStore_artifacts s !! iid = Some i →
      ∃ i', CatalogStore_artifacts s' !! iid = Some i' ∧
        ImageArtifact_Status i' = (if decide (NodeImageAvailability_Status a = "available")
                                   then "available" else "sync_failed").

Lemma record_outcome (ok : bool) nid iid msg s s1 w1 :
  CatalogStore_artifacts s1 = CatalogStore_artifacts s →
  wp (RecordNodeAvailability nid iid (if ok then "available" else "failed"))
    (λ _ s2 w2, wp (image_UpdateStatus iid (if ok then "available" else "sync_failed") msg)
      (λ _ s3 _, synced s s3 nid iid) w2 s2) w1 s1.
Proof.
  intros E1. unfold RecordNodeAvailability, image_UpdateStatus, image_GetByID.
  wp_step. match goal with |- context [CatalogStore_artifacts ?x !! _] =>
    change (CatalogStore_artifacts x) with (CatalogStore_artifacts s1) end.
  rewrite E1. destruct (CatalogStore_artifacts s !! iid) as [i|] eqn:Hi; wp_step;
    (eexists; split; [cbn; apply lookup_insert_eq|]); (split; [destruct ok; cbn; tauto|]);
    intros i'; rewrite Hi; intros [= ->].
  eexists. split; [cbn; apply lookup_insert_eq|]. by destruct ok.
Qed.

Lemma sync_task_outcome sub img n w st :
  synced (the_catalog st) (the_catalog (exec (sync_task has_audit sub img n) w st))
    (Node_ID n) (ImageArtifact_ID img).
Proof.
  assert (wp (sync_task (G := G) (A := A) has_audit sub img n) (λ _ st' _,
    synced (the_catalog st) (the_catalog st') (Node_ID n) (ImageArtifact_ID img)) w st) as H;
    [|exact H].
  unfold sync_task. rewrite wp_bind, wp_uuid, wp_bind, wp_ignore, wp_on_catalog.
  unfold RecordNodeAvailability at 1. wp_step.
  unfold on_gateway. destruct st as [[s g] a0]. rewrite wp_on_store, wp_zoom. cbn.
  unfold wp at 1. destruct (SendCommand_ _ _ _ _) as [[r g1] w1]. cbn [fst snd].
  destruct (sync_failure r) as [msg|].
  1: pose proof (record_outcome false (Node_ID n) (ImageArtifact_ID img) msg s) as Hend.
  2: pose proof (record_outcome true (Node_ID n) (ImageArtifact_ID img) "" s) as Hend.
  all: rewrite wp_bind, wp_ignore, wp_on_catalog; eapply wp_mono; [apply Hend; reflexivity|];
    clear Hend; intros ? s2 w2 Hend; rewrite wp_bind, wp_ignore, wp_on_catalog;
    eapply wp_mono; [exact Hend|]; intros ? s3 w3 Hs; by apply wp_catalog_audit.
Qed.
End histories.

(** ** What the code does not do *)

(** Whoever the authorizer lets read templates counts as an operator for the
    listing, so the default "active templates only" never applies. *)
Lemma status_default_never_applies s :
  @Authorize DynamicAuthorizer (Some s) "template:read" None = Ok () →
  isSuperadminOrOperator (Some s) = true.
Proof.
  unfold Authorize, DynamicAuthorizer, isSuperadminOrOperator, HasPermission.
  destruct (existsb (λ r, bool_decide (r = "superadmin")) _) eqn:Es.
  { intros _. apply existsb_eq_true in Es. apply orb_true_iff. left. apply existsb_eq2_true. by left. }
  destruct (has_permission_loop _ _ _) eqn:Hp; [|done]. intros _.
  apply has_permission_loop_spec in Hp as [Hp _]. apply orb_true_iff. right. apply existsb_exists.
  destruct Hp as [Hp|Hp]; (eexists; split; [by apply list_elem_of_In|done]).
Qed.

(** The shipped registry gives a reason with every rejection. *)
Lemma registry_explains i : (RegistryVerify i).1 = true ↔ (RegistryVerify i).2 = None.
Proof. unfold RegistryVerify. by repeat case_decide. Qed.

Section demo.
#[local] Existing Instances tagging_digest.

Abbreviation Shop := (CatalogEnv Loopback * AuditStore)%type.
Definition shop : Shop :=
  (mkCatalogEnv (NewCatalog 0 0)
     (mkLoopback NewMemoryNodeStore (Ok (mkCommandResult "" true "" None 0)) []), empty_audit).
Definition root : Subject := mkSubject "user" "root" "root" "root" "" ["superadmin"] [] [] ∅.

Definition shop_image (i : string) (st : Shop) : option string :=
  ImageArtifact_Status <$> CatalogStore_artifacts (the_catalog st) !! i.

(** A source that rejects without an error makes the handler panic. *)
Lemma rejection_without_error_panics :
  answer (VerifyImage DynamicAuthorizer true (Some (λ _, (false, None))) (Some root)
    "img-alpine-3-19-x86-c") (calm 1) shop = panic "nil pointer dereference".
Proof. vm_compute. reflexivity. Qed.

(** The synchronisation of a retired image puts it back on offer. *)
Lemma retired_image_returns :
  let retired := exec (RetireImage DynamicAuthorizer true (Some root) "img-alpine-3-19-x86-c")
                   (calm 1) shop in
  let host := mkNode "n1" "dc1" "n1" "n1.example" StatusOnline "" 4 0 0 (of_int 1) (of_int 1)
                None false false "" None None 0 0 in
  (∃ img, CatalogStore_artifacts (the_catalog retired) !! "img-alpine-3-19-x86-c" = Some img ∧
     ImageArtifact_Status img = "retired" ∧
     shop_image "img-alpine-3-19-x86-c" (exec (sync_task true (Some root) img host) (calm 2) retired)
       = Some "available").
Proof. cbv zeta. eexists. split; [vm_compute; reflexivity|]. split; vm_compute; reflexivity. Qed.

(** A deleted template leaves its images behind, still on offer. *)
Lemma deleted_template_keeps_images :
  let st := exec (DeleteTemplate DynamicAuthorizer true (Some root) "tmpl-alpine-3-19") (calm 1) shop in
  CatalogStore_templates (the_catalog st) !! "tmpl-alpine-3-19" = None ∧
  (∃ i, answer (FindCompatibleImage "tmpl-alpine-3-19" "amd64" TypeContainer) (calm 2) st = Ok i).
Proof. cbv zeta. split; [vm_compute; reflexivity|]. eexists. vm_compute. reflexivity. Qed.

Definition fedora : CreateTemplateRequest :=
  mkCreateTemplateRequest " Fedora 40" "Fedora-40" "" "Fedora" "40" "" ["AMD64"] [] 0 0 true None.

Lemma catalog_well_formed_witness : ∃ st t,
  st = exec (CreateTemplate DynamicAuthorizer true (Some root) fedora) (named "t") shop ∧
  CatalogStore_templates (the_catalog st) !! "t0" = Some t ∧
  OSTemplate_Slug t = "fedora-40" ∧ OSTemplate_SupportedArchitectures t = ["x86_64"] ∧
  0 < OSTemplate_MinDiskBytes t.
Proof.
  eexists _, _. split; [reflexivity|]. split; [vm_compute; reflexivity|].
  split; [reflexivity|]. split; [reflexivity|].
  refine (proj1 (proj2 (proj2 (proj1 (catalog_well_formed DynamicAuthorizer true None shop _ 0 0
    eq_refl (rtc_once _ _ (s_create _ _ _ (Some root) fedora (named "t") shop (named_ok "t"))))
    "t0" _ _)))).
  vm_compute. reflexivity.
Defined.
End demo.
