(* ===== verification/Compute.v ===== *)
(** * The compute service

    [internal/app/compute/service.go]: instances are created on a node chosen
    by the caller or by the scheduler, powered, resized and deleted through
    commands to the node agent, within the quota of the tenant. The quota
    engine, the template registry, the event bus, the audit trail and the
    node gateway are reached through interfaces. *)

From S2P Require Import Prelude Identity AuditTrail Events Net Node Commands Instances Scheduler.
From S2P Require Import Quota Guest Template.

Definition ErrInstanceRunning := ErrNew "compute" "instance is already running".
Definition ErrInstanceStopped := ErrNew "compute" "instance is already stopped".
Definition ErrUnsupportedInstanceType :=
  ErrNew "compute" "unsupported instance type: must be container or virtual-machine".
Definition ErrInvalidSpec := ErrNew "compute" "invalid instance specification".
Definition ErrInstanceOperationFailed :=
  ErrNew "compute" "instance operation failed on hypervisor".
Definition ErrInvalidPowerAction := ErrNew "compute" "invalid power action".
Definition ErrFileTooLarge := ErrNew "compute" "file exceeds maximum upload limit (100MB)".

(** [QuotaValidator]; [Q] is the state of the quota engine. *)
Class QuotaValidator (Q : Type) := {
  ReserveQuota_ : string → ResourceSpec → go Q ();
  ReleaseQuota_ : string → ResourceSpec → go Q ()
}.

#[export] Instance quota_engine_validator : QuotaValidator BillingStore := {
  ReserveQuota_ := ReserveQuota;
  ReleaseQuota_ := ReleaseQuota
}.

Record CreateInstanceRequest : Type := mkCreateInstanceRequest {
  CreateInstanceRequest_Name : string;
  CreateInstanceRequest_Type_ : string;
  CreateInstanceRequest_CPUCores : Z;
  CreateInstanceRequest_MemoryBytes : Z;
  CreateInstanceRequest_StorageBytes : Z;
  CreateInstanceRequest_Image : string;
  CreateInstanceRequest_TemplateID : string;
  CreateInstanceRequest_TemplateSlug : string;
  CreateInstanceRequest_CloudInit : option CloudInitConfig;
  CreateInstanceRequest_NodeID : string;
  CreateInstanceRequest_Config : option (list (string * any));
  CreateInstanceRequest_StartAfterCreate : bool
}.

Definition eta_CreateInstanceRequest (r : CreateInstanceRequest) : CreateInstanceRequest :=
  mkCreateInstanceRequest (CreateInstanceRequest_Name r) (CreateInstanceRequest_Type_ r)
    (CreateInstanceRequest_CPUCores r) (CreateInstanceRequest_MemoryBytes r)
    (CreateInstanceRequest_StorageBytes r) (CreateInstanceRequest_Image r)
    (CreateInstanceRequest_TemplateID r) (CreateInstanceRequest_TemplateSlug r)
    (CreateInstanceRequest_CloudInit r) (CreateInstanceRequest_NodeID r)
    (CreateInstanceRequest_Config r) (CreateInstanceRequest_StartAfterCreate r).
#[export] Instance set_CreateInstanceRequest_Name : Setter CreateInstanceRequest_Name := ltac:(setter eta_CreateInstanceRequest CreateInstanceRequest_Name).
#[export] Instance set_CreateInstanceRequest_CPUCores : Setter CreateInstanceRequest_CPUCores := ltac:(setter eta_CreateInstanceRequest CreateInstanceRequest_CPUCores).
#[export] Instance set_CreateInstanceRequest_MemoryBytes : Setter CreateInstanceRequest_MemoryBytes := ltac:(setter eta_CreateInstanceRequest CreateInstanceRequest_MemoryBytes).
#[export] Instance set_CreateInstanceRequest_StorageBytes : Setter CreateInstanceRequest_StorageBytes := ltac:(setter eta_CreateInstanceRequest CreateInstanceRequest_StorageBytes).
#[export] Instance set_CreateInstanceRequest_Image : Setter CreateInstanceRequest_Image := ltac:(setter eta_CreateInstanceRequest CreateInstanceRequest_Image).

Record GuestFileInfo : Type := mkGuestFileInfo {
  GuestFileInfo_Path : string;
  GuestFileInfo_Name : string;
  GuestFileInfo_IsDir : bool;
  GuestFileInfo_SizeBytes : Z;
  GuestFileInfo_Mode : string;
  GuestFileInfo_ModTime : Z
}.
#[export] Instance GuestFileInfo_eq_dec : EqDecision GuestFileInfo.
Proof. solve_decision. Defined.

Record InstanceBackup : Type := mkInstanceBackup {
  InstanceBackup_ID : string;
  InstanceBackup_InstanceID : string;
  InstanceBackup_Name : string;
  InstanceBackup_SizeBytes : Z;
  InstanceBackup_Status : string;
  InstanceBackup_CreatedAt : Z
}.
#[export] Instance InstanceBackup_eq_dec : EqDecision InstanceBackup.
Proof. solve_decision. Defined.

Record InstanceSnapshot : Type := mkInstanceSnapshot {
  InstanceSnapshot_ID : string;
  InstanceSnapshot_InstanceID : string;
  InstanceSnapshot_Name : string;
  InstanceSnapshot_Stateful : bool;
  InstanceSnapshot_SizeBytes : Z;
  InstanceSnapshot_CreatedAt : Z
}.
#[export] Instance InstanceSnapshot_eq_dec : EqDecision InstanceSnapshot.
Proof. solve_decision. Defined.

(** [^[a-z0-9][a-z0-9-]{1,61}[a-z0-9]$]. *)
Definition validName (s : string) : bool :=
  bracketed alnum_c (λ c, alnum_c c || one_of [45] c) 1 61 s.

Definition KiB2 : Z := 1024 * 1024.
Definition KiB3 : Z := 1024 * 1024 * 1024.

(** The defaults of the request. *)
Definition with_defaults (req : CreateInstanceRequest) : CreateInstanceRequest :=
  let req := if decide (CreateInstanceRequest_CPUCores req ≤ 0)
             then req <| CreateInstanceRequest_CPUCores := 1 |> else req in
  let req := if decide (CreateInstanceRequest_MemoryBytes req ≤ 0)
             then req <| CreateInstanceRequest_MemoryBytes := 1024 * 1024 * 1024 |> else req in
  let req := if decide (CreateInstanceRequest_StorageBytes req ≤ 0)
             then req <| CreateInstanceRequest_StorageBytes := 10 * 1024 * 1024 * 1024 |>
             else req in
  if decide (CreateInstanceRequest_Image req = "" ∧ CreateInstanceRequest_TemplateID req = "" ∧
             CreateInstanceRequest_TemplateSlug req = "")
  then req <| CreateInstanceRequest_Image := "ubuntu/24.04" |> else req.

Definition instance_type (t : string) : result string :=
  if decide (t = TypeVirtualMachine) then Ok TypeVirtualMachine
  else if decide (t ≠ "" ∧ t ≠ TypeContainer) then Err ErrUnsupportedInstanceType
  else Ok TypeContainer.

Definition quota_of (cpu memory storage : Z) : ResourceSpec :=
  mkResourceSpec 1 cpu (quot64 memory KiB2) (quot64 storage KiB2) 0 0 0.

(** [m[k] = v] on a map kept as its entries. *)
Fixpoint set_entry (k : string) (v : any) (m : list (string * any)) : list (string * any) :=
  match m with
  | [] => [(k, v)]
  | (k', v') :: m => if decide (k' = k) then (k, v) :: m else (k', v') :: set_entry k v m
  end.

(** [err != nil || !res.Success]: the message of the failure. *)
Definition command_failure (r : result CommandResult) : option string :=
  match r with
  | Err e => Some (Error e)
  | Ok res =>
      if CommandResult_Success res then None
      else Some (if decide (CommandResult_ErrorMessage res ≠ "")
                 then CommandResult_ErrorMessage res else "unknown hypervisor error")
  end.

(** [string(inst.Status)]. *)
Definition instance_status_text (s : Status) : string :=
  match s with
  | StatusPending => "pending"
  | StatusCreating => "creating"
  | StatusRunning => "running"
  | StatusStopped => "stopped"
  | StatusRestarting => "restarting"
  | StatusFrozen => "frozen"
  | StatusError => "error"
  | StatusDeleting => "deleting"
  | StatusDeleted => "deleted"
  end.

(** ** The state of the service *)

Record ComputeEnv (G Q E T : Type) := mkComputeEnv {
  ce_instances : MemoryInstanceStore;
  ce_nodes : G;
  ce_quota : Q;
  ce_events : E;
  ce_templates : T
}.
Arguments mkComputeEnv {G Q E T} _ _ _ _ _.
Arguments ce_instances {G Q E T} _.
Arguments ce_nodes {G Q E T} _.
Arguments ce_quota {G Q E T} _.
Arguments ce_events {G Q E T} _.
Arguments ce_templates {G Q E T} _.

(** What is wired into the service: the setters may leave these out. *)
Record Wiring := mkWiring {
  has_templates : bool;
  has_quota : bool;
  has_events : bool;
  has_scheduler : bool
}.

Section service.
Context {G Q E T A : Type}.
Context `{!NodeGateway G, !QuotaValidator Q, !EventPublisher E, !TemplateLookup T,
          !AuditRepository A, !SortSlice}.
Context (auth : Authorizer) (wires : Wiring).
Abbreviation env := (ComputeEnv G Q E T * A)%type.

Definition on_instances {X} (m : go MemoryInstanceStore X) : go env X :=
  on_store (zoom ce_instances
    (λ x e, mkComputeEnv x (ce_nodes e) (ce_quota e) (ce_events e) (ce_templates e)) m).
Definition on_gateway {X} (m : go G X) : go env X :=
  on_store (zoom ce_nodes
    (λ x e, mkComputeEnv (ce_instances e) x (ce_quota e) (ce_events e) (ce_templates e)) m).
Definition on_quota {X} (m : go Q X) : go env X :=
  on_store (zoom ce_quota
    (λ x e, mkComputeEnv (ce_instances e) (ce_nodes e) x (ce_events e) (ce_templates e)) m).
Definition on_events {X} (m : go E X) : go env X :=
  on_store (zoom ce_events
    (λ x e, mkComputeEnv (ce_instances e) (ce_nodes e) (ce_quota e) x (ce_templates e)) m).
Definition on_templates {X} (m : go T X) : go env X :=
  on_store (zoom ce_templates
    (λ x e, mkComputeEnv (ce_instances e) (ce_nodes e) (ce_quota e) (ce_events e) x) m).

(** The scheduler reads the node and the instance repositories. *)
Definition on_scheduler {X} (m : go SchedulerState X) : go env X :=
  on_store (zoom (λ e, mkSchedulerState (gateway_nodes (ce_nodes e)) (ce_instances e))
    (λ _ e, e) m).

(** [_ = s.auditRepo.Record(...)] and [_ = s.eventPublisher.Publish(...)]. *)
Definition audit_instance (actor : string) (action instanceID : string) (code : Z)
    (det : list (string * any)) : go env () :=
  now ← time_Now;
  ignore (zoom snd (λ a s, (fst s, a)) (Record_
    (mkAuditLog 0 (Some actor) "" "" action "instance" (Some instanceID) "" code
       (Some (details det)) "" "" "" now))).

Definition publish_instance (inst : Instance_) (actor typ : string)
    (payload : list (string * any)) : go env () :=
  if has_events wires then
    now ← time_Now;
    ignore (on_events (Publish
      (mkEvent "" (Instance__UserID inst) typ "instance" (Instance__ID inst) actor now
         (details payload) [] "1.0")))
  else mret ().

(** [s.nodeService.SendCommand(ctx, nodeID, &Command{CorrelationID: uuid...})]. *)
Definition send (nodeID typ : string) (payload : list (string * any)) :
    go env (result CommandResult) :=
  corr ← uuid_NewString;
  try (on_gateway (SendCommand_ nodeID (mkCommand corr typ (details payload) zero_time))).

(** Step 1 of [CreateInstance]: the node asked for, the scheduler's choice, or
    the first node that takes work. *)
Definition target_node (req : CreateInstanceRequest) (instType : string) : go env Node :=
  if decide (CreateInstanceRequest_NodeID req ≠ "") then
    n ← wrap_err (λ err, Wrapf ("target node not found: " +:+ Error err) err)
          (on_gateway (read_nodes (NodeGetByID (CreateInstanceRequest_NodeID req))));
    if IsSchedulable n then mret n
    else fail (ErrNew "compute" "target node is not online or is in maintenance/drain mode")
  else if has_scheduler wires then
    decision ← wrap_err (λ err, Wrapf ("scheduling failed: " +:+ Error err) err)
      (on_scheduler (SelectNode
        (mkRequest (CreateInstanceRequest_Name req) instType (CreateInstanceRequest_CPUCores req)
           (CreateInstanceRequest_MemoryBytes req) (CreateInstanceRequest_StorageBytes req)
           "" "" "" [] [])));
    mret (PlacementDecision_SelectedNode decision)
  else
    nodes ← wrap_err (λ err, Wrapf ("failed to list nodes for scheduling: " +:+ Error err) err)
              (on_gateway (read_nodes NodeList));
    match list_find (λ n, IsSchedulable n = true) nodes with
    | Some (_, n) => mret n
    | None => fail (ErrNew "compute" "no online hypervisor nodes available for scheduling")
    end.

(** Step 2: the image of the template, when one is named. *)
Definition resolve_image (sub : option Subject) (req : CreateInstanceRequest)
    (instType : string) (node : Node) : go env CreateInstanceRequest :=
  let nodeArch := node_arch node in
  let lookup := if decide (CreateInstanceRequest_TemplateID req = "")
                then CreateInstanceRequest_TemplateSlug req
                else CreateInstanceRequest_TemplateID req in
  if bool_decide (lookup ≠ "") && has_templates wires then
    tmpl ← wrap_err (λ err, Wrapf ("invalid template '" +:+ lookup +:+ "': " +:+ Error err) err)
             (on_templates (GetTemplate_ sub lookup));
    if decide (CreateInstanceRequest_MemoryBytes req < OSTemplate_MinMemoryBytes tmpl) then
      fail (Wrapf (Error ErrInsufficientMemory +:+ ": template requires at least " +:+
                   fmt_d (OSTemplate_MinMemoryBytes tmpl) +:+ " bytes memory (provided " +:+
                   fmt_d (CreateInstanceRequest_MemoryBytes req) +:+ ")") ErrInsufficientMemory)
    else if decide (CreateInstanceRequest_StorageBytes req < OSTemplate_MinDiskBytes tmpl) then
      fail (Wrapf (Error ErrInsufficientDisk +:+ ": template requires at least " +:+
                   fmt_d (OSTemplate_MinDiskBytes tmpl) +:+ " bytes disk (provided " +:+
                   fmt_d (CreateInstanceRequest_StorageBytes req) +:+ ")") ErrInsufficientDisk)
    else
      artifact ← wrap_err (λ _, Wrapf (Error ErrNoCompatibleImage +:+ " for architecture " +:+
                     nodeArch +:+ " and instance type " +:+ instType +:+ " on node " +:+
                     Node_Name node) ErrNoCompatibleImage)
                   (on_templates (FindCompatibleImage_ (OSTemplate_ID tmpl) nodeArch instType));
      mret (if decide (ImageArtifact_ImageAlias artifact ≠ "")
            then req <| CreateInstanceRequest_Image := ImageArtifact_ImageAlias artifact |>
            else if decide (ImageArtifact_IncusFingerprint artifact ≠ "")
            then req <| CreateInstanceRequest_Image := ImageArtifact_IncusFingerprint artifact |>
            else req)
  else mret req.

(** Step 3: the configuration with the rendered cloud-init data. *)
Definition guest_config (sub : option Subject) (req : CreateInstanceRequest) :
    go env (list (string * any)) :=
  let config := default [] (CreateInstanceRequest_Config req) in
  match CreateInstanceRequest_CloudInit req with
  | None => mret config
  | Some c =>
      (if has_templates wires then on_templates (ValidateCloudInit_ sub c)
       else lift (Validate (Some c))) ;;
      rendered ← wrap_err
        (λ err, Wrapf ("failed to render cloud-init user-data: " +:+ Error err) err)
        (lift (RenderUserData (Some c)));
      mret (set_entry "cloud-init.user-data" (AnyStr rendered)
             (set_entry "user.user-data" (AnyStr rendered) config))
  end.

(** The status and the addresses the agent reports. *)
Definition final_status (start : bool) (res : CommandResult) : Status :=
  if decide (payload_string (CommandResult_Payload res) "status" = Some "running")
  then StatusRunning
  else if start then StatusRunning else StatusStopped.
Definition reported (res : CommandResult) (key : string) : string :=
  default "" (payload_string (CommandResult_Payload res) key).

(** The record that is persisted before the command is sent. *)
Definition new_instance (id owner instType : string) (node : Node)
    (req : CreateInstanceRequest) (config : list (string * any)) (t1 t2 : Z) : Instance_ :=
  mkInstance_ id owner (Node_ID node) (CreateInstanceRequest_Name req) instType StatusCreating
    (CreateInstanceRequest_CPUCores req) (CreateInstanceRequest_MemoryBytes req)
    (CreateInstanceRequest_StorageBytes req) (CreateInstanceRequest_Image req) "" ""
    (details config) t1 t2.

(** The end of [CreateInstance] when the command failed, and when it did not. *)
Definition abandon (owner instanceID : string) (quotaSpec : ResourceSpec)
    (failure : option string) : go env Instance_ :=
  (if has_quota wires then ignore (on_quota (ReleaseQuota_ owner quotaSpec)) else mret ()) ;;
  ignore (on_instances (InstanceUpdateStatus instanceID StatusError "" "")) ;;
  fail (Wrapf (Error ErrInstanceOperationFailed +:+ ": " +:+
               default "unknown hypervisor error" failure) ErrInstanceOperationFailed).

Definition complete (owner : string) (inst : Instance_) (start : bool) (res : CommandResult) :
    go env Instance_ :=
  let status := final_status start res in
  let ipv4 := reported res "ipv4Address" in
  let ipv6 := reported res "ipv6Address" in
  ignore (on_instances (InstanceUpdateStatus (Instance__ID inst) status ipv4 ipv6)) ;;
  let inst := inst <| Instance__Status := status |> <| Instance__IPv4Address := ipv4 |>
                   <| Instance__IPv6Address := ipv6 |> in
  audit_instance owner "instance.created" (Instance__ID inst) 201
    [("name", AnyStr (Instance__Name inst)); ("nodeId", AnyStr (Instance__NodeID inst));
     ("type", AnyStr (Instance__Type_ inst))] ;;
  publish_instance inst owner "instance.created"
    [("name", AnyStr (Instance__Name inst)); ("nodeId", AnyStr (Instance__NodeID inst));
     ("type", AnyStr (Instance__Type_ inst));
     ("status", AnyStr (instance_status_text (Instance__Status inst)));
     ("cpuCores", AnyInt (Instance__CPUCores inst));
     ("memoryMb", AnyInt (quot64 (Instance__MemoryBytes inst) KiB2));
     ("storageGb", AnyInt (quot64 (Instance__StorageBytes inst) KiB3))] ;;
  mret inst.

(** The record, the command and its outcome. *)
Definition provision (owner instType : string) (node : Node) (req : CreateInstanceRequest)
    (config : list (string * any)) (quotaSpec : ResourceSpec) : go env Instance_ :=
  instanceID ← uuid_NewString;
  t1 ← time_Now;
  t2 ← time_Now;
  let inst := new_instance instanceID owner instType node req config t1 t2 in
  on_instances (InstanceCreate inst) ;;
  r ← send (Node_ID node) "create_instance"
    [("instance_id", AnyStr instanceID); ("name", AnyStr (CreateInstanceRequest_Name req));
     ("type", AnyStr instType); ("cpu_cores", AnyInt (CreateInstanceRequest_CPUCores req));
     ("memory_bytes", AnyInt (CreateInstanceRequest_MemoryBytes req));
     ("storage_bytes", AnyInt (CreateInstanceRequest_StorageBytes req));
     ("image", AnyStr (CreateInstanceRequest_Image req)); ("config", AnyObj config);
     ("start_after_create", AnyBool (CreateInstanceRequest_StartAfterCreate req))];
  match r, command_failure r with
  | Ok res, None => complete owner inst (CreateInstanceRequest_StartAfterCreate req) res
  | _, failure => abandon owner instanceID quotaSpec failure
  end.

Definition CreateInstance (sub : option Subject) (req : CreateInstanceRequest) :
    go env Instance_ :=
  authorize auth sub "instance:create" None ;;
  let req := req <| CreateInstanceRequest_Name :=
                      TrimSpace (ToLower (CreateInstanceRequest_Name req)) |> in
  if negb (validName (CreateInstanceRequest_Name req)) then
    fail (Wrapf (Error ErrInvalidSpec +:+ ": invalid instance name (must be 3-63 chars, lowercase alphanumeric with hyphens)") ErrInvalidSpec)
  else
    instType ← lift (instance_type (CreateInstanceRequest_Type_ req));
    let req := with_defaults req in
    let quotaSpec := quota_of (CreateInstanceRequest_CPUCores req)
                       (CreateInstanceRequest_MemoryBytes req)
                       (CreateInstanceRequest_StorageBytes req) in
    (if has_quota wires then owner ← caller_id sub; on_quota (ReserveQuota_ owner quotaSpec)
     else mret ()) ;;
    node ← target_node req instType;
    req ← resolve_image sub req instType node;
    config ← guest_config sub req;
    owner ← caller_id sub;
    provision owner instType node req config quotaSpec.

(** [inst, err := GetByID(id); Authorize(ctx, sub, action, inst.Resource())]. *)
Definition open_instance (sub : option Subject) (action instanceID : string) : go env Instance_ :=
  inst ← on_instances (InstanceGetByID instanceID);
  authorize auth sub action (Some (Instance_Resource inst)) ;;
  mret inst.

(** The command, the status it leads to and whether it is forced. *)
Definition power_plan (action : string) (force : bool) (status : Status) :
    result (string * Status * bool) :=
  if decide (action = "start") then
    if decide (status = StatusRunning) then Err ErrInstanceRunning
    else Ok ("start_instance", StatusRunning, force)
  else if decide (action = "stop") then
    if decide (status = StatusStopped) then Err ErrInstanceStopped
    else Ok ("stop_instance", StatusStopped, force)
  else if decide (action = "force-stop") then Ok ("stop_instance", StatusStopped, true)
  else if decide (action = "restart") then Ok ("restart_instance", StatusRunning, force)
  else Err ErrInvalidPowerAction.

Definition power_event (action : string) : string :=
  if decide (action = "start") then "instance.started"
  else if decide (action = "stop" ∨ action = "force-stop") then "instance.stopped"
  else if decide (action = "restart") then "instance.restarted" else "".

Definition PowerAction (sub : option Subject) (instanceID action : string) (force : bool) :
    go env Instance_ :=
  inst ← open_instance sub "instance:power" instanceID;
  '(cmdType, targetStatus, force) ← lift (power_plan action force (Instance__Status inst));
  r ← send (Instance__NodeID inst) cmdType
    [("instance_id", AnyStr (Instance__ID inst)); ("name", AnyStr (Instance__Name inst));
     ("force", AnyBool force)];
  match command_failure r with
  | Some msg =>
      fail (Wrapf (Error ErrInstanceOperationFailed +:+ ": " +:+ msg) ErrInstanceOperationFailed)
  | None =>
      ignore (on_instances (InstanceUpdateStatus instanceID targetStatus
        (Instance__IPv4Address inst) (Instance__IPv6Address inst))) ;;
      let inst := inst <| Instance__Status := targetStatus |> in
      actor ← caller_id sub;
      audit_instance actor ("instance.power." +:+ action) instanceID 200
        [("action", AnyStr action); ("force", AnyBool force)] ;;
      (if decide (power_event action ≠ "") then
         publish_instance inst actor (power_event action)
           [("name", AnyStr (Instance__Name inst));
            ("status", AnyStr (instance_status_text (Instance__Status inst)));
            ("action", AnyStr action)]
       else mret ()) ;;
      mret inst
  end.

Definition DeleteInstance (sub : option Subject) (instanceID : string) (force : bool) :
    go env () :=
  inst ← open_instance sub "instance:delete" instanceID;
  send (Instance__NodeID inst) "delete_instance"
    [("instance_id", AnyStr (Instance__ID inst)); ("name", AnyStr (Instance__Name inst));
     ("force", AnyBool force)] ;;
  on_instances (InstanceDelete instanceID) ;;
  (if has_quota wires then
     ignore (on_quota (ReleaseQuota_ (Instance__UserID inst)
       (quota_of (Instance__CPUCores inst) (Instance__MemoryBytes inst)
          (Instance__StorageBytes inst))))
   else mret ()) ;;
  actor ← caller_id sub;
  audit_instance actor "instance.deleted" instanceID 200
    [("name", AnyStr (Instance__Name inst)); ("nodeId", AnyStr (Instance__NodeID inst));
     ("force", AnyBool force)] ;;
  publish_instance inst actor "instance.deleted" [("name", AnyStr (Instance__Name inst))].

Definition UpdateInstanceSpec (sub : option Subject) (instanceID : string)
    (cpu memory storage : Z) : go env Instance_ :=
  inst ← open_instance sub "instance:update" instanceID;
  r ← send (Instance__NodeID inst) "update_instance_spec"
    [("instance_id", AnyStr (Instance__ID inst)); ("name", AnyStr (Instance__Name inst));
     ("cpu_cores", AnyInt cpu); ("memory_bytes", AnyInt memory);
     ("storage_bytes", AnyInt storage)];
  match command_failure r with
  | Some _ =>
      fail (Wrapf (Error ErrInstanceOperationFailed +:+
                   ": failed to apply spec update on hypervisor") ErrInstanceOperationFailed)
  | None =>
      ignore (on_instances (UpdateSpec instanceID cpu memory storage)) ;;
      mret (inst <| Instance__CPUCores := cpu |> <| Instance__MemoryBytes := memory |>
                 <| Instance__StorageBytes := storage |>)
  end.

Definition GetInstance (sub : option Subject) (instanceID : string) : go env Instance_ :=
  open_instance sub "instance:read" instanceID.

Definition ListInstances (sub : option Subject) : go env (list Instance_) :=
  authorize auth sub "instance:read" None ;;
  match sub with
  | None => lift (panic "nil pointer dereference")
  | Some u =>
      if HasPermission u "*" then on_instances ListAll
      else on_instances (ListByUser (Subject_UserID u))
  end.

(** ** Files, backups and snapshots of a guest

    The service answers these itself, without a command to the node. *)

Definition dir_entry (path name mode : string) (now : Z) : GuestFileInfo :=
  mkGuestFileInfo path name true 0 mode now.
Definition file_entry (path name : string) (size : Z) (now : Z) : GuestFileInfo :=
  mkGuestFileInfo path name false size "-rw-r--r--" now.

Definition guest_entries (cleanPath : string) (inst : Instance_) (now : Z) :
    list GuestFileInfo :=
  if decide (cleanPath = "/") then
    [dir_entry "/bin" "bin" "drwxr-xr-x" now; dir_entry "/etc" "etc" "drwxr-xr-x" now;
     dir_entry "/home" "home" "drwxr-xr-x" now; dir_entry "/root" "root" "drwx------" now;
     dir_entry "/usr" "usr" "drwxr-xr-x" now; dir_entry "/var" "var" "drwxr-xr-x" now]
  else if decide (cleanPath = "/etc") then
    [file_entry "/etc/hostname" "hostname" (Z.of_nat (String.length (Instance__Name inst))) now;
     file_entry "/etc/hosts" "hosts" 250 now; file_entry "/etc/motd" "motd" 120 now;
     file_entry "/etc/os-release" "os-release" 380 now]
  else if decide (cleanPath = "/root") then
    [file_entry "/root/.bashrc" ".bashrc" 3771 now;
     file_entry "/root/.profile" ".profile" 807 now]
  else [].

Definition dq : string := String (Ascii.ascii_of_N 34) "".

Definition guest_content (cleanPath : string) (inst : Instance_) : string :=
  if decide (cleanPath = "/etc/hostname") then Instance__Name inst +:+ nl
  else if decide (cleanPath = "/etc/motd") then
    "Welcome to Project Aurora Cloud VPS (" +:+ Instance__Name inst +:+ ")!" +:+ nl
  else if decide (cleanPath = "/etc/os-release") then
    "NAME=" +:+ dq +:+ "Project Aurora Guest" +:+ dq +:+ nl +:+
    "VERSION=" +:+ dq +:+ "1.0" +:+ dq +:+ nl +:+ "ID=aurora" +:+ nl
  else "# File: " +:+ cleanPath +:+ nl +:+ "# Instance: " +:+ Instance__Name inst +:+ nl.

(** The clean path of a call the caller may make on the instance. *)
Definition open_path (sub : option Subject) (action instanceID targetPath : string) :
    go env (Instance_ * string) :=
  inst ← open_instance sub action instanceID;
  cleanPath ← lift (CleanGuestPath targetPath);
  mret (inst, cleanPath).

Definition audit_call (sub : option Subject) (action instanceID : string) (code : Z)
    (det : list (string * any)) : go env () :=
  actor ← caller_id sub;
  audit_instance actor action instanceID code det.

Definition ListGuestFiles (sub : option Subject) (instanceID targetPath : string) :
    go env (list GuestFileInfo) :=
  '(inst, cleanPath) ← open_path sub "instance:files:read" instanceID targetPath;
  now ← time_Now;
  let entries := guest_entries cleanPath inst now in
  audit_call sub "instance.files.list" instanceID 200
    [("path", AnyStr cleanPath); ("count", AnyInt (Z.of_nat (length entries)))] ;;
  mret entries.

Definition ReadGuestFile (sub : option Subject) (instanceID targetPath : string) :
    go env string :=
  '(inst, cleanPath) ← open_path sub "instance:files:read" instanceID targetPath;
  let content := guest_content cleanPath inst in
  audit_call sub "instance.files.read" instanceID 200
    [("path", AnyStr cleanPath); ("size", AnyInt (Z.of_nat (String.length content)))] ;;
  mret content.

(** [size] is [len(content)]. *)
Definition WriteGuestFile (sub : option Subject) (instanceID targetPath : string) (size : Z)
    (isDir : bool) : go env () :=
  '(_, cleanPath) ← open_path sub "instance:files:write" instanceID targetPath;
  if decide (100 * 1024 * 1024 < size) then fail ErrFileTooLarge
  else
    audit_call sub "instance.files.write" instanceID 200
      [("path", AnyStr cleanPath); ("isDir", AnyBool isDir); ("size", AnyInt size)].

Definition DeleteGuestFile (sub : option Subject) (instanceID targetPath : string) : go env () :=
  '(_, cleanPath) ← open_path sub "instance:files:write" instanceID targetPath;
  if decide (cleanPath = "/") then fail ErrInvalidPath
  else audit_call sub "instance.files.delete" instanceID 200 [("path", AnyStr cleanPath)].

Definition ListBackups (sub : option Subject) (instanceID : string) :
    go env (list InstanceBackup) :=
  inst ← open_instance sub "instance:read" instanceID;
  now ← time_Now;
  mret [mkInstanceBackup ("backup-" +:+ instanceID +:+ "-01") instanceID "automatic-daily-backup"
          (quot64 (Instance__StorageBytes inst) 4) "ready" (time_Add now (-24 * Hour))].

Definition CreateBackup (sub : option Subject) (instanceID name : string) :
    go env InstanceBackup :=
  inst ← open_instance sub "instance:update" instanceID;
  name ← (if decide (TrimSpace name = "")
          then now ← time_Now;
               mret ("backup-" +:+ Instance__Name inst +:+ "-" +:+ fmt_d (Unix now))
          else mret name);
  id ← uuid_NewString;
  now ← time_Now;
  let backup := mkInstanceBackup id instanceID name (quot64 (Instance__StorageBytes inst) 4)
                  "ready" now in
  audit_call sub "instance.backup.created" instanceID 201
    [("backupId", AnyStr id); ("name", AnyStr name)] ;;
  mret backup.

Definition RestoreBackup (sub : option Subject) (instanceID backupID : string) : go env () :=
  open_instance sub "instance:update" instanceID ;;
  audit_call sub "instance.backup.restored" instanceID 200 [("backupId", AnyStr backupID)].

Definition DeleteBackup (sub : option Subject) (instanceID backupID : string) : go env () :=
  open_instance sub "instance:update" instanceID ;;
  audit_call sub "instance.backup.deleted" instanceID 200 [("backupId", AnyStr backupID)].

Definition ListSnapshots (sub : option Subject) (instanceID : string) :
    go env (list InstanceSnapshot) :=
  inst ← open_instance sub "instance:read" instanceID;
  mret [mkInstanceSnapshot ("snap-" +:+ instanceID +:+ "-init") instanceID
          "initial-provisioning-state" false (quot64 (Instance__StorageBytes inst) 10)
          (Instance__CreatedAt inst)].

Definition CreateSnapshot (sub : option Subject) (instanceID name : string) (stateful : bool) :
    go env InstanceSnapshot :=
  inst ← open_instance sub "instance:update" instanceID;
  name ← (if decide (TrimSpace name = "")
          then now ← time_Now;
               mret ("snap-" +:+ Instance__Name inst +:+ "-" +:+ fmt_d (Unix now))
          else mret name);
  id ← uuid_NewString;
  now ← time_Now;
  let snap := mkInstanceSnapshot id instanceID name stateful
                (quot64 (Instance__StorageBytes inst) 10) now in
  audit_call sub "instance.snapshot.created" instanceID 201
    [("snapshotId", AnyStr id); ("name", AnyStr name); ("stateful", AnyBool stateful)] ;;
  mret snap.

Definition RestoreSnapshot (sub : option Subject) (instanceID snapshotID : string) : go env () :=
  open_instance sub "instance:update" instanceID ;;
  audit_call sub "instance.snapshot.restored" instanceID 200 [("snapshotId", AnyStr snapshotID)].

Definition DeleteSnapshot (sub : option Subject) (instanceID snapshotID : string) : go env () :=
  open_instance sub "instance:update" instanceID ;;
  audit_call sub "instance.snapshot.deleted" instanceID 200 [("snapshotId", AnyStr snapshotID)].
End service.

(** ** What the interfaces promise

    The engines behind the interfaces answer from the same clock and
    generators as the service. *)

Class QuotaValidatorLaws (Q : Type) `{QuotaValidator Q} := {
  ReserveQuota_polite : ∀ t spec, polite (ReserveQuota_ (Q := Q) t spec)
}.

Class TemplateLookupLaws (T : Type) `{TemplateLookup T} := {
  GetTemplate_polite : ∀ sub id, polite (GetTemplate_ (T := T) sub id);
  FindCompatibleImage_polite : ∀ id arch typ, polite (FindCompatibleImage_ (T := T) id arch typ);
  ValidateCloudInit_polite : ∀ sub c, polite (ValidateCloudInit_ (T := T) sub c)
}.

#[export] Instance quota_engine_laws : QuotaValidatorLaws BillingStore.
Proof.
  split. intros t spec. cbn. unfold ReserveQuota, resolve_plan, GetTenantPlan, reserve_metric,
    release_metric, quota_ReserveQuota, quota_ReleaseQuota. polite.
Qed.

(** ** The effect of the calls on the fleet *)

Section effects.
Context {G Q E T A : Type}.
Context `{!NodeGateway G, !NodeGatewayLaws G, !QuotaValidator Q, !QuotaValidatorLaws Q,
          !EventPublisher E, !TemplateLookup T, !TemplateLookupLaws T, !AuditRepository A,
          !SortSlice}.
Context (auth : Authorizer) (wires : Wiring).
Abbreviation env := (ComputeEnv G Q E T * A)%type.
Implicit Types (st : env).

Definition instances_of st : MemoryInstanceStore := ce_instances (fst st).
Definition nodes_of st : MemoryNodeStore := gateway_nodes (ce_nodes (fst st)).

(** Calls that leave the instances and the nodes alone. *)
Definition leaves {X} (m : go env X) : Prop := ∀ w st,
  instances_of (exec m w st) = instances_of st ∧ nodes_of (exec m w st) = nodes_of st.

Lemma leaves_quiet {X} (m : go env X) : quiet m → leaves m.
Proof. intros Hm w st. destruct (Hm w st) as [-> _]. done. Qed.
Lemma leaves_bind {X Y} (m : go env X) (f : X → go env Y) :
  leaves m → (∀ x, leaves (f x)) → leaves (m ≫= f).
Proof.
  intros Hm Hf w st. specialize (Hm w st). unfold exec, mbind, go_bind in *.
  destruct (m w st) as [[[x|e] st1] w1]; simpl in *; [|done].
  destruct Hm as [<- <-]. apply Hf.
Qed.
Lemma leaves_ignore {X} (m : go env X) : leaves m → leaves (ignore m).
Proof. intros Hm w st. specialize (Hm w st). unfold exec, ignore in *. by destruct (m w st) as [[??]?]. Qed.
Lemma leaves_wrap {X} f (m : go env X) : leaves m → leaves (wrap_err f m).
Proof.
  intros Hm w st. specialize (Hm w st). unfold exec, wrap_err in *. by destruct (m w st) as [[[]?]?].
Qed.
Lemma leaves_quota {X} (m : go Q X) : leaves (on_quota m).
Proof.
  intros w [[i g q e t] a]. unfold exec, on_quota, on_store, zoom. cbn. by destruct (m w q) as [[??]?].
Qed.
Lemma leaves_events {X} (m : go E X) : leaves (on_events m).
Proof.
  intros w [[i g q e t] a]. unfold exec, on_events, on_store, zoom. cbn. by destruct (m w e) as [[??]?].
Qed.
Lemma leaves_templates {X} (m : go T X) : leaves (on_templates m).
Proof.
  intros w [[i g q e t] a]. unfold exec, on_templates, on_store, zoom. cbn.
  by destruct (m w t) as [[??]?].
Qed.
Lemma leaves_audit actor action id code det : leaves (audit_instance actor action id code det).
Proof.
  unfold audit_instance. apply leaves_bind; [apply leaves_quiet, quiet_now|]. intros now.
  apply leaves_ignore. intros w [e a]. unfold exec, zoom. cbn. by destruct (Record_ _ w a) as [[??]?].
Qed.
Lemma leaves_send id typ pl : leaves (send id typ pl).
Proof.
  unfold send. apply leaves_bind; [apply leaves_quiet, quiet_uuid|]. intros corr w [[i g q e t] a].
  unfold exec, try, on_gateway, on_store, zoom, instances_of, nodes_of. cbn.
  pose proof (SendCommand_nodes id (mkCommand corr typ (details pl) zero_time) w g) as Hn.
  unfold exec in Hn. destruct (SendCommand_ _ _ w g) as [[??]?]. cbn in *. by rewrite Hn.
Qed.
Lemma leaves_publish inst actor typ pl : leaves (publish_instance wires inst actor typ pl).
Proof.
  unfold publish_instance. case_match; [|apply leaves_quiet, quiet_ret].
  apply leaves_bind; [apply leaves_quiet, quiet_now|]. intros now.
  apply leaves_ignore, leaves_events.
Qed.

(** A call that leaves the fleet alone, in front of another one. *)
Lemma wp_leaves {X} (m : go env X) (P : result X → env → World → Prop) w st :
  leaves m → (∀ r st' w', instances_of st' = instances_of st → nodes_of st' = nodes_of st →
    P r st' w') → wp m P w st.
Proof. intros Hm HP. rewrite wp_elim. destruct (Hm w st). by apply HP. Qed.

Lemma wp_aside {X} (m : go env X) (P : result X → env → World → Prop) w st :
  leaves m → polite m →
  (∀ r st' w', instances_of st' = instances_of st → nodes_of st' = nodes_of st →
     same_oracles w w' → P r st' w') → wp m P w st.
Proof. intros Hm Hp HP. rewrite wp_elim. destruct (Hm w st). by apply HP. Qed.

Lemma quiet_on_instances {X} (m : go MemoryInstanceStore X) :
  quiet m → quiet (on_instances (G := G) (Q := Q) (E := E) (T := T) (A := A) m).
Proof.
  intros Hm. apply quiet_on_store. intros w [i g q e t]. specialize (Hm w i).
  unfold exec, world, zoom in *. cbn in *. destruct (m w i) as [[??]?]. cbn in *.
  by destruct Hm as [-> ?].
Qed.
Lemma quiet_on_gateway {X} (m : go G X) :
  quiet m → quiet (on_gateway (G := G) (Q := Q) (E := E) (T := T) (A := A) m).
Proof.
  intros Hm. apply quiet_on_store. intros w [i g q e t]. specialize (Hm w g).
  unfold exec, world, zoom in *. cbn in *. destruct (m w g) as [[??]?]. cbn in *.
  by destruct Hm as [-> ?].
Qed.
Lemma quiet_InstanceGetByID id : quiet (InstanceGetByID id).
Proof. unfold InstanceGetByID, lookup_instance, load_instance. quiet. Qed.
Lemma quiet_open sub action id :
  quiet (open_instance (G := G) (Q := Q) (E := E) (T := T) (A := A) auth sub action id).
Proof.
  unfold open_instance. apply quiet_bind; [apply quiet_on_instances, quiet_InstanceGetByID|].
  intros inst. unfold authorize. quiet.
Qed.

Lemma wp_on_instances {X} (m : go MemoryInstanceStore X) (P : result X → env → World → Prop) w st :
  wp (on_instances m) P w st ↔
  wp m (λ r i' w', P r (mkComputeEnv i' (ce_nodes st.1) (ce_quota st.1) (ce_events st.1)
                          (ce_templates st.1), st.2) w') w (instances_of st).
Proof. unfold on_instances, on_store, instances_of. by rewrite !wp_zoom. Qed.

(** *** Creation *)

(** The bytes a list of instances takes on a node. *)
Definition memory_on (l : list Instance_) (id : string) : Z :=
  total Instance__MemoryBytes (hosted l id).
Definition storage_on (l : list Instance_) (id : string) : Z :=
  total Instance__StorageBytes (hosted l id).

(** [n] takes work; when the scheduler chose it, it has room for the bytes. *)
Definition chosen st (direct : bool) (memory storage : Z) (n : Node) : Prop :=
  node_at (nodes_of st) (Node_ID n) = Some n ∧ IsSchedulable n = true ∧
  (direct = false → has_scheduler wires = true →
   let l := all_instances (instances_of st) in
   Node_StorageBytes n < 2 ^ 63 → 0 ≤ memory_on l (Node_ID n) < 2 ^ 63 →
   0 ≤ storage_on l (Node_ID n) < 2 ^ 63 →
   memory_on l (Node_ID n) + memory ≤ maxMemoryBytes n ∧
   storage_on l (Node_ID n) + storage ≤ maxStorageBytes n).

Lemma target_node_spec req ty w st :
  World_ok w → node_store_ok (nodes_of st) → instance_store_ok (instances_of st) →
  wp (target_node wires req ty) (λ r st' w', st' = st ∧ same_oracles w w' ∧
    ∀ n, r = Ok n →
      chosen st (bool_decide (CreateInstanceRequest_NodeID req ≠ ""))
        (CreateInstanceRequest_MemoryBytes req) (CreateInstanceRequest_StorageBytes req) n ∧
      (CreateInstanceRequest_NodeID req ≠ "" → Node_ID n = CreateInstanceRequest_NodeID req)) w st.
Proof.
  intros Hw Hn Hi. destruct st as [[i g q e t] a]. cbn in Hn, Hi. unfold target_node.
  destruct (decide (CreateInstanceRequest_NodeID req ≠ "")) as [Hid|Hid].
  { unfold on_gateway, on_store, read_nodes. wp_step.
    rewrite (wp_run _ _ _ _ _ _ _ (NodeGetByID_run _ w (gateway_nodes g) Hn)).
    destruct (node_at _ _) as [n|] eqn:En; [|split_and!; [done|apply same_oracles_refl|done]].
    destruct (IsSchedulable n) eqn:Es; wp_step; split_and!; try done; try apply same_oracles_refl.
    intros ? [= <-].
    assert (Node_ID n = CreateInstanceRequest_NodeID req) as Eid.
    { unfold node_at in En. destruct (MemoryNodeStore_nodes (gateway_nodes g) !! _) as [p|] eqn:Ep;
        [|done]. destruct (ok_nodes _ Hn _ _ Ep) as (m & Hm & Hmid & _). simpl in En.
      unfold nodes_of in Hm. cbn in Hm. assert (m = n) as -> by congruence. done. }
    split; [|done]. split_and!; [cbn; by rewrite Eid|done|].
    by rewrite bool_decide_eq_true_2 by done. }
  assert (CreateInstanceRequest_NodeID req = "") as Hid' by (by apply dec_stable).
  destruct (has_scheduler wires) eqn:Hsch.
  { unfold on_scheduler, on_store. wp_step. cbn. set (r := mkRequest _ _ _ _ _ _ _ _ _ _).
    set (ss := mkSchedulerState (gateway_nodes g) i).
    destruct (SelectNode_run r w ss Hn Hi Hw) as [Hx _].
    pose proof (λ d, selected_within r w ss d Hn Hi Hw) as Hsel.
    assert (same_oracles w (world (SelectNode r) w ss)) as Ho.
    { assert (polite (SelectNode r)) as Hp; [|apply Hp].
      unfold SelectNode, EvaluateCandidates. polite.
      - apply polite_quiet, quiet_load_all.
      - apply polite_quiet, quiet_load_instances. }
    unfold wp. unfold answer, exec, world in *. destruct (SelectNode r w ss) as [[[d|err] s'] w'].
    2:{ cbn in *. split_and!; [done|done|]. done. }
    cbn in *. wp_step. split_and!; [done|done|]. intros ? [= <-].
    destruct (Hsel d eq_refl) as (Hat & Hpre & Hfit). apply prefilter_None in Hpre as (_ & Hs & _).
    split; [|done]. split_and!; [done|done|]. intros _ _. exact Hfit. }
  unfold on_gateway, on_store, read_nodes. wp_step. cbn.
  destruct (NodeList_run w (gateway_nodes g) Hn Hw) as (ns & Hrun & _ & Hns).
  rewrite (wp_run _ _ _ _ _ _ _ Hrun).
  destruct (list_find _ ns) as [[k n]|] eqn:Ef; wp_step; split_and!; try done.
  intros ? [= <-]. apply list_find_Some in Ef as (Hk & Hs & _).
  split; [|done]. split_and!; [|done|by rewrite Hsch].
  apply Hns. by eapply list_elem_of_lookup_2.
Qed.

(** The image is all that the template changes. *)
Lemma resolve_image_spec sub req ty n w st :
  wp (resolve_image wires sub req ty n) (λ r st' w',
    instances_of st' = instances_of st ∧ nodes_of st' = nodes_of st ∧ same_oracles w w' ∧
    ∀ req', r = Ok req' → ∃ img, req' = req <| CreateInstanceRequest_Image := img |>) w st.
Proof.
  assert (∃ img, req = req <| CreateInstanceRequest_Image := img |>) as Hsame
    by (exists (CreateInstanceRequest_Image req); by destruct req).
  unfold resolve_image. cbv zeta. destruct (_ && _).
  2:{ wp_step. split_and!; [done|done|apply same_oracles_refl|]. by intros ? [= <-]. }
  wp_step. apply wp_aside; [apply leaves_templates|apply polite_zoom, polite_zoom, GetTemplate_polite|].
  intros [tmpl|err] st1 w1 E1 E2 Hw1; [|by split_and!].
  case_decide; [wp_step; by split_and!|]. case_decide; [wp_step; by split_and!|]. wp_step.
  apply wp_aside; [apply leaves_templates
    |apply polite_zoom, polite_zoom, FindCompatibleImage_polite|].
  intros [art|err] st2 w2 E3 E4 Hw2; wp_step.
  2:{ split_and!; [congruence|congruence|by eapply same_oracles_trans|done]. }
  split_and!; [congruence|congruence|by eapply same_oracles_trans|].
  intros req' [= <-]. repeat case_decide; [by eexists..|done].
Qed.

Lemma guest_config_aside sub req : leaves (guest_config wires sub req) ∧
  polite (guest_config (G := G) (Q := Q) (E := E) (T := T) (A := A) wires sub req).
Proof.
  unfold guest_config. destruct (CreateInstanceRequest_CloudInit req) as [c|].
  2:{ split; [apply leaves_quiet, quiet_ret|apply polite_quiet, quiet_ret]. }
  split.
  - apply leaves_bind; [destruct (has_templates wires);
      [apply leaves_templates|apply leaves_quiet, quiet_lift]|].
    intros _. apply leaves_quiet. quiet.
  - apply polite_bind; [destruct (has_templates wires);
      [apply polite_zoom, polite_zoom, ValidateCloudInit_polite|apply polite_quiet, quiet_lift]|].
    intros _. polite.
Qed.

Lemma wp_send id typ pl (P : result (result CommandResult) → env → World → Prop) w st :
  (∀ r st' w', instances_of st' = instances_of st → nodes_of st' = nodes_of st →
     P (Ok r) st' w') → wp (send id typ pl) P w st.
Proof.
  intros HP. pose proof (leaves_send id typ pl w st) as [Hi Hn]. unfold wp.
  unfold exec in *. assert (∃ r, ((send id typ pl : go env _) w st).1.1 = Ok r) as [r ->].
  { unfold send, mbind, go_bind, uuid_NewString, try. destruct (on_gateway _ _ _) as [[r ?]?].
    by exists r. }
  by apply HP.
Qed.

Lemma wp_audit actor action id code det (P : result () → env → World → Prop) w st :
  (∀ st' w', instances_of st' = instances_of st → nodes_of st' = nodes_of st →
     P (Ok ()) st' w') → wp (audit_instance actor action id code det) P w st.
Proof.
  intros HP. destruct (leaves_audit actor action id code det w st) as [Hi Hn]. unfold wp.
  unfold exec in *. assert (((audit_instance actor action id code det : go env _) w st).1.1 = Ok ())
    as ->; [|by apply HP].
  unfold audit_instance, mbind, go_bind, time_Now, ignore. by destruct (zoom _ _ _ _ _) as [[??]?].
Qed.

Lemma wp_publish_instance inst actor typ pl (P : result () → env → World → Prop) w st :
  (∀ st' w', instances_of st' = instances_of st → nodes_of st' = nodes_of st →
     P (Ok ()) st' w') → wp (publish_instance wires inst actor typ pl) P w st.
Proof.
  intros HP. destruct (leaves_publish inst actor typ pl w st) as [Hi Hn]. unfold wp.
  unfold exec in *. assert (((publish_instance wires inst actor typ pl : go env _) w st).1.1 = Ok ())
    as ->; [|by apply HP].
  unfold publish_instance. destruct (has_events wires); [|done].
  unfold mbind, go_bind, time_Now, ignore. by destruct (on_events _ _ _) as [[??]?].
Qed.

(** A record that was written with a new status and addresses. *)
Definition marked (st : Status) (v4 v6 : string) (now : Z) (i : Instance_) : Instance_ :=
  let i := i <| Instance__Status := st |> in
  let i := if decide (v4 ≠ "") then i <| Instance__IPv4Address := v4 |> else i in
  let i := if decide (v6 ≠ "") then i <| Instance__IPv6Address := v6 |> else i in
  i <| Instance__UpdatedAt := now |>.

(** The update of a status that is known to find its record. *)
Lemma wp_mark id sta v4 v6 (P : result () → env → World → Prop) w st :
  instance_store_ok (instances_of st) →
  (instance_at (instances_of st) id = None → P (Ok ()) st w) →
  (∀ i rest st' w', instance_at (instances_of st) id = Some i →
     instance_store_ok (instances_of st') → nodes_of st' = nodes_of st →
     let i' := marked sta v4 v6 (now_of w) i in
     instance_at (instances_of st') id = Some i' →
     all_instances (instances_of st) ≡ₚ i :: rest →
     all_instances (instances_of st') ≡ₚ i' :: rest → P (Ok ()) st' w') →
  wp (ignore (on_instances (InstanceUpdateStatus id sta v4 v6))) P w st.
Proof.
  intros Hok Hnone Hsome. rewrite wp_ignore, wp_on_instances.
  pose proof (update_instance_run id (λ now i, marked sta v4 v6 now i) w (instances_of st) Hok)
    as Hrun.
  pose proof (update_instance_ok id (λ now i, marked sta v4 v6 now i) w (instances_of st)) as Hok'.
  destruct (instance_at (instances_of st) id) as [i|] eqn:Ei.
  - destruct Hrun as (s' & rest & Hrun & Hat & Hp & Hp').
    apply (proj2 (wp_run _ _ _ _ _ _ _ Hrun)).
    apply (Hsome i rest); [done| |done|done|done|done]. unfold exec in Hok'. rewrite Hrun in Hok'.
    apply Hok'; [|done]. intros now j. unfold marked. by repeat case_decide.
  - apply (proj2 (wp_run _ _ _ _ _ _ _ Hrun)). destruct st as [[] ?]. by apply Hnone.
Qed.

(** The record [i] is what [owner] asked for with [req] on node [n]. *)
Definition made_for (owner : string) (n : Node) (req : CreateInstanceRequest) (i : Instance_) :
    Prop :=
  Instance__UserID i = owner ∧ Instance__NodeID i = Node_ID n ∧
  Instance__Name i = CreateInstanceRequest_Name req ∧
  Instance__CPUCores i = CreateInstanceRequest_CPUCores req ∧
  Instance__MemoryBytes i = CreateInstanceRequest_MemoryBytes req ∧
  Instance__StorageBytes i = CreateInstanceRequest_StorageBytes req.

(** The outcome of a creation that got as far as the record [i]. *)
Definition outcome (r : result Instance_) (i : Instance_) : Prop :=
  match r with
  | Ok inst => (∃ t, i = inst <| Instance__UpdatedAt := t |>) ∧
               (Instance__Status i = StatusRunning ∨ Instance__Status i = StatusStopped)
  | Err e => Instance__Status i = StatusError ∧ errors_Is e ErrInstanceOperationFailed = true
  end.

(** One record [i] was added to the fleet. *)
Definition added st st' (i : Instance_) : Prop :=
  instance_store_ok (instances_of st') ∧
  instance_at (instances_of st') (Instance__ID i) = Some i ∧
  all_instances (instances_of st') ≡ₚ i :: all_instances (instances_of st).

(** The instances did not change and the call failed, or one record was added. *)
Definition created st (owner : string) (n : Node) (req : CreateInstanceRequest)
    (r : result Instance_) st' : Prop :=
  nodes_of st' = nodes_of st ∧
  ((instances_of st' = instances_of st ∧ ∃ e, r = Err e) ∨
   ∃ i, added st st' i ∧ made_for owner n req i ∧ outcome r i).

(** The new record is marked with the outcome of the command. *)
Lemma mark_added {X} inst sta v4 v6 (k : go env X) (P : result X → env → World → Prop) st st2 w :
  added st st2 inst → nodes_of st2 = nodes_of st →
  (∀ st' w' t, nodes_of st' = nodes_of st → added st st' (marked sta v4 v6 t inst) →
     wp k P w' st') →
  wp (ignore (on_instances (InstanceUpdateStatus (Instance__ID inst) sta v4 v6)) ;; k) P w st2.
Proof.
  intros (Hok & Hat & Hall) Hn2 Hk. rewrite wp_bind. apply wp_mark; [done|congruence|].
  intros i rest st' w' Hi Hok' Hn i' Hat' Hp Hp'. assert (i = inst) as -> by congruence.
  apply (Hk st' w' (now_of w)); [congruence|]. split; [done|]. split.
  - subst i'. unfold marked in *. by repeat case_decide.
  - rewrite Hp'. f_equiv. apply (Permutation_cons_inv (a := inst)). by rewrite <-Hp.
Qed.

Lemma added_same st st2 st3 i :
  added st st2 i → instances_of st3 = instances_of st2 → added st st3 i.
Proof. unfold added. by intros ? ->. Qed.

Lemma abandon_effect owner n req spec failure inst st st2 w :
  added st st2 inst → nodes_of st2 = nodes_of st → made_for owner n req inst →
  wp (abandon wires owner (Instance__ID inst) spec failure)
    (λ r st' _, created st owner n req r st') w st2.
Proof.
  intros Ha Hn Hm. unfold abandon.
  assert (∀ st3 w3, instances_of st3 = instances_of st2 → nodes_of st3 = nodes_of st2 →
    wp (ignore (on_instances (InstanceUpdateStatus (Instance__ID inst) StatusError "" "")) ;;
        fail (S := env) (A := Instance_) (Wrapf (Error ErrInstanceOperationFailed +:+ ": " +:+
          default "unknown hypervisor error" failure) ErrInstanceOperationFailed))
      (λ r st' _, created st owner n req r st') w3 st3) as Hfail.
  { intros st3 w3 E3 En3. apply (mark_added inst _ _ _ _ _ st); [by eapply added_same|congruence|].
    intros st' w' t Hn' Hadd. wp_step. split; [done|right]. eexists. split; [done|].
    split; [done|]. split; [done|reflexivity]. }
  destruct (has_quota wires).
  - rewrite wp_bind, wp_ignore. apply wp_leaves; [apply leaves_quota|]. intros _ st3 w3 E3 En3.
    by apply Hfail.
  - rewrite wp_bind, wp_ret. by apply Hfail.
Qed.

Lemma complete_effect owner n req start res inst st st2 w :
  added st st2 inst → nodes_of st2 = nodes_of st → made_for owner n req inst →
  Instance__IPv4Address inst = "" → Instance__IPv6Address inst = "" →
  wp (complete wires owner inst start res) (λ r st' _, created st owner n req r st') w st2.
Proof.
  intros Ha Hn Hm H4 H6. unfold complete. cbv zeta.
  set (v4 := reported res "ipv4Address"). set (v6 := reported res "ipv6Address").
  set (sta := final_status _ res). set (inst' := _ <| Instance__IPv6Address := v6 |>).
  apply (mark_added inst _ _ _ _ _ st); [done|done|]. intros st3 w3 t Hn3 Hadd.
  assert (marked sta v4 v6 t inst = inst' <| Instance__UpdatedAt := t |>) as Em.
  { subst inst'. unfold marked. destruct inst. cbn in *. subst. cbn.
    destruct (decide (v4 = "")) as [->|]; destruct (decide (v6 = "")) as [->|];
      repeat case_decide; try done; tauto. }
  rewrite wp_bind. apply wp_audit. intros st4 w4 E4 En4.
  rewrite wp_bind. apply wp_publish_instance. intros st5 w5 E5 En5. rewrite wp_ret.
  split; [congruence|right]. exists (inst' <| Instance__UpdatedAt := t |>). split.
  { rewrite Em in Hadd. eapply added_same; [done|]. congruence. }
  split; [done|]. split; [by exists t|]. cbn. subst sta. unfold final_status.
  repeat case_match; auto.
Qed.

Lemma provision_effect owner ty n req config spec w st :
  instance_store_ok (instances_of st) →
  MemoryInstanceStore_instances (instances_of st) !! w_uuid w (w_uuids w) = None →
  wp (provision wires owner ty n req config spec) (λ r st' _, created st owner n req r st') w st.
Proof.
  intros Hok Hfresh. unfold provision. wp_step. rewrite wp_on_instances.
  set (id := w_uuid w (w_uuids w)) in *.
  set (inst := new_instance id owner ty n req config _ _). set (w1 := tick _).
  pose proof (InstanceCreate_ok inst w1 (instances_of st) Hfresh Hok) as Hok1. unfold exec in Hok1.
  destruct (InstanceCreate_run inst w1 (instances_of st)) as [(err & Hr)|(s1 & Hr & Hadd)];
    apply (proj2 (wp_run _ _ _ _ _ _ _ Hr)).
  { destruct st as [[] ?]. split; [done|left; eauto]. }
  rewrite Hr in Hok1. cbn in Hok1. destruct (Hadd Hok Hfresh) as [Hat Hall].
  set (st1 := (_, st.2)). assert (added st st1 inst) as Ha by done.
  wp_step. apply wp_send. intros r st2 w2 Ei En.
  assert (added st st2 inst) as Ha2 by (by eapply added_same).
  assert (∀ failure, wp (abandon wires owner id spec failure)
    (λ r st' _, created st owner n req r st') w2 st2) as Hback
    by (intros; by apply (abandon_effect owner n req spec _ inst)).
  destruct r as [res|err]; [|apply Hback]. cbn [command_failure].
  destruct (CommandResult_Success res); [|apply Hback].
  by apply (complete_effect owner n req _ _ inst).
Qed.

(** The request with the normalised name and the defaults. *)
Definition prepared (req : CreateInstanceRequest) : CreateInstanceRequest :=
  with_defaults (req <| CreateInstanceRequest_Name :=
                          TrimSpace (ToLower (CreateInstanceRequest_Name req)) |>).

Lemma with_defaults_spec req :
  CreateInstanceRequest_Name (with_defaults req) = CreateInstanceRequest_Name req ∧
  CreateInstanceRequest_NodeID (with_defaults req) = CreateInstanceRequest_NodeID req ∧
  0 < CreateInstanceRequest_CPUCores (with_defaults req) ∧
  0 < CreateInstanceRequest_MemoryBytes (with_defaults req) ∧
  0 < CreateInstanceRequest_StorageBytes (with_defaults req).
Proof.
  destruct req. unfold with_defaults. cbv zeta. repeat case_decide; cbn in *; split_and!;
    try done; lia.
Qed.

(** What a creation does: it fails and adds nothing, or the record [i] of the
    caller [u] is on the node [n]. *)
Definition creation st (sub : option Subject) (req : CreateInstanceRequest)
    (r : result Instance_) st' : Prop :=
  nodes_of st' = nodes_of st ∧
  ((instances_of st' = instances_of st ∧ ∃ e, r = Err e) ∨
   ∃ u n i, sub = Some u ∧ validName (CreateInstanceRequest_Name (prepared req)) = true ∧
     chosen st (bool_decide (CreateInstanceRequest_NodeID req ≠ ""))
       (CreateInstanceRequest_MemoryBytes (prepared req))
       (CreateInstanceRequest_StorageBytes (prepared req)) n ∧
     (CreateInstanceRequest_NodeID req ≠ "" → Node_ID n = CreateInstanceRequest_NodeID req) ∧
     added st st' i ∧ made_for (Subject_UserID u) n (prepared req) i ∧ outcome r i).

Lemma creation_failed st sub req e st' :
  instances_of st' = instances_of st → nodes_of st' = nodes_of st →
  creation st sub req (Err e) st'.
Proof. intros. split; [done|left]. eauto. Qed.

Lemma chosen_same st st1 direct m sto n :
  instances_of st1 = instances_of st → nodes_of st1 = nodes_of st →
  chosen st1 direct m sto n → chosen st direct m sto n.
Proof. unfold chosen. by intros -> ->. Qed.

Lemma CreateInstance_effect sub req w st :
  World_ok w → node_store_ok (nodes_of st) → instance_store_ok (instances_of st) →
  (∀ w', same_oracles w w' →
     MemoryInstanceStore_instances (instances_of st) !! w_uuid w' (w_uuids w') = None) →
  wp (CreateInstance auth wires sub req) (λ r st' _, creation st sub req r st') w st.
Proof.
  intros Hw Hn Hi Hfresh. unfold CreateInstance, authorize. wp_step.
  destruct (@Authorize auth sub _ _) as [[]|e]; [|by apply creation_failed]. cbv zeta.
  fold (prepared req). set (preq := prepared req).
  destruct (with_defaults_spec (req <| CreateInstanceRequest_Name :=
    TrimSpace (ToLower (CreateInstanceRequest_Name req)) |>)) as (Hnm & Hnode & _).
  fold (prepared req) in Hnm, Hnode. fold preq in Hnm, Hnode. rewrite <-Hnm.
  change (CreateInstanceRequest_NodeID preq = CreateInstanceRequest_NodeID req) in Hnode.
  destruct (validName (CreateInstanceRequest_Name preq)) eqn:Hname; [|by apply creation_failed].
  cbn [negb]. wp_step. destruct (instance_type _) as [ty|e]; [|by apply creation_failed]. wp_step.
  apply wp_aside.
  { destruct (has_quota wires); [|apply leaves_quiet, quiet_ret].
    apply leaves_bind; [apply leaves_quiet; unfold caller_id; quiet|]. intros u. apply leaves_quota. }
  { destruct (has_quota wires); [|apply polite_quiet, quiet_ret].
    apply polite_bind; [unfold caller_id; polite|]. intros u.
    apply polite_zoom, polite_zoom, ReserveQuota_polite. }
  intros [[]|e] st1 w1 Ei1 En1 Hw1; [|by apply creation_failed].
  rewrite wp_bind. eapply wp_mono.
  { apply (target_node_spec preq ty w1 st1); [by eapply World_ok_same|by rewrite En1|by rewrite Ei1]. }
  intros r st1' w2 (-> & Hw2 & Hchosen). destruct r as [n|e]; [|by apply creation_failed].
  destruct (Hchosen n eq_refl) as [Hc Hid]. rewrite Hnode in Hc, Hid.
  apply (chosen_same st) in Hc; [|done|done].
  rewrite wp_bind. eapply wp_mono; [apply resolve_image_spec|].
  intros [req'|e] st2 w3 (Ei2 & En2 & Hw3 & Himg); [|apply creation_failed; congruence].
  destruct (Himg req' eq_refl) as [img ->].
  rewrite wp_bind. apply wp_aside; [apply guest_config_aside|apply guest_config_aside|].
  intros [config|e] st3 w4 Ei3 En3 Hw4; [|apply creation_failed; congruence].
  unfold caller_id. destruct sub as [u|]; wp_step; [|apply creation_failed; congruence].
  assert (same_oracles w w4) as Hw04.
  { do 3 (eapply same_oracles_trans; [eassumption|]). done. }
  eapply wp_mono.
  { apply provision_effect; [congruence|]. rewrite Ei3, Ei2, Ei1. by apply Hfresh. }
  intros r st4 w5 [Hn4 [[Hi4 Herr]|(i & Ha & Hm & Ho)]].
  - split; [congruence|left]. split; [congruence|done].
  - split; [congruence|right]. exists u, n, i. split_and!; try done.
    destruct Ha as (H1 & H2 & H3). split; [done|]. split; [done|].
    by rewrite H3, Ei3, Ei2, Ei1.
Qed.

(** *** Power, deletion and the other calls *)

(** A record that keeps its owner, its node, its size and its share of the
    load. *)
Definition same_load (i i' : Instance_) : Prop :=
  Instance__ID i' = Instance__ID i ∧ Instance__UserID i' = Instance__UserID i ∧
  Instance__NodeID i' = Instance__NodeID i ∧ Instance__CPUCores i' = Instance__CPUCores i ∧
  Instance__MemoryBytes i' = Instance__MemoryBytes i ∧
  Instance__StorageBytes i' = Instance__StorageBytes i.

Lemma power_plan_status action force s c t f :
  power_plan action force s = Ok (c, t, f) → t = StatusRunning ∨ t = StatusStopped.
Proof. unfold power_plan. repeat case_decide; intros [= <- <- <-]; auto. Qed.

(** The fleet is the same but for the status of the record [id], which is
    running or stopped now. *)
Definition powered st (id : string) st' : Prop :=
  nodes_of st' = nodes_of st ∧
  (instances_of st' = instances_of st ∨
   ∃ i i' rest, instance_at (instances_of st) id = Some i ∧
     instance_at (instances_of st') id = Some i' ∧ same_load i i' ∧
     (Instance__Status i' = StatusRunning ∨ Instance__Status i' = StatusStopped) ∧
     instance_store_ok (instances_of st') ∧ all_instances (instances_of st) ≡ₚ i :: rest ∧
     all_instances (instances_of st') ≡ₚ i' :: rest).

Lemma powered_same st id st1 st2 :
  powered st id st1 → instances_of st2 = instances_of st1 → nodes_of st2 = nodes_of st1 →
  powered st id st2.
Proof. unfold powered. by intros ? -> ->. Qed.

(** The end of a power action: the audit entry and the event. *)
Lemma leaves_power_report sub inst action id f :
  leaves (actor ← caller_id (St := env) sub;
    audit_instance actor ("instance.power." +:+ action) id 200
      [("action", AnyStr action); ("force", AnyBool f)] ;;
    (if decide (power_event action ≠ "") then publish_instance wires inst actor (power_event action)
       [("name", AnyStr (Instance__Name inst));
        ("status", AnyStr (instance_status_text (Instance__Status inst)));
        ("action", AnyStr action)]
     else mret ()) ;; mret inst).
Proof.
  apply leaves_bind; [apply leaves_quiet; unfold caller_id; quiet|]. intros actor.
  apply leaves_bind; [apply leaves_audit|]. intros _.
  apply leaves_bind; [case_decide; [apply leaves_publish|apply leaves_quiet, quiet_ret]|].
  intros _. apply leaves_quiet, quiet_ret.
Qed.

Lemma PowerAction_effect sub id action force w st :
  instance_store_ok (instances_of st) →
  wp (PowerAction auth wires sub id action force) (λ _ st' _, powered st id st') w st.
Proof.
  intros Hok. unfold PowerAction. rewrite wp_bind. apply wp_quiet; [apply quiet_open|].
  intros [inst|e] w1 _; [|by split; [|left]]. rewrite wp_bind, wp_lift.
  destruct (power_plan _ _ _) as [[[cmd sta] f]|e] eqn:Hplan; [|by split; [|left]].
  apply power_plan_status in Hplan. rewrite wp_bind. apply wp_send. intros r st1 w2 Ei En.
  destruct (command_failure r); [by split; [|left]|].
  rewrite wp_bind. apply wp_mark; [by rewrite Ei|..].
  - intros _. apply wp_leaves; [apply leaves_power_report|]. intros _ st' w' E1 E2.
    split; [congruence|left; congruence].
  - intros i rest st' w' Hi Hok' Hn i' Hi' Hp Hp'. apply wp_leaves; [apply leaves_power_report|].
    intros _ st2 w3 E1 E2. apply (powered_same _ _ st'); [|done|done].
    split; [congruence|right]. rewrite Ei in Hi, Hp. exists i, i', rest. split_and!; try done.
    + subst i'. unfold same_load, marked. repeat case_decide; by cbn.
    + subst i'. unfold marked. by repeat case_decide.
Qed.

(** A deletion removes the record it names or leaves the fleet alone. *)
Lemma DeleteInstance_effect sub id force w st :
  instance_store_ok (instances_of st) →
  wp (DeleteInstance auth wires sub id force) (λ r st' _,
    nodes_of st' = nodes_of st ∧
    (instances_of st' = instances_of st ∨
     ∃ i, instance_at (instances_of st) id = Some i ∧ instance_store_ok (instances_of st') ∧
       all_instances (instances_of st) ≡ₚ i :: all_instances (instances_of st'))) w st.
Proof.
  intros Hok. unfold DeleteInstance. rewrite wp_bind. apply wp_quiet; [apply quiet_open|].
  intros [inst|e] w1 _; [|by auto]. rewrite wp_bind. apply wp_send. intros r st1 w2 Ei En.
  rewrite wp_bind, wp_on_instances. rewrite <-En, <-Ei in *.
  pose proof (InstanceDelete_run id w2 (instances_of st1) Hok) as Hrun.
  pose proof (InstanceDelete_ok id w2 (instances_of st1) Hok) as Hok'. unfold exec in Hok'.
  destruct (instance_at (instances_of st1) id) as [i|].
  2:{ apply (proj2 (wp_run _ _ _ _ _ _ _ Hrun)). destruct st1 as [[] ?]. by auto. }
  destruct Hrun as (s' & Hrun & Hp). apply (proj2 (wp_run _ _ _ _ _ _ _ Hrun)).
  rewrite Hrun in Hok'. cbn in Hok'. apply wp_leaves.
  { apply leaves_bind; [destruct (has_quota wires);
      [apply leaves_ignore, leaves_quota|apply leaves_quiet, quiet_ret]|]. intros _.
    apply leaves_bind; [apply leaves_quiet; unfold caller_id; quiet|]. intros actor.
    apply leaves_bind; [apply leaves_audit|]. intros _. apply leaves_publish. }
  intros _ st' w' E1 E2. split; [by rewrite E2|right]. rewrite E1. by exists i.
Qed.
End effects.

(** ** Histories of calls *)

Section histories.
Context {G Q E T A : Type}.
Context `{!NodeGateway G, !NodeGatewayLaws G, !QuotaValidator Q, !QuotaValidatorLaws Q,
          !EventPublisher E, !TemplateLookup T, !TemplateLookupLaws T, !AuditRepository A,
          !SortSlice}.
Context (auth : Authorizer) (wires : Wiring).
Abbreviation env := (ComputeEnv G Q E T * A)%type.
Implicit Types (st : env).

(** An identifier the generators can still hand out is not in use. *)
Definition fresh_ids (w : World) st : Prop := ∀ w', same_oracles w w' →
  MemoryInstanceStore_instances (instances_of st) !! w_uuid w' (w_uuids w') = None.

(** One call by anyone that does not name a node; everything that leaves the
    instances and the node records alone may happen in between. *)
Inductive fleet_step : env → env → Prop :=
  | f_create w st sub req : World_ok w → fresh_ids w st → CreateInstanceRequest_NodeID req = "" →
      fleet_step st (exec (CreateInstance auth wires sub req) w st)
  | f_power w st sub id action force :
      fleet_step st (exec (PowerAction auth wires sub id action force) w st)
  | f_delete w st sub id force : fleet_step st (exec (DeleteInstance auth wires sub id force) w st)
  | f_other X (m : go env X) w st : leaves m → fleet_step st (exec m w st).

(** A live record with a positive size. *)
Definition sized (i : Instance_) : Prop :=
  0 < Instance__MemoryBytes i ∧ 0 < Instance__StorageBytes i ∧ holds_resources i.

(** Every node has room for what it hosts. *)
Definition roomy st : Prop := ∀ n, node_at (nodes_of st) (Node_ID n) = Some n →
  memory_on (all_instances (instances_of st)) (Node_ID n) ≤ maxMemoryBytes n ∧
  storage_on (all_instances (instances_of st)) (Node_ID n) ≤ maxStorageBytes n.

Record fleet_ok st : Prop := {
  fo_nodes : node_store_ok (nodes_of st);
  fo_instances : instance_store_ok (instances_of st);
  fo_disks : ∀ n, node_at (nodes_of st) (Node_ID n) = Some n → Node_StorageBytes n < 2 ^ 63;
  fo_sized : Forall sized (all_instances (instances_of st));
  fo_roomy : roomy st
}.

Lemma sized_nonneg l id : Forall sized l → 0 ≤ memory_on l id ∧ 0 ≤ storage_on l id.
Proof.
  intros Hl. split; apply total_hosted_nonneg; (eapply Forall_impl; [exact Hl|]);
    intros i (? & ? & _); lia.
Qed.

(** A fleet that gets a list of records with no more load anywhere. *)
Lemma fleet_ok_lighter st st' :
  fleet_ok st → nodes_of st' = nodes_of st → instance_store_ok (instances_of st') →
  Forall sized (all_instances (instances_of st')) →
  (∀ n, node_at (nodes_of st) (Node_ID n) = Some n →
     memory_on (all_instances (instances_of st')) (Node_ID n) ≤
       memory_on (all_instances (instances_of st)) (Node_ID n) ∧
     storage_on (all_instances (instances_of st')) (Node_ID n) ≤
       storage_on (all_instances (instances_of st)) (Node_ID n)) →
  fleet_ok st'.
Proof.
  intros [H1 H2 H3 H4 H5] Hn Hi Hs Hle. split; rewrite ?Hn; try done.
  intros n Hat. rewrite Hn in Hat. destruct (H5 n Hat). destruct (Hle n Hat). lia.
Qed.

Lemma on_cons i l id :
  memory_on (i :: l) id = share Instance__MemoryBytes i id + memory_on l id ∧
  storage_on (i :: l) id = share Instance__StorageBytes i id + storage_on l id.
Proof. split; apply total_hosted_cons. Qed.

Lemma on_perm l l' id : l ≡ₚ l' → memory_on l id = memory_on l' id ∧
  storage_on l id = storage_on l' id.
Proof. intros Hp. split; by apply total_hosted_perm. Qed.

Lemma created_fleet_ok st st' n i owner preq r :
  fleet_ok st → nodes_of st' = nodes_of st → added st st' i → made_for owner n preq i →
  outcome r i → 0 < CreateInstanceRequest_MemoryBytes preq →
  0 < CreateInstanceRequest_StorageBytes preq →
  has_scheduler wires = true →
  chosen wires st false (CreateInstanceRequest_MemoryBytes preq)
    (CreateInstanceRequest_StorageBytes preq) n →
  fleet_ok st'.
Proof.
  intros Hok Hn (Hi & _ & Hall) (_ & Hnode & _ & _ & Hm & Hs) Hout Hmp Hsp Hsch (Hat & _ & Hfit).
  destruct Hok as [H1 H2 H3 H4 H5].
  assert (sized i) as Hsz.
  { split_and!; [lia|lia|]. unfold holds_resources. destruct r as [inst|e]; cbn in Hout.
    - destruct Hout as [_ [-> | ->]]; done.
    - by destruct Hout as [-> _]. }
  split; rewrite ?Hn; [done|done|done|rewrite Hall; by constructor|].
  intros n' Hat'. rewrite Hn in Hat'.
  destruct (on_perm _ _ (Node_ID n') Hall) as [-> ->].
  destruct (on_cons i (all_instances (instances_of st)) (Node_ID n')) as [-> ->].
  destruct (H5 n' Hat') as [Hm5 Hs5]. unfold share. rewrite Hnode.
  destruct (decide (holds_resources i ∧ Node_ID n = Node_ID n')) as [[_ Heq]|]; [|lia].
  assert (n' = n) as -> by (rewrite Heq in Hat; congruence).
  destruct (sized_nonneg (all_instances (instances_of st)) (Node_ID n) H4) as [Hm0 Hs0].
  pose proof (maxMemoryBytes_range n).
  assert (maxStorageBytes n < 2 ^ 63)
    by (unfold maxStorageBytes; specialize (H3 n Hat); case_decide; lia).
  destruct (Hfit eq_refl Hsch (H3 n Hat) ltac:(lia) ltac:(lia)). lia.
Qed.

Lemma powered_fleet_ok st st' id : fleet_ok st → powered st id st' → fleet_ok st'.
Proof.
  intros Hok [Hn [Hi|(i & i' & rest & _ & _ & Hl & Hst & Hi' & Hp & Hp')]].
  { apply (fleet_ok_lighter st); try done; rewrite ?Hi; try apply Hok. done. }
  destruct Hl as (_ & _ & Hnode & _ & Hm & Hso).
  pose proof (fo_sized st Hok) as Hsz. rewrite Hp in Hsz. apply Forall_cons in Hsz as [Hsi Hr].
  destruct Hsi as (Hm0 & Hs0 & Hh).
  assert (holds_resources i') as Hh' by (split; destruct Hst as [-> | ->]; done).
  apply (fleet_ok_lighter st); [done|done|done| |].
  - rewrite Hp'. constructor; [|done]. split_and!; [lia|lia|done].
  - intros n _. destruct (on_perm _ _ (Node_ID n) Hp) as [-> ->].
    destruct (on_perm _ _ (Node_ID n) Hp') as [-> ->].
    destruct (on_cons i rest (Node_ID n)) as [-> ->].
    destruct (on_cons i' rest (Node_ID n)) as [-> ->]. unfold share.
    rewrite Hnode, Hm, Hso. repeat case_decide; try lia; tauto.
Qed.

Lemma removed_fleet_ok st st' i :
  fleet_ok st → nodes_of st' = nodes_of st → instance_store_ok (instances_of st') →
  all_instances (instances_of st) ≡ₚ i :: all_instances (instances_of st') → fleet_ok st'.
Proof.
  intros Hok Hn Hi' Hp.
  pose proof (fo_sized st Hok) as Hsz. rewrite Hp in Hsz. apply Forall_cons in Hsz as [Hsi Hr].
  apply (fleet_ok_lighter st); [done|done|done|done|].
  intros n _. destruct (on_perm _ _ (Node_ID n) Hp) as [-> ->].
  destruct (on_cons i (all_instances (instances_of st')) (Node_ID n)) as [-> ->].
  destruct Hsi as (? & ? & _). unfold share. case_decide; lia.
Qed.

Lemma same_fleet_ok st st' :
  fleet_ok st → instances_of st' = instances_of st → nodes_of st' = nodes_of st → fleet_ok st'.
Proof. intros [H1 H2 H3 H4 H5] Hi Hn. split; unfold roomy in *; by rewrite ?Hi, ?Hn. Qed.

Lemma fleet_step_ok st st' :
  has_scheduler wires = true → fleet_step st st' → fleet_ok st → fleet_ok st'.
Proof.
  intros Hsch Hs Hok. pose proof (fo_instances st Hok) as Hio.
  destruct Hs as [w st sub req Hw Hf Hdir|w st sub id action force|w st sub id force|X m w st Hm].
  - pose proof (CreateInstance_effect auth wires sub req w st Hw (fo_nodes st Hok) Hio Hf)
      as Hwp%wp_elim.
    destruct Hwp as [Hn [[Hi _]|(u & n & i & _ & _ & Hc & _ & Ha & Hm & Ho)]];
      [by apply (same_fleet_ok st)|].
    rewrite bool_decide_eq_false_2 in Hc by (intros Hne; done).
    destruct (with_defaults_spec (req <| CreateInstanceRequest_Name :=
      TrimSpace (ToLower (CreateInstanceRequest_Name req)) |>)) as (_ & _ & _ & Hmp & Hsp).
    by eapply created_fleet_ok.
  - pose proof (PowerAction_effect auth wires sub id action force w st Hio) as Hwp%wp_elim.
    by eapply powered_fleet_ok.
  - pose proof (DeleteInstance_effect auth wires sub id force w st Hio) as Hwp%wp_elim.
    destruct Hwp as [Hn [Hi|(i & _ & Hi' & Hp)]]; [by apply (same_fleet_ok st)|].
    by eapply removed_fleet_ok.
  - destruct (Hm w st) as [Hi Hn]. by apply (same_fleet_ok st).
Qed.


(** C12 what a creation makes: an instance of the caller with the normalised
    name, the requested sizes and their defaults, running or stopped, on the
    node that was asked for or on one that takes work; a failing creation
    leaves the fleet alone or, when the agent refused, one record in error. *)
Theorem CreateInstance_spec sub req w st :
  World_ok w → node_store_ok (nodes_of st) → instance_store_ok (instances_of st) →
  fresh_ids w st →
  let st' := exec (CreateInstance auth wires sub req) w st in
  nodes_of st' = nodes_of st ∧
  match answer (CreateInstance auth wires sub req) w st with
  | Ok inst => ∃ u n t, sub = Some u ∧ made_for (Subject_UserID u) n (prepared req) inst ∧
      validName (Instance__Name inst) = true ∧ 0 < Instance__CPUCores inst ∧
      0 < Instance__MemoryBytes inst ∧ 0 < Instance__StorageBytes inst ∧
      (Instance__Status inst = StatusRunning ∨ Instance__Status inst = StatusStopped) ∧
      node_at (nodes_of st) (Node_ID n) = Some n ∧ IsSchedulable n = true ∧
      (CreateInstanceRequest_NodeID req ≠ "" → Node_ID n = CreateInstanceRequest_NodeID req) ∧
      instance_at (instances_of st') (Instance__ID inst) =
        Some (inst <| Instance__UpdatedAt := t |>) ∧
      all_instances (instances_of st') ≡ₚ
        inst <| Instance__UpdatedAt := t |> :: all_instances (instances_of st)
  | Err e => instances_of st' = instances_of st ∨
      ∃ u i, sub = Some u ∧ errors_Is e ErrInstanceOperationFailed = true ∧
        Instance__UserID i = Subject_UserID u ∧ Instance__Status i = StatusError ∧
        all_instances (instances_of st') ≡ₚ i :: all_instances (instances_of st)
  end.
Proof.
  intros Hw Hn Hi Hf st'.
  pose proof (CreateInstance_effect auth wires sub req w st Hw Hn Hi Hf) as Hwp%wp_elim.
  destruct Hwp as [Hn' Hcase]. split; [done|]. fold st' in Hcase.
  destruct (answer _ w st) as [inst|e]; destruct Hcase as [[Hs [e' He]]|Hcase]; try done.
  - destruct Hcase as (u & n & i & -> & Hname & (Hat & Hsc & _) & Hid & (_ & Hi' & Hp) & Hm & Ho).
    destruct Ho as [[t ->] Hst]. exists u, n, t.
    destruct (with_defaults_spec (req <| CreateInstanceRequest_Name :=
      TrimSpace (ToLower (CreateInstanceRequest_Name req)) |>)) as (_ & _ & Hc & Hmm & Hss).
    pose proof Hm as (_ & _ & En & Ec & Em & Es). cbn in En, Ec, Em, Es.
    split_and!; try done; rewrite ?En, ?Ec, ?Em, ?Es; done.
  - by left.
  - right. destruct Hcase as (u & n & i & -> & _ & _ & _ & (_ & _ & Hp) & (Hu & _) & [Hst He]).
    by exists u, i.
Qed.

Lemma open_instance_refused `{!@AuthorizerLaws auth} s action id i st w :
  instance_store_ok (instances_of st) → instance_at (instances_of st) id = Some i →
  Instance__UserID i ≠ "" → Instance__UserID i ≠ Subject_UserID s →
  (∀ role, role ∈ ["superadmin"; "admin"; "operator"] → HasRole s role = false) →
  refused (open_instance (G := G) (Q := Q) (E := E) (T := T) (A := A) auth (Some s) action id) st w.
Proof.
  intros Hok Hi Ho Hne Hroles. destruct st as [[ins g q e t] a]. unfold instances_of in *. cbn in *.
  destruct (@Authorize auth (Some s) action (Some (Instance_Resource i))) as [[]|err] eqn:Ha.
  - exfalso. destruct (authorize_tenant _ _ _ Ha Ho) as [?|(role & Hr & Hin)]; [done|].
    by rewrite Hroles in Hr.
  - exists err, w. unfold open_instance, on_instances, on_store, zoom, authorize, lift.
    unfold mbind, go_bind. cbn. rewrite InstanceGetByID_run by done. rewrite Hi. cbn. by rewrite Ha.
Qed.

(** C9 tenants are isolated: a caller without an administrative role gets an
    error from every call on an instance of another tenant, its files, its
    backups and its snapshots included, and nothing changes. *)
Theorem foreign_instance_denied `{!@AuthorizerLaws auth} (s : Subject) (id : string)
    (i : Instance_) st (w : World) :
  instance_store_ok (instances_of st) → instance_at (instances_of st) id = Some i →
  Instance__UserID i ≠ "" → Instance__UserID i ≠ Subject_UserID s →
  (∀ role, role ∈ ["superadmin"; "admin"; "operator"] → HasRole s role = false) →
  refused (GetInstance auth (Some s) id) st w ∧
  (∀ action force, refused (PowerAction auth wires (Some s) id action force) st w) ∧
  (∀ force, refused (DeleteInstance auth wires (Some s) id force) st w) ∧
  (∀ cpu mem sto, refused (UpdateInstanceSpec auth (Some s) id cpu mem sto) st w) ∧
  (∀ path, refused (ListGuestFiles auth (Some s) id path) st w ∧
     refused (ReadGuestFile auth (Some s) id path) st w ∧
     (∀ size dir, refused (WriteGuestFile auth (Some s) id path size dir) st w) ∧
     refused (DeleteGuestFile auth (Some s) id path) st w) ∧
  refused (ListBackups auth (Some s) id) st w ∧
  (∀ name, refused (CreateBackup auth (Some s) id name) st w) ∧
  (∀ b, refused (RestoreBackup auth (Some s) id b) st w ∧
     refused (DeleteBackup auth (Some s) id b) st w) ∧
  refused (ListSnapshots auth (Some s) id) st w ∧
  (∀ name stateful, refused (CreateSnapshot auth (Some s) id name stateful) st w) ∧
  (∀ sn, refused (RestoreSnapshot auth (Some s) id sn) st w ∧
     refused (DeleteSnapshot auth (Some s) id sn) st w).
Proof.
  intros Hok Hi Ho Hne Hroles.
  assert (∀ action, refused (open_instance (G := G) (Q := Q) (E := E) (T := T) (A := A)
    auth (Some s) action id) st w) as Hden by (intros; by eapply open_instance_refused).
  split_and!; intros; try split_and!; intros; try apply Hden; try apply refused_bind, Hden;
    apply refused_bind, refused_bind, Hden.
Qed.

(** The calls on files, backups and snapshots leave the fleet alone. *)
Lemma guest_calls_leave sub id :
  (∀ path, leaves (ListGuestFiles (G := G) (Q := Q) (E := E) (T := T) (A := A) auth sub id path)) ∧
  (∀ path size dir,
     leaves (WriteGuestFile (G := G) (Q := Q) (E := E) (T := T) (A := A) auth sub id path size dir)) ∧
  (∀ b, leaves (RestoreBackup (G := G) (Q := Q) (E := E) (T := T) (A := A) auth sub id b)) ∧
  (∀ sn, leaves (RestoreSnapshot (G := G) (Q := Q) (E := E) (T := T) (A := A) auth sub id sn)).
Proof.
  assert (∀ action, leaves (open_instance (G := G) (Q := Q) (E := E) (T := T) (A := A) auth sub
    action id)) as Ho by (intros; apply leaves_quiet, quiet_open).
  assert (∀ action code det, leaves (audit_call (G := G) (Q := Q) (E := E) (T := T) (A := A) sub
    action id code det)) as Ha.
  { intros. apply leaves_bind; [apply leaves_quiet; unfold caller_id; quiet|].
    intros actor. apply leaves_audit. }
  assert (∀ action path, leaves (open_path (G := G) (Q := Q) (E := E) (T := T) (A := A) auth sub
    action id path)) as Hp.
  { intros. apply leaves_bind; [apply Ho|]. intros inst. apply leaves_quiet. quiet. }
  split_and!; intros.
  - apply leaves_bind; [apply Hp|]. intros [inst path']. apply leaves_bind;
      [apply leaves_quiet, quiet_now|]. intros now. apply leaves_bind; [apply Ha|].
    intros _. apply leaves_quiet, quiet_ret.
  - apply leaves_bind; [apply Hp|]. intros [inst path']. case_decide;
      [apply leaves_quiet, quiet_fail|apply Ha].
  - apply leaves_bind; [apply Ho|]. intros _. apply Ha.
  - apply leaves_bind; [apply Ho|]. intros _. apply Ha.
Qed.
End histories.

(** ** A concrete cloud *)

Section demo.
#[local] Existing Instances tagging_digest EventRecorder InsertionSort.

(** A registry without templates. *)
#[local] Instance no_templates : TemplateLookup () := {
  GetTemplate_ := λ _ _, fail (ErrNew "template" "template not found");
  FindCompatibleImage_ := λ _ _ _, fail ErrNoCompatibleImage;
  ValidateCloudInit_ := λ _ c, lift (Validate (Some c))
}.
#[local] Instance no_templates_laws : TemplateLookupLaws ().
Proof. split; intros; cbn; polite. Qed.

Abbreviation Cloud := (ComputeEnv Loopback BillingStore (list Event) () * AuditStore)%type.

Definition wired : Wiring := mkWiring false true true true.
Definition accepted : result CommandResult := Ok (mkCommandResult "" true "" None 0).
Definition offline : result CommandResult := Err ErrNodeOffline.

Definition cloud (reply : result CommandResult) (b : BillingStore) : Cloud :=
  (mkComputeEnv NewMemoryInstanceStore (mkLoopback (ss_nodes demo_cluster) reply []) b [] (),
   empty_audit).

(** The same cloud after the agents' answers changed to [reply]. *)
Definition answering (reply : result CommandResult) (st : Cloud) : Cloud :=
  (mkComputeEnv (ce_instances st.1)
     (mkLoopback (lb_nodes (ce_nodes st.1)) reply (lb_sent (ce_nodes st.1)))
     (ce_quota st.1) (ce_events st.1) (ce_templates st.1), st.2).

Definition acme : Subject :=
  mkSubject "user" "acme" "acme" "ann" "" ["user"]
    ["instance:create"; "instance:delete"; "instance:update"; "instance:read"; "instance:power"]
    [] ∅.
Definition vm (name node : string) (mem : Z) : CreateInstanceRequest :=
  mkCreateInstanceRequest name "" 1 mem (2 ^ 30) "" "" "" None node None true.

Definition create (req : CreateInstanceRequest) : go Cloud Instance_ :=
  CreateInstance DynamicAuthorizer wired (Some acme) req.
Definition instances_used (st : Cloud) : Z := usage (ce_quota st.1) "acme" MetricInstanceCount.

Definition one_vm : Cloud :=
  exec (create (vm "web" "" (2 ^ 28))) (named "a") (cloud accepted demo_store).

(** A creation the agent does not answer gives the quota back but leaves a
    record in error; deleting that record gives the quota back again, and the
    instance that still runs is no longer counted. *)
Lemma failed_creation_released_twice :
  let st1 := exec (create (vm "db1" "" (2 ^ 28))) (named "b") (answering offline one_vm) in
  let st2 := exec (DeleteInstance DynamicAuthorizer wired (Some acme) "b0" true) (named "c") st1 in
  instances_used one_vm = 1 ∧ instances_used st1 = 1 ∧ instances_used st2 = 0 ∧
  length (all_instances (instances_of st2)) = 1%nat.
Proof. vm_compute. auto. Qed.

(** A creation that fails after the reservation and before the command keeps
    the quota it reserved. *)
Lemma reservation_leaked :
  let st := exec (create (vm "db1" "nowhere" (2 ^ 28))) (named "b") (cloud accepted demo_store) in
  answer (create (vm "db1" "nowhere" (2 ^ 28))) (named "b") (cloud accepted demo_store) =
    Err (Wrapf "target node not found: node not found" ErrNodeNotFound) ∧
  instances_used st = 1 ∧ all_instances (instances_of st) = [].
Proof. vm_compute. auto. Qed.

(** Naming the node goes past the capacity check. *)
Definition no_limits : Wiring := mkWiring false false false true.
Lemma targeted_creation_overcommits : ∃ i,
  let create_on node := CreateInstance DynamicAuthorizer no_limits (Some acme)
                          (vm "big" node (2 ^ 40)) in
  (∃ e, answer (create_on "") (named "a") (cloud accepted demo_store) = Err e) ∧
  answer (create_on "n1") (named "a") (cloud accepted demo_store) = Ok i ∧
  maxMemoryBytes (demo_host "n1" 4) < Instance__MemoryBytes i.
Proof.
  eexists. split; [eexists; vm_compute; reflexivity|]. split; [vm_compute; reflexivity|].
  by vm_compute.
Qed.

(** A resize asks neither the quota engine nor the scheduler, and the deletion
    gives back the new size. *)
Lemma resize_ignores_limits :
  let st := exec (UpdateInstanceSpec DynamicAuthorizer (Some acme) "a0" 64 (2 ^ 45) (2 ^ 30))
              (named "r") one_vm in
  usage (ce_quota st.1) "acme" MetricVCPUHours = 1 ∧
  (Instance__CPUCores <$> instance_at (instances_of st) "a0") = Some 64 ∧
  usage (ce_quota (exec (DeleteInstance DynamicAuthorizer wired (Some acme) "a0" true) (named "d")
    st).1) "acme" MetricVCPUHours = 0.
Proof. vm_compute. auto. Qed.

(** Restoring a backup that never existed succeeds and sends no command. *)
Lemma restore_does_nothing :
  let m := RestoreBackup DynamicAuthorizer (Some acme) "a0" "no-such-backup" in
  answer m (named "r") one_vm = Ok () ∧
  lb_sent (ce_nodes (exec m (named "r") one_vm).1) = lb_sent (ce_nodes one_vm.1).
Proof. vm_compute. auto. Qed.

(** *** Witnesses *)

Lemma cloud_ok reply b : fleet_ok (cloud reply b).
Proof.
  split.
  - exact demo_nodes_ok.
  - exact instance_store_ok_new.
  - intros n [->| ->]%demo_cluster_nodes; by vm_compute.
  - constructor.
  - intros n _. split; [pose proof (maxMemoryBytes_range n)|].
    + change (0 ≤ maxMemoryBytes n). lia.
    + change (0 ≤ maxStorageBytes n). unfold maxStorageBytes. case_decide; lia.
Qed.


Lemma CreateInstance_spec_witness : ∃ inst,
  answer (create (vm " Web-1" "n2" 0)) (named "a") (cloud accepted demo_store) = Ok inst ∧
  Instance__Name inst = "web-1" ∧ Instance__MemoryBytes inst = 2 ^ 30 ∧
  Instance__NodeID inst = "n2".
Proof.
  pose proof (CreateInstance_spec DynamicAuthorizer wired (Some acme) (vm " Web-1" "n2" 0)
    (named "a") (cloud accepted demo_store) (named_ok "a") (fo_nodes _ (cloud_ok _ _))
    (fo_instances _ (cloud_ok _ _)) (λ w' _, lookup_empty _)) as [_ H].
  change (CreateInstance DynamicAuthorizer wired (Some acme) (vm " Web-1" "n2" 0))
    with (create (vm " Web-1" "n2" 0)) in H.
  destruct (answer (create (vm " Web-1" "n2" 0)) (named "a") (cloud accepted demo_store))
    as [inst|e] eqn:Hans; [|vm_compute in Hans; discriminate Hans].
  exists inst. split; [reflexivity|].
  destruct H as (u & n & t & _ & (_ & Hn & Hname & _ & Hm & _) & _ & _ & _ & _ & _ & _ & _ & Hid & _).
  split; [exact Hname|]. split; [exact Hm|]. rewrite Hn. apply Hid. discriminate.
Defined.

Definition eve : Subject :=
  mkSubject "user" "eve" "eve" "eve" "" ["user"] ["instance:power"; "instance:read"] [] ∅.

Lemma eve_unprivileged role :
  role ∈ ["superadmin"; "admin"; "operator"] → HasRole eve role = false.
Proof.
  rewrite !elem_of_cons. intros [->|[->|[->|Hr]]]; [reflexivity..|by apply not_elem_of_nil in Hr].
Qed.

Lemma foreign_instance_denied_witness :
  ∃ e w', PowerAction DynamicAuthorizer wired (Some eve) "a0" "stop" false (named "z") one_vm =
    (Err e, one_vm, w').
Proof.
  assert (instance_store_ok (instances_of one_vm)) as Hok.
  { apply fo_instances. apply (fleet_step_ok DynamicAuthorizer wired (cloud accepted demo_store));
      [reflexivity| |apply cloud_ok].
    apply f_create; [apply named_ok|intros w' _; apply lookup_empty|reflexivity]. }
  eassert (instance_at (instances_of one_vm) "a0" = Some _) as Hi by (vm_compute; reflexivity).
  refine (proj1 (proj2 (foreign_instance_denied DynamicAuthorizer wired eve "a0" _ one_vm
    (named "z") Hok Hi _ _ _)) "stop" false).
  - discriminate.
  - discriminate.
  - apply eve_unprivileged.
Defined.
End demo.
