(* ===== verification/Provision.v ===== *)
(** * Provisioning from a template

    The compute service of [Compute] over the catalogue of [Catalog]: the
    catalogue keeps the promises of the lookup interface, so every theorem of
    [Compute] holds for the two together, and an instance that was created
    from a template fits it. *)

From S2P Require Import Prelude Identity AuditTrail Events Node Commands Instances Scheduler.
From S2P Require Import Quota Guest Template Catalog Compute.

(** Audit repositories that answer from the clock they are given. *)
Class AuditPolite (A : Type) `{AuditRepository A} :=
  Record_polite : ∀ log, polite (Record_ (A := A) log).

#[export] Instance memory_audit_polite `{Digest} : AuditPolite AuditStore.
Proof. intros log. unfold Record_, MemoryAuditRepo, audit_Record. polite. Qed.

Section lookup.
Context {G A : Type} `{!NodeGateway G, !AuditRepository A, !AuditPolite A}.
Context (auth : Authorizer) (has_audit : bool).
Abbreviation catalog := (CatalogEnv G * A)%type.
#[local] Instance lookup_service : TemplateLookup catalog := catalog_lookup auth has_audit.

Lemma polite_logAudit sub action rid det :
  polite (Catalog.logAudit (G := G) (A := A) has_audit sub action rid det).
Proof.
  unfold Catalog.logAudit. destruct has_audit; [|auto with go]. polite.
Qed.

(** The catalogue implements the lookup interface. *)
Lemma catalog_lookup_laws : TemplateLookupLaws catalog.
Proof.
  split; intros.
  - apply polite_quiet, (quiet_GetTemplate auth).
  - apply polite_quiet. change (quiet (FindCompatibleImage (G := G) (A := A) id arch typ)).
    apply quiet_on_catalog, quiet_image_FindCompatible.
  - change (polite (ValidateCloudInit (G := G) (A := A) has_audit sub (Some c))).
    unfold ValidateCloudInit. destruct (Validate (Some c)); [auto with go|].
    apply polite_bind; [apply polite_logAudit|]. polite.
Qed.
End lookup.

Section provision.
Context {G G' Q E A A' : Type}.
Context `{!NodeGateway G, !NodeGatewayLaws G, !QuotaValidator Q, !QuotaValidatorLaws Q,
          !EventPublisher E, !AuditRepository A, !SortSlice,
          !NodeGateway G', !AuditRepository A', !AuditPolite A'}.
Context (auth : Authorizer) (has_audit : bool) (wires : Wiring).
Abbreviation catalog := (CatalogEnv G' * A')%type.
#[local] Instance catalog_service : TemplateLookup catalog := catalog_lookup auth has_audit.
#[local] Instance catalog_service_laws : TemplateLookupLaws catalog :=
  catalog_lookup_laws auth has_audit.
Abbreviation env := (ComputeEnv G Q E catalog * A)%type.
Implicit Types (st : env).

Definition catalog_of st : CatalogStore := the_catalog (ce_templates st.1).

(** A step whose answer does not matter. *)
Lemma wp_any {St X} (m : go St X) (P : result X → St → World → Prop) w s :
  (∀ r s' w', P r s' w') → wp m P w s.
Proof. intros HP. apply HP. Qed.

(** A step of another component leaves the catalogue alone. *)
Lemma wp_beside {X} (m : go env X) (P : result X → env → World → Prop) w st :
  (∀ w st, catalog_of (exec m w st) = catalog_of st) → polite m →
  (∀ r st' w', catalog_of st' = catalog_of st → same_oracles w w' → P r st' w') → wp m P w st.
Proof. intros Hm Hp HP. rewrite wp_elim. apply HP; [apply Hm|apply Hp]. Qed.

(** The key a request looks its template up with. *)
Definition template_key (req : CreateInstanceRequest) : string :=
  if decide (CreateInstanceRequest_TemplateID req = "")
  then CreateInstanceRequest_TemplateSlug req else CreateInstanceRequest_TemplateID req.

(** What resolving the template [key] guarantees of an instance of type [ty],
    [memory] and [storage] bytes and image [image] on the node [n]. *)
Definition from_template (s : CatalogStore) (key ty : string) (n : Node)
    (memory storage : Z) (image dflt : string) : Prop :=
  ∃ t id img, named_template s key t ∧
    OSTemplate_MinMemoryBytes t ≤ memory ∧ OSTemplate_MinDiskBytes t ≤ storage ∧
    CatalogStore_artifacts s !! id = Some img ∧
    compatible (OSTemplate_ID t) (node_arch n) ty img ∧
    image = (if decide (ImageArtifact_ImageAlias img ≠ "") then ImageArtifact_ImageAlias img
             else if decide (ImageArtifact_IncusFingerprint img ≠ "")
             then ImageArtifact_IncusFingerprint img else dflt).

Lemma resolve_image_template sub req ty n w st :
  World_ok w → has_templates wires = true → template_key req ≠ "" →
  wp (resolve_image wires sub req ty n) (λ r st' w',
    ∀ req', r = Ok req' → ∃ image, req' = req <| CreateInstanceRequest_Image := image |> ∧
      from_template (catalog_of st) (template_key req) ty n
        (CreateInstanceRequest_MemoryBytes req) (CreateInstanceRequest_StorageBytes req)
        image (CreateInstanceRequest_Image req)) w st.
Proof.
  intros Hw Ht Hk. destruct st as [[i g q e t] a]. unfold resolve_image. cbv zeta.
  fold (template_key req). rewrite Ht, bool_decide_eq_true_2 by done. cbn [andb].
  unfold on_templates. rewrite wp_bind, wp_wrap_err, wp_on_store, wp_zoom. cbn.
  eapply wp_mono; [by apply GetTemplate_effect|].
  intros [tmpl|err] t1 w1 (-> & Hw1 & Hget); [|done].
  case_decide; [done|]. case_decide; [done|].
  rewrite wp_bind, wp_wrap_err, wp_on_store, wp_zoom. cbn.
  eapply wp_mono; [apply FindCompatibleImage_effect; by eapply World_ok_same|].
  intros [img|err] t2 w2 (-> & _ & Hfind); [|done]. wp_step.
  destruct Hfind as (id & Hid & Hc). intros req' [= <-].
  eexists. split; [|exists tmpl, id, img; split_and!; [exact Hget|lia|lia|exact Hid|exact Hc|reflexivity]].
  repeat case_decide; try done. by destruct req.
Qed.
(** The record a successful provisioning returns. *)
Lemma provision_answer owner ty n req config spec w st :
  wp (provision (G := G) (Q := Q) (E := E) (T := catalog) (A := A) wires owner ty n req config spec)
    (λ r _ _, ∀ inst, r = Ok inst → Instance__Type_ inst = ty ∧ Instance__NodeID inst = Node_ID n ∧
      Instance__MemoryBytes inst = CreateInstanceRequest_MemoryBytes req ∧
      Instance__StorageBytes inst = CreateInstanceRequest_StorageBytes req ∧
      Instance__Image inst = CreateInstanceRequest_Image req) w st.
Proof.
  unfold provision. rewrite wp_bind, wp_uuid, wp_bind, wp_now, wp_bind, wp_now, wp_bind.
  apply wp_any. intros [[]|e] st1 w1; [|done].
  rewrite wp_bind. apply wp_any. intros [r|e] st2 w2; [|done].
  assert (∀ fl w3 st3, wp (abandon (G := G) (Q := Q) (E := E) (T := catalog) (A := A) wires owner
    (w_uuid w (w_uuids w)) spec fl) (λ r _ _, ∀ inst, r = Ok inst → Instance__Type_ inst = ty ∧
      Instance__NodeID inst = Node_ID n ∧
      Instance__MemoryBytes inst = CreateInstanceRequest_MemoryBytes req ∧
      Instance__StorageBytes inst = CreateInstanceRequest_StorageBytes req ∧
      Instance__Image inst = CreateInstanceRequest_Image req) w3 st3) as Hab'.
  { intros fl w3 st3. unfold abandon. rewrite wp_bind. apply wp_any. intros [[]|e] st4 w4; [|done].
    rewrite wp_bind. apply wp_any. by intros [[]|e] st5 w5. }
  destruct r as [res|e]; [destruct (command_failure _); [apply Hab'|]|apply Hab'].
  unfold complete. repeat (rewrite wp_bind; apply wp_any; intros [[]|?] ? ?; [|done]).
  rewrite wp_ret. by intros inst [= <-].
Qed.

Lemma prepared_template req :
  template_key req ≠ "" → template_key (prepared req) = template_key req ∧
  CreateInstanceRequest_Image (prepared req) = CreateInstanceRequest_Image req.
Proof.
  intros Hk. unfold prepared, with_defaults, template_key in *. destruct req. cbn in *.
  repeat (case_decide; cbn in *); try done; tauto.
Qed.

(** The reservation: what it leaves alone. *)
Definition reserve (sub : option Subject) (spec : ResourceSpec) : go env () :=
  if has_quota wires then owner ← caller_id sub; on_quota (ReserveQuota_ owner spec) else mret ().

Lemma wp_reserve sub spec (P : result () → env → World → Prop) w st :
  (∀ r st' w', instances_of st' = instances_of st → nodes_of st' = nodes_of st →
     catalog_of st' = catalog_of st → same_oracles w w' → P r st' w') →
  wp (reserve sub spec) P w st.
Proof.
  intros HP. unfold reserve. destruct (has_quota wires);
    [|wp_step; apply HP; done || apply same_oracles_refl].
  unfold caller_id. destruct sub as [u|]; wp_step; [|apply HP; done || apply same_oracles_refl].
  destruct st as [[i g q e t] a]. unfold on_quota. rewrite wp_on_store, wp_zoom, wp_elim.
  apply HP; try done. apply ReserveQuota_polite.
Qed.

Lemma templated_run sub req w st :
  World_ok w → node_store_ok (nodes_of st) → instance_store_ok (instances_of st) →
  has_templates wires = true → template_key req ≠ "" →
  wp (CreateInstance auth wires sub req) (λ r _ _, ∀ inst, r = Ok inst →
    ∃ n, node_at (nodes_of st) (Instance__NodeID inst) = Some n ∧ IsSchedulable n = true ∧
      from_template (catalog_of st) (template_key req) (Instance__Type_ inst) n
        (Instance__MemoryBytes inst) (Instance__StorageBytes inst) (Instance__Image inst)
        (CreateInstanceRequest_Image req)) w st.
Proof.
  intros Hw Hn Hi Ht Hk. destruct (prepared_template req Hk) as [Hpk Hpi].
  unfold CreateInstance, authorize. wp_step.
  destruct (@Authorize auth sub _ _) as [[]|e]; [|done]. cbv zeta. fold (prepared req).
  destruct (validName _); [|done]. cbn [negb]. wp_step.
  destruct (instance_type _) as [ty|e]; [|done]. wp_step.
  apply (wp_reserve sub). intros [[]|e] st1 w1 Ei En Ec Hw1; [|done].
  rewrite wp_bind. eapply wp_mono.
  { apply (target_node_spec wires (prepared req) ty w1 st1);
      [by eapply World_ok_same|by rewrite En|by rewrite Ei]. }
  intros [n|e] st1' w2 (-> & Hw2 & Hchosen); [|done].
  destruct (Hchosen n eq_refl) as [(Hat & Hs & _) _]. rewrite En in Hat.
  rewrite wp_bind. eapply wp_mono.
  { apply resolve_image_template; [|done|by rewrite Hpk].
    eapply World_ok_same; [done|]. by eapply World_ok_same. }
  intros [req'|e] st2 w3 Himg; [|done]. destruct (Himg req' eq_refl) as (image & -> & Hfrom).
  rewrite Ec, Hpk, Hpi in Hfrom.
  rewrite wp_bind. apply wp_any. intros [config|e] st3 w4; [|done].
  rewrite wp_bind. apply wp_any. intros [owner|e] st4 w5; [|done].
  eapply wp_mono; [apply provision_answer|]. intros r st5 w6 Hans inst Hr.
  destruct (Hans inst Hr) as (<- & En' & -> & -> & ->). exists n. by rewrite En'.
Qed.

(** C16 An instance created from a template fits it: the template is the one
    the request names, by identifier or slug, the instance has at least its
    minimum memory and disk, and its image is one on offer for the template,
    the type of the instance and the architecture of the node that hosts it. *)
Theorem templated_instance sub req w st inst :
  World_ok w → node_store_ok (nodes_of st) → instance_store_ok (instances_of st) →
  has_templates wires = true → template_key req ≠ "" →
  answer (CreateInstance auth wires sub req) w st = Ok inst →
  ∃ n, node_at (nodes_of st) (Instance__NodeID inst) = Some n ∧ IsSchedulable n = true ∧
    from_template (catalog_of st) (template_key req) (Instance__Type_ inst) n
      (Instance__MemoryBytes inst) (Instance__StorageBytes inst) (Instance__Image inst)
      (CreateInstanceRequest_Image req).
Proof.
  intros Hw Hn Hi Ht Hk Hans.
  exact (proj1 (wp_elim _ _ _ _) (templated_run sub req w st Hw Hn Hi Ht Hk) inst Hans).
Qed.
End provision.

Section demo.
#[local] Existing Instances tagging_digest EventRecorder InsertionSort.

Definition tenant : Subject :=
  mkSubject "user" "acme" "acme" "ann" "" ["user"] ["instance:create"; "template:read"] [] ∅.
Definition from_slug : CreateInstanceRequest :=
  mkCreateInstanceRequest "web" "" 1 (2 ^ 30) (8 * 2 ^ 30) "" "" "Ubuntu-24.04" None "" None true.
Abbreviation Shop := (CatalogEnv Loopback * AuditStore)%type.
Definition fully_wired : Wiring := mkWiring true true true true.

Definition mall : ComputeEnv Loopback BillingStore (list Event) Shop * AuditStore :=
  (mkComputeEnv NewMemoryInstanceStore (mkLoopback (ss_nodes demo_cluster) accepted [])
     demo_store [] shop, empty_audit).

Lemma templated_instance_witness : ∃ inst n,
  answer (@CreateInstance Loopback BillingStore (list Event) Shop AuditStore _ _ _
    (catalog_lookup DynamicAuthorizer true) _ _ DynamicAuthorizer fully_wired (Some tenant)
    from_slug) (named "a") mall = Ok inst ∧
  from_template (NewCatalog 0 0) "Ubuntu-24.04" (Instance__Type_ inst) n
    (Instance__MemoryBytes inst) (Instance__StorageBytes inst) (Instance__Image inst) "".
Proof.
  destruct (answer (@CreateInstance Loopback BillingStore (list Event) Shop AuditStore _ _ _
    (catalog_lookup DynamicAuthorizer true) _ _ DynamicAuthorizer fully_wired (Some tenant)
    from_slug) (named "a") mall) as [inst|e] eqn:Hans; [|vm_compute in Hans; discriminate Hans].
  pose proof (templated_instance DynamicAuthorizer true fully_wired (Some tenant) from_slug
    (named "a") mall inst (named_ok "a") demo_nodes_ok instance_store_ok_new eq_refl
    ltac:(discriminate) Hans) as (n & _ & _ & H).
  exists inst, n. split; [reflexivity|exact H].
Defined.
End demo.
