(* ===== verification/Migration.v ===== *)
(** * Migration of instances between nodes

    [internal/app/migration/service.go] over
    [internal/infra/memory/migration_repo.go]. [Migrate] checks the request,
    files a migration and starts a goroutine; the goroutine is [begin],
    [transfer] and [finish], between which other calls run. *)

From S2P Require Import Prelude Identity AuditTrail Events Node Commands Instances Scheduler.

Definition ErrMigrationNotFound := ErrNew "migration" "migration not found".
Definition ErrPreflightCheckFailed := ErrNew "migration" "migration preflight validation failed".
Definition ErrMigrationInProgress :=
  ErrNew "migration" "workload is already undergoing active migration".

Inductive MigrationStatus : Type :=
  | MigPending | MigValidating | MigReserving | MigTransferring | MigVerifying | MigCompleted
  | MigFailed | MigCanceled | MigRolledBack.
#[export] Instance MigrationStatus_eq_dec : EqDecision MigrationStatus.
Proof. solve_decision. Defined.

Definition mig_IsTerminal (s : MigrationStatus) : bool :=
  match s with
  | MigCompleted | MigFailed | MigCanceled | MigRolledBack => true
  | _ => false
  end.

Definition TypeLive : string := "live".
Definition TypeCold : string := "cold".

Record PreflightValidation : Type := mkPreflightValidation {
  PreflightValidation_CompatibleArch : bool;
  PreflightValidation_ImageAvailable : bool;
  PreflightValidation_StorageAvailable : bool;
  PreflightValidation_NetworkAvailable : bool;
  PreflightValidation_DestinationHealthy : bool;
  PreflightValidation_CPUCapacityOK : bool;
  PreflightValidation_MemoryCapacityOK : bool;
  PreflightValidation_StorageCapacityOK : bool;
  PreflightValidation_FailureReason : string
}.

Definition eta_PreflightValidation (r : PreflightValidation) : PreflightValidation :=
  mkPreflightValidation (PreflightValidation_CompatibleArch r)
    (PreflightValidation_ImageAvailable r) (PreflightValidation_StorageAvailable r)
    (PreflightValidation_NetworkAvailable r) (PreflightValidation_DestinationHealthy r)
    (PreflightValidation_CPUCapacityOK r) (PreflightValidation_MemoryCapacityOK r)
    (PreflightValidation_StorageCapacityOK r) (PreflightValidation_FailureReason r).
#[export] Instance set_PreflightValidation_CompatibleArch : Setter PreflightValidation_CompatibleArch := ltac:(setter eta_PreflightValidation PreflightValidation_CompatibleArch).
#[export] Instance set_PreflightValidation_CPUCapacityOK : Setter PreflightValidation_CPUCapacityOK := ltac:(setter eta_PreflightValidation PreflightValidation_CPUCapacityOK).
#[export] Instance set_PreflightValidation_MemoryCapacityOK : Setter PreflightValidation_MemoryCapacityOK := ltac:(setter eta_PreflightValidation PreflightValidation_MemoryCapacityOK).
#[export] Instance set_PreflightValidation_StorageCapacityOK : Setter PreflightValidation_StorageCapacityOK := ltac:(setter eta_PreflightValidation PreflightValidation_StorageCapacityOK).
#[export] Instance set_PreflightValidation_FailureReason : Setter PreflightValidation_FailureReason := ltac:(setter eta_PreflightValidation PreflightValidation_FailureReason).

Definition Passed (p : PreflightValidation) : bool :=
  PreflightValidation_CompatibleArch p && PreflightValidation_ImageAvailable p &&
  PreflightValidation_StorageAvailable p && PreflightValidation_NetworkAvailable p &&
  PreflightValidation_DestinationHealthy p && PreflightValidation_CPUCapacityOK p &&
  PreflightValidation_MemoryCapacityOK p && PreflightValidation_StorageCapacityOK p &&
  bool_decide (PreflightValidation_FailureReason p = "").

Record Migration : Type := mkMigration {
  Migration_ID : string;
  Migration_TenantID : string;
  Migration_InstanceID : string;
  Migration_SourceNodeID : string;
  Migration_DestNodeID : string;
  Migration_Type_ : string;
  Migration_Status : MigrationStatus;
  Migration_Preflight : PreflightValidation;
  Migration_ProgressPercent : Z;
  Migration_BytesTransferred : Z;
  Migration_TotalBytes : Z;
  Migration_Error : string;
  Migration_StartedAt : option Z;
  Migration_CompletedAt : option Z;
  Migration_CreatedAt : Z;
  Migration_UpdatedAt : Z
}.

Definition eta_Migration (r : Migration) : Migration :=
  mkMigration (Migration_ID r) (Migration_TenantID r) (Migration_InstanceID r)
    (Migration_SourceNodeID r) (Migration_DestNodeID r) (Migration_Type_ r)
    (Migration_Status r) (Migration_Preflight r) (Migration_ProgressPercent r)
    (Migration_BytesTransferred r) (Migration_TotalBytes r) (Migration_Error r)
    (Migration_StartedAt r) (Migration_CompletedAt r) (Migration_CreatedAt r)
    (Migration_UpdatedAt r).
#[export] Instance set_Migration_ID : Setter Migration_ID := ltac:(setter eta_Migration Migration_ID).
#[export] Instance set_Migration_Status : Setter Migration_Status := ltac:(setter eta_Migration Migration_Status).
#[export] Instance set_Migration_ProgressPercent : Setter Migration_ProgressPercent := ltac:(setter eta_Migration Migration_ProgressPercent).
#[export] Instance set_Migration_BytesTransferred : Setter Migration_BytesTransferred := ltac:(setter eta_Migration Migration_BytesTransferred).
#[export] Instance set_Migration_TotalBytes : Setter Migration_TotalBytes := ltac:(setter eta_Migration Migration_TotalBytes).
#[export] Instance set_Migration_Error : Setter Migration_Error := ltac:(setter eta_Migration Migration_Error).
#[export] Instance set_Migration_StartedAt : Setter Migration_StartedAt := ltac:(setter eta_Migration Migration_StartedAt).
#[export] Instance set_Migration_CompletedAt : Setter Migration_CompletedAt := ltac:(setter eta_Migration Migration_CompletedAt).
#[export] Instance set_Migration_CreatedAt : Setter Migration_CreatedAt := ltac:(setter eta_Migration Migration_CreatedAt).
#[export] Instance set_Migration_UpdatedAt : Setter Migration_UpdatedAt := ltac:(setter eta_Migration Migration_UpdatedAt).

Definition Migration_Resource (m : Migration) : Resource :=
  mkResource "migration" (Migration_ID m) (Migration_TenantID m) "".

(** The empty [Status] of a filter is [None]. *)
Record MigrationFilter : Type := mkMigrationFilter {
  MigrationFilter_TenantID : string;
  MigrationFilter_InstanceID : string;
  MigrationFilter_SourceNodeID : string;
  MigrationFilter_DestNodeID : string;
  MigrationFilter_Status : option MigrationStatus;
  MigrationFilter_Limit : Z;
  MigrationFilter_Offset : Z
}.

Definition eta_MigrationFilter (r : MigrationFilter) : MigrationFilter :=
  mkMigrationFilter (MigrationFilter_TenantID r) (MigrationFilter_InstanceID r)
    (MigrationFilter_SourceNodeID r) (MigrationFilter_DestNodeID r)
    (MigrationFilter_Status r) (MigrationFilter_Limit r) (MigrationFilter_Offset r).
#[export] Instance set_MigrationFilter_TenantID : Setter MigrationFilter_TenantID := ltac:(setter eta_MigrationFilter MigrationFilter_TenantID).

(** ** The repository *)

Abbreviation MigrationStore := (gmap string Migration).

Definition mig_Create (m : Migration) : go MigrationStore Migration :=
  id ← (if decide (Migration_ID m = "") then uuid_NewString else mret (Migration_ID m));
  now ← time_Now;
  let m := m <| Migration_ID := id |> in
  let m := if decide (IsZero (Migration_CreatedAt m)) then m <| Migration_CreatedAt := now |>
           else m in
  let m := m <| Migration_UpdatedAt := now |> in
  modify <[id := m]> ;;
  mret m.

Definition mig_GetByID (id : string) : go MigrationStore Migration :=
  s ← get;
  match s !! id with Some m => mret m | None => fail ErrMigrationNotFound end.

Definition active_for (instanceID : string) (m : Migration) : Prop :=
  Migration_InstanceID m = instanceID ∧ mig_IsTerminal (Migration_Status m) = false.
#[export] Instance active_for_dec i m : Decision (active_for i m).
Proof. unfold active_for. apply _. Defined.

Definition GetActiveForInstance (instanceID : string) : go MigrationStore (option Migration) :=
  s ← get; find_in s (active_for instanceID).

Definition migration_matches (f : MigrationFilter) (m : Migration) : Prop :=
  (MigrationFilter_TenantID f = "" ∨ Migration_TenantID m = MigrationFilter_TenantID f) ∧
  (MigrationFilter_InstanceID f = "" ∨ Migration_InstanceID m = MigrationFilter_InstanceID f) ∧
  (MigrationFilter_SourceNodeID f = "" ∨ Migration_SourceNodeID m = MigrationFilter_SourceNodeID f) ∧
  (MigrationFilter_DestNodeID f = "" ∨ Migration_DestNodeID m = MigrationFilter_DestNodeID f) ∧
  (MigrationFilter_Status f = None ∨ Some (Migration_Status m) = MigrationFilter_Status f).
#[export] Instance migration_matches_dec f m : Decision (migration_matches f m).
Proof. unfold migration_matches. apply _. Defined.

Definition migration_newer (a b : Migration) : bool :=
  bool_decide (Migration_CreatedAt b < Migration_CreatedAt a).

Definition mig_List `{SortSlice} (f : MigrationFilter) : go MigrationStore (list Migration * Z) :=
  s ← get;
  matched ← list_in s (migration_matches f);
  let matched := sort_Slice migration_newer matched in
  items ← lift (window matched (MigrationFilter_Limit f) (MigrationFilter_Offset f));
  mret (items, Z.of_nat (length matched)).

Definition with_status (status : MigrationStatus) (progress : Z) (errStr : string) (now : Z)
    (m : Migration) : Migration :=
  let m := m <| Migration_Status := status |> <| Migration_ProgressPercent := progress |>
             <| Migration_Error := errStr |> <| Migration_UpdatedAt := now |> in
  let m := if decide (status = MigTransferring ∧ Migration_StartedAt m = None)
           then m <| Migration_StartedAt := Some now |> else m in
  if decide (mig_IsTerminal status = true ∧ Migration_CompletedAt m = None)
  then m <| Migration_CompletedAt := Some now |> else m.

Definition mig_UpdateStatus (id : string) (status : MigrationStatus) (progress : Z)
    (errStr : string) : go MigrationStore () :=
  m ← mig_GetByID id;
  now ← time_Now;
  modify <[id := with_status status progress errStr now m]>.

Definition mig_UpdateProgress (id : string) (progress transferred total : Z) :
    go MigrationStore () :=
  m ← mig_GetByID id;
  now ← time_Now;
  modify <[id := (m <| Migration_ProgressPercent := progress |>
                    <| Migration_BytesTransferred := transferred |>
                    <| Migration_TotalBytes := total |> <| Migration_UpdatedAt := now |>)]>.

(** ** The service *)

(** What the service reaches; [Wired] is which of its optional fields are set. *)
Record MigrationEnv (G E : Type) := mkMigrationEnv {
  me_migrations : MigrationStore;
  me_instances : MemoryInstanceStore;
  me_nodes : G;
  me_events : E
}.
Arguments mkMigrationEnv {G E} _ _ _ _.
Arguments me_migrations {G E} _.
Arguments me_instances {G E} _.
Arguments me_nodes {G E} _.
Arguments me_events {G E} _.

Record MigrateRequest : Type := mkMigrateRequest {
  MigrateRequest_InstanceID : string;
  MigrateRequest_DestNodeID : string;
  MigrateRequest_Type_ : string
}.

Section service.
Context {G E A : Type} `{!NodeGateway G, !EventPublisher E, !AuditRepository A, !SortSlice}.
Context (auth : option Authorizer) (has_events has_audit : bool).
Abbreviation env := (MigrationEnv G E * A)%type.

Definition on_migrations {X} (m : go MigrationStore X) : go env X :=
  on_store (zoom me_migrations
    (λ x e, mkMigrationEnv x (me_instances e) (me_nodes e) (me_events e)) m).
Definition on_instances {X} (m : go MemoryInstanceStore X) : go env X :=
  on_store (zoom me_instances
    (λ x e, mkMigrationEnv (me_migrations e) x (me_nodes e) (me_events e)) m).
Definition on_gateway {X} (m : go G X) : go env X :=
  on_store (zoom me_nodes
    (λ x e, mkMigrationEnv (me_migrations e) (me_instances e) x (me_events e)) m).
Definition on_events {X} (m : go E X) : go env X :=
  on_store (zoom me_events
    (λ x e, mkMigrationEnv (me_migrations e) (me_instances e) (me_nodes e) x) m).
Definition on_scheduler {X} (m : go SchedulerState X) : go env X :=
  on_store (zoom (λ e, mkSchedulerState (gateway_nodes (me_nodes e)) (me_instances e))
    (λ _ e, e) m).

(** [Capabilities["architecture"].(string)], when there are capabilities. *)
Definition declared_arch (n : Node) : string :=
  default "" (payload_string (Node_Capabilities n) "architecture").

Definition arch_mismatch (src dst : Node) : Prop :=
  Node_Capabilities src ≠ None ∧ Node_Capabilities dst ≠ None ∧
  declared_arch src ≠ "" ∧ declared_arch dst ≠ "" ∧ declared_arch src ≠ declared_arch dst.
#[export] Instance arch_mismatch_dec a b : Decision (arch_mismatch a b).
Proof. unfold arch_mismatch. apply _. Defined.

Definition capacity_request (name : string) (inst : Instance_) (exclude : list string) : Request :=
  mkRequest name (Instance__Type_ inst) (Instance__CPUCores inst) (Instance__MemoryBytes inst)
    (Instance__StorageBytes inst) "" "" "" exclude [].

(** What the evaluated candidate of the destination says. *)
Definition from_candidate (inst : Instance_) (c : NodeCandidate) (res : PreflightValidation) :
    PreflightValidation :=
  let res := res
    <| PreflightValidation_CPUCapacityOK :=
         fle (of_int (Instance__CPUCores inst)) (NodeCandidate_AvailableCPUCores c) |>
    <| PreflightValidation_MemoryCapacityOK := bool_decide (Instance__MemoryBytes inst ≤
         mul64 (mul64 (NodeCandidate_AvailableMemoryMB c) 1024) 1024) |>
    <| PreflightValidation_StorageCapacityOK := bool_decide (Instance__StorageBytes inst ≤
         mul64 (mul64 (mul64 (NodeCandidate_AvailableStorageGB c) 1024) 1024) 1024) |> in
  if NodeCandidate_Eligible c then res
  else res <| PreflightValidation_FailureReason := NodeCandidate_IneligibleReason c |>.

Definition PreflightCheck (instanceID destNodeID : string) : go env PreflightValidation :=
  inst ← wrap_err (λ e, Wrapf ("instance not found: " +:+ Prelude.Error e) e)
           (on_instances (InstanceGetByID instanceID));
  destNode ← wrap_err (λ e, Wrapf ("destination node not found: " +:+ Prelude.Error e) e)
               (on_gateway (read_nodes (NodeGetByID destNodeID)));
  let res := mkPreflightValidation true true true true (IsSchedulable destNode)
               false false false "" in
  if negb (IsSchedulable destNode) then
    mret (res <| PreflightValidation_FailureReason :=
      "destination node " +:+ Node_Name destNode +:+ " is not schedulable (status: " +:+
      status_text (Node_Status destNode) +:+ ", maintenance: " +:+
      fmt_bool (Node_MaintenanceMode destNode) +:+ ", drain: " +:+
      fmt_bool (Node_DrainMode destNode) +:+ ")" |>)
  else
    src ← try (on_gateway (read_nodes (NodeGetByID (Instance__NodeID inst))));
    let mismatch := match src with
                    | Ok n => bool_decide (arch_mismatch n destNode)
                    | Err _ => false
                    end in
    if mismatch then
      mret (res <| PreflightValidation_CompatibleArch := false |>
                <| PreflightValidation_FailureReason :=
        "architecture mismatch (source: " +:+
        match src with Ok n => declared_arch n | Err _ => "" end +:+
        ", destination: " +:+ declared_arch destNode +:+ ")" |>)
    else
      cs ← try (on_scheduler (EvaluateCandidates (capacity_request "" inst [])));
      match cs with
      | Ok candidates =>
          match list_find (λ c, Node_ID (NodeCandidate_Node c) = destNodeID) candidates with
          | Some (_, c) => mret (from_candidate inst c res)
          | None => mret res
          end
      | Err _ =>
          mret (res <| PreflightValidation_CPUCapacityOK := true |>
                    <| PreflightValidation_MemoryCapacityOK := true |>
                    <| PreflightValidation_StorageCapacityOK := true |>)
      end.

(** [Migrate] up to the record: the checks, the destination and the preflight. *)
Definition check_migration (sub : option Subject) (req : MigrateRequest) :
    go env (Instance_ * string * PreflightValidation) :=
  inst ← wrap_err (λ e, Wrapf ("instance not found: " +:+ Prelude.Error e) e)
           (on_instances (InstanceGetByID (MigrateRequest_InstanceID req)));
  maybe_authorize auth sub "migration:manage" (Some (Instance_Resource inst)) ;;
  active ← on_migrations (GetActiveForInstance (Instance__ID inst));
  match active with
  | Some _ => fail ErrMigrationInProgress
  | None =>
      destNodeID ←
        (if decide (MigrateRequest_DestNodeID req = "") then
           decision ← wrap_err (λ e, Wrapf ("scheduling failed: " +:+ Prelude.Error e) e)
             (on_scheduler (SelectNode (capacity_request "" inst [Instance__NodeID inst])));
           mret (Node_ID (PlacementDecision_SelectedNode decision))
         else mret (MigrateRequest_DestNodeID req));
      if decide (destNodeID = Instance__NodeID inst) then
        fail (ErrNew "migration" "destination node must be different from source node")
      else
        preflight ← wrap_err (λ e, Wrapf ("preflight check error: " +:+ Prelude.Error e) e)
                      (PreflightCheck (Instance__ID inst) destNodeID);
        if negb (Passed preflight) then
          fail (Wrapf (Prelude.Error ErrPreflightCheckFailed +:+ ": " +:+
                       PreflightValidation_FailureReason preflight) ErrPreflightCheckFailed)
        else mret (inst, destNodeID, preflight)
  end.

(** The record, a repository call of its own: nothing keeps another [Migrate]
    out between the two ([concurrent_migrations_both_pass]). *)
Definition record_migration (req : MigrateRequest) (inst : Instance_) (destNodeID : string)
    (preflight : PreflightValidation) : go env (Migration * Instance_) :=
  let migType := if decide (MigrateRequest_Type_ req = "") then TypeCold
                 else MigrateRequest_Type_ req in
  id ← uuid_NewString;
  t1 ← time_Now;
  t2 ← time_Now;
  m ← wrap_err
    (λ e, Wrapf ("failed to create migration record: " +:+ Prelude.Error e) e)
    (on_migrations (mig_Create
      (mkMigration id (Instance__UserID inst) (Instance__ID inst) (Instance__NodeID inst)
         destNodeID migType MigReserving preflight 0 0 0 "" None None t1 t2)));
  mret (m, inst).

(** The call up to the start of its goroutine: the migration it answers and
    the instance its goroutine captures. *)
Definition Migrate (sub : option Subject) (req : MigrateRequest) :
    go env (Migration * Instance_) :=
  '(inst, destNodeID, preflight) ← check_migration sub req;
  record_migration req inst destNodeID preflight.

(** *** The goroutine *)

Definition was_running (inst : Instance_) : bool :=
  bool_decide (Instance__Status inst = StatusRunning).

(** [s.nodeService.SendCommand(ctx, nodeID, &Command{CorrelationID: uuid...})]. *)
Definition send (nodeID typ : string) (payload : list (string * any)) :
    go env (result CommandResult) :=
  corr ← uuid_NewString;
  try (on_gateway (SendCommand_ nodeID (mkCommand corr typ (details payload) zero_time))).

(** Step 1: stop the instance on the source. *)
Definition begin (m : Migration) (inst : Instance_) : go env () :=
  ignore (on_migrations (mig_UpdateStatus (Migration_ID m) MigTransferring 20 "")) ;;
  if bool_decide (Migration_Type_ m = TypeCold) && was_running inst then
    ignore (send (Migration_SourceNodeID m) "stop_instance"
      [("instanceName", AnyStr (Instance__Name inst)); ("force", AnyBool false)])
  else mret ().

(** Step 2: recreate it on the destination; why that failed, if it did. *)
Definition transfer (m : Migration) (inst : Instance_) : go env (option string) :=
  ignore (on_migrations (mig_UpdateProgress (Migration_ID m) 50
    (quot64 (Instance__StorageBytes inst) 2) (Instance__StorageBytes inst))) ;;
  r ← send (Migration_DestNodeID m) "create_instance"
    [("instanceName", AnyStr (Instance__Name inst)); ("instanceType", AnyStr (Instance__Type_ inst));
     ("cpuCores", AnyInt (Instance__CPUCores inst)); ("memoryBytes", AnyInt (Instance__MemoryBytes inst));
     ("storageBytes", AnyInt (Instance__StorageBytes inst)); ("image", AnyStr (Instance__Image inst));
     ("startAfterCreate", AnyBool (was_running inst))];
  mret (match r with
        | Err e => Some (Prelude.Error e)
        | Ok res => if CommandResult_Success res then None
                    else Some (CommandResult_ErrorMessage res)
        end).

(** Steps 3 to 5, or the way back. *)
Definition roll_back (m : Migration) (inst : Instance_) (errMsg : string) : go env () :=
  ignore (on_migrations (mig_UpdateStatus (Migration_ID m) MigRolledBack 0 errMsg)) ;;
  if was_running inst then
    ignore (send (Migration_SourceNodeID m) "start_instance"
      [("instanceName", AnyStr (Instance__Name inst))])
  else mret ().

Definition report (m : Migration) (inst : Instance_) : go env () :=
  let det := details [("migrationId", AnyStr (Migration_ID m));
                      ("sourceNodeId", AnyStr (Migration_SourceNodeID m));
                      ("destNodeId", AnyStr (Migration_DestNodeID m))] in
  (if has_events then
     ignore (on_events (Publish (new_event (Instance__UserID inst) "instance.migrated" "instance"
       (Instance__ID inst) "" det)))
   else mret ()) ;;
  if has_audit then
    audit_event (Some (Instance__UserID inst)) "instance.migrated" "instance"
      (Some (Instance__ID inst)) (Some det)
  else mret ().

Definition settle (m : Migration) (inst : Instance_) : go env () :=
  ignore (on_migrations (mig_UpdateStatus (Migration_ID m) MigVerifying 80 "")) ;;
  ignore (on_instances (UpdateNodeID (Instance__ID inst) (Migration_DestNodeID m))) ;;
  (if was_running inst then
     ignore (on_instances (InstanceUpdateStatus (Instance__ID inst) StatusRunning
       (Instance__IPv4Address inst) (Instance__IPv6Address inst)))
   else mret ()) ;;
  ignore (send (Migration_SourceNodeID m) "delete_instance"
    [("instanceName", AnyStr (Instance__Name inst)); ("force", AnyBool true)]) ;;
  ignore (on_migrations (mig_UpdateStatus (Migration_ID m) MigCompleted 100 "")) ;;
  report m inst.

Definition finish (m : Migration) (inst : Instance_) (failure : option string) : go env () :=
  match failure with
  | Some errMsg => roll_back m inst errMsg
  | None => settle m inst
  end.

Definition executeMigration (m : Migration) (inst : Instance_) : go env () :=
  begin m inst ;;
  failure ← transfer m inst;
  finish m inst failure.

Definition GetMigration (sub : option Subject) (id : string) : go env Migration :=
  m ← on_migrations (mig_GetByID id);
  maybe_authorize auth sub "migration:read" (Some (Migration_Resource m)) ;;
  mret m.

Definition ListMigrations (sub : option Subject) (f : MigrationFilter) :
    go env (list Migration * Z) :=
  let f := match sub with
           | Some s => if IsSuperadmin s then f
                       else f <| MigrationFilter_TenantID := Subject_UserID s |>
           | None => f
           end in
  on_migrations (mig_List f).
End service.

(** ** The effect of the steps *)

Section effects.
Context {G E A : Type}.
Context `{!NodeGateway G, !NodeGatewayLaws G, !EventPublisher E, !AuditRepository A, !SortSlice}.
Context (auth : option Authorizer) (has_events has_audit : bool).
Abbreviation env := (MigrationEnv G E * A)%type.
Implicit Types (st : env).

Definition migrations_of st : MigrationStore := me_migrations st.1.
Definition fleet_of st : MemoryInstanceStore := me_instances st.1.
Definition cluster_of st : MemoryNodeStore := gateway_nodes (me_nodes st.1).

(** [st'] is [st] but for the agents, the events and the trail. *)
Definition same_books st st' : Prop :=
  migrations_of st' = migrations_of st ∧ fleet_of st' = fleet_of st ∧ cluster_of st' = cluster_of st.

Lemma same_books_refl st : same_books st st.
Proof. done. Qed.
Lemma same_books_trans st1 st2 st3 : same_books st1 st2 → same_books st2 st3 → same_books st1 st3.
Proof. intros (?&?&?) (?&?&?). split_and!; congruence. Qed.

Lemma wp_order id typ pl (P : result (result CommandResult) → env → World → Prop) w st :
  (∀ r st' w', same_books st st' → P (Ok r) st' w') → wp (send id typ pl) P w st.
Proof.
  intros HP. unfold send. rewrite wp_bind, wp_uuid, wp_try. destruct st as [[m i g e] a].
  unfold on_gateway. rewrite wp_on_store, wp_zoom. cbn. unfold wp.
  pose proof (SendCommand_nodes id (mkCommand (w_uuid w (w_uuids w)) typ (details pl) zero_time)
    (next_uuid w) g) as Hn. unfold exec in Hn.
  destruct (SendCommand_ _ _ _ g) as [[r g'] w']. cbn in *. apply HP. by split_and!.
Qed.

Lemma wp_on_migrations {X} (m : go MigrationStore X) (P : result X → env → World → Prop) w st :
  wp (on_migrations m) P w st ↔
  wp m (λ r x w', P r (mkMigrationEnv x (me_instances st.1) (me_nodes st.1) (me_events st.1), st.2) w')
    w (migrations_of st).
Proof. destruct st as [e a]. unfold on_migrations. by rewrite wp_on_store, wp_zoom. Qed.

Lemma wp_on_fleet {X} (m : go MemoryInstanceStore X) (P : result X → env → World → Prop) w st :
  wp (on_instances m) P w st ↔
  wp m (λ r x w', P r (mkMigrationEnv (me_migrations st.1) x (me_nodes st.1) (me_events st.1), st.2) w')
    w (fleet_of st).
Proof. destruct st as [e a]. unfold on_instances. by rewrite wp_on_store, wp_zoom. Qed.

Lemma wp_migrated m inst (P : result () → env → World → Prop) w st :
  (∀ r st' w', same_books st st' → P r st' w') →
  wp (report has_events has_audit m inst) P w st.
Proof.
  intros HP. unfold report. cbv zeta. destruct st as [[ms ins g e] a]. rewrite wp_bind.
  assert (∀ st', same_books (mkMigrationEnv ms ins g e, a) st' → ∀ w1,
    wp (if has_audit then audit_event (Some (Instance__UserID inst)) "instance.migrated" "instance"
          (Some (Instance__ID inst)) (Some (details [("migrationId", AnyStr (Migration_ID m));
          ("sourceNodeId", AnyStr (Migration_SourceNodeID m));
          ("destNodeId", AnyStr (Migration_DestNodeID m))])) else mret ()) P w1 st') as Haud.
  { intros [e' a'] Hs w1. destruct has_audit; [|by apply HP].
    apply wp_audit_event. intros a1 w2. by apply HP. }
  destruct has_events; [|by apply Haud].
  rewrite wp_ignore. unfold on_events. rewrite wp_on_store, wp_zoom. cbn. unfold wp at 1.
  destruct (Publish _ w e) as [[??]?]. cbn. by apply Haud.
Qed.

(** The status and the record of migration [id] after a status update. *)
Definition restated (ms : MigrationStore) (id : string) (s : MigrationStatus) (p : Z)
    (err : string) (ms' : MigrationStore) : Prop :=
  ∃ now, ms' = alter (with_status s p err now) id ms.

Lemma wp_restate id s p err (P : result () → env → World → Prop) w st :
  (∀ st' w', restated (migrations_of st) id s p err (migrations_of st') →
     fleet_of st' = fleet_of st → cluster_of st' = cluster_of st → P (Ok ()) st' w') →
  wp (ignore (on_migrations (mig_UpdateStatus id s p err))) P w st.
Proof.
  intros HP. rewrite wp_ignore, wp_on_migrations. unfold mig_UpdateStatus, mig_GetByID.
  rewrite wp_bind, wp_bind, wp_get.
  destruct (migrations_of st !! id) as [m|] eqn:Hm; wp_step; apply HP; try done.
  - exists (now_of w). unfold migrations_of at 1. cbn. apply map_eq. intros i.
    destruct (decide (id = i)) as [<-|Hne].
    + by rewrite lookup_insert_eq, lookup_alter_eq, Hm.
    + by rewrite lookup_insert_ne, lookup_alter_ne.
  - exists 0. unfold migrations_of at 1. cbn. apply map_eq. intros i.
    destruct (decide (id = i)) as [<-|Hne].
    + by rewrite lookup_alter_eq, Hm.
    + by rewrite lookup_alter_ne.
Qed.

(** A record that moves the same instance the same way. *)
Definition same_plan (m m' : Migration) : Prop :=
  Migration_ID m' = Migration_ID m ∧ Migration_InstanceID m' = Migration_InstanceID m ∧
  Migration_SourceNodeID m' = Migration_SourceNodeID m ∧
  Migration_DestNodeID m' = Migration_DestNodeID m ∧ Migration_TenantID m' = Migration_TenantID m ∧
  Migration_Type_ m' = Migration_Type_ m.

Lemma same_plan_refl m : same_plan m m.
Proof. by split_and!. Qed.
Lemma same_plan_trans m1 m2 m3 : same_plan m1 m2 → same_plan m2 m3 → same_plan m1 m3.
Proof. intros (?&?&?&?&?&?) (?&?&?&?&?&?). split_and!; congruence. Qed.

Lemma with_status_spec s p err now m :
  let m' := with_status s p err now m in
  same_plan m m' ∧ Migration_Status m' = s ∧
  (mig_IsTerminal s = true → Migration_CompletedAt m' ≠ None) ∧
  (mig_IsTerminal s = false → Migration_CompletedAt m' = Migration_CompletedAt m).
Proof.
  unfold with_status. cbv zeta. split; [by repeat case_decide|].
  split; [by repeat case_decide|]. split; intros Ht.
  - case_decide as Hc; [done|]. intros Hn. apply Hc. by split.
  - rewrite (decide_False (P := mig_IsTerminal s = true ∧ _)) by (intros [? _]; congruence).
    by case_decide.
Qed.

(** What a step does to the record of its own migration, and to no other. *)
Definition advanced (ms ms' : MigrationStore) (id : string) (s : MigrationStatus) : Prop :=
  (∀ id', id' ≠ id → ms' !! id' = ms !! id') ∧
  match ms !! id with
  | Some m => ∃ m', ms' !! id = Some m' ∧ same_plan m m' ∧ Migration_Status m' = s ∧
      (mig_IsTerminal s = true → Migration_CompletedAt m' ≠ None) ∧
      (mig_IsTerminal s = false → Migration_CompletedAt m' = Migration_CompletedAt m)
  | None => ms' !! id = None
  end.

Lemma restated_advanced ms id s p err ms' : restated ms id s p err ms' → advanced ms ms' id s.
Proof.
  intros [now ->]. split.
  - intros id' Hne. by apply lookup_alter_ne.
  - rewrite lookup_alter_eq. destruct (ms !! id) as [m|]; cbn; [|done].
    eexists. split; [done|]. apply with_status_spec.
Qed.

Lemma advanced_trans ms1 ms2 ms3 id s s' :
  mig_IsTerminal s = false → advanced ms1 ms2 id s → advanced ms2 ms3 id s' → advanced ms1 ms3 id s'.
Proof.
  intros Hs [Ho1 H1] [Ho2 H2]. split; [intros id' Hne; by rewrite Ho2, Ho1|].
  destruct (ms1 !! id) as [m|] eqn:E1.
  - destruct H1 as (m1 & E2 & Hp1 & Hs1 & _ & Hc1). rewrite E2 in H2.
    destruct H2 as (m2 & E3 & Hp2 & Hs2 & Ht2 & Hc2).
    exists m2. split_and!; try done; [by eapply same_plan_trans|].
    intros Hn. by rewrite Hc2, Hc1.
  - by rewrite H1 in H2.
Qed.

Lemma begin_effect m inst w st :
  wp (begin m inst) (λ r st' _, r = Ok () ∧ fleet_of st' = fleet_of st ∧
    cluster_of st' = cluster_of st ∧
    advanced (migrations_of st) (migrations_of st') (Migration_ID m) MigTransferring) w st.
Proof.
  unfold begin. rewrite wp_bind. apply wp_restate. intros st1 w1 Hr Hf Hc.
  apply restated_advanced in Hr. case_match.
  - rewrite wp_ignore. apply wp_order. intros r st2 w2 (Em & Ef & Ec).
    rewrite Em, Ef, Ec. by split_and!.
  - wp_step. by split_and!.
Qed.

(** The step left the status and the plan of migration [id] as they were, and
    the other migrations untouched. *)
Definition kept (ms ms' : MigrationStore) (id : string) : Prop :=
  (∀ id', id' ≠ id → ms' !! id' = ms !! id') ∧
  match ms !! id with
  | Some x => ∃ x', ms' !! id = Some x' ∧ same_plan x x' ∧
      Migration_Status x' = Migration_Status x ∧
      Migration_CompletedAt x' = Migration_CompletedAt x
  | None => ms' !! id = None
  end.

Lemma wp_progress id p t tot (P : result () → env → World → Prop) w st :
  (∀ st' w', kept (migrations_of st) (migrations_of st') id →
     fleet_of st' = fleet_of st → cluster_of st' = cluster_of st → P (Ok ()) st' w') →
  wp (ignore (on_migrations (mig_UpdateProgress id p t tot))) P w st.
Proof.
  intros HP. rewrite wp_ignore, wp_on_migrations. unfold mig_UpdateProgress, mig_GetByID.
  rewrite wp_bind, wp_bind, wp_get.
  destruct (migrations_of st !! id) as [x|] eqn:Hx; wp_step; apply HP; try done; unfold kept;
    rewrite Hx; [|by split].
  change (migrations_of (_, _)) with (<[id := x <| Migration_ProgressPercent := p |>
    <| Migration_BytesTransferred := t |> <| Migration_TotalBytes := tot |>
    <| Migration_UpdatedAt := now_of w |>]> (migrations_of st)).
  split; [intros i Hi; by rewrite lookup_insert_ne|]. rewrite lookup_insert_eq.
  eexists. split; [done|]. by split_and!.
Qed.

Lemma transfer_effect m inst w st :
  wp (transfer m inst) (λ r st' _, (∃ f, r = Ok f) ∧ fleet_of st' = fleet_of st ∧
    cluster_of st' = cluster_of st ∧ kept (migrations_of st) (migrations_of st') (Migration_ID m)) w st.
Proof.
  unfold transfer. rewrite wp_bind. apply wp_progress. intros st1 w1 Hk Ef Ec.
  rewrite wp_bind. apply wp_order. intros r st2 w2 (Em2 & Ef2 & Ec2). wp_step.
  split_and!; [by eexists|congruence|congruence|by rewrite Em2].
Qed.

Lemma kept_advanced ms1 ms2 ms3 id s : kept ms1 ms2 id → advanced ms2 ms3 id s →
  advanced ms1 ms3 id s.
Proof.
  intros [Ho1 Hk] [Ho2 Ha]. split; [intros i Hi; by rewrite Ho2, Ho1|].
  destruct (ms1 !! id) as [m|]; [|by rewrite Hk in Ha].
  destruct Hk as (m1 & E1 & Hp & Es & Ec). rewrite E1 in Ha.
  destruct Ha as (m2 & E2 & Hp2 & Hs2 & Ht2 & Hc2). exists m2.
  split_and!; try done; [by eapply same_plan_trans|]. intros Hn. by rewrite Hc2.
Qed.

Lemma roll_back_effect m inst errMsg w st :
  wp (roll_back m inst errMsg) (λ r st' _, r = Ok () ∧ fleet_of st' = fleet_of st ∧
    cluster_of st' = cluster_of st ∧
    advanced (migrations_of st) (migrations_of st') (Migration_ID m) MigRolledBack) w st.
Proof.
  unfold roll_back. rewrite wp_bind. apply wp_restate. intros st1 w1 Hr Hf Hc.
  apply restated_advanced in Hr. destruct (was_running inst).
  - rewrite wp_ignore. apply wp_order. intros r st2 w2 (Em & Ef & Ec).
    rewrite Em, Ef, Ec. by split_and!.
  - wp_step. by split_and!.
Qed.

(** What a completed migration does to the record of its instance. *)
Definition moved (m : Migration) (inst : Instance_) (i i' : Instance_) : Prop :=
  Instance__ID i' = Instance__ID i ∧ Instance__Name i' = Instance__Name i ∧
  Instance__NodeID i' = Migration_DestNodeID m ∧
  Instance__MemoryBytes i' = Instance__MemoryBytes i ∧
  Instance__StorageBytes i' = Instance__StorageBytes i ∧
  Instance__Status i' = (if was_running inst then StatusRunning else Instance__Status i).

Definition relocated (m : Migration) (inst : Instance_) (s s' : MemoryInstanceStore) : Prop :=
  instance_store_ok s' ∧ ∃ g, (∀ i, moved m inst i (g i)) ∧ updated s s' (Instance__ID inst) g.

Lemma wp_relocate m inst (k : go env ()) (P : result () → env → World → Prop) w st :
  instance_store_ok (fleet_of st) →
  (∀ st' w', migrations_of st' = migrations_of st → cluster_of st' = cluster_of st →
     relocated m inst (fleet_of st) (fleet_of st') → wp k P w' st') →
  wp (ignore (on_instances (UpdateNodeID (Instance__ID inst) (Migration_DestNodeID m))) ;;
      (if was_running inst then
         ignore (on_instances (InstanceUpdateStatus (Instance__ID inst) StatusRunning
           (Instance__IPv4Address inst) (Instance__IPv6Address inst)))
       else mret ()) ;;
      k) P w st.
Proof.
  intros Hok HP. rewrite wp_bind, wp_ignore, wp_on_fleet. unfold UpdateNodeID.
  apply wp_update_instance; [done|done|]. intros r1 s1 w1 Hok1 Hu1. rewrite wp_bind.
  destruct (was_running inst) eqn:Hrun.
  - rewrite wp_ignore, wp_on_fleet. unfold InstanceUpdateStatus. cbn [fleet_of me_instances fst].
    apply wp_update_instance; [done|by intros; repeat case_decide|].
    intros r2 s2 w2 Hok2 Hu2. apply HP; [done|done|]. split; [done|].
    eexists. split; [|by eapply updated_trans]. intros i. unfold moved. rewrite Hrun.
    cbv zeta. repeat case_decide; by split_and!.
  - rewrite wp_ret. apply HP; [done|done|]. split; [done|]. eexists. split; [|exact Hu1].
    intros i. unfold moved. rewrite Hrun. by split_and!.
Qed.

Lemma settle_effect m inst w st : instance_store_ok (fleet_of st) →
  wp (settle has_events has_audit m inst) (λ _ st' _,
    cluster_of st' = cluster_of st ∧ relocated m inst (fleet_of st) (fleet_of st') ∧
    advanced (migrations_of st) (migrations_of st') (Migration_ID m) MigCompleted) w st.
Proof.
  intros Hok. unfold settle. rewrite wp_bind. apply wp_restate. intros st1 w1 Hr1 Hf1 Hc1.
  apply restated_advanced in Hr1. apply wp_relocate; [by rewrite Hf1|].
  intros st2 w2 Hm2 Hc2 Hrel. rewrite wp_bind, wp_ignore. apply wp_order.
  intros r st3 w3 (Hm3 & Hf3 & Hc3). rewrite wp_bind. apply wp_restate.
  intros st4 w4 Hr4 Hf4 Hc4. apply restated_advanced in Hr4.
  apply wp_migrated. intros r5 st5 w5 (Hm5 & Hf5 & Hc5).
  split; [congruence|]. split; [by rewrite Hf5, Hf4, Hf3, <-Hf1|]. rewrite Hm5.
  eapply advanced_trans; [|exact Hr1|]; [done|]. by rewrite <-Hm2, <-Hm3.
Qed.

(** How a migration may end. *)
Definition outcome (st st' : env) (m : Migration) (inst : Instance_) : Prop :=
  (advanced (migrations_of st) (migrations_of st') (Migration_ID m) MigCompleted ∧
     relocated m inst (fleet_of st) (fleet_of st')) ∨
  (advanced (migrations_of st) (migrations_of st') (Migration_ID m) MigRolledBack ∧
     fleet_of st' = fleet_of st).

Lemma execute_effect m inst w st : instance_store_ok (fleet_of st) →
  wp (executeMigration has_events has_audit m inst) (λ _ st' _,
    cluster_of st' = cluster_of st ∧ outcome st st' m inst) w st.
Proof.
  intros Hok. unfold executeMigration. rewrite wp_bind.
  eapply wp_mono; [apply begin_effect|]. intros r1 st1 w1 (-> & Hf1 & Hc1 & Ha1). cbn.
  rewrite wp_bind. eapply wp_mono; [apply transfer_effect|].
  intros r2 st2 w2 ((f & ->) & Hf2 & Hc2 & Hk2).
  assert (∀ ms s, advanced (migrations_of st2) ms (Migration_ID m) s →
    advanced (migrations_of st) ms (Migration_ID m) s) as Hlast.
  { intros ms s Hs. eapply advanced_trans; [|exact Ha1|by eapply kept_advanced]. done. }
  destruct f as [errMsg|]; cbn.
  - eapply wp_mono; [apply roll_back_effect|]. intros r3 st3 w3 (_ & Hf3 & Hc3 & Ha3).
    split; [congruence|]. right. split; [by apply Hlast|congruence].
  - eapply wp_mono; [apply settle_effect; by rewrite Hf2, Hf1|].
    intros r3 st3 w3 (Hc3 & Hrel & Ha3). split; [congruence|]. left.
    split; [by apply Hlast|]. by rewrite <-Hf1, <-Hf2.
Qed.
End effects.

(** ** Admission *)

Section admission.
Context {G E A : Type}.
Context `{!NodeGateway G, !NodeGatewayLaws G, !EventPublisher E, !AuditRepository A, !SortSlice}.
Context (auth : option Authorizer).
Abbreviation env := (MigrationEnv G E * A)%type.
Implicit Types (st : env).

Definition planner st : SchedulerState := mkSchedulerState (cluster_of st) (fleet_of st).

(** The repositories are consistent. *)
Definition sane st : Prop := node_store_ok (cluster_of st) ∧ instance_store_ok (fleet_of st).

Lemma wp_fetch id (P : result Instance_ → env → World → Prop) w st :
  sane st →
  P (match instance_at (fleet_of st) id with Some i => Ok i | None => Err ErrInstanceNotFound end)
    st w →
  wp (on_instances (InstanceGetByID id)) P w st.
Proof.
  intros [_ Hi] HP. rewrite wp_on_fleet.
  apply (proj2 (wp_run _ _ _ _ _ _ _ (InstanceGetByID_run id w (fleet_of st) Hi))).
  by destruct st as [[] ?].
Qed.

Lemma wp_fetch_node id (P : result Node → env → World → Prop) w st :
  sane st →
  P (match node_at (cluster_of st) id with Some n => Ok n | None => Err ErrNodeNotFound end) st w →
  wp (on_gateway (read_nodes (NodeGetByID id))) P w st.
Proof.
  intros [Hn _] HP. destruct st as [[ms i g e] a]. unfold on_gateway, read_nodes.
  rewrite wp_on_store, wp_zoom, wp_zoom.
  by apply (proj2 (wp_run _ _ _ _ _ _ _ (NodeGetByID_run id w (gateway_nodes g) Hn))).
Qed.

Lemma wp_on_scheduler {X} (m : go SchedulerState X) (P : result X → env → World → Prop) w st r s w' :
  m w (planner st) = (r, s, w') → P r st w' → wp (on_scheduler m) P w st.
Proof.
  intros Hm HP. destruct st as [e a]. unfold on_scheduler. rewrite wp_on_store, wp_zoom.
  by apply (proj2 (wp_run _ _ _ _ _ _ _ Hm)).
Qed.

Lemma candidate_node req s n : NodeCandidate_Node (candidate req s n) = n.
Proof. unfold candidate, evaluate. by repeat case_match. Qed.

(** A refusal names its reason. *)
Lemma refused_for_a_reason req s n :
  NodeCandidate_Eligible (candidate req s n) = false →
  NodeCandidate_IneligibleReason (candidate req s n) ≠ "".
Proof.
  unfold candidate, evaluate, prefilter. intros He.
  repeat case_match; simplify_eq/=; done.
Qed.

(** What a passed preflight says of the destination. *)
Definition cleared st (inst : Instance_) (dest : string) (n : Node) : Prop :=
  node_at (cluster_of st) dest = Some n ∧ IsSchedulable n = true ∧
  fits (capacity_request "" inst []) (planner st) n ∧
  ∀ src, node_at (cluster_of st) (Instance__NodeID inst) = Some src → ¬ arch_mismatch src n.

Lemma polite_EvaluateCandidates req : polite (EvaluateCandidates req).
Proof.
  unfold EvaluateCandidates.
  polite; apply polite_quiet; [apply quiet_load_all|apply quiet_load_instances].
Qed.

Lemma polite_SelectNode req : polite (SelectNode req).
Proof. unfold SelectNode. apply polite_bind; [apply polite_EvaluateCandidates|]. polite. Qed.

Lemma PreflightCheck_effect id dest w st : sane st → World_ok w →
  wp (PreflightCheck id dest) (λ r st' w', st' = st ∧ World_ok w' ∧
    match r with
    | Ok p => Passed p = true → ∃ inst n, instance_at (fleet_of st) id = Some inst ∧
        cleared st inst dest n
    | Err _ => True
    end) w st.
Proof.
  intros Hs Hw. unfold PreflightCheck. rewrite wp_bind, wp_wrap_err. apply wp_fetch; [done|].
  destruct (instance_at _ _) as [inst|] eqn:Hinst; cbn; [|done].
  rewrite wp_bind, wp_wrap_err. apply wp_fetch_node; [done|].
  destruct (node_at _ dest) as [n|] eqn:Hn; cbn; [|done].
  destruct (IsSchedulable n) eqn:Hsched; cbn [negb]; [|by rewrite wp_ret].
  rewrite wp_bind, wp_try. apply wp_fetch_node; [done|]. cbv zeta.
  case_match eqn:Hmis; [by rewrite wp_ret|].
  rewrite wp_bind, wp_try.
  destruct (EvaluateCandidates_run (capacity_request "" inst []) w (planner st))
    as (ns & w' & Hrun & Hns); [apply Hs|apply Hs|done|].
  assert (World_ok w') as Hw'.
  { eapply World_ok_same; [|exact Hw]. pose proof (polite_EvaluateCandidates (capacity_request "" inst []) w (planner st)) as Hp.
    unfold world in Hp. by rewrite Hrun in Hp. }
  eapply wp_on_scheduler; [exact Hrun|]. cbn.
  destruct (list_find _ _) as [[k c]|] eqn:Hfind; rewrite wp_ret; split_and!; try done.
  intros Hpass. apply list_find_Some in Hfind as (Hc & Hid & _).
  apply list_elem_of_lookup_2, list_elem_of_fmap in Hc as (n' & -> & Hin). apply Hns in Hin.
  rewrite candidate_node in *. rewrite Hid in Hin. cbn in Hin. assert (n' = n) as -> by congruence.
  exists inst, n. split; [done|]. split_and!; [done|done| |].
  - apply eligible_fits. destruct (NodeCandidate_Eligible _) eqn:He; [done|].
    exfalso. apply (refused_for_a_reason _ (planner st) n He).
    unfold Passed, from_candidate in Hpass. rewrite He in Hpass. cbn in Hpass.
    apply andb_true_iff in Hpass as [_ Hr]. by apply bool_decide_eq_true in Hr.
  - intros src Hsrc. rewrite Hsrc in Hmis. by apply bool_decide_eq_false in Hmis.
Qed.

(** A migration that was admitted. *)
Record admitted (sub : option Subject) (req : MigrateRequest) st st' (m : Migration)
    (inst : Instance_) : Prop := {
  adm_instance : instance_at (fleet_of st) (MigrateRequest_InstanceID req) = Some inst;
  adm_caller : permitted auth sub "migration:manage" (Instance_Resource inst);
  adm_free : ∀ k x, migrations_of st !! k = Some x → ¬ active_for (Instance__ID inst) x;
  adm_plan : Migration_InstanceID m = Instance__ID inst ∧
    Migration_SourceNodeID m = Instance__NodeID inst ∧ Migration_DestNodeID m ≠ Instance__NodeID inst ∧
    (MigrateRequest_DestNodeID req ≠ "" → Migration_DestNodeID m = MigrateRequest_DestNodeID req);
  adm_status : Migration_Status m = MigReserving ∧ Migration_CompletedAt m = None;
  adm_cleared : ∃ n, cleared st inst (Migration_DestNodeID m) n;
  adm_filed : migrations_of st' = <[Migration_ID m := m]> (migrations_of st)
}.

Lemma wp_GetActive id (P : result (option Migration) → env → World → Prop) w st :
  World_ok w →
  (∀ o w', World_ok w' →
     match o with
     | Some _ => True
     | None => ∀ k x, migrations_of st !! k = Some x → ¬ active_for id x
     end → P (Ok o) st w') →
  wp (on_migrations (GetActiveForInstance id)) P w st.
Proof.
  intros Hw HP. rewrite wp_on_migrations. unfold GetActiveForInstance. rewrite wp_bind, wp_get.
  apply wp_find_in; [done|]. intros o w' Ho Hmatch. destruct st as [[ms i g e] a].
  apply HP; [by eapply World_ok_same|]. by destruct o.
Qed.

(** The destination, asked for or chosen by the scheduler. *)
Lemma wp_choose req inst (P : result string → env → World → Prop) w st :
  sane st → World_ok w →
  (∀ r w', World_ok w' →
     (∀ d, r = Ok d → MigrateRequest_DestNodeID req ≠ "" → d = MigrateRequest_DestNodeID req) →
     P r st w') →
  wp (if decide (MigrateRequest_DestNodeID req = "") then
        decision ← wrap_err (λ e, Wrapf ("scheduling failed: " +:+ Prelude.Error e) e)
          (on_scheduler (SelectNode (capacity_request "" inst [Instance__NodeID inst])));
        mret (Node_ID (PlacementDecision_SelectedNode decision))
      else mret (MigrateRequest_DestNodeID req)) P w st.
Proof.
  intros Hs Hw HP. case_decide as Hd; [|rewrite wp_ret; apply HP; [done|congruence]].
  set (r := capacity_request _ _ _). rewrite wp_bind, wp_wrap_err.
  pose proof (polite_SelectNode r w (planner st)) as Ho. unfold world in Ho.
  destruct (SelectNode r w (planner st)) as [[d s] w'] eqn:Hrun. cbn in Ho.
  eapply wp_on_scheduler; [exact Hrun|]. apply (World_ok_same _ _ Ho) in Hw.
  destruct d as [d|e]; cbn; [rewrite wp_ret|]; by apply HP.
Qed.

(** The record [m'] is [m] with the identifier and the times it was given. *)
Definition stamped (m m' : Migration) : Prop :=
  ∃ id c u, m' = m <| Migration_ID := id |> <| Migration_CreatedAt := c |>
                   <| Migration_UpdatedAt := u |>.

Lemma wp_file m (P : result Migration → env → World → Prop) w st :
  (∀ m' st' w', stamped m m' → same_oracles w w' →
     fleet_of st' = fleet_of st → cluster_of st' = cluster_of st →
     migrations_of st' = <[Migration_ID m' := m']> (migrations_of st) → P (Ok m') st' w') →
  wp (on_migrations (mig_Create m)) P w st.
Proof.
  intros HP. rewrite wp_on_migrations. unfold mig_Create. rewrite wp_bind.
  assert (∀ id w1, same_oracles w w1 → wp (mret id : go MigrationStore string) (λ r s w', match r with
    | Ok id => wp (now ← time_Now;
        let m := m <| Migration_ID := id |> in
        let m := if decide (IsZero (Migration_CreatedAt m)) then m <| Migration_CreatedAt := now |>
                 else m in
        let m := m <| Migration_UpdatedAt := now |> in
        modify <[id := m]> ;; mret m) (λ r x w', P r (mkMigrationEnv x (me_instances st.1)
          (me_nodes st.1) (me_events st.1), st.2) w') w' s
    | Err _ => True end) w1 (migrations_of st)) as Hrest.
  { intros id w1 Hw1. rewrite wp_ret, wp_bind, wp_now. cbv zeta.
    rewrite wp_bind, wp_modify, wp_ret. apply HP; try done; case_decide; try done.
    - exists id, (now_of w1), (now_of w1). by destruct m.
    - exists id, (Migration_CreatedAt m), (now_of w1). by destruct m. }
  case_decide; [rewrite wp_uuid|]; by apply Hrest.
Qed.

Lemma Migrate_effect sub req w st : sane st → World_ok w →
  wp (Migrate auth sub req) (λ r st' w', World_ok w' ∧
    fleet_of st' = fleet_of st ∧ cluster_of st' = cluster_of st ∧
    match r with
    | Ok (m, inst) => admitted sub req st st' m inst
    | Err _ => migrations_of st' = migrations_of st
    end) w st.
Proof.
  intros Hs Hw. unfold Migrate, check_migration. rewrite wp_bind, wp_bind, wp_wrap_err. apply wp_fetch; [done|].
  destruct (instance_at _ _) as [inst|] eqn:Hinst; cbn -[mbind]; [|done].
  rewrite wp_bind. apply wp_maybe_authorize; [|done]. intros Hperm.
  rewrite wp_bind. apply wp_GetActive; [done|]. intros [x|] w1 Hw1 Hfree; [by rewrite wp_fail|].
  rewrite wp_bind. apply wp_choose; [done|done|]. intros [dest|e] w2 Hw2 Hdest; [|done].
  case_decide as Hsrc; [by rewrite wp_fail|].
  rewrite wp_bind, wp_wrap_err. eapply wp_mono; [by apply PreflightCheck_effect|].
  intros [p|e] st3 w3 (-> & Hw3 & Hpre); [|done].
  cbn [negb]. destruct (Passed p) eqn:Hpass; cbn [negb]; [|by rewrite wp_fail].
  destruct (Hpre eq_refl) as (inst' & n & Hinst' & Hclear).
  rewrite (instance_at_ID _ _ _ (proj2 Hs) Hinst), Hinst in Hinst'. injection Hinst' as <-.
  rewrite wp_ret. unfold record_migration. cbv zeta.
  rewrite wp_bind, wp_uuid, wp_bind, wp_now, wp_bind, wp_now, wp_bind, wp_wrap_err.
  apply wp_file. intros m st4 w4 (id & c & u & ->) Hw4 Hf4 Hc4 Hm4.
  cbn in Hm4. rewrite wp_ret. split; [by eapply World_ok_same|]. split_and!; [done|done|].
  split; try done; cbn.
  - split_and!; try done. intros Hne. by apply Hdest.
  - by exists n.
Qed.
End admission.

(** ** Histories

    Calls of [Migrate] and the stages of the goroutines they started, in any
    order, with any other activity on the fleet and on the cluster between. *)

Inductive stage : Type := Started | Begun | Sent (failure : option string).

Section history.
Context {G E A : Type}.
Context `{!NodeGateway G, !NodeGatewayLaws G, !EventPublisher E, !AuditRepository A, !SortSlice}.
Context (auth : option Authorizer) (has_events has_audit : bool).
Abbreviation env := (MigrationEnv G E * A)%type.
Abbreviation tasks := (gmap string (Migration * Instance_ * stage)).
Implicit Types (st : env) (T : tasks).

Inductive turn : env * tasks → env * tasks → Prop :=
  | turn_migrate sub req w st T m inst :
      World_ok w → answer (Migrate auth sub req) w st = Ok (m, inst) →
      migrations_of st !! Migration_ID m = None →
      turn (st, T) (exec (Migrate auth sub req) w st, <[Migration_ID m := (m, inst, Started)]> T)
  | turn_refused sub req w st T e :
      World_ok w → answer (Migrate auth sub req) w st = Err e →
      turn (st, T) (exec (Migrate auth sub req) w st, T)
  | turn_begin w st T id m inst : T !! id = Some (m, inst, Started) →
      turn (st, T) (exec (begin m inst) w st, <[id := (m, inst, Begun)]> T)
  | turn_transfer w st T id m inst f : T !! id = Some (m, inst, Begun) →
      answer (transfer m inst) w st = Ok f →
      turn (st, T) (exec (transfer m inst) w st, <[id := (m, inst, Sent f)]> T)
  | turn_finish w st T id m inst f : T !! id = Some (m, inst, Sent f) →
      turn (st, T) (exec (finish has_events has_audit m inst f) w st, delete id T)
  | turn_outside st st' T : migrations_of st' = migrations_of st → sane st' →
      turn (st, T) (st', T).

(** The migrations and the goroutines at work on them. *)
Record ledger (ms : MigrationStore) (T : tasks) : Prop := {
  led_ids : ∀ id x, ms !! id = Some x → Migration_ID x = id;
  led_tasks : ∀ id m inst s, T !! id = Some (m, inst, s) → Migration_ID m = id;
  led_open : ∀ id, is_Some (T !! id) ↔
    ∃ x, ms !! id = Some x ∧ mig_IsTerminal (Migration_Status x) = false;
  led_closed : ∀ id x, ms !! id = Some x → mig_IsTerminal (Migration_Status x) = true →
    Migration_CompletedAt x ≠ None ∧
    (Migration_Status x = MigCompleted ∨ Migration_Status x = MigRolledBack);
  led_alone : ∀ id id' x x', ms !! id = Some x → ms !! id' = Some x' →
    mig_IsTerminal (Migration_Status x) = false → mig_IsTerminal (Migration_Status x') = false →
    Migration_InstanceID x = Migration_InstanceID x' → id = id'
}.

Definition history_ok (c : env * tasks) : Prop := sane c.1 ∧ ledger (migrations_of c.1) c.2.

Lemma ledger_file ms T m inst :
  ledger ms T → ms !! Migration_ID m = None → Migration_Status m = MigReserving →
  (∀ k x, ms !! k = Some x → ¬ active_for (Migration_InstanceID m) x) →
  ledger (<[Migration_ID m := m]> ms) (<[Migration_ID m := (m, inst, Started)]> T).
Proof.
  intros [Hi Ht Ho Hc Ha] Hnew Hs Hfree. split.
  - intros id x [[<- <-]|[_ Hx]]%lookup_insert_Some; [done|]. by apply Hi.
  - intros id m' i s [[<- [= <- _ _]]|[_ Hx]]%lookup_insert_Some; [done|]. by eapply Ht.
  - intros id. destruct (decide (id = Migration_ID m)) as [->|Hne].
    + rewrite !lookup_insert_eq. split; [|by eauto]. intros _. exists m. by rewrite Hs.
    + by rewrite !lookup_insert_ne by done.
  - intros id x [[<- <-]|[_ Hx]]%lookup_insert_Some; [by rewrite Hs|]. exact (Hc id x Hx).
  - intros id id' x x' [[<- <-]|[_ Hx]]%lookup_insert_Some [[<- <-]|[_ Hx']]%lookup_insert_Some;
      intros Hn Hn' Heq; [done| | |by eapply Ha].
    + exfalso. apply (Hfree id' x' Hx'). by split.
    + exfalso. apply (Hfree id x Hx). by split.
Qed.

(** A record rewritten in its place: it keeps its plan, and its goroutine goes
    on exactly while it is not terminal. *)
Lemma ledger_rewrite ms ms' T T' id x x' :
  ledger ms T → (∀ i, i ≠ id → ms' !! i = ms !! i) → (∀ i, i ≠ id → T' !! i = T !! i) →
  ms !! id = Some x → ms' !! id = Some x' → same_plan x x' →
  mig_IsTerminal (Migration_Status x) = false →
  (∀ m inst s, T' !! id = Some (m, inst, s) → Migration_ID m = id) →
  (is_Some (T' !! id) ↔ mig_IsTerminal (Migration_Status x') = false) →
  (mig_IsTerminal (Migration_Status x') = true → Migration_CompletedAt x' ≠ None ∧
    (Migration_Status x' = MigCompleted ∨ Migration_Status x' = MigRolledBack)) →
  ledger ms' T'.
Proof.
  intros [Hi Ht Ho Hc Ha] Hms HT Hx Hx' (Eid & Einst & _) Hopen Htask Hgo Hdone.
  assert (∀ i y, ms' !! i = Some y → mig_IsTerminal (Migration_Status y) = false →
    ∃ y0, ms !! i = Some y0 ∧ mig_IsTerminal (Migration_Status y0) = false ∧
      Migration_InstanceID y0 = Migration_InstanceID y) as Hback.
  { intros i y Hy Hn. destruct (decide (i = id)) as [->|Hne].
    - exists x. assert (y = x') as -> by congruence. done.
    - rewrite Hms in Hy by done. by exists y. }
  split.
  - intros i y Hy. destruct (decide (i = id)) as [->|Hne].
    + assert (y = x') as -> by congruence. rewrite Eid. by apply Hi.
    + rewrite Hms in Hy by done. by apply Hi.
  - intros i m inst s Hm. destruct (decide (i = id)) as [->|Hne]; [by eapply Htask|].
    rewrite HT in Hm by done. by eapply Ht.
  - intros i. destruct (decide (i = id)) as [->|Hne].
    + rewrite Hgo, Hx'. split; [by eauto|]. by intros (? & [= <-] & ?).
    + by rewrite HT, Hms by done.
  - intros i y Hy Hn. destruct (decide (i = id)) as [->|Hne].
    + assert (y = x') as -> by congruence. by apply Hdone.
    + rewrite Hms in Hy by done. by eapply Hc.
  - intros i j y z Hy Hz Hn Hn' Heq.
    destruct (Hback i y Hy Hn) as (y0 & Hy0 & Hny & Ey).
    destruct (Hback j z Hz Hn') as (z0 & Hz0 & Hnz & Ez).
    eapply (Ha i j y0 z0); try done. congruence.
Qed.

(** A stage of the goroutine of migration [id] that leaves its record at status
    [s], as [advanced] says. *)
Lemma ledger_advance ms ms' T T' id m inst g s :
  ledger ms T → T !! id = Some (m, inst, g) → advanced ms ms' id s →
  (∀ i, i ≠ id → T' !! i = T !! i) →
  match T' !! id with
  | Some (m', _, _) => m' = m ∧ mig_IsTerminal s = false
  | None => s = MigCompleted ∨ s = MigRolledBack
  end → ledger ms' T'.
Proof.
  intros Hl Hg [Ho Ha] HT Htask.
  destruct (proj1 (led_open _ _ Hl id)) as (x & Hx & Hn); [by eexists|].
  rewrite Hx in Ha. destruct Ha as (x' & Hx' & Hp & Hs & Hdone & _).
  eapply ledger_rewrite; try done; destruct (T' !! id) as [[[m' ?] ?]|] eqn:Et.
  - intros ? ? ? [= <- <- <-]. destruct Htask as [-> _]. by eapply led_tasks.
  - done.
  - destruct Htask as [_ Hopen]. rewrite Hs, Hopen. split; [done|by eexists].
  - rewrite Hs. split; [by intros []|]. by destruct Htask as [-> | ->].
  - destruct Htask as [_ Hopen]. by rewrite Hs, Hopen.
  - rewrite Hs. intros Hterm. split; [by apply Hdone|done].
Qed.

Lemma ledger_keep ms ms' T id m inst g g' :
  ledger ms T → T !! id = Some (m, inst, g) → kept ms ms' id →
  ledger ms' (<[id := (m, inst, g')]> T).
Proof.
  intros Hl Hg [Ho Hk].
  destruct (proj1 (led_open _ _ Hl id)) as (x & Hx & Hn); [by eexists|].
  rewrite Hx in Hk. destruct Hk as (x' & Hx' & Hp & Hs & Hc).
  eapply ledger_rewrite; try done; [by intros; apply lookup_insert_ne|..]; rewrite ?lookup_insert_eq.
  - intros ? ? ? [= <- <- <-]. by eapply led_tasks.
  - rewrite Hs, Hn. split; [done|by eexists].
  - by rewrite Hs, Hn.
Qed.

Lemma turn_ok c c' : turn c c' → history_ok c → history_ok c'.
Proof.
  intros Hturn. destruct Hturn as [sub req w st T m inst Hw Ha Hnew|sub req w st T e Hw Ha
    |w st T id m inst Ht|w st T id m inst f Ht _|w st T id m inst f Ht|st st' T Hm Hs'];
    intros [Hs Hl]; cbn [fst snd] in *.
  - pose proof (Migrate_effect auth sub req w st Hs Hw) as Heff. rewrite wp_elim, Ha in Heff.
    destruct Heff as (_ & Hf & Hc & [Hi _ Hfree (Ei & _) [Hst _] _ Hfiled]).
    split; [split; cbn; [by rewrite Hc; apply Hs|by rewrite Hf; apply Hs]|].
    cbn. rewrite Hfiled. apply ledger_file; [done..|]. by rewrite Ei.
  - pose proof (Migrate_effect auth sub req w st Hs Hw) as Heff. rewrite wp_elim, Ha in Heff.
    destruct Heff as (_ & Hf & Hc & Hms).
    split; [split; cbn; [by rewrite Hc; apply Hs|by rewrite Hf; apply Hs]|]. cbn. by rewrite Hms.
  - pose proof (begin_effect m inst w st) as Heff. rewrite wp_elim in Heff.
    destruct Heff as (_ & Hf & Hc & Hadv).
    split; [split; cbn; [by rewrite Hc; apply Hs|by rewrite Hf; apply Hs]|].
    assert (Migration_ID m = id) as Hid by (by eapply led_tasks). rewrite Hid in Hadv. cbn.
    eapply ledger_advance; [exact Hl|exact Ht|exact Hadv|by intros; apply lookup_insert_ne|].
    by rewrite lookup_insert_eq.
  - pose proof (transfer_effect m inst w st) as Heff. rewrite wp_elim in Heff.
    destruct Heff as (_ & Hf & Hc & Hk).
    split; [split; cbn; [by rewrite Hc; apply Hs|by rewrite Hf; apply Hs]|].
    assert (Migration_ID m = id) as Hid by (by eapply led_tasks). rewrite Hid in Hk.
    by eapply ledger_keep.
  - assert (Migration_ID m = id) as Hid by (by eapply led_tasks).
    destruct f as [errMsg|].
    + pose proof (roll_back_effect m inst errMsg w st) as Heff. rewrite wp_elim in Heff.
      destruct Heff as (_ & Hf & Hc & Hadv). rewrite Hid in Hadv.
      split; [split; cbn; [by rewrite Hc; apply Hs|by rewrite Hf; apply Hs]|].
      eapply ledger_advance; [exact Hl|exact Ht|exact Hadv|by intros; apply lookup_delete_ne|].
      cbn. rewrite lookup_delete_eq. by right.
    + pose proof (settle_effect has_events has_audit m inst w st (proj2 Hs)) as Heff.
      rewrite wp_elim in Heff. destruct Heff as (Hc & [Hok _] & Hadv). rewrite Hid in Hadv.
      split; [split; cbn; [by rewrite Hc; apply Hs|done]|].
      eapply ledger_advance; [exact Hl|exact Ht|exact Hadv|by intros; apply lookup_delete_ne|].
      cbn. rewrite lookup_delete_eq. by left.
  - split; [done|]. cbn. by rewrite Hm.
Qed.

Lemma history_holds c c' : rtc turn c c' → history_ok c → history_ok c'.
Proof. induction 1; [done|]. intros Hok. by eauto using turn_ok. Qed.

Lemma history_start st : migrations_of st = ∅ → sane st → history_ok (st, ∅).
Proof.
  intros Hm Hs. split; [done|]. cbn. rewrite Hm. split; try done.
  intros id. by split; [intros []|intros (? & ? & _)].
Qed.
End history.

(** ** Theorems *)

Section theorems.
Context {G E A : Type}.
Context `{!NodeGateway G, !NodeGatewayLaws G, !EventPublisher E, !AuditRepository A, !SortSlice}.
Abbreviation env := (MigrationEnv G E * A)%type.

(** Admission: a migration is only accepted for an instance without an
    unfinished migration, by a caller the authorizer lets manage it, to
    another node, the requested one if any, that takes work, is of the same
    architecture and has room for the instance on top of everything it
    hosts; it is then recorded as reserving and nothing else changed. A
    refused call changes neither the migrations nor the fleet. *)
Theorem migration_admission (auth : option Authorizer) (sub : option Subject)
    (req : MigrateRequest) (w : World) (st : env) :
  node_store_ok (cluster_of st) → instance_store_ok (fleet_of st) → World_ok w →
  let st' := exec (Migrate auth sub req) w st in
  fleet_of st' = fleet_of st ∧ cluster_of st' = cluster_of st ∧
  match answer (Migrate auth sub req) w st with
  | Err _ => migrations_of st' = migrations_of st
  | Ok (m, inst) => ∃ n,
      let here := hosted (all_instances (fleet_of st)) (Node_ID n) in
      instance_at (fleet_of st) (MigrateRequest_InstanceID req) = Some inst ∧
      permitted auth sub "migration:manage" (Instance_Resource inst) ∧
      (∀ k x, migrations_of st !! k = Some x → Migration_InstanceID x = Instance__ID inst →
         mig_IsTerminal (Migration_Status x) = true) ∧
      Migration_SourceNodeID m = Instance__NodeID inst ∧
      Migration_DestNodeID m ≠ Instance__NodeID inst ∧
      (MigrateRequest_DestNodeID req ≠ "" →
         Migration_DestNodeID m = MigrateRequest_DestNodeID req) ∧
      node_at (cluster_of st) (Migration_DestNodeID m) = Some n ∧ IsSchedulable n = true ∧
      (∀ src, node_at (cluster_of st) (Instance__NodeID inst) = Some src → ¬ arch_mismatch src n) ∧
      (Node_StorageBytes n < 2 ^ 63 → 0 ≤ total Instance__MemoryBytes here < 2 ^ 63 →
       0 ≤ total Instance__StorageBytes here < 2 ^ 63 →
       total Instance__MemoryBytes here + Instance__MemoryBytes inst ≤ maxMemoryBytes n ∧
       total Instance__StorageBytes here + Instance__StorageBytes inst ≤ maxStorageBytes n) ∧
      Migration_Status m = MigReserving ∧
      migrations_of st' = <[Migration_ID m := m]> (migrations_of st)
  end.
Proof.
  intros Hn Hi Hw st'. pose proof (Migrate_effect auth sub req w st (conj Hn Hi) Hw) as Heff.
  rewrite wp_elim in Heff. fold st' in Heff.
  destruct Heff as (_ & Hf & Hc & Heff).
  split; [done|]. split; [done|]. destruct (answer _ _ _) as [[m inst]|e]; [|done].
  destruct Heff as [Hinst Hperm Hfree (_ & Hsrc & Hne & Hreq) [Hst _] (n & Hat & Hsch & Hfit & Harch)
    Hfiled].
  exists n. cbv zeta. split_and!; try done.
  - intros k x Hx Heq. destruct (mig_IsTerminal _) eqn:Et; [done|].
    by destruct (Hfree k x Hx (conj Heq Et)).
  - exact (fits_room (capacity_request "" inst []) (planner st) n Hfit).
Qed.

(** C14 the goroutine settles: whatever the agents answer, it ends with its
    migration completed or rolled back, with its completion time set and its
    plan unchanged. Completed, the instance is recorded on the destination,
    running if it ran before, and every other instance is as it was; rolled
    back, no instance changed. The other migrations are untouched. *)
Theorem migration_settles (has_events has_audit : bool) (m x : Migration) (inst i : Instance_)
    (w : World) (st : env) :
  instance_store_ok (fleet_of st) →
  migrations_of st !! Migration_ID m = Some x →
  instance_at (fleet_of st) (Instance__ID inst) = Some i →
  let st' := exec (executeMigration has_events has_audit m inst) w st in
  (∀ k, k ≠ Migration_ID m → migrations_of st' !! k = migrations_of st !! k) ∧
  ∃ x', migrations_of st' !! Migration_ID m = Some x' ∧ same_plan x x' ∧
    Migration_CompletedAt x' ≠ None ∧
    ((Migration_Status x' = MigRolledBack ∧ fleet_of st' = fleet_of st) ∨
     (Migration_Status x' = MigCompleted ∧
      ∃ i' rest, instance_at (fleet_of st') (Instance__ID inst) = Some i' ∧
        Instance__ID i' = Instance__ID i ∧ Instance__Name i' = Instance__Name i ∧
        Instance__NodeID i' = Migration_DestNodeID m ∧
        Instance__Status i' = (if was_running inst then StatusRunning else Instance__Status i) ∧
        all_instances (fleet_of st) ≡ₚ i :: rest ∧ all_instances (fleet_of st') ≡ₚ i' :: rest)).
Proof.
  intros Hok Hx Hi st'. pose proof (execute_effect has_events has_audit m inst w st Hok) as Heff.
  rewrite wp_elim in Heff. fold st' in Heff. destruct Heff as (_ & [([Ho Ha] & Hrel)|([Ho Ha] & Hf)]);
    rewrite Hx in Ha; destruct Ha as (x' & Hx' & Hp & Hs & Hterm & _); (split; [exact Ho|]);
    exists x'; (split_and!; [done..| |]); rewrite ?Hs; try (by apply Hterm; rewrite ?Hs).
  - right. split; [done|]. destruct Hrel as [_ (g & Hg & Hu)]. unfold updated in Hu.
    rewrite Hi in Hu. destruct Hu as (rest & Hat & Hp1 & Hp2), (Hg i) as (? & ? & ? & _ & _ & ?).
    exists (g i), rest. by split_and!.
  - by left.
Qed.

(** C13 one migration at a time, as long as calls of [Migrate] do not overlap
    (two that do both pass: [concurrent_migrations_both_pass]): whatever calls
    are made one after the other and however the goroutines they start interleave with them, with each
    other and with any other work on the fleet, an instance has at most one
    unfinished migration, a migration is unfinished exactly while its
    goroutine is under way, and a finished one is completed or rolled back,
    with its completion time. *)
Theorem migration_exclusive (auth : option Authorizer) (has_events has_audit : bool)
    (st0 st : env) (T : gmap string (Migration * Instance_ * stage)) :
  migrations_of st0 = ∅ → node_store_ok (cluster_of st0) → instance_store_ok (fleet_of st0) →
  rtc (turn auth has_events has_audit) (st0, ∅) (st, T) →
  let open x := mig_IsTerminal (Migration_Status x) = false in
  (∀ k k' x x', migrations_of st !! k = Some x → migrations_of st !! k' = Some x' →
     open x → open x' → Migration_InstanceID x = Migration_InstanceID x' → k = k') ∧
  ∀ k x, migrations_of st !! k = Some x →
    (open x ↔ is_Some (T !! k)) ∧
    (¬ open x → Migration_CompletedAt x ≠ None ∧
      (Migration_Status x = MigCompleted ∨ Migration_Status x = MigRolledBack)).
Proof.
  intros Hm Hn Hi Hr open.
  destruct (history_holds auth has_events has_audit _ _ Hr (history_start st0 Hm (conj Hn Hi)))
    as [_ [_ _ Hopen Hclosed Halone]]. cbn in *.
  split; [intros k k' x x'; by apply Halone|]. intros k x Hx. split.
  - rewrite Hopen, Hx. split; [by eauto|]. by intros (? & [= <-] & ?).
  - intros Ht. apply Hclosed with k; [done|]. unfold open in Ht. by destruct (mig_IsTerminal _).
Qed.
End theorems.

(** ** A cluster of two nodes *)

Section demo.
#[local] Existing Instances tagging_digest EventRecorder InsertionSort.

Abbreviation Yard := (MigrationEnv Loopback (list Event) * AuditStore)%type.

Definition obliging : result CommandResult := Ok (mkCommandResult "" true "" None 0).
Definition refusing : result CommandResult := Ok (mkCommandResult "" false "no space" None 0).

Definition yard (fleet : MemoryInstanceStore) (reply : result CommandResult) : Yard :=
  (mkMigrationEnv ∅ fleet (mkLoopback (ss_nodes demo_cluster) reply []) [], empty_audit).

Definition operator : Subject :=
  mkSubject "user" "ops" "ops" "ops" "" ["superadmin"] [] [] ∅.
Definition evict (id : string) : MigrateRequest := mkMigrateRequest id "" "".

Definition move (id : string) : go Yard (Migration * Instance_) :=
  Migrate (Some DynamicAuthorizer) (Some operator) (evict id).
Definition run_it (mi : Migration * Instance_) : go Yard () := executeMigration true true mi.1 mi.2.

Lemma yard_ok reply : node_store_ok (cluster_of (yard demo_instances reply)) ∧
  instance_store_ok (fleet_of (yard demo_instances reply)).
Proof. split; [exact demo_nodes_ok|exact demo_instances_ok]. Qed.

Lemma migration_admission_witness : ∃ m inst,
  answer (move "i1") (named "a") (yard demo_instances obliging) = Ok (m, inst) ∧
  Migration_DestNodeID m = "n2" ∧
  migrations_of (exec (move "i1") (named "a") (yard demo_instances obliging)) =
    <[Migration_ID m := m]> ∅.
Proof.
  pose proof (migration_admission (Some DynamicAuthorizer) (Some operator) (evict "i1") (named "a")
    (yard demo_instances obliging) (proj1 (yard_ok obliging)) (proj2 (yard_ok obliging)) (named_ok "a")) as (_ & _ & H).
  destruct (answer (move "i1") (named "a") (yard demo_instances obliging)) as [[m inst]|e] eqn:Ea;
    [|vm_compute in Ea; discriminate Ea].
  unfold move in Ea. rewrite Ea in H. destruct H as (n & H). exists m, inst.
  split; [reflexivity|]. split; [|apply H]. vm_compute in Ea. by injection Ea as <- _.
Defined.

(** The migration and the instance of the demonstration, once accepted. *)
Definition accepted_move : Migration * Instance_ :=
  match answer (move "i1") (named "a") (yard demo_instances obliging) with
  | Ok mi => mi
  | Err _ => (mkMigration "" "" "" "" "" "" MigPending
                (mkPreflightValidation true true true true true true true true "")
                0 0 0 "" None None 0 0, demo_instance)
  end.
Definition moving (reply : result CommandResult) : Yard :=
  (mkMigrationEnv {[Migration_ID accepted_move.1 := accepted_move.1]} demo_instances
     (mkLoopback (ss_nodes demo_cluster) reply []) [], empty_audit).

Lemma migration_settles_witness : ∃ x',
  migrations_of (exec (run_it accepted_move) (named "b") (moving obliging)) !!
    Migration_ID accepted_move.1 = Some x' ∧
  Migration_CompletedAt x' ≠ None ∧ Migration_Status x' = MigCompleted.
Proof.
  pose proof (migration_settles true true accepted_move.1 accepted_move.1 accepted_move.2
    demo_instance (named "b") (moving obliging) demo_instances_ok (lookup_singleton_eq _ _)
    ltac:(vm_compute; reflexivity)) as (_ & x' & Hx & _ & Hc & _).
  exists x'. split; [exact Hx|]. split; [exact Hc|].
  vm_compute in Hx. injection Hx as <-. vm_compute. reflexivity.
Defined.

(** After one call and the first stage of its goroutine. *)
Definition first_call : Yard := exec (move "i1") (named "a") (yard demo_instances obliging).
Definition first_stage : Yard := exec (begin accepted_move.1 accepted_move.2) (named "b") first_call.

Lemma migration_exclusive_witness :
  (∀ k k' x x', migrations_of first_stage !! k = Some x → migrations_of first_stage !! k' = Some x' →
     mig_IsTerminal (Migration_Status x) = false → mig_IsTerminal (Migration_Status x') = false →
     Migration_InstanceID x = Migration_InstanceID x' → k = k') ∧
  (∃ x, migrations_of first_stage !! Migration_ID accepted_move.1 = Some x ∧
     Migration_Status x = MigTransferring).
Proof.
  set (m := accepted_move.1). set (inst := accepted_move.2).
  destruct (migration_exclusive (Some DynamicAuthorizer) true true (yard demo_instances obliging)
    first_stage (<[Migration_ID m := (m, inst, Begun)]> (<[Migration_ID m := (m, inst, Started)]> ∅))
    eq_refl (proj1 (yard_ok obliging)) (proj2 (yard_ok obliging))) as [H _].
  - eapply rtc_l; [|apply rtc_once].
    + apply (turn_migrate _ _ _ (Some operator) (evict "i1") (named "a") _ _ m inst (named_ok "a"));
        [vm_compute; reflexivity|reflexivity].
    + apply turn_begin. apply lookup_insert_eq.
  - split; [exact H|]. eexists. split; vm_compute; reflexivity.
Defined.

(** A reserving migration reserves nothing: two instances that do not fit
    together are both admitted to the same node, and both end up there. *)
Definition heavy (id name : string) : Instance_ :=
  mkInstance_ id "u1" "n1" name TypeContainer StatusRunning 1 (10 * GB) (2 ^ 33) "debian" "" "" ∅ 0 0.
Definition two_heavy : MemoryInstanceStore :=
  exec (InstanceCreate (heavy "i2" "db")) (calm 0)
    (exec (InstanceCreate (heavy "i1" "web")) (calm 0) NewMemoryInstanceStore).
Definition both_moved : go Yard () :=
  one ← move "i1"; two ← move "i2"; run_it one ;; run_it two.

Lemma reserving_reserves_nothing :
  let st := exec both_moved (named "a") (yard two_heavy obliging) in
  answer both_moved (named "a") (yard two_heavy obliging) = Ok () ∧
  maxMemoryBytes (demo_host "n2" 16) < total Instance__MemoryBytes (hosted (all_instances (fleet_of st)) "n2").
Proof. split; vm_compute; reflexivity. Qed.

(** Two calls for one instance that are both admitted before one of them has
    written its record: two migrations of one instance are under way. *)
Definition overlapping : go Yard () :=
  one ← check_migration (Some DynamicAuthorizer) (Some operator) (evict "i1");
  two ← check_migration (Some DynamicAuthorizer) (Some operator) (evict "i1");
  let '(inst, dest, preflight) := one in
  record_migration (evict "i1") inst dest preflight ;;
  let '(inst, dest, preflight) := two in
  record_migration (evict "i1") inst dest preflight ;;
  mret ().

Example concurrent_migrations_both_pass :
  let st := exec overlapping (named "a") (yard demo_instances obliging) in
  answer overlapping (named "a") (yard demo_instances obliging) = Ok () ∧
  length (filter (active_for "i1") (map_to_list (migrations_of st)).*2) = 2%nat.
Proof. split; vm_compute; reflexivity. Qed.

(** The agent of the destination refuses: the instance stays where it was. *)
Example refused_by_the_agent :
  let st := exec (run_it accepted_move) (named "b") (moving refusing) in
  fleet_of st = demo_instances ∧
  (Migration_Error <$> migrations_of st !! Migration_ID accepted_move.1) = Some "no space".
Proof. split; vm_compute; reflexivity. Qed.
End demo.
