(* ===== verification/Evacuation.v ===== *)
(** * Draining and evacuation of a node

    [internal/app/evacuation/service.go]: the node is marked as draining and
    every instance it hosts is migrated, one call of the migration service
    after the other. The goroutines the calls start are answered as tasks. *)

From S2P Require Import Prelude Identity AuditTrail Events Node Commands Instances Scheduler Migration.

Record EvacuationResult : Type := mkEvacuationResult {
  EvacuationResult_NodeID : string;
  EvacuationResult_TotalWorkloads : Z;
  EvacuationResult_MigratedCount : Z;
  EvacuationResult_FailedCount : Z;
  EvacuationResult_Migrations : list Migration;
  EvacuationResult_Errors : list string
}.

Definition eta_EvacuationResult (r : EvacuationResult) : EvacuationResult :=
  mkEvacuationResult (EvacuationResult_NodeID r) (EvacuationResult_TotalWorkloads r)
    (EvacuationResult_MigratedCount r) (EvacuationResult_FailedCount r)
    (EvacuationResult_Migrations r) (EvacuationResult_Errors r).
#[export] Instance set_EvacuationResult_MigratedCount : Setter EvacuationResult_MigratedCount := ltac:(setter eta_EvacuationResult EvacuationResult_MigratedCount).
#[export] Instance set_EvacuationResult_FailedCount : Setter EvacuationResult_FailedCount := ltac:(setter eta_EvacuationResult EvacuationResult_FailedCount).
#[export] Instance set_EvacuationResult_Migrations : Setter EvacuationResult_Migrations := ltac:(setter eta_EvacuationResult EvacuationResult_Migrations).
#[export] Instance set_EvacuationResult_Errors : Setter EvacuationResult_Errors := ltac:(setter eta_EvacuationResult EvacuationResult_Errors).

Section service.
Context {G E A : Type} `{!NodeGateway G, !EventPublisher E, !AuditRepository A, !SortSlice}.
Context (auth : option Authorizer) (has_events has_audit : bool).
(** The authorizer of the migration service the calls go to. *)
Context (migration_auth : option Authorizer).
Abbreviation env := (MigrationEnv G E * A)%type.
Abbreviation task := (Migration * Instance_)%type.

Definition find_node (nodeID : string) : go env Node :=
  wrap_err (λ e, Wrapf ("node not found: " +:+ Prelude.Error e) e)
    (on_gateway (read_nodes (NodeGetByID nodeID))).

Definition DrainNode (sub : option Subject) (nodeID : string) (drain : bool) : go env () :=
  n ← find_node nodeID;
  maybe_authorize auth sub "node:drain" (Some (Node_Resource n)) ;;
  on_gateway (write_nodes (UpdateDrainMode nodeID drain)) ;;
  if has_audit then
    actor ← caller_id sub;
    audit_event (Some actor) "node.drain_mode_updated" "node" (Some nodeID)
      (Some (details [("drainMode", AnyBool drain)]))
  else mret ().

(** One turn of the loop: what it adds to the answer, and the goroutine. *)
Definition evacuate_one (sub : option Subject) (destNodeID : string) (inst : Instance_)
    (res : EvacuationResult) : go env (EvacuationResult * list task) :=
  if decide (Instance__Status inst = StatusDeleted) then mret (res, [])
  else
    r ← try (Migrate migration_auth sub (mkMigrateRequest (Instance__ID inst) destNodeID TypeCold));
    mret match r with
         | Err e =>
             (res <| EvacuationResult_FailedCount := add64 (EvacuationResult_FailedCount res) 1 |>
                  <| EvacuationResult_Errors := EvacuationResult_Errors res ++
                       ["Instance " +:+ Instance__Name inst +:+ " (" +:+ Instance__ID inst +:+
                        "): " +:+ Prelude.Error e] |>, [])
         | Ok (mig, captured) =>
             (res <| EvacuationResult_MigratedCount := add64 (EvacuationResult_MigratedCount res) 1 |>
                  <| EvacuationResult_Migrations := EvacuationResult_Migrations res ++ [mig] |>,
              [(mig, captured)])
         end.

Fixpoint evacuate_all (sub : option Subject) (destNodeID : string) (instances : list Instance_)
    (res : EvacuationResult) : go env (EvacuationResult * list task) :=
  match instances with
  | [] => mret (res, [])
  | inst :: rest =>
      one ← evacuate_one sub destNodeID inst res;
      all ← evacuate_all sub destNodeID rest one.1;
      mret (all.1, one.2 ++ all.2)
  end.

Definition EvacuateNode (sub : option Subject) (nodeID destNodeID : string) :
    go env (EvacuationResult * list task) :=
  n ← find_node nodeID;
  maybe_authorize auth sub "node:evacuate" (Some (Node_Resource n)) ;;
  ignore (on_gateway (write_nodes (UpdateDrainMode nodeID true))) ;;
  instances ← wrap_err
    (λ e, Wrapf ("failed to list instances for evacuation: " +:+ Prelude.Error e) e)
    (on_instances (ListByNode nodeID));
  out ← evacuate_all sub destNodeID instances
          (mkEvacuationResult nodeID (Z.of_nat (length instances)) 0 0 [] []);
  (if has_events then
     ignore (on_events (Publish (new_event "system" "node.evacuated" "node" nodeID ""
       (details [("totalWorkloads", AnyInt (EvacuationResult_TotalWorkloads out.1));
                 ("migratedCount", AnyInt (EvacuationResult_MigratedCount out.1));
                 ("failedCount", AnyInt (EvacuationResult_FailedCount out.1))]))))
   else mret ()) ;;
  mret out.
End service.

(** ** What the loop does *)

Section effects.
Context {G E A : Type}.
Context `{!NodeGateway G, !NodeGatewayLaws G, !EventPublisher E, !AuditRepository A, !SortSlice}.
Context (auth : option Authorizer) (has_events has_audit : bool) (migration_auth : option Authorizer).
Abbreviation env := (MigrationEnv G E * A)%type.
Implicit Types (st : env).

(** The instances the loop asks to migrate. *)
Definition evacuees (l : list Instance_) : list Instance_ :=
  filter (λ i, Instance__Status i ≠ StatusDeleted) l.
#[local] Arguments evacuees : simpl never.

(** From [res] to [res'] over the instances [l], with the tasks [ts]: every
    one that is not deleted is either accepted or reported. *)
Record accounted (nodes : MemoryNodeStore) (dest : string) (l : list Instance_) (res res' : EvacuationResult)
    (ts : list (Migration * Instance_)) : Prop := {
  acc_total : EvacuationResult_TotalWorkloads res' = EvacuationResult_TotalWorkloads res;
  acc_node : EvacuationResult_NodeID res' = EvacuationResult_NodeID res;
  acc_migrations : EvacuationResult_Migrations res' = EvacuationResult_Migrations res ++ ts.*1;
  acc_errors : ∃ es, EvacuationResult_Errors res' = EvacuationResult_Errors res ++ es ∧
    (length ts + length es = length (evacuees l))%nat ∧
    EvacuationResult_FailedCount res' =
      wrap64 (EvacuationResult_FailedCount res + Z.of_nat (length es));
  acc_count : EvacuationResult_MigratedCount res' =
    wrap64 (EvacuationResult_MigratedCount res + Z.of_nat (length ts));
  acc_tasks : Forall (λ t : Migration * Instance_, t.2 ∈ evacuees l ∧
    Migration_InstanceID t.1 = Instance__ID t.2 ∧ Migration_Status t.1 = MigReserving ∧
    Migration_SourceNodeID t.1 = Instance__NodeID t.2 ∧
    Migration_DestNodeID t.1 ≠ Instance__NodeID t.2 ∧
    (dest ≠ "" → Migration_DestNodeID t.1 = dest) ∧
    ∃ n, node_at nodes (Migration_DestNodeID t.1) = Some n ∧ IsSchedulable n = true) ts
}.

Lemma wrap64_idem z : wrap64 (wrap64 z) = wrap64 z.
Proof. apply wrap64_id, wrap64_ok. Qed.

Lemma accounted_nil nodes dest res :
  EvacuationResult_FailedCount res = wrap64 (EvacuationResult_FailedCount res) →
  EvacuationResult_MigratedCount res = wrap64 (EvacuationResult_MigratedCount res) →
  accounted nodes dest [] res res [].
Proof.
  intros Hf Hm. split; cbn; try done; [by rewrite app_nil_r| |by rewrite Z.add_0_r].
  exists []. by rewrite app_nil_r, Z.add_0_r.
Qed.

Lemma accounted_app nodes dest l1 l2 r0 r1 r2 t1 t2 :
  accounted nodes dest l1 r0 r1 t1 → accounted nodes dest l2 r1 r2 t2 →
  accounted nodes dest (l1 ++ l2) r0 r2 (t1 ++ t2).
Proof.
  intros [Ht1 Hn1 Hm1 (es1 & He1 & Hl1 & Hf1) Hc1 Hk1] [Ht2 Hn2 Hm2 (es2 & He2 & Hl2 & Hf2) Hc2 Hk2].
  assert (evacuees (l1 ++ l2) = evacuees l1 ++ evacuees l2) as Hev by apply filter_app.
  split; [congruence|congruence|..].
  - by rewrite Hm2, Hm1, fmap_app, app_assoc.
  - exists (es1 ++ es2). rewrite He2, He1, Hev, Hf2, Hf1, wrap64_add_l, !length_app, app_assoc.
    split_and!; [done|lia|f_equal; lia].
  - rewrite Hc2, Hc1, wrap64_add_l, length_app. f_equal. lia.
  - rewrite Hev. apply Forall_app. split.
    + eapply Forall_impl; [exact Hk1|]. intros t (Hin & Hrest).
      split; [apply elem_of_app; by left|done].
    + eapply Forall_impl; [exact Hk2|]. intros t (Hin & Hrest).
      split; [apply elem_of_app; by right|done].
Qed.

Definition counted (res : EvacuationResult) : Prop :=
  EvacuationResult_FailedCount res = wrap64 (EvacuationResult_FailedCount res) ∧
  EvacuationResult_MigratedCount res = wrap64 (EvacuationResult_MigratedCount res).

Lemma evacuate_one_effect sub dest inst res w st :
  sane st → World_ok w → instance_at (fleet_of st) (Instance__ID inst) = Some inst → counted res →
  wp (evacuate_one migration_auth sub dest inst res) (λ r st' w', World_ok w' ∧
    fleet_of st' = fleet_of st ∧ cluster_of st' = cluster_of st ∧
    ∃ res' ts, r = Ok (res', ts) ∧ counted res' ∧ accounted (cluster_of st) dest [inst] res res' ts) w st.
Proof.
  intros Hs Hw Hat [Hf Hc]. unfold evacuate_one. case_decide as Hdel.
  { rewrite wp_ret. split_and!; try done. exists res, []. split_and!; try done.
    destruct (accounted_nil (cluster_of st) dest res Hf Hc) as [? ? ? (es & ? & ? & ?) ? ?].
    split; try done. exists es. split_and!; try done.
    unfold evacuees. rewrite filter_cons_False by (intros []; done). done. }
  assert (evacuees [inst] = [inst]) as Hev by (unfold evacuees; by rewrite filter_cons_True).
  rewrite wp_bind, wp_try.
  eapply wp_mono; [by apply Migrate_effect|]. intros [[m i]|e] st1 w1 (Hw1 & Hf1 & Hc1 & Hm);
    rewrite wp_ret; split_and!; try done; eexists _, _; (split; [reflexivity|]).
  - destruct Hm as [Hi _ _ (Ei & Esrc & Hne & Hreq) [Hst _] (n & Hn & Hsch & _) _].
    cbn in Hi. assert (i = inst) as -> by congruence. cbn. split.
    { split; [done|]. cbn. unfold add64. by rewrite wrap64_idem. }
    split; cbn; try done.
    + exists []. rewrite app_nil_r, Z.add_0_r, Hev. by split_and!.
    + apply Forall_singleton. cbn. rewrite Hev, Ei, Esrc. split_and!; try done; [by left|].
      by exists n.
  - cbn. split.
    { split; [|done]. cbn. unfold add64. by rewrite wrap64_idem. }
    split; cbn; try done; [by rewrite app_nil_r| |by rewrite Z.add_0_r].
    eexists. split; [reflexivity|]. rewrite Hev. by split.
Qed.

Lemma evacuate_all_effect sub dest l : ∀ res w st,
  sane st → World_ok w →
  Forall (λ i, instance_at (fleet_of st) (Instance__ID i) = Some i) l → counted res →
  wp (evacuate_all migration_auth sub dest l res) (λ r st' w', World_ok w' ∧
    fleet_of st' = fleet_of st ∧ cluster_of st' = cluster_of st ∧
    ∃ res' ts, r = Ok (res', ts) ∧ accounted (cluster_of st) dest l res res' ts) w st.
Proof.
  induction l as [|inst l IH]; intros res w st Hs Hw Hl Hcount; cbn [evacuate_all].
  { rewrite wp_ret. split_and!; try done. exists res, []. split; [done|].
    destruct Hcount. by apply accounted_nil. }
  apply Forall_cons in Hl as [Hi Hl]. rewrite wp_bind.
  eapply wp_mono; [by apply evacuate_one_effect|].
  intros r st1 w1 (Hw1 & Hf1 & Hc1 & res1 & ts1 & -> & Hcount1 & Hacc1). cbn [fst snd].
  rewrite wp_bind. eapply wp_mono.
  { apply (IH res1); [|done| |done]; unfold sane; by rewrite ?Hf1, ?Hc1. }
  intros r st2 w2 (Hw2 & Hf2 & Hc2 & res2 & ts2 & -> & Hacc2). rewrite wp_ret. cbn [fst snd].
  split_and!; [done|congruence|congruence|]. eexists _, _. split; [reflexivity|].
  rewrite Hc1 in Hacc2. exact (accounted_app _ _ [inst] l _ _ _ _ _ Hacc1 Hacc2).
Qed.

Lemma wp_find_node id (P : result Node → env → World → Prop) w st : sane st →
  match node_at (cluster_of st) id with
  | Some n => P (Ok n) st w
  | None => ∀ e, P (Err e) st w
  end → wp (find_node id) P w st.
Proof.
  intros Hs HP. unfold find_node. rewrite wp_wrap_err. apply wp_fetch_node; [done|].
  by destruct (node_at _ _).
Qed.

(** The record [UpdateDrainMode] leaves. *)
Definition drained (b : bool) (now : Z) (n : Node) : Node :=
  let n := n <| Node_DrainMode := b |> in
  let n := if decide (b = true ∧ Node_Status n = StatusOnline)
           then n <| Node_Status := StatusDraining |>
           else if decide (b = false ∧ Node_Status n = StatusDraining)
           then n <| Node_Status := StatusOnline |>
           else n in
  n <| Node_UpdatedAt := now |>.

Lemma drained_spec b now n : same_keys n (drained b now n) ∧ Node_DrainMode (drained b now n) = b ∧
  (b = true → IsSchedulable (drained b now n) = false).
Proof.
  unfold drained. split; [by repeat case_decide|]. split; [by repeat case_decide|].
  intros ->. unfold IsSchedulable. repeat case_decide; cbn; by rewrite ?andb_false_r.
Qed.

(** Setting the drain mode of a node that exists. *)
Lemma wp_drain id b n (P : result () → env → World → Prop) w st :
  sane st → node_at (cluster_of st) id = Some n →
  (∀ st' w' n', same_oracles w w' → sane st' → fleet_of st' = fleet_of st →
     migrations_of st' = migrations_of st →
     (∀ id', node_at (cluster_of st') id' = if decide (id' = id) then Some n' else node_at (cluster_of st) id') →
     Node_DrainMode n' = b → (b = true → IsSchedulable n' = false) → P (Ok ()) st' w') →
  wp (on_gateway (write_nodes (UpdateDrainMode id b))) P w st.
Proof.
  intros [Hns Hi] Hn HP. destruct st as [[ms is' g e] a]. unfold on_gateway, write_nodes.
  rewrite wp_on_store, wp_zoom, wp_zoom.
  destruct (drained_spec b (now_of w) n) as (Hk & Hd & Hs).
  destruct (update_node_effect id (drained b) w (gateway_nodes g) n Hns Hn Hk)
    as (s' & Hrun & Hok & Hat).
  apply (proj2 (wp_run _ _ _ _ _ _ _ Hrun)). eapply HP; [done| |done|done| |exact Hd|exact Hs].
  - split; [unfold cluster_of; cbn; by rewrite gateway_get_put|done].
  - intros id'. unfold cluster_of. cbn. rewrite gateway_get_put. apply Hat.
Qed.

Lemma wp_hosted id (P : result (list Instance_) → env → World → Prop) w st :
  sane st → World_ok w →
  (∀ l w', same_oracles w w' →
     l ≡ₚ filter (λ i, Instance__NodeID i = id) (all_instances (fleet_of st)) →
     Forall (λ i, instance_at (fleet_of st) (Instance__ID i) = Some i) l → P (Ok l) st w') →
  wp (on_instances (ListByNode id)) P w st.
Proof.
  intros [_ Hi] Hw HP. rewrite wp_on_fleet. unfold ListByNode. rewrite wp_bind.
  destruct (ListAll_run w (fleet_of st) Hi Hw) as (l & Hrun & Hp & Hat).
  apply (proj2 (wp_run _ _ _ _ _ _ _ Hrun)). rewrite wp_ret. destruct st as [[] ?].
  apply HP; [by split_and!|by rewrite Hp|]. apply Forall_forall.
  intros i [_ Hin]%list_elem_of_filter. by apply Hat.
Qed.
End effects.

(** ** Theorems *)

Section theorems.
Context {G E A : Type}.
Context `{!NodeGateway G, !NodeGatewayLaws G, !EventPublisher E, !AuditRepository A, !SortSlice}.
Abbreviation env := (MigrationEnv G E * A)%type.

(** What an evacuation answers and leaves. *)
Definition evacuated (st st' : env) (nodeID dest : string) (res : EvacuationResult)
    (ts : list (Migration * Instance_)) : Prop :=
  let hosts := filter (λ i, Instance__NodeID i = nodeID) (all_instances (fleet_of st)) in
  fleet_of st' = fleet_of st ∧
  (∃ n, node_at (cluster_of st') nodeID = Some n ∧ Node_DrainMode n = true ∧
     IsSchedulable n = false) ∧
  (∀ id, id ≠ nodeID → node_at (cluster_of st') id = node_at (cluster_of st) id) ∧
  EvacuationResult_TotalWorkloads res = Z.of_nat (length hosts) ∧
  EvacuationResult_Migrations res = ts.*1 ∧
  EvacuationResult_MigratedCount res = wrap64 (Z.of_nat (length (EvacuationResult_Migrations res))) ∧
  EvacuationResult_FailedCount res = wrap64 (Z.of_nat (length (EvacuationResult_Errors res))) ∧
  (length (EvacuationResult_Migrations res) + length (EvacuationResult_Errors res) =
   length (evacuees hosts))%nat ∧
  Forall (λ m, (∃ i, i ∈ hosts ∧ Instance__Status i ≠ StatusDeleted ∧
      Migration_InstanceID m = Instance__ID i) ∧ Migration_Status m = MigReserving ∧
    Migration_SourceNodeID m = nodeID ∧ Migration_DestNodeID m ≠ nodeID ∧
    (dest ≠ "" → Migration_DestNodeID m = dest) ∧
    ∃ n, node_at (cluster_of st) (Migration_DestNodeID m) = Some n ∧ IsSchedulable n = true)
    (EvacuationResult_Migrations res).

Lemma accounted_evacuated (st st1 st2 : env) nodeID dest n' l res ts :
  fleet_of st1 = fleet_of st → fleet_of st2 = fleet_of st1 → cluster_of st2 = cluster_of st1 →
  (∀ id', node_at (cluster_of st1) id' =
     if decide (id' = nodeID) then Some n' else node_at (cluster_of st) id') →
  Node_DrainMode n' = true → IsSchedulable n' = false →
  l ≡ₚ filter (λ i, Instance__NodeID i = nodeID) (all_instances (fleet_of st)) →
  accounted (cluster_of st1) dest l
    (mkEvacuationResult nodeID (Z.of_nat (length l)) 0 0 [] []) res ts →
  evacuated st st2 nodeID dest res ts.
Proof.
  intros Hf1 Hf2 Hc2 Hat Hdrain Hsch Hl [Htot _ Hmig (es & Hes & Hlen & Hfail) Hcnt Hts].
  cbn in *. assert (evacuees l ≡ₚ evacuees (filter (λ i, Instance__NodeID i = nodeID)
    (all_instances (fleet_of st)))) as Hev by (unfold evacuees; by rewrite Hl).
  unfold evacuated. rewrite Hc2, Hmig, Hes, Htot. split_and!.
  - congruence.
  - exists n'. rewrite Hat. by case_decide.
  - intros id Hne. rewrite Hat. by case_decide.
  - by rewrite Hl.
  - done.
  - by rewrite length_fmap.
  - done.
  - by rewrite length_fmap, Hlen, Hev.
  - apply Forall_fmap. eapply Forall_impl; [exact Hts|].
    intros [m i] (Hin & Ei & Est & Esrc & Hne & Hreq & n & Hn & Hs). cbn in *.
    rewrite Hev in Hin. apply list_elem_of_filter in Hin as [Hnd Hin].
    assert (Instance__NodeID i = nodeID) as Hhere by (by apply list_elem_of_filter in Hin as [? _]).
    rewrite Hhere in *. split_and!; try done; [by exists i|].
    exists n. split; [|done]. rewrite Hat in Hn. by case_decide.
Qed.

(** Evacuation: the evacuated node is draining and takes no new work, no
    other node and no instance record changed, and every instance hosted on
    the node is accounted for: each one not deleted either has a migration
    under way from the node to another node that takes work (the requested
    one, if any), or is reported as an error; the counts are theirs. A call
    that fails changed nothing. *)
Theorem evacuation_accounts (auth migration_auth : option Authorizer) (has_events : bool)
    (sub : option Subject) (nodeID dest : string) (w : World) (st : env) :
  node_store_ok (cluster_of st) → instance_store_ok (fleet_of st) → World_ok w →
  let run := EvacuateNode auth has_events migration_auth sub nodeID dest in
  match answer run w st with
  | Err _ => same_books st (exec run w st)
  | Ok (res, ts) => evacuated st (exec run w st) nodeID dest res ts
  end.
Proof.
  intros Hn Hi Hw run. assert (sane st) as Hs by done. cut (wp run (λ r st' _, match r with
    | Err _ => same_books st st'
    | Ok (res, ts) => evacuated st st' nodeID dest res ts
    end) w st); [by rewrite wp_elim|].
  unfold run, EvacuateNode. rewrite wp_bind. apply wp_find_node; [done|].
  destruct (node_at _ nodeID) as [n|] eqn:Hnode; [|done].
  rewrite wp_bind. apply wp_maybe_authorize; [|done]. intros _. rewrite wp_bind, wp_ignore.
  eapply wp_drain; [done|exact Hnode|]. intros st1 w1 n' Hw1 Hs1 Hf1 Hm1 Hat Hdrain Hsch.
  apply (World_ok_same _ _ Hw1) in Hw. rewrite wp_bind, wp_wrap_err.
  apply wp_hosted; [done|done|]. intros l w2 Hw2 Hl Hall. apply (World_ok_same _ _ Hw2) in Hw.
  rewrite wp_bind. eapply wp_mono; [apply evacuate_all_effect; [done|done|done|by split]|].
  intros r st3 w3 (_ & Hf3 & Hc3 & res & ts & -> & Hacc). rewrite wp_bind.
  assert (∀ st4, same_books st3 st4 → evacuated st st4 nodeID dest res ts) as Hend.
  { intros st4 (_ & Hf4 & Hc4). rewrite Hf1 in Hl.
    eapply accounted_evacuated; [exact Hf1|congruence|congruence|done|done|by apply Hsch|done|done]. }
  destruct has_events; [|rewrite wp_ret, wp_ret; by apply Hend].
  rewrite wp_ignore. destruct st3 as [[ms ins g e] a]. unfold on_events.
  rewrite wp_on_store, wp_zoom. unfold wp at 1. cbn [me_events].
  destruct (Publish _ w3 e) as [[??]?]. rewrite wp_ret. by apply Hend.
Qed.
End theorems.

(** ** The first node of the demonstration is evacuated *)

Section demo.
#[local] Existing Instances tagging_digest EventRecorder InsertionSort.

Abbreviation evacuation :=
  (EvacuateNode (G := Loopback) (E := list Event) (A := AuditStore)
     (Some DynamicAuthorizer) true (Some DynamicAuthorizer) (Some operator) "n1" "").

Lemma evacuation_accounts_witness : ∃ res ts,
  answer evacuation (named "a") (yard demo_instances obliging) = Ok (res, ts) ∧
  EvacuationResult_MigratedCount res = 1 ∧ EvacuationResult_Errors res = [] ∧
  evacuated (yard demo_instances obliging)
    (exec evacuation (named "a") (yard demo_instances obliging)) "n1" "" res ts.
Proof.
  pose proof (evacuation_accounts (Some DynamicAuthorizer) (Some DynamicAuthorizer) true
    (Some operator) "n1" "" (named "a") (yard demo_instances obliging)
    (proj1 (yard_ok obliging)) (proj2 (yard_ok obliging)) (named_ok "a")) as H.
  cbv zeta in H.
  destruct (answer evacuation (named "a") (yard demo_instances obliging)) as [[res ts]|e] eqn:Ea;
    [|vm_compute in Ea; discriminate Ea].
  exists res, ts. split; [reflexivity|]. split; [|split; [|exact H]];
    vm_compute in Ea; injection Ea as <- _; reflexivity.
Defined.

(** A call without a caller drains the node and then fails on the missing
    caller: the change is made, not recorded, and answered as an error. *)
Lemma drain_without_caller_panics :
  let run := DrainNode (G := Loopback) (E := list Event) (A := AuditStore)
               (Some DynamicAuthorizer) true None "n1" true in
  let st := exec run (calm 5) (yard demo_instances obliging) in
  answer run (calm 5) (yard demo_instances obliging) = panic "nil pointer dereference" ∧
  (Node_DrainMode <$> node_at (cluster_of st) "n1") = Some true ∧ st.2 = empty_audit.
Proof. split_and!; vm_compute; reflexivity. Qed.
End demo.
