(* ===== verification/Network.v ===== *)
(** * Firewall rules and network configuration

    [internal/app/network/service.go] over
    [internal/infra/memory/firewall_repo.go]: the rules of an instance are
    replaced as a whole and sent to its node. *)

From S2P Require Import Prelude Identity AuditTrail Guest Node Commands Instances.

Definition ErrFirewallRuleNotFound := ErrNew "network" "firewall rule not found".
Definition ErrInvalidProtocol := ErrNew "network" "unsupported firewall protocol".

Definition DirectionInbound : string := "inbound".
Definition DirectionOutbound : string := "outbound".
Definition ActionAllow : string := "allow".
Definition ActionDrop : string := "drop".

Record FirewallRule : Type := mkFirewallRule {
  FirewallRule_ID : string;
  FirewallRule_InstanceID : string;
  FirewallRule_Direction : string;
  FirewallRule_Action : string;
  FirewallRule_Protocol : string;
  FirewallRule_PortRange : string;
  FirewallRule_SourceCIDR : string;
  FirewallRule_DestCIDR : string;
  FirewallRule_Priority : Z;
  FirewallRule_CreatedAt : Z;
  FirewallRule_UpdatedAt : Z
}.
#[export] Instance FirewallRule_eq_dec : EqDecision FirewallRule.
Proof. solve_decision. Defined.

Definition eta_FirewallRule (r : FirewallRule) : FirewallRule :=
  mkFirewallRule (FirewallRule_ID r) (FirewallRule_InstanceID r)
    (FirewallRule_Direction r) (FirewallRule_Action r) (FirewallRule_Protocol r)
    (FirewallRule_PortRange r) (FirewallRule_SourceCIDR r) (FirewallRule_DestCIDR r)
    (FirewallRule_Priority r) (FirewallRule_CreatedAt r) (FirewallRule_UpdatedAt r).
#[export] Instance set_FirewallRule_ID : Setter FirewallRule_ID := ltac:(setter eta_FirewallRule FirewallRule_ID).
#[export] Instance set_FirewallRule_InstanceID : Setter FirewallRule_InstanceID := ltac:(setter eta_FirewallRule FirewallRule_InstanceID).
#[export] Instance set_FirewallRule_CreatedAt : Setter FirewallRule_CreatedAt := ltac:(setter eta_FirewallRule FirewallRule_CreatedAt).
#[export] Instance set_FirewallRule_UpdatedAt : Setter FirewallRule_UpdatedAt := ltac:(setter eta_FirewallRule FirewallRule_UpdatedAt).

(** ** The repository *)

Abbreviation RuleStore := (gmap string FirewallRule).

(** Both [Create] and [ReplaceInstanceRules] rewrite the record they are
    given before they store a copy of it. *)
Definition rule_Create (rule : FirewallRule) : go RuleStore FirewallRule :=
  id ← (if decide (FirewallRule_ID rule = "") then uuid_NewString else mret (FirewallRule_ID rule));
  now ← time_Now;
  let rule := rule <| FirewallRule_ID := id |> <| FirewallRule_CreatedAt := now |>
                   <| FirewallRule_UpdatedAt := now |> in
  modify <[id := rule]> ;;
  mret rule.

Definition rule_GetByID (id : string) : go RuleStore FirewallRule :=
  s ← get;
  match s !! id with Some r => mret r | None => fail ErrFirewallRuleNotFound end.

Definition by_priority (a b : FirewallRule) : bool :=
  bool_decide (FirewallRule_Priority a < FirewallRule_Priority b).

Definition ListByInstanceID `{SortSlice} (instanceID : string) :
    go RuleStore (list FirewallRule) :=
  s ← get;
  l ← list_in s (λ r, FirewallRule_InstanceID r = instanceID);
  mret (sort_Slice by_priority l).

Definition without (instanceID : string) (s : RuleStore) : RuleStore :=
  filter (λ kv, FirewallRule_InstanceID kv.2 ≠ instanceID) s.

Fixpoint insert_rules (instanceID : string) (now : Z) (rules : list FirewallRule) :
    go RuleStore (list FirewallRule) :=
  match rules with
  | [] => mret []
  | rule :: rest =>
      id ← (if decide (FirewallRule_ID rule = "") then uuid_NewString
            else mret (FirewallRule_ID rule));
      let rule := rule <| FirewallRule_ID := id |> <| FirewallRule_InstanceID := instanceID |>
                       <| FirewallRule_CreatedAt := now |> <| FirewallRule_UpdatedAt := now |> in
      modify <[id := rule]> ;;
      l ← insert_rules instanceID now rest;
      mret (rule :: l)
  end.

Definition ReplaceInstanceRules (instanceID : string) (rules : list FirewallRule) :
    go RuleStore (list FirewallRule) :=
  modify (without instanceID) ;;
  now ← time_Now;
  insert_rules instanceID now rules.

Definition rule_Delete (id : string) : go RuleStore () :=
  s ← get;
  match s !! id with
  | Some _ => put (delete id s)
  | None => fail ErrFirewallRuleNotFound
  end.

Definition DeleteByInstanceID (instanceID : string) : go RuleStore () :=
  modify (without instanceID).

(** ** The service *)

Record NetworkEnv (G : Type) := mkNetworkEnv {
  ne_rules : RuleStore;
  ne_instances : MemoryInstanceStore;
  ne_nodes : G
}.
Arguments mkNetworkEnv {G} _ _ _.
Arguments ne_rules {G} _.
Arguments ne_instances {G} _.
Arguments ne_nodes {G} _.

Record FirewallRuleInput : Type := mkFirewallRuleInput {
  FirewallRuleInput_Direction : string;
  FirewallRuleInput_Action : string;
  FirewallRuleInput_Protocol : string;
  FirewallRuleInput_PortRange : string;
  FirewallRuleInput_SourceCIDR : string;
  FirewallRuleInput_DestCIDR : string;
  FirewallRuleInput_Priority : Z
}.

(** The checks on input number [i] and the rule it becomes, before it gets
    its identifier and its times. *)
Definition check_input (instanceID : string) (i : nat) (inp : FirewallRuleInput) :
    result FirewallRule :=
  let number := fmt_d (Z.of_nat i + 1) in
  let dir := ToLower (FirewallRuleInput_Direction inp) in
  let act := ToLower (FirewallRuleInput_Action inp) in
  let proto := or_default "tcp" (ToLower (FirewallRuleInput_Protocol inp)) in
  if decide (dir ≠ DirectionInbound ∧ dir ≠ DirectionOutbound) then
    Err (Errorf ("rule #" +:+ number +:+ " has invalid direction: " +:+
                 FirewallRuleInput_Direction inp))
  else if decide (act ≠ ActionAllow ∧ act ≠ ActionDrop) then
    Err (Errorf ("rule #" +:+ number +:+ " has invalid action: " +:+
                 FirewallRuleInput_Action inp))
  else if decide (proto ∉ ["tcp"; "udp"; "icmp"; "all"]) then Err ErrInvalidProtocol
  else
    Ok (mkFirewallRule "" instanceID dir act proto
          (or_default "any" (FirewallRuleInput_PortRange inp))
          (or_default "0.0.0.0/0" (FirewallRuleInput_SourceCIDR inp))
          (or_default "0.0.0.0/0" (FirewallRuleInput_DestCIDR inp))
          (if decide (FirewallRuleInput_Priority inp ≤ 0)
           then add64 100 (mul64 (Z.of_nat i) 10) else FirewallRuleInput_Priority inp) 0 0).

Fixpoint build_rules {St} (instanceID : string) (i : nat) (inputs : list FirewallRuleInput) :
    go St (list FirewallRule) :=
  match inputs with
  | [] => mret []
  | inp :: rest =>
      rule ← lift (check_input instanceID i inp);
      id ← uuid_NewString;
      t1 ← time_Now;
      t2 ← time_Now;
      l ← build_rules instanceID (S i) rest;
      mret ((rule <| FirewallRule_ID := id |> <| FirewallRule_CreatedAt := t1 |>
                  <| FirewallRule_UpdatedAt := t2 |>) :: l)
  end.

Section service.
Context {G A : Type} `{!NodeGateway G, !AuditRepository A, !SortSlice} (auth : Authorizer).
Abbreviation env := (NetworkEnv G * A)%type.

Definition on_rules {X} (m : go RuleStore X) : go env X :=
  on_store (zoom ne_rules (λ x e, mkNetworkEnv x (ne_instances e) (ne_nodes e)) m).
Definition on_instances {X} (m : go MemoryInstanceStore X) : go env X :=
  on_store (zoom ne_instances (λ x e, mkNetworkEnv (ne_rules e) x (ne_nodes e)) m).
Definition on_gateway {X} (m : go G X) : go env X :=
  on_store (zoom ne_nodes (λ x e, mkNetworkEnv (ne_rules e) (ne_instances e) x) m).

Definition open_for (sub : option Subject) (action instanceID : string) : go env Instance_ :=
  inst ← wrap_err (λ _, ErrInstanceNotFound) (on_instances (InstanceGetByID instanceID));
  authorize auth sub action (Some (Instance_Resource inst)) ;;
  mret inst.

Definition audit_network (sub : option Subject) (action instanceID : string) : go env () :=
  actor ← caller_id sub;
  audit_event (Some actor) action "instance" (Some instanceID) None.

Definition ApplyFirewallRules (sub : option Subject) (instanceID : string)
    (inputs : list FirewallRuleInput) : go env (list FirewallRule) :=
  inst ← open_for sub "instance:update" instanceID;
  rules ← build_rules instanceID 0 inputs;
  rules ← on_rules (ReplaceInstanceRules instanceID rules);
  (if decide (Instance__NodeID inst = "") then mret ()
   else ignore (on_gateway (SendCommand_ (Instance__NodeID inst)
     (new_command "apply_firewall_rules"
        [("instance_id", AnyStr instanceID); ("instance_name", AnyStr (Instance__Name inst));
         ("rules_count", AnyInt (Z.of_nat (length rules)))])))) ;;
  audit_network sub "instance:firewall:update" instanceID ;;
  mret rules.

Definition ListFirewallRules (sub : option Subject) (instanceID : string) :
    go env (list FirewallRule) :=
  open_for sub "instance:read" instanceID ;;
  on_rules (ListByInstanceID instanceID).

Definition ConfigureNetwork (sub : option Subject) (instanceID ifaceName ipv4 gw4 ipv6 gw6 mac : string)
    (vlan : Z) : go env () :=
  inst ← open_for sub "instance:update" instanceID;
  let ifaceName := or_default "eth0" ifaceName in
  let ipv4 := or_default (Instance__IPv4Address inst) ipv4 in
  let ipv6 := or_default (Instance__IPv6Address inst) ipv6 in
  ignore (on_instances (InstanceUpdateStatus (Instance__ID inst) (Instance__Status inst) ipv4 ipv6)) ;;
  (if decide (Instance__NodeID inst = "") then mret ()
   else
     wrap_err (λ err, Wrapf ("failed to apply network configuration on node: " +:+
                             Prelude.Error err) err)
       (on_gateway (SendCommand_ (Instance__NodeID inst)
          (new_command "configure_network"
             [("instance_id", AnyStr instanceID); ("instance_name", AnyStr (Instance__Name inst));
              ("interface_name", AnyStr ifaceName);
              ("ipv4_address", AnyStr ipv4); ("ipv4_gateway", AnyStr gw4);
              ("ipv6_address", AnyStr ipv6); ("ipv6_gateway", AnyStr gw6);
              ("mac_address", AnyStr mac); ("vlan_id", AnyInt vlan)]))) ;;
     mret ()) ;;
  audit_network sub "instance:network:configure" instanceID.
End service.

(** ** The rules of an instance *)

(** The record as it is stored. *)
Definition filed (instanceID : string) (now : Z) (r : FirewallRule) : FirewallRule :=
  r <| FirewallRule_InstanceID := instanceID |> <| FirewallRule_CreatedAt := now |>
    <| FirewallRule_UpdatedAt := now |>.

Definition table (l : list FirewallRule) : RuleStore :=
  list_to_map ((λ r, (FirewallRule_ID r, r)) <$> l).

Lemma table_fst l : ((λ r, (FirewallRule_ID r, r)) <$> l).*1 = FirewallRule_ID <$> l.
Proof. rewrite <-list_fmap_compose. reflexivity. Qed.

Lemma wp_insert_rules instanceID now l : ∀ (P : result (list FirewallRule) → RuleStore → World → Prop) w s,
  Forall (λ r, FirewallRule_ID r ≠ "") l → NoDup (FirewallRule_ID <$> l) →
  P (Ok (filed instanceID now <$> l)) (table (filed instanceID now <$> l) ∪ s) w →
  wp (insert_rules instanceID now l) P w s.
Proof.
  induction l as [|r l IH]; intros P w s Hid Hnd HP; cbn [insert_rules].
  { rewrite wp_ret. unfold table in HP. cbn in HP. by rewrite (left_id_L ∅ (∪)) in HP. }
  apply Forall_cons in Hid as [Hr Hid]. cbn in Hnd. apply NoDup_cons in Hnd as [Hnew Hnd].
  rewrite wp_bind, decide_False by done. rewrite wp_ret, wp_bind, wp_modify, wp_bind.
  apply IH; [done|done|]. rewrite wp_ret. cbn in HP.
  assert (r <| FirewallRule_ID := FirewallRule_ID r |> = r) as Er by by destruct r.
  rewrite Er. change (r <| FirewallRule_InstanceID := instanceID |>
    <| FirewallRule_CreatedAt := now |> <| FirewallRule_UpdatedAt := now |>) with (filed instanceID now r).
  unfold table in *. cbn in HP. rewrite <-insert_union_l in HP.
  rewrite <-insert_union_r; [done|]. apply not_elem_of_list_to_map. rewrite table_fst.
  rewrite <-list_fmap_compose. intros Hin. apply Hnew.
  erewrite list_fmap_ext in Hin; [exact Hin|done].
Qed.

(** What the checks guarantee of a rule. *)
Definition well_formed (r : FirewallRule) : Prop :=
  (FirewallRule_Direction r = DirectionInbound ∨ FirewallRule_Direction r = DirectionOutbound) ∧
  (FirewallRule_Action r = ActionAllow ∨ FirewallRule_Action r = ActionDrop) ∧
  FirewallRule_Protocol r ∈ ["tcp"; "udp"; "icmp"; "all"] ∧
  FirewallRule_PortRange r ≠ "" ∧ FirewallRule_SourceCIDR r ≠ "" ∧ FirewallRule_DestCIDR r ≠ "".

(** What was given, or what stands for nothing. *)
Definition given (text standard value : string) : Prop :=
  value = if decide (text = "") then standard else text.

(** The rule answers input number [i]. *)
Definition answers (i : nat) (inp : FirewallRuleInput) (r : FirewallRule) : Prop :=
  FirewallRule_Direction r = ToLower (FirewallRuleInput_Direction inp) ∧
  FirewallRule_Action r = ToLower (FirewallRuleInput_Action inp) ∧
  given (ToLower (FirewallRuleInput_Protocol inp)) "tcp" (FirewallRule_Protocol r) ∧
  given (FirewallRuleInput_PortRange inp) "any" (FirewallRule_PortRange r) ∧
  given (FirewallRuleInput_SourceCIDR inp) "0.0.0.0/0" (FirewallRule_SourceCIDR r) ∧
  given (FirewallRuleInput_DestCIDR inp) "0.0.0.0/0" (FirewallRule_DestCIDR r) ∧
  (0 < FirewallRuleInput_Priority inp → FirewallRule_Priority r = FirewallRuleInput_Priority inp) ∧
  (FirewallRuleInput_Priority inp ≤ 0 → Z.of_nat i < 2 ^ 59 →
     FirewallRule_Priority r = 100 + 10 * Z.of_nat i).

(** The inputs with their numbers. *)
Fixpoint numbered {X} (i : nat) (l : list X) : list (nat * X) :=
  match l with [] => [] | x :: l => (i, x) :: numbered (S i) l end.
Definition answered_by (inputs : list FirewallRuleInput) (i : nat) (rules : list FirewallRule) : Prop :=
  Forall2 (λ p r, well_formed r ∧ answers p.1 p.2 r) (numbered i inputs) rules.

Lemma check_input_ok instanceID i inp r : check_input instanceID i inp = Ok r →
  well_formed r ∧ answers i inp r ∧ FirewallRule_InstanceID r = instanceID.
Proof.
  unfold check_input. cbv zeta. intros Hr.
  destruct (decide (_ ∧ _)) as [|Hd] in Hr; [discriminate Hr|].
  destruct (decide (_ ∧ _)) as [|Ha] in Hr; [discriminate Hr|].
  destruct (decide (_ ∉ _)) as [|Hp] in Hr; [discriminate Hr|].
  injection Hr as <-. unfold well_formed, answers. cbn [FirewallRule_Direction FirewallRule_Action
    FirewallRule_Protocol FirewallRule_PortRange FirewallRule_SourceCIDR FirewallRule_DestCIDR
    FirewallRule_Priority FirewallRule_InstanceID].
  split_and!; try done.
  - destruct (decide (ToLower (FirewallRuleInput_Direction inp) = DirectionInbound)); [by left|].
    right. apply dec_stable. tauto.
  - destruct (decide (ToLower (FirewallRuleInput_Action inp) = ActionAllow)); [by left|].
    right. apply dec_stable. tauto.
  - by apply dec_stable.
  - by apply or_default_ne.
  - by apply or_default_ne.
  - by apply or_default_ne.
  - intros Hpos. case_decide; [lia|done].
  - intros Hneg Hi. case_decide; [|lia]. unfold mul64, add64.
    rewrite (wrap64_id (_ * _)) by (unfold int64_ok; lia). rewrite wrap64_id by (unfold int64_ok; lia). lia.
Qed.

(** The identifiers of the generator are distinct and new. *)
Definition new_uuids (w : World) (s : RuleStore) : Prop :=
  (∀ n m, w_uuid w n = w_uuid w m → n = m) ∧ ∀ n, w_uuid w n ≠ "" ∧ s !! w_uuid w n = None.

Definition built (w : World) (inputs : list FirewallRuleInput) (i : nat)
    (l : list FirewallRule) : Prop :=
  answered_by inputs i l ∧
  ∃ ns, FirewallRule_ID <$> l = w_uuid w <$> ns ∧ NoDup ns ∧ Forall (λ n, (w_uuids w ≤ n)%nat) ns.

Lemma wp_build_rules {St} instanceID inputs : ∀ i (P : result (list FirewallRule) → St → World → Prop) w s,
  (∀ r w', same_oracles w w' → (w_uuids w ≤ w_uuids w')%nat →
     match r with Ok l => built w inputs i l | Err _ => True end → P r s w') →
  wp (build_rules instanceID i inputs) P w s.
Proof.
  induction inputs as [|inp inputs IH]; intros i P w s HP; cbn [build_rules].
  { rewrite wp_ret. apply HP; [apply same_oracles_refl|done|]. split; [constructor|].
    exists []. split_and!; [done|constructor|done]. }
  rewrite wp_bind, wp_lift. destruct (check_input instanceID i inp) as [r|e] eqn:Hr;
    [|apply HP; [apply same_oracles_refl|done|done]].
  apply check_input_ok in Hr as (Hwf & Hans & _).
  rewrite wp_bind, wp_uuid, wp_bind, wp_now, wp_bind, wp_now, wp_bind.
  apply IH. intros [l|e] w' Ho Hle Hl; [|by apply HP; [|cbn in Hle; lia|]].
  rewrite wp_ret. apply HP; [done|cbn in Hle; lia|].
  destruct Hl as (Hall & ns & Hns & Hnd & Hge). split; [by constructor|].
  exists (w_uuids w :: ns). cbn. split_and!; [by rewrite Hns| |constructor; [done|]].
  - constructor; [|done]. intros Hin. rewrite Forall_forall in Hge. apply Hge in Hin. cbn in Hin. lia.
  - eapply Forall_impl; [exact Hge|]. cbn. lia.
Qed.

Lemma built_ids w s instanceID inputs l : new_uuids w s → built w instanceID inputs l →
  Forall (λ r, FirewallRule_ID r ≠ "" ∧ s !! FirewallRule_ID r = None) l ∧
  NoDup (FirewallRule_ID <$> l).
Proof.
  intros [Hinj Hnew] (_ & ns & Hns & Hnd & _). split.
  - apply Forall_forall. intros r Hr.
    assert (FirewallRule_ID r ∈ w_uuid w <$> ns) as Hin by (rewrite <-Hns; by apply list_elem_of_fmap_2).
    apply list_elem_of_fmap in Hin as (n & -> & _). apply Hnew.
  - rewrite Hns. apply NoDup_fmap_2; [|done]. intros n m. apply Hinj.
Qed.

(** The store after the rules of an instance were replaced by [rules]. *)
Definition replaced (instanceID : string) (s s' : RuleStore) (rules : list FirewallRule) : Prop :=
  filter (λ r, FirewallRule_InstanceID r = instanceID) (map_to_list s').*2 ≡ₚ rules ∧
  ∀ id r, FirewallRule_InstanceID r ≠ instanceID → s' !! id = Some r ↔ s !! id = Some r.

Lemma table_union_values l s :
  Forall (λ r, s !! FirewallRule_ID r = None) l → NoDup (FirewallRule_ID <$> l) →
  (map_to_list (table l ∪ s)).*2 ≡ₚ l ++ (map_to_list s).*2.
Proof.
  induction l as [|r l IH]; intros Hnew Hnd.
  { unfold table. cbn. by rewrite (left_id_L ∅ (∪)). }
  apply Forall_cons in Hnew as [Hr Hnew]. cbn in Hnd. apply NoDup_cons in Hnd as [Hin Hnd].
  unfold table. cbn. rewrite <-insert_union_l, map_to_list_insert.
  - cbn. f_equiv. by apply IH.
  - apply lookup_union_None. split; [|done]. apply not_elem_of_list_to_map. by rewrite table_fst.
Qed.

Lemma filter_none {X} (Q : X → Prop) `{!∀ x, Decision (Q x)} l : Forall (λ x, ¬ Q x) l → filter Q l = [].
Proof. induction 1; [done|]. by rewrite filter_cons_False. Qed.

Lemma table_replaces instanceID now s l :
  Forall (λ r, FirewallRule_ID r ≠ "" ∧ s !! FirewallRule_ID r = None) l →
  NoDup (FirewallRule_ID <$> l) →
  replaced instanceID s (table (filed instanceID now <$> l) ∪ without instanceID s)
    (filed instanceID now <$> l).
Proof.
  intros Hnew Hnd. set (l' := filed instanceID now <$> l).
  assert (FirewallRule_ID <$> l' = FirewallRule_ID <$> l) as Hids.
  { unfold l'. rewrite <-list_fmap_compose. reflexivity. }
  assert (Forall (λ r, FirewallRule_InstanceID r = instanceID) l') as Hinst.
  { unfold l'. apply Forall_fmap, Forall_true. done. }
  assert (table l' ##ₘ without instanceID s) as Hdisj.
  { apply map_disjoint_list_to_map_l, Forall_fmap, Forall_fmap.
    eapply Forall_impl; [exact Hnew|]. intros r [_ Hr]. cbn. unfold without.
    by rewrite map_lookup_filter, Hr. }
  split.
  - rewrite table_union_values.
    + rewrite filter_app, filter_all, filter_none, app_nil_r; [done| |done].
      apply Forall_forall. intros r (kv & -> & Hkv)%list_elem_of_fmap. destruct kv as [k r].
      apply elem_of_map_to_list in Hkv. by apply map_lookup_filter_Some in Hkv as [_ ?].
    + apply Forall_fmap. eapply Forall_impl; [exact Hnew|]. intros r [_ Hr]. cbn.
      unfold without. by rewrite map_lookup_filter, Hr.
    + by rewrite Hids.
  - intros id r Hr. rewrite lookup_union_Some by done. unfold without at 1.
    rewrite map_lookup_filter_Some. split; [|by intros; right].
    intros [Ht|[? _]]; [|done]. exfalso. apply Hr.
    apply elem_of_list_to_map_2, list_elem_of_fmap in Ht as (r' & [= -> ->] & Hin).
    rewrite Forall_forall in Hinst. by apply Hinst.
Qed.

(** ** The calls *)

Section effects.
Context {G A : Type} `{!NodeGateway G, !AuditRepository A, !SortSlice} (auth : Authorizer).
Abbreviation env := (NetworkEnv G * A)%type.
Implicit Types (st : env).

Definition rules_of st : RuleStore := ne_rules st.1.
Definition fleet st : MemoryInstanceStore := ne_instances st.1.

Lemma wp_open_for sub action id (P : result Instance_ → env → World → Prop) w st :
  (∀ r, match r with
        | Ok inst => answer (InstanceGetByID id) w (fleet st) = Ok inst ∧
            @Authorize auth sub action (Some (Instance_Resource inst)) = Ok ()
        | Err _ => True
        end → P r st w) → wp (open_for auth sub action id) P w st.
Proof.
  intros HP. unfold open_for, on_instances. destruct st as [[rs is' g] a].
  rewrite wp_bind, wp_wrap_err, wp_on_store, wp_zoom.
  assert (∃ r, InstanceGetByID id w is' = (r, is', w)) as [r Hr].
  { unfold InstanceGetByID, lookup_instance, load_instance, mbind, go_bind, get, fail, lift, mret, go_ret.
    destruct (MemoryInstanceStore_instances is' !! id) as [p|]; [|by eexists].
    destruct (MemoryInstanceStore_heap is' !! p); by eexists. }
  apply (proj2 (wp_run _ _ _ _ _ _ _ Hr)). destruct r as [inst|e]; [|by apply (HP (Err _))].
  unfold authorize. rewrite wp_bind, wp_lift.
  destruct (Authorize sub action _) as [[]|e] eqn:Ha; [|by apply (HP (Err _))].
  rewrite wp_ret. apply (HP (Ok inst)). split; [|exact Ha]. unfold answer. cbn. by rewrite Hr.
Qed.

Lemma wp_on_rules {X} (m : go RuleStore X) (P : result X → env → World → Prop) w st :
  wp (on_rules m) P w st ↔
  wp m (λ r x w', P r (mkNetworkEnv x (ne_instances st.1) (ne_nodes st.1), st.2) w') w (rules_of st).
Proof. destruct st as [e a]. unfold on_rules. by rewrite wp_on_store, wp_zoom. Qed.

(** The command and the audit entry at the end of a call. *)
Lemma wp_announce {X} s node id action cmd (x : X) (P : result X → env → World → Prop) w st :
  (∀ st' w', rules_of st' = rules_of st → fleet st' = fleet st → P (Ok x) st' w') →
  wp ((if decide (node = "") then mret () else ignore (on_gateway (SendCommand_ node cmd))) ;;
      audit_network (Some s) action id ;; mret x) P w st.
Proof.
  intros HP. assert (∀ st1 w1, rules_of st1 = rules_of st → fleet st1 = fleet st →
    wp (audit_network (Some s) action id ;; mret x) P w1 st1) as Haud.
  { intros [e a] w1 Hr Hf. unfold audit_network, caller_id. rewrite wp_bind, wp_bind, wp_ret.
    apply wp_audit_event. intros a' w2. rewrite wp_ret. by apply HP. }
  rewrite wp_bind. case_decide; [rewrite wp_ret; by apply Haud|].
  destruct st as [[rs is' g] a]. rewrite wp_ignore. unfold on_gateway.
  rewrite wp_on_store, wp_zoom. unfold wp at 1. cbn.
  destruct (SendCommand_ _ _ _ _) as [[r g'] w']. by apply Haud.
Qed.

Lemma ApplyFirewallRules_effect s id inputs w st :
  new_uuids w (rules_of st) →
  wp (ApplyFirewallRules auth (Some s) id inputs) (λ r st' _, fleet st' = fleet st ∧
    match r with
    | Ok rules => replaced id (rules_of st) (rules_of st') rules ∧
        answered_by inputs 0 rules ∧ Forall (λ r, FirewallRule_InstanceID r = id) rules ∧
        ∃ inst, answer (InstanceGetByID id) w (fleet st) = Ok inst ∧
          @Authorize auth (Some s) "instance:update" (Some (Instance_Resource inst)) = Ok ()
    | Err _ => rules_of st' = rules_of st
    end) w st.
Proof.
  intros Hnew. unfold ApplyFirewallRules. rewrite wp_bind. apply wp_open_for.
  intros [inst|e] Hopen; [|done]. rewrite wp_bind. apply wp_build_rules.
  intros [l|e] w1 Ho _ Hl; [|done]. pose proof (built_ids _ _ _ _ _ Hnew Hl) as [Hids Hnd].
  rewrite wp_bind, wp_on_rules. unfold ReplaceInstanceRules. rewrite wp_bind, wp_modify, wp_bind, wp_now.
  apply wp_insert_rules; [|done|].
  { eapply Forall_impl; [exact Hids|]. by intros ? []. }
  apply wp_announce. intros st' w2 Hr Hf. split; [exact Hf|]. rewrite Hr. split.
  - apply table_replaces; [|done]. exact Hids.
  - split_and!; [|by apply Forall_fmap, Forall_true|by exists inst]. destruct Hl as [Hall _].
    unfold answered_by in *. apply Forall2_fmap_r.
    eapply Forall2_impl; [exact Hall|]. intros p r [Hwf Hans]. by split.
Qed.

Lemma priorities l : StronglySorted (λ x y, by_priority y x = false) l →
  StronglySorted (λ a b, FirewallRule_Priority a ≤ FirewallRule_Priority b) l.
Proof.
  induction 1 as [|x l Hl IH Hx]; constructor; [done|]. eapply Forall_impl; [exact Hx|].
  intros y Hy%bool_decide_eq_false. lia.
Qed.

Lemma ListFirewallRules_effect s id w st : World_ok w →
  wp (ListFirewallRules auth s id) (λ r st' _, st' = st ∧
    match r with
    | Ok l => StronglySorted (λ a b, FirewallRule_Priority a ≤ FirewallRule_Priority b) l ∧
        l ≡ₚ filter (λ r, FirewallRule_InstanceID r = id) (map_to_list (rules_of st)).*2
    | Err _ => True
    end) w st.
Proof.
  intros Hw. unfold ListFirewallRules. rewrite wp_bind. apply wp_open_for.
  intros [inst|e] _; [|done]. rewrite wp_on_rules. unfold ListByInstanceID.
  rewrite wp_bind, wp_get, wp_bind. apply wp_list_in; [done|]. intros l w' _ Hl.
  rewrite wp_ret. destruct st as [[rs is' g] a]. split; [done|].
  split; [|by rewrite sort_Slice_perm, Hl].
  apply priorities, sort_Slice_sorted with (λ _, True); [|by apply Forall_true].
  unfold strict_weak_on, by_priority. split_and!.
  - intros x _. apply bool_decide_eq_false. lia.
  - intros x y z _ _ _. rewrite !bool_decide_eq_true. lia.
  - intros x y z _ _ _. rewrite !bool_decide_eq_false. lia.
Qed.
End effects.

(** ** Theorems *)

Section theorems.
Context {G A : Type} `{!NodeGateway G, !AuditRepository A, !SortSlice}.
Abbreviation env := (NetworkEnv G * A)%type.

(** C18 the rules read back: an accepted call replaces the rules of the
    instance by one well-formed rule per input, in the order of the inputs,
    each with the direction, action, protocol, ports, networks and priority
    that were given or the standard value for what was left out (tcp, any
    port, any address, a priority of 100 and ten more per place), by a caller who may update the instance; whoever lists the rules
    afterwards gets exactly these, by ascending priority; the rules of other
    instances and the instances are untouched. A refused call changes
    nothing. *)
Theorem firewall_reads_back (auth : Authorizer) (s : Subject) (id : string)
    (inputs : list FirewallRuleInput) (w : World) (st : env) :
  new_uuids w (rules_of st) →
  let call := ApplyFirewallRules auth (Some s) id inputs in
  let st' := exec call w st in
  fleet st' = fleet st ∧
  match answer call w st with
  | Err _ => rules_of st' = rules_of st
  | Ok rules =>
      answered_by inputs 0 rules ∧ Forall (λ r, FirewallRule_InstanceID r = id) rules ∧
      (∃ inst, answer (InstanceGetByID id) w (fleet st) = Ok inst ∧
         @Authorize auth (Some s) "instance:update" (Some (Instance_Resource inst)) = Ok ()) ∧
      (∀ k r, FirewallRule_InstanceID r ≠ id →
         rules_of st' !! k = Some r ↔ rules_of st !! k = Some r) ∧
      ∀ s' w' l, World_ok w' → answer (ListFirewallRules auth s' id) w' st' = Ok l →
        l ≡ₚ rules ∧
        StronglySorted (λ a b, FirewallRule_Priority a ≤ FirewallRule_Priority b) l
  end.
Proof.
  intros Hnew call st'. pose proof (ApplyFirewallRules_effect auth s id inputs w st Hnew) as Heff.
  rewrite wp_elim in Heff. fold call st' in Heff. destruct Heff as [Hf Heff]. split; [done|].
  destruct (answer call w st) as [rules|e]; [|done]. destruct Heff as ([Hmine Hother] & Hall & Hid & Hinst).
  split_and!; try done. intros s' w' l Hw' Hl.
  pose proof (ListFirewallRules_effect auth s' id w' st' Hw') as Hlist.
  rewrite wp_elim, Hl in Hlist. destruct Hlist as (_ & Hsort & Hperm). split; [|done].
  by rewrite Hperm.
Qed.
End theorems.

Section demo.
#[local] Existing Instances tagging_digest InsertionSort.

Definition firewall_env : NetworkEnv Loopback * AuditStore :=
  (mkNetworkEnv ∅ demo_instances
     (mkLoopback NewMemoryNodeStore (Ok (mkCommandResult "" true "" None 0)) []), empty_audit).
Definition firewall_admin : Subject :=
  mkSubject "user" "root" "root" "root" "" ["superadmin"] [] [] ∅.
Definition two_inputs : list FirewallRuleInput :=
  [mkFirewallRuleInput "Inbound" "ALLOW" "" "22" "10.0.0.0/8" "" 50;
   mkFirewallRuleInput "inbound" "drop" "all" "" "" "" 10].

Lemma numbered_uuids : new_uuids (named "a") ∅.
Proof.
  split; [|intros n; split; [discriminate|apply lookup_empty]]. intros n m Hnm.
  unfold named in Hnm. cbn in Hnm. by apply (inj (String.append "a")), (inj pretty) in Hnm.
Qed.

Lemma firewall_reads_back_witness : ∃ rules l,
  answer (ApplyFirewallRules DynamicAuthorizer (Some firewall_admin) "i1" two_inputs) (named "a")
    firewall_env = Ok rules ∧
  answer (ListFirewallRules DynamicAuthorizer (Some firewall_admin) "i1") (named "b")
    (exec (ApplyFirewallRules DynamicAuthorizer (Some firewall_admin) "i1" two_inputs) (named "a")
       firewall_env) = Ok l ∧
  FirewallRule_Priority <$> l = [10; 50] ∧ l ≡ₚ rules.
Proof.
  pose proof (firewall_reads_back DynamicAuthorizer firewall_admin "i1" two_inputs (named "a")
    firewall_env numbered_uuids) as [_ H].
  destruct (answer (ApplyFirewallRules DynamicAuthorizer (Some firewall_admin) "i1" two_inputs)
    (named "a") firewall_env) as [rules|e] eqn:Ea; [|vm_compute in Ea; discriminate Ea].
  destruct (answer (ListFirewallRules DynamicAuthorizer (Some firewall_admin) "i1") (named "b")
    (exec (ApplyFirewallRules DynamicAuthorizer (Some firewall_admin) "i1" two_inputs) (named "a")
       firewall_env)) as [l|e] eqn:El; [|vm_compute in El; discriminate El].
  exists rules, l. split; [reflexivity|]. split; [reflexivity|]. split.
  - vm_compute in El. injection El as <-. reflexivity.
  - destruct H as (_ & _ & _ & _ & H). apply (H _ _ _ (named_ok "b") El).
Defined.
End demo.
