(* ===== verification/Wire.v ===== *)
(** * The agent protocol

    [internal/transport/grpc/gateway.go]: a command of a service becomes the
    typed message the agent receives, and what an agent sends becomes calls
    of the node service. The generated messages of package [aurorav1] are the
    records below, one field per field the gateway sets; the stream itself is
    the port [RawStream]. *)

From S2P Require Import Prelude Identity AuditTrail Node Commands NodeService.

(** ** Reading a payload *)

(** [fmt.Sprintf] of the verb [v] on floats and maps. *)
Class FmtAny := fmt_v_other : any → string.

(** Package [encoding/json] on the values of a payload; [J] is the type of
    the texts. *)
Class Json (J : Type) := {
  json_Marshal : option any → J;
  json_Unmarshal : J → option Prelude.Details
}.

(** [v.(T)] on a map entry. *)
Definition entry (p : Prelude.Details) (key : string) : option any := p !! key.

Definition fmt_v `{FmtAny} (v : option any) : string :=
  match v with
  | None => "<nil>"
  | Some (AnyStr s) => s
  | Some (AnyInt z) => fmt_d z
  | Some (AnyBool b) => fmt_bool b
  | Some (AnyStrs l) => "[" +:+ strings_Join l " " +:+ "]"
  | Some o => fmt_v_other o
  end.

Definition toInt64 (v : option any) : Z :=
  match v with
  | Some (AnyInt z) => z
  | Some (AnyFloat x) => to_int64 x
  | _ => 0
  end.

(** [int] has 64 bits on the platforms the hub runs on. *)
Definition toInt : option any → Z := toInt64.

Definition toBool (v : option any) : bool :=
  match v with Some (AnyBool b) => b | _ => false end.

(** [int32(z)]. *)
Definition wrap32 (z : Z) : Z := (z + 2 ^ 31) `mod` 2 ^ 32 - 2 ^ 31.

(** ** Messages to the agent *)

(** [aurorav1.FirewallRule]. *)
Record FirewallRuleMessage : Type := mkFirewallRuleMessage {
  FirewallRuleMessage_Id : string;
  FirewallRuleMessage_Direction : string;
  FirewallRuleMessage_Action : string;
  FirewallRuleMessage_Protocol : string;
  FirewallRuleMessage_PortRange : string;
  FirewallRuleMessage_SourceCidr : string;
  FirewallRuleMessage_DestCidr : string;
  FirewallRuleMessage_Priority : Z
}.

Inductive ServerPayload (J : Type) : Type :=
  | PingCommand (payload : string)
  | CollectTelemetryCommand (detailed : bool)
  | ApplyNodeConfigCommand (configJson : J)
  | RebootNodeCommand (delaySeconds : Z) (reason : string)
  | CreateInstanceCommand (instanceId instanceName instanceType : string)
      (cpuCores memoryBytes storageBytes : Z) (image : string) (configJson : J)
      (startAfterCreate : bool)
  | StartInstanceCommand (instanceId instanceName : string)
  | StopInstanceCommand (instanceId instanceName : string) (force : bool)
  | RestartInstanceCommand (instanceId instanceName : string) (force : bool)
  | DeleteInstanceCommand (instanceId instanceName : string) (force : bool)
  | UpdateInstanceSpecCommand (instanceId instanceName : string)
      (cpuCores memoryBytes storageBytes : Z)
  | GetInstanceMetricsCommand (instanceId instanceName : string)
  | ConfigureNetworkCommand (instanceId instanceName interfaceName ipv4Address ipv4Gateway
      ipv6Address ipv6Gateway macAddress : string) (vlanId : Z)
  | ApplyFirewallRulesCommand (instanceId instanceName : string) (rules : list FirewallRuleMessage)
  | CreateVolumeCommand (volumeId poolName volumeName : string) (sizeBytes : Z)
      (contentType : string)
  | ResizeVolumeCommand (volumeId poolName volumeName : string) (newSizeBytes : Z)
  | AttachVolumeCommand (instanceId instanceName poolName volumeName mountPath : string)
      (readOnly : bool)
  | DetachVolumeCommand (instanceId instanceName volumeName : string)
  | DeleteVolumeCommand (volumeId poolName volumeName : string)
  | CreateVolumeSnapshotCommand (volumeId poolName volumeName snapshotName : string)
  | RestoreVolumeSnapshotCommand (volumeId poolName volumeName snapshotName : string)
  | DeleteVolumeSnapshotCommand (volumeId poolName volumeName snapshotName : string)
  | SyncImageCommand (sourceRemote imageAlias incusFingerprint expectedChecksum : string)
  | VerifyImageCommand (incusFingerprint expectedChecksum : string)
  | DeleteImageCommand (incusFingerprint imageAlias : string)
  | GetImageAvailabilityCommand
  | CancelCommand (targetCorrelationId : string)
  | HeartbeatAck (acknowledgedSequence : Z) (nodeStatus : string) (intervalSeconds : Z).
Arguments PingCommand {J}.
Arguments CollectTelemetryCommand {J}.
Arguments ApplyNodeConfigCommand {J}.
Arguments RebootNodeCommand {J}.
Arguments CreateInstanceCommand {J}.
Arguments StartInstanceCommand {J}.
Arguments StopInstanceCommand {J}.
Arguments RestartInstanceCommand {J}.
Arguments DeleteInstanceCommand {J}.
Arguments UpdateInstanceSpecCommand {J}.
Arguments GetInstanceMetricsCommand {J}.
Arguments ConfigureNetworkCommand {J}.
Arguments ApplyFirewallRulesCommand {J}.
Arguments CreateVolumeCommand {J}.
Arguments ResizeVolumeCommand {J}.
Arguments AttachVolumeCommand {J}.
Arguments DetachVolumeCommand {J}.
Arguments DeleteVolumeCommand {J}.
Arguments CreateVolumeSnapshotCommand {J}.
Arguments RestoreVolumeSnapshotCommand {J}.
Arguments DeleteVolumeSnapshotCommand {J}.
Arguments SyncImageCommand {J}.
Arguments VerifyImageCommand {J}.
Arguments DeleteImageCommand {J}.
Arguments GetImageAvailabilityCommand {J}.
Arguments CancelCommand {J}.
Arguments HeartbeatAck {J}.

Record ServerMessage (J : Type) := mkServerMessage {
  ServerMessage_CorrelationId : string;
  ServerMessage_Timestamp : Z;
  ServerMessage_ProtocolVersion : string;
  ServerMessage_Payload : ServerPayload J
}.
Arguments mkServerMessage {J} _ _ _ _.
Arguments ServerMessage_CorrelationId {J} _.
Arguments ServerMessage_Timestamp {J} _.
Arguments ServerMessage_ProtocolVersion {J} _.
Arguments ServerMessage_Payload {J} _.

(** ** Messages from the agent *)

Record NodeCapabilities : Type := mkNodeCapabilities {
  NodeCapabilities_CpuCores : Z;
  NodeCapabilities_TotalMemoryBytes : Z;
  NodeCapabilities_TotalStorageBytes : Z;
  NodeCapabilities_IncusSupported : bool;
  NodeCapabilities_KvmSupported : bool;
  NodeCapabilities_OsDistribution : string;
  NodeCapabilities_Architecture : string
}.

Inductive NodePayload (J : Type) : Type :=
  | ReadyEvent (agentVersion : string)
  | Heartbeat (sequenceNumber : Z) (capabilities : option NodeCapabilities)
  | AgentResult (commandCorrelationId : string) (success : bool) (errorMessage : string)
      (resultPayloadJson : option J)
  | ConsoleData (sessionId : string).
Arguments ReadyEvent {J}.
Arguments Heartbeat {J}.
Arguments AgentResult {J}.
Arguments ConsoleData {J}.

Section encoding.
Context {J : Type} `{!FmtAny, !Json J}.

(** The payload of a command: the [switch] of [grpcStreamSender.Send]. *)
Definition encode (cmd : Command) : result (ServerPayload J) :=
  let p := Command_Payload cmd in
  let s key := fmt_v (entry p key) in
  let n key := toInt64 (entry p key) in
  let n32 key := wrap32 (toInt (entry p key)) in
  let b key := toBool (entry p key) in
  let typ := Command_Type cmd in
  if decide (typ = "ping") then
    Ok (PingCommand (match entry p "msg" with None => "" | v => fmt_v v end))
  else if decide (typ = "collect_telemetry") then Ok (CollectTelemetryCommand true)
  else if decide (typ = "apply_config") then
    Ok (ApplyNodeConfigCommand (json_Marshal (Some (AnyObj (map_to_list p)))))
  else if decide (typ = "reboot") then Ok (RebootNodeCommand 5 "maintenance")
  else if decide (typ = "create_instance") then
    Ok (CreateInstanceCommand (s "instance_id") (s "name") (s "type") (n32 "cpu_cores")
          (n "memory_bytes") (n "storage_bytes") (s "image") (json_Marshal (entry p "config"))
          (b "start_after_create"))
  else if decide (typ = "start_instance") then
    Ok (StartInstanceCommand (s "instance_id") (s "name"))
  else if decide (typ = "stop_instance") then
    Ok (StopInstanceCommand (s "instance_id") (s "name") (b "force"))
  else if decide (typ = "restart_instance") then
    Ok (RestartInstanceCommand (s "instance_id") (s "name") (b "force"))
  else if decide (typ = "delete_instance") then
    Ok (DeleteInstanceCommand (s "instance_id") (s "name") (b "force"))
  else if decide (typ = "update_instance_spec") then
    Ok (UpdateInstanceSpecCommand (s "instance_id") (s "name") (n32 "cpu_cores")
          (n "memory_bytes") (n "storage_bytes"))
  else if decide (typ = "get_instance_metrics") then
    Ok (GetInstanceMetricsCommand (s "instance_id") (s "name"))
  else if decide (typ = "configure_network") then
    Ok (ConfigureNetworkCommand (s "instance_id") (s "instance_name") (s "interface_name")
          (s "ipv4_address") (s "ipv4_gateway") (s "ipv6_address") (s "ipv6_gateway")
          (s "mac_address") (n32 "vlan_id"))
  else if decide (typ = "apply_firewall_rules") then
    Ok (ApplyFirewallRulesCommand (s "instance_id") (s "instance_name") [])
  else if decide (typ = "create_volume") then
    Ok (CreateVolumeCommand (s "volume_id") (s "pool_name") (s "volume_name") (n "size_bytes")
          (s "content_type"))
  else if decide (typ = "resize_volume") then
    Ok (ResizeVolumeCommand (s "volume_id") (s "pool_name") (s "volume_name") (n "new_size_bytes"))
  else if decide (typ = "attach_volume") then
    Ok (AttachVolumeCommand (s "instance_id") (s "instance_name") (s "pool_name")
          (s "volume_name") (s "mount_path") (b "read_only"))
  else if decide (typ = "detach_volume") then
    Ok (DetachVolumeCommand (s "instance_id") (s "instance_name") (s "volume_name"))
  else if decide (typ = "delete_volume") then
    Ok (DeleteVolumeCommand (s "volume_id") (s "pool_name") (s "volume_name"))
  else if decide (typ = "create_volume_snapshot") then
    Ok (CreateVolumeSnapshotCommand (s "volume_id") (s "pool_name") (s "volume_name")
          (s "snapshot_name"))
  else if decide (typ = "restore_volume_snapshot") then
    Ok (RestoreVolumeSnapshotCommand (s "volume_id") (s "pool_name") (s "volume_name")
          (s "snapshot_name"))
  else if decide (typ = "delete_volume_snapshot") then
    Ok (DeleteVolumeSnapshotCommand (s "volume_id") (s "pool_name") (s "volume_name")
          (s "snapshot_name"))
  else Err (Errorf ("unsupported command type: " +:+ typ)).
End encoding.

(** ** The server *)

Definition ProtocolVersion : string := "aurora.v1".

(** The streams the agents opened; the write may fail. *)
Class RawStream (J : Type) := raw_Send : World → string → ServerMessage J → result ().

Section streams.
Context {J : Type} `{!FmtAny, !Json J, !RawStream J}.

(** [grpcStreamSender.Send]: what the connection table of the node service
    calls on a stream. *)
#[export] Instance grpcStreamSender (reply : World → string → result CommandResult) : AgentLink := {
  stream_Send := λ w sender cmd,
    match encode cmd with
    | Ok p => raw_Send w sender (mkServerMessage (Command_CorrelationID cmd) (now_of w)
                ProtocolVersion p)
    | Err e => Err e
    end;
  await_reply := reply
}.
End streams.

(** An error of package [status]: the code and the text. *)
Definition status_Error (code text : string) : error := ErrNew ("grpc." +:+ code) text.

Record EnrollNodeRequest : Type := mkEnrollNodeRequest {
  EnrollNodeRequest_EnrollmentToken : string;
  EnrollNodeRequest_NodeName : string;
  EnrollNodeRequest_Fqdn : string;
  EnrollNodeRequest_CsrPem : string;
  EnrollNodeRequest_Capabilities : option NodeCapabilities
}.

Record EnrollNodeResponse : Type := mkEnrollNodeResponse {
  EnrollNodeResponse_NodeId : string;
  EnrollNodeResponse_CertificatePem : string;
  EnrollNodeResponse_HubGrpcEndpoint : string;
  EnrollNodeResponse_HeartbeatIntervalSeconds : Z
}.

(** What the agent reports of its host at enrollment. *)
Definition enrollment_caps (c : option NodeCapabilities) : Prelude.Details :=
  match c with
  | None => ∅
  | Some c => details [("cpu_cores", AnyInt (NodeCapabilities_CpuCores c));
      ("total_memory_bytes", AnyInt (NodeCapabilities_TotalMemoryBytes c));
      ("total_storage_bytes", AnyInt (NodeCapabilities_TotalStorageBytes c));
      ("incus_supported", AnyBool (NodeCapabilities_IncusSupported c));
      ("kvm_supported", AnyBool (NodeCapabilities_KvmSupported c));
      ("os_distribution", AnyStr (NodeCapabilities_OsDistribution c));
      ("architecture", AnyStr (NodeCapabilities_Architecture c))]
  end.

(** What it reports with a heartbeat. *)
Definition heartbeat_caps (c : option NodeCapabilities) : Prelude.Details :=
  match c with
  | None => ∅
  | Some c => details [("cpu_cores", AnyInt (NodeCapabilities_CpuCores c));
      ("total_memory_bytes", AnyInt (NodeCapabilities_TotalMemoryBytes c));
      ("total_storage_bytes", AnyInt (NodeCapabilities_TotalStorageBytes c))]
  end.

(** The code an error of the enrollment is answered with. *)
Definition enroll_status (err : error) : error :=
  if errors_Is err ErrEnrollmentTokenInvalid then
    status_Error "Unauthenticated" "invalid enrollment token"
  else if errors_Is err ErrEnrollmentTokenExpired then
    status_Error "Unauthenticated" "enrollment token has expired"
  else if errors_Is err ErrEnrollmentTokenUsed then
    status_Error "AlreadyExists" "enrollment token has already been consumed"
  else if errors_Is err ErrInvalidCSR then status_Error "InvalidArgument" (Prelude.Error err)
  else status_Error "Internal" ("enrollment failed: " +:+ Prelude.Error err).

Section server.
Context {A J : Type} `{!AuditRepository A, !PKIManager, !Digest, !AgentLink, !Json J}.

Definition gateway_EnrollNode (req : EnrollNodeRequest) : go (NodeState A) EnrollNodeResponse :=
  if decide (EnrollNodeRequest_EnrollmentToken req = "") then
    fail (status_Error "InvalidArgument" "enrollment token is required")
  else if decide (EnrollNodeRequest_CsrPem req = "") then
    fail (status_Error "InvalidArgument" "csr_pem is required")
  else
    '(id, cert) ← wrap_err enroll_status
      (EnrollNode (EnrollNodeRequest_EnrollmentToken req) (EnrollNodeRequest_NodeName req)
         (EnrollNodeRequest_Fqdn req) (EnrollNodeRequest_CsrPem req)
         (Some (enrollment_caps (EnrollNodeRequest_Capabilities req))));
    mret (mkEnrollNodeResponse id cert "127.0.0.1:8443" 10).

(** What handling a message of an agent does outside the node service: an
    answer on the stream, a result handed to the waiting call, a message for
    the console of the session. *)
Inductive outlet : Type :=
  | Answer (m : ServerMessage J)
  | Delivered (res : CommandResult)
  | Routed (sessionId : string).

Definition handleNodeMessage (has_consoles : bool) (nodeID correlationId : string)
    (msg : NodePayload J) : go (NodeState A) (list outlet) :=
  match msg with
  | ReadyEvent _ => mret []
  | Heartbeat seq caps =>
      ignore (ProcessHeartbeat nodeID (Some (heartbeat_caps caps))) ;;
      now ← time_Now;
      mret [Answer (mkServerMessage correlationId now ProtocolVersion
              (HeartbeatAck seq "NODE_STATUS_ONLINE" 10))]
  | AgentResult id ok text payload =>
      now ← time_Now;
      mret [Delivered (mkCommandResult id ok text (payload ≫= json_Unmarshal) now)]
  | ConsoleData id => mret (if has_consoles then [Routed id] else [])
  end.

(** [StreamTunnel] up to its receive loop: the certificate of the peer, the
    node it belongs to, the registration of the stream. *)
Definition open_tunnel (has_audit : bool) (peer : result string) (sender : string) :
    go (NodeState A) string :=
  cert ← wrap_err (λ err, status_Error "Unauthenticated"
                     ("mTLS peer verification failed: " +:+ Prelude.Error err)) (lift peer);
  n ← wrap_err (λ err, if errors_Is err ErrNodeRevoked
                       then status_Error "PermissionDenied" "node certificate has been revoked"
                       else status_Error "Unauthenticated"
                              ("node authentication failed: " +:+ Prelude.Error err))
        (AuthenticateNodeCertificate cert);
  wrap_err (λ err, status_Error "Internal"
              ("failed to register node stream: " +:+ Prelude.Error err))
    (OnStreamConnected has_audit (Node_ID n) sender) ;;
  mret (Node_ID n).

(** The receive loop over the messages that arrive before the stream ends. *)
Fixpoint receive (has_consoles : bool) (nodeID : string)
    (msgs : list (string * NodePayload J)) : go (NodeState A) (list outlet) :=
  match msgs with
  | [] => mret []
  | (correlationId, msg) :: rest =>
      out ← handleNodeMessage has_consoles nodeID correlationId msg;
      more ← receive has_consoles nodeID rest;
      mret (out ++ more)
  end.

Definition StreamTunnel (has_audit has_consoles : bool) (peer : result string) (sender : string)
    (msgs : list (string * NodePayload J)) : go (NodeState A) (list outlet) :=
  nodeID ← open_tunnel has_audit peer sender;
  out ← receive has_consoles nodeID msgs;
  OnStreamDisconnected has_audit nodeID ;;
  mret out.
End server.

(** ** Tunnels *)

Section tunnels.
Context {A J : Type} `{!AuditRepository A, !PKIManager, !Digest, !AgentLink, !Json J}.
Implicit Types (st : NodeState A).

(** A certificate is accepted for a live node with its fingerprint only, and
    checking one changes nothing. *)
Lemma wp_authenticate cert (Q : result Node → NodeState A → World → Prop) w st :
  good st →
  (∀ e, (∀ id fp n, VerifyCertificate cert = Ok (id, fp) →
           node_at (ns_store st) id = Some n → Node_Status n ≠ StatusRevoked) → Q (Err e) st w) →
  Q (Err ErrNodeRevoked) st w →
  (∀ n, node_at (ns_store st) (Node_ID n) = Some n → Node_Status n ≠ StatusRevoked →
     VerifyCertificate cert = Ok (Node_ID n, Node_CertFingerprint n) → Q (Ok n) st w) →
  wp (AuthenticateNodeCertificate cert) Q w st.
Proof.
  intros [Hok _] Hbad Hrev Hlive. unfold AuthenticateNodeCertificate. wp_step.
  destruct (VerifyCertificate cert) as [[id fp]|e] eqn:Ev; [|by apply Hbad].
  unfold on_nodes. wp_step.
  rewrite (wp_run _ _ _ _ _ _ _ (NodeGetByID_run id w (ns_store st) Hok)).
  destruct st as [s c a]. cbn [ns_store ns_conns ns_audit] in *.
  destruct (node_at s id) as [n|] eqn:En.
  2:{ apply Hbad. intros ? ? ? [= <- <-]. congruence. }
  assert (Node_ID n = id) as <- by (by eapply node_at_id).
  destruct (decide (Node_Status n = StatusRevoked)) as [Hr|Hr]; wp_step; [done|].
  destruct (decide (Node_CertFingerprint n ≠ fp)) as [Hf|Hf]; wp_step.
  - apply Hbad. intros ? ? ? [= <- <-]. congruence.
  - apply Hlive; [done..|]. repeat f_equal. apply dec_stable in Hf. congruence.
Qed.

(** C5 only a registered, unrevoked node opens a tunnel: a tunnel that opens
    belongs to the node its certificate names, which exists, is not revoked and
    has the fingerprint of the certificate, and commands to that node then go
    to this stream. A refused peer changes nothing, and the certificate of a
    revoked node is refused as such. *)
Theorem tunnel_authenticated (has_audit : bool) (peer : result string) (sender : string)
    (w : World) st :
  good st →
  let open := open_tunnel has_audit peer sender in
  match answer open w st with
  | Ok id => ∃ cert n, peer = Ok cert ∧ node_at (ns_store st) id = Some n ∧
      Node_Status n ≠ StatusRevoked ∧ VerifyCertificate cert = Ok (id, Node_CertFingerprint n) ∧
      ActiveConnection_Sender <$> (ns_conns (exec open w st) !! id) = Some sender
  | Err e =>
      exec open w st = st ∧
      ∀ cert id fp n, peer = Ok cert → VerifyCertificate cert = Ok (id, fp) →
        node_at (ns_store st) id = Some n → Node_Status n = StatusRevoked →
        e = status_Error "PermissionDenied" "node certificate has been revoked"
  end.
Proof.
  intros Hg open. enough (wp open (λ r st' _, match r with
    | Ok id => ∃ cert n, peer = Ok cert ∧ node_at (ns_store st) id = Some n ∧
      Node_Status n ≠ StatusRevoked ∧ VerifyCertificate cert = Ok (id, Node_CertFingerprint n) ∧
      ActiveConnection_Sender <$> (ns_conns st' !! id) = Some sender
    | Err e => st' = st ∧
      ∀ cert id fp n, peer = Ok cert → VerifyCertificate cert = Ok (id, fp) →
        node_at (ns_store st) id = Some n → Node_Status n = StatusRevoked →
        e = status_Error "PermissionDenied" "node certificate has been revoked" end)
    w st) as Hwp%wp_elim by exact Hwp.
  unfold open, open_tunnel. rewrite wp_bind, wp_wrap_err, wp_lift.
  destruct peer as [cert|e]; [|by split]. rewrite wp_bind, wp_wrap_err.
  apply wp_authenticate; [done|..].
  - intros e He. cbn. split; [done|]. intros ? id fp n [= <-] Hv Hn Hr. by destruct (He id fp n).
  - cbn. split; [done|]. done.
  - intros n Hn Hr Hv. cbn beta iota. rewrite wp_bind, wp_wrap_err.
    eapply wp_mono; [by apply OnStreamConnected_effect|]. intros r st' w' [_ Hc].
    destruct (Hc n Hn Hr) as [-> Hs]. wp_step. exists cert, n. done.
Qed.

Lemma wp_on_nodes_conns {X} (m : go MemoryNodeStore X) w st :
  wp (on_nodes m) (λ _ st' _, ns_conns st' = ns_conns st) w st.
Proof. unfold on_nodes. wp_step. unfold wp. by destruct (m w (ns_store st)) as [[r s'] w']. Qed.

(** A tunnel that ends removes whatever stream is registered for its node: when
    the agent has already reconnected, the new stream is unregistered too and
    commands no longer reach the node. *)
Lemma late_disconnect_drops_new_stream b id sender (w : World) st :
  wp (OnStreamConnected b id sender ;; OnStreamDisconnected b id) (λ r st' _,
    r = Ok () → answer (GetConnection id) w st' = Ok None) w st.
Proof.
  wp_step. unfold wp at 1.
  destruct (OnStreamConnected b id sender w st) as [[[[]|e] st1] w1]; [|done].
  unfold OnStreamDisconnected, UnregisterConnection, on_conns. wp_step.
  eapply wp_mono; [apply wp_on_nodes_conns|]. cbn [ns_conns]. intros r st2 w2 H2.
  assert (ns_conns st2 !! id = None) as Hnone by (rewrite H2; apply lookup_delete_eq).
  assert (∀ st3 w3, ns_conns st3 !! id = None →
    wp (audit_node b None "node.gateway.disconnected" "node" id 200 None)
      (λ r st' _, r = Ok () → answer (GetConnection id) w st' = Ok None) w3 st3) as Hend.
  { intros st3 w3 H3. apply wp_audit_node. intros a' w' _. unfold GetConnection. cbn.
    unfold answer, mbind, go_bind, get, mret, go_ret. cbn. by rewrite H3. }
  destruct r as [n|e]; wp_step; [|by apply Hend].
  case_decide; wp_step; [|by apply Hend].
  eapply wp_mono; [apply wp_on_nodes_conns|]. intros r3 st3 w3 Hc3. apply Hend. by rewrite Hc3.
Qed.

(** The heartbeat of a node revoked while its tunnel is open is dropped, but the
    agent is told it is online. *)
Lemma revoked_node_acknowledged b id cid seq caps n (w : World) st :
  good st → node_at (ns_store st) id = Some n → Node_Status n = StatusRevoked →
  wp (handleNodeMessage (J := J) b id cid (Heartbeat seq caps)) (λ r st' _,
    st' = st ∧ ∃ now, r = Ok [Answer (mkServerMessage cid now ProtocolVersion
                              (HeartbeatAck seq "NODE_STATUS_ONLINE" 10))]) w st.
Proof.
  intros Hg Hn Hr. cbn [handleNodeMessage]. wp_step. unfold ProcessHeartbeat. wp_step.
  apply wp_get_unrevoked; [apply Hg|congruence|..].
  - intros m _ _. wp_step. by split; [|eexists].
  - intros m Hm Hnr. exfalso. unfold revoked in Hnr. congruence.
Qed.
End tunnels.

(** ** A tunnel of an enrolled node *)

Section demo.
#[local] Existing Instances naming_pki tagging_digest silent_link.

Lemma tunnel_authenticated_witness :
  let st := exec demo_enroll (calm 1) demo_tokens in
  answer (open_tunnel true (Ok "uuid-0") "stream-1") (calm 2) st = Ok "uuid-0" ∧
  ∃ cert n, Ok "uuid-0" = Ok cert ∧ node_at (ns_store st) "uuid-0" = Some n ∧
    Node_Status n ≠ StatusRevoked ∧
    VerifyCertificate cert = Ok ("uuid-0", Node_CertFingerprint n) ∧
    ActiveConnection_Sender <$>
      (ns_conns (exec (open_tunnel true (Ok "uuid-0") "stream-1") (calm 2) st) !! "uuid-0") =
    Some "stream-1".
Proof.
  intros st.
  assert (good st) as Hg.
  { apply (steps_later demo_tokens st); [|exact demo_good]. apply rtc_once.
    exact (n_enroll (calm 1) demo_tokens "aur_enroll_00ff" "n1" "n1.example" "csr" None eq_refl). }
  pose proof (tunnel_authenticated true (Ok "uuid-0") "stream-1" (calm 2) st Hg) as Ht.
  assert (answer (open_tunnel true (Ok "uuid-0") "stream-1") (calm 2) st = Ok "uuid-0") as Ha
    by (vm_compute; reflexivity).
  cbv zeta in Ht. rewrite Ha in Ht. split; [exact Ha|exact Ht].
Defined.
End demo.
