(* ===== verification/Agent.v ===== *)
(** * The node agent

    [handleServerMessage] of [internal/app/agent/client.go]: a message of the
    hub becomes one call of a driver and one result message. The drivers are
    the interface [Drivers]; the simulated drivers of [internal/infra/incus]
    implement it in memory. *)

From S2P Require Import Prelude Identity AuditTrail Net Guest Node Commands Instances Template.
From S2P Require Import Network Compute Wire.

Record InstanceSpec : Type := mkInstanceSpec {
  InstanceSpec_ID : string;
  InstanceSpec_Name : string;
  InstanceSpec_Type_ : string;
  InstanceSpec_CPUCores : Z;
  InstanceSpec_MemoryBytes : Z;
  InstanceSpec_StorageBytes : Z;
  InstanceSpec_Image : string;
  InstanceSpec_Config : list (string * string);
  InstanceSpec_StartAfterCreate : bool
}.

Record InstanceInfo : Type := mkInstanceInfo {
  InstanceInfo_Name : string;
  InstanceInfo_Status : Status;
  InstanceInfo_StatusCode : Z;
  InstanceInfo_Type_ : string;
  InstanceInfo_IPv4Address : string;
  InstanceInfo_IPv6Address : string;
  InstanceInfo_PID : Z;
  InstanceInfo_CreatedAt : Z
}.

Definition eta_InstanceInfo (r : InstanceInfo) : InstanceInfo :=
  mkInstanceInfo (InstanceInfo_Name r) (InstanceInfo_Status r)
    (InstanceInfo_StatusCode r) (InstanceInfo_Type_ r) (InstanceInfo_IPv4Address r)
    (InstanceInfo_IPv6Address r) (InstanceInfo_PID r) (InstanceInfo_CreatedAt r).
#[export] Instance set_InstanceInfo_Status : Setter InstanceInfo_Status := ltac:(setter eta_InstanceInfo InstanceInfo_Status).

Record InstanceMetrics : Type := mkInstanceMetrics {
  InstanceMetrics_CPUUsagePercent : float64;
  InstanceMetrics_MemoryUsageBytes : Z;
  InstanceMetrics_MemoryPeakBytes : Z;
  InstanceMetrics_DiskReadBytes : Z;
  InstanceMetrics_DiskWriteBytes : Z;
  InstanceMetrics_NetworkRxBytes : Z;
  InstanceMetrics_NetworkTxBytes : Z;
  InstanceMetrics_ProcessesCount : Z;
  InstanceMetrics_Timestamp : Z
}.

Record InterfaceConfig : Type := mkInterfaceConfig {
  InterfaceConfig_Ipv4 : string;
  InterfaceConfig_Gw4 : string;
  InterfaceConfig_Ipv6 : string;
  InterfaceConfig_Gw6 : string;
  InterfaceConfig_Mac : string;
  InterfaceConfig_Vlan : Z
}.

(** The ports [HypervisorDriver], [NetworkDriver], [StorageDriver] and
    [HypervisorImageDriver] of one host. *)
Class Drivers (D : Type) := {
  drv_CreateInstance : InstanceSpec → go D InstanceInfo;
  drv_StartInstance : string → go D ();
  drv_StopInstance : string → bool → go D ();
  drv_RestartInstance : string → bool → go D ();
  drv_DeleteInstance : string → bool → go D ();
  drv_UpdateSpec : string → Z → Z → Z → go D ();
  drv_GetMetrics : string → go D InstanceMetrics;
  drv_ConfigureInterface : string → string → InterfaceConfig → go D ();
  drv_ApplyFirewall : string → list FirewallRule → go D ();
  drv_CreateVolume : string → string → Z → string → go D ();
  drv_ResizeVolume : string → string → Z → go D ();
  drv_AttachVolume : string → string → string → string → bool → go D ();
  drv_DetachVolume : string → string → go D ();
  drv_DeleteVolume : string → string → go D ();
  drv_CreateSnapshot : string → string → string → go D ();
  drv_RestoreSnapshot : string → string → string → go D ();
  drv_DeleteSnapshot : string → string → string → go D ();
  drv_SyncImage : string → string → string → string → go D ();
  drv_VerifyImage : string → string → go D bool;
  drv_DeleteImage : string → string → go D ();
  drv_ListImages : go D (list string)
}.

(** ** The simulated drivers *)

(** The four simulated drivers of one host. *)
Record SimulatedHost : Type := mkSimulatedHost {
  SimulatedHost_instances : gmap string InstanceInfo;
  SimulatedHost_volumes : gmap string (gmap string Z);
  SimulatedHost_attached : gmap string (gmap string string);
  SimulatedHost_snapshots : gmap string (gmap string (gset string));
  SimulatedHost_interfaces : gmap string (gmap string InterfaceConfig);
  SimulatedHost_firewalls : gmap string (list FirewallRule);
  SimulatedHost_images : gmap string string
}.

Definition eta_SimulatedHost (r : SimulatedHost) : SimulatedHost :=
  mkSimulatedHost (SimulatedHost_instances r) (SimulatedHost_volumes r)
    (SimulatedHost_attached r) (SimulatedHost_snapshots r) (SimulatedHost_interfaces r)
    (SimulatedHost_firewalls r) (SimulatedHost_images r).
#[export] Instance set_SimulatedHost_instances : Setter SimulatedHost_instances := ltac:(setter eta_SimulatedHost SimulatedHost_instances).
#[export] Instance set_SimulatedHost_volumes : Setter SimulatedHost_volumes := ltac:(setter eta_SimulatedHost SimulatedHost_volumes).
#[export] Instance set_SimulatedHost_attached : Setter SimulatedHost_attached := ltac:(setter eta_SimulatedHost SimulatedHost_attached).
#[export] Instance set_SimulatedHost_snapshots : Setter SimulatedHost_snapshots := ltac:(setter eta_SimulatedHost SimulatedHost_snapshots).
#[export] Instance set_SimulatedHost_interfaces : Setter SimulatedHost_interfaces := ltac:(setter eta_SimulatedHost SimulatedHost_interfaces).
#[export] Instance set_SimulatedHost_firewalls : Setter SimulatedHost_firewalls := ltac:(setter eta_SimulatedHost SimulatedHost_firewalls).
#[export] Instance set_SimulatedHost_images : Setter SimulatedHost_images := ltac:(setter eta_SimulatedHost SimulatedHost_images).

Definition NewSimulatedHost : SimulatedHost := mkSimulatedHost ∅ ∅ ∅ ∅ ∅ ∅ ∅.

(** [m[k] = f(m[k])] on a nested map that is created on demand. *)
Definition nested {V} (k : string) (f : gmap string V → gmap string V)
    (m : gmap string (gmap string V)) : gmap string (gmap string V) :=
  <[k := f (default ∅ (m !! k))]> m.

Definition sim_info (spec : InstanceSpec) (now : Z) : InstanceInfo :=
  mkInstanceInfo (InstanceSpec_Name spec)
    (if InstanceSpec_StartAfterCreate spec then StatusRunning else StatusStopped) 0
    (InstanceSpec_Type_ spec) "10.0.3.150" "fd42:4242:4242::150" 12345 now.

Definition sim_CreateInstance (spec : InstanceSpec) : go SimulatedHost InstanceInfo :=
  s ← get;
  match SimulatedHost_instances s !! InstanceSpec_Name spec with
  | Some _ => fail ErrInstanceAlreadyExists
  | None =>
      now ← time_Now;
      let info := sim_info spec now in
      put (s <| SimulatedHost_instances :=
                  <[InstanceSpec_Name spec := info]> (SimulatedHost_instances s) |>) ;;
      mret info
  end.

(** [info.Status = status], unless [refuse] rejects the status it has. *)
Definition sim_set_status (name : string) (refuse : Status → option error) (status : Status) :
    go SimulatedHost () :=
  s ← get;
  match SimulatedHost_instances s !! name with
  | None => fail ErrInstanceNotFound
  | Some info =>
      match refuse (InstanceInfo_Status info) with
      | Some e => fail e
      | None => put (s <| SimulatedHost_instances :=
                  <[name := (info <| InstanceInfo_Status := status |>)]> (SimulatedHost_instances s) |>)
      end
  end.

Definition sim_StartInstance (name : string) : go SimulatedHost () :=
  sim_set_status name (λ st, if decide (st = StatusRunning) then Some ErrInstanceRunning else None)
    StatusRunning.
Definition sim_StopInstance (name : string) (force : bool) : go SimulatedHost () :=
  sim_set_status name (λ st, if decide (st = StatusStopped) then Some ErrInstanceStopped else None)
    StatusStopped.
Definition sim_RestartInstance (name : string) (force : bool) : go SimulatedHost () :=
  sim_set_status name (λ _, None) StatusRunning.

Definition sim_DeleteInstance (name : string) (force : bool) : go SimulatedHost () :=
  s ← get;
  match SimulatedHost_instances s !! name with
  | None => fail ErrInstanceNotFound
  | Some _ => put (s <| SimulatedHost_instances := delete name (SimulatedHost_instances s) |>)
  end.

Definition sim_UpdateSpec (name : string) (cpu memory storage : Z) : go SimulatedHost () :=
  s ← get;
  match SimulatedHost_instances s !! name with
  | None => fail ErrInstanceNotFound
  | Some _ => mret ()
  end.

Definition sim_GetInstance (name : string) : go SimulatedHost InstanceInfo :=
  s ← get;
  match SimulatedHost_instances s !! name with
  | None => fail ErrInstanceNotFound
  | Some info => mret info
  end.

Definition sim_GetMetrics (name : string) : go SimulatedHost InstanceMetrics :=
  s ← get;
  match SimulatedHost_instances s !! name with
  | None => fail ErrInstanceNotFound
  | Some _ =>
      now ← time_Now;
      mret (mkInstanceMetrics (flit 7 2) (512 * 1024 * 1024) (768 * 1024 * 1024) 1048576 2097152
              5242880 10485760 42 now)
  end.

Definition sim_ListInstances : go SimulatedHost (list InstanceInfo) :=
  s ← get; list_in (SimulatedHost_instances s) (λ _, True).

Definition sim_ConfigureInterface (instanceName ifaceName : string) (c : InterfaceConfig) :
    go SimulatedHost () :=
  modify (λ s, s <| SimulatedHost_interfaces :=
    nested instanceName <[ifaceName := c]> (SimulatedHost_interfaces s) |>).
Definition sim_ApplyFirewall (instanceName : string) (rules : list FirewallRule) :
    go SimulatedHost () :=
  modify (λ s, s <| SimulatedHost_firewalls :=
    <[instanceName := rules]> (SimulatedHost_firewalls s) |>).

Definition sim_CreateVolume (poolName volumeName : string) (sizeBytes : Z)
    (contentType : string) : go SimulatedHost () :=
  modify (λ s, s <| SimulatedHost_volumes :=
    nested poolName <[volumeName := sizeBytes]> (SimulatedHost_volumes s) |>).
Definition sim_ResizeVolume (poolName volumeName : string) (newSizeBytes : Z) :
    go SimulatedHost () :=
  modify (λ s, s <| SimulatedHost_volumes :=
    nested poolName <[volumeName := newSizeBytes]> (SimulatedHost_volumes s) |>).
Definition sim_AttachVolume (instanceName poolName volumeName mountPath : string)
    (readOnly : bool) : go SimulatedHost () :=
  modify (λ s, s <| SimulatedHost_attached :=
    nested instanceName <[volumeName := mountPath]> (SimulatedHost_attached s) |>).
Definition sim_DetachVolume (instanceName volumeName : string) : go SimulatedHost () :=
  modify (λ s, s <| SimulatedHost_attached :=
    alter (delete volumeName) instanceName (SimulatedHost_attached s) |>).
Definition sim_DeleteVolume (poolName volumeName : string) : go SimulatedHost () :=
  modify (λ s, s <| SimulatedHost_volumes :=
    alter (delete volumeName) poolName (SimulatedHost_volumes s) |>).
Definition sim_CreateSnapshot (poolName volumeName snapshotName : string) : go SimulatedHost () :=
  modify (λ s, s <| SimulatedHost_snapshots :=
    nested poolName (λ m, <[volumeName := {[snapshotName]} ∪ default ∅ (m !! volumeName)]> m)
      (SimulatedHost_snapshots s) |>).
Definition sim_RestoreSnapshot (poolName volumeName snapshotName : string) :
    go SimulatedHost () := mret ().
Definition sim_DeleteSnapshot (poolName volumeName snapshotName : string) : go SimulatedHost () :=
  modify (λ s, s <| SimulatedHost_snapshots :=
    alter (alter (.∖ {[snapshotName]}) volumeName) poolName (SimulatedHost_snapshots s) |>).

Definition sim_SyncImage (remote alias fingerprint checksum : string) : go SimulatedHost () :=
  let fingerprint := if decide (fingerprint = "") then alias else fingerprint in
  modify (λ s, s <| SimulatedHost_images := <[fingerprint := alias]> (SimulatedHost_images s) |>).
Definition sim_VerifyImage (fingerprint expectedChecksum : string) : go SimulatedHost bool :=
  if decide (expectedChecksum ≠ "" ∧ fingerprint ≠ "" ∧ ¬ EqualFold fingerprint expectedChecksum)
  then fail ErrFingerprintMismatch
  else mret true.
Definition sim_DeleteImage (fingerprint alias : string) : go SimulatedHost () :=
  s ← get;
  match SimulatedHost_images s !! fingerprint with
  | None => fail (ErrNew "incus" "image not found on host")
  | Some _ => put (s <| SimulatedHost_images := delete fingerprint (SimulatedHost_images s) |>)
  end.
Definition sim_ListImages : go SimulatedHost (list string) :=
  s ← get; es ← range_map (SimulatedHost_images s); mret es.*1.

#[export] Instance simulated_drivers : Drivers SimulatedHost := {
  drv_CreateInstance := sim_CreateInstance;
  drv_StartInstance := sim_StartInstance;
  drv_StopInstance := sim_StopInstance;
  drv_RestartInstance := sim_RestartInstance;
  drv_DeleteInstance := sim_DeleteInstance;
  drv_UpdateSpec := sim_UpdateSpec;
  drv_GetMetrics := sim_GetMetrics;
  drv_ConfigureInterface := sim_ConfigureInterface;
  drv_ApplyFirewall := sim_ApplyFirewall;
  drv_CreateVolume := sim_CreateVolume;
  drv_ResizeVolume := sim_ResizeVolume;
  drv_AttachVolume := sim_AttachVolume;
  drv_DetachVolume := sim_DetachVolume;
  drv_DeleteVolume := sim_DeleteVolume;
  drv_CreateSnapshot := sim_CreateSnapshot;
  drv_RestoreSnapshot := sim_RestoreSnapshot;
  drv_DeleteSnapshot := sim_DeleteSnapshot;
  drv_SyncImage := sim_SyncImage;
  drv_VerifyImage := sim_VerifyImage;
  drv_DeleteImage := sim_DeleteImage;
  drv_ListImages := sim_ListImages
}.

(** ** The handler *)

(** [time.Time] as JSON text. *)
Class TimeText := time_text : Z → string.

Definition info_fields `{TimeText} (i : InstanceInfo) : list (string * any) :=
  [("name", AnyStr (InstanceInfo_Name i));
   ("status", AnyStr (instance_status_text (InstanceInfo_Status i)));
   ("statusCode", AnyInt (InstanceInfo_StatusCode i)); ("type", AnyStr (InstanceInfo_Type_ i))] ++
  (if decide (InstanceInfo_IPv4Address i = "") then []
   else [("ipv4Address", AnyStr (InstanceInfo_IPv4Address i))]) ++
  (if decide (InstanceInfo_IPv6Address i = "") then []
   else [("ipv6Address", AnyStr (InstanceInfo_IPv6Address i))]) ++
  (if decide (InstanceInfo_PID i = 0) then [] else [("pid", AnyInt (InstanceInfo_PID i))]) ++
  [("createdAt", AnyStr (time_text (InstanceInfo_CreatedAt i)))].

Definition metrics_fields `{TimeText} (m : InstanceMetrics) : list (string * any) :=
  [("cpuUsagePercent", AnyFloat (InstanceMetrics_CPUUsagePercent m));
   ("memoryUsageBytes", AnyInt (InstanceMetrics_MemoryUsageBytes m));
   ("memoryPeakBytes", AnyInt (InstanceMetrics_MemoryPeakBytes m));
   ("diskReadBytes", AnyInt (InstanceMetrics_DiskReadBytes m));
   ("diskWriteBytes", AnyInt (InstanceMetrics_DiskWriteBytes m));
   ("networkRxBytes", AnyInt (InstanceMetrics_NetworkRxBytes m));
   ("networkTxBytes", AnyInt (InstanceMetrics_NetworkTxBytes m));
   ("processesCount", AnyInt (InstanceMetrics_ProcessesCount m));
   ("timestamp", AnyStr (time_text (InstanceMetrics_Timestamp m)))].

Section handler.
Context {D J : Type} `{!Drivers D, !Json J, !TimeText}.
(** [gatherTelemetry], a reading of the host. *)
Context (telemetry : list (string * any)).

(** [sendDriverResult]: the one message that answers a command. *)
Definition driver_result (correlationID : string) (r : result (list (string * any))) :
    list (string * NodePayload J) :=
  [(correlationID,
    match r with
    | Ok data => AgentResult correlationID true "" (Some (json_Marshal (Some (AnyObj data))))
    | Err e => AgentResult correlationID false (Prelude.Error e) None
    end)].

(** A driver call without a value, answered with [data]. A driver that panics
    takes the agent down with it: nobody recovers, and nothing is sent. *)
Definition answered (correlationID : string) (m : go D ()) (data : list (string * any)) :
    go D (list (string * NodePayload J)) :=
  r ← try_err m; mret (driver_result correlationID (match r with Ok _ => Ok data | Err e => Err e end)).

(** One with a value. *)
Definition answered_with {X} (correlationID : string) (m : go D X)
    (data : X → list (string * any)) : go D (list (string * NodePayload J)) :=
  r ← try_err m;
  mret (driver_result correlationID (match r with Ok x => Ok (data x) | Err e => Err e end)).

Definition instance_type_of (s : string) : string :=
  if decide (s = "virtual-machine") then TypeVirtualMachine else TypeContainer.

(** The other fields of a rule are zero values. *)
Definition received_rule (instanceID : string) (r : FirewallRuleMessage) : FirewallRule :=
  mkFirewallRule (FirewallRuleMessage_Id r) instanceID (FirewallRuleMessage_Direction r)
    (FirewallRuleMessage_Action r) (FirewallRuleMessage_Protocol r)
    (FirewallRuleMessage_PortRange r) (FirewallRuleMessage_SourceCidr r)
    (FirewallRuleMessage_DestCidr r) (FirewallRuleMessage_Priority r) zero_time zero_time.

(** The literal texts of the configuration and reboot answers are the JSON of
    the objects below, up to spaces. *)
Definition handleServerMessage (msg : ServerMessage J) : go D (list (string * NodePayload J)) :=
  let id := ServerMessage_CorrelationId msg in
  match ServerMessage_Payload msg with
  | HeartbeatAck _ _ _ => mret []
  | CancelCommand _ => mret []
  | PingCommand text =>
      mret (driver_result id (Ok [("pong", AnyBool true); ("received", AnyStr text)]))
  | CollectTelemetryCommand _ => mret (driver_result id (Ok telemetry))
  | ApplyNodeConfigCommand _ => mret (driver_result id (Ok [("applied", AnyBool true)]))
  | RebootNodeCommand _ _ => mret (driver_result id (Ok [("reboot_scheduled", AnyBool true)]))
  | CreateInstanceCommand iid name typ cpu mem sto image _ start =>
      answered_with id
        (drv_CreateInstance (mkInstanceSpec iid name (instance_type_of typ) cpu mem sto image [] start))
        info_fields
  | StartInstanceCommand _ name => answered id (drv_StartInstance name) [("status", AnyStr "running")]
  | StopInstanceCommand _ name force =>
      answered id (drv_StopInstance name force) [("status", AnyStr "stopped")]
  | RestartInstanceCommand _ name force =>
      answered id (drv_RestartInstance name force) [("status", AnyStr "running")]
  | DeleteInstanceCommand _ name force =>
      answered id (drv_DeleteInstance name force) [("deleted", AnyBool true)]
  | UpdateInstanceSpecCommand _ name cpu mem sto =>
      answered id (drv_UpdateSpec name cpu mem sto) [("updated", AnyBool true)]
  | GetInstanceMetricsCommand _ name => answered_with id (drv_GetMetrics name) metrics_fields
  | ConfigureNetworkCommand _ name iface v4 gw4 v6 gw6 mac vlan =>
      answered id (drv_ConfigureInterface name iface (mkInterfaceConfig v4 gw4 v6 gw6 mac vlan))
        [("configured", AnyBool true)]
  | ApplyFirewallRulesCommand iid name rs =>
      let rules := received_rule iid <$> rs in
      answered id (drv_ApplyFirewall name rules) [("rules_applied", AnyInt (Z.of_nat (length rules)))]
  | CreateVolumeCommand _ pool name size typ =>
      answered id (drv_CreateVolume pool name size typ) [("created", AnyBool true)]
  | ResizeVolumeCommand _ pool name size =>
      answered id (drv_ResizeVolume pool name size) [("resized", AnyBool true)]
  | AttachVolumeCommand _ inst pool name path ro =>
      answered id (drv_AttachVolume inst pool name path ro) [("attached", AnyBool true)]
  | DetachVolumeCommand _ inst name =>
      answered id (drv_DetachVolume inst name) [("detached", AnyBool true)]
  | DeleteVolumeCommand _ pool name =>
      answered id (drv_DeleteVolume pool name) [("deleted", AnyBool true)]
  | CreateVolumeSnapshotCommand _ pool name snap =>
      answered id (drv_CreateSnapshot pool name snap) [("snapshot_created", AnyBool true)]
  | RestoreVolumeSnapshotCommand _ pool name snap =>
      answered id (drv_RestoreSnapshot pool name snap) [("snapshot_restored", AnyBool true)]
  | DeleteVolumeSnapshotCommand _ pool name snap =>
      answered id (drv_DeleteSnapshot pool name snap) [("snapshot_deleted", AnyBool true)]
  | SyncImageCommand remote alias fp sum =>
      answered id (drv_SyncImage remote alias fp sum)
        [("synced", AnyBool true); ("fingerprint", AnyStr fp)]
  | VerifyImageCommand fp sum =>
      answered_with id (drv_VerifyImage fp sum) (λ b, [("valid", AnyBool b)])
  | DeleteImageCommand fp alias =>
      answered id (drv_DeleteImage fp alias) [("deleted", AnyBool true)]
  | GetImageAvailabilityCommand =>
      answered_with id drv_ListImages (λ l, [("images", AnyStrs l)])
  end.
End handler.

(** ** Every command is answered once *)

Section answers.
Context {D J : Type} `{!Drivers D, !Json J, !TimeText}.
Context (telemetry : list (string * any)).

(** The messages the agent keeps to itself. *)
Definition unanswered (p : ServerPayload J) : Prop :=
  match p with HeartbeatAck _ _ _ | CancelCommand _ => True | _ => False end.

(** One result message for command [id], with an error text exactly when it
    failed and a payload exactly when it did not. *)
Definition one_result (id : string) (out : result (list (string * NodePayload J))) : Prop :=
  (∃ payload, out = Ok [(id, AgentResult id true "" (Some payload))]) ∨
  (∃ text, out = Ok [(id, AgentResult id false text None)]).

Lemma one_driver_result id r : one_result id (Ok (driver_result id r)).
Proof. destruct r as [data|e]; [left|right]; by eexists. Qed.

(** A driver panicked and the agent is gone. *)
Definition crashed {X} (out : result X) : Prop := ∃ e, out = Err e ∧ panicked e = true.

Lemma one_answered id (m : go D ()) data w d :
  let out := answer (answered id m data) w d in one_result id out ∨ crashed out.
Proof.
  unfold answer, answered, mbind, go_bind, try_err. destruct (m w d) as [[[x|e] d'] w'].
  - left. apply one_driver_result.
  - destruct (panicked e) eqn:He; [right; by exists e|left; apply one_driver_result].
Qed.
Lemma one_answered_with {X} id (m : go D X) data w d :
  let out := answer (answered_with id m data) w d in one_result id out ∨ crashed out.
Proof.
  unfold answer, answered_with, mbind, go_bind, try_err. destruct (m w d) as [[[x|e] d'] w'].
  - left. apply one_driver_result.
  - destruct (panicked e) eqn:He; [right; by exists e|left; apply one_driver_result].
Qed.

(** One answer per command: as long as no driver panics (which takes the
    agent down), the agent answers every message of the hub except
    acknowledgements and cancellations with exactly one result message that
    carries its correlation identifier, with a payload and no error text or
    with an error text and no payload, whatever errors the drivers return;
    acknowledgements and cancellations are not answered at all. *)
Theorem every_command_answered (msg : ServerMessage J) (w : World) (d : D) :
  let out := answer (handleServerMessage telemetry msg) w d in
  (unanswered (ServerMessage_Payload msg) → out = Ok []) ∧
  (¬ unanswered (ServerMessage_Payload msg) →
     one_result (ServerMessage_CorrelationId msg) out ∨ crashed out).
Proof.
  destruct msg as [id t v p]. cbn. split; destruct p; cbn; try done; intros _;
    solve [apply one_answered | apply one_answered_with | left; apply one_driver_result].
Qed.
End answers.

Lemma every_command_answered_witness :
  let J := option any in
  let codec : Json J := {| json_Marshal := id; json_Unmarshal := λ _, None |} in
  let clock : TimeText := λ _, "now" in
  one_result (J := J) "c1" (answer (@handleServerMessage SimulatedHost J _ codec clock []
    (mkServerMessage "c1" 0 ProtocolVersion (StopInstanceCommand "i1" "web" true))) (calm 0)
    NewSimulatedHost).
Proof.
  intros J codec clock.
  destruct (proj2 (@every_command_answered SimulatedHost J _ codec clock []
    (mkServerMessage "c1" 0 ProtocolVersion (StopInstanceCommand "i1" "web" true)) (calm 0)
    NewSimulatedHost)) as [H|(e & He & _)]; [by intros []|exact H|vm_compute in He; discriminate He].
Defined.
