(* ===== verification/Cluster.v ===== *)
(** * The hub and its agents together

    The path of a command from a service of the hub to the driver of a host
    and back: [SendCommand] of [NodeService], the encoding of [Wire], the
    handler of [Agent], the decoding of its answer. A host is the state of the
    drivers behind one connected agent; one command is handled at a time. *)

From S2P Require Import Prelude Identity AuditTrail Events Net Node Commands NodeService Instances.
From S2P Require Import Scheduler Quota Guest Template Network Compute Migration Wire Agent.

(** What the services rely on of package [encoding/json]: an object comes back
    with its strings, at least the ASCII ones. *)
Definition ascii_text (s : string) : Prop :=
  Forall (λ c, (Ascii.nat_of_ascii c < 128)%nat) (String.list_ascii_of_string s).

Class JsonLaws (J : Type) `{Json J} := {
  json_back : ∀ o, NoDup o.*1 → ∃ d, json_Unmarshal (json_Marshal (Some (AnyObj o))) = Some d ∧
    ∀ k s, (k, AnyStr s) ∈ o → ascii_text s → d !! k = Some (AnyStr s)
}.

(** The nodes of the hub and the hosts whose agents are connected. *)
Record Cluster (D : Type) := mkCluster {
  cl_nodes : MemoryNodeStore;
  cl_hosts : gmap string D
}.
Arguments mkCluster {D} _ _.
Arguments cl_nodes {D} _.
Arguments cl_hosts {D} _.

Section cluster.
Context {D J : Type} `{!Drivers D, !FmtAny, !Json J, !TimeText}.
Context (telemetry : list (string * any)).

Definition on_host {X} (nodeID : string) (d : D) (m : go D X) : go (Cluster D) X := λ w c,
  let '(r, d', w') := m w d in (r, mkCluster (cl_nodes c) (<[nodeID := d']> (cl_hosts c)), w').

(** The result the hub makes of the messages the agent sends back. *)
Definition reply_for (id : string) (now : Z) (msgs : list (string * NodePayload J)) :
    result CommandResult :=
  match msgs with
  | (_, AgentResult id' ok text payload) :: _ =>
      if decide (id' = id) then Ok (mkCommandResult id' ok text (payload ≫= json_Unmarshal) now)
      else Err (ErrNew "context" "context deadline exceeded")
  | _ => Err (ErrNew "context" "context deadline exceeded")
  end.

(** The agent's side of one command. When it crashes the hub waits in vain. *)
Definition agent_answers (nodeID : string) (d : D) (cmd : Command) (p : ServerPayload J) :
    go (Cluster D) CommandResult :=
  now ← time_Now;
  msgs ← wrap_err (λ _, ErrNew "context" "context deadline exceeded")
           (on_host nodeID d (handleServerMessage telemetry
              (mkServerMessage (Command_CorrelationID cmd) now ProtocolVersion p)));
  at_ ← time_Now;
  lift (reply_for (Command_CorrelationID cmd) at_ msgs).

(** [SendCommand] of the node service with [DispatchCommand] of its connection
    manager, the agent in the place of the stream: the channel the result
    comes back on, the time limit and the wait are the call of the agent; an
    answer that does not come is the end of the time limit. *)
Definition cluster_send (nodeID : string) (cmd : Command) : go (Cluster D) CommandResult :=
  n ← zoom cl_nodes (λ x c, mkCluster x (cl_hosts c)) (NodeGetByID nodeID);
  if decide (Node_Status n = Node.StatusRevoked) then fail ErrNodeRevoked
  else
    id ← (if decide (Command_CorrelationID cmd = "") then uuid_NewString
          else mret (Command_CorrelationID cmd));
    at_ ← (if decide (IsZero (Command_CreatedAt cmd)) then time_Now
           else mret (Command_CreatedAt cmd));
    let cmd := cmd <| Command_CorrelationID := id |> <| Command_CreatedAt := at_ |> in
    c ← get;
    match cl_hosts c !! nodeID with
    | None => fail ErrNodeOffline
    | Some d =>
        p ← wrap_err (λ err, Wrapf ("failed to transmit command to node: " +:+ Prelude.Error err) err)
              (lift (encode cmd));
        res ← agent_answers nodeID d cmd p;
        if CommandResult_Success res then mret res
        else fail (Wrapf (Prelude.Error ErrCommandRejected +:+ ": " +:+ CommandResult_ErrorMessage res)
                     ErrCommandRejected)
    end.

Definition cluster_gateway : NodeGateway (Cluster D) := {|
  gateway_nodes := cl_nodes;
  gateway_put := λ s c, mkCluster s (cl_hosts c);
  SendCommand_ := cluster_send
|}.
#[local] Existing Instance cluster_gateway.

(** A command either fails before it reaches the agent, or is handled once by
    the agent of the node; a success is what the agent reported. *)
Lemma wp_cluster_send nodeID cmd (Q : result CommandResult → Cluster D → World → Prop) w c :
  (∀ e w', Q (Err e) c w') →
  (∀ d p d' id now w1 w2 w3 out r, cl_hosts c !! nodeID = Some d →
     encode (cmd <| Command_CorrelationID := id |>) = Ok p →
     handleServerMessage telemetry (mkServerMessage id now ProtocolVersion p) w1 d = (out, d', w2) →
     (∀ res, r = Ok res → ∃ msgs at_, out = Ok msgs ∧ reply_for id at_ msgs = Ok res ∧
        CommandResult_Success res = true) →
     Q r (mkCluster (cl_nodes c) (<[nodeID := d']> (cl_hosts c))) w3) →
  wp (cluster_send nodeID cmd) Q w c.
Proof.
  intros Hno Hyes. unfold cluster_send. rewrite wp_bind, wp_zoom.
  apply wp_quiet; [apply quiet_NodeGetByID|]. destruct c as [nodes hosts].
  intros [n|e] w1 _; [|by apply Hno]. cbn. case_decide; [by apply Hno|].
  rewrite wp_bind. apply wp_quiet; [quiet|]. intros [id|e] w2 _; [|by apply Hno].
  rewrite wp_bind. apply wp_quiet; [quiet|]. intros [at_|e] w3 _; [|by apply Hno].
  cbv zeta. rewrite wp_bind, wp_get. cbn.
  destruct (hosts !! nodeID) as [d|] eqn:Hd; [|by apply Hno].
  rewrite wp_bind, wp_wrap_err, wp_lift. destruct (encode _) as [p|e] eqn:Hp; [|by apply Hno].
  unfold agent_answers. rewrite wp_bind, wp_bind, wp_now, wp_bind, wp_wrap_err. unfold on_host.
  unfold wp at 1. cbn.
  destruct (handleServerMessage _ _ _ _) as [[out d'] w4] eqn:Hh. cbn.
  destruct out as [msgs|e]; [|by eapply Hyes].
  rewrite wp_bind, wp_now, wp_lift.
  destruct (reply_for _ _ msgs) as [res|e] eqn:Hr; [|by eapply Hyes].
  destruct (CommandResult_Success res) eqn:Hs; [|by eapply Hyes].
  rewrite wp_ret. eapply Hyes; [done|exact Hp|exact Hh|]. intros ? [= <-]. by exists msgs, (now_of w4).
Qed.

Lemma cluster_laws : NodeGatewayLaws (Cluster D).
Proof. split; [|done]. intros nodeID cmd w c. refine (wp_cluster_send nodeID cmd (λ _ c' _, cl_nodes c' = cl_nodes c) w c _ _); done. Qed.
End cluster.

(** ** What a creation sends *)

Section creation.
Context {G Q E T A : Type}.
Context `{!NodeGateway G, !QuotaValidator Q, !EventPublisher E, !TemplateLookup T,
          !AuditRepository A, !SortSlice}.
Context (auth : Authorizer) (wires : Wiring).
Abbreviation env := (ComputeEnv G Q E T * A)%type.
Implicit Types (st : env).

(** Calls that send nothing. *)
Definition silent {X} (m : go env X) : Prop := ∀ w st,
  ce_nodes (exec m w st).1 = ce_nodes st.1.

Lemma silent_quiet {X} (m : go env X) : quiet m → silent m.
Proof. intros Hm w st. by destruct (Hm w st) as [-> _]. Qed.
Lemma silent_bind {X Y} (m : go env X) (f : X → go env Y) :
  silent m → (∀ x, silent (f x)) → silent (m ≫= f).
Proof.
  intros Hm Hf w st. specialize (Hm w st). unfold exec, mbind, go_bind in *.
  destruct (m w st) as [[[x|e] st1] w1]; simpl in *; [|done]. rewrite <-Hm. apply Hf.
Qed.
Lemma silent_ignore {X} (m : go env X) : silent m → silent (ignore m).
Proof. intros Hm w st. specialize (Hm w st). unfold exec, ignore in *. by destruct (m w st) as [[??]?]. Qed.
Lemma silent_wrap {X} f (m : go env X) : silent m → silent (wrap_err f m).
Proof.
  intros Hm w st. specialize (Hm w st). unfold exec, wrap_err in *. by destruct (m w st) as [[[]?]?].
Qed.
Lemma silent_store {X S} (m : go S X) pick (place : S → ComputeEnv G Q E T → ComputeEnv G Q E T) :
  (∀ x e, ce_nodes (place x e) = ce_nodes e) → silent (on_store (zoom pick place m)).
Proof.
  intros Hp w [e a]. unfold exec, on_store, zoom. cbn. destruct (m w (pick e)) as [[??]?]. apply Hp.
Qed.
Lemma silent_audit actor action id code det : silent (audit_instance actor action id code det).
Proof.
  unfold audit_instance. apply silent_bind; [apply silent_quiet, quiet_now|]. intros now.
  apply silent_ignore. intros w [e a]. unfold exec, zoom. cbn. by destruct (Record_ _ w a) as [[??]?].
Qed.

Ltac silent := repeat first
  [ progress intros | apply silent_audit | apply silent_bind | apply silent_ignore
  | apply silent_wrap | apply silent_store; [done] | case_match
  | solve [apply silent_quiet; quiet] ].

Lemma silent_target req ty : silent (target_node wires req ty).
Proof.
  unfold target_node. case_decide; [|case_match].
  - apply silent_bind; [|silent]. apply silent_wrap, silent_quiet, quiet_on_gateway.
    auto with go.
  - apply silent_bind; [apply silent_wrap, silent_store; done|silent].
  - apply silent_bind; [|silent]. apply silent_wrap, silent_quiet, quiet_on_gateway.
    auto with go.
Qed.
Lemma silent_image sub req ty n : silent (resolve_image wires sub req ty n).
Proof. unfold resolve_image. silent. Qed.
Lemma silent_config sub req : silent (guest_config wires sub req).
Proof. unfold guest_config. silent. Qed.
Lemma silent_publish inst actor typ det : silent (publish_instance wires inst actor typ det).
Proof. unfold publish_instance. silent. Qed.

Lemma wp_silent {X} (m : go env X) (P : result X → env → World → Prop) w st :
  silent m → (∀ r st' w', answer m w st = r → ce_nodes st'.1 = ce_nodes st.1 → P r st' w') →
  wp m P w st.
Proof. intros Hm HP. rewrite wp_elim. by apply HP. Qed.

(** The command of a creation. *)
Definition creation_command (corr : string) (inst : Instance_) (config : list (string * any))
    (start : bool) : Command :=
  mkCommand corr "create_instance"
    (details [("instance_id", AnyStr (Instance__ID inst)); ("name", AnyStr (Instance__Name inst));
      ("type", AnyStr (Instance__Type_ inst)); ("cpu_cores", AnyInt (Instance__CPUCores inst));
      ("memory_bytes", AnyInt (Instance__MemoryBytes inst));
      ("storage_bytes", AnyInt (Instance__StorageBytes inst));
      ("image", AnyStr (Instance__Image inst)); ("config", AnyObj config);
      ("start_after_create", AnyBool start)]) zero_time.

(** [g'] is [g] after the command for [inst] succeeded with [res], which the
    record was completed with. *)
Definition sent_for (g g' : G) (start : bool) (inst : Instance_) : Prop :=
  (Instance__Type_ inst = TypeContainer ∨ Instance__Type_ inst = TypeVirtualMachine) ∧
  ∃ corr config res w1 w2,
    SendCommand_ (Instance__NodeID inst) (creation_command corr inst config start) w1 g =
      (Ok res, g', w2) ∧
    Instance__Status inst = final_status start res ∧
    Instance__IPv4Address inst = reported res "ipv4Address" ∧
    Instance__IPv6Address inst = reported res "ipv6Address".

(** A creation that was given up answers no instance. *)
Lemma wp_abandon owner id spec f (P : Instance_ → env → Prop) w st :
  wp (abandon wires owner id spec f) (λ r st' _, ∀ inst, r = Ok inst → P inst st') w st.
Proof.
  unfold abandon. rewrite wp_bind.
  assert (∀ w1 st1, wp (ignore (Compute.on_instances (InstanceUpdateStatus id StatusError "" "")) ;;
    fail (S := env) (A := Instance_) (Wrapf (Prelude.Error ErrInstanceOperationFailed +:+ ": " +:+
      default "unknown hypervisor error" f) ErrInstanceOperationFailed))
    (λ r st' _, ∀ inst, r = Ok inst → P inst st') w1 st1) as Hfail.
  { intros w1 st1. rewrite wp_bind. apply wp_silent; [by apply silent_ignore, silent_store|].
    intros [[]|e] st2 w2 _ _; [by rewrite wp_fail|done]. }
  destruct (has_quota wires); [|rewrite wp_ret; apply Hfail].
  apply wp_silent; [by apply silent_ignore, silent_store|]. intros [[]|e] st2 w2 _ _; [apply Hfail|done].
Qed.

Lemma provision_sends owner ty n req config spec w st :
  (ty = TypeContainer ∨ ty = TypeVirtualMachine) →
  wp (provision wires owner ty n req config spec) (λ r st' _, ∀ inst, r = Ok inst →
    sent_for (ce_nodes st.1) (ce_nodes st'.1) (CreateInstanceRequest_StartAfterCreate req) inst) w st.
Proof.
  intros Hty. unfold provision. rewrite wp_bind, wp_uuid, wp_bind, wp_now, wp_bind, wp_now.
  cbv zeta. set (inst := new_instance _ _ _ _ _ _ _ _). rewrite wp_bind.
  apply wp_silent; [by apply silent_store|]. intros [[]|e] st1 w1 _ E1; [|done].
  rewrite wp_bind. unfold Compute.send. rewrite wp_bind, wp_uuid, wp_try.
  destruct st1 as [[i g q e t] a]. unfold Compute.on_gateway. rewrite wp_on_store, wp_zoom.
  unfold wp at 1. cbn [ce_nodes]. cbn in E1. subst g.
  destruct (SendCommand_ _ _ _ _) as [[r g'] w2] eqn:Hsend. cbn [fst snd].
  destruct r as [res|err]; [destruct (command_failure (Ok res)) eqn:Hf|].
  - apply wp_abandon.
  - unfold complete. cbv zeta.
    rewrite wp_bind. apply wp_silent; [by apply silent_ignore, silent_store|].
    intros [[]|err] st2 w3 _ E2; [|done].
    rewrite wp_bind. apply wp_silent; [apply silent_audit|]. intros [[]|err] st3 w4 _ E3; [|done].
    rewrite wp_bind. apply wp_silent; [apply silent_publish|]. intros [[]|err] st4 w5 _ E4; [|done].
    rewrite wp_ret. intros ? [= <-]. cbn in E2. rewrite E4, E3, E2. split; [exact Hty|].
    do 5 eexists. split; [exact Hsend|]. by split_and!.
  - apply wp_abandon.
Qed.

Lemma with_defaults_start req :
  CreateInstanceRequest_StartAfterCreate (with_defaults req) = CreateInstanceRequest_StartAfterCreate req.
Proof. unfold with_defaults. cbv zeta. by repeat case_decide. Qed.

Lemma instance_type_ok t ty : instance_type t = Ok ty → ty = TypeContainer ∨ ty = TypeVirtualMachine.
Proof. unfold instance_type. repeat case_decide; [|done|]; intros [= <-]; [by right|by left]. Qed.

Lemma CreateInstance_sends `{!TemplateLookupLaws T} sub req w st :
  wp (CreateInstance auth wires sub req) (λ r st' _, ∀ inst, r = Ok inst →
    sent_for (ce_nodes st.1) (ce_nodes st'.1) (CreateInstanceRequest_StartAfterCreate req) inst) w st.
Proof.
  unfold CreateInstance. rewrite wp_bind. unfold authorize. rewrite wp_lift.
  destruct (Authorize _ _ _) as [[]|e]; [|done]. cbv zeta.
  set (req1 := req <| CreateInstanceRequest_Name := _ |>).
  destruct (validName _); cbn [negb]; [|by rewrite wp_fail].
  rewrite wp_bind, wp_lift. destruct (instance_type _) as [ty|e] eqn:Hty; [|done].
  apply instance_type_ok in Hty. rewrite wp_bind.
  apply wp_silent.
  { destruct (has_quota wires); [|apply silent_quiet; quiet].
    apply silent_bind; [apply silent_quiet; unfold caller_id; quiet|]. intros owner. by apply silent_store. }
  intros [[]|e] st1 w1 _ E1; [|done]. rewrite wp_bind.
  apply wp_silent; [apply silent_target|]. intros [n|e] st2 w2 _ E2; [|done]. rewrite wp_bind.
  pose proof (resolve_image_spec (G := G) (A := A) (E := E) (Q := Q) wires sub (with_defaults req1) ty n w2 st2)
    as Himg. rewrite wp_elim in Himg. destruct Himg as (_ & _ & _ & Himg).
  apply wp_silent; [apply silent_image|]. intros [req2|e] st3 w3 Hreq2 E3; [|done].
  apply Himg in Hreq2 as [img ->]. rewrite wp_bind.
  apply wp_silent; [apply silent_config|]. intros [config|e] st4 w4 _ E4; [|done]. rewrite wp_bind.
  apply wp_silent; [apply silent_quiet; unfold caller_id; quiet|]. intros [owner|e] st5 w5 _ E5; [|done].
  rewrite <-E1, <-E2, <-E3, <-E4, <-E5.
  eapply wp_mono; [by apply provision_sends|]. intros r st6 w6 Hsent inst ->.
  specialize (Hsent inst eq_refl).
  assert (CreateInstanceRequest_StartAfterCreate ((with_defaults req1) <| CreateInstanceRequest_Image := img |>)
    = CreateInstanceRequest_StartAfterCreate req) as Hstart by exact (with_defaults_start req1).
  by rewrite Hstart in Hsent.
Qed.
End creation.

(** ** What a creation builds *)

Section guests.
Context {J : Type} `{!FmtAny, !Json J, !JsonLaws J, !TimeText}.
Context (telemetry : list (string * any)).
#[local] Instance hosts_gateway : NodeGateway (Cluster SimulatedHost) := cluster_gateway telemetry.

Lemma creation_encoded corr id inst config start :
  encode ((creation_command corr inst config start) <| Command_CorrelationID := id |>) =
    Ok (CreateInstanceCommand (Instance__ID inst) (Instance__Name inst) (Instance__Type_ inst)
      (wrap32 (Instance__CPUCores inst)) (Instance__MemoryBytes inst) (Instance__StorageBytes inst)
      (Instance__Image inst) (json_Marshal (Some (AnyObj config))) start).
Proof. reflexivity. Qed.

Lemma instance_type_of_id ty : ty = TypeContainer ∨ ty = TypeVirtualMachine → instance_type_of ty = ty.
Proof. by intros [-> | ->]. Qed.

(** The guest of an accepted creation, and the answer about it. *)
Lemma create_handled id now iid name ty cpu mem sto img cfg start w d out d' w' at_ res :
  handleServerMessage telemetry (mkServerMessage id now ProtocolVersion
    (CreateInstanceCommand iid name ty cpu mem sto img cfg start)) w d = (Ok out, d', w') →
  reply_for id at_ out = Ok res → CommandResult_Success res = true →
  let info := sim_info (mkInstanceSpec iid name (instance_type_of ty) cpu mem sto img [] start) (now_of w) in
  SimulatedHost_instances d !! name = None ∧
  d' = (d <| SimulatedHost_instances := <[name := info]> (SimulatedHost_instances d) |>) ∧
  CommandResult_Payload res = json_Unmarshal (json_Marshal (Some (AnyObj (info_fields info)))).
Proof.
  cbn. unfold answered_with, mbind, go_bind, try_err. cbn. unfold sim_CreateInstance, mbind, go_bind, get.
  cbn. destruct (SimulatedHost_instances d !! name) as [i|] eqn:Hn; cbn.
  - intros [= <- <- <-]. cbn. rewrite decide_True by done. intros [= <-]. done.
  - intros [= <- <- <-]. cbn. rewrite decide_True by done. intros [= <-] _. by split_and!.
Qed.

Lemma info_fields_nodup i : NoDup (info_fields i).*1.
Proof. unfold info_fields. repeat case_decide; cbn; apply (bool_decide_unpack _); by vm_compute. Qed.

(** The status and the addresses arrive as they were reported. *)
Lemma info_reported res info :
  CommandResult_Payload res = json_Unmarshal (json_Marshal (Some (AnyObj (info_fields info)))) →
  InstanceInfo_IPv4Address info = "10.0.3.150" → InstanceInfo_IPv6Address info = "fd42:4242:4242::150" →
  payload_string (CommandResult_Payload res) "status" = Some (instance_status_text (InstanceInfo_Status info)) ∧
  reported res "ipv4Address" = InstanceInfo_IPv4Address info ∧
  reported res "ipv6Address" = InstanceInfo_IPv6Address info.
Proof.
  intros Hp H4 H6. destruct (json_back (info_fields info) (info_fields_nodup info)) as (d & Hd & Hs).
  unfold reported. rewrite Hp, Hd. unfold payload_string. cbn. unfold info_fields in Hs.
  rewrite H4, H6 in *. cbn in Hs.
  rewrite !(decide_False (P := _ = "")) in Hs by done.
  assert (ascii_text (instance_status_text (InstanceInfo_Status info))) as Hascii
    by (destruct (InstanceInfo_Status info); apply (bool_decide_unpack _); by vm_compute).
  rewrite (Hs "status" (instance_status_text (InstanceInfo_Status info))), (Hs "ipv4Address" "10.0.3.150"),
    (Hs "ipv6Address" "fd42:4242:4242::150"); try done; try (apply (bool_decide_unpack _); by vm_compute);
    rewrite ?elem_of_cons; cbn; rewrite ?elem_of_cons; tauto.
Qed.

(** C3 an accepted creation builds the guest: the agent of the chosen node was
    connected, its host had no guest of that name, and it has now exactly one
    more, of the type of the record, running when that was asked for; the
    record carries the status and the addresses of the guest. Nothing else of
    that host (its other guests, volumes, interfaces, firewalls, images), no
    other host and no node record was touched. *)
Theorem creation_builds_guest {Q E T A : Type} `{!QuotaValidator Q, !EventPublisher E,
    !TemplateLookup T, !TemplateLookupLaws T, !AuditRepository A, !SortSlice}
    (auth : Authorizer) (wires : Wiring) (sub : option Subject) (req : CreateInstanceRequest)
    (w : World) (st : ComputeEnv (Cluster SimulatedHost) Q E T * A) (inst : Instance_) :
  let call := CreateInstance auth wires sub req in
  answer call w st = Ok inst →
  let before := ce_nodes st.1 in
  let after := ce_nodes (exec call w st).1 in
  ∃ host host' info,
    cl_hosts before !! Instance__NodeID inst = Some host ∧
    after = mkCluster (cl_nodes before) (<[Instance__NodeID inst := host']> (cl_hosts before)) ∧
    SimulatedHost_instances host !! Instance__Name inst = None ∧
    host' = (host <| SimulatedHost_instances :=
      <[Instance__Name inst := info]> (SimulatedHost_instances host) |>) ∧
    InstanceInfo_Name info = Instance__Name inst ∧ InstanceInfo_Type_ info = Instance__Type_ inst ∧
    InstanceInfo_Status info = Instance__Status inst ∧
    Instance__Status inst = (if CreateInstanceRequest_StartAfterCreate req
                             then StatusRunning else StatusStopped) ∧
    Instance__IPv4Address inst = InstanceInfo_IPv4Address info ∧
    Instance__IPv6Address inst = InstanceInfo_IPv6Address info.
Proof.
  intros call Hok before after. pose proof (CreateInstance_sends auth wires sub req w st) as Hsent.
  rewrite wp_elim in Hsent. fold call in Hsent. specialize (Hsent inst Hok).
  fold before after in Hsent. destruct Hsent as (Hty & corr & config & res & w1 & w2 & Hsend & Est & E4 & E6).
  set (start := CreateInstanceRequest_StartAfterCreate req) in *.
  assert (wp (cluster_send telemetry (Instance__NodeID inst) (creation_command corr inst config start))
    (λ r c _, r = Ok res → c = after → ∃ host host' info,
      cl_hosts before !! Instance__NodeID inst = Some host ∧
      after = mkCluster (cl_nodes before) (<[Instance__NodeID inst := host']> (cl_hosts before)) ∧
      SimulatedHost_instances host !! Instance__Name inst = None ∧
      host' = (host <| SimulatedHost_instances :=
        <[Instance__Name inst := info]> (SimulatedHost_instances host) |>) ∧
      InstanceInfo_Name info = Instance__Name inst ∧ InstanceInfo_Type_ info = Instance__Type_ inst ∧
      InstanceInfo_Status info = (if start then StatusRunning else StatusStopped) ∧
      payload_string (CommandResult_Payload res) "status" =
        Some (instance_status_text (InstanceInfo_Status info)) ∧
      reported res "ipv4Address" = InstanceInfo_IPv4Address info ∧
      reported res "ipv6Address" = InstanceInfo_IPv6Address info) w1 before) as Hguest.
  { apply wp_cluster_send; [done|]. intros d p d' id now w3 w4 w5 out r Hd Hp Hh Hr Hres <-.
    destruct (Hr res Hres) as (msgs & at_ & -> & Hreply & Hsucc).
    rewrite creation_encoded in Hp. injection Hp as <-.
    destruct (create_handled _ _ _ _ _ _ _ _ _ _ _ _ _ _ _ _ _ _ Hh Hreply Hsucc) as (Hnone & -> & Hpay).
    rewrite instance_type_of_id in * by done. eexists d, _, _.
    split; [exact Hd|]. split; [reflexivity|]. split; [exact Hnone|]. split; [reflexivity|].
    split; [reflexivity|]. split; [reflexivity|]. split; [reflexivity|].
    apply info_reported; [exact Hpay|reflexivity|reflexivity]. }
  apply (proj1 (wp_run _ _ _ _ _ _ _ Hsend)) in Hguest.
  destruct (Hguest eq_refl eq_refl) as (host & host' & info & K1 & K2 & K3 & K4 & K5 & K6 & K7 & K8 & K9 & K10).
  assert (Instance__Status inst = (if start then StatusRunning else StatusStopped)) as Hstatus.
  { rewrite Est. unfold final_status. rewrite K8, K7. by destruct start. }
  exists host, host', info. split_and!; try done; congruence.
Qed.
End guests.

(** ** A cluster of two hosts *)

Section demo.
#[local] Existing Instances tagging_digest EventRecorder InsertionSort.

(** A codec that keeps the values. *)
#[local] Instance identity_json : Json (option any) := {
  json_Marshal := id;
  json_Unmarshal := λ o, match o with Some (AnyObj l) => Some (list_to_map l) | _ => None end
}.
#[local] Instance identity_json_laws : JsonLaws (option any).
Proof.
  split. intros o Hnd. exists (list_to_map o). split; [done|]. intros k s Hin _.
  by apply elem_of_list_to_map_1.
Qed.
#[local] Instance some_text : FmtAny := λ _, "map".
#[local] Instance some_time : TimeText := λ _, "2026-01-01T00:00:00Z".

#[local] Instance no_lookup : TemplateLookup () := {
  GetTemplate_ := λ _ _, fail (ErrNew "template" "template not found");
  FindCompatibleImage_ := λ _ _ _, fail ErrNoCompatibleImage;
  ValidateCloudInit_ := λ _ c, lift (Validate (Some c))
}.
#[local] Instance no_lookup_laws : TemplateLookupLaws ().
Proof. split; intros; cbn; polite. Qed.

#[local] Instance two_hosts_gateway : NodeGateway (Cluster SimulatedHost) :=
  hosts_gateway (J := option any) [].

Definition idle : Cluster SimulatedHost :=
  mkCluster (ss_nodes demo_cluster) {["n1" := NewSimulatedHost; "n2" := NewSimulatedHost]}.

Definition administrator : Subject :=
  mkSubject "user" "root" "root" "root" "" ["superadmin"] [] [] ∅.
Definition web_request : CreateInstanceRequest :=
  mkCreateInstanceRequest "web" "" 2 (2 ^ 30) (2 ^ 33) "debian" "" "" None "n1" None true.

Abbreviation Site := (ComputeEnv (Cluster SimulatedHost) BillingStore (list Event) () * AuditStore)%type.
Definition site : Site :=
  (mkComputeEnv NewMemoryInstanceStore idle (mkBillingStore ∅ ∅ ∅ ∅) [] (), empty_audit).
Definition create_web : go Site Instance_ :=
  CreateInstance DynamicAuthorizer (mkWiring false false true true) (Some administrator) web_request.

Lemma creation_builds_guest_witness : ∃ inst host' info,
  answer create_web (named "a") site = Ok inst ∧
  cl_hosts (ce_nodes (exec create_web (named "a") site).1) !! "n1" = Some host' ∧
  SimulatedHost_instances host' !! "web" = Some info ∧
  InstanceInfo_Status info = StatusRunning ∧ Instance__IPv4Address inst = "10.0.3.150".
Proof.
  destruct (answer create_web (named "a") site) as [inst|e] eqn:Ea; [|vm_compute in Ea; discriminate Ea].
  destruct (creation_builds_guest (J := option any) [] DynamicAuthorizer (mkWiring false false true true)
    (Some administrator) web_request (named "a") site inst Ea)
    as (host & host' & info & _ & Hafter & _ & Hguest & _ & _ & Hst & Hrun & H4 & _).
  exists inst, host', info.
  assert (Instance__NodeID inst = "n1" ∧ Instance__Name inst = "web" ∧
    Instance__IPv4Address inst = "10.0.3.150") as (En & Em & Ei)
    by (vm_compute in Ea; injection Ea as <-; repeat split).
  split; [reflexivity|]. rewrite En in Hafter. rewrite Em in Hguest.
  split; [etransitivity; [exact (f_equal (λ c, cl_hosts c !! "n1") Hafter)|apply lookup_insert_eq]|].
  split; [rewrite Hguest; cbn; apply lookup_insert_eq|]. split; [|exact Ei].
  rewrite Hst, Hrun. reflexivity.
Defined.

(** *** What does not arrive

    The running guest "web" of the first node. *)
Definition web_host : SimulatedHost :=
  NewSimulatedHost <| SimulatedHost_instances :=
    {["web" := mkInstanceInfo "web" StatusRunning 0 TypeContainer "10.0.3.150" "" 1 0]} |>.
Definition with_web : Cluster SimulatedHost :=
  mkCluster (ss_nodes demo_cluster) {["n1" := web_host; "n2" := NewSimulatedHost]}.

(** The migration service writes its payloads with other keys than the gateway
    reads: the migration completes and the record moves, the guest stays on
    its host, running, and the destination hosts a guest without a name. *)
Definition move_web : go (MigrationEnv (Cluster SimulatedHost) (list Event) * AuditStore) () :=
  mi ← Migrate (Some DynamicAuthorizer) (Some administrator) (mkMigrateRequest "i1" "n2" "");
  executeMigration true true mi.1 mi.2.
Definition rack : MigrationEnv (Cluster SimulatedHost) (list Event) * AuditStore :=
  (mkMigrationEnv ∅ demo_instances with_web [], empty_audit).

Lemma migration_leaves_the_guest_behind :
  let st := exec move_web (named "a") rack in
  answer move_web (named "a") rack = Ok () ∧
  (Migration_Status <$> (map_to_list (me_migrations st.1)).*2) = [MigCompleted] ∧
  (Instance__NodeID <$> instance_at (me_instances st.1) "i1") = Some "n2" ∧
  (cl_hosts (me_nodes st.1) !! "n1") = Some web_host ∧
  ((λ h, (map_to_list (SimulatedHost_instances h)).*1) <$> (cl_hosts (me_nodes st.1) !! "n2"))
    = Some ["<nil>"].
Proof. split_and!; vm_compute; reflexivity. Qed.

(** The rules of an instance are stored and listed, and the agent is told to
    apply none. *)
Definition wall : NetworkEnv (Cluster SimulatedHost) * AuditStore :=
  (mkNetworkEnv ∅ demo_instances with_web, empty_audit).
Definition lock_down : go (NetworkEnv (Cluster SimulatedHost) * AuditStore) (list FirewallRule) :=
  ApplyFirewallRules DynamicAuthorizer (Some administrator) "i1"
    [mkFirewallRuleInput "inbound" "drop" "all" "" "" "" 10].

Lemma firewall_rules_do_not_arrive :
  let st := exec lock_down (named "a") wall in
  (length <$> (match answer lock_down (named "a") wall with Ok l => Some l | Err _ => None end)) =
    Some 1%nat ∧
  (SimulatedHost_firewalls <$> (cl_hosts (ne_nodes st.1) !! "n1")) = Some {["web" := []]}.
Proof. split; vm_compute; reflexivity. Qed.

(** The number of cores is cut to 32 bits on the way. *)
Lemma cores_truncated corr inst config start :
  Instance__CPUCores inst = 2 ^ 32 →
  match encode (creation_command corr inst config start) with
  | Ok (CreateInstanceCommand _ _ _ cores _ _ _ _ _) => cores = 0
  | _ => False
  end.
Proof. intros Hc. change (wrap32 (Instance__CPUCores inst) = 0). by rewrite Hc. Qed.

(** The image command of the template service is none the gateway knows. *)
Lemma sync_image_unsupported corr p : encode (mkCommand corr "sync_image" p zero_time) =
  Err (Errorf "unsupported command type: sync_image").
Proof. reflexivity. Qed.
End demo.
