(* ===== verification/Objects.v ===== *)
(** * Object storage

    [internal/infra/storage/object_storage.go]: the port backups are kept
    behind ([ObjectStorage], with the laws its callers rely on), the in-memory
    storage and the AES-GCM wrapper over any storage. Both discharge the laws;
    the cipher itself is the port [AEAD]. *)

From S2P Require Import Prelude AuditTrail.

Definition ErrObjectNotFound := ErrNew "storage" "object storage item not found".
Definition ErrCorruptedObject :=
  ErrNew "storage" "object checksum validation mismatch: artifact is corrupted".

Abbreviation ObjectMeta := (gmap string string).

Class ObjectStorage (O : Type) := {
  object_Put : string → string → ObjectMeta → go O ();
  object_Get : string → go O (string * ObjectMeta);
  object_Delete : string → go O ();
  object_Exists : string → go O bool
}.

(** What callers rely on, of storages in a well-formed state: [object_at] is
    the content behind a key. A failed write may leave anything under its own
    key; reading changes nothing and does not fail on an object that is there. *)
Class ObjectStorageLaws (O : Type) `{ObjectStorage O} := {
  storage_ok : O → Prop;
  object_at : O → string → option string;
  law_put : ∀ k d m w o, storage_ok o →
    wp (object_Put k d m) (λ r o' _, storage_ok o' ∧
      (∀ k', k' ≠ k → object_at o' k' = object_at o k') ∧
      (r = Ok () → object_at o' k = Some d)) w o;
  law_get : ∀ k w o, storage_ok o →
    wp (object_Get k) (λ r o' _, o' = o ∧
      match object_at o k with
      | Some d => ∃ m, r = Ok (d, m)
      | None => ∃ e, r = Err e
      end) w o;
  law_delete : ∀ k w o, storage_ok o →
    wp (object_Delete k) (λ _ o' _, storage_ok o' ∧
      ∀ k', k' ≠ k → object_at o' k' = object_at o k') w o
}.

(** ** The in-memory storage *)

Record MemoryObjectStorage : Type := mkMemoryObjectStorage {
  MemoryObjectStorage_data : gmap string string;
  MemoryObjectStorage_meta : gmap string ObjectMeta;
  MemoryObjectStorage_hashes : gmap string string
}.

Definition eta_MemoryObjectStorage (r : MemoryObjectStorage) : MemoryObjectStorage :=
  mkMemoryObjectStorage (MemoryObjectStorage_data r) (MemoryObjectStorage_meta r)
    (MemoryObjectStorage_hashes r).
#[export] Instance set_MemoryObjectStorage_data : Setter MemoryObjectStorage_data := ltac:(setter eta_MemoryObjectStorage MemoryObjectStorage_data).
#[export] Instance set_MemoryObjectStorage_meta : Setter MemoryObjectStorage_meta := ltac:(setter eta_MemoryObjectStorage MemoryObjectStorage_meta).
#[export] Instance set_MemoryObjectStorage_hashes : Setter MemoryObjectStorage_hashes := ltac:(setter eta_MemoryObjectStorage MemoryObjectStorage_hashes).

Definition NewMemoryObjectStorage : MemoryObjectStorage := mkMemoryObjectStorage ∅ ∅ ∅.

Section memory.
Context `{!Digest}.

Definition memory_Put (key data : string) (metadata : ObjectMeta) :
    go MemoryObjectStorage () :=
  modify (λ s, s <| MemoryObjectStorage_data := <[key := data]> (MemoryObjectStorage_data s) |>
                 <| MemoryObjectStorage_meta := <[key := metadata]> (MemoryObjectStorage_meta s) |>
                 <| MemoryObjectStorage_hashes :=
                      <[key := sha256_hex data]> (MemoryObjectStorage_hashes s) |>).

Definition memory_Get (key : string) : go MemoryObjectStorage (string * ObjectMeta) :=
  s ← get;
  match MemoryObjectStorage_data s !! key with
  | None => fail ErrObjectNotFound
  | Some data =>
      let expected := default "" (MemoryObjectStorage_hashes s !! key) in
      if decide (expected ≠ "" ∧ sha256_hex data ≠ expected) then fail ErrCorruptedObject
      else mret (data, default ∅ (MemoryObjectStorage_meta s !! key))
  end.

Definition memory_Delete (key : string) : go MemoryObjectStorage () :=
  modify (λ s, s <| MemoryObjectStorage_data := delete key (MemoryObjectStorage_data s) |>
                 <| MemoryObjectStorage_meta := delete key (MemoryObjectStorage_meta s) |>
                 <| MemoryObjectStorage_hashes := delete key (MemoryObjectStorage_hashes s) |>).

Definition memory_Exists (key : string) : go MemoryObjectStorage bool :=
  s ← get; mret (bool_decide (is_Some (MemoryObjectStorage_data s !! key))).

(** [CorruptArtifactForTesting]: the first byte is flipped. *)
Definition flip (c : Ascii.ascii) : Ascii.ascii :=
  match c with
  | Ascii.Ascii b0 b1 b2 b3 b4 b5 b6 b7 =>
      Ascii.Ascii (negb b0) (negb b1) (negb b2) (negb b3) (negb b4) (negb b5) (negb b6) (negb b7)
  end.
Definition CorruptArtifactForTesting (key : string) : go MemoryObjectStorage () :=
  modify (λ s, match MemoryObjectStorage_data s !! key with
               | Some (String c d) =>
                   s <| MemoryObjectStorage_data :=
                     <[key := String (flip c) d]> (MemoryObjectStorage_data s) |>
               | _ => s
               end).

#[export] Instance memory_storage : ObjectStorage MemoryObjectStorage := {
  object_Put := memory_Put;
  object_Get := memory_Get;
  object_Delete := memory_Delete;
  object_Exists := memory_Exists
}.

(** The recorded hash of every object is the hash of its content. *)
Definition hashes_match (s : MemoryObjectStorage) : Prop := ∀ k d,
  MemoryObjectStorage_data s !! k = Some d →
  MemoryObjectStorage_hashes s !! k = Some (sha256_hex d).

#[export] Instance memory_storage_laws : ObjectStorageLaws MemoryObjectStorage.
Proof.
  refine {| storage_ok := hashes_match; object_at := λ s k, MemoryObjectStorage_data s !! k |}.
  - intros k d m w s Hok. cbn. unfold memory_Put. wp_step. split_and!.
    + intros k' d'. simpl. rewrite !lookup_insert. case_decide; [by intros [= ->]|apply Hok].
    + intros k' Hk. simpl. by rewrite lookup_insert_ne.
    + intros _. simpl. apply lookup_insert_eq.
  - intros k w s Hok. cbn. unfold memory_Get. wp_step.
    destruct (_ !! k) as [d|] eqn:Hd; wp_step; [|split; [done|by eexists]].
    rewrite (Hok k d Hd). simpl. rewrite decide_False by tauto. wp_step. split; [done|by eexists].
  - intros k w s Hok. cbn. unfold memory_Delete. wp_step. split.
    + intros k' d'. simpl. rewrite !lookup_delete. case_decide; [done|apply Hok].
    + intros k' Hk. simpl. by rewrite lookup_delete_ne.
Defined.

(** A flipped byte is noticed when the object is read. *)
Lemma corruption_noticed `{!CollisionFree} key w s :
  hashes_match s → ∀ c d, MemoryObjectStorage_data s !! key = Some (String c d) →
  answer (memory_Get key) w (exec (CorruptArtifactForTesting key) w s) = Err ErrCorruptedObject.
Proof.
  intros Hok c d Hd.
  apply (proj1 (wp_elim (memory_Get key) (λ r _ _, r = _) w _)).
  unfold CorruptArtifactForTesting. cbn. rewrite Hd. unfold memory_Get. wp_step. simpl.
  rewrite lookup_insert_eq. rewrite (Hok key _ Hd). simpl. rewrite decide_True; [done|].
  split; [apply sha256_nonempty|]. intros Heq%sha256_inj. injection Heq as Heq.
  by destruct c as [[] ? ? ? ? ? ? ?].
Qed.
End memory.

(** ** The encrypting wrapper *)

(** [crypto/aes] and [crypto/cipher]: GCM with a nonce of [NonceSize] bytes. *)
Class AEAD := {
  aes_NewCipher : string → result ();
  gcm_NonceSize : nat;
  gcm_Seal : string → string → string → string;             (* key, nonce, plaintext *)
  gcm_Open : string → string → string → result string;      (* key, nonce, ciphertext *)
  sha256_sum : string → string
}.

(** A key of 32 bytes makes a cipher, and what was sealed opens. *)
Class AEADLaws `{AEAD} := {
  cipher_32 : ∀ key, String.length key = 32%nat → aes_NewCipher key = Ok ();
  sum_32 : ∀ key, String.length (sha256_sum key) = 32%nat;
  open_seal : ∀ key nonce p, gcm_Open key nonce (gcm_Seal key nonce p) = Ok p
}.

(** [io.ReadFull(rand.Reader, nonce)]. *)
Class NonceSource := read_nonce : World → nat → result string.
Class NonceLaws `{NonceSource} :=
  nonce_length : ∀ w n s, read_nonce w n = Ok s → String.length s = n.

Record EncryptedStorageWrapper (O : Type) := mkEncryptedStorageWrapper {
  esw_underlying : O;
  esw_key : string
}.
Arguments mkEncryptedStorageWrapper {O} _ _.
Arguments esw_underlying {O} _.
Arguments esw_key {O} _.

Section encrypted.
Context {O : Type} `{!ObjectStorage O, !AEAD, !NonceSource}.

Definition NewEncryptedStorageWrapper (underlying : O) (key : string) :
    EncryptedStorageWrapper O :=
  mkEncryptedStorageWrapper underlying
    (if decide (String.length key ≠ 32%nat) then sha256_sum key else key).

Definition on_underlying {X} (m : go O X) : go (EncryptedStorageWrapper O) X :=
  zoom esw_underlying (λ o e, mkEncryptedStorageWrapper o (esw_key e)) m.

Definition enc_Put (key plaintext : string) (metadata : ObjectMeta) :
    go (EncryptedStorageWrapper O) () :=
  e ← get;
  wrap_err (λ err, Wrapf ("failed to initialize AES cipher: " +:+ Error err) err)
    (lift (aes_NewCipher (esw_key e))) ;;
  rd ← reading (λ w, read_nonce w gcm_NonceSize);
  nonce ← wrap_err (λ err, Wrapf ("failed to generate random nonce: " +:+ Error err) err)
            (lift rd);
  on_underlying (object_Put key (nonce +:+ gcm_Seal (esw_key e) nonce plaintext) metadata).

Definition enc_Get (key : string) : go (EncryptedStorageWrapper O) (string * ObjectMeta) :=
  '(ciphertext, meta) ← on_underlying (object_Get key);
  e ← get;
  wrap_err (λ err, Wrapf ("failed to initialize AES cipher: " +:+ Error err) err)
    (lift (aes_NewCipher (esw_key e))) ;;
  if decide (String.length ciphertext < gcm_NonceSize)%nat then fail ErrCorruptedObject
  else
    let nonce := String.substring 0 gcm_NonceSize ciphertext in
    let sealed := String.substring gcm_NonceSize (String.length ciphertext - gcm_NonceSize)
                    ciphertext in
    plaintext ← wrap_err (λ err, Wrapf (Error ErrCorruptedObject +:+
                            ": failed to decrypt artifact: " +:+ Error err) ErrCorruptedObject)
                  (lift (gcm_Open (esw_key e) nonce sealed));
    mret (plaintext, meta).

#[export] Instance encrypted_storage : ObjectStorage (EncryptedStorageWrapper O) := {
  object_Put := enc_Put;
  object_Get := enc_Get;
  object_Delete := λ key, on_underlying (object_Delete key);
  object_Exists := λ key, on_underlying (object_Exists key)
}.
End encrypted.

Lemma substring_all s : String.substring 0 (String.length s) s = s.
Proof. induction s as [|c s IH]; simpl; [done|by rewrite IH]. Qed.
Lemma substring_app_head s t : String.substring 0 (String.length s) (s +:+ t) = s.
Proof. induction s as [|c s IH]; simpl; [by destruct t|by rewrite IH]. Qed.
Lemma substring_app_tail s t :
  String.substring (String.length s) (String.length t) (s +:+ t) = t.
Proof. induction s as [|c s IH]; simpl; [apply substring_all|done]. Qed.

Section encrypted_laws.
Context {O : Type} `{!ObjectStorage O, !ObjectStorageLaws O, !AEAD, !AEADLaws, !NonceSource,
  !NonceLaws}.

(** The plaintext of a stored ciphertext. *)
Definition decrypted (key ciphertext : string) : option string :=
  if decide (String.length ciphertext < gcm_NonceSize)%nat then None
  else match gcm_Open key (String.substring 0 gcm_NonceSize ciphertext)
               (String.substring gcm_NonceSize (String.length ciphertext - gcm_NonceSize)
                  ciphertext) with
       | Ok p => Some p
       | Err _ => None
       end.

Lemma decrypted_seal key nonce p : String.length nonce = gcm_NonceSize →
  decrypted key (nonce +:+ gcm_Seal key nonce p) = Some p.
Proof.
  intros Hn. unfold decrypted. rewrite length_string_app, decide_False by lia.
  rewrite <-Hn, Nat.add_comm, Nat.add_sub, substring_app_head, substring_app_tail.
  by rewrite open_seal.
Qed.

(** The constructor repairs keys of any length. *)
Lemma wrapper_key o key : String.length (esw_key (NewEncryptedStorageWrapper (O := O) o key)) = 32%nat.
Proof. unfold NewEncryptedStorageWrapper. cbn. case_decide; [apply sum_32|lia]. Qed.

(** The wrapper keeps the promises of the storage it wraps, on plaintexts. *)
#[export] Instance encrypted_storage_laws : ObjectStorageLaws (EncryptedStorageWrapper O).
Proof.
  refine {| storage_ok := λ e, storage_ok (esw_underlying e) ∧ String.length (esw_key e) = 32%nat;
            object_at := λ e k, object_at (esw_underlying e) k ≫= decrypted (esw_key e) |}.
  - intros k d m w e [Hok Hkey]. cbn. unfold enc_Put, on_underlying. wp_step.
    rewrite cipher_32 by done. wp_step.
    destruct (read_nonce w gcm_NonceSize) as [nonce|err] eqn:Hn; wp_step.
    2:{ cbn. split; [done|]. split; [done|discriminate]. }
    eapply wp_mono; [by apply law_put|]. intros r o' w' (Hok' & Hother & Hput). cbn.
    split_and!; [done|done| |].
    + intros k' Hk. by rewrite Hother.
    + intros ->. rewrite Hput by done. cbn. apply decrypted_seal. by eapply nonce_length.
  - intros k w e [Hok Hkey]. cbn. unfold enc_Get, on_underlying. wp_step.
    eapply wp_mono; [by apply law_get|]. intros r o' w' [-> Hr].
    assert (mkEncryptedStorageWrapper (esw_underlying e) (esw_key e) = e) as He by by destruct e.
    destruct (object_at _ k) as [c|]; [|destruct Hr as [err ->]; cbn; split; [done|by eexists]].
    destruct Hr as [meta ->]. wp_step. cbn. rewrite cipher_32 by done. unfold decrypted.
    rewrite He. case_decide; wp_step; [split; [done|by eexists]|].
    destruct (gcm_Open _ _ _) as [p|err]; wp_step; by split; [|eexists].
  - intros k w e [Hok Hkey]. cbn. unfold on_underlying. wp_step.
    eapply wp_mono; [by apply law_delete|]. intros r o' w' [Hok' Hother]. cbn.
    split_and!; [done|done|]. intros k' Hk. by rewrite Hother.
Defined.
End encrypted_laws.
