(* ===== verification/Backup.v ===== *)
(** * Backups

    [internal/domain/backup/backup.go], the repository
    [internal/infra/memory/backup_repo.go] and the service
    [internal/app/backup/service.go] over any [ObjectStorage]. The service's
    methods are whole steps: nothing holds a lock across their repository and
    storage calls but [ApplyRetentionPolicy]. *)

From S2P Require Import Prelude Identity AuditTrail Events Objects.

Definition ErrBackupNotFound := ErrNew "backup" "backup not found".
Definition ErrBackupCorrupted :=
  ErrNew "backup" "backup failed cryptographic integrity checksum verification".
Definition ErrCannotDeleteLastGoodBackup := ErrNew "backup"
  "cannot delete the final verified recovery point: system must retain at least one valid recovery point".
Definition ErrRestoreFailed := ErrNew "backup" "disaster recovery restore failed".
Definition ErrPolicyNotFound := ErrNew "backup" "backup retention policy not found".

Definition TypeFull : string := "full".

Inductive BackupStatus : Type :=
  | BackupPending | BackupRunning | BackupVerified | BackupFailed | BackupExpired | BackupDeleted.
#[export] Instance BackupStatus_eq_dec : EqDecision BackupStatus.
Proof. solve_decision. Defined.

(** [Record]. *)
Record Backup : Type := mkBackup {
  Backup_ID : string;
  Backup_TenantID : string;
  Backup_ResourceType : string;
  Backup_ResourceID : string;
  Backup_Type_ : string;
  Backup_Status : BackupStatus;
  Backup_StorageLocation : string;
  Backup_ChecksumSHA256 : string;
  Backup_EncryptionKeyVersion : string;
  Backup_SizeBytes : Z;
  Backup_RetentionExpiry : option Z;
  Backup_IsProtectedPoint : bool;
  Backup_Metadata : option Details;
  Backup_ErrorMessage : string;
  Backup_CreatedAt : Z;
  Backup_CompletedAt : option Z;
  Backup_VerifiedAt : option Z
}.

Definition eta_Backup (r : Backup) : Backup :=
  mkBackup (Backup_ID r) (Backup_TenantID r) (Backup_ResourceType r)
    (Backup_ResourceID r) (Backup_Type_ r) (Backup_Status r) (Backup_StorageLocation r)
    (Backup_ChecksumSHA256 r) (Backup_EncryptionKeyVersion r) (Backup_SizeBytes r)
    (Backup_RetentionExpiry r) (Backup_IsProtectedPoint r) (Backup_Metadata r)
    (Backup_ErrorMessage r) (Backup_CreatedAt r) (Backup_CompletedAt r)
    (Backup_VerifiedAt r).
#[export] Instance set_Backup_ID : Setter Backup_ID := ltac:(setter eta_Backup Backup_ID).
#[export] Instance set_Backup_Status : Setter Backup_Status := ltac:(setter eta_Backup Backup_Status).
#[export] Instance set_Backup_ChecksumSHA256 : Setter Backup_ChecksumSHA256 := ltac:(setter eta_Backup Backup_ChecksumSHA256).
#[export] Instance set_Backup_SizeBytes : Setter Backup_SizeBytes := ltac:(setter eta_Backup Backup_SizeBytes).
#[export] Instance set_Backup_IsProtectedPoint : Setter Backup_IsProtectedPoint := ltac:(setter eta_Backup Backup_IsProtectedPoint).
#[export] Instance set_Backup_ErrorMessage : Setter Backup_ErrorMessage := ltac:(setter eta_Backup Backup_ErrorMessage).
#[export] Instance set_Backup_CreatedAt : Setter Backup_CreatedAt := ltac:(setter eta_Backup Backup_CreatedAt).
#[export] Instance set_Backup_CompletedAt : Setter Backup_CompletedAt := ltac:(setter eta_Backup Backup_CompletedAt).
#[export] Instance set_Backup_VerifiedAt : Setter Backup_VerifiedAt := ltac:(setter eta_Backup Backup_VerifiedAt).

Definition Backup_Resource (b : Backup) : Resource :=
  mkResource "backup" (Backup_ID b) (Backup_TenantID b) "".

Record Policy : Type := mkPolicy {
  Policy_ID : string;
  Policy_Name : string;
  Policy_ScheduleCron : string;
  Policy_RetentionDays : Z;
  Policy_MaxBackups : Z;
  Policy_StorageTarget : string;
  Policy_Encrypt : bool;
  Policy_Enabled : bool;
  Policy_CreatedAt : Z;
  Policy_UpdatedAt : Z
}.
#[export] Instance Policy_eq_dec : EqDecision Policy.
Proof. solve_decision. Defined.

Definition eta_Policy (r : Policy) : Policy :=
  mkPolicy (Policy_ID r) (Policy_Name r) (Policy_ScheduleCron r)
    (Policy_RetentionDays r) (Policy_MaxBackups r) (Policy_StorageTarget r)
    (Policy_Encrypt r) (Policy_Enabled r) (Policy_CreatedAt r) (Policy_UpdatedAt r).
#[export] Instance set_Policy_ID : Setter Policy_ID := ltac:(setter eta_Policy Policy_ID).
#[export] Instance set_Policy_CreatedAt : Setter Policy_CreatedAt := ltac:(setter eta_Policy Policy_CreatedAt).
#[export] Instance set_Policy_UpdatedAt : Setter Policy_UpdatedAt := ltac:(setter eta_Policy Policy_UpdatedAt).

Record RestoreAction : Type := mkRestoreAction {
  RestoreAction_Step : string;
  RestoreAction_Target : string;
  RestoreAction_Description : string;
  RestoreAction_Status : string;
  RestoreAction_Details_ : Details
}.

Record RestorePlan : Type := mkRestorePlan {
  RestorePlan_ID : string;
  RestorePlan_BackupID : string;
  RestorePlan_DryRun : bool;
  RestorePlan_TargetState : string;
  RestorePlan_Status : string;
  RestorePlan_Actions : list RestoreAction;
  RestorePlan_DiscrepanciesFound : Z;
  RestorePlan_RepairsAttempted : Z;
  RestorePlan_RepairsSucceeded : Z;
  RestorePlan_AuditHashVerified : bool;
  RestorePlan_ErrorMessage : string;
  RestorePlan_CreatedAt : Z;
  RestorePlan_CompletedAt : option Z
}.

Definition eta_RestorePlan (r : RestorePlan) : RestorePlan :=
  mkRestorePlan (RestorePlan_ID r) (RestorePlan_BackupID r) (RestorePlan_DryRun r)
    (RestorePlan_TargetState r) (RestorePlan_Status r) (RestorePlan_Actions r)
    (RestorePlan_DiscrepanciesFound r) (RestorePlan_RepairsAttempted r)
    (RestorePlan_RepairsSucceeded r) (RestorePlan_AuditHashVerified r)
    (RestorePlan_ErrorMessage r) (RestorePlan_CreatedAt r) (RestorePlan_CompletedAt r).
#[export] Instance set_RestorePlan_ID : Setter RestorePlan_ID := ltac:(setter eta_RestorePlan RestorePlan_ID).
#[export] Instance set_RestorePlan_Status : Setter RestorePlan_Status := ltac:(setter eta_RestorePlan RestorePlan_Status).
#[export] Instance set_RestorePlan_Actions : Setter RestorePlan_Actions := ltac:(setter eta_RestorePlan RestorePlan_Actions).
#[export] Instance set_RestorePlan_DiscrepanciesFound : Setter RestorePlan_DiscrepanciesFound := ltac:(setter eta_RestorePlan RestorePlan_DiscrepanciesFound).
#[export] Instance set_RestorePlan_RepairsAttempted : Setter RestorePlan_RepairsAttempted := ltac:(setter eta_RestorePlan RestorePlan_RepairsAttempted).
#[export] Instance set_RestorePlan_RepairsSucceeded : Setter RestorePlan_RepairsSucceeded := ltac:(setter eta_RestorePlan RestorePlan_RepairsSucceeded).
#[export] Instance set_RestorePlan_AuditHashVerified : Setter RestorePlan_AuditHashVerified := ltac:(setter eta_RestorePlan RestorePlan_AuditHashVerified).
#[export] Instance set_RestorePlan_ErrorMessage : Setter RestorePlan_ErrorMessage := ltac:(setter eta_RestorePlan RestorePlan_ErrorMessage).
#[export] Instance set_RestorePlan_CreatedAt : Setter RestorePlan_CreatedAt := ltac:(setter eta_RestorePlan RestorePlan_CreatedAt).
#[export] Instance set_RestorePlan_CompletedAt : Setter RestorePlan_CompletedAt := ltac:(setter eta_RestorePlan RestorePlan_CompletedAt).

(** An empty [Status] or [Type] does not filter. *)
Record BackupFilter : Type := mkBackupFilter {
  BackupFilter_TenantID : string;
  BackupFilter_ResourceType : string;
  BackupFilter_ResourceID : string;
  BackupFilter_Type_ : string;
  BackupFilter_Status : option BackupStatus;
  BackupFilter_Limit : Z;
  BackupFilter_Offset : Z
}.

Definition eta_BackupFilter (r : BackupFilter) : BackupFilter :=
  mkBackupFilter (BackupFilter_TenantID r) (BackupFilter_ResourceType r)
    (BackupFilter_ResourceID r) (BackupFilter_Type_ r) (BackupFilter_Status r)
    (BackupFilter_Limit r) (BackupFilter_Offset r).
#[export] Instance set_BackupFilter_TenantID : Setter BackupFilter_TenantID := ltac:(setter eta_BackupFilter BackupFilter_TenantID).

(** ** The repository *)

Record BackupStore : Type := mkBackupStore {
  BackupStore_backups : gmap string Backup;
  BackupStore_policies : gmap string Policy;
  BackupStore_restorePlans : gmap string RestorePlan
}.

Definition eta_BackupStore (r : BackupStore) : BackupStore :=
  mkBackupStore (BackupStore_backups r) (BackupStore_policies r)
    (BackupStore_restorePlans r).
#[export] Instance set_BackupStore_backups : Setter BackupStore_backups := ltac:(setter eta_BackupStore BackupStore_backups).
#[export] Instance set_BackupStore_policies : Setter BackupStore_policies := ltac:(setter eta_BackupStore BackupStore_policies).
#[export] Instance set_BackupStore_restorePlans : Setter BackupStore_restorePlans := ltac:(setter eta_BackupStore BackupStore_restorePlans).

Definition seedDefaultPolicy (now : Z) : Policy :=
  mkPolicy "policy-default-daily" "Default Daily PostgreSQL & Cluster DR Policy" "0 2 * * *" 30 14
    "s3" true true now now.

Definition NewMemoryBackupRepo (now : Z) : BackupStore :=
  mkBackupStore ∅ {[ "policy-default-daily" := seedDefaultPolicy now ]} ∅.

Definition put_backup (b : Backup) (s : BackupStore) : BackupStore :=
  s <| BackupStore_backups := <[Backup_ID b := b]> (BackupStore_backups s) |>.

(** [if b.ID == "" { b.ID = uuid }; if b.CreatedAt.IsZero() { ... }]: the record
    of the caller is filled in, a copy is stored. *)
Definition or_uuid {St} (id : string) : go St string :=
  if decide (id = "") then uuid_NewString else mret id.
Definition or_now {St} (t : Z) : go St Z := if decide (IsZero t) then time_Now else mret t.

Definition backup_Create (b : Backup) : go BackupStore Backup :=
  id ← or_uuid (Backup_ID b);
  created ← or_now (Backup_CreatedAt b);
  let b := b <| Backup_ID := id |> <| Backup_CreatedAt := created |> in
  modify (put_backup b) ;;
  mret b.

Definition backup_GetByID (id : string) : go BackupStore Backup :=
  s ← get;
  match BackupStore_backups s !! id with Some b => mret b | None => fail ErrBackupNotFound end.

Definition backup_matches (f : BackupFilter) (b : Backup) : Prop :=
  (BackupFilter_TenantID f = "" ∨ BackupFilter_TenantID f = "system" ∨
   Backup_TenantID b = BackupFilter_TenantID f) ∧
  (BackupFilter_ResourceType f = "" ∨ Backup_ResourceType b = BackupFilter_ResourceType f) ∧
  (BackupFilter_ResourceID f = "" ∨ Backup_ResourceID b = BackupFilter_ResourceID f) ∧
  (BackupFilter_Type_ f = "" ∨ Backup_Type_ b = BackupFilter_Type_ f) ∧
  (BackupFilter_Status f = None ∨ BackupFilter_Status f = Some (Backup_Status b)).
#[export] Instance backup_matches_dec f b : Decision (backup_matches f b).
Proof. unfold backup_matches. apply _. Defined.

Definition backup_newer (a b : Backup) : bool := bool_decide (Backup_CreatedAt b < Backup_CreatedAt a).

Definition backup_List `{SortSlice} (f : BackupFilter) : go BackupStore (list Backup * Z) :=
  s ← get;
  matched ← list_in (BackupStore_backups s) (backup_matches f);
  let matched := sort_Slice backup_newer matched in
  items ← lift (clipped matched (BackupFilter_Limit f) (BackupFilter_Offset f));
  mret (items, Z.of_nat (length matched)).

Definition with_backup_status (status : BackupStatus) (checksum : string) (size : Z)
    (errStr : string) (now : Z) (b : Backup) : Backup :=
  let b := b <| Backup_Status := status |> in
  let b := if decide (checksum ≠ "") then b <| Backup_ChecksumSHA256 := checksum |> else b in
  let b := if decide (0 < size) then b <| Backup_SizeBytes := size |> else b in
  let b := if decide (errStr ≠ "") then b <| Backup_ErrorMessage := errStr |> else b in
  if decide (status = BackupVerified)
  then b <| Backup_VerifiedAt := Some now |> <| Backup_CompletedAt := Some now |> else b.

Definition backup_UpdateStatus (id : string) (status : BackupStatus) (checksum : string) (size : Z)
    (errStr : string) : go BackupStore () :=
  b ← backup_GetByID id;
  now ← time_Now;
  modify (λ s, s <| BackupStore_backups :=
    <[id := with_backup_status status checksum size errStr now b]> (BackupStore_backups s) |>).

Definition SetProtectedPoint (id : string) (protected : bool) : go BackupStore () :=
  b ← backup_GetByID id;
  modify (λ s, s <| BackupStore_backups :=
    <[id := (b <| Backup_IsProtectedPoint := protected |>)]> (BackupStore_backups s) |>).

(** The loops that keep the newest entry of a map iteration. *)
Definition latest_of {V} (newer : V → V → bool) (l : list V) : option V :=
  foldl (λ latest v, match latest with
                     | None => Some v
                     | Some x => if newer v x then Some v else latest
                     end) None l.

Definition GetLatestVerified (tenantID resourceType : string) : go BackupStore Backup :=
  s ← get;
  l ← list_in (BackupStore_backups s) (λ b,
        (tenantID = "" ∨ Backup_TenantID b = tenantID) ∧
        (resourceType = "" ∨ Backup_ResourceType b = resourceType) ∧
        Backup_Status b = BackupVerified);
  match latest_of backup_newer l with
  | Some b => mret b
  | None => fail ErrBackupNotFound
  end.

Definition CountVerified : go BackupStore Z :=
  s ← get;
  l ← list_in (BackupStore_backups s) (λ b, Backup_Status b = BackupVerified);
  mret (Z.of_nat (length l)).

Definition backup_Delete (id : string) : go BackupStore () :=
  b ← backup_GetByID id;
  if decide (Backup_IsProtectedPoint b = true) then fail ErrCannotDeleteLastGoodBackup
  else
    s ← get;
    others ← list_in (BackupStore_backups s)
               (λ x, Backup_Status x = BackupVerified ∧ Backup_ID x ≠ id);
    if decide (Backup_Status b = BackupVerified ∧ Z.of_nat (length others) = 0)
    then fail ErrCannotDeleteLastGoodBackup
    else modify (λ s, s <| BackupStore_backups := delete id (BackupStore_backups s) |>).

Definition put_policy (p : Policy) (s : BackupStore) : BackupStore :=
  s <| BackupStore_policies := <[Policy_ID p := p]> (BackupStore_policies s) |>.

Definition CreatePolicy (p : Policy) : go BackupStore Policy :=
  id ← or_uuid (Policy_ID p);
  now ← time_Now;
  let p := p <| Policy_ID := id |> <| Policy_CreatedAt := now |> <| Policy_UpdatedAt := now |> in
  modify (put_policy p) ;;
  mret p.

Definition GetPolicy (id : string) : go BackupStore Policy :=
  s ← get;
  match BackupStore_policies s !! id with Some p => mret p | None => fail ErrPolicyNotFound end.

Definition ListPolicies : go BackupStore (list Policy) :=
  s ← get; list_in (BackupStore_policies s) (λ _, True).

Definition UpdatePolicy (p : Policy) : go BackupStore Policy :=
  existing ← GetPolicy (Policy_ID p);
  now ← time_Now;
  let p := p <| Policy_CreatedAt := Policy_CreatedAt existing |> <| Policy_UpdatedAt := now |> in
  modify (put_policy p) ;;
  mret p.

Definition DeletePolicy (id : string) : go BackupStore () :=
  modify (λ s, s <| BackupStore_policies := delete id (BackupStore_policies s) |>).

Definition SaveRestorePlan (plan : RestorePlan) : go BackupStore RestorePlan :=
  id ← or_uuid (RestorePlan_ID plan);
  created ← or_now (RestorePlan_CreatedAt plan);
  let plan := plan <| RestorePlan_ID := id |> <| RestorePlan_CreatedAt := created |> in
  modify (λ s, s <| BackupStore_restorePlans := <[id := plan]> (BackupStore_restorePlans s) |>) ;;
  mret plan.

Definition GetRestorePlan (id : string) : go BackupStore RestorePlan :=
  s ← get;
  match BackupStore_restorePlans s !! id with Some p => mret p | None => fail ErrRestoreFailed end.

Definition plan_newer (a b : RestorePlan) : bool :=
  bool_decide (RestorePlan_CreatedAt b < RestorePlan_CreatedAt a).

Definition ListRestorePlans `{SortSlice} (limit offset : Z) :
    go BackupStore (list RestorePlan * Z) :=
  s ← get;
  l ← list_in (BackupStore_restorePlans s) (λ _, True);
  items ← lift (clipped (sort_Slice plan_newer l) limit offset);
  mret (items, Z.of_nat (length l)).

(** ** The service *)

Record BackupEnv (O E : Type) := mkBackupEnv {
  be_repo : BackupStore;
  be_objects : O;
  be_events : E
}.
Arguments mkBackupEnv {O E} _ _ _.
Arguments be_repo {O E} _.
Arguments be_objects {O E} _.
Arguments be_events {O E} _.

Record CreateBackupRequest : Type := mkCreateBackupRequest {
  CreateBackupRequest_TenantID : string;
  CreateBackupRequest_ResourceType : string;
  CreateBackupRequest_ResourceID : string;
  CreateBackupRequest_Type_ : string;
  CreateBackupRequest_Metadata : option Details
}.

(** [t.Format(time.RFC3339)], and [json.Marshal] of the payload of an artifact
    ([None] is [null]). *)
Class TimeFormat := time_RFC3339 : Z → string.
Class BackupCodec := json_payload : list (string * option any) → result string.

Section service.
Context {O E A : Type} `{!ObjectStorage O, !EventPublisher E, !AuditRepository A, !SortSlice,
  !Digest, !TimeFormat, !BackupCodec}.
Context (auth : option Authorizer) (has_events has_audit : bool).
Abbreviation env := (BackupEnv O E * A)%type.

Definition on_repo {X} (m : go BackupStore X) : go env X :=
  on_store (zoom be_repo (λ x e, mkBackupEnv x (be_objects e) (be_events e)) m).
Definition on_objects {X} (m : go O X) : go env X :=
  on_store (zoom be_objects (λ x e, mkBackupEnv (be_repo e) x (be_events e)) m).
Definition on_events {X} (m : go E X) : go env X :=
  on_store (zoom be_events (λ x e, mkBackupEnv (be_repo e) (be_objects e) x) m).

(** [if s.eventPublisher != nil { _ = s.eventPublisher.Publish(...) }]. *)
Definition publish_backup (tenant typ id : string) (payload : Details) : go env () :=
  if has_events then
    eid ← uuid_NewString;
    now ← time_Now;
    ignore (on_events (Publish (mkEvent eid tenant typ "backup" id "" now payload [] "1.0")))
  else mret ().

(** [if s.auditRepo != nil { ... }] with the caller or the system as actor. *)
Definition audit_backup (sub : option Subject) (action id : string) (code : Z)
    (det : option Details) : go env () :=
  if has_audit then
    now ← time_Now;
    let actor := match sub with Some s => Subject_UserID s | None => "system" end in
    ignore (zoom snd (λ a s, (fst s, a))
      (Record_ (mkAuditLog 0 (Some actor) "" "" action "backup" (Some id) "" code det "" "" "" now)))
  else mret ().

(** Marks a backup as failed, tells the subscribers, and reports corruption. *)
Definition corrupted (b : Backup) (id errMsg : string) : go env () :=
  ignore (on_repo (backup_UpdateStatus id BackupFailed "" 0 errMsg)) ;;
  publish_backup (Backup_TenantID b) "backup.failed" id ∅ ;;
  fail ErrBackupCorrupted.

Definition VerifyBackup (sub : option Subject) (id : string) : go env () :=
  b ← on_repo (backup_GetByID id);
  maybe_authorize auth sub "backup:read" (Some (Backup_Resource b)) ;;
  got ← try (on_objects (object_Get (Backup_StorageLocation b)));
  match got with
  | Err err => corrupted b id ("storage read error: " +:+ Error err)
  | Ok (data, _) =>
      let computed := sha256_hex data in
      if decide (computed ≠ Backup_ChecksumSHA256 b) then
        corrupted b id ("checksum mismatch: expected " +:+ Backup_ChecksumSHA256 b +:+ ", got " +:+
                        computed)
      else
        ignore (on_repo (backup_UpdateStatus id BackupVerified computed
                           (Z.of_nat (String.length data)) "")) ;;
        publish_backup (Backup_TenantID b) "backup.verified" id
          (details [("id", AnyStr (Backup_ID b)); ("checksum", AnyStr (Backup_ChecksumSHA256 b))])
  end.

(** The tenant of a new backup: a caller who had to be authorized backs up
    for himself. *)
Definition backup_tenant (sub : option Subject) (requested : string) : string :=
  let tenant := match auth, sub with
                | Some _, Some s => if IsSuperadmin s then requested else Subject_UserID s
                | _, _ => requested
                end in
  or_default (or_default "system" (from_option Subject_UserID "" sub)) tenant.

Definition storage_key (tenant rtype id : string) : string :=
  "backups/" +:+ tenant +:+ "/" +:+ rtype +:+ "-" +:+ id +:+ ".enc".

(** [_ = s.repo.UpdateStatus(...StatusFailed...)] and the wrapped error. *)
Definition surrender {X} (id what : string) (err : error) : go env X :=
  ignore (on_repo (backup_UpdateStatus id BackupFailed "" 0 (Error err))) ;;
  fail (Wrapf (what +:+ Error err) err).

Definition backup_payload (req : CreateBackupRequest) (id tenant rtype typ : string) (now : Z) :
    list (string * option any) :=
  [("backupId", Some (AnyStr id)); ("tenantId", Some (AnyStr tenant));
   ("resourceType", Some (AnyStr rtype));
   ("resourceId", Some (AnyStr (CreateBackupRequest_ResourceID req)));
   ("type", Some (AnyStr typ)); ("timestamp", Some (AnyStr (time_RFC3339 now)));
   ("metadata", (λ m, AnyObj (map_to_list m)) <$> CreateBackupRequest_Metadata req)].

Definition CreateBackup (sub : option Subject) (req : CreateBackupRequest) : go env Backup :=
  maybe_authorize auth sub "backup:create"
    (Some (mkResource "backup" "" (from_option Subject_UserID "" sub) "")) ;;
  let tenant := backup_tenant sub (CreateBackupRequest_TenantID req) in
  let typ := or_default TypeFull (CreateBackupRequest_Type_ req) in
  let rtype := or_default "database" (CreateBackupRequest_ResourceType req) in
  backupID ← uuid_NewString;
  let storageKey := storage_key tenant rtype backupID in
  t ← time_Now;
  data ← wrap_err (λ err, Wrapf ("failed to serialize backup payload: " +:+ Error err) err)
           (lift (json_payload (backup_payload req backupID tenant rtype typ t)));
  let checksum := sha256_hex data in
  created ← time_Now;
  record ← wrap_err (λ err, Wrapf ("failed to persist initial backup record: " +:+ Error err) err)
    (on_repo (backup_Create
      (mkBackup backupID tenant rtype (CreateBackupRequest_ResourceID req) typ BackupRunning
         storageKey checksum "v1" (Z.of_nat (String.length data)) None false
         (CreateBackupRequest_Metadata req) "" created None None)));
  put ← try (on_objects (object_Put storageKey data
          (list_to_map [("checksum", checksum); ("tenantId", tenant); ("type", typ)])));
  match put with
  | Err err => surrender backupID "failed to upload backup to object storage: " err
  | Ok _ =>
      verified ← try (VerifyBackup sub backupID);
      match verified with
      | Err err => surrender backupID "post-creation integrity verification failed: " err
      | Ok _ =>
          count ← on_repo CountVerified;
          (if decide (count ≤ 1) then ignore (on_repo (SetProtectedPoint backupID true))
           else mret ()) ;;
          let record := (if decide (count ≤ 1) then record <| Backup_IsProtectedPoint := true |>
                         else record) <| Backup_Status := BackupVerified |> in
          audit_backup sub "backup.created" backupID 201
            (Some (details [("checksum", AnyStr checksum); ("resourceType", AnyStr rtype);
                            ("sizeBytes", AnyInt (Backup_SizeBytes record))])) ;;
          publish_backup tenant "backup.created" backupID
            (details [("id", AnyStr (Backup_ID record));
                      ("resourceType", AnyStr (Backup_ResourceType record));
                      ("checksum", AnyStr (Backup_ChecksumSHA256 record));
                      ("sizeBytes", AnyInt (Backup_SizeBytes record))]) ;;
          mret record
      end
  end.

Definition GetBackup (sub : option Subject) (id : string) : go env Backup :=
  b ← on_repo (backup_GetByID id);
  maybe_authorize auth sub "backup:read" (Some (Backup_Resource b)) ;;
  mret b.

Definition ListBackups (sub : option Subject) (f : BackupFilter) : go env (list Backup * Z) :=
  let f := match sub with
           | Some s => if IsSuperadmin s then f
                       else f <| BackupFilter_TenantID := Subject_UserID s |>
           | None => f
           end in
  on_repo (backup_List f).

Definition DeleteBackup (sub : option Subject) (id : string) : go env () :=
  b ← on_repo (backup_GetByID id);
  maybe_authorize auth sub "backup:delete" (Some (Backup_Resource b)) ;;
  on_repo (backup_Delete id) ;;
  ignore (on_objects (object_Delete (Backup_StorageLocation b))) ;;
  audit_backup sub "backup.deleted" id 200 None.

Definition DownloadBackup (sub : option Subject) (id : string) : go env (string * Backup) :=
  b ← GetBackup sub id;
  '(data, _) ← wrap_err (λ err, Wrapf ("failed to retrieve backup artifact: " +:+ Error err) err)
                 (on_objects (object_Get (Backup_StorageLocation b)));
  mret (data, b).

Definition expired (cutoff : Z) (b : Backup) : Prop :=
  Backup_IsProtectedPoint b = false ∧ Backup_CreatedAt b < cutoff.
#[export] Instance expired_dec cutoff b : Decision (expired cutoff b).
Proof. unfold expired. apply _. Defined.

Fixpoint prune (cutoff : Z) (bs : list Backup) (deletedCount : Z) : go env Z :=
  match bs with
  | [] => mret deletedCount
  | b :: bs =>
      if decide (expired cutoff b) then
        r ← try (DeleteBackup None (Backup_ID b));
        prune cutoff bs (match r with Ok _ => add64 deletedCount 1 | Err _ => deletedCount end)
      else prune cutoff bs deletedCount
  end.

Definition ApplyRetentionPolicy (policyID : string) : go env Z :=
  policy ← on_repo (GetPolicy policyID);
  '(backups, _) ← on_repo (backup_List (mkBackupFilter "" "" "" "" None 1000 0));
  now ← time_Now;
  prune (time_AddDays now (- Policy_RetentionDays policy)) backups 0.
End service.

(** ** The recovery points *)

Section points.
Context {O E A : Type} `{!ObjectStorage O, !ObjectStorageLaws O, !EventPublisher E,
  !AuditRepository A, !SortSlice, !Digest, !TimeFormat, !BackupCodec}.
Context (auth : option Authorizer) (has_events has_audit : bool).
Abbreviation env := (BackupEnv O E * A)%type.
Implicit Types (st : env) (b : Backup).

Definition backups_of st : gmap string Backup := BackupStore_backups (be_repo st.1).
Definition objects_of st : O := be_objects st.1.

(** The artifact of a backup is there and is what the backup was made of. *)
Definition restorable (o : O) b : Prop := ∃ d,
  object_at o (Backup_StorageLocation b) = Some d ∧ sha256_hex d = Backup_ChecksumSHA256 b.

(** A backup is filed under its identifier, which ends its storage key, and a
    verified one is restorable. *)
Record backups_ok st : Prop := {
  bk_storage : storage_ok (objects_of st);
  bk_filed : ∀ id b, backups_of st !! id = Some b → Backup_ID b = id ∧
    String.length id = 36%nat ∧ ∃ pre, Backup_StorageLocation b = pre +:+ id +:+ ".enc";
  bk_restorable : ∀ id b, backups_of st !! id = Some b →
    Backup_Status b = BackupVerified → restorable (objects_of st) b
}.

Definition verified_in st (id : string) (b : Backup) : Prop :=
  backups_of st !! id = Some b ∧ Backup_Status b = BackupVerified.

(** What every call keeps: the invariant, at least one verified backup if there
    was one, and every protected point. *)
Definition kept st st' : Prop := backups_ok st' ∧
  ((∃ id b, verified_in st id b) → ∃ id b, verified_in st' id b) ∧
  (∀ id b, backups_of st !! id = Some b → Backup_IsProtectedPoint b = true →
     ∃ b', backups_of st' !! id = Some b' ∧ Backup_IsProtectedPoint b' = true).

Lemma kept_refl st : backups_ok st → kept st st.
Proof. intros Hok. split_and!; [done|done|]. intros id b Hb Hp. by exists b. Qed.

Lemma kept_trans st1 st2 st3 : kept st1 st2 → kept st2 st3 → kept st1 st3.
Proof.
  intros (_ & Hv1 & Hp1) (Hok & Hv2 & Hp2). split_and!; [done|auto|].
  intros id b Hb Hp. destruct (Hp1 id b Hb Hp) as (b2 & Hb2 & Hp2'). by apply (Hp2 id b2).
Qed.

(** Calls that touch neither the backups nor the objects. *)
Lemma kept_same st st' : backups_ok st → backups_of st' = backups_of st →
  objects_of st' = objects_of st → kept st st'.
Proof.
  intros [Hs Hf Hr] Hb Ho. assert (backups_ok st') as Hok.
  { split; rewrite ?Hb, ?Ho; auto. }
  split_and!; [done|by unfold verified_in; rewrite Hb|]. intros id b. rewrite Hb. eauto.
Qed.

Lemma keys_differ st id id' b b' : backups_ok st → id ≠ id' →
  backups_of st !! id = Some b → backups_of st !! id' = Some b' →
  Backup_StorageLocation b ≠ Backup_StorageLocation b'.
Proof.
  intros Hok Hne Hb Hb' Heq. destruct (bk_filed st Hok id b Hb) as (_ & Hl & pre & Hp).
  destruct (bk_filed st Hok id' b' Hb') as (_ & Hl' & pre' & Hp'). apply Hne.
  rewrite Hp, Hp' in Heq. apply string_app_tail in Heq; [|rewrite !length_string_app; lia].
  clear -Heq Hl Hl'. rewrite <-Hl' in Hl. clear Hl'. revert id' Heq Hl.
  induction id as [|c id IH]; intros [|c' id'] Heq Hl; try done.
  injection Heq as -> Heq. injection Hl as Hl. f_equal. by apply IH.
Qed.

(** An update of one record that keeps its key, its location, its protection
    and its verification. *)
Lemma kept_update st st' id b b' :
  backups_ok st → backups_of st !! id = Some b →
  backups_of st' = <[id := b']> (backups_of st) → objects_of st' = objects_of st →
  Backup_ID b' = Backup_ID b → Backup_StorageLocation b' = Backup_StorageLocation b →
  (Backup_IsProtectedPoint b = true → Backup_IsProtectedPoint b' = true) →
  (Backup_Status b = BackupVerified → Backup_Status b' = BackupVerified) →
  (Backup_Status b' = BackupVerified → restorable (objects_of st) b') → kept st st'.
Proof.
  intros Hok Hb Hbs Ho Hid Hloc Hprot Hver Hres. destruct Hok as [Hs Hf Hr]. split_and!.
  - split; rewrite ?Ho; [done| |].
    + intros i x. rewrite Hbs, lookup_insert. case_decide; [|by apply Hf]. subst i.
      intros [= <-]. rewrite Hid, Hloc. by apply Hf.
    + intros i x. rewrite Hbs, lookup_insert. case_decide; [|by apply Hr]. by intros [= <-].
  - intros (i & x & Hx & Hv). unfold verified_in. rewrite Hbs.
    destruct (decide (i = id)) as [->|Hi].
    + exists id, b'. rewrite lookup_insert_eq. split; [done|]. apply Hver. congruence.
    + exists i, x. by rewrite lookup_insert_ne.
  - intros i x Hx Hp. rewrite Hbs, lookup_insert. case_decide; [|by exists x]. subst i.
    exists b'. split; [done|]. apply Hprot. congruence.
Qed.

(** *** The calls of the ports *)

(** Events and audit entries leave repository and objects alone. *)
Definition same_data st st' : Prop :=
  be_repo st'.1 = be_repo st.1 ∧ objects_of st' = objects_of st.

Lemma wp_publish_backup tenant typ id payload (P : result () → env → World → Prop) w st :
  (∀ st' w', same_data st st' → P (Ok ()) st' w') →
  wp (publish_backup has_events tenant typ id payload) P w st.
Proof.
  intros HP. unfold publish_backup. destruct has_events; [|by apply HP].
  rewrite wp_bind, wp_uuid, wp_bind, wp_now, wp_ignore. unfold on_events, on_store.
  rewrite !wp_zoom. unfold wp. destruct (Publish _ _ _) as [[r e'] w']. by apply HP.
Qed.

Lemma wp_audit_backup sub action id code det (P : result () → env → World → Prop) w st :
  (∀ st' w', same_data st st' → P (Ok ()) st' w') →
  wp (audit_backup has_audit sub action id code det) P w st.
Proof.
  intros HP. unfold audit_backup. destruct has_audit; [|by apply HP].
  rewrite wp_bind, wp_now, wp_ignore, wp_zoom. unfold wp.
  destruct (Record_ _ _ _) as [[r a'] w']. by apply HP.
Qed.

Lemma wp_backup_repo {X} (m : go BackupStore X) (P : result X → env → World → Prop) w st :
  wp m (λ r x w', ∀ st', be_repo st'.1 = x → objects_of st' = objects_of st → P r st' w') w
    (be_repo st.1) →
  wp (on_repo m) P w st.
Proof.
  intros Hm. unfold on_repo, on_store. rewrite !wp_zoom.
  eapply wp_mono; [exact Hm|]. intros r x w' HP. by apply HP.
Qed.

Lemma wp_on_objects {X} (m : go O X) (P : result X → env → World → Prop) w st :
  wp m (λ r o w', ∀ st', be_repo st'.1 = be_repo st.1 → objects_of st' = o → P r st' w') w
    (objects_of st) →
  wp (on_objects m) P w st.
Proof.
  intros Hm. unfold on_objects, on_store. rewrite !wp_zoom.
  eapply wp_mono; [exact Hm|]. intros r x w' HP. by apply HP.
Qed.

Lemma wp_found id (P : result Backup → env → World → Prop) w st :
  (∀ e st', same_data st st' → backups_of st !! id = None → P (Err e) st' w) →
  (∀ b st', same_data st st' → backups_of st !! id = Some b → P (Ok b) st' w) →
  wp (on_repo (backup_GetByID id)) P w st.
Proof.
  intros Hno Hyes. apply wp_backup_repo. unfold backup_GetByID. rewrite wp_bind, wp_get.
  fold (backups_of st). destruct (backups_of st !! id) as [b|] eqn:Hb.
  - rewrite wp_ret. intros st' ? ?. by apply Hyes.
  - rewrite wp_fail. intros st' ? ?. by apply Hno.
Qed.

Lemma kept_data st st' : backups_ok st → same_data st st' → kept st st'.
Proof. intros Hok [Hr Ho]. apply kept_same; [done| |done]. unfold backups_of. by rewrite Hr. Qed.

(** [UpdateStatus] of a record that is there. *)
Lemma wp_update_status id status checksum size errStr b (P : result () → env → World → Prop) w st :
  backups_of st !! id = Some b →
  (∀ st' w' now, objects_of st' = objects_of st →
     backups_of st' = <[id := with_backup_status status checksum size errStr now b]> (backups_of st) →
     P (Ok ()) st' w') →
  wp (ignore (on_repo (backup_UpdateStatus id status checksum size errStr))) P w st.
Proof.
  intros Hb HP. rewrite wp_ignore. apply wp_backup_repo. unfold backup_UpdateStatus, backup_GetByID.
  rewrite wp_bind, wp_bind, wp_get. fold (backups_of st). rewrite Hb, wp_ret, wp_bind, wp_now,
    wp_modify. intros st' Hr Ho. eapply HP; [done|]. unfold backups_of. by rewrite Hr.
Qed.

(** *** Verification *)

Lemma with_backup_status_keys status checksum size errStr now b :
  let b' := with_backup_status status checksum size errStr now b in
  Backup_Resource b' = Backup_Resource b ∧ Backup_StorageLocation b' = Backup_StorageLocation b ∧
  Backup_IsProtectedPoint b' = Backup_IsProtectedPoint b ∧ Backup_Status b' = status ∧
  Backup_ChecksumSHA256 b' = or_default (Backup_ChecksumSHA256 b) checksum.
Proof.
  unfold with_backup_status, or_default. destruct b.
  destruct (decide (checksum = "")), (decide (checksum ≠ "")), (decide (0 < size)),
    (decide (errStr ≠ "")), (decide (status = BackupVerified)); done.
Qed.

(** What a verification leaves: a known backup whose artifact is as it was is
    verified afterwards; one whose artifact is not is marked as failed. *)
Definition checked (sub : option Subject) st st' (id : string) (r : result ()) : Prop :=
  objects_of st' = objects_of st ∧
  ((same_data st st' ∧ (∃ e, r = Err e) ∧ ∀ b, backups_of st !! id = Some b →
      ¬ permitted auth sub "backup:read" (Backup_Resource b)) ∨
   ∃ b b', backups_of st !! id = Some b ∧ backups_of st' = <[id := b']> (backups_of st) ∧
     permitted auth sub "backup:read" (Backup_Resource b) ∧
     Backup_Resource b' = Backup_Resource b ∧
     Backup_StorageLocation b' = Backup_StorageLocation b ∧
     Backup_IsProtectedPoint b' = Backup_IsProtectedPoint b ∧
     Backup_ChecksumSHA256 b' = Backup_ChecksumSHA256 b ∧
     ((r = Ok () ∧ restorable (objects_of st) b ∧ Backup_Status b' = BackupVerified) ∨
      (r = Err ErrBackupCorrupted ∧ ¬ restorable (objects_of st) b ∧
       Backup_Status b' = BackupFailed))).

Lemma wp_corrupted b0 b id msg (P : result () → env → World → Prop) w st :
  backups_of st !! id = Some b →
  (∀ st' w' b', objects_of st' = objects_of st → backups_of st' = <[id := b']> (backups_of st) →
     Backup_Resource b' = Backup_Resource b → Backup_StorageLocation b' = Backup_StorageLocation b →
     Backup_IsProtectedPoint b' = Backup_IsProtectedPoint b →
     Backup_ChecksumSHA256 b' = Backup_ChecksumSHA256 b → Backup_Status b' = BackupFailed →
     P (Err ErrBackupCorrupted) st' w') →
  wp (corrupted has_events b0 id msg) P w st.
Proof.
  intros Hb HP. unfold corrupted. rewrite wp_bind. eapply wp_update_status; [exact Hb|].
  intros st1 w1 now Ho1 Hb1. rewrite wp_bind. apply wp_publish_backup. intros st2 w2 [Hr2 Ho2].
  rewrite wp_fail. destruct (with_backup_status_keys BackupFailed "" 0 msg now b)
    as (K1 & K2 & K3 & K4 & K5).
  eapply HP; [congruence|unfold backups_of at 1; rewrite Hr2; exact Hb1|done..].
Qed.

Lemma VerifyBackup_effect sub id w st :
  backups_ok st →
  wp (VerifyBackup auth has_events sub id) (λ r st' _, checked sub st st' id r) w st.
Proof.
  intros Hok. unfold VerifyBackup. rewrite wp_bind. apply wp_found.
  { intros e st1 Hs Hno. split; [apply Hs|]. left. split_and!; [done|by exists e|congruence]. }
  intros b st1 Hs1 Hb. rewrite wp_bind. apply wp_admission; intros Hperm.
  2:{ intros e. split; [apply Hs1|]. left. split_and!; [done|by exists e|congruence]. }
  destruct Hs1 as [Hr1 Ho1]. rewrite wp_bind, wp_try. apply wp_on_objects. rewrite Ho1.
  eapply wp_mono; [apply law_get, Hok|]. intros got o w1 [-> Hgot] st2 Hr2 Ho2.
  assert (backups_of st2 = backups_of st) as Hbs2 by (unfold backups_of; congruence).
  assert (∀ msg, ¬ restorable (objects_of st) b →
    wp (corrupted has_events b id msg) (λ r st' _, checked sub st st' id r) w1 st2) as Hbad.
  { intros msg Hnot. apply (wp_corrupted b b); [by rewrite Hbs2|].
    intros st3 w3 b' Ho3 Hb3 K1 K2 K3 K4 K5. split; [congruence|]. right. exists b, b'.
    split_and!; [done|congruence|done..|]. by right. }
  destruct (object_at _ _) as [d|] eqn:Hat.
  2:{ destruct Hgot as [e ->]. apply Hbad. intros (d & Hd & _). congruence. }
  destruct Hgot as [m ->]. case_decide as Hsum.
  { apply Hbad. intros (d' & Hd' & Hsum'). congruence. }
  rewrite wp_bind.
  eapply wp_update_status; [by rewrite Hbs2|]. intros st3 w3 now Ho3 Hb3.
  apply wp_publish_backup. intros st4 w4 [Hr4 Ho4].
  destruct (with_backup_status_keys BackupVerified (sha256_hex d) (Z.of_nat (String.length d)) ""
    now b) as (K1 & K2 & K3 & K4 & K5).
  split; [congruence|]. right. eexists b, _.
  split_and!; [done|unfold backups_of at 1; rewrite Hr4; unfold backups_of at 1 in Hb3; rewrite Hb3, Hbs2; reflexivity|done..| |].
  - rewrite K5. unfold or_default. by case_decide.
  - left. split_and!; [done|by exists d|done].
Qed.

Lemma checked_kept sub st st' id r : backups_ok st → checked sub st st' id r → kept st st'.
Proof.
  intros Hok [Ho [[Hs _]|(b & b' & Hb & Hb' & _ & [= Hid _] & Hloc & Hp & Hsum & Hcase)]];
    [by apply kept_data|].
  eapply kept_update; [done|done|exact Hb'|done|done|done|congruence| |].
  - intros Hv. destruct Hcase as [(_ & _ & ?)|(_ & Hnot & _)]; [done|].
    exfalso. apply Hnot. by eapply bk_restorable.
  - intros Hv. destruct Hcase as [(_ & Hres & _)|(_ & _ & ?)]; [|congruence].
    unfold restorable in *. by rewrite Hloc, Hsum.
Qed.

(** *** Deletion *)

Lemma kept_delete st st' id b :
  backups_ok st → backups_of st !! id = Some b → Backup_IsProtectedPoint b = false →
  (Backup_Status b = BackupVerified → ∃ i x, verified_in st i x ∧ i ≠ id) →
  backups_of st' = delete id (backups_of st) → storage_ok (objects_of st') →
  (∀ k, k ≠ Backup_StorageLocation b → object_at (objects_of st') k = object_at (objects_of st) k) →
  kept st st'.
Proof.
  intros Hok Hb Hp Hlast Hbs Hst Hobj. split_and!.
  - split; [done| |].
    + intros i x. rewrite Hbs. intros [_ Hx]%lookup_delete_Some. by eapply bk_filed.
    + intros i x. rewrite Hbs. intros [Hi Hx]%lookup_delete_Some Hv.
      destruct (bk_restorable st Hok i x Hx Hv) as (d & Hd & Hsum). exists d.
      rewrite Hobj; [done|]. by apply (keys_differ st i id).
  - intros (i & x & Hx & Hv). unfold verified_in. rewrite Hbs.
    destruct (decide (i = id)) as [->|Hi].
    + destruct Hlast as (j & y & [Hy Hvy] & Hj); [congruence|]. exists j, y.
      by rewrite lookup_delete_ne.
    + exists i, x. by rewrite lookup_delete_ne.
  - intros i x Hx Hpx. exists x. rewrite Hbs, lookup_delete_ne; [done|]. congruence.
Qed.

Lemma DeleteBackup_kept sub id w st :
  backups_ok st → wp (DeleteBackup auth has_audit sub id) (λ _ st' _, kept st st') w st.
Proof.
  intros Hok. unfold DeleteBackup. rewrite wp_bind. apply wp_found.
  { intros e st1 Hs _. by apply kept_data. }
  intros b st1 Hs1 Hb. pose proof (kept_data _ _ Hok Hs1) as Hk1. destruct Hs1 as [Hr1 Ho1].
  rewrite wp_bind. apply wp_maybe_authorize; [|done]. intros _.
  rewrite wp_bind. apply wp_backup_repo. unfold backup_Delete, backup_GetByID.
  rewrite !wp_bind, wp_get, Hr1. fold (backups_of st). rewrite Hb, wp_ret.
  destruct (Backup_IsProtectedPoint b) eqn:Hp.
  { rewrite decide_True by done. rewrite wp_fail. intros st2 ? ?. apply kept_data; [done|].
    split; congruence. }
  rewrite decide_False by done. rewrite wp_bind, wp_get, wp_bind. apply wp_list_in_sound.
  intros l w1 _ Hl. fold (backups_of st) in Hl.
  destruct (decide (_ ∧ _)) as [Hlast|Hlast].
  { rewrite wp_fail. intros st2 ? ?. apply kept_data; [done|]. split; congruence. }
  rewrite wp_modify. intros st2 Hr2 Ho2.
  assert (backups_of st2 = delete id (backups_of st)) as Hb2.
  { unfold backups_of. rewrite Hr2. reflexivity. }
  assert (Backup_Status b = BackupVerified → ∃ i x, verified_in st i x ∧ i ≠ id) as Hother.
  { intros Hv. destruct l as [|x l]; [exfalso; by apply Hlast|].
    destruct (Hl x ltac:(set_solver)) as ((Hvx & Hix) & i & Hx). exists i, x. split; [done|].
    destruct (bk_filed st Hok i x Hx) as [Hid _]. congruence. }
  assert (∀ st3, backups_of st3 = delete id (backups_of st) → storage_ok (objects_of st3) →
    (∀ k, k ≠ Backup_StorageLocation b →
       object_at (objects_of st3) k = object_at (objects_of st) k) → kept st st3) as Hdel.
  { intros. by eapply kept_delete. }
  rewrite wp_bind, wp_ignore. apply wp_on_objects. rewrite Ho2, Ho1.
  eapply wp_mono; [apply law_delete, Hok|]. intros r o w3 [Hst Hobj] st3 Hr3 Ho3.
  apply wp_audit_backup. intros st4 w4 [Hr4 Ho4].
  apply Hdel; [|by rewrite Ho4, Ho3|by rewrite Ho4, Ho3].
  unfold backups_of in *. congruence.
Qed.

Lemma prune_kept cutoff bs : ∀ n w st,
  backups_ok st → wp (prune auth has_audit cutoff bs n) (λ _ st' _, kept st st') w st.
Proof.
  induction bs as [|b bs IH]; intros n w st Hok; cbn [prune]; [by apply kept_refl|].
  case_decide; [|by apply IH]. rewrite wp_bind, wp_try.
  eapply wp_mono; [by apply DeleteBackup_kept|]. intros r st1 w1 Hk1.
  eapply wp_mono; [apply IH, Hk1|]. intros r2 st2 w2 Hk2. exact (kept_trans _ _ _ Hk1 Hk2).
Qed.

Lemma ApplyRetentionPolicy_kept policyID w st :
  backups_ok st → wp (ApplyRetentionPolicy auth has_audit policyID) (λ _ st' _, kept st st') w st.
Proof.
  intros Hok. unfold ApplyRetentionPolicy. rewrite wp_bind. apply wp_backup_repo.
  unfold GetPolicy. rewrite wp_bind, wp_get.
  destruct (_ !! policyID) as [p|]; [rewrite wp_ret|rewrite wp_fail]; intros st1 Hr1 Ho1.
  2:{ apply kept_data; [done|by split]. }
  rewrite wp_bind. apply wp_backup_repo. eapply wp_quiet; [unfold backup_List; quiet|].
  intros r w2 _ st2 Hr2 Ho2.
  assert (kept st st2) as Hk by (apply kept_data; [done|split; congruence]).
  destruct r as [[l n]|e]; [|done]. rewrite wp_bind, wp_now.
  eapply wp_mono; [apply prune_kept, Hk|]. intros r3 st3 w3 Hk3. exact (kept_trans _ _ _ Hk Hk3).
Qed.

(** *** Creation *)

(** The identifier the generator hands out next is new. *)
Definition new_backup_id (w : World) st : Prop :=
  backups_of st !! w_uuid w (w_uuids w) = None ∧ String.length (w_uuid w (w_uuids w)) = 36%nat.

Lemma kept_insert st st' id b :
  backups_ok st → backups_of st !! id = None → String.length id = 36%nat →
  Backup_ID b = id → (∃ pre, Backup_StorageLocation b = pre +:+ id +:+ ".enc") →
  Backup_Status b ≠ BackupVerified →
  backups_of st' = <[id := b]> (backups_of st) → objects_of st' = objects_of st → kept st st'.
Proof.
  intros Hok Hnew Hlen Hid Hloc Hv Hbs Ho. split_and!.
  - destruct Hok as [Hs Hf Hr]. split; rewrite ?Ho; [done| |].
    + intros i x. rewrite Hbs, lookup_insert. case_decide; [|apply Hf]. intros [= <-]. by subst i.
    + intros i x. rewrite Hbs, lookup_insert. case_decide; [|apply Hr]. by intros [= <-].
  - intros (i & x & Hx & Hvx). exists i, x. unfold verified_in.
    rewrite Hbs, lookup_insert_ne; [done|congruence].
  - intros i x Hx Hp. exists x. rewrite Hbs, lookup_insert_ne; [done|congruence].
Qed.

(** Writing the artifact of a backup that is not verified yet. *)
Lemma kept_put st st' id b :
  backups_ok st → backups_of st !! id = Some b → Backup_Status b ≠ BackupVerified →
  backups_of st' = backups_of st → storage_ok (objects_of st') →
  (∀ k, k ≠ Backup_StorageLocation b → object_at (objects_of st') k = object_at (objects_of st) k) →
  kept st st'.
Proof.
  intros Hok Hb Hv Hbs Hst Hobj. split_and!.
  - split; [done|rewrite Hbs; apply Hok|]. intros i x Hx Hvx. rewrite Hbs in Hx.
    destruct (bk_restorable st Hok i x Hx Hvx) as (d & Hd & Hsum). exists d.
    rewrite Hobj; [done|]. apply (keys_differ st i id); [done| |done|done]. congruence.
  - unfold verified_in. by rewrite Hbs.
  - intros i x. rewrite Hbs. eauto.
Qed.

(** A backup that is given up was not verified. *)
Lemma wp_give_up {X} id what err b (P : result X → env → World → Prop) w st :
  backups_ok st → backups_of st !! id = Some b → Backup_Status b ≠ BackupVerified →
  (∀ st' w', kept st st' → P (Err (Wrapf (what +:+ Prelude.Error err) err)) st' w') →
  wp (surrender id what err) P w st.
Proof.
  intros Hok Hb Hv HP. unfold surrender. rewrite wp_bind.
  eapply wp_update_status; [exact Hb|]. intros st1 w1 now Ho1 Hb1. rewrite wp_fail. apply HP.
  destruct (with_backup_status_keys BackupFailed "" 0 (Prelude.Error err) now b)
    as ([= K1 _] & K2 & K3 & K4 & K5).
  eapply kept_update; [done|exact Hb|exact Hb1|done|done|done|congruence|done|congruence].
Qed.

(** The end of a creation: the first verified backup becomes a protected point. *)
Lemma wp_protect id b (count : Z) (P : result () → env → World → Prop) w st :
  backups_ok st → verified_in st id b →
  (∀ st' w' b', kept st st' → verified_in st' id b' → P (Ok ()) st' w') →
  wp (if decide (count ≤ 1) then ignore (on_repo (SetProtectedPoint id true)) else mret ()) P w st.
Proof.
  intros Hok [Hb Hv] HP. case_decide; [|apply (HP st w b); [by apply kept_refl|done]].
  rewrite wp_ignore. apply wp_backup_repo. unfold SetProtectedPoint, backup_GetByID.
  rewrite wp_bind, wp_bind, wp_get. fold (backups_of st). rewrite Hb, wp_ret, wp_modify.
  intros st' Hr Ho.
  assert (backups_of st' = <[id := (b <| Backup_IsProtectedPoint := true |>)]> (backups_of st)) as Hbs.
  { unfold backups_of. by rewrite Hr. }
  apply (HP st' w (b <| Backup_IsProtectedPoint := true |>)).
  - eapply kept_update; [done|exact Hb|exact Hbs|done|done|done|done|done|].
    intros _. exact (bk_restorable st Hok id b Hb Hv).
  - split; [rewrite Hbs; apply lookup_insert_eq|done].
Qed.

Lemma quiet_CountVerified : quiet CountVerified.
Proof. unfold CountVerified. quiet. Qed.

Lemma CreateBackup_effect sub req w st :
  backups_ok st → new_backup_id w st →
  wp (CreateBackup auth has_events has_audit sub req) (λ r st' _, kept st st' ∧
    match r with Ok b => ∃ b', verified_in st' (Backup_ID b) b' | Err _ => True end) w st.
Proof.
  intros Hok [Hnew Hlen]. unfold CreateBackup. rewrite wp_bind.
  assert (∀ e : error, kept st st ∧ match Err e with Ok b => ∃ b', verified_in st (Backup_ID b) b'
    | Err _ => True end) as Hnone by (intros; split; [by apply kept_refl|done]).
  apply wp_maybe_authorize; [intros _|intros e; exact (Hnone e)]. set (tenant := backup_tenant _ _ _).
  set (typ := or_default TypeFull _). set (rtype := or_default "database" _).
  rewrite wp_bind, wp_uuid. set (id := w_uuid w (w_uuids w)) in *.
  rewrite wp_bind, wp_now, wp_bind, wp_wrap_err, wp_lift.
  destruct (json_payload _) as [data|e]; [|exact (Hnone e)].
  rewrite wp_bind, wp_now, wp_bind, wp_wrap_err. apply wp_backup_repo.
  set (rec := mkBackup id _ _ _ _ _ _ _ _ _ _ _ _ _ _ _ _).
  assert (∀ P w0, (∀ rec' w', Backup_ID rec' = id → Backup_StorageLocation rec' =
    storage_key tenant rtype id → Backup_Status rec' = BackupRunning →
    P (Ok rec') (put_backup rec' (be_repo st.1)) w') →
    wp (backup_Create rec) P w0 (be_repo st.1)) as Hcreate.
  { intros P w0 HP. unfold backup_Create, or_uuid, or_now. cbn [Backup_ID Backup_CreatedAt rec].
    rewrite wp_bind, decide_False by (intros Hz; rewrite Hz in Hlen; discriminate Hlen).
    rewrite wp_ret, wp_bind. case_decide; [rewrite wp_now|rewrite wp_ret];
      rewrite wp_bind, wp_modify, wp_ret; by apply HP. }
  apply Hcreate. clear Hcreate. intros rec' w1 Hrid Hrloc Hrst st1 Hr1 Ho1.
  assert (backups_of st1 = <[id := rec']> (backups_of st)) as Hb1.
  { unfold backups_of. rewrite Hr1. cbn. by rewrite Hrid. }
  assert (Backup_Status rec' ≠ BackupVerified) as Hnv by congruence.
  assert (kept st st1) as Hk1.
  { eapply kept_insert; [done|exact Hnew|done|exact Hrid| |exact Hnv|exact Hb1|exact Ho1].
    exists ("backups/" +:+ tenant +:+ "/" +:+ rtype +:+ "-"). rewrite Hrloc. unfold storage_key.
    by rewrite <-!str_app_assoc. }
  rewrite wp_bind, wp_try. apply wp_on_objects.
  eapply wp_mono; [apply law_put, Hk1|]. intros put o w2 (Hst2 & Hobj & _) st2 Hr2 Ho2.
  assert (backups_of st2 = backups_of st1) as Hb2 by (unfold backups_of; congruence).
  assert (backups_of st2 !! id = Some rec') as Hrec by (rewrite Hb2, Hb1; apply lookup_insert_eq).
  assert (kept st st2) as Hk2.
  { eapply kept_trans; [exact Hk1|]. eapply (kept_put st1 st2 id rec');
      [apply Hk1|by rewrite <-Hb2|done|done|by rewrite Ho2|].
    intros k Hk. rewrite Ho2. apply Hobj. congruence. }
  clear Hb1 Hb2 Hobj Hr1 Ho1 Hr2 Ho2.
  destruct put as [[]|e].
  2:{ eapply wp_give_up; [apply Hk2|exact Hrec|exact Hnv|]. intros st3 w3 Hk3.
      split; [exact (kept_trans _ _ _ Hk2 Hk3)|done]. }
  rewrite wp_bind, wp_try. eapply wp_mono; [apply VerifyBackup_effect, Hk2|].
  intros ver st3 w3 Hch. assert (kept st st3) as Hk3.
  { eapply kept_trans; [exact Hk2|]. eapply checked_kept; [apply Hk2|exact Hch]. }
  destruct ver as [[]|e].
  - assert (∃ b', verified_in st3 id b') as [b' Hver].
    { destruct Hch as [_ [(_ & [? ?] & _)|(b & b' & _ & Hb' & _ & _ & _ & _ & _ & [(_ & _ & Hv)|(? & _)])]];
        [done| |done]. exists b'. split; [rewrite Hb'; apply lookup_insert_eq|done]. }
    rewrite wp_bind. apply wp_backup_repo. apply wp_quiet; [apply quiet_CountVerified|].
    intros [count|e] w4 _ st4 Hr4 Ho4;
      [|split; [eapply kept_trans; [exact Hk3|]; apply kept_data; [apply Hk3|done]|done]].
    assert (kept st3 st4) as Hk4 by (apply kept_data; [apply Hk3|done]).
    rewrite wp_bind. eapply (wp_protect id b');
      [apply Hk4|unfold verified_in, backups_of; rewrite Hr4; exact Hver|].
    intros st5 w5 b5 Hk5 Hver5. rewrite wp_bind. apply wp_audit_backup. intros st6 w6 Hs6.
    rewrite wp_bind. apply wp_publish_backup. intros st7 w7 Hs7. rewrite wp_ret. split.
    + eapply kept_trans; [exact Hk3|]. eapply kept_trans; [exact Hk4|].
      eapply kept_trans; [exact Hk5|]. apply kept_data; [apply Hk5|].
      destruct Hs6, Hs7. split; congruence.
    + exists b5. destruct Hs6 as [Hr6 _], Hs7 as [Hr7 _].
      unfold verified_in, backups_of. rewrite Hr7, Hr6.
      assert (Backup_ID ((if decide (count ≤ 1) then rec' <| Backup_IsProtectedPoint := true |>
        else rec') <| Backup_Status := BackupVerified |>) = id) as ->;
        [|exact Hver5]. by case_decide.
  - assert (∃ b, backups_of st3 !! id = Some b ∧ Backup_Status b ≠ BackupVerified) as (b & Hb & Hv).
    { destruct Hch as [_ [((Hr & _) & _)|(b & b' & _ & Hb' & _ & _ & _ & _ & _ & [(? & _)|(_ & _ & Hv)])]].
      - exists rec'. split; [|done]. unfold backups_of in *. by rewrite Hr.
      - done.
      - exists b'. rewrite Hb', lookup_insert_eq. split; [done|congruence]. }
    eapply wp_give_up; [apply Hk3|exact Hb|exact Hv|]. intros st4 w4 Hk4.
    split; [exact (kept_trans _ _ _ Hk3 Hk4)|done].
Qed.

(** *** Histories *)

(** One call of the service; a new backup gets a new identifier. *)
Inductive backup_step : env → env → Prop :=
  | b_create w st sub req : new_backup_id w st →
      backup_step st (exec (CreateBackup auth has_events has_audit sub req) w st)
  | b_verify w st sub id : backup_step st (exec (VerifyBackup auth has_events sub id) w st)
  | b_delete w st sub id : backup_step st (exec (DeleteBackup auth has_audit sub id) w st)
  | b_retention w st policyID :
      backup_step st (exec (ApplyRetentionPolicy auth has_audit policyID) w st)
  | b_download w st sub id : backup_step st (exec (DownloadBackup auth sub id) w st)
  | b_new_policy w st p : backup_step st (exec (on_repo (CreatePolicy p)) w st)
  | b_policy w st p : backup_step st (exec (on_repo (UpdatePolicy p)) w st)
  | b_drop_policy w st id : backup_step st (exec (on_repo (DeletePolicy id)) w st)
  | b_plan w st plan : backup_step st (exec (on_repo (SaveRestorePlan plan)) w st).

Lemma on_repo_kept {X} (m : go BackupStore X) w st :
  backups_ok st → wp m (λ _ s _, BackupStore_backups s = backups_of st) w (be_repo st.1) →
  kept st (exec (on_repo m) w st).
Proof.
  intros Hok Hm. apply (proj1 (wp_elim (on_repo m) (λ _ st' _, kept st st') w st)).
  apply wp_backup_repo. eapply wp_mono; [exact Hm|]. intros r s w' Hs st' Hr Ho.
  apply kept_same; [done| |done]. unfold backups_of at 1. by rewrite Hr.
Qed.

Lemma DownloadBackup_run sub id b w st :
  backups_ok st → backups_of st !! id = Some b →
  permitted auth sub "backup:read" (Backup_Resource b) → restorable (objects_of st) b →
  wp (DownloadBackup auth sub id) (λ r st' _, same_data st st' ∧ ∃ d, r = Ok (d, b) ∧
    sha256_hex d = Backup_ChecksumSHA256 b) w st.
Proof.
  intros Hok Hb Hperm (d & Hd & Hsum). unfold DownloadBackup, GetBackup.
  rewrite wp_bind, wp_bind. apply wp_found; [congruence|]. intros b' st1 Hs1 Hb'.
  assert (b' = b) as -> by congruence. destruct Hs1 as [Hr1 Ho1].
  rewrite maybe_authorize_permitted by done. rewrite wp_bind, wp_ret, wp_ret, wp_bind, wp_wrap_err.
  apply wp_on_objects. rewrite Ho1. eapply wp_mono; [apply law_get, Hok|].
  intros r o w2 [-> Hr] st2 Hr2 Ho2. rewrite Hd in Hr. destruct Hr as [m ->]. rewrite wp_ret.
  split; [split; congruence|]. by exists d.
Qed.

Lemma DownloadBackup_same sub id w st :
  backups_ok st → wp (DownloadBackup auth sub id) (λ _ st' _, kept st st') w st.
Proof.
  intros Hok. unfold DownloadBackup, GetBackup. rewrite wp_bind, wp_bind. apply wp_found.
  { intros e st1 Hs _. by apply kept_data. }
  intros b st1 Hs1 _. pose proof (kept_data _ _ Hok Hs1) as Hk1. destruct Hs1 as [Hr1 Ho1].
  rewrite wp_bind. apply wp_maybe_authorize; [|done]. intros _. rewrite wp_ret, wp_bind, wp_wrap_err.
  apply wp_on_objects. eapply wp_mono; [apply law_get, Hk1|]. intros r o w2 [-> _] st2 Hr2 Ho2.
  assert (kept st st2) as Hk2 by (apply kept_data; [done|split; congruence]).
  destruct r as [[d m]|e]; [by rewrite wp_ret|done].
Qed.

Lemma backup_step_kept st st' : backup_step st st' → backups_ok st → kept st st'.
Proof.
  intros Hstep Hok. destruct Hstep.
  - apply (proj1 (wp_elim _ (λ _ st' _, kept st st') w st)).
    eapply wp_mono; [by apply CreateBackup_effect|]. by intros r st' w' [Hk _].
  - apply (proj1 (wp_elim _ (λ _ st' _, kept st st') w st)).
    eapply wp_mono; [by apply VerifyBackup_effect|]. intros r st' w'. by apply checked_kept.
  - by apply (proj1 (wp_elim _ _ _ _) (DeleteBackup_kept sub id w st Hok)).
  - by apply (proj1 (wp_elim _ _ _ _) (ApplyRetentionPolicy_kept policyID w st Hok)).
  - by apply (proj1 (wp_elim _ _ _ _) (DownloadBackup_same sub id w st Hok)).
  - apply on_repo_kept; [done|]. unfold CreatePolicy, or_uuid. wp_step.
    case_decide; wp_step; reflexivity.
  - apply on_repo_kept; [done|]. unfold UpdatePolicy, GetPolicy. wp_step.
    case_match; wp_step; reflexivity.
  - apply on_repo_kept; [done|]. unfold DeletePolicy. wp_step. reflexivity.
  - apply on_repo_kept; [done|]. unfold SaveRestorePlan, or_uuid, or_now. wp_step.
    case_decide; wp_step; case_decide; wp_step; reflexivity.
Qed.

Lemma backup_steps_kept st st' : rtc backup_step st st' → backups_ok st → kept st st'.
Proof.
  induction 1 as [st|st1 st2 st3 H12 _ IH]; intros Hok; [by apply kept_refl|].
  pose proof (backup_step_kept _ _ H12 Hok) as Hk. eapply kept_trans; [exact Hk|]. apply IH, Hk.
Qed.

(** C19 a recovery point survives: once a backup was created, after any further
    history of calls by anybody (deletions, retention runs, verifications, new
    backups that fail at any stage) some verified backup is still on file, and
    whoever may read it downloads the very content its checksum was taken of.
    Protected points are never lost at all. *)
Theorem recovery_point_survives (sub : option Subject) (req : CreateBackupRequest) (w : World)
    st st' (b : Backup) :
  backups_ok st → new_backup_id w st →
  let create := CreateBackup auth has_events has_audit sub req in
  answer create w st = Ok b → rtc backup_step (exec create w st) st' →
  (∃ id b', verified_in st' id b' ∧
     ∀ sub' w', permitted auth sub' "backup:read" (Backup_Resource b') →
       ∃ data, answer (DownloadBackup auth sub' id) w' st' = Ok (data, b') ∧
         sha256_hex data = Backup_ChecksumSHA256 b') ∧
  (∀ id p, backups_of (exec create w st) !! id = Some p → Backup_IsProtectedPoint p = true →
     ∃ p', backups_of st' !! id = Some p' ∧ Backup_IsProtectedPoint p' = true).
Proof.
  intros Hok Hnew create Hans Hsteps.
  pose proof (CreateBackup_effect sub req w st Hok Hnew) as [Hk1 Hv]%wp_elim. fold create in Hk1, Hv.
  rewrite Hans in Hv. destruct Hv as [b1 Hv].
  destruct (backup_steps_kept _ _ Hsteps (proj1 Hk1)) as (Hok' & Hpoint & Hprot).
  split; [|exact Hprot]. destruct Hpoint as (id & b' & Hb'); [by eexists _, b1|].
  exists id, b'. split; [done|]. intros sub' w' Hperm.
  destruct Hb' as [Hb' Hver'].
  pose proof (DownloadBackup_run sub' id b' w' st' Hok' Hb' Hperm
    (bk_restorable st' Hok' id b' Hb' Hver')) as Hdl%wp_elim.
  destruct Hdl as (_ & d & Hd & Hsum). by exists d.
Qed.
End points.

(** ** Retention *)

Section retention.
Context {O E A : Type} `{!ObjectStorage O, !ObjectStorageLaws O, !EventPublisher E,
  !AuditRepository A, !SortSlice, !Digest, !TimeFormat, !BackupCodec}.
Context (auth : option Authorizer) (has_audit : bool).
(** The ports keep the oracles of the world. *)
Context (Hdelete : ∀ k, polite (object_Delete (O := O) k)).
Context (Hrecord : ∀ l, polite (Record_ (A := A) l)).
Abbreviation env := (BackupEnv O E * A)%type.
Implicit Types (st : env) (b : Backup).

(** [b] is the last verified backup on file. *)
Definition last_point st (b : Backup) : Prop := Backup_Status b = BackupVerified ∧
  ∀ i x, verified_in st i x → i = Backup_ID b.

Lemma polite_DeleteBackup sub id : polite (DeleteBackup (E := E) auth has_audit sub id).
Proof.
  unfold DeleteBackup, on_repo, on_objects, on_store, audit_backup, maybe_authorize, authorize,
    backup_GetByID, backup_Delete. polite.
Qed.

(** The system deletes an unprotected backup unless it is the last point. *)
Lemma system_delete b w st :
  World_ok w → backups_ok st → backups_of st !! Backup_ID b = Some b →
  Backup_IsProtectedPoint b = false →
  wp (DeleteBackup auth has_audit None (Backup_ID b)) (λ r st' w', World_ok w' ∧ kept st st' ∧
    ((r = Ok () ∧ backups_of st' = delete (Backup_ID b) (backups_of st)) ∨
     (∃ e, r = Err e ∧ backups_of st' = backups_of st ∧ last_point st b))) w st.
Proof.
  intros Hw Hok Hb Hp. apply wp_elim. split.
  { eapply World_ok_same; [apply polite_DeleteBackup|done]. }
  split; [exact (proj1 (wp_elim _ _ _ _) (DeleteBackup_kept auth has_audit None _ w st Hok))|].
  apply (proj1 (wp_elim (DeleteBackup auth has_audit None (Backup_ID b)) (λ r st' _,
    (r = Ok () ∧ backups_of st' = delete (Backup_ID b) (backups_of st)) ∨
    (∃ e, r = Err e ∧ backups_of st' = backups_of st ∧ last_point st b)) w st)).
  unfold DeleteBackup. rewrite wp_bind. apply wp_found; [congruence|]. intros b' st1 [Hr1 Ho1] Hb'.
  assert (b' = b) as -> by congruence.
  assert (maybe_authorize (St := env) auth None "backup:delete" (Some (Backup_Resource b)) = mret ())
    as -> by by destruct auth.
  rewrite wp_bind, wp_ret, wp_bind. apply wp_backup_repo. unfold backup_Delete, backup_GetByID.
  rewrite !wp_bind, wp_get, Hr1. fold (backups_of st). rewrite Hb, wp_ret, Hp.
  rewrite decide_False by done. rewrite wp_bind, wp_get, wp_bind. apply wp_list_in; [done|].
  intros l w1 _ Hl. fold (backups_of st) in Hl. destruct (decide (_ ∧ _)) as [[Hv Hz]|Hother].
  - rewrite wp_fail. intros st2 Hr2 Ho2. right. eexists. split; [done|].
    split; [unfold backups_of; congruence|]. split; [done|]. intros i x [Hx Hvx].
    apply dec_stable. intros Hi. assert (l = []) as -> by (destruct l; [done|simpl in Hz; lia]).
    apply Permutation_nil in Hl. assert (x ∈ ([] : list Backup)) as Hin; [|set_solver].
    rewrite <-Hl. apply list_elem_of_filter. split.
    + split; [done|]. destruct (bk_filed st Hok i x Hx) as [Hid _]. congruence.
    + apply list_elem_of_fmap. exists (i, x). split; [done|]. by apply elem_of_map_to_list.
  - rewrite wp_modify. intros st2 Hr2 Ho2. rewrite wp_bind, wp_ignore. apply wp_on_objects.
    unfold wp at 1. destruct (object_Delete _ _ _) as [[r o] w3]. intros st3 Hr3 Ho3.
    apply wp_audit_backup. intros st4 w4 [Hr4 Ho4]. left. split; [done|].
    unfold backups_of. rewrite Hr4, Hr3, Hr2. reflexivity.
Qed.

(** What pruning the backups [bs] deletes. *)
Record pruned (cutoff : Z) (bs : list Backup) st st' (gone : list string) : Prop := {
  pr_kept : kept st st';
  pr_left : ∀ i x, backups_of st' !! i = Some x ↔ backups_of st !! i = Some x ∧ i ∉ gone;
  pr_gone : ∀ i, i ∈ gone → ∃ b, b ∈ bs ∧ Backup_ID b = i ∧ expired cutoff b;
  pr_nodup : NoDup gone;
  pr_done : ∀ b, b ∈ bs → expired cutoff b → Backup_ID b ∉ gone → last_point st' b
}.

Lemma last_point_mono st st' b : last_point st b →
  (∀ i x, backups_of st' !! i = Some x → backups_of st !! i = Some x) → last_point st' b.
Proof. intros [Hv Hl] Hsub. split; [done|]. intros i x [Hx Hvx]. apply (Hl i x). by split; [apply Hsub|]. Qed.

Lemma prune_run cutoff bs : ∀ n w st,
  World_ok w → backups_ok st → NoDup (Backup_ID <$> bs) →
  Forall (λ b, backups_of st !! Backup_ID b = Some b) bs →
  0 ≤ n → int64_ok (n + Z.of_nat (length bs)) →
  wp (prune auth has_audit cutoff bs n) (λ r st' _, ∃ gone, pruned cutoff bs st st' gone ∧
    r = Ok (n + Z.of_nat (length gone))) w st.
Proof.
  induction bs as [|b bs IH]; intros n w st Hw Hok Hnd Hbs Hn Hn64; cbn [prune].
  { rewrite wp_ret. exists []. split; [|f_equal; simpl; lia].
    split; [by apply kept_refl|set_solver..|constructor|set_solver]. }
  apply Forall_cons in Hbs as [Hb Hbs]. cbn in Hnd. apply NoDup_cons in Hnd as [Hnew Hnd].
  cbn [length] in Hn64. assert (int64_ok (n + 1)) as Hn1 by (unfold int64_ok in *; lia).
  case_decide as Hexp.
  2:{ eapply wp_mono; [apply IH; try done; unfold int64_ok in *; lia|].
      intros r st' w' (gone & [Hk Hl Hg Hgn Hd] & ->). exists gone. split; [|done]. split; [done..| |done|].
      - intros i Hi. destruct (Hg i Hi) as (x & ? & ?). exists x. set_solver.
      - intros x [->|Hx]%elem_of_cons He; [done|]. by apply Hd. }
  rewrite wp_bind, wp_try. eapply wp_mono; [by apply system_delete; [..|apply Hexp]|].
  intros r1 st1 w1 (Hw1 & Hk1 & [[-> Hdel]|(e & -> & Hsame & Hlast)]).
  - rewrite add64_id by done. eapply wp_mono; [apply IH; try done|].
    + apply Hk1.
    + rewrite Forall_forall in Hbs |- *. intros x Hx. rewrite Hdel, lookup_delete_ne; [by apply Hbs|].
      intros Heq. apply Hnew. rewrite Heq. apply list_elem_of_fmap. by exists x.
    + lia.
    + unfold int64_ok in *; lia.
    + intros r st' w' (gone & [Hk Hl Hg Hgn Hd] & ->). exists (Backup_ID b :: gone). split.
      * split; [exact (kept_trans _ _ _ Hk1 Hk)| | | |].
        -- intros i x. rewrite Hl, Hdel, lookup_delete_Some, not_elem_of_cons. naive_solver.
        -- intros i [->|Hi]%elem_of_cons; [exists b; set_solver|].
           destruct (Hg i Hi) as (x & ? & ?). exists x. set_solver.
        -- constructor; [|done]. intros Hi. destruct (Hg _ Hi) as (x & Hx & Hid & _).
           apply Hnew. rewrite <-Hid. apply list_elem_of_fmap. by exists x.
        -- intros x [->|Hx]%elem_of_cons He Hni; [set_solver|]. apply Hd; set_solver.
      * f_equal. cbn [length]. lia.
  - eapply wp_mono; [apply IH; try done|].
    + apply Hk1.
    + by rewrite Hsame.
    + unfold int64_ok in *; lia.
    + intros r st' w' (gone & [Hk Hl Hg Hgn Hd] & ->). exists gone. split; [|done].
      split; [exact (kept_trans _ _ _ Hk1 Hk)| | |done|].
      * intros i x. by rewrite Hl, Hsame.
      * intros i Hi. destruct (Hg i Hi) as (x & ? & ?). exists x. set_solver.
      * intros x [->|Hx]%elem_of_cons He Hni; [|by apply Hd].
        eapply last_point_mono; [exact Hlast|]. intros i y Hy. apply Hl in Hy.
        rewrite <-Hsame. apply Hy.
Qed.

Lemma wp_list_everything (P : result (list Backup * Z) → BackupStore → World → Prop) w s :
  World_ok w → (size (BackupStore_backups s) ≤ 1000)%nat →
  (∀ l w', same_oracles w w' → l ≡ₚ (map_to_list (BackupStore_backups s)).*2 →
     P (Ok (l, Z.of_nat (length l))) s w') →
  wp (backup_List (mkBackupFilter "" "" "" "" None 1000 0)) P w s.
Proof.
  intros Hw Hsize HP. unfold backup_List. rewrite wp_bind, wp_get, wp_bind.
  apply wp_list_in; [done|]. intros l w1 Hw1 Hl.
  assert (filter (backup_matches (mkBackupFilter "" "" "" "" None 1000 0))
    (map_to_list (BackupStore_backups s)).*2 = (map_to_list (BackupStore_backups s)).*2) as Hall.
  { apply filter_all. apply Forall_forall. intros x _. unfold backup_matches. cbn. tauto. }
  rewrite Hall in Hl. set (sorted := sort_Slice _ _).
  assert (sorted ≡ₚ (map_to_list (BackupStore_backups s)).*2) as Hs
    by (unfold sorted; by rewrite sort_Slice_perm).
  assert (length sorted = size (BackupStore_backups s)) as Hlen.
  { rewrite Hs, length_fmap. apply length_map_to_list. }
  assert (clipped sorted 1000 0 = Ok sorted) as Hclip.
  { unfold clipped, slice_range. rewrite Hlen.
    rewrite (decide_False (P := Z.of_nat (size (BackupStore_backups s)) < 0)) by lia.
    change (add64 0 1000) with 1000.
    assert ((if decide (1000 ≤ 0 ∨ Z.of_nat (size (BackupStore_backups s)) < 1000)
      then Z.of_nat (size (BackupStore_backups s)) else 1000) =
      Z.of_nat (size (BackupStore_backups s))) as -> by (case_decide; lia).
    rewrite decide_True by lia. f_equal. cbn [Z.to_nat drop].
    rewrite Z.sub_0_r, Nat2Z.id, <-Hlen. by rewrite take_ge. }
  cbn [BackupFilter_Limit BackupFilter_Offset]. rewrite Hclip.
  rewrite wp_bind, wp_lift, wp_ret. by apply HP.
Qed.

(** Retention keeps what must be kept and deletes the rest: of at most a
    thousand backups (the call looks at no more) it deletes exactly the expired
    unprotected ones and reports their number, except the last verified backup,
    which stays however old it is. *)
Theorem retention_exact (policyID : string) (w : World) st (p : Policy) :
  World_ok w → backups_ok st →
  BackupStore_policies (be_repo st.1) !! policyID = Some p → (size (backups_of st) ≤ 1000)%nat →
  let call := ApplyRetentionPolicy auth has_audit policyID in
  let st' := exec call w st in
  ∃ cutoff gone, (∃ w1, cutoff = now_of w1 - Policy_RetentionDays p * (24 * Hour)) ∧
    answer call w st = Ok (Z.of_nat (length gone)) ∧ NoDup gone ∧
    (∀ i b, backups_of st' !! i = Some b ↔ backups_of st !! i = Some b ∧ i ∉ gone) ∧
    (∀ i, i ∈ gone → ∃ b, backups_of st !! i = Some b ∧
       Backup_IsProtectedPoint b = false ∧ Backup_CreatedAt b < cutoff) ∧
    (∀ i b, backups_of st' !! i = Some b → Backup_IsProtectedPoint b = false →
       Backup_CreatedAt b < cutoff → Backup_Status b = BackupVerified ∧
       ∀ j x, verified_in st' j x → j = i).
Proof.
  intros Hw Hok Hp Hsize call.
  assert (wp call (λ r st' _, ∃ w1 bs gone,
    bs ≡ₚ (map_to_list (backups_of st)).*2 ∧
    pruned (now_of w1 - Policy_RetentionDays p * (24 * Hour)) bs st st' gone ∧
    r = Ok (Z.of_nat (length gone))) w st) as Hrun.
  { unfold call, ApplyRetentionPolicy. rewrite wp_bind. apply wp_backup_repo.
    unfold GetPolicy. rewrite wp_bind, wp_get, Hp, wp_ret. intros st1 Hr1 Ho1.
    rewrite wp_bind. apply wp_backup_repo. rewrite Hr1. apply wp_list_everything; [done..|].
    intros l w2 Hw2 Hl st2 Hr2 Ho2.
    assert (same_data st st2) as Hs2 by (split; congruence).
    assert (backups_of st2 = backups_of st) as Hb2 by (unfold backups_of; by rewrite Hr2).
    rewrite wp_bind, wp_now.
    assert (∀ b, b ∈ l → backups_of st !! Backup_ID b = Some b) as Hin.
    { intros b Hb. rewrite Hl in Hb. apply list_elem_of_fmap in Hb as ([k x] & -> & Hkx).
      apply elem_of_map_to_list in Hkx. cbn. by destruct (bk_filed st Hok k x Hkx) as [-> _]. }
    eapply wp_mono; [apply (prune_run _ l 0)|].
    - apply World_ok_tick. by eapply World_ok_same.
    - by apply (kept_data st st2).
    - rewrite Hl. rewrite <-list_fmap_compose.
      erewrite (list_fmap_ext _ fst); [apply NoDup_fst_map_to_list|].
      intros i [k x] Hi. apply list_elem_of_lookup_2, elem_of_map_to_list in Hi.
      by destruct (bk_filed st Hok k x Hi) as [? _].
    - apply Forall_forall. intros b Hb. rewrite Hb2. by apply Hin.
    - done.
    - assert (length l = size (backups_of st)) as ->
        by (rewrite Hl, length_fmap; apply length_map_to_list). unfold int64_ok. lia.
    - intros r st' w' (gone & Hpr & ->). exists w2, l, gone. split; [done|]. split; [|done].
      unfold time_AddDays in Hpr.
      replace (now_of w2 - Policy_RetentionDays p * (24 * Hour)) with
        (now_of w2 + - Policy_RetentionDays p * (24 * Hour)) by lia.
      destruct Hpr as [Hk Hl' Hg Hgn Hd]. split; [|by rewrite <-Hb2|done..].
      eapply kept_trans; [by apply (kept_data st st2)|done]. }
  apply wp_elim in Hrun. destruct Hrun as (w1 & bs & gone & Hbs & [Hk Hl Hg Hgn Hd] & Hans).
  intros st'. eexists _, gone. split; [by exists w1|]. split; [done|]. split; [done|].
  assert (∀ b, b ∈ bs ↔ ∃ k, backups_of st !! k = Some b) as Hmem.
  { intros b. rewrite Hbs, list_elem_of_fmap. split.
    - intros ([k x] & -> & Hkx). exists k. by apply elem_of_map_to_list.
    - intros [k Hk']. exists (k, b). split; [done|]. by apply elem_of_map_to_list. }
  split; [exact Hl|]. split.
  - intros i Hi. destruct (Hg i Hi) as (b & Hb & <- & Hexp). apply Hmem in Hb as [k Hkb].
    exists b. destruct (bk_filed st Hok k b Hkb) as [-> _]. by split.
  - intros i b Hb Hp' Hold. apply Hl in Hb as [Hb Hi].
    destruct (bk_filed st Hok i b Hb) as [Hid _].
    destruct (Hd b) as [Hv Hlast]; [apply Hmem; by exists i|done|by rewrite Hid|].
    split; [done|]. intros j x Hx. rewrite (Hlast j x Hx). done.
Qed.
End retention.
(** ** A site with backups *)

Section demo.
#[local] Existing Instances memory_storage memory_storage_laws tagging_digest EventRecorder
  MemoryAuditRepo InsertionSort.

(** A codec that shows the identifier only. *)
Definition demo_codec : BackupCodec := λ fields,
  match fields with (_, Some (AnyStr id)) :: _ => Ok ("{" +:+ id +:+ "}") | _ => Ok "{}" end.
Definition demo_clock : TimeFormat := λ _, "now".

#[local] Existing Instances demo_codec demo_clock.

(** Generated identifiers have 36 digits. *)
Definition uuids_at (t : Z) (k : nat) : World :=
  mkWorld (λ _, t) 0 (λ n, "00000000-0000-4000-8000-00000000000" +:+ pretty n) k (λ _ l, l) 0
    (λ _, 0) 0.

Definition vault : BackupEnv MemoryObjectStorage (list Event) * AuditStore :=
  (mkBackupEnv (NewMemoryBackupRepo 0) NewMemoryObjectStorage [], empty_audit).

Lemma vault_ok : backups_ok vault.
Proof. split; [intros k d; discriminate|intros i b; discriminate..]. Qed.

Definition nightly : go (BackupEnv MemoryObjectStorage (list Event) * AuditStore) Backup :=
  CreateBackup (Some DynamicAuthorizer) true true None (mkCreateBackupRequest "" "" "" "" None).

Definition sample : Backup :=
  mkBackup "" "" "" "" "" BackupPending "" "" "" 0 None false None "" 0 None None.
Definition first_night : Backup :=
  match answer nightly (uuids_at 0 0) vault with Ok b => b | Err _ => sample end.

Definition wipe : go (BackupEnv MemoryObjectStorage (list Event) * AuditStore) () :=
  DeleteBackup (Some DynamicAuthorizer) true None (Backup_ID first_night).

Lemma recovery_point_survives_witness :
  let st := exec wipe (uuids_at 9 5) (exec nightly (uuids_at 0 0) vault) in
  answer nightly (uuids_at 0 0) vault = Ok first_night ∧
  ∃ id b', verified_in st id b' ∧ ∀ sub' w',
    permitted (Some DynamicAuthorizer) sub' "backup:read" (Backup_Resource b') →
    ∃ data, answer (DownloadBackup (Some DynamicAuthorizer) sub' id) w' st = Ok (data, b') ∧
      sha256_hex data = Backup_ChecksumSHA256 b'.
Proof.
  intros st. assert (answer nightly (uuids_at 0 0) vault = Ok first_night) as Hans
    by (vm_compute; reflexivity). split; [exact Hans|].
  refine (proj1 (recovery_point_survives (Some DynamicAuthorizer) true true None
    (mkCreateBackupRequest "" "" "" "" None) (uuids_at 0 0) vault st first_night vault_ok _ Hans _)).
  - split; vm_compute; reflexivity.
  - apply rtc_once. apply b_delete.
Defined.

(** Two backups of the first day; the first is the protected point. *)
Definition two_nights : BackupEnv MemoryObjectStorage (list Event) * AuditStore :=
  exec nightly (uuids_at 0 5) (exec nightly (uuids_at 0 0) vault).

Definition monthly : go (BackupEnv MemoryObjectStorage (list Event) * AuditStore) Z :=
  ApplyRetentionPolicy (Some DynamicAuthorizer) true "policy-default-daily".

Lemma two_nights_ok : backups_ok two_nights.
Proof.
  apply (backup_steps_kept (Some DynamicAuthorizer) true true vault two_nights); [|exact vault_ok].
  eapply rtc_l; [|apply rtc_once].
  - apply (b_create _ _ _ (uuids_at 0 0) vault None (mkCreateBackupRequest "" "" "" "" None)).
    split; vm_compute; reflexivity.
  - apply (b_create _ _ _ (uuids_at 0 5) _ None (mkCreateBackupRequest "" "" "" "" None)).
    split; vm_compute; reflexivity.
Qed.

Lemma uuids_ok t k : World_ok (uuids_at t k).
Proof. intros n l. reflexivity. Qed.

Lemma polite_memory_Delete k : polite (object_Delete (O := MemoryObjectStorage) k).
Proof. intros w s. apply same_oracles_refl. Qed.
Lemma polite_memory_Record l : polite (Record_ (A := AuditStore) l).
Proof. unfold Record_, MemoryAuditRepo, audit_Record. polite. Qed.

Lemma retention_exact_witness : ∃ cutoff gone,
  (∃ w1, cutoff = now_of w1 - 30 * (24 * Hour)) ∧ length gone = 1%nat ∧
  ∀ i b, backups_of (exec monthly (uuids_at (40 * 24 * Hour) 0) two_nights) !! i = Some b ↔
    backups_of two_nights !! i = Some b ∧ i ∉ gone.
Proof.
  destruct (retention_exact (Some DynamicAuthorizer) true polite_memory_Delete polite_memory_Record
    "policy-default-daily" (uuids_at (40 * 24 * Hour) 0) two_nights (seedDefaultPolicy 0)
    (uuids_ok _ _) two_nights_ok) as (cutoff & gone & Hcut & Hans & _ & Hleft & _).
  - vm_compute. reflexivity.
  - apply Nat.leb_le. vm_compute. reflexivity.
  - exists cutoff, gone. split; [exact Hcut|]. split; [|exact Hleft].
    assert (Ok (Z.of_nat (length gone)) = Ok 1) as Hone
      by (rewrite <-Hans; vm_compute; reflexivity).
    injection Hone as Hone. lia.
Defined.

(** The protected point is the first backup and stays it: a later one is not,
    whatever the comment of the field says. *)
Lemma first_backup_stays_protected :
  (λ kv, (kv.1, Backup_IsProtectedPoint kv.2)) <$> map_to_list (backups_of two_nights) ≡ₚ
  [("00000000-0000-4000-8000-000000000000", true);
   ("00000000-0000-4000-8000-000000000005", false)].
Proof. vm_compute. apply perm_swap. Qed.

(** A policy that is not enabled prunes all the same. *)
Definition switched_off : Policy :=
  mkPolicy "off" "off" "" 1 100 "s3" true false 0 0.
Lemma disabled_policy_prunes :
  answer (ApplyRetentionPolicy (Some DynamicAuthorizer) true "off") (uuids_at (40 * 24 * Hour) 0)
    (exec (on_repo (CreatePolicy switched_off)) (uuids_at 0 0) two_nights) = Ok 1.
Proof. vm_compute. reflexivity. Qed.
End demo.
