(* ===== verification/Reconcile.v ===== *)
(** * State reconciliation

    [internal/domain/reconcile/reconcile.go],
    [internal/infra/memory/reconcile_repo.go] and
    [internal/app/reconcile/service.go]: the check that compares the records of
    instances, quotas, jobs and migrations with each other and repairs what it
    calls safe. It works on the repositories of five other components at once;
    the record [ReconcileEnv] holds their stores. *)

From S2P Require Import Prelude Identity AuditTrail Events Job Node Commands Instances Scheduler.
From S2P Require Import Quota Migration Objects Backup.

Definition SeveritySafeAutoRepair : string := "safe_auto_repair".
Definition SeverityUnsafeAdminRequired : string := "unsafe_admin_required".

Record Discrepancy : Type := mkDiscrepancy {
  Discrepancy_ResourceType : string;
  Discrepancy_ResourceID : string;
  Discrepancy_ResourceName : string;
  Discrepancy_Expected : string;
  Discrepancy_Actual : string;
  Discrepancy_Severity : string;
  Discrepancy_AutoRepaired : bool;
  Discrepancy_ActionTaken : string;
  Discrepancy_Reason : string
}.
#[export] Instance Discrepancy_eq_dec : EqDecision Discrepancy.
Proof. solve_decision. Defined.

Definition eta_Discrepancy (r : Discrepancy) : Discrepancy :=
  mkDiscrepancy (Discrepancy_ResourceType r) (Discrepancy_ResourceID r)
    (Discrepancy_ResourceName r) (Discrepancy_Expected r) (Discrepancy_Actual r)
    (Discrepancy_Severity r) (Discrepancy_AutoRepaired r) (Discrepancy_ActionTaken r)
    (Discrepancy_Reason r).
#[export] Instance set_Discrepancy_AutoRepaired : Setter Discrepancy_AutoRepaired := ltac:(setter eta_Discrepancy Discrepancy_AutoRepaired).
#[export] Instance set_Discrepancy_ActionTaken : Setter Discrepancy_ActionTaken := ltac:(setter eta_Discrepancy Discrepancy_ActionTaken).

Record Report : Type := mkReport {
  Report_ID : string;
  Report_Trigger : string;
  Report_DryRun : bool;
  Report_OrphanedInstancesCount : Z;
  Report_MissingNodesCount : Z;
  Report_StaleJobsCount : Z;
  Report_AbandonedMigrations : Z;
  Report_InconsistentQuotas : Z;
  Report_TotalDiscrepancies : Z;
  Report_RepairedCount : Z;
  Report_UnsafeCount : Z;
  Report_Discrepancies : list Discrepancy;
  Report_DurationMs : Z;
  Report_CreatedAt : Z
}.
#[export] Instance Report_eq_dec : EqDecision Report.
Proof. solve_decision. Defined.

Definition eta_Report (r : Report) : Report :=
  mkReport (Report_ID r) (Report_Trigger r) (Report_DryRun r)
    (Report_OrphanedInstancesCount r) (Report_MissingNodesCount r)
    (Report_StaleJobsCount r) (Report_AbandonedMigrations r)
    (Report_InconsistentQuotas r) (Report_TotalDiscrepancies r) (Report_RepairedCount r)
    (Report_UnsafeCount r) (Report_Discrepancies r) (Report_DurationMs r)
    (Report_CreatedAt r).
#[export] Instance set_Report_ID : Setter Report_ID := ltac:(setter eta_Report Report_ID).
#[export] Instance set_Report_OrphanedInstancesCount : Setter Report_OrphanedInstancesCount := ltac:(setter eta_Report Report_OrphanedInstancesCount).
#[export] Instance set_Report_StaleJobsCount : Setter Report_StaleJobsCount := ltac:(setter eta_Report Report_StaleJobsCount).
#[export] Instance set_Report_AbandonedMigrations : Setter Report_AbandonedMigrations := ltac:(setter eta_Report Report_AbandonedMigrations).
#[export] Instance set_Report_InconsistentQuotas : Setter Report_InconsistentQuotas := ltac:(setter eta_Report Report_InconsistentQuotas).
#[export] Instance set_Report_TotalDiscrepancies : Setter Report_TotalDiscrepancies := ltac:(setter eta_Report Report_TotalDiscrepancies).
#[export] Instance set_Report_RepairedCount : Setter Report_RepairedCount := ltac:(setter eta_Report Report_RepairedCount).
#[export] Instance set_Report_UnsafeCount : Setter Report_UnsafeCount := ltac:(setter eta_Report Report_UnsafeCount).
#[export] Instance set_Report_Discrepancies : Setter Report_Discrepancies := ltac:(setter eta_Report Report_Discrepancies).
#[export] Instance set_Report_DurationMs : Setter Report_DurationMs := ltac:(setter eta_Report Report_DurationMs).
#[export] Instance set_Report_CreatedAt : Setter Report_CreatedAt := ltac:(setter eta_Report Report_CreatedAt).

(** ** The repository of reports *)

Abbreviation ReportStore := (gmap string Report).

Definition SaveReport (rep : Report) : go ReportStore Report :=
  id ← or_uuid (Report_ID rep);
  created ← or_now (Report_CreatedAt rep);
  let rep := rep <| Report_ID := id |> <| Report_CreatedAt := created |> in
  modify <[id := rep]> ;;
  mret rep.

Definition report_newer (a b : Report) : bool := bool_decide (Report_CreatedAt b < Report_CreatedAt a).

(** No report is [nil], not an error. *)
Definition repo_GetLatestReport : go ReportStore (option Report) :=
  s ← get; l ← list_in s (λ _, True); mret (latest_of report_newer l).

Definition repo_ListReports `{SortSlice} (limit offset : Z) : go ReportStore (list Report * Z) :=
  s ← get;
  l ← list_in s (λ _, True);
  items ← lift (clipped (sort_Slice report_newer l) limit offset);
  mret (items, Z.of_nat (length l)).

(** ** The service *)

Record ReconcileEnv : Type := mkReconcileEnv {
  ReconcileEnv_reports : ReportStore;
  ReconcileEnv_instances : MemoryInstanceStore;
  ReconcileEnv_nodes : MemoryNodeStore;
  ReconcileEnv_jobs : MemoryJobStore;
  ReconcileEnv_migrations : MigrationStore;
  ReconcileEnv_billing : BillingStore
}.

Definition eta_ReconcileEnv (r : ReconcileEnv) : ReconcileEnv :=
  mkReconcileEnv (ReconcileEnv_reports r) (ReconcileEnv_instances r)
    (ReconcileEnv_nodes r) (ReconcileEnv_jobs r) (ReconcileEnv_migrations r)
    (ReconcileEnv_billing r).
#[export] Instance set_ReconcileEnv_reports : Setter ReconcileEnv_reports := ltac:(setter eta_ReconcileEnv ReconcileEnv_reports).
#[export] Instance set_ReconcileEnv_instances : Setter ReconcileEnv_instances := ltac:(setter eta_ReconcileEnv ReconcileEnv_instances).
#[export] Instance set_ReconcileEnv_nodes : Setter ReconcileEnv_nodes := ltac:(setter eta_ReconcileEnv ReconcileEnv_nodes).
#[export] Instance set_ReconcileEnv_jobs : Setter ReconcileEnv_jobs := ltac:(setter eta_ReconcileEnv ReconcileEnv_jobs).
#[export] Instance set_ReconcileEnv_migrations : Setter ReconcileEnv_migrations := ltac:(setter eta_ReconcileEnv ReconcileEnv_migrations).
#[export] Instance set_ReconcileEnv_billing : Setter ReconcileEnv_billing := ltac:(setter eta_ReconcileEnv ReconcileEnv_billing).

(** The usage of the tenants: tenant, resource, amount. *)
Abbreviation UsageMap := (gmap string (gmap string Z)).

Definition bump (key : string) (n : Z) (m : gmap string Z) : gmap string Z :=
  <[key := add64 (default 0 (m !! key)) n]> m.

Definition count_usage (i : Instance_) (u : UsageMap) : UsageMap :=
  if decide (Instance__Status i = StatusRunning ∨ Instance__Status i = StatusStopped) then
    <[Instance__UserID i :=
        bump "storage_mb" (quot64 (Instance__StorageBytes i) (1024 * 1024))
          (bump "memory_mb" (quot64 (Instance__MemoryBytes i) (1024 * 1024))
            (bump "vcpu" (Instance__CPUCores i)
              (bump "instances" 1 (default ∅ (u !! Instance__UserID i)))))]> u
  else u.

(** [nodeMap[n.ID] = n] for the nodes in turn. *)
Definition node_map (ns : list Node) : gmap string Node :=
  foldl (λ m n, <[Node_ID n := n]> m) ∅ ns.

(** [!nodeExists || (n.Status == StatusOffline && inst.Status == StatusRunning)]. *)
Definition orphaned (nodes : gmap string Node) (i : Instance_) : Prop :=
  match nodes !! Instance__NodeID i with
  | None => True
  | Some n => Node_Status n = StatusOffline ∧ Instance__Status i = StatusRunning
  end.
#[export] Instance orphaned_dec nodes i : Decision (orphaned nodes i).
Proof. unfold orphaned. case_match; apply _. Defined.

(** One more discrepancy of the kind [count]; a repaired one says how. *)
Definition noted (count : Report → Report) (d : Discrepancy) (r : Report) : Report :=
  let r := count r in
  r <| Report_TotalDiscrepancies := add64 (Report_TotalDiscrepancies r) 1 |>
    <| Report_Discrepancies := Report_Discrepancies r ++ [d] |>.

Definition repaired (action : string) (d : Discrepancy) : Discrepancy :=
  d <| Discrepancy_AutoRepaired := true |> <| Discrepancy_ActionTaken := action |>.
Definition count_repair (r : Report) : Report :=
  r <| Report_RepairedCount := add64 (Report_RepairedCount r) 1 |>.

Definition count_orphan (r : Report) : Report :=
  r <| Report_OrphanedInstancesCount := add64 (Report_OrphanedInstancesCount r) 1 |>.
Definition count_quota (r : Report) : Report :=
  r <| Report_InconsistentQuotas := add64 (Report_InconsistentQuotas r) 1 |>.
Definition count_job (r : Report) : Report :=
  r <| Report_StaleJobsCount := add64 (Report_StaleJobsCount r) 1 |>.
Definition count_migration (r : Report) : Report :=
  r <| Report_AbandonedMigrations := add64 (Report_AbandonedMigrations r) 1 |>
    <| Report_UnsafeCount := add64 (Report_UnsafeCount r) 1 |>.

Definition orphan_discrepancy (i : Instance_) : Discrepancy :=
  mkDiscrepancy "instance" (Instance__ID i) (Instance__Name i)
    ("node " +:+ Instance__NodeID i +:+ " online") "node unreachable or offline"
    SeveritySafeAutoRepair false "" "instance marked running on unreachable hypervisor host".

Definition quota_discrepancy (tenantID resKey : string) (expected actual : Z) : Discrepancy :=
  mkDiscrepancy "quota" (tenantID +:+ ":" +:+ resKey) "" (fmt_d expected) (fmt_d actual)
    SeveritySafeAutoRepair false ""
    "quota usage counter drifted from actual provisioned instances".

Definition job_discrepancy `{TimeFormat} (id : string) (lockedUntil : Z) : Discrepancy :=
  mkDiscrepancy "job" id "" "active worker lease"
    ("lease expired at " +:+ time_RFC3339 lockedUntil) SeveritySafeAutoRepair false ""
    "background worker lease timed out or worker crashed".

Definition migration_discrepancy (id : string) : Discrepancy :=
  mkDiscrepancy "migration" id "" "active migration transfer"
    "stalled transfer with no progress for > 5 minutes" SeverityUnsafeAdminRequired false ""
    "migration stalled, requires administrative review".

Section service.
Context {A : Type} `{!AuditRepository A, !SortSlice, !TimeFormat}.
Context (has_quotas has_jobs has_migrations has_audit : bool).
Abbreviation env := (ReconcileEnv * A)%type.

Definition on_instances {X} (m : go MemoryInstanceStore X) : go env X :=
  on_store (zoom ReconcileEnv_instances (λ x e, e <| ReconcileEnv_instances := x |>) m).
Definition on_nodes {X} (m : go MemoryNodeStore X) : go env X :=
  on_store (zoom ReconcileEnv_nodes (λ x e, e <| ReconcileEnv_nodes := x |>) m).
Definition on_jobs {X} (m : go MemoryJobStore X) : go env X :=
  on_store (zoom ReconcileEnv_jobs (λ x e, e <| ReconcileEnv_jobs := x |>) m).
Definition on_migrations {X} (m : go MigrationStore X) : go env X :=
  on_store (zoom ReconcileEnv_migrations (λ x e, e <| ReconcileEnv_migrations := x |>) m).
Definition on_billing {X} (m : go BillingStore X) : go env X :=
  on_store (zoom ReconcileEnv_billing (λ x e, e <| ReconcileEnv_billing := x |>) m).
Definition on_reports {X} (m : go ReportStore X) : go env X :=
  on_store (zoom ReconcileEnv_reports (λ x e, e <| ReconcileEnv_reports := x |>) m).

Context (dryRun : bool).

(** Step 2: the instances, with the usage they add up to. *)
Fixpoint check_instances (nodes : gmap string Node) (insts : list Instance_) (report : Report)
    (usage : UsageMap) : go env (Report * UsageMap) :=
  match insts with
  | [] => mret (report, usage)
  | i :: insts =>
      if decide (Instance__Status i = StatusDeleted) then check_instances nodes insts report usage
      else
        let usage := count_usage i usage in
        if decide (orphaned nodes i) then
          let d := orphan_discrepancy i in
          report ← (if dryRun then mret (noted count_orphan d report)
                    else
                      ignore (on_instances (InstanceUpdateStatus (Instance__ID i) StatusError "" "")) ;;
                      mret (noted (λ r, count_repair (count_orphan r))
                              (repaired "updated status to error" d) report));
          check_instances nodes insts report usage
        else check_instances nodes insts report usage
  end.

(** The metrics of one tenant, and the tenants in turn. *)
Fixpoint check_metrics (tenantID : string) (quotas : QuotaSet) (es : list (string * Z))
    (report : Report) : go env Report :=
  match es with
  | [] => mret report
  | (resKey, expectedVal) :: es =>
      match quotas !! resKey with
      | Some q =>
          if decide (Quota_CurrentUsage q ≠ expectedVal) then
            ignore (on_billing (quota_SetQuota (q <| Quota_CurrentUsage := expectedVal |>))) ;;
            check_metrics tenantID quotas es
              (noted (λ r, count_repair (count_quota r))
                 (repaired "recalculated and updated quota usage"
                    (quota_discrepancy tenantID resKey expectedVal (Quota_CurrentUsage q))) report)
          else check_metrics tenantID quotas es report
      | None => check_metrics tenantID quotas es report
      end
  end.

Fixpoint check_quotas (tenants : list (string * gmap string Z)) (report : Report) :
    go env Report :=
  match tenants with
  | [] => mret report
  | (tenantID, usage) :: tenants =>
      quotas ← try (on_billing (quota_ListQuotas tenantID));
      report ← match quotas with
               | Ok quotas =>
                   es ← range_map usage;
                   check_metrics tenantID quotas es report
               | Err _ => mret report
               end;
      check_quotas tenants report
  end.

(** Step 3: the running jobs whose lease ended half a minute ago. *)
Fixpoint check_jobs (jobs : list Job) (report : Report) : go env Report :=
  match jobs with
  | [] => mret report
  | j :: jobs =>
      match Job_LockedUntil j with
      | None => check_jobs jobs report
      | Some until =>
          now ← time_Now;
          if decide (until < time_Add now (-30 * Second)) then
            let d := job_discrepancy (Job_ID j) until in
            report ← (if dryRun then mret (noted count_job d report)
                      else
                        now ← time_Now;
                        ignore (on_jobs (ReclaimAbandonedJobs now)) ;;
                        mret (noted (λ r, count_repair (count_job r))
                          (repaired "reclaimed abandoned job and reset to pending" d) report));
            check_jobs jobs report
          else check_jobs jobs report
      end
  end.

(** Step 4: the transfers without progress for five minutes. *)
Fixpoint check_migrations (migs : list Migration) (report : Report) : go env Report :=
  match migs with
  | [] => mret report
  | m :: migs =>
      now ← time_Now;
      check_migrations migs
        (if decide (Migration_UpdatedAt m < time_Add now (-5 * Minute))
         then noted count_migration (migration_discrepancy (Migration_ID m)) report else report)
  end.

Definition instance_step_of_check (ns : list Node) (report : Report) : go env Report :=
  instances ← try (on_instances ListAll);
  match instances with
  | Err _ => mret report
  | Ok instances =>
      '(report, usage) ← check_instances (node_map ns) instances report ∅;
      if has_quotas && negb dryRun then
        es ← range_map usage; check_quotas es report
      else mret report
  end.

Definition job_step_of_check (report : Report) : go env Report :=
  if has_jobs then
    jobs ← try (on_jobs (JobList (mkJobFilter "" "" Job.StatusRunning "" "" 500 0)));
    match jobs with
    | Ok (jobs, _) => check_jobs jobs report
    | Err _ => mret report
    end
  else mret report.

Definition migration_step_of_check (report : Report) : go env Report :=
  if has_migrations then
    migs ← try (on_migrations (mig_List (mkMigrationFilter "" "" "" "" (Some MigTransferring) 100 0)));
    match migs with
    | Ok (migs, _) => check_migrations migs report
    | Err _ => mret report
    end
  else mret report.

Definition audit_reconciled (trigger reportID : string) (report : Report) : go env () :=
  if has_audit then
    now ← time_Now;
    ignore (zoom snd (λ a s, (fst s, a))
      (Record_ (mkAuditLog 0 (Some "system:reconciler") "" "" "system.reconciled" "system"
        (Some reportID) "" 200
        (Some (details
          [("dryRun", AnyBool dryRun); ("trigger", AnyStr trigger);
           ("totalDiscrepancies", AnyInt (Report_TotalDiscrepancies report));
           ("repairedCount", AnyInt (Report_RepairedCount report));
           ("unsafeCount", AnyInt (Report_UnsafeCount report));
           ("durationMs", AnyInt (Report_DurationMs report))])) "" "" "" now)))
  else mret ().

Definition Reconcile (trigger : string) : go env Report :=
  startTime ← time_Now;
  reportID ← uuid_NewString;
  let report := mkReport reportID trigger dryRun 0 0 0 0 0 0 0 0 [] 0 startTime in
  ns ← wrap_err (λ err, Wrapf ("failed to list nodes for reconciliation: " +:+ Error err) err)
         (on_nodes NodeList);
  report ← instance_step_of_check ns report;
  report ← job_step_of_check report;
  report ← migration_step_of_check report;
  now ← time_Now;
  let report := report <| Report_DurationMs := Z.quot (time_Sub now startTime) (10 ^ 6) |> in
  saved ← try (on_reports (SaveReport report));
  let report := match saved with Ok r => r | Err _ => report end in
  audit_reconciled trigger reportID report ;;
  mret report.

Definition GetLatestReport : go env (option Report) := on_reports repo_GetLatestReport.
Definition ListReports (limit offset : Z) : go env (list Report * Z) :=
  on_reports (repo_ListReports limit offset).
End service.

(** ** Reports add up *)

(** A discrepancy is repaired exactly when it is safe to and asked for. *)
Definition honest (dryRun : bool) (d : Discrepancy) : Prop :=
  (Discrepancy_Severity d = SeveritySafeAutoRepair ∧ Discrepancy_AutoRepaired d = negb dryRun) ∨
  (Discrepancy_Severity d = SeverityUnsafeAdminRequired ∧ Discrepancy_AutoRepaired d = false).

Definition how_many (P : Discrepancy → Prop) `{!∀ d, Decision (P d)} (r : Report) : Z :=
  wrap64 (Z.of_nat (length (filter P (Report_Discrepancies r)))).

Record adds_up (dryRun : bool) (r : Report) : Prop := {
  au_dry : Report_DryRun r = dryRun;
  au_total : Report_TotalDiscrepancies r = how_many (λ _, True) r;
  au_repaired : Report_RepairedCount r = how_many (λ d, Discrepancy_AutoRepaired d = true) r;
  au_unsafe : Report_UnsafeCount r =
    how_many (λ d, Discrepancy_Severity d = SeverityUnsafeAdminRequired) r;
  au_honest : Forall (honest dryRun) (Report_Discrepancies r)
}.

Lemma how_many_app (P : Discrepancy → Prop) `{!∀ d, Decision (P d)} ds d :
  wrap64 (Z.of_nat (length (filter P (ds ++ [d])))) =
  (if decide (P d) then add64 (wrap64 (Z.of_nat (length (filter P ds)))) 1
   else wrap64 (Z.of_nat (length (filter P ds)))).
Proof.
  rewrite filter_app, length_app, filter_cons. case_decide; cbn [filter list_filter length].
  - unfold add64. rewrite wrap64_add_l. f_equal. simpl. lia.
  - f_equal. simpl. lia.
Qed.

(** What the counters of one kind of discrepancy leave alone. *)
Definition counts_aside (count : Report → Report) : Prop := ∀ r,
  Report_DryRun (count r) = Report_DryRun r ∧
  Report_TotalDiscrepancies (count r) = Report_TotalDiscrepancies r ∧
  Report_RepairedCount (count r) = Report_RepairedCount r ∧
  Report_UnsafeCount (count r) = Report_UnsafeCount r ∧
  Report_Discrepancies (count r) = Report_Discrepancies r.

Lemma orphan_aside : counts_aside count_orphan.
Proof. by intros []. Qed.
Lemma quota_aside : counts_aside count_quota.
Proof. by intros []. Qed.
Lemma job_aside : counts_aside count_job.
Proof. by intros []. Qed.

Lemma adds_up_found count d r :
  counts_aside count → Discrepancy_Severity d = SeveritySafeAutoRepair →
  Discrepancy_AutoRepaired d = false → adds_up true r → adds_up true (noted count d r).
Proof.
  intros Hc Hs Ha [Hd Ht Hr Hu Hh]. destruct (Hc r) as (C1 & C2 & C3 & C4 & C5).
  unfold noted. split; unfold how_many in *; cbn -[wrap64]; rewrite ?C1, ?C2, ?C3, ?C4, ?C5.
  - done.
  - by rewrite how_many_app, decide_True, Ht.
  - by rewrite how_many_app, decide_False, Hr by congruence.
  - rewrite how_many_app, decide_False, Hu by (by rewrite Hs). done.
  - apply Forall_app. split; [done|]. constructor; [|done]. by left.
Qed.

Lemma adds_up_repaired count d action r :
  counts_aside count → Discrepancy_Severity d = SeveritySafeAutoRepair → adds_up false r →
  adds_up false (noted (λ r, count_repair (count r)) (repaired action d) r).
Proof.
  intros Hc Hs [Hd Ht Hr Hu Hh]. destruct (Hc r) as (C1 & C2 & C3 & C4 & C5).
  unfold noted. split; unfold how_many in *; cbn -[wrap64]; rewrite ?C1, ?C2, ?C3, ?C4, ?C5.
  - done.
  - by rewrite how_many_app, decide_True, Ht.
  - by rewrite how_many_app, decide_True, Hr.
  - rewrite how_many_app, decide_False, Hu by (cbn; by rewrite Hs). done.
  - apply Forall_app. split; [done|]. constructor; [|done]. by left.
Qed.

Lemma adds_up_unsafe dryRun id r :
  adds_up dryRun r → adds_up dryRun (noted count_migration (migration_discrepancy id) r).
Proof.
  intros [Hd Ht Hr Hu Hh]. unfold noted. split; unfold how_many in *; cbn -[wrap64].
  - done.
  - by rewrite how_many_app, decide_True, Ht.
  - rewrite how_many_app, decide_False, Hr by done. done.
  - by rewrite how_many_app, decide_True, Hu.
  - apply Forall_app. split; [done|]. constructor; [|done]. by right.
Qed.

(** ** What a check repairs *)

Section repairs.
Context {A : Type} `{!AuditRepository A, !SortSlice, !TimeFormat}.
Context (has_quotas has_jobs has_migrations has_audit : bool) (dryRun : bool).
Abbreviation env := (ReconcileEnv * A)%type.
Implicit Types (st : env) (i : Instance_).

Definition fleet st : MemoryInstanceStore := ReconcileEnv_instances st.1.
Definition with_fleet st (s : MemoryInstanceStore) : env :=
  (st.1 <| ReconcileEnv_instances := s |>, st.2).

Lemma with_fleet_twice st s s' : with_fleet (with_fleet st s) s' = with_fleet st s'.
Proof. done. Qed.
Lemma with_fleet_same st : with_fleet st (fleet st) = st.
Proof. by destruct st as [[] a]. Qed.

(** *** Instances *)

Lemma update_instance_at id f w s k :
  instance_store_ok s →
  instance_at (exec (update_instance id f) w s) k =
    (if decide (k = id) then f (now_of w) <$> instance_at s id else instance_at s k).
Proof.
  intros Hok. unfold exec, update_instance, mbind, go_bind, get, load_instance, instance_at.
  destruct (MemoryInstanceStore_instances s !! id) as [p|] eqn:Hp; simpl.
  2:{ case_decide; [subst k; by rewrite Hp|done]. }
  destruct (oki_ids s Hok _ _ Hp) as (i & Hi & _). rewrite Hi. simpl.
  case_decide as Hk; [subst k; rewrite Hp; simpl; by rewrite lookup_insert_eq|].
  destruct (MemoryInstanceStore_instances s !! k) as [q|] eqn:Hq; [|done]. simpl.
  rewrite lookup_insert_ne; [done|]. intros <-. apply Hk. exact (instances_inj s k id p Hok Hq Hp).
Qed.

(** The record after the check. *)
Definition mended (nodes : gmap string Node) i (now : Z) : Instance_ :=
  if decide (dryRun = false ∧ Instance__Status i ≠ StatusDeleted ∧ orphaned nodes i)
  then i <| Instance__Status := StatusError |> <| Instance__UpdatedAt := now |> else i.

(** The instances of [insts] are mended, the others are as they were. *)
Definition fleet_mended (nodes : gmap string Node) (insts : list Instance_)
    (s s' : MemoryInstanceStore) : Prop :=
  instance_store_ok s' ∧
  (∀ id, id ∉ (Instance__ID <$> insts) → instance_at s' id = instance_at s id) ∧
  (∀ i, i ∈ insts → ∃ now, instance_at s' (Instance__ID i) = Some (mended nodes i now)).

Definition known_usage (u : UsageMap) : Prop := ∀ tenant m k n,
  u !! tenant = Some m → m !! k = Some n → k ∈ ["instances"; "vcpu"; "memory_mb"; "storage_mb"].

Lemma known_bump key n m : key ∈ ["instances"; "vcpu"; "memory_mb"; "storage_mb"] →
  (∀ k v, m !! k = Some v → k ∈ ["instances"; "vcpu"; "memory_mb"; "storage_mb"]) →
  ∀ k v, bump key n m !! k = Some v → k ∈ ["instances"; "vcpu"; "memory_mb"; "storage_mb"].
Proof.
  intros Hkey Hm k v. unfold bump. rewrite lookup_insert. case_decide; [by subst|apply Hm].
Qed.

Lemma known_count i u : known_usage u → known_usage (count_usage i u).
Proof.
  intros Hu tenant m k n. unfold count_usage. case_decide; [|apply Hu].
  rewrite lookup_insert. case_decide; [|apply Hu]. intros [= <-].
  apply known_bump; [set_solver|]. apply known_bump; [set_solver|]. apply known_bump; [set_solver|].
  apply known_bump; [set_solver|]. intros k' v'.
  destruct (u !! Instance__UserID i) as [m'|] eqn:Hm; [|done]. simpl. by eapply Hu.
Qed.

(** One instance of the loop. *)
Lemma wp_mend nodes i (P : result Report → env → World → Prop) w st report :
  instance_store_ok (fleet st) → instance_at (fleet st) (Instance__ID i) = Some i →
  Instance__Status i ≠ StatusDeleted → orphaned nodes i → adds_up dryRun report →
  (∀ s' w' rep, same_oracles w w' → fleet_mended nodes [i] (fleet st) s' → adds_up dryRun rep →
     P (Ok rep) (with_fleet st s') w') →
  wp (if dryRun then mret (noted count_orphan (orphan_discrepancy i) report)
      else ignore (on_instances (InstanceUpdateStatus (Instance__ID i) StatusError "" "")) ;;
           mret (noted (λ r, count_repair (count_orphan r))
                   (repaired "updated status to error" (orphan_discrepancy i)) report)) P w st.
Proof.
  intros Hok Hi Hdel Horph Hrep HP. unfold fleet_mended, mended in HP. destruct dryRun.
  - rewrite wp_ret, <-(with_fleet_same st). apply HP; [apply same_oracles_refl| |].
    + split_and!; [done|done|]. intros x ->%list_elem_of_singleton. exists 0.
      by rewrite decide_False by (intros [? _]; congruence).
    + by apply adds_up_found; [apply orphan_aside|..].
  - rewrite wp_bind, wp_ignore. unfold on_instances, on_store. rewrite !wp_zoom. apply wp_elim.
    rewrite wp_ret. unfold InstanceUpdateStatus. set (f := λ now i, _).
    assert (∀ now x, Instance__ID (f now x) = Instance__ID x ∧ Instance__Name (f now x) = Instance__Name x)
      as Hf by done.
    pose proof (update_instance_run (Instance__ID i) f w (fleet st) Hok) as Hrun. rewrite Hi in Hrun.
    destruct Hrun as (s' & rest & Hrun & _).
    pose proof (update_instance_ok (Instance__ID i) f w (fleet st) Hf Hok) as Hok'.
    pose proof (λ k, update_instance_at (Instance__ID i) f w (fleet st) k Hok) as Hat.
    unfold fleet in *. unfold exec, world in *. rewrite Hrun in *. cbn [fst snd] in *.
    apply (HP s' (tick w)); [by split_and!| |by apply adds_up_repaired; [apply orphan_aside|..]].
    split_and!; [done| |].
    + intros k Hk. rewrite Hat, decide_False; [done|]. set_solver.
    + intros x ->%list_elem_of_singleton. exists (now_of w). rewrite decide_True by done.
      by rewrite Hat, decide_True, Hi.
Qed.

Lemma check_instances_run nodes insts : ∀ report usage w st,
  instance_store_ok (fleet st) → NoDup (Instance__ID <$> insts) →
  (∀ i, i ∈ insts → instance_at (fleet st) (Instance__ID i) = Some i) →
  adds_up dryRun report → known_usage usage →
  wp (check_instances dryRun nodes insts report usage) (λ r st' w', same_oracles w w' ∧
    ∃ rep us s', r = Ok (rep, us) ∧ st' = with_fleet st s' ∧
      fleet_mended nodes insts (fleet st) s' ∧ adds_up dryRun rep ∧ known_usage us) w st.
Proof.
  induction insts as [|i insts IH]; intros report usage w st Hok Hnd Hin Hrep Hus; cbn [check_instances].
  { rewrite wp_ret. split; [apply same_oracles_refl|]. exists report, usage, (fleet st).
    split_and!; [done|by rewrite with_fleet_same| |done|done]. split_and!; [done|done|set_solver]. }
  cbn in Hnd. apply NoDup_cons in Hnd as [Hnew Hnd].
  assert (∀ us, known_usage us →
    (dryRun = false → Instance__Status i ≠ StatusDeleted → ¬ orphaned nodes i) →
    wp (check_instances dryRun nodes insts report us) (λ r st' w', same_oracles w w' ∧
      ∃ rep us s', r = Ok (rep, us) ∧ st' = with_fleet st s' ∧
      fleet_mended nodes (i :: insts) (fleet st) s' ∧ adds_up dryRun rep ∧ known_usage us) w st) as Hskip.
  { intros us Hus' Hno. eapply wp_mono; [apply IH; try done; set_solver|].
    intros r st' w' (Ho & rep & us' & s' & -> & -> & (Hok' & Hout & Hfix) & Hrep' & Hus'').
    split; [done|]. exists rep, us', s'. split_and!; try done. split_and!; [done| |].
    - intros id Hid. apply Hout. set_solver.
    - intros x [->|Hx]%elem_of_cons; [|by apply Hfix]. exists 0. unfold mended.
      rewrite decide_False by tauto. rewrite Hout by done. apply Hin. set_solver. }
  destruct (decide (Instance__Status i = StatusDeleted)) as [Hd|Hd]; [apply Hskip; [done|tauto]|].
  destruct (decide (orphaned nodes i)) as [Horph|Horph]; [|apply Hskip; [by apply known_count|tauto]].
  rewrite wp_bind. apply (wp_mend nodes); [done|apply Hin; set_solver|done..|].
  intros s1 w1 rep1 Ho1 (Hok1 & Hout1 & Hfix1) Hrep1.
  eapply wp_mono; [apply (IH rep1 (count_usage i usage) w1 (with_fleet st s1)); try done|].
  - intros x Hx. change (fleet (with_fleet st s1)) with s1. rewrite Hout1; [apply Hin; set_solver|].
    intros Hx'. apply Hnew. apply list_elem_of_fmap. exists x. split; [|done].
    set_solver.
  - by apply known_count.
  - intros r st' w' (Ho & rep & us' & s' & -> & -> & (Hok' & Hout & Hfix) & Hrep' & Hus'').
    split; [by eapply same_oracles_trans|]. exists rep, us', s'.
    change (fleet (with_fleet st s1)) with s1 in *. split_and!; try done. split_and!; [done| |].
    + intros id Hid. rewrite Hout by set_solver. apply Hout1. set_solver.
    + intros x [->|Hx]%elem_of_cons; [|by apply Hfix]. rewrite Hout by done.
      apply Hfix1. set_solver.
Qed.

(** *** Quotas *)

Definition with_billing st (b : BillingStore) : env := (st.1 <| ReconcileEnv_billing := b |>, st.2).
Lemma with_billing_same st : with_billing st (ReconcileEnv_billing st.1) = st.
Proof. by destruct st as [[] a]. Qed.

(** The metrics the billing component reserves and meters. *)
Definition known_metrics : list string :=
  [MetricVCPUHours; MetricRAMGBHours; MetricStorageGBMonths; MetricIPv4Addresses;
   MetricSnapshotCount; MetricBackupStorageMB; MetricNetworkEgressGB; MetricInstanceCount].
Definition metered (b : BillingStore) : Prop := ∀ t m q,
  tenant_quotas b t !! m = Some q → m ∈ known_metrics.

Lemma check_metrics_run t quotas es : ∀ report w st,
  dryRun = false → adds_up dryRun report →
  wp (check_metrics t quotas es report) (λ r st' w', same_oracles w w' ∧
    ∃ rep b, r = Ok rep ∧ st' = with_billing st b ∧ adds_up dryRun rep ∧
      ((∀ k, k ∈ es.*1 → quotas !! k = None) →
       b = ReconcileEnv_billing st.1 ∧ rep = report)) w st.
Proof.
  intros report w st Hdry. revert report w st.
  induction es as [|[k n] es IH]; intros report w st Hrep; cbn [check_metrics].
  { rewrite wp_ret. split; [apply same_oracles_refl|]. eexists _, _.
    split_and!; [done|by rewrite with_billing_same|done|done]. }
  assert (wp (check_metrics t quotas es report) (λ r st' w', same_oracles w w' ∧
    ∃ rep b, r = Ok rep ∧ st' = with_billing st b ∧ adds_up dryRun rep ∧
      ((∀ k', k' ∈ ((k, n) :: es).*1 → quotas !! k' = None) →
       b = ReconcileEnv_billing st.1 ∧ rep = report)) w st) as Hskip.
  { eapply wp_mono; [by apply IH|]. intros r st' w' (Ho & rep & b & -> & -> & Hr & Hnone).
    split; [done|]. exists rep, b. split_and!; try done. intros Hk. apply Hnone. set_solver. }
  destruct (quotas !! k) as [q|] eqn:Hq; [|done]. case_decide as Hne; [|done].
  rewrite wp_bind, wp_ignore. unfold on_billing, on_store. rewrite !wp_zoom.
  unfold quota_SetQuota. wp_step. rewrite Hdry in *.
  eapply wp_mono; [apply IH|].
  { apply adds_up_repaired; [apply quota_aside|done..]. }
  intros r st' w' (Ho & rep & b & -> & -> & Hr & _).
  split; [exact Ho|]. eexists rep, b. split_and!; [done|done|done|].
  intros Hk. specialize (Hk k ltac:(set_solver)). congruence.
Qed.

Lemma check_quotas_run tenants : ∀ report w st,
  dryRun = false → adds_up dryRun report →
  wp (check_quotas tenants report) (λ r st' w', same_oracles w w' ∧
    ∃ rep b, r = Ok rep ∧ st' = with_billing st b ∧ adds_up dryRun rep ∧
      (metered (ReconcileEnv_billing st.1) →
       (∀ t u, (t, u) ∈ tenants → ∀ k n, u !! k = Some n →
          k ∈ ["instances"; "vcpu"; "memory_mb"; "storage_mb"]) →
       b = ReconcileEnv_billing st.1 ∧ rep = report)) w st.
Proof.
  intros report w st Hdry. revert report w st.
  induction tenants as [|[t u] tenants IH]; intros report w st Hrep; cbn [check_quotas].
  { rewrite wp_ret. split; [apply same_oracles_refl|]. eexists _, _.
    split_and!; [done|by rewrite with_billing_same|done|done]. }
  rewrite wp_bind, wp_try. unfold on_billing, on_store. rewrite !wp_zoom.
  unfold quota_ListQuotas. rewrite wp_bind, wp_get, wp_ret.
  change (st.1 <| ReconcileEnv_billing := ReconcileEnv_billing st.1 |>, st.2)
    with (with_billing st (ReconcileEnv_billing st.1)). rewrite with_billing_same.
  rewrite wp_bind, wp_bind, wp_range. set (es := entries _ u).
  eapply wp_mono; [by apply check_metrics_run|].
  intros r1 st1 w1 (Ho1 & rep1 & b1 & -> & -> & Hrep1 & Hnone1).
  eapply wp_mono; [by apply IH|]. intros r2 st2 w2 (Ho2 & rep2 & b2 & -> & -> & Hrep2 & Hnone2).
  split.
  { eapply same_oracles_trans; [|exact Ho2]. eapply same_oracles_trans; [|exact Ho1]. by split_and!. }
  exists rep2, b2. split_and!; [done|done|done|]. intros Hmet Hus.
  destruct Hnone1 as [-> ->].
  { intros k Hk. destruct (tenant_quotas _ t !! k) as [q|] eqn:Hq; [|done]. exfalso.
    apply Hmet in Hq. apply list_elem_of_fmap in Hk as ([k' n] & -> & Hkn). cbn in Hq.
    apply entries_sound in Hkn. apply (Hus t u) in Hkn; [|set_solver].
    unfold known_metrics, MetricVCPUHours, MetricRAMGBHours, MetricStorageGBMonths,
      MetricIPv4Addresses, MetricSnapshotCount, MetricBackupStorageMB, MetricNetworkEgressGB,
      MetricInstanceCount in Hq. clear -Hq Hkn. set_unfold. intuition congruence. }
  rewrite with_billing_same in Hnone2. apply Hnone2; [done|]. intros t' u' Htu.
  apply (Hus t' u'). set_solver.
Qed.

(** *** Jobs *)

Definition with_jobs st (s : MemoryJobStore) : env := (st.1 <| ReconcileEnv_jobs := s |>, st.2).
Lemma with_jobs_same st : with_jobs st (ReconcileEnv_jobs st.1) = st.
Proof. by destruct st as [[] a]. Qed.

(** Every job is as it was, or was running under a lease that had ended at some
    reading of the clock and is queued again. *)
Definition requeued (clock : nat → Z) (s s' : MemoryJobStore) : Prop :=
  MemoryJobStore_attempts s' = MemoryJobStore_attempts s ∧
  MemoryJobStore_leases s' = MemoryJobStore_leases s ∧
  ∀ id, match MemoryJobStore_jobs s !! id with
        | None => MemoryJobStore_jobs s' !! id = None
        | Some j => MemoryJobStore_jobs s' !! id = Some j ∨
            (∃ k, abandoned (clock k) j) ∧ MemoryJobStore_jobs s' !! id = Some (reclaimed j)
        end.

Lemma requeued_refl clock s : requeued clock s s.
Proof. split_and!; [done|done|]. intros id. destruct (_ !! id); [by left|done]. Qed.

Lemma recover_reclaimed cutoff j : recover cutoff (reclaimed j) = reclaimed j.
Proof. unfold recover. rewrite decide_False; [done|]. intros [Hst _]. by destruct j. Qed.

Lemma requeued_step clock k s s' : requeued clock s s' →
  requeued clock s (s' <| MemoryJobStore_jobs := recover (clock k) <$> MemoryJobStore_jobs s' |>).
Proof.
  intros (Ha & Hl & Hj). split_and!; [done|done|]. intros id. specialize (Hj id). simpl.
  rewrite lookup_fmap. destruct (MemoryJobStore_jobs s !! id) as [j|]; [|by rewrite Hj].
  destruct Hj as [->|[Hab ->]]; simpl.
  - unfold recover. case_decide as Hc; [right|by left]. split; [by exists k|done].
  - right. by rewrite recover_reclaimed.
Qed.

(** A reclaim by a check, as the step of the state it is. *)
Lemma wp_reclaim (P : result () → env → World → Prop) w st : World_ok w →
  (∀ w', same_oracles w w' → (w_tick w ≤ w_tick w')%nat →
     P (Ok ()) (with_jobs st ((ReconcileEnv_jobs st.1) <| MemoryJobStore_jobs :=
       recover (now_of w) <$> MemoryJobStore_jobs (ReconcileEnv_jobs st.1) |>)) w') →
  wp (now ← time_Now; ignore (on_jobs (ReclaimAbandonedJobs now))) P w st.
Proof.
  intros Hw HP. rewrite wp_bind, wp_now, wp_ignore. unfold on_jobs, on_store. rewrite !wp_zoom.
  rewrite wp_elim.
  destruct (reclaim_run (now_of w) (tick w) (ReconcileEnv_jobs st.1) Hw) as [-> _].
  apply HP; unfold ReclaimAbandonedJobs; go_unfold;
    destruct (reclaim_loop _ _ _); [by split_and!|simpl; lia].
Qed.

Lemma check_jobs_run clock jobs : ∀ report w st s0,
  World_ok w → w_clock w = clock → adds_up dryRun report →
  requeued clock s0 (ReconcileEnv_jobs st.1) →
  wp (check_jobs dryRun jobs report) (λ r st' w', same_oracles w w' ∧
    ∃ rep s, r = Ok rep ∧ st' = with_jobs st s ∧ adds_up dryRun rep ∧ requeued clock s0 s ∧
      (dryRun = true → s = ReconcileEnv_jobs st.1)) w st.
Proof.
  induction jobs as [|j jobs IH]; intros report w st s0 Hw Hck Hrep Hq; cbn [check_jobs].
  { rewrite wp_ret. split; [apply same_oracles_refl|]. eexists _, _.
    split_and!; [done|by rewrite with_jobs_same|done|done|done]. }
  destruct (Job_LockedUntil j) as [until|]; [|by apply IH].
  rewrite wp_bind, wp_now. case_decide; [|by apply (IH report (tick w))].
  rewrite wp_bind. destruct dryRun eqn:Hdry.
  - rewrite wp_ret. apply (IH _ (tick w)); [done|done| |done].
    by apply adds_up_found; [apply job_aside|..].
  - rewrite wp_bind, wp_now, wp_bind. pose proof (wp_reclaim (λ r st' w', r = Ok () ∧ ∃ k,
      same_oracles w w' ∧ st' = with_jobs st ((ReconcileEnv_jobs st.1) <| MemoryJobStore_jobs :=
        recover (clock k) <$> MemoryJobStore_jobs (ReconcileEnv_jobs st.1) |>)) (tick w) st Hw) as Hre.
    rewrite wp_bind, wp_now in Hre. eapply wp_mono; [apply Hre|].
    { intros w' Ho _. split; [done|]. exists (S (w_tick w)). split; [done|]. by rewrite <-Hck. }
    intros r1 st1 w1 (-> & k & Ho1 & ->). rewrite wp_ret.
    eapply wp_mono; [apply (IH _ w1 (with_jobs st _) s0)|].
    + by eapply World_ok_same.
    + destruct Ho1 as [-> _]. done.
    + by apply adds_up_repaired; [apply job_aside|..].
    + by apply requeued_step.
    + intros r st' w' (Ho & rep & s & -> & -> & Hr & Hs & _).
      split; [by eapply same_oracles_trans|]. by exists rep, s.
Qed.

(** *** Migrations *)

Lemma check_migrations_run migs : ∀ report w st,
  adds_up dryRun report →
  wp (check_migrations migs report) (λ r st' w', same_oracles w w' ∧ st' = st ∧
    ∃ rep, r = Ok rep ∧ adds_up dryRun rep) w st.
Proof.
  induction migs as [|m migs IH]; intros report w st Hrep; cbn [check_migrations].
  { rewrite wp_ret. split; [apply same_oracles_refl|]. split; [done|]. by exists report. }
  rewrite wp_bind, wp_now. apply (IH _ (tick w)). case_decide; [by apply adds_up_unsafe|done].
Qed.

(** *** The whole check *)

Lemma all_instances_ids (s : MemoryInstanceStore) :
  instance_store_ok s → NoDup (Instance__ID <$> all_instances s).
Proof.
  intros Hok. unfold all_instances.
  assert (∀ l, (∀ k p, (k, p) ∈ l → MemoryInstanceStore_instances s !! k = Some p) →
    Instance__ID <$> omap (λ kp : string * nat, MemoryInstanceStore_heap s !! kp.2) l = l.*1) as Hids.
  { induction l as [|[k p] l IH]; intros Hl; [done|]. cbn.
    destruct (oki_ids s Hok k p) as (i & -> & Hid & _); [apply Hl; set_solver|]. cbn.
    rewrite Hid. f_equal. apply IH. intros k' p' Hin. apply Hl. set_solver. }
  rewrite Hids; [apply NoDup_fst_map_to_list|]. intros k p. by rewrite elem_of_map_to_list.
Qed.

Lemma all_instances_at s i : instance_store_ok s →
  i ∈ all_instances s ↔ instance_at s (Instance__ID i) = Some i.
Proof.
  intros Hok. unfold all_instances, instance_at. rewrite list_elem_of_omap. split.
  - intros ([k p] & Hin & Hi). apply elem_of_map_to_list in Hin. cbn in Hi.
    destruct (oki_ids s Hok _ _ Hin) as (i' & Hi' & Hid & _).
    assert (i' = i) as -> by congruence. rewrite <-Hid in Hin. rewrite Hin. exact Hi.
  - destruct (MemoryInstanceStore_instances s !! Instance__ID i) as [p|] eqn:Hp; [|done].
    intros Hi. exists (Instance__ID i, p). by rewrite elem_of_map_to_list.
Qed.

Lemma node_map_at ns : NoDup (Node_ID <$> ns) →
  ∀ id n, node_map ns !! id = Some n ↔ n ∈ ns ∧ Node_ID n = id.
Proof.
  unfold node_map. assert (∀ (m : gmap string Node) id n, NoDup (Node_ID <$> ns) →
    ((foldl (λ m n, <[Node_ID n := n]> m) m ns) !! id = Some n ↔
     (n ∈ ns ∧ Node_ID n = id) ∨ ((id ∉ (Node_ID <$> ns)) ∧ m !! id = Some n))) as Hgen.
  { induction ns as [|x ns IH]; intros m id n Hnd; cbn [foldl].
    { split; [right; set_solver|]. intros [[Hin _]|[_ ?]]; [set_solver|done]. }
    cbn in Hnd. apply NoDup_cons in Hnd as [Hx Hnd]. rewrite IH by done.
    rewrite lookup_insert. cbn. case_decide as Hid.
    - subst id. split.
      + intros [[Hin Heq]|[_ [= <-]]]; [|left; set_solver]. exfalso. apply Hx. rewrite <-Heq.
        apply list_elem_of_fmap. by exists n.
      + intros [[[->|Hin]%elem_of_cons Heq]|[Hno _]]; [by right| |set_solver].
        exfalso. apply Hx. rewrite <-Heq. apply list_elem_of_fmap. by exists n.
    - split; (intros [[Hin Heq]|[Hno Hm]]; [left|right]); set_solver. }
  intros Hnd id n. rewrite Hgen by done. split; [|by left].
  intros [?|[_ He]]; [done|discriminate He].
Qed.

(** The instance is on a node the registry does not know, or runs on one that
    is offline. *)
Definition lost st i : Prop :=
  match node_at (ReconcileEnv_nodes st.1) (Instance__NodeID i) with
  | None => True
  | Some n => Node_Status n = StatusOffline ∧ Instance__Status i = StatusRunning
  end.

(** The stores after the check of the instances. *)
Definition after_instances st (s : MemoryInstanceStore) (b : BillingStore) : env :=
  with_billing (with_fleet st s) b.

Lemma wp_instances ns report (P : result Report → env → World → Prop) w st :
  World_ok w → instance_store_ok (fleet st) → adds_up dryRun report →
  (∀ r s b w' rep, r = Ok rep → same_oracles w w' → adds_up dryRun rep →
     fleet_mended (node_map ns) (all_instances (fleet st)) (fleet st) s →
     (dryRun = true → b = ReconcileEnv_billing st.1) →
     (metered (ReconcileEnv_billing st.1) → b = ReconcileEnv_billing st.1) →
     P r (after_instances st s b) w') →
  wp (instance_step_of_check has_quotas dryRun ns report) P w st.
Proof.
  intros Hw Hok Hrep HP. unfold instance_step_of_check. rewrite wp_bind, wp_try.
  unfold on_instances, on_store. rewrite !wp_zoom.
  destruct (ListAll_run w (fleet st) Hok Hw) as (l & Hrun & Hperm & Hin).
  apply (proj2 (wp_run _ _ _ _ _ _ _ Hrun)).
  change (st.1 <| ReconcileEnv_instances := fleet st |>, st.2) with (with_fleet st (fleet st)).
  rewrite with_fleet_same. fold (all_instances (fleet st)) in Hperm.
  assert (same_oracles w (next_range w)) as Ho0 by by split_and!.
  rewrite wp_bind. eapply wp_mono; [apply check_instances_run; try done|].
  - rewrite Hperm. by apply all_instances_ids.
  - intros i. apply Hin.
  - intros r st1 w1 (Ho1 & rep & us & s1 & -> & -> & (Hok1 & Hout & Hfix) & Hrep1 & Hus).
    assert (fleet_mended (node_map ns) (all_instances (fleet st)) (fleet st) s1) as Hmend.
    { split_and!; [done| |].
      - intros id Hid. apply Hout. by rewrite Hperm.
      - intros i Hi. apply Hfix. by rewrite Hperm. }
    assert (same_oracles w w1) as Hw1 by by eapply same_oracles_trans.
    assert (with_fleet st s1 = after_instances st s1 (ReconcileEnv_billing st.1)) as Est.
    { unfold after_instances. rewrite <-with_billing_same at 1. done. }
    destruct has_quotas; cbn [andb]; [|rewrite wp_ret, Est; by eapply HP].
    destruct (negb dryRun) eqn:Hdry; [|rewrite wp_ret, Est; by eapply HP].
    apply negb_true_iff in Hdry. rewrite wp_bind, wp_range.
    eapply wp_mono; [by apply check_quotas_run|].
    intros r st2 w2 (Ho2 & rep2 & b & -> & -> & Hrep2 & Hnone).
    eapply HP; [done| |done|done|congruence|].
    + eapply same_oracles_trans; [exact Hw1|]. eapply same_oracles_trans; [|exact Ho2]. by split_and!.
    + intros Hmet. apply Hnone; [done|]. intros t u Htu k n Hk.
      apply entries_sound in Htu. by eapply Hus.
Qed.

Lemma quiet_JobList f : quiet (JobList f).
Proof. unfold JobList. quiet. Qed.
Lemma quiet_mig_List f : quiet (mig_List f).
Proof. unfold mig_List. quiet. Qed.

Lemma wp_jobs report (P : result Report → env → World → Prop) w st :
  World_ok w → adds_up dryRun report →
  (∀ s w' rep, same_oracles w w' → adds_up dryRun rep →
     requeued (w_clock w) (ReconcileEnv_jobs st.1) s →
     (dryRun = true → s = ReconcileEnv_jobs st.1) → P (Ok rep) (with_jobs st s) w') →
  wp (job_step_of_check has_jobs dryRun report) P w st.
Proof.
  intros Hw Hrep HP. unfold job_step_of_check.
  assert (∀ w', same_oracles w w' → P (Ok report) st w') as Hskip.
  { intros w' Ho. rewrite <-(with_jobs_same st). apply HP; [done|done|apply requeued_refl|done]. }
  destruct has_jobs; [|rewrite wp_ret; apply Hskip, same_oracles_refl].
  rewrite wp_bind, wp_try. unfold on_jobs, on_store. rewrite !wp_zoom.
  apply wp_quiet; [apply quiet_JobList|]. intros r w1 Ho1.
  change (st.1 <| ReconcileEnv_jobs := ReconcileEnv_jobs st.1 |>, st.2)
    with (with_jobs st (ReconcileEnv_jobs st.1)). rewrite with_jobs_same.
  destruct r as [[jobs n]|e]; [|rewrite wp_ret; by apply Hskip].
  eapply wp_mono; [apply (check_jobs_run (w_clock w) jobs report w1 st (ReconcileEnv_jobs st.1))|].
  - by eapply World_ok_same.
  - by destruct Ho1 as [-> _].
  - done.
  - apply requeued_refl.
  - intros r st' w' (Ho & rep & s & -> & -> & Hr & Hq & Hs). apply HP; [|done..].
    by eapply same_oracles_trans.
Qed.

(** The lease ended half a minute before every reading from number [t] on. *)
Definition long_expired (clock : nat → Z) (t : nat) (j : Job) : Prop :=
  Job_Status j = Job.StatusRunning ∧
  ∃ until, Job_LockedUntil j = Some until ∧ ∀ k, (t ≤ k)%nat → until < clock k - 30 * Second.
Definition running_jobs (s : MemoryJobStore) : list Job :=
  filter (λ j, Job_Status j = Job.StatusRunning) (map_to_list (MemoryJobStore_jobs s)).*2.
Definition all_freed (clock : nat → Z) (t : nat) (s s' : MemoryJobStore) : Prop :=
  ∀ id j, MemoryJobStore_jobs s !! id = Some j → long_expired clock t j →
    MemoryJobStore_jobs s' !! id = Some (reclaimed j).

Lemma all_freed_step clock t k s s' : (t ≤ k)%nat → requeued clock s s' →
  all_freed clock t s (s' <| MemoryJobStore_jobs := recover (clock k) <$> MemoryJobStore_jobs s' |>).
Proof.
  intros Hk (_ & _ & Hj) id j Hid (Hst & until & Hu & Hlong). specialize (Hj id). rewrite Hid in Hj.
  simpl. rewrite lookup_fmap. destruct Hj as [->|[_ ->]]; simpl; [|by rewrite recover_reclaimed].
  unfold recover. rewrite decide_True; [done|]. split; [done|]. rewrite Hu.
  specialize (Hlong k Hk). unfold Second in Hlong. lia.
Qed.

Lemma all_freed_more clock t k s s' : all_freed clock t s s' →
  all_freed clock t s (s' <| MemoryJobStore_jobs := recover (clock k) <$> MemoryJobStore_jobs s' |>).
Proof.
  intros Hf id j Hid Hl. simpl. by rewrite lookup_fmap, (Hf id j Hid Hl); simpl; rewrite recover_reclaimed.
Qed.

(** A real check of jobs among which one is long expired frees them all. *)
Lemma check_jobs_frees clock t jobs : dryRun = false → ∀ report w st s0,
  World_ok w → w_clock w = clock → (t ≤ w_tick w)%nat → requeued clock s0 (ReconcileEnv_jobs st.1) →
  Exists (long_expired clock t) jobs ∨ all_freed clock t s0 (ReconcileEnv_jobs st.1) →
  wp (check_jobs dryRun jobs report) (λ _ st' _, all_freed clock t s0 (ReconcileEnv_jobs st'.1)) w st.
Proof.
  intros Hdry. induction jobs as [|j jobs IH]; intros report w st s0 Hw Hck Ht Hq Hor; cbn [check_jobs].
  { rewrite wp_ret. destruct Hor as [Hex|]; [by apply Exists_nil in Hex|done]. }
  assert (∀ w', w_clock w' = clock → (t ≤ w_tick w')%nat → World_ok w' →
    ¬ long_expired clock t j →
    wp (check_jobs dryRun jobs report) (λ _ st' _, all_freed clock t s0 (ReconcileEnv_jobs st'.1)) w' st)
    as Hskip.
  { intros w' Hck' Ht' Hw' Hno. apply IH; try done.
    destruct Hor as [[?|?]%Exists_cons|?]; [done|by left|by right]. }
  destruct (Job_LockedUntil j) as [until|] eqn:Hu.
  2:{ apply Hskip; try done. intros (_ & u & Hu' & _). congruence. }
  rewrite wp_bind, wp_now. case_decide as Hlate.
  2:{ apply Hskip; [done|cbn; lia|done|]. intros (_ & u & Hu' & Hl). apply Hlate.
      rewrite Hu in Hu'. injection Hu' as <-. specialize (Hl (w_tick w) Ht). unfold now_of, time_Add.
      rewrite Hck. lia. }
  rewrite wp_bind. replace dryRun with false by done.
  pose proof (wp_reclaim (λ r st' w', r = Ok () ∧ same_oracles w w' ∧ (t ≤ w_tick w')%nat ∧
    ∃ k, (t ≤ k)%nat ∧ st' = with_jobs st ((ReconcileEnv_jobs st.1) <| MemoryJobStore_jobs :=
      recover (clock k) <$> MemoryJobStore_jobs (ReconcileEnv_jobs st.1) |>)) (tick w) st Hw) as Hre.
  rewrite wp_bind, wp_now in Hre. rewrite wp_bind, wp_now, wp_bind. eapply wp_mono; [apply Hre|].
  { intros w' Ho Hle. cbn in Hle. split_and!; [done|done|lia|]. exists (S (w_tick w)).
    split; [lia|]. by rewrite <-Hck. }
  intros r1 st1 w1 (-> & Ho1 & Ht1 & k & Hk & ->). rewrite wp_ret. rewrite <-Hdry.
  apply IH; [by eapply World_ok_same|by destruct Ho1 as [-> _]|done|by apply requeued_step|].
  right. destruct Hor as [_|Hf]; [by apply all_freed_step|by apply all_freed_more].
Qed.

(** The job step of a real check over at most 500 running jobs. *)
Lemma job_step_frees report w st id j : World_ok w → dryRun = false → has_jobs = true →
  (length (running_jobs (ReconcileEnv_jobs st.1)) ≤ 500)%nat →
  MemoryJobStore_jobs (ReconcileEnv_jobs st.1) !! id = Some j → long_expired (w_clock w) (w_tick w) j →
  wp (job_step_of_check has_jobs dryRun report)
    (λ _ st' _, MemoryJobStore_jobs (ReconcileEnv_jobs st'.1) !! id = Some (reclaimed j)) w st.
Proof.
  intros Hw Hdry -> Hfew Hid Hlong. unfold job_step_of_check. rewrite wp_bind, wp_try. unfold on_jobs, on_store.
  rewrite !wp_zoom. unfold JobList. rewrite wp_bind, wp_get, wp_bind, wp_range.
  set (jobs := MemoryJobStore_jobs (ReconcileEnv_jobs st.1)) in *.
  set (f := mkJobFilter "" "" Job.StatusRunning "" "" 500 0).
  set (matched := sort_Slice job_newer (filter (job_matches f) (entries (w_order w (w_ranges w)) jobs).*2)).
  assert (matched ≡ₚ running_jobs (ReconcileEnv_jobs st.1)) as Hm.
  { unfold matched, running_jobs. fold jobs. rewrite sort_Slice_perm, (entries_perm _ _ (Hw _)).
    erewrite list_filter_iff; [done|]. intros y. unfold job_matches, f. cbn. naive_solver. }
  assert (window matched 500 0 = Ok matched) as Hwin.
  { assert (length matched ≤ 500)%nat as Hl by by rewrite Hm. unfold window. case_decide as Hz.
    - destruct matched; [done|cbn in Hz; lia].
    - change (add64 0 500) with 500. unfold slice_range.
      replace (if decide _ then _ else _) with (Z.of_nat (length matched)) by (case_decide; lia).
      rewrite decide_True by lia. f_equal. cbn [Z.to_nat drop]. rewrite Z.sub_0_r, Nat2Z.id.
      by rewrite take_ge. }
  change (JobFilter_Limit f) with 500. change (JobFilter_Offset f) with 0. rewrite Hwin.
  rewrite wp_bind, wp_lift, wp_ret. cbn beta iota.
  change (st.1 <| ReconcileEnv_jobs := ReconcileEnv_jobs st.1 |>, st.2)
    with (with_jobs st (ReconcileEnv_jobs st.1)). rewrite with_jobs_same.
  eapply wp_mono; [apply (check_jobs_frees (w_clock w) (w_tick w) matched Hdry report _ _
    (ReconcileEnv_jobs st.1)); [done|done|done|apply requeued_refl|left]|by eauto].
  apply Exists_exists. exists j. split; [|done]. rewrite Hm. apply list_elem_of_filter.
  split; [apply Hlong|]. apply list_elem_of_fmap. exists (id, j). split; [done|].
  by apply elem_of_map_to_list.
Qed.

Lemma wp_migrations report (P : result Report → env → World → Prop) w st :
  adds_up dryRun report →
  (∀ w' rep, adds_up dryRun rep → P (Ok rep) st w') →
  wp (migration_step_of_check has_migrations report) P w st.
Proof.
  intros Hrep HP. unfold migration_step_of_check.
  destruct has_migrations; [|rewrite wp_ret; by apply HP].
  rewrite wp_bind, wp_try. unfold on_migrations, on_store. rewrite !wp_zoom.
  apply wp_quiet; [apply quiet_mig_List|]. intros r w1 _.
  assert ((st.1 <| ReconcileEnv_migrations := ReconcileEnv_migrations st.1 |>, st.2) = st) as ->
    by by destruct st as [[] a].
  destruct r as [[migs n]|e]; [|rewrite wp_ret; by apply HP].
  eapply wp_mono; [by apply check_migrations_run|]. intros r st' w' (_ & -> & rep & -> & Hr).
  by apply HP.
Qed.

Lemma wp_SaveReport rep (P : result Report → ReportStore → World → Prop) w s :
  (∀ id c s' w', P (Ok ((rep <| Report_ID := id |>) <| Report_CreatedAt := c |>)) s' w') →
  wp (SaveReport rep) P w s.
Proof.
  intros HP. unfold SaveReport, or_uuid, or_now.
  repeat (case_decide; wp_step); rewrite ?wp_bind, ?wp_modify, ?wp_ret; apply HP.
Qed.

Lemma adds_up_stamped id t c d r : adds_up d r →
  adds_up d ((r <| Report_DurationMs := t |>) <| Report_ID := id |> <| Report_CreatedAt := c |>).
Proof. by intros [? ? ? ? ?]. Qed.

Lemma wp_audit_reconciled trigger id report (P : result () → env → World → Prop) w st :
  (∀ a w', P (Ok ()) (st.1, a) w') → wp (audit_reconciled has_audit dryRun trigger id report) P w st.
Proof.
  intros HP. unfold audit_reconciled. destruct has_audit.
  - rewrite wp_bind, wp_now, wp_ignore, wp_zoom. apply wp_elim. apply HP.
  - rewrite wp_ret. destruct st as [e a]. apply HP.
Qed.

Record reconcile_ok st : Prop := {
  ro_fleet : instance_store_ok (fleet st);
  ro_nodes : node_store_ok (ReconcileEnv_nodes st.1)
}.

(** The instance is put into the error state by this check. *)
Definition condemned st i : Prop :=
  dryRun = false ∧ Instance__Status i ≠ StatusDeleted ∧ lost st i.
#[local] Instance condemned_dec st i : Decision (condemned st i).
Proof. unfold condemned, lost. destruct (node_at _ _); apply _. Defined.

(** What a check does to the stores. *)
Record reconciled (clock : nat → Z) st st' : Prop := {
  rc_nodes : ReconcileEnv_nodes st'.1 = ReconcileEnv_nodes st.1;
  rc_migrations : ReconcileEnv_migrations st'.1 = ReconcileEnv_migrations st.1;
  rc_fleet : ∀ id, match instance_at (fleet st) id with
    | None => instance_at (fleet st') id = None
    | Some i => ∃ now, instance_at (fleet st') id = Some
        (if decide (condemned st i)
         then (i <| Instance__Status := StatusError |>) <| Instance__UpdatedAt := now |> else i)
    end;
  rc_jobs : requeued clock (ReconcileEnv_jobs st.1) (ReconcileEnv_jobs st'.1);
  rc_dry : dryRun = true → ReconcileEnv_jobs st'.1 = ReconcileEnv_jobs st.1 ∧
    ReconcileEnv_billing st'.1 = ReconcileEnv_billing st.1;
  rc_metered : metered (ReconcileEnv_billing st.1) →
    ReconcileEnv_billing st'.1 = ReconcileEnv_billing st.1
}.

Lemma orphaned_lost st ns i : NoDup (Node_ID <$> ns) →
  (∀ n, n ∈ ns ↔ node_at (ReconcileEnv_nodes st.1) (Node_ID n) = Some n) →
  (∀ id n, node_at (ReconcileEnv_nodes st.1) id = Some n → Node_ID n = id) →
  orphaned (node_map ns) i ↔ lost st i.
Proof.
  intros Hnd Hns Hid. unfold orphaned, lost.
  assert (node_map ns !! Instance__NodeID i =
    node_at (ReconcileEnv_nodes st.1) (Instance__NodeID i)) as ->; [|done].
  apply option_eq. intros n. rewrite node_map_at, Hns by done. split.
  - by intros [? <-].
  - intros Hn. pose proof (Hid _ _ Hn) as Heq. by rewrite Heq.
Qed.

Lemma fleet_mended_at st ns s id : instance_store_ok (fleet st) →
  (∀ i, orphaned (node_map ns) i ↔ lost st i) →
  fleet_mended (node_map ns) (all_instances (fleet st)) (fleet st) s →
  match instance_at (fleet st) id with
  | None => instance_at s id = None
  | Some i => ∃ now, instance_at s id = Some
      (if decide (condemned st i)
       then (i <| Instance__Status := StatusError |>) <| Instance__UpdatedAt := now |> else i)
  end.
Proof.
  intros Hok Hlost (_ & Hout & Hfix).
  destruct (instance_at (fleet st) id) as [i|] eqn:Hi.
  - pose proof (instance_at_ID _ _ _ Hok Hi) as <-.
    destruct (Hfix i) as [now Hnow]; [by apply all_instances_at|]. exists now. rewrite Hnow.
    unfold mended. f_equal. apply decide_ext. unfold condemned. by rewrite Hlost.
  - rewrite Hout; [done|]. intros (i & -> & Hin)%list_elem_of_fmap.
    apply all_instances_at in Hin; [|done]. congruence.
Qed.

(** What a check does and answers. *)
Lemma Reconcile_effect trigger w st : reconcile_ok st → World_ok w →
  wp (Reconcile has_quotas has_jobs has_migrations has_audit dryRun trigger)
    (λ r st' _, (∃ rep, r = Ok rep ∧ adds_up dryRun rep) ∧ reconciled (w_clock w) st st') w st.
Proof.
  intros [Hok Hnodes] Hw. unfold Reconcile. rewrite wp_bind, wp_now, wp_bind, wp_uuid.
  set (w1 := next_uuid (tick w)). set (report := mkReport _ _ _ _ _ _ _ _ _ _ _ _ _).
  rewrite wp_bind, wp_wrap_err. unfold on_nodes, on_store. rewrite !wp_zoom.
  destruct (NodeList_run w1 (ReconcileEnv_nodes st.1) Hnodes Hw) as (ns & Hrun & Hnd & Hns).
  apply (proj2 (wp_run _ _ _ _ _ _ _ Hrun)).
  assert ((st.1 <| ReconcileEnv_nodes := ReconcileEnv_nodes st.1 |>, st.2) = st) as ->
    by by destruct st as [[] a].
  assert (∀ i, orphaned (node_map ns) i ↔ lost st i) as Hlost.
  { intros i. apply orphaned_lost; [done|done|]. intros id n. by apply node_at_id. }
  rewrite wp_bind. apply wp_instances; [done|done|by split|].
  intros r s b w2 rep -> Ho2 Hrep Hmend Hdryb Hmet.
  rewrite wp_bind. apply wp_jobs; [by eapply World_ok_same|done|].
  intros sj w3 rep3 _ Hrep3 Hrq Hdryj. rewrite (proj1 Ho2) in Hrq.
  rewrite wp_bind. apply wp_migrations; [done|]. intros w4 rep4 Hrep4.
  rewrite wp_bind, wp_now, wp_bind, wp_try. unfold on_reports, on_store. rewrite !wp_zoom.
  apply wp_SaveReport. intros id c reps w5. cbn beta iota.
  rewrite wp_bind. apply wp_audit_reconciled. intros a w6. rewrite wp_ret. split.
  - eexists. split; [done|]. by apply adds_up_stamped.
  - split; cbn; try done.
    + intros k. by apply (fleet_mended_at st ns).
    + intros Hdry. split; [by apply Hdryj|by apply Hdryb].
Qed.
End repairs.

(** ** Theorems *)

Section theorems.
Context {A : Type} `{!AuditRepository A, !SortSlice, !TimeFormat}.
Context (has_quotas has_jobs has_migrations has_audit : bool).

End theorems.

(** The guest of the demonstration runs on a host that was removed from the
    registry; the check finds it and puts it into the error state. *)
Section demo.
#[local] Existing Instances tagging_digest MemoryAuditRepo InsertionSort demo_clock.

Definition after_removal : ReconcileEnv * AuditStore :=
  (mkReconcileEnv ∅ demo_instances NewMemoryNodeStore NewMemoryJobStore ∅ empty_billing,
   empty_audit).

Abbreviation demo_check dry := (Reconcile (A := AuditStore) true true true true dry "manual").

End demo.
