(* ===== verification/Recovery.v ===== *)
(** * Disaster recovery

    [internal/app/recovery/coordinator.go]: restoring from a backup, for real
    and as a simulation. The coordinator drives the backup service and the
    reconciliation service; its state is theirs, over one audit trail. *)

From S2P Require Import Prelude Identity AuditTrail Events Job Node Instances Scheduler Quota Migration.
From S2P Require Import Objects Backup Reconcile.

(** [AuditVerifier]: a trail that can be written to and verified. *)
Class ChainVerifier (A : Type) := VerifyChainIntegrity : Z → go A (bool * Z).
#[export] Instance MemoryChainVerifier : ∀ `{Digest}, ChainVerifier AuditStore :=
  @audit_VerifyChainIntegrity.

(** [s[:16]] of a string. *)
Definition checksum_head {St} (s : string) : go St string :=
  if decide (16 ≤ String.length s)%nat then mret (String.substring 0 16 s)
  else lift (panic "slice bounds out of range").

Definition action (step target description status : string) : RestoreAction :=
  mkRestoreAction step target description status ∅.

Definition with_counts (r : Report) (plan : RestorePlan) : RestorePlan :=
  plan <| RestorePlan_DiscrepanciesFound := Report_TotalDiscrepancies r |>
    <| RestorePlan_RepairsAttempted := Report_TotalDiscrepancies r |>
    <| RestorePlan_RepairsSucceeded := Report_RepairedCount r |>.

Definition done_action (plan : RestorePlan) (a : RestoreAction) : RestorePlan :=
  plan <| RestorePlan_Actions := RestorePlan_Actions plan ++ [a] |>.

Definition simulated_actions (b : Backup) (head : string) : list RestoreAction :=
  [mkRestoreAction "1. Integrity Validation" (Backup_StorageLocation b)
     ("Verify SHA-256 checksum (" +:+ head +:+ ") and decrypt AES-256-GCM artifact") "simulated"
     (details [("checksum", AnyStr (Backup_ChecksumSHA256 b));
               ("sizeBytes", AnyInt (Backup_SizeBytes b))]);
   action "2. State Restoration" "database"
     "Simulate restoring cluster state, database entities, and topology metadata" "simulated";
   action "3. Node Connectivity & Placement Rebuild" "hypervisors"
     "Simulate re-establishing gRPC mTLS connections to registered nodes and rebuilding instance placement map"
     "simulated";
   action "4. Quota & Billing Recalculation" "billing_quotas"
     "Simulate recalculating tenant compute resource consumption and updating quota counters"
     "simulated";
   action "5. Cryptographic Audit Chain Verification" "audit_ledger"
     "Simulate SHA-256 tamper-evident audit ledger integrity verification" "simulated"].

Definition new_plan (id backupID status : string) (dryRun verified : bool) (now : Z)
    (actions : list RestoreAction) : RestorePlan :=
  mkRestorePlan id backupID dryRun "consistent" status actions 0 0 0 verified "" now None.

Section service.
Context {O E A : Type} `{!ObjectStorage O, !EventPublisher E, !AuditRepository A,
  !ChainVerifier A, !SortSlice, !Digest, !TimeFormat}.
Context (auth : option Authorizer) (has_events has_reconciler has_verifier : bool).
(** What the backup service was built with, and the reconciliation service. *)
Context (backup_auth : option Authorizer) (backup_events : bool).
Context (has_quotas has_jobs has_migrations has_audit : bool).
Abbreviation env := (BackupEnv O E * ReconcileEnv * A)%type.

Definition on_backups {X} (m : go (BackupEnv O E * A) X) : go env X :=
  zoom (λ s, (s.1.1, s.2)) (λ x s, ((x.1, s.1.2), x.2)) m.
Definition on_records {X} (m : go (ReconcileEnv * A) X) : go env X :=
  zoom (λ s, (s.1.2, s.2)) (λ x s, ((s.1.1, x.1), x.2)) m.

(** [c.authorizer != nil && sub != nil && !sub.IsSuperadmin()] refuses. *)
Definition refused (sub : option Subject) : bool :=
  match auth, sub with Some _, Some s => negb (IsSuperadmin s) | _, _ => false end.

(** [if c.reconcileService != nil { report, err := ...Reconcile(...) }]. *)
Definition reconcile_into (dryRun : bool) (trigger : string) (plan : RestorePlan) :
    go env RestorePlan :=
  report ← try (on_records (Reconcile has_quotas has_jobs has_migrations has_audit dryRun trigger));
  mret (match report with Ok r => with_counts r plan | Err _ => plan end).

(** [_ = c.backupRepo.SaveRestorePlan(ctx, plan)]. *)
Definition save_plan (plan : RestorePlan) : go env RestorePlan :=
  saved ← try (on_backups (on_repo (SaveRestorePlan plan)));
  mret (match saved with Ok p => p | Err _ => plan end).

(** The integrity check both workflows begin with, and its failure text. *)
Definition verified_backup (what : string) (sub : option Subject) (backupID : string) :
    go env Backup :=
  wrap_err (λ err, Wrapf (what +:+ Error err) err)
    (on_backups (VerifyBackup backup_auth backup_events sub backupID)) ;;
  on_backups (GetBackup backup_auth sub backupID).

Definition DryRunRecovery (sub : option Subject) (backupID : string) : go env RestorePlan :=
  if refused sub then fail ErrResourceForbidden
  else
    planID ← uuid_NewString;
    startTime ← time_Now;
    b ← verified_backup "pre-restore backup verification failed: " sub backupID;
    head ← checksum_head (Backup_ChecksumSHA256 b);
    let plan := new_plan planID backupID "completed" true true startTime
                  (simulated_actions b head) in
    plan ← (if has_reconciler then reconcile_into true "disaster_recovery_dry_run" plan
            else mret plan);
    now ← time_Now;
    save_plan (plan <| RestorePlan_CompletedAt := Some now |>).

(** Step 4: the integrity of the trail, [true] without a verifier. *)
Definition chain_valid : go env bool :=
  if has_verifier then
    r ← try (zoom snd (λ a s, (fst s, a)) (VerifyChainIntegrity 1000));
    mret (match r with Ok (valid, _) => valid | Err _ => false end)
  else mret true.

(** The audit entry and the event of a finished restore. *)
Definition record_restore (sub : option Subject) (backupID planID : string) (plan : RestorePlan) :
    go env () :=
  if has_verifier then
    now ← time_Now;
    let actor := match sub with Some s => Subject_UserID s | None => "system" end in
    ignore (zoom snd (λ a s, (fst s, a))
      (Record_ (mkAuditLog 0 (Some actor) "" "" "recovery.completed" "backup" (Some backupID) "" 200
        (Some (details [("planId", AnyStr planID);
                        ("discrepancies", AnyInt (RestorePlan_DiscrepanciesFound plan));
                        ("repairs", AnyInt (RestorePlan_RepairsSucceeded plan));
                        ("auditHashVerified", AnyBool (RestorePlan_AuditHashVerified plan))]))
        "" "" "" now)))
  else mret ().

Definition announce_restore (backupID : string) : go env () :=
  if has_events then
    eid ← uuid_NewString;
    now ← time_Now;
    ignore (on_backups (on_events (Publish
      (mkEvent eid "system" "recovery.completed" "backup" backupID "" now ∅ [] "1.0"))))
  else mret ().

(** Steps 4 and 5: the trail is verified and the plan is filed as completed. *)
Definition finish_restore (sub : option Subject) (backupID planID : string) (plan : RestorePlan) :
    go env RestorePlan :=
  validChain ← chain_valid;
  let plan := done_action (plan <| RestorePlan_AuditHashVerified := validChain |>)
                (action "4. Audit Ledger Integrity Verification" "audit_ledger"
                  ("SHA-256 tamper-evident audit ledger chain integrity: valid=" +:+
                   fmt_bool validChain) "applied") in
  now ← time_Now;
  plan ← save_plan (plan <| RestorePlan_Status := "completed" |>
           <| RestorePlan_CompletedAt := Some now |>);
  record_restore sub backupID planID plan ;;
  announce_restore backupID ;;
  mret plan.

Definition ExecuteRestore (sub : option Subject) (backupID : string) : go env RestorePlan :=
  if refused sub then fail ErrResourceForbidden
  else
    planID ← uuid_NewString;
    startTime ← time_Now;
    b ← verified_backup "disaster recovery aborted: backup integrity check failed: " sub backupID;
    let plan := new_plan planID backupID "restoring" false false startTime [] in
    head ← checksum_head (Backup_ChecksumSHA256 b);
    let plan := done_action plan (action "1. Integrity Validation" (Backup_StorageLocation b)
                  ("Cryptographic checksum verified (" +:+ head +:+ ")") "applied") in
    got ← try (on_backups (DownloadBackup backup_auth sub backupID));
    match got with
    | Err err =>
        ignore (save_plan (plan <| RestorePlan_Status := "failed" |>
          <| RestorePlan_ErrorMessage := "failed to retrieve backup artifact: " +:+ Error err |>)) ;;
        fail err
    | Ok _ =>
        let plan := done_action plan (action "2. Database Restoration" "database"
                      "Restored application state and entity metadata from backup artifact"
                      "applied") in
        plan ← (if has_reconciler then
                  plan ← reconcile_into false "disaster_recovery_restore" plan;
                  mret (done_action plan (action "3. State Reconciliation & Node Health" "hypervisors"
                    ("Reconciled state against hypervisor fleet: " +:+
                     fmt_d (RestorePlan_RepairsSucceeded plan) +:+ " discrepancies repaired")
                    "applied"))
                else mret plan);
        finish_restore sub backupID planID plan
    end.

Definition recovery_GetRestorePlan (sub : option Subject) (id : string) : go env RestorePlan :=
  if refused sub then fail ErrResourceForbidden else on_backups (on_repo (GetRestorePlan id)).

Definition recovery_ListRestorePlans (sub : option Subject) (limit offset : Z) :
    go env (list RestorePlan * Z) :=
  if refused sub then fail ErrResourceForbidden
  else on_backups (on_repo (ListRestorePlans limit offset)).
End service.

(** ** What a restore does *)

Section restores.
Context {O E A : Type} `{!ObjectStorage O, !ObjectStorageLaws O, !EventPublisher E,
  !AuditRepository A, !ChainVerifier A, !SortSlice, !Digest, !TimeFormat}.
Context (auth : option Authorizer) (has_events has_reconciler has_verifier : bool).
Context (backup_auth : option Authorizer) (backup_events : bool).
Context (has_quotas has_jobs has_migrations has_audit : bool).
(** The ports keep the oracles of the world; a digest has its sixteen
    characters. *)
Context (Hget : ∀ k, polite (object_Get (O := O) k)).
Context (Hpublish : ∀ e, polite (Publish (E := E) e)).
Context (Hdigest : ∀ d, (16 ≤ String.length (sha256_hex d))%nat).
Abbreviation env := (BackupEnv O E * ReconcileEnv * A)%type.
Implicit Types (st : env) (b : Backup).

Definition vault_of st : BackupEnv O E * A := (st.1.1, st.2).
Definition records_of st : ReconcileEnv * A := (st.1.2, st.2).
Definition plans_of st : gmap string RestorePlan :=
  BackupStore_restorePlans (be_repo st.1.1).

Lemma wp_on_backups {X} (m : go (BackupEnv O E * A) X) (P : result X → env → World → Prop) w st :
  wp m (λ r v w', ∀ st', vault_of st' = v → st'.1.2 = st.1.2 → P r st' w') w (vault_of st) →
  wp (on_backups m) P w st.
Proof.
  intros Hm. unfold on_backups. rewrite wp_zoom. eapply wp_mono; [exact Hm|].
  intros r [v a] w' HP. by apply HP.
Qed.

Lemma polite_VerifyBackup sub id :
  polite (VerifyBackup (O := O) (E := E) (A := A) backup_auth backup_events sub id).
Proof.
  unfold VerifyBackup, corrupted, publish_backup, on_repo, Backup.on_objects, on_events, on_store,
    maybe_authorize, authorize, backup_GetByID, backup_UpdateStatus. polite.
Qed.

(** The backup can be restored by this caller. *)
Definition restorable_by sub st (id : string) b : Prop :=
  backups_of (vault_of st) !! id = Some b ∧ restorable (objects_of (vault_of st)) b ∧
  permitted backup_auth sub "backup:read" (Backup_Resource b).

(** The integrity check passes exactly for a restorable backup. *)
Lemma wp_verified_backup what sub id (P : result Backup → env → World → Prop) w st :
  backups_ok (vault_of st) →
  (∀ e st' w', kept (vault_of st) (vault_of st') → st'.1.2 = st.1.2 →
     (¬ ∃ b, restorable_by sub st id b) → P (Err e) st' w') →
  (∀ b st' w', same_oracles w w' → kept (vault_of st) (vault_of st') → st'.1.2 = st.1.2 →
     restorable_by sub st' id b → verified_in (vault_of st') id b →
     (∃ b0, restorable_by sub st id b0) → P (Ok b) st' w') →
  wp (verified_backup backup_auth backup_events what sub id) P w st.
Proof.
  intros Hok Hno Hyes. unfold verified_backup. rewrite wp_bind, wp_wrap_err.
  apply wp_on_backups. apply wp_polite; [apply polite_VerifyBackup|].
  eapply wp_mono; [by apply (VerifyBackup_effect backup_auth backup_events sub id)|].
  intros r v w1 Hch Ho st1 Hv Hrec. subst v. pose proof (checked_kept _ _ _ _ _ _ Hok Hch) as Hk.
  destruct Hch as [Hobj [(_ & [e ->] & Hden)|
    (b & b' & Hb & Hb' & Hperm & Hsub & Hloc & _ & Hsum & Hcase)]].
  { apply Hno; [done|done|]. intros (b & Hb & _ & Hperm). by apply (Hden b). }
  destruct Hcase as [(-> & Hres & Hver)|(-> & Hnot & _)].
  2:{ apply Hno; [done|done|]. intros (b1 & Hb1 & Hres & _). apply Hnot. congruence. }
  apply wp_on_backups. unfold GetBackup. rewrite wp_bind.
  assert (backups_of (vault_of st1) !! id = Some b') as Hb1 by (rewrite Hb'; apply lookup_insert_eq).
  apply wp_found; [congruence|]. intros b1 v Hs Hb1'. assert (b1 = b') as -> by congruence.
  rewrite maybe_authorize_permitted by by rewrite Hsub. rewrite wp_bind, wp_ret, wp_ret.
  intros st2 <- Hrec2. destruct Hs as [Hr2 Ho2].
  assert (backups_of (vault_of st2) = backups_of (vault_of st1)) as Hb2
    by (unfold backups_of; by rewrite Hr2).
  apply Hyes.
  - done.
  - eapply kept_trans; [exact Hk|]. apply kept_data; [apply Hk|done].
  - congruence.
  - split_and!; [by rewrite Hb2| |by rewrite Hsub]. unfold restorable in *.
    by rewrite Ho2, Hobj, Hloc, Hsum.
  - split; [by rewrite Hb2|done].
  - by exists b.
Qed.

(** [st'] has the vault of [st], up to the plans. *)
Definition same_vault st st' : Prop :=
  backups_of (vault_of st') = backups_of (vault_of st) ∧
  objects_of (vault_of st') = objects_of (vault_of st).

Lemma same_vault_kept st1 st2 st3 : backups_ok (vault_of st2) →
  kept (vault_of st1) (vault_of st2) → same_vault st2 st3 → kept (vault_of st1) (vault_of st3).
Proof. intros Hok Hk [Hb Ho]. eapply kept_trans; [exact Hk|]. by apply kept_same. Qed.

Lemma wp_reconcile_into dryRun trigger plan (P : result RestorePlan → env → World → Prop) w st :
  reconcile_ok (records_of st) → World_ok w →
  (∀ r st' w', st'.1.1 = st.1.1 → reconciled dryRun (w_clock w) (records_of st) (records_of st') →
     P (Ok (with_counts r plan)) st' w') →
  wp (reconcile_into has_quotas has_jobs has_migrations has_audit dryRun trigger plan) P w st.
Proof.
  intros Hok Hw HP. unfold reconcile_into, on_records. rewrite wp_bind, wp_try, wp_zoom.
  eapply wp_mono; [by apply Reconcile_effect|]. intros r s w' [(rep & -> & _) Hrec].
  rewrite wp_ret. by apply HP; [|destruct s].
Qed.

Lemma wp_save_plan plan (P : result RestorePlan → env → World → Prop) w st :
  (∀ id c st' w', same_vault st st' → st'.1.2 = st.1.2 →
     let plan' := (plan <| RestorePlan_ID := id |>) <| RestorePlan_CreatedAt := c |> in
     plans_of st' !! id = Some plan' → P (Ok plan') st' w') →
  wp (save_plan plan) P w st.
Proof.
  intros HP. unfold save_plan. rewrite wp_bind, wp_try. apply wp_on_backups, wp_backup_repo.
  unfold SaveRestorePlan, or_uuid, or_now.
  repeat (case_decide; wp_step); rewrite ?wp_bind, ?wp_modify, ?wp_ret;
    intros v Hr Ho st' <- Hrec; rewrite wp_ret; apply HP; try done;
    try (split; [unfold backups_of; by rewrite Hr|exact Ho]);
    unfold plans_of; change (st'.1.1) with ((vault_of st').1); rewrite Hr; apply lookup_insert_eq.
Qed.

(** The records of a finished restore change the trail and the events. *)
Definition same_but_trail st st' : Prop :=
  same_vault st st' ∧ plans_of st' = plans_of st ∧ st'.1.2 = st.1.2.

Lemma wp_chain_valid (P : result bool → env → World → Prop) w st :
  (∀ v st' w', same_but_trail st st' → P (Ok v) st' w') → wp (chain_valid has_verifier) P w st.
Proof.
  intros HP. unfold chain_valid. destruct has_verifier; [|by rewrite wp_ret; apply HP].
  rewrite wp_bind, wp_try, wp_zoom. apply wp_elim. rewrite wp_ret. by apply HP.
Qed.

Lemma wp_record_restore sub backupID planID plan (P : result () → env → World → Prop) w st :
  (∀ st' w', same_but_trail st st' → P (Ok ()) st' w') →
  wp (record_restore has_verifier sub backupID planID plan) P w st.
Proof.
  intros HP. unfold record_restore. destruct has_verifier; [|by rewrite wp_ret; apply HP].
  rewrite wp_bind, wp_now, wp_ignore, wp_zoom. apply wp_elim. by apply HP.
Qed.

Lemma wp_announce_restore backupID (P : result () → env → World → Prop) w st :
  (∀ st' w', same_but_trail st st' → P (Ok ()) st' w') →
  wp (announce_restore has_events backupID) P w st.
Proof.
  intros HP. unfold announce_restore. destruct has_events; [|by rewrite wp_ret; apply HP].
  rewrite wp_bind, wp_uuid, wp_bind, wp_now, wp_ignore. apply wp_on_backups.
  unfold on_events, on_store. rewrite !wp_zoom. apply wp_elim. intros st' Hv Hrec.
  apply HP. unfold same_but_trail, same_vault, plans_of, backups_of, objects_of.
  change (st'.1.1) with ((vault_of st').1). by rewrite Hv.
Qed.
Lemma wp_checksum_head b (P : result string → env → World → Prop) w st o :
  restorable o b → (∀ head, P (Ok head) st w) →
  wp (checksum_head (Backup_ChecksumSHA256 b)) P w st.
Proof.
  intros (d & _ & Hsum) HP. unfold checksum_head. rewrite <-Hsum, decide_True by apply Hdigest.
  by rewrite wp_ret.
Qed.

Lemma wp_download sub id b (P : result (string * Backup) → env → World → Prop) w st :
  backups_ok (vault_of st) → restorable_by sub st id b →
  (∀ d st' w', same_oracles w w' → same_data (vault_of st) (vault_of st') →
     st'.1.2 = st.1.2 → P (Ok (d, b)) st' w') →
  wp (on_backups (DownloadBackup backup_auth sub id)) P w st.
Proof.
  intros Hok (Hb & Hres & Hperm) HP. apply wp_on_backups, wp_polite.
  { unfold DownloadBackup, GetBackup, on_repo, Backup.on_objects, on_store, maybe_authorize,
      authorize, backup_GetByID. polite. }
  eapply wp_mono; [by apply (DownloadBackup_run backup_auth sub id b)|].
  intros r v w' [Hs (d & -> & _)] Ho st' <- Hrec. by apply HP.
Qed.

(** What a finished restore leaves. *)
Record restored (clock : nat → Z) (id : string) st st' (plan : RestorePlan) : Prop := {
  rs_status : RestorePlan_Status plan = "completed";
  rs_backup : RestorePlan_BackupID plan = id;
  rs_real : RestorePlan_DryRun plan = false;
  rs_filed : plans_of st' !! RestorePlan_ID plan = Some plan;
  rs_records : if has_reconciler then reconciled false clock (records_of st) (records_of st')
               else st'.1.2 = st.1.2
}.

(** The end of a restore, from the verification of the trail on. *)
Lemma wp_finish_restore sub id planID plan (P : result RestorePlan → env → World → Prop) w st :
  (∀ plan' st' w', same_vault st st' → st'.1.2 = st.1.2 → RestorePlan_Status plan' = "completed" →
     RestorePlan_BackupID plan' = RestorePlan_BackupID plan →
     RestorePlan_DryRun plan' = RestorePlan_DryRun plan →
     plans_of st' !! RestorePlan_ID plan' = Some plan' → P (Ok plan') st' w') →
  wp (finish_restore has_events has_verifier sub id planID plan) P w st.
Proof.
  intros HP. unfold finish_restore. rewrite wp_bind. apply wp_chain_valid.
  intros v st1 w1 ([Hb1 Ho1] & _ & Hr1). cbv zeta.
  rewrite wp_bind, wp_now, wp_bind. apply wp_save_plan. intros i c st2 w2 [Hb2 Ho2] Hr2 plan' Hp2.
  rewrite wp_bind. apply wp_record_restore. intros st3 w3 ([Hb3 Ho3] & Hp3 & Hr3).
  rewrite wp_bind. apply wp_announce_restore. intros st4 w4 ([Hb4 Ho4] & Hp4 & Hr4).
  rewrite wp_ret. apply HP; [split; congruence|congruence|done..|].
  rewrite Hp4, Hp3. exact Hp2.
Qed.

(** A check is about the records only, not about the trail. *)
Lemma reconciled_records dry clock (s s' t t' : ReconcileEnv * A) :
  reconciled dry clock s t → s'.1 = s.1 → t'.1 = t.1 → reconciled dry clock s' t'.
Proof.
  destruct s as [x a], s' as [x' a'], t as [y b], t' as [y' b']; cbn. intros Hrec -> ->.
  destruct Hrec as [R1 R2 R3 R4 R5 R6]. by split.
Qed.

(** Step 3, and the answer of the restore. *)
Lemma wp_repair_and_finish sub id planID plan (P : result RestorePlan → env → World → Prop) w st :
  World_ok w → reconcile_ok (records_of st) →
  RestorePlan_BackupID plan = id → RestorePlan_DryRun plan = false →
  (∀ plan' st' w', same_vault st st' → restored (w_clock w) id st st' plan' → P (Ok plan') st' w') →
  wp (plan ← (if has_reconciler then
                plan ← reconcile_into has_quotas has_jobs has_migrations has_audit false
                         "disaster_recovery_restore" plan;
                mret (done_action plan (action "3. State Reconciliation & Node Health" "hypervisors"
                  ("Reconciled state against hypervisor fleet: " +:+
                   fmt_d (RestorePlan_RepairsSucceeded plan) +:+ " discrepancies repaired")
                  "applied"))
              else mret plan);
      finish_restore has_events has_verifier sub id planID plan) P w st.
Proof.
  intros Hw Hok Hid Hdry HP. rewrite wp_bind. 
  assert (∀ plan st1 w1, st1.1.1 = st.1.1 → RestorePlan_BackupID plan = id →
    RestorePlan_DryRun plan = false →
    (if has_reconciler then reconciled false (w_clock w) (records_of st) (records_of st1)
     else st1.1.2 = st.1.2) →
    wp (finish_restore has_events has_verifier sub id planID plan) P w1 st1) as Hend.
  { intros plan1 st1 w1 Hv1 Hid1 Hdry1 Hrec. apply wp_finish_restore.
    intros plan2 st2 w2 [Hb2 Ho2] Hr2 K1 K2 K3 Hfiled. apply HP.
    - unfold same_vault, backups_of, objects_of, vault_of in *. cbn in *. by rewrite Hb2, Ho2, Hv1.
    - split; [done|congruence|congruence|done|]. destruct has_reconciler; [|congruence].
      by eapply reconciled_records; [exact Hrec|..]. }
  destruct has_reconciler; [|rewrite wp_ret; by apply Hend].
  rewrite wp_bind. apply wp_reconcile_into; [done|done|]. intros rep st1 w1 Hv1 Hrec.
  rewrite wp_ret. by apply Hend.
Qed.

Lemma refused_iff sub : refused auth sub = false ↔
  ∀ a s, auth = Some a → sub = Some s → IsSuperadmin s = true.
Proof.
  unfold refused. destruct auth as [a|], sub as [s|]; [|split; [congruence|done]..].
  rewrite negb_false_iff. split; [by intros Hs ? ? _ [= <-]|intros Hs; by eapply Hs].
Qed.

Lemma ExecuteRestore_effect sub id w st :
  World_ok w → backups_ok (vault_of st) → reconcile_ok (records_of st) →
  wp (ExecuteRestore auth has_events has_reconciler has_verifier backup_auth backup_events
        has_quotas has_jobs has_migrations has_audit sub id)
    (λ r st' _, kept (vault_of st) (vault_of st') ∧
       match r with
       | Err _ => st'.1.2 = st.1.2 ∧ ¬ (refused auth sub = false ∧ ∃ b, restorable_by sub st id b)
       | Ok plan => (refused auth sub = false ∧ ∃ b, restorable_by sub st id b) ∧
           (∃ b, verified_in (vault_of st') id b) ∧ restored (w_clock w) id st st' plan
       end) w st.
Proof.
  intros Hw Hok Hrok. unfold ExecuteRestore. destruct (refused auth sub) eqn:Href.
  { rewrite wp_fail. split; [by apply kept_refl|]. split; [done|by intros [? _]]. }
  rewrite wp_bind, wp_uuid, wp_bind, wp_now, wp_bind. apply wp_verified_backup; [done| |].
  { intros e st1 w1 Hk Hr Hno. split; [done|]. split; [done|by intros [_ ?]]. }
  intros b st1 w1 Ho1 Hk1 Hr1 Hres Hver Hcan. cbv zeta. rewrite wp_bind.
  apply (wp_checksum_head b _ _ _ _ (proj1 (proj2 Hres))). intros head.
  rewrite wp_bind, wp_try. apply (wp_download sub id b); [apply Hk1|done|].
  intros d st2 w2 Ho2 Hs2 Hr2. apply wp_repair_and_finish; [|unfold records_of|done|done|].
  - eapply World_ok_same; [exact Ho2|]. by eapply World_ok_same.
  - split; cbn; rewrite Hr2, Hr1; apply Hrok.
  - intros plan st3 w3 [Hb3 Ho3] Hrest. 
    assert (kept (vault_of st1) (vault_of st2)) as Hk2 by (apply kept_data; [apply Hk1|done]).
    split; [|split; [done|split]].
    + eapply same_vault_kept; [|exact (kept_trans _ _ _ Hk1 Hk2)|done]. apply Hk2.
    + exists b. destruct Hs2 as [Hr _]. unfold verified_in in *. rewrite Hb3.
      unfold backups_of in *. by rewrite Hr.
    + rewrite (proj1 Ho2), (proj1 Ho1) in Hrest. destruct Hrest as [R1 R2 R3 R4 R5]. split; [done..|].
      destruct has_reconciler; [|congruence]. eapply reconciled_records; [exact R5| |done].
      cbn. congruence.
Qed.
(** A simulation verifies the backup and files a plan; the records stay. *)
Lemma DryRunRecovery_effect sub id w st :
  World_ok w → backups_ok (vault_of st) → reconcile_ok (records_of st) →
  wp (DryRunRecovery auth has_reconciler backup_auth backup_events
        has_quotas has_jobs has_migrations has_audit sub id)
    (λ r st' _, kept (vault_of st) (vault_of st') ∧
       (st'.1.2 = st.1.2 ∨ reconciled true (w_clock w) (records_of st) (records_of st')) ∧
       ((∃ plan, r = Ok plan) ↔ refused auth sub = false ∧ ∃ b, restorable_by sub st id b)) w st.
Proof.
  intros Hw Hok Hrok. unfold DryRunRecovery. destruct (refused auth sub) eqn:Href.
  { rewrite wp_fail. split; [by apply kept_refl|]. split; [by left|]. split; [by intros [??]|by intros [? _]]. }
  rewrite wp_bind, wp_uuid, wp_bind, wp_now, wp_bind. apply wp_verified_backup; [done| |].
  { intros e st1 w1 Hk Hr Hno. split; [done|]. split; [by left|]. split; [by intros [??]|tauto]. }
  intros b st1 w1 Ho1 Hk1 Hr1 Hres Hver Hcan. cbv zeta. rewrite wp_bind.
  apply (wp_checksum_head b _ _ _ _ (proj1 (proj2 Hres))). intros head.
  assert (∀ plan st2 w2, st2.1.1 = st1.1.1 →
    (st2.1.2 = st.1.2 ∨ reconciled true (w_clock w) (records_of st) (records_of st2)) →
    wp (now ← time_Now; save_plan (plan <| RestorePlan_CompletedAt := Some now |>))
      (λ r st' _, kept (vault_of st) (vault_of st') ∧
       (st'.1.2 = st.1.2 ∨ reconciled true (w_clock w) (records_of st) (records_of st')) ∧
       ((∃ plan, r = Ok plan) ↔ false = false ∧ ∃ b, restorable_by sub st id b)) w2 st2) as Hend.
  { intros plan st2 w2 Hv2 Hrec. rewrite wp_bind, wp_now. apply wp_save_plan.
    intros i c st3 w3 [Hb3 Ho3] Hr3 plan' _. split; [|split].
    - eapply same_vault_kept; [apply Hk1|exact Hk1|].
      unfold same_vault, backups_of, objects_of, vault_of in *. cbn in *. by rewrite Hb3, Ho3, Hv2.
    - destruct Hrec as [?|Hrec]; [left; congruence|right].
      by eapply reconciled_records; [exact Hrec|..].
    - split; [done|eauto]. }
  rewrite wp_bind. destruct has_reconciler; [|rewrite wp_ret; apply Hend; [done|left; congruence]].
  apply wp_reconcile_into.
  - unfold records_of. split; cbn; rewrite Hr1; apply Hrok.
  - by eapply World_ok_same.
  - intros rep st2 w2 Hv2 Hrec. rewrite (proj1 Ho1) in Hrec. apply Hend; [done|right].
    eapply reconciled_records; [exact Hrec|done|done].
Qed.
End restores.

(** ** Theorems *)

Section theorems.
Context {O E A : Type} `{!ObjectStorage O, !ObjectStorageLaws O, !EventPublisher E,
  !AuditRepository A, !ChainVerifier A, !SortSlice, !Digest, !TimeFormat}.
Context (auth : option Authorizer) (has_events has_reconciler has_verifier : bool).
Context (backup_auth : option Authorizer) (backup_events : bool).
Context (has_quotas has_jobs has_migrations has_audit : bool).

(** C21 restoring: a restore is carried out exactly when the caller is admitted,
    may read the backup, and the artifact in the object storage still has the
    recorded checksum; a real restore then answers a completed plan that is
    filed under its identifier, has reconciled the records and left the backup
    verified, and a restore that is refused has not touched an instance, node,
    job, migration or quota record (it may have marked the backup itself as
    damaged, as its verification does). No protected or last verified recovery
    point is lost by it. The same backups pass the simulation, which repairs
    nothing. *)
Theorem restore_from_intact_backup (sub : option Subject) (id : string) (w : World)
    (st : BackupEnv O E * ReconcileEnv * A) :
  (∀ k, polite (object_Get (O := O) k)) → (∀ e, polite (Publish (E := E) e)) →
  (∀ d, (16 ≤ String.length (sha256_hex d))%nat) →
  World_ok w → backups_ok (vault_of st) → reconcile_ok (records_of st) →
  let run := ExecuteRestore auth has_events has_reconciler has_verifier backup_auth backup_events
               has_quotas has_jobs has_migrations has_audit sub id in
  let rehearse := DryRunRecovery auth has_reconciler backup_auth backup_events
               has_quotas has_jobs has_migrations has_audit sub id in
  let possible := (∀ a s, auth = Some a → sub = Some s → IsSuperadmin s = true) ∧
               ∃ b, restorable_by backup_auth sub st id b in
  let st' := exec run w st in
  let rehearsed := exec rehearse w st in
  match answer run w st with
  | Ok plan => possible ∧ restored has_reconciler (w_clock w) id st st' plan ∧
      ∃ b, verified_in (vault_of st') id b
  | Err _ => ¬ possible ∧ st'.1.2 = st.1.2
  end ∧
  kept (vault_of st) (vault_of st') ∧
  ((∃ plan, answer rehearse w st = Ok plan) ↔ possible) ∧
  (rehearsed.1.2 = st.1.2 ∨ reconciled true (w_clock w) (records_of st) (records_of rehearsed)).
Proof.
  intros Hget Hpub Hdig Hw Hok Hrok run rehearse possible st' rehearsed.
  destruct (proj1 (wp_elim _ _ _ _) (ExecuteRestore_effect auth has_events has_reconciler
    has_verifier backup_auth backup_events has_quotas has_jobs has_migrations has_audit Hget Hpub
    Hdig sub id w st Hw Hok Hrok)) as [Hk Hrun].
  destruct (proj1 (wp_elim _ _ _ _) (DryRunRecovery_effect auth has_reconciler backup_auth
    backup_events has_quotas has_jobs has_migrations has_audit Hget Hpub Hdig sub id w st Hw Hok
    Hrok)) as (_ & Hrec & Hiff).
  pose proof (refused_iff auth sub) as Href. fold run in Hk, Hrun. fold st' in Hk, Hrun.
  split; [|split; [exact Hk|split; [unfold possible; tauto|exact Hrec]]].
  destruct (answer run w st) as [plan|e]; unfold possible; tauto.
Qed.
End theorems.

(** ** A restore of the first backup over the fleet of the demonstration *)

Section demo.
(** Digests of sixteen characters and more. *)
Definition long_digest : Digest := {|
  sha256_hex := λ d, "0123456789abcdef" +:+ d;
  json_details := λ _, "{}"
|}.
#[local] Existing Instances long_digest memory_storage memory_storage_laws EventRecorder
  MemoryAuditRepo InsertionSort demo_codec demo_clock.

Definition site (v : BackupEnv MemoryObjectStorage (list Event) * AuditStore) :
    BackupEnv MemoryObjectStorage (list Event) * ReconcileEnv * AuditStore :=
  (v.1, after_removal.1, v.2).

Definition first_backup : go (BackupEnv MemoryObjectStorage (list Event) * AuditStore) Backup :=
  CreateBackup (Some DynamicAuthorizer) true true None (mkCreateBackupRequest "" "" "" "" None).
Definition stocked := exec first_backup (uuids_at 0 0) vault.
Definition first_id : string := "00000000-0000-4000-8000-000000000000".

Lemma site_vault v : vault_of (site v) = v.
Proof. by destruct v. Qed.

Lemma stocked_ok : backups_ok stocked.
Proof.
  apply (backup_steps_kept (Some DynamicAuthorizer) true true vault stocked).
  - apply rtc_once, (b_create _ _ _ (uuids_at 0 0) vault None
      (mkCreateBackupRequest "" "" "" "" None)). split; vm_compute; reflexivity.
  - split; [intros k d; discriminate|intros i b; discriminate..].
Qed.

Lemma polite_memory_Get k : polite (object_Get (O := MemoryObjectStorage) k).
Proof. cbn. unfold memory_Get. polite. Qed.

Abbreviation demo_restore := (ExecuteRestore (O := MemoryObjectStorage) (E := list Event)
  (A := AuditStore) (Some DynamicAuthorizer) true true true (Some DynamicAuthorizer) true true true
  true true None first_id).

Lemma restore_from_intact_backup_witness : ∃ plan,
  answer demo_restore (uuids_at 9 5) (site stocked) = Ok plan ∧
  RestorePlan_Status plan = "completed" ∧ RestorePlan_RepairsSucceeded plan = 1 ∧
  plans_of (exec demo_restore (uuids_at 9 5) (site stocked)) !! RestorePlan_ID plan = Some plan.
Proof.
  destruct (answer demo_restore (uuids_at 9 5) (site stocked)) as [plan|e] eqn:Ha;
    [|vm_compute in Ha; discriminate Ha].
  pose proof (restore_from_intact_backup (O := MemoryObjectStorage) (E := list Event)
    (A := AuditStore) (Some DynamicAuthorizer) true true true (Some DynamicAuthorizer) true true true
    true true None first_id (uuids_at 9 5) (site stocked)) as Hrun. cbv zeta in Hrun.
  rewrite Ha in Hrun. destruct Hrun as ((_ & [R1 R2 R3 R4 R5] & _) & _).
  - intros k. apply polite_memory_Get.
  - intros ev w s. by split_and!.
  - intros d. cbn [sha256_hex long_digest]. rewrite length_string_app. simpl. lia.
  - apply uuids_ok.
  - rewrite site_vault. apply stocked_ok.
  - split; [exact Scheduler.demo_instances_ok|exact node_store_ok_new].
  - exists plan. split; [reflexivity|]. split; [exact R1|]. split; [|exact R4].
    vm_compute in Ha. injection Ha as <-. reflexivity.
Defined.
End demo.
