(* ===== verification/Calendar.v ===== *)
(** * Calendar dates

    The dates [time.Time.AddDate] computes with: year, month and day of an
    instant in UTC, and the instant of a date whose month and day may lie
    outside their ranges. [app/billing/service.go] and [app/backup/service.go]
    use it for billing periods and retention. *)

From S2P Require Import Prelude.

(** [lia] decides quotients and remainders by constants in this file. *)
#[local] Ltac Zify.zify_post_hook ::= Z.div_mod_to_equations.

Definition Day : Z := 24 * Hour.

Definition is_leap (year : Z) : Prop :=
  year mod 4 = 0 ∧ (year mod 100 ≠ 0 ∨ year mod 400 = 0).
#[export] Instance is_leap_dec year : Decision (is_leap year).
Proof. unfold is_leap. apply _. Defined.

(** The days from 1 January of year 1 to 1 January of [year]. *)
Definition days_before_year (year : Z) : Z :=
  let y := year - 1 in 365 * y + y / 4 - y / 100 + y / 400.

Definition year_days (year : Z) : Z := if decide (is_leap year) then 366 else 365.

(** The days of the year before a month, January being 0. *)
Definition days_before_month (leap : bool) (month : Z) : Z :=
  nth (Z.to_nat month) [0; 31; 59; 90; 120; 151; 181; 212; 243; 273; 304; 334; 365] 0 +
  (if leap then if decide (2 ≤ month) then 1 else 0 else 0).

Record Date := mkDate { Date_Year : Z; Date_Month : Z; Date_Day : Z }.

(** [Date(year, month, day, ...)], at midnight, in days since 1 January of year
    1: months and days outside their ranges are normalised. *)
Definition days_of (d : Date) : Z :=
  let m := Date_Month d - 1 in
  let year := Date_Year d + m / 12 in
  days_before_year year + days_before_month (bool_decide (is_leap year)) (m mod 12) +
  (Date_Day d - 1).

(** The year of a day, and the day of that year. *)
Definition year_of (days : Z) : Z * Z :=
  let n400 := days / 146097 in
  let d := days mod 146097 in
  let n100 := Z.min 3 (d / 36524) in
  let d := d - 36524 * n100 in
  let n4 := d / 1461 in
  let d := d mod 1461 in
  let n1 := Z.min 3 (d / 365) in
  (400 * n400 + 100 * n100 + 4 * n4 + n1 + 1, d - 365 * n1).

(** The month of a day of the year: the last one that has begun. *)
Fixpoint month_of (leap : bool) (yday : Z) (months : nat) : Z :=
  match months with
  | O => 0
  | S k => if decide (days_before_month leap (Z.of_nat k) ≤ yday) then Z.of_nat k
           else month_of leap yday k
  end.

Definition date_of (days : Z) : Date :=
  let '(year, yday) := year_of days in
  let leap := bool_decide (is_leap year) in
  let m := month_of leap yday 12 in
  mkDate year (m + 1) (yday - days_before_month leap m + 1).

Definition days_since (t : Z) : Z := (t - zero_time) / Day.

(** [t.AddDate(years, months, days)] in UTC. *)
Definition time_AddDate (t years months days : Z) : Z :=
  let d := date_of (days_since t) in
  zero_time + days_of (mkDate (Date_Year d + years) (Date_Month d + months) (Date_Day d + days)) * Day
  + (t - zero_time) mod Day.

(** ** Round trip *)

Lemma days_before_next_year year :
  days_before_year (year + 1) = days_before_year year + year_days year.
Proof.
  unfold days_before_year, year_days, is_leap. cbv zeta.
  assert (∃ q r, year = 400 * q + r + 1 ∧ 0 ≤ r < 400) as (q & r & -> & Hr)
    by (exists ((year - 1) / 400), ((year - 1) mod 400); lia).
  replace (400 * q + r + 1 - 1) with (400 * q + r) by lia.
  replace (400 * q + r + 1 + 1 - 1) with (400 * q + r + 1) by lia.
  replace ((400 * q + r) / 4) with (100 * q + r / 4) by lia.
  replace ((400 * q + r) / 100) with (4 * q + r / 100) by lia.
  replace ((400 * q + r) / 400) with q by lia.
  case_decide as Hl; lia.
Qed.

Lemma year_of_spec days :
  let '(year, yday) := year_of days in
  days_before_year year + yday = days ∧ 0 ≤ yday < year_days year.
Proof.
  unfold year_of, days_before_year, year_days. cbv zeta.
  assert (∃ a d, days / 146097 = a ∧ days mod 146097 = d ∧ days = 146097 * a + d ∧ 0 ≤ d < 146097)
    as (a & d & -> & -> & Hd & Hdb) by (exists (days / 146097), (days mod 146097); lia).
  assert (∃ b, Z.min 3 (d / 36524) = b ∧ 0 ≤ b ≤ 3 ∧ 0 ≤ d - 36524 * b ∧
    (d - 36524 * b < 36524 ∨ b = 3 ∧ d - 36524 * b = 36524)) as (b & -> & Hb & Hd2 & Hd2')
    by (exists (Z.min 3 (d / 36524)); lia).
  remember (d - 36524 * b) as d2 eqn:Hde. assert (d = 36524 * b + d2) as -> by lia. clear Hde.
  assert (∃ c d3, d2 / 1461 = c ∧ d2 mod 1461 = d3 ∧ d2 = 1461 * c + d3 ∧ 0 ≤ d3 < 1461 ∧ 0 ≤ c ≤ 24)
    as (c & d3 & -> & -> & Hd3 & Hd3b & Hc) by (exists (d2 / 1461), (d2 mod 1461); lia).
  assert (∃ e, Z.min 3 (d3 / 365) = e ∧ 0 ≤ e ≤ 3 ∧ 0 ≤ d3 - 365 * e ∧
    (d3 - 365 * e < 365 ∨ e = 3 ∧ d3 - 365 * e = 365)) as (e & -> & He & Hy & Hy')
    by (exists (Z.min 3 (d3 / 365)); lia).
  replace (400 * a + 100 * b + 4 * c + e + 1 - 1) with (400 * a + 100 * b + 4 * c + e) by lia.
  replace ((400 * a + 100 * b + 4 * c + e) / 4) with (100 * a + 25 * b + c) by lia.
  replace ((400 * a + 100 * b + 4 * c + e) / 100) with (4 * a + b) by lia.
  replace ((400 * a + 100 * b + 4 * c + e) / 400) with a by lia.
  split; [lia|]. split; [lia|]. unfold is_leap. case_decide as Hl; lia.
Qed.

Lemma month_of_last (leap : bool) yday n :
  0 ≤ yday → (0 < n)%nat →
  let m := month_of leap yday n in
  0 ≤ m < Z.of_nat n ∧ days_before_month leap m ≤ yday ∧
  ∀ k, m < k < Z.of_nat n → yday < days_before_month leap k.
Proof.
  intros Hy. induction n as [|n IH]; intros Hn; [lia|]. cbn [month_of].
  case_decide as Hle; [split_and!; [lia|lia|done|lia]|].
  destruct n as [|n]; [by destruct leap|]. destruct IH as (Hm & Hb & Hk); [lia|].
  split_and!; [lia|lia|done|]. intros k Hk'. destruct (decide (k = Z.of_nat (S n))) as [->|]; [lia|].
  apply Hk. lia.
Qed.

Lemma month_of_spec (leap : bool) yday :
  0 ≤ yday < 365 + (if leap then 1 else 0) →
  let m := month_of leap yday 12 in
  0 ≤ m < 12 ∧ days_before_month leap m ≤ yday < days_before_month leap (m + 1).
Proof.
  intros Hy. destruct (month_of_last leap yday 12) as (Hm & Hb & Hk); [lia|lia|].
  set (m := month_of _ _ _) in *. cbn zeta. split_and!; [lia|lia|lia|].
  destruct (decide (m = 11)) as [->|]; [destruct leap; vm_compute (days_before_month _ _); lia|].
  apply Hk. lia.
Qed.

(** The days of a date that [date_of] answers are those it was made from. *)
Lemma days_of_date_of days : days_of (date_of days) = days.
Proof.
  unfold date_of. pose proof (year_of_spec days) as Hy. destruct (year_of days) as [year yday].
  destruct Hy as [Hsum Hy]. unfold year_days in Hy.
  destruct (month_of_spec (bool_decide (is_leap year)) yday) as [Hm Hd].
  { case_bool_decide; case_decide; tauto || lia. }
  unfold days_of. cbn [Date_Year Date_Month Date_Day].
  set (m := month_of _ _ _) in *. replace (m + 1 - 1) with m by lia.
  rewrite Z.div_small, Z.mod_small, Z.add_0_r by lia. lia.
Qed.

(** ** Adding months and years *)

Lemma date_of_month days : 1 ≤ Date_Month (date_of days) ≤ 12.
Proof.
  unfold date_of. pose proof (year_of_spec days) as Hy. destruct (year_of days) as [year yday].
  destruct Hy as [_ Hy]. unfold year_days in Hy. cbn [Date_Month].
  destruct (month_of_spec (bool_decide (is_leap year)) yday) as [Hm _]; [|lia].
  case_bool_decide; case_decide; tauto || lia.
Qed.

Lemma days_of_next_month year month day : 1 ≤ month ≤ 12 →
  28 ≤ days_of (mkDate year (month + 1) day) - days_of (mkDate year month day) ≤ 31.
Proof.
  intros Hm. unfold days_of. cbn [Date_Year Date_Month Date_Day].
  replace (month + 1 - 1) with month by lia. rewrite (Z.div_small (month - 1)), (Z.mod_small (month - 1)) by lia.
  destruct (decide (month = 12)) as [->|Hne].
  - change (12 / 12) with 1. change (12 mod 12) with 0. rewrite days_before_next_year, Z.add_0_r.
    unfold year_days. change (12 - 1) with 11.
    destruct (decide (is_leap year)) as [Hl|Hl]; [rewrite (bool_decide_true _ Hl)|rewrite (bool_decide_false _ Hl)];
      destruct (bool_decide (is_leap (year + 1))); vm_compute (days_before_month _ _); lia.
  - rewrite Z.div_small, Z.mod_small, Z.add_0_r by lia.
    assert (month ∈ [1; 2; 3; 4; 5; 6; 7; 8; 9; 10; 11]) as Hin by (set_unfold; lia).
    destruct (bool_decide (is_leap year)); set_unfold in Hin; 
      repeat destruct Hin as [->|Hin]; try done; vm_compute (days_before_month _ _); lia.
Qed.

Lemma days_of_next_year year month day : 1 ≤ month ≤ 12 →
  365 ≤ days_of (mkDate (year + 1) month day) - days_of (mkDate year month day) ≤ 366.
Proof.
  intros Hm. unfold days_of. cbn [Date_Year Date_Month Date_Day].
  rewrite Z.div_small, Z.mod_small, !Z.add_0_r, days_before_next_year by lia.
  unfold days_before_month, year_days. repeat case_bool_decide; repeat case_decide; tauto || lia.
Qed.

(** An instant as its day and the time of that day. *)
Lemma time_of_days t : t = zero_time + days_since t * Day + (t - zero_time) mod Day.
Proof. unfold days_since. pose proof (Z.div_mod (t - zero_time) Day ltac:(done)). lia. Qed.

Lemma time_AddDate_zero t : time_AddDate t 0 0 0 = t.
Proof.
  unfold time_AddDate. cbv zeta. pose proof (days_of_date_of (days_since t)) as Hd.
  destruct (date_of (days_since t)) as [y m d]. cbn [Date_Year Date_Month Date_Day].
  rewrite !Z.add_0_r, Hd. symmetry. apply time_of_days.
Qed.

(** A month later is 28 to 31 days later, a year later 365 or 366. *)
Lemma time_AddDate_month t :
  t + 28 * Day ≤ time_AddDate t 0 1 0 ≤ t + 31 * Day.
Proof.
  unfold time_AddDate. cbv zeta. pose proof (days_of_date_of (days_since t)) as Hd.
  pose proof (date_of_month (days_since t)) as Hm.
  destruct (date_of (days_since t)) as [y m d]. cbn [Date_Year Date_Month Date_Day] in *.
  rewrite !Z.add_0_r. pose proof (days_of_next_month y m d Hm) as Hn. rewrite Hd in Hn.
  pose proof (time_of_days t) as Ht. assert (0 < Day) by done. nia.
Qed.

Lemma time_AddDate_year t :
  t + 365 * Day ≤ time_AddDate t 1 0 0 ≤ t + 366 * Day.
Proof.
  unfold time_AddDate. cbv zeta. pose proof (days_of_date_of (days_since t)) as Hd.
  pose proof (date_of_month (days_since t)) as Hm.
  destruct (date_of (days_since t)) as [y m d]. cbn [Date_Year Date_Month Date_Day] in *.
  rewrite !Z.add_0_r. pose proof (days_of_next_year y m d Hm) as Hn. rewrite Hd in Hn.
  pose proof (time_of_days t) as Ht. assert (0 < Day) by done. nia.
Qed.
