(* ===== verification/Billing.v ===== *)
(** * The billing service

    [internal/app/billing/service.go] and the validation of plans
    ([internal/domain/billing/plan.go]): plans, subscriptions, usage and
    invoices over the repositories of [Quota] and the engines of [Invoice]. *)

From S2P Require Import Prelude Calendar Identity AuditTrail Quota Invoice Guest Template.

Definition ErrPlanInactive := ErrNew "billing" "billing plan is inactive".
Definition ErrSubscriptionAlreadyExists :=
  ErrNew "billing" "tenant already has an active subscription".

(** [^[a-z0-9][a-z0-9-]{1,62}[a-z0-9]$]. *)
Definition plan_slugRegex (s : string) : bool :=
  bracketed alnum_c (λ c, alnum_c c || one_of [45] c) 1 62 s.

(** [Plan.Validate] normalises its receiver. *)
Definition Plan_Validate (p : Plan) : result Plan :=
  let bad text := Err (Wrapf ("invalid plan specification: " +:+ text) ErrInvalidPlanSpec) in
  let p := p <| Plan_Name := TrimSpace (Plan_Name p) |> in
  if decide (Plan_Name p = "" ∨ (100 < String.length (Plan_Name p))%nat)
  then bad "plan name must be between 1 and 100 characters"
  else
    let p := p <| Plan_Slug := ToLower (TrimSpace (Plan_Slug p)) |> in
    if negb (plan_slugRegex (Plan_Slug p))
    then bad ("invalid slug '" +:+ Plan_Slug p +:+ "' (lowercase alphanumeric with hyphens)")
    else
      let p := p <| Plan_Currency := ToUpper (TrimSpace (Plan_Currency p)) |> in
      if decide (String.length (Plan_Currency p) ≠ 3%nat) then bad "currency must be 3-letter ISO code"
      else if decide (Plan_MonthlyPriceMinor p < 0 ∨ Plan_YearlyPriceMinor p < 0)
      then bad "prices cannot be negative"
      else if decide (Plan_MaximumInstances p < 0 ∨ Plan_MaximumVCPU p < 0 ∨
                      Plan_MaximumMemoryMB p < 0 ∨ Plan_MaximumStorageMB p < 0)
      then bad "maximum limits cannot be negative"
      else if decide (Plan_IncludedVCPU p < 0 ∨ Plan_IncludedMemoryMB p < 0 ∨
                      Plan_IncludedStorageMB p < 0 ∨ Plan_IncludedIPv4 p < 0)
      then bad "included allowances cannot be negative"
      else Ok p.

(** The fields the two requests share. *)
Record CreatePlanRequest : Type := mkCreatePlanRequest {
  CreatePlanRequest_Name : string;
  CreatePlanRequest_Slug : string;
  CreatePlanRequest_Description : string;
  CreatePlanRequest_Currency : string;
  CreatePlanRequest_MonthlyPriceMinor : Z;
  CreatePlanRequest_YearlyPriceMinor : Z;
  CreatePlanRequest_IncludedVCPU : Z;
  CreatePlanRequest_IncludedMemoryMB : Z;
  CreatePlanRequest_IncludedStorageMB : Z;
  CreatePlanRequest_IncludedIPv4 : Z;
  CreatePlanRequest_IncludedSnapshots : Z;
  CreatePlanRequest_IncludedBackups : Z;
  CreatePlanRequest_IncludedBandwidthGB : Z;
  CreatePlanRequest_MaximumInstances : Z;
  CreatePlanRequest_MaximumVCPU : Z;
  CreatePlanRequest_MaximumMemoryMB : Z;
  CreatePlanRequest_MaximumStorageMB : Z;
  CreatePlanRequest_Features : gmap string bool
}.

Record UpdatePlanRequest := mkUpdatePlanRequest {
  UpdatePlanRequest_Plan : CreatePlanRequest;
  UpdatePlanRequest_Active : bool
}.

Record SubscribeRequest : Type := mkSubscribeRequest {
  SubscribeRequest_PlanID : string;
  SubscribeRequest_BillingCycle : string
}.

Record ChangePlanRequest : Type := mkChangePlanRequest {
  ChangePlanRequest_NewPlanID : string;
  ChangePlanRequest_BillingCycle : string
}.

Definition requested_plan (id : string) (active : bool) (created updated : Z)
    (r : CreatePlanRequest) : Plan :=
  mkPlan id (CreatePlanRequest_Name r) (CreatePlanRequest_Slug r) (CreatePlanRequest_Description r)
    (CreatePlanRequest_Currency r) (CreatePlanRequest_MonthlyPriceMinor r)
    (CreatePlanRequest_YearlyPriceMinor r) (CreatePlanRequest_IncludedVCPU r)
    (CreatePlanRequest_IncludedMemoryMB r) (CreatePlanRequest_IncludedStorageMB r)
    (CreatePlanRequest_IncludedIPv4 r) (CreatePlanRequest_IncludedSnapshots r)
    (CreatePlanRequest_IncludedBackups r) (CreatePlanRequest_IncludedBandwidthGB r)
    (CreatePlanRequest_MaximumInstances r) (CreatePlanRequest_MaximumVCPU r)
    (CreatePlanRequest_MaximumMemoryMB r) (CreatePlanRequest_MaximumStorageMB r)
    (CreatePlanRequest_Features r) active created updated.

Section service.
Context {P A : Type} `{!PaymentProvider P, !AuditRepository A, !SortSlice}.
Context (auth : Authorizer) (has_provider has_audit : bool).
Abbreviation env := ((Books * P) * A)%type.

Definition on_invoices {X} (m : go Books X) : go env X := on_store (Invoice.on_books m).
Definition on_plans {X} (m : go BillingStore X) : go env X := on_invoices (in_billing m).

Definition logAudit (sub : option Subject) (action rtype rid : string) (det : option Details) :
    go env () :=
  if has_audit then
    let actor := match sub with
                 | Some s => if decide (Subject_UserID s = "") then None else Some (Subject_UserID s)
                 | None => None
                 end in
    let resID := if decide (rid = "") then None else Some rid in
    now ← time_Now;
    ignore (zoom snd (λ a s, (fst s, a))
      (Record_ (mkAuditLog 0 actor "" "" action rtype resID "" 0 det "info" "" "" now)))
  else mret ().

(** *** Plans *)

Definition CreatePlan (sub : option Subject) (req : CreatePlanRequest) : go env Plan :=
  authorize auth sub "billing:plans" None ;;
  id ← uuid_NewString;
  plan ← lift (Plan_Validate (requested_plan id true zero_time zero_time req));
  plan ← on_plans (plan_Create plan);
  logAudit sub "billing:plan:create" "plan" (Plan_ID plan)
    (Some (details [("name", AnyStr (Plan_Name plan)); ("slug", AnyStr (Plan_Slug plan))])) ;;
  mret plan.

Definition UpdatePlan (sub : option Subject) (id : string) (req : UpdatePlanRequest) : go env Plan :=
  authorize auth sub "billing:plans" None ;;
  existing ← on_plans (plan_GetByID id);
  plan ← lift (Plan_Validate (requested_plan (Plan_ID existing) (UpdatePlanRequest_Active req)
                 (Plan_CreatedAt existing) (Plan_UpdatedAt existing) (UpdatePlanRequest_Plan req)));
  plan ← on_plans (plan_Update plan);
  logAudit sub "billing:plan:update" "plan" (Plan_ID plan)
    (Some (details [("slug", AnyStr (Plan_Slug plan)); ("active", AnyBool (Plan_Active plan))])) ;;
  mret plan.

Definition DeactivatePlan (sub : option Subject) (id : string) : go env () :=
  authorize auth sub "billing:plans" None ;;
  existing ← on_plans (plan_GetByID id);
  on_plans (plan_Update (existing <| Plan_Active := false |>)) ;;
  logAudit sub "billing:plan:deactivate" "plan" id None.

Definition ListPlans (activeOnly : bool) : go env (list Plan) := on_plans (plan_List activeOnly).
Definition GetPlan (id : string) : go env Plan := on_plans (plan_GetByID id).

(** *** Subscriptions *)

Definition period_end (now : Z) (cycle : string) : Z :=
  if decide (cycle = BillingCycleYearly) then time_AddDate now 1 0 0 else time_AddDate now 0 1 0.

(** [err == nil && existing != nil && existing.Status == SubscriptionStatusActive]. *)
Definition subscribed (existing : result Subscription) : bool :=
  match existing with
  | Ok e => bool_decide (Subscription_Status e = SubscriptionStatusActive)
  | Err _ => false
  end.

(** The end of [SubscribeTenant], once the tenant may subscribe. *)
Definition open_subscription (sub : option Subject) (tenantID : string) (plan : Plan)
    (cycle : string) : go env Subscription :=
  now ← time_Now;
  id ← uuid_NewString;
  let subscription := mkSubscription id tenantID (Plan_ID plan) SubscriptionStatusActive cycle now
    (period_end now cycle) false now now in
  lift (Subscription_Validate subscription) ;;
  subscription ← on_plans (sub_Create subscription);
  logAudit sub "billing:subscription:create" "subscription" (Subscription_ID subscription)
    (Some (details [("planId", AnyStr (Plan_ID plan)); ("planName", AnyStr (Plan_Name plan));
                    ("billingCycle", AnyStr (Subscription_BillingCycle subscription))])) ;;
  mret subscription.

Definition SubscribeTenant (sub : option Subject) (req : SubscribeRequest) : go env Subscription :=
  authorize auth sub "billing:manage" None ;;
  tenantID ← caller_id sub;
  plan ← on_plans (plan_GetByID (SubscribeRequest_PlanID req));
  if decide (Plan_Active plan = false) then fail ErrPlanInactive
  else
    existing ← try (on_plans (sub_GetByTenantID tenantID));
    if subscribed existing then fail ErrSubscriptionAlreadyExists
    else open_subscription sub tenantID plan (SubscribeRequest_BillingCycle req).

Definition ChangePlan (sub : option Subject) (req : ChangePlanRequest) : go env Subscription :=
  authorize auth sub "billing:manage" None ;;
  tenantID ← caller_id sub;
  subscription ← on_plans (sub_GetByTenantID tenantID);
  newPlan ← on_plans (plan_GetByID (ChangePlanRequest_NewPlanID req));
  if decide (Plan_Active newPlan = false) then fail ErrPlanInactive
  else
    let oldPlanID := Subscription_PlanID subscription in
    let subscription := subscription <| Subscription_PlanID := Plan_ID newPlan |> in
    let subscription := if decide (ChangePlanRequest_BillingCycle req ≠ "")
      then subscription <| Subscription_BillingCycle := ChangePlanRequest_BillingCycle req |>
      else subscription in
    now ← time_Now;
    subscription ← on_plans (sub_Update (subscription <| Subscription_UpdatedAt := now |>));
    logAudit sub "billing:subscription:change" "subscription" (Subscription_ID subscription)
      (Some (details [("oldPlanId", AnyStr oldPlanID); ("newPlanId", AnyStr (Plan_ID newPlan));
                      ("planName", AnyStr (Plan_Name newPlan))])) ;;
    mret subscription.

Definition CancelSubscription (sub : option Subject) : go env () :=
  authorize auth sub "billing:manage" None ;;
  tenantID ← caller_id sub;
  subscription ← on_plans (sub_GetByTenantID tenantID);
  now ← time_Now;
  on_plans (sub_Update (subscription <| Subscription_CancelAtPeriodEnd := true |>
    <| Subscription_Status := SubscriptionStatusCanceled |> <| Subscription_UpdatedAt := now |>)) ;;
  logAudit sub "billing:subscription:cancel" "subscription" (Subscription_ID subscription) None.

(** Without a subscription, the first active plan of a map iteration. *)
Definition GetSubscription (sub : option Subject) : go env (option Subscription * Plan) :=
  authorize auth sub "billing:read" None ;;
  tenantID ← caller_id sub;
  subscription ← try (on_plans (sub_GetByTenantID tenantID));
  match subscription with
  | Err _ =>
      plans ← try (on_plans (plan_List true));
      match plans with
      | Ok (p :: _) => mret (None, p)
      | _ => fail ErrSubscriptionNotFound
      end
  | Ok subscription =>
      plan ← on_plans (plan_GetByID (Subscription_PlanID subscription));
      mret (Some subscription, plan)
  end.

Definition GetQuotas (sub : option Subject) : go env (QuotaSet * Plan) :=
  authorize auth sub "billing:read" None ;;
  tenantID ← caller_id sub;
  on_plans (GetTenantQuotas tenantID).

Definition GetUsage (sub : option Subject) (start end_ : Z) : go env UsageAggregate :=
  authorize auth sub "billing:read" None ;;
  start ← (if decide (IsZero start) then now ← time_Now; mret (time_AddDate now 0 (-1) 0)
           else mret start);
  end_ ← (if decide (IsZero end_) then time_Now else mret end_);
  tenantID ← caller_id sub;
  on_invoices (GetAggregate tenantID start end_).

(** *** Invoices *)

Definition ListInvoices (sub : option Subject) (limit offset : Z) : go env (list Invoice) :=
  authorize auth sub "billing:read" None ;;
  tenantID ← caller_id sub;
  on_invoices (invoice_ListByTenant tenantID limit offset).

Definition sees_all_invoices (s : Subject) : bool :=
  HasPermission s "*" || HasRole s "admin" || HasRole s "superadmin".

Definition GetInvoice (sub : option Subject) (id : string) : go env Invoice :=
  authorize auth sub "billing:read" None ;;
  inv ← on_invoices (invoice_GetByID id);
  match sub with
  | None => lift (panic "nil pointer dereference")
  | Some s =>
      if negb (sees_all_invoices s) && bool_decide (Invoice_TenantID inv ≠ Subject_UserID s)
      then fail ErrInvoiceNotFound else mret inv
  end.

Definition ListAllSubscriptions (sub : option Subject) : go env (list Subscription) :=
  authorize auth sub "billing:admin" None ;;
  on_plans sub_List.

Definition ListAllInvoices (sub : option Subject) (limit offset : Z) : go env (list Invoice) :=
  authorize auth sub "billing:admin" None ;;
  on_invoices (invoice_ListAll limit offset).

Definition VoidInvoice (sub : option Subject) (id : string) : go env () :=
  authorize auth sub "billing:admin" None ;;
  on_invoices (invoice_UpdateStatus id InvoiceStatusVoid None) ;;
  logAudit sub "billing:invoice:void" "invoice" id None.

Definition status_text (s : InvoiceStatus) : string :=
  match s with
  | InvoiceStatusDraft => "draft"
  | InvoiceStatusOpen => "open"
  | InvoiceStatusPaid => "paid"
  | InvoiceStatusVoid => "void"
  | InvoiceStatusUncollectible => "uncollectible"
  end.

(** The invoice engine is built without a tax rate. *)
Definition RegenerateInvoice (sub : option Subject) (tenantID : string) (start end_ : Z) :
    go env Invoice :=
  authorize auth sub "billing:admin" None ;;
  let idemKey := "regen-" +:+ tenantID +:+ "-" +:+ fmt_d (Unix start) +:+ "-" +:+
                 fmt_d (Unix end_) in
  inv ← on_store (GenerateInvoice has_provider (of_int 0) tenantID start end_ idemKey);
  logAudit sub "billing:invoice:create" "invoice" (Invoice_ID inv)
    (Some (details [("tenantId", AnyStr tenantID); ("totalMinor", AnyInt (Invoice_TotalMinor inv));
                    ("status", AnyStr (status_text (Invoice_Status inv)))])) ;;
  mret inv.
End service.

(** ** Plans and subscriptions in order *)

(** What [Validate] makes of a plan. *)
Record plan_ok (p : Plan) : Prop := {
  pk_name : Plan_Name p ≠ "" ∧ (String.length (Plan_Name p) ≤ 100)%nat;
  pk_slug : plan_slugRegex (Plan_Slug p) = true;
  pk_currency : String.length (Plan_Currency p) = 3%nat;
  pk_prices : 0 ≤ Plan_MonthlyPriceMinor p ∧ 0 ≤ Plan_YearlyPriceMinor p;
  pk_maxima : 0 ≤ Plan_MaximumInstances p ∧ 0 ≤ Plan_MaximumVCPU p ∧
    0 ≤ Plan_MaximumMemoryMB p ∧ 0 ≤ Plan_MaximumStorageMB p;
  pk_included : 0 ≤ Plan_IncludedVCPU p ∧ 0 ≤ Plan_IncludedMemoryMB p ∧
    0 ≤ Plan_IncludedStorageMB p ∧ 0 ≤ Plan_IncludedIPv4 p
}.

Lemma Plan_Validate_ok p p' : Plan_Validate p = Ok p' →
  plan_ok p' ∧ Plan_ID p' = Plan_ID p ∧ Plan_Active p' = Plan_Active p.
Proof.
  unfold Plan_Validate. cbv zeta. case_decide as Hname; [done|].
  destruct (plan_slugRegex _) eqn:Hs; cbn [negb]; [|done].
  repeat (case_decide; [done|]). intros [= <-]. cbn in *.
  split; [|done]. split; cbn; [split; [tauto|apply Nat.nlt_ge; tauto]|done|assumption|lia|lia|lia].
Qed.

(** The accounts: plans are valid and filed under their identifier with slugs
    of their own; a subscription belongs to a tenant and a plan that is there;
    the tenant index points to a subscription of the tenant, and to the active
    one if there is one. *)
Record accounts_ok (s : BillingStore) : Prop := {
  ac_plans : ∀ id p, BillingStore_plans s !! id = Some p → Plan_ID p = id ∧ plan_ok p;
  ac_slugs : ∀ id p id' p', BillingStore_plans s !! id = Some p →
    BillingStore_plans s !! id' = Some p' → Plan_Slug p = Plan_Slug p' → id = id';
  ac_subs : ∀ id x, BillingStore_subscriptions s !! id = Some x →
    Subscription_ID x = id ∧ Subscription_TenantID x ≠ "" ∧
    is_Some (BillingStore_plans s !! Subscription_PlanID x) ∧
    Subscription_CurrentPeriodStart x ≤ Subscription_CurrentPeriodEnd x;
  ac_index : ∀ t id, BillingStore_tenantSubs s !! t = Some id →
    ∃ x, BillingStore_subscriptions s !! id = Some x ∧ Subscription_TenantID x = t;
  ac_active : ∀ id x, BillingStore_subscriptions s !! id = Some x →
    Subscription_Status x = SubscriptionStatusActive →
    BillingStore_tenantSubs s !! Subscription_TenantID x = Some id
}.

Lemma put_plan_ok s key p :
  accounts_ok s → Plan_ID p = key → plan_ok p →
  (∀ id q, BillingStore_plans s !! id = Some q → id ≠ key → Plan_Slug q ≠ Plan_Slug p) →
  accounts_ok (s <| BillingStore_plans := <[key := p]> (BillingStore_plans s) |>).
Proof.
  intros [Hp Hs Hx Hi Ha] <- Hok Hnew. split; cbn; [| | |done|done].
  - intros id q. rewrite lookup_insert. case_decide; [intros [= <-]; by subst|apply Hp].
  - intros id q id' q'. rewrite !lookup_insert. repeat case_decide; [congruence|..|apply Hs].
    + intros [= <-] Hq' Heq. exfalso. by apply (Hnew id' q').
    + intros Hq [= <-] Heq. exfalso. by apply (Hnew id q).
  - intros id x Hid. destruct (Hx id x Hid) as (H1 & H2 & H3 & H4). split_and!; try done.
    rewrite lookup_insert. case_decide; [by eexists|done].
Qed.

Lemma store_sub_ok s x :
  accounts_ok s → Subscription_TenantID x ≠ "" →
  is_Some (BillingStore_plans s !! Subscription_PlanID x) →
  Subscription_CurrentPeriodStart x ≤ Subscription_CurrentPeriodEnd x →
  (∀ y, BillingStore_subscriptions s !! Subscription_ID x = Some y →
     Subscription_TenantID y = Subscription_TenantID x) →
  (∀ id y, BillingStore_subscriptions s !! id = Some y →
     Subscription_TenantID y = Subscription_TenantID x →
     Subscription_Status y = SubscriptionStatusActive → id = Subscription_ID x) →
  accounts_ok (store_sub x s).
Proof.
  intros [Hp Hs Hx Hi Ha] Ht Hplan Hperiod Hold Hact. split; cbn; [done|done|..].
  - intros id y. rewrite lookup_insert. case_decide; [intros [= <-]; by subst|apply Hx].
  - intros t id. rewrite lookup_insert. case_decide as Heq.
    + intros [= <-]. exists x. by rewrite lookup_insert_eq.
    + intros Ht'. destruct (Hi t id Ht') as (y & Hy & Hyt). exists y.
      rewrite lookup_insert_ne; [done|]. intros <-. rewrite (Hold y Hy) in Hyt. congruence.
  - intros id y. rewrite !lookup_insert. case_decide as Hid.
    + intros [= <-] _. rewrite decide_True by done. by subst.
    + intros Hy Hact'. case_decide as Ht'; [|by apply Ha].
      exfalso. apply Hid. symmetry. by apply (Hact id y).
Qed.

(** ** Histories of calls *)

Section history.
Context {P A : Type} `{!PaymentProvider P, !AuditRepository A, !SortSlice}.
Context (auth : Authorizer) (has_provider has_audit : bool).
Abbreviation env := ((Books * P) * A)%type.
Implicit Types st : env.

Definition accounts st : BillingStore := Books_billing st.1.1.

Lemma wp_on_plans {X} (m : go BillingStore X) (Q : result X → env → World → Prop) w st :
  wp m (λ r b w', ∀ st', accounts st' = b → Q r st' w') w (accounts st) → wp (on_plans m) Q w st.
Proof.
  intros Hm. unfold on_plans, on_invoices, in_billing, on_books, on_store. rewrite !wp_zoom.
  eapply wp_mono; [exact Hm|]. intros r b w' HQ. by apply HQ.
Qed.

Lemma wp_log_billing sub action rtype rid det (Q : result () → env → World → Prop) w st :
  (∀ st' w', st'.1 = st.1 → Q (Ok ()) st' w') →
  wp (logAudit has_audit sub action rtype rid det) Q w st.
Proof.
  intros HQ. unfold logAudit. destruct has_audit; [|by rewrite wp_ret; apply HQ].
  rewrite wp_bind, wp_now, wp_ignore, wp_zoom. apply wp_elim. by apply HQ.
Qed.

(** The audited end of a call. *)
Lemma wp_logged {X} sub action rtype rid det (x : X) (Q : result X → env → World → Prop) w st :
  (∀ st' w', accounts st' = accounts st → Q (Ok x) st' w') →
  wp (logAudit has_audit sub action rtype rid det ;; mret x) Q w st.
Proof.
  intros HQ. rewrite wp_bind. apply wp_log_billing. intros st' w' He. rewrite wp_ret.
  apply HQ. unfold accounts. by rewrite He.
Qed.

(** Lookups leave the accounts alone. *)
Lemma wp_plan id (Q : result Plan → env → World → Prop) w st :
  (∀ st', accounts st' = accounts st → BillingStore_plans (accounts st) !! id = None →
     Q (Err ErrPlanNotFound) st' w) →
  (∀ p st', accounts st' = accounts st → BillingStore_plans (accounts st) !! id = Some p →
     Q (Ok p) st' w) →
  wp (on_plans (plan_GetByID id)) Q w st.
Proof.
  intros Hno Hyes. apply wp_on_plans. unfold plan_GetByID. rewrite wp_bind, wp_get.
  destruct (_ !! id) as [p|] eqn:Hp.
  - rewrite wp_ret. intros st' Hs. by apply Hyes.
  - rewrite wp_fail. intros st' Hs. by apply Hno.
Qed.

(** The subscription [sub_GetByTenantID] answers. *)
Definition subscription_of (s : BillingStore) (tenant : string) : option Subscription :=
  id ← BillingStore_tenantSubs s !! tenant; BillingStore_subscriptions s !! id.

Lemma wp_subscription tenant (Q : result Subscription → env → World → Prop) w st :
  (∀ e st', accounts st' = accounts st → subscription_of (accounts st) tenant = None →
     Q (Err e) st' w) →
  (∀ x st', accounts st' = accounts st → subscription_of (accounts st) tenant = Some x →
     Q (Ok x) st' w) →
  wp (on_plans (sub_GetByTenantID tenant)) Q w st.
Proof.
  intros Hno Hyes. apply wp_on_plans. unfold sub_GetByTenantID, sub_GetByID, subscription_of in *.
  rewrite wp_bind, wp_get. destruct (_ !! tenant) as [id|]; cbn [mbind option_bind] in *.
  - rewrite wp_bind, wp_get. destruct (_ !! id) as [x|] eqn:Hx.
    + rewrite wp_ret. intros st' Hs. by apply Hyes.
    + rewrite wp_fail. intros st' Hs. by apply Hno.
  - rewrite wp_fail. intros st' Hs. by apply Hno.
Qed.

Lemma subscription_of_ok s tenant x : accounts_ok s → subscription_of s tenant = Some x →
  BillingStore_subscriptions s !! Subscription_ID x = Some x ∧ Subscription_TenantID x = tenant ∧
  BillingStore_tenantSubs s !! tenant = Some (Subscription_ID x).
Proof.
  intros Hok. unfold subscription_of. destruct (_ !! tenant) as [id|] eqn:Ht; [|done]. cbn.
  intros Hx. destruct (ac_subs s Hok id x Hx) as [Hid _].
  destruct (ac_index s Hok tenant id Ht) as (y & Hy & Hyt).
  assert (y = x) as -> by congruence. rewrite Hid. by split_and!.
Qed.

(** The writes of the plan repository. *)
Lemma wp_plan_Create p (Q : result Plan → env → World → Prop) w st :
  World_ok w → accounts_ok (accounts st) → plan_ok p →
  (∀ e st' w', accounts st' = accounts st → Q (Err e) st' w') →
  (∀ q st' w', accounts_ok (accounts st') → Q (Ok q) st' w') →
  wp (on_plans (plan_Create p)) Q w st.
Proof.
  intros Hw Hok Hp Hno Hyes. apply wp_on_plans. unfold plan_Create.
  rewrite wp_bind, wp_get, wp_bind, wp_range. destruct (list_find _ _) as [[i [k q]]|] eqn:Hf.
  { rewrite wp_fail. intros st' Hs. by apply Hno. }
  rewrite find_entries_None in Hf by done.
  rewrite wp_bind. case_decide; wp_step; intros st' Hs; apply Hyes; rewrite Hs;
    (apply put_plan_ok; [done|done|by destruct Hp; split|]);
    intros id q Hq _ Heq; apply (Hf id q Hq); cbn in *; unfold EqualFold; by rewrite Heq.
Qed.

Lemma wp_plan_Update p (Q : result Plan → env → World → Prop) w st :
  World_ok w → accounts_ok (accounts st) → plan_ok p →
  (∀ e st' w', accounts st' = accounts st → Q (Err e) st' w') →
  (∀ q st' w', accounts_ok (accounts st') → Q (Ok q) st' w') →
  wp (on_plans (plan_Update p)) Q w st.
Proof.
  intros Hw Hok Hp Hno Hyes. apply wp_on_plans. unfold plan_Update.
  rewrite wp_bind, wp_get. destruct (_ !! Plan_ID p) as [old|] eqn:Hold.
  2:{ rewrite wp_fail. intros st' Hs. by apply Hno. }
  rewrite wp_bind, wp_range. destruct (list_find _ _) as [[i [k q]]|] eqn:Hf.
  { rewrite wp_fail. intros st' Hs. by apply Hno. }
  rewrite find_entries_None in Hf by done. wp_step. intros st' Hs. apply Hyes. rewrite Hs.
  apply put_plan_ok; [done|done|by destruct Hp; split|].
  intros id q Hq Hne Heq. apply (Hf id q Hq). cbn in *. unfold EqualFold. rewrite Heq.
  split; [|done]. by destruct (ac_plans _ Hok id q Hq) as [-> _].
Qed.

(** What a call keeps. *)
Definition keeps {X} (m : go env X) w st : Prop :=
  wp m (λ _ st' _, accounts_ok (accounts st')) w st.

Lemma keeps_exec {X} (m : go env X) w st : keeps m w st → accounts_ok (accounts (exec m w st)).
Proof. apply (proj1 (wp_elim m (λ _ st' _, accounts_ok (accounts st')) w st)). Qed.

Lemma same_ok st st' : accounts st' = accounts st → accounts_ok (accounts st) → accounts_ok (accounts st').
Proof. by intros ->. Qed.

(** A subscription identifier that is generated is new. *)
Definition fresh_ids w st : Prop := ∀ n, BillingStore_subscriptions (accounts st) !! w_uuid w n = None.

Lemma wp_authorize sub action res (Q : result () → env → World → Prop) w st :
  (@Authorize auth sub action res = Ok () → Q (Ok ()) st w) →
  (∀ e, @Authorize auth sub action res = Err e → Q (Err e) st w) →
  wp (authorize auth sub action res) Q w st.
Proof. intros Hyes Hno. unfold authorize. rewrite wp_lift. destruct (Authorize _ _ _) as [[]|e]; auto. Qed.

Lemma wp_caller sub (Q : result string → env → World → Prop) w st :
  (∀ e, Q (Err e) st w) → (∀ s, sub = Some s → Q (Ok (Subject_UserID s)) st w) →
  wp (caller_id sub) Q w st.
Proof. intros Hno Hyes. unfold caller_id. destruct sub as [s|]; [rewrite wp_ret; by apply (Hyes s)|rewrite wp_lift; apply Hno]. Qed.

Lemma CreatePlan_keeps sub req w st :
  World_ok w → accounts_ok (accounts st) → keeps (CreatePlan auth has_audit sub req) w st.
Proof.
  intros Hw Hok. unfold keeps, CreatePlan. rewrite wp_bind. apply wp_authorize; [intros _|done].
  rewrite wp_bind, wp_uuid, wp_bind, wp_lift. destruct (Plan_Validate _) as [p|e] eqn:Hv; [|done].
  apply Plan_Validate_ok in Hv as [Hp _]. rewrite wp_bind. apply wp_plan_Create; [done..| |].
  - intros e st1 w1 Hs. by eapply same_ok.
  - intros q st1 w1 Hok1. apply wp_logged. intros st2 w2 Hs. by eapply same_ok.
Qed.

Lemma UpdatePlan_keeps sub id req w st :
  World_ok w → accounts_ok (accounts st) → keeps (UpdatePlan auth has_audit sub id req) w st.
Proof.
  intros Hw Hok. unfold keeps, UpdatePlan. rewrite wp_bind. apply wp_authorize; [intros _|done].
  rewrite wp_bind. apply wp_plan; [intros st1 Hs _; by eapply same_ok|].
  intros old st1 Hs1 _. apply (same_ok _ _ Hs1) in Hok. rewrite wp_bind, wp_lift.
  destruct (Plan_Validate _) as [p|e] eqn:Hv; [|done].
  apply Plan_Validate_ok in Hv as [Hp _]. rewrite wp_bind. apply wp_plan_Update; [done..| |].
  - intros e st2 w1 Hs. by eapply same_ok.
  - intros q st2 w1 Hok1. apply wp_logged. intros st3 w2 Hs. by eapply same_ok.
Qed.

Lemma DeactivatePlan_keeps sub id w st :
  World_ok w → accounts_ok (accounts st) → keeps (DeactivatePlan auth has_audit sub id) w st.
Proof.
  intros Hw Hok. unfold keeps, DeactivatePlan. rewrite wp_bind. apply wp_authorize; [intros _|done].
  rewrite wp_bind. apply wp_plan; [intros st1 Hs _; by eapply same_ok|].
  intros p st1 Hs1 Hp. destruct (ac_plans _ Hok id p Hp) as [_ Hpok].
  apply (same_ok _ _ Hs1) in Hok. rewrite wp_bind.
  apply wp_plan_Update; [done|done|by destruct Hpok; split|..].
  - intros e st2 w1 Hs. by eapply same_ok.
  - intros q st2 w1 Hok1. apply wp_log_billing. intros st3 w2 Hs. unfold accounts in *. by rewrite Hs.
Qed.

(** A new subscription of a tenant without an active one. *)
Lemma wp_sub_Create x (Q : result Subscription → env → World → Prop) w st :
  fresh_ids w st → accounts_ok (accounts st) → Subscription_TenantID x ≠ "" →
  BillingStore_subscriptions (accounts st) !! Subscription_ID x = None →
  is_Some (BillingStore_plans (accounts st) !! Subscription_PlanID x) →
  Subscription_CurrentPeriodStart x ≤ Subscription_CurrentPeriodEnd x →
  (∀ y, subscription_of (accounts st) (Subscription_TenantID x) = Some y →
     Subscription_Status y ≠ SubscriptionStatusActive) →
  (∀ id now st' w', let y := ((x <| Subscription_ID := id |>) <| Subscription_CreatedAt := now |>)
                       <| Subscription_UpdatedAt := now |> in
     (Subscription_ID x ≠ "" → id = Subscription_ID x) →
     accounts st' = store_sub y (accounts st) → accounts_ok (accounts st') → Q (Ok y) st' w') →
  wp (on_plans (sub_Create x)) Q w st.
Proof.
  intros Hfresh Hok Ht Hnew Hplan Hperiod Hnone HQ. apply wp_on_plans. unfold sub_Create.
  assert (∀ id now, BillingStore_subscriptions (accounts st) !! id = None →
    accounts_ok (store_sub (((x <| Subscription_ID := id |>) <| Subscription_CreatedAt := now |>)
                       <| Subscription_UpdatedAt := now |>) (accounts st))) as Hput.
  { intros id now Hid. apply store_sub_ok; cbn; [done..|congruence|].
    intros i y Hy Hyt Hact. exfalso. apply (Hnone y); [|done]. unfold subscription_of.
    rewrite <-Hyt, (ac_active _ Hok i y Hy Hact). exact Hy. }
  rewrite wp_bind. case_decide as Hid; wp_step; intros st' Hs; (eapply HQ; [|exact Hs|rewrite Hs; by apply Hput]).
  - done.
  - done.
Qed.

Lemma period_end_bounds now cycle :
  let e := period_end now cycle in
  if decide (cycle = BillingCycleYearly) then now + 365 * Day ≤ e ≤ now + 366 * Day
  else now + 28 * Day ≤ e ≤ now + 31 * Day.
Proof.
  unfold period_end. case_decide; [apply time_AddDate_year|apply time_AddDate_month].
Qed.

Lemma period_end_after now cycle : now ≤ period_end now cycle.
Proof.
  pose proof (period_end_bounds now cycle) as Hb. assert (0 < Day) by done.
  cbn in Hb. case_decide; lia.
Qed.

(** The caller may subscribe to this plan now. *)
Record may_subscribe (s : Subject) (req : SubscribeRequest) st (p : Plan) : Prop := {
  ms_auth : @Authorize auth (Some s) "billing:manage" None = Ok ();
  ms_plan : BillingStore_plans (accounts st) !! SubscribeRequest_PlanID req = Some p;
  ms_active : Plan_Active p = true;
  ms_first : ∀ y, subscription_of (accounts st) (Subject_UserID s) = Some y →
    Subscription_Status y ≠ SubscriptionStatusActive;
  ms_named : Subject_UserID s ≠ "" ∧ SubscribeRequest_PlanID req ≠ "";
  ms_cycle : SubscribeRequest_BillingCycle req ∈ [BillingCycleMonthly; BillingCycleYearly]
}.

(** The subscription a successful call makes. *)
Record subscribed_to (s : Subject) (req : SubscribeRequest) (x : Subscription) : Prop := {
  sb_tenant : Subscription_TenantID x = Subject_UserID s;
  sb_plan : Subscription_PlanID x = SubscribeRequest_PlanID req;
  sb_status : Subscription_Status x = SubscriptionStatusActive;
  sb_cycle : Subscription_BillingCycle x = SubscribeRequest_BillingCycle req;
  sb_period : Subscription_CurrentPeriodEnd x =
    period_end (Subscription_CurrentPeriodStart x) (SubscribeRequest_BillingCycle req)
}.

Lemma Subscription_Validate_new id tenant plan cycle now :
  Subscription_Validate (mkSubscription id tenant plan SubscriptionStatusActive cycle now
    (period_end now cycle) false now now) = Ok () ↔
  tenant ≠ "" ∧ plan ≠ "" ∧ cycle ∈ [BillingCycleMonthly; BillingCycleYearly].
Proof.
  unfold Subscription_Validate. cbv zeta. cbn. pose proof (period_end_after now cycle).
  rewrite (decide_False (P := period_end now cycle < now)) by lia.
  repeat case_decide; (split; [try done|try tauto]).
  - intros (_ & _ & Hc). set_unfold in Hc. intuition.
  - intros _. split_and!; [done..|]. set_unfold.
    destruct (decide (cycle = BillingCycleMonthly)); [by left|].
    destruct (decide (cycle = BillingCycleYearly)); [by right; left|]. tauto.
Qed.

Lemma wp_open_subscription sub tenant p cycle (Q : result Subscription → env → World → Prop) w st :
  fresh_ids w st → accounts_ok (accounts st) →
  BillingStore_plans (accounts st) !! Plan_ID p = Some p →
  (∀ y, subscription_of (accounts st) tenant = Some y →
     Subscription_Status y ≠ SubscriptionStatusActive) →
  (∀ e w', ¬ (tenant ≠ "" ∧ Plan_ID p ≠ "" ∧ cycle ∈ [BillingCycleMonthly; BillingCycleYearly]) →
     Q (Err e) st w') →
  (∀ id now created st' w', let x := mkSubscription id tenant (Plan_ID p) SubscriptionStatusActive
       cycle now (period_end now cycle) false created created in
     tenant ≠ "" ∧ Plan_ID p ≠ "" ∧ cycle ∈ [BillingCycleMonthly; BillingCycleYearly] →
     accounts st' = store_sub x (accounts st) → accounts_ok (accounts st') → Q (Ok x) st' w') →
  wp (open_subscription has_audit sub tenant p cycle) Q w st.
Proof.
  intros Hfresh Hok Hp Hfirst Hbad Hgood. unfold open_subscription.
  rewrite wp_bind, wp_now, wp_bind, wp_uuid. cbv zeta. rewrite wp_bind, wp_lift.
  set (x := mkSubscription _ _ _ _ _ _ _ _ _ _).
  destruct (Subscription_Validate x) as [[]|e] eqn:Hv.
  2:{ apply Hbad. intros Hv'%(Subscription_Validate_new (Subscription_ID x) _ _ _ (now_of w)).
      change (Subscription_Validate x = Ok ()) in Hv'. congruence. }
  apply Subscription_Validate_new in Hv as Hv'. rewrite wp_bind.
  apply wp_sub_Create; cbn; [done|done|apply Hv'|apply Hfresh|by eexists|apply period_end_after|done|].
  intros id now st1 w1 Hyid Hs1 Hok1. apply wp_logged. intros st2 w2 Hs2.
  by apply Hgood; [done|rewrite Hs2..].
Qed.

Lemma SubscribeTenant_effect s req w st :
  fresh_ids w st → accounts_ok (accounts st) →
  wp (SubscribeTenant auth has_audit (Some s) req) (λ r st' _, accounts_ok (accounts st') ∧
    match r with
    | Ok x => (∃ p, may_subscribe s req st p) ∧ subscribed_to s req x ∧
        accounts st' = store_sub x (accounts st)
    | Err _ => accounts st' = accounts st ∧ ¬ ∃ p, may_subscribe s req st p
    end) w st.
Proof.
  intros Hfresh Hok. unfold SubscribeTenant. rewrite wp_bind. apply wp_authorize.
  2:{ intros e He. split; [done|]. split; [done|]. intros [p Hp%ms_auth]. congruence. }
  intros Hauth. cbn [caller_id]. rewrite wp_bind, wp_ret, wp_bind. apply wp_plan.
  { intros st1 Hs Hno. split; [by eapply same_ok|]. split; [done|].
    intros [p Hp%ms_plan]. congruence. }
  intros p st1 Hs1 Hp. destruct (ac_plans _ Hok _ _ Hp) as [Hpid _].
  assert (∀ q, may_subscribe s req st q → q = p) as Hone.
  { intros q Hq%ms_plan. congruence. }
  case_decide as Hact.
  { rewrite wp_fail. split; [by eapply same_ok|]. split; [done|].
    intros [q Hq]. pose proof (Hone q Hq) as ->. apply ms_active in Hq. congruence. }
  rewrite wp_bind, wp_try.
  assert (∀ st2, accounts st2 = accounts st → (∀ y, subscription_of (accounts st) (Subject_UserID s) = Some y →
      Subscription_Status y ≠ SubscriptionStatusActive) →
    wp (open_subscription has_audit (Some s) (Subject_UserID s) p (SubscribeRequest_BillingCycle req))
      (λ r st' _, accounts_ok (accounts st') ∧ match r with
       | Ok x => (∃ p, may_subscribe s req st p) ∧ subscribed_to s req x ∧
           accounts st' = store_sub x (accounts st)
       | Err _ => accounts st' = accounts st ∧ ¬ ∃ p, may_subscribe s req st p
       end) w st2) as Hopen.
  { intros st2 Hs2 Hfirst. apply wp_open_subscription; rewrite ?Hs2, ?Hpid; try done.
    - intros n. rewrite Hs2. apply Hfresh.
    - intros e w' Hno. split; [done|]. split; [done|]. intros [q Hq]. apply Hno.
      destruct Hq as [_ _ _ _ [? ?] ?]. done.
    - intros id now created st' w' x (Ht & Hpne & Hc) Hs Hok'. split; [done|]. split; [|by split].
      exists p. split; [done|done|by destruct (Plan_Active p)|done|done|done]. }
  apply wp_subscription; rewrite Hs1; [intros e st2 Hs2 Hno|intros y st2 Hs2 Hy].
  - cbn. apply Hopen; [done|congruence].
  - cbn. case_bool_decide as Hst.
    + rewrite wp_fail. split; [by eapply same_ok|]. split; [done|].
      intros [q Hq]. exact (ms_first _ _ _ _ Hq y Hy Hst).
    + apply Hopen; [done|congruence].
Qed.

(** An update of the subscription the tenant index points to. *)
Lemma wp_sub_Update x y (Q : result Subscription → env → World → Prop) w st :
  accounts_ok (accounts st) → subscription_of (accounts st) (Subscription_TenantID x) = Some y →
  Subscription_ID x = Subscription_ID y →
  is_Some (BillingStore_plans (accounts st) !! Subscription_PlanID x) →
  Subscription_CurrentPeriodStart x ≤ Subscription_CurrentPeriodEnd x →
  (∀ z st' w', Subscription_ID z = Subscription_ID x → accounts_ok (accounts st') → Q (Ok z) st' w') →
  wp (on_plans (sub_Update x)) Q w st.
Proof.
  intros Hok Hsub Hid Hplan Hperiod HQ.
  destruct (subscription_of_ok _ _ _ Hok Hsub) as (Hy & Hyt & Hidx).
  destruct (ac_subs _ Hok _ _ Hy) as (_ & Ht & _).
  apply wp_on_plans. unfold sub_Update, sub_GetByID. rewrite wp_bind, wp_bind, wp_get, Hid, Hy.
  wp_step. intros st' Hs. apply HQ; [done|]. rewrite Hs. apply store_sub_ok; cbn.
  - done.
  - congruence.
  - done.
  - done.
  - rewrite Hid. intros z Hz. congruence.
  - intros i z Hz Hzt Hact. rewrite Hid. pose proof (ac_active _ Hok _ _ Hz Hact). congruence.
Qed.

Lemma ChangePlan_keeps sub req w st :
  accounts_ok (accounts st) → keeps (ChangePlan auth has_audit sub req) w st.
Proof.
  intros Hok. unfold keeps, ChangePlan. rewrite wp_bind. apply wp_authorize; [intros _|done].
  rewrite wp_bind. apply wp_caller; [done|]. intros s _. rewrite wp_bind. apply wp_subscription.
  { intros e st1 Hs _. by eapply same_ok. }
  intros x st1 Hs1 Hx. destruct (subscription_of_ok _ _ _ Hok Hx) as (Hsx & Htx & _).
  destruct (ac_subs _ Hok _ _ Hsx) as (_ & _ & _ & Hperiod).
  rewrite wp_bind. apply wp_plan; rewrite Hs1; [by intros st2 -> _|].
  intros p st2 Hs2 Hp. destruct (ac_plans _ Hok _ _ Hp) as [Hpid _].
  case_decide; [rewrite wp_fail; by rewrite Hs2|].
  rewrite wp_bind, wp_now. cbv zeta. rewrite wp_bind. eapply wp_sub_Update; rewrite ?Hs2.
  - done.
  - case_decide; cbn; rewrite Htx; exact Hx.
  - by case_decide.
  - case_decide; cbn; rewrite Hpid; by eexists.
  - by case_decide.
  - intros z st3 w3 _ Hok3. apply wp_logged. by intros st4 w4 ->.
Qed.

Lemma CancelSubscription_keeps sub w st :
  accounts_ok (accounts st) → keeps (CancelSubscription auth has_audit sub) w st.
Proof.
  intros Hok. unfold keeps, CancelSubscription. rewrite wp_bind. apply wp_authorize; [intros _|done].
  rewrite wp_bind. apply wp_caller; [done|]. intros s _. rewrite wp_bind. apply wp_subscription.
  { intros e st1 Hs _. by eapply same_ok. }
  intros x st1 Hs1 Hx. destruct (subscription_of_ok _ _ _ Hok Hx) as (Hsx & Htx & _).
  destruct (ac_subs _ Hok _ _ Hsx) as (_ & _ & Hplan & Hperiod).
  rewrite wp_bind, wp_now, wp_bind. eapply wp_sub_Update; rewrite ?Hs1; cbn; rewrite ?Htx; try done.
  intros z st3 w3 _ Hok3. apply wp_log_billing. intros st4 w4 Hs4. unfold accounts in *. by rewrite Hs4.
Qed.

(** Invoices leave the accounts alone. *)
Lemma VoidInvoice_keeps sub id w st :
  accounts_ok (accounts st) → keeps (VoidInvoice auth has_audit sub id) w st.
Proof.
  intros Hok. unfold keeps, VoidInvoice. rewrite wp_bind. apply wp_authorize; [intros _|done].
  rewrite wp_bind. unfold on_invoices, Invoice.on_books, on_store. rewrite !wp_zoom.
  unfold invoice_UpdateStatus, invoice_GetByID. wp_step. destruct (_ !! id); wp_step; [|done].
  apply wp_log_billing. intros st1 w1 Hs. unfold accounts in *. by rewrite Hs.
Qed.

Lemma RegenerateInvoice_keeps sub tenant start end_ w st :
  (∀ n, w_uuid w n ≠ "") → accounts_ok (accounts st) →
  keeps (RegenerateInvoice auth has_provider has_audit sub tenant start end_) w st.
Proof.
  intros Hw Hok. unfold keeps, RegenerateInvoice. rewrite wp_bind.
  apply wp_authorize; [intros _|done]. cbv zeta. rewrite wp_bind. unfold on_store. rewrite wp_zoom.
  destruct st as [[b p] a]. eapply wp_mono; [by apply GenerateInvoice_run|].
  intros r s' w' Hr. cbn in Hr.
  assert (Books_billing s'.1 = Books_billing b) as Hb.
  { destruct (keyed_invoice b _); [by destruct Hr as [_ ->]|].
    destruct r; [by destruct Hr as [_ ->]|by subst s']. }
  destruct r as [inv|e]; unfold accounts in *; cbn in *; [|by rewrite Hb].
  apply wp_logged. intros st2 w2 Hs2. unfold accounts in *. cbn in *. by rewrite Hs2, Hb.
Qed.

(** One call of the service, or of the quota engine on behalf of another. *)
Inductive billing_step st : env → Prop :=
  | bs_create w sub req : World_ok w → billing_step st (exec (CreatePlan auth has_audit sub req) w st)
  | bs_update w sub id req : World_ok w →
      billing_step st (exec (UpdatePlan auth has_audit sub id req) w st)
  | bs_deactivate w sub id : World_ok w →
      billing_step st (exec (DeactivatePlan auth has_audit sub id) w st)
  | bs_subscribe w sub req : fresh_ids w st →
      billing_step st (exec (SubscribeTenant auth has_audit sub req) w st)
  | bs_change w sub req : billing_step st (exec (ChangePlan auth has_audit sub req) w st)
  | bs_cancel w sub : billing_step st (exec (CancelSubscription auth has_audit sub) w st)
  | bs_void w sub id : billing_step st (exec (VoidInvoice auth has_audit sub id) w st)
  | bs_regenerate w sub tenant start end_ : (∀ n, w_uuid w n ≠ "") →
      billing_step st
        (exec (RegenerateInvoice auth has_provider has_audit sub tenant start end_) w st).

Lemma billing_step_ok st st' : billing_step st st' → accounts_ok (accounts st) → accounts_ok (accounts st').
Proof.
  intros Hstep Hok. destruct Hstep.
  - by apply keeps_exec, CreatePlan_keeps.
  - by apply keeps_exec, UpdatePlan_keeps.
  - by apply keeps_exec, DeactivatePlan_keeps.
  - destruct sub as [s|].
    + apply keeps_exec. eapply wp_mono; [by apply SubscribeTenant_effect|]. by intros r st' w' [Hok' _].
    + unfold exec, SubscribeTenant, authorize, mbind, go_bind, lift.
      by destruct (Authorize _ _ _) as [[]|e].
  - by apply keeps_exec, ChangePlan_keeps.
  - by apply keeps_exec, CancelSubscription_keeps.
  - by apply keeps_exec, VoidInvoice_keeps.
  - by apply keeps_exec, RegenerateInvoice_keeps.
Qed.

Lemma billing_steps_ok st st' :
  rtc billing_step st st' → accounts_ok (accounts st) → accounts_ok (accounts st').
Proof. induction 1; eauto using billing_step_ok. Qed.
End history.

(** ** Theorems *)

Lemma seeded_ok w : accounts_ok (exec seedDefaultPlans w empty_billing).
Proof.
  assert (∀ id p, BillingStore_plans (exec seedDefaultPlans w empty_billing) !! id = Some p →
    Plan_ID p = id ∧ plan_ok p ∧ id = "plan-" +:+ Plan_Slug p) as Hp.
  { intros id p. change (BillingStore_plans _) with
      (foldl (λ m p, <[Plan_ID p := p]> m) (∅ : gmap string Plan) (default_plans (now_of w))).
    cbn [foldl default_plans Plan_ID]. rewrite !lookup_insert, lookup_empty.
    repeat case_decide; intros Hp; [injection Hp as <-; subst id; split_and!; [done| |done]..|done];
      (split; [split; [done|vm_compute; lia]|vm_compute; reflexivity|done|cbn; lia..]). }
  split; [| |intros id x; discriminate|intros t id; discriminate|intros id x; discriminate].
  - intros id p Hid. by destruct (Hp id p Hid) as (? & ? & _).
  - intros id p id' p' Hid Hid' Heq. destruct (Hp id p Hid) as (_ & _ & ->).
    destruct (Hp id' p' Hid') as (_ & _ & ->). by rewrite Heq.
Qed.

Section theorems.
Context {P A : Type} `{!PaymentProvider P, !AuditRepository A, !SortSlice}.
Context (auth : Authorizer) (has_provider has_audit : bool).
Abbreviation env := ((Books * P) * A)%type.

(** C22 plans and subscriptions: in every history of calls that starts with the
    built-in plans, every plan is valid and has a slug of its own, a tenant has
    at most one active subscription, the tenant index finds it, and the plan of
    a subscription exists and its period does not end before it starts. *)
Theorem one_active_subscription (w : World) (st st' : env) :
  accounts st = exec seedDefaultPlans w empty_billing →
  rtc (billing_step auth has_provider has_audit) st st' →
  let s := accounts st' in
  (∀ id p, BillingStore_plans s !! id = Some p → Plan_ID p = id ∧ plan_ok p ∧
     ∀ id' p', BillingStore_plans s !! id' = Some p' → Plan_Slug p' = Plan_Slug p → id' = id) ∧
  (∀ id x, BillingStore_subscriptions s !! id = Some x →
     is_Some (BillingStore_plans s !! Subscription_PlanID x) ∧
     Subscription_CurrentPeriodStart x ≤ Subscription_CurrentPeriodEnd x ∧
     (Subscription_Status x = SubscriptionStatusActive →
        subscription_of s (Subscription_TenantID x) = Some x ∧
        ∀ id' x', BillingStore_subscriptions s !! id' = Some x' →
          Subscription_TenantID x' = Subscription_TenantID x →
          Subscription_Status x' = SubscriptionStatusActive → id' = id)).
Proof.
  intros Hst Hsteps s. assert (accounts_ok s) as Hok.
  { eapply billing_steps_ok; [exact Hsteps|]. rewrite Hst. apply seeded_ok. }
  split.
  - intros id p Hp. destruct (ac_plans _ Hok id p Hp) as [Hid Hpok]. split_and!; [done..|].
    intros id' p' Hp' Heq. by eapply (ac_slugs _ Hok).
  - intros id x Hx. destruct (ac_subs _ Hok id x Hx) as (Hid & _ & Hplan & Hperiod).
    split_and!; [done..|]. intros Hact. pose proof (ac_active _ Hok id x Hx Hact) as Hidx. split.
    + unfold subscription_of. by rewrite Hidx.
    + intros id' x' Hx' Ht Hact'. pose proof (ac_active _ Hok id' x' Hx' Hact'). congruence.
Qed.

(** C23 subscribing: the call succeeds exactly for an authorized caller without
    an active subscription who names an active plan and a known cycle; the
    subscription starts now and lasts 28 to 31 days, or 365 or 366 when it is
    yearly, it is the one the tenant is answered from then on, together with
    its plan, and a second one is refused while it is active. A call that fails
    changes no account. *)
Theorem subscribing (s : Subject) (req : SubscribeRequest) (w : World) (st : env) :
  accounts_ok (accounts st) → fresh_ids w st →
  let call := SubscribeTenant auth has_audit (Some s) req in
  let st' := exec call w st in
  match answer call w st with
  | Err _ => accounts st' = accounts st ∧ ¬ ∃ p, may_subscribe auth s req st p
  | Ok x => subscribed_to s req x ∧
      (let days := Subscription_CurrentPeriodEnd x - Subscription_CurrentPeriodStart x in
       if decide (Subscription_BillingCycle x = BillingCycleYearly)
       then 365 * Day ≤ days ≤ 366 * Day else 28 * Day ≤ days ≤ 31 * Day) ∧
      accounts st' = store_sub x (accounts st) ∧
      (∃ p, may_subscribe auth s req st p ∧ ∀ w',
         @Authorize auth (Some s) "billing:read" None = Ok () →
         answer (GetSubscription auth (Some s)) w' st' = Ok (Some x, p)) ∧
      ∀ req' w', fresh_ids w' st' →
        ∃ e, answer (SubscribeTenant auth has_audit (Some s) req') w' st' = Err e
  end.
Proof.
  intros Hok Hfresh call st'.
  pose proof (proj1 (wp_elim _ _ _ _) (SubscribeTenant_effect auth has_audit s req w st Hfresh Hok))
    as [Hok' Hcall]. fold call in Hok', Hcall. fold st' in Hok', Hcall.
  destruct (answer call w st) as [x|e]; [|exact Hcall].
  destruct Hcall as ([p Hp] & Hx & Hst). split; [exact Hx|].
  assert (subscription_of (accounts st') (Subject_UserID s) = Some x) as Hof.
  { rewrite Hst. unfold subscription_of. cbn. rewrite <-(sb_tenant _ _ _ Hx), lookup_insert_eq. cbn.
    apply lookup_insert_eq. }
  split_and!; [|done| |].
  - cbn zeta. rewrite (sb_period _ _ _ Hx), (sb_cycle _ _ _ Hx).
    pose proof (period_end_bounds (Subscription_CurrentPeriodStart x)
      (SubscribeRequest_BillingCycle req)) as Hb. cbn zeta in Hb. case_decide; lia.
  - exists p. split; [done|]. intros w' Hread.
    apply (proj1 (wp_elim (GetSubscription auth (Some s)) (λ r _ _, r = Ok (Some x, p)) w' st')).
    unfold GetSubscription. rewrite wp_bind. apply wp_authorize; [intros _|congruence].
    cbn [caller_id]. rewrite wp_bind, wp_ret, wp_bind, wp_try. apply wp_subscription; [congruence|].
    intros y st1 Hs1 Hy. assert (y = x) as -> by congruence. rewrite wp_bind.
    rewrite (sb_plan _ _ _ Hx).
    apply wp_plan; rewrite Hs1, Hst; cbn; rewrite (ms_plan _ _ _ _ _ Hp); [done|].
    intros q st2 _ [= <-]. done.
  - intros req' w' Hfresh'.
    pose proof (proj1 (wp_elim _ _ _ _) (SubscribeTenant_effect auth has_audit s req' w' st' Hfresh' Hok'))
      as [_ Hagain]. destruct (answer (SubscribeTenant _ _ _ _) _ _) as [y|e]; [|by exists e].
    destruct Hagain as ([q Hq] & _). exfalso.
    exact (ms_first _ _ _ _ _ Hq x Hof (sb_status _ _ _ Hx)).
Qed.
End theorems.

(** ** A customer subscribes to the starter plan *)

Section demo.
#[local] Existing Instances SimulatedProvider tagging_digest MemoryAuditRepo InsertionSort.

Definition customer : Subject := mkSubject "user" "u1" "u1" "u1" "" ["superadmin"] [] [] ∅.
Definition front_desk : (Books * SimulatedPaymentProvider) * AuditStore :=
  ((empty_books (exec seedDefaultPlans (calm 0) empty_billing), no_payments), empty_audit).
Abbreviation sign_up :=
  (SubscribeTenant (P := SimulatedPaymentProvider) (A := AuditStore) DynamicAuthorizer true
     (Some customer) (mkSubscribeRequest "plan-starter" "monthly")).

Lemma no_subscriptions w : fresh_ids w front_desk.
Proof. intros n. reflexivity. Qed.

Lemma one_active_subscription_witness :
  let st' := exec sign_up (calm 9) front_desk in
  ∃ x, subscription_of (accounts st') "u1" = Some x ∧
    Subscription_Status x = SubscriptionStatusActive ∧
    is_Some (BillingStore_plans (accounts st') !! Subscription_PlanID x).
Proof.
  cbv zeta. destruct (one_active_subscription (P := SimulatedPaymentProvider) (A := AuditStore)
    DynamicAuthorizer true true (calm 0) front_desk (exec sign_up (calm 9) front_desk) eq_refl)
    as [_ Hsubs].
  - apply rtc_once. apply bs_subscribe. apply no_subscriptions.
  - destruct (subscription_of (accounts (exec sign_up (calm 9) front_desk)) "u1") as [x|] eqn:Hx;
      [|vm_compute in Hx; discriminate Hx].
    exists x. split; [reflexivity|]. split; [vm_compute in Hx; injection Hx as <-; reflexivity|].
    apply (Hsubs (Subscription_ID x) x). vm_compute in Hx. injection Hx as <-. vm_compute. reflexivity.
Defined.

Lemma subscribing_witness : ∃ x,
  answer sign_up (calm 9) front_desk = Ok x ∧
  Subscription_PlanID x = "plan-starter" ∧
  28 * Day ≤ Subscription_CurrentPeriodEnd x - Subscription_CurrentPeriodStart x ≤ 31 * Day.
Proof.
  destruct (answer sign_up (calm 9) front_desk) as [x|e] eqn:Ha; [|vm_compute in Ha; discriminate Ha].
  pose proof (subscribing (P := SimulatedPaymentProvider) (A := AuditStore) DynamicAuthorizer true
    customer (mkSubscribeRequest "plan-starter" "monthly") (calm 9) front_desk (seeded_ok (calm 0))
    (no_subscriptions (calm 9))) as Hs. cbv zeta in Hs. rewrite Ha in Hs.
  destruct Hs as (Hx & Hdays & _). exists x. split; [reflexivity|]. split; [exact (sb_plan _ _ _ Hx)|].
  rewrite (sb_cycle _ _ _ Hx) in Hdays. exact Hdays.
Defined.
End demo.
