(* ===== verification/Bus.v ===== *)
(** * The event bus

    [internal/app/events/bus.go] over the in-memory event repository
    [internal/infra/memory/event_repo.go]. [Publish] lets go of the lock
    between its check and its send, workers and overflow goroutines call the
    handlers one after the other, and [Close] cancels before it closes the
    channel: the bus is a step relation over these stages, in any interleaving.
    What a handler does is its own business (its error is logged, its panic
    recovered); the bus only records that it was called. *)

From S2P Require Import Prelude Guest Events.

Definition ErrEventNotFound := ErrNew "events" "event not found".
Definition ErrEventBusClosed := ErrNew "events" "event bus is closed".

Record EventFilter : Type := mkEventFilter {
  EventFilter_TenantID : string;
  EventFilter_Type_ : string;
  EventFilter_ResourceType : string;
  EventFilter_ResourceID : string;
  EventFilter_ActorID : string;
  EventFilter_StartTime : option Z;
  EventFilter_EndTime : option Z;
  EventFilter_Limit : Z;
  EventFilter_Offset : Z
}.

(** ** The repository *)

Record MemoryEventRepo : Type := mkMemoryEventRepo {
  MemoryEventRepo_events : gmap string Event;
  MemoryEventRepo_order : list string
}.

Definition eta_MemoryEventRepo (r : MemoryEventRepo) : MemoryEventRepo :=
  mkMemoryEventRepo (MemoryEventRepo_events r) (MemoryEventRepo_order r).
#[export] Instance set_MemoryEventRepo_events : Setter MemoryEventRepo_events := ltac:(setter eta_MemoryEventRepo MemoryEventRepo_events).
#[export] Instance set_MemoryEventRepo_order : Setter MemoryEventRepo_order := ltac:(setter eta_MemoryEventRepo MemoryEventRepo_order).

Definition NewMemoryEventRepo : MemoryEventRepo := mkMemoryEventRepo ∅ [].

Definition with_defaults (id : string) (timestamp : Z) (version : string) (e : Event) : Event :=
  mkEvent id (Event_TenantID e) (Event_Type_ e) (Event_ResourceType e) (Event_ResourceID e)
    (Event_ActorID e) timestamp (Event_Payload e) (Event_Metadata e) version.

(** [if event.ID == "" { ... }; if event.Timestamp.IsZero() { ... };
    if event.Version == "" { ... }]. *)
Definition fill_in {St} (e : Event) : go St Event :=
  id ← (if decide (Event_ID e = "") then uuid_NewString else mret (Event_ID e));
  timestamp ← (if decide (IsZero (Event_Timestamp e)) then time_Now else mret (Event_Timestamp e));
  mret (with_defaults id timestamp (or_default "1.0" (Event_Version e)) e).

Definition Store (event : Event) : go MemoryEventRepo Event :=
  event ← fill_in event;
  modify (λ r, r <| MemoryEventRepo_events := <[Event_ID event := event]> (MemoryEventRepo_events r) |>
                 <| MemoryEventRepo_order := MemoryEventRepo_order r ++ [Event_ID event] |>) ;;
  mret event.

Definition event_GetByID (id : string) : go MemoryEventRepo Event :=
  r ← get;
  match MemoryEventRepo_events r !! id with Some e => mret e | None => fail ErrEventNotFound end.

Definition event_matches (f : EventFilter) (e : Event) : Prop :=
  (EventFilter_TenantID f = "" ∨ Event_TenantID e = EventFilter_TenantID f) ∧
  (EventFilter_Type_ f = "" ∨ Event_Type_ e = EventFilter_Type_ f) ∧
  (EventFilter_ResourceType f = "" ∨ Event_ResourceType e = EventFilter_ResourceType f) ∧
  (EventFilter_ResourceID f = "" ∨ Event_ResourceID e = EventFilter_ResourceID f) ∧
  (EventFilter_ActorID f = "" ∨ Event_ActorID e = EventFilter_ActorID f) ∧
  match EventFilter_StartTime f with Some t => t ≤ Event_Timestamp e | None => True end ∧
  match EventFilter_EndTime f with Some t => Event_Timestamp e ≤ t | None => True end.
#[export] Instance event_matches_dec f e : Decision (event_matches f e).
Proof. unfold event_matches. repeat apply and_dec; try apply _; case_match; apply _. Defined.

(** The loops from the newest identifier down; one that is not in the map is
    a nil pointer. *)
Fixpoint collect_in {V} (m : gmap string V) (P : V → Prop) `{!∀ v, Decision (P v)}
    (ids : list string) : result (list V) :=
  match ids with
  | [] => Ok []
  | id :: ids =>
      match m !! id with
      | None => panic "nil pointer dereference"
      | Some v =>
          match collect_in m P ids with
          | Ok vs => Ok (if decide (P v) then v :: vs else vs)
          | Err err => Err err
          end
      end
  end.

Definition event_List (f : EventFilter) : go MemoryEventRepo (list Event * Z) :=
  r ← get;
  matched ← lift (collect_in (MemoryEventRepo_events r) (event_matches f)
                    (rev (MemoryEventRepo_order r)));
  items ← lift (window matched (EventFilter_Limit f) (EventFilter_Offset f));
  mret (items, Z.of_nat (length matched)).

(** ** Patterns *)

Definition HasSuffix (s suf : string) : bool :=
  bool_decide (String.length suf ≤ String.length s)%nat &&
  bool_decide (String.substring (String.length s - String.length suf) (String.length suf) s = suf).
Definition TrimSuffix (s suf : string) : string :=
  if HasSuffix s suf then String.substring 0 (String.length s - String.length suf) s else s.

Definition matchesPattern (pattern eventType : string) : bool :=
  if decide (pattern = "*" ∨ pattern = eventType) then true
  else if HasSuffix pattern ".*" then HasPrefix eventType (TrimSuffix pattern ".*" +:+ ".")
  else false.

(** ** The bus *)

Record subscription : Type := mksubscription {
  subscription_id : string;
  subscription_pattern : string;
  subscription_tenantID : string
}.
#[export] Instance subscription_eq_dec : EqDecision subscription.
Proof. solve_decision. Defined.

(** [sub.tenantID != "" && sub.tenantID != event.TenantID] and the pattern skip. *)
Definition wants (s : subscription) (e : Event) : Prop :=
  (subscription_tenantID s = "" ∨ subscription_tenantID s = Event_TenantID e) ∧
  matchesPattern (subscription_pattern s) (Event_Type_ e) = true.
#[export] Instance wants_dec s e : Decision (wants s e).
Proof. unfold wants. apply _. Defined.

(** A dispatch under way: the event and the subscriptions still to be served. *)
Record Task := mkTask { Task_event : Event; Task_rest : list subscription }.

Inductive Worker : Type :=
  | Idle
  | Busy (t : Task)
  | Exited.

Record EventBus : Type := mkEventBus {
  EventBus_eventRepo : option MemoryEventRepo;
  EventBus_subscribers : gmap string subscription;
  EventBus_eventQueue : list Event;
  EventBus_bufferSize : Z;
  EventBus_closed : bool;
  EventBus_cancelled : bool;
  EventBus_chanClosed : bool;
  EventBus_workers : list Worker;
  EventBus_publishing : list Event;
  EventBus_overflow : list Event;
  EventBus_tasks : list Task;
  EventBus_accepted : list Event;
  EventBus_delivered : list (string * Event)
}.

Definition eta_EventBus (r : EventBus) : EventBus :=
  mkEventBus (EventBus_eventRepo r) (EventBus_subscribers r) (EventBus_eventQueue r)
    (EventBus_bufferSize r) (EventBus_closed r) (EventBus_cancelled r)
    (EventBus_chanClosed r) (EventBus_workers r) (EventBus_publishing r)
    (EventBus_overflow r) (EventBus_tasks r) (EventBus_accepted r)
    (EventBus_delivered r).
#[export] Instance set_EventBus_eventRepo : Setter EventBus_eventRepo := ltac:(setter eta_EventBus EventBus_eventRepo).
#[export] Instance set_EventBus_subscribers : Setter EventBus_subscribers := ltac:(setter eta_EventBus EventBus_subscribers).
#[export] Instance set_EventBus_eventQueue : Setter EventBus_eventQueue := ltac:(setter eta_EventBus EventBus_eventQueue).
#[export] Instance set_EventBus_closed : Setter EventBus_closed := ltac:(setter eta_EventBus EventBus_closed).
#[export] Instance set_EventBus_cancelled : Setter EventBus_cancelled := ltac:(setter eta_EventBus EventBus_cancelled).
#[export] Instance set_EventBus_chanClosed : Setter EventBus_chanClosed := ltac:(setter eta_EventBus EventBus_chanClosed).
#[export] Instance set_EventBus_workers : Setter EventBus_workers := ltac:(setter eta_EventBus EventBus_workers).
#[export] Instance set_EventBus_publishing : Setter EventBus_publishing := ltac:(setter eta_EventBus EventBus_publishing).
#[export] Instance set_EventBus_overflow : Setter EventBus_overflow := ltac:(setter eta_EventBus EventBus_overflow).
#[export] Instance set_EventBus_tasks : Setter EventBus_tasks := ltac:(setter eta_EventBus EventBus_tasks).
#[export] Instance set_EventBus_accepted : Setter EventBus_accepted := ltac:(setter eta_EventBus EventBus_accepted).
#[export] Instance set_EventBus_delivered : Setter EventBus_delivered := ltac:(setter eta_EventBus EventBus_delivered).

Definition NewEventBus (eventRepo : option MemoryEventRepo) (bufferSize workerCount : Z) : EventBus :=
  let bufferSize := if decide (bufferSize ≤ 0) then 2048 else bufferSize in
  let workerCount := if decide (workerCount ≤ 0) then 8 else workerCount in
  mkEventBus eventRepo ∅ [] bufferSize false false false (replicate (Z.to_nat workerCount) Idle)
    [] [] [] [] [].

(** The stages of calls are found again by their event. *)
Fixpoint remove_once (e : Event) (l : list Event) : list Event :=
  match l with
  | [] => []
  | x :: l => if decide (x = e) then l else x :: remove_once e l
  end.

(** [Publish] up to the send: the check under the lock, the defaults and the
    repository, whose error is only logged. *)
Definition publish_begin (event : Event) : go EventBus Event :=
  b ← get;
  if EventBus_closed b then fail ErrEventBusClosed
  else
    event ← fill_in event;
    event ← match EventBus_eventRepo b with
            | None => mret event
            | Some repo =>
                r ← try (zoom (default repo ∘ EventBus_eventRepo)
                           (λ r b, b <| EventBus_eventRepo := Some r |>) (Store event));
                mret (match r with Ok e => e | Err _ => event end)
            end;
    modify (λ b, b <| EventBus_publishing := event :: EventBus_publishing b |>) ;;
    mret event.

(** The non-blocking send: into the queue, or a goroutine of its own when the
    queue is full; a send on a closed channel panics. *)
Definition publish_end (event : Event) : go EventBus () :=
  modify (λ b, b <| EventBus_publishing := remove_once event (EventBus_publishing b) |>) ;;
  b ← get;
  if EventBus_chanClosed b then lift (panic "send on closed channel")
  else
    modify (λ b, b <| EventBus_accepted := EventBus_accepted b ++ [event] |>) ;;
    if decide (Z.of_nat (length (EventBus_eventQueue b)) < EventBus_bufferSize b)
    then modify (λ b, b <| EventBus_eventQueue := EventBus_eventQueue b ++ [event] |>)
    else modify (λ b, b <| EventBus_overflow := event :: EventBus_overflow b |>).

Definition bus_Publish (event : Event) : go EventBus () :=
  event ← publish_begin event; publish_end event.

Definition bus_SubscribeTenant (tenantID pattern : string) : go EventBus string :=
  subID ← uuid_NewString;
  modify (λ b, b <| EventBus_subscribers :=
    <[subID := mksubscription subID pattern tenantID]> (EventBus_subscribers b) |>) ;;
  mret subID.
Definition bus_Subscribe (pattern : string) : go EventBus string := bus_SubscribeTenant "" pattern.
Definition bus_Unsubscribe (subID : string) : go EventBus () :=
  modify (λ b, b <| EventBus_subscribers := delete subID (EventBus_subscribers b) |>).

(** [Close] in its two stages; a second call returns at once. *)
Definition close_begin : go EventBus () :=
  modify (λ b, if EventBus_closed b then b
               else b <| EventBus_closed := true |> <| EventBus_cancelled := true |>).
Definition close_end : go EventBus () :=
  modify (λ b, if EventBus_cancelled b then b <| EventBus_chanClosed := true |> else b).

(** [dispatchDirect]: the snapshot of the subscriptions, in map order. *)
Definition snapshot (event : Event) : go EventBus Task :=
  b ← get;
  es ← range_map (EventBus_subscribers b);
  mret (mkTask event es.*2).

(** One round of the handler loop: the call of the next handler, if its filters
    let the event through. *)
Definition serve (t : Task) : go EventBus (option Task) :=
  match Task_rest t with
  | [] => mret None
  | s :: rest =>
      (if decide (wants s (Task_event t)) then
         modify (λ b, b <| EventBus_delivered :=
           EventBus_delivered b ++ [(subscription_id s, Task_event t)] |>)
       else mret ()) ;;
      mret (Some (mkTask (Task_event t) rest))
  end.

Definition set_worker (i : nat) (w : Worker) : go EventBus () :=
  modify (λ b, b <| EventBus_workers := <[i := w]> (EventBus_workers b) |>).

(** A worker in its loop: it takes an event, serves it, and exits when the bus
    is cancelled and there is nothing left to drain. *)
Definition worker_step (i : nat) : go EventBus () :=
  b ← get;
  match EventBus_workers b !! i, EventBus_eventQueue b with
  | Some Idle, e :: q =>
      modify (λ b, b <| EventBus_eventQueue := q |>) ;;
      t ← snapshot e;
      set_worker i (Busy t)
  | Some Idle, [] => if EventBus_cancelled b then set_worker i Exited else mret ()
  | Some (Busy t), _ =>
      next ← serve t;
      set_worker i (match next with Some t => Busy t | None => Idle end)
  | _, _ => mret ()
  end.

(** A goroutine of a saturated queue: it starts, and goes on. *)
Definition overflow_start (event : Event) : go EventBus () :=
  modify (λ b, b <| EventBus_overflow := remove_once event (EventBus_overflow b) |>) ;;
  t ← snapshot event;
  modify (λ b, b <| EventBus_tasks := t :: EventBus_tasks b |>).
Definition task_step (i : nat) : go EventBus () :=
  b ← get;
  match EventBus_tasks b !! i with
  | None => mret ()
  | Some t =>
      next ← serve t;
      modify (λ b, b <| EventBus_tasks := match next with
                                          | Some t => <[i := t]> (EventBus_tasks b)
                                          | None => delete i (EventBus_tasks b)
                                          end |>)
  end.

(** ** Steps *)

(** The bus at work: a worker that has something to do, a goroutine that
    starts or goes on. *)
Definition ready (b : EventBus) (i : nat) : Prop :=
  match EventBus_workers b !! i with
  | Some (Busy _) => True
  | Some Idle => EventBus_eventQueue b ≠ [] ∨ EventBus_cancelled b = true
  | _ => False
  end.

Inductive internal (b : EventBus) : EventBus → Prop :=
  | in_worker w i : World_ok w → ready b i → internal b (exec (worker_step i) w b)
  | in_start w e : World_ok w → e ∈ EventBus_overflow b → internal b (exec (overflow_start e) w b)
  | in_task w i : is_Some (EventBus_tasks b !! i) → internal b (exec (task_step i) w b).

(** Any step: also those of publishers, subscribers and [Close]. *)
Inductive bus_step (b : EventBus) : EventBus → Prop :=
  | bus_internal b' : internal b b' → bus_step b b'
  | bus_begin w e : bus_step b (exec (publish_begin e) w b)
  | bus_end w e : e ∈ EventBus_publishing b → bus_step b (exec (publish_end e) w b)
  | bus_subscribe w t p : bus_step b (exec (bus_SubscribeTenant t p) w b)
  | bus_unsubscribe w id : bus_step b (exec (bus_Unsubscribe id) w b)
  | bus_close w : bus_step b (exec close_begin w b)
  | bus_close_end w : bus_step b (exec close_end w b).

(** ** The abstract bus

    Seen from outside, the bus is a bag of accepted events that wait, a bag of
    dispatches under way, and what was delivered. *)

Definition waiting (b : EventBus) : list Event := EventBus_eventQueue b ++ EventBus_overflow b.
Definition busy (w : Worker) : list Task := match w with Busy t => [t] | _ => [] end.
Definition pool (b : EventBus) : list Task := EventBus_tasks b ++ (EventBus_workers b ≫= busy).
Definition subs (b : EventBus) : list subscription := (map_to_list (EventBus_subscribers b)).*2.

Inductive moves (b b' : EventBus) : Prop :=
  | mv_idle : waiting b' ≡ₚ waiting b → pool b' ≡ₚ pool b →
      EventBus_delivered b' = EventBus_delivered b → EventBus_accepted b' = EventBus_accepted b →
      moves b b'
  | mv_accept e : waiting b' ≡ₚ e :: waiting b → pool b' ≡ₚ pool b →
      EventBus_delivered b' = EventBus_delivered b →
      EventBus_accepted b' = EventBus_accepted b ++ [e] → moves b b'
  | mv_start e rest : waiting b ≡ₚ e :: waiting b' → pool b' ≡ₚ mkTask e rest :: pool b →
      rest ≡ₚ subs b →
      EventBus_delivered b' = EventBus_delivered b → EventBus_accepted b' = EventBus_accepted b →
      moves b b'
  | mv_serve e s rest R : waiting b' ≡ₚ waiting b →
      pool b ≡ₚ mkTask e (s :: rest) :: R → pool b' ≡ₚ mkTask e rest :: R →
      EventBus_delivered b' = EventBus_delivered b ++
        (if decide (wants s e) then [(subscription_id s, e)] else []) →
      EventBus_accepted b' = EventBus_accepted b → moves b b'
  | mv_finish e : waiting b' ≡ₚ waiting b → pool b ≡ₚ mkTask e [] :: pool b' →
      EventBus_delivered b' = EventBus_delivered b → EventBus_accepted b' = EventBus_accepted b →
      moves b b'.

Lemma remove_once_perm e l : e ∈ l → l ≡ₚ e :: remove_once e l.
Proof.
  intros He. induction l as [|x l IH]; [set_solver|]. cbn. case_decide as Hx; [by rewrite Hx|].
  rewrite Permutation_swap. constructor. apply IH. set_solver.
Qed.

(** Replacing one element of a list changes one element of the bag. *)
Lemma insert_bag {X} (l : list X) i old : l !! i = Some old → ∃ R,
  l ≡ₚ old :: R ∧ delete i l ≡ₚ R ∧ ∀ new, <[i := new]> l ≡ₚ new :: R.
Proof.
  intros Hi. exists (delete i l). split; [by apply delete_Permutation|]. split; [done|].
  intros new. rewrite insert_take_drop by (by eapply lookup_lt_Some).
  rewrite delete_take_drop. solve_Permutation.
Qed.

(** ** What an internal step costs *)

Definition live (w : Worker) : nat := match w with Exited => 0%nat | _ => 1%nat end.
Definition load (t : Task) : nat := S (length (Task_rest t)).

(** The steps the bus has left: for an event that waits, one for its start,
    one for each subscription and one for its end; for a dispatch what is left
    of it; one for the exit of each worker. *)
Definition work (b : EventBus) : nat :=
  ((size (EventBus_subscribers b) + 2) * length (waiting b) + sum_list_with load (pool b) +
   sum_list_with live (EventBus_workers b))%nat.

(** There is somebody left for the events of the queue. *)
Definition attended (b : EventBus) : Prop :=
  EventBus_eventQueue b = [] ∨ (0 < sum_list_with live (EventBus_workers b))%nat.

Record works (b b' : EventBus) : Prop := {
  works_moves : moves b b';
  works_subscribers : EventBus_subscribers b' = EventBus_subscribers b;
  works_closed : EventBus_closed b' = EventBus_closed b;
  works_cancelled : EventBus_cancelled b' = EventBus_cancelled b;
  works_accepted : EventBus_accepted b' = EventBus_accepted b;
  works_attended : attended b → attended b';
  works_live : EventBus_cancelled b = false →
    sum_list_with live (EventBus_workers b') = sum_list_with live (EventBus_workers b);
  works_cost : work b = S (work b') }.

Lemma subs_length b : length (subs b) = size (EventBus_subscribers b).
Proof. unfold subs. by rewrite length_fmap, length_map_to_list. Qed.

(** A worker that changes its state: its dispatch and its life, the rest as it was. *)
Lemma worker_change (ws : list Worker) i old : ws !! i = Some old → ∃ (R : list Task) k,
  ws ≫= busy ≡ₚ busy old ++ R ∧ (sum_list_with live ws = live old + k)%nat ∧
  ∀ new, <[i := new]> ws ≫= busy ≡ₚ busy new ++ R ∧
         (sum_list_with live (<[i := new]> ws) = live new + k)%nat.
Proof.
  intros Hi. destruct (insert_bag _ _ _ Hi) as (R & HR & _ & Hset).
  exists (R ≫= busy), (sum_list_with live R). rewrite HR. split_and!; [done..|].
  intros new. by rewrite (Hset new).
Qed.

Lemma wp_snapshot e (Q : result Task → EventBus → World → Prop) w b :
  World_ok w → (∀ rest w', rest ≡ₚ subs b → Q (Ok (mkTask e rest)) b w') → wp (snapshot e) Q w b.
Proof.
  intros Hw HQ. unfold snapshot. rewrite wp_bind, wp_get, wp_bind, wp_range, wp_ret. apply HQ.
  unfold subs. by rewrite (entries_perm _ _ (Hw _)).
Qed.

Lemma wp_serve t (Q : result (option Task) → EventBus → World → Prop) w b :
  (Task_rest t = [] → Q (Ok None) b w) →
  (∀ s rest, Task_rest t = s :: rest →
     Q (Ok (Some (mkTask (Task_event t) rest)))
       (b <| EventBus_delivered := EventBus_delivered b ++
          (if decide (wants s (Task_event t)) then [(subscription_id s, Task_event t)] else []) |>) w) →
  wp (serve t) Q w b.
Proof.
  intros Hnil Hcons. unfold serve. destruct (Task_rest t) as [|s rest]; [by rewrite wp_ret; apply Hnil|].
  specialize (Hcons s rest eq_refl). rewrite wp_bind. case_decide.
  - by rewrite wp_modify, wp_ret.
  - rewrite wp_ret, wp_ret. rewrite app_nil_r in Hcons. by destruct b.
Qed.

Lemma work_change b b' nw np na :
  EventBus_subscribers b' = EventBus_subscribers b →
  length (waiting b) = (nw + length (waiting b'))%nat →
  (sum_list_with load (pool b) + np.1 = sum_list_with load (pool b') + np.2)%nat →
  (sum_list_with live (EventBus_workers b) = na + sum_list_with live (EventBus_workers b'))%nat →
  ((size (EventBus_subscribers b) + 2) * nw + np.2 + na = S np.1)%nat →
  work b = S (work b').
Proof. unfold work. intros -> -> Hp -> Hn. nia. Qed.

Lemma worker_step_works w i b : World_ok w → ready b i → works b (exec (worker_step i) w b).
Proof.
  intros Hw Hready. apply (proj1 (wp_elim (worker_step i) (λ _ b' _, works b b') w b)).
  unfold worker_step. rewrite wp_bind, wp_get. unfold ready in Hready.
  destruct (EventBus_workers b !! i) as [[|t|]|] eqn:Hi; [|..|done|done];
    destruct (worker_change _ _ _ Hi) as (R & k & HR & Hk & Hset); cbn in HR, Hk.
  - destruct (EventBus_eventQueue b) as [|e q] eqn:Hq.
    + destruct Hready as [?|Hc]; [done|]. rewrite Hc. unfold set_worker. rewrite wp_modify.
      destruct (Hset Exited) as [HR' Hk'].
      assert (Hpool : (EventBus_workers b ≫= busy) ≡ₚ (<[i:=Exited]> (EventBus_workers b) ≫= busy))
        by by rewrite HR, HR'.
      split; cbn; [|done|done|by rewrite Hc|done|by left; cbn|by rewrite Hc|].
      * apply mv_idle; cbn; [done| |done|done]. unfold pool. cbn. by rewrite Hpool.
      * apply (work_change _ _ 0 (0, 0)%nat 1); cbn; [done|done| |by rewrite Hk, Hk'|lia].
        unfold pool. cbn. by rewrite Hpool.
    + rewrite wp_bind, wp_modify, wp_bind. apply wp_snapshot; [done|]. intros rest w' Hrest.
      unfold set_worker. rewrite wp_modify. cbn in Hrest.
      destruct (Hset (Busy (mkTask e rest))) as [HR' Hk']. cbn in HR', Hk'.
      split; cbn; [|done|done|done|done|by right; cbn; rewrite Hk'; lia|by rewrite Hk, Hk'|].
      * apply (mv_start _ _ e rest); cbn; [| |exact Hrest|done|done].
        -- unfold waiting. cbn. by rewrite Hq.
        -- unfold pool. cbn. rewrite HR', HR. solve_Permutation.
      * apply (work_change _ _ 1 (load (mkTask e rest), 0)%nat 0); cbn; [done| | |by rewrite Hk, Hk'|].
        -- unfold waiting. cbn. by rewrite Hq.
        -- unfold pool. cbn. rewrite !sum_list_with_app, HR', HR. unfold load. cbn. lia.
        -- unfold load. cbn. rewrite Hrest, subs_length. cbn. lia.
  - rewrite wp_bind. apply wp_serve.
    + intros Hnil. unfold set_worker. rewrite wp_modify. destruct t as [e rest]. cbn in Hnil. subst rest.
      destruct (Hset Idle) as [HR' Hk']. cbn in HR', Hk'.
      split; cbn; [|done|done|done|done|by right; cbn; rewrite Hk'; lia|by rewrite Hk, Hk'|].
      * apply (mv_finish _ _ e); cbn; [done| |done|done]. unfold pool. cbn. rewrite HR', HR.
        solve_Permutation.
      * apply (work_change _ _ 0 (0, 1)%nat 0); cbn; [done|done| |by rewrite Hk, Hk'|lia].
        unfold pool. cbn. rewrite !sum_list_with_app, HR', HR. unfold load. cbn. lia.
    + intros s rest Hrest. unfold set_worker. rewrite wp_modify. destruct t as [e l]. cbn in *. subst l.
      destruct (Hset (Busy (mkTask e rest))) as [HR' Hk']. cbn in HR', Hk'.
      split; cbn; [|done|done|done|done|by right; cbn; rewrite Hk'; lia|by rewrite Hk, Hk'|].
      * apply (mv_serve _ _ e s rest (EventBus_tasks b ++ R)); cbn; [done| | |done|done];
          unfold pool; cbn; rewrite ?HR', ?HR; solve_Permutation.
      * apply (work_change _ _ 0 (0, 1)%nat 0); cbn; [done|done| |by rewrite Hk, Hk'|lia].
        unfold pool. cbn. rewrite !sum_list_with_app, HR', HR. unfold load. cbn. lia.
Qed.

Lemma overflow_start_works w e b : World_ok w → e ∈ EventBus_overflow b →
  works b (exec (overflow_start e) w b).
Proof.
  intros Hw He. apply (proj1 (wp_elim (overflow_start e) (λ _ b' _, works b b') w b)).
  unfold overflow_start. rewrite wp_bind, wp_modify, wp_bind. apply wp_snapshot; [done|].
  intros rest w' Hrest. rewrite wp_modify. cbn in Hrest. pose proof (remove_once_perm _ _ He) as Hover.
  assert (Hwait : waiting b ≡ₚ e :: EventBus_eventQueue b ++ remove_once e (EventBus_overflow b)).
  { unfold waiting. rewrite Hover at 1. solve_Permutation. }
  split; cbn; [|done|done|done|done|done|done|].
  - by apply (mv_start _ _ e rest).
  - apply (work_change _ _ 1 (load (mkTask e rest), 0)%nat 0); cbn; [done|by rewrite Hwait| |done|].
    + unfold pool, load. cbn. lia.
    + unfold load. cbn. rewrite Hrest, subs_length. cbn. lia.
Qed.

Lemma task_step_works w i b : is_Some (EventBus_tasks b !! i) → works b (exec (task_step i) w b).
Proof.
  intros [t Hi]. apply (proj1 (wp_elim (task_step i) (λ _ b' _, works b b') w b)).
  unfold task_step. rewrite wp_bind, wp_get, Hi.
  destruct (insert_bag _ _ _ Hi) as (R & HR & Hdel & Hset). rewrite wp_bind. apply wp_serve.
  - intros Hnil. rewrite wp_modify. destruct t as [e rest]. cbn in Hnil. subst rest.
    split; cbn; [|done|done|done|done|done|done|].
    + apply (mv_finish _ _ e); cbn; [done| |done|done]. unfold pool. cbn. by rewrite Hdel, HR.
    + apply (work_change _ _ 0 (0, 1)%nat 0); cbn; [done|done| |done|lia].
      unfold pool. cbn. rewrite !sum_list_with_app, Hdel, HR. unfold load. cbn. lia.
  - intros s rest Hrest. rewrite wp_modify. destruct t as [e l]. cbn in *. subst l.
    split; cbn; [|done|done|done|done|done|done|].
    + apply (mv_serve _ _ e s rest (R ++ (EventBus_workers b ≫= busy))); cbn; [done| | |done|done];
        unfold pool; cbn; by rewrite ?Hset, ?HR.
    + apply (work_change _ _ 0 (0, 1)%nat 0); cbn; [done|done| |done|lia].
      unfold pool. cbn. rewrite !sum_list_with_app, Hset, HR. unfold load. cbn. lia.
Qed.

Lemma internal_works b b' : internal b b' → works b b'.
Proof.
  intros [w i Hw Hr|w e Hw He|w i Hi]; [by apply worker_step_works|by apply overflow_start_works|
    by apply task_step_works].
Qed.

(** A publisher leaves the subscriptions, the workers and the flags alone. *)
Definition publishes (b b' : EventBus) : Prop :=
  moves b b' ∧ EventBus_subscribers b' = EventBus_subscribers b ∧
  EventBus_closed b' = EventBus_closed b ∧ EventBus_cancelled b' = EventBus_cancelled b ∧
  EventBus_workers b' = EventBus_workers b.

Lemma publish_begin_moves w e b : publishes b (exec (publish_begin e) w b).
Proof.
  apply (proj1 (wp_elim (publish_begin e) (λ _ b' _, publishes b b') w b)).
  unfold publish_begin. rewrite wp_bind, wp_get.
  destruct (EventBus_closed b); [split; [by apply mv_idle|done]|].
  rewrite wp_bind. unfold fill_in.
  repeat (case_decide || wp_step); (destruct (EventBus_eventRepo b) as [r|]; wp_step;
    [unfold Store, fill_in; repeat (case_decide || wp_step)|]); (split; [by apply mv_idle|done]).
Qed.

Lemma publish_end_moves w e b : publishes b (exec (publish_end e) w b).
Proof.
  apply (proj1 (wp_elim (publish_end e) (λ _ b' _, publishes b b') w b)).
  unfold publish_end. rewrite wp_bind, wp_modify, wp_bind, wp_get. cbn.
  destruct (EventBus_chanClosed b); [rewrite wp_lift; split; [by apply mv_idle|done]|].
  rewrite wp_bind, wp_modify.
  case_decide; rewrite wp_modify; (split; [apply (mv_accept _ _ e); try done|done]);
    unfold waiting; cbn; solve_Permutation.
Qed.

Lemma bus_step_moves b b' : bus_step b b' → moves b b'.
Proof.
  intros [b1 Hin|w e|w e _|w t p|w id|w|w].
  - by apply internal_works.
  - apply publish_begin_moves.
  - apply publish_end_moves.
  - by apply mv_idle.
  - by apply mv_idle.
  - unfold exec, close_begin, modify. cbn. case_match; by apply mv_idle.
  - unfold exec, close_end, modify. cbn. case_match; by apply mv_idle.
Qed.

(** ** Exactly one delivery *)

(** A subscription is filed under its identifier, and no dispatch has two of one. *)
Definition keyed (b : EventBus) : Prop :=
  ∀ k s, EventBus_subscribers b !! k = Some s → subscription_id s = k.
Definition distinct (t : Task) : Prop := NoDup (subscription_id <$> Task_rest t).
Definition bus_ok (b : EventBus) : Prop := keyed b ∧ Forall distinct (pool b).

Definition reachable (b : EventBus) : Prop :=
  ∃ repo bufferSize workerCount, rtc bus_step (NewEventBus repo bufferSize workerCount) b.

Lemma keyed_same b b' : EventBus_subscribers b' = EventBus_subscribers b → keyed b → keyed b'.
Proof. intros Hs Hk k s. rewrite Hs. apply Hk. Qed.

Lemma Subscribe_effect t p w b (id := w_uuid w (w_uuids w)) :
  EventBus_subscribers (exec (bus_SubscribeTenant t p) w b) =
  <[id := mksubscription id p t]> (EventBus_subscribers b).
Proof. done. Qed.

Lemma bus_step_keyed b b' : bus_step b b' → keyed b → keyed b'.
Proof.
  intros [b1 Hin|w e|w e _|w t p|w id|w|w] Hk.
  - eapply keyed_same; [|done]. by apply internal_works.
  - eapply keyed_same; [|done]. apply publish_begin_moves.
  - eapply keyed_same; [|done]. apply publish_end_moves.
  - intros k s. rewrite Subscribe_effect, lookup_insert_Some. intros [[<- <-]|[_ Hl]]; [done|by apply Hk].
  - intros k s. change (delete id (EventBus_subscribers b) !! k = Some s → subscription_id s = k).
    rewrite lookup_delete_Some. intros [_ Hl]. by apply Hk.
  - eapply keyed_same; [|done]. unfold exec, close_begin, modify. cbn. by case_match.
  - eapply keyed_same; [|done]. unfold exec, close_end, modify. cbn. by case_match.
Qed.

Lemma elem_of_subs b s : s ∈ subs b ↔ ∃ k, EventBus_subscribers b !! k = Some s.
Proof.
  unfold subs. rewrite list_elem_of_fmap. split.
  - intros ([k s'] & -> & Hin). exists k. by apply elem_of_map_to_list in Hin.
  - intros [k Hk]. exists (k, s). by rewrite elem_of_map_to_list.
Qed.

Lemma subs_distinct b e rest : keyed b → rest ≡ₚ subs b → distinct (mkTask e rest).
Proof.
  intros Hk Hrest. unfold distinct. cbn. rewrite Hrest. unfold subs.
  assert (Hids : subscription_id <$> (map_to_list (EventBus_subscribers b)).*2 =
                 (map_to_list (EventBus_subscribers b)).*1).
  { rewrite <-list_fmap_compose. apply list_fmap_ext. intros i [k s] Hi. cbn.
    apply Hk, elem_of_map_to_list. by eapply list_elem_of_lookup_2. }
  rewrite Hids. apply NoDup_fst_map_to_list.
Qed.

Lemma moves_distinct b b' : moves b b' → keyed b → Forall distinct (pool b) → Forall distinct (pool b').
Proof.
  intros Hm Hk Hd.
  destruct Hm as [_ Hp _ _|e _ Hp _ _|e rest _ Hp Hrest _ _|e s rest R _ Hp Hp' _ _|e _ Hp _ _].
  - by rewrite Hp.
  - by rewrite Hp.
  - rewrite Hp. constructor; [by eapply subs_distinct|done].
  - rewrite Hp'. rewrite Hp in Hd. apply Forall_cons in Hd as [Hs HR]. constructor; [|done].
    by apply NoDup_cons in Hs as [_ ?].
  - rewrite Hp in Hd. by apply Forall_cons in Hd as [_ ?].
Qed.

Lemma bus_step_ok b b' : bus_step b b' → bus_ok b → bus_ok b'.
Proof.
  intros Hs [Hk Hd]. split; [by eapply bus_step_keyed|].
  by eapply moves_distinct; [apply bus_step_moves|..].
Qed.

Lemma reachable_ok b : reachable b → bus_ok b.
Proof.
  intros (repo & n & k & Hrun).
  assert (Hstart : bus_ok (NewEventBus repo n k)).
  { split; [intros k' s; cbn; by rewrite lookup_empty|].
    unfold pool, NewEventBus. cbn. induction (Z.to_nat _); cbn; [constructor|done]. }
  induction Hrun as [|b1 b2 b3 Hs _ IH]; [done|]. apply IH. by eapply bus_step_ok.
Qed.

Section Delivery.
Context (x : subscription).

(** A history in which the subscription is there all the time. *)
Definition subscribed (b : EventBus) : Prop :=
  EventBus_subscribers b !! subscription_id x = Some x.
Definition subscribed_step (b b' : EventBus) : Prop :=
  bus_step b b' ∧ subscribed b ∧ subscribed b'.

Definition delivered_to (b : EventBus) : list Event :=
  (filter (λ d, d.1 = subscription_id x) (EventBus_delivered b)).*2.

(** What it still has to get: the events that wait, and those whose dispatch
    has not come to it yet. *)
Definition owes (t : Task) : list Event := if decide (x ∈ Task_rest t) then [Task_event t] else [].
Definition owed (b : EventBus) : list Event :=
  filter (wants x) (waiting b ++ (pool b ≫= owes)).

(** The identifier means this subscription in every dispatch. *)
Definition known (t : Task) : Prop :=
  ∀ s, s ∈ Task_rest t → subscription_id s = subscription_id x → s = x.
Definition unknown (t : Task) : Prop := subscription_id x ∉ subscription_id <$> Task_rest t.

Lemma unknown_known t : unknown t → known t.
Proof. intros Hu s Hs Hid. destruct Hu. rewrite list_elem_of_fmap. by exists s. Qed.

Lemma unknown_owes t : unknown t → owes t = [].
Proof.
  intros Hu. unfold owes. rewrite decide_False; [done|]. intros Hx. destruct Hu.
  rewrite list_elem_of_fmap. by exists x.
Qed.

Lemma unknown_owes_all ts : Forall unknown ts → ts ≫= owes = [].
Proof. induction 1 as [|t ts Ht _ IH]; [done|]. by rewrite bind_cons, unknown_owes. Qed.

(** A dispatch that starts has the subscription, and no other of its identifier. *)
Lemma start_known b e rest : keyed b → subscribed b → rest ≡ₚ subs b →
  known (mkTask e rest) ∧ owes (mkTask e rest) = [e].
Proof.
  intros Hk Hx Hrest. split.
  - intros s Hs Hid. cbn in Hs. rewrite Hrest in Hs. apply elem_of_subs in Hs as [k Hs].
    pose proof (Hk _ _ Hs) as Hsk. unfold subscribed in Hx. congruence.
  - unfold owes. cbn. rewrite decide_True; [done|]. rewrite Hrest. apply elem_of_subs. by eexists.
Qed.

(** One round of the loop pays what it takes off. *)
Lemma serve_account e s rest (d : list (string * Event)) :
  known (mkTask e (s :: rest)) → distinct (mkTask e (s :: rest)) →
  filter (wants x) (owes (mkTask e (s :: rest))) ≡ₚ
  (filter (λ d, d.1 = subscription_id x)
     (if decide (wants s e) then [(subscription_id s, e)] else [])).*2 ++
  filter (wants x) (owes (mkTask e rest)).
Proof.
  intros Hkn Hd. change (NoDup (subscription_id <$> s :: rest)) in Hd. rewrite fmap_cons in Hd.
  apply NoDup_cons in Hd as [Hnot _]. destruct (decide (s = x)) as [->|Hne].
  - unfold owes. cbn. rewrite decide_True by set_solver. rewrite (decide_False (P := x ∈ rest)).
    + rewrite filter_cons. case_decide; rewrite !filter_nil; [|done].
      by rewrite filter_cons_True, filter_nil.
    + intros Hin. apply Hnot. rewrite list_elem_of_fmap. by exists x.
  - assert (Hid : subscription_id s ≠ subscription_id x).
    { intros Heq. apply Hne, Hkn; [cbn; set_solver|done]. }
    replace (owes (mkTask e (s :: rest))) with (owes (mkTask e rest)).
    + case_decide; [rewrite filter_cons_False by done|]; by rewrite filter_nil.
    + unfold owes. cbn. apply decide_ext. rewrite elem_of_cons. naive_solver.
Qed.

Lemma moves_account b b' : bus_ok b → subscribed b → moves b b' → Forall known (pool b) →
  Forall known (pool b') ∧ ∃ new, EventBus_accepted b' = EventBus_accepted b ++ new ∧
    delivered_to b' ++ owed b' ≡ₚ delivered_to b ++ owed b ++ filter (wants x) new.
Proof.
  intros [Hk Hd] Hx Hm Hkn. unfold delivered_to, owed.
  destruct Hm as [Hw Hp He Ha|e Hw Hp He Ha|e rest Hw Hp Hrest He Ha|e s rest R Hw Hp Hp' He Ha|
    e Hw Hp He Ha]; rewrite ?He, ?Ha.
  - rewrite Hp. split; [done|]. exists []. rewrite app_nil_r. split; [done|].
    by rewrite Hw, Hp, filter_nil, app_nil_r.
  - rewrite Hp. split; [done|]. exists [e]. split; [done|]. rewrite Hw, Hp. cbn [app].
    rewrite filter_cons, filter_cons, filter_nil. case_decide; solve_Permutation.
  - destruct (start_known b e rest Hk Hx Hrest) as [Hkt Hot]. rewrite Hp. split; [by constructor|].
    exists []. rewrite app_nil_r. split; [done|]. rewrite filter_nil, app_nil_r, Hw, Hp.
    rewrite bind_cons, Hot. apply Permutation_app_head. apply filter_Permutation. solve_Permutation.
  - rewrite Hp in Hkn, Hd. apply Forall_cons in Hkn as [Hkt HR]. apply Forall_cons in Hd as [Hdt _].
    rewrite Hp'. split.
    { constructor; [|done]. intros s' Hs'. apply Hkt. cbn in *. set_solver. }
    exists []. rewrite app_nil_r. split; [done|]. rewrite filter_nil, app_nil_r, Hw.
    rewrite Hp, Hp', !bind_cons, !filter_app, fmap_app, (serve_account e s rest []) by done.
    solve_Permutation.
  - rewrite Hp in Hkn. apply Forall_cons in Hkn as [_ HR]. split; [done|]. exists [].
    rewrite app_nil_r. split; [done|]. rewrite filter_nil, app_nil_r, Hw, Hp, bind_cons.
    unfold owes at 2. rewrite decide_False by (cbn; set_solver). done.
Qed.

Lemma account b b' : bus_ok b → Forall known (pool b) → rtc subscribed_step b b' →
  ∃ new, EventBus_accepted b' = EventBus_accepted b ++ new ∧
    delivered_to b' ++ owed b' ≡ₚ delivered_to b ++ owed b ++ filter (wants x) new.
Proof.
  intros Hok Hkn Hrun. induction Hrun as [b|b1 b2 b3 (Hs & Hx & _) _ IH].
  - exists []. by rewrite filter_nil, !app_nil_r.
  - destruct (moves_account b1 b2 Hok Hx (bus_step_moves _ _ Hs) Hkn) as (Hkn2 & new1 & Ha1 & Hd1).
    destruct (IH (bus_step_ok _ _ Hs Hok) Hkn2) as (new2 & Ha2 & Hd2).
    exists (new1 ++ new2). rewrite Ha2, Ha1, app_assoc, Hd2, filter_app. split; [done|].
    rewrite (app_assoc (delivered_to b2)), Hd1. solve_Permutation.
Qed.

End Delivery.

Definition settled (b : EventBus) : Prop := waiting b = [] ∧ pool b = [].

(** C36 Exactly one delivery. From the moment a subscription is taken out (no
    dispatch under way knows its identifier), as long as it stays, and in any
    interleaving of publishers, workers, overflow goroutines, other
    subscribers and [Close]: the events its handler got and those it is still
    owed are, each as often as it was accepted, the waiting and accepted
    events that pass its tenant and its pattern; when nothing waits and no
    dispatch is under way it got all of them, none twice. *)
Theorem delivered_exactly_once x b b' :
  reachable b → Forall (unknown x) (pool b) → rtc (subscribed_step x) b b' →
  ∃ new, EventBus_accepted b' = EventBus_accepted b ++ new ∧
    delivered_to x b' ++ owed x b' ≡ₚ delivered_to x b ++ filter (wants x) (waiting b ++ new) ∧
    (settled b' →
     delivered_to x b' ≡ₚ delivered_to x b ++ filter (wants x) (waiting b ++ new)).
Proof.
  intros Hr Hun Hrun. apply reachable_ok in Hr.
  assert (Hkn : Forall (known x) (pool b)) by (eapply Forall_impl; [done|]; apply unknown_known).
  destruct (account x b b' Hr Hkn Hrun) as (new & Ha & Hd). exists new. split; [done|].
  assert (Howed : owed x b = filter (wants x) (waiting b)).
  { unfold owed. by rewrite unknown_owes_all, app_nil_r. }
  rewrite Howed, <-filter_app in Hd. split; [done|]. intros [Hw Hp]. rewrite <-Hd. unfold owed.
  by rewrite Hw, Hp, app_nil_r.
Qed.

(** ** The end of the bus *)

Lemma all_exited ws : sum_list_with live ws = 0%nat → Forall (λ w, w = Exited) ws ∧ ws ≫= busy = [].
Proof.
  induction ws as [|w ws IH]; [by split; [constructor|]|]. cbn. intros Hl.
  destruct w; cbn in Hl; [lia..|]. destruct IH as [Hall Hb]; [done|].
  split; [by constructor|exact Hb].
Qed.

(** A worker that is left when the bus was cancelled has something to do. *)
Lemma left_ready b : EventBus_cancelled b = true →
  (0 < sum_list_with live (EventBus_workers b))%nat → ∃ i, ready b i.
Proof.
  intros Hc Hl. assert (∃ i w, EventBus_workers b !! i = Some w ∧ w ≠ Exited) as (i & w & Hi & Hw).
  { induction (EventBus_workers b) as [|w ws IH]; [cbn in Hl; lia|].
    destruct w; [by exists 0%nat; eexists|by exists 0%nat; eexists|].
    destruct (IH Hl) as (i & w & Hi & Hw). by exists (S i), w. }
  exists i. unfold ready. rewrite Hi. destruct w; [by right|done|done].
Qed.

Lemma internal_run n b b' : nsteps internal n b b' →
  work b = (n + work b')%nat ∧ EventBus_accepted b' = EventBus_accepted b ∧
  EventBus_cancelled b' = EventBus_cancelled b ∧ (attended b → attended b').
Proof.
  induction 1 as [b|n b1 b2 b3 Hs _ (Hw & Hacc & Hcan & Hatt)]; [done|].
  destruct (internal_works _ _ Hs) as [_ _ _ Hc Ha Ha' _ Hcost].
  split_and!; [lia|congruence|congruence|auto].
Qed.

(** What is left to do can be done, until all is done. *)
Lemma cancelled_progress b : EventBus_cancelled b = true → attended b →
  (settled b ∧ Forall (λ w, w = Exited) (EventBus_workers b)) ∨ ∃ b', internal b b'.
Proof.
  intros Hc Ha. destruct (EventBus_overflow b) as [|e l] eqn:Ho.
  2:{ right. eexists. apply (in_start b (calm 0) e); [auto with go|rewrite Ho; set_solver]. }
  destruct (EventBus_tasks b) as [|t l] eqn:Ht.
  2:{ right. eexists. apply (in_task b (calm 0) 0). by rewrite Ht. }
  destruct (decide (sum_list_with live (EventBus_workers b) = 0%nat)) as [Hl|Hl].
  - left. destruct (all_exited _ Hl) as [Hall Hb]. split; [|done]. destruct Ha as [Hq|Hq]; [|lia].
    split; [unfold waiting; by rewrite Hq, Ho|unfold pool; by rewrite Ht, Hb].
  - right. destruct (left_ready b Hc) as [i Hi]; [lia|]. eexists.
    by apply (in_worker b (calm 0) i); [auto with go|].
Qed.

(** As long as it was not closed the bus has a worker. *)
Definition awake (b : EventBus) : Prop :=
  EventBus_cancelled b = EventBus_closed b ∧
  (EventBus_closed b = false → (0 < sum_list_with live (EventBus_workers b))%nat).

Lemma bus_step_awake b b' : bus_step b b' → awake b → awake b'.
Proof.
  intros [b1 Hin|w e|w e _|w t p|w id|w|w] [Hf Hl].
  - destruct (internal_works _ _ Hin) as [_ _ Hcl Hca _ _ Hlive _]. split; [congruence|].
    intros Ho. rewrite Hlive by congruence. apply Hl. congruence.
  - destruct (publish_begin_moves w e b) as (_ & _ & Hcl & Hca & Hws).
    split; [congruence|]. by rewrite Hcl, Hws.
  - destruct (publish_end_moves w e b) as (_ & _ & Hcl & Hca & Hws).
    split; [congruence|]. by rewrite Hcl, Hws.
  - by split.
  - by split.
  - unfold exec, close_begin, modify. cbn. destruct (EventBus_closed b) eqn:Ho.
    + split; [congruence|]. by rewrite Ho.
    + by split.
  - unfold exec, close_end, modify. cbn. destruct (EventBus_cancelled b) eqn:Hc;
      (split; [cbn; congruence|exact Hl]).
Qed.

Lemma reachable_awake b : reachable b → awake b.
Proof.
  intros (repo & n & k & Hrun).
  assert (Hstart : awake (NewEventBus repo n k)).
  { split; [done|intros _]. unfold NewEventBus. cbn.
    destruct (Z.to_nat _) as [|m] eqn:Hm; [case_decide; lia|]. cbn. lia. }
  induction Hrun as [|b1 b2 b3 Hs _ IH]; [done|]. apply IH. by eapply bus_step_awake.
Qed.

Lemma accepted_grows b b' : rtc bus_step b b' → ∃ l, EventBus_accepted b' = EventBus_accepted b ++ l.
Proof.
  induction 1 as [b|b1 b2 b3 Hs _ [l IH]]; [exists []; by rewrite app_nil_r|].
  destruct (bus_step_moves _ _ Hs) as [_ _ _ Ha|e _ _ _ Ha|e rest _ _ _ _ Ha|e s rest R _ _ _ _ Ha|e _ _ _ Ha];
    rewrite IH, Ha; [by exists l|exists (e :: l); by rewrite <-app_assoc|by exists l..].
Qed.

(** What a step leaves alone. *)
Definition same_queue (b b' : EventBus) : Prop :=
  EventBus_workers b' = EventBus_workers b ∧ EventBus_eventQueue b' = EventBus_eventQueue b ∧
  EventBus_accepted b' = EventBus_accepted b.
Definition sends (e : Event) (b b' : EventBus) : Prop :=
  EventBus_workers b' = EventBus_workers b ∧ EventBus_accepted b' = EventBus_accepted b ++ [e] ∧
  (EventBus_eventQueue b' = EventBus_eventQueue b ++ [e] ∨ EventBus_eventQueue b' = EventBus_eventQueue b).
Definition gone (b : EventBus) : Prop := Forall (λ w, w = Exited) (EventBus_workers b).

Lemma publish_end_sends w e b :
  same_queue b (exec (publish_end e) w b) ∨ sends e b (exec (publish_end e) w b).
Proof.
  apply (proj1 (wp_elim (publish_end e) (λ _ b' _, same_queue b b' ∨ sends e b b') w b)).
  unfold publish_end. rewrite wp_bind, wp_modify, wp_bind, wp_get. cbn.
  destruct (EventBus_chanClosed b); [rewrite wp_lift; by left|].
  rewrite wp_bind, wp_modify. cbn.
  case_decide; rewrite wp_modify; right; (split_and!; [done|done|]); [by left|by right].
Qed.

Lemma publish_refused w e b : EventBus_closed b = true →
  publish_begin e w b = (Err ErrEventBusClosed, b, w).
Proof. intros Hc. unfold publish_begin, mbind, go_bind, get. cbn. by rewrite Hc. Qed.

(** Goroutines take nothing from the queue, and a worker that is gone stays
    gone; nothing inside the bus makes an event. *)
Lemma internal_frame b b' : internal b b' →
  EventBus_publishing b' = EventBus_publishing b ∧ (gone b → same_queue b b').
Proof.
  intros [w i Hw Hr|w e Hw He|w i Hi].
  - split.
    + apply (proj1 (wp_elim (worker_step i) (λ _ b' _, EventBus_publishing b' = EventBus_publishing b) w b)).
      unfold worker_step, set_worker. rewrite wp_bind, wp_get.
      destruct (EventBus_workers b !! i) as [[|t|]|]; rewrite ?wp_ret; try done.
      * destruct (EventBus_eventQueue b); [by destruct (EventBus_cancelled b); rewrite ?wp_modify, ?wp_ret|].
        rewrite wp_bind, wp_modify, wp_bind. apply wp_snapshot; [done|]. intros. by rewrite wp_modify.
      * rewrite wp_bind. apply wp_serve; intros; by rewrite wp_modify.
    + intros Hg. exfalso. unfold ready in Hr. destruct (EventBus_workers b !! i) as [x|] eqn:Hx; [|done].
      unfold gone in Hg. rewrite Forall_lookup in Hg. by rewrite (Hg i x Hx) in Hr.
  - cut (EventBus_publishing (exec (overflow_start e) w b) = EventBus_publishing b ∧
      same_queue b (exec (overflow_start e) w b)); [tauto|].
    apply (proj1 (wp_elim (overflow_start e)
      (λ _ b' _, EventBus_publishing b' = EventBus_publishing b ∧ same_queue b b') w b)).
    unfold overflow_start. rewrite wp_bind, wp_modify, wp_bind. apply wp_snapshot; [done|].
    intros. by rewrite wp_modify.
  - cut (EventBus_publishing (exec (task_step i) w b) = EventBus_publishing b ∧
      same_queue b (exec (task_step i) w b)); [tauto|].
    apply (proj1 (wp_elim (task_step i)
      (λ _ b' _, EventBus_publishing b' = EventBus_publishing b ∧ same_queue b b') w b)).
    unfold task_step. rewrite wp_bind, wp_get. destruct Hi as [t ->]. rewrite wp_bind.
    apply wp_serve; intros; by rewrite wp_modify.
Qed.

Lemma same_queue_attended b b' : same_queue b b' → attended b → attended b'.
Proof. intros (Hw & Hq & _). unfold attended. by rewrite Hw, Hq. Qed.

(** A step of a closed bus: it stays closed, it is still attended or its last
    worker had left before the event that was sent. *)
Lemma closed_step b b' : bus_step b b' → EventBus_closed b = true → EventBus_cancelled b = true →
  EventBus_closed b' = true ∧ EventBus_cancelled b' = true ∧
  (EventBus_publishing b = [] → EventBus_publishing b' = [] ∧ EventBus_accepted b' = EventBus_accepted b) ∧
  (attended b → attended b' ∨ gone b ∧ EventBus_eventQueue b = [] ∧ ∃ e, sends e b b') ∧
  (gone b → same_queue b b' ∨ ∃ e, sends e b b').
Proof.
  intros Hs Hc Hca. destruct Hs as [b1 Hin|w e|w e He|w t p|w id|w|w].
  - destruct (internal_works _ _ Hin) as [_ _ Hcl Hcan Hacc Hatt _ _].
    destruct (internal_frame _ _ Hin) as [Hp Hg]. rewrite Hcl, Hcan, Hp, Hacc. split_and!; auto.
  - unfold exec. rewrite publish_refused by done. cbn. split_and!; auto. intros _. by left.
  - destruct (publish_end_moves w e b) as (_ & _ & -> & -> & _). split_and!; [done|done| | |].
    + intros Hp. rewrite Hp in He. by apply not_elem_of_nil in He.
    + intros Hatt. destruct (publish_end_sends w e b) as [Hsq|Hse].
      * left. by eapply same_queue_attended.
      * destruct (decide (sum_list_with live (EventBus_workers b) = 0%nat)) as [Hl|Hl].
        -- right. destruct Hatt as [Hq|Hq]; [|lia]. split_and!; [by apply all_exited|done|by exists e].
        -- left. right. destruct Hse as [-> _]. lia.
    + intros _. destruct (publish_end_sends w e b); [by left|right; by exists e].
  - by split_and!; auto; left.
  - by split_and!; auto; left.
  - unfold exec, close_begin, modify. cbn. rewrite Hc. split_and!; auto. intros _. by left.
  - unfold exec, close_end, modify. cbn. rewrite Hca. split_and!; auto. intros _. by left.
Qed.

(** What waits in [b'] was sent after the last worker had left. *)
Definition left_behind (b b' : EventBus) : Prop := ∃ b1 late,
  rtc bus_step b b1 ∧ gone b1 ∧ EventBus_eventQueue b1 = [] ∧ rtc bus_step b1 b' ∧ gone b' ∧
  EventBus_accepted b' = EventBus_accepted b1 ++ late ∧ EventBus_eventQueue b' ⊆+ late.

Lemma closed_run b b' : rtc bus_step b b' → EventBus_closed b = true → EventBus_cancelled b = true →
  attended b →
  EventBus_closed b' = true ∧ EventBus_cancelled b' = true ∧ (attended b' ∨ left_behind b b') ∧
  (EventBus_publishing b = [] → EventBus_publishing b' = [] ∧ EventBus_accepted b' = EventBus_accepted b).
Proof.
  intros Hrun Hc Hca Hatt. revert b' Hrun. apply rtc_ind_r; [by split_and!; auto|].
  intros b1 b2 Hrun Hs (Hc1 & Hca1 & Hor & Hp).
  destruct (closed_step _ _ Hs Hc1 Hca1) as (Hc2 & Hca2 & Hp2 & Hatt2 & Hg2).
  split_and!; [done|done| |].
  - destruct Hor as [Ha|(b0 & late & H1 & Hg0 & Hq0 & H2 & Hg1 & Hacc & Hq)].
    + destruct (Hatt2 Ha) as [?|(Hg & Hq & e & Hw & Hacc & Hq')]; [by left|right].
      exists b1, [e]. split_and!; [done|done|done|by apply rtc_once|unfold gone; by rewrite Hw|done|].
      destruct Hq' as [-> | ->]; rewrite Hq; [done|apply submseteq_nil_l].
    + right. destruct (Hg2 Hg1) as [(Hw & Hqe & Ha)|(e & Hw & Ha & Hqe)].
      * exists b0, late. unfold gone. rewrite Hw, Hqe, Ha. split_and!; try done. by eapply rtc_r.
      * exists b0, (late ++ [e]). unfold gone. rewrite Hw, Ha, Hacc, app_assoc.
        split_and!; try done; [by eapply rtc_r|].
        destruct Hqe as [-> | ->]; [by apply submseteq_app|].
        etrans; [exact Hq|]. apply submseteq_inserts_r. done.
  - intros Hnone. destruct (Hp Hnone) as [Hp1 Ha1]. destruct (Hp2 Hp1) as [? Ha2]. split; [done|congruence].
Qed.

(** C25 [Close] drains the bus. After it was called on an open bus, and however
    its end, the publishers under way, subscribers, workers and goroutines
    interleave from then on: no new event is taken; left to themselves,
    workers and goroutines take a bounded number of steps; and when none of
    them can go on, every worker and every goroutine is gone and every
    accepted event was dispatched to its last handler, except those that a
    publisher, past its check when [Close] came, sent after the last worker
    had left. With no publisher under way nothing is left. *)
Theorem Close_drains w b b' (closing := exec close_begin w b) :
  reachable b → EventBus_closed b = false → rtc bus_step closing b' →
  (∀ e w', publish_begin e w' b' = (Err ErrEventBusClosed, b', w')) ∧
  (∀ n b'', nsteps internal n b' b'' → (n ≤ work b')%nat ∧ EventBus_accepted b'' = EventBus_accepted b') ∧
  ((∀ b'', ¬ internal b' b'') →
     gone b' ∧ pool b' = [] ∧ EventBus_overflow b' = [] ∧
     (settled b' ∨ left_behind closing b') ∧
     (EventBus_publishing b = [] → settled b' ∧ EventBus_accepted b' = EventBus_accepted b)).
Proof.
  intros Hr Ho Hrun. destruct (reachable_awake b Hr) as [_ Hl]. specialize (Hl Ho).
  assert (closing = b <| EventBus_closed := true |> <| EventBus_cancelled := true |>) as Hcl.
  { unfold closing, exec, close_begin, modify. cbn. by rewrite Ho. }
  destruct (closed_run closing b' Hrun) as (Hc & Hca & Hor & Hp);
    [by rewrite Hcl|by rewrite Hcl|rewrite Hcl; by right|].
  split_and!.
  - intros e w'. by apply publish_refused.
  - intros n b'' Hn. destruct (internal_run _ _ _ Hn) as (Hw & Ha & _). split; [lia|done].
  - intros Hstuck.
    assert (EventBus_overflow b' = []) as Hov.
    { destruct (EventBus_overflow b') as [|e l] eqn:Heq; [done|exfalso].
      eapply Hstuck, (in_start b' (calm 0) e); [auto with go|rewrite Heq; set_solver]. }
    assert (EventBus_tasks b' = []) as Ht.
    { destruct (EventBus_tasks b') as [|t l] eqn:Heq; [done|exfalso].
      eapply Hstuck, (in_task b' (calm 0) 0). by rewrite Heq. }
    assert (sum_list_with live (EventBus_workers b') = 0%nat) as Hz.
    { destruct (decide (sum_list_with live (EventBus_workers b') = 0%nat)) as [|Hne]; [done|exfalso].
      destruct (left_ready b' Hca) as [i Hi]; [lia|].
      eapply Hstuck, (in_worker b' (calm 0) i); [auto with go|done]. }
    destruct (all_exited _ Hz) as [Hgone Hb].
    assert (pool b' = []) as Hpool by (unfold pool; by rewrite Ht, Hb).
    assert (EventBus_eventQueue b' = [] → settled b') as Hset
      by (intros Hq; split; [unfold waiting; by rewrite Hq, Hov|done]).
    split_and!; [exact Hgone|done|done| |].
    + destruct Hor as [[Hq|?]|?]; [left; by apply Hset|lia|by right].
    + intros Hnone. destruct (Hp ltac:(by rewrite Hcl)) as [_ Hacc].
      split; [|rewrite Hacc; by rewrite Hcl]. apply Hset.
      destruct Hor as [[Hq|?]|(b1 & late & H1 & _ & _ & H2 & _ & Ha & Hq)]; [done|lia|].
      assert (late = []) as ->; [|by apply submseteq_nil_r in Hq].
      destruct (accepted_grows _ _ H1) as [l1 E1]. rewrite Hacc, E1, <-app_assoc in Ha.
      rewrite <-(app_nil_r (EventBus_accepted closing)) in Ha at 1. apply app_inv_head in Ha.
      symmetry in Ha. by apply app_eq_nil in Ha as [_ ?].
Qed.

(** ** Patterns, declaratively *)

Lemma substring_full s : String.substring 0 (String.length s) s = s.
Proof. induction s as [|c s IH]; [done|]. cbn. by rewrite IH. Qed.

Lemma substring_head q s : String.substring 0 (String.length q) (q +:+ s) = q.
Proof.
  induction q as [|c q IH]; [by destruct s|]. change (String c q +:+ s) with (String c (q +:+ s)).
  cbn. by rewrite IH.
Qed.

Lemma string_app_head a b s : a +:+ s = b +:+ s → a = b.
Proof.
  intros He. rewrite <-(substring_head a s), <-(substring_head b s). f_equal; [|done].
  pose proof (f_equal String.length He) as Hl. rewrite !length_string_app in Hl. lia.
Qed.

Lemma substring_tail q s n : String.substring (String.length q) n (q +:+ s) = String.substring 0 n s.
Proof. induction q as [|c q IH]; [done|]. cbn. apply IH. Qed.

Lemma substring_split s n : (n ≤ String.length s)%nat →
  s = String.substring 0 n s +:+ String.substring n (String.length s - n) s.
Proof.
  revert n. induction s as [|c s IH]; intros [|n] Hn; cbn in Hn; [done|lia| |].
  - change (String c s = String.substring 0 (String.length (String c s)) (String c s)).
    by rewrite substring_full.
  - change (String c s = String c (String.substring 0 n s +:+
      String.substring n (String.length s - n) s)). by rewrite <-IH by lia.
Qed.

Lemma HasSuffix_spec s suf : HasSuffix s suf = true ↔ ∃ q, s = q +:+ suf ∧ TrimSuffix s suf = q.
Proof.
  unfold TrimSuffix. split.
  - intros Hs. rewrite Hs. eexists. split; [|done]. unfold HasSuffix in Hs.
    apply andb_prop in Hs as [Hlen%bool_decide_eq_true Heq%bool_decide_eq_true].
    rewrite (substring_split s (String.length s - String.length suf)) at 1 by lia.
    f_equal. by replace (String.length s - (String.length s - String.length suf))%nat
      with (String.length suf) by lia.
  - intros (q & -> & _). unfold HasSuffix. apply andb_true_intro.
    rewrite !bool_decide_eq_true, length_string_app. split; [lia|].
    replace (String.length q + String.length suf - String.length suf)%nat with (String.length q) by lia.
    by rewrite substring_tail, substring_full.
Qed.

Lemma HasPrefix_spec s pre : HasPrefix s pre = true ↔ ∃ r, s = pre +:+ r.
Proof.
  unfold HasPrefix. split; [|intros [r ->]; apply prefix_app].
  revert s. induction pre as [|c pre IH]; intros s; cbn; [by exists s|].
  destruct s as [|c' s]; [done|]. cbn. destruct (Ascii.ascii_dec c c') as [<-|]; [|done].
  intros [r ->]%IH. by exists r.
Qed.

(** A pattern selects every event type, one type, or the types below a
    dotted prefix, and nothing else. *)
Theorem matchesPattern_spec p t : matchesPattern p t = true ↔
  p = "*" ∨ p = t ∨ ∃ q r, p = q +:+ ".*" ∧ t = q +:+ "." +:+ r.
Proof.
  unfold matchesPattern. case_decide as Hp; [by naive_solver|]. apply Decidable.not_or in Hp as [Hp1 Hp2].
  destruct (HasSuffix p ".*") eqn:Hs.
  - apply HasSuffix_spec in Hs as (q & Hq & ->). rewrite HasPrefix_spec. split.
    + intros [r ->]. right; right. exists q, r. by rewrite str_app_assoc.
    + intros [?|[?|(q' & r & Hq' & ->)]]; [done..|]. exists r. rewrite Hq in Hq'.
      apply string_app_head in Hq' as ->. by rewrite str_app_assoc.
  - split; [done|]. intros [?|[?|(q & r & Hq & _)]]; [done..|].
    assert (Htrue : HasSuffix p ".*" = true); [|congruence].
    unfold HasSuffix. rewrite Hq. apply andb_true_intro. rewrite !bool_decide_eq_true, length_string_app.
    split; [lia|].
    replace (String.length q + String.length ".*" - String.length ".*")%nat with (String.length q) by lia.
    by rewrite substring_tail.
Qed.

(** ** Examples *)

Section Examples.

Definition demo_event (id type_ : string) : Event :=
  mkEvent id "acme" type_ "instance" "i-1" "u-1" 5 ∅ [] "1.0".
Definition demo_bus : EventBus :=
  exec (bus_SubscribeTenant "acme" "instance.*") (calm 9) (NewEventBus None 1 1).
Definition demo_sub : subscription := mksubscription "uuid-0" "instance.*" "acme".

Definition e1 := demo_event "e1" "instance.created".
Definition e2 := demo_event "e2" "network.created".
Definition e3 := demo_event "e3" "instance.deleted".
#[local] Abbreviation at_work m := (exec m (calm 9)).

(** Three events, of which two pass the filters; the third finds the queue
    full and overtakes the first. *)
Definition demo_publishing : list (EventBus → EventBus) :=
  [at_work (publish_begin e1); at_work (publish_end e1); at_work (worker_step 0);
   at_work (publish_begin e2); at_work (publish_end e2);
   at_work (publish_begin e3); at_work (publish_end e3)].
Definition demo_serving : list (EventBus → EventBus) :=
  [at_work (overflow_start e3); at_work (task_step 0); at_work (worker_step 0);
   at_work (worker_step 0); at_work (worker_step 0); at_work (worker_step 0);
   at_work (worker_step 0); at_work (task_step 0)].

Definition after (b : EventBus) (fs : list (EventBus → EventBus)) : EventBus :=
  fold_left (λ b f, f b) fs b.
Fixpoint follows (R : EventBus → EventBus → Prop) (b : EventBus) (fs : list (EventBus → EventBus)) : Prop :=
  match fs with [] => True | f :: fs => R b (f b) ∧ follows R (f b) fs end.

Lemma follows_rtc R b fs : follows R b fs → rtc R b (after b fs).
Proof.
  revert b. induction fs as [|f fs IH]; intros b; [by intros _|]. intros [Hs Hf].
  eapply rtc_l; [exact Hs|]. by apply IH.
Qed.

Lemma follows_nsteps R b fs : follows R b fs → nsteps R (length fs) b (after b fs).
Proof.
  revert b. induction fs as [|f fs IH]; intros b; [by constructor|]. intros [Hs Hf].
  eapply nsteps_l; [exact Hs|]. by apply IH.
Qed.

Lemma demo_reachable fs : follows bus_step demo_bus fs → reachable (after demo_bus fs).
Proof.
  intros Hf. exists None, 1, 1. eapply rtc_l; [|by apply follows_rtc]. apply bus_subscribe.
Qed.

(** Every step of the demonstration is one of the bus. *)
Ltac demo_internal :=
  lazymatch goal with
  | |- internal _ (exec (worker_step _) _ _) =>
      apply in_worker; [apply calm_ok|by vm_compute; first [done|left|right]]
  | |- internal _ (exec (overflow_start _) _ _) =>
      apply in_start; [apply calm_ok|by vm_compute; constructor]
  | |- internal _ _ => apply in_task; vm_compute; by eexists
  end.
Ltac demo_step :=
  lazymatch goal with
  | |- True => exact I
  | |- subscribed _ _ => by vm_compute
  | |- internal _ _ => demo_internal
  | |- bus_step _ (exec (publish_begin _) _ _) => apply bus_begin
  | |- bus_step _ (exec (publish_end _) _ _) => apply bus_end; by vm_compute; constructor
  | |- bus_step _ _ => apply bus_internal; demo_internal
  end.
Ltac demo_steps :=
  cbv [follows subscribed_step demo_publishing demo_serving app]; split_and!; demo_step.

Lemma delivered_exactly_once_witness (b' := after demo_bus (demo_publishing ++ demo_serving)) :
  settled b' ∧ delivered_to demo_sub b' = [e3; e1] ∧
  ∃ new, EventBus_accepted b' = EventBus_accepted demo_bus ++ new ∧
    delivered_to demo_sub b' ++ owed demo_sub b' ≡ₚ
      delivered_to demo_sub demo_bus ++ filter (wants demo_sub) (waiting demo_bus ++ new) ∧
    (settled b' → delivered_to demo_sub b' ≡ₚ
      delivered_to demo_sub demo_bus ++ filter (wants demo_sub) (waiting demo_bus ++ new)).
Proof.
  split; [by vm_compute|]. split; [by vm_compute|]. apply delivered_exactly_once.
  - apply (demo_reachable []). done.
  - constructor.
  - apply follows_rtc. demo_steps.
Defined.

Definition before_close : EventBus := after demo_bus demo_publishing.
Definition after_close : EventBus :=
  at_work close_end (at_work (worker_step 0) (after (at_work close_begin before_close) demo_serving)).
Lemma demo_close : rtc bus_step (at_work close_begin before_close) after_close.
Proof.
  assert (rtc bus_step (at_work close_begin before_close)
    (after (at_work close_begin before_close) demo_serving)) as H1 by (apply follows_rtc; demo_steps).
  set (b1 := after (at_work close_begin before_close) demo_serving) in *.
  assert (internal b1 (at_work (worker_step 0) b1)) as H2.
  { apply in_worker; [apply calm_ok|]. vm_compute. by right. }
  exact (rtc_r _ _ _ (rtc_r _ _ _ H1 (bus_internal _ _ H2)) (bus_close_end _ (calm 9))).
Qed.

Lemma Close_drains_witness :
  gone after_close ∧ settled after_close ∧ EventBus_accepted after_close = [e1; e2; e3].
Proof.
  destruct (Close_drains (calm 9) before_close after_close) as (_ & _ & H).
  - apply demo_reachable. demo_steps.
  - by vm_compute.
  - apply demo_close.
  - assert (work after_close = 0%nat) as Hdone by (vm_compute; reflexivity).
    destruct H as (Hg & _ & _ & _ & Hs).
    + intros b'' Hin. destruct (internal_works _ _ Hin) as [_ _ _ _ _ _ _ Hcost].
      rewrite Hdone in Hcost. discriminate Hcost.
    + split; [exact Hg|]. destruct Hs as [Hs Ha]; [vm_compute; reflexivity|]. split; [exact Hs|].
      rewrite Ha. vm_compute. reflexivity.
Defined.

(** What the lock does not protect: [Close] comes between the check and the
    send of a publisher, which then sends on a closed channel. *)
Example publisher_panics :
  answer (publish_end e1) (calm 9)
    (at_work (close_begin ;; close_end) (at_work (publish_begin e1) demo_bus)) =
  panic "send on closed channel".
Proof. reflexivity. Qed.

(** An event that is sent between the two stages of [Close], when the workers
    have left, stays in the queue. *)
Example event_left_behind :
  let b := after demo_bus [at_work (publish_begin e1); at_work close_begin; at_work (worker_step 0);
                           at_work (publish_end e1); at_work close_end] in
  EventBus_eventQueue b = [e1] ∧ EventBus_workers b = [Exited].
Proof. split; reflexivity. Qed.

End Examples.
