(* ===== verification/Ssrf.v ===== *)
(** * Where outgoing requests may go

    [internal/infra/ssrf/ssrf.go]: the check of a URL before it is stored or
    called, and the dialer of the HTTP client, which checks again what the name
    resolves to at the time of the connection. Parsing a URL and resolving a
    name are the standard library's; a resolver may answer differently from one
    call to the next. *)

From S2P Require Import Prelude Guest Bus.

Definition ErrProhibitedScheme :=
  ErrNew "ssrf" "prohibited URL scheme: only http and https are allowed".
Definition ErrProhibitedHostname :=
  ErrNew "ssrf" "prohibited hostname: local or internal hostnames are blocked".
Definition ErrProhibitedIP := ErrNew "ssrf"
  "prohibited destination: private, loopback, or link-local IP addresses are blocked".
Definition ErrDNSResolution := ErrNew "ssrf" "failed to resolve webhook destination hostname".

(** ** Addresses

    A [net.IP] is a slice of bytes; an IPv4 address comes with four bytes or
    mapped into sixteen. *)

Abbreviation IP := (list Z).

Definition v4_prefix : IP := replicate 10 0 ++ [255; 255].

Definition To4 (ip : IP) : option IP :=
  if decide (length ip = 4%nat) then Some ip
  else if decide (length ip = 16%nat ∧ take 12 ip = v4_prefix) then Some (drop 12 ip)
  else None.

(** The address the comparisons are made on. *)
Definition plain (ip : IP) : IP := default ip (To4 ip).

Definition number (ip : IP) : Z := foldl (λ acc b, acc * 256 + b) 0 ip.

(** [block.Contains(ip)]: as long as the network's number, and equal to it in
    the first [bits] bits. *)
Definition Contains (block : IP * Z) (ip : IP) : bool :=
  let '(net, bits) := block in
  let ip := plain ip in
  bool_decide (length ip = length net) &&
  bool_decide (Z.shiftr (number ip) (8 * Z.of_nat (length net) - bits) =
               Z.shiftr (number net) (8 * Z.of_nat (length net) - bits)).

Definition v6_zero : IP := replicate 16 0.
Definition v6_loopback : IP := replicate 15 0 ++ [1].
Definition v6_net (a b : Z) : IP := a :: b :: replicate 14 0.

(** The blocks as [net.ParseCIDR] leaves them: a block of mapped addresses is
    the block of the plain ones. *)
Definition prohibitedCIDRs : list (IP * Z) :=
  [([127; 0; 0; 0], 8); ([10; 0; 0; 0], 8); ([172; 16; 0; 0], 12); ([192; 168; 0; 0], 16);
   ([169; 254; 0; 0], 16); ([0; 0; 0; 0], 8); ([224; 0; 0; 0], 4); ([240; 0; 0; 0], 4);
   ([255; 255; 255; 255], 32); (v6_loopback, 128); (v6_zero, 128); (v6_net 254 128, 10);
   (v6_net 252 0, 7); (v6_net 255 0, 8);
   ([127; 0; 0; 0], 8); ([10; 0; 0; 0], 8); ([172; 16; 0; 0], 12); ([192; 168; 0; 0], 16);
   ([169; 254; 0; 0], 16)].

Definition IsLoopback (ip : IP) : bool :=
  match To4 ip with
  | Some v4 => bool_decide (v4 !! 0%nat = Some 127)
  | None => bool_decide (ip = v6_loopback)
  end.
Definition IsUnspecified (ip : IP) : bool :=
  bool_decide (plain ip = [0; 0; 0; 0] ∨ ip = v6_zero).
Definition IsLinkLocalUnicast (ip : IP) : bool :=
  match To4 ip with
  | Some v4 => bool_decide (v4 !! 0%nat = Some 169 ∧ v4 !! 1%nat = Some 254)
  | None => bool_decide (length ip = 16%nat ∧ ip !! 0%nat = Some 254) &&
            bool_decide (Z.land (default 0 (ip !! 1%nat)) 192 = 128)
  end.
Definition IsLinkLocalMulticast (ip : IP) : bool :=
  match To4 ip with
  | Some v4 => bool_decide (v4 !! 0%nat = Some 224 ∧ v4 !! 1%nat = Some 0 ∧ v4 !! 2%nat = Some 0)
  | None => bool_decide (length ip = 16%nat ∧ ip !! 0%nat = Some 255) &&
            bool_decide (Z.land (default 0 (ip !! 1%nat)) 15 = 2)
  end.
Definition IsMulticast (ip : IP) : bool :=
  match To4 ip with
  | Some v4 => bool_decide (Z.land (default 0 (v4 !! 0%nat)) 240 = 224)
  | None => bool_decide (length ip = 16%nat ∧ ip !! 0%nat = Some 255)
  end.

(** The nil slice is the empty one. *)
Definition IsProhibitedIP (ip : IP) : bool :=
  bool_decide (ip = []) || IsLoopback ip || IsUnspecified ip || IsLinkLocalUnicast ip ||
  IsLinkLocalMulticast ip || IsMulticast ip ||
  existsb (λ block, Contains block ip) prohibitedCIDRs.

(** ** Names *)

Definition prohibitedHostnames : list string :=
  ["localhost"; "localhost.localdomain"; "127.0.0.1"; "::1"; "metadata.google.internal";
   "metadata"; "instance-data"].
Definition prohibitedSuffixes : list string :=
  [".local"; ".internal"; ".corp"; ".home"; ".lan"; ".arpa"].

(** [url.Parse], of which the scheme and [Hostname()] are used, and the
    resolver: its answer to the [n]-th question. *)
Class Net := {
  url_Parse : string → result (string * string);
  net_LookupIP : Z → string → result (list IP);
  ip_String : IP → string
}.

Section checks.
Context `{!Net}.

Definition lookup_host {St} (host : string) : go St (list IP) :=
  n ← rand_53; lift (net_LookupIP n host).

(** The tests that do not ask the resolver. *)
Definition static_check (rawURL : string) : result string :=
  match url_Parse rawURL with
  | Err err => Err (Wrapf ("invalid URL syntax: " +:+ Error err) err)
  | Ok (scheme, host) =>
      let scheme := ToLower scheme in
      let hostname := ToLower host in
      if decide (scheme ≠ "http" ∧ scheme ≠ "https") then Err ErrProhibitedScheme
      else if decide (hostname = "") then Err ErrProhibitedHostname
      else if decide (hostname ∈ prohibitedHostnames) then Err ErrProhibitedHostname
      else if existsb (HasSuffix hostname) prohibitedSuffixes then Err ErrProhibitedHostname
      else Ok hostname
  end.

(** The loops that refuse at the first prohibited address. *)
Fixpoint check_ips (refusal : IP → error) (ips : list IP) : result () :=
  match ips with
  | [] => Ok ()
  | ip :: ips => if IsProhibitedIP ip then Err (refusal ip) else check_ips refusal ips
  end.

Definition ValidateURL {St} (rawURL : string) : go St () :=
  hostname ← lift (static_check rawURL);
  ips ← wrap_err (λ err, Wrapf (Error ErrDNSResolution +:+ ": " +:+ Error err) ErrDNSResolution)
          (lookup_host hostname);
  if decide (ips = []) then fail ErrDNSResolution
  else lift (check_ips (λ ip, Wrapf (Error ErrProhibitedIP +:+ ": " +:+ hostname +:+
               " resolves to " +:+ ip_String ip) ErrProhibitedIP) ips).

(** [DialContext] of [NewSafeHTTPClient]: the address it connects to. *)
Definition DialContext {St} (host : string) : go St IP :=
  ips ← wrap_err (λ err, Wrapf (Error ErrDNSResolution +:+ ": " +:+ Error err) ErrDNSResolution)
          (lookup_host host);
  match ips with
  | [] => fail ErrDNSResolution
  | targetIP :: _ =>
      lift (check_ips (λ ip, Wrapf (Error ErrProhibitedIP +:+ ": target " +:+ host +:+
              " resolves to prohibited IP " +:+ ip_String ip) ErrProhibitedIP) ips) ;;
      mret targetIP
  end.

(** ** What is let through *)

Lemma check_ips_ok refusal ips :
  check_ips refusal ips = Ok () ↔ Forall (λ ip, IsProhibitedIP ip = false) ips.
Proof.
  induction ips as [|ip ips IH]; cbn; [by split|]. rewrite Forall_cons. destruct (IsProhibitedIP ip).
  - split; [done|by intros [? _]].
  - rewrite IH. naive_solver.
Qed.

Lemma wp_lookup_host {St} host (Q : result (list IP) → St → World → Prop) w s :
  (∀ n, Q (net_LookupIP n host) s (next_rand w)) → wp (lookup_host host) Q w s.
Proof. intros HQ. unfold lookup_host. rewrite wp_bind, wp_rand, wp_lift. apply HQ. Qed.

Lemma wp_DialContext {St} host (Q : result IP → St → World → Prop) w s :
  (∀ e w', same_oracles w w' → Q (Err e) s w') →
  (∀ ip w', same_oracles w w' → IsProhibitedIP ip = false → Q (Ok ip) s w') →
  wp (DialContext host) Q w s.
Proof.
  intros Herr Hok. unfold DialContext. rewrite wp_bind, wp_wrap_err. apply wp_lookup_host. intros n.
  destruct (net_LookupIP n host) as [[|ip ips]|e]; [rewrite wp_fail; by apply Herr| |by apply Herr].
  rewrite wp_bind, wp_lift.
  destruct (check_ips _ _) as [[]|e] eqn:Hc; [|by apply Herr].
  rewrite wp_ret. apply check_ips_ok in Hc. apply Forall_cons in Hc as [Hip _]. by apply Hok.
Qed.

Lemma wp_ValidateURL {St} rawURL (Q : result () → St → World → Prop) w s :
  (∀ e w', same_oracles w w' → Q (Err e) s w') →
  (∀ hostname w', same_oracles w w' → static_check rawURL = Ok hostname → Q (Ok ()) s w') →
  wp (ValidateURL rawURL) Q w s.
Proof.
  intros Herr Hok. unfold ValidateURL. rewrite wp_bind, wp_lift.
  destruct (static_check rawURL) as [hostname|e] eqn:Hs; [|by apply Herr].
  rewrite wp_bind, wp_wrap_err. apply wp_lookup_host. intros n.
  destruct (net_LookupIP n hostname) as [ips|e]; [|by apply Herr].
  case_decide; [rewrite wp_fail; by apply Herr|]. rewrite wp_lift.
  destruct (check_ips _ _) as [[]|e]; [by eapply Hok|by apply Herr].
Qed.
End checks.

(** ** The prohibited addresses, declaratively *)

Definition bytes (ip : IP) : Prop := Forall (λ b, 0 ≤ b < 256) ip.

(** IPv4: this network, private, loopback, link-local (with the metadata
    service), multicast and reserved. *)
Definition private4 (a b : Z) : Prop :=
  a = 0 ∨ a = 10 ∨ a = 127 ∨ 224 ≤ a ∨ (a = 169 ∧ b = 254) ∨ (a = 172 ∧ 16 ≤ b < 32) ∨
  (a = 192 ∧ b = 168).

(** IPv6: unspecified, loopback, multicast, unique local, link-local. *)
Definition private6 (ip : IP) (x y : Z) : Prop :=
  ip = v6_zero ∨ ip = v6_loopback ∨ x = 255 ∨ 252 ≤ x < 254 ∨ (x = 254 ∧ 128 ≤ y < 192).

Lemma number_app l1 l2 : number (l1 ++ l2) = number l1 * 256 ^ Z.of_nat (length l2) + number l2.
Proof.
  unfold number. rewrite foldl_app. generalize (foldl (λ acc b, acc * 256 + b) 0 l1) as n.
  induction l2 as [|b l2 IH] using rev_ind; intros n; cbn; [lia|].
  rewrite !foldl_snoc, IH, length_app. cbn. rewrite Nat2Z.inj_add, Z.pow_add_r by lia. lia.
Qed.

Lemma number_bound l : bytes l → 0 ≤ number l < 256 ^ Z.of_nat (length l).
Proof.
  induction l as [|b l IH] using rev_ind; intros Hl; [by cbn|].
  apply Forall_app in Hl as [Hl Hb]. apply Forall_cons in Hb as [Hb _]. specialize (IH Hl).
  rewrite number_app, length_app. cbn. rewrite Nat2Z.inj_add, Z.pow_add_r by lia.
  change (256 ^ Z.of_nat 1) with 256.
  change (number [b]) with b. lia.
Qed.

(** The first bits of an address are those of its first bytes. *)
Lemma number_head l1 l2 bits : bytes l2 → 0 ≤ bits ≤ 8 * Z.of_nat (length l1) →
  Z.shiftr (number (l1 ++ l2)) (8 * Z.of_nat (length (l1 ++ l2)) - bits) =
  Z.shiftr (number l1) (8 * Z.of_nat (length l1) - bits).
Proof.
  intros Hl2 Hbits. rewrite length_app, Nat2Z.inj_add, number_app.
  set (k := 8 * Z.of_nat (length l1) - bits). set (m := 8 * Z.of_nat (length l2)).
  replace (8 * (Z.of_nat (length l1) + Z.of_nat (length l2)) - bits) with (m + k) by lia.
  rewrite <-Z.shiftr_shiftr by lia. f_equal. rewrite Z.shiftr_div_pow2 by lia.
  pose proof (number_bound l2 Hl2) as Hb.
  assert (Hpow : 2 ^ m = 256 ^ Z.of_nat (length l2)).
  { unfold m. change 256 with (2 ^ 8). by rewrite <-Z.pow_mul_r by lia. }
  rewrite Hpow. rewrite Z.div_add_l by lia. rewrite Z.div_small by lia. lia.
Qed.

Lemma Contains_head n1 n2 bits ip i1 i2 :
  plain ip = i1 ++ i2 → bytes i2 → bytes n2 → length i1 = length n1 → length i2 = length n2 →
  0 ≤ bits ≤ 8 * Z.of_nat (length n1) →
  Contains (n1 ++ n2, bits) ip =
  bool_decide (Z.shiftr (number i1) (8 * Z.of_nat (length n1) - bits) =
               Z.shiftr (number n1) (8 * Z.of_nat (length n1) - bits)).
Proof.
  intros Hip Hi2 Hn2 Hl1 Hl2 Hbits. unfold Contains. rewrite Hip.
  rewrite bool_decide_eq_true_2 by (rewrite !length_app; lia). cbn [andb].
  rewrite (number_head n1 n2) by done.
  replace (length (n1 ++ n2)) with (length (i1 ++ i2)) by (rewrite !length_app; lia).
  rewrite number_head by (done || lia). by rewrite Hl1.
Qed.

(** A block of the other family does not contain an address. *)
Lemma Contains_other net bits ip : length (plain ip) ≠ length net → Contains (net, bits) ip = false.
Proof. intros Hl. unfold Contains. by rewrite bool_decide_eq_false_2. Qed.

#[local] Ltac Zify.zify_post_hook ::= Z.div_mod_to_equations.

(** A fact about every byte is checked on all of them. *)
Lemma on_bytes (P : Z → Prop) `{!∀ b, Decision (P b)} b : 0 ≤ b < 256 →
  forallb (λ b, bool_decide (P b)) (seqZ 0 256) = true → P b.
Proof.
  intros Hb HP. rewrite forallb_forall in HP. apply (bool_decide_eq_true (P b)), HP.
  apply list_elem_of_In, elem_of_seqZ. lia.
Qed.

Lemma land_240 b : 0 ≤ b < 256 → Z.land b 240 = 224 ↔ 224 ≤ b < 240.
Proof. intros Hb. apply (on_bytes (λ b, Z.land b 240 = 224 ↔ 224 ≤ b < 240)); [done|by vm_compute]. Qed.
Lemma land_192 b : 0 ≤ b < 256 → Z.land b 192 = 128 ↔ 128 ≤ b < 192.
Proof. intros Hb. apply (on_bytes (λ b, Z.land b 192 = 128 ↔ 128 ≤ b < 192)); [done|by vm_compute]. Qed.

(** A block that is given by the first two bytes. *)
Lemma Contains_two n1 n2 nrest bits ip i1 i2 irest :
  plain ip = i1 :: i2 :: irest → bytes irest → bytes nrest → length irest = length nrest →
  0 ≤ bits ≤ 16 →
  Contains (n1 :: n2 :: nrest, bits) ip = true ↔
  (i1 * 256 + i2) / 2 ^ (16 - bits) = (n1 * 256 + n2) / 2 ^ (16 - bits).
Proof.
  intros Hip Hi Hn Hl Hbits.
  change (n1 :: n2 :: nrest) with ([n1; n2] ++ nrest).
  rewrite (Contains_head [n1; n2] nrest bits ip [i1; i2] irest) by done.
  rewrite bool_decide_eq_true, !Z.shiftr_div_pow2 by (cbn; lia). cbn. done.
Qed.

Lemma prohibited_v4 ip a b c d : bytes [a; b; c; d] → To4 ip = Some [a; b; c; d] →
  IsProhibitedIP ip = true ↔ private4 a b.
Proof.
  intros Hb H4. assert (Hp : plain ip = [a; b; c; d]) by (unfold plain; by rewrite H4).
  assert (Hcd : bytes [c; d]) by (by apply Forall_cons in Hb as [_ [_ ?]%Forall_cons]).
  apply Forall_cons in Hb as [Ha [Hb' [Hc [Hd _]%Forall_cons]%Forall_cons]%Forall_cons].
  assert (Hbl : ∀ n1 n2 n3 n4 bits, bytes [n3; n4] → 0 ≤ bits ≤ 16 →
    Contains ([n1; n2; n3; n4], bits) ip = true ↔
    (a * 256 + b) / 2 ^ (16 - bits) = (n1 * 256 + n2) / 2 ^ (16 - bits)).
  { intros n1 n2 n3 n4 bits Hn Hbits. by apply (Contains_two n1 n2 [n3; n4] bits ip a b [c; d]). }
  assert (Hlast : Contains ([255; 255; 255; 255], 32) ip = true → a = 255).
  { unfold Contains. rewrite Hp, andb_true_iff, !bool_decide_eq_true. intros [_ Hn].
    change (8 * Z.of_nat (length [255; 255; 255; 255]) - 32) with 0 in Hn.
    rewrite !Z.shiftr_0_r in Hn. unfold number in Hn. cbn in Hn. lia. }
  unfold IsProhibitedIP, prohibitedCIDRs. cbn [existsb].
  rewrite (Contains_other v6_loopback), (Contains_other v6_zero), (Contains_other (v6_net 254 128)),
    (Contains_other (v6_net 252 0)), (Contains_other (v6_net 255 0)) by (rewrite Hp; done).
  unfold IsLoopback, IsUnspecified, IsLinkLocalUnicast, IsLinkLocalMulticast, IsMulticast. rewrite H4.
  set (last := Contains ([255; 255; 255; 255], 32) ip) in *.
  rewrite !orb_true_iff, !Hbl by first [lia | repeat constructor; lia].
  rewrite !bool_decide_eq_true. clearbody last.
  change (length ([] : IP)) with 0%nat.
  assert (Hne : ip ≠ []) by (intros ->; done).
  assert (Hnz : ip ≠ v6_zero) by (intros ->; done).
  assert (Hz : plain ip = [0; 0; 0; 0] ↔ a = 0 ∧ b = 0 ∧ c = 0 ∧ d = 0).
  { rewrite Hp. split; [by intros [= -> -> -> ->]|by intros (-> & -> & -> & ->)]. }
  rewrite Hz. cbn [lookup list_lookup default from_option].
  rewrite !(inj_iff Some), land_240 by done. unfold private4.
  change (2 ^ (16 - 8)) with 256. change (2 ^ (16 - 12)) with 16. change (2 ^ (16 - 16)) with 1.
  change (2 ^ (16 - 4)) with 4096. change (id a) with a.
  replace ((a * 256 + b) / 256) with a by lia.
  replace ((a * 256 + b) / 16) with (a * 16 + b / 16) by lia.
  replace ((a * 256 + b) / 4096) with (a / 16) by lia. rewrite !Z.div_1_r. clear -Hne Hnz Hlast Ha Hb'.
  split.
  - intros Hyes. repeat destruct Hyes as [Hyes|Hyes]; try done; lia.
  - intros Hyes. destruct Hyes as [->|[->|[->|[Hyes|[[-> ->]|[[-> Hyes]|[-> ->]]]]]]]; try lia.
Qed.

Lemma number_inj l1 : ∀ l2, bytes l1 → bytes l2 → length l1 = length l2 →
  number l1 = number l2 → l1 = l2.
Proof.
  induction l1 as [|b1 l1 IH] using rev_ind; intros l2 Hb1 Hb2 Hl Hn.
  { by destruct l2. }
  destruct l2 as [|b2 l2 _] using rev_ind; rewrite !length_app in Hl; cbn in Hl; [lia|].
  apply Forall_app in Hb1 as [Hb1 [Hx1 _]%Forall_cons], Hb2 as [Hb2 [Hx2 _]%Forall_cons].
  rewrite !number_app in Hn. change (number [b1]) with b1 in Hn. change (number [b2]) with b2 in Hn.
  change (256 ^ Z.of_nat (length [_])) with 256 in Hn.
  assert (b1 = b2) as -> by lia. f_equal. apply IH; [done|done|lia|lia].
Qed.

Lemma prohibited_v6 ip x y rest : bytes ip → ip = x :: y :: rest → length ip = 16%nat →
  To4 ip = None → IsProhibitedIP ip = true ↔ private6 ip x y.
Proof.
  intros Hb Hip Hlen H4. assert (Hp : plain ip = ip) by (unfold plain; by rewrite H4).
  rewrite Hip in Hb. apply Forall_cons in Hb as [Hx [Hy Hr]%Forall_cons].
  assert (Hrest : length rest = 14%nat) by (rewrite Hip in Hlen; cbn in Hlen; lia).
  assert (Hbl : ∀ n1 n2 bits, 0 ≤ bits ≤ 16 → Contains (v6_net n1 n2, bits) ip = true ↔
    (x * 256 + y) / 2 ^ (16 - bits) = (n1 * 256 + n2) / 2 ^ (16 - bits)).
  { intros n1 n2 bits Hbits. apply (Contains_two n1 n2 (replicate 14 0) bits ip x y rest); try done.
    - by rewrite Hp.
    - apply Forall_replicate. lia. }
  assert (Hfull : ∀ net, net = v6_loopback ∨ net = v6_zero →
    Contains (net, 128) ip = true → net = ip).
  { intros net Hnet. unfold Contains. rewrite Hp, andb_true_iff, !bool_decide_eq_true. intros [Hl Hn].
    rewrite Hl in Hlen. rewrite Hlen in Hn. change (8 * Z.of_nat 16 - 128) with 0 in Hn.
    rewrite !Z.shiftr_0_r in Hn. symmetry. apply number_inj; [|destruct Hnet as [->| ->]|done..].
    - rewrite Hip. constructor; [done|]. by constructor.
    - apply Forall_app; split; [apply Forall_replicate; lia|repeat constructor; lia].
    - apply Forall_replicate. lia. }
  unfold IsProhibitedIP, prohibitedCIDRs. cbn [existsb].
  rewrite !(Contains_other [_; _; _; _]) by (rewrite Hp, Hlen; done).
  unfold IsLoopback, IsUnspecified, IsLinkLocalUnicast, IsLinkLocalMulticast, IsMulticast. rewrite H4.
  set (l1 := Contains (v6_loopback, 128) ip). set (l2 := Contains (v6_zero, 128) ip).
  assert (Hl1 : l1 = true → ip = v6_loopback) by (intros; symmetry; apply Hfull; auto).
  assert (Hl2 : l2 = true → ip = v6_zero) by (intros; symmetry; apply Hfull; auto).
  clearbody l1 l2. rewrite !orb_true_iff, !Hbl, !andb_true_iff by lia.
  rewrite !bool_decide_eq_true.
  assert (Hne : ip ≠ []) by (intros ->; done).
  assert (Hnz : plain ip ≠ [0; 0; 0; 0]) by (rewrite Hp; intros Heq; by rewrite Heq in Hlen).
  rewrite Hlen. change (length ([] : IP)) with 0%nat.
  assert (H0 : ip !! 0%nat = Some x) by by rewrite Hip.
  assert (H1 : ip !! 1%nat = Some y) by by rewrite Hip.
  rewrite H0, H1. cbn [default from_option]. change (id y) with y.
  rewrite !(inj_iff Some), land_192 by done. unfold private6.
  change (2 ^ (16 - 10)) with 64. change (2 ^ (16 - 7)) with 512. change (2 ^ (16 - 8)) with 256.
  replace ((x * 256 + y) / 64) with (x * 4 + y / 64) by lia.
  replace ((x * 256 + y) / 512) with (x / 2) by lia.
  replace ((x * 256 + y) / 256) with x by lia. clear -Hne Hnz Hl1 Hl2 Hx Hy.
  split.
  - intros Hyes. repeat destruct Hyes as [Hyes|Hyes]; try done; auto; do 2 right; lia.
  - intros [->|[->|[->|[Hyes|[-> Hyes]]]]]; try solve [auto 20].
    do 13 right. left. lia.
Qed.

(** C31 The addresses that are refused are exactly the private ones: for IPv4,
    also when it is mapped into IPv6, this network, private, loopback,
    link-local, multicast and reserved addresses; for IPv6 the unspecified and
    the loopback address and the multicast, unique local and link-local ones. *)
Theorem IsProhibitedIP_spec ip : bytes ip →
  (∀ a b c d, To4 ip = Some [a; b; c; d] → IsProhibitedIP ip = true ↔ private4 a b) ∧
  (∀ x y rest, ip = x :: y :: rest → length ip = 16%nat → To4 ip = None →
     IsProhibitedIP ip = true ↔ private6 ip x y).
Proof.
  intros Hb. split; [|intros x y rest; by apply prohibited_v6].
  intros a b c d H4. apply (prohibited_v4 ip a b c d); [|done]. unfold To4 in H4.
  case_decide; [by injection H4 as <-|]. case_decide; [|done]. injection H4 as <-.
  by apply Forall_drop.
Qed.

Lemma IsProhibitedIP_spec_witness :
  IsProhibitedIP (v4_prefix ++ [169; 254; 169; 254]) = true ∧
  IsProhibitedIP [100; 64; 0; 1] = false.
Proof.
  split.
  - apply (proj1 (IsProhibitedIP_spec (v4_prefix ++ [169; 254; 169; 254])
      ltac:(repeat constructor; lia)) 169 254 169 254); [done|]. unfold private4. lia.
  - apply not_true_iff_false.
    rewrite (proj1 (IsProhibitedIP_spec [100; 64; 0; 1] ltac:(repeat constructor; lia)) 100 64 0 1);
      [unfold private4; lia|done].
Defined.

