(* ===== verification/Webhook.v ===== *)
(** * Webhooks

    [internal/domain/webhook/webhook.go], the repositories
    [internal/infra/memory/webhook_repo.go], the service
    [internal/app/webhook/service.go] and the dispatcher
    [internal/infra/webhooks/dispatcher.go], which delivers events over HTTP
    and retries. Deliveries run in goroutines: the dispatcher keeps the ones it
    has started, and each runs to its end in a step of its own, at any later
    time. *)

From S2P Require Import Prelude Identity AuditTrail Events Guest Backup Bus Ssrf.

Definition ErrWebhookNotFound := ErrNew "webhook" "webhook endpoint not found".
Definition ErrSSRFBlocked :=
  ErrNew "webhook" "webhook URL targets prohibited local or private network address".
Definition ErrDeliveryNotFound := ErrNew "webhook" "webhook delivery record not found".
Definition ErrUnauthorizedTenant := ErrNew "appwebhook" "unauthorized tenant access to webhook".

Inductive DeliveryStatus : Type :=
  | DeliveryPending | DeliveryDelivered | DeliveryFailed | DeliveryDeadLetter.
#[export] Instance DeliveryStatus_eq_dec : EqDecision DeliveryStatus.
Proof. solve_decision. Defined.
Definition status_text (s : DeliveryStatus) : string :=
  match s with
  | DeliveryPending => "pending"
  | DeliveryDelivered => "delivered"
  | DeliveryFailed => "failed"
  | DeliveryDeadLetter => "dead_letter"
  end.

Record WebhookEndpoint : Type := mkWebhookEndpoint {
  WebhookEndpoint_ID : string;
  WebhookEndpoint_TenantID : string;
  WebhookEndpoint_Name : string;
  WebhookEndpoint_URL : string;
  WebhookEndpoint_Description : string;
  WebhookEndpoint_Secret : string;
  WebhookEndpoint_Active : bool;
  WebhookEndpoint_EventTypes : list string;
  WebhookEndpoint_CreatedAt : Z;
  WebhookEndpoint_UpdatedAt : Z;
  WebhookEndpoint_LastDeliveryAt : option Z;
  WebhookEndpoint_LastStatus : string;
  WebhookEndpoint_FailureCount : Z
}.
#[export] Instance WebhookEndpoint_eq_dec : EqDecision WebhookEndpoint.
Proof. solve_decision. Defined.

Definition eta_WebhookEndpoint (r : WebhookEndpoint) : WebhookEndpoint :=
  mkWebhookEndpoint (WebhookEndpoint_ID r) (WebhookEndpoint_TenantID r)
    (WebhookEndpoint_Name r) (WebhookEndpoint_URL r) (WebhookEndpoint_Description r)
    (WebhookEndpoint_Secret r) (WebhookEndpoint_Active r) (WebhookEndpoint_EventTypes r)
    (WebhookEndpoint_CreatedAt r) (WebhookEndpoint_UpdatedAt r)
    (WebhookEndpoint_LastDeliveryAt r) (WebhookEndpoint_LastStatus r)
    (WebhookEndpoint_FailureCount r).
#[export] Instance set_WebhookEndpoint_ID : Setter WebhookEndpoint_ID := ltac:(setter eta_WebhookEndpoint WebhookEndpoint_ID).
#[export] Instance set_WebhookEndpoint_Name : Setter WebhookEndpoint_Name := ltac:(setter eta_WebhookEndpoint WebhookEndpoint_Name).
#[export] Instance set_WebhookEndpoint_URL : Setter WebhookEndpoint_URL := ltac:(setter eta_WebhookEndpoint WebhookEndpoint_URL).
#[export] Instance set_WebhookEndpoint_Description : Setter WebhookEndpoint_Description := ltac:(setter eta_WebhookEndpoint WebhookEndpoint_Description).
#[export] Instance set_WebhookEndpoint_Secret : Setter WebhookEndpoint_Secret := ltac:(setter eta_WebhookEndpoint WebhookEndpoint_Secret).
#[export] Instance set_WebhookEndpoint_Active : Setter WebhookEndpoint_Active := ltac:(setter eta_WebhookEndpoint WebhookEndpoint_Active).
#[export] Instance set_WebhookEndpoint_EventTypes : Setter WebhookEndpoint_EventTypes := ltac:(setter eta_WebhookEndpoint WebhookEndpoint_EventTypes).
#[export] Instance set_WebhookEndpoint_CreatedAt : Setter WebhookEndpoint_CreatedAt := ltac:(setter eta_WebhookEndpoint WebhookEndpoint_CreatedAt).
#[export] Instance set_WebhookEndpoint_UpdatedAt : Setter WebhookEndpoint_UpdatedAt := ltac:(setter eta_WebhookEndpoint WebhookEndpoint_UpdatedAt).
#[export] Instance set_WebhookEndpoint_LastDeliveryAt : Setter WebhookEndpoint_LastDeliveryAt := ltac:(setter eta_WebhookEndpoint WebhookEndpoint_LastDeliveryAt).
#[export] Instance set_WebhookEndpoint_LastStatus : Setter WebhookEndpoint_LastStatus := ltac:(setter eta_WebhookEndpoint WebhookEndpoint_LastStatus).
#[export] Instance set_WebhookEndpoint_FailureCount : Setter WebhookEndpoint_FailureCount := ltac:(setter eta_WebhookEndpoint WebhookEndpoint_FailureCount).

Record WebhookDelivery : Type := mkWebhookDelivery {
  WebhookDelivery_ID : string;
  WebhookDelivery_EventID : string;
  WebhookDelivery_WebhookID : string;
  WebhookDelivery_TenantID : string;
  WebhookDelivery_EventType : string;
  WebhookDelivery_Attempt : Z;
  WebhookDelivery_Status : DeliveryStatus;
  WebhookDelivery_HTTPStatus : Z;
  WebhookDelivery_ResponseTimeMs : Z;
  WebhookDelivery_Error_ : string;
  WebhookDelivery_NextRetryAt : option Z;
  WebhookDelivery_DeliveredAt : option Z;
  WebhookDelivery_CreatedAt : Z
}.
#[export] Instance WebhookDelivery_eq_dec : EqDecision WebhookDelivery.
Proof. solve_decision. Defined.

Definition eta_WebhookDelivery (r : WebhookDelivery) : WebhookDelivery :=
  mkWebhookDelivery (WebhookDelivery_ID r) (WebhookDelivery_EventID r)
    (WebhookDelivery_WebhookID r) (WebhookDelivery_TenantID r)
    (WebhookDelivery_EventType r) (WebhookDelivery_Attempt r) (WebhookDelivery_Status r)
    (WebhookDelivery_HTTPStatus r) (WebhookDelivery_ResponseTimeMs r)
    (WebhookDelivery_Error_ r) (WebhookDelivery_NextRetryAt r)
    (WebhookDelivery_DeliveredAt r) (WebhookDelivery_CreatedAt r).
#[export] Instance set_WebhookDelivery_ID : Setter WebhookDelivery_ID := ltac:(setter eta_WebhookDelivery WebhookDelivery_ID).
#[export] Instance set_WebhookDelivery_Attempt : Setter WebhookDelivery_Attempt := ltac:(setter eta_WebhookDelivery WebhookDelivery_Attempt).
#[export] Instance set_WebhookDelivery_Status : Setter WebhookDelivery_Status := ltac:(setter eta_WebhookDelivery WebhookDelivery_Status).
#[export] Instance set_WebhookDelivery_HTTPStatus : Setter WebhookDelivery_HTTPStatus := ltac:(setter eta_WebhookDelivery WebhookDelivery_HTTPStatus).
#[export] Instance set_WebhookDelivery_ResponseTimeMs : Setter WebhookDelivery_ResponseTimeMs := ltac:(setter eta_WebhookDelivery WebhookDelivery_ResponseTimeMs).
#[export] Instance set_WebhookDelivery_Error_ : Setter WebhookDelivery_Error_ := ltac:(setter eta_WebhookDelivery WebhookDelivery_Error_).
#[export] Instance set_WebhookDelivery_NextRetryAt : Setter WebhookDelivery_NextRetryAt := ltac:(setter eta_WebhookDelivery WebhookDelivery_NextRetryAt).
#[export] Instance set_WebhookDelivery_DeliveredAt : Setter WebhookDelivery_DeliveredAt := ltac:(setter eta_WebhookDelivery WebhookDelivery_DeliveredAt).
#[export] Instance set_WebhookDelivery_CreatedAt : Setter WebhookDelivery_CreatedAt := ltac:(setter eta_WebhookDelivery WebhookDelivery_CreatedAt).

Record WebhookFilter : Type := mkWebhookFilter {
  WebhookFilter_TenantID : string;
  WebhookFilter_Active : option bool;
  WebhookFilter_Limit : Z;
  WebhookFilter_Offset : Z
}.

Definition eta_WebhookFilter (r : WebhookFilter) : WebhookFilter :=
  mkWebhookFilter (WebhookFilter_TenantID r) (WebhookFilter_Active r)
    (WebhookFilter_Limit r) (WebhookFilter_Offset r).
#[export] Instance set_WebhookFilter_TenantID : Setter WebhookFilter_TenantID := ltac:(setter eta_WebhookFilter WebhookFilter_TenantID).

Record DeliveryFilter : Type := mkDeliveryFilter {
  DeliveryFilter_TenantID : string;
  DeliveryFilter_WebhookID : string;
  DeliveryFilter_EventID : string;
  DeliveryFilter_Status : option DeliveryStatus;
  DeliveryFilter_Limit : Z;
  DeliveryFilter_Offset : Z
}.

Definition eta_DeliveryFilter (r : DeliveryFilter) : DeliveryFilter :=
  mkDeliveryFilter (DeliveryFilter_TenantID r) (DeliveryFilter_WebhookID r)
    (DeliveryFilter_EventID r) (DeliveryFilter_Status r) (DeliveryFilter_Limit r)
    (DeliveryFilter_Offset r).
#[export] Instance set_DeliveryFilter_TenantID : Setter DeliveryFilter_TenantID := ltac:(setter eta_DeliveryFilter DeliveryFilter_TenantID).

(** [random] is the text of the 32 random bytes. *)
Definition GenerateSecret (random : string) : string := "whsec_" +:+ random.

Definition RotateSecret {St} (random : string) (w : WebhookEndpoint) : go St WebhookEndpoint :=
  now ← time_Now;
  mret (w <| WebhookEndpoint_Secret := GenerateSecret random |> <| WebhookEndpoint_UpdatedAt := now |>).

Definition SubscribesTo (w : WebhookEndpoint) (eventType : string) : bool :=
  WebhookEndpoint_Active w && existsb (λ et, matchesPattern et eventType) (WebhookEndpoint_EventTypes w).

(** HMAC-SHA256 in hexadecimal digits. *)
Class Hmac := hmac_sha256_hex : string → string → string.

Definition SignPayload `{Hmac} (secret : string) (timestamp : Z) (payload : string) : string :=
  hmac_sha256_hex secret (fmt_d timestamp +:+ "." +:+ payload).

Definition TrimPrefix (s pre : string) : string :=
  if HasPrefix s pre
  then String.substring (String.length pre) (String.length s - String.length pre) s else s.

(** [d.Seconds()], and [math.Abs]. *)
Definition Seconds (d : Z) : float64 :=
  fadd (of_int (Z.quot d Second)) (fdiv (of_int (Z.rem d Second)) (of_int Second)).
Definition math_Abs (x : float64) : float64 :=
  match x with
  | S754_zero _ => S754_zero false
  | S754_infinity _ => S754_infinity false
  | S754_finite _ m e => S754_finite false m e
  | S754_nan => S754_nan
  end.

Definition VerifySignature {St} `{Hmac} (secret headerSignature : string) (timestamp : Z)
    (payload : string) (tolerance : Z) : go St bool :=
  now ← time_Now;
  if fgt (math_Abs (Seconds (time_Sub now (timestamp * Second)))) (Seconds tolerance)
  then mret false
  else
    let actualSig := if HasPrefix headerSignature "sha256="
                     then TrimPrefix headerSignature "sha256=" else headerSignature in
    mret (bool_decide (SignPayload secret timestamp payload = actualSig)).

(** ** The repositories *)

Record HookStore : Type := mkHookStore {
  HookStore_endpoints : gmap string WebhookEndpoint;
  HookStore_order : list string
}.

Definition eta_HookStore (r : HookStore) : HookStore :=
  mkHookStore (HookStore_endpoints r) (HookStore_order r).
#[export] Instance set_HookStore_endpoints : Setter HookStore_endpoints := ltac:(setter eta_HookStore HookStore_endpoints).
#[export] Instance set_HookStore_order : Setter HookStore_order := ltac:(setter eta_HookStore HookStore_order).

Record DeliveryStore : Type := mkDeliveryStore {
  DeliveryStore_deliveries : gmap string WebhookDelivery;
  DeliveryStore_order : list string
}.

Definition eta_DeliveryStore (r : DeliveryStore) : DeliveryStore :=
  mkDeliveryStore (DeliveryStore_deliveries r) (DeliveryStore_order r).
#[export] Instance set_DeliveryStore_deliveries : Setter DeliveryStore_deliveries := ltac:(setter eta_DeliveryStore DeliveryStore_deliveries).
#[export] Instance set_DeliveryStore_order : Setter DeliveryStore_order := ltac:(setter eta_DeliveryStore DeliveryStore_order).

Definition NewMemoryWebhookRepo : HookStore := mkHookStore ∅ [].
Definition NewMemoryDeliveryRepo : DeliveryStore := mkDeliveryStore ∅ [].

Definition put_endpoint (ep : WebhookEndpoint) (s : HookStore) : HookStore :=
  s <| HookStore_endpoints := <[WebhookEndpoint_ID ep := ep]> (HookStore_endpoints s) |>.

Definition hook_Create (ep : WebhookEndpoint) : go HookStore WebhookEndpoint :=
  id ← or_uuid (WebhookEndpoint_ID ep);
  now ← time_Now;
  let ep := ep <| WebhookEndpoint_ID := id |> <| WebhookEndpoint_CreatedAt := now |>
               <| WebhookEndpoint_UpdatedAt := now |> in
  modify (λ s, put_endpoint ep s <| HookStore_order := HookStore_order s ++ [id] |>) ;;
  mret ep.

Definition hook_GetByID (id : string) : go HookStore WebhookEndpoint :=
  s ← get;
  match HookStore_endpoints s !! id with Some ep => mret ep | None => fail ErrWebhookNotFound end.

Definition endpoint_matches (f : WebhookFilter) (ep : WebhookEndpoint) : Prop :=
  (WebhookFilter_TenantID f = "" ∨ WebhookEndpoint_TenantID ep = WebhookFilter_TenantID f) ∧
  (WebhookFilter_Active f = None ∨ WebhookFilter_Active f = Some (WebhookEndpoint_Active ep)).
#[export] Instance endpoint_matches_dec f ep : Decision (endpoint_matches f ep).
Proof. unfold endpoint_matches. apply _. Defined.

Definition hook_List (f : WebhookFilter) : go HookStore (list WebhookEndpoint * Z) :=
  s ← get;
  matched ← lift (collect_in (HookStore_endpoints s) (endpoint_matches f) (rev (HookStore_order s)));
  items ← lift (window matched (WebhookFilter_Limit f) (WebhookFilter_Offset f));
  mret (items, Z.of_nat (length matched)).

Definition ListSubscribed (eventType : string) : go HookStore (list WebhookEndpoint) :=
  s ← get; list_in (HookStore_endpoints s) (λ ep, SubscribesTo ep eventType = true).

Definition hook_Update (ep : WebhookEndpoint) : go HookStore WebhookEndpoint :=
  existing ← hook_GetByID (WebhookEndpoint_ID ep);
  now ← time_Now;
  let ep := ep <| WebhookEndpoint_CreatedAt := WebhookEndpoint_CreatedAt existing |>
               <| WebhookEndpoint_UpdatedAt := now |> in
  modify (put_endpoint ep) ;;
  mret ep.

Definition hook_Delete (id : string) : go HookStore () :=
  hook_GetByID id ;;
  modify (λ s, s <| HookStore_endpoints := delete id (HookStore_endpoints s) |>
                 <| HookStore_order := filter (λ item, item ≠ id) (HookStore_order s) |>).

Definition UpdateDeliveryStats (id lastStatus : string) (failureIncrement : bool) :
    go HookStore () :=
  ep ← hook_GetByID id;
  now ← time_Now;
  let ep := ep <| WebhookEndpoint_LastDeliveryAt := Some now |>
               <| WebhookEndpoint_LastStatus := lastStatus |>
               <| WebhookEndpoint_FailureCount :=
                    if failureIncrement then add64 (WebhookEndpoint_FailureCount ep) 1 else 0 |>
               <| WebhookEndpoint_UpdatedAt := now |> in
  modify (λ s, s <| HookStore_endpoints := <[id := ep]> (HookStore_endpoints s) |>).

Definition delivery_Create (d : WebhookDelivery) : go DeliveryStore WebhookDelivery :=
  id ← or_uuid (WebhookDelivery_ID d);
  created ← or_now (WebhookDelivery_CreatedAt d);
  let d := d <| WebhookDelivery_ID := id |> <| WebhookDelivery_CreatedAt := created |> in
  modify (λ s, s <| DeliveryStore_deliveries := <[id := d]> (DeliveryStore_deliveries s) |>
                 <| DeliveryStore_order := DeliveryStore_order s ++ [id] |>) ;;
  mret d.

Definition delivery_GetByID (id : string) : go DeliveryStore WebhookDelivery :=
  s ← get;
  match DeliveryStore_deliveries s !! id with
  | Some d => mret d
  | None => fail ErrDeliveryNotFound
  end.

Definition delivery_matches (f : DeliveryFilter) (d : WebhookDelivery) : Prop :=
  (DeliveryFilter_TenantID f = "" ∨ WebhookDelivery_TenantID d = DeliveryFilter_TenantID f) ∧
  (DeliveryFilter_WebhookID f = "" ∨ WebhookDelivery_WebhookID d = DeliveryFilter_WebhookID f) ∧
  (DeliveryFilter_EventID f = "" ∨ WebhookDelivery_EventID d = DeliveryFilter_EventID f) ∧
  (DeliveryFilter_Status f = None ∨ DeliveryFilter_Status f = Some (WebhookDelivery_Status d)).
#[export] Instance delivery_matches_dec f d : Decision (delivery_matches f d).
Proof. unfold delivery_matches. apply _. Defined.

Definition delivery_List (f : DeliveryFilter) : go DeliveryStore (list WebhookDelivery * Z) :=
  s ← get;
  matched ← lift (collect_in (DeliveryStore_deliveries s) (delivery_matches f)
                    (rev (DeliveryStore_order s)));
  items ← lift (window matched (DeliveryFilter_Limit f) (DeliveryFilter_Offset f));
  mret (items, Z.of_nat (length matched)).

(** A delivery whose retry is due. *)
Definition due (before : Z) (d : WebhookDelivery) : Prop :=
  WebhookDelivery_Status d = DeliveryPending ∧
  match WebhookDelivery_NextRetryAt d with Some t => t ≤ before | None => False end.
#[export] Instance due_dec before d : Decision (due before d).
Proof. unfold due. apply and_dec; [apply _|]. case_match; apply _. Defined.

Definition ListPendingRetries (before limit : Z) : go DeliveryStore (list WebhookDelivery) :=
  s ← get;
  l ← list_in (DeliveryStore_deliveries s) (due before);
  mret (if decide (0 < limit) then take (Z.to_nat limit) l else l).

Definition delivery_Update (d : WebhookDelivery) : go DeliveryStore () :=
  existing ← delivery_GetByID (WebhookDelivery_ID d);
  let d := d <| WebhookDelivery_CreatedAt := WebhookDelivery_CreatedAt existing |> in
  modify (λ s, s <| DeliveryStore_deliveries :=
    <[WebhookDelivery_ID d := d]> (DeliveryStore_deliveries s) |>).

(** ** The dispatcher *)

Definition MaxDeliveryAttempts : Z := 6.
Definition retryIntervals : list Z :=
  [0; 5 * Second; 30 * Second; 5 * Minute; 30 * Minute; 2 * Hour].

(** A delivery that was started: of an event, or again for a record. *)
Record Job := mkJob {
  Job_endpoint : WebhookEndpoint;
  Job_event : Event;
  Job_attempt : Z;
  Job_retried : option WebhookDelivery
}.

Record Request := mkRequest {
  Request_URL : string;
  Request_EventID : string;
  Request_Attempt : Z;
  Request_Timestamp : Z;
  Request_Signature : string;
  Request_Body : string
}.

(** Besides the repositories the running deliveries, and what left the house:
    the requests that were made and the addresses that were dialed. *)
Record Hooks : Type := mkHooks {
  Hooks_endpoints : HookStore;
  Hooks_deliveries : DeliveryStore;
  Hooks_running : list Job;
  Hooks_requests : list Request;
  Hooks_dialed : list IP
}.

Definition eta_Hooks (r : Hooks) : Hooks :=
  mkHooks (Hooks_endpoints r) (Hooks_deliveries r) (Hooks_running r) (Hooks_requests r)
    (Hooks_dialed r).
#[export] Instance set_Hooks_endpoints : Setter Hooks_endpoints := ltac:(setter eta_Hooks Hooks_endpoints).
#[export] Instance set_Hooks_deliveries : Setter Hooks_deliveries := ltac:(setter eta_Hooks Hooks_deliveries).
#[export] Instance set_Hooks_running : Setter Hooks_running := ltac:(setter eta_Hooks Hooks_running).
#[export] Instance set_Hooks_requests : Setter Hooks_requests := ltac:(setter eta_Hooks Hooks_requests).
#[export] Instance set_Hooks_dialed : Setter Hooks_dialed := ltac:(setter eta_Hooks Hooks_dialed).

(** The other side of an HTTP request: the hosts it is led to, by redirects,
    and the answer of the last; the client's wording of an error; and
    [json.Marshal] of an event. *)
Class Http := {
  http_hosts : Z → string → list string;
  http_status : Z → string → result Z;
  http_error : string → error → error;
  json_event : Event → result string
}.

Section dispatcher.
Context `{!Net, !Http, !Hmac}.
(** A client that was set for a test dials by itself. *)
Context (skipSSRF : bool).

Definition on_endpoints {X} (m : go HookStore X) : go Hooks X :=
  zoom Hooks_endpoints (λ x s, s <| Hooks_endpoints := x |>) m.
Definition on_deliveries {X} (m : go DeliveryStore X) : go Hooks X :=
  zoom Hooks_deliveries (λ x s, s <| Hooks_deliveries := x |>) m.

Fixpoint dial_all (hosts : list string) : go Hooks () :=
  match hosts with
  | [] => mret ()
  | host :: hosts =>
      ip ← DialContext host;
      modify (λ s, s <| Hooks_dialed := Hooks_dialed s ++ [ip] |>) ;;
      dial_all hosts
  end.

(** [d.client.Do(req)]: the request that is sent is kept as it is; those the
    library sends when it follows redirects show as the addresses it dials
    ([http_hosts] has their hosts too), which are checked like the first. *)
Definition client_Do (req : Request) : go Hooks Z :=
  modify (λ s, s <| Hooks_requests := Hooks_requests s ++ [req] |>) ;;
  n ← rand_53;
  let url := Request_URL req in
  wrap_err (http_error url)
    ((if skipSSRF then mret () else dial_all (http_hosts n url)) ;;
     lift (http_status n url)).

(** [_ = d.deliveryRepo.Create(ctx, delivery)], which fills the record in. *)
Definition record_delivery (d : WebhookDelivery) : go Hooks WebhookDelivery :=
  saved ← try (on_deliveries (delivery_Create d));
  mret (match saved with Ok d => d | Err _ => d end).

Definition update_stats (endpointID lastStatus : string) (failureIncrement : bool) : go Hooks () :=
  ignore (on_endpoints (UpdateDeliveryStats endpointID lastStatus failureIncrement)).

(** [rand.Int63n(n)]. *)
Definition rand_Int63n {St} (n : Z) : go St Z :=
  if decide (n ≤ 0) then lift (panic "invalid argument to Int63n")
  else r ← rand_53; mret (r mod n).

Definition handleFailure (endpointID : string) (d : WebhookDelivery) (statusCode : Z) :
    go Hooks WebhookDelivery :=
  update_stats endpointID "failure" true ;;
  if decide (400 ≤ statusCode < 500 ∧ statusCode ≠ 408 ∧ statusCode ≠ 429)
  then mret (d <| WebhookDelivery_Status := DeliveryDeadLetter |>)
  else if decide (MaxDeliveryAttempts ≤ WebhookDelivery_Attempt d)
  then mret (d <| WebhookDelivery_Status := DeliveryDeadLetter |>)
  else
    match (if decide (0 ≤ WebhookDelivery_Attempt d)
           then retryIntervals !! Z.to_nat (WebhookDelivery_Attempt d) else None) with
    | None => lift (panic "index out of range")
    | Some baseInterval =>
        jitter ← rand_Int63n (Z.quot baseInterval 5);
        now ← time_Now;
        mret (d <| WebhookDelivery_Status := DeliveryPending |>
                <| WebhookDelivery_NextRetryAt := Some (time_Add now (add64 baseInterval jitter)) |>)
    end.

Definition dead (d : WebhookDelivery) (msg : string) : WebhookDelivery :=
  d <| WebhookDelivery_Status := DeliveryDeadLetter |> <| WebhookDelivery_Error_ := msg |>.

(** The part of [deliver] after the request was made. *)
Definition settle (endpointID : string) (d : WebhookDelivery) (resp : result Z) :
    go Hooks (WebhookDelivery * option error) :=
  match resp with
  | Err err =>
      d ← handleFailure endpointID (d <| WebhookDelivery_Error_ := Error err |>) 0;
      d ← record_delivery d;
      mret (d, Some err)
  | Ok status =>
      let d := d <| WebhookDelivery_HTTPStatus := status |> in
      if decide (200 ≤ status < 300) then
        deliveredAt ← time_Now;
        d ← record_delivery (d <| WebhookDelivery_Status := DeliveryDelivered |>
                               <| WebhookDelivery_DeliveredAt := Some deliveredAt |>);
        update_stats endpointID "success" false ;;
        mret (d, None)
      else
        d ← handleFailure endpointID
              (d <| WebhookDelivery_Error_ := "endpoint returned HTTP " +:+ fmt_d status |>) status;
        d ← record_delivery d;
        mret (d, Some (Errorf ("webhook delivery failed with status " +:+ fmt_d status)))
  end.

Definition deliver (endpoint : WebhookEndpoint) (event : Event) (attempt : Z) :
    go Hooks (WebhookDelivery * option error) :=
  now ← time_Now;
  id ← uuid_NewString;
  let url := WebhookEndpoint_URL endpoint in
  let epID := WebhookEndpoint_ID endpoint in
  let d := mkWebhookDelivery id (Event_ID event) epID (WebhookEndpoint_TenantID endpoint)
             (Event_Type_ event) attempt DeliveryPending 0 0 "" None None now in
  valid ← try (if skipSSRF then mret () else ValidateURL url);
  match valid with
  | Err err =>
      d ← record_delivery (dead d ("SSRF blocked: " +:+ Error err));
      update_stats epID "blocked" true ;;
      mret (d, Some err)
  | Ok _ =>
      match json_event event with
      | Err err =>
          d ← record_delivery (dead d ("serialization error: " +:+ Error err));
          mret (d, Some err)
      | Ok body =>
          t ← time_Now;
          let timestamp := Unix t in
          let signature := SignPayload (WebhookEndpoint_Secret endpoint) timestamp body in
          match url_Parse url with
          | Err err =>
              d ← record_delivery (dead d ("invalid request: " +:+ Error err));
              mret (d, Some err)
          | Ok _ =>
              start ← time_Now;
              resp ← try (client_Do (mkRequest url (Event_ID event) attempt timestamp
                                       ("sha256=" +:+ signature) body));
              stop ← time_Now;
              settle epID
                (d <| WebhookDelivery_ResponseTimeMs := Z.quot (time_Sub stop start) (10 ^ 6) |>) resp
          end
      end
  end.

Definition start_job (j : Job) : go Hooks () :=
  modify (λ s, s <| Hooks_running := Hooks_running s ++ [j] |>).

Fixpoint start_all (event : Event) (eps : list WebhookEndpoint) : go Hooks () :=
  match eps with
  | [] => mret ()
  | ep :: eps =>
      (if decide (WebhookEndpoint_TenantID ep ≠ Event_TenantID event) then mret ()
       else start_job (mkJob ep event 1 None)) ;;
      start_all event eps
  end.

Definition DispatchEvent (event : Event) : go Hooks () :=
  endpoints ← on_endpoints (ListSubscribed (Event_Type_ event));
  start_all event endpoints.

Definition TestWebhook (endpoint : WebhookEndpoint) : go Hooks (WebhookDelivery * option error) :=
  id ← uuid_NewString;
  now ← time_Now;
  deliver endpoint
    (mkEvent id (WebhookEndpoint_TenantID endpoint) "webhook.test" "webhook"
       (WebhookEndpoint_ID endpoint) "user" now
       (details [("message", AnyStr "Project Aurora Webhook Verification Ping");
                 ("url", AnyStr (WebhookEndpoint_URL endpoint))]) [] "1.0") 1.

Fixpoint retry_all (ds : list WebhookDelivery) : go Hooks () :=
  match ds with
  | [] => mret ()
  | d :: ds =>
      endpoint ← try (on_endpoints (hook_GetByID (WebhookDelivery_WebhookID d)));
      match endpoint with
      | Ok ep =>
          if WebhookEndpoint_Active ep then
            start_job (mkJob ep
              (mkEvent (WebhookDelivery_EventID d) (WebhookDelivery_TenantID d)
                 (WebhookDelivery_EventType d) "" "" "" (WebhookDelivery_CreatedAt d) ∅ [] "1.0")
              (add64 (WebhookDelivery_Attempt d) 1) (Some d))
          else ignore (on_deliveries (delivery_Update (dead d "webhook endpoint no longer active")))
      | Err _ => ignore (on_deliveries (delivery_Update (dead d "webhook endpoint no longer active")))
      end ;;
      retry_all ds
  end.

Definition processPendingRetries : go Hooks () :=
  now ← time_Now;
  retries ← try (on_deliveries (ListPendingRetries now 20));
  match retries with
  | Ok ds => retry_all ds
  | Err _ => mret ()
  end.

(** The goroutine of a started delivery: its result is copied into the record
    it retries. *)
Definition run_job (i : nat) : go Hooks () :=
  s ← get;
  match Hooks_running s !! i with
  | None => mret ()
  | Some j =>
      modify (λ s, s <| Hooks_running := delete i (Hooks_running s) |>) ;;
      '(n, _) ← deliver (Job_endpoint j) (Job_event j) (Job_attempt j);
      match Job_retried j with
      | None => mret ()
      | Some d =>
          ignore (on_deliveries (delivery_Update
            (d <| WebhookDelivery_Attempt := WebhookDelivery_Attempt n |>
               <| WebhookDelivery_Status := WebhookDelivery_Status n |>
               <| WebhookDelivery_HTTPStatus := WebhookDelivery_HTTPStatus n |>
               <| WebhookDelivery_ResponseTimeMs := WebhookDelivery_ResponseTimeMs n |>
               <| WebhookDelivery_Error_ := WebhookDelivery_Error_ n |>
               <| WebhookDelivery_NextRetryAt := WebhookDelivery_NextRetryAt n |>
               <| WebhookDelivery_DeliveredAt := WebhookDelivery_DeliveredAt n |>)))
      end
  end.
End dispatcher.

(** ** The service *)

Record CreateWebhookInput := mkCreateWebhookInput {
  CreateWebhookInput_Name : string;
  CreateWebhookInput_URL : string;
  CreateWebhookInput_Description : string;
  CreateWebhookInput_EventTypes : list string;
  CreateWebhookInput_Active : option bool
}.

Record UpdateWebhookInput := mkUpdateWebhookInput {
  UpdateWebhookInput_Name : option string;
  UpdateWebhookInput_URL : option string;
  UpdateWebhookInput_Description : option string;
  UpdateWebhookInput_EventTypes : list string;
  UpdateWebhookInput_Active : option bool
}.

Section service.
Context {A : Type} `{!AuditRepository A, !Net, !Http, !Hmac}.
Context (auth : Authorizer) (skipSSRF has_tester has_audit : bool).
Abbreviation env := (Hooks * A)%type.

Definition logAudit (sub : option Subject) (action resourceID : string) (det : Details) : go env () :=
  if has_audit then
    let actor := match sub with
                 | Some s => if decide (Subject_UserID s = "") then None else Some (Subject_UserID s)
                 | None => None
                 end in
    let rid := if decide (resourceID = "") then None else Some resourceID in
    now ← time_Now;
    ignore (zoom snd (λ a s, (fst s, a))
      (Record_ (mkAuditLog 0 actor "" "" action "webhook" rid "" 0 (Some det) SeverityInfo "" "" now)))
  else mret ().

Definition endpoint_details (ep : WebhookEndpoint) : Details :=
  details [("name", AnyStr (WebhookEndpoint_Name ep)); ("url", AnyStr (WebhookEndpoint_URL ep))].
Definition full_details (ep : WebhookEndpoint) : Details :=
  details [("name", AnyStr (WebhookEndpoint_Name ep)); ("url", AnyStr (WebhookEndpoint_URL ep));
           ("eventTypes", AnyStrs (WebhookEndpoint_EventTypes ep));
           ("active", AnyBool (WebhookEndpoint_Active ep))].

Definition check_url (url : string) : go env () :=
  wrap_err (λ err, Wrapf (Error ErrSSRFBlocked +:+ ": " +:+ Error err) ErrSSRFBlocked)
    (ValidateURL url).

Definition CreateEndpoint (random : string) (sub : option Subject) (input : CreateWebhookInput) :
    go env (WebhookEndpoint * string) :=
  authorize auth sub "webhook:create" None ;;
  guard_err (CreateWebhookInput_Name input = "") (ErrNew "appwebhook" "webhook name is required") ;;
  guard_err (CreateWebhookInput_URL input = "") (ErrNew "appwebhook" "webhook URL is required") ;;
  check_url (CreateWebhookInput_URL input) ;;
  let secret := GenerateSecret random in
  id ← uuid_NewString;
  tenant ← caller_id sub;
  ep ← on_store (on_endpoints (hook_Create
    (mkWebhookEndpoint id tenant (CreateWebhookInput_Name input) (CreateWebhookInput_URL input)
       (CreateWebhookInput_Description input) secret
       (default true (CreateWebhookInput_Active input))
       (match CreateWebhookInput_EventTypes input with [] => ["*"] | ets => ets end)
       zero_time zero_time None "" 0)));
  logAudit sub "webhook.created" (WebhookEndpoint_ID ep) (full_details ep) ;;
  mret (ep, secret).

(** [if !sub.HasPermission("*")]. *)
Definition sees_all {St} (sub : option Subject) : go St bool :=
  match sub with
  | Some s => mret (HasPermission s "*")
  | None => lift (panic "nil pointer dereference")
  end.

Definition ListEndpoints (sub : option Subject) (f : WebhookFilter) :
    go env (list WebhookEndpoint * Z) :=
  authorize auth sub "webhook:read" None ;;
  all ← sees_all sub;
  me ← caller_id sub;
  on_store (on_endpoints (hook_List (if all : bool then f else f <| WebhookFilter_TenantID := me |>))).

(** What the methods on one endpoint begin with. *)
Definition own_endpoint (sub : option Subject) (action id : string) : go env WebhookEndpoint :=
  authorize auth sub action None ;;
  ep ← on_store (on_endpoints (hook_GetByID id));
  all ← sees_all sub;
  me ← caller_id sub;
  if decide (all = false ∧ WebhookEndpoint_TenantID ep ≠ me) then fail ErrUnauthorizedTenant
  else mret ep.

Definition GetEndpoint (sub : option Subject) (id : string) : go env WebhookEndpoint :=
  own_endpoint sub "webhook:read" id.

(** [if v != nil && *v != "" { field = *v }]. *)
Definition given (v : option string) (old : string) : string := or_default old (default "" v).

Definition UpdateEndpoint (sub : option Subject) (id : string) (input : UpdateWebhookInput) :
    go env WebhookEndpoint :=
  ep ← own_endpoint sub "webhook:update" id;
  let ep := ep <| WebhookEndpoint_Name := given (UpdateWebhookInput_Name input) (WebhookEndpoint_Name ep) |> in
  ep ← (let url := default "" (UpdateWebhookInput_URL input) in
        if decide (url = "") then mret ep
        else check_url url ;; mret (ep <| WebhookEndpoint_URL := url |>));
  let ep := ep
    <| WebhookEndpoint_Description :=
         default (WebhookEndpoint_Description ep) (UpdateWebhookInput_Description input) |>
    <| WebhookEndpoint_Active := default (WebhookEndpoint_Active ep) (UpdateWebhookInput_Active input) |>
    <| WebhookEndpoint_EventTypes :=
         match UpdateWebhookInput_EventTypes input with
         | [] => WebhookEndpoint_EventTypes ep
         | ets => ets
         end |> in
  ep ← on_store (on_endpoints (hook_Update ep));
  logAudit sub "webhook.updated" (WebhookEndpoint_ID ep) (full_details ep) ;;
  mret ep.

Definition DeleteEndpoint (sub : option Subject) (id : string) : go env () :=
  ep ← own_endpoint sub "webhook:delete" id;
  on_store (on_endpoints (hook_Delete id)) ;;
  logAudit sub "webhook.deleted" id (endpoint_details ep).

Definition svc_RotateSecret (random : string) (sub : option Subject) (id : string) : go env string :=
  ep ← own_endpoint sub "webhook:rotate" id;
  ep ← RotateSecret random ep;
  ep ← on_store (on_endpoints (hook_Update ep));
  logAudit sub "webhook.rotate_secret" (WebhookEndpoint_ID ep) (endpoint_details ep) ;;
  mret (GenerateSecret random).

Definition TestEndpoint (sub : option Subject) (id : string) :
    go env (WebhookDelivery * option error) :=
  ep ← own_endpoint sub "webhook:test" id;
  guard_err (has_tester = false) (ErrNew "appwebhook" "webhook tester is unavailable") ;;
  '(d, err) ← on_store (TestWebhook skipSSRF ep);
  logAudit sub "webhook.tested" (WebhookEndpoint_ID ep)
    (details [("name", AnyStr (WebhookEndpoint_Name ep));
              ("status", AnyStr (status_text (WebhookDelivery_Status d)))]) ;;
  mret (d, err).

Definition ListDeliveries (sub : option Subject) (f : DeliveryFilter) :
    go env (list WebhookDelivery * Z) :=
  authorize auth sub "webhook:read" None ;;
  all ← sees_all sub;
  me ← caller_id sub;
  on_store (on_deliveries
    (delivery_List (if all : bool then f else f <| DeliveryFilter_TenantID := me |>))).
End service.

(** ** Bounded deliveries to public addresses *)

Section bounded.
Context `{!Net, !Http, !Hmac}.
Implicit Types (s : Hooks).

(** A record that will be tried again. *)
Definition retryable (d : WebhookDelivery) : Prop :=
  WebhookDelivery_Status d = DeliveryPending ∧ WebhookDelivery_NextRetryAt d ≠ None.
Definition attempt_ok (a : Z) : Prop := 1 ≤ a ≤ MaxDeliveryAttempts.
Definition delivery_ok (d : WebhookDelivery) : Prop :=
  attempt_ok (WebhookDelivery_Attempt d) ∧
  (retryable d → WebhookDelivery_Attempt d < MaxDeliveryAttempts).

(** The URL passed every test that does not depend on the resolver. *)
Definition public_url (url : string) : Prop := ∃ host, static_check url = Ok host.

Record hooks_ok s : Prop := {
  ho_requests : Forall (λ r, attempt_ok (Request_Attempt r) ∧ public_url (Request_URL r)) (Hooks_requests s);
  ho_running : Forall (λ j, attempt_ok (Job_attempt j)) (Hooks_running s);
  ho_dialed : Forall (λ ip, IsProhibitedIP ip = false) (Hooks_dialed s);
  ho_deliveries : map_Forall (λ _, delivery_ok) (DeliveryStore_deliveries (Hooks_deliveries s));
  ho_endpoints : map_Forall (λ _ ep, public_url (WebhookEndpoint_URL ep))
                   (HookStore_endpoints (Hooks_endpoints s)) }.

Lemma ok_endpoints s k : hooks_ok s →
  map_Forall (λ _ ep, public_url (WebhookEndpoint_URL ep)) (HookStore_endpoints k) →
  hooks_ok (s <| Hooks_endpoints := k |>).
Proof. by intros [] ?. Qed.
Lemma ok_deliveries s k : hooks_ok s →
  map_Forall (λ _, delivery_ok) (DeliveryStore_deliveries k) →
  hooks_ok (s <| Hooks_deliveries := k |>).
Proof. by intros [] ?. Qed.

Lemma wp_on_endpoints {X} (m : go HookStore X) (Q : result X → Hooks → World → Prop) w s :
  hooks_ok s →
  wp m (λ r k w', map_Forall (λ _ ep, public_url (WebhookEndpoint_URL ep)) (HookStore_endpoints k) ∧
          (hooks_ok (s <| Hooks_endpoints := k |>) → Q r (s <| Hooks_endpoints := k |>) w'))
     w (Hooks_endpoints s) →
  wp (on_endpoints m) Q w s.
Proof.
  intros Hok Hm. unfold on_endpoints. rewrite wp_zoom. eapply wp_mono; [exact Hm|].
  intros r k w' [Hk HQ]. cbn. by apply HQ, ok_endpoints.
Qed.

Lemma wp_on_deliveries {X} (m : go DeliveryStore X) (Q : result X → Hooks → World → Prop) w s :
  hooks_ok s →
  wp m (λ r k w', map_Forall (λ _, delivery_ok) (DeliveryStore_deliveries k) ∧
          (hooks_ok (s <| Hooks_deliveries := k |>) → Q r (s <| Hooks_deliveries := k |>) w'))
     w (Hooks_deliveries s) →
  wp (on_deliveries m) Q w s.
Proof.
  intros Hok Hm. unfold on_deliveries. rewrite wp_zoom. eapply wp_mono; [exact Hm|].
  intros r k w' [Hk HQ]. cbn. by apply HQ, ok_deliveries.
Qed.

Lemma wp_update_stats id st inc (Q : result () → Hooks → World → Prop) w s :
  hooks_ok s → (∀ s' w', hooks_ok s' → Q (Ok ()) s' w') → wp (update_stats id st inc) Q w s.
Proof.
  intros Hok HQ. unfold update_stats. rewrite wp_ignore. apply wp_on_endpoints; [done|].
  unfold UpdateDeliveryStats, hook_GetByID. rewrite wp_bind, wp_bind, wp_get.
  pose proof (ho_endpoints _ Hok) as Hep.
  destruct (HookStore_endpoints (Hooks_endpoints s) !! id) as [ep|] eqn:He.
  - rewrite wp_ret, wp_bind, wp_now, wp_modify. cbn. split; [|auto].
    apply map_Forall_insert_2; [|done]. cbn. by apply (Hep id).
  - rewrite wp_fail. split; [done|auto].
Qed.

Lemma wp_delivery_Create d (Q : result WebhookDelivery → DeliveryStore → World → Prop) w k :
  map_Forall (λ _, delivery_ok) (DeliveryStore_deliveries k) → delivery_ok d →
  (∀ d' k' w', map_Forall (λ _, delivery_ok) (DeliveryStore_deliveries k') → delivery_ok d' →
     Q (Ok d') k' w') →
  wp (delivery_Create d) Q w k.
Proof.
  intros Hk Hd HQ. unfold delivery_Create, or_uuid, or_now.
  assert (Hd' : ∀ id t, delivery_ok (d <| WebhookDelivery_ID := id |> <| WebhookDelivery_CreatedAt := t |>))
    by by intros.
  repeat (case_decide || wp_step); apply HQ; try done; cbn; by apply map_Forall_insert_2.
Qed.

Lemma wp_record_delivery d (Q : result WebhookDelivery → Hooks → World → Prop) w s :
  hooks_ok s → delivery_ok d → (∀ d' s' w', hooks_ok s' → delivery_ok d' → Q (Ok d') s' w') →
  wp (record_delivery d) Q w s.
Proof.
  intros Hok Hd HQ. unfold record_delivery. rewrite wp_bind, wp_try. apply wp_on_deliveries; [done|].
  apply wp_delivery_Create; [apply Hok|done|]. intros d' k' w' Hk Hd'. split; [done|].
  intros Hok'. rewrite wp_ret. by apply HQ.
Qed.

Lemma wp_delivery_Update d (Q : result () → Hooks → World → Prop) w s :
  hooks_ok s → delivery_ok d → (∀ s' w', hooks_ok s' → Q (Ok ()) s' w') →
  wp (ignore (on_deliveries (delivery_Update d))) Q w s.
Proof.
  intros Hok Hd HQ. rewrite wp_ignore. apply wp_on_deliveries; [done|].
  pose proof (ho_deliveries _ Hok) as Hds. unfold delivery_Update, delivery_GetByID.
  rewrite wp_bind, wp_bind, wp_get.
  destruct (DeliveryStore_deliveries (Hooks_deliveries s) !! WebhookDelivery_ID d) as [d0|].
  - rewrite wp_ret, wp_modify. cbn. split; [by apply map_Forall_insert_2|auto].
  - rewrite wp_fail. split; [done|auto].
Qed.

Lemma dead_ok d msg : attempt_ok (WebhookDelivery_Attempt d) → delivery_ok (dead d msg).
Proof. intros Ha. split; [done|]. by intros []. Qed.

(** A failure is either final or leaves a record with attempts to spare; the
    table of intervals is never left. *)
Lemma wp_handleFailure id d code (Q : result WebhookDelivery → Hooks → World → Prop) w s :
  hooks_ok s → attempt_ok (WebhookDelivery_Attempt d) →
  (∀ d' s' w', hooks_ok s' → delivery_ok d' → Q (Ok d') s' w') →
  wp (handleFailure id d code) Q w s.
Proof.
  intros Hok Ha HQ. unfold handleFailure. rewrite wp_bind. apply wp_update_stats; [done|].
  intros s' w' Hok'. case_decide.
  { rewrite wp_ret. apply HQ; [done|]. split; [done|]. by intros []. }
  case_decide as Hmax.
  { rewrite wp_ret. apply HQ; [done|]. split; [done|]. by intros []. }
  unfold attempt_ok, MaxDeliveryAttempts in *. rewrite decide_True by lia.
  assert (Hbase : ∃ base, retryIntervals !! Z.to_nat (WebhookDelivery_Attempt d) = Some base ∧ 5 ≤ base).
  { assert (WebhookDelivery_Attempt d = 1 ∨ WebhookDelivery_Attempt d = 2 ∨ WebhookDelivery_Attempt d = 3 ∨
      WebhookDelivery_Attempt d = 4 ∨ WebhookDelivery_Attempt d = 5) as Hcases by lia.
    destruct Hcases as [-> |[-> |[-> |[-> | ->]]]]; eexists; (split; [reflexivity|]); vm_compute; done. }
  destruct Hbase as (base & -> & Hbase). rewrite wp_bind. unfold rand_Int63n. rewrite decide_False.
  - rewrite wp_bind, wp_rand, wp_ret, wp_bind, wp_now, wp_ret. apply HQ; [done|].
    split; [done|]. intros _. cbn. unfold MaxDeliveryAttempts. lia.
  - intros Hq. assert (1 ≤ Z.quot base 5); [|lia]. apply Z.quot_le_lower_bound; lia.
Qed.

Lemma wp_dial_all hosts : ∀ (Q : result () → Hooks → World → Prop) w s,
  hooks_ok s → (∀ r s' w', hooks_ok s' → Q r s' w') → wp (dial_all hosts) Q w s.
Proof.
  induction hosts as [|host hosts IH]; intros Q w s Hok HQ; cbn [dial_all].
  { rewrite wp_ret. by apply HQ. }
  rewrite wp_bind. apply wp_DialContext; [intros e w' _; by apply HQ|]. intros ip w' _ Hip.
  rewrite wp_bind, wp_modify. apply IH; [|done]. destruct Hok. split; cbn; try done.
  apply Forall_app. split; [done|]. by constructor.
Qed.

Lemma wp_client_Do req (Q : result Z → Hooks → World → Prop) w s :
  hooks_ok s → attempt_ok (Request_Attempt req) → public_url (Request_URL req) →
  (∀ r s' w', hooks_ok s' → Q r s' w') → wp (client_Do false req) Q w s.
Proof.
  intros Hok Ha Hu HQ. unfold client_Do. rewrite wp_bind, wp_modify, wp_bind, wp_rand, wp_wrap_err, wp_bind.
  apply wp_dial_all.
  - destruct Hok. split; cbn; try done. apply Forall_app. split; [done|]. by constructor.
  - intros r s' w' Hok'. destruct r as [[]|e]; [|by apply HQ]. rewrite wp_lift.
    destruct (http_status _ _); by apply HQ.
Qed.

Lemma wp_settle id d resp (Q : result (WebhookDelivery * option error) → Hooks → World → Prop) w s :
  hooks_ok s → attempt_ok (WebhookDelivery_Attempt d) →
  (∀ d' e s' w', hooks_ok s' → delivery_ok d' → Q (Ok (d', e)) s' w') →
  wp (settle id d resp) Q w s.
Proof.
  intros Hok Ha HQ.
  assert (Hfail : ∀ d' code e w s, hooks_ok s → attempt_ok (WebhookDelivery_Attempt d') →
    wp (d ← handleFailure id d' code; d ← record_delivery d; mret (d, Some e)) Q w s).
  { intros d' code e w1 s1 Hok1 Ha1. rewrite wp_bind. apply wp_handleFailure; [done..|].
    intros d2 s2 w2 Hok2 Hd2. rewrite wp_bind. apply wp_record_delivery; [done..|].
    intros d3 s3 w3 Hok3 Hd3. rewrite wp_ret. by apply HQ. }
  unfold settle. destruct resp as [status|err]; [|by apply Hfail].
  cbv zeta. case_decide; [|by apply Hfail].
  rewrite wp_bind, wp_now, wp_bind. apply wp_record_delivery; [done| |].
  { split; [done|]. by intros []. }
  intros d3 s3 w3 Hok3 Hd3. rewrite wp_bind. apply wp_update_stats; [done|].
  intros s4 w4 Hok4. rewrite wp_ret. by apply HQ.
Qed.

(** A delivery never panics; it makes at most its one request. *)
Lemma wp_deliver ep ev a (Q : result (WebhookDelivery * option error) → Hooks → World → Prop) w s :
  hooks_ok s → attempt_ok a →
  (∀ d e s' w', hooks_ok s' → delivery_ok d → Q (Ok (d, e)) s' w') →
  wp (deliver false ep ev a) Q w s.
Proof.
  intros Hok Ha HQ.
  assert (Hdead : ∀ d msg e w s, hooks_ok s → attempt_ok (WebhookDelivery_Attempt d) →
    wp (d ← record_delivery (dead d msg); mret (d, Some e)) Q w s).
  { intros d msg e w1 s1 Hok1 Ha1. rewrite wp_bind. apply wp_record_delivery; [done|by apply dead_ok|].
    intros d2 s2 w2 Hok2 Hd2. rewrite wp_ret. by apply HQ. }
  unfold deliver. rewrite wp_bind, wp_now, wp_bind, wp_uuid. cbv zeta. rewrite wp_bind, wp_try.
  apply wp_ValidateURL.
  - intros err w1 _. rewrite wp_bind. apply wp_record_delivery; [done|by apply dead_ok|].
    intros d2 s2 w2 Hok2 Hd2. rewrite wp_bind. apply wp_update_stats; [done|].
    intros s3 w3 Hok3. rewrite wp_ret. by apply HQ.
  - intros host w1 _ Hurl. destruct (json_event ev) as [body|err]; [|by apply Hdead].
    rewrite wp_bind, wp_now. destruct (url_Parse _) as [u|err]; [|by apply Hdead].
    rewrite wp_bind, wp_now, wp_bind, wp_try. apply wp_client_Do; [done|done|by exists host|].
    intros r s2 w2 Hok2. rewrite wp_bind, wp_now. by apply wp_settle.
Qed.

Lemma start_job_ok j s : hooks_ok s → attempt_ok (Job_attempt j) →
  hooks_ok (s <| Hooks_running := Hooks_running s ++ [j] |>).
Proof. intros [] Hj. split; cbn; try done. apply Forall_app. split; [done|]. by constructor. Qed.

Lemma wp_start_all ev eps : ∀ (Q : result () → Hooks → World → Prop) w s,
  hooks_ok s → (∀ s' w', hooks_ok s' → Q (Ok ()) s' w') → wp (start_all ev eps) Q w s.
Proof.
  induction eps as [|ep eps IH]; intros Q w s Hok HQ; cbn [start_all]; [rewrite wp_ret; by apply HQ|].
  rewrite wp_bind. case_decide; [rewrite wp_ret; by apply IH|].
  unfold start_job. rewrite wp_modify. apply IH; [|done]. by apply start_job_ok.
Qed.

Lemma wp_retry_all ds : ∀ (Q : result () → Hooks → World → Prop) w s,
  hooks_ok s → Forall (λ d, delivery_ok d ∧ retryable d) ds →
  (∀ s' w', hooks_ok s' → Q (Ok ()) s' w') → wp (retry_all ds) Q w s.
Proof.
  induction ds as [|d ds IH]; intros Q w s Hok Hds HQ; cbn [retry_all]; [rewrite wp_ret; by apply HQ|].
  apply Forall_cons in Hds as [[[Ha Hr] Hretry] Hds]. specialize (Hr Hretry).
  assert (Hlost : ∀ w s, hooks_ok s →
    wp (ignore (on_deliveries (delivery_Update (dead d "webhook endpoint no longer active")));;
        retry_all ds) Q w s).
  { intros w1 s1 Hok1. rewrite wp_bind. apply wp_delivery_Update; [done|by apply dead_ok|].
    intros s2 w2 Hok2. by apply IH. }
  rewrite wp_bind, wp_try. apply wp_on_endpoints; [done|]. unfold hook_GetByID. rewrite wp_bind, wp_get.
  assert (Heps : map_Forall (λ _ ep, public_url (WebhookEndpoint_URL ep))
    (HookStore_endpoints (Hooks_endpoints s))) by apply Hok.
  destruct (HookStore_endpoints (Hooks_endpoints s) !! _) as [ep|].
  2:{ rewrite wp_fail. split; [done|]. by apply Hlost. }
  rewrite wp_ret. split; [done|]. intros Hok'. destruct (WebhookEndpoint_Active ep); [|by apply Hlost].
  rewrite wp_bind. unfold start_job. rewrite wp_modify. apply IH; [|done|done].
  apply start_job_ok; [done|]. cbn. unfold attempt_ok, MaxDeliveryAttempts in *.
  rewrite add64_id by (unfold int64_ok; lia). lia.
Qed.

Lemma process_ok w s : hooks_ok s → hooks_ok (exec processPendingRetries w s).
Proof.
  intros Hok. apply (proj1 (wp_elim processPendingRetries (λ _ s' _, hooks_ok s') w s)).
  unfold processPendingRetries. rewrite wp_bind, wp_now, wp_bind, wp_try.
  apply wp_on_deliveries; [done|]. unfold ListPendingRetries. rewrite wp_bind, wp_get, wp_bind.
  pose proof (ho_deliveries _ Hok) as Hds.
  apply wp_list_in_sound. intros l w' _ Hl. rewrite wp_ret. split; [done|]. intros Hok'.
  apply wp_retry_all; [done| |done].
  assert (Hall : Forall (λ d, delivery_ok d ∧ retryable d) l).
  { apply Forall_forall. intros d Hd. destruct (Hl d Hd) as [[Hp Hdue] [k Hk]].
    split; [by apply (Hds k)|]. split; [done|]. by destruct (WebhookDelivery_NextRetryAt d). }
  case_decide; [by apply Forall_take|done].
Qed.

Lemma dispatch_ok ev w s : hooks_ok s → hooks_ok (exec (DispatchEvent ev) w s).
Proof.
  intros Hok. apply (proj1 (wp_elim (DispatchEvent ev) (λ _ s' _, hooks_ok s') w s)).
  unfold DispatchEvent. rewrite wp_bind. apply wp_on_endpoints; [done|]. unfold ListSubscribed.
  rewrite wp_bind, wp_get. apply wp_list_in_sound. intros l w' _ _. split; [apply Hok|].
  intros Hok'. by apply wp_start_all.
Qed.

Lemma run_job_ok i w s : hooks_ok s →
  wp (run_job false i) (λ r s' _, hooks_ok s' ∧ r = Ok ()) w s.
Proof.
  intros Hok. unfold run_job. rewrite wp_bind, wp_get. destruct (Hooks_running s !! i) as [j|] eqn:Hj.
  2:{ by rewrite wp_ret. }
  rewrite wp_bind, wp_modify, wp_bind. pose proof (ho_running _ Hok) as Hrun.
  assert (Ha : attempt_ok (Job_attempt j)) by (eapply (Forall_lookup_1 _ _ _ _ Hrun), Hj).
  apply wp_deliver; [|done|].
  { destruct Hok. split; cbn; try done. rewrite (delete_Permutation _ _ _ Hj) in Hrun.
    by apply Forall_cons in Hrun as [_ ?]. }
  intros n e s1 w1 Hok1 Hn. destruct (Job_retried j) as [d|]; [|by rewrite wp_ret].
  by apply wp_delivery_Update.
Qed.

Section histories.
Context {A : Type} `{!AuditRepository A}.
Context (auth : Authorizer) (has_tester has_audit : bool).
Abbreviation env := (Hooks * A)%type.
Implicit Types (st : env).

Lemma wp_log_webhook sub action id det (Q : result () → env → World → Prop) w st :
  (∀ st' w', st'.1 = st.1 → Q (Ok ()) st' w') → wp (logAudit has_audit sub action id det) Q w st.
Proof.
  intros HQ. unfold logAudit. destruct has_audit; [|by apply HQ]. cbv zeta.
  rewrite wp_bind, wp_now, wp_ignore, wp_zoom. apply wp_elim. by apply HQ.
Qed.

Lemma wp_admitted sub action res (Q : result () → env → World → Prop) w st :
  (∀ r, Q r st w) → wp (authorize auth sub action res) Q w st.
Proof. intros HQ. unfold authorize. rewrite wp_lift. apply HQ. Qed.

(** Who gets through to an endpoint: its tenant, or a caller with the
    permission for everything. *)
Lemma wp_own_endpoint sub action id (Q : result WebhookEndpoint → env → World → Prop) w st :
  (∀ e, Q (Err e) st w) →
  (∀ ep me, HookStore_endpoints (Hooks_endpoints st.1) !! id = Some ep → sub = Some me →
     Authorize (Some me) action None = Ok () →
     HasPermission me "*" = true ∨ WebhookEndpoint_TenantID ep = Subject_UserID me →
     Q (Ok ep) st w) →
  wp (own_endpoint auth sub action id) Q w st.
Proof.
  intros Herr Hok. unfold own_endpoint, authorize. rewrite wp_bind, wp_lift.
  destruct (Authorize sub action None) as [[]|e] eqn:Hauth; [|apply Herr].
  destruct st as [s a]. rewrite wp_bind, wp_on_store. unfold on_endpoints, hook_GetByID.
  rewrite wp_zoom, wp_bind, wp_get.
  assert (Hs : s <| Hooks_endpoints := Hooks_endpoints s |> = s) by by destruct s.
  destruct (HookStore_endpoints (Hooks_endpoints s) !! id) as [ep|] eqn:He;
    [rewrite wp_ret|rewrite wp_fail]; rewrite Hs; [|apply Herr].
  unfold sees_all, caller_id. destruct sub as [me|]; [|rewrite wp_bind, wp_lift; apply Herr].
  rewrite wp_bind, wp_ret, wp_bind, wp_ret. case_decide as Hd; [rewrite wp_fail; apply Herr|].
  rewrite wp_ret. eapply Hok; [done..|]. destruct (HasPermission me "*"); [by left|right].
  destruct (decide (WebhookEndpoint_TenantID ep = Subject_UserID me)); [done|]. by destruct Hd.
Qed.

Lemma wp_hook_Update ep (Q : result WebhookEndpoint → env → World → Prop) w st :
  hooks_ok st.1 → public_url (WebhookEndpoint_URL ep) →
  (∀ r st' w', hooks_ok st'.1 → Q r st' w') →
  wp (on_store (on_endpoints (hook_Update ep))) Q w st.
Proof.
  intros Hok Hu HQ. destruct st as [s a]. rewrite wp_on_store. apply wp_on_endpoints; [done|].
  pose proof (ho_endpoints _ Hok) as Hep. unfold hook_Update, hook_GetByID.
  rewrite wp_bind, wp_bind, wp_get.
  destruct (HookStore_endpoints _ !! _) as [ep0|].
  - rewrite wp_ret, wp_bind, wp_now, wp_bind, wp_modify, wp_ret. cbn.
    split; [by apply map_Forall_insert_2|]. intros Hok'. by apply HQ.
  - rewrite wp_fail. split; [done|]. intros Hok'. by apply HQ.
Qed.

Abbreviation keeps m := (∀ w st, hooks_ok st.1 → hooks_ok (exec m w st).1).

Lemma keeps_create random sub input :
  keeps (CreateEndpoint auth has_audit random sub input).
Proof.
  intros w st Hok.
  apply (proj1 (wp_elim (CreateEndpoint auth has_audit random sub input) (λ _ st' _, hooks_ok st'.1) w st)).
  unfold CreateEndpoint. rewrite wp_bind. apply wp_admitted. intros [[]|e]; [|done].
  unfold guard_err. rewrite wp_bind. case_decide; [by rewrite wp_fail|].
  rewrite wp_ret, wp_bind. case_decide; [by rewrite wp_fail|].
  rewrite wp_ret, wp_bind. unfold check_url. rewrite wp_wrap_err. apply wp_ValidateURL; [done|].
  intros host w1 _ Hurl. cbv zeta. rewrite wp_bind, wp_uuid, wp_bind. unfold caller_id.
  destruct sub as [me|]; [|by rewrite wp_lift]. rewrite wp_ret, wp_bind.
  destruct st as [s a]. rewrite wp_on_store. apply wp_on_endpoints; [done|].
  pose proof (ho_endpoints _ Hok) as Hep. unfold hook_Create, or_uuid.
  repeat (case_decide || wp_step); (split; [cbn; apply map_Forall_insert_2; [by exists host|exact Hep]|]);
    intros Hok'; apply wp_log_webhook; intros st2 w2 Hst2; rewrite wp_ret, Hst2; exact Hok'.
Qed.

Lemma keeps_update sub id input : keeps (UpdateEndpoint auth has_audit sub id input).
Proof.
  intros w st Hok.
  apply (proj1 (wp_elim (UpdateEndpoint auth has_audit sub id input) (λ _ st' _, hooks_ok st'.1) w st)).
  unfold UpdateEndpoint. rewrite wp_bind. apply wp_own_endpoint; [done|]. intros ep me Hep _ _ _.
  pose proof (ho_endpoints _ Hok _ _ Hep) as Hu. cbn in Hu. cbv zeta. rewrite wp_bind.
  assert (Hrest : ∀ ep w, public_url (WebhookEndpoint_URL ep) →
    wp (ep ← on_store (on_endpoints (hook_Update ep));
        logAudit has_audit sub "webhook.updated" (WebhookEndpoint_ID ep) (full_details ep) ;;
        mret ep) (λ _ st' _, hooks_ok st'.1) w st).
  { intros ep2 w2 Hu2. rewrite wp_bind. apply wp_hook_Update; [done..|]. intros [ep3|e] st3 w3 Hok3; [|done].
    rewrite wp_bind. apply wp_log_webhook. intros st4 w4 Hst4. rewrite wp_ret, Hst4. exact Hok3. }
  case_decide.
  - rewrite wp_ret. by apply Hrest.
  - rewrite wp_bind. unfold check_url. rewrite wp_wrap_err. apply wp_ValidateURL; [done|].
    intros host w1 _ Hurl. rewrite wp_ret. apply Hrest. by exists host.
Qed.

Lemma keeps_delete sub id : keeps (DeleteEndpoint auth has_audit sub id).
Proof.
  intros w st Hok.
  apply (proj1 (wp_elim (DeleteEndpoint auth has_audit sub id) (λ _ st' _, hooks_ok st'.1) w st)).
  unfold DeleteEndpoint. rewrite wp_bind. apply wp_own_endpoint; [done|]. intros ep me Hep _ _ _.
  rewrite wp_bind. destruct st as [s a]. rewrite wp_on_store. apply wp_on_endpoints; [done|].
  pose proof (ho_endpoints _ Hok) as Hall. unfold hook_Delete, hook_GetByID. cbn [fst] in Hep.
  rewrite wp_bind, wp_bind, wp_get, Hep, wp_ret, wp_modify. cbn.
  split; [by apply map_Forall_delete|]. intros Hok'. apply wp_log_webhook. by intros st2 w2 ->.
Qed.

Lemma keeps_rotate random sub id : keeps (svc_RotateSecret auth has_audit random sub id).
Proof.
  intros w st Hok.
  apply (proj1 (wp_elim (svc_RotateSecret auth has_audit random sub id) (λ _ st' _, hooks_ok st'.1) w st)).
  unfold svc_RotateSecret, RotateSecret. rewrite wp_bind. apply wp_own_endpoint; [done|].
  intros ep me Hep _ _ _. pose proof (ho_endpoints _ Hok _ _ Hep) as Hu.
  rewrite wp_bind, wp_bind, wp_now, wp_ret, wp_bind. apply wp_hook_Update; [done|done|].
  intros [ep3|e] st3 w3 Hok3; [|done]. rewrite wp_bind. apply wp_log_webhook. intros st4 w4 Hst4.
  rewrite wp_ret, Hst4. exact Hok3.
Qed.

Lemma keeps_test sub id : keeps (TestEndpoint auth false has_tester has_audit sub id).
Proof.
  intros w st Hok.
  apply (proj1 (wp_elim (TestEndpoint auth false has_tester has_audit sub id) (λ _ st' _, hooks_ok st'.1) w st)).
  unfold TestEndpoint. rewrite wp_bind. apply wp_own_endpoint; [done|]. intros ep me _ _ _ _.
  rewrite wp_bind. unfold guard_err. case_decide; [by rewrite wp_fail|]. rewrite wp_ret, wp_bind.
  destruct st as [s a]. rewrite wp_on_store. unfold TestWebhook. rewrite wp_bind, wp_uuid, wp_bind, wp_now.
  apply wp_deliver; [done|done|]. intros d e s1 w1 Hok1 _. rewrite wp_bind. apply wp_log_webhook.
  intros st2 w2 Hst2. rewrite wp_ret, Hst2. exact Hok1.
Qed.

(** What may happen: calls of the service, events, ticks of the retry loop,
    and a started delivery that runs. *)
Inductive hook_step st : env → Prop :=
  | hs_create w random sub input : hook_step st (exec (CreateEndpoint auth has_audit random sub input) w st)
  | hs_update w sub id input : hook_step st (exec (UpdateEndpoint auth has_audit sub id input) w st)
  | hs_delete w sub id : hook_step st (exec (DeleteEndpoint auth has_audit sub id) w st)
  | hs_rotate w random sub id : hook_step st (exec (svc_RotateSecret auth has_audit random sub id) w st)
  | hs_test w sub id : hook_step st (exec (TestEndpoint auth false has_tester has_audit sub id) w st)
  | hs_event w ev : hook_step st (exec (on_store (DispatchEvent ev)) w st)
  | hs_tick w : hook_step st (exec (on_store processPendingRetries) w st)
  | hs_run w i : hook_step st (exec (on_store (run_job false i)) w st).

Lemma on_store_ok (m : go Hooks ()) w st :
  hooks_ok (exec m w st.1) → hooks_ok (exec (on_store m) w st).1.
Proof.
  destruct st as [s a]. intros Hm.
  apply (proj1 (wp_elim (on_store m) (λ _ st' _, hooks_ok st'.1) w (s, a))).
  rewrite wp_on_store. by apply wp_elim.
Qed.

Lemma hook_step_ok st st' : hook_step st st' → hooks_ok st.1 → hooks_ok st'.1.
Proof.
  intros [w random sub input|w sub id input|w sub id|w random sub id|w sub id|w ev|w|w i] Hok.
  - by apply keeps_create.
  - by apply keeps_update.
  - by apply keeps_delete.
  - by apply keeps_rotate.
  - by apply keeps_test.
  - by apply on_store_ok, dispatch_ok.
  - by apply on_store_ok, process_ok.
  - apply on_store_ok. apply (proj1 (wp_elim _ _ _ _) (run_job_ok i w st.1 Hok)).
Qed.
End histories.

Definition no_hooks : Hooks := mkHooks NewMemoryWebhookRepo NewMemoryDeliveryRepo [] [] [].

Lemma no_hooks_ok : hooks_ok no_hooks.
Proof.
  split; cbn; [by apply Forall_nil_2..| |]; intros id x; by rewrite lookup_empty.
Qed.

(** C30 Bounded deliveries to public addresses. In every history of service
    calls, events, retries and deliveries, whatever the resolver and the other
    side answer: a request goes to an http or https URL whose host name is not
    a prohibited one, as attempt one to six; every address the client connects
    to, also after a redirect, is a public one; and no delivery panics. *)
Theorem deliveries_bounded_and_public {A} `{!AuditRepository A} (auth : Authorizer)
    (has_tester has_audit : bool) (a : A) (st : Hooks * A) :
  rtc (hook_step auth has_tester has_audit) (no_hooks, a) st →
  (∀ r, r ∈ Hooks_requests st.1 → 1 ≤ Request_Attempt r ≤ 6 ∧
     ∃ host, static_check (Request_URL r) = Ok host) ∧
  (∀ ip, ip ∈ Hooks_dialed st.1 → IsProhibitedIP ip = false) ∧
  (∀ w i, answer (run_job false i) w st.1 = Ok ()).
Proof.
  intros Hrun. assert (Hok : hooks_ok st.1).
  { revert Hrun. generalize no_hooks_ok. change no_hooks with (no_hooks, a).1 at 1.
    generalize (no_hooks, a) as st0. intros st0 Hok Hrun.
    induction Hrun as [|st1 st2 st3 Hs _ IH]; [done|]. apply IH. by eapply hook_step_ok. }
  split_and!.
  - intros r Hr. exact (proj1 (Forall_forall _ _) (ho_requests _ Hok) r Hr).
  - intros ip Hip. exact (proj1 (Forall_forall _ _) (ho_dialed _ Hok) ip Hip).
  - intros w i. apply (proj1 (wp_elim _ _ _ _) (run_job_ok i w st.1 Hok)).
Qed.

(** A caller of another tenant without the permission for everything is
    refused and changes nothing. *)
Definition turned_away {St X} (w : World) (st : St) (m : go St X) : Prop :=
  exec m w st = st ∧ ∃ e, answer m w st = Err e.

Lemma foreign_endpoint_denied {A} `{!AuditRepository A} (auth : Authorizer) (has_tester has_audit : bool)
    me id ep random input w (st : Hooks * A) :
  HookStore_endpoints (Hooks_endpoints st.1) !! id = Some ep →
  WebhookEndpoint_TenantID ep ≠ Subject_UserID me → HasPermission me "*" = false →
  turned_away w st (GetEndpoint auth (Some me) id) ∧
  turned_away w st (UpdateEndpoint auth has_audit (Some me) id input) ∧
  turned_away w st (DeleteEndpoint auth has_audit (Some me) id) ∧
  turned_away w st (svc_RotateSecret auth has_audit random (Some me) id) ∧
  turned_away w st (TestEndpoint auth false has_tester has_audit (Some me) id).
Proof.
  intros Hep Ht Hp.
  assert (Hown : ∀ action, turned_away w st (own_endpoint auth (Some me) action id)).
  { intros action.
    apply (proj1 (wp_elim (own_endpoint auth (Some me) action id)
      (λ r st' _, st' = st ∧ ∃ e, r = Err e) w st)).
    apply wp_own_endpoint; [intros e; split; [done|by exists e]|].
    intros ep' me' Hep' [= <-] _ Hall. destruct Hall as [?|?]; congruence. }
  assert (Hbind : ∀ X action (f : WebhookEndpoint → go (Hooks * A) X),
    turned_away w st (own_endpoint auth (Some me) action id ≫= f)).
  { intros X action f. destruct (Hown action) as [Hs [e He]]. unfold turned_away, exec, answer in *.
    unfold mbind, go_bind. destruct (own_endpoint _ _ _ _ _ _) as [[r s] w']. cbn in *. subst.
    split; [done|by exists e]. }
  split_and!; [apply Hown|apply Hbind..].
Qed.

(** A receiver that knows the secret accepts the header of a request that
    arrives in time. *)
Lemma signed_request_verifies {St} secret timestamp payload tolerance w (s : St) :
  fgt (math_Abs (Seconds (time_Sub (now_of w) (timestamp * Second)))) (Seconds tolerance) = false →
  answer (VerifySignature secret ("sha256=" +:+ SignPayload secret timestamp payload) timestamp
            payload tolerance) w s = Ok true.
Proof.
  intros Hin. apply (proj1 (wp_elim _ (λ r _ _, r = Ok true) w s)).
  unfold VerifySignature. rewrite wp_bind, wp_now, Hin. cbv zeta. rewrite wp_ret.
  set (sig := SignPayload _ _ _).
  assert (Hpre : HasPrefix ("sha256=" +:+ sig) "sha256=" = true)
    by (apply HasPrefix_spec; by exists sig).
  rewrite Hpre. unfold TrimPrefix. rewrite Hpre. f_equal. apply bool_decide_eq_true.
  rewrite length_string_app. replace (_ + _ - _)%nat with (String.length sig) by lia.
  by rewrite substring_tail, substring_full.
Qed.
End bounded.

(** ** A receiver that always fails *)

Section demo.
#[local] Existing Instances tagging_digest MemoryAuditRepo.

Definition demo_net : Net := {|
  url_Parse := λ url, Ok ("https", url);
  net_LookupIP := λ _ _, Ok [[93; 184; 216; 34]];
  ip_String := λ _, "93.184.216.34" |}.
Definition demo_http : Http := {|
  http_hosts := λ _ url, [url];
  http_status := λ _ _, Ok 500;
  http_error := λ _ err, err;
  json_event := λ ev, Ok (Event_ID ev) |}.
Definition demo_hmac : Hmac := λ secret text, secret +:+ text.
#[local] Existing Instances demo_net demo_http demo_hmac.

Abbreviation henv := (Hooks * AuditStore)%type.
Definition owner : Subject := mkSubject "user" "acme" "acme" "" "" [] ["webhook:create"] [] ∅.
Definition demo_input : CreateWebhookInput := mkCreateWebhookInput "hook" "example.com" "" [] None.

(** The clock jumps three hours with every reading, so that each retry is due. *)
Definition slow : World :=
  mkWorld (λ n, Z.of_nat n * (3 * Hour)) 1 (λ n, "uuid-" +:+ pretty n) 0 (λ _ l, l) 0 (λ _, 0) 0.
Definition run_on {X} (m : go henv X) (p : World * henv) : World * henv :=
  (world m p.1 p.2, exec m p.1 p.2).
Definition created : World * henv :=
  run_on (CreateEndpoint DynamicAuthorizer true "00" (Some owner) demo_input) (slow, (no_hooks, empty_audit)).
Definition fired : World * henv :=
  run_on (on_store (DispatchEvent (mkEvent "e1" "acme" "instance.created" "instance" "i-1" "u-1" 5 ∅ [] "1.0")))
    created.
Fixpoint drain (n : nat) (p : World * henv) : World * henv :=
  match n with
  | O => p
  | S n => drain n (run_on (on_store (run_job false 0)) p)
  end.
Definition retried (n : nat) (p : World * henv) : World * henv :=
  drain n (run_on (on_store processPendingRetries) p).
Definition after_two : World * henv := retried 1 (drain 1 fired).

Lemma deliveries_bounded_and_public_witness :
  (Request_Attempt <$> Hooks_requests after_two.2.1) = [1; 2] ∧
  (∀ r, r ∈ Hooks_requests after_two.2.1 → 1 ≤ Request_Attempt r ≤ 6 ∧
     ∃ host, static_check (Request_URL r) = Ok host) ∧
  (∀ ip, ip ∈ Hooks_dialed after_two.2.1 → IsProhibitedIP ip = false) ∧
  (∀ w i, answer (run_job false i) w after_two.2.1 = Ok ()).
Proof.
  split; [by vm_compute|].
  apply (deliveries_bounded_and_public DynamicAuthorizer true true empty_audit after_two.2).
  eapply (rtc_l _ _ created.2); [apply (hs_create _ _ _ (no_hooks, empty_audit))|].
  eapply (rtc_l _ _ fired.2); [apply (hs_event _ _ _ created.2)|].
  eapply (rtc_l _ _ (drain 1 fired).2); [apply (hs_run _ _ _ fired.2)|].
  eapply (rtc_l _ _ (run_on (on_store processPendingRetries) (drain 1 fired)).2);
    [apply (hs_tick _ _ _ (drain 1 fired).2)|].
  apply rtc_once, (hs_run _ _ _ (run_on (on_store processPendingRetries) (drain 1 fired)).2).
Defined.

(** A retry files a record of its own beside the one it retries, and both are
    due again: the failing endpoint gets one event thirty-two times. *)
Lemma retries_multiply :
  length (Hooks_requests (retried 16 (retried 8 (retried 4 (retried 2 (retried 1 (drain 1 fired)))))).2.1)
  = 32%nat.
Proof. by vm_compute. Qed.

(** A retry sends the event without its payload, resource and actor. *)
Lemma retry_loses_payload :
  (λ j, Event_ResourceType (Job_event j)) <$>
    Hooks_running (run_on (on_store processPendingRetries) (drain 1 fired)).2.1 = [""].
Proof. by vm_compute. Qed.
End demo.
