(* ===== verification/KeyRotation.v ===== *)
(** * Key rotation

    [internal/domain/keyrotation/keyrotation.go], the repository
    [internal/infra/memory/keyrotation_repo.go] and the service
    [internal/app/keyrotation/service.go], whose mutex makes every rotation and
    revocation a whole step. The service files records about keys; the keys
    themselves live with the components that use them. *)

From S2P Require Import Prelude Identity AuditTrail Events Backup.

Definition ErrKeyNotFound := ErrNew "keyrotation" "cryptographic key record not found".
Definition ErrKeyAlreadyRevoked := ErrNew "keyrotation" "cryptographic key is already revoked".

Definition TypeJWTSigning : string := "jwt_signing".
Definition TypeWebhookSecret : string := "webhook_secret".
Definition TypeNodeMTLSCert : string := "node_mtls_cert".
Definition TypeDBCredential : string := "db_credential".
Definition TypeBackupEncryption : string := "backup_encryption".

Inductive KeyStatus : Type := KeyActive | KeyGracePeriod | KeyRetired | KeyRevoked.
#[export] Instance KeyStatus_eq_dec : EqDecision KeyStatus.
Proof. solve_decision. Defined.

(** [Record]. *)
Record KeyRecord : Type := mkKeyRecord {
  KeyRecord_ID : string;
  KeyRecord_Type_ : string;
  KeyRecord_KeyID : string;
  KeyRecord_Status : KeyStatus;
  KeyRecord_Version : Z;
  KeyRecord_Algorithm : string;
  KeyRecord_Description : string;
  KeyRecord_RotatedBy : string;
  KeyRecord_GracePeriodExpiresAt : option Z;
  KeyRecord_RevokedAt : option Z;
  KeyRecord_RevocationReason : string;
  KeyRecord_CreatedAt : Z;
  KeyRecord_UpdatedAt : Z
}.

Definition eta_KeyRecord (r : KeyRecord) : KeyRecord :=
  mkKeyRecord (KeyRecord_ID r) (KeyRecord_Type_ r) (KeyRecord_KeyID r)
    (KeyRecord_Status r) (KeyRecord_Version r) (KeyRecord_Algorithm r)
    (KeyRecord_Description r) (KeyRecord_RotatedBy r) (KeyRecord_GracePeriodExpiresAt r)
    (KeyRecord_RevokedAt r) (KeyRecord_RevocationReason r) (KeyRecord_CreatedAt r)
    (KeyRecord_UpdatedAt r).
#[export] Instance set_KeyRecord_ID : Setter KeyRecord_ID := ltac:(setter eta_KeyRecord KeyRecord_ID).
#[export] Instance set_KeyRecord_Status : Setter KeyRecord_Status := ltac:(setter eta_KeyRecord KeyRecord_Status).
#[export] Instance set_KeyRecord_GracePeriodExpiresAt : Setter KeyRecord_GracePeriodExpiresAt := ltac:(setter eta_KeyRecord KeyRecord_GracePeriodExpiresAt).
#[export] Instance set_KeyRecord_RevokedAt : Setter KeyRecord_RevokedAt := ltac:(setter eta_KeyRecord KeyRecord_RevokedAt).
#[export] Instance set_KeyRecord_RevocationReason : Setter KeyRecord_RevocationReason := ltac:(setter eta_KeyRecord KeyRecord_RevocationReason).
#[export] Instance set_KeyRecord_CreatedAt : Setter KeyRecord_CreatedAt := ltac:(setter eta_KeyRecord KeyRecord_CreatedAt).
#[export] Instance set_KeyRecord_UpdatedAt : Setter KeyRecord_UpdatedAt := ltac:(setter eta_KeyRecord KeyRecord_UpdatedAt).

(** ** The repository *)

Abbreviation KeyStore := (gmap string KeyRecord).

Definition seedActiveKeys (now : Z) : list KeyRecord :=
  [mkKeyRecord "key-jwt-active" TypeJWTSigning "jwt-key-2026-v1" KeyActive 1 "HS256"
     "Primary JWT HMAC-SHA256 Signing Key" "system:bootstrap" None None "" now now;
   mkKeyRecord "key-backup-active" TypeBackupEncryption "backup-aes-2026-v1" KeyActive 1
     "AES-GCM-256" "Envelope Encryption Key for Disaster Recovery Backups" "system:bootstrap"
     None None "" now now].

Definition NewMemoryKeyRotationRepo (now : Z) : KeyStore :=
  foldr (λ r m, <[KeyRecord_ID r := r]> m) ∅ (seedActiveKeys now).

Definition Save (r : KeyRecord) : go KeyStore KeyRecord :=
  id ← or_uuid (KeyRecord_ID r);
  now ← time_Now;
  let r := r <| KeyRecord_ID := id |> in
  let r := (if decide (IsZero (KeyRecord_CreatedAt r)) then r <| KeyRecord_CreatedAt := now |> else r)
             <| KeyRecord_UpdatedAt := now |> in
  modify (<[id := r]>) ;;
  mret r.

Definition key_GetByID (id : string) : go KeyStore KeyRecord :=
  m ← get;
  match m !! id with Some r => mret r | None => fail ErrKeyNotFound end.

(** A key that still verifies: active, or in its grace period. *)
Definition usable (r : KeyRecord) : Prop :=
  KeyRecord_Status r = KeyActive ∨ KeyRecord_Status r = KeyGracePeriod.
#[export] Instance usable_dec r : Decision (usable r).
Proof. unfold usable. apply _. Defined.

Definition higher_version (a b : KeyRecord) : bool :=
  bool_decide (KeyRecord_Version b < KeyRecord_Version a).

Definition GetActive (keyType : string) : go KeyStore KeyRecord :=
  m ← get;
  l ← list_in m (λ r, KeyRecord_Type_ r = keyType ∧ usable r);
  match latest_of higher_version l with
  | Some r => mret r
  | None => fail ErrKeyNotFound
  end.

Definition key_newer (a b : KeyRecord) : bool :=
  bool_decide (KeyRecord_CreatedAt b < KeyRecord_CreatedAt a).

Definition key_List `{SortSlice} (keyType : string) (limit offset : Z) :
    go KeyStore (list KeyRecord * Z) :=
  m ← get;
  l ← list_in m (λ r, keyType = "" ∨ KeyRecord_Type_ r = keyType);
  items ← lift (clipped (sort_Slice key_newer l) limit offset);
  mret (items, Z.of_nat (length l)).

Definition key_UpdateStatus (id : string) (status : KeyStatus) (reason : string) :
    go KeyStore () :=
  r ← key_GetByID id;
  now ← time_Now;
  let r := r <| KeyRecord_Status := status |> <| KeyRecord_UpdatedAt := now |> in
  r ← (if decide (status = KeyRevoked) then
         now ← time_Now;
         mret (r <| KeyRecord_RevokedAt := Some now |> <| KeyRecord_RevocationReason := reason |>)
       else mret r);
  modify (<[id := r]>).

(** ** The service *)

Record KeyEnv (E : Type) := mkKeyEnv { ke_repo : KeyStore; ke_events : E }.
Arguments mkKeyEnv {E} _ _.
Arguments ke_repo {E} _.
Arguments ke_events {E} _.

Record RotateKeyRequest : Type := mkRotateKeyRequest {
  RotateKeyRequest_Type_ : string;
  RotateKeyRequest_Description : string;
  RotateKeyRequest_GracePeriodDuration : Z
}.

(** [d.String()] of a duration. *)
Class DurationString := duration_String : Z → string.

(** [s[:8]] of a string. *)
Definition first_eight {St} (s : string) : go St string :=
  if decide (8 ≤ String.length s)%nat then mret (String.substring 0 8 s)
  else lift (panic "slice bounds out of range").

(** The [switch] over the key type. *)
Definition algorithm_for (keyType : string) : string :=
  if decide (keyType = TypeJWTSigning) then "HS256"
  else if decide (keyType = TypeWebhookSecret) then "HMAC-SHA256"
  else if decide (keyType = TypeNodeMTLSCert) then "ECDSA-P256"
  else if decide (keyType = TypeBackupEncryption) then "AES-GCM-256"
  else if decide (keyType = TypeDBCredential) then "SCRAM-SHA-256"
  else "HS256".

Section service.
Context {E A : Type} `{!EventPublisher E, !AuditRepository A, !SortSlice, !DurationString}.
Context (auth : option Authorizer) (has_events has_audit : bool).
Abbreviation env := (KeyEnv E * A)%type.

Definition on_keys {X} (m : go KeyStore X) : go env X :=
  on_store (zoom ke_repo (λ x e, mkKeyEnv x (ke_events e)) m).

(** [s.authorizer != nil && sub != nil && !sub.IsSuperadmin()] refuses. *)
Definition key_refused (sub : option Subject) : bool :=
  match auth, sub with Some _, Some s => negb (IsSuperadmin s) | _, _ => false end.

Definition key_actor (sub : option Subject) : string := from_option Subject_UserID "system" sub.

Definition audit_key (sub : option Subject) (action keyID : string) (det : Details) : go env () :=
  if has_audit then
    now ← time_Now;
    ignore (zoom snd (λ a s, (fst s, a))
      (Record_ (mkAuditLog 0 (Some (key_actor sub)) "" "" action "security_key" (Some keyID) "" 200
                  (Some det) "" "" "" now)))
  else mret ().

Definition publish_key (typ keyID : string) : go env () :=
  if has_events then
    eid ← uuid_NewString;
    now ← time_Now;
    ignore (on_store (zoom ke_events (λ x e, mkKeyEnv (ke_repo e) x)
      (Publish (mkEvent eid "system" typ "security_key" keyID "" now ∅ [] "1.0"))))
  else mret ().

(** Steps of [RotateKey]: the previous key goes into its grace period, *)
Definition demote (prev : KeyRecord) (grace : Z) : go env () :=
  now ← time_Now;
  ignore (on_keys (Save (prev <| KeyRecord_Status := KeyGracePeriod |>
                              <| KeyRecord_GracePeriodExpiresAt := Some (time_Add now grace) |>))).

(** and a new record is filed. *)
Definition new_key (sub : option Subject) (req : RotateKeyRequest) (version : Z) :
    go env KeyRecord :=
  id ← uuid_NewString;
  suffix ← uuid_NewString;
  suffix ← first_eight suffix;
  created ← time_Now;
  updated ← time_Now;
  let typ := RotateKeyRequest_Type_ req in
  wrap_err (λ err, Wrapf ("failed to persist key rotation record: " +:+ Error err) err)
    (on_keys (Save (mkKeyRecord id typ (typ +:+ "-v" +:+ fmt_d version +:+ "-" +:+ suffix)
       KeyActive version (algorithm_for typ) (RotateKeyRequest_Description req) (key_actor sub)
       None None "" created updated))).

Definition RotateKey (sub : option Subject) (req : RotateKeyRequest) : go env KeyRecord :=
  if key_refused sub then fail ErrResourceForbidden
  else
    let grace := if decide (RotateKeyRequest_GracePeriodDuration req ≤ 0) then 24 * Hour
                 else RotateKeyRequest_GracePeriodDuration req in
    prev ← try (on_keys (GetActive (RotateKeyRequest_Type_ req)));
    version ← match prev with
              | Ok p => demote p grace ;; mret (add64 (KeyRecord_Version p) 1)
              | Err _ => mret 1
              end;
    r ← new_key sub req version;
    audit_key sub "key.rotated" (KeyRecord_KeyID r)
      (details [("keyType", AnyStr (RotateKeyRequest_Type_ req)); ("version", AnyInt version);
                ("algorithm", AnyStr (algorithm_for (RotateKeyRequest_Type_ req)));
                ("gracePeriod", AnyStr (duration_String grace))]) ;;
    publish_key "key.rotated" (KeyRecord_KeyID r) ;;
    mret r.

Definition RevokeKey (sub : option Subject) (id reason : string) : go env KeyRecord :=
  if key_refused sub then fail ErrResourceForbidden
  else
    r ← on_keys (key_GetByID id);
    if decide (KeyRecord_Status r = KeyRevoked) then fail ErrKeyAlreadyRevoked
    else
      let reason := or_default "Revoked by security administrator" reason in
      on_keys (key_UpdateStatus id KeyRevoked reason) ;;
      let r := r <| KeyRecord_Status := KeyRevoked |> <| KeyRecord_RevocationReason := reason |> in
      audit_key sub "key.revoked" (KeyRecord_KeyID r)
        (details [("keyType", AnyStr (KeyRecord_Type_ r)); ("reason", AnyStr reason)]) ;;
      publish_key "key.revoked" (KeyRecord_KeyID r) ;;
      mret r.

Definition ListKeyRotations (sub : option Subject) (keyType : string) (limit offset : Z) :
    go env (list KeyRecord * Z) :=
  if key_refused sub then fail ErrResourceForbidden
  else on_keys (key_List keyType limit offset).
End service.

(** ** At most one active key *)

(** Records are filed under their identifier, versions are at most [n], and
    the active key of a type has a higher version than every other key of the
    type that still verifies. *)
Record keys_ok (n : Z) (m : KeyStore) : Prop := {
  ko_filed : ∀ id r, m !! id = Some r → KeyRecord_ID r = id ∧ id ≠ "";
  ko_version : ∀ id r, m !! id = Some r → 1 ≤ KeyRecord_Version r ≤ n;
  ko_active : ∀ id1 id2 r1 r2, m !! id1 = Some r1 → m !! id2 = Some r2 → id1 ≠ id2 →
    KeyRecord_Type_ r1 = KeyRecord_Type_ r2 → KeyRecord_Status r1 = KeyActive → usable r2 →
    KeyRecord_Version r2 < KeyRecord_Version r1 }.

(** The same key, possibly in another state. *)
Definition same_key (r r' : KeyRecord) : Prop :=
  KeyRecord_ID r' = KeyRecord_ID r ∧ KeyRecord_Type_ r' = KeyRecord_Type_ r ∧
  KeyRecord_Version r' = KeyRecord_Version r.

(** A revoked record stays as it is. *)
Definition revoked_kept (m m' : KeyStore) : Prop :=
  ∀ id r, m !! id = Some r → KeyRecord_Status r = KeyRevoked → m' !! id = Some r.

Lemma keys_ok_le n n' m : n ≤ n' → keys_ok n m → keys_ok n' m.
Proof.
  intros Hle [Hf Hv Ha]. split; [done| |done]. intros id r Hr. specialize (Hv id r Hr). lia.
Qed.

(** A key may leave the usable ones, or go from active to its grace period. *)
Lemma keys_ok_lower n m id r r' : keys_ok n m → m !! id = Some r → same_key r r' →
  KeyRecord_Status r' ≠ KeyActive → (usable r' → usable r) → keys_ok n (<[id := r']> m).
Proof.
  intros [Hf Hv Ha] Hr (Hid & Ht & Hn) Hna Hu. split.
  - intros i x [[<- <-]|[_ Hx]]%lookup_insert_Some; [rewrite Hid|]; by apply Hf.
  - intros i x [[<- <-]|[_ Hx]]%lookup_insert_Some; [rewrite Hn|]; by eapply Hv.
  - intros i1 i2 r1 r2 [[<- <-]|[_ H1]]%lookup_insert_Some [[<- <-]|[_ H2]]%lookup_insert_Some Hne;
      [done|by intros _ ?| |by eapply Ha].
    rewrite Ht, Hn. intros Hty Hact Husable. by eapply (Ha i1 id r1 r); auto.
Qed.

Lemma keys_ok_new n m id r : keys_ok n m → m !! id = None → id ≠ "" → KeyRecord_ID r = id →
  1 ≤ KeyRecord_Version r ≤ n + 1 →
  (∀ i x, m !! i = Some x → KeyRecord_Type_ x = KeyRecord_Type_ r → usable x →
     KeyRecord_Status x ≠ KeyActive ∧ KeyRecord_Version x < KeyRecord_Version r) →
  keys_ok (n + 1) (<[id := r]> m).
Proof.
  intros [Hf Hv Ha] Hnew Hid Hrid Hrv Hmax. split.
  - intros i x [[<- <-]|[_ Hx]]%lookup_insert_Some; [done|by apply Hf].
  - intros i x [[<- <-]|[_ Hx]]%lookup_insert_Some; [done|]. specialize (Hv i x Hx). lia.
  - intros i1 i2 r1 r2 [[<- <-]|[_ H1]]%lookup_insert_Some [[<- <-]|[_ H2]]%lookup_insert_Some Hne Hty.
    + done.
    + intros _ Hu. by eapply Hmax.
    + intros Hact _. destruct (Hmax i1 r1 H1 Hty) as [Hno _]; [by left|done].
    + by eapply Ha.
Qed.

Lemma latest_version l o : latest_of higher_version l = o →
  match o with
  | Some r => r ∈ l ∧ ∀ x, x ∈ l → KeyRecord_Version x ≤ KeyRecord_Version r
  | None => l = []
  end.
Proof.
  unfold latest_of.
  assert (Hgen : ∀ l o, match foldl (λ latest v, match latest with
      | None => Some v | Some x => if higher_version v x then Some v else latest end) o l with
    | Some r => (r ∈ l ∨ o = Some r) ∧ (∀ x, x ∈ l ∨ o = Some x → KeyRecord_Version x ≤ KeyRecord_Version r)
    | None => l = [] ∧ o = None
    end).
  { clear l o. induction l as [|v l IH]; intros o; cbn.
    - destruct o as [r|]; [|done]. split; [by right|]. intros x [Hx|[= ->]]; [set_solver|lia].
    - set (o' := match o with None => Some v | Some x => if higher_version v x then Some v else o end).
      specialize (IH o').
      assert (Ho' : ∃ y, o' = Some y ∧ KeyRecord_Version v ≤ KeyRecord_Version y ∧
        (y = v ∨ o = Some y) ∧ ∀ x, o = Some x → KeyRecord_Version x ≤ KeyRecord_Version y).
      { unfold o', higher_version. destruct o as [x|]; [|exists v; split_and!; [done|lia|by left|done]].
        case_bool_decide; [exists v|exists x]; (split_and!; [done|lia|by auto|]);
          intros x' [= <-]; lia. }
      destruct Ho' as (y & Hy & Hvy & Hor & Hold). rewrite Hy in IH |- *.
      destruct (foldl _ _ l) as [r|]; [|by destruct IH]. destruct IH as [Hin Hmax]. split.
      + destruct Hin as [Hin|[= ->]]; [left; set_solver|]. destruct Hor as [->|Hor]; [left; set_solver|by right].
      + pose proof (Hmax y (or_intror eq_refl)) as Hyr. intros x [Hx|Hx].
        * apply elem_of_cons in Hx as [->|Hx]; [lia|]. apply Hmax. by left.
        * specialize (Hold x Hx). lia. }
  intros <-. specialize (Hgen l None). destruct (foldl _ _ _) as [r|]; [|by destruct Hgen].
  destruct Hgen as [[Hin|?] Hmax]; [|done]. split; [done|]. intros x Hx. apply Hmax. by left.
Qed.

(** The key a rotation starts from: of highest version among those that verify. *)
Lemma wp_active_key keyType (Q : result KeyRecord → KeyStore → World → Prop) w m :
  World_ok w →
  (∀ id r, m !! id = Some r → KeyRecord_Type_ r = keyType → usable r →
     (∀ i x, m !! i = Some x → KeyRecord_Type_ x = keyType → usable x →
        KeyRecord_Version x ≤ KeyRecord_Version r) → Q (Ok r) m (next_range w)) →
  ((∀ i x, m !! i = Some x → KeyRecord_Type_ x = keyType → ¬ usable x) →
     Q (Err ErrKeyNotFound) m (next_range w)) →
  wp (GetActive keyType) Q w m.
Proof.
  intros Hw Hsome Hnone. unfold GetActive, list_in. wp_step.
  set (l := filter _ _).
  assert (Hl : ∀ r, r ∈ l ↔ (KeyRecord_Type_ r = keyType ∧ usable r) ∧ ∃ id, m !! id = Some r).
  { intros r. unfold l. rewrite list_elem_of_filter, list_elem_of_fmap. f_equiv. split.
    - intros ([id r'] & -> & Hin). exists id. by apply elem_of_entries in Hin.
    - intros [id Hr]. exists (id, r). split; [done|]. by apply elem_of_entries. }
  pose proof (latest_version l _ eq_refl) as Hlat. destruct (latest_of _ l) as [r|]; wp_step.
  - destruct Hlat as [Hin Hmax]. apply Hl in Hin as [[Ht Hu] [id Hr]]. eapply Hsome; [done..|].
    intros i x Hx Htx Hux. apply Hmax, Hl. split; [done|by exists i].
  - apply Hnone. intros i x Hx Htx Hux. assert (x ∈ l) as Hin by (apply Hl; split; [done|by exists i]).
    rewrite Hlat in Hin. set_solver.
Qed.

Lemma wp_Save r (Q : result KeyRecord → KeyStore → World → Prop) w m :
  KeyRecord_ID r ≠ "" →
  (∀ r', same_key r r' → KeyRecord_Status r' = KeyRecord_Status r →
     KeyRecord_KeyID r' = KeyRecord_KeyID r →
     Q (Ok r') (<[KeyRecord_ID r := r']> m) (tick w)) →
  wp (Save r) Q w m.
Proof.
  intros Hid HQ. unfold Save, or_uuid. rewrite decide_False by done. wp_step.
  apply HQ; case_decide; done.
Qed.

Section rotation.
Context {E A : Type} `{!EventPublisher E, !AuditRepository A, !SortSlice, !DurationString}.
Context (auth : option Authorizer) (has_events has_audit : bool).
Abbreviation env := (KeyEnv E * A)%type.
Implicit Types (st : env).

Definition keys_of st : KeyStore := ke_repo st.1.

Lemma wp_on_keys {X} (m : go KeyStore X) (Q : result X → env → World → Prop) w st :
  wp (on_keys m) Q w st ↔
  wp m (λ r k w', Q r (mkKeyEnv k (ke_events st.1), st.2) w') w (keys_of st).
Proof. unfold on_keys, on_store. by rewrite !wp_zoom. Qed.

(** Audit entries and events leave the keys alone, and succeed. *)
Lemma wp_audit_key sub action keyID det (Q : result () → env → World → Prop) w st :
  (∀ st' w', keys_of st' = keys_of st → Q (Ok ()) st' w') →
  wp (audit_key has_audit sub action keyID det) Q w st.
Proof.
  intros HQ. unfold audit_key. destruct has_audit; [|by apply HQ].
  rewrite wp_bind, wp_now, wp_ignore, wp_zoom. apply wp_elim. by apply HQ.
Qed.

Lemma wp_publish_key typ keyID (Q : result () → env → World → Prop) w st :
  (∀ st' w', keys_of st' = keys_of st → Q (Ok ()) st' w') →
  wp (publish_key has_events typ keyID) Q w st.
Proof.
  intros HQ. unfold publish_key, on_store. destruct has_events; [|by apply HQ].
  rewrite wp_bind, wp_uuid, wp_bind, wp_now, wp_ignore, !wp_zoom. apply wp_elim. by apply HQ.
Qed.

Lemma wp_reports {X} sub action typ keyID det (x : X) (Q : result X → env → World → Prop) w st :
  (∀ st' w', keys_of st' = keys_of st → Q (Ok x) st' w') →
  wp (audit_key has_audit sub action keyID det ;; publish_key has_events typ keyID ;; mret x) Q w st.
Proof.
  intros HQ. rewrite wp_bind. apply wp_audit_key. intros st1 w1 H1. rewrite wp_bind.
  apply wp_publish_key. intros st2 w2 H2. rewrite wp_ret. apply HQ. congruence.
Qed.

(** The new identifier of a rotation is not taken. *)
Definition new_key_id (w : World) st : Prop :=
  w_uuid w (w_uuids w) ≠ "" ∧ keys_of st !! w_uuid w (w_uuids w) = None.

Lemma wp_new_key sub req version (Q : result KeyRecord → env → World → Prop) w st :
  new_key_id w st →
  (∀ err w', Q (Err err) st w') →
  (∀ r st' w', KeyRecord_ID r = w_uuid w (w_uuids w) → KeyRecord_Type_ r = RotateKeyRequest_Type_ req →
     KeyRecord_Version r = version → KeyRecord_Status r = KeyActive →
     keys_of st' = <[KeyRecord_ID r := r]> (keys_of st) → Q (Ok r) st' w') →
  wp (new_key sub req version) Q w st.
Proof.
  intros [Hid Hnew] Herr Hok. unfold new_key. rewrite wp_bind, wp_uuid, wp_bind, wp_uuid, wp_bind.
  unfold first_eight. case_decide; [|rewrite wp_lift; apply Herr].
  rewrite wp_ret, wp_bind, wp_now, wp_bind, wp_now, wp_wrap_err, wp_on_keys.
  apply wp_Save; [done|]. cbn. intros r (Hri & Hrt & Hrv) Hrs _. cbn in *. apply Hok; try done.
  by rewrite Hri.
Qed.

(** What every call does to the keys, whatever it answers. *)
Definition key_call (n : Z) st st' : Prop :=
  (keys_ok n (keys_of st) → keys_ok (n + 1) (keys_of st')) ∧ revoked_kept (keys_of st) (keys_of st').

Lemma revoked_kept_refl m : revoked_kept m m.
Proof. by intros id r. Qed.
Lemma revoked_kept_insert m id r r' : m !! id = Some r → KeyRecord_Status r ≠ KeyRevoked →
  revoked_kept m (<[id := r']> m).
Proof.
  intros Hr Hs i x Hx Hxs. rewrite lookup_insert_ne; [done|]. intros <-. congruence.
Qed.

Lemma key_call_same n st st' : keys_of st' = keys_of st → key_call n st st'.
Proof.
  intros Heq. unfold key_call. rewrite Heq. split; [|apply revoked_kept_refl].
  apply keys_ok_le. lia.
Qed.

(** A rotation demotes the highest usable key and files the next version. *)
Lemma rotate_keys n m p p' id r :
  keys_ok n m → 1 ≤ n < 2 ^ 62 → m !! KeyRecord_ID p = Some p → usable p →
  (∀ i x, m !! i = Some x → KeyRecord_Type_ x = KeyRecord_Type_ p → usable x →
     KeyRecord_Version x ≤ KeyRecord_Version p) →
  same_key p p' → KeyRecord_Status p' = KeyGracePeriod →
  keys_ok n (<[KeyRecord_ID p := p']> m) ∧
  (m !! id = None → id ≠ "" → KeyRecord_ID r = id → KeyRecord_Type_ r = KeyRecord_Type_ p →
   KeyRecord_Version r = add64 (KeyRecord_Version p) 1 →
   keys_ok (n + 1) (<[id := r]> (<[KeyRecord_ID p := p']> m))).
Proof.
  intros Hok Hn Hp Hu Hmax (Hid & Ht & Hv) Hs.
  assert (Hok' : keys_ok n (<[KeyRecord_ID p := p']> m)).
  { eapply keys_ok_lower; [done..|congruence|done]. }
  split; [done|]. intros Hnew Hne Hrid Hrt Hrv.
  pose proof (ko_version _ _ Hok _ _ Hp) as Hpv. rewrite add64_id in Hrv by (unfold int64_ok; lia).
  apply keys_ok_new; [done| |done..|lia|].
  - rewrite lookup_insert_ne; [done|]. intros <-. congruence.
  - intros i x Hx Hxt Hxu. apply lookup_insert_Some in Hx as [[<- <-]|[Hne' Hx]].
    { split; [congruence|lia]. }
    rewrite Hrt in Hxt. pose proof (Hmax i x Hx Hxt Hxu) as Hle. split; [|lia].
    intros Hact. pose proof (ko_active _ _ Hok i (KeyRecord_ID p) x p Hx Hp) as Hlt.
    specialize (Hlt (not_eq_sym Hne') Hxt Hact Hu). lia.
Qed.

Lemma RotateKey_effect n sub req w st :
  World_ok w → new_key_id w st → 1 ≤ n < 2 ^ 62 → keys_ok n (keys_of st) →
  wp (RotateKey auth has_events has_audit sub req) (λ r st' _,
    key_call n st st' ∧
    match r with
    | Ok k => keys_of st' !! KeyRecord_ID k = Some k ∧ KeyRecord_Status k = KeyActive ∧
              KeyRecord_Type_ k = RotateKeyRequest_Type_ req ∧ keys_of st !! KeyRecord_ID k = None
    | Err _ => True
    end) w st.
Proof.
  intros Hw Hfresh Hn Hok. unfold RotateKey. destruct (key_refused _ _).
  { rewrite wp_fail. split; [by apply key_call_same|done]. }
  cbv zeta. set (grace := if decide _ then _ else _). rewrite wp_bind, wp_try, wp_on_keys.
  apply wp_active_key; [done| |].
  - intros id p Hp Hpt Hpu Hmax. rewrite wp_bind, wp_bind. unfold demote.
    rewrite wp_bind, wp_now, wp_ignore, wp_on_keys.
    destruct (ko_filed _ _ Hok _ _ Hp) as [<- Hpne]. apply wp_Save; [done|].
    intros p' Hsame Hps _. rewrite wp_ret, wp_bind. cbn in Hps |- *.
    rewrite <-Hpt in Hmax.
    assert (Hnr : KeyRecord_Status p ≠ KeyRevoked) by (destruct Hpu; congruence).
    apply wp_new_key.
    + destruct Hfresh as [Hne Hnew]. split; [done|]. cbn. rewrite lookup_insert_ne; [done|].
      intros Heq. cbn in Hnew. congruence.
    + intros err w'. cbn. split; [|done]. split; cbn; [|by eapply revoked_kept_insert].
      intros _. apply (keys_ok_le n); [lia|]. by eapply (rotate_keys n _ p p' "" p).
    + intros k st' w' Hki Hkt Hkv Hks Hst'. apply wp_reports. intros st2 w2 H2. cbn in Hst', Hki.
      destruct Hfresh as [Hne Hnew]. cbn in Hnew.
      destruct (rotate_keys n _ p p' (w_uuid w (w_uuids w)) k Hok Hn Hp Hpu Hmax Hsame Hps) as [_ Hnew_ok].
      assert (Hother : <[KeyRecord_ID p := p']> (keys_of st) !! KeyRecord_ID k = None).
      { rewrite Hki, lookup_insert_ne; [done|congruence]. }
      unfold key_call. rewrite H2, Hst'. split_and!.
      * intros _. rewrite Hki in *. apply Hnew_ok; congruence.
      * intros i x Hx Hxs. rewrite lookup_insert_ne by congruence. by eapply revoked_kept_insert.
      * apply lookup_insert_eq.
      * done.
      * done.
      * by rewrite Hki.
  - intros Hnone. rewrite wp_bind, wp_ret, wp_bind. apply wp_new_key; [done| |].
    + intros err w'. cbn. split; [by apply key_call_same|done].
    + intros k st' w' Hki Hkt Hkv Hks Hst'. apply wp_reports. intros st2 w2 H2. cbn in Hst', Hki.
      destruct Hfresh as [Hne Hnew]. unfold key_call. rewrite H2, Hst'. split_and!.
      * intros _. apply keys_ok_new; [done|by rewrite Hki|congruence|done|lia|].
        intros i x Hx Hxt Hxu. exfalso. eapply Hnone; [done|congruence|done].
      * intros i x Hx Hxs. rewrite lookup_insert_ne; congruence.
      * apply lookup_insert_eq.
      * done.
      * done.
      * by rewrite Hki.
Qed.

Lemma RevokeKey_effect n sub id reason w st :
  wp (RevokeKey auth has_events has_audit sub id reason) (λ r st' _,
    key_call n st st' ∧
    match r with
    | Ok _ => (∃ k, keys_of st !! id = Some k ∧ KeyRecord_Status k ≠ KeyRevoked) ∧
              ∃ k, keys_of st' !! id = Some k ∧ KeyRecord_Status k = KeyRevoked
    | Err _ => keys_of st' = keys_of st
    end) w st.
Proof.
  unfold RevokeKey. destruct (key_refused _ _).
  { rewrite wp_fail. split; [by apply key_call_same|done]. }
  rewrite wp_bind, wp_on_keys. unfold key_GetByID. rewrite wp_bind, wp_get.
  destruct (keys_of st !! id) as [k|] eqn:Hk.
  2:{ rewrite wp_fail. split; [by apply key_call_same|done]. }
  rewrite wp_ret. case_decide as Hs.
  { rewrite wp_fail. split; [by apply key_call_same|done]. }
  cbv zeta. rewrite wp_bind, wp_on_keys. unfold key_UpdateStatus, key_GetByID.
  rewrite wp_bind, wp_bind, wp_get. change (ke_repo (mkKeyEnv (keys_of st) _)) with (keys_of st).
  cbn [fst ke_repo]. unfold keys_of at 1. cbn [fst ke_repo].
  rewrite Hk, wp_ret, wp_bind, wp_now, wp_bind. rewrite decide_True by done.
  rewrite wp_bind, wp_now, wp_ret, wp_modify. apply wp_reports. intros st2 w2 H2. cbn in H2.
  unfold key_call. rewrite H2. split_and!.
  - intros Hok. apply (keys_ok_le n); [lia|]. eapply keys_ok_lower; [done..| | |]; cbn; [done|done|].
    intros [?|?]; done.
  - by eapply revoked_kept_insert.
  - by exists k.
  - eexists. split; [apply lookup_insert_eq|done].
Qed.

(** *** Histories *)

(** One call of the service; a new record gets a new identifier. *)
Inductive key_step st : env → Prop :=
  | k_rotate w sub req : World_ok w → new_key_id w st →
      key_step st (exec (RotateKey auth has_events has_audit sub req) w st)
  | k_revoke w sub id reason :
      key_step st (exec (RevokeKey auth has_events has_audit sub id reason) w st)
  | k_list w sub typ limit offset :
      key_step st (exec (ListKeyRotations auth sub typ limit offset) w st).

Lemma ListKeyRotations_same sub typ limit offset w st :
  keys_of (exec (ListKeyRotations auth sub typ limit offset) w st) = keys_of st.
Proof.
  apply (proj1 (wp_elim (ListKeyRotations auth sub typ limit offset)
    (λ _ st' _, keys_of st' = keys_of st) w st)).
  unfold ListKeyRotations. destruct (key_refused _ _); [done|]. rewrite wp_on_keys.
  apply wp_quiet; [|done]. unfold key_List. quiet.
Qed.

Lemma key_step_call n st st' : 1 ≤ n < 2 ^ 62 → keys_ok n (keys_of st) → key_step st st' →
  key_call n st st'.
Proof.
  intros Hn Hok [w sub req Hw Hfresh|w sub id reason|w sub typ limit offset].
  - apply (proj1 (wp_elim _ _ _ _) (RotateKey_effect n sub req w st Hw Hfresh Hn Hok)).
  - apply (proj1 (wp_elim _ _ _ _) (RevokeKey_effect n sub id reason w st)).
  - apply key_call_same, ListKeyRotations_same.
Qed.

Lemma key_steps_call k n st st' : 1 ≤ n → n + Z.of_nat k < 2 ^ 62 → keys_ok n (keys_of st) →
  nsteps key_step k st st' →
  keys_ok (n + Z.of_nat k) (keys_of st') ∧ revoked_kept (keys_of st) (keys_of st').
Proof.
  intros H1 Hk Hok Hrun. revert n H1 Hk Hok.
  induction Hrun as [st|k st1 st2 st3 Hs _ IH]; intros n H1 Hk Hok.
  { rewrite Z.add_0_r. split; [done|apply revoked_kept_refl]. }
  destruct (key_step_call n st1 st2 ltac:(lia) Hok Hs) as [Hok2 Hkept].
  destruct (IH (n + 1) ltac:(lia) ltac:(lia) (Hok2 Hok)) as [Hok3 Hkept3].
  replace (n + Z.of_nat (S k)) with (n + 1 + Z.of_nat k) by lia. split; [done|].
  intros id r Hr Hrs. by apply Hkept3; [apply Hkept|].
Qed.

Lemma seeded_keys_ok now : keys_ok 1 (NewMemoryKeyRotationRepo now).
Proof.
  unfold NewMemoryKeyRotationRepo. cbn. split.
  - intros id r [[<- <-]|[_ [[<- <-]|[_ Hr]]%lookup_insert_Some]]%lookup_insert_Some; [done..|].
    by rewrite lookup_empty in Hr.
  - intros id r [[<- <-]|[_ [[<- <-]|[_ Hr]]%lookup_insert_Some]]%lookup_insert_Some; [cbn; lia..|].
    by rewrite lookup_empty in Hr.
  - intros i1 i2 r1 r2 [[<- <-]|[_ [[<- <-]|[_ Hr]]%lookup_insert_Some]]%lookup_insert_Some
      [[<- <-]|[_ [[<- <-]|[_ Hr']]%lookup_insert_Some]]%lookup_insert_Some; try done;
      by rewrite lookup_empty in *.
Qed.

(** C32 One active key. In every history of fewer than 2^61 calls of the
    service from the seeded repository a type has at most one active key, its
    version is above that of every other key of the type that still verifies,
    and a key that was revoked is never touched again. *)
Theorem one_active_key now e a k1 k2 st1 st2 :
  Z.of_nat (k1 + k2) < 2 ^ 61 →
  nsteps key_step k1 (mkKeyEnv (NewMemoryKeyRotationRepo now) e, a) st1 →
  nsteps key_step k2 st1 st2 →
  (∀ id1 id2 r1 r2, keys_of st2 !! id1 = Some r1 → keys_of st2 !! id2 = Some r2 → id1 ≠ id2 →
     KeyRecord_Type_ r1 = KeyRecord_Type_ r2 → KeyRecord_Status r1 = KeyActive → usable r2 →
     KeyRecord_Status r2 = KeyGracePeriod ∧ KeyRecord_Version r2 < KeyRecord_Version r1) ∧
  (∀ id r, keys_of st1 !! id = Some r → KeyRecord_Status r = KeyRevoked →
     keys_of st2 !! id = Some r).
Proof.
  intros Hk H1 H2.
  assert (Hk1 : 1 + Z.of_nat k1 < 2 ^ 62). { lia. }
  assert (Hk2 : 1 + Z.of_nat k1 + Z.of_nat k2 < 2 ^ 62) by lia.
  destruct (key_steps_call k1 1 (mkKeyEnv (NewMemoryKeyRotationRepo now) e, a) st1
    ltac:(done) Hk1 (seeded_keys_ok now) H1) as [Hok1 _].
  destruct (key_steps_call k2 (1 + Z.of_nat k1) _ _ ltac:(lia) Hk2 Hok1 H2) as [Hok2 Hkept].
  split; [|exact Hkept]. intros id1 id2 r1 r2 Hr1 Hr2 Hne Ht Ha Hu.
  assert (Hlt : KeyRecord_Version r2 < KeyRecord_Version r1) by by eapply (ko_active _ _ Hok2 id1 id2).
  split; [|done]. destruct Hu as [Ha2|?]; [|done].
  assert (KeyRecord_Version r1 < KeyRecord_Version r2); [|lia].
  eapply (ko_active _ _ Hok2 id2 id1); try done. by left.
Qed.
End rotation.

Section demo.
#[local] Existing Instances EventRecorder tagging_digest MemoryAuditRepo InsertionSort.
Definition demo_duration : DurationString := λ _, "24h0m0s".
#[local] Existing Instance demo_duration.

Definition key_world (k : nat) : World :=
  mkWorld (λ _, Hour) 0 (λ n, "key-" +:+ pretty (10000 + Z.of_nat n)) k (λ _ l, l) 0 (λ _, 0) 0.
Abbreviation kenv := (KeyEnv (list Event) * AuditStore)%type.

Definition seeded : kenv := (mkKeyEnv (NewMemoryKeyRotationRepo 0) [], empty_audit).
Definition rotate_jwt (k : nat) (st : kenv) : kenv :=
  exec (RotateKey None true true None (mkRotateKeyRequest TypeJWTSigning "" 0)) (key_world k) st.
Definition revoke (id : string) (st : kenv) : kenv :=
  exec (RevokeKey None true true None id "leaked") (key_world 0) st.

Definition rotated : kenv := rotate_jwt 0 seeded.
Definition rotated_twice : kenv := rotate_jwt 3 (revoke "key-10000" rotated).

Lemma key_world_ok k : World_ok (key_world k).
Proof. intros n l. reflexivity. Qed.

Lemma one_active_key_witness :
  KeyRecord_Status <$> keys_of rotated !! "key-10000" = Some KeyActive ∧
  (∀ id1 id2 r1 r2, keys_of rotated_twice !! id1 = Some r1 → keys_of rotated_twice !! id2 = Some r2 →
     id1 ≠ id2 → KeyRecord_Type_ r1 = KeyRecord_Type_ r2 → KeyRecord_Status r1 = KeyActive →
     usable r2 → KeyRecord_Status r2 = KeyGracePeriod ∧ KeyRecord_Version r2 < KeyRecord_Version r1) ∧
  (∀ id r, keys_of (revoke "key-10000" rotated) !! id = Some r → KeyRecord_Status r = KeyRevoked →
     keys_of rotated_twice !! id = Some r).
Proof.
  split; [by vm_compute|].
  apply (one_active_key None true true 0 [] empty_audit 2 1 (revoke "key-10000" rotated)
           rotated_twice).
  - lia.
  - eapply nsteps_l; [|eapply nsteps_l; [|constructor]].
    + apply (k_rotate None true true seeded (key_world 0) None (mkRotateKeyRequest TypeJWTSigning "" 0)); [apply key_world_ok|]. split; [vm_compute; discriminate|vm_compute; reflexivity].
    + apply (k_revoke None true true rotated (key_world 0) None "key-10000" "leaked").
  - eapply nsteps_l; [|constructor].
    apply (k_rotate None true true (revoke "key-10000" rotated) (key_world 3) None
      (mkRotateKeyRequest TypeJWTSigning "" 0)); [apply key_world_ok|]. split; [vm_compute; discriminate|vm_compute; reflexivity].
Defined.

(** A version number comes back: after a revocation the next one is counted
    from the older key, and that key gets a new grace period. *)
Lemma version_reused :
  KeyRecord_Version <$> keys_of rotated_twice !! "key-10000" = Some 2 ∧
  KeyRecord_Version <$> keys_of rotated_twice !! "key-10003" = Some 2 ∧
  KeyRecord_Status <$> keys_of rotated_twice !! "key-jwt-active" = Some KeyGracePeriod.
Proof. by vm_compute. Qed.

(** A key whose grace period is over still counts as the active one. *)
Definition overdue : KeyRecord :=
  mkKeyRecord "key-jwt-active" TypeJWTSigning "k" KeyGracePeriod 1 "" "" "" (Some 0) None "" 0 0.
Lemma grace_never_ends :
  answer (GetActive TypeJWTSigning) (key_world 0) {["key-jwt-active" := overdue]} = Ok overdue.
Proof. by vm_compute. Qed.
End demo.
