(* ===== verification/Monitoring.v ===== *)
(** * Monitoring and alerts

    [internal/domain/monitoring], the repositories of
    [internal/infra/memory/monitoring_repo.go] and the service
    [internal/app/monitoring/service.go]: samples go into the ring buffer and
    are compared with the thresholds of their resource, and each that is
    exceeded opens an alert. *)

From S2P Require Import Prelude Identity AuditTrail Node Instances RingBuffer.

Definition ErrThresholdNotFound := ErrNew "monitoring" "alert threshold not found".
Definition ErrAlertEventNotFound := ErrNew "monitoring" "alert event not found".
Definition ErrInvalidThresholdSpec := ErrNew "monitoring" "invalid alert threshold specification".

Definition ResourceTypeNode : string := "node".
Definition ResourceTypeInstance : string := "instance".
Definition SeverityWarning : string := "warning".

(** The states come from the service only; an empty filter is [None]. *)
Inductive AlertState : Type := AlertStateFiring | AlertStateAcknowledged | AlertStateResolved.
#[export] Instance AlertState_eq_dec : EqDecision AlertState.
Proof. solve_decision. Defined.

Record AlertThreshold : Type := mkAlertThreshold {
  AlertThreshold_ID : string;
  AlertThreshold_UserID : string;
  AlertThreshold_ResourceType : string;
  AlertThreshold_ResourceID : string;
  AlertThreshold_MetricName : string;
  AlertThreshold_Operator : string;
  AlertThreshold_ThresholdValue : float64;
  AlertThreshold_DurationSeconds : Z;
  AlertThreshold_Severity : string;
  AlertThreshold_Enabled : bool;
  AlertThreshold_CreatedAt : Z;
  AlertThreshold_UpdatedAt : Z
}.

Definition eta_AlertThreshold (r : AlertThreshold) : AlertThreshold :=
  mkAlertThreshold (AlertThreshold_ID r) (AlertThreshold_UserID r)
    (AlertThreshold_ResourceType r) (AlertThreshold_ResourceID r)
    (AlertThreshold_MetricName r) (AlertThreshold_Operator r)
    (AlertThreshold_ThresholdValue r) (AlertThreshold_DurationSeconds r)
    (AlertThreshold_Severity r) (AlertThreshold_Enabled r) (AlertThreshold_CreatedAt r)
    (AlertThreshold_UpdatedAt r).
#[export] Instance set_AlertThreshold_ID : Setter AlertThreshold_ID := ltac:(setter eta_AlertThreshold AlertThreshold_ID).
#[export] Instance set_AlertThreshold_CreatedAt : Setter AlertThreshold_CreatedAt := ltac:(setter eta_AlertThreshold AlertThreshold_CreatedAt).
#[export] Instance set_AlertThreshold_UpdatedAt : Setter AlertThreshold_UpdatedAt := ltac:(setter eta_AlertThreshold AlertThreshold_UpdatedAt).

Record AlertEvent : Type := mkAlertEvent {
  AlertEvent_ID : string;
  AlertEvent_ThresholdID : string;
  AlertEvent_ResourceType : string;
  AlertEvent_ResourceID : string;
  AlertEvent_TriggeredValue : float64;
  AlertEvent_Severity : string;
  AlertEvent_Message : string;
  AlertEvent_State : AlertState;
  AlertEvent_TriggeredAt : Z;
  AlertEvent_ResolvedAt : option Z
}.

Definition eta_AlertEvent (r : AlertEvent) : AlertEvent :=
  mkAlertEvent (AlertEvent_ID r) (AlertEvent_ThresholdID r) (AlertEvent_ResourceType r)
    (AlertEvent_ResourceID r) (AlertEvent_TriggeredValue r) (AlertEvent_Severity r)
    (AlertEvent_Message r) (AlertEvent_State r) (AlertEvent_TriggeredAt r)
    (AlertEvent_ResolvedAt r).
#[export] Instance set_AlertEvent_ID : Setter AlertEvent_ID := ltac:(setter eta_AlertEvent AlertEvent_ID).
#[export] Instance set_AlertEvent_State : Setter AlertEvent_State := ltac:(setter eta_AlertEvent AlertEvent_State).
#[export] Instance set_AlertEvent_TriggeredAt : Setter AlertEvent_TriggeredAt := ltac:(setter eta_AlertEvent AlertEvent_TriggeredAt).
#[export] Instance set_AlertEvent_ResolvedAt : Setter AlertEvent_ResolvedAt := ltac:(setter eta_AlertEvent AlertEvent_ResolvedAt).

Definition feq (a b : float64) : bool := SFeqb a b.

Definition Evaluate (t : AlertThreshold) (currentValue : float64) : bool :=
  if AlertThreshold_Enabled t then
    let op := AlertThreshold_Operator t in
    let v := AlertThreshold_ThresholdValue t in
    if decide (op = "gt") then fgt currentValue v
    else if decide (op = "gte") then fge currentValue v
    else if decide (op = "lt") then flt currentValue v
    else if decide (op = "lte") then fle currentValue v
    else if decide (op = "eq") then feq currentValue v
    else false
  else false.

(** ** The repositories *)

Abbreviation ThresholdStore := (gmap string AlertThreshold).
Abbreviation AlertStore := (gmap string AlertEvent).

Definition uuid_if_empty {St} (id : string) : go St string :=
  if decide (id = "") then uuid_NewString else mret id.

Definition threshold_Create (t : AlertThreshold) : go ThresholdStore AlertThreshold :=
  id ← uuid_if_empty (AlertThreshold_ID t);
  now ← time_Now;
  let t := t <| AlertThreshold_ID := id |> <| AlertThreshold_CreatedAt := now |>
             <| AlertThreshold_UpdatedAt := now |> in
  modify (<[id := t]>) ;;
  mret t.

Definition threshold_GetByID (id : string) : go ThresholdStore AlertThreshold :=
  m ← get;
  match m !! id with Some t => mret t | None => fail ErrThresholdNotFound end.

Definition on_resource (resType resID : string) (t : AlertThreshold) : Prop :=
  AlertThreshold_ResourceType t = resType ∧ (resID = "" ∨ AlertThreshold_ResourceID t = resID).
#[export] Instance on_resource_dec resType resID t : Decision (on_resource resType resID t).
Proof. unfold on_resource. apply _. Defined.

Definition ListByResource (resType resID : string) : go ThresholdStore (list AlertThreshold) :=
  m ← get; list_in m (on_resource resType resID).

Definition ListAll : go ThresholdStore (list AlertThreshold) :=
  m ← get; list_in m (λ _, True).

Definition threshold_Update (t : AlertThreshold) : go ThresholdStore AlertThreshold :=
  threshold_GetByID (AlertThreshold_ID t) ;;
  now ← time_Now;
  let t := t <| AlertThreshold_UpdatedAt := now |> in
  modify (<[AlertThreshold_ID t := t]>) ;;
  mret t.

Definition threshold_Delete (id : string) : go ThresholdStore () :=
  threshold_GetByID id ;; modify (delete id).

Definition alert_Create (e : AlertEvent) : go AlertStore AlertEvent :=
  id ← uuid_if_empty (AlertEvent_ID e);
  triggered ← (if decide (IsZero (AlertEvent_TriggeredAt e)) then time_Now
               else mret (AlertEvent_TriggeredAt e));
  let e := e <| AlertEvent_ID := id |> <| AlertEvent_TriggeredAt := triggered |> in
  modify (<[id := e]>) ;;
  mret e.

Definition alert_GetByID (id : string) : go AlertStore AlertEvent :=
  m ← get;
  match m !! id with Some e => mret e | None => fail ErrAlertEventNotFound end.

Definition alert_matches (resType resID : string) (state : option AlertState) (e : AlertEvent) : Prop :=
  (resType = "" ∨ AlertEvent_ResourceType e = resType) ∧
  (resID = "" ∨ AlertEvent_ResourceID e = resID) ∧
  (state = None ∨ state = Some (AlertEvent_State e)).
#[export] Instance alert_matches_dec resType resID state e : Decision (alert_matches resType resID state e).
Proof. unfold alert_matches. apply _. Defined.

Definition alert_List (resType resID : string) (state : option AlertState) :
    go AlertStore (list AlertEvent) :=
  m ← get; list_in m (alert_matches resType resID state).

Definition alert_Update (e : AlertEvent) : go AlertStore () :=
  alert_GetByID (AlertEvent_ID e) ;; modify (<[AlertEvent_ID e := e]>).

(** ** The service *)

Record MonitoringEnv : Type := mkMonitoringEnv {
  MonitoringEnv_metrics : RingBuffer;
  MonitoringEnv_thresholds : ThresholdStore;
  MonitoringEnv_alerts : AlertStore;
  MonitoringEnv_instances : MemoryInstanceStore;
  MonitoringEnv_nodes : MemoryNodeStore
}.

Definition eta_MonitoringEnv (r : MonitoringEnv) : MonitoringEnv :=
  mkMonitoringEnv (MonitoringEnv_metrics r) (MonitoringEnv_thresholds r)
    (MonitoringEnv_alerts r) (MonitoringEnv_instances r) (MonitoringEnv_nodes r).
#[export] Instance set_MonitoringEnv_metrics : Setter MonitoringEnv_metrics := ltac:(setter eta_MonitoringEnv MonitoringEnv_metrics).
#[export] Instance set_MonitoringEnv_thresholds : Setter MonitoringEnv_thresholds := ltac:(setter eta_MonitoringEnv MonitoringEnv_thresholds).
#[export] Instance set_MonitoringEnv_alerts : Setter MonitoringEnv_alerts := ltac:(setter eta_MonitoringEnv MonitoringEnv_alerts).
#[export] Instance set_MonitoringEnv_instances : Setter MonitoringEnv_instances := ltac:(setter eta_MonitoringEnv MonitoringEnv_instances).
#[export] Instance set_MonitoringEnv_nodes : Setter MonitoringEnv_nodes := ltac:(setter eta_MonitoringEnv MonitoringEnv_nodes).

Record CreateThresholdRequest := mkCreateThresholdRequest {
  CreateThresholdRequest_ResourceType : string;
  CreateThresholdRequest_ResourceID : string;
  CreateThresholdRequest_MetricName : string;
  CreateThresholdRequest_Operator : string;
  CreateThresholdRequest_ThresholdValue : float64;
  CreateThresholdRequest_DurationSeconds : Z;
  CreateThresholdRequest_Severity : string;
  CreateThresholdRequest_Enabled : bool
}.

Definition on_metrics {X} (m : go RingBuffer X) : go MonitoringEnv X :=
  zoom MonitoringEnv_metrics (λ x s, s <| MonitoringEnv_metrics := x |>) m.
Definition on_thresholds {X} (m : go ThresholdStore X) : go MonitoringEnv X :=
  zoom MonitoringEnv_thresholds (λ x s, s <| MonitoringEnv_thresholds := x |>) m.
Definition on_alerts {X} (m : go AlertStore X) : go MonitoringEnv X :=
  zoom MonitoringEnv_alerts (λ x s, s <| MonitoringEnv_alerts := x |>) m.

(** [rb.PushBatch(samples)]: a panic of the buffer is a panic here. *)
Definition InsertSamples (samples : list (option MetricSample)) : go RingBuffer () :=
  rb ← get; rb ← lift (PushBatch rb samples); put rb.

Definition exceeded_text (t : AlertThreshold) (value : float64) : string :=
  "Threshold exceeded on " +:+ AlertThreshold_ResourceType t +:+ " " +:+ AlertThreshold_ResourceID t +:+
  ": " +:+ AlertThreshold_MetricName t +:+ " is " +:+ fmt_f 2 value +:+ " (operator: " +:+
  AlertThreshold_Operator t +:+ " " +:+ fmt_f 2 (AlertThreshold_ThresholdValue t) +:+ ")".

(** The alert of a sample, at a time. *)
Definition firing_alert (t : AlertThreshold) (value : float64) (now : Z) : AlertEvent :=
  mkAlertEvent "" (AlertThreshold_ID t) (AlertThreshold_ResourceType t) (AlertThreshold_ResourceID t)
    value (AlertThreshold_Severity t) (exceeded_text t value) AlertStateFiring now None.

Definition fires (s : MetricSample) (t : AlertThreshold) : Prop :=
  AlertThreshold_MetricName t = MetricSample_MetricName s ∧ Evaluate t (MetricSample_Value s) = true.
#[export] Instance fires_dec s t : Decision (fires s t).
Proof. unfold fires. apply _. Defined.

Fixpoint check_thresholds (s : MetricSample) (ts : list AlertThreshold) : go MonitoringEnv () :=
  match ts with
  | [] => mret ()
  | t :: ts =>
      (if decide (fires s t) then
         now ← time_Now;
         ignore (on_alerts (alert_Create (firing_alert t (MetricSample_Value s) now)))
       else mret ()) ;;
      check_thresholds s ts
  end.

Fixpoint evaluate_samples (samples : list (option MetricSample)) : go MonitoringEnv () :=
  match samples with
  | [] => mret ()
  | None :: samples => evaluate_samples samples
  | Some s :: samples =>
      ts ← try (on_thresholds (ListByResource (MetricSample_ResourceType s) (MetricSample_ResourceID s)));
      match ts with
      | Ok ts => check_thresholds s ts
      | Err _ => mret ()
      end ;;
      evaluate_samples samples
  end.

Definition IngestMetrics (samples : list (option MetricSample)) : go MonitoringEnv () :=
  match samples with
  | [] => mret ()
  | _ => on_metrics (InsertSamples samples) ;; evaluate_samples samples
  end.

Section service.
Context {A : Type} `{!AuditRepository A} (auth : Authorizer) (has_audit : bool).
Abbreviation env := (MonitoringEnv * A)%type.

Definition log_monitoring (sub : option Subject) (action resourceID : string) (det : option Details) :
    go env () :=
  if has_audit then
    let actor := match sub with
                 | Some s => if decide (Subject_UserID s = "") then None else Some (Subject_UserID s)
                 | None => None
                 end in
    let rid := if decide (resourceID = "") then None else Some resourceID in
    audit_event actor action "" rid det
  else mret ().

(** The series of each metric, in the order asked; the same name twice is one
    entry of the map. The loop of the buffer runs with [fuel]. *)
Fixpoint query_all (fuel : nat) (resType resID : string) (from to step : Z) (names : list string) :
    go RingBuffer (gmap string (option TimeSeries)) :=
  match names with
  | [] => mret ∅
  | name :: names =>
      rb ← get;
      ts ← lift (QueryRange resType resID name from to fuel rb step);
      rest ← query_all fuel resType resID from to step names;
      mret (<[name := ts]> rest)
  end.

Definition QueryInstanceMetrics (fuel : nat) (sub : option Subject) (instanceID : string)
    (metricNames : list string) (from to step : Z) : go env (gmap string (option TimeSeries)) :=
  inst ← on_store (zoom MonitoringEnv_instances (λ x s, s <| MonitoringEnv_instances := x |>)
                     (InstanceGetByID instanceID));
  authorize auth sub "instance:read" (Some (Instance_Resource inst)) ;;
  let names := match metricNames with
               | [] => ["cpu_percent"; "memory_used_bytes"; "disk_used_bytes"; "net_rx_bytes"; "net_tx_bytes"]
               | names => names
               end in
  on_store (on_metrics (query_all fuel ResourceTypeInstance instanceID from to step names)).

Definition QueryNodeMetrics (fuel : nat) (sub : option Subject) (nodeID : string)
    (metricNames : list string) (from to step : Z) : go env (gmap string (option TimeSeries)) :=
  node ← on_store (zoom MonitoringEnv_nodes (λ x s, s <| MonitoringEnv_nodes := x |>)
                     (NodeGetByID nodeID));
  authorize auth sub "node:read" (Some (Node_Resource node)) ;;
  let names := match metricNames with
               | [] => ["cpu_percent"; "memory_used_bytes"; "disk_used_bytes"; "load_1m"; "load_5m"; "load_15m"]
               | names => names
               end in
  on_store (on_metrics (query_all fuel ResourceTypeNode nodeID from to step names)).

Definition CreateThreshold (sub : option Subject) (req : CreateThresholdRequest) : go env AlertThreshold :=
  guard_err (CreateThresholdRequest_ResourceID req = "" ∨ CreateThresholdRequest_MetricName req = "" ∨
             CreateThresholdRequest_Operator req = "") ErrInvalidThresholdSpec ;;
  authorize auth sub "monitoring:manage" None ;;
  let sev := or_default SeverityWarning (CreateThresholdRequest_Severity req) in
  let dur := if decide (CreateThresholdRequest_DurationSeconds req ≤ 0) then 60
             else CreateThresholdRequest_DurationSeconds req in
  userID ← caller_id sub;
  created ← time_Now;
  updated ← time_Now;
  t ← on_store (on_thresholds (threshold_Create
    (mkAlertThreshold "" userID (CreateThresholdRequest_ResourceType req)
       (CreateThresholdRequest_ResourceID req) (CreateThresholdRequest_MetricName req)
       (CreateThresholdRequest_Operator req) (CreateThresholdRequest_ThresholdValue req) dur sev true
       created updated)));
  log_monitoring sub "alert_threshold:create" (AlertThreshold_ID t)
    (Some (details [("resourceType", AnyStr (AlertThreshold_ResourceType t));
                    ("resourceId", AnyStr (AlertThreshold_ResourceID t));
                    ("metricName", AnyStr (AlertThreshold_MetricName t));
                    ("thresholdValue", AnyFloat (AlertThreshold_ThresholdValue t))])) ;;
  mret t.

Definition ListThresholds (sub : option Subject) (resType resID : string) :
    go env (list AlertThreshold) :=
  authorize auth sub "monitoring:read" None ;;
  on_store (on_thresholds (if decide (resType = "") then ListAll else ListByResource resType resID)).

Definition ListAlertEvents (sub : option Subject) (resType resID : string) (state : option AlertState) :
    go env (list AlertEvent) :=
  authorize auth sub "monitoring:read" None ;;
  on_store (on_alerts (alert_List resType resID state)).

Definition AcknowledgeAlert (sub : option Subject) (id : string) : go env AlertEvent :=
  authorize auth sub "monitoring:manage" None ;;
  e ← on_store (on_alerts (alert_GetByID id));
  let e := e <| AlertEvent_State := AlertStateAcknowledged |> in
  on_store (on_alerts (alert_Update e)) ;;
  log_monitoring sub "alert_event:acknowledge" (AlertEvent_ID e) None ;;
  mret e.

Definition ResolveAlert (sub : option Subject) (id : string) : go env AlertEvent :=
  authorize auth sub "monitoring:manage" None ;;
  e ← on_store (on_alerts (alert_GetByID id));
  now ← time_Now;
  let e := e <| AlertEvent_State := AlertStateResolved |> <| AlertEvent_ResolvedAt := Some now |> in
  on_store (on_alerts (alert_Update e)) ;;
  log_monitoring sub "alert_event:resolve" (AlertEvent_ID e) None ;;
  mret e.
End service.

(** ** One alert for each exceeded threshold *)

(** The alert without what the repository gives it. *)
Definition blank (e : AlertEvent) : AlertEvent :=
  e <| AlertEvent_ID := "" |> <| AlertEvent_TriggeredAt := 0 |>.

(** What a sample should open, over all thresholds there are. *)
Definition watched (s : MetricSample) (t : AlertThreshold) : Prop :=
  on_resource (MetricSample_ResourceType s) (MetricSample_ResourceID s) t ∧ fires s t.
#[export] Instance watched_dec s t : Decision (watched s t).
Proof. unfold watched. apply _. Defined.
Definition expected (ths : ThresholdStore) (samples : list (option MetricSample)) : list AlertEvent :=
  omap id samples ≫= λ s,
    (λ t, firing_alert t (MetricSample_Value s) 0) <$> filter (watched s) (map_to_list ths).*2.

(** The same from the outside, in terms of the order of the numbers (IEEE:
    nothing compares with NaN) and of the records alone. *)
Definition crossed (op : string) (c : comparison) : Prop :=
  match c with
  | Gt => op ∈ ["gt"; "gte"]
  | Eq => op ∈ ["gte"; "lte"; "eq"]
  | Lt => op ∈ ["lt"; "lte"]
  end.
Definition due (s : MetricSample) (t : AlertThreshold) : Prop :=
  AlertThreshold_Enabled t = true ∧
  AlertThreshold_ResourceType t = MetricSample_ResourceType s ∧
  (MetricSample_ResourceID s = "" ∨ AlertThreshold_ResourceID t = MetricSample_ResourceID s) ∧
  AlertThreshold_MetricName t = MetricSample_MetricName s ∧
  match SFcompare (MetricSample_Value s) (AlertThreshold_ThresholdValue t) with
  | Some c => crossed (AlertThreshold_Operator t) c
  | None => False
  end.
#[export] Instance crossed_dec op c : Decision (crossed op c).
Proof. unfold crossed. case_match; apply _. Defined.
#[export] Instance due_dec s t : Decision (due s t).
Proof. unfold due. repeat apply and_dec; try apply _. case_match; apply _. Defined.

Definition due_alerts (ths : ThresholdStore) (samples : list (option MetricSample)) : list AlertEvent :=
  omap id samples ≫= λ s,
    (λ t, mkAlertEvent "" (AlertThreshold_ID t) (AlertThreshold_ResourceType t)
            (AlertThreshold_ResourceID t) (MetricSample_Value s) (AlertThreshold_Severity t)
            (exceeded_text t (MetricSample_Value s)) AlertStateFiring 0 None)
      <$> filter (due s) (map_to_list ths).*2.

Lemma SFcompare_swap x y : SFcompare y x = CompOpp <$> SFcompare x y.
Proof.
  destruct x as [[]|[]| |[] m e], y as [[]|[]| |[] m' e']; try done; cbn; f_equal;
    rewrite (Z.compare_antisym e e'); destruct (Z.compare e e'); try done; cbn;
    change (Pos.compare_cont Eq) with Pos.compare; rewrite (Pos.compare_antisym m m');
    by destruct (Pos.compare m m').
Qed.

Lemma Evaluate_spec t x : Evaluate t x = true ↔ AlertThreshold_Enabled t = true ∧
  match SFcompare x (AlertThreshold_ThresholdValue t) with
  | Some c => crossed (AlertThreshold_Operator t) c
  | None => False
  end.
Proof.
  unfold Evaluate. destruct (AlertThreshold_Enabled t); [|naive_solver]. cbv zeta.
  set (v := AlertThreshold_ThresholdValue t). set (op := AlertThreshold_Operator t).
  unfold fgt, fge, flt, fle, feq, SFltb, SFleb, SFeqb. rewrite (SFcompare_swap x v).
  destruct (SFcompare x v) as [[]|]; cbn; rewrite ?elem_of_cons, ?elem_of_nil;
    repeat case_decide; naive_solver congruence.
Qed.

Lemma watched_due s t : watched s t ↔ due s t.
Proof. unfold watched, on_resource, fires, due. rewrite Evaluate_spec. tauto. Qed.

Lemma expected_due ths samples : expected ths samples = due_alerts ths samples.
Proof.
  unfold expected, due_alerts. induction (omap id samples) as [|s l IH]; [done|].
  rewrite !bind_cons, IH. f_equal. erewrite list_filter_iff; [done|]. apply watched_due.
Qed.

(** [m'] is [m] with the alerts [l] on top, and nothing else. *)
Definition opened (m m' : AlertStore) (l : list AlertEvent) : Prop :=
  ∃ new, (map_to_list m').*2 ≡ₚ new ++ (map_to_list m).*2 ∧ blank <$> new ≡ₚ l ∧
         m ⊆ m' ∧ Forall (λ e, AlertEvent_State e = AlertStateFiring) new.

(** The generator does not repeat itself, nor an identifier on file. *)
Definition fresh_uuids (w : World) (m : AlertStore) : Prop :=
  ∀ i, (w_uuids w ≤ i)%nat → w_uuid w i ≠ "" ∧ m !! w_uuid w i = None ∧
       ∀ j, (i < j)%nat → w_uuid w i ≠ w_uuid w j.

Lemma opened_refl m : opened m m [].
Proof. exists []. split_and!; [done..|constructor]. Qed.

Lemma opened_trans m1 m2 m3 l1 l2 : opened m1 m2 l1 → opened m2 m3 l2 → opened m1 m3 (l1 ++ l2).
Proof.
  intros (n1 & Hp1 & Hl1 & Hs1 & Hf1) (n2 & Hp2 & Hl2 & Hs2 & Hf2). exists (n2 ++ n1). split_and!.
  - rewrite Hp2, Hp1. by rewrite app_assoc.
  - rewrite fmap_app, Hl1, Hl2. apply Permutation_app_comm.
  - by etrans.
  - by apply Forall_app; split.
Qed.

Lemma fresh_uuids_later w w' m : w_uuid w' = w_uuid w → (w_uuids w ≤ w_uuids w')%nat →
  fresh_uuids w m → fresh_uuids w' m.
Proof. intros Hu Hle Hf i Hi. rewrite Hu. apply Hf. lia. Qed.

(** What the loops change: alerts are opened, readings are taken. *)
Definition opens (w : World) (s : MonitoringEnv) (l : list AlertEvent) (w' : World) (s' : MonitoringEnv) : Prop :=
  opened (MonitoringEnv_alerts s) (MonitoringEnv_alerts s') l ∧
  MonitoringEnv_thresholds s' = MonitoringEnv_thresholds s ∧
  MonitoringEnv_metrics s' = MonitoringEnv_metrics s ∧
  (World_ok w → World_ok w') ∧ fresh_uuids w' (MonitoringEnv_alerts s').

Lemma opens_refl w s : fresh_uuids w (MonitoringEnv_alerts s) → opens w s [] w s.
Proof. intros Hf. unfold opens. split_and!; [apply opened_refl|done..]. Qed.

Lemma opens_trans w1 s1 l1 w2 s2 l2 w3 s3 :
  opens w1 s1 l1 w2 s2 → opens w2 s2 l2 w3 s3 → opens w1 s1 (l1 ++ l2) w3 s3.
Proof.
  intros (Ho1 & Ht1 & Hm1 & Hw1 & Hf1) (Ho2 & Ht2 & Hm2 & Hw2 & Hf2). unfold opens.
  split_and!; [eapply opened_trans; [exact Ho1|exact Ho2]|congruence|congruence|auto|done].
Qed.

(** One alert is filed under a new identifier. *)
Lemma wp_open_alert smp t (Q : result () → MonitoringEnv → World → Prop) w s :
  fresh_uuids w (MonitoringEnv_alerts s) →
  (∀ w' s', opens w s [firing_alert t (MetricSample_Value smp) 0] w' s' → Q (Ok ()) s' w') →
  wp (now ← time_Now;
      ignore (on_alerts (alert_Create (firing_alert t (MetricSample_Value smp) now)))) Q w s.
Proof.
  intros Hf HQ. rewrite wp_bind, wp_now, wp_ignore. unfold on_alerts. rewrite wp_zoom.
  unfold alert_Create, uuid_if_empty. cbn [AlertEvent_ID firing_alert].
  rewrite (decide_True (P := "" = "")) by done.
  rewrite wp_bind, wp_uuid, wp_bind. set (m := MonitoringEnv_alerts s) in *.
  destruct (Hf (w_uuids w) ltac:(lia)) as (Hne & Hnew & Hinj). cbn [tick w_uuids w_uuid] in *.
  assert (Hopen : ∀ w2 e, blank e = firing_alert t (MetricSample_Value smp) 0 →
    AlertEvent_State e = AlertStateFiring → w_uuid w2 = w_uuid w → w_uuids w2 = S (w_uuids w) →
    (World_ok w → World_ok w2) →
    opens w s [firing_alert t (MetricSample_Value smp) 0] w2
      (s <| MonitoringEnv_alerts := <[w_uuid w (w_uuids w) := e]> m |>)).
  { intros w2 e He Hfiring Hu2 Hc2 Hw2. unfold opens. cbn. split_and!; [|done..|].
    - exists [e]. split_and!.
      + by rewrite map_to_list_insert.
      + cbn. by rewrite He.
      + by apply insert_subseteq.
      + by repeat constructor.
    - intros i Hi. rewrite Hu2 in *. rewrite Hc2 in Hi.
      destruct (Hf i ltac:(lia)) as (Hni & Hmi & Hji). split_and!; [done| |done].
      rewrite lookup_insert_ne; [done|]. apply Hinj. lia. }
  case_decide.
  - rewrite wp_now, wp_bind, wp_modify, wp_ret. apply HQ. by apply Hopen.
  - rewrite wp_ret, wp_bind, wp_modify, wp_ret. apply HQ. by apply Hopen.
Qed.

Lemma wp_check_thresholds smp ts : ∀ (Q : result () → MonitoringEnv → World → Prop) w s,
  fresh_uuids w (MonitoringEnv_alerts s) →
  (∀ w' s', opens w s ((λ t, firing_alert t (MetricSample_Value smp) 0) <$> filter (fires smp) ts) w' s' →
     Q (Ok ()) s' w') →
  wp (check_thresholds smp ts) Q w s.
Proof.
  induction ts as [|t ts IH]; intros Q w s Hf HQ; cbn [check_thresholds].
  { rewrite wp_ret. by apply HQ, opens_refl. }
  rewrite wp_bind. rewrite filter_cons in HQ. case_decide as Hfires.
  - apply wp_open_alert; [done|]. intros w1 s1 H1. apply IH; [by destruct H1 as (?&?&?&?&?)|].
    intros w2 s2 H2. apply HQ. exact (opens_trans _ _ [_] _ _ _ _ _ H1 H2).
  - rewrite wp_ret. by apply IH.
Qed.

Lemma opens_perm w s l l' w' s' : l ≡ₚ l' → opens w s l w' s' → opens w s l' w' s'.
Proof.
  intros Hl ((new & Hp & Hb & Hs & Hf) & Hrest). split; [|done]. exists new. by rewrite <-Hl.
Qed.

(** The thresholds of the resource that fire are the watched ones. *)
Lemma filter_watched smp (ths : list AlertThreshold) :
  filter (fires smp) (filter (on_resource (MetricSample_ResourceType smp) (MetricSample_ResourceID smp)) ths) =
  filter (watched smp) ths.
Proof.
  rewrite list_filter_filter. apply list_filter_iff. intros t. unfold watched. tauto.
Qed.

Lemma wp_evaluate_samples ss : ∀ (Q : result () → MonitoringEnv → World → Prop) w s,
  World_ok w → fresh_uuids w (MonitoringEnv_alerts s) →
  (∀ w' s', opens w s (expected (MonitoringEnv_thresholds s) ss) w' s' → Q (Ok ()) s' w') →
  wp (evaluate_samples ss) Q w s.
Proof.
  induction ss as [|[smp|] ss IH]; intros Q w s Hw Hf HQ; cbn [evaluate_samples].
  { rewrite wp_ret. by apply HQ, opens_refl. }
  2:{ by apply IH. }
  rewrite wp_bind, wp_try. unfold on_thresholds. rewrite wp_zoom. unfold ListByResource, list_in.
  rewrite wp_bind, wp_get, wp_bind, wp_range, wp_ret, wp_bind.
  replace (s <| MonitoringEnv_thresholds := MonitoringEnv_thresholds s |>) with s by by destruct s.
  apply wp_check_thresholds; [done|]. intros w1 s1 H1.
  pose proof H1 as (_ & Hths & _ & Hok1 & Hf1). apply IH; [by apply Hok1|done|].
  intros w2 s2 H2. apply HQ. rewrite Hths in H2. unfold expected. cbn [omap list_omap id].
  rewrite bind_cons. apply (opens_trans _ _ _ w1 s1); [|exact H2].
  eapply opens_perm; [|exact H1]. apply fmap_Permutation. rewrite <-filter_watched.
  apply filter_Permutation, filter_Permutation, fmap_Permutation, entries_perm, Hw.
Qed.

(** C33 Ingested samples open exactly the alerts they should: the samples go
    into the ring buffer, and the alerts on file afterwards are the earlier
    ones, unchanged, and one firing alert, with the sample's value and the
    threshold's identifier, resource and severity, for each sample and each
    enabled threshold on its resource and metric whose operator holds between
    the two numbers, whatever the iteration order. *)
Theorem IngestMetrics_spec (samples : list (option MetricSample)) (w : World) (s : MonitoringEnv)
    (rb : RingBuffer) :
  World_ok w → fresh_uuids w (MonitoringEnv_alerts s) →
  PushBatch (MonitoringEnv_metrics s) samples = Ok rb →
  let s' := exec (IngestMetrics samples) w s in
  answer (IngestMetrics samples) w s = Ok () ∧
  MonitoringEnv_metrics s' = rb ∧ MonitoringEnv_thresholds s' = MonitoringEnv_thresholds s ∧
  opened (MonitoringEnv_alerts s) (MonitoringEnv_alerts s') (due_alerts (MonitoringEnv_thresholds s) samples).
Proof.
  intros Hw Hf Hrb. rewrite <-expected_due.
  apply (proj1 (wp_elim (IngestMetrics samples) (λ r s' _, r = Ok () ∧
    MonitoringEnv_metrics s' = rb ∧ MonitoringEnv_thresholds s' = MonitoringEnv_thresholds s ∧
    opened (MonitoringEnv_alerts s) (MonitoringEnv_alerts s') (expected (MonitoringEnv_thresholds s) samples)) w s)).
  unfold IngestMetrics. destruct samples as [|smp samples].
  { rewrite wp_ret. cbn in Hrb. injection Hrb as <-. split_and!; [done..|]. apply opened_refl. }
  rewrite wp_bind. unfold on_metrics. rewrite wp_zoom. unfold InsertSamples.
  rewrite wp_bind, wp_get, wp_bind, wp_lift, Hrb, wp_put.
  apply wp_evaluate_samples; [done|done|]. intros w' s' (Ho & Ht & Hm & _). by split_and!.
Qed.

(** ** A node under load *)

Section demo.

Definition hot : AlertThreshold :=
  mkAlertThreshold "t-1" "u-1" "node" "n-1" "cpu_percent" "gt" (of_int 80) 300 "critical" true 0 0.
Definition load_sample (v : Z) : option MetricSample :=
  Some (mkMetricSample "node" "n-1" "cpu_percent" (of_int v) 7).
Definition quiet_site : MonitoringEnv :=
  mkMonitoringEnv (NewRingBuffer 4) {["t-1" := hot]} ∅ NewMemoryInstanceStore NewMemoryNodeStore.

Lemma calm_fresh t : fresh_uuids (calm t) ∅.
Proof.
  intros i _. cbn. split_and!; [done|by rewrite lookup_empty|].
  intros j Hij Heq. apply (inj (String.app "uuid-")), (inj pretty) in Heq. lia.
Qed.

Lemma IngestMetrics_spec_witness :
  ∃ s', answer (IngestMetrics [load_sample 95; None; load_sample 10]) (calm 9) quiet_site = Ok () ∧
    opened ∅ s' [firing_alert hot (of_int 95) 0].
Proof.
  destruct (IngestMetrics_spec [load_sample 95; None; load_sample 10] (calm 9) quiet_site
    (match PushBatch (NewRingBuffer 4) [load_sample 95; None; load_sample 10] with
     | Ok rb => rb | Err _ => NewRingBuffer 4 end)
    (calm_ok 9) (calm_fresh 9) ltac:(by vm_compute)) as (H1 & _ & _ & H2).
  eexists. split; [exact H1|].
  replace [firing_alert hot (of_int 95) 0]
    with (due_alerts (MonitoringEnv_thresholds quiet_site) [load_sample 95; None; load_sample 10])
    by by vm_compute.
  exact H2.
Defined.

(** The duration of a threshold is never looked at: three samples in a row are
    three alerts, although it asks for five minutes. *)
Lemma alert_storm :
  size (MonitoringEnv_alerts (exec (IngestMetrics [load_sample 95; load_sample 96; load_sample 97]) (calm 9)
    quiet_site)) = 3%nat.
Proof. by vm_compute. Qed.

#[local] Existing Instances tagging_digest MemoryAuditRepo.
Definition operator : Subject := mkSubject "user" "u-9" "u-9" "op" "" ["superadmin"] [] [] ∅.

(** A threshold asked for as disabled is created enabled. *)
Lemma disabled_threshold_enabled :
  (AlertThreshold_Enabled <$> match answer (CreateThreshold DynamicAuthorizer true (Some operator)
     (mkCreateThresholdRequest "node" "n-1" "cpu_percent" "gt" (of_int 80) 0 "" false)) (calm 3)
     (quiet_site, empty_audit) with Ok t => Some t | Err _ => None end) = Some true.
Proof. by vm_compute. Qed.

(** A resolved alert can be acknowledged: it leaves the resolved state and keeps
    the time of its resolution. *)
Lemma resolved_alert_acknowledged :
  let site := exec (IngestMetrics [load_sample 95]) (calm 9) quiet_site in
  let done := exec (ResolveAlert DynamicAuthorizer true (Some operator) "uuid-0") (calm 10) (site, empty_audit) in
  (λ e, (AlertEvent_State e, AlertEvent_ResolvedAt e)) <$>
    MonitoringEnv_alerts (exec (AcknowledgeAlert DynamicAuthorizer true (Some operator) "uuid-0") (calm 11) done).1
      !! "uuid-0" = Some (AlertStateAcknowledged, Some 10).
Proof. by vm_compute. Qed.
End demo.
