(* ===== verification/Console.v ===== *)
(** * Interactive consoles

    The console manager of the hub, [internal/app/console/manager.go], its
    way to a node ([SendToNode] of [internal/transport/grpc/gateway.go]), the
    console table of the agent ([handleConsoleMessage] of
    [internal/app/agent/client.go]), the terminal the agent serves
    ([internal/infra/incus/console_driver.go]) and the frames of
    [internal/transport/ws/console_handler.go]. The parts exchange messages
    over a stream per node, so the whole is a step relation: what a user types
    reaches only the terminal of an instance they were let into. *)

From S2P Require Import Prelude Identity AuditTrail Node Instances.

Definition ErrSessionNotFound := ErrNew "console" "console session not found".
Definition ErrInstanceNotRunning :=
  ErrNew "console" "cannot attach console to instance that is not running".

Definition ConsoleTypeExec : string := "exec".
Definition ConsoleTypeVNC : string := "vnc".

(** ** Messages and sessions *)

Inductive ConsoleMessageType : Type :=
  | TYPE_UNSPECIFIED
  | TYPE_START
  | TYPE_DATA
  | TYPE_RESIZE
  | TYPE_CLOSE.
#[export] Instance ConsoleMessageType_eq_dec : EqDecision ConsoleMessageType.
Proof. solve_decision. Defined.

Record ConsoleSessionMessage : Type := mkConsoleSessionMessage {
  ConsoleSessionMessage_SessionId : string;
  ConsoleSessionMessage_InstanceId : string;
  ConsoleSessionMessage_InstanceName : string;
  ConsoleSessionMessage_Type_ : ConsoleMessageType;
  ConsoleSessionMessage_Command : string;
  ConsoleSessionMessage_Cols : Z;
  ConsoleSessionMessage_Rows : Z;
  ConsoleSessionMessage_Env : list (string * string);
  ConsoleSessionMessage_Data : string;
  ConsoleSessionMessage_CloseReason : string
}.
#[export] Instance ConsoleSessionMessage_eq_dec : EqDecision ConsoleSessionMessage.
Proof. solve_decision. Defined.

(** [Outbound] is never used; the channels hold 128 messages. *)
Record SessionPipe : Type := mkSessionPipe {
  SessionPipe_SessionID : string;
  SessionPipe_NodeID : string;
  SessionPipe_InstanceID : string;
  SessionPipe_UserID : string;
  SessionPipe_SessionType : string;
  SessionPipe_Inbound : list ConsoleSessionMessage;
  SessionPipe_Closed : bool
}.
#[export] Instance SessionPipe_eq_dec : EqDecision SessionPipe.
Proof. solve_decision. Defined.

Definition eta_SessionPipe (r : SessionPipe) : SessionPipe :=
  mkSessionPipe (SessionPipe_SessionID r) (SessionPipe_NodeID r)
    (SessionPipe_InstanceID r) (SessionPipe_UserID r) (SessionPipe_SessionType r)
    (SessionPipe_Inbound r) (SessionPipe_Closed r).
#[export] Instance set_SessionPipe_Inbound : Setter SessionPipe_Inbound := ltac:(setter eta_SessionPipe SessionPipe_Inbound).
#[export] Instance set_SessionPipe_Closed : Setter SessionPipe_Closed := ltac:(setter eta_SessionPipe SessionPipe_Closed).

Definition pipe_capacity : nat := 128.

Definition NewSessionPipe (sessionID nodeID instanceID userID sessionType : string) : SessionPipe :=
  mkSessionPipe sessionID nodeID instanceID userID sessionType [] false.

(** [p.once.Do(close(p.CloseChan))]. *)
Definition pipe_Close (p : SessionPipe) : SessionPipe := p <| SessionPipe_Closed := true |>.

(** ** The hub

    Pipes are shared by pointer between the table and the handlers of the
    sockets: [sessions] holds indices into [pipes]. [connected] are the
    streams of the nodes, [wires] what is on its way on each of them. *)

Record Manager : Type := mkManager {
  Manager_sessions : gmap string nat;
  Manager_pipes : list SessionPipe;
  Manager_instances : MemoryInstanceStore;
  Manager_connected : gmap string string;
  Manager_wires : gmap string (list ConsoleSessionMessage)
}.

Definition eta_Manager (r : Manager) : Manager :=
  mkManager (Manager_sessions r) (Manager_pipes r) (Manager_instances r)
    (Manager_connected r) (Manager_wires r).
#[export] Instance set_Manager_sessions : Setter Manager_sessions := ltac:(setter eta_Manager Manager_sessions).
#[export] Instance set_Manager_pipes : Setter Manager_pipes := ltac:(setter eta_Manager Manager_pipes).
#[export] Instance set_Manager_instances : Setter Manager_instances := ltac:(setter eta_Manager Manager_instances).
#[export] Instance set_Manager_connected : Setter Manager_connected := ltac:(setter eta_Manager Manager_connected).
#[export] Instance set_Manager_wires : Setter Manager_wires := ltac:(setter eta_Manager Manager_wires).

Definition NewManager (instances : MemoryInstanceStore) : Manager :=
  mkManager ∅ [] instances ∅ ∅.

(** The send on the stream a node opened. *)
Class ConsoleStream := stream_SendRaw : World → string → ConsoleSessionMessage → result ().

Definition wire (m : Manager) (nodeID : string) : list ConsoleSessionMessage :=
  default [] (Manager_wires m !! nodeID).

Definition int32 (z : Z) : Z := (z + 2 ^ 31) mod 2 ^ 32 - 2 ^ 31.

Section hub.
Context {A : Type} `{!AuditRepository A, !ConsoleStream}.
Context (auth : Authorizer) (has_audit has_send : bool).
Abbreviation env := (Manager * A)%type.

(** [gatewayServer.SendToNode]. *)
Definition SendToNode (nodeID : string) (msg : ConsoleSessionMessage) : go Manager () :=
  m ← get;
  match Manager_connected m !! nodeID with
  | None => fail ErrNodeOffline
  | Some sender =>
      sent ← reading (λ w, stream_SendRaw w sender msg);
      lift sent ;;
      modify (λ m, m <| Manager_wires := <[nodeID := wire m nodeID ++ [msg]]> (Manager_wires m) |>)
  end.

Definition sendToNode (nodeID : string) (msg : ConsoleSessionMessage) : go Manager () :=
  if has_send then SendToNode nodeID msg else mret ().

Definition start_message (sid instanceID name command : string) (cols rows : Z) : ConsoleSessionMessage :=
  mkConsoleSessionMessage sid instanceID name TYPE_START command (int32 cols) (int32 rows)
    [("TERM", "xterm-256color")] "" "".
Definition data_message (p : SessionPipe) (sid data : string) : ConsoleSessionMessage :=
  mkConsoleSessionMessage sid (SessionPipe_InstanceID p) "" TYPE_DATA "" 0 0 [] data "".
Definition resize_message (p : SessionPipe) (sid : string) (cols rows : Z) : ConsoleSessionMessage :=
  mkConsoleSessionMessage sid (SessionPipe_InstanceID p) "" TYPE_RESIZE "" (int32 cols) (int32 rows) [] "" "".
Definition close_message (p : SessionPipe) (sid : string) : ConsoleSessionMessage :=
  mkConsoleSessionMessage sid (SessionPipe_InstanceID p) "" TYPE_CLOSE "" 0 0 [] "" "client_disconnected".

Definition log_console (sub : option Subject) (action resourceID : string) (det : Details) : go env () :=
  if has_audit then
    let actor := match sub with
                 | Some s => if decide (Subject_UserID s = "") then None else Some (Subject_UserID s)
                 | None => None
                 end in
    let rid := if decide (resourceID = "") then None else Some resourceID in
    audit_event actor action "" rid (Some det)
  else mret ().

(** A pipe from the table, under the read lock. *)
Definition find_session (sid : string) : go Manager (option SessionPipe) :=
  m ← get;
  mret (Manager_sessions m !! sid ≫= λ p, Manager_pipes m !! p).

Definition set_pipe (p : nat) (f : SessionPipe → SessionPipe) : go Manager () :=
  modify (λ m, m <| Manager_pipes := alter f p (Manager_pipes m) |>).

(** What follows the removal from the table: the pipe is closed and the node
    is told; the error of the send is dropped. *)
Definition finish_session (p : nat) (sid : string) : go Manager () :=
  set_pipe p pipe_Close ;;
  m ← get;
  match Manager_pipes m !! p with
  | Some pipe => ignore (sendToNode (SessionPipe_NodeID pipe) (close_message pipe sid))
  | None => mret ()
  end.

Definition CloseSession (sid : string) : go Manager () :=
  m ← get;
  put (m <| Manager_sessions := delete sid (Manager_sessions m) |>) ;;
  match Manager_sessions m !! sid with
  | Some p => finish_session p sid
  | None => mret ()
  end.

(** The pipe joins the table. *)
Definition register (sid : string) (pipe : SessionPipe) : go Manager () :=
  modify (λ m, m <| Manager_sessions := <[sid := length (Manager_pipes m)]> (Manager_sessions m) |>
                 <| Manager_pipes := Manager_pipes m ++ [pipe] |>).

Definition read_instance (instanceID : string) : go Manager Instance_ :=
  zoom Manager_instances (λ i m, m <| Manager_instances := i |>) (InstanceGetByID instanceID).

Definition StartSession (sub : option Subject) (instanceID sessionType command : string)
    (cols rows : Z) : go env SessionPipe :=
  inst ← on_store (read_instance instanceID);
  authorize auth sub "instance:console" (Some (Instance_Resource inst)) ;;
  guard_err (Instance__Status inst ≠ StatusRunning) ErrInstanceNotRunning ;;
  let command := or_default "/bin/bash" command in
  let cols := if decide (cols ≤ 0) then 80 else cols in
  let rows := if decide (rows ≤ 0) then 24 else rows in
  sid ← uuid_NewString;
  userID ← caller_id sub;
  let pipe := NewSessionPipe sid (Instance__NodeID inst) (Instance__ID inst) userID sessionType in
  on_store (register sid pipe) ;;
  sent ← try (on_store (sendToNode (Instance__NodeID inst)
           (start_message sid (Instance__ID inst) (Instance__Name inst) command cols rows)));
  match sent with
  | Err err => on_store (CloseSession sid) ;; fail err
  | Ok _ =>
      log_console sub "instance:console:open" (Instance__ID inst)
        (details [("sessionId", AnyStr sid); ("type", AnyStr sessionType); ("command", AnyStr command)]) ;;
      mret pipe
  end.

(** The [select] of [HandleNodeMessage] on a pipe: a closed pipe swallows the
    message, so does a full one; when both ways are open the runtime picks. *)
Definition deliver (p : nat) (msg : ConsoleSessionMessage) : go Manager () :=
  m ← get;
  match Manager_pipes m !! p with
  | None => mret ()
  | Some pipe =>
      let room := bool_decide (length (SessionPipe_Inbound pipe) < pipe_capacity)%nat in
      pick ← rand_53;
      if SessionPipe_Closed pipe && (negb room || Z.even pick) then mret ()
      else if room then set_pipe p (λ q, q <| SessionPipe_Inbound := SessionPipe_Inbound q ++ [msg] |>)
      else mret ()
  end.

Definition HandleNodeMessage (msg : option ConsoleSessionMessage) : go Manager () :=
  match msg with
  | None => mret ()
  | Some msg =>
      m ← get;
      match Manager_sessions m !! ConsoleSessionMessage_SessionId msg with
      | None => mret ()
      | Some p => deliver p msg
      end
  end.

Definition SendData (sid data : string) : go Manager () :=
  pipe ← find_session sid;
  match pipe with
  | None => fail ErrSessionNotFound
  | Some pipe => sendToNode (SessionPipe_NodeID pipe) (data_message pipe sid data)
  end.

Definition ResizeTerminal (sid : string) (cols rows : Z) : go Manager () :=
  pipe ← find_session sid;
  match pipe with
  | None => fail ErrSessionNotFound
  | Some pipe => sendToNode (SessionPipe_NodeID pipe) (resize_message pipe sid cols rows)
  end.
End hub.

(** ** The agent

    [activeConsoles] holds indices into the terminals ever started. A
    terminal keeps what it was started with, what was written to its input,
    the resize events that wait (16 at most), whether its context was
    cancelled and whether its driver has returned. *)

Record Terminal : Type := mkTerminal {
  Terminal_sessionID : string;
  Terminal_instanceID : string;
  Terminal_instanceName : string;
  Terminal_sessionType : string;
  Terminal_command : string;
  Terminal_env : list (string * string);
  Terminal_cols : Z;
  Terminal_rows : Z;
  Terminal_input : list string;
  Terminal_resizes : list (Z * Z);
  Terminal_cancelled : bool;
  Terminal_exited : bool
}.

Definition eta_Terminal (r : Terminal) : Terminal :=
  mkTerminal (Terminal_sessionID r) (Terminal_instanceID r) (Terminal_instanceName r)
    (Terminal_sessionType r) (Terminal_command r) (Terminal_env r) (Terminal_cols r)
    (Terminal_rows r) (Terminal_input r) (Terminal_resizes r) (Terminal_cancelled r)
    (Terminal_exited r).
#[export] Instance set_Terminal_input : Setter Terminal_input := ltac:(setter eta_Terminal Terminal_input).
#[export] Instance set_Terminal_resizes : Setter Terminal_resizes := ltac:(setter eta_Terminal Terminal_resizes).
#[export] Instance set_Terminal_cancelled : Setter Terminal_cancelled := ltac:(setter eta_Terminal Terminal_cancelled).
#[export] Instance set_Terminal_exited : Setter Terminal_exited := ltac:(setter eta_Terminal Terminal_exited).

Record AgentConsoles : Type := mkAgentConsoles {
  AgentConsoles_activeConsoles : gmap string nat;
  AgentConsoles_terminals : list Terminal
}.

Definition eta_AgentConsoles (r : AgentConsoles) : AgentConsoles :=
  mkAgentConsoles (AgentConsoles_activeConsoles r) (AgentConsoles_terminals r).
#[export] Instance set_AgentConsoles_activeConsoles : Setter AgentConsoles_activeConsoles := ltac:(setter eta_AgentConsoles AgentConsoles_activeConsoles).
#[export] Instance set_AgentConsoles_terminals : Setter AgentConsoles_terminals := ltac:(setter eta_AgentConsoles AgentConsoles_terminals).

Definition no_consoles : AgentConsoles := mkAgentConsoles ∅ [].
Definition resize_capacity : nat := 16.

Section agent.

Definition set_terminal (t : nat) (f : Terminal → Terminal) : go AgentConsoles () :=
  modify (λ d, d <| AgentConsoles_terminals := alter f t (AgentConsoles_terminals d) |>).

(** [s.cancel(); s.inWriter.Close(); delete(d.activeConsoles, id)]. *)
Definition drop_console (sid : string) : go AgentConsoles () :=
  d ← get;
  match AgentConsoles_activeConsoles d !! sid with
  | None => mret ()
  | Some t =>
      set_terminal t (λ s, s <| Terminal_cancelled := true |>) ;;
      modify (λ d, d <| AgentConsoles_activeConsoles := delete sid (AgentConsoles_activeConsoles d) |>)
  end.

(** The session type handed to the driver is the command of the message. *)
Definition started (msg : ConsoleSessionMessage) : Terminal :=
  mkTerminal (ConsoleSessionMessage_SessionId msg) (ConsoleSessionMessage_InstanceId msg)
    (ConsoleSessionMessage_InstanceName msg)
    (ConsoleSessionMessage_Command msg) (ConsoleSessionMessage_Command msg)
    (ConsoleSessionMessage_Env msg) (ConsoleSessionMessage_Cols msg) (ConsoleSessionMessage_Rows msg)
    [] [] false false.

(** [s.inWriter.Write]: an error once the driver has closed its end. *)
Definition write_input (data : string) (s : Terminal) : Terminal :=
  if Terminal_exited s then s else s <| Terminal_input := Terminal_input s ++ [data] |>.

Definition push_resize (size : Z * Z) (s : Terminal) : Terminal :=
  if decide (length (Terminal_resizes s) < resize_capacity)%nat
  then s <| Terminal_resizes := Terminal_resizes s ++ [size] |> else s.

Definition on_console (sid : string) (f : Terminal → Terminal) : go AgentConsoles () :=
  d ← get;
  match AgentConsoles_activeConsoles d !! sid with
  | Some t => set_terminal t f
  | None => mret ()
  end.

Definition handleConsoleMessage (msg : option ConsoleSessionMessage) : go AgentConsoles () :=
  match msg with
  | None => mret ()
  | Some msg =>
      let sid := ConsoleSessionMessage_SessionId msg in
      match ConsoleSessionMessage_Type_ msg with
      | TYPE_START =>
          drop_console sid ;;
          modify (λ d, d <| AgentConsoles_activeConsoles :=
                              <[sid := length (AgentConsoles_terminals d)]> (AgentConsoles_activeConsoles d) |>
                         <| AgentConsoles_terminals := AgentConsoles_terminals d ++ [started msg] |>)
      | TYPE_DATA => on_console sid (write_input (ConsoleSessionMessage_Data msg))
      | TYPE_RESIZE =>
          on_console sid (push_resize (ConsoleSessionMessage_Cols msg, ConsoleSessionMessage_Rows msg))
      | TYPE_CLOSE => drop_console sid
      | TYPE_UNSPECIFIED => mret ()
      end
  end.

(** What the agent sends for output of the driver, and after its end. *)
Definition output_message (s : Terminal) (chunk : string) : ConsoleSessionMessage :=
  mkConsoleSessionMessage (Terminal_sessionID s) (Terminal_instanceID s) "" TYPE_DATA "" 0 0 [] chunk "".
Definition exit_message (s : Terminal) : ConsoleSessionMessage :=
  mkConsoleSessionMessage (Terminal_sessionID s) (Terminal_instanceID s) "" TYPE_CLOSE "" 0 0 [] "" "driver_exited".

End agent.

(** ** The terminal

    [SimulatedConsoleDriver], which [SocketConsoleDriver] runs as well. *)

Section terminal.

Definition chr (n : N) : string := String (Ascii.ascii_of_N n) "".
Definition ESC : string := chr 27.
Definition CRLF : string := chr 13 +:+ chr 10.

Definition prompt (instanceName : string) : string :=
  ESC +:+ "[32mroot@" +:+ instanceName +:+ ":~# " +:+ ESC +:+ "[0m".

Definition banner (command instanceName : string) (cols rows : Z) : string :=
  CRLF +:+ ESC +:+ "[1;36m=== Aurora Terminal [" +:+ command +:+ "] (" +:+ fmt_d cols +:+ "x" +:+
  fmt_d rows +:+ ") ===" +:+ ESC +:+ "[0m" +:+ CRLF +:+ prompt instanceName.

Definition resized (instanceName : string) (size : Z * Z) : string :=
  CRLF +:+ ESC +:+ "[33m[Aurora PTY Resized: " +:+ fmt_d size.1 +:+ "x" +:+ fmt_d size.2 +:+ "]" +:+
  ESC +:+ "[0m" +:+ CRLF +:+ prompt instanceName.

(** One round of the reader loop: what is written back, and whether the loop
    goes on. *)
Definition react (instanceName input : string) : string * bool :=
  if decide (input = "") then ("", true)
  else if decide (input = chr 13 ∨ input = chr 10) then (CRLF +:+ prompt instanceName, true)
  else if decide (input = chr 3) then ("^C" +:+ CRLF +:+ prompt instanceName, true)
  else if decide (input = chr 4) then ("logout" +:+ CRLF, false)
  else if String.prefix "exit" input then (CRLF +:+ "logout" +:+ CRLF, false)
  else (input, true).

(** The loop over what it reads, at most 1024 bytes at a time. *)
Fixpoint read_loop (instanceName : string) (chunks : list string) : list string * bool :=
  match chunks with
  | [] => ([], true)
  | c :: chunks =>
      let '(out, more) := react instanceName c in
      if more then
        let '(outs, more) := read_loop instanceName chunks in (out :: outs, more)
      else ([out], false)
  end.

(** A write to the pipe as the reader sees it. *)
Fixpoint pieces (fuel : nat) (s : string) : list string :=
  match fuel with
  | O => []
  | S fuel =>
      if decide (s = "") then []
      else String.substring 0 1024 s :: pieces fuel (String.substring 1024 (String.length s - 1024) s)
  end.

Definition StartConsole (instanceName command : string) (cols rows : Z) (writes : list string) :
    list string * bool :=
  let command := or_default "/bin/bash" command in
  let '(outs, more) := read_loop instanceName (writes ≫= λ w, pieces (S (String.length w)) w) in
  (banner command instanceName cols rows :: outs, more).
End terminal.

(** ** The socket *)

Inductive Frame : Type :=
  | TextMessage (payload : string)
  | BinaryMessage (payload : string)
  | PingMessage (payload : string)
  | OtherMessage.

Inductive ServerFrame : Type :=
  | Binary (data : string)
  | CloseFrame (reason : string).

(** [json.Unmarshal] of a text frame into a [ClientControlMessage]. *)
Class ControlCodec := json_control : string → option (string * Z * Z).

Section socket.
Context `{!ConsoleStream, !ControlCodec} (has_send : bool).

(** The read loop on one frame; errors are dropped. *)
Definition client_frame (sid : string) (f : Frame) : go Manager () :=
  match f with
  | TextMessage payload =>
      match json_control payload with
      | Some (kind, cols, rows) =>
          if decide (kind = "resize") then
            if decide (0 < cols ∧ 0 < rows) then ignore (ResizeTerminal has_send sid cols rows) else mret ()
          else ignore (SendData has_send sid payload)
      | None => ignore (SendData has_send sid payload)
      end
  | BinaryMessage payload => ignore (SendData has_send sid payload)
  | PingMessage _ | OtherMessage => mret ()
  end.

(** One round of the goroutine that writes to the browser: the frame it
    writes, if any; [None] for a round with nothing to do. *)
Definition pump (p : nat) : go Manager (option ServerFrame) :=
  m ← get;
  match Manager_pipes m !! p with
  | None => mret None
  | Some pipe =>
      pick ← rand_53;
      match SessionPipe_Inbound pipe with
      | msg :: rest =>
          if SessionPipe_Closed pipe && Z.even pick then mret (Some (CloseFrame "session closed"))
          else
            set_pipe p (λ q, q <| SessionPipe_Inbound := rest |>) ;;
            mret (match ConsoleSessionMessage_Type_ msg with
                  | TYPE_DATA => Some (Binary (ConsoleSessionMessage_Data msg))
                  | TYPE_CLOSE => Some (CloseFrame (ConsoleSessionMessage_CloseReason msg))
                  | _ => None
                  end)
      | [] => mret (if SessionPipe_Closed pipe then Some (CloseFrame "session closed") else None)
      end
  end.
End socket.

(** ** The whole

    [calls] records the openings: the session identifier drawn, the caller
    and the instance the lookup answered; [typed] what users sent into which
    session. *)

Record Call := mkCall {
  Call_sid : string;
  Call_subject : option Subject;
  Call_found : result Instance_
}.

Record System : Type := mkSystem {
  System_hub : Manager;
  System_agents : gmap string AgentConsoles;
  System_calls : list Call;
  System_typed : list (string * string)
}.

Definition eta_System (r : System) : System :=
  mkSystem (System_hub r) (System_agents r) (System_calls r) (System_typed r).
#[export] Instance set_System_hub : Setter System_hub := ltac:(setter eta_System System_hub).
#[export] Instance set_System_agents : Setter System_agents := ltac:(setter eta_System System_agents).
#[export] Instance set_System_calls : Setter System_calls := ltac:(setter eta_System System_calls).
#[export] Instance set_System_typed : Setter System_typed := ltac:(setter eta_System System_typed).

Definition agent_of (s : System) (nodeID : string) : AgentConsoles :=
  default no_consoles (System_agents s !! nodeID).

Definition first_system (instances : MemoryInstanceStore) : System :=
  mkSystem (NewManager instances) ∅ [] [].

(** The driver of a terminal goes on: it takes a resize event, or returns. *)
Definition take_resize (s : Terminal) : Terminal := s <| Terminal_resizes := tail (Terminal_resizes s) |>.
Definition exit_driver (s : Terminal) : Terminal := s <| Terminal_exited := true |>.

Section system.
Context {A : Type} `{!AuditRepository A, !ConsoleStream}.
Context (auth : Authorizer) (has_audit has_send : bool).

(** A step of the hub that opens nothing. *)
Inductive hub_step (m : Manager) : Manager → Prop :=
  | hs_resize w sid cols rows : hub_step m (exec (ResizeTerminal has_send sid cols rows) w m)
  | hs_close w sid : hub_step m (exec (CloseSession has_send sid) w m)
  | hs_message w msg : hub_step m (exec (HandleNodeMessage msg) w m)
  | hs_overtaken w p pipe msg :
      Manager_pipes m !! p = Some pipe →
      ConsoleSessionMessage_SessionId msg = SessionPipe_SessionID pipe →
      hub_step m (exec (deliver p msg) w m)
  | hs_pump w p : hub_step m (exec (pump p) w m)
  | hs_connection nodeID stream :
      hub_step m (m <| Manager_connected := partial_alter (λ _, stream) nodeID (Manager_connected m) |>
                    <| Manager_wires := delete nodeID (Manager_wires m) |>)
  | hs_instances i : hub_step m (m <| Manager_instances := i |>).

(** The steps of the whole: a call of [StartSession] with any trail and an
    identifier not drawn before; input through the table, or on a pipe another
    call has just removed; a message that reaches the agent; an agent that
    loses its terminals or whose driver goes on. [hs_message] takes any message, so the nodes may send
    what they like. *)
Inductive console_step (s : System) : System → Prop :=
  | cs_start w (a : A) sub instanceID sessionType command cols rows :
      w_uuid w (w_uuids w) ∉ Call_sid <$> System_calls s →
      console_step s (s
        <| System_hub := (exec (StartSession auth has_audit has_send sub instanceID sessionType command
                                  cols rows) w (System_hub s, a)).1 |>
        <| System_calls := System_calls s ++
             [mkCall (w_uuid w (w_uuids w)) sub (answer (read_instance instanceID) w (System_hub s))] |>)
  | cs_input w sid data :
      console_step s (s <| System_hub := exec (SendData has_send sid data) w (System_hub s) |>
                        <| System_typed := System_typed s ++ [(sid, data)] |>)
  | cs_overtaken w p pipe data :
      Manager_pipes (System_hub s) !! p = Some pipe →
      console_step s (s
        <| System_hub := exec (sendToNode has_send (SessionPipe_NodeID pipe)
                           (data_message pipe (SessionPipe_SessionID pipe) data)) w (System_hub s) |>
        <| System_typed := System_typed s ++ [(SessionPipe_SessionID pipe, data)] |>)
  | cs_hub m : hub_step (System_hub s) m → console_step s (s <| System_hub := m |>)
  | cs_arrive w nodeID msg rest :
      wire (System_hub s) nodeID = msg :: rest →
      console_step s (s
        <| System_hub := (System_hub s) <| Manager_wires := <[nodeID := rest]> (Manager_wires (System_hub s)) |> |>
        <| System_agents := <[nodeID := exec (handleConsoleMessage (Some msg)) w (agent_of s nodeID)]>
             (System_agents s) |>)
  | cs_restart nodeID : console_step s (s <| System_agents := delete nodeID (System_agents s) |>)
  | cs_driver w nodeID t f : f = take_resize ∨ f = exit_driver →
      console_step s (s <| System_agents := <[nodeID := exec (set_terminal t f) w (agent_of s nodeID)]>
                             (System_agents s) |>).

(** ** Who was let in *)

(** The opening of a session that passed its checks. *)
Definition granted (cs : list Call) (sid : string) (inst : Instance_) : Prop :=
  ∃ c, c ∈ cs ∧ Call_sid c = sid ∧ Call_found c = Ok inst ∧
    Authorize (Call_subject c) "instance:console" (Some (Instance_Resource inst)) = Ok () ∧
    Instance__Status inst = StatusRunning.

Definition datas (sid : string) (l : list ConsoleSessionMessage) : list string :=
  ConsoleSessionMessage_Data <$> filter (λ m, ConsoleSessionMessage_SessionId m = sid ∧
                                          ConsoleSessionMessage_Type_ m = TYPE_DATA) l.
Definition typed_in (sid : string) (ty : list (string * string)) : list string :=
  (filter (λ x, x.1 = sid) ty).*2.

Definition pipe_ok (cs : list Call) (p : SessionPipe) : Prop :=
  (∃ inst, granted cs (SessionPipe_SessionID p) inst ∧ SessionPipe_NodeID p = Instance__NodeID inst ∧
     SessionPipe_InstanceID p = Instance__ID inst) ∧
  (length (SessionPipe_Inbound p) ≤ pipe_capacity)%nat ∧
  Forall (λ m, ConsoleSessionMessage_SessionId m = SessionPipe_SessionID p) (SessionPipe_Inbound p).

Definition message_ok (cs : list Call) (nodeID : string) (m : ConsoleSessionMessage) : Prop :=
  ∃ inst, granted cs (ConsoleSessionMessage_SessionId m) inst ∧ Instance__NodeID inst = nodeID ∧
    ConsoleSessionMessage_InstanceId m = Instance__ID inst ∧
    (ConsoleSessionMessage_Type_ m = TYPE_START → ConsoleSessionMessage_InstanceName m = Instance__Name inst).

Definition terminal_ok (cs : list Call) (nodeID : string) (t : Terminal) : Prop :=
  ∃ inst, granted cs (Terminal_sessionID t) inst ∧ Instance__NodeID inst = nodeID ∧
    Terminal_instanceID t = Instance__ID inst ∧ Terminal_instanceName t = Instance__Name inst.

Record hub_ok (cs : list Call) (m : Manager) : Prop := {
  ho_pipes : Forall (pipe_ok cs) (Manager_pipes m);
  ho_sessions : ∀ sid p, Manager_sessions m !! sid = Some p →
    ∃ pipe, Manager_pipes m !! p = Some pipe ∧ SessionPipe_SessionID pipe = sid;
  ho_wires : ∀ n, Forall (message_ok cs n) (wire m n) }.

(** A terminal with what is still on its way to it. *)
Definition fed (ty : list (string * string)) (inflight : list ConsoleSessionMessage) (t : Terminal) : Prop :=
  Terminal_input t ++ datas (Terminal_sessionID t) inflight `sublist_of` typed_in (Terminal_sessionID t) ty.

Record agent_ok (cs : list Call) (ty : list (string * string)) (n : string)
    (inflight : list ConsoleSessionMessage) (d : AgentConsoles) : Prop := {
  ao_terminals : Forall (λ t, terminal_ok cs n t ∧ fed ty inflight t) (AgentConsoles_terminals d);
  ao_active : ∀ sid t, AgentConsoles_activeConsoles d !! sid = Some t →
    ∃ term, AgentConsoles_terminals d !! t = Some term ∧ Terminal_sessionID term = sid;
  ao_wire : ∀ sid, datas sid inflight `sublist_of` typed_in sid ty }.

Record system_ok (s : System) : Prop := {
  so_calls : NoDup (Call_sid <$> System_calls s);
  so_hub : hub_ok (System_calls s) (System_hub s);
  so_agents : ∀ n, agent_ok (System_calls s) (System_typed s) n (wire (System_hub s) n) (agent_of s n) }.

(** A message as an entry of what was typed. *)
Definition said (m : ConsoleSessionMessage) : list (string * string) :=
  if decide (ConsoleSessionMessage_Type_ m = TYPE_DATA)
  then [(ConsoleSessionMessage_SessionId m, ConsoleSessionMessage_Data m)] else [].

Lemma datas_app sid l l' : datas sid (l ++ l') = datas sid l ++ datas sid l'.
Proof. unfold datas. by rewrite filter_app, fmap_app. Qed.
Lemma typed_in_app sid l l' : typed_in sid (l ++ l') = typed_in sid l ++ typed_in sid l'.
Proof. unfold typed_in. by rewrite filter_app, fmap_app. Qed.

Lemma datas_said sid m : datas sid [m] = typed_in sid (said m).
Proof.
  unfold datas, typed_in, said. rewrite filter_cons, filter_nil.
  destruct (decide (ConsoleSessionMessage_Type_ m = TYPE_DATA)) as [Ht|Ht].
  - rewrite filter_cons, filter_nil. cbn [fst].
    destruct (decide (ConsoleSessionMessage_SessionId m = sid)); by repeat case_decide; naive_solver.
  - by rewrite decide_False by tauto.
Qed.

(** What a step of the hub puts on the wires, as far as input goes. *)
Definition adds (ty : list (string * string)) (m m' : Manager) : Prop :=
  ∀ n sid, datas sid (wire m' n) `sublist_of` datas sid (wire m n) ++ typed_in sid ty.

Lemma adds_same m m' : Manager_wires m' = Manager_wires m → adds [] m m'.
Proof. intros Hw n sid. unfold wire. by rewrite Hw, app_nil_r. Qed.
Lemma adds_trans ty m1 m2 m3 : adds [] m1 m2 → adds ty m2 m3 → adds ty m1 m3.
Proof.
  intros H1 H2 n sid. etrans; [apply H2|]. apply sublist_app; [|done].
  etrans; [apply H1|]. by rewrite app_nil_r.
Qed.
Lemma adds_none ty m m' : adds [] m m' → adds ty m m'.
Proof.
  intros Ha n sid. etrans; [apply Ha|]. cbn. rewrite app_nil_r. by apply sublist_inserts_r.
Qed.
Hint Resolve adds_same adds_none : core.

Lemma granted_more cs cs' sid inst : granted cs sid inst → granted (cs ++ cs') sid inst.
Proof. intros (c & Hc & Hrest). exists c. split; [set_solver|done]. Qed.
Hint Resolve granted_more : core.

Lemma hub_ok_more cs cs' m : hub_ok cs m → hub_ok (cs ++ cs') m.
Proof.
  intros [Hp Hs Hw]. split; [|done|].
  - eapply Forall_impl; [exact Hp|]. intros p ((inst & ? & ?) & ?). split; [|done]. exists inst. eauto.
  - intros n. eapply Forall_impl; [apply Hw|]. intros msg (inst & ? & ?). exists inst. eauto.
Qed.

Lemma agent_ok_more cs cs' ty ty' n l l' d :
  (∀ sid, datas sid l' `sublist_of` datas sid l ++ typed_in sid ty') →
  agent_ok cs ty n l d → agent_ok (cs ++ cs') (ty ++ ty') n l' d.
Proof.
  intros Hl [Ht Ha Hd]. split; [|done|].
  - eapply Forall_impl; [exact Ht|]. intros t ((inst & ? & ?) & Hf). split; [exists inst; eauto|].
    unfold fed in *. rewrite typed_in_app. etrans; [apply sublist_app; [done|apply Hl]|].
    rewrite (assoc_L (++)). by apply sublist_app.
  - intros sid. rewrite typed_in_app. etrans; [apply Hl|]. by apply sublist_app.
Qed.

(** ** The operations of the hub keep the invariant *)

Context (cs : list Call).

Lemma wire_set m n l n' :
  wire (m <| Manager_wires := <[n := l]> (Manager_wires m) |>) n' = if decide (n' = n) then l else wire m n'.
Proof.
  unfold wire. cbn. case_decide as Hn; [subst; by rewrite lookup_insert_eq|].
  by rewrite lookup_insert_ne by congruence.
Qed.

Lemma wp_sendToNode n msg (Q : result () → Manager → World → Prop) w m :
  hub_ok cs m → message_ok cs n msg →
  (∀ r m', hub_ok cs m' → adds (said msg) m m' → Q r m' w) →
  wp (sendToNode has_send n msg) Q w m.
Proof.
  intros Hm Hmsg HQ. unfold sendToNode, SendToNode. destruct has_send; [|rewrite wp_ret; auto].
  rewrite wp_bind, wp_get. destruct (Manager_connected m !! n); [|rewrite wp_fail; auto].
  rewrite wp_bind, wp_reading, wp_bind, wp_lift. destruct (stream_SendRaw _ _ _); [|auto].
  rewrite wp_modify. destruct Hm as [Hp Hs Hw]. apply HQ.
  - split; [done|done|]. intros n'. rewrite wire_set. case_decide as Hn; [|done]. subst n'.
    apply Forall_app. by split; [|apply Forall_singleton].
  - intros n' sid. rewrite wire_set. case_decide as Hn.
    + subst n'. by rewrite datas_app, datas_said.
    + by apply sublist_inserts_r.
Qed.

(** A change of one pipe that keeps who it belongs to. *)
Lemma set_pipe_ok p f m :
  (∀ pipe, Manager_pipes m !! p = Some pipe → pipe_ok cs pipe →
     pipe_ok cs (f pipe) ∧ SessionPipe_SessionID (f pipe) = SessionPipe_SessionID pipe) →
  hub_ok cs m → hub_ok cs (m <| Manager_pipes := alter f p (Manager_pipes m) |>).
Proof.
  intros Hf [Hp Hs Hw]. split; [| |done].
  - apply Forall_lookup. cbn. intros i x Hx. destruct (decide (i = p)) as [->|Hi].
    + rewrite list_lookup_alter_eq in Hx. apply fmap_Some in Hx as (pipe & Hpipe & ->).
      apply Hf; [done|]. by eapply Forall_lookup_1.
    + rewrite list_lookup_alter_ne in Hx by done. by eapply Forall_lookup_1.
  - cbn. intros sid i (pipe & Hpipe & Hsid)%Hs. destruct (decide (i = p)) as [->|Hi].
    + exists (f pipe). rewrite list_lookup_alter_eq, Hpipe. split; [done|].
      rewrite <-Hsid. apply Hf; [done|]. by eapply Forall_lookup_1.
    + exists pipe. by rewrite list_lookup_alter_ne.
Qed.

Lemma pipe_message m p pipe : hub_ok cs m → Manager_pipes m !! p = Some pipe →
  ∀ msg, ConsoleSessionMessage_SessionId msg = SessionPipe_SessionID pipe →
    ConsoleSessionMessage_InstanceId msg = SessionPipe_InstanceID pipe →
    ConsoleSessionMessage_Type_ msg ≠ TYPE_START → message_ok cs (SessionPipe_NodeID pipe) msg.
Proof.
  intros [Hp _ _] Hpipe msg Hs Hi Ht.
  destruct (Forall_lookup_1 _ _ _ _ Hp Hpipe) as ((inst & Hg & Hn & Hid) & _).
  exists inst. rewrite Hs, Hi. by split_and!.
Qed.

Lemma wp_CloseSession sid (Q : result () → Manager → World → Prop) w m :
  hub_ok cs m → (∀ m', hub_ok cs m' → adds [] m m' → Q (Ok ()) m' w) →
  wp (CloseSession has_send sid) Q w m.
Proof.
  intros Hm HQ. unfold CloseSession, finish_session. rewrite wp_bind, wp_get, wp_bind, wp_put.
  set (m1 := m <| Manager_sessions := _ |>).
  assert (hub_ok cs m1) as Hm1.
  { destruct Hm as [Hp Hs Hw]. split; [done| |done]. cbn. intros s p [_ Hsp]%lookup_delete_Some. by apply Hs. }
  destruct (Manager_sessions m !! sid) as [p|] eqn:Hsid; [|rewrite wp_ret; auto].
  destruct (ho_sessions _ _ Hm _ _ Hsid) as (pipe & Hpipe & Hs).
  unfold set_pipe. rewrite wp_bind, wp_modify, wp_bind, wp_get. set (m2 := m1 <| Manager_pipes := _ |>).
  assert (hub_ok cs m2) as Hm2 by (apply set_pipe_ok; [|done]; intros x _ Hx; done).
  assert (Manager_pipes m2 !! p = Some (pipe_Close pipe)) as Hp2.
  { cbn. by rewrite list_lookup_alter_eq, Hpipe. }
  rewrite Hp2, wp_ignore. apply wp_sendToNode; [done| |].
  - by apply (pipe_message m2 p).
  - intros _ m3 Hm3 Ha. apply HQ; [done|]. apply (adds_trans _ _ m2); [by apply adds_same|exact Ha].
Qed.

Lemma wp_deliver_message p pipe msg (Q : result () → Manager → World → Prop) w m :
  hub_ok cs m → Manager_pipes m !! p = Some pipe →
  ConsoleSessionMessage_SessionId msg = SessionPipe_SessionID pipe →
  (∀ m' w', hub_ok cs m' → adds [] m m' → Q (Ok ()) m' w') → wp (deliver p msg) Q w m.
Proof.
  intros Hm Hp Hs HQ. unfold deliver, set_pipe. rewrite wp_bind, wp_get, Hp, wp_bind, wp_rand.
  case_match; [rewrite wp_ret; auto|]. case_bool_decide as Hroom; [|rewrite wp_ret; auto].
  rewrite wp_modify. apply HQ; [|by apply adds_same]. apply set_pipe_ok; [|done].
  intros q Hq (Hg & Hl & Hf). rewrite Hp in Hq. injection Hq as <-. split; [|done].
  split_and!; [done| |].
  - cbn. rewrite length_app. cbn. lia.
  - apply Forall_app. by split; [|apply Forall_singleton].
Qed.

Lemma wp_find_session sid (Q : result (option SessionPipe) → Manager → World → Prop) w m :
  hub_ok cs m →
  Q (Ok None) m w →
  (∀ p pipe, Manager_pipes m !! p = Some pipe → SessionPipe_SessionID pipe = sid → Q (Ok (Some pipe)) m w) →
  wp (find_session sid) Q w m.
Proof.
  intros Hm Hno Hyes. unfold find_session. rewrite wp_bind, wp_get, wp_ret.
  destruct (Manager_sessions m !! sid) as [p|] eqn:Hp; [|done].
  destruct (ho_sessions _ _ Hm _ _ Hp) as (pipe & Hpipe & Hs). cbn. rewrite Hpipe. by apply (Hyes p).
Qed.

(** A message about a session of the table, sent to the node of its pipe. *)
Lemma wp_session_send sid (mk : SessionPipe → ConsoleSessionMessage) ty
    (Q : result () → Manager → World → Prop) w m :
  hub_ok cs m →
  (∀ pipe, ConsoleSessionMessage_SessionId (mk pipe) = sid ∧
     ConsoleSessionMessage_InstanceId (mk pipe) = SessionPipe_InstanceID pipe ∧
     ConsoleSessionMessage_Type_ (mk pipe) ≠ TYPE_START ∧ said (mk pipe) = ty) →
  (∀ r m', hub_ok cs m' → adds ty m m' → Q r m' w) →
  wp (pipe ← find_session sid;
      match pipe with
      | None => fail ErrSessionNotFound
      | Some pipe => sendToNode has_send (SessionPipe_NodeID pipe) (mk pipe)
      end) Q w m.
Proof.
  intros Hm Hmk HQ. rewrite wp_bind. apply wp_find_session; [done|rewrite wp_fail; auto|].
  intros p pipe Hp Hs. destruct (Hmk pipe) as (Hid & Hi & Ht & <-).
  apply wp_sendToNode; [done| |done]. apply (pipe_message m p); [done..|congruence|done|done].
Qed.

Lemma hub_step_ok m m' : hub_step m m' → hub_ok cs m → hub_ok cs m' ∧ adds [] m m'.
Proof.
  intros [w sid cols rows|w sid|w msg|w p pipe msg Hp Hs|w p|n stream|i] Hm.
  - apply (proj1 (wp_elim _ (λ _ m' _, hub_ok cs m' ∧ adds [] m m') w m)).
    unfold ResizeTerminal. by apply (wp_session_send sid (λ pipe, resize_message pipe sid cols rows) []).
  - apply (proj1 (wp_elim _ (λ _ m' _, hub_ok cs m' ∧ adds [] m m') w m)). by apply wp_CloseSession.
  - apply (proj1 (wp_elim _ (λ _ m' _, hub_ok cs m' ∧ adds [] m m') w m)).
    unfold HandleNodeMessage. destruct msg as [msg|]; [|rewrite wp_ret; auto].
    rewrite wp_bind, wp_get. destruct (Manager_sessions m !! _) as [p|] eqn:Hp; [|rewrite wp_ret; auto].
    destruct (ho_sessions _ _ Hm _ _ Hp) as (pipe & Hpipe & Hs). by apply (wp_deliver_message p pipe).
  - apply (proj1 (wp_elim _ (λ _ m' _, hub_ok cs m' ∧ adds [] m m') w m)). by apply (wp_deliver_message p pipe).
  - apply (proj1 (wp_elim _ (λ _ m' _, hub_ok cs m' ∧ adds [] m m') w m)).
    unfold pump, set_pipe. rewrite wp_bind, wp_get. destruct (Manager_pipes m !! p) as [pipe|] eqn:Hp; [|rewrite wp_ret; auto].
    rewrite wp_bind, wp_rand. destruct (SessionPipe_Inbound pipe) as [|msg rest] eqn:Hin; [rewrite wp_ret; auto|].
    case_match; [rewrite wp_ret; auto|]. rewrite wp_bind, wp_modify, wp_ret. split; [|by apply adds_same].
    apply set_pipe_ok; [|done]. intros q Hq (Hg & Hl & Hf). rewrite Hp in Hq. injection Hq as <-.
    rewrite Hin in Hl, Hf. split; [|done]. split_and!; [done|cbn in *; lia|]. by apply Forall_cons in Hf as [_ ?].
  - destruct Hm as [Hp Hs Hw].
    assert (∀ n', wire (m <| Manager_connected := partial_alter (λ _, stream) n (Manager_connected m) |>
              <| Manager_wires := delete n (Manager_wires m) |>) n' = [] ∨
            wire (m <| Manager_connected := partial_alter (λ _, stream) n (Manager_connected m) |>
              <| Manager_wires := delete n (Manager_wires m) |>) n' = wire m n') as Hwire.
    { intros n'. unfold wire. cbn. destruct (decide (n' = n)) as [->|Hn].
      - left. by rewrite lookup_delete_eq.
      - right. by rewrite lookup_delete_ne by congruence. }
    split; [split; [done|done|]|].
    + intros n'. destruct (Hwire n') as [-> | ->]; [constructor|apply Hw].
    + intros n' sid. destruct (Hwire n') as [-> | ->]; [apply sublist_nil_l|]. by apply sublist_inserts_r.
  - split; [|by apply adds_same]. by destruct Hm.
Qed.

Lemma read_instance_run id w m : read_instance id w m = (answer (read_instance id) w m, m, w).
Proof.
  unfold answer, read_instance, InstanceGetByID, lookup_instance, load_instance, zoom, mbind, go_bind, get.
  cbn [fst snd]. destruct (MemoryInstanceStore_instances _ !! _) as [p|]; [|destruct m; reflexivity].
  destruct (MemoryInstanceStore_heap _ !! p); destruct m; reflexivity.
Qed.
End system.

#[local] Hint Resolve adds_same adds_none granted_more : core.

Section opening.
Context {A : Type} `{!AuditRepository A, !ConsoleStream}.
Context (auth : Authorizer) (has_audit has_send : bool) (cs : list Call).
Abbreviation hub_ok := (@hub_ok auth).

Lemma register_ok cs' sid pipe m :
  pipe_ok auth cs' pipe → SessionPipe_SessionID pipe = sid → hub_ok cs' m →
  hub_ok cs' (m <| Manager_sessions := <[sid := length (Manager_pipes m)]> (Manager_sessions m) |>
               <| Manager_pipes := Manager_pipes m ++ [pipe] |>).
Proof.
  intros Hpipe Hsid [Hp Hs Hw]. split; [| |done]; cbn.
  - apply Forall_app. by split; [|apply Forall_singleton].
  - intros sid' p [[<- <-]|[Hne Hsp]]%lookup_insert_Some.
    + exists pipe. by rewrite list_lookup_middle.
    + apply Hs in Hsp as (pipe' & Hp' & Hs'). exists pipe'. by rewrite (lookup_app_l_Some _ _ _ _ Hp').
Qed.

Lemma StartSession_ok w (a : A) sub instanceID sessionType command cols rows m :
  let c := mkCall (w_uuid w (w_uuids w)) sub (answer (read_instance instanceID) w m) in
  let m' := (exec (StartSession auth has_audit has_send sub instanceID sessionType command cols rows) w (m, a)).1 in
  hub_ok cs m → hub_ok (cs ++ [c]) m' ∧ adds [] m m'.
Proof.
  intros c m' Hm. apply (hub_ok_more _ _ [c]) in Hm.
  apply (proj1 (wp_elim (StartSession auth has_audit has_send sub instanceID sessionType command cols rows)
    (λ _ s _, hub_ok (cs ++ [c]) s.1 ∧ adds [] m s.1) w (m, a))).
  unfold StartSession. rewrite wp_bind, wp_on_store, (wp_run _ _ _ _ _ _ _ (read_instance_run _ _ _)).
  destruct (answer (read_instance instanceID) w m) as [inst|e] eqn:Hinst; [|by auto].
  unfold authorize, guard_err. rewrite wp_bind, wp_lift.
  destruct (Authorize sub _ _) as [[]|e] eqn:Hauth; [|by auto].
  rewrite wp_bind. case_decide as Hrun; [rewrite wp_fail; by auto|]. rewrite wp_ret, wp_bind, wp_uuid, wp_bind.
  set (sid := w_uuid w (w_uuids w)).
  assert (granted auth (cs ++ [c]) sid inst) as Hgrant.
  { exists c. split_and!; [set_solver|done|done|done|done]. }
  destruct sub as [u|]; cbn [caller_id]; [rewrite wp_ret|rewrite wp_lift; unfold panic; by auto].
  set (pipe := NewSessionPipe _ _ _ _ _). unfold register.
  rewrite wp_bind, wp_on_store, wp_modify, wp_bind, wp_try, wp_on_store.
  set (m1 := m <| Manager_sessions := _ |> <| Manager_pipes := _ |>).
  assert (hub_ok (cs ++ [c]) m1) as Hm1.
  { apply register_ok; [|done|done]. split_and!; [by exists inst|cbn; unfold pipe_capacity; lia|constructor]. }
  apply (wp_sendToNode auth has_send (cs ++ [c])); [done|by exists inst|].
  intros r m2 Hm2 Ha2. assert (adds [] m m2) as Ha by (apply (adds_trans _ _ m1); [by apply adds_same|exact Ha2]).
  destruct r as [[]|e].
  - rewrite wp_bind. unfold log_console. destruct has_audit; [|rewrite !wp_ret; by auto].
    apply wp_audit_event. intros a' w'. rewrite wp_ret. by auto.
  - rewrite wp_bind, wp_on_store. apply (wp_CloseSession auth has_send (cs ++ [c])); [done|].
    intros m3 Hm3 Ha3. rewrite wp_fail. split; [done|]. by apply (adds_trans _ _ m2).
Qed.
End opening.

Section arrival.
Context {auth : Authorizer} (cs : list Call) (ty : list (string * string)) (n : string).
Abbreviation agent_ok := (@agent_ok auth cs ty n).

Definition same_terminal (t t' : Terminal) : Prop :=
  Terminal_sessionID t' = Terminal_sessionID t ∧ Terminal_instanceID t' = Terminal_instanceID t ∧
  Terminal_instanceName t' = Terminal_instanceName t.

Lemma datas_tail sid msg l : datas sid l `sublist_of` datas sid (msg :: l).
Proof. unfold datas. rewrite filter_cons. case_decide; [by constructor|done]. Qed.

Lemma agent_ok_tail msg l d : agent_ok (msg :: l) d → agent_ok l d.
Proof.
  intros Hd. rewrite <-(app_nil_r ty), <-(app_nil_r cs). eapply agent_ok_more; [|exact Hd].
  intros sid. apply sublist_inserts_r, datas_tail.
Qed.

Lemma terminal_change t f l l' d :
  (∀ sid, datas sid l' `sublist_of` datas sid l) →
  (∀ term, AgentConsoles_terminals d !! t = Some term → fed ty l term →
     fed ty l' (f term) ∧ same_terminal term (f term)) →
  agent_ok l d → agent_ok l' (d <| AgentConsoles_terminals := alter f t (AgentConsoles_terminals d) |>).
Proof.
  intros Hl Hf [Ht Ha Hw]. split; cbn.
  - apply Forall_lookup. intros i x Hx. destruct (decide (i = t)) as [->|Hi].
    + rewrite list_lookup_alter_eq in Hx. apply fmap_Some in Hx as (term & Hterm & ->).
      destruct (Forall_lookup_1 _ _ _ _ Ht Hterm) as [(inst & Hg & Hn & Hid & Hname) Hfed].
      destruct (Hf term Hterm Hfed) as (Hfed' & Hs & Hi & Hnm). split; [|done].
      exists inst. rewrite Hs, Hi, Hnm. by split_and!.
    + rewrite list_lookup_alter_ne in Hx by done.
      destruct (Forall_lookup_1 _ _ _ _ Ht Hx) as [Hok Hfed]. split; [done|].
      unfold fed in *. etrans; [|exact Hfed]. by apply sublist_app.
  - intros sid i (term & Hterm & Hs)%Ha. destruct (decide (i = t)) as [->|Hi].
    + exists (f term). rewrite list_lookup_alter_eq, Hterm. split; [done|]. rewrite <-Hs.
      apply (Hf term Hterm). by destruct (Forall_lookup_1 _ _ _ _ Ht Hterm).
    + exists term. by rewrite list_lookup_alter_ne.
  - intros sid. etrans; [apply Hl|apply Hw].
Qed.

Lemma wp_drop_console sid (Q : result () → AgentConsoles → World → Prop) w l d :
  agent_ok l d → (∀ d', agent_ok l d' → Q (Ok ()) d' w) → wp (drop_console sid) Q w d.
Proof.
  intros Hd HQ. unfold drop_console, set_terminal. rewrite wp_bind, wp_get.
  destruct (AgentConsoles_activeConsoles d !! sid) as [t|]; [|rewrite wp_ret; auto].
  rewrite wp_bind, wp_modify, wp_modify. apply HQ.
  set (d1 := d <| AgentConsoles_terminals := _ |>).
  assert (agent_ok l d1) as [Ht Ha Hw] by (by apply (terminal_change _ _ l)).
  split; [done| |done]. cbn. intros s t' [_ Hs]%lookup_delete_Some. by apply (Ha s t').
Qed.

Lemma wp_on_console sid f (Q : result () → AgentConsoles → World → Prop) w l l' d :
  (∀ s, datas s l' `sublist_of` datas s l) →
  (∀ term, Terminal_sessionID term = sid → fed ty l term → fed ty l' (f term) ∧ same_terminal term (f term)) →
  agent_ok l d → (∀ d', agent_ok l' d' → Q (Ok ()) d' w) → wp (on_console sid f) Q w d.
Proof.
  intros Hl Hf Hd HQ. unfold on_console, set_terminal. rewrite wp_bind, wp_get.
  destruct (AgentConsoles_activeConsoles d !! sid) as [t|] eqn:Ht.
  - rewrite wp_modify. apply HQ, (terminal_change _ _ l); [done| |done]. intros term Hterm.
    destruct (ao_active _ _ _ _ _ _ Hd _ _ Ht) as (term' & Hterm' & Hs). apply Hf. congruence.
  - rewrite wp_ret. apply HQ. destruct Hd as [Hts Ha Hw]. split; [|done|].
    + eapply Forall_impl; [exact Hts|]. intros term [Hok Hfed]. split; [done|]. unfold fed in *.
      etrans; [|exact Hfed]. by apply sublist_app.
    + intros s. etrans; [apply Hl|apply Hw].
Qed.

Lemma handle_ok w msg l d :
  message_ok auth cs n msg → agent_ok (msg :: l) d →
  agent_ok l (exec (handleConsoleMessage (Some msg)) w d).
Proof.
  intros (inst & Hg & Hn & Hid & Hname) Hd.
  apply (proj1 (wp_elim (handleConsoleMessage (Some msg)) (λ _ d' _, agent_ok l d') w d)).
  unfold handleConsoleMessage. pose proof (agent_ok_tail _ _ _ Hd) as Htail.
  destruct (ConsoleSessionMessage_Type_ msg) eqn:Htype.
  - by rewrite wp_ret.
  - rewrite wp_bind. apply (wp_drop_console _ _ _ l); [done|]. intros d' [Ht Ha Hw]. rewrite wp_modify.
    split; cbn; [| |done].
    + apply Forall_app. split; [done|]. apply Forall_singleton. split; [|apply Hw].
      exists inst. by auto.
    + intros sid t [[<- <-]|[Hne Hs]]%lookup_insert_Some.
      * exists (started msg). by rewrite list_lookup_middle.
      * apply Ha in Hs as (term & Hterm & ?). exists term. by rewrite (lookup_app_l_Some _ _ _ _ Hterm).
  - apply (wp_on_console _ _ _ _ (msg :: l) l); [intros s; apply datas_tail| |done|done].
    intros term Hs Hfed. unfold write_input. destruct (Terminal_exited term).
    + split; [|done]. unfold fed in *. etrans; [|exact Hfed]. apply sublist_app; [done|apply datas_tail].
    + split; [|done]. unfold fed in *. cbn. rewrite <-(assoc_L (++)). cbn.
      unfold datas in Hfed. rewrite filter_cons, decide_True in Hfed by done. exact Hfed.
  - apply (wp_on_console _ _ _ _ (msg :: l) l); [intros s; apply datas_tail| |done|done].
    intros term Hs Hfed. unfold push_resize. case_decide; (split; [|done]).
    all: unfold fed in *; etrans; [|exact Hfed]; apply sublist_app; [done|apply datas_tail].
  - apply (wp_drop_console _ _ _ l); [done|]. done.
Qed.
End arrival.

Section guarantee.
Context {A : Type} `{!AuditRepository A, !ConsoleStream}.
Context (auth : Authorizer) (has_audit has_send : bool).
Abbreviation step := (console_step (A := A) auth has_audit has_send).

Lemma agent_of_set s n n' d : default no_consoles (<[n := d]> (System_agents s) !! n') =
  if decide (n' = n) then d else agent_of s n'.
Proof.
  case_decide as Hn; [subst; by rewrite lookup_insert_eq|]. by rewrite lookup_insert_ne by congruence.
Qed.

(** A step of the hub, seen by the agents. *)
Lemma system_ok_hub s m cs' ty' :
  system_ok auth s → NoDup (Call_sid <$> System_calls s ++ cs') →
  hub_ok auth (System_calls s ++ cs') m → adds ty' (System_hub s) m →
  system_ok auth (mkSystem m (System_agents s) (System_calls s ++ cs') (System_typed s ++ ty')).
Proof.
  intros [Hc Hm Ha] Hnd Hm' Hadd. split; [done|done|]. intros n. cbn.
  apply (agent_ok_more auth (System_calls s) cs' (System_typed s) ty' n (wire (System_hub s) n)); [|apply Ha].
  intros sid. apply Hadd.
Qed.

Lemma first_ok instances : system_ok auth (first_system instances).
Proof.
  split; [constructor| |].
  - split; [constructor|done|]. intros n. constructor.
  - intros n. split; [constructor|done|]. intros sid. apply sublist_nil_l.
Qed.

Lemma step_ok s s' : step s s' → system_ok auth s → system_ok auth s'.
Proof.
  intros Hstep Hok. pose proof Hok as [Hc Hm Ha].
  assert (NoDup (Call_sid <$> System_calls s ++ [])) as Hc0 by by rewrite app_nil_r.
  assert (hub_ok auth (System_calls s ++ []) (System_hub s)) as Hm0 by by rewrite app_nil_r.
  destruct Hstep as [w a sub iid ty cmd cols rows Hfresh|w sid data|w p pipe data Hp|m Hm'|w n msg rest Hwire|n|w n t f Hf].
  - destruct (StartSession_ok auth has_audit has_send (System_calls s) w a sub iid ty cmd cols rows _ Hm) as [H1 H2].
    epose proof (system_ok_hub s _ [mkCall (w_uuid w (w_uuids w)) sub
      (answer (read_instance iid) w (System_hub s))] [] Hok) as Hgo.
    rewrite app_nil_r in Hgo. apply Hgo; [|exact H1|exact H2].
    rewrite fmap_app. apply NoDup_app. split_and!; [done| |repeat constructor; set_solver].
    intros x Hx Hin. apply list_elem_of_singleton in Hin. cbn in Hin. congruence.
  - pose proof (system_ok_hub s (exec (SendData has_send sid data) w (System_hub s)) [] [(sid, data)] Hok Hc0) as Hgo.
    rewrite app_nil_r in Hgo, Hc0, Hm0. apply Hgo.
    + apply (proj1 (wp_elim (SendData has_send sid data) (λ _ m _, hub_ok auth (System_calls s) m) w (System_hub s))).
      by apply (wp_session_send auth has_send (System_calls s) sid (λ pipe, data_message pipe sid data) [(sid, data)]).
    + apply (proj1 (wp_elim (SendData has_send sid data) (λ _ m _, adds [(sid, data)] (System_hub s) m) w (System_hub s))).
      by apply (wp_session_send auth has_send (System_calls s) sid (λ pipe, data_message pipe sid data) [(sid, data)]).
  - set (sid := SessionPipe_SessionID pipe). set (msg := data_message pipe sid data).
    set (send := sendToNode has_send (SessionPipe_NodeID pipe) msg).
    pose proof (system_ok_hub s (exec send w (System_hub s)) [] [(sid, data)] Hok Hc0) as Hgo.
    rewrite app_nil_r in Hgo. apply Hgo.
    + apply (proj1 (wp_elim send (λ _ m _, hub_ok auth (System_calls s) m) w (System_hub s))).
      apply (wp_sendToNode auth has_send (System_calls s)); [done| |done]. by apply (pipe_message auth _ (System_hub s) p).
    + apply (proj1 (wp_elim send (λ _ m _, adds [(sid, data)] (System_hub s) m) w (System_hub s))).
      apply (wp_sendToNode auth has_send (System_calls s)); [done| |done]. by apply (pipe_message auth _ (System_hub s) p).
  - destruct (hub_step_ok auth has_send (System_calls s) _ _ Hm' Hm) as [H1 H2].
    pose proof (system_ok_hub s m [] [] Hok Hc0) as Hgo. rewrite !app_nil_r in Hgo. by apply Hgo.
  - assert (Forall (message_ok auth (System_calls s) n) (msg :: rest)) as [Hmsg Hrest]%Forall_cons
      by (rewrite <-Hwire; apply (ho_wires _ _ _ Hm)).
    split; [done| |].
    + destruct Hm as [Hp Hs Hw]. split; [done|done|]. intros n'. cbn. rewrite wire_set. by case_decide; subst.
    + intros n'. unfold agent_of. cbn. rewrite wire_set, agent_of_set. case_decide as Hn; [|apply Ha]. subst n'.
      apply handle_ok; [done|]. rewrite <-Hwire. apply Ha.
  - split; [done|done|]. intros n'. unfold agent_of. cbn. destruct (decide (n' = n)) as [->|Hn].
    + rewrite lookup_delete_eq. split; [constructor|done|apply Ha].
    + rewrite lookup_delete_ne by congruence. apply Ha.
  - split; [done|done|]. intros n'. unfold agent_of. cbn. rewrite agent_of_set. case_decide as Hn; [|apply Ha].
    subst n'. apply (terminal_change _ _ _ _ _ (wire (System_hub s) n)); [done| |apply Ha].
    intros term Hterm Hfed. by destruct Hf as [-> | ->].
Qed.

(** C6 What a user types reaches only the terminal of an instance they were let
    into. In every history of openings, input, resizing, closing, messages of
    any node, reconnections and restarts, in any interleaving: every terminal a
    node runs belongs to one opening of a session, whose caller passed the
    check for that instance, which was running on that node; it runs in the
    instance of that name; and what was written to it is, in order and at most
    once, input of that session. The queue of a session never exceeds its 128
    messages, all of them addressed to it. *)
Theorem keystrokes_reach_their_instance (instances : MemoryInstanceStore) (s : System) :
  rtc step (first_system instances) s →
  (∀ n t term, AgentConsoles_terminals (agent_of s n) !! t = Some term →
     ∃ c inst, c ∈ System_calls s ∧ (∀ c', c' ∈ System_calls s → Call_sid c' = Terminal_sessionID term → c' = c) ∧
       Call_sid c = Terminal_sessionID term ∧ Call_found c = Ok inst ∧
       Authorize (Call_subject c) "instance:console" (Some (Instance_Resource inst)) = Ok () ∧
       Instance__Status inst = StatusRunning ∧ Instance__NodeID inst = n ∧
       Terminal_instanceName term = Instance__Name inst ∧
       Terminal_input term `sublist_of` typed_in (Call_sid c) (System_typed s)) ∧
  (∀ p pipe, Manager_pipes (System_hub s) !! p = Some pipe →
     (length (SessionPipe_Inbound pipe) ≤ pipe_capacity)%nat ∧
     Forall (λ m, ConsoleSessionMessage_SessionId m = SessionPipe_SessionID pipe) (SessionPipe_Inbound pipe)).
Proof.
  intros Hrun. assert (system_ok auth s) as [Hc [Hp _ _] Ha].
  { pose proof (first_ok instances) as Hok. induction Hrun; [done|]. eauto using step_ok. }
  split.
  - intros n t term Hterm. destruct (Ha n) as [Ht _ _].
    destruct (Forall_lookup_1 _ _ _ _ Ht Hterm) as [(inst & (c & Hin & Hsid & Hf & Hauth & Hrunning) & Hn & _ & Hname) Hfed].
    exists c, inst. split_and!; [done| |done..|].
    + intros c' Hin' Hsid'. apply list_elem_of_lookup in Hin as [i Hi], Hin' as [j Hj].
      assert (i = j) as ->; [|congruence].
      apply (NoDup_lookup (Call_sid <$> System_calls s) i j (Call_sid c) Hc);
        rewrite list_lookup_fmap, ?Hi, ?Hj; cbn; congruence.
    + rewrite Hsid. unfold fed in Hfed. etrans; [|exact Hfed]. by apply sublist_inserts_r.
  - intros p pipe Hpipe. by destruct (Forall_lookup_1 _ _ _ _ Hp Hpipe) as (_ & ? & ?).
Qed.
End guarantee.

(** ** A shell on [web] *)

Section demo.
#[local] Existing Instances tagging_digest MemoryAuditRepo.
Definition open_stream : ConsoleStream := λ _ _ _, Ok ().
#[local] Existing Instance open_stream.

Definition ada : Subject := mkSubject "user" "u1" "u1" "ada" "" [] ["instance:console"] [] ∅.
Definition open_console (kind : string) (m : Manager) : Manager :=
  (exec (StartSession DynamicAuthorizer true true (Some ada) "i1" kind "" 0 0) (calm 5) (m, empty_audit)).1.

Abbreviation demo_step := (console_step (A := AuditStore) DynamicAuthorizer true true).
Definition joined : Manager :=
  let m := NewManager demo_instances in
  m <| Manager_connected := partial_alter (λ _, Some "stream") "n1" (Manager_connected m) |>
    <| Manager_wires := delete "n1" (Manager_wires m) |>.
Definition site0 : System := first_system demo_instances.
Definition site1 : System := site0 <| System_hub := joined |>.
Definition site2 : System := site1 <| System_hub := open_console ConsoleTypeExec joined |>
  <| System_calls := [mkCall "uuid-0" (Some ada) (Ok demo_instance)] |>.
Definition arrive (s : System) : System :=
  match wire (System_hub s) "n1" with
  | msg :: rest =>
      s <| System_hub := (System_hub s) <| Manager_wires := <["n1" := rest]> (Manager_wires (System_hub s)) |> |>
        <| System_agents := <["n1" := exec (handleConsoleMessage (Some msg)) (calm 6) (agent_of s "n1")]>
             (System_agents s) |>
  | [] => s
  end.
Definition site3 : System := arrive site2.
Definition site4 : System := site3
  <| System_hub := exec (SendData true "uuid-0" "ls") (calm 7) (System_hub site3) |>
  <| System_typed := System_typed site3 ++ [("uuid-0", "ls")] |>.
Definition site5 : System := arrive site4.

Lemma keystrokes_reach_their_instance_witness :
  ∃ term, AgentConsoles_terminals (agent_of site5 "n1") !! 0%nat = Some term ∧
    Terminal_input term = ["ls"] ∧ Terminal_instanceName term = "web" ∧
    ∃ c inst, Call_found c = Ok inst ∧ Call_subject c = Some ada ∧ Instance__Name inst = "web" ∧
      Terminal_input term `sublist_of` typed_in (Call_sid c) (System_typed site5).
Proof.
  assert (rtc demo_step site0 site5) as Hrun.
  { apply (rtc_l _ _ site1).
    { apply (cs_hub _ _ _ site0), (hs_connection _ _ "n1" (Some "stream")). }
    apply (rtc_l _ _ site2).
    { refine (cs_start _ _ _ site1 (calm 5) empty_audit (Some ada) "i1" ConsoleTypeExec "" 0 0 _). set_solver. }
    apply (rtc_l _ _ site3); [by apply (cs_arrive _ _ _ site2 (calm 6) "n1" _ [])|].
    apply (rtc_l _ _ site4); [by apply (cs_input _ _ _ site3)|].
    by apply rtc_once, (cs_arrive _ _ _ site4 (calm 6) "n1" _ []). }
  destruct (keystrokes_reach_their_instance DynamicAuthorizer true true demo_instances site5 Hrun) as [H1 _].
  destruct (AgentConsoles_terminals (agent_of site5 "n1") !! 0%nat) as [term|] eqn:Hterm; [|by vm_compute in Hterm].
  destruct (H1 "n1" 0%nat term Hterm) as (c & inst & Hc & _ & Hsid & Hf & _ & _ & _ & Hname & Hin).
  assert (c = mkCall "uuid-0" (Some ada) (Ok demo_instance)) as -> by by apply list_elem_of_singleton in Hc.
  exists term. vm_compute in Hterm. injection Hterm as <-. injection Hf as <-.
  split_and!; [done..|]. by exists (mkCall "uuid-0" (Some ada) (Ok demo_instance)), demo_instance.
Defined.

(** The router does not look at where a message comes from: any node that
    names the session, with any instance, writes to the user's screen. *)
Lemma spoofed_output_accepted :
  let msg := mkConsoleSessionMessage "uuid-0" "another-instance" "" TYPE_DATA "" 0 0 [] "Password:" "" in
  (SessionPipe_Inbound <$> Manager_pipes (exec (HandleNodeMessage (Some msg)) (calm 8) (System_hub site5)) !! 0%nat)
  = Some [msg].
Proof. by vm_compute. Qed.

(** The kind of the session does not reach the node: a graphical session is a
    shell as well. *)
Lemma vnc_opens_a_shell :
  Manager_wires (open_console ConsoleTypeVNC joined) = Manager_wires (open_console ConsoleTypeExec joined) ∧
  (Terminal_sessionType <$> AgentConsoles_terminals (agent_of site5 "n1")) = ["/bin/bash"].
Proof. by vm_compute. Qed.

(** What does not fit in the queue of 128 messages is lost without a trace. *)
Lemma output_dropped :
  let flood := foldr (λ _ m, exec (HandleNodeMessage
    (Some (mkConsoleSessionMessage "uuid-0" "i1" "" TYPE_DATA "" 0 0 [] "line" ""))) (calm 8) m)
    (System_hub site5) (seq 0 200) in
  (length ∘ SessionPipe_Inbound <$> Manager_pipes flood !! 0%nat) = Some 128%nat.
Proof. by vm_compute. Qed.

(** The terminal is simulated: it echoes, it does not run anything. *)
Lemma terminal_echoes : StartConsole "web" "" 80 24 ["ls"; chr 13; "exit"; "ls"] =
  ([banner "/bin/bash" "web" 80 24; "ls"; CRLF +:+ prompt "web"; CRLF +:+ "logout" +:+ CRLF], false).
Proof. by vm_compute. Qed.
End demo.
