(* ===== verification/Notifications.v ===== *)
(** * Notifications

    [internal/domain/notification/notification.go], the repositories of
    [internal/infra/memory/notification_repo.go], the simulated e-mail
    provider [internal/infra/email/email.go] and the service
    [internal/app/notification/service.go], which the event bus calls for
    every event. *)

From S2P Require Import Prelude Identity AuditTrail Events Bus Backup.

Definition ErrNotificationNotFound := ErrNew "notification" "notification not found".

Definition SeveritySuccess : string := "success".
Definition SeverityWarning : string := "warning".
Definition SeverityError : string := "error".
Definition SeverityCritical : string := "critical".

Record Notification : Type := mkNotification {
  Notification_ID : string;
  Notification_TenantID : string;
  Notification_UserID : string;
  Notification_Type_ : string;
  Notification_Title : string;
  Notification_Body : string;
  Notification_Severity : string;
  Notification_ResourceType : string;
  Notification_ResourceID : string;
  Notification_ReadAt : option Z;
  Notification_CreatedAt : Z
}.
#[export] Instance Notification_eq_dec : EqDecision Notification.
Proof. solve_decision. Defined.

Definition eta_Notification (r : Notification) : Notification :=
  mkNotification (Notification_ID r) (Notification_TenantID r) (Notification_UserID r)
    (Notification_Type_ r) (Notification_Title r) (Notification_Body r)
    (Notification_Severity r) (Notification_ResourceType r) (Notification_ResourceID r)
    (Notification_ReadAt r) (Notification_CreatedAt r).
#[export] Instance set_Notification_ID : Setter Notification_ID := ltac:(setter eta_Notification Notification_ID).
#[export] Instance set_Notification_ReadAt : Setter Notification_ReadAt := ltac:(setter eta_Notification Notification_ReadAt).
#[export] Instance set_Notification_CreatedAt : Setter Notification_CreatedAt := ltac:(setter eta_Notification Notification_CreatedAt).

Record NotificationPreference : Type := mkNotificationPreference {
  NotificationPreference_UserID : string;
  NotificationPreference_EventType : string;
  NotificationPreference_InAppEnabled : bool;
  NotificationPreference_EmailEnabled : bool;
  NotificationPreference_WebhookEnabled : bool
}.
#[export] Instance NotificationPreference_eq_dec : EqDecision NotificationPreference.
Proof. solve_decision. Defined.

Definition eta_NotificationPreference (r : NotificationPreference) : NotificationPreference :=
  mkNotificationPreference (NotificationPreference_UserID r)
    (NotificationPreference_EventType r) (NotificationPreference_InAppEnabled r)
    (NotificationPreference_EmailEnabled r) (NotificationPreference_WebhookEnabled r).
#[export] Instance set_NotificationPreference_UserID : Setter NotificationPreference_UserID := ltac:(setter eta_NotificationPreference NotificationPreference_UserID).

Record Filter : Type := mkFilter {
  Filter_TenantID : string;
  Filter_UserID : string;
  Filter_UnreadOnly : bool;
  Filter_Severity : option string;
  Filter_Limit : Z;
  Filter_Offset : Z
}.

Definition eta_Filter (r : Filter) : Filter :=
  mkFilter (Filter_TenantID r) (Filter_UserID r) (Filter_UnreadOnly r)
    (Filter_Severity r) (Filter_Limit r) (Filter_Offset r).
#[export] Instance set_Filter_TenantID : Setter Filter_TenantID := ltac:(setter eta_Filter Filter_TenantID).
#[export] Instance set_Filter_UserID : Setter Filter_UserID := ltac:(setter eta_Filter Filter_UserID).

(** ** The repositories *)

Record MemoryNotificationRepo : Type := mkMemoryNotificationRepo {
  MemoryNotificationRepo_notifications : gmap string Notification;
  MemoryNotificationRepo_order : list string
}.

Definition eta_MemoryNotificationRepo (r : MemoryNotificationRepo) : MemoryNotificationRepo :=
  mkMemoryNotificationRepo (MemoryNotificationRepo_notifications r)
    (MemoryNotificationRepo_order r).
#[export] Instance set_MemoryNotificationRepo_notifications : Setter MemoryNotificationRepo_notifications := ltac:(setter eta_MemoryNotificationRepo MemoryNotificationRepo_notifications).
#[export] Instance set_MemoryNotificationRepo_order : Setter MemoryNotificationRepo_order := ltac:(setter eta_MemoryNotificationRepo MemoryNotificationRepo_order).

Definition NewMemoryNotificationRepo : MemoryNotificationRepo := mkMemoryNotificationRepo ∅ [].

Definition notification_Create (n : Notification) : go MemoryNotificationRepo () :=
  id ← (if decide (Notification_ID n = "") then uuid_NewString else mret (Notification_ID n));
  created ← (if decide (IsZero (Notification_CreatedAt n)) then time_Now
             else mret (Notification_CreatedAt n));
  let n := n <| Notification_ID := id |> <| Notification_CreatedAt := created |> in
  modify (λ r, r <| MemoryNotificationRepo_notifications :=
                      <[id := n]> (MemoryNotificationRepo_notifications r) |>
                 <| MemoryNotificationRepo_order := MemoryNotificationRepo_order r ++ [id] |>).

Definition notification_GetByID (id : string) : go MemoryNotificationRepo Notification :=
  r ← get;
  match MemoryNotificationRepo_notifications r !! id with
  | Some n => mret n
  | None => fail ErrNotificationNotFound
  end.

Definition notification_matches (f : Filter) (n : Notification) : Prop :=
  (Filter_TenantID f = "" ∨ Notification_TenantID n = Filter_TenantID f) ∧
  (Filter_UserID f = "" ∨ Notification_UserID n = Filter_UserID f) ∧
  (Filter_UnreadOnly f = false ∨ Notification_ReadAt n = None) ∧
  (Filter_Severity f = None ∨ Filter_Severity f = Some (Notification_Severity n)).
#[export] Instance notification_matches_dec f n : Decision (notification_matches f n).
Proof. unfold notification_matches. apply _. Defined.

Definition notification_List (f : Filter) : go MemoryNotificationRepo (list Notification * Z) :=
  r ← get;
  matched ← lift (collect_in (MemoryNotificationRepo_notifications r) (notification_matches f)
                    (rev (MemoryNotificationRepo_order r)));
  items ← lift (window matched (Filter_Limit f) (Filter_Offset f));
  mret (items, Z.of_nat (length matched)).

Definition repo_MarkAsRead (id userID : string) : go MemoryNotificationRepo () :=
  n ← notification_GetByID id;
  guard_err (Notification_UserID n ≠ userID) ErrNotificationNotFound ;;
  now ← time_Now;
  modify (λ r, r <| MemoryNotificationRepo_notifications :=
    <[id := n <| Notification_ReadAt := Some now |>]> (MemoryNotificationRepo_notifications r) |>).

Definition unread (userID : string) (n : Notification) : Prop :=
  Notification_UserID n = userID ∧ Notification_ReadAt n = None.
#[export] Instance unread_dec userID n : Decision (unread userID n).
Proof. unfold unread. apply _. Defined.

(** The loops visit every entry once: the order does not matter. *)
Definition repo_MarkAllAsRead (userID : string) : go MemoryNotificationRepo Z :=
  now ← time_Now;
  r ← get;
  let m := MemoryNotificationRepo_notifications r in
  put (r <| MemoryNotificationRepo_notifications :=
    (λ n, if decide (unread userID n) then n <| Notification_ReadAt := Some now |> else n) <$> m |>) ;;
  mret (Z.of_nat (length (filter (unread userID) (map_to_list m).*2))).

Definition repo_GetUnreadCount (userID : string) : go MemoryNotificationRepo Z :=
  r ← get;
  mret (Z.of_nat (length (filter (unread userID) (map_to_list (MemoryNotificationRepo_notifications r)).*2))).

Abbreviation PreferenceStore := (gmap string (gmap string NotificationPreference)).

Definition repo_GetPreferences (userID : string) : go PreferenceStore (list NotificationPreference) :=
  m ← get;
  match m !! userID with
  | Some prefs => list_in prefs (λ _, True)
  | None => mret []
  end.

(** The stored preference, or every channel. *)
Definition preference (m : PreferenceStore) (userID eventType : string) : NotificationPreference :=
  match m !! userID ≫= λ prefs, prefs !! eventType with
  | Some p => p
  | None => mkNotificationPreference userID eventType true true true
  end.
Definition repo_GetPreference (userID eventType : string) : go PreferenceStore NotificationPreference :=
  m ← get; mret (preference m userID eventType).

Definition repo_SetPreference (p : NotificationPreference) : go PreferenceStore () :=
  modify (λ m, <[NotificationPreference_UserID p :=
    <[NotificationPreference_EventType p := p]>
      (default ∅ (m !! NotificationPreference_UserID p))]> m).

(** ** E-mails *)

Record SentEmail : Type := mkSentEmail {
  SentEmail_ID : string;
  SentEmail_To : string;
  SentEmail_Subject : string;
  SentEmail_HTMLBody : string;
  SentEmail_TextBody : string;
  SentEmail_EventType : string;
  SentEmail_SentAt : Z
}.

Definition quote : string := String (Ascii.ascii_of_N 34) "".
Definition LF : string := String (Ascii.ascii_of_N 10) "".
Definition TABS (n : nat) : string := Nat.iter n (String (Ascii.ascii_of_N 9)) "".

Section email.
Context `{!TimeFormat}.

Definition email_subject (e : Event) : string :=
  "[Aurora Cloud] " +:+ Event_Type_ e +:+ " notification for " +:+ Event_ResourceID e.
Definition email_text (e : Event) : string :=
  "Hello," +:+ LF +:+ LF +:+ "An event occurred in your Project Aurora tenant:" +:+ LF +:+
  "- Event: " +:+ Event_Type_ e +:+ LF +:+
  "- Resource: " +:+ Event_ResourceID e +:+ " (" +:+ Event_ResourceType e +:+ ")" +:+ LF +:+
  "- Timestamp: " +:+ time_RFC3339 (Event_Timestamp e) +:+ LF +:+ LF +:+
  "Best regards," +:+ LF +:+ "Aurora Cloud Platform".
(** The texts of the event are put in as they are. *)
Definition email_html (e : Event) : string :=
  "<div style=" +:+ quote +:+ "font-family: sans-serif; padding: 20px;" +:+ quote +:+ ">" +:+ LF +:+
  TABS 3 +:+ "<h2>Aurora Cloud Notification</h2>" +:+ LF +:+
  TABS 3 +:+ "<p><strong>Event:</strong> " +:+ Event_Type_ e +:+ "</p>" +:+ LF +:+
  TABS 3 +:+ "<p><strong>Resource:</strong> " +:+ Event_ResourceID e +:+ " (" +:+ Event_ResourceType e +:+
    ")</p>" +:+ LF +:+
  TABS 3 +:+ "<p><strong>Time:</strong> " +:+ time_RFC3339 (Event_Timestamp e) +:+ "</p>" +:+ LF +:+
  TABS 2 +:+ "</div>".

Definition deposit (to subject html text kind : string) : go (list SentEmail) () :=
  named_at ← time_Now;
  sent_at ← time_Now;
  modify (λ es, es ++ [mkSentEmail ("email-" +:+ fmt_d (UnixNano named_at)) to subject html text kind sent_at]).
Definition SendEmail (to subject html text : string) : go (list SentEmail) () :=
  deposit to subject html text "".
Definition SendEventNotification (to : string) (e : Event) : go (list SentEmail) () :=
  deposit to (email_subject e) (email_html e) (email_text e) (Event_Type_ e).
Definition GetSentEmails : go (list SentEmail) (list SentEmail) := get.
Definition Clear : go (list SentEmail) () := put [].
End email.

(** ** The service *)

Record NotificationEnv : Type := mkNotificationEnv {
  NotificationEnv_inbox : MemoryNotificationRepo;
  NotificationEnv_prefs : PreferenceStore;
  NotificationEnv_emails : list SentEmail
}.

Definition eta_NotificationEnv (r : NotificationEnv) : NotificationEnv :=
  mkNotificationEnv (NotificationEnv_inbox r) (NotificationEnv_prefs r)
    (NotificationEnv_emails r).
#[export] Instance set_NotificationEnv_inbox : Setter NotificationEnv_inbox := ltac:(setter eta_NotificationEnv NotificationEnv_inbox).
#[export] Instance set_NotificationEnv_prefs : Setter NotificationEnv_prefs := ltac:(setter eta_NotificationEnv NotificationEnv_prefs).
#[export] Instance set_NotificationEnv_emails : Setter NotificationEnv_emails := ltac:(setter eta_NotificationEnv NotificationEnv_emails).

Definition on_inbox {X} (m : go MemoryNotificationRepo X) : go NotificationEnv X :=
  zoom NotificationEnv_inbox (λ x s, s <| NotificationEnv_inbox := x |>) m.
Definition on_prefs {X} (m : go PreferenceStore X) : go NotificationEnv X :=
  zoom NotificationEnv_prefs (λ x s, s <| NotificationEnv_prefs := x |>) m.
Definition on_emails {X} (m : go (list SentEmail) X) : go NotificationEnv X :=
  zoom NotificationEnv_emails (λ x s, s <| NotificationEnv_emails := x |>) m.

Definition formatEventNotification (e : Event) : string * string * string :=
  let t := Event_Type_ e in
  let id := Event_ResourceID e in
  if decide (t = "instance.created") then
    ("Instance Provisioned",
     "Instance " +:+ id +:+ " (" +:+ Event_ResourceType e +:+ ") was provisioned successfully.", SeveritySuccess)
  else if decide (t = "instance.deleted") then
    ("Instance Terminated", "Instance " +:+ id +:+ " has been deleted.", SeverityInfo)
  else if decide (t = "instance.started") then
    ("Instance Started", "Instance " +:+ id +:+ " is now running.", SeveritySuccess)
  else if decide (t = "instance.stopped") then
    ("Instance Stopped", "Instance " +:+ id +:+ " has stopped.", SeverityInfo)
  else if decide (t = "instance.error") then
    ("Instance Failure", "Instance " +:+ id +:+ " encountered an error during operation.", SeverityError)
  else if decide (t = "billing.subscription.created") then
    ("Subscription Active", "Subscription to plan " +:+ id +:+ " is now active.", SeveritySuccess)
  else if decide (t = "billing.invoice.created") then
    ("New Invoice Generated", "Invoice " +:+ id +:+ " has been generated for your account.", SeverityInfo)
  else if decide (t = "billing.quota.exceeded") then
    ("Quota Limit Exceeded", "Resource allocation request exceeded your current subscription quota.",
     SeverityWarning)
  else if decide (t = "monitoring.alert") then
    ("Monitoring Alert Triggered", "High resource threshold exceeded for " +:+ id +:+ ".", SeverityWarning)
  else if decide (t = "audit.integrity_failure") then
    ("Security Incident Detected", "Audit ledger hash verification failed. Possible tamper attempt.",
     SeverityCritical)
  else ("Event: " +:+ t, "Event occurred on " +:+ id +:+ " (" +:+ Event_ResourceType e +:+ ")", SeverityInfo).

(** The notification of an event. *)
Definition notice (id : string) (now : Z) (e : Event) : Notification :=
  let '(title, body, severity) := formatEventNotification e in
  mkNotification id (Event_TenantID e) (Event_TenantID e) (Event_Type_ e) title body severity
    (Event_ResourceType e) (Event_ResourceID e) None now.

Section service.
Context {A : Type} `{!AuditRepository A, !TimeFormat} (authz : Authorizer) (has_audit has_email : bool).
Abbreviation env := (NotificationEnv * A)%type.

Definition HandleEvent (e : Event) : go NotificationEnv () :=
  pref ← on_prefs (repo_GetPreference (Event_TenantID e) (Event_Type_ e));
  (if NotificationPreference_InAppEnabled pref then
     id ← uuid_NewString;
     now ← time_Now;
     ignore (on_inbox (notification_Create (notice id now e)))
   else mret ()) ;;
  if has_email && NotificationPreference_EmailEnabled pref then
    ignore (on_emails (SendEventNotification (Event_TenantID e +:+ "@aurora.local") e))
  else mret ().

(** [sub.HasPermission] and [sub.UserID] are dereferences. *)
Definition caller {St} (sub : option Subject) : go St Subject :=
  match sub with Some s => mret s | None => lift (panic "nil pointer dereference") end.

Definition ListNotifications (sub : option Subject) (f : Filter) : go env (list Notification * Z) :=
  authorize authz sub "notification:read" None ;;
  s ← caller sub;
  let f := if HasPermission s "*" then f
           else f <| Filter_TenantID := Subject_UserID s |> <| Filter_UserID := Subject_UserID s |> in
  on_store (on_inbox (notification_List f)).

Definition MarkAsRead (sub : option Subject) (id : string) : go env () :=
  authorize authz sub "notification:manage" None ;;
  s ← caller sub;
  on_store (on_inbox (repo_MarkAsRead id (Subject_UserID s))).

Definition MarkAllAsRead (sub : option Subject) : go env Z :=
  authorize authz sub "notification:manage" None ;;
  s ← caller sub;
  on_store (on_inbox (repo_MarkAllAsRead (Subject_UserID s))).

Definition GetUnreadCount (sub : option Subject) : go env Z :=
  authorize authz sub "notification:read" None ;;
  s ← caller sub;
  on_store (on_inbox (repo_GetUnreadCount (Subject_UserID s))).

Definition GetPreferences (sub : option Subject) : go env (list NotificationPreference) :=
  authorize authz sub "notification:read" None ;;
  s ← caller sub;
  on_store (on_prefs (repo_GetPreferences (Subject_UserID s))).

Definition log_preference (s : Subject) (p : NotificationPreference) : go env () :=
  if has_audit then
    let user := Subject_UserID s in
    let given := if decide (user = "") then None else Some user in
    now ← time_Now;
    ignore (zoom snd (λ a r, (fst r, a)) (Record_
      ((new_log given "notification.preference_update" "user" given
        (Some (details [("eventType", AnyStr (NotificationPreference_EventType p));
                        ("inApp", AnyBool (NotificationPreference_InAppEnabled p));
                        ("email", AnyBool (NotificationPreference_EmailEnabled p));
                        ("webhook", AnyBool (NotificationPreference_WebhookEnabled p))])) now)
       <| AuditLog_Severity := SeverityInfo |>)))
  else mret ().

Definition SetPreference (sub : option Subject) (p : NotificationPreference) : go env () :=
  authorize authz sub "notification:manage" None ;;
  s ← caller sub;
  let p := p <| NotificationPreference_UserID := Subject_UserID s |> in
  on_store (on_prefs (repo_SetPreference p)) ;;
  log_preference s p.
End service.

(** ** What a user finds in the inbox *)

(** A notification without what the repository gives it. *)
Definition shown (n : Notification) : Notification :=
  n <| Notification_ID := "" |> <| Notification_ReadAt := None |> <| Notification_CreatedAt := 0 |>.

Definition wants_notice (m : PreferenceStore) (e : Event) : bool :=
  NotificationPreference_InAppEnabled (preference m (Event_TenantID e) (Event_Type_ e)).

Section history.
Context {A : Type} `{!AuditRepository A, !TimeFormat} (authz : Authorizer) (has_audit has_email : bool).
Abbreviation env := (NotificationEnv * A)%type.

(** A history: the state, and the events that called for a notification when
    they were handled. Identifiers are new when they are drawn. *)
Inductive inbox_step : env * list Event → env * list Event → Prop :=
  | is_event w e s log :
      w_uuid w (w_uuids w) ≠ "" →
      MemoryNotificationRepo_notifications (NotificationEnv_inbox s.1) !! w_uuid w (w_uuids w) = None →
      inbox_step (s, log)
        (exec (on_store (HandleEvent has_email e)) w s,
         if wants_notice (NotificationEnv_prefs s.1) e then log ++ [e] else log)
  | is_read w sub id s log : inbox_step (s, log) (exec (MarkAsRead authz sub id) w s, log)
  | is_read_all w sub s log : inbox_step (s, log) (exec (MarkAllAsRead authz sub) w s, log)
  | is_prefer w sub p s log : inbox_step (s, log) (exec (SetPreference authz has_audit sub p) w s, log).

Record inbox_ok (r : MemoryNotificationRepo) (log : list Event) : Prop := {
  io_nodup : NoDup (MemoryNotificationRepo_order r);
  io_dom : ∀ id, is_Some (MemoryNotificationRepo_notifications r !! id) → id ∈ MemoryNotificationRepo_order r;
  io_log : Forall2 (λ id e, shown <$> MemoryNotificationRepo_notifications r !! id = Some (notice "" 0 e))
    (MemoryNotificationRepo_order r) log }.

Lemma inbox_ok_new : inbox_ok NewMemoryNotificationRepo [].
Proof. split; [constructor| |constructor]. intros id Hid. cbn in Hid. by rewrite lookup_empty in Hid; destruct Hid. Qed.

(** Marks change nothing that is shown. *)
Lemma inbox_ok_marked r m' log :
  (∀ id, shown <$> m' !! id = shown <$> MemoryNotificationRepo_notifications r !! id) →
  inbox_ok r log → inbox_ok (r <| MemoryNotificationRepo_notifications := m' |>) log.
Proof.
  intros Hm [Hn Hd Hl]. split; [done| |]; cbn.
  - intros id Hid. apply Hd. specialize (Hm id). destruct Hid as [n Hid]. rewrite Hid in Hm.
    destruct (_ !! id); [by eexists|done].
  - eapply Forall2_impl; [exact Hl|]. intros id e He. by rewrite Hm.
Qed.

Lemma Forall2_elem_impl {X Y} (P Q : X → Y → Prop) l k :
  Forall2 P l k → (∀ x y, x ∈ l → P x y → Q x y) → Forall2 Q l k.
Proof. induction 1; intros HPQ; constructor; set_solver. Qed.

Lemma inbox_ok_new_notice r log id now e :
  MemoryNotificationRepo_notifications r !! id = None → inbox_ok r log →
  inbox_ok (r <| MemoryNotificationRepo_notifications :=
                <[id := notice id now e]> (MemoryNotificationRepo_notifications r) |>
              <| MemoryNotificationRepo_order := MemoryNotificationRepo_order r ++ [id] |>) (log ++ [e]).
Proof.
  intros Hid [Hn Hd Hl]. assert (id ∉ MemoryNotificationRepo_order r) as Hnew.
  { intros Hin. apply list_elem_of_lookup in Hin as [i Hi].
    destruct (Forall2_lookup_l _ _ _ _ _ Hl Hi) as (e' & _ & He'). by rewrite Hid in He'. }
  split; cbn.
  - apply NoDup_app. split_and!; [done| |repeat constructor; set_solver]. intros x Hx ->%list_elem_of_singleton. done.
  - intros i Hi. destruct (decide (i = id)) as [->|Hne]; [set_solver|].
    rewrite lookup_insert_ne in Hi by congruence. apply elem_of_app. left. by apply Hd.
  - apply Forall2_app.
    + eapply Forall2_elem_impl; [exact Hl|]. intros i x Hi Hx. by rewrite lookup_insert_ne by congruence.
    + constructor; [|constructor]. rewrite lookup_insert_eq. cbn. unfold notice. by repeat case_match.
Qed.

(** Every notification once, in the order of filing. *)
Definition filed (r : MemoryNotificationRepo) : list Notification :=
  omap (λ id, MemoryNotificationRepo_notifications r !! id) (MemoryNotificationRepo_order r).

Lemma filed_shown r log : inbox_ok r log → shown <$> filed r = notice "" 0 <$> log.
Proof.
  intros [_ _ Hl]. unfold filed. induction Hl as [|id e ids log He _ IH]; [done|]. cbn.
  destruct (_ !! id); [|done]. cbn in *. injection He as He. by rewrite He, IH.
Qed.

Lemma filed_values r log : inbox_ok r log →
  (map_to_list (MemoryNotificationRepo_notifications r)).*2 ≡ₚ filed r.
Proof.
  intros [Hn Hd Hl]. set (m := MemoryNotificationRepo_notifications r) in *.
  assert (MemoryNotificationRepo_order r ≡ₚ (map_to_list m).*1) as Ho.
  { apply NoDup_Permutation; [done|apply NoDup_fst_map_to_list|]. intros id. split.
    - intros Hin. apply list_elem_of_lookup in Hin as [i Hi].
      destruct (Forall2_lookup_l _ _ _ _ _ Hl Hi) as (e & _ & He). fold m in He.
      destruct (m !! id) as [n|] eqn:Hm; [|done]. apply list_elem_of_fmap. exists (id, n).
      split; [done|]. by apply elem_of_map_to_list.
    - intros ([i n] & -> & Hin)%list_elem_of_fmap. apply elem_of_map_to_list in Hin. apply Hd. by eexists. }
  unfold filed. fold m. rewrite Ho.
  pose proof (entries_perm (λ l, l) m (λ l, reflexivity l)) as He. unfold entries in He.
  trans ((omap (λ k, pair k <$> m !! k) (map_to_list m).*1).*2); [by rewrite He|].
  generalize ((map_to_list m).*1). clear. intros l. induction l as [|k l IH]; [done|]. cbn.
  destruct (m !! k); cbn; [|done]. by apply perm_skip.
Qed.

Lemma collect_filed r log P `{!∀ n, Decision (P n)} : inbox_ok r log →
  collect_in (MemoryNotificationRepo_notifications r) P (rev (MemoryNotificationRepo_order r)) =
  Ok (filter P (rev (filed r))).
Proof.
  intros [_ _ Hl]. unfold filed. set (m := MemoryNotificationRepo_notifications r) in *.
  assert (Forall (λ id, is_Some (m !! id)) (rev (MemoryNotificationRepo_order r))) as Hs.
  { apply Forall_rev, Forall_lookup. intros i id Hi.
    destruct (Forall2_lookup_l _ _ _ _ _ Hl Hi) as (e & _ & He). destruct (m !! id); [by eexists|done]. }
  replace (rev (omap (λ id, m !! id) (MemoryNotificationRepo_order r)))
    with (omap (λ id, m !! id) (rev (MemoryNotificationRepo_order r))).
  - induction Hs as [|id ids [n Hn] _ IH]; [done|].
    cbn [collect_in omap list_omap]. rewrite Hn, IH, filter_cons. by case_decide.
  - clear. induction (MemoryNotificationRepo_order r) as [|id ids IH]; [done|]. cbn.
    rewrite omap_app, IH. cbn. destruct (m !! id); [done|]. by rewrite app_nil_r.
Qed.

(** ** The steps *)

Lemma wp_dereference {St} sub (Q : result Subject → St → World → Prop) w s :
  (∀ u, sub = Some u → Q (Ok u) s w) → (sub = None → ∀ e, Q (Err e) s w) → wp (caller sub) Q w s.
Proof. intros Hs Hn. unfold caller. destruct sub; [rewrite wp_ret; auto|rewrite wp_lift; by apply Hn]. Qed.

Lemma mark_shown n now : shown (n <| Notification_ReadAt := Some now |>) = shown n.
Proof. done. Qed.

Lemma HandleEvent_ok w e (s : env) log :
  w_uuid w (w_uuids w) ≠ "" →
  MemoryNotificationRepo_notifications (NotificationEnv_inbox s.1) !! w_uuid w (w_uuids w) = None →
  inbox_ok (NotificationEnv_inbox s.1) log →
  inbox_ok (NotificationEnv_inbox (exec (on_store (HandleEvent has_email e)) w s).1)
    (if wants_notice (NotificationEnv_prefs s.1) e then log ++ [e] else log).
Proof.
  intros Hne Hnew Hok. destruct s as [s a]. cbn [fst] in *.
  apply (proj1 (wp_elim (on_store (A := A) (HandleEvent has_email e)) (λ _ (s' : env) _,
    inbox_ok (NotificationEnv_inbox s'.1) (if wants_notice (NotificationEnv_prefs s) e then log ++ [e] else log)) w (s, a))).
  rewrite wp_on_store. unfold HandleEvent, on_prefs, repo_GetPreference.
  rewrite wp_bind, wp_zoom, wp_bind, wp_get, wp_ret. fold (wants_notice (NotificationEnv_prefs s) e).
  replace (s <| NotificationEnv_prefs := NotificationEnv_prefs s |>) with s by by destruct s.
  rewrite wp_bind. set (log' := if wants_notice _ _ then log ++ [e] else log).
  assert (∀ w' s', inbox_ok (NotificationEnv_inbox s') log' →
    wp (if has_email && NotificationPreference_EmailEnabled
          (preference (NotificationEnv_prefs s) (Event_TenantID e) (Event_Type_ e))
        then ignore (on_emails (SendEventNotification (Event_TenantID e +:+ "@aurora.local") e)) else mret ())
      (λ _ s' _, inbox_ok (NotificationEnv_inbox s') log') w' s') as Hmail.
  { intros w' s' Hs'. case_match; [|by rewrite wp_ret]. rewrite wp_ignore. unfold on_emails.
    rewrite wp_zoom. unfold SendEventNotification, deposit.
    by rewrite wp_bind, wp_now, wp_bind, wp_now, wp_modify. }
  unfold log' in *. destruct (wants_notice (NotificationEnv_prefs s) e); [|rewrite wp_ret; by apply Hmail].
  rewrite wp_bind, wp_uuid, wp_bind, wp_now, wp_ignore. unfold on_inbox. rewrite wp_zoom.
  set (id := w_uuid w (w_uuids w)) in *. unfold notification_Create.
  assert (∀ now, Notification_ID (notice id now e) = id) as Hid by (intros now; unfold notice; by repeat case_match).
  rewrite wp_bind, Hid, (decide_False (P := id = "")) by done. rewrite wp_ret, wp_bind.
  assert (∀ now now', (notice id now e) <| Notification_ID := id |> <| Notification_CreatedAt := now' |> =
    notice id now' e) as Hnow by (intros now now'; unfold notice; by repeat case_match).
  case_decide; [rewrite wp_now|rewrite wp_ret]; rewrite wp_modify; apply Hmail; cbn; rewrite Hnow;
    by apply inbox_ok_new_notice.
Qed.

Lemma MarkAsRead_ok w sub id (s : env) log :
  inbox_ok (NotificationEnv_inbox s.1) log →
  inbox_ok (NotificationEnv_inbox (exec (MarkAsRead authz sub id) w s).1) log.
Proof.
  intros Hok. destruct s as [s a]. cbn [fst] in *.
  apply (proj1 (wp_elim (MarkAsRead authz sub id) (λ _ (s' : env) _,
    inbox_ok (NotificationEnv_inbox s'.1) log) w (s, a))).
  unfold MarkAsRead, authorize. rewrite wp_bind, wp_lift. destruct (Authorize _ _ _); [|done].
  rewrite wp_bind. apply wp_dereference; [|done]. intros u _. rewrite wp_on_store. unfold on_inbox. rewrite wp_zoom.
  unfold repo_MarkAsRead, notification_GetByID. rewrite wp_bind, wp_bind, wp_get.
  destruct (_ !! id) as [n|] eqn:Hn; [|by rewrite wp_fail]. rewrite wp_ret, wp_bind. unfold guard_err.
  case_decide; [by rewrite wp_fail|]. rewrite wp_ret, wp_bind, wp_now, wp_modify.
  apply inbox_ok_marked; [|done]. intros i. destruct (decide (i = id)) as [->|Hi].
  - rewrite lookup_insert_eq, Hn. cbn. by rewrite mark_shown.
  - by rewrite lookup_insert_ne by congruence.
Qed.

Lemma mark_all_ok r log u now :
  inbox_ok r log →
  inbox_ok (r <| MemoryNotificationRepo_notifications :=
    (λ n, if decide (unread u n) then n <| Notification_ReadAt := Some now |> else n) <$>
      MemoryNotificationRepo_notifications r |>) log.
Proof.
  intros Hok. apply inbox_ok_marked; [|done]. intros i. rewrite lookup_fmap.
  destruct (_ !! i); [|done]. cbn. by case_decide.
Qed.

Lemma MarkAllAsRead_ok w sub (s : env) log :
  inbox_ok (NotificationEnv_inbox s.1) log →
  inbox_ok (NotificationEnv_inbox (exec (MarkAllAsRead authz sub) w s).1) log.
Proof.
  intros Hok. destruct s as [s a]. cbn [fst] in *.
  apply (proj1 (wp_elim (MarkAllAsRead authz sub) (λ _ (s' : env) _,
    inbox_ok (NotificationEnv_inbox s'.1) log) w (s, a))).
  unfold MarkAllAsRead, authorize. rewrite wp_bind, wp_lift. destruct (Authorize _ _ _); [|done].
  rewrite wp_bind. apply wp_dereference; [|done]. intros u _. rewrite wp_on_store. unfold on_inbox. rewrite wp_zoom.
  unfold repo_MarkAllAsRead. rewrite wp_bind, wp_now, wp_bind, wp_get, wp_bind, wp_put, wp_ret.
  by apply mark_all_ok.
Qed.

Lemma SetPreference_ok w sub p (s : env) log :
  inbox_ok (NotificationEnv_inbox s.1) log →
  inbox_ok (NotificationEnv_inbox (exec (SetPreference authz has_audit sub p) w s).1) log.
Proof.
  intros Hok. destruct s as [s a]. cbn [fst] in *.
  apply (proj1 (wp_elim (SetPreference authz has_audit sub p) (λ _ (s' : env) _,
    inbox_ok (NotificationEnv_inbox s'.1) log) w (s, a))).
  unfold SetPreference, authorize. rewrite wp_bind, wp_lift. destruct (Authorize _ _ _); [|done].
  rewrite wp_bind. apply wp_dereference; [|done]. intros u _. rewrite wp_bind, wp_on_store. unfold on_prefs.
  rewrite wp_zoom. unfold repo_SetPreference. rewrite wp_modify. unfold log_preference.
  destruct has_audit; [|by rewrite wp_ret]. rewrite wp_bind, wp_now, wp_ignore, wp_zoom.
  unfold wp. by destruct (Record_ _ _ _) as [[??]?].
Qed.

Lemma inbox_step_ok p p' :
  inbox_step p p' → inbox_ok (NotificationEnv_inbox p.1.1) p.2 → inbox_ok (NotificationEnv_inbox p'.1.1) p'.2.
Proof.
  destruct 1; cbn [fst snd]; eauto using HandleEvent_ok, MarkAsRead_ok, MarkAllAsRead_ok, SetPreference_ok.
Qed.
End history.

Section guarantee.
Context {A : Type} `{!AuditRepository A, !TimeFormat} (authz : Authorizer) (has_audit has_email : bool).
Abbreviation env := (NotificationEnv * A)%type.
Abbreviation step := (inbox_step (A := A) authz has_audit has_email).

Definition everything : Filter := mkFilter "" "" false None 0 0.
Definition no_notifications : NotificationEnv := mkNotificationEnv NewMemoryNotificationRepo ∅ [].

(** Nobody else's and all of one's own. *)
Definition own (u : string) (n : Notification) : Prop := Notification_TenantID n = u.
#[local] Instance own_dec u n : Decision (own u n).
Proof. unfold own. apply _. Defined.

Lemma filed_tenant r log n : inbox_ok r log → n ∈ filed r → Notification_UserID n = Notification_TenantID n.
Proof.
  intros Hok Hn. pose proof (filed_shown r log Hok) as Hs.
  assert (shown n ∈ notice "" 0 <$> log) as He by (rewrite <-Hs; by apply list_elem_of_fmap_2).
  apply list_elem_of_fmap in He as (e & He & _).
  change (Notification_UserID (shown n) = Notification_TenantID (shown n)). rewrite He. unfold notice.
  by repeat case_match.
Qed.

Lemma filter_ext_elem {X} (P Q : X → Prop) `{!∀ x, Decision (P x), !∀ x, Decision (Q x)} (l : list X) :
  (∀ x, x ∈ l → P x ↔ Q x) → filter P l = filter Q l.
Proof.
  induction l as [|x l IH]; intros HPQ; [done|]. rewrite !filter_cons, IH by set_solver.
  specialize (HPQ x ltac:(set_solver)). repeat case_decide; tauto.
Qed.

Lemma shown_own u (l : list Notification) (log : list Event) : shown <$> l = notice "" 0 <$> log →
  shown <$> filter (own u) l = notice "" 0 <$> filter (λ e, Event_TenantID e = u) log.
Proof.
  revert log. induction l as [|n l IH]; intros [|e log] Hl; try done.
  cbn in Hl. injection Hl as Hn Hl. rewrite !filter_cons.
  assert (own u n ↔ Event_TenantID e = u) as Hiff.
  { unfold own. change (Notification_TenantID n) with (Notification_TenantID (shown n)). rewrite Hn.
    unfold notice. by repeat case_match. }
  repeat case_decide; try tauto; cbn; [|by apply IH]. f_equal; [done|by apply IH].
Qed.

Lemma own_items r log u : inbox_ok r log → u ≠ "" →
  collect_in (MemoryNotificationRepo_notifications r)
    (notification_matches (everything <| Filter_TenantID := u |> <| Filter_UserID := u |>))
    (rev (MemoryNotificationRepo_order r)) = Ok (rev (filter (own u) (filed r))).
Proof.
  intros Hok Hu. rewrite (collect_filed r log) by done. f_equal.
  rewrite (filter_ext_elem _ (own u)).
  - clear. induction (filed r) as [|n l IH]; [done|]. cbn [rev]. rewrite filter_app, IH, !filter_cons, filter_nil.
    case_decide; [done|]. by rewrite app_nil_r.
  - intros n Hn. assert (n ∈ filed r) as Hin.
    { apply list_elem_of_In. rewrite in_rev. by apply list_elem_of_In. }
    pose proof (filed_tenant r log n Hok Hin). unfold notification_matches, own. cbn. naive_solver.
Qed.

Lemma unread_count r log u : inbox_ok r log →
  length (filter (unread u) (map_to_list (MemoryNotificationRepo_notifications r)).*2) =
  length (filter (λ n, Notification_ReadAt n = None) (rev (filter (own u) (filed r)))).
Proof.
  intros Hok. rewrite (filed_values r log Hok).
  assert (filter (unread u) (filed r) = filter (λ n, Notification_ReadAt n = None) (filter (own u) (filed r))) as ->.
  { rewrite list_filter_filter. apply filter_ext_elem. intros n Hn.
    pose proof (filed_tenant r log n Hok Hn). unfold unread, own. naive_solver. }
  generalize (filter (own u) (filed r)). intros l. induction l as [|n l IH]; [done|]. cbn [rev].
  rewrite filter_app, length_app, <-IH, !filter_cons, filter_nil. case_decide; cbn; lia.
Qed.

Definition items (r : MemoryNotificationRepo) (u : string) : list Notification := rev (filter (own u) (filed r)).

Lemma window_all {X} (l : list X) : window l 0 0 = Ok l.
Proof.
  unfold window, slice_range. cbv zeta. case_decide as Hl.
  - by destruct l.
  - rewrite (decide_True (P := 0 ≤ 0 ∨ _)) by lia. rewrite decide_True by lia.
    by rewrite drop_0, take_ge by lia.
Qed.

Section queries.
Context (s : env) (log : list Event) (u : Subject).
Context (Hok : inbox_ok (NotificationEnv_inbox s.1) log).

Lemma list_answer w :
  Authorize (Some u) "notification:read" None = Ok () → HasPermission u "*" = false → Subject_UserID u ≠ "" →
  answer (ListNotifications authz (Some u) everything) w s =
    Ok (items (NotificationEnv_inbox s.1) (Subject_UserID u),
        Z.of_nat (length (items (NotificationEnv_inbox s.1) (Subject_UserID u)))).
Proof.
  intros Hauth Hstar Hu. destruct s as [s0 a]. cbn [fst] in *.
  apply (proj1 (wp_elim (ListNotifications authz (Some u) everything) (λ r (_ : env) _, r = _) w (s0, a))).
  unfold ListNotifications, authorize. rewrite wp_bind, wp_lift, Hauth, wp_bind. cbn [caller].
  rewrite wp_ret, Hstar, wp_on_store. unfold on_inbox. rewrite wp_zoom. unfold notification_List.
  rewrite wp_bind, wp_get, wp_bind, wp_lift, (own_items _ log) by done.
  rewrite wp_bind, wp_lift. change (Filter_Limit _) with 0. change (Filter_Offset _) with 0.
  by rewrite window_all, wp_ret.
Qed.

Lemma count_answer w :
  Authorize (Some u) "notification:read" None = Ok () →
  answer (GetUnreadCount authz (Some u)) w s =
    Ok (Z.of_nat (length (filter (λ n, Notification_ReadAt n = None)
      (items (NotificationEnv_inbox s.1) (Subject_UserID u))))).
Proof.
  intros Hauth. destruct s as [s0 a]. cbn [fst] in *.
  apply (proj1 (wp_elim (GetUnreadCount authz (Some u)) (λ r (_ : env) _, r = _) w (s0, a))).
  unfold GetUnreadCount, authorize. rewrite wp_bind, wp_lift, Hauth, wp_bind. cbn [caller].
  rewrite wp_ret, wp_on_store. unfold on_inbox. rewrite wp_zoom. unfold repo_GetUnreadCount.
  rewrite wp_bind, wp_get, wp_ret. unfold items. by rewrite (unread_count _ log).
Qed.

Lemma mark_all_answer w :
  Authorize (Some u) "notification:manage" None = Ok () →
  answer (MarkAllAsRead authz (Some u)) w s =
    Ok (Z.of_nat (length (filter (λ n, Notification_ReadAt n = None)
      (items (NotificationEnv_inbox s.1) (Subject_UserID u))))) ∧
  Forall (λ n, Notification_ReadAt n ≠ None)
    (items (NotificationEnv_inbox (exec (MarkAllAsRead authz (Some u)) w s).1) (Subject_UserID u)).
Proof.
  intros Hauth. destruct s as [s0 a]. cbn [fst] in *.
  apply (proj1 (wp_elim (MarkAllAsRead authz (Some u)) (λ r (s' : env) _, r = _ ∧
    Forall (λ n, Notification_ReadAt n ≠ None) (items (NotificationEnv_inbox s'.1) (Subject_UserID u))) w (s0, a))).
  unfold MarkAllAsRead, authorize. rewrite wp_bind, wp_lift, Hauth, wp_bind. cbn [caller].
  rewrite wp_ret, wp_on_store. unfold on_inbox. rewrite wp_zoom. unfold repo_MarkAllAsRead.
  rewrite wp_bind, wp_now, wp_bind, wp_get, wp_bind, wp_put, wp_ret. split.
  - unfold items. by rewrite (unread_count _ log).
  - pose proof (mark_all_ok _ _ (Subject_UserID u) (now_of w) Hok) as Hok'.
    unfold items. apply Forall_rev, Forall_forall. intros n (Hn & Hin)%list_elem_of_filter.
    pose proof (filed_tenant _ _ _ Hok' Hin) as Ht. unfold own in Hn. unfold filed in Hin. cbn in Hin.
    apply list_elem_of_omap in Hin as (id & _ & Hid). rewrite lookup_fmap in Hid.
    apply fmap_Some in Hid as (n0 & _ & ->). case_decide as Hd; [done|].
    intros Hnone. apply Hd. split; [congruence|done].
Qed.
End queries.

(** C34 The inbox is exact: in every history of events, marks and preferences a
    caller without the wildcard permission finds exactly the notifications of
    the events of their tenant that called for one, newest first; the unread
    count is the number of those not marked; and marking all answers that
    number, leaves none unread and nothing else changed. *)
Theorem inbox_exact (a : A) (s : env) (log : list Event) (u : Subject) (w : World) :
  rtc step ((no_notifications, a), []) (s, log) →
  Authorize (Some u) "notification:read" None = Ok () →
  HasPermission u "*" = false → Subject_UserID u ≠ "" →
  ∃ items,
    answer (ListNotifications authz (Some u) everything) w s = Ok (items, Z.of_nat (length items)) ∧
    shown <$> items = notice "" 0 <$> rev (filter (λ e, Event_TenantID e = Subject_UserID u) log) ∧
    answer (GetUnreadCount authz (Some u)) w s =
      Ok (Z.of_nat (length (filter (λ n, Notification_ReadAt n = None) items))) ∧
    (Authorize (Some u) "notification:manage" None = Ok () →
     let s' := exec (MarkAllAsRead authz (Some u)) w s in
     answer (MarkAllAsRead authz (Some u)) w s =
       Ok (Z.of_nat (length (filter (λ n, Notification_ReadAt n = None) items))) ∧
     answer (GetUnreadCount authz (Some u)) w s' = Ok 0 ∧
     ∃ items', answer (ListNotifications authz (Some u) everything) w s' = Ok (items', Z.of_nat (length items')) ∧
       shown <$> items' = shown <$> items).
Proof.
  intros Hrun Hread Hstar Hu.
  assert (inbox_ok (NotificationEnv_inbox s.1) log) as Hok.
  { assert (∀ p p', rtc step p p' → inbox_ok (NotificationEnv_inbox p.1.1) p.2 →
      inbox_ok (NotificationEnv_inbox p'.1.1) p'.2) as Hgen by (induction 1; eauto using inbox_step_ok).
    apply (Hgen _ _ Hrun), inbox_ok_new. }
  assert (∀ s : env, inbox_ok (NotificationEnv_inbox s.1) log → shown <$> items (NotificationEnv_inbox s.1) (Subject_UserID u)
    = notice "" 0 <$> rev (filter (λ e, Event_TenantID e = Subject_UserID u) log)) as Hshown.
  { intros s0 Hs0. unfold items. pose proof (shown_own (Subject_UserID u) _ _ (filed_shown _ _ Hs0)) as Heq.
    change (map shown (rev (filter (own (Subject_UserID u)) (filed (NotificationEnv_inbox s0.1)))) =
      map (notice "" 0) (rev (filter (λ e, Event_TenantID e = Subject_UserID u) log))).
    rewrite !map_rev. f_equal. exact Heq. }
  exists (items (NotificationEnv_inbox s.1) (Subject_UserID u)). split_and!.
  - by apply (list_answer s log).
  - by apply Hshown.
  - by apply (count_answer s log).
  - intros Hmanage s'. destruct (mark_all_answer s log u Hok w Hmanage) as [Hcount Hall].
    assert (inbox_ok (NotificationEnv_inbox s'.1) log) as Hok' by by apply MarkAllAsRead_ok.
    split_and!; [done| |].
    + rewrite (count_answer s' log) by done. do 2 f_equal. fold s' in Hall.
      induction Hall as [|n l Hn _ IH]; [done|]. rewrite filter_cons, decide_False by done. exact IH.
    + exists (items (NotificationEnv_inbox s'.1) (Subject_UserID u)). split; [by apply (list_answer s' log)|].
      by rewrite !Hshown.
Qed.
End guarantee.

(** ** Two tenants *)

Section demo.
#[local] Existing Instances tagging_digest MemoryAuditRepo.
Definition plain_time : TimeFormat := λ t, fmt_d t.
#[local] Existing Instance plain_time.

Definition acme : Subject :=
  mkSubject "user" "acme" "acme" "acme" "" [] ["notification:read"; "notification:manage"] [] ∅.
Definition created_event (tenant id : string) : Event :=
  mkEvent "e" tenant "instance.created" "instance" id "u" 5 ∅ [] "1.0".

Abbreviation denv := (NotificationEnv * AuditStore)%type.
Definition day0 : denv := (no_notifications, empty_audit).
Definition mute : NotificationPreference := mkNotificationPreference "" "instance.created" false true true.
Definition day1 : denv := exec (on_store (HandleEvent true (created_event "acme" "i-1"))) (calm 1) day0.
Definition day2 : denv := exec (on_store (HandleEvent true (created_event "rival" "i-2"))) (named "v" ) day1.
Definition day3 : denv := exec (SetPreference DynamicAuthorizer true (Some acme) mute) (calm 3) day2.
Definition day4 : denv := exec (on_store (HandleEvent true (created_event "acme" "i-3"))) (named "x") day3.

Lemma inbox_exact_witness :
  ∃ items, answer (ListNotifications DynamicAuthorizer (Some acme) everything) (calm 9) day4 =
      Ok (items, Z.of_nat (length items)) ∧
    shown <$> items = [notice "" 0 (created_event "acme" "i-1")].
Proof.
  destruct (inbox_exact DynamicAuthorizer true true empty_audit day4
    [created_event "acme" "i-1"; created_event "rival" "i-2"] acme (calm 9)) as (items & H1 & H2 & _).
  - eapply (rtc_l _ _ (day1, [created_event "acme" "i-1"])).
    { by apply (is_event _ _ _ (calm 1) (created_event "acme" "i-1") day0 []). }
    eapply (rtc_l _ _ (day2, [created_event "acme" "i-1"; created_event "rival" "i-2"])).
    { by apply (is_event _ _ _ (named "v") (created_event "rival" "i-2") day1 [created_event "acme" "i-1"]). }
    eapply (rtc_l _ _ (day3, [created_event "acme" "i-1"; created_event "rival" "i-2"])).
    { by apply (is_prefer _ _ _ (calm 3) (Some acme) mute day2). }
    apply rtc_once.
    by apply (is_event _ _ _ (named "x") (created_event "acme" "i-3") day3
      [created_event "acme" "i-1"; created_event "rival" "i-2"]).
  - by vm_compute.
  - by vm_compute.
  - done.
  - exists items. split; [exact H1|]. rewrite H2. by vm_compute.
Defined.

(** The end of the window wraps around: a caller who asks for the largest page
    from the second notification on makes the listing panic. *)
Lemma huge_page_panics :
  let two := exec (on_store (HandleEvent true (created_event "acme" "i-4"))) (named "y") day1 in
  answer (ListNotifications DynamicAuthorizer (Some acme) (mkFilter "" "" false None max_int64 1)) (calm 9) two =
  panic "slice bounds out of range".
Proof. by vm_compute. Qed.

(** The resource of an event goes into the page of the e-mail unescaped. *)
Lemma html_injected :
  ∃ before after, email_html (created_event "acme" "<script>") = before +:+ "<script>" +:+ after.
Proof.
  exists ("<div style=" +:+ quote +:+ "font-family: sans-serif; padding: 20px;" +:+ quote +:+ ">" +:+ LF +:+
    TABS 3 +:+ "<h2>Aurora Cloud Notification</h2>" +:+ LF +:+ TABS 3 +:+
    "<p><strong>Event:</strong> instance.created</p>" +:+ LF +:+ TABS 3 +:+ "<p><strong>Resource:</strong> ").
  eexists. cbv. reflexivity.
Qed.
End demo.
