(* ===== verification/AuditService.v ===== *)
(** * Audit queries, reports and the export to security systems

    The service [internal/app/audit/service.go] over the trail of [AuditTrail],
    the destinations of [internal/infra/memory/siem_repo.go] and the dispatcher
    [internal/infra/siem/dispatcher.go] that forwards every recorded entry. *)

From S2P Require Import Prelude Identity AuditTrail Guest Backup.

Definition ErrSIEMDestinationNotFound := ErrNew "audit" "siem destination not found".
Definition ErrInvalidSIEMSpec := ErrNew "audit" "invalid siem destination specification".

Definition SIEMFormatJSON : string := "json".
Definition SIEMFormatCEF : string := "cef".
Definition SIEMFormatRFC5424 : string := "rfc5424".

Record SIEMDestination : Type := mkSIEMDestination {
  SIEMDestination_ID : string;
  SIEMDestination_Name : string;
  SIEMDestination_Type_ : string;
  SIEMDestination_Target : string;
  SIEMDestination_AuthToken : string;
  SIEMDestination_Format : string;
  SIEMDestination_Enabled : bool;
  SIEMDestination_CreatedAt : Z;
  SIEMDestination_UpdatedAt : Z
}.
#[export] Instance SIEMDestination_eq_dec : EqDecision SIEMDestination.
Proof. solve_decision. Defined.

Definition eta_SIEMDestination (r : SIEMDestination) : SIEMDestination :=
  mkSIEMDestination (SIEMDestination_ID r) (SIEMDestination_Name r)
    (SIEMDestination_Type_ r) (SIEMDestination_Target r) (SIEMDestination_AuthToken r)
    (SIEMDestination_Format r) (SIEMDestination_Enabled r) (SIEMDestination_CreatedAt r)
    (SIEMDestination_UpdatedAt r).
#[export] Instance set_SIEMDestination_ID : Setter SIEMDestination_ID := ltac:(setter eta_SIEMDestination SIEMDestination_ID).
#[export] Instance set_SIEMDestination_CreatedAt : Setter SIEMDestination_CreatedAt := ltac:(setter eta_SIEMDestination SIEMDestination_CreatedAt).
#[export] Instance set_SIEMDestination_UpdatedAt : Setter SIEMDestination_UpdatedAt := ltac:(setter eta_SIEMDestination SIEMDestination_UpdatedAt).

(** ** The destinations *)

Abbreviation SIEMStore := (gmap string SIEMDestination).

Definition siem_Create (d : SIEMDestination) : go SIEMStore SIEMDestination :=
  id ← (if decide (SIEMDestination_ID d = "") then uuid_NewString else mret (SIEMDestination_ID d));
  now ← time_Now;
  let d := d <| SIEMDestination_ID := id |> <| SIEMDestination_CreatedAt := now |>
             <| SIEMDestination_UpdatedAt := now |> in
  modify (<[id := d]>) ;;
  mret d.

Definition siem_GetByID (id : string) : go SIEMStore SIEMDestination :=
  m ← get;
  match m !! id with Some d => mret d | None => fail ErrSIEMDestinationNotFound end.

Definition siem_List : go SIEMStore (list SIEMDestination) := m ← get; list_in m (λ _, True).

Definition siem_Delete (id : string) : go SIEMStore () := siem_GetByID id ;; modify (delete id).

(** ** The texts *)

Definition QUOTE : Ascii.ascii := Ascii.ascii_of_N 34.
Definition COMMA : Ascii.ascii := Ascii.ascii_of_N 44.
Definition NEWLINE : Ascii.ascii := Ascii.ascii_of_N 10.
Definition one (c : Ascii.ascii) : string := String c "".

(** [json.Marshal] of an entry and [json.MarshalIndent] of a list of them, and
    [time.RFC3339Nano]. *)
Class AuditCodec := {
  json_log : AuditLog → result string;
  json_logs : list AuditLog → result string;
  time_RFC3339Nano : Z → string
}.

Section format.
Context `{!Digest, !AuditCodec, !TimeFormat}.

Definition actor_or_system (a : AuditLog) : string := default "system" (AuditLog_ActorID a).

Definition FormatLog (format : string) (a : AuditLog) : result string :=
  let actor := actor_or_system a in
  if decide (format = SIEMFormatCEF) then
    Ok ("CEF:0|Aurora|ControlPlane|0.1.0|" +:+ AuditLog_Action a +:+ "|" +:+ AuditLog_Action a +:+ "|" +:+
        AuditLog_Severity a +:+ "|src=" +:+ AuditLog_ActorIP a +:+ " suser=" +:+ actor +:+
        " cs1=" +:+ AuditLog_ResourceType a +:+ " cs1Label=ResourceType cs2=" +:+
        deref_or_empty (AuditLog_ResourceID a) +:+ " cs2Label=ResourceID")
  else if decide (format = SIEMFormatRFC5424) then
    Ok ("<134>1 " +:+ time_RFC3339Nano (AuditLog_CreatedAt a) +:+ " aurora controlplane " +:+
        fmt_d (AuditLog_ID a) +:+ " " +:+ AuditLog_Action a +:+ " [aurora@4242 action=" +:+
        one QUOTE +:+ AuditLog_Action a +:+ one QUOTE +:+ " actor=" +:+ one QUOTE +:+ actor +:+ one QUOTE +:+
        " ip=" +:+ one QUOTE +:+ AuditLog_ActorIP a +:+ one QUOTE +:+ "] " +:+ json_details (AuditLog_Details a))
  else json_log a.

(** ** [encoding/csv] *)

Fixpoint has_special (s : string) : bool :=
  match s with
  | EmptyString => false
  | String c s =>
      bool_decide (c = NEWLINE ∨ c = Ascii.ascii_of_N 13 ∨ c = QUOTE ∨ c = COMMA) || has_special s
  end.

(** The UTF-8 texts of the runes [unicode.IsSpace] accepts. *)
Definition spaces : list string :=
  map (foldr (λ n s, String (Ascii.ascii_of_N n) s) "")
    ([[9]; [10]; [11]; [12]; [13]; [32]; [194; 133]; [194; 160]; [225; 154; 128];
      [226; 128; 168]; [226; 128; 169]; [226; 128; 175]; [226; 129; 159]; [227; 128; 128]]%N ++
     map (λ n, [226; 128; 128 + N.of_nat n]%N) (seq 0 11)).

Definition fieldNeedsQuotes (field : string) : bool :=
  if decide (field = "") then false
  else if decide (field = "\.") then true
  else has_special field || existsb (λ sp, String.prefix sp field) spaces.

Fixpoint double_quotes (s : string) : string :=
  match s with
  | EmptyString => EmptyString
  | String c s => if decide (c = QUOTE) then String c (String c (double_quotes s)) else String c (double_quotes s)
  end.

Definition csv_field (s : string) : string :=
  if fieldNeedsQuotes s then one QUOTE +:+ double_quotes s +:+ one QUOTE else s.

Definition csv_line (fields : list string) : string :=
  strings_Join (csv_field <$> fields) (one COMMA) +:+ one NEWLINE.

Definition csv_Write (rows : list (list string)) : string :=
  foldr (λ row text, csv_line row +:+ text) "" rows.

Definition report_header : list string :=
  ["ID"; "Timestamp"; "ActorID"; "IP"; "Action"; "ResourceType"; "ResourceID"; "Status"; "Severity";
   "TamperProofHash"].
Definition report_row (l : AuditLog) : list string :=
  [fmt_d (AuditLog_ID l); time_RFC3339 (AuditLog_CreatedAt l); deref_or_empty (AuditLog_ActorID l);
   AuditLog_ActorIP l; AuditLog_Action l; AuditLog_ResourceType l; deref_or_empty (AuditLog_ResourceID l);
   fmt_d (AuditLog_StatusCode l); AuditLog_Severity l; AuditLog_TamperProofHash l].
End format.

(** ** The dispatcher

    [logChan] is a queue of [bufferSize] entries; one worker takes them in
    order, lists the destinations and forwards to each that is enabled. What
    it sends is recorded, the answers are ignored. *)

(** What leaves for a destination. *)
Record Sent := mkSent {
  Sent_dest : SIEMDestination;
  Sent_log : AuditLog;
  Sent_payload : string
}.

Record Dispatcher : Type := mkDispatcher {
  Dispatcher_logChan : list AuditLog;
  Dispatcher_bufferSize : Z;
  Dispatcher_closed : bool;
  Dispatcher_cancelled : bool;
  Dispatcher_current : option (AuditLog * list SIEMDestination);
  Dispatcher_exited : bool;
  Dispatcher_accepted : list AuditLog;
  Dispatcher_sent : list Sent
}.

Definition eta_Dispatcher (r : Dispatcher) : Dispatcher :=
  mkDispatcher (Dispatcher_logChan r) (Dispatcher_bufferSize r) (Dispatcher_closed r)
    (Dispatcher_cancelled r) (Dispatcher_current r) (Dispatcher_exited r)
    (Dispatcher_accepted r) (Dispatcher_sent r).
#[export] Instance set_Dispatcher_logChan : Setter Dispatcher_logChan := ltac:(setter eta_Dispatcher Dispatcher_logChan).
#[export] Instance set_Dispatcher_closed : Setter Dispatcher_closed := ltac:(setter eta_Dispatcher Dispatcher_closed).
#[export] Instance set_Dispatcher_cancelled : Setter Dispatcher_cancelled := ltac:(setter eta_Dispatcher Dispatcher_cancelled).
#[export] Instance set_Dispatcher_current : Setter Dispatcher_current := ltac:(setter eta_Dispatcher Dispatcher_current).
#[export] Instance set_Dispatcher_exited : Setter Dispatcher_exited := ltac:(setter eta_Dispatcher Dispatcher_exited).
#[export] Instance set_Dispatcher_accepted : Setter Dispatcher_accepted := ltac:(setter eta_Dispatcher Dispatcher_accepted).
#[export] Instance set_Dispatcher_sent : Setter Dispatcher_sent := ltac:(setter eta_Dispatcher Dispatcher_sent).

Definition NewDispatcher (bufferSize : Z) : Dispatcher :=
  let bufferSize := if decide (bufferSize ≤ 0) then 2000 else bufferSize in
  mkDispatcher [] bufferSize false false None false [] [].

(** A send on the closed channel panics, a full queue drops the entry. *)
Definition Dispatch (log : option AuditLog) : go Dispatcher () :=
  match log with
  | None => mret ()
  | Some log =>
      d ← get;
      if Dispatcher_closed d then lift (panic "send on closed channel")
      else if decide (Z.of_nat (length (Dispatcher_logChan d)) < Dispatcher_bufferSize d)
      then put (d <| Dispatcher_logChan := Dispatcher_logChan d ++ [log] |>
                  <| Dispatcher_accepted := Dispatcher_accepted d ++ [log] |>)
      else mret ()
  end.

(** [Close] up to its wait for the worker; a second call panics. *)
Definition dispatcher_Close : go Dispatcher () :=
  d ← get;
  if Dispatcher_closed d then lift (panic "close of closed channel")
  else put (d <| Dispatcher_cancelled := true |> <| Dispatcher_closed := true |>).

Section worker.
Context `{!Digest, !AuditCodec}.

(** The transports that exist; the webhook request carries the context that
    [Close] cancels, so it does not leave any more. *)
Definition forward (dest : SIEMDestination) (log : AuditLog) : go Dispatcher () :=
  match FormatLog (SIEMDestination_Format dest) log with
  | Err err => fail err
  | Ok payload =>
      d ← get;
      let t := SIEMDestination_Type_ dest in
      if decide (t = "webhook") then
        if Dispatcher_cancelled d then fail (ErrNew "context" "context canceled")
        else put (d <| Dispatcher_sent := Dispatcher_sent d ++ [mkSent dest log payload] |>)
      else if decide (t = "syslog_tcp" ∨ t = "syslog_udp") then
        put (d <| Dispatcher_sent := Dispatcher_sent d ++ [mkSent dest log (payload +:+ one NEWLINE)] |>)
      else fail (ErrNew "siem" ("unsupported SIEM transport type: " +:+ t))
  end.

(** One round of the worker over the destinations of the moment. *)
Definition siem_worker (destinations : SIEMStore) : go Dispatcher () :=
  d ← get;
  if Dispatcher_exited d then mret ()
  else match Dispatcher_current d with
  | Some (log, dest :: rest) =>
      put (d <| Dispatcher_current := Some (log, rest) |>) ;;
      (if SIEMDestination_Enabled dest then ignore (forward dest log) else mret ())
  | Some (_, []) => put (d <| Dispatcher_current := None |>)
  | None =>
      match Dispatcher_logChan d with
      | log :: logs =>
          es ← range_map destinations;
          put (d <| Dispatcher_logChan := logs |> <| Dispatcher_current := Some (log, es.*2) |>)
      | [] => if Dispatcher_closed d then put (d <| Dispatcher_exited := true |>) else mret ()
      end
  end.
End worker.

(** ** The service *)

Record AuditEnv : Type := mkAuditEnv {
  AuditEnv_trail : AuditStore;
  AuditEnv_destinations : SIEMStore;
  AuditEnv_dispatcher : Dispatcher
}.

Definition eta_AuditEnv (r : AuditEnv) : AuditEnv :=
  mkAuditEnv (AuditEnv_trail r) (AuditEnv_destinations r) (AuditEnv_dispatcher r).
#[export] Instance set_AuditEnv_trail : Setter AuditEnv_trail := ltac:(setter eta_AuditEnv AuditEnv_trail).
#[export] Instance set_AuditEnv_destinations : Setter AuditEnv_destinations := ltac:(setter eta_AuditEnv AuditEnv_destinations).
#[export] Instance set_AuditEnv_dispatcher : Setter AuditEnv_dispatcher := ltac:(setter eta_AuditEnv AuditEnv_dispatcher).

Record ChainVerificationResult := mkChainVerificationResult {
  ChainVerificationResult_Valid : bool;
  ChainVerificationResult_VerifiedCount : Z;
  ChainVerificationResult_CorruptedLogID : Z;
  ChainVerificationResult_CheckedAt : Z
}.

Record CreateSIEMRequest := mkCreateSIEMRequest {
  CreateSIEMRequest_Name : string;
  CreateSIEMRequest_Type : string;
  CreateSIEMRequest_Target : string;
  CreateSIEMRequest_AuthToken : string;
  CreateSIEMRequest_Format : string;
  CreateSIEMRequest_Enabled : bool
}.

Definition on_log {X} (m : go AuditStore X) : go AuditEnv X :=
  zoom AuditEnv_trail (λ x s, s <| AuditEnv_trail := x |>) m.
Definition on_destinations {X} (m : go SIEMStore X) : go AuditEnv X :=
  zoom AuditEnv_destinations (λ x s, s <| AuditEnv_destinations := x |>) m.
Definition on_dispatcher {X} (m : go Dispatcher X) : go AuditEnv X :=
  zoom AuditEnv_dispatcher (λ x s, s <| AuditEnv_dispatcher := x |>) m.

Definition isSuperadmin (sub : option Subject) : bool :=
  match sub with
  | None => false
  | Some s => existsb (λ r, bool_decide (r = "superadmin")) (Subject_Roles s) ||
              existsb (λ p, bool_decide (p = "*")) (Subject_Permissions s)
  end.

Section service.
Context `{!Digest, !AuditCodec, !TimeFormat} (auth : Authorizer) (has_dispatcher : bool).

(** The repository files a copy: the entry that goes on to the dispatcher is
    the one without identifier and hashes. *)
Definition service_Record (log : option AuditLog) : go AuditEnv () :=
  match log with
  | None => mret ()
  | Some l =>
      on_log (audit_Record l) ;;
      if has_dispatcher then on_dispatcher (Dispatch log) else mret ()
  end.

Definition service_ListFiltered (f : AuditFilter) : go AuditEnv (list AuditLog * Z) := on_log (audit_ListFiltered f).
Definition service_GetLatestLog : go AuditEnv (option AuditLog) := on_log audit_GetLatestLog.
Definition service_VerifyChainIntegrity (limit : Z) : go AuditEnv (bool * Z) :=
  on_log (audit_VerifyChainIntegrity limit).

Definition scoped (sub : option Subject) (f : AuditFilter) : AuditFilter :=
  match sub with
  | Some s =>
      if negb (isSuperadmin sub) && negb (bool_decide (Subject_UserID s = ""))
      then mkAuditFilter (Subject_UserID s) (AuditFilter_Action f) (AuditFilter_ResourceType f)
             (AuditFilter_ResourceID f) (AuditFilter_Severity f) (AuditFilter_From f) (AuditFilter_To f)
             (AuditFilter_Limit f) (AuditFilter_Offset f)
      else f
  | None => f
  end.

Definition ListAuditLogs (sub : option Subject) (f : AuditFilter) : go AuditEnv (list AuditLog * Z) :=
  authorize auth sub "audit:read" None ;;
  on_log (audit_ListFiltered (scoped sub f)).

Definition VerifyAuditChain (sub : option Subject) (limit : Z) : go AuditEnv ChainVerificationResult :=
  authorize auth sub "audit:read" None ;;
  vc ← on_log (audit_VerifyChainIntegrity limit);
  now ← time_Now;
  mret (mkChainVerificationResult vc.1 vc.2 (if vc.1 then 0 else vc.2) now).

Definition ExportComplianceReport (sub : option Subject) (f : AuditFilter) (format : string) :
    go AuditEnv (string * string) :=
  logs ← ListAuditLogs sub f;
  if decide (format = "csv") then mret (csv_Write (report_header :: map report_row logs.1), "text/csv")
  else
    data ← lift (json_logs logs.1);
    mret (data, "application/json").

Definition CreateSIEMDestination (sub : option Subject) (req : CreateSIEMRequest) :
    go AuditEnv SIEMDestination :=
  guard_err (CreateSIEMRequest_Name req = "" ∨ CreateSIEMRequest_Target req = "" ∨
             CreateSIEMRequest_Type req = "") ErrInvalidSIEMSpec ;;
  authorize auth sub "audit:manage" None ;;
  let fmtType := or_default SIEMFormatJSON (CreateSIEMRequest_Format req) in
  created ← time_Now;
  updated ← time_Now;
  on_destinations (siem_Create (mkSIEMDestination "" (CreateSIEMRequest_Name req) (CreateSIEMRequest_Type req)
    (CreateSIEMRequest_Target req) (CreateSIEMRequest_AuthToken req) fmtType true created updated)).

Definition ListSIEMDestinations (sub : option Subject) : go AuditEnv (list SIEMDestination) :=
  authorize auth sub "audit:read" None ;;
  on_destinations siem_List.

Definition DeleteSIEMDestination (sub : option Subject) (id : string) : go AuditEnv () :=
  authorize auth sub "audit:manage" None ;;
  on_destinations (siem_Delete id).
End service.

(** ** Reading a report back *)

Section reading.

(** A reader of RFC 4180 records: at the start of a field, in a plain field,
    in a quoted one, after a quote in it. *)
Inductive mode : Type := FieldStart | Plain | Quoted | AfterQuote.

Fixpoint csv_read (m : mode) (field : string) (row : list string) (s : string) : option (list (list string)) :=
  match s with
  | EmptyString => match m, row with FieldStart, [] => Some [] | _, _ => None end
  | String c s =>
      let ends (_ : unit) :=
        if decide (c = COMMA) then csv_read FieldStart "" (row ++ [field]) s
        else (λ rows, (row ++ [field]) :: rows) <$> csv_read FieldStart "" [] s in
      match m with
      | FieldStart =>
          if decide (c = QUOTE) then csv_read Quoted "" row s
          else if decide (c = COMMA ∨ c = NEWLINE) then ends tt
          else csv_read Plain (field +:+ one c) row s
      | Plain =>
          if decide (c = QUOTE) then None
          else if decide (c = COMMA ∨ c = NEWLINE) then ends tt
          else csv_read Plain (field +:+ one c) row s
      | Quoted =>
          if decide (c = QUOTE) then csv_read AfterQuote field row s
          else csv_read Quoted (field +:+ one c) row s
      | AfterQuote =>
          if decide (c = QUOTE) then csv_read Quoted (field +:+ one c) row s
          else if decide (c = COMMA ∨ c = NEWLINE) then ends tt
          else None
      end
  end.

Definition csv_Read (s : string) : option (list (list string)) := csv_read FieldStart "" [] s.

(** What follows a field. *)
Definition closes (c : Ascii.ascii) : Prop := c = COMMA ∨ c = NEWLINE.

Lemma app_one a c s : a +:+ String c s = (a +:+ one c) +:+ s.
Proof. exact (str_app_assoc a (one c) s). Qed.

Lemma read_quoted acc row f t :
  csv_read Quoted acc row (double_quotes f +:+ String QUOTE t) = csv_read AfterQuote (acc +:+ f) row t.
Proof.
  revert acc. induction f as [|c f IH]; intros acc.
  - change (double_quotes "" +:+ String QUOTE t) with (String QUOTE t). cbn [csv_read].
    rewrite decide_True by done. f_equal. induction acc as [|a acc IHa]; [done|]. exact (f_equal (String a) IHa).
  - rewrite (app_one acc c f). cbn [double_quotes]. destruct (decide (c = QUOTE)) as [->|Hc].
    + change (csv_read Quoted acc row (String QUOTE (String QUOTE (double_quotes f +:+ String QUOTE t))) =
        csv_read AfterQuote ((acc +:+ one QUOTE) +:+ f) row t).
      cbn [csv_read]. rewrite !decide_True by done. apply IH.
    + change (csv_read Quoted acc row (String c (double_quotes f +:+ String QUOTE t)) =
        csv_read AfterQuote ((acc +:+ one c) +:+ f) row t).
      cbn [csv_read]. rewrite decide_False by done. apply IH.
Qed.

Lemma read_plain acc row f t c : closes c → has_special f = false →
  csv_read Plain acc row (f +:+ String c t) = csv_read Plain (acc +:+ f) row (String c t).
Proof.
  intros Hc. revert acc. induction f as [|x f IH]; intros acc Hf.
  - f_equal. induction acc as [|a acc IHa]; [done|]. exact (f_equal (String a) IHa).
  - cbn [has_special] in Hf. apply orb_false_iff in Hf as [Hx Hf]. apply bool_decide_eq_false in Hx.
    change (csv_read Plain acc row (String x (f +:+ String c t)) = csv_read Plain (acc +:+ String x f) row (String c t)).
    rewrite (app_one acc x f), <-(IH (acc +:+ one x)) by done. cbn [csv_read].
    rewrite decide_False, decide_False by tauto. done.
Qed.

(** The end of a field, after a plain or a quoted one. *)
Definition ended (field : string) (row : list string) (c : Ascii.ascii) (t : string) : option (list (list string)) :=
  if decide (c = COMMA) then csv_read FieldStart "" (row ++ [field]) t
  else (λ rows, (row ++ [field]) :: rows) <$> csv_read FieldStart "" [] t.

Lemma closes_not_quote c : closes c → c ≠ QUOTE.
Proof. by intros [-> | ->]. Qed.

Lemma read_ends m f row c t : closes c → m = Plain ∨ m = AfterQuote → csv_read m f row (String c t) = ended f row c t.
Proof.
  intros Hc Hm. pose proof (closes_not_quote c Hc). unfold closes in Hc.
  destruct Hm as [-> | ->]; cbn [csv_read]; rewrite decide_False by done; by rewrite decide_True by done.
Qed.

Lemma read_field f row c t : closes c →
  csv_read FieldStart "" row (csv_field f +:+ String c t) = ended f row c t.
Proof.
  intros Hc. unfold csv_field. destruct (fieldNeedsQuotes f) eqn:Hq.
  - change (csv_read FieldStart "" row (String QUOTE ((double_quotes f +:+ one QUOTE) +:+ String c t)) = ended f row c t).
    cbn [csv_read]. rewrite decide_True by done. rewrite <-str_app_assoc.
    change (csv_read Quoted "" row (double_quotes f +:+ String QUOTE (String c t)) = ended f row c t).
    rewrite read_quoted. apply read_ends; auto.
  - destruct f as [|x f].
    + change (csv_read FieldStart "" row (String c t) = ended "" row c t). cbn [csv_read].
      rewrite decide_False by by apply closes_not_quote. by rewrite decide_True by exact Hc.
    + unfold fieldNeedsQuotes in Hq. rewrite decide_False in Hq by done. case_decide; [done|].
      apply orb_false_iff in Hq as [Hs _]. pose proof Hs as Hs'. cbn [has_special] in Hs'.
      apply orb_false_iff in Hs' as [Hx Hf]. apply bool_decide_eq_false in Hx.
      change (csv_read FieldStart "" row (String x (f +:+ String c t)) = ended (String x f) row c t).
      cbn [csv_read]. rewrite decide_False, decide_False by tauto.
      change ("" +:+ one x) with (one x). rewrite read_plain by done. apply read_ends; auto.
Qed.

Lemma read_line f fields row t :
  csv_read FieldStart "" row (csv_line (f :: fields) +:+ t) =
  (λ rows, (row ++ f :: fields) :: rows) <$> csv_Read t.
Proof.
  revert f row. induction fields as [|g fields IH]; intros f row; unfold csv_line in *.
  - change (csv_field <$> [f]) with [csv_field f]. cbn [strings_Join]. rewrite <-str_app_assoc.
    change (one NEWLINE +:+ t) with (String NEWLINE t). rewrite read_field by (by right). done.
  - change (csv_field <$> f :: g :: fields) with (csv_field f :: (csv_field <$> g :: fields)).
    assert (strings_Join (csv_field f :: (csv_field <$> g :: fields)) (one COMMA) =
      csv_field f +:+ String COMMA (strings_Join (csv_field <$> g :: fields) (one COMMA))) as -> by done.
    rewrite <-!str_app_assoc.
    change (String COMMA (strings_Join (csv_field <$> g :: fields) (one COMMA)) +:+ one NEWLINE +:+ t)
      with (String COMMA (strings_Join (csv_field <$> g :: fields) (one COMMA) +:+ one NEWLINE +:+ t)).
    rewrite read_field by (by left). unfold ended. rewrite decide_True by done.
    specialize (IH g (row ++ [f])). rewrite <-str_app_assoc in IH. rewrite IH, <-(assoc_L (++)). done.
Qed.

Lemma read_rows rows : Forall (λ row, row ≠ []) rows → csv_Read (csv_Write rows) = Some rows.
Proof.
  induction 1 as [|[|f fields] rows Hne _ IH]; [done|done|]. cbn [csv_Write foldr].
  unfold csv_Read at 1. rewrite read_line. unfold csv_Write in IH. by rewrite IH.
Qed.
End reading.

Section guarantee.
Context `{!Digest, !AuditCodec, !TimeFormat} (auth : Authorizer).

(** The page a filter asks for: fifty entries unless it says otherwise. *)
Definition asked (f : AuditFilter) : Z := if decide (AuditFilter_Limit f ≤ 0) then 50 else AuditFilter_Limit f.
Definition page_of (f : AuditFilter) (s : AuditStore) : list AuditLog :=
  take (Z.to_nat (asked f)) (drop (Z.to_nat (AuditFilter_Offset f))
    (filter (audit_matches f) (reverse (AuditStore_auditLogs s)))).

Lemma wp_ListFiltered f (Q : result (list AuditLog * Z) → AuditStore → World → Prop) w s :
  0 ≤ AuditFilter_Offset f → int64_ok (AuditFilter_Offset f + asked f) →
  (∀ total, Q (Ok (page_of f s, total)) s w) → wp (audit_ListFiltered f) Q w s.
Proof.
  intros Ho Hok HQ. unfold audit_ListFiltered. rewrite wp_bind, wp_get. cbv zeta.
  assert (0 < asked f) as Hpos by (unfold asked; case_decide; lia).
  fold (asked f). unfold page_of in HQ. set (l := filter _ _) in *.
  case_decide as Hd.
  - rewrite wp_ret. rewrite drop_ge, take_nil in HQ by lia. apply HQ.
  - rewrite wp_bind, wp_lift, add64_id by done. unfold slice_range.
    destruct (decide (Z.of_nat (length l) < AuditFilter_Offset f + asked f)) as [Hl|Hl].
    + rewrite (decide_True (P := 0 ≤ _ ∧ _)) by lia. rewrite wp_ret.
      rewrite take_ge in HQ by (rewrite length_drop; lia). rewrite take_ge by (rewrite length_drop; lia). apply HQ.
    + rewrite (decide_True (P := 0 ≤ _ ∧ _)) by lia. rewrite wp_ret.
      replace (AuditFilter_Offset f + asked f - AuditFilter_Offset f) with (asked f) by lia. apply HQ.
Qed.

(** C35 A compliance report can be trusted: whatever the texts of the entries
    contain, the CSV report reads back as the header and exactly one record for
    each entry of the page asked for, newest first, so no entry can forge a
    record or a column; and a caller who is no administrator gets entries of
    their own actions only. *)
Theorem report_reads_back (u : Subject) (f : AuditFilter) (w : World) (s : AuditEnv) :
  Authorize (Some u) "audit:read" None = Ok () →
  0 ≤ AuditFilter_Offset f → int64_ok (AuditFilter_Offset f + asked f) →
  let logs := page_of (scoped (Some u) f) (AuditEnv_trail s) in
  ∃ text, answer (ExportComplianceReport auth (Some u) f "csv") w s = Ok (text, "text/csv") ∧
    csv_Read text = Some (report_header :: map report_row logs) ∧
    (isSuperadmin (Some u) = false → Subject_UserID u ≠ "" →
     Forall (λ l, AuditLog_ActorID l = Some (Subject_UserID u)) logs).
Proof.
  intros Hauth Ho Hok logs.
  assert (AuditFilter_Offset (scoped (Some u) f) = AuditFilter_Offset f ∧ asked (scoped (Some u) f) = asked f)
    as [Hoff Hask] by (unfold scoped, asked; by case_match).
  exists (csv_Write (report_header :: map report_row logs)). split_and!.
  - apply (proj1 (wp_elim (ExportComplianceReport auth (Some u) f "csv") (λ r (_ : AuditEnv) _, r = _) w s)).
    unfold ExportComplianceReport, ListAuditLogs, authorize.
    rewrite wp_bind, wp_bind, wp_lift, Hauth. unfold on_log. rewrite wp_zoom.
    apply wp_ListFiltered; [by rewrite Hoff|by rewrite Hoff, Hask|]. intros total.
    rewrite (decide_True (P := "csv" = "csv")) by done. by rewrite wp_ret.
  - apply read_rows. constructor; [done|]. apply Forall_forall. intros row (l & -> & _)%list_elem_of_fmap. done.
  - intros Hadm Hu. unfold logs, page_of. apply Forall_take, Forall_drop, Forall_forall. intros l Hin.
    apply list_elem_of_filter in Hin as [(Hactor & _) _]. unfold scoped in Hactor.
    rewrite Hadm, bool_decide_false in Hactor by done. cbn in Hactor. by destruct Hactor.
Qed.
End guarantee.

(** ** What reaches a destination *)

Section stream.
Context `{!Digest, !AuditCodec} (destinations : SIEMStore) (dest : SIEMDestination).
Context (Hkeys : ∀ k d, destinations !! k = Some d → SIEMDestination_ID d = k).
Context (Hdest : destinations !! SIEMDestination_ID dest = Some dest).
Context (Henabled : SIEMDestination_Enabled dest = true).
Context (Htype : SIEMDestination_Type_ dest = "syslog_tcp" ∨ SIEMDestination_Type_ dest = "syslog_udp").
Context (Hformat : SIEMDestination_Format dest = SIEMFormatCEF ∨ SIEMDestination_Format dest = SIEMFormatRFC5424).

Inductive siem_step (d : Dispatcher) : Dispatcher → Prop :=
  | ss_dispatch w log : siem_step d (exec (Dispatch log) w d)
  | ss_close w : siem_step d (exec dispatcher_Close w d)
  | ss_worker w : World_ok w → siem_step d (exec (siem_worker destinations) w d).

Definition to_dest (x : Sent) : Prop := SIEMDestination_ID (Sent_dest x) = SIEMDestination_ID dest.
#[local] Instance to_dest_dec x : Decision (to_dest x).
Proof. unfold to_dest. apply _. Defined.
Definition received (d : Dispatcher) : list AuditLog := Sent_log <$> filter to_dest (Dispatcher_sent d).

(** What the destination still has to get of the entry in hand. *)
Definition in_hand (d : Dispatcher) : list AuditLog :=
  match Dispatcher_current d with
  | Some (log, rest) => if decide (dest ∈ rest) then [log] else []
  | None => []
  end.

Record stream_ok (d : Dispatcher) : Prop := {
  st_stream : received d ++ in_hand d ++ Dispatcher_logChan d = Dispatcher_accepted d;
  st_rest : ∀ log rest, Dispatcher_current d = Some (log, rest) →
    NoDup (SIEMDestination_ID <$> rest) ∧ (∀ x, x ∈ rest → destinations !! SIEMDestination_ID x = Some x);
  st_exited : Dispatcher_exited d = true →
    Dispatcher_closed d = true ∧ Dispatcher_logChan d = [] ∧ Dispatcher_current d = None;
  st_room : Z.of_nat (length (Dispatcher_logChan d)) ≤ Dispatcher_bufferSize d }.

Lemma stream_new n : stream_ok (NewDispatcher n).
Proof. split; [done|done|done|]. cbn. case_decide; lia. Qed.

(** Forwarding to another destination does not concern this one. *)
Lemma forward_other x log w d : SIEMDestination_ID x ≠ SIEMDestination_ID dest →
  ∃ sent, exec (ignore (forward x log)) w d = d <| Dispatcher_sent := sent |> ∧
    Sent_log <$> filter to_dest sent = received d.
Proof.
  intros Hx.
  assert (∀ p, Sent_log <$> filter to_dest (Dispatcher_sent d ++ [mkSent x log p]) = received d) as Hsame.
  { intros p. rewrite filter_app, filter_cons, filter_nil, decide_False by done. by rewrite app_nil_r. }
  assert (d = d <| Dispatcher_sent := Dispatcher_sent d |>) as Hd by by destruct d.
  apply (proj1 (wp_elim (ignore (forward x log)) (λ _ d' _, ∃ sent, d' = d <| Dispatcher_sent := sent |> ∧
    Sent_log <$> filter to_dest sent = received d) w d)).
  rewrite wp_ignore. unfold forward. destruct (FormatLog _ _) as [p|e]; [|rewrite wp_fail; by eauto].
  rewrite wp_bind, wp_get. case_decide; [case_match|case_decide]; rewrite ?wp_fail, ?wp_put; eauto.
Qed.

Lemma forward_dest log w d :
  ∃ p, exec (ignore (forward dest log)) w d = d <| Dispatcher_sent := Dispatcher_sent d ++ [mkSent dest log p] |>.
Proof.
  unfold exec, ignore, forward, FormatLog.
  destruct Htype as [Ht|Ht], Hformat as [Hf|Hf]; rewrite Ht, Hf; cbn; by eexists.
Qed.

(** The next destination of the entry in hand. *)
Lemma serve_ok w d log x rest : stream_ok d → Dispatcher_current d = Some (log, x :: rest) →
  let d1 := d <| Dispatcher_current := Some (log, rest) |> in
  stream_ok (exec (if SIEMDestination_Enabled x then ignore (forward x log) else mret ()) w d1).
Proof.
  intros [Hs Hr He Hroom] Hcur d1. destruct (Hr _ _ Hcur) as [Hnd Hin].
  cbn in Hnd. apply NoDup_cons in Hnd as [Hx Hnd].
  assert (∀ sent : list Sent, (Sent_log <$> filter to_dest sent) ++ (if decide (dest ∈ rest) then [log] else []) = received d ++ in_hand d →
    stream_ok (d1 <| Dispatcher_sent := sent |>)) as Hok.
  { intros sent Hsent. split; cbn.
    - rewrite <-Hs, !(assoc_L (++)). f_equal. exact Hsent.
    - intros l r [= <- <-]. split; [done|]. intros y Hy. apply Hin. set_solver.
    - intros Hex. destruct (He Hex) as (_ & _ & Hnone). congruence.
    - done. }
  unfold in_hand in Hok. rewrite Hcur in Hok. destruct (decide (SIEMDestination_ID x = SIEMDestination_ID dest)) as [Hid|Hid].
  - assert (x = dest) as -> by (specialize (Hin x ltac:(set_solver)); rewrite Hid in Hin; congruence).
    rewrite Henabled. destruct (forward_dest log w d1) as [p ->]. apply Hok. unfold received.
    rewrite filter_app, fmap_app, filter_cons, filter_nil, decide_True by done.
    rewrite (decide_True (P := dest ∈ dest :: rest)) by set_solver.
    rewrite (decide_False (P := dest ∈ rest)); [by rewrite app_nil_r|].
    intros Hin'. apply Hx. by apply list_elem_of_fmap_2.
  - assert (dest ∈ x :: rest ↔ dest ∈ rest) as Hiff.
    { assert (x ≠ dest) by congruence. set_solver. }
    assert ((if decide (dest ∈ rest) then [log] else []) = (if decide (dest ∈ x :: rest) then [log] else [])) as Hhand
      by (repeat case_decide; tauto).
    destruct (SIEMDestination_Enabled x).
    + destruct (forward_other x log w d1 Hid) as (sent & -> & Hsent). apply Hok. by rewrite Hhand, Hsent.
    + change (exec (mret ()) w d1) with d1. replace d1 with (d1 <| Dispatcher_sent := Dispatcher_sent d |>) by done.
      apply Hok. by rewrite Hhand.
Qed.

Lemma worker_ok w d : World_ok w → stream_ok d → stream_ok (exec (siem_worker destinations) w d).
Proof.
  intros Hw Hok. pose proof Hok as [Hs Hr He Hroom].
  unfold received, in_hand in Hs.
  unfold exec, siem_worker, mbind, go_bind, get. destruct (Dispatcher_exited d) eqn:Hex; [done|].
  destruct (Dispatcher_current d) as [[log [|x rest]]|] eqn:Hcur.
  - cbn. split; cbn; [|congruence|congruence|done]. unfold in_hand, received. cbn. rewrite <-Hs.
    by rewrite (decide_False (P := dest ∈ [])) by set_solver.
  - by apply (serve_ok w d log x rest).
  - destruct (Dispatcher_logChan d) as [|log logs] eqn:Hq.
    + destruct (Dispatcher_closed d) eqn:Hc; [|done]. cbn. split; cbn; [|congruence|done|by rewrite Hq].
      unfold in_hand, received. cbn. by rewrite <-Hs, Hcur, Hq.
    + cbn. set (es := entries (w_order w (w_ranges w)) destinations).
      assert (es ≡ₚ map_to_list destinations) as Hperm by (apply entries_perm, Hw).
      split; cbn.
      * unfold in_hand, received. cbn. rewrite <-Hs.
        rewrite (decide_True (P := dest ∈ es.*2)); [done|]. apply list_elem_of_fmap.
        exists (SIEMDestination_ID dest, dest). split; [done|]. rewrite Hperm. by apply elem_of_map_to_list.
      * intros l r [= <- <-]. split.
        -- assert (SIEMDestination_ID <$> es.*2 = es.*1) as ->.
           { rewrite <-list_fmap_compose. apply list_fmap_ext. intros i [k y] Hi. cbn. apply Hkeys.
             apply elem_of_map_to_list. rewrite <-Hperm. by eapply list_elem_of_lookup_2. }
           rewrite Hperm. apply NoDup_fst_map_to_list.
        -- intros y ([k z] & -> & Hy)%list_elem_of_fmap. rewrite Hperm in Hy. apply elem_of_map_to_list in Hy.
           cbn. by rewrite (Hkeys _ _ Hy).
      * congruence.
      * cbn in Hroom. lia.
Qed.

Lemma siem_step_ok d d' : siem_step d d' → stream_ok d → stream_ok d'.
Proof.
  intros [w [log|]|w|w Hw] Hok; pose proof Hok as [Hs Hr He Hroom].
  - unfold exec, Dispatch, mbind, go_bind, get, put, lift. destruct (Dispatcher_closed d) eqn:Hc; [done|].
    case_decide as Hlt; [|done]. cbn. split; cbn; [|done| |].
    + unfold received, in_hand in *. cbn. by rewrite <-Hs, <-!(assoc_L (++)).
    + intros Hex. destruct (He Hex) as [Hcl _]. congruence.
    + rewrite length_app. cbn. lia.
  - done.
  - unfold exec, dispatcher_Close, mbind, go_bind, get, put, lift. destruct (Dispatcher_closed d) eqn:Hc; [done|].
    split; [done|done| |done]. cbn. intros Hex. by destruct (He Hex) as (_ & ? & ?).
  - by apply worker_ok.
Qed.

(** In every history a destination that is listed and enabled, reached by
    syslog, receives the accepted entries in order, each once; the worker that
    has left has delivered them all; the queue stays in its bounds. *)
Theorem siem_in_order n d : rtc siem_step (NewDispatcher n) d →
  ∃ left, received d ++ left = Dispatcher_accepted d ∧
    (Dispatcher_exited d = true → left = []) ∧
    Z.of_nat (length (Dispatcher_logChan d)) ≤ Dispatcher_bufferSize d.
Proof.
  intros Hrun. assert (stream_ok d) as [Hs _ He Hroom].
  { pose proof (stream_new n) as Hok. induction Hrun; [done|]. eauto using siem_step_ok. }
  exists (in_hand d ++ Dispatcher_logChan d). split_and!; [done| |done].
  intros Hex. destruct (He Hex) as (_ & Hq & Hcur). unfold in_hand. by rewrite Hq, Hcur.
Qed.
End stream.

(** ** Entries that want to be more *)

Section demo.
#[local] Existing Instance tagging_digest.
Definition plain_codec : AuditCodec :=
  {| json_log := λ a, Ok (AuditLog_Action a); json_logs := λ _, Ok "[]"; time_RFC3339Nano := fmt_d |}.
Definition plain_time : TimeFormat := fmt_d.
#[local] Existing Instances plain_codec plain_time.

Definition mallory : Subject := mkSubject "user" "mallory" "mallory" "m" "" [] ["audit:read"] [] ∅.
Definition nl : string := one NEWLINE.
Definition sneaky : AuditLog :=
  new_log (Some "mallory") ("login" +:+ nl +:+ "7,now,root,0.0.0.0") "user" (Some (one QUOTE +:+ ",x")) None 5.
Definition honest : AuditLog := new_log (Some "root") "login" "user" None None 6.
Definition fresh_env : AuditEnv := mkAuditEnv empty_audit ∅ (NewDispatcher 1).
Definition two_entries : AuditEnv :=
  exec (service_Record true (Some honest)) (calm 2) (exec (service_Record true (Some sneaky)) (calm 1) fresh_env).
Definition every : AuditFilter := mkAuditFilter "" "" "" "" "" None None 0 0.

Lemma report_reads_back_witness :
  ∃ text l, answer (ExportComplianceReport DynamicAuthorizer (Some mallory) every "csv") (calm 3) two_entries =
      Ok (text, "text/csv") ∧
    csv_Read text = Some [report_header; report_row l] ∧ AuditLog_Action l = AuditLog_Action sneaky.
Proof.
  destruct (report_reads_back DynamicAuthorizer mallory every (calm 3) two_entries) as (text & H1 & H2 & _).
  - by vm_compute.
  - done.
  - by vm_compute.
  - exists text.
    destruct (page_of (scoped (Some mallory) every) (AuditEnv_trail two_entries)) as [|l [|l' ls]] eqn:Hpage;
      [by vm_compute in Hpage| |by vm_compute in Hpage].
    exists l. split_and!; [exact H1|exact H2|]. vm_compute in Hpage. injection Hpage as <-. done.
Defined.

(** The exported entry is the one before it was filed: it has neither an
    identifier nor the hashes that would make it verifiable. *)
Lemma exported_without_hash :
  (λ l, (AuditLog_ID l, AuditLog_TamperProofHash l)) <$> Dispatcher_logChan (AuditEnv_dispatcher two_entries) =
  [(0, "")].
Proof. by vm_compute. Qed.

(** A queue that is full drops entries: the second one is filed and never
    exported. *)
Lemma export_drops :
  length (AuditStore_auditLogs (AuditEnv_trail two_entries)) = 2%nat ∧
  length (Dispatcher_accepted (AuditEnv_dispatcher two_entries)) = 1%nat.
Proof. by vm_compute. Qed.

(** After [Close] every audit write of the process panics. *)
Lemma record_after_close_panics :
  let s := exec (on_dispatcher dispatcher_Close) (calm 4) fresh_env in
  answer (service_Record true (Some honest)) (calm 5) s = panic "send on closed channel".
Proof. by vm_compute. Qed.

(** The CEF text does not escape: two different entries have one text. *)
Lemma cef_ambiguous :
  FormatLog SIEMFormatCEF (mkAuditLog 0 (Some "eve") "1.1.1.1 suser=root" "" "login" "user" None "" 0 None "" "" "" 0) =
  FormatLog SIEMFormatCEF (mkAuditLog 0 (Some "root suser=eve") "1.1.1.1" "" "login" "user" None "" 0 None "" "" "" 0).
Proof. by vm_compute. Qed.

(** Fifty entries make a report, unless a limit is asked for. *)
Lemma report_of_fifty : asked every = 50.
Proof. done. Qed.
End demo.
