(* ===== verification/Diagnostics.v ===== *)
(** * Diagnostics and health probes

    [internal/app/diagnostics/service.go], the report over the repositories,
    and [internal/app/health/service.go], the probes over the checkers of the
    process. The runbooks of the report are constant texts and are left out. *)

From S2P Require Import Prelude Identity AuditTrail.
From S2P Require Node Instances Job Backup.

#[local] Existing Instances Node.Status_eq_dec Instances.Status_eq_dec Job.Status_eq_dec.

(** ** The report *)

Record SubsystemStatus : Type := mkSubsystemStatus {
  SubsystemStatus_Name : string;
  SubsystemStatus_Status : string;
  SubsystemStatus_Message : string;
  SubsystemStatus_LastChecked : Z;
  SubsystemStatus_Details : Details
}.

Record DiagnosticReport : Type := mkDiagnosticReport {
  DiagnosticReport_Timestamp : Z;
  DiagnosticReport_OverallStatus : string;
  DiagnosticReport_Subsystems : gmap string SubsystemStatus;
  DiagnosticReport_ActiveAlerts : Z
}.

(** The repositories the service was given; a nil one is [None]. *)
Record DiagnosticsEnv : Type := mkDiagnosticsEnv {
  DiagnosticsEnv_nodeRepo : option Node.MemoryNodeStore;
  DiagnosticsEnv_instRepo : option Instances.MemoryInstanceStore;
  DiagnosticsEnv_jobRepo : option Job.MemoryJobStore;
  DiagnosticsEnv_backupRepo : option Backup.BackupStore;
  DiagnosticsEnv_auditRepo : option AuditStore
}.

Definition eta_DiagnosticsEnv (r : DiagnosticsEnv) : DiagnosticsEnv :=
  mkDiagnosticsEnv (DiagnosticsEnv_nodeRepo r) (DiagnosticsEnv_instRepo r)
    (DiagnosticsEnv_jobRepo r) (DiagnosticsEnv_backupRepo r)
    (DiagnosticsEnv_auditRepo r).
#[export] Instance set_DiagnosticsEnv_nodeRepo : Setter DiagnosticsEnv_nodeRepo := ltac:(setter eta_DiagnosticsEnv DiagnosticsEnv_nodeRepo).
#[export] Instance set_DiagnosticsEnv_instRepo : Setter DiagnosticsEnv_instRepo := ltac:(setter eta_DiagnosticsEnv DiagnosticsEnv_instRepo).
#[export] Instance set_DiagnosticsEnv_jobRepo : Setter DiagnosticsEnv_jobRepo := ltac:(setter eta_DiagnosticsEnv DiagnosticsEnv_jobRepo).
#[export] Instance set_DiagnosticsEnv_backupRepo : Setter DiagnosticsEnv_backupRepo := ltac:(setter eta_DiagnosticsEnv DiagnosticsEnv_backupRepo).
#[export] Instance set_DiagnosticsEnv_auditRepo : Setter DiagnosticsEnv_auditRepo := ltac:(setter eta_DiagnosticsEnv DiagnosticsEnv_auditRepo).

(** A call on a repository that may be missing; the error of the call is
    dropped and leaves the zero value [z]. *)
Definition consult {R X} (pick : DiagnosticsEnv → option R) (place : option R → DiagnosticsEnv → DiagnosticsEnv)
    (z : X) (m : go R X) : go DiagnosticsEnv (option X) :=
  s ← get;
  match pick s with
  | None => mret None
  | Some r =>
      x ← try (zoom (λ s, default r (pick s)) (λ r s, place (Some r) s) m);
      mret (Some (match x with Ok x => x | Err _ => z end))
  end.

Definition count {X} (P : X → Prop) `{!∀ x, Decision (P x)} (l : list X) : Z := Z.of_nat (length (filter P l)).

Section report.
Context `{!Digest, !SortSlice} (has_authorizer : bool).

(** What the report has so far: the overall status, the alerts, the entries. *)
Abbreviation findings := (string * Z * gmap string SubsystemStatus)%type.

Definition node_findings (now : Z) (nodes : list Node.Node) (f : findings) : findings :=
  let '(overall, alerts, subs) := f in
  let online := count (λ n, Node.Node_Status n = Node.StatusOnline) nodes in
  let degraded := count (λ n, Node.Node_Status n = Node.StatusDegraded) nodes in
  let unhealthy := Z.of_nat (length nodes) - online - degraded in
  let entry status msg := mkSubsystemStatus "Hypervisor Fleet" status msg now
    (details [("total", AnyInt (Z.of_nat (length nodes))); ("online", AnyInt online);
              ("degraded", AnyInt degraded); ("unhealthy", AnyInt unhealthy)]) in
  if decide (0 < unhealthy) then
    ("degraded", add64 alerts 1,
     <["nodes" := entry "unhealthy" "One or more hypervisors are unhealthy or disconnected"]> subs)
  else if decide (0 < degraded) then
    ("degraded", alerts, <["nodes" := entry "degraded" "Hypervisor heartbeats delayed"]> subs)
  else (overall, alerts, <["nodes" := entry "healthy" "All hypervisors online and responsive"]> subs).

Definition compute_findings (now : Z) (instances : list Instances.Instance_) (f : findings) : findings :=
  let '(overall, alerts, subs) := f in
  let running := count (λ i, Instances.Instance__Status i = Instances.StatusRunning) instances in
  let errored := count (λ i, Instances.Instance__Status i = Instances.StatusError) instances in
  (overall, (if decide (0 < errored) then add64 alerts 1 else alerts),
   <["compute" := mkSubsystemStatus "Compute Instances" (if decide (0 < errored) then "degraded" else "healthy")
      "Workload placement and execution monitoring" now
      (details [("total", AnyInt (Z.of_nat (length instances))); ("running", AnyInt running);
                ("errored", AnyInt errored)])]> subs).

Definition job_findings (now : Z) (jobs : list Job.Job) (f : findings) : findings :=
  let '(overall, alerts, subs) := f in
  (overall, alerts,
   <["jobs" := mkSubsystemStatus "Durable Job Orchestrator" "healthy" "Distributed queue workers active" now
      (details [("runningJobs", AnyInt (count (λ j, Job.Job_Status j = Job.StatusRunning) jobs));
                ("failedJobs", AnyInt (count (λ j, Job.Job_Status j = Job.StatusFailed) jobs))])]> subs).

Definition backup_findings (now verified : Z) (f : findings) : findings :=
  let '(overall, alerts, subs) := f in
  let entry status msg := mkSubsystemStatus "Disaster Recovery & Backups" status msg now
    (details [("verifiedBackups", AnyInt verified)]) in
  if decide (verified = 0) then
    ("degraded", add64 alerts 1,
     <["backups" := entry "degraded" "No verified backups found: disaster recovery unprotected"]> subs)
  else (overall, alerts, <["backups" := entry "healthy" "Verified recovery points available"]> subs).

Definition audit_findings (now : Z) (vc : bool * Z) (f : findings) : findings :=
  let '(overall, alerts, subs) := f in
  let entry status msg := mkSubsystemStatus "Audit Ledger Integrity" status msg now
    (details [("chainValid", AnyBool vc.1); ("logsCount", AnyInt vc.2)]) in
  if vc.1 then (overall, alerts, <["audit" := entry "healthy" "Cryptographic SHA-256 hash chain intact"]> subs)
  else ("unhealthy", add64 alerts 1,
        <["audit" := entry "unhealthy" "Audit ledger tamper-evident hash chain verification failed!"]> subs).

(** An answer of a repository, if there is one. *)
Definition with_answer {X} (o : option X) (k : X → findings → findings) (f : findings) : findings :=
  match o with Some x => k x f | None => f end.

Definition assemble (now : Z) (nodes : option (list Node.Node)) (instances : option (list Instances.Instance_))
    (jobs : option (list Job.Job)) (verified : option Z) (vc : option (bool * Z)) : DiagnosticReport :=
  let database := mkSubsystemStatus "Database & Storage Engine" "healthy"
    "Database engine operating normally with active connection pool" now (details []) in
  let '(overall, alerts, subs) :=
    with_answer vc (audit_findings now)
      (with_answer verified (backup_findings now)
        (with_answer jobs (job_findings now)
          (with_answer instances (compute_findings now)
            (with_answer nodes (node_findings now) ("healthy", 0, {["database" := database]}))))) in
  mkDiagnosticReport now overall subs alerts.

(** [s.authorizer != nil && sub != nil && !sub.IsSuperadmin()]. *)
Definition turned_away (sub : option Subject) : bool :=
  match sub with Some s => has_authorizer && negb (IsSuperadmin s) | None => false end.

Definition GetDiagnostics (sub : option Subject) : go DiagnosticsEnv DiagnosticReport :=
  guard_err (turned_away sub = true) ErrResourceForbidden ;;
  now ← time_Now;
  nodes ← consult DiagnosticsEnv_nodeRepo (λ r s, s <| DiagnosticsEnv_nodeRepo := r |>) [] Node.NodeList;
  instances ← consult DiagnosticsEnv_instRepo (λ r s, s <| DiagnosticsEnv_instRepo := r |>) [] Instances.ListAll;
  jobs ← consult DiagnosticsEnv_jobRepo (λ r s, s <| DiagnosticsEnv_jobRepo := r |>) ([], 0)
           (Job.JobList (Job.mkJobFilter "" "" Job.StatusUnset "" "" 100 0));
  verified ← consult DiagnosticsEnv_backupRepo (λ r s, s <| DiagnosticsEnv_backupRepo := r |>) 0 Backup.CountVerified;
  vc ← consult DiagnosticsEnv_auditRepo (λ r s, s <| DiagnosticsEnv_auditRepo := r |>) (false, 0)
         (audit_VerifyChainIntegrity 100);
  mret (assemble now nodes instances (fst <$> jobs) verified vc).
End report.

(** ** What the report says *)

Lemma count_le {X} (P : X → Prop) `{!∀ x, Decision (P x)} l : 0 ≤ count P l ≤ Z.of_nat (length l).
Proof. unfold count. pose proof (length_filter P l). lia. Qed.

Lemma count_all {X} (P : X → Prop) `{!∀ x, Decision (P x)} l :
  count P l = Z.of_nat (length l) ↔ Forall P l.
Proof.
  unfold count. induction l as [|x l IH]; [by split|]. rewrite filter_cons, Forall_cons.
  pose proof (length_filter P l). case_decide as Hx; cbn [length].
  - rewrite <-IH. split; [intros; split; [done|]|intros [_ ?]]; lia.
  - split; [lia|by intros [? _]].
Qed.

Lemma count_disjoint {X} (P Q : X → Prop) `{!∀ x, Decision (P x), !∀ x, Decision (Q x)} l :
  (∀ x, P x → ¬ Q x) → count P l + count Q l ≤ Z.of_nat (length l).
Proof.
  intros HPQ. unfold count. induction l as [|x l IH]; [done|]. rewrite !filter_cons.
  specialize (HPQ x). repeat case_decide; cbn [length]; try tauto; lia.
Qed.

(** A stage raises at most one alert. *)
Definition raises (f g : string * Z * gmap string SubsystemStatus) : Prop := f.1.2 ≤ g.1.2 ≤ f.1.2 + 1.

Lemma add_alert a : 0 ≤ a ≤ 10 → add64 a 1 = a + 1.
Proof. intros Ha. apply add64_id. unfold int64_ok. lia. Qed.

Section stages.
Context (now : Z) (f : string * Z * gmap string SubsystemStatus) (Hf : 0 ≤ f.1.2 ≤ 10).

Lemma node_stage l : let g := node_findings now l f in
  raises f g ∧ (Forall (λ n, Node.Node_Status n = Node.StatusOnline) l → g.1.1 = f.1.1) ∧
  (¬ Forall (λ n, Node.Node_Status n = Node.StatusOnline) l → g.1.1 = "degraded").
Proof.
  destruct f as [[o a] m]. cbn in Hf. unfold node_findings, raises. cbn [fst snd]. rewrite add_alert by done.
  pose proof (count_all (λ n, Node.Node_Status n = Node.StatusOnline) l) as Hall.
  pose proof (count_disjoint (λ n, Node.Node_Status n = Node.StatusOnline)
    (λ n, Node.Node_Status n = Node.StatusDegraded) l ltac:(cbn; intros; congruence)) as Hdis.
  pose proof (count_le (λ n, Node.Node_Status n = Node.StatusDegraded) l) as Hdeg.
  case_decide; [|case_decide]; cbn; (split; [lia|]); split; intros HF; try done;
    exfalso; rewrite <-Hall in HF; lia.
Qed.

Lemma compute_stage l : let g := compute_findings now l f in raises f g ∧ g.1.1 = f.1.1.
Proof.
  destruct f as [[o a] m]. cbn in Hf. unfold compute_findings, raises. cbn. rewrite add_alert by done.
  case_decide; split; try done; lia.
Qed.

Lemma job_stage l : let g := job_findings now l f in raises f g ∧ g.1.1 = f.1.1.
Proof. destruct f as [[o a] m]. cbn in *. unfold raises. cbn. split; [lia|done]. Qed.

Lemma backup_stage v : let g := backup_findings now v f in
  raises f g ∧ (v ≠ 0 → g.1.1 = f.1.1) ∧ (v = 0 → g.1.1 = "degraded").
Proof.
  destruct f as [[o a] m]. cbn in Hf. unfold backup_findings, raises. rewrite add_alert by done.
  case_decide; cbn; split_and!; try done; lia.
Qed.

Lemma audit_stage vc : let g := audit_findings now vc f in
  raises f g ∧ (vc.1 = true → g.1.1 = f.1.1) ∧ (vc.1 = false → g.1.1 = "unhealthy").
Proof.
  destruct f as [[o a] m]. cbn in Hf. unfold audit_findings, raises. rewrite add_alert by done.
  case_match; cbn; split_and!; try done; lia.
Qed.
End stages.

(** The overall status is what it should be for the nodes, the backups and the
    chain: unhealthy exactly when the chain does not verify, and healthy exactly
    when it does, every node is online and a backup is verified. *)
Lemma assemble_spec now nodes instances jobs verified vc :
  let report := assemble now nodes instances jobs verified vc in
  (DiagnosticReport_OverallStatus report = "unhealthy" ↔ ∃ n, vc = Some (false, n)) ∧
  (DiagnosticReport_OverallStatus report = "healthy" ↔
     (∀ v, vc = Some v → v.1 = true) ∧
     (∀ l, nodes = Some l → Forall (λ n, Node.Node_Status n = Node.StatusOnline) l) ∧
     verified ≠ Some 0) ∧
  0 ≤ DiagnosticReport_ActiveAlerts report ≤ 5.
Proof.
  unfold assemble. cbv zeta. set (f0 := ("healthy", 0, _)).
  set (f1 := with_answer nodes (node_findings now) f0).
  assert (0 ≤ f1.1.2 ≤ 1 ∧ (f1.1.1 = "healthy" ∧ (∀ l, nodes = Some l → Forall (λ n, Node.Node_Status n = Node.StatusOnline) l)
    ∨ f1.1.1 = "degraded" ∧ ¬ (∀ l, nodes = Some l → Forall (λ n, Node.Node_Status n = Node.StatusOnline) l))) as [Ha1 Ho1].
  { unfold f1. destruct nodes as [l|]; cbn [with_answer]; [|split; [done|by left]].
    destruct (node_stage now f0 ltac:(cbn; lia) l) as (Hr & Hy & Hn). unfold raises in Hr. change (f0.1.2) with 0 in Hr. split; [lia|].
    destruct (decide (Forall (λ n, Node.Node_Status n = Node.StatusOnline) l)); [left|right]; split; auto.
    by intros ? [= <-]. }
  set (f2 := with_answer instances (compute_findings now) f1).
  assert (0 ≤ f2.1.2 ≤ 2 ∧ f2.1.1 = f1.1.1) as [Ha2 Ho2].
  { unfold f2. destruct instances as [l|]; cbn [with_answer]; [|split; [lia|done]].
    destruct (compute_stage now f1 ltac:(lia) l) as [Hr ?]. unfold raises in Hr. split; [lia|done]. }
  set (f3 := with_answer jobs (job_findings now) f2).
  assert (0 ≤ f3.1.2 ≤ 3 ∧ f3.1.1 = f1.1.1) as [Ha3 Ho3].
  { unfold f3. destruct jobs as [l|]; cbn [with_answer]; [|split; [lia|done]].
    destruct (job_stage now f2 ltac:(lia) l) as [Hr ?]. unfold raises in Hr. split; [lia|congruence]. }
  set (f4 := with_answer verified (backup_findings now) f3).
  assert (0 ≤ f4.1.2 ≤ 4 ∧ (verified ≠ Some 0 ∧ f4.1.1 = f1.1.1 ∨ verified = Some 0 ∧ f4.1.1 = "degraded")) as [Ha4 Ho4].
  { unfold f4. destruct verified as [v|]; cbn [with_answer]; [|split; [lia|by left]].
    destruct (backup_stage now f3 ltac:(lia) v) as (Hr & Hy & Hn). unfold raises in Hr. split; [lia|].
    destruct (decide (v = 0)) as [->|Hv]; [right; auto|left]. split; [congruence|]. rewrite Hy; [done|done]. }
  set (f5 := with_answer vc (audit_findings now) f4).
  assert (0 ≤ f5.1.2 ≤ 5 ∧ ((∀ v, vc = Some v → v.1 = true) ∧ f5.1.1 = f4.1.1 ∨
    (∃ n, vc = Some (false, n)) ∧ f5.1.1 = "unhealthy")) as [Ha5 Ho5].
  { unfold f5. destruct vc as [[b n]|]; cbn [with_answer]; [|split; [lia|by left]].
    destruct (audit_stage now f4 ltac:(lia) (b, n)) as (Hr & Hy & Hn). unfold raises in Hr. split; [lia|].
    destruct b; [left|right]; split; auto; [by intros ? [= <-]|by eexists]. }
  clearbody f5. destruct f5 as [[o al] m]. cbn [DiagnosticReport_OverallStatus DiagnosticReport_ActiveAlerts fst snd] in *.
  destruct Ho1 as [[E1 P1]|[E1 P1]], Ho4 as [[P4 E4]|[P4 E4]], Ho5 as [[P5 E5]|[[n P5] E5]];
    rewrite E5, ?E4, ?E1; split_and!; naive_solver.
Qed.

(** ** Health probes *)

Definition StatusHealthy : string := "healthy".
Definition StatusDegraded : string := "degraded".
Definition StatusUnhealthy : string := "unhealthy".

Record ComponentStatus : Type := mkComponentStatus {
  ComponentStatus_Name : string;
  ComponentStatus_Status : string;
  ComponentStatus_Message : string;
  ComponentStatus_CheckedAt : Z
}.

(** A checker of the infrastructure: its name and what it answers now. *)
Record Checker := mkChecker {
  Checker_Name : string;
  Checker_Check : World → ComponentStatus
}.

Record SystemHealth : Type := mkSystemHealth {
  SystemHealth_Status : string;
  SystemHealth_Version : string;
  SystemHealth_Commit : string;
  SystemHealth_Uptime : string;
  SystemHealth_Components : gmap string ComponentStatus;
  SystemHealth_Timestamp : Z
}.

Section health.
(** [time.Duration.Round(time.Second).String()], and the variables of
    [pkg/version] that the linker may set. *)
Context (version commit : string) (uptime_text : Z → string) (startTime : Z) (readinessCheckers : list Checker).

Definition CheckLiveness : bool := true.

(** Every checker is asked; a name used twice keeps the later answer. *)
Fixpoint probe {St} (cs : list Checker) : go St (list (string * ComponentStatus)) :=
  match cs with
  | [] => mret []
  | c :: cs =>
      answer ← reading (Checker_Check c);
      rest ← probe cs;
      mret ((Checker_Name c, answer) :: rest)
  end.

Definition file (answers : list (string * ComponentStatus)) : gmap string ComponentStatus :=
  foldl (λ m a, <[a.1 := a.2]> m) ∅ answers.

Definition CheckReadiness {St} : go St (bool * gmap string ComponentStatus) :=
  answers ← probe readinessCheckers;
  mret (forallb (λ a, negb (bool_decide (ComponentStatus_Status a.2 = StatusUnhealthy))) answers, file answers).

Definition worse (overall : string) (a : string * ComponentStatus) : string :=
  let status := ComponentStatus_Status a.2 in
  if decide (status = StatusUnhealthy) then StatusUnhealthy
  else if decide (status = StatusDegraded ∧ overall ≠ StatusUnhealthy) then StatusDegraded
  else overall.

Definition GetHealth {St} : go St SystemHealth :=
  answers ← probe readinessCheckers;
  since ← time_Now;
  now ← time_Now;
  mret (mkSystemHealth (foldl worse StatusHealthy answers) version commit
          (uptime_text (time_Sub since startTime)) (file answers) now).
End health.

(** The process is unhealthy exactly when a checker says so, which is when it is
    not ready. *)
Lemma health_and_readiness answers o :
  foldl worse o answers = StatusUnhealthy ↔
  o = StatusUnhealthy ∨
  forallb (λ a, negb (bool_decide (ComponentStatus_Status a.2 = StatusUnhealthy))) answers = false.
Proof.
  revert o. induction answers as [|a answers IH]; intros o; cbn [foldl forallb]; [naive_solver|].
  rewrite IH. unfold worse. destruct (decide (ComponentStatus_Status a.2 = StatusUnhealthy)) as [Ha|Ha].
  - rewrite bool_decide_true by done. cbn. tauto.
  - rewrite bool_decide_false by done. cbn. case_decide as Hd; [|tauto].
    destruct Hd as [_ Hd]. split; [intros [?|?]; [done|by right]|intros [?|?]; [done|by right]].
Qed.
