(* ===== verification/Http.v ===== *)
(** * The HTTP transport

    [internal/transport/http]: the reply envelopes of [router.go], the
    middlewares of [middleware.go], [security_middleware.go] and
    [ratelimit_middleware.go], and the routes all handlers register with the
    guards in front of them. The router ([chi]) is the port [Mux]; the
    endpoints are an argument of [mount]. Not modelled: the middlewares [chi]
    brings along (request numbers, log, time limit, CORS, the [Recoverer] that
    answers 500 when a handler panics) and the files of the web page. *)

From S2P Require Import Prelude Identity AuditTrail Accounts Auth.
From Stdlib Require Import Ascii.
From S2P Require Guest RateLimit Webhook.

(** ** Text *)

(** The text before the first [c] and the text after it. *)
Fixpoint cut (c : Ascii.ascii) (s : string) : string * option string :=
  match s with
  | "" => ("", None)
  | String x rest =>
      if decide (x = c) then ("", Some rest)
      else let '(before, after) := cut c rest in (String x before, after)
  end.

(** [strings.LastIndex]: what precedes and what follows the last [c]. *)
Fixpoint cut_last (c : Ascii.ascii) (s : string) : option (string * string) :=
  match s with
  | "" => None
  | String x rest =>
      match cut_last c rest with
      | Some (before, after) => Some (String x before, after)
      | None => if decide (x = c) then Some ("", rest) else None
      end
  end.

Definition has_char (c : Ascii.ascii) (s : string) : bool :=
  if snd (cut c s) is Some _ then true else false.

(** [net.SplitHostPort], the host only. *)
Definition SplitHostPort (hostport : string) : result string :=
  match cut_last ":" hostport with
  | None => Err (ErrNew "net" "missing port in address")
  | Some (before, port) =>
      if decide (String.get 0 hostport = Some "["%char) then
        match cut "]" (String.substring 1 (String.length hostport) hostport) with
        | (_, None) => Err (ErrNew "net" "missing ']' in address")
        | (host, Some rest) =>
            if decide (rest = "") then Err (ErrNew "net" "missing port in address")
            else if decide (rest = String ":" port) then
              if has_char "[" host then Err (ErrNew "net" "unexpected '[' in address")
              else if has_char "[" port then Err (ErrNew "net" "unexpected '[' in address")
              else if has_char "]" port then Err (ErrNew "net" "unexpected ']' in address")
              else Ok host
            else if decide (String.get 0 rest = Some ":"%char)
            then Err (ErrNew "net" "too many colons in address")
            else Err (ErrNew "net" "missing port in address")
        end
      else if has_char ":" before then Err (ErrNew "net" "too many colons in address")
      else if has_char "[" hostport then Err (ErrNew "net" "unexpected '[' in address")
      else if has_char "]" hostport then Err (ErrNew "net" "unexpected ']' in address")
      else Ok before
  end.

(** [strings.SplitN(s, " ", 2)] with both parts there. *)
Definition two_words (s : string) : option (string * string) :=
  match cut " " s with (a, Some b) => Some (a, b) | _ => None end.

(** ** Requests and replies *)

(** What is left to read of a body, and the error that then comes instead of
    the end of the text. *)
Record Body : Type := mkBody { Body_bytes : string; Body_err : option error }.

Definition ErrBodyTooLarge := ErrNew "http" "http: request body too large".

(** [http.MaxBytesReader]. *)
Definition MaxBytesReader (b : Body) (n : Z) : Body :=
  if decide (Z.of_nat (String.length (Body_bytes b)) ≤ n) then b
  else mkBody (String.substring 0 (Z.to_nat n) (Body_bytes b)) (Some ErrBodyTooLarge).

(** The request; [Params] are the path parameters of the router, [Subject]
    the value of [SubjectContextKey] in its context. *)
Record Request : Type := mkRequest {
  Request_Method : string;
  Request_Path : string;
  Request_Params : list (string * string);
  Request_Query : list (string * string);
  Request_Headers : list (string * string);
  Request_RemoteAddr : string;
  Request_Body : Body;
  Request_ID : string;
  Request_Subject : option Identity.Subject
}.

Definition eta_Request (r : Request) : Request :=
  mkRequest (Request_Method r) (Request_Path r) (Request_Params r) (Request_Query r)
    (Request_Headers r) (Request_RemoteAddr r) (Request_Body r) (Request_ID r)
    (Request_Subject r).
#[export] Instance set_Request_Params : Setter Request_Params := ltac:(setter eta_Request Request_Params).
#[export] Instance set_Request_Body : Setter Request_Body := ltac:(setter eta_Request Request_Body).
#[export] Instance set_Request_Subject : Setter Request_Subject := ltac:(setter eta_Request Request_Subject).

(** [r.URL.Query().Get], [chi.URLParam], [r.Header.Get]: the first value of
    the name, or none. Header names are compared without case. *)
Fixpoint first_value (same : string → bool) (l : list (string * string)) : string :=
  match l with
  | [] => ""
  | (k, v) :: rest => if same k then v else first_value same rest
  end.
Definition Query_Get (key : string) (r : Request) : string :=
  first_value (λ k, bool_decide (k = key)) (Request_Query r).
Definition URLParam (r : Request) (key : string) : string :=
  first_value (λ k, bool_decide (k = key)) (Request_Params r).
Definition Header_Get (key : string) (r : Request) : string :=
  first_value (λ k, bool_decide (EqualFold k key)) (Request_Headers r).

Definition GetSubject (r : Request) : option Identity.Subject := Request_Subject r.

Record MetaInfo : Type := mkMetaInfo {
  MetaInfo_RequestID : string;
  MetaInfo_Timestamp : Z
}.

(** [Data] and [Error] of the envelope; [D] is what the endpoints answer. *)
Record ResponseEnvelope (D : Type) : Type := mkResponseEnvelope {
  ResponseEnvelope_Success : bool;
  ResponseEnvelope_Data : option D;
  ResponseEnvelope_Error : option (string * string);
  ResponseEnvelope_Meta : MetaInfo
}.
Arguments mkResponseEnvelope {D} _ _ _ _.
Arguments ResponseEnvelope_Success {D} _.
Arguments ResponseEnvelope_Data {D} _.
Arguments ResponseEnvelope_Error {D} _.
Arguments ResponseEnvelope_Meta {D} _.

Inductive Payload (D : Type) : Type :=
| PayloadJSON (e : ResponseEnvelope D)
| PayloadText (s : string).
Arguments PayloadJSON {D} _.
Arguments PayloadText {D} _.

(** [http.ResponseWriter]: the headers as they are set, the status line with
    the headers it went out with, and what was written. *)
Record ResponseWriter (D : Type) : Type := mkResponseWriter {
  rw_header : gmap string string;
  rw_sent : option (Z * gmap string string);
  rw_body : list (Payload D)
}.
Arguments mkResponseWriter {D} _ _ _.
Arguments rw_header {D} _.
Arguments rw_sent {D} _.
Arguments rw_body {D} _.

Section writer.
Context {S D : Type}.

Definition Header_Set (k v : string) (w : ResponseWriter D) : ResponseWriter D :=
  mkResponseWriter (<[k:=v]> (rw_header w)) (rw_sent w) (rw_body w).
(** Only the first status counts. *)
Definition WriteHeader (status : Z) (w : ResponseWriter D) : ResponseWriter D :=
  match rw_sent w with
  | Some _ => w
  | None => mkResponseWriter (rw_header w) (Some (status, rw_header w)) (rw_body w)
  end.
Definition Write (p : Payload D) (w : ResponseWriter D) : ResponseWriter D :=
  let w := WriteHeader 200 w in
  mkResponseWriter (rw_header w) (rw_sent w) (rw_body w ++ [p]).

(** [http.Error]. *)
Definition http_Error (message : string) (code : Z) (w : ResponseWriter D) : ResponseWriter D :=
  Write (PayloadText (message +:+ Guest.nl)) (WriteHeader code
    (Header_Set "X-Content-Type-Options" "nosniff"
      (Header_Set "Content-Type" "text/plain; charset=utf-8" w))).

Definition Handler : Type := Request → ResponseWriter D → go S (ResponseWriter D).

Definition request_id (r : Request) : string := or_default "unknown" (Request_ID r).

Definition send_envelope (status : Z) (e : ResponseEnvelope D) (w : ResponseWriter D) :
    ResponseWriter D :=
  Write (PayloadJSON e)
    (WriteHeader status (Header_Set "Content-Type" "application/json; charset=utf-8" w)).

Definition RespondJSON (w : ResponseWriter D) (r : Request) (status : Z) (data : D) :
    go S (ResponseWriter D) :=
  now ← time_Now;
  mret (send_envelope status
    (mkResponseEnvelope (bool_decide (200 ≤ status) && bool_decide (status < 300)) (Some data) None
       (mkMetaInfo (request_id r) now)) w).

Definition RespondError (w : ResponseWriter D) (r : Request) (status : Z) (code message : string) :
    go S (ResponseWriter D) :=
  now ← time_Now;
  mret (send_envelope status
    (mkResponseEnvelope false None (Some (code, message)) (mkMetaInfo (request_id r) now)) w).
End writer.
Arguments Handler : clear implicits.

(** ** The middlewares *)

Definition set_security_headers {D} (w : ResponseWriter D) : ResponseWriter D :=
  let w := Header_Set "X-Content-Type-Options" "nosniff" w in
  let w := Header_Set "X-Frame-Options" "DENY" w in
  let w := Header_Set "X-XSS-Protection" "1; mode=block" w in
  let w := Header_Set "Referrer-Policy" "strict-origin-when-cross-origin" w in
  let w := Header_Set "Permissions-Policy" "camera=(), microphone=(), geolocation=()" w in
  let w := Header_Set "Strict-Transport-Security" "max-age=63072000; includeSubDomains; preload" w in
  let w := Header_Set "Content-Security-Policy" "default-src 'self'; script-src 'self' 'unsafe-inline'; style-src 'self' 'unsafe-inline'; img-src 'self' data: https:; font-src 'self' data:; connect-src 'self' ws: wss:; frame-ancestors 'none';" w in
  w.

Section middlewares.
Context {S D A : Type} `{!AuditRepository A, !JWTLibrary, !Digest}.
(** Where the accounts and the trail are in the state of the server. *)
Context (pick : S → AccountStore * A) (place : AccountStore * A → S → S).
Context (tm : TokenManager) (auth : Authorizer).

Definition on_accounts {X} (m : go (AccountStore * A) X) : go S X := zoom pick place m.

Definition AuthenticateMiddleware (next : Handler S D) : Handler S D := λ r w,
  let apiKeyHeader := Header_Get "X-API-Key" r in
  if decide (apiKeyHeader ≠ "") then
    res ← try (on_accounts (AuthenticateAPIKey apiKeyHeader));
    match res with
    | Err err =>
        if decide (err = ErrAPIKeyRevoked)
        then RespondError w r 401 "AUTH_API_KEY_REVOKED" "API key has been revoked"
        else if decide (err = ErrAPIKeyExpired)
        then RespondError w r 401 "AUTH_API_KEY_EXPIRED" "API key has expired"
        else RespondError w r 401 "AUTH_API_KEY_INVALID" "Invalid API key"
    | Ok subject => next (r <| Request_Subject := Some subject |>) w
    end
  else
    let authHeader := Header_Get "Authorization" r in
    if decide (authHeader = "")
    then RespondError w r 401 "AUTH_UNAUTHORIZED" "Missing authorization header"
    else
      match two_words authHeader with
      | Some (scheme, token) =>
          if decide (EqualFold scheme "bearer") then
            res ← try (ValidateAccessToken tm token);
            match res with
            | Err err =>
                if decide (err = ErrTokenExpired)
                then RespondError w r 401 "AUTH_TOKEN_EXPIRED" "Access token has expired"
                else RespondError w r 401 "AUTH_TOKEN_INVALID" "Invalid access token"
            | Ok subject => next (r <| Request_Subject := Some subject |>) w
            end
          else RespondError w r 401 "AUTH_TOKEN_INVALID" "Authorization header must be Bearer token"
      | None => RespondError w r 401 "AUTH_TOKEN_INVALID" "Authorization header must be Bearer token"
      end.

Definition RequirePermission (permissionCode : string) (next : Handler S D) : Handler S D := λ r w,
  match GetSubject r with
  | None => RespondError w r 401 "AUTH_UNAUTHORIZED" "Authentication required"
  | Some s =>
      match @Authorize auth (Some s) permissionCode None with
      | Err _ => RespondError w r 403 "AUTH_INSUFFICIENT_PERMISSION"
                   "You lack permission to perform this action"
      | Ok _ => next r w
      end
  end.

Definition SecurityHeadersMiddleware (maxBodyBytes : Z) (next : Handler S D) : Handler S D :=
  let maxBodyBytes := if decide (maxBodyBytes ≤ 0) then 10 * 1024 * 1024 else maxBodyBytes in
  λ r w,
    let r := r <| Request_Body := MaxBytesReader (Request_Body r) maxBodyBytes |> in
    let w := set_security_headers w in
    next r w.

Definition WebSocketOriginMiddleware (allowedOrigins : list string) (next : Handler S D) :
    Handler S D := λ r w,
  let origin := Header_Get "Origin" r in
  if decide (origin ≠ "" ∧ (0 < length allowedOrigins)%nat) then
    let allowed := existsb (λ ao, bool_decide (ao = "*") || bool_decide (ao = origin)) allowedOrigins in
    if negb allowed then mret (http_Error "Cross-Origin WebSocket connection rejected" 403 w)
    else next r w
  else next r w.
End middlewares.

(** ** The request limiter *)

Definition extractClientKey (r : Request) : string :=
  let by_address :=
    let forwarded := Header_Get "X-Forwarded-For" r in
    if decide (forwarded ≠ "") then "ip:" +:+ Guest.TrimSpace (fst (cut "," forwarded))
    else
      match SplitHostPort (Request_RemoteAddr r) with
      | Ok host => if decide (host ≠ "") then "ip:" +:+ host else "ip:" +:+ Request_RemoteAddr r
      | Err _ => "ip:" +:+ Request_RemoteAddr r
      end in
  match GetSubject r with
  | Some sub =>
      if decide (Subject_UserID sub ≠ "") then "user:" +:+ Subject_UserID sub else by_address
  | None => by_address
  end.

Section limiter.
Context {S D L : Type} `{!RateLimit.Limiter L}.
Context (pick : S → L) (place : L → S → S).

(** [service] says whether the middleware has a service at all, [limiter]
    whether the service has a limiter. *)
Definition RateLimitMiddleware (service limiter : bool) (rule : RateLimit.Rule)
    (next : Handler S D) : Handler S D := λ r w,
  if negb service then next r w
  else
    let key := extractClientKey r in
    res ← try (zoom pick place (RateLimit.CheckLimit limiter key rule));
    match res with
    | Err _ => next r w
    | Ok res =>
        let seconds := to_int64 (Webhook.Seconds (RateLimit.Result_ResetAfter res)) in
        let w := Header_Set "X-RateLimit-Limit" (fmt_d (RateLimit.Result_Limit res)) w in
        let w := Header_Set "X-RateLimit-Remaining" (fmt_d (RateLimit.Result_Remaining res)) w in
        let w := Header_Set "X-RateLimit-Reset" (fmt_d seconds) w in
        if negb (RateLimit.Result_Allowed res) then
          let retryAfterSec := if decide (seconds ≤ 0) then 1 else seconds in
          let w := Header_Set "Retry-After" (fmt_d retryAfterSec) w in
          RespondError w r 429 "RATE_LIMIT_EXCEEDED"
            ("Rate limit exceeded for " +:+ RateLimit.Rule_Name rule +:+ ". Please retry in " +:+
             fmt_d retryAfterSec +:+ " seconds.")
        else next r w
    end.
End limiter.

(** ** How the endpoints are written *)

(** [strconv.Atoi]: the value it returns, also beside an error: none for text
    that is no number, the nearest bound for a number out of range. *)
Definition digit_value (c : Ascii.ascii) : option Z :=
  let n := Z.of_N (Ascii.N_of_ascii c) - 48 in
  if decide (0 ≤ n ≤ 9) then Some n else None.
Fixpoint digits_value (acc : Z) (s : string) : option Z :=
  match s with
  | "" => Some acc
  | String c rest =>
      match digit_value c with Some n => digits_value (10 * acc + n) rest | None => None end
  end.
Definition number_value (s : string) : option Z :=
  if decide (s = "") then None else digits_value 0 s.
Definition Atoi (s : string) : Z * option error :=
  let parsed :=
    match s with
    | String c rest =>
        if decide (c = "-"%char) then Z.opp <$> number_value rest
        else if decide (c = "+"%char) then number_value rest else number_value s
    | "" => None
    end in
  match parsed with
  | None => (0, Some (ErrNew "strconv" "invalid syntax"))
  | Some z =>
      if decide (z < min_int64) then (min_int64, Some (ErrNew "strconv" "value out of range"))
      else if decide (max_int64 < z) then (max_int64, Some (ErrNew "strconv" "value out of range"))
      else (z, None)
  end.

(** [limit, _ := strconv.Atoi(...)], and [if limit <= 0 { limit = 50 }]. *)
Definition query_int (key : string) (r : Request) : Z := fst (Atoi (Query_Get key r)).
Definition limit_or_50 (r : Request) : Z :=
  let limit := query_int "limit" r in if decide (limit ≤ 0) then 50 else limit.

(** Where the state of a service is in the state of the server. *)
Record Lens (S T : Type) : Type := mkLens {
  lens_pick : S → T;
  lens_place : T → S → S;
  lens_place_pick : ∀ s, lens_place (lens_pick s) s = s
}.
Arguments lens_pick {S T} _ _.
Arguments lens_place {S T} _ _ _.
Arguments lens_place_pick {S T} _ _.

Definition on {S T X} (l : Lens S T) (m : go T X) : go S X := zoom (lens_pick l) (lens_place l) m.

Section endpoints.
Context {S D : Type}.

(** A row of the tests an endpoint makes on an error: if it is one of these
    (by [errors.Is], or by [==]), this is the answer, with the text of the
    error or a text of its own; any other error is answered as [other] says. *)
Definition ErrorRow : Type := list error * Z * string * option string.

Fixpoint reply_error (same : error → error → bool) (rows : list ErrorRow)
    (other : Z * string * option string) (w : ResponseWriter D) (r : Request) (err : error) : go S (ResponseWriter D) :=
  match rows with
  | [] => let '(status, code, message) := other in
      RespondError w r status code (default (Error err) message)
  | (targets, status, code, message) :: rows =>
      if existsb (same err) targets
      then RespondError w r status code (default (Error err) message)
      else reply_error same rows other w r err
  end.

(** The call, then the reply to its error or to its result. A panic is no
    reply: it ends the run, and the [Recoverer] of the router answers 500. *)
Definition reply_by (same : error → error → bool) {X} (m : go S X) (rows : list ErrorRow)
    (other : Z * string * option string) (status : Z) (data : X → D) (w : ResponseWriter D)
    (r : Request) : go S (ResponseWriter D) :=
  res ← try_err m;
  match res with
  | Err err => reply_error same rows other w r err
  | Ok x => RespondJSON w r status (data x)
  end.
Definition reply {X} : go S X → list ErrorRow → Z * string * option string → Z → (X → D) →
    ResponseWriter D → Request → go S (ResponseWriter D) := reply_by errors_Is.
Definition reply_exact {X} : go S X → list ErrorRow → Z * string * option string → Z → (X → D) →
    ResponseWriter D → Request → go S (ResponseWriter D) :=
  reply_by (λ err target, bool_decide (err = target)).

(** [if sub == nil { ... }]. *)
Definition signed_in (code message : string) (w : ResponseWriter D) (r : Request)
    (k : Identity.Subject → go S (ResponseWriter D)) : go S (ResponseWriter D) :=
  match GetSubject r with
  | None => RespondError w r 401 code message
  | Some sub => k sub
  end.

(** [if sub == nil || !sub.IsSuperadmin() { ... }]. *)
Definition superadmin_only (message : string) (w : ResponseWriter D) (r : Request)
    (k : Identity.Subject → go S (ResponseWriter D)) : go S (ResponseWriter D) :=
  match GetSubject r with
  | Some sub => if IsSuperadmin sub then k sub else RespondError w r 403 "FORBIDDEN" message
  | None => RespondError w r 403 "FORBIDDEN" message
  end.

(** [RespondError(w, r, status, code, err.Error())] for every error. *)
Definition always (status : Z) (code : string) : Z * string * option string := (status, code, None).
End endpoints.

(** ** The routes *)

Inductive InstanceEndpoint : Type :=
| CreateInstance_ | ListInstances_ | GetInstance_ | PowerAction_ | UpdateSpec_ | DeleteInstance_
| GetMetrics_ | ListFirewallRules_ | ApplyFirewallRules_ | ConfigureNetwork_
| ListFiles_ | WriteFile_ | DeleteFile_
| ListBackups_ | CreateBackup_ | RestoreBackup_ | DeleteBackup_
| ListSnapshots_ | CreateSnapshot_ | RestoreSnapshot_ | DeleteSnapshot_.
#[export] Instance InstanceEndpoint_eq_dec : EqDecision InstanceEndpoint.
Proof. solve_decision. Defined.

(** The methods the routes lead to, by handler type. *)
Inductive Endpoint : Type :=
| InstanceHandler (e : InstanceEndpoint)
| Endpoint_of (handler method : string).
#[export] Instance Endpoint_eq_dec : EqDecision Endpoint.
Proof. solve_decision. Defined.

(** A route with its guards: [r.Use(authMiddleware)] of its group and
    [r.With(RequirePermission(...))]. *)
Record Route : Type := mkRoute {
  Route_Method : string;
  Route_Pattern : string;
  Route_Authenticated : bool;
  Route_Permission : option string;
  Route_Endpoint_ : Endpoint
}.
#[export] Instance Route_eq_dec : EqDecision Route.
Proof. solve_decision. Defined.

Definition open (method pattern : string) (e : Endpoint) : Route :=
  mkRoute method pattern false None e.
Definition behind (method pattern : string) (e : Endpoint) : Route :=
  mkRoute method pattern true None e.
Definition guarded (permission method pattern : string) (e : Endpoint) : Route :=
  mkRoute method pattern true (Some permission) e.
(** [r.Route(prefix, ...)]. *)
Definition under (prefix : string) (l : list Route) : list Route :=
  (λ r, mkRoute (Route_Method r) (prefix +:+ Route_Pattern r) (Route_Authenticated r)
          (Route_Permission r) (Route_Endpoint_ r)) <$> l.

Definition health_routes : list Route :=
  [
    open "GET" "/healthz" (Endpoint_of "HealthHandler" "LivenessCheck");
    open "GET" "/health/live" (Endpoint_of "HealthHandler" "LivenessCheck");
    open "GET" "/readyz" (Endpoint_of "HealthHandler" "ReadinessCheck");
    open "GET" "/health/ready" (Endpoint_of "HealthHandler" "ReadinessCheck") ] ++
  under "/api/v1" [
    open "GET" "/health" (Endpoint_of "HealthHandler" "HealthCheck") ].

Definition metrics_routes : list Route :=
  [
    open "GET" "/metrics" (Endpoint_of "MetricsHandler" "ServeMetrics") ].

Definition auth_routes : list Route :=
  under "/api/v1/auth" [
    open "POST" "/register" (Endpoint_of "AuthHandler" "Register");
    open "POST" "/login" (Endpoint_of "AuthHandler" "Login");
    open "POST" "/2fa/verify" (Endpoint_of "AuthHandler" "VerifyTOTP");
    open "POST" "/refresh" (Endpoint_of "AuthHandler" "Refresh");
    open "POST" "/logout" (Endpoint_of "AuthHandler" "Logout");
    behind "GET" "/me" (Endpoint_of "AuthHandler" "GetMe") ].

Definition account_routes : list Route :=
  under "/api/v1/account" [
    behind "POST" "/2fa/setup" (Endpoint_of "AccountHandler" "Setup2FA");
    behind "POST" "/2fa/enable" (Endpoint_of "AccountHandler" "Enable2FA");
    behind "POST" "/2fa/disable" (Endpoint_of "AccountHandler" "Disable2FA") ].

Definition api_key_routes : list Route :=
  under "/api/v1/api-keys" [
    behind "POST" "/" (Endpoint_of "APIKeyHandler" "Create");
    behind "GET" "/" (Endpoint_of "APIKeyHandler" "List");
    behind "DELETE" "/{id}" (Endpoint_of "APIKeyHandler" "Revoke") ].

Definition node_routes : list Route :=
  [
    open "POST" "/api/v1/nodes/enroll" (Endpoint_of "NodeHandler" "EnrollNode") ] ++
  under "/api/v1/nodes" [
    guarded "node:create" "POST" "/enrollment-tokens" (Endpoint_of "NodeHandler" "CreateEnrollmentToken");
    guarded "node:read" "GET" "/" (Endpoint_of "NodeHandler" "ListNodes");
    guarded "node:read" "GET" "/{id}" (Endpoint_of "NodeHandler" "GetNode");
    guarded "node:maintenance" "POST" "/{id}/maintenance" (Endpoint_of "NodeHandler" "ToggleMaintenance");
    guarded "node:drain" "POST" "/{id}/drain" (Endpoint_of "NodeHandler" "DrainNode");
    guarded "node:drain" "POST" "/{id}/undrain" (Endpoint_of "NodeHandler" "UndrainNode");
    guarded "node:update" "POST" "/{id}/revoke" (Endpoint_of "NodeHandler" "RevokeNode");
    guarded "node:read" "POST" "/{id}/commands/ping" (Endpoint_of "NodeHandler" "PingNode") ].

Definition instance_routes : list Route :=
  under "/api/v1/instances" [
    guarded "instance:create" "POST" "/" (InstanceHandler CreateInstance_);
    guarded "instance:read" "GET" "/" (InstanceHandler ListInstances_);
    guarded "instance:read" "GET" "/{id}" (InstanceHandler GetInstance_);
    guarded "instance:power" "POST" "/{id}/power" (InstanceHandler PowerAction_);
    guarded "instance:update" "PATCH" "/{id}/spec" (InstanceHandler UpdateSpec_);
    guarded "instance:delete" "DELETE" "/{id}" (InstanceHandler DeleteInstance_);
    guarded "instance:read" "GET" "/{id}/metrics" (InstanceHandler GetMetrics_);
    guarded "instance:read" "GET" "/{id}/firewall" (InstanceHandler ListFirewallRules_);
    guarded "instance:update" "PUT" "/{id}/firewall" (InstanceHandler ApplyFirewallRules_);
    guarded "instance:update" "POST" "/{id}/network" (InstanceHandler ConfigureNetwork_);
    guarded "instance:files:read" "GET" "/{id}/files" (InstanceHandler ListFiles_);
    guarded "instance:files:write" "POST" "/{id}/files" (InstanceHandler WriteFile_);
    guarded "instance:files:write" "DELETE" "/{id}/files" (InstanceHandler DeleteFile_);
    guarded "instance:read" "GET" "/{id}/backups" (InstanceHandler ListBackups_);
    guarded "instance:update" "POST" "/{id}/backups" (InstanceHandler CreateBackup_);
    guarded "instance:update" "POST" "/{id}/backups/{backupId}/restore" (InstanceHandler RestoreBackup_);
    guarded "instance:update" "DELETE" "/{id}/backups/{backupId}" (InstanceHandler DeleteBackup_);
    guarded "instance:read" "GET" "/{id}/snapshots" (InstanceHandler ListSnapshots_);
    guarded "instance:update" "POST" "/{id}/snapshots" (InstanceHandler CreateSnapshot_);
    guarded "instance:update" "POST" "/{id}/snapshots/{snapshotId}/restore" (InstanceHandler RestoreSnapshot_);
    guarded "instance:update" "DELETE" "/{id}/snapshots/{snapshotId}" (InstanceHandler DeleteSnapshot_) ].

Definition ipam_routes : list Route :=
  under "/api/v1/ipam" [
    guarded "ipam:manage" "POST" "/pools" (Endpoint_of "IPAMHandler" "CreatePool");
    guarded "ipam:read" "GET" "/pools" (Endpoint_of "IPAMHandler" "ListPools");
    guarded "ipam:read" "GET" "/pools/{id}" (Endpoint_of "IPAMHandler" "GetPool");
    guarded "ipam:read" "GET" "/pools/{id}/allocations" (Endpoint_of "IPAMHandler" "ListAllocations");
    guarded "ipam:manage" "POST" "/pools/{id}/allocate" (Endpoint_of "IPAMHandler" "AllocateIP");
    guarded "ipam:manage" "DELETE" "/allocations/{id}" (Endpoint_of "IPAMHandler" "ReleaseIP") ].

Definition storage_routes : list Route :=
  under "/api/v1/storage/pools" [
    guarded "storage:manage" "POST" "/" (Endpoint_of "StorageHandler" "CreateStoragePool");
    guarded "storage:read" "GET" "/" (Endpoint_of "StorageHandler" "ListStoragePools");
    guarded "storage:read" "GET" "/{id}" (Endpoint_of "StorageHandler" "GetStoragePool") ] ++
  under "/api/v1/volumes" [
    guarded "volume:create" "POST" "/" (Endpoint_of "StorageHandler" "CreateVolume");
    guarded "volume:read" "GET" "/" (Endpoint_of "StorageHandler" "ListVolumes");
    guarded "volume:read" "GET" "/{id}" (Endpoint_of "StorageHandler" "GetVolume");
    guarded "volume:attach" "POST" "/{id}/attach" (Endpoint_of "StorageHandler" "AttachVolume");
    guarded "volume:detach" "POST" "/{id}/detach" (Endpoint_of "StorageHandler" "DetachVolume");
    guarded "volume:update" "PATCH" "/{id}/resize" (Endpoint_of "StorageHandler" "ResizeVolume");
    guarded "volume:delete" "DELETE" "/{id}" (Endpoint_of "StorageHandler" "DeleteVolume");
    guarded "volume:snapshot" "POST" "/{id}/snapshots" (Endpoint_of "StorageHandler" "CreateSnapshot");
    guarded "volume:read" "GET" "/{id}/snapshots" (Endpoint_of "StorageHandler" "ListSnapshots");
    guarded "volume:restore" "POST" "/{id}/snapshots/{snapshotId}/restore" (Endpoint_of "StorageHandler" "RestoreSnapshot");
    guarded "volume:snapshot" "DELETE" "/{id}/snapshots/{snapshotId}" (Endpoint_of "StorageHandler" "DeleteSnapshot") ].

Definition monitoring_routes : list Route :=
  under "/api/v1/monitoring" [
    guarded "monitoring:manage" "POST" "/metrics" (Endpoint_of "MonitoringHandler" "IngestMetrics");
    guarded "instance:read" "GET" "/instances/{id}/metrics" (Endpoint_of "MonitoringHandler" "GetInstanceMetrics");
    guarded "node:read" "GET" "/nodes/{id}/metrics" (Endpoint_of "MonitoringHandler" "GetNodeMetrics");
    guarded "monitoring:manage" "POST" "/thresholds" (Endpoint_of "MonitoringHandler" "CreateThreshold");
    guarded "monitoring:read" "GET" "/thresholds" (Endpoint_of "MonitoringHandler" "ListThresholds");
    guarded "monitoring:read" "GET" "/alerts" (Endpoint_of "MonitoringHandler" "ListAlertEvents");
    guarded "monitoring:manage" "POST" "/alerts/{id}/ack" (Endpoint_of "MonitoringHandler" "AcknowledgeAlert");
    guarded "monitoring:manage" "POST" "/alerts/{id}/resolve" (Endpoint_of "MonitoringHandler" "ResolveAlert") ].

Definition audit_routes : list Route :=
  under "/api/v1/audit" [
    guarded "audit:read" "GET" "/logs" (Endpoint_of "AuditHandler" "ListAuditLogs");
    guarded "audit:read" "GET" "/verify" (Endpoint_of "AuditHandler" "VerifyChain");
    guarded "audit:read" "GET" "/export" (Endpoint_of "AuditHandler" "ExportCompliance");
    guarded "audit:manage" "POST" "/siem" (Endpoint_of "AuditHandler" "CreateSIEMDestination");
    guarded "audit:read" "GET" "/siem" (Endpoint_of "AuditHandler" "ListSIEMDestinations");
    guarded "audit:manage" "DELETE" "/siem/{id}" (Endpoint_of "AuditHandler" "DeleteSIEMDestination") ].

Definition template_routes : list Route :=
  under "/api/v1/templates" [
    guarded "template:read" "GET" "/" (Endpoint_of "TemplateHandler" "ListTemplates");
    guarded "template:read" "GET" "/{id}" (Endpoint_of "TemplateHandler" "GetTemplate") ] ++
  under "/api/v1/admin/templates" [
    guarded "template:create" "POST" "/" (Endpoint_of "TemplateHandler" "CreateTemplate");
    guarded "template:update" "PATCH" "/{id}" (Endpoint_of "TemplateHandler" "UpdateTemplate");
    guarded "template:delete" "DELETE" "/{id}" (Endpoint_of "TemplateHandler" "DeleteTemplate") ] ++
  under "/api/v1/admin/images" [
    guarded "image:read" "GET" "/" (Endpoint_of "TemplateHandler" "ListImages");
    guarded "image:read" "GET" "/{id}" (Endpoint_of "TemplateHandler" "GetImage");
    guarded "image:manage" "POST" "/" (Endpoint_of "TemplateHandler" "RegisterImage");
    guarded "image:manage" "POST" "/{id}/sync" (Endpoint_of "TemplateHandler" "SyncImage");
    guarded "image:manage" "POST" "/{id}/verify" (Endpoint_of "TemplateHandler" "VerifyImage");
    guarded "image:manage" "POST" "/{id}/retire" (Endpoint_of "TemplateHandler" "RetireImage") ].

Definition billing_routes : list Route :=
  under "/api/v1/billing" [
    guarded "billing:read" "GET" "/plans" (Endpoint_of "BillingHandler" "ListPlans");
    guarded "billing:read" "GET" "/subscription" (Endpoint_of "BillingHandler" "GetSubscription");
    guarded "billing:manage" "POST" "/subscription" (Endpoint_of "BillingHandler" "SubscribeTenant");
    guarded "billing:manage" "PATCH" "/subscription" (Endpoint_of "BillingHandler" "ChangePlan");
    guarded "billing:manage" "DELETE" "/subscription" (Endpoint_of "BillingHandler" "CancelSubscription");
    guarded "billing:read" "GET" "/usage" (Endpoint_of "BillingHandler" "GetUsage");
    guarded "billing:read" "GET" "/quotas" (Endpoint_of "BillingHandler" "GetQuotas");
    guarded "billing:read" "GET" "/invoices" (Endpoint_of "BillingHandler" "ListInvoices");
    guarded "billing:read" "GET" "/invoices/{id}" (Endpoint_of "BillingHandler" "GetInvoice") ] ++
  under "/api/v1/admin/billing" [
    guarded "billing:plans" "GET" "/plans" (Endpoint_of "BillingHandler" "AdminListPlans");
    guarded "billing:plans" "POST" "/plans" (Endpoint_of "BillingHandler" "AdminCreatePlan");
    guarded "billing:plans" "PATCH" "/plans/{id}" (Endpoint_of "BillingHandler" "AdminUpdatePlan");
    guarded "billing:plans" "DELETE" "/plans/{id}" (Endpoint_of "BillingHandler" "AdminDeletePlan");
    guarded "billing:admin" "GET" "/subscriptions" (Endpoint_of "BillingHandler" "AdminListSubscriptions");
    guarded "billing:admin" "GET" "/usage" (Endpoint_of "BillingHandler" "AdminGetUsage");
    guarded "billing:admin" "GET" "/invoices" (Endpoint_of "BillingHandler" "AdminListInvoices");
    guarded "billing:admin" "POST" "/invoices/{id}/void" (Endpoint_of "BillingHandler" "AdminVoidInvoice");
    guarded "billing:admin" "POST" "/invoices/{id}/regenerate" (Endpoint_of "BillingHandler" "AdminRegenerateInvoice");
    guarded "billing:admin" "POST" "/invoices/regenerate" (Endpoint_of "BillingHandler" "AdminRegenerateInvoice") ].

Definition notification_routes : list Route :=
  under "/api/v1/notifications" [
    guarded "notification:read" "GET" "/" (Endpoint_of "NotificationHandler" "ListNotifications");
    guarded "notification:read" "GET" "/unread-count" (Endpoint_of "NotificationHandler" "GetUnreadCount");
    guarded "notification:manage" "POST" "/{id}/read" (Endpoint_of "NotificationHandler" "MarkRead");
    guarded "notification:manage" "POST" "/read-all" (Endpoint_of "NotificationHandler" "MarkAllRead");
    guarded "notification:read" "GET" "/preferences" (Endpoint_of "NotificationHandler" "GetPreferences");
    guarded "notification:manage" "PUT" "/preferences" (Endpoint_of "NotificationHandler" "SetPreference") ].

Definition webhook_routes : list Route :=
  under "/api/v1/webhooks" [
    guarded "webhook:read" "GET" "/" (Endpoint_of "WebhookHandler" "ListWebhooks");
    guarded "webhook:create" "POST" "/" (Endpoint_of "WebhookHandler" "CreateWebhook");
    guarded "webhook:read" "GET" "/{id}" (Endpoint_of "WebhookHandler" "GetWebhook");
    guarded "webhook:update" "PATCH" "/{id}" (Endpoint_of "WebhookHandler" "UpdateWebhook");
    guarded "webhook:delete" "DELETE" "/{id}" (Endpoint_of "WebhookHandler" "DeleteWebhook");
    guarded "webhook:rotate" "POST" "/{id}/rotate-secret" (Endpoint_of "WebhookHandler" "RotateSecret");
    guarded "webhook:test" "POST" "/{id}/test" (Endpoint_of "WebhookHandler" "TestWebhook");
    guarded "webhook:read" "GET" "/{id}/deliveries" (Endpoint_of "WebhookHandler" "ListDeliveries") ].

Definition event_routes : list Route :=
  under "/api/v1/admin/events" [
    guarded "audit:read" "GET" "/" (Endpoint_of "EventHandler" "AdminListEvents") ] ++
  under "/api/v1/admin/webhooks/deliveries" [
    guarded "audit:read" "GET" "/" (Endpoint_of "EventHandler" "AdminListDeliveries") ].

Definition job_routes : list Route :=
  under "/api/v1/jobs" [
    behind "GET" "/" (Endpoint_of "JobHandler" "ListJobs");
    behind "POST" "/" (Endpoint_of "JobHandler" "SubmitJob");
    behind "GET" "/{id}" (Endpoint_of "JobHandler" "GetJob");
    behind "POST" "/{id}/cancel" (Endpoint_of "JobHandler" "CancelJob");
    behind "POST" "/{id}/retry" (Endpoint_of "JobHandler" "RetryJob") ] ++
  under "/api/v1/admin/jobs" [
    behind "GET" "/" (Endpoint_of "JobHandler" "AdminListJobs");
    behind "GET" "/{id}" (Endpoint_of "JobHandler" "GetJob");
    behind "POST" "/{id}/cancel" (Endpoint_of "JobHandler" "CancelJob");
    behind "POST" "/{id}/retry" (Endpoint_of "JobHandler" "RetryJob") ].

Definition migration_routes : list Route :=
  under "/api/v1/admin/migrations" [
    behind "GET" "/" (Endpoint_of "MigrationHandler" "ListMigrations");
    behind "GET" "/{id}" (Endpoint_of "MigrationHandler" "GetMigration") ] ++
  under "/api/v1/admin/instances" [
    behind "POST" "/{id}/migrate" (Endpoint_of "MigrationHandler" "MigrateInstance") ] ++
  under "/api/v1/admin/nodes" [
    behind "POST" "/{id}/drain" (Endpoint_of "MigrationHandler" "DrainNode");
    behind "POST" "/{id}/undrain" (Endpoint_of "MigrationHandler" "UndrainNode");
    behind "POST" "/{id}/evacuate" (Endpoint_of "MigrationHandler" "EvacuateNode") ].

Definition backup_routes : list Route :=
  under "/api/v1/backups" [
    behind "GET" "/" (Endpoint_of "BackupHandler" "ListCustomerBackups");
    behind "POST" "/" (Endpoint_of "BackupHandler" "CreateCustomerBackup");
    behind "GET" "/{id}" (Endpoint_of "BackupHandler" "GetCustomerBackup");
    behind "GET" "/{id}/download" (Endpoint_of "BackupHandler" "DownloadCustomerBackup");
    behind "POST" "/{id}/restore" (Endpoint_of "BackupHandler" "RestoreCustomerBackup") ] ++
  under "/api/v1/admin/recovery" [
    behind "GET" "/backups" (Endpoint_of "BackupHandler" "AdminListBackups");
    behind "POST" "/backups" (Endpoint_of "BackupHandler" "AdminCreateBackup");
    behind "GET" "/backups/{id}" (Endpoint_of "BackupHandler" "AdminGetBackup");
    behind "POST" "/backups/{id}/verify" (Endpoint_of "BackupHandler" "AdminVerifyBackup");
    behind "DELETE" "/backups/{id}" (Endpoint_of "BackupHandler" "AdminDeleteBackup");
    behind "POST" "/dry-run" (Endpoint_of "BackupHandler" "DisasterRecoveryDryRun");
    behind "POST" "/restore" (Endpoint_of "BackupHandler" "DisasterRecoveryRestore");
    behind "GET" "/plans" (Endpoint_of "BackupHandler" "AdminListRestorePlans");
    behind "GET" "/plans/{id}" (Endpoint_of "BackupHandler" "AdminGetRestorePlan") ].

Definition reconcile_routes : list Route :=
  under "/api/v1/admin/reconcile" [
    behind "POST" "/" (Endpoint_of "ReconcileHandler" "TriggerReconciliation");
    behind "GET" "/reports" (Endpoint_of "ReconcileHandler" "ListReports");
    behind "GET" "/latest" (Endpoint_of "ReconcileHandler" "GetLatestReport") ].

Definition key_rotation_routes : list Route :=
  under "/api/v1/admin/keys" [
    behind "GET" "/rotations" (Endpoint_of "KeyRotationHandler" "ListRotations");
    behind "POST" "/rotate" (Endpoint_of "KeyRotationHandler" "RotateKey");
    behind "POST" "/{id}/revoke" (Endpoint_of "KeyRotationHandler" "RevokeKey") ].

Definition diagnostics_routes : list Route :=
  under "/api/v1/admin/diagnostics" [
    behind "GET" "/" (Endpoint_of "DiagnosticsHandler" "GetDiagnostics");
    behind "GET" "/runbooks" (Endpoint_of "DiagnosticsHandler" "GetRunbooks") ].

(** The sockets check their tokens themselves; the stream takes any method. *)
Definition console_routes : list Route :=
  under "/api/v1/instances/{id}/console" [
    open "GET" "/exec" (Endpoint_of "ConsoleHandler" "HandleExec");
    open "GET" "/vnc" (Endpoint_of "ConsoleHandler" "HandleVNC") ].
Definition event_stream_routes : list Route :=
  [ open "*" "/api/v1/events/stream" (Endpoint_of "EventStreamHandler" "ServeHTTP") ].

(** As [main] registers them. *)
Definition server_routes : list Route :=
  health_routes ++ metrics_routes ++ auth_routes ++ account_routes ++ api_key_routes ++
  node_routes ++ instance_routes ++ ipam_routes ++ storage_routes ++ monitoring_routes ++
  audit_routes ++ template_routes ++ billing_routes ++ notification_routes ++
  webhook_routes ++ event_routes ++ job_routes ++ migration_routes ++ backup_routes ++
  reconcile_routes ++ key_rotation_routes ++ diagnostics_routes ++ console_routes ++
  event_stream_routes.

(** The router: the number of the route for a method and a path, with the
    values of the parameters of its pattern. *)
Class Mux :=
  FindRoute : list (string * string) → string → string → option (nat * list (string * string)).

Section server.
Context {S D A : Type} `{!AuditRepository A, !JWTLibrary, !Digest, !Mux}.
Context (pick : S → AccountStore * A) (place : AccountStore * A → S → S).
Context (tm : TokenManager) (auth : Authorizer).
Context (bind : Endpoint → Handler S D) (notfound : Handler S D).

Definition mount (rt : Route) : Handler S D :=
  let h := match Route_Permission rt with
           | Some p => RequirePermission auth p (bind (Route_Endpoint_ rt))
           | None => bind (Route_Endpoint_ rt)
           end in
  if Route_Authenticated rt then AuthenticateMiddleware pick place tm h else h.

Definition route (routes : list Route) : Handler S D := λ r w,
  match FindRoute ((λ rt, (Route_Method rt, Route_Pattern rt)) <$> routes)
          (Request_Method r) (Request_Path r) with
  | Some (i, params) =>
      match routes !! i with
      | Some rt => mount rt (r <| Request_Params := params |>) w
      | None => notfound r w
      end
  | None => notfound r w
  end.

Definition ServeHTTP (routes : list Route) : Handler S D :=
  SecurityHeadersMiddleware (10 * 1024 * 1024) (route routes).
End server.

(** ** Who gets to an endpoint *)

(** An error reply: its status, and an envelope without data. *)
Definition refuses {D} (status : Z) (w w' : ResponseWriter D) : Prop :=
  ∃ e, w' = send_envelope status e w ∧ ResponseEnvelope_Success e = false ∧
       ResponseEnvelope_Data e = None.

Lemma sent_header {D} status e (w : ResponseWriter D) : rw_header (send_envelope status e w) =
  <["Content-Type":="application/json; charset=utf-8"]> (rw_header w).
Proof. by destruct w as [h [snt|] b]. Qed.
Lemma sent_body {D} status e (w : ResponseWriter D) :
  rw_body (send_envelope status e w) = rw_body w ++ [PayloadJSON e].
Proof. by destruct w as [h [snt|] b]. Qed.
Lemma sent_status {D} status e (w : ResponseWriter D) : rw_sent w = None →
  fst <$> rw_sent (send_envelope status e w) = Some status.
Proof. destruct w as [h [snt|] b]; by cbn. Qed.

Section respond.
Context {S D : Type}.

Lemma RespondError_run (w : ResponseWriter D) (r : Request) status code msg wd (st : S) :
  ∃ w', RespondError w r status code msg wd st = (Ok w', st, tick wd) ∧ refuses status w w'.
Proof. eexists. split; [reflexivity|]. by eexists. Qed.

Lemma polite_RespondError (w : ResponseWriter D) (r : Request) status code msg :
  quiet (RespondError (S := S) w r status code msg).
Proof. unfold RespondError. quiet. Qed.
Lemma polite_RespondJSON (w : ResponseWriter D) (r : Request) status data :
  quiet (RespondJSON (S := S) w r status data).
Proof. unfold RespondJSON. quiet. Qed.
(** The reply is an error of some kind, and nothing changed. *)
Definition turned_away (run : go S (ResponseWriter D)) (w : ResponseWriter D) (wd : World) (st : S) :
    Prop :=
  ∃ status w' wd', run wd st = (Ok w', st, wd') ∧ 400 ≤ status < 600 ∧ refuses status w w'.

Lemma error_turned_away (r : Request) w status code msg wd st : 400 ≤ status < 600 →
  turned_away (RespondError w r status code msg) w wd st.
Proof.
  intros Hs. destruct (RespondError_run w r status code msg wd st) as (w' & Hw & Hr).
  by exists status, w', (tick wd).
Qed.

Definition error_rows (rows : list ErrorRow) (other : Z * string * option string) : Prop :=
  Forall (λ row : ErrorRow, 400 ≤ row.1.1.2 < 600) rows ∧ 400 ≤ other.1.1 < 600.

Lemma reply_error_turned_away same rows other (r : Request) w err wd st : error_rows rows other →
  turned_away (reply_error same rows other w r err) w wd st.
Proof.
  intros [Hrows Hother].
  induction Hrows as [|[[[ts status] code] msg] rows Hs Hrows IH]; cbn [reply_error].
  - destruct other as [[status code] msg]. by apply error_turned_away.
  - destruct (existsb _ _); [by apply error_turned_away|done].
Qed.

(** [m] fails with an error, no panic, and leaves everything as it was. *)
Definition denied {St X} (m : go St X) (s : St) (w : World) : Prop :=
  ∃ e w', m w s = (Err e, s, w') ∧ panicked e = false.

Lemma denied_bind {St X Y} (m : go St X) (f : X → go St Y) s w :
  denied m s w → denied (m ≫= f) s w.
Proof. intros (e & w' & Hm & He). exists e, w'. unfold mbind, go_bind. by rewrite Hm. Qed.

Lemma denied_on {St T X} (l : Lens St T) (m : go T X) s w :
  denied m (lens_pick l s) w → denied (on l m) s w.
Proof.
  intros (e & w' & Hm & He). exists e, w'. unfold on, zoom. by rewrite Hm, lens_place_pick.
Qed.

Lemma reply_turned_away same {X} (m : go S X) rows other status data (r : Request) w wd st :
  denied m st wd → error_rows rows other →
  turned_away (reply_by same m rows other status data w r) w wd st.
Proof.
  intros (e & wd1 & Hm & He) Hrows. unfold reply_by, turned_away, mbind, go_bind, try_err.
  rewrite Hm, He. by apply reply_error_turned_away.
Qed.
End respond.

(** The authorizer of the server refuses with an error, it does not panic. *)
Lemma DynamicAuthorizer_calm s action res e :
  @Authorize DynamicAuthorizer s action res = Err e → panicked e = false.
Proof.
  unfold Authorize, DynamicAuthorizer. repeat case_match; intros; simplify_eq; done.
Qed.

Section gate.
Context {S D A : Type} `{!AuditRepository A, !JWTLibrary, !Digest, !Mux}.
Context (pick : S → AccountStore * A) (place : AccountStore * A → S → S).
Context (tm : TokenManager) (auth : Authorizer).
Context (bind : Endpoint → Handler S D) (notfound : Handler S D).
Context (place_pick : ∀ st, place (pick st) st = st).

(** Who sent the request: the owner of its key when it has one, else the
    subject of its bearer token. *)
Definition credential (r : Request) (wd : World) (st : S) : option Identity.Subject :=
  let found := λ res : result Identity.Subject, match res with Ok s => Some s | Err _ => None end in
  if decide (Header_Get "X-API-Key" r ≠ "")
  then found (answer (AuthenticateAPIKey (Header_Get "X-API-Key" r)) wd (pick st))
  else
    match two_words (Header_Get "Authorization" r) with
    | Some (scheme, token) =>
        if decide (EqualFold scheme "bearer")
        then found (answer (ValidateAccessToken tm token) wd st) else None
    | None => None
    end.

Definition allowed (rt : Route) (s : Identity.Subject) : Prop :=
  ∀ p, Route_Permission rt = Some p → @Authorize auth (Some s) p None = Ok ().

Lemma AuthenticateAPIKey_quiet key : quiet (AuthenticateAPIKey (A := A) key).
Proof.
  assert (∀ {X} (m : go AccountStore X), quiet m → quiet (on_store (A := A) m)) as Hst
    by (intros; by apply quiet_on_store).
  assert (∀ s p, quiet (load_key s p)) as Hl by (intros; unfold load_key; quiet).
  unfold AuthenticateAPIKey. apply quiet_bind.
  - apply quiet_wrap, Hst. unfold key_GetByKeyHash. quiet.
  - intros k. apply quiet_bind; [unfold APIKey_IsValid; quiet|]. intros v.
    destruct (negb v); [quiet|]. apply quiet_bind; [apply quiet_wrap, Hst, user_GetByID_quiet|].
    intros u. destruct (negb _); [quiet|]. apply quiet_bind; [|quiet].
    apply Hst. unfold role_GetUserPermissions. quiet.
Qed.

(** The outcome of a method that writes nothing, run on its part of the state. *)
Lemma quiet_accounts {X} (m : go (AccountStore * A) X) wd st : quiet m →
  ∃ wd', same_oracles wd wd' ∧ on_accounts pick place m wd st = (answer m wd (pick st), st, wd').
Proof.
  intros Hm. destruct (Hm wd (pick st)) as [He Hw]. exists (world m wd (pick st)). split; [done|].
  unfold on_accounts, zoom. rewrite (answer_exec_world m), He, place_pick. done.
Qed.

(** What the middleware does with a request. *)
Lemma AuthenticateMiddleware_run (next : Handler S D) r w wd st :
  match credential r wd st with
  | Some s => ∃ wd', same_oracles wd wd' ∧
      AuthenticateMiddleware pick place tm next r w wd st =
      next (r <| Request_Subject := Some s |>) w wd' st
  | None => ∃ w' wd', refuses 401 w w' ∧
      AuthenticateMiddleware pick place tm next r w wd st = (Ok w', st, wd')
  end.
Proof.
  assert (∀ code msg wd1, ∃ w' wd', refuses 401 w w' ∧
    RespondError w r 401 code msg wd1 st = (Ok w', st, wd')) as Href.
  { intros code msg wd1. destruct (RespondError_run w r 401 code msg wd1 st) as (w' & Hw & Hr). eauto. }
  unfold AuthenticateMiddleware, credential.
  destruct (decide (Header_Get "X-API-Key" r ≠ "")) as [Hkey|Hkey].
  - destruct (quiet_accounts _ wd st (AuthenticateAPIKey_quiet (Header_Get "X-API-Key" r)))
      as (wd1 & Hw & Hrun).
    unfold mbind, go_bind, try. rewrite Hrun. destruct (answer _ _ _) as [s|e]; [by exists wd1|].
    by repeat case_decide.
  - destruct (decide (Header_Get "Authorization" r = "")) as [->|Hne]; [cbn; apply Href|].
    destruct (two_words _) as [[scheme token]|]; [|apply Href].
    destruct (decide (EqualFold scheme "bearer")) as [He|He]; [|apply Href].
    destruct (ValidateAccessToken_quiet tm (St := S) token wd st) as [He' Hw].
    unfold mbind, go_bind, try. rewrite (answer_exec_world (ValidateAccessToken tm token)), He'.
    destruct (answer _ _ _) as [s|e]; [by eexists|]. by case_decide.
Qed.

(** A request at a route: it comes to the endpoint with its subject, or it is
    refused and nothing changed. *)
Definition gated (rt : Route) (run : go S (ResponseWriter D)) (r : Request) (w : ResponseWriter D)
    (cred : option Identity.Subject) (wd : World) (st : S) : Prop :=
  (∃ s wd', cred = Some s ∧ allowed rt s ∧ same_oracles wd wd' ∧
     run wd st = bind (Route_Endpoint_ rt) (r <| Request_Subject := Some s |>) w wd' st) ∨
  (∃ status w' wd', status ∈ [401; 403] ∧ (∀ s, cred = Some s → ¬ allowed rt s) ∧
     run wd st = (Ok w', st, wd') ∧ refuses status w w').

Lemma mount_gated rt r w wd st : Route_Authenticated rt = true →
  gated rt (mount pick place tm auth bind rt r w) r w (credential r wd st) wd st.
Proof.
  intros Hauth. unfold mount, gated. rewrite Hauth.
  match goal with |- context [AuthenticateMiddleware _ _ _ ?h] => set (next := h) end.
  pose proof (AuthenticateMiddleware_run next r w wd st) as Hrun.
  destruct (credential r wd st) as [s|].
  - destruct Hrun as (wd1 & Hw & Hrun). rewrite Hrun. subst next. unfold allowed.
    destruct (Route_Permission rt) as [p|]; [|left; exists s, wd1; by split_and!].
    unfold RequirePermission. cbn [GetSubject Request_Subject set_field].
    destruct (Authorize (Some s) p None) as [[]|e] eqn:Ha.
    + left. exists s, wd1. split_and!; [done|by intros ? [= <-]|done|].
      cbn. by rewrite Ha.
    + right. destruct (RespondError_run w (r <| Request_Subject := Some s |>) 403
        "AUTH_INSUFFICIENT_PERMISSION" "You lack permission to perform this action" wd1 st)
        as (w' & Hw' & Hr).
      exists 403, w', (tick wd1). split_and!; [set_solver| |cbn; by rewrite Ha|done].
      intros ? [= <-] Hall. specialize (Hall p eq_refl). congruence.
  - destruct Hrun as (w' & wd1 & Hr & Hrun). right. exists 401, w', wd1.
    split_and!; [set_solver|by intros ?|done|done].
Qed.

(** The endpoints that need no subject: the probes, the telemetry page, the
    entrance, the enrollment of nodes by token, and the sockets, which check
    the tokens in their addresses. *)
Definition public_endpoints : list Endpoint :=
  (Endpoint_of "HealthHandler" <$> ["LivenessCheck"; "ReadinessCheck"; "HealthCheck"]) ++
  [Endpoint_of "MetricsHandler" "ServeMetrics"] ++
  (Endpoint_of "AuthHandler" <$> ["Register"; "Login"; "VerifyTOTP"; "Refresh"; "Logout"]) ++
  [Endpoint_of "NodeHandler" "EnrollNode"] ++
  (Endpoint_of "ConsoleHandler" <$> ["HandleExec"; "HandleVNC"]) ++
  [Endpoint_of "EventStreamHandler" "ServeHTTP"].

(** The table is sound: a route without authentication leads to one of these. *)
Definition routes_closed (routes : list Route) : Prop :=
  Forall (λ rt, Route_Authenticated rt = true ∨ Route_Endpoint_ rt ∈ public_endpoints) routes.

Lemma server_routes_closed : routes_closed server_routes.
Proof. unfold routes_closed. apply (bool_decide_unpack _). vm_compute. constructor. Qed.

Lemma credential_body r b params wd st :
  credential (r <| Request_Body := b |> <| Request_Params := params |>) wd st = credential r wd st.
Proof. done. Qed.

Lemma ServeHTTP_route routes r w :
  ServeHTTP pick place tm auth bind notfound routes r w =
  route pick place tm auth bind notfound routes
    (r <| Request_Body := MaxBytesReader (Request_Body r) (10 * 1024 * 1024) |>)
    (set_security_headers w).
Proof. unfold ServeHTTP, SecurityHeadersMiddleware. by rewrite decide_False by lia. Qed.

Lemma route_found routes r w i params rt :
  FindRoute ((λ rt, (Route_Method rt, Route_Pattern rt)) <$> routes)
    (Request_Method r) (Request_Path r) = Some (i, params) →
  routes !! i = Some rt →
  route pick place tm auth bind notfound routes r w =
  mount pick place tm auth bind rt (r <| Request_Params := params |>) w.
Proof. intros Hf Hr. unfold route. by rewrite Hf, Hr. Qed.

(** The request as the endpoint of a route sees it. *)
Definition at_endpoint (r : Request) (params : list (string * string)) (s : Identity.Subject) : Request :=
  r <| Request_Body := MaxBytesReader (Request_Body r) (10 * 1024 * 1024) |>
    <| Request_Params := params |> <| Request_Subject := Some s |>.

(** An endpoint that turns a caller away does so behind the server. *)
Lemma served_turned_away (r : Request) (w : ResponseWriter D) wd st i params rt :
  FindRoute ((λ rt, (Route_Method rt, Route_Pattern rt)) <$> server_routes)
    (Request_Method r) (Request_Path r) = Some (i, params) →
  server_routes !! i = Some rt → Route_Endpoint_ rt ∉ public_endpoints →
  (∀ s wd', credential r wd st = Some s →
     turned_away (bind (Route_Endpoint_ rt) (at_endpoint r params s) (set_security_headers w))
       (set_security_headers w) wd' st) →
  turned_away (ServeHTTP pick place tm auth bind notfound server_routes r w)
    (set_security_headers w) wd st.
Proof.
  intros Hfind Hrt Hpub Hend.
  destruct (Forall_lookup_1 _ _ _ _ server_routes_closed Hrt) as [Ha|]; [|done].
  rewrite ServeHTTP_route. erewrite route_found by done.
  destruct (mount_gated rt (r <| Request_Body := MaxBytesReader (Request_Body r) (10 * 1024 * 1024) |>
       <| Request_Params := params |>) (set_security_headers w) wd st Ha)
    as [(s & wd' & Hs & _ & _ & Hrun)|(status & w' & wd' & Hst & _ & Hrun & Hr)].
  - rewrite credential_body in Hs. unfold turned_away. rewrite Hrun. by apply Hend.
  - exists status, w', wd'. split; [done|]. split; [|done].
    apply list_elem_of_In in Hst. cbn in Hst. lia.
Qed.

End gate.

(** ** The limiter in front of a handler *)

Section limited.
Context {S D L : Type} `{!RateLimit.Limiter L}.
Context (pick : S → L) (place : L → S → S).

(** A request the limiter counts out never comes to the handler; its reply
    says 429 and when to come back, after at least a second. *)
Lemma RateLimitMiddleware_refuses rule (next : Handler S D) r w wd st res l wd' :
  RateLimit.CheckLimit true (extractClientKey r) rule wd (pick st) = (Ok res, l, wd') →
  RateLimit.Result_Allowed res = false →
  ∃ w' retry, RateLimitMiddleware pick place true true rule next r w wd st =
      (Ok w', place l st, tick wd') ∧
    1 ≤ retry ∧ rw_header w' !! "Retry-After" = Some (fmt_d retry) ∧
    rw_body w' = rw_body w ++ [PayloadJSON (mkResponseEnvelope false None (Some ("RATE_LIMIT_EXCEEDED",
      "Rate limit exceeded for " +:+ RateLimit.Rule_Name rule +:+ ". Please retry in " +:+
      fmt_d retry +:+ " seconds.")) (mkMetaInfo (request_id r) (now_of wd')))].
Proof.
  intros Hc Ha. unfold RateLimitMiddleware. cbn [negb]. unfold mbind, go_bind, try, zoom.
  rewrite Hc, Ha. cbn [negb].
  set (seconds := to_int64 _). set (retry := if decide (seconds ≤ 0) then 1 else seconds).
  eexists _, retry. split; [reflexivity|]. split; [subst retry; case_decide; lia|].
  rewrite sent_header, sent_body. unfold Header_Set. cbn [rw_header rw_body].
  split; [|done]. rewrite lookup_insert_ne by done. by rewrite lookup_insert_eq.
Qed.
End limited.

(** ** A concrete server *)

Section demo.
#[local] Existing Instances tagging_digest plain_jwt RateLimit.MemoryLimiter.

(** A router that compares the segments of path and pattern. *)
Fixpoint segments (s : string) : list string :=
  match s with
  | "" => [""]
  | String x rest =>
      match segments rest with
      | seg :: l => if decide (x = "/"%char) then "" :: seg :: l else String x seg :: l
      | [] => []
      end
  end.
Fixpoint match_path (pattern path : list string) : option (list (string * string)) :=
  match pattern, path with
  | [], [] => Some []
  | p :: ps, x :: xs =>
      if decide (String.get 0 p = Some "{"%char)
      then cons (String.substring 1 (String.length p - 2) p, x) <$> match_path ps xs
      else if decide (p = x) then match_path ps xs else None
  | _, _ => None
  end.
Fixpoint first_match (i : nat) (l : list (string * string)) (method : string)
    (path : list string) : option (nat * list (string * string)) :=
  match l with
  | [] => None
  | (m, p) :: rest =>
      match match_path (segments p) path with
      | Some params => if decide (m = method) then Some (i, params)
                       else first_match (Datatypes.S i) rest method path
      | None => first_match (Datatypes.S i) rest method path
      end
  end.
#[local] Instance segment_mux : Mux := λ l method path, first_match 0 l method (segments path).

Definition get_request (method path : string) (headers : list (string * string)) : Request :=
  mkRequest method path [] [] headers "192.0.2.7:51000" (mkBody "" None) "req-1" None.
Definition blank {D} : ResponseWriter D := mkResponseWriter ∅ None [].

(** Endpoints that answer who asks. *)
Definition whoami (e : Endpoint) : Handler Demo string := λ r w,
  RespondJSON w r 200 (match GetSubject r with Some s => Subject_Username s | None => "nobody" end).
Definition not_found : Handler Demo string := λ r w,
  RespondError w r 404 "NOT_FOUND" "endpoint not found".

Definition key_header : list (string * string) := [("x-api-key", "aur_live_0123456789")].
Definition serve_demo (r : Request) : result (ResponseWriter string) :=
  answer (ServeHTTP id (λ x _, x) demo_tm DynamicAuthorizer whoami not_found server_routes r blank)
    (named "h") with_key.
Definition status_of {D} (res : result (ResponseWriter D)) : Z :=
  match res with Ok w => default 0 (fst <$> rw_sent w) | Err _ => 0 end.


(** The key of the demonstration reads instances and nothing else. *)
Example guarded_by_scope :
  status_of (serve_demo (get_request "GET" "/api/v1/instances/" key_header)) = 200 ∧
  status_of (serve_demo (get_request "POST" "/api/v1/instances/" key_header)) = 403 ∧
  status_of (serve_demo (get_request "GET" "/api/v1/instances/" [])) = 401 ∧
  status_of (serve_demo (get_request "GET" "/healthz" [])) = 200.
Proof. by vm_compute. Qed.

(** A token library whose tokens name a tenant with the role of a customer. *)
Definition customer_jwt : JWTLibrary := {|
  SignedString := λ _ c, Ok (Claims_UserID c);
  ParseWithClaims := λ _ iss aud _ t,
    Ok (mkClaims t t "" ["customer"] customer_codes [] "access" iss t [aud] 0 0 0 "")
|}.
(** Every permission a route asks for is one the system knows. *)
Example permissions_are_seeded :
  Forall (λ rt, default "*" (Route_Permission rt) ∈ (Permission_Code <$> system_permissions))
    server_routes.
Proof. apply (bool_decide_unpack _). vm_compute. constructor. Qed.

(** What the role of a tenant does not reach of its own instances: it may
    create an instance, but not delete or resize it, nor set its firewall, nor
    take or restore its backups and snapshots. *)
Example customers_cannot_delete :
  Route_Endpoint_ <$> filter (λ rt, ¬ default "*" (Route_Permission rt) ∈ customer_codes) instance_routes
  = InstanceHandler <$>
      [UpdateSpec_; DeleteInstance_; ApplyFirewallRules_; ConfigureNetwork_; CreateBackup_;
       RestoreBackup_; DeleteBackup_; CreateSnapshot_; RestoreSnapshot_; DeleteSnapshot_].
Proof. by vm_compute. Qed.

(** The limiter believes the header of a proxy: a client that writes a new
    address into every request is never refused, while the same client with
    one address is. No route of the server has the limiter, as it happens. *)
Definition once_a_minute : RateLimit.Rule := RateLimit.mkRule "login" 1 Minute "auth".
Definition limited_status (forwarded : list string) : Z :=
  let ask := λ addr, RateLimitMiddleware (L := RateLimit.MemoryRateLimiter) id (λ l _, l) true true
    once_a_minute (λ r w, RespondJSON w r 200 "in")
    (get_request "POST" "/api/v1/auth/login" [("X-Forwarded-For", addr)]) blank in
  status_of (foldl (λ acc addr, let '(_, st) := acc in
    let '(res, st', _) := ask addr (named "f") st in (res, st')) (Ok blank, (∅ : RateLimit.MemoryRateLimiter)) forwarded).1.

Example forged_address_evades_limit :
  limited_status ["10.0.0.1"; "10.0.0.1"] = 429 ∧ limited_status ["10.0.0.1"; "10.0.0.2"] = 200.
Proof. by vm_compute. Qed.

Example addresses :
  SplitHostPort "192.0.2.7:51000" = Ok "192.0.2.7" ∧ SplitHostPort "[2001:db8::1]:80" = Ok "2001:db8::1" ∧
  (∃ e, SplitHostPort "2001:db8::1" = Err e) ∧ (∃ e, SplitHostPort "host" = Err e) ∧
  (∃ e, SplitHostPort "[::1]x:80" = Err e).
Proof. split_and!; (reflexivity || by eexists). Qed.

(** A body longer than the limit ends in an error instead of its end. *)
Example long_bodies_end_in_an_error :
  MaxBytesReader (mkBody "0123456789" None) 4 = mkBody "0123" (Some ErrBodyTooLarge) ∧
  MaxBytesReader (mkBody "0123" None) 4 = mkBody "0123" None.
Proof. by vm_compute. Qed.
End demo.
