(* ===== verification/InstanceApi.v ===== *)
(** * The instance endpoints

    [internal/transport/http/instance_handler.go]: the methods behind
    [/api/v1/instances], from the request to the compute and the network
    service and back to a status. The decoder of the request bodies
    ([encoding/json]) is the port [InstanceDecoder]. *)

From S2P Require Import Prelude Identity AuditTrail Events Accounts Auth Http.
From S2P Require Import Node Commands Instances Quota Guest Template Compute.
From S2P Require Network.
#[local] Existing Instances Node.Status_eq_dec.

(** [domain/network/errors.go]; no service returns it. *)
Definition ErrInvalidRule := ErrNew "network" "invalid firewall rule specification".

(** ** Telemetry of one instance

    [GetInstanceMetrics] of [internal/app/compute/service.go]. *)

Record InstanceMetrics : Type := mkInstanceMetrics {
  InstanceMetrics_CPUUsagePercent : float64;
  InstanceMetrics_MemoryUsageBytes : Z;
  InstanceMetrics_MemoryPeakBytes : Z;
  InstanceMetrics_DiskReadBytes : Z;
  InstanceMetrics_DiskWriteBytes : Z;
  InstanceMetrics_NetworkRxBytes : Z;
  InstanceMetrics_NetworkTxBytes : Z;
  InstanceMetrics_ProcessesCount : Z;
  InstanceMetrics_Timestamp : Z
}.
#[export] Instance InstanceMetrics_eq_dec : EqDecision InstanceMetrics.
Proof. solve_decision. Defined.

Definition eta_InstanceMetrics (r : InstanceMetrics) : InstanceMetrics :=
  mkInstanceMetrics (InstanceMetrics_CPUUsagePercent r)
    (InstanceMetrics_MemoryUsageBytes r) (InstanceMetrics_MemoryPeakBytes r)
    (InstanceMetrics_DiskReadBytes r) (InstanceMetrics_DiskWriteBytes r)
    (InstanceMetrics_NetworkRxBytes r) (InstanceMetrics_NetworkTxBytes r)
    (InstanceMetrics_ProcessesCount r) (InstanceMetrics_Timestamp r).
#[export] Instance set_InstanceMetrics_Timestamp : Setter InstanceMetrics_Timestamp := ltac:(setter eta_InstanceMetrics InstanceMetrics_Timestamp).

(** The payload of the answer, written as JSON and read into the record. *)
Class MetricsCodec := metrics_of_payload : option Prelude.Details → InstanceMetrics.

(** ** Bodies *)

Record PowerRequest : Type := mkPowerRequest {
  PowerRequest_Action : string;
  PowerRequest_Force : bool
}.
Record UpdateSpecRequest : Type := mkUpdateSpecRequest {
  UpdateSpecRequest_CPUCores : Z;
  UpdateSpecRequest_MemoryBytes : Z;
  UpdateSpecRequest_StorageBytes : Z
}.
Record NetworkRequest : Type := mkNetworkRequest {
  NetworkRequest_InterfaceName : string;
  NetworkRequest_IPv4Address : string;
  NetworkRequest_IPv4Gateway : string;
  NetworkRequest_IPv6Address : string;
  NetworkRequest_IPv6Gateway : string;
  NetworkRequest_MACAddress : string;
  NetworkRequest_VLANID : Z
}.
Record WriteFileRequest : Type := mkWriteFileRequest {
  WriteFileRequest_Path : string;
  WriteFileRequest_Content : string;
  WriteFileRequest_IsDir : bool
}.
Record SnapshotRequest : Type := mkSnapshotRequest {
  SnapshotRequest_Name : string;
  SnapshotRequest_Stateful : bool
}.

(** [json.NewDecoder(r.Body).Decode(&req)] for each kind of request: what is
    in [req] afterwards, and the error. *)
Class InstanceDecoder := {
  decode_create : Body → CreateInstanceRequest * option error;
  decode_power : Body → PowerRequest * option error;
  decode_spec : Body → UpdateSpecRequest * option error;
  decode_rules : Body → list Network.FirewallRuleInput * option error;
  decode_network : Body → NetworkRequest * option error;
  decode_file : Body → WriteFileRequest * option error;
  decode_name : Body → string * option error;
  decode_snapshot : Body → SnapshotRequest * option error
}.

(** ** What the endpoints answer *)

Inductive ApiData : Type :=
| InstanceData (i : Instance_)
| InstancesData (l : list Instance_)
| MetricsData (m : InstanceMetrics)
| RulesData (l : list Network.FirewallRule)
| FilesData (instanceID path : string) (l : list GuestFileInfo)
| BackupData (b : InstanceBackup)
| BackupsData (instanceID : string) (l : list InstanceBackup)
| SnapshotData (s : InstanceSnapshot)
| SnapshotsData (instanceID : string) (l : list InstanceSnapshot)
| FieldsData (l : list (string * any)).

(** ** The state behind the endpoints

    The compute and the network service share the instances and the nodes. *)
Record ApiState (G Q E T A : Type) := mkApiState {
  as_accounts : AccountStore;
  as_compute : ComputeEnv G Q E T;
  as_rules : Network.RuleStore;
  as_audit : A
}.
Arguments mkApiState {G Q E T A} _ _ _ _.
Arguments as_accounts {G Q E T A} _.
Arguments as_compute {G Q E T A} _.
Arguments as_rules {G Q E T A} _.
Arguments as_audit {G Q E T A} _.

Section handlers.
Context {G Q E T A : Type}.
Context `{!NodeGateway G, !QuotaValidator Q, !EventPublisher E, !TemplateLookup T,
          !AuditRepository A, !SortSlice, !InstanceDecoder, !MetricsCodec}.
Context (auth : Authorizer) (wires : Wiring).
Abbreviation state := (ApiState G Q E T A).
Abbreviation handler := (Handler state ApiData).

Definition pick_accounts (s : state) : AccountStore * A := (as_accounts s, as_audit s).
Definition place_accounts (x : AccountStore * A) (s : state) : state :=
  mkApiState x.1 (as_compute s) (as_rules s) x.2.
#[program] Definition compute_lens : Lens state (ComputeEnv G Q E T * A) := {|
  lens_pick := λ s, (as_compute s, as_audit s);
  lens_place := λ x s, mkApiState (as_accounts s) x.1 (as_rules s) x.2
|}.
Next Obligation. by intros []. Qed.
#[program] Definition network_lens : Lens state (Network.NetworkEnv G * A) := {|
  lens_pick := λ s, (Network.mkNetworkEnv (as_rules s) (ce_instances (as_compute s))
                       (ce_nodes (as_compute s)), as_audit s);
  lens_place := λ x s, mkApiState (as_accounts s)
    (mkComputeEnv (Network.ne_instances x.1) (Network.ne_nodes x.1) (ce_quota (as_compute s))
       (ce_events (as_compute s)) (ce_templates (as_compute s)))
    (Network.ne_rules x.1) x.2
|}.
Next Obligation. by intros [? []]. Qed.
Definition on_compute {X} (m : go (ComputeEnv G Q E T * A) X) : go state X := on compute_lens m.
Definition on_network {X} (m : go (Network.NetworkEnv G * A) X) : go state X := on network_lens m.

Definition GetInstanceMetrics (sub : option Subject) (instanceID : string) :
    go (ComputeEnv G Q E T * A) InstanceMetrics :=
  inst ← open_instance auth sub "instance:read" instanceID;
  r ← send (Instance__NodeID inst) "get_instance_metrics"
    [("instance_id", AnyStr (Instance__ID inst)); ("name", AnyStr (Instance__Name inst))];
  match command_failure r, r with
  | None, Ok res =>
      let metrics := metrics_of_payload (CommandResult_Payload res) in
      if decide (IsZero (InstanceMetrics_Timestamp metrics)) then
        now ← time_Now; mret (metrics <| InstanceMetrics_Timestamp := now |>)
      else mret metrics
  | _, _ => fail (Wrapf (Error ErrInstanceOperationFailed +:+
                         ": failed to retrieve telemetry from node") ErrInstanceOperationFailed)
  end.

Definition with_subject : ResponseWriter ApiData → Request →
    (Subject → go state (ResponseWriter ApiData)) → go state (ResponseWriter ApiData) :=
  signed_in "AUTH_UNAUTHORIZED" "authentication required".

Definition internal_error : Z * string * option string := always 500 "INTERNAL_ERROR".
Definition respond {X} (m : go state X) (rows : list ErrorRow) (status : Z) (data : X → ApiData)
    (w : ResponseWriter ApiData) (r : Request) : go state (ResponseWriter ApiData) :=
  reply m rows internal_error status data w r.

Definition malformed (w : ResponseWriter ApiData) (r : Request) : go state (ResponseWriter ApiData) :=
  RespondError w r 400 "INVALID_REQUEST" "malformed JSON body".

Definition not_found_row : ErrorRow :=
  ([ErrInstanceNotFound], 404, "INSTANCE_NOT_FOUND", Some "instance not found").
Definition missing_row : ErrorRow :=
  ([ErrInstanceNotFound], 404, "NOT_FOUND", Some "instance not found").
Definition forbidden_row (message : string) : ErrorRow :=
  ([ErrInsufficientPermission; ErrResourceForbidden], 403, "AUTH_FORBIDDEN", Some message).
Definition no_access : ErrorRow := forbidden_row "you do not have access to this instance".
Definition no_changes : ErrorRow := forbidden_row "you do not have permission to modify this instance".

Definition fields (l : list (string * any)) : () → ApiData := λ _, FieldsData l.

(** ** The endpoints *)

Definition CreateInstance_handler : handler := λ r w,
  with_subject w r (λ sub,
    let '(req, err) := decode_create (Request_Body r) in
    if err is Some _ then malformed w r
    else respond (on_compute (CreateInstance auth wires (Some sub) req))
           [([ErrInvalidSpec; ErrUnsupportedInstanceType], 400, "INVALID_SPEC", None);
            ([ErrInstanceAlreadyExists], 409, "INSTANCE_ALREADY_EXISTS",
             Some "instance with this name already exists")]
           201 InstanceData w r).

Definition ListInstances_handler : handler := λ r w,
  with_subject w r (λ sub,
    respond (on_compute (ListInstances auth (Some sub))) [] 200 InstancesData w r).

Definition GetInstance_handler : handler := λ r w,
  with_subject w r (λ sub,
    respond (on_compute (GetInstance auth (Some sub) (URLParam r "id")))
      [not_found_row; no_access] 200 InstanceData w r).

Definition PowerAction_handler : handler := λ r w,
  with_subject w r (λ sub,
    let id := URLParam r "id" in
    let '(req, err) := decode_power (Request_Body r) in
    if err is Some _ then malformed w r
    else respond (on_compute (PowerAction auth wires (Some sub) id (PowerRequest_Action req)
                                (PowerRequest_Force req)))
           [not_found_row;
            forbidden_row "you do not have permission to control power for this instance"]
           200 InstanceData w r).

Definition UpdateSpec_handler : handler := λ r w,
  with_subject w r (λ sub,
    let id := URLParam r "id" in
    let '(req, err) := decode_spec (Request_Body r) in
    if err is Some _ then malformed w r
    else respond (on_compute (UpdateInstanceSpec auth (Some sub) id (UpdateSpecRequest_CPUCores req)
                                (UpdateSpecRequest_MemoryBytes req) (UpdateSpecRequest_StorageBytes req)))
           [not_found_row; no_changes] 200 InstanceData w r).

Definition DeleteInstance_handler : handler := λ r w,
  with_subject w r (λ sub,
    let id := URLParam r "id" in
    let force := bool_decide (Query_Get "force" r = "true") || bool_decide (Query_Get "force" r = "1") in
    respond (on_compute (DeleteInstance auth wires (Some sub) id force))
      [not_found_row; forbidden_row "you do not have permission to delete this instance"]
      200 (fields [("id", AnyStr id); ("deleted", AnyBool true)]) w r).

Definition GetMetrics_handler : handler := λ r w,
  with_subject w r (λ sub,
    respond (on_compute (GetInstanceMetrics (Some sub) (URLParam r "id")))
      [not_found_row; no_access] 200 MetricsData w r).

Definition ListFirewallRules_handler : handler := λ r w,
  with_subject w r (λ sub,
    respond (on_network (Network.ListFirewallRules auth (Some sub) (URLParam r "id")))
      [not_found_row; no_access] 200 RulesData w r).

Definition ApplyFirewallRules_handler : handler := λ r w,
  with_subject w r (λ sub,
    let id := URLParam r "id" in
    let '(rules, err) := decode_rules (Request_Body r) in
    if err is Some _ then malformed w r
    else respond (on_network (Network.ApplyFirewallRules auth (Some sub) id rules))
           [not_found_row;
            ([Network.ErrInvalidProtocol; ErrInvalidRule], 400, "INVALID_RULE", None); no_changes]
           200 RulesData w r).

Definition ConfigureNetwork_handler : handler := λ r w,
  with_subject w r (λ sub,
    let id := URLParam r "id" in
    let '(req, err) := decode_network (Request_Body r) in
    if err is Some _ then malformed w r
    else respond (on_network (Network.ConfigureNetwork auth (Some sub) id
                    (NetworkRequest_InterfaceName req) (NetworkRequest_IPv4Address req)
                    (NetworkRequest_IPv4Gateway req) (NetworkRequest_IPv6Address req)
                    (NetworkRequest_IPv6Gateway req) (NetworkRequest_MACAddress req)
                    (NetworkRequest_VLANID req)))
           [not_found_row; no_changes]
           200 (fields [("instanceId", AnyStr id); ("configured", AnyBool true)]) w r).

(** Guest files *)

Definition ListFiles_handler : handler := λ r w,
  with_subject w r (λ sub,
    let id := URLParam r "id" in
    let targetPath := or_default "/" (Query_Get "path" r) in
    respond (on_compute (ListGuestFiles auth (Some sub) id targetPath))
      [missing_row; ([ErrInvalidPath], 400, "INVALID_PATH", None)]
      200 (FilesData id targetPath) w r).

Definition WriteFile_handler : handler := λ r w,
  with_subject w r (λ sub,
    let id := URLParam r "id" in
    let '(req, err) := decode_file (Request_Body r) in
    if decide (is_Some err ∨ WriteFileRequest_Path req = "")
    then RespondError w r 400 "INVALID_REQUEST" "path is required"
    else respond (on_compute (WriteGuestFile auth (Some sub) id (WriteFileRequest_Path req)
                    (Z.of_nat (String.length (WriteFileRequest_Content req))) (WriteFileRequest_IsDir req)))
           [missing_row; ([ErrInvalidPath; ErrFileTooLarge], 400, "INVALID_FILE", None)]
           201 (fields [("instanceId", AnyStr id); ("path", AnyStr (WriteFileRequest_Path req));
                        ("saved", AnyBool true)]) w r).

Definition DeleteFile_handler : handler := λ r w,
  with_subject w r (λ sub,
    let id := URLParam r "id" in
    let targetPath := Query_Get "path" r in
    if decide (targetPath = "")
    then RespondError w r 400 "INVALID_REQUEST" "path parameter is required"
    else respond (on_compute (DeleteGuestFile auth (Some sub) id targetPath))
           [missing_row; ([ErrInvalidPath], 400, "INVALID_PATH", None)]
           200 (fields [("instanceId", AnyStr id); ("path", AnyStr targetPath);
                        ("deleted", AnyBool true)]) w r).

(** Backups *)

Definition ListBackups_handler : handler := λ r w,
  with_subject w r (λ sub,
    let id := URLParam r "id" in
    respond (on_compute (ListBackups auth (Some sub) id)) [missing_row] 200 (BackupsData id) w r).

Definition CreateBackup_handler : handler := λ r w,
  with_subject w r (λ sub,
    let id := URLParam r "id" in
    let '(name, _) := decode_name (Request_Body r) in
    respond (on_compute (CreateBackup auth (Some sub) id name)) [missing_row] 201 BackupData w r).

Definition RestoreBackup_handler : handler := λ r w,
  with_subject w r (λ sub,
    let id := URLParam r "id" in
    let backupID := URLParam r "backupId" in
    respond (on_compute (RestoreBackup auth (Some sub) id backupID)) [missing_row]
      200 (fields [("instanceId", AnyStr id); ("backupId", AnyStr backupID);
                   ("restored", AnyBool true)]) w r).

Definition DeleteBackup_handler : handler := λ r w,
  with_subject w r (λ sub,
    let id := URLParam r "id" in
    let backupID := URLParam r "backupId" in
    respond (on_compute (DeleteBackup auth (Some sub) id backupID)) [missing_row]
      200 (fields [("instanceId", AnyStr id); ("backupId", AnyStr backupID);
                   ("deleted", AnyBool true)]) w r).

(** Snapshots *)

Definition ListSnapshots_handler : handler := λ r w,
  with_subject w r (λ sub,
    let id := URLParam r "id" in
    respond (on_compute (ListSnapshots auth (Some sub) id)) [missing_row] 200 (SnapshotsData id) w r).

Definition CreateSnapshot_handler : handler := λ r w,
  with_subject w r (λ sub,
    let id := URLParam r "id" in
    let '(req, _) := decode_snapshot (Request_Body r) in
    respond (on_compute (CreateSnapshot auth (Some sub) id (SnapshotRequest_Name req)
                           (SnapshotRequest_Stateful req)))
      [missing_row] 201 SnapshotData w r).

Definition RestoreSnapshot_handler : handler := λ r w,
  with_subject w r (λ sub,
    let id := URLParam r "id" in
    let snapshotID := URLParam r "snapshotId" in
    respond (on_compute (RestoreSnapshot auth (Some sub) id snapshotID)) [missing_row]
      200 (fields [("instanceId", AnyStr id); ("snapshotId", AnyStr snapshotID);
                   ("restored", AnyBool true)]) w r).

Definition DeleteSnapshot_handler : handler := λ r w,
  with_subject w r (λ sub,
    let id := URLParam r "id" in
    let snapshotID := URLParam r "snapshotId" in
    respond (on_compute (DeleteSnapshot auth (Some sub) id snapshotID)) [missing_row]
      200 (fields [("instanceId", AnyStr id); ("snapshotId", AnyStr snapshotID);
                   ("deleted", AnyBool true)]) w r).

Definition instance_endpoint (e : InstanceEndpoint) : handler :=
  match e with
  | CreateInstance_ => CreateInstance_handler
  | ListInstances_ => ListInstances_handler
  | GetInstance_ => GetInstance_handler
  | PowerAction_ => PowerAction_handler
  | UpdateSpec_ => UpdateSpec_handler
  | DeleteInstance_ => DeleteInstance_handler
  | GetMetrics_ => GetMetrics_handler
  | ListFirewallRules_ => ListFirewallRules_handler
  | ApplyFirewallRules_ => ApplyFirewallRules_handler
  | ConfigureNetwork_ => ConfigureNetwork_handler
  | ListFiles_ => ListFiles_handler
  | WriteFile_ => WriteFile_handler
  | DeleteFile_ => DeleteFile_handler
  | ListBackups_ => ListBackups_handler
  | CreateBackup_ => CreateBackup_handler
  | RestoreBackup_ => RestoreBackup_handler
  | DeleteBackup_ => DeleteBackup_handler
  | ListSnapshots_ => ListSnapshots_handler
  | CreateSnapshot_ => CreateSnapshot_handler
  | RestoreSnapshot_ => RestoreSnapshot_handler
  | DeleteSnapshot_ => DeleteSnapshot_handler
  end.
End handlers.

(** ** Requests from another tenant *)

Section tenancy.
Context {G Q E T A : Type}.
Context `{!NodeGateway G, !QuotaValidator Q, !EventPublisher E, !TemplateLookup T,
          !AuditRepository A, !SortSlice, !InstanceDecoder, !MetricsCodec}.
Context (auth : Authorizer) `{!@AuthorizerLaws auth} (wires : Wiring).
(** The authorizer refuses with an error, it does not panic. *)
Context (authorize_calm : ∀ s action res e, @Authorize auth s action res = Err e → panicked e = false).
Abbreviation state := (ApiState G Q E T A).
Abbreviation handler := (Handler state ApiData).
Implicit Types (st : state) (r : Request) (w : ResponseWriter ApiData).

Definition fleet_at (st : state) : MemoryInstanceStore := ce_instances (as_compute st).

(** A subject without an administrative role, and an instance of somebody
    else. *)
Definition stranger (s : Subject) (i : Instance_) : Prop :=
  Instance__UserID i ≠ "" ∧ Instance__UserID i ≠ Subject_UserID s ∧
  ∀ role, role ∈ ["superadmin"; "admin"; "operator"] → HasRole s role = false.

Lemma stranger_refused s i action : stranger s i →
  ∃ e, @Authorize auth (Some s) action (Some (Instance_Resource i)) = Err e ∧ panicked e = false.
Proof.
  intros (Ho & Hne & Hroles).
  destruct (@Authorize auth (Some s) action (Some (Instance_Resource i))) as [[]|err] eqn:Ha; [|by eauto].
  exfalso. destruct (authorize_tenant _ _ _ Ha Ho) as [?|(role & Hr & Hin)]; [done|].
  by rewrite Hroles in Hr.
Qed.

Lemma open_denied s i action id (env : ComputeEnv G Q E T * A) wd :
  instance_store_ok (ce_instances env.1) → instance_at (ce_instances env.1) id = Some i →
  stranger s i → denied (open_instance auth (Some s) action id) env wd.
Proof.
  intros Hok Hi Hs. destruct env as [[ins g q e t] a]. cbn in *.
  destruct (stranger_refused s i action Hs) as (err & He & Hp). exists err, wd.
  unfold open_instance, on_instances, on_store, zoom, authorize, lift, mbind, go_bind. cbn.
  rewrite InstanceGetByID_run by done. rewrite Hi. cbn. by rewrite He.
Qed.

Lemma open_for_denied s i action id (env : Network.NetworkEnv G * A) wd :
  instance_store_ok (Network.ne_instances env.1) → instance_at (Network.ne_instances env.1) id = Some i →
  stranger s i → denied (Network.open_for auth (Some s) action id) env wd.
Proof.
  intros Hok Hi Hs. destruct env as [[rs ins g] a]. cbn in *.
  destruct (stranger_refused s i action Hs) as (err & He & Hp). exists err, wd.
  unfold Network.open_for, Network.on_instances, on_store, zoom, authorize, lift, wrap_err.
  unfold mbind, go_bind. cbn. rewrite InstanceGetByID_run by done. rewrite Hi. cbn. by rewrite He.
Qed.

(** Every endpoint on an instance turns its strangers away. *)
Lemma endpoint_turns_away e r w wd st s i :
  e ∉ [CreateInstance_; ListInstances_] → GetSubject r = Some s →
  instance_store_ok (fleet_at st) → instance_at (fleet_at st) (URLParam r "id") = Some i →
  stranger s i → turned_away (instance_endpoint auth wires e r w) w wd st.
Proof.
  intros He Hs Hok Hi Hst.
  assert (∀ action, denied (open_instance (G := G) (Q := Q) (E := E) (T := T) (A := A) auth (Some s)
    action (URLParam r "id")) (lens_pick compute_lens st) wd) as Hopen.
  { intros action. by eapply open_denied. }
  assert (∀ action, denied (Network.open_for (G := G) (A := A) auth (Some s) action (URLParam r "id"))
    (lens_pick network_lens st) wd) as Hfor.
  { intros action. by eapply open_for_denied. }
  assert (∀ T' (l : Lens state T') X (m : go T' X) rows status data,
    denied m (lens_pick l st) wd → error_rows rows internal_error →
    turned_away (respond (on l m) rows status data w r) w wd st) as Hl.
  { intros. by apply reply_turned_away; [apply denied_on|]. }
  destruct e; cbn [instance_endpoint]; [exfalso; apply He; by left|exfalso; apply He; by right; left|..].
  all: cbv delta
    [GetInstance_handler PowerAction_handler UpdateSpec_handler DeleteInstance_handler
     GetMetrics_handler ListFirewallRules_handler ApplyFirewallRules_handler ConfigureNetwork_handler
     ListFiles_handler WriteFile_handler DeleteFile_handler ListBackups_handler CreateBackup_handler
     RestoreBackup_handler DeleteBackup_handler ListSnapshots_handler CreateSnapshot_handler
     RestoreSnapshot_handler DeleteSnapshot_handler] beta.
  all: unfold with_subject, signed_in; rewrite Hs; cbv zeta.
  all: try match goal with |- context [match ?d (Request_Body ?q) with _ => _ end] =>
         destruct (d (Request_Body q)) as [req [err|]] end.
  all: try case_decide; try (apply error_turned_away; lia).
  all: apply Hl.
  all: try (split; repeat constructor; cbn; lia).
  all: first [apply Hopen | apply Hfor | apply denied_bind, Hopen | apply denied_bind, Hfor
             | apply denied_bind, denied_bind, Hopen].
Qed.

Section requests.
Context `{!JWTLibrary, !Digest, !Mux} (tm : TokenManager).
Context (others : string → string → handler) (notfound : handler).

Definition api_endpoint (e : Endpoint) : handler :=
  match e with
  | InstanceHandler e => instance_endpoint auth wires e
  | Endpoint_of h m => others h m
  end.

Definition api : handler :=
  ServeHTTP pick_accounts place_accounts tm auth api_endpoint notfound server_routes.

Lemma place_pick_accounts st : place_accounts (pick_accounts st) st = st.
Proof. by destruct st. Qed.

End requests.
End tenancy.

(** ** A concrete server *)

Section demo.
#[local] Existing Instances tagging_digest plain_jwt EventRecorder InsertionSort no_templates
  no_templates_laws segment_mux.

(** Bodies that name what they ask for; the others are malformed. *)
#[local] Instance literal_bodies : InstanceDecoder := {
  decode_create := λ b, (vm (Body_bytes b) "n1" (2 ^ 30), None);
  decode_power := λ b, (mkPowerRequest (Body_bytes b) false, Body_err b);
  decode_spec := λ b, (mkUpdateSpecRequest 1 1 1, Some (Errorf "unexpected EOF"));
  decode_rules := λ b, ([], Some (Errorf "unexpected EOF"));
  decode_network := λ b, (mkNetworkRequest "" "" "" "" "" "" 0, Some (Errorf "unexpected EOF"));
  decode_file := λ b, (mkWriteFileRequest (Body_bytes b) "" false, None);
  decode_name := λ b, (Body_bytes b, None);
  decode_snapshot := λ b, (mkSnapshotRequest (Body_bytes b) false, None)
}.
#[local] Instance no_metrics : MetricsCodec := λ _, mkInstanceMetrics S754_nan 0 0 0 0 0 0 0 zero_time.

(** The accounts of [Http], with one key that reads instances, and the cloud
    of [Compute], with one instance of the tenant [acme]. *)
Definition shop : ApiState Loopback BillingStore (list Event) () AuditStore :=
  mkApiState (fst with_key) (fst one_vm) ∅ (snd one_vm).

Definition no_others (handler method : string) : Handler (ApiState Loopback BillingStore (list Event) ()
    AuditStore) ApiData := λ r w, RespondError w r 404 "NOT_FOUND" "endpoint not found".
Definition shop_api : Handler (ApiState Loopback BillingStore (list Event) () AuditStore) ApiData :=
  api DynamicAuthorizer wired demo_tm no_others (no_others "" "").

Lemma shop_ok : instance_store_ok (fleet_at shop).
Proof.
  change (instance_store_ok (instances_of one_vm)). apply fo_instances.
  apply (fleet_step_ok DynamicAuthorizer wired (cloud accepted demo_store));
    [reflexivity| |apply cloud_ok].
  apply f_create; [apply named_ok|intros w' _; apply lookup_empty|reflexivity].
Qed.


#[local] Existing Instance customer_jwt.
Definition customer_status (method path who body : string) : Z :=
  status_of (answer (api DynamicAuthorizer wired demo_tm no_others
      (no_others "" "")
      (mkRequest method path [] [] [("Authorization", "Bearer " +:+ who)] "192.0.2.7:51000"
         (mkBody body None) "req-1" None) blank) (named "h") shop).

(** A tenant sees its instance and no other sees it; but only some of the
    endpoints say so: for files, backups and snapshots the refusal is reported
    as a failure of the server. *)
Example refusals_reported_as_failures :
  customer_status "GET" "/api/v1/instances/a0" "acme" "" = 200 ∧
  customer_status "GET" "/api/v1/instances/a0" "eve" "" = 403 ∧
  customer_status "GET" "/api/v1/instances/zz" "eve" "" = 404 ∧
  Forall (λ path, customer_status "GET" ("/api/v1/instances/a0/" +:+ path) "eve" "" = 500)
    ["files"; "backups"; "snapshots"].
Proof. split_and!; [vm_compute; reflexivity..|]. apply (bool_decide_unpack _). vm_compute. constructor. Qed.

(** So are requests that cannot be carried out: an unknown power action, and
    starting what runs. *)
Example client_errors_reported_as_failures :
  customer_status "POST" "/api/v1/instances/a0/power" "acme" "explode" = 500 ∧
  customer_status "POST" "/api/v1/instances/a0/power" "acme" "start" = 500 ∧
  customer_status "POST" "/api/v1/instances/a0/power" "acme" "restart" = 200 ∧
  customer_status "POST" "/api/v1/instances/" "acme" "x" = 400 ∧
  customer_status "POST" "/api/v1/instances/" "acme" "web-2" = 201.
Proof. by vm_compute. Qed.

(** The tenant cannot delete its own instance ([customers_cannot_delete]). *)
Example own_instance_undeletable :
  customer_status "DELETE" "/api/v1/instances/a0" "acme" "" = 403.
Proof. by vm_compute. Qed.
End demo.
