(* ===== verification/OperationsApi.v ===== *)
(** * The endpoints of operations

    [internal/transport/http]: [job_handler.go], [migration_handler.go],
    [backup_handler.go], [keyrotation_handler.go], [reconcile_handler.go] and
    [diagnostics_handler.go]. Each group reaches its service through a lens
    into the state of the server. The decoder of the bodies is the port
    [OperationsDecoder]; the runbooks, constant texts, are left out. *)

From S2P Require Import Prelude Identity AuditTrail Events Accounts Auth Http.
From S2P Require Node Commands Instances Objects.
From S2P Require Job JobEngine Migration Evacuation Backup Recovery Reconcile KeyRotation Diagnostics.

(** ** Bodies *)

Record JobRequest : Type := mkJobRequest {
  JobRequest_Type_ : string;
  JobRequest_ResourceType : string;
  JobRequest_ResourceID : string;
  JobRequest_Payload : string;
  JobRequest_MaxRetries : Z
}.
Record KeyRequest : Type := mkKeyRequest {
  KeyRequest_Type_ : string;
  KeyRequest_Description : string;
  KeyRequest_GracePeriodHours : Z
}.

(** What is in the request after [Decode], and the error. *)
Class OperationsDecoder := {
  decode_job : Body → JobRequest * option error;
  decode_migrate : Body → (string * string) * option error;
  decode_evacuate : Body → string * option error;
  decode_backup : Body → Backup.CreateBackupRequest * option error;
  decode_dry_run : Body → string * option error;
  decode_restore : Body → (string * bool) * option error;
  decode_key : Body → KeyRequest * option error;
  decode_reason : Body → string * option error;
  decode_reconcile : Body → (bool * string) * option error
}.

(** ** Answers *)

Inductive OpsData : Type :=
| JobData (j : Job.Job)
| JobsData (l : list Job.Job) (total limit offset : Z)
| MigrationData (m : Migration.Migration)
| MigrationsData (l : list Migration.Migration) (total limit offset : Z)
| EvacuationData (res : Evacuation.EvacuationResult)
| BackupData (b : Backup.Backup)
| BackupsData (l : list Backup.Backup) (total limit offset : Z)
| PlanData (p : Backup.RestorePlan)
| PlansData (l : list Backup.RestorePlan) (total limit offset : Z)
| KeyData (k : KeyRotation.KeyRecord)
| KeysData (l : list KeyRotation.KeyRecord) (total limit offset : Z)
| ReportData (r : Reconcile.Report)
| ReportsData (l : list Reconcile.Report) (total limit offset : Z)
| DiagnosticsData (r : Diagnostics.DiagnosticReport)
| FieldsData (l : list (string * any)).

Definition message (text : string) {X} : X → OpsData := λ _, FieldsData [("message", AnyStr text)].

(** The texts of the states; a text that names none matches no record. *)
Definition job_status (text : string) : option Job.Status :=
  if decide (text = "") then Some Job.StatusUnset
  else if decide (text = "pending") then Some Job.StatusPending
  else if decide (text = "running") then Some Job.StatusRunning
  else if decide (text = "retrying") then Some Job.StatusRetrying
  else if decide (text = "succeeded") then Some Job.StatusSucceeded
  else if decide (text = "failed") then Some Job.StatusFailed
  else if decide (text = "canceled") then Some Job.StatusCanceled else None.

Definition migration_status (text : string) : option (option Migration.MigrationStatus) :=
  if decide (text = "") then Some None
  else if decide (text = "pending") then Some (Some Migration.MigPending)
  else if decide (text = "validating") then Some (Some Migration.MigValidating)
  else if decide (text = "reserving") then Some (Some Migration.MigReserving)
  else if decide (text = "transferring") then Some (Some Migration.MigTransferring)
  else if decide (text = "verifying") then Some (Some Migration.MigVerifying)
  else if decide (text = "completed") then Some (Some Migration.MigCompleted)
  else if decide (text = "failed") then Some (Some Migration.MigFailed)
  else if decide (text = "canceled") then Some (Some Migration.MigCanceled)
  else if decide (text = "rolled_back") then Some (Some Migration.MigRolledBack) else None.

Definition backup_status (text : string) : option (option Backup.BackupStatus) :=
  if decide (text = "") then Some None
  else if decide (text = "pending") then Some (Some Backup.BackupPending)
  else if decide (text = "running") then Some (Some Backup.BackupRunning)
  else if decide (text = "verified") then Some (Some Backup.BackupVerified)
  else if decide (text = "failed") then Some (Some Backup.BackupFailed)
  else if decide (text = "expired") then Some (Some Backup.BackupExpired)
  else if decide (text = "deleted") then Some (Some Backup.BackupDeleted) else None.

(** The listing by a text that names no state: the window of no records. *)
Definition none_found {St X} (page : result (list X)) : go St (list X * Z) :=
  items ← lift page; mret (items, 0).

Definition required {S D} : ResponseWriter D → Request →
    (Subject → go S (ResponseWriter D)) → go S (ResponseWriter D) :=
  signed_in "UNAUTHORIZED" "Authentication required".
Definition superadmin_access {S D} : ResponseWriter D → Request →
    (Subject → go S (ResponseWriter D)) → go S (ResponseWriter D) :=
  superadmin_only "Superadmin access required".
Definition bad_request {S D} (text : string) (w : ResponseWriter D) (r : Request) :
    go S (ResponseWriter D) := RespondError w r 400 "BAD_REQUEST" text.
Definition internal : Z * string * option string := always 500 "INTERNAL_ERROR".
Definition absent : Z * string * option string := always 404 "NOT_FOUND".
Definition bad : Z * string * option string := always 400 "BAD_REQUEST".

(** ** Jobs *)

Section jobs.
Context {S J A E : Type} `{!JobEngine.JobRepository J, !AuditRepository A, !EventPublisher E,
  !OperationsDecoder}.
Context (at_jobs : Lens S (@JobEngine.EngineState J A E)).
Context (engine : @JobEngine.Engine J A E).
Abbreviation handler := (Handler S OpsData).

Definition list_jobs (sub : Subject) (tenant : string) : handler := λ r w,
  let limit := limit_or_50 r in
  let offset := query_int "offset" r in
  let list :=
    match job_status (Query_Get "status" r) with
    | Some status => on at_jobs (JobEngine.ListJobs (Some sub)
        (Job.mkJobFilter tenant (Query_Get "type" r) status "" "" limit offset))
    | None => none_found (window [] limit offset)
    end in
  reply list [] internal 200 (λ '(jobs, total), JobsData jobs total limit offset) w r.

Definition ListJobs_handler : handler := λ r w,
  required w r (λ sub, list_jobs sub "" r w).

Definition AdminListJobs_handler : handler := λ r w,
  superadmin_only "Administrative privilege required" w r (λ sub,
    list_jobs sub (Query_Get "tenantId" r) r w).

Definition GetJob_handler : handler := λ r w,
  required w r (λ sub,
    reply (on at_jobs (JobEngine.GetJob engine (Some sub) (URLParam r "id"))) [] absent 200 JobData w r).

Definition CancelJob_handler : handler := λ r w,
  required w r (λ sub,
    let reason := or_default "Canceled by user request" (Query_Get "reason" r) in
    reply (on at_jobs (JobEngine.CancelJob engine (Some sub) (URLParam r "id") reason)) [] bad
      200 (message "Job cancellation requested") w r).

Definition RetryJob_handler : handler := λ r w,
  required w r (λ sub,
    reply (on at_jobs (JobEngine.RetryJob engine (Some sub) (URLParam r "id"))) [] bad 200 JobData w r).

Definition SubmitJob_handler : handler := λ r w,
  required w r (λ sub,
    let '(req, err) := decode_job (Request_Body r) in
    if err is Some _ then bad_request "Invalid request body" w r
    else reply (on at_jobs (JobEngine.Submit engine (Some sub)
                  (Job.mkJob "" "" (JobRequest_Type_ req) (JobRequest_ResourceType req)
                     (JobRequest_ResourceID req) Job.StatusUnset (JobRequest_Payload req) "" "" 0
                     (JobRequest_MaxRetries req) None "" None zero_time None None 0)))
           [] bad 202 JobData w r).
End jobs.

(** ** Migrations and evacuations *)

Section migrations.
Context {S G E A : Type} `{!Commands.NodeGateway G, !EventPublisher E, !AuditRepository A, !SortSlice,
  !OperationsDecoder}.
Context (at_migrations : Lens S (Migration.MigrationEnv G E * A)).
(** What the migration and the evacuation service were built with. *)
Context (auth : option Authorizer) (has_events has_audit : bool).
Context (evacuation_auth : option Authorizer) (evacuation_events evacuation_audit : bool).
Abbreviation handler := (Handler S OpsData).

Definition ListMigrations_handler : handler := λ r w,
  superadmin_access w r (λ sub,
    let limit := limit_or_50 r in
    let offset := query_int "offset" r in
    let list :=
      match migration_status (Query_Get "status" r) with
      | Some status => on at_migrations (Migration.ListMigrations (Some sub)
          (Migration.mkMigrationFilter (Query_Get "tenantId" r) (Query_Get "instanceId" r)
             (Query_Get "sourceNodeId" r) (Query_Get "destNodeId" r) status limit offset))
      | None => none_found (window [] limit offset)
      end in
    reply list [] internal 200 (λ '(l, total), MigrationsData l total limit offset) w r).

Definition GetMigration_handler : handler := λ r w,
  superadmin_access w r (λ sub,
    reply (on at_migrations (Migration.GetMigration auth (Some sub) (URLParam r "id"))) [] absent
      200 MigrationData w r).

(** The goroutine the migration goes on in is [Migration]'s. *)
Definition MigrateInstance_handler : handler := λ r w,
  superadmin_access w r (λ sub,
    let '((dest, type), _) := decode_migrate (Request_Body r) in
    reply (on at_migrations (Migration.Migrate auth (Some sub)
             (Migration.mkMigrateRequest (URLParam r "id") dest type)))
      [] (always 400 "MIGRATION_FAILED") 202 (λ started, MigrationData (fst started)) w r).

Definition DrainNode_handler : handler := λ r w,
  superadmin_access w r (λ sub,
    reply (on at_migrations (Evacuation.DrainNode evacuation_auth evacuation_audit (Some sub)
             (URLParam r "id") true))
      [] bad 200 (message "Node drain mode enabled") w r).

Definition UndrainNode_handler : handler := λ r w,
  superadmin_access w r (λ sub,
    reply (on at_migrations (Evacuation.DrainNode evacuation_auth evacuation_audit (Some sub)
             (URLParam r "id") false))
      [] bad 200 (message "Node drain mode disabled (online)") w r).

Definition EvacuateNode_handler : handler := λ r w,
  superadmin_access w r (λ sub,
    let '(dest, _) := decode_evacuate (Request_Body r) in
    reply (on at_migrations (Evacuation.EvacuateNode evacuation_auth evacuation_events auth (Some sub)
             (URLParam r "id") dest))
      [] (always 400 "EVACUATION_FAILED") 202 (λ out, EvacuationData (fst out)) w r).
End migrations.

(** ** Backups and recovery *)

Section backups.
Context {S O E A : Type} `{!Objects.ObjectStorage O, !EventPublisher E, !AuditRepository A,
  !Recovery.ChainVerifier A, !SortSlice, !Digest, !Backup.TimeFormat, !Backup.BackupCodec,
  !OperationsDecoder}.
Context (at_recovery : Lens S (Backup.BackupEnv O E * Reconcile.ReconcileEnv * A)).
(** What the backup service and the coordinator were built with. *)
Context (auth : option Authorizer) (has_events has_audit : bool).
Context (coord_auth : option Authorizer) (coord_events has_reconciler has_verifier : bool).
Context (has_quotas has_jobs has_migrations reconcile_audit : bool).
Abbreviation handler := (Handler S OpsData).

Definition at_backups {X} (m : go (Backup.BackupEnv O E * A) X) : go S X :=
  on at_recovery (Recovery.on_backups m).

Definition list_backups (sub : Subject) (tenant resource : string)
    (status : option (option Backup.BackupStatus)) : handler := λ r w,
  let limit := limit_or_50 r in
  let offset := query_int "offset" r in
  let list :=
    match status with
    | Some st => at_backups (Backup.ListBackups (Some sub)
        (Backup.mkBackupFilter tenant resource "" "" st limit offset))
    | None => none_found (clipped [] limit offset)
    end in
  reply list [] internal 200 (λ '(l, total), BackupsData l total limit offset) w r.

Definition create_backup (sub : Subject) (req : Backup.CreateBackupRequest) : handler := λ r w,
  reply (at_backups (Backup.CreateBackup auth has_events has_audit (Some sub) req)) [] bad 201 BackupData w r.

Definition get_backup (sub : Subject) : handler := λ r w,
  reply (at_backups (Backup.GetBackup auth (Some sub) (URLParam r "id"))) [] absent 200 BackupData w r.

Definition ListCustomerBackups_handler : handler := λ r w,
  required w r (λ sub, list_backups sub (Subject_UserID sub) "" (Some None) r w).

Definition CreateCustomerBackup_handler : handler := λ r w,
  required w r (λ sub,
    let '(req, err) := decode_backup (Request_Body r) in
    if err is Some _ then bad_request "Invalid request body" w r
    else create_backup sub (Backup.mkCreateBackupRequest (Subject_UserID sub)
           (Backup.CreateBackupRequest_ResourceType req) (Backup.CreateBackupRequest_ResourceID req)
           (Backup.CreateBackupRequest_Type_ req) (Backup.CreateBackupRequest_Metadata req)) r w).

Definition GetCustomerBackup_handler : handler := λ r w, required w r (λ sub, get_backup sub r w).

(** The artifact is sent as it is stored. *)
Definition DownloadCustomerBackup_handler : handler := λ r w,
  required w r (λ sub,
    res ← try_err (at_backups (Backup.DownloadBackup auth (Some sub) (URLParam r "id")));
    match res with
    | Err err => RespondError w r 404 "NOT_FOUND" (Error err)
    | Ok (data, record) =>
        let w := Header_Set "Content-Type" "application/octet-stream" w in
        let w := Header_Set "Content-Disposition"
                   ("attachment; filename=" +:+ Backup.Backup_ID record +:+ ".enc") w in
        let w := Header_Set "X-Checksum-SHA256" (Backup.Backup_ChecksumSHA256 record) w in
        mret (Write (PayloadText data) (WriteHeader 200 w))
    end).

Definition RestoreCustomerBackup_handler : handler := λ r w,
  required w r (λ sub,
    let id := URLParam r "id" in
    reply (at_backups (Backup.VerifyBackup auth has_events (Some sub) id)) [] bad 200
      (λ _, FieldsData [("message", AnyStr "Workload restore initiated successfully from backup");
                        ("backupId", AnyStr id); ("status", AnyStr "restoring")]) w r).

Definition AdminListBackups_handler : handler := λ r w,
  superadmin_access w r (λ sub,
    list_backups sub (Query_Get "tenantId" r) (Query_Get "resourceType" r)
      (backup_status (Query_Get "status" r)) r w).

Definition AdminCreateBackup_handler : handler := λ r w,
  superadmin_access w r (λ sub,
    let '(req, err) := decode_backup (Request_Body r) in
    if err is Some _ then bad_request "Invalid request body" w r else create_backup sub req r w).

Definition AdminGetBackup_handler : handler := λ r w,
  superadmin_access w r (λ sub, get_backup sub r w).

(** [backup, _ := h.backupService.GetBackup(...)]: without a record the data is
    the null pointer. *)
Definition AdminVerifyBackup_handler : handler := λ r w,
  superadmin_access w r (λ sub,
    let id := URLParam r "id" in
    reply (at_backups (Backup.VerifyBackup auth has_events (Some sub) id) ;;
           try_err (at_backups (Backup.GetBackup auth (Some sub) id)))
      [] (always 400 "VERIFICATION_FAILED") 200
      (λ b, match b with Ok b => BackupData b | Err _ => FieldsData [] end) w r).

Definition AdminDeleteBackup_handler : handler := λ r w,
  superadmin_access w r (λ sub,
    reply (at_backups (Backup.DeleteBackup auth has_audit (Some sub) (URLParam r "id"))) [] bad 200
      (message "Backup successfully removed") w r).

Definition DisasterRecoveryDryRun_handler : handler := λ r w,
  superadmin_access w r (λ sub,
    let '(id, err) := decode_dry_run (Request_Body r) in
    if decide (is_Some err ∨ id = "") then bad_request "backupId is required" w r
    else reply (on at_recovery (Recovery.DryRunRecovery coord_auth has_reconciler auth
                  has_events has_quotas has_jobs has_migrations reconcile_audit (Some sub) id))
           [] (always 400 "DRY_RUN_FAILED") 200 PlanData w r).

Definition DisasterRecoveryRestore_handler : handler := λ r w,
  superadmin_access w r (λ sub,
    let '((id, confirmed), err) := decode_restore (Request_Body r) in
    if decide (is_Some err ∨ id = "") then bad_request "backupId is required" w r
    else if negb confirmed then
      RespondError w r 400 "CONFIRMATION_REQUIRED" "explicit confirmation required (confirmedDr=true) to execute destructive disaster recovery"
    else reply (on at_recovery (Recovery.ExecuteRestore coord_auth coord_events has_reconciler has_verifier auth
                  has_events has_quotas has_jobs has_migrations reconcile_audit (Some sub) id))
           [] (always 500 "RESTORE_FAILED") 200 PlanData w r).

Definition AdminListRestorePlans_handler : handler := λ r w,
  superadmin_access w r (λ sub,
    let limit := query_int "limit" r in
    let offset := query_int "offset" r in
    reply (on at_recovery (Recovery.recovery_ListRestorePlans coord_auth (Some sub) limit offset)) []
      internal 200 (λ '(l, total), PlansData l total limit offset) w r).

Definition AdminGetRestorePlan_handler : handler := λ r w,
  superadmin_access w r (λ sub,
    reply (on at_recovery (Recovery.recovery_GetRestorePlan coord_auth (Some sub) (URLParam r "id")))
      [] absent 200 PlanData w r).
End backups.

(** ** Keys *)

Section keys.
Context {S E A : Type} `{!EventPublisher E, !AuditRepository A, !SortSlice,
  !KeyRotation.DurationString, !OperationsDecoder}.
Context (at_keys : Lens S (KeyRotation.KeyEnv E * A)).
Context (auth : option Authorizer) (has_events has_audit : bool).
Abbreviation handler := (Handler S OpsData).

Definition superadmin_privilege : ResponseWriter OpsData → Request →
    (Subject → go S (ResponseWriter OpsData)) → go S (ResponseWriter OpsData) :=
  superadmin_only "Superadmin privilege required".

Definition ListRotations_handler : handler := λ r w,
  superadmin_privilege w r (λ sub,
    let limit := query_int "limit" r in
    let offset := query_int "offset" r in
    reply (on at_keys (KeyRotation.ListKeyRotations auth (Some sub) (Query_Get "type" r) limit offset)) []
      internal 200 (λ '(l, total), KeysData l total limit offset) w r).

Definition RotateKey_handler : handler := λ r w,
  superadmin_privilege w r (λ sub,
    let '(req, err) := decode_key (Request_Body r) in
    if decide (is_Some err ∨ KeyRequest_Type_ req = "") then bad_request "type is required" w r
    else
      let graceDuration := if decide (0 < KeyRequest_GracePeriodHours req)
                           then mul64 (KeyRequest_GracePeriodHours req) Hour else 24 * Hour in
      reply (on at_keys (KeyRotation.RotateKey auth has_events has_audit (Some sub)
               (KeyRotation.mkRotateKeyRequest (KeyRequest_Type_ req) (KeyRequest_Description req)
                  graceDuration)))
        [] (always 400 "ROTATION_FAILED") 200 KeyData w r).

Definition RevokeKey_handler : handler := λ r w,
  superadmin_privilege w r (λ sub,
    let '(reason, _) := decode_reason (Request_Body r) in
    reply (on at_keys (KeyRotation.RevokeKey auth has_events has_audit (Some sub) (URLParam r "id") reason))
      [] (always 400 "REVOCATION_FAILED") 200 KeyData w r).
End keys.

(** ** Reconciliation and diagnostics *)

Section checks.
Context {S A : Type} `{!AuditRepository A, !SortSlice, !Digest, !Backup.TimeFormat, !OperationsDecoder}.
Context (at_records : Lens S (Reconcile.ReconcileEnv * A)).
Context (at_diagnostics : Lens S Diagnostics.DiagnosticsEnv).
Context (has_quotas has_jobs has_migrations has_audit has_authorizer : bool).
Abbreviation handler := (Handler S OpsData).

Definition superadmin_privileged : ResponseWriter OpsData → Request →
    (Subject → go S (ResponseWriter OpsData)) → go S (ResponseWriter OpsData) :=
  superadmin_only "Superadmin privilege required".

Definition TriggerReconciliation_handler : handler := λ r w,
  superadmin_privileged w r (λ _,
    let '((dryRun, trigger), _) := decode_reconcile (Request_Body r) in
    reply (on at_records (Reconcile.Reconcile has_quotas has_jobs has_migrations has_audit dryRun
             (or_default "manual_admin" trigger)))
      [] (always 500 "RECONCILIATION_FAILED") 200 ReportData w r).

Definition ListReports_handler : handler := λ r w,
  superadmin_privileged w r (λ _,
    let limit := query_int "limit" r in
    let offset := query_int "offset" r in
    reply (on at_records (Reconcile.ListReports limit offset)) [] internal 200
      (λ '(l, total), ReportsData l total limit offset) w r).

Definition GetLatestReport_handler : handler := λ r w,
  superadmin_privileged w r (λ _,
    res ← try_err (on at_records Reconcile.GetLatestReport);
    match res with
    | Err err => RespondError w r 500 "INTERNAL_ERROR" (Error err)
    | Ok None => RespondError w r 404 "NOT_FOUND" "No reconciliation reports recorded yet"
    | Ok (Some report) => RespondJSON w r 200 (ReportData report)
    end).

Definition GetDiagnostics_handler : handler := λ r w,
  superadmin_access w r (λ sub,
    reply (on at_diagnostics (Diagnostics.GetDiagnostics has_authorizer (Some sub))) []
      (always 500 "DIAGNOSTICS_FAILED") 200 DiagnosticsData w r).
End checks.

(** ** One state for all of them

    The repositories of the server and what its services share, as [main]
    wires them. *)
Record OperationsState (G O E : Type) := mkOperationsState {
  os_accounts : AccountStore;
  os_jobs : Job.MemoryJobStore;
  os_migrations : Migration.MigrationStore;
  os_instances : Instances.MemoryInstanceStore;
  os_nodes : G;
  os_billing : Quota.BillingStore;
  os_backups : Backup.BackupStore;
  os_objects : O;
  os_reports : Reconcile.ReportStore;
  os_keys : KeyRotation.KeyStore;
  os_events : E;
  os_audit : AuditStore
}.
Arguments mkOperationsState {G O E} _ _ _ _ _ _ _ _ _ _ _ _.
Arguments os_accounts {G O E} _.
Arguments os_jobs {G O E} _.
Arguments os_migrations {G O E} _.
Arguments os_instances {G O E} _.
Arguments os_nodes {G O E} _.
Arguments os_billing {G O E} _.
Arguments os_backups {G O E} _.
Arguments os_objects {G O E} _.
Arguments os_reports {G O E} _.
Arguments os_keys {G O E} _.
Arguments os_events {G O E} _.
Arguments os_audit {G O E} _.

Section lenses.
Context {G O E : Type} `{!Commands.NodeGateway G}.
Context (put_nodes : ∀ g : G, Commands.gateway_put (Commands.gateway_nodes g) g = g).
Abbreviation state := (OperationsState G O E).

#[program] Definition accounts_lens : Lens state (AccountStore * AuditStore) := {|
  lens_pick := λ s, (os_accounts s, os_audit s);
  lens_place := λ x s, mkOperationsState x.1 (os_jobs s) (os_migrations s) (os_instances s) (os_nodes s)
    (os_billing s) (os_backups s) (os_objects s) (os_reports s) (os_keys s) (os_events s) x.2
|}.
Next Obligation. by intros []. Qed.

#[program] Definition jobs_lens :
    Lens state (JobEngine.EngineState Job.MemoryJobStore AuditStore E) := {|
  lens_pick := λ s, JobEngine.mkEngineState (os_jobs s) (os_audit s) (os_events s);
  lens_place := λ x s, mkOperationsState (os_accounts s) (JobEngine.es_jobs x) (os_migrations s)
    (os_instances s) (os_nodes s) (os_billing s) (os_backups s) (os_objects s) (os_reports s) (os_keys s)
    (JobEngine.es_events x) (JobEngine.es_audit x)
|}.
Next Obligation. by intros []. Qed.

#[program] Definition migrations_lens : Lens state (Migration.MigrationEnv G E * AuditStore) := {|
  lens_pick := λ s, (Migration.mkMigrationEnv (os_migrations s) (os_instances s) (os_nodes s)
    (os_events s), os_audit s);
  lens_place := λ x s, mkOperationsState (os_accounts s) (os_jobs s) (Migration.me_migrations x.1)
    (Migration.me_instances x.1) (Migration.me_nodes x.1) (os_billing s) (os_backups s) (os_objects s)
    (os_reports s) (os_keys s) (Migration.me_events x.1) x.2
|}.
Next Obligation. by intros []. Qed.

#[program] Definition records_lens : Lens state (Reconcile.ReconcileEnv * AuditStore) := {|
  lens_pick := λ s, (Reconcile.mkReconcileEnv (os_reports s) (os_instances s)
    (Commands.gateway_nodes (os_nodes s)) (os_jobs s) (os_migrations s) (os_billing s), os_audit s);
  lens_place := λ x s, mkOperationsState (os_accounts s) (Reconcile.ReconcileEnv_jobs x.1)
    (Reconcile.ReconcileEnv_migrations x.1) (Reconcile.ReconcileEnv_instances x.1)
    (Commands.gateway_put (Reconcile.ReconcileEnv_nodes x.1) (os_nodes s))
    (Reconcile.ReconcileEnv_billing x.1) (os_backups s) (os_objects s)
    (Reconcile.ReconcileEnv_reports x.1) (os_keys s) (os_events s) x.2
|}.
Next Obligation. intros [???? g]. cbn. by rewrite put_nodes. Qed.

#[program] Definition recovery_lens :
    Lens state (Backup.BackupEnv O E * Reconcile.ReconcileEnv * AuditStore) := {|
  lens_pick := λ s, ((Backup.mkBackupEnv (os_backups s) (os_objects s) (os_events s),
    (lens_pick records_lens s).1), os_audit s);
  lens_place := λ x s, let s := lens_place records_lens (x.1.2, x.2) s in
    mkOperationsState (os_accounts s) (os_jobs s) (os_migrations s) (os_instances s) (os_nodes s)
      (os_billing s) (Backup.be_repo x.1.1) (Backup.be_objects x.1.1) (os_reports s) (os_keys s)
      (Backup.be_events x.1.1) (os_audit s)
|}.
Next Obligation. intros [???? g]. cbn. by rewrite put_nodes. Qed.

#[program] Definition keys_lens : Lens state (KeyRotation.KeyEnv E * AuditStore) := {|
  lens_pick := λ s, (KeyRotation.mkKeyEnv (os_keys s) (os_events s), os_audit s);
  lens_place := λ x s, mkOperationsState (os_accounts s) (os_jobs s) (os_migrations s) (os_instances s)
    (os_nodes s) (os_billing s) (os_backups s) (os_objects s) (os_reports s)
    (KeyRotation.ke_repo x.1) (KeyRotation.ke_events x.1) x.2
|}.
Next Obligation. by intros []. Qed.

(** All repositories are there; a missing one after a call would be a bug of
    the model and stays as it was. *)
#[program] Definition diagnostics_lens : Lens state Diagnostics.DiagnosticsEnv := {|
  lens_pick := λ s, Diagnostics.mkDiagnosticsEnv (Some (Commands.gateway_nodes (os_nodes s)))
    (Some (os_instances s)) (Some (os_jobs s)) (Some (os_backups s)) (Some (os_audit s));
  lens_place := λ x s, mkOperationsState (os_accounts s)
    (default (os_jobs s) (Diagnostics.DiagnosticsEnv_jobRepo x)) (os_migrations s)
    (default (os_instances s) (Diagnostics.DiagnosticsEnv_instRepo x))
    (from_option (λ n, Commands.gateway_put n (os_nodes s)) (os_nodes s)
       (Diagnostics.DiagnosticsEnv_nodeRepo x)) (os_billing s)
    (default (os_backups s) (Diagnostics.DiagnosticsEnv_backupRepo x)) (os_objects s) (os_reports s)
    (os_keys s) (os_events s) (default (os_audit s) (Diagnostics.DiagnosticsEnv_auditRepo x))
|}.
Next Obligation. intros [???? g]. cbn. by rewrite put_nodes. Qed.
End lenses.

(** ** The endpoints of the server *)

Section operations.
Context {G O E : Type} `{!Commands.NodeGateway G, !Objects.ObjectStorage O, !EventPublisher E, !Digest,
  !Recovery.ChainVerifier AuditStore, !SortSlice, !Backup.TimeFormat, !Backup.BackupCodec,
  !KeyRotation.DurationString, !OperationsDecoder}.
#[local] Existing Instances MemoryAuditRepo JobEngine.MemoryJobRepo.
Context (put_nodes : ∀ g : G, Commands.gateway_put (Commands.gateway_nodes g) g = g).
Context (auth : Authorizer) (engine : JobEngine.Engine Job.MemoryJobStore AuditStore E).
Abbreviation state := (OperationsState G O E).
Abbreviation handler := (Handler state OpsData).

Definition named_endpoint (h m : string) (f : handler) : Endpoint * handler := (Endpoint_of h m, f).

(** The services are built with the authorizer, the event bus, the trail and
    each other. *)
Definition customer_operations : list (Endpoint * handler) :=
  let at_recovery := recovery_lens put_nodes in
  [ named_endpoint "JobHandler" "ListJobs" (ListJobs_handler jobs_lens);
    named_endpoint "JobHandler" "SubmitJob" (SubmitJob_handler jobs_lens engine);
    named_endpoint "JobHandler" "GetJob" (GetJob_handler jobs_lens engine);
    named_endpoint "JobHandler" "CancelJob" (CancelJob_handler jobs_lens engine);
    named_endpoint "JobHandler" "RetryJob" (RetryJob_handler jobs_lens engine);
    named_endpoint "BackupHandler" "ListCustomerBackups" (ListCustomerBackups_handler at_recovery);
    named_endpoint "BackupHandler" "CreateCustomerBackup"
      (CreateCustomerBackup_handler at_recovery (Some auth) true true);
    named_endpoint "BackupHandler" "GetCustomerBackup" (GetCustomerBackup_handler at_recovery (Some auth));
    named_endpoint "BackupHandler" "DownloadCustomerBackup"
      (DownloadCustomerBackup_handler at_recovery (Some auth));
    named_endpoint "BackupHandler" "RestoreCustomerBackup"
      (RestoreCustomerBackup_handler at_recovery (Some auth) true) ].

Definition admin_operations : list (Endpoint * handler) :=
  let at_recovery := recovery_lens put_nodes in
  let at_records := records_lens put_nodes in
  [ named_endpoint "JobHandler" "AdminListJobs" (AdminListJobs_handler jobs_lens);
    named_endpoint "MigrationHandler" "ListMigrations" (ListMigrations_handler migrations_lens);
    named_endpoint "MigrationHandler" "GetMigration" (GetMigration_handler migrations_lens (Some auth));
    named_endpoint "MigrationHandler" "MigrateInstance"
      (MigrateInstance_handler migrations_lens (Some auth));
    named_endpoint "MigrationHandler" "DrainNode" (DrainNode_handler migrations_lens (Some auth) true);
    named_endpoint "MigrationHandler" "UndrainNode" (UndrainNode_handler migrations_lens (Some auth) true);
    named_endpoint "MigrationHandler" "EvacuateNode"
      (EvacuateNode_handler migrations_lens (Some auth) (Some auth) true);
    named_endpoint "BackupHandler" "AdminListBackups" (AdminListBackups_handler at_recovery);
    named_endpoint "BackupHandler" "AdminCreateBackup"
      (AdminCreateBackup_handler at_recovery (Some auth) true true);
    named_endpoint "BackupHandler" "AdminGetBackup" (AdminGetBackup_handler at_recovery (Some auth));
    named_endpoint "BackupHandler" "AdminVerifyBackup"
      (AdminVerifyBackup_handler at_recovery (Some auth) true);
    named_endpoint "BackupHandler" "AdminDeleteBackup"
      (AdminDeleteBackup_handler at_recovery (Some auth) true);
    named_endpoint "BackupHandler" "DisasterRecoveryDryRun"
      (DisasterRecoveryDryRun_handler at_recovery (Some auth) true (Some auth) true true true true true);
    named_endpoint "BackupHandler" "DisasterRecoveryRestore"
      (DisasterRecoveryRestore_handler at_recovery (Some auth) true (Some auth) true true true true true
         true true);
    named_endpoint "BackupHandler" "AdminListRestorePlans"
      (AdminListRestorePlans_handler at_recovery (Some auth));
    named_endpoint "BackupHandler" "AdminGetRestorePlan"
      (AdminGetRestorePlan_handler at_recovery (Some auth));
    named_endpoint "ReconcileHandler" "TriggerReconciliation"
      (TriggerReconciliation_handler at_records true true true true);
    named_endpoint "ReconcileHandler" "ListReports" (ListReports_handler at_records);
    named_endpoint "ReconcileHandler" "GetLatestReport" (GetLatestReport_handler at_records);
    named_endpoint "KeyRotationHandler" "ListRotations" (ListRotations_handler keys_lens (Some auth));
    named_endpoint "KeyRotationHandler" "RotateKey" (RotateKey_handler keys_lens (Some auth) true true);
    named_endpoint "KeyRotationHandler" "RevokeKey" (RevokeKey_handler keys_lens (Some auth) true true);
    named_endpoint "DiagnosticsHandler" "GetDiagnostics"
      (GetDiagnostics_handler (diagnostics_lens put_nodes) true) ].

Fixpoint find_endpoint (l : list (Endpoint * handler)) (e : Endpoint) : option handler :=
  match l with
  | [] => None
  | (e', f) :: l => if decide (e' = e) then Some f else find_endpoint l e
  end.

Context `{!JWTLibrary, !Mux} (tm : TokenManager) (others : Endpoint → handler) (notfound : handler).

Definition operation (e : Endpoint) : handler :=
  default (others e) (find_endpoint (customer_operations ++ admin_operations) e).

Definition operations_api : handler :=
  ServeHTTP (lens_pick accounts_lens) (lens_place accounts_lens) tm auth operation notfound server_routes.

(** ** Who operates the platform *)

Definition not_superadmin (r : Request) : Prop :=
  ∀ s, GetSubject r = Some s → IsSuperadmin s = false.

Lemma superadmin_only_denied text (w : ResponseWriter OpsData) r
    (k : Subject → go state (ResponseWriter OpsData)) :
  not_superadmin r → superadmin_only text w r k = RespondError w r 403 "FORBIDDEN" text.
Proof.
  intros Hr. unfold superadmin_only. destruct (GetSubject r) as [s|] eqn:Hs; [|done].
  by rewrite (Hr s Hs).
Qed.

(** Every operation of the administration looks at its caller first. *)
Definition superadmins_only (f : handler) : Prop :=
  ∀ r w, not_superadmin r → ∃ text, f r w = RespondError w r 403 "FORBIDDEN" text.

Lemma admin_operations_guarded : Forall (λ p, superadmins_only p.2) admin_operations.
Proof.
  repeat constructor; intros r w Hr; eexists; by apply superadmin_only_denied.
Qed.

Lemma find_admin e f : find_endpoint admin_operations e = Some f → superadmins_only f.
Proof.
  generalize admin_operations_guarded. induction admin_operations as [|[e' g] l IH]; [done|].
  intros [Hg Hl]%Forall_cons. cbn. case_decide; [by intros [= <-]|by apply IH].
Qed.

Lemma find_endpoint_app l1 l2 e :
  find_endpoint l1 e = None → find_endpoint (l1 ++ l2) e = find_endpoint l2 e.
Proof. induction l1 as [|[e' g] l1 IH]; [done|]. cbn. by case_decide. Qed.

Lemma operation_admin e : e ∈ admin_operations.*1 → superadmins_only (operation e).
Proof.
  intros Hin. unfold operation.
  assert (find_endpoint customer_operations e = None) as Hc.
  { assert (Forall (λ e, find_endpoint customer_operations e = None) admin_operations.*1) as Hnone
      by (repeat constructor).
    rewrite Forall_forall in Hnone. by apply Hnone. }
  assert (Forall (λ e, is_Some (find_endpoint admin_operations e)) admin_operations.*1) as Hall
    by (repeat constructor; by eexists).
  rewrite find_endpoint_app by done. rewrite Forall_forall in Hall.
  destruct (Hall _ Hin) as [f Hf]. rewrite Hf. by eapply find_admin.
Qed.

End operations.

(** ** A concrete platform *)

Section demo.
#[local] Existing Instances tagging_digest plain_jwt EventRecorder InsertionSort segment_mux MemoryAuditRepo
  Objects.memory_storage Commands.loopback_gateway Backup.demo_codec Backup.demo_clock
  KeyRotation.demo_duration JobEngine.MemoryJobRepo Recovery.MemoryChainVerifier.

(** Bodies whose text is the first field of the request. *)
#[local] Instance plain_bodies : OperationsDecoder := {
  decode_job := λ b, (mkJobRequest (Body_bytes b) "node" "n1" "" 0, None);
  decode_migrate := λ b, ((Body_bytes b, "cold"), None);
  decode_evacuate := λ b, (Body_bytes b, None);
  decode_backup := λ b, (Backup.mkCreateBackupRequest (Body_bytes b) "" "" "" None, None);
  decode_dry_run := λ b, (Body_bytes b, None);
  decode_restore := λ b, ((Body_bytes b, true), None);
  decode_key := λ b, (mkKeyRequest (Body_bytes b) "" 0, None);
  decode_reason := λ b, (Body_bytes b, None);
  decode_reconcile := λ b, ((false, Body_bytes b), None)
}.

Abbreviation platform_state := (OperationsState Commands.Loopback Objects.MemoryObjectStorage (list Event)).
Definition quiet_nodes : Commands.Loopback :=
  Commands.mkLoopback Node.NewMemoryNodeStore (Err (Errorf "no answer")) [].
Definition platform : platform_state :=
  mkOperationsState (fst with_key) Job.NewMemoryJobStore ∅ Instances.NewMemoryInstanceStore quiet_nodes
    Quota.empty_billing (Backup.NewMemoryBackupRepo 0) Objects.NewMemoryObjectStorage ∅ ∅ [] (snd with_key).
Lemma put_loopback (g : Commands.Loopback) :
  Commands.gateway_put (Commands.gateway_nodes g) g = g.
Proof. by destruct g. Qed.

Definition platform_engine : JobEngine.Engine Job.MemoryJobStore AuditStore (list Event) :=
  JobEngine.mkEngine (Some DynamicAuthorizer) true true true "worker-1" 30 ∅.
Definition nothing_else (e : Endpoint) : Handler platform_state OpsData := λ r w,
  RespondError w r 404 "NOT_FOUND" "endpoint not found".


(** Requests of a tenant with the role of a customer. *)
#[local] Existing Instance customer_jwt.
Definition ask_as (who method path : string) (query : list (string * string)) (body : string) :
    go platform_state (ResponseWriter OpsData) :=
  operations_api put_loopback DynamicAuthorizer platform_engine demo_tm nothing_else
    (nothing_else (Endpoint_of "" ""))
    (mkRequest method path [] query [("Authorization", "Bearer " +:+ who)] "192.0.2.7:51000"
       (mkBody body None) "req-1" None) blank.

(** [offset] goes to the repository as it came: a negative one makes it slice
    out of bounds, and so does a limit that overflows the end of the page. *)
Example negative_offset_panics :
  (∃ e, answer (ask_as "acme" "GET" "/api/v1/jobs/" [("offset", "-1")] "") (named "h") platform = Err e ∧
     panicked e = true) ∧
  (∃ e, answer (ask_as "acme" "GET" "/api/v1/backups/" [("offset", "-1")] "") (named "h") platform = Err e ∧
     panicked e = true).
Proof. split; eexists; (split; [vm_compute; reflexivity|reflexivity]). Qed.

(** Submitting asks for no permission: a customer, whose role knows nothing of
    jobs, submits the evacuation of a node, and may not look at its own job
    afterwards, which is reported as missing. *)
Definition after_submission : platform_state :=
  exec (ask_as "acme" "POST" "/api/v1/jobs/" [] "node.evacuate") (named "j") platform.
Example anyone_submits_jobs :
  status_of (answer (ask_as "acme" "POST" "/api/v1/jobs/" [] "node.evacuate") (named "j") platform) = 202 ∧
  (λ j, (Job.Job_TenantID j, Job.Job_Type_ j)) <$> Job.MemoryJobStore_jobs (os_jobs after_submission)
    = {["j0" := ("acme", "node.evacuate")]} ∧
  status_of (answer (ask_as "acme" "GET" "/api/v1/jobs/j0" [] "") (named "k") after_submission) = 404.
Proof. split_and!; vm_compute; reflexivity. Qed.

(** The restore of a tenant is a check of the artifact: the reply says that the
    workload is being restored, and no instance changes. *)
Definition with_backup : platform_state :=
  exec (ask_as "acme" "POST" "/api/v1/backups/" [] "") (named "b") platform.
Definition restore_reply := ask_as "acme" "POST" "/api/v1/backups/b0/restore" [] "".
Example restore_restores_nothing :
  status_of (answer restore_reply (named "r") with_backup) = 200 ∧
  os_instances (exec restore_reply (named "r") with_backup) = os_instances with_backup ∧
  os_objects (exec restore_reply (named "r") with_backup) = os_objects with_backup.
Proof. split_and!; vm_compute; reflexivity. Qed.
End demo.
