(* ===== verification/AccessApi.v ===== *)
(** * The endpoints of sign-in, account and API keys

    [internal/transport/http]: [auth_handler.go], [account_handler.go] and
    [apikey_handler.go] over the services of [Auth]. The decoder of the bodies
    is the port [AccessDecoder]; the random text of a new secret is read from
    [random]. *)

From Stdlib Require Import Ascii.
From S2P Require Import Prelude Identity AuditTrail Accounts Auth Http.

(** ** Bodies and answers *)

(** What is in the request after [Decode], and the error. *)
Class AccessDecoder := {
  decode_register : Body → RegisterRequest * option error;
  decode_login : Body → LoginRequest * option error;
  decode_totp : Body → (string * string) * option error;
  decode_refresh : Body → string * option error;
  decode_enable : Body → (string * string) * option error;
  decode_disable : Body → (string * string) * option error;
  decode_api_key : Body → CreateAPIKeyRequest * option error
}.

Inductive AccessData : Type :=
| UserData (id username email : string) (createdAt : Z)
| LoginData (res : LoginResult)
| TokensData (pair : TokenPair)
| SubjectData (s : Subject)
| EnrollmentData (secret qrCodeURL : string)
| NewKeyData (key : APIKey) (plaintext : string)
| KeysData (l : list APIKey)
| MessageData (text : string).

Section handlers.
Context {S A : Type} `{!AuditRepository A, !JWTLibrary, !Digest, !PasswordHasher, !SecretProtector,
  !TOTPManager, !AccessDecoder}.
Context (at_accounts : Lens S (AccountStore * A)) (tm : TokenManager).
Context (random : World → result string).
Abbreviation handler := (Handler S AccessData).

Definition with_random {X} (m : result string → go (AccountStore * A) X) : go S X :=
  bytes ← reading random; on at_accounts (m bytes).

Definition malformed_json (w : ResponseWriter AccessData) (r : Request) :
    go S (ResponseWriter AccessData) :=
  RespondError w r 400 "INVALID_REQUEST_PAYLOAD" "Malformed JSON payload".
Definition UserAgent (r : Request) : string := Header_Get "User-Agent" r.

(** ** Sign-in *)

Definition Register_handler : handler := λ r w,
  let '(req, err) := decode_register (Request_Body r) in
  if err is Some _ then malformed_json w r
  else
    let req := mkRegisterRequest (RegisterRequest_Username req) (RegisterRequest_Email req)
                 (RegisterRequest_Password req) (Request_RemoteAddr r) (UserAgent r) in
    reply_exact (on at_accounts (Register req))
      [([ErrUsernameExists], 409, "AUTH_USERNAME_EXISTS", Some "Username is already taken");
       ([ErrEmailExists], 409, "AUTH_EMAIL_EXISTS", Some "Email address is already registered")]
      (always 400 "REGISTRATION_FAILED") 201
      (λ user, UserData (User_ID user) (User_Username user) (User_Email user) (User_CreatedAt user)) w r.

Definition Login_handler : handler := λ r w,
  let '(req, err) := decode_login (Request_Body r) in
  if err is Some _ then malformed_json w r
  else
    let req := mkLoginRequest (LoginRequest_UsernameOrEmail req) (LoginRequest_Password req)
                 (Request_RemoteAddr r) (UserAgent r) in
    reply_exact (with_random (λ bytes, Login tm bytes req))
      [([ErrInvalidCredentials], 401, "AUTH_INVALID_CREDENTIALS",
        Some "Invalid username, email or password");
       ([ErrAccountDisabled], 403, "AUTH_ACCOUNT_DISABLED", Some "Your account has been suspended")]
      (500, "LOGIN_FAILED", Some "Authentication failed") 200 LoginData w r.

Definition VerifyTOTP_handler : handler := λ r w,
  let '((challenge, code), err) := decode_totp (Request_Body r) in
  if err is Some _ then malformed_json w r
  else reply_exact (with_random (λ bytes, VerifyTOTP tm bytes challenge code (Request_RemoteAddr r) (UserAgent r)))
         [([ErrTOTPInvalid], 401, "AUTH_TOTP_INVALID", Some "Invalid or expired 2FA code");
          ([ErrTokenInvalid], 401, "AUTH_CHALLENGE_EXPIRED", Some "2FA challenge session has expired")]
         (always 400 "VERIFY_FAILED") 200 LoginData w r.

Definition Refresh_handler : handler := λ r w,
  let '(token, err) := decode_refresh (Request_Body r) in
  if err is Some _ then malformed_json w r
  else reply_exact (with_random (λ bytes, RefreshSession tm bytes token (Request_RemoteAddr r) (UserAgent r)))
         [([ErrRefreshTokenReused], 401, "AUTH_REFRESH_TOKEN_REUSED",
           Some "Refresh token reuse detected. All sessions revoked for security.")]
         (401, "AUTH_REFRESH_TOKEN_INVALID", Some "Invalid or expired refresh token") 200 TokensData w r.

(** Neither a malformed body nor a failure is reported. *)
Definition Logout_handler : handler := λ r w,
  let '(token, _) := decode_refresh (Request_Body r) in
  (if decide (token ≠ "") then _ ← try_err (on at_accounts (Logout token)); mret () else mret ()) ;;
  RespondJSON w r 200 (MessageData "Logged out successfully").

Definition GetMe_handler : handler := λ r w,
  signed_in "AUTH_UNAUTHORIZED" "Not authenticated" w r (λ subject,
    RespondJSON w r 200 (SubjectData subject)).

(** ** The second factor *)

Definition authenticated : ResponseWriter AccessData → Request →
    (Subject → go S (ResponseWriter AccessData)) → go S (ResponseWriter AccessData) :=
  signed_in "AUTH_UNAUTHORIZED" "Authentication required".

Definition Setup2FA_handler : handler := λ r w,
  authenticated w r (λ subject,
    reply_exact (on at_accounts (Setup2FA (Subject_UserID subject)))
      [([ErrTOTPAlreadyEnabled], 409, "AUTH_TOTP_ALREADY_ENABLED",
        Some "Two-factor authentication is already enabled")]
      (always 400 "SETUP_2FA_FAILED") 200 (λ '(secret, url), EnrollmentData secret url) w r).

Definition Enable2FA_handler : handler := λ r w,
  authenticated w r (λ subject,
    let '((secret, code), err) := decode_enable (Request_Body r) in
    if err is Some _ then malformed_json w r
    else reply_exact (on at_accounts (Enable2FA (Subject_UserID subject) secret code))
           [([ErrTOTPInvalid], 400, "AUTH_TOTP_INVALID", Some "Invalid 2FA verification code")]
           (always 400 "ENABLE_2FA_FAILED") 200
           (λ _, MessageData "Two-factor authentication enabled successfully") w r).

Definition Disable2FA_handler : handler := λ r w,
  authenticated w r (λ subject,
    let '((password, code), err) := decode_disable (Request_Body r) in
    if err is Some _ then malformed_json w r
    else reply_exact (on at_accounts (Disable2FA (Subject_UserID subject) password code))
           [([ErrInvalidCredentials], 401, "AUTH_INVALID_CREDENTIALS", Some "Incorrect account password");
            ([ErrTOTPInvalid], 400, "AUTH_TOTP_INVALID", Some "Invalid 2FA verification code")]
           (always 400 "DISABLE_2FA_FAILED") 200
           (λ _, MessageData "Two-factor authentication disabled successfully") w r).

(** ** API keys *)

Definition CreateKey_handler : handler := λ r w,
  authenticated w r (λ subject,
    let '(req, err) := decode_api_key (Request_Body r) in
    if err is Some _ then malformed_json w r
    else reply_exact (with_random (λ bytes, CreateAPIKey bytes (Subject_UserID subject) req)) []
           (always 400 "CREATE_API_KEY_FAILED") 201 (λ '(key, plaintext), NewKeyData key plaintext) w r).

Definition ListKeys_handler : handler := λ r w,
  authenticated w r (λ subject,
    reply_exact (on at_accounts (ListAPIKeys (Subject_UserID subject))) []
      (always 500 "LIST_API_KEYS_FAILED") 200 KeysData w r).

Definition RevokeKey_handler : handler := λ r w,
  authenticated w r (λ subject,
    let keyID := URLParam r "id" in
    if decide (keyID = "") then RespondError w r 400 "INVALID_KEY_ID" "API key ID is required"
    else reply_exact (on at_accounts (RevokeAPIKey (Subject_UserID subject) keyID))
           [([ErrAPIKeyNotFound], 404, "AUTH_API_KEY_NOT_FOUND", Some "API key not found");
            ([ErrResourceForbidden], 403, "AUTH_RESOURCE_FORBIDDEN",
             Some "You cannot revoke another user's API key")]
           (always 400 "REVOKE_API_KEY_FAILED") 200
           (λ _, MessageData "API key revoked successfully") w r).

Definition access_endpoint (others : Endpoint → handler) (e : Endpoint) : handler :=
  if decide (e = Endpoint_of "AuthHandler" "Register") then Register_handler
  else if decide (e = Endpoint_of "AuthHandler" "Login") then Login_handler
  else if decide (e = Endpoint_of "AuthHandler" "VerifyTOTP") then VerifyTOTP_handler
  else if decide (e = Endpoint_of "AuthHandler" "Refresh") then Refresh_handler
  else if decide (e = Endpoint_of "AuthHandler" "Logout") then Logout_handler
  else if decide (e = Endpoint_of "AuthHandler" "GetMe") then GetMe_handler
  else if decide (e = Endpoint_of "AccountHandler" "Setup2FA") then Setup2FA_handler
  else if decide (e = Endpoint_of "AccountHandler" "Enable2FA") then Enable2FA_handler
  else if decide (e = Endpoint_of "AccountHandler" "Disable2FA") then Disable2FA_handler
  else if decide (e = Endpoint_of "APIKeyHandler" "Create") then CreateKey_handler
  else if decide (e = Endpoint_of "APIKeyHandler" "List") then ListKeys_handler
  else if decide (e = Endpoint_of "APIKeyHandler" "Revoke") then RevokeKey_handler
  else others e.
End handlers.

(** ** Keys are personal *)

Section keys.
Context {S A : Type} `{!AuditRepository A}.
Context (at_accounts : Lens S (AccountStore * A)).

(** The listing shows a caller exactly the keys of their own user. *)
Lemma listed_keys_are_own (s : Subject) r w wd st : World_ok wd → GetSubject r = Some s →
  ∃ keys meta wd', ListKeys_handler at_accounts r w wd st =
      (Ok (send_envelope 200 (mkResponseEnvelope true (Some (KeysData keys)) None meta) w), st, wd') ∧
    ∀ k, k ∈ keys ↔ APIKey_UserID k = Subject_UserID s ∧
      ∃ id p, AccountStore_apiKeys (lens_pick at_accounts st).1 !! id = Some p ∧
              AccountStore_keyHeap (lens_pick at_accounts st).1 !! p = Some k.
Proof.
  intros Hw Hs. unfold ListKeys_handler, authenticated, signed_in. rewrite Hs.
  unfold reply_exact, reply_by, ListAPIKeys, key_ListByUser, on_store, on, zoom, try_err, range_map.
  unfold mbind, go_bind, get, mret, go_ret. cbn.
  destruct (lens_pick at_accounts st) as [accounts trail] eqn:Hp. cbn.
  rewrite <-Hp, lens_place_pick. eexists _, _, _. split; [reflexivity|]. intros k.
  rewrite list_elem_of_filter, list_elem_of_omap. cbn.
  split; intros [Hk Hin]; (split; [done|]).
  - destruct Hin as (p & Hin & Hk'). apply list_elem_of_fmap in Hin as ([id p'] & -> & Hin).
    exists id, p'. split; [|done]. by apply elem_of_entries in Hin.
  - destruct Hin as (id & p & Hid & Hk'). exists p. split; [|done].
    apply list_elem_of_fmap. exists (id, p). split; [done|]. by apply elem_of_entries.
Qed.
End keys.

(** ** A concrete deployment *)

Section demo.
#[local] Existing Instances plain_hasher open_protector fixed_totp tagging_digest segment_mux.

(** Tokens that carry the user and the role of their claims. *)
#[local] Instance claims_jwt : JWTLibrary := {|
  SignedString := λ _ c, Ok (Claims_UserID c +:+ "|" +:+ strings_Join (Claims_Roles c) ",");
  ParseWithClaims := λ _ iss aud _ t,
    match cut "|"%char t with
    | (user, Some role) => Ok (mkClaims user user "" [role] [] [] "access" iss user [aud] 0 0 0 "")
    | _ => Err (ErrNew "jwt" "token is malformed")
    end
|}.

(** Bodies [first|second]; a new key is asked for by name, without scopes. *)
Definition two_fields (b : Body) : string * string :=
  let '(a, rest) := cut "|"%char (Body_bytes b) in (a, default "" rest).
#[local] Instance field_bodies : AccessDecoder := {
  decode_register := λ b, let '(u, p) := two_fields b in (mkRegisterRequest u (u +:+ "@example.com") p "" "", None);
  decode_login := λ b, let '(u, p) := two_fields b in (mkLoginRequest u p "" "", None);
  decode_totp := λ b, (two_fields b, None);
  decode_refresh := λ b, (Body_bytes b, None);
  decode_enable := λ b, (two_fields b, None);
  decode_disable := λ b, (two_fields b, None);
  decode_api_key := λ b, (mkCreateAPIKeyRequest (Body_bytes b) [] None, None)
}.

#[program] Definition whole : Lens Demo Demo := {| lens_pick := λ s, s; lens_place := λ x _, x |}.
Next Obligation. done. Qed.

Definition reached (e : Endpoint) : Handler Demo AccessData := λ r w,
  RespondJSON w r 200 (MessageData (match GetSubject r with Some s => Subject_UserID s | None => "" end)).
Definition ask_with (headers : list (string * string)) (method path body : string) :
    go Demo (ResponseWriter AccessData) :=
  ServeHTTP (lens_pick whole) (lens_place whole) demo_tm DynamicAuthorizer
    (access_endpoint whole demo_tm (λ _, Ok "fedcba9876543210") reached) (reached (Endpoint_of "" "")) server_routes
    (mkRequest method path [] [] headers "192.0.2.7:51000" (mkBody body None) "req-1" None) blank.
Definition bearer (token : string) : list (string * string) := [("Authorization", "Bearer " +:+ token)].

(** An account with a second factor, and the challenge token its password
    alone is answered with. *)
Definition alice_2fa : Demo := exec (Enable2FA "a0" "secret" "code-secret") (named "x") with_alice.
Definition challenge : string := "a0|2fa_challenge".
Definition with_new_key : Demo :=
  exec (ask_with (bearer challenge) "POST" "/api/v1/api-keys/" "mine") (named "k") alice_2fa.

(** The challenge token is an ordinary access token: with the password alone,
    without the second factor, it makes an API key that has every permission of
    the user and no scope, and that key is let in everywhere. *)
Example challenge_token_bypasses_2fa :
  (∃ w', answer (ask_with [] "POST" "/api/v1/auth/login" "alice|correct horse") (named "b") alice_2fa = Ok w' ∧
     ∃ meta, rw_body w' = [PayloadJSON (mkResponseEnvelope true
       (Some (LoginData (mkLoginResult true challenge None None))) None meta)]) ∧
  status_of (answer (ask_with (bearer challenge) "GET" "/api/v1/instances/" "") (named "b") alice_2fa) = 403 ∧
  status_of (answer (ask_with (bearer challenge) "POST" "/api/v1/api-keys/" "mine") (named "k") alice_2fa) = 201 ∧
  status_of (answer (ask_with [("X-API-Key", "aur_live_fedcba9876543210")] "POST" "/api/v1/instances/" "")
    (named "c") with_new_key) = 200.
Proof. split; [eexists; split; [vm_compute; reflexivity|by eexists]|]. by vm_compute. Qed.

(** A key that may only read instances makes itself one that may do all. *)
Definition after_escalation : Demo :=
  exec (ask_with key_header "POST" "/api/v1/api-keys/" "more") (named "m") with_key.
Example scoped_key_escalates :
  status_of (answer (ask_with key_header "DELETE" "/api/v1/instances/i1" "") (named "c") with_key) = 403 ∧
  status_of (answer (ask_with key_header "POST" "/api/v1/api-keys/" "more") (named "m") with_key) = 201 ∧
  status_of (answer (ask_with [("X-API-Key", "aur_live_fedcba9876543210")] "DELETE" "/api/v1/instances/i1" "")
    (named "c") after_escalation) = 200.
Proof. by vm_compute. Qed.

(** The sign-in tells a wrong password and an unknown user apart from a
    suspended account, before it looks at the password. *)
Definition suspended : Demo :=
  exec (u ← on_store (user_GetByID "a0"); on_store (user_Update (u <| User_IsActive := false |>)))
    (named "x") with_alice.
Example suspension_revealed :
  status_of (answer (ask_with [] "POST" "/api/v1/auth/login" "alice|wrong") (named "b") with_alice) = 401 ∧
  status_of (answer (ask_with [] "POST" "/api/v1/auth/login" "nobody|wrong") (named "b") with_alice) = 401 ∧
  status_of (answer (ask_with [] "POST" "/api/v1/auth/login" "alice|wrong") (named "b") suspended) = 403.
Proof. by vm_compute. Qed.
End demo.
