(* ===== verification/ResourceApi.v ===== *)
(** * The endpoints of nodes, addresses and volumes

    [internal/transport/http]: [node_handler.go], [ipam_handler.go] and
    [storage_handler.go] over the services of [NodeService], [Ipam] and
    [Storage]. The decoder of the bodies is the port [ResourceDecoder]. *)

From S2P Require Import Prelude Identity AuditTrail Accounts Auth Http.
From S2P Require Node Commands NodeService Ipam Storage.

(** ** Bodies *)

Record EnrollRequest : Type := mkEnrollRequest {
  EnrollRequest_EnrollmentToken : string;
  EnrollRequest_NodeName : string;
  EnrollRequest_FQDN : string;
  EnrollRequest_CSRPEM : string;
  EnrollRequest_Capabilities : option Prelude.Details
}.
Record CreateTokenRequest : Type := mkCreateTokenRequest {
  CreateTokenRequest_LocationID : string;
  CreateTokenRequest_NodeNamePattern : string;
  CreateTokenRequest_TTLSeconds : Z
}.
Record AllocateIPRequest : Type := mkAllocateIPRequest {
  AllocateIPRequest_InstanceID : option string;
  AllocateIPRequest_InterfaceName : string;
  AllocateIPRequest_IsReserved : bool;
  AllocateIPRequest_Notes : string
}.
Record AttachVolumeRequest : Type := mkAttachVolumeRequest {
  AttachVolumeRequest_InstanceID : string;
  AttachVolumeRequest_MountPath : string;
  AttachVolumeRequest_ReadOnly : bool
}.

(** What is in the request after [Decode], and the error. *)
Class ResourceDecoder := {
  decode_enroll : Body → EnrollRequest * option error;
  decode_token : Body → CreateTokenRequest * option error;
  decode_maintenance : Body → bool * option error;
  decode_pool : Body → Ipam.CreatePoolRequest * option error;
  decode_allocation : Body → AllocateIPRequest * option error;
  decode_storage_pool : Body → Storage.CreateStoragePoolRequest * option error;
  decode_volume : Body → Storage.CreateVolumeRequest * option error;
  decode_attach : Body → AttachVolumeRequest * option error;
  decode_size : Body → Z * option error;
  decode_snapshot_name : Body → string * option error
}.

Inductive ResourceData : Type :=
| EnrolledData (nodeID certificatePem caCertificatePem : string) (heartbeatIntervalSeconds : Z)
| TokenData (token : string) (secret : Node.EnrollmentSecret)
| NodeData (n : Node.Node)
| NodesData (l : list Node.Node)
| CommandData (res : Commands.CommandResult)
| PoolData (p : Ipam.IPPool)
| PoolsData (l : list Ipam.IPPool)
| UtilizationData (p : Ipam.IPPool) (u : Ipam.PoolUtilization)
| AllocationData (a : Ipam.IPAllocation)
| AllocationsData (l : list Ipam.IPAllocation)
| StoragePoolData (p : Storage.StoragePool)
| StoragePoolsData (l : list Storage.StoragePool)
| VolumeData (v : Storage.Volume)
| VolumesData (l : list Storage.Volume)
| SnapshotData (s : Storage.VolumeSnapshot)
| SnapshotsData (l : list Storage.VolumeSnapshot)
| FieldsData (l : list (string * any)).

Definition fields (l : list (string * any)) {X} : X → ResourceData := λ _, FieldsData l.
Definition signed {S} : ResponseWriter ResourceData → Request →
    (Subject → go S (ResponseWriter ResourceData)) → go S (ResponseWriter ResourceData) :=
  signed_in "AUTH_UNAUTHORIZED" "authentication required".
Definition malformed {S} (w : ResponseWriter ResourceData) (r : Request) :
    go S (ResponseWriter ResourceData) := RespondError w r 400 "INVALID_REQUEST" "malformed JSON body".
Definition internal : Z * string * option string := always 500 "INTERNAL_ERROR".
Definition row (e : error) (status : Z) (code text : string) : ErrorRow := ([e], status, code, Some text).
Definition forbidden (text : string) : ErrorRow :=
  ([ErrInsufficientPermission; ErrResourceForbidden], 403, "AUTH_FORBIDDEN", Some text).

(** ** Nodes *)

Section nodes.
Context {S A : Type} `{!AuditRepository A, !NodeService.PKIManager, !Digest, !NodeService.AgentLink,
  !ResourceDecoder}.
Context (at_nodes : Lens S (NodeService.NodeState A)).
(** The random text of a token, and the certificate of the authority. *)
Context (random : World → result string) (caCertPEM : string).
Abbreviation handler := (Handler S ResourceData).

Definition missing_node : ErrorRow := row Node.ErrNodeNotFound 404 "NODE_NOT_FOUND" "node not found".

Definition EnrollNode_handler : handler := λ r w,
  let '(req, err) := decode_enroll (Request_Body r) in
  if err is Some _ then malformed w r
  else if decide (EnrollRequest_EnrollmentToken req = "" ∨ EnrollRequest_CSRPEM req = "")
  then RespondError w r 400 "INVALID_REQUEST" "enrollmentToken and csrPem are required"
  else reply (on at_nodes (NodeService.EnrollNode (EnrollRequest_EnrollmentToken req)
                (EnrollRequest_NodeName req) (EnrollRequest_FQDN req) (EnrollRequest_CSRPEM req)
                (EnrollRequest_Capabilities req)))
         [row Node.ErrEnrollmentTokenInvalid 401 "ENROLLMENT_TOKEN_INVALID" "invalid enrollment token";
          row Node.ErrEnrollmentTokenExpired 401 "ENROLLMENT_TOKEN_EXPIRED" "enrollment token has expired";
          row Node.ErrEnrollmentTokenUsed 409 "ENROLLMENT_TOKEN_USED"
            "enrollment token has already been consumed";
          ([Node.ErrInvalidCSR], 400, "INVALID_CSR", None)]
         internal 200 (λ '(id, cert), EnrolledData id cert caCertPEM 10) w r.

Definition CreateEnrollmentToken_handler : handler := λ r w,
  let '(req, err) := decode_token (Request_Body r) in
  if err is Some _ then malformed w r
  else
    let ttl := if decide (0 < CreateTokenRequest_TTLSeconds req)
               then mul64 (CreateTokenRequest_TTLSeconds req) Second else Hour in
    let creatorID := Subject_UserID <$> GetSubject r in
    reply (bytes ← reading random;
           on at_nodes (NodeService.CreateEnrollmentToken bytes (CreateTokenRequest_LocationID req)
             (CreateTokenRequest_NodeNamePattern req) ttl creatorID))
      [] internal 201 (λ '(token, secret), TokenData token secret) w r.

Definition ListNodes_handler : handler := λ r w,
  reply (on at_nodes NodeService.ListNodes) [] internal 200 NodesData w r.

Definition GetNode_handler : handler := λ r w,
  reply (on at_nodes (NodeService.GetNode (URLParam r "id"))) [missing_node] internal 200 NodeData w r.

Definition ToggleMaintenance_handler : handler := λ r w,
  let nodeID := URLParam r "id" in
  let '(enabled, err) := decode_maintenance (Request_Body r) in
  if err is Some _ then malformed w r
  else reply (on at_nodes (NodeService.ToggleMaintenance nodeID enabled)) [missing_node] internal 200
         (fields [("nodeId", AnyStr nodeID); ("maintenanceMode", AnyBool enabled)]) w r.

Definition drain_handler (drain : bool) : handler := λ r w,
  let nodeID := URLParam r "id" in
  reply (on at_nodes (NodeService.ToggleDrainMode nodeID drain)) [missing_node] internal 200
    (fields [("nodeId", AnyStr nodeID); ("drainMode", AnyBool drain)]) w r.
Definition DrainNode_handler : handler := drain_handler true.
Definition UndrainNode_handler : handler := drain_handler false.

Definition RevokeNode_handler : handler := λ r w,
  let nodeID := URLParam r "id" in
  reply (on at_nodes (NodeService.RevokeNode nodeID)) [missing_node] internal 200
    (fields [("nodeId", AnyStr nodeID); ("revoked", AnyBool true)]) w r.

Definition PingNode_handler : handler := λ r w,
  reply (on at_nodes (NodeService.SendCommand (URLParam r "id")
           (Commands.new_command "ping" [("msg", AnyStr "health_ping")])))
    [row Node.ErrNodeOffline 503 "NODE_OFFLINE" "node is currently offline";
     row Node.ErrNodeRevoked 403 "NODE_REVOKED" "node is revoked"]
    (always 504 "COMMAND_FAILED") 200 CommandData w r.
End nodes.

(** ** Addresses *)

Section ipam.
Context {S A : Type} `{!AuditRepository A, !ResourceDecoder}.
Context (at_ipam : Lens S (Ipam.IpamStore * A)) (auth : Authorizer).
Abbreviation handler := (Handler S ResourceData).

Definition missing_pool : ErrorRow := row Ipam.ErrIPPoolNotFound 404 "POOL_NOT_FOUND" "ip pool not found".

Definition CreatePool_handler : handler := λ r w,
  signed w r (λ sub,
    let '(req, err) := decode_pool (Request_Body r) in
    if err is Some _ then malformed w r
    else reply (on at_ipam (Ipam.CreatePool auth (Some sub) req))
           [([Ipam.ErrInvalidCIDR], 400, "INVALID_CIDR", None);
            row Ipam.ErrIPPoolAlreadyExists 409 "POOL_ALREADY_EXISTS" "pool with this CIDR already exists"]
           internal 201 PoolData w r).

Definition ListPools_handler : handler := λ r w,
  signed w r (λ sub,
    reply (on at_ipam (Ipam.ListPools auth (Some sub) (Query_Get "locationId" r))) [] internal 200
      PoolsData w r).

Definition GetPool_handler : handler := λ r w,
  signed w r (λ sub,
    reply (on at_ipam (Ipam.GetPool auth (Some sub) (URLParam r "id"))) [missing_pool] internal 200
      (λ '(pool, util), UtilizationData pool util) w r).

Definition AllocateIP_handler : handler := λ r w,
  signed w r (λ sub,
    let '(req, _) := decode_allocation (Request_Body r) in
    reply (on at_ipam (Ipam.AllocateIP auth (Some sub) (URLParam r "id") (AllocateIPRequest_InstanceID req)
             (AllocateIPRequest_InterfaceName req) (AllocateIPRequest_IsReserved req)
             (AllocateIPRequest_Notes req)))
      [missing_pool;
       row Ipam.ErrIPPoolExhausted 409 "POOL_EXHAUSTED" "no available IP addresses in pool"]
      internal 201 AllocationData w r).

Definition ReleaseIP_handler : handler := λ r w,
  signed w r (λ sub,
    let id := URLParam r "id" in
    reply (on at_ipam (Ipam.ReleaseIP auth (Some sub) id))
      [row Ipam.ErrIPAllocationNotFound 404 "ALLOCATION_NOT_FOUND" "ip allocation not found"]
      internal 200 (fields [("id", AnyStr id); ("released", AnyBool true)]) w r).

Definition ListAllocations_handler : handler := λ r w,
  signed w r (λ sub,
    reply (on at_ipam (Ipam.ListAllocations auth (Some sub) (URLParam r "id"))) [] internal 200
      AllocationsData w r).
End ipam.

(** ** Volumes *)

Section storage.
Context {S G A : Type} `{!Commands.NodeGateway G, !AuditRepository A, !ResourceDecoder}.
Context (at_storage : Lens S (Storage.StorageEnv G * A)) (auth : Authorizer) (has_audit : bool).
Abbreviation handler := (Handler S ResourceData).

Definition missing_storage : ErrorRow :=
  row Storage.ErrStoragePoolNotFound 404 "POOL_NOT_FOUND" "storage pool not found".
Definition missing_volume : ErrorRow :=
  row Storage.ErrVolumeNotFound 404 "VOLUME_NOT_FOUND" "volume not found".
Definition missing_snapshot : ErrorRow :=
  ([Storage.ErrVolumeNotFound; Storage.ErrVolumeSnapshotNotFound], 404, "NOT_FOUND",
   Some "volume or snapshot not found").

Definition CreateStoragePool_handler : handler := λ r w,
  signed w r (λ sub,
    let '(req, err) := decode_storage_pool (Request_Body r) in
    if err is Some _ then malformed w r
    else reply (on at_storage (Storage.CreateStoragePool auth has_audit (Some sub) req))
           [([Storage.ErrInvalidStoragePoolSpec], 400, "INVALID_SPEC", None);
            row Storage.ErrStoragePoolAlreadyExists 409 "POOL_ALREADY_EXISTS"
              "pool with this name already exists on node"]
           internal 201 StoragePoolData w r).

Definition ListStoragePools_handler : handler := λ r w,
  signed w r (λ sub,
    reply (on at_storage (Storage.ListStoragePools auth (Some sub) (Query_Get "nodeId" r))) [] internal
      200 StoragePoolsData w r).

Definition GetStoragePool_handler : handler := λ r w,
  signed w r (λ sub,
    reply (on at_storage (Storage.GetStoragePool auth (Some sub) (URLParam r "id"))) [missing_storage]
      internal 200 StoragePoolData w r).

Definition CreateVolume_handler : handler := λ r w,
  signed w r (λ sub,
    let '(req, err) := decode_volume (Request_Body r) in
    if err is Some _ then malformed w r
    else reply (on at_storage (Storage.CreateVolume auth has_audit (Some sub) req))
           [([Storage.ErrInvalidVolumeSpec], 400, "INVALID_SPEC", None); missing_storage;
            row Storage.ErrVolumeAlreadyExists 409 "VOLUME_ALREADY_EXISTS"
              "volume with this name already exists in pool"]
           internal 201 VolumeData w r).

Definition ListVolumes_handler : handler := λ r w,
  signed w r (λ sub,
    reply (on at_storage (Storage.ListVolumes auth (Some sub) (Query_Get "poolId" r)
             (Query_Get "instanceId" r))) [] internal 200 VolumesData w r).

Definition GetVolume_handler : handler := λ r w,
  signed w r (λ sub,
    reply (on at_storage (Storage.GetVolume auth (Some sub) (URLParam r "id")))
      [missing_volume; forbidden "you do not have access to this volume"] internal 200 VolumeData w r).

Definition AttachVolume_handler : handler := λ r w,
  signed w r (λ sub,
    let '(req, err) := decode_attach (Request_Body r) in
    if err is Some _ then malformed w r
    else reply (on at_storage (Storage.AttachVolume auth has_audit (Some sub) (URLParam r "id")
                  (AttachVolumeRequest_InstanceID req) (AttachVolumeRequest_MountPath req)
                  (AttachVolumeRequest_ReadOnly req)))
           [missing_volume;
            row Storage.ErrVolumeAttached 409 "VOLUME_ATTACHED" "volume is already attached to an instance";
            forbidden "you do not have permission to attach this volume"]
           internal 200 VolumeData w r).

Definition DetachVolume_handler : handler := λ r w,
  signed w r (λ sub,
    reply (on at_storage (Storage.DetachVolume auth has_audit (Some sub) (URLParam r "id")))
      [missing_volume; row Storage.ErrVolumeNotAttached 400 "VOLUME_NOT_ATTACHED" "volume is not attached";
       forbidden "you do not have permission to detach this volume"]
      internal 200 VolumeData w r).

Definition ResizeVolume_handler : handler := λ r w,
  signed w r (λ sub,
    let '(size, err) := decode_size (Request_Body r) in
    if err is Some _ then malformed w r
    else reply (on at_storage (Storage.ResizeVolume auth has_audit (Some sub) (URLParam r "id") size))
           [missing_volume;
            row Storage.ErrVolumeResizeDownNotAllowed 400 "INVALID_SIZE" "shrinking volume is not supported";
            forbidden "you do not have permission to resize this volume"]
           internal 200 VolumeData w r).

Definition DeleteVolume_handler : handler := λ r w,
  signed w r (λ sub,
    let id := URLParam r "id" in
    reply (on at_storage (Storage.DeleteVolume auth has_audit (Some sub) id))
      [missing_volume;
       row Storage.ErrVolumeAttached 409 "VOLUME_ATTACHED"
         "cannot delete volume while attached to an instance";
       forbidden "you do not have permission to delete this volume"]
      internal 200 (fields [("id", AnyStr id); ("deleted", AnyBool true)]) w r).

Definition CreateSnapshot_handler : handler := λ r w,
  signed w r (λ sub,
    let '(name, _) := decode_snapshot_name (Request_Body r) in
    reply (on at_storage (Storage.CreateSnapshot auth has_audit (Some sub) (URLParam r "id") name))
      [missing_volume;
       row Storage.ErrVolumeSnapshotAlreadyExists 409 "SNAPSHOT_ALREADY_EXISTS"
         "snapshot with this name already exists";
       forbidden "you do not have permission to snapshot this volume"]
      internal 201 SnapshotData w r).

Definition ListSnapshots_handler : handler := λ r w,
  signed w r (λ sub,
    reply (on at_storage (Storage.ListSnapshots auth (Some sub) (URLParam r "id"))) [missing_volume]
      internal 200 SnapshotsData w r).

Definition RestoreSnapshot_handler : handler := λ r w,
  signed w r (λ sub,
    let volumeID := URLParam r "id" in
    let snapshotID := URLParam r "snapshotId" in
    reply (on at_storage (Storage.RestoreSnapshot auth has_audit (Some sub) volumeID snapshotID))
      [missing_snapshot; forbidden "you do not have permission to restore this snapshot"] internal 200
      (fields [("volumeId", AnyStr volumeID); ("snapshotId", AnyStr snapshotID);
               ("restored", AnyBool true)]) w r).

Definition DeleteSnapshot_handler : handler := λ r w,
  signed w r (λ sub,
    let volumeID := URLParam r "id" in
    let snapshotID := URLParam r "snapshotId" in
    reply (on at_storage (Storage.DeleteSnapshot auth has_audit (Some sub) volumeID snapshotID))
      [missing_snapshot; forbidden "you do not have permission to delete this snapshot"] internal 200
      (fields [("volumeId", AnyStr volumeID); ("snapshotId", AnyStr snapshotID);
               ("deleted", AnyBool true)]) w r).
End storage.

(** ** Requests on volumes of another tenant *)

Section tenancy.
Context {S G A : Type} `{!Commands.NodeGateway G, !AuditRepository A, !ResourceDecoder}.
Context (at_storage : Lens S (Storage.StorageEnv G * A)).
Context (auth : Authorizer) `{!@AuthorizerLaws auth} (has_audit : bool).
(** The authorizer refuses with an error, it does not panic. *)
Context (authorize_calm : ∀ s action res e, @Authorize auth s action res = Err e → panicked e = false).
Abbreviation handler := (Handler S ResourceData).

(** The endpoints under [/api/v1/volumes/{id}]. *)
Definition volume_operations : list (string * handler) :=
  [("GetVolume", GetVolume_handler at_storage auth);
   ("AttachVolume", AttachVolume_handler at_storage auth has_audit);
   ("DetachVolume", DetachVolume_handler at_storage auth has_audit);
   ("ResizeVolume", ResizeVolume_handler at_storage auth has_audit);
   ("DeleteVolume", DeleteVolume_handler at_storage auth has_audit);
   ("CreateSnapshot", CreateSnapshot_handler at_storage auth has_audit);
   ("ListSnapshots", ListSnapshots_handler at_storage auth);
   ("RestoreSnapshot", RestoreSnapshot_handler at_storage auth has_audit);
   ("DeleteSnapshot", DeleteSnapshot_handler at_storage auth has_audit)].

Definition volume_of (st : S) (vid : string) : option Storage.Volume :=
  Storage.StorageStore_volumes (Storage.the_store (lens_pick at_storage st)) !! vid.

(** A subject without an administrative role, and a volume of somebody else. *)
Definition outsider (s : Subject) (v : Storage.Volume) : Prop :=
  Storage.Volume_UserID v ≠ "" ∧ Storage.Volume_UserID v ≠ Subject_UserID s ∧
  ∀ role, role ∈ ["superadmin"; "admin"; "operator"] → HasRole s role = false.

Lemma open_volume_denied s v action vid (env : Storage.StorageEnv G * A) wd :
  Storage.StorageStore_volumes (Storage.the_store env) !! vid = Some v → outsider s v →
  denied (Storage.open_volume (G := G) (A := A) auth (Some s) action vid) env wd.
Proof.
  intros Hv (Ho & Hne & Hroles). destruct env as [[sto i g] a]. cbn in Hv.
  destruct (@Authorize auth (Some s) action (Some (Storage.Volume_Resource v))) as [[]|e] eqn:Ha.
  - exfalso. destruct (authorize_tenant _ _ _ Ha Ho) as [E|(role & Hr & Hin)]; [done|].
    by rewrite Hroles in Hr.
  - exists e, wd. split; [|by eapply authorize_calm].
    unfold Storage.open_volume, Storage.on_repo, on_store, zoom, Storage.volume_GetByID, authorize, lift.
    unfold mbind, go_bind, get. cbn. rewrite Hv. cbn. by rewrite Ha.
Qed.

Lemma denied_after {St X Y} (m : go St X) (k : X → go St Y) x s w w' :
  m w s = (Ok x, s, w') → denied (k x) s w' → denied (m ≫= k) s w.
Proof.
  intros Hm (e & w1 & Hk & He). exists e, w1. split; [|done].
  unfold mbind, go_bind. by rewrite Hm.
Qed.

(** Every endpoint on a volume turns the outsiders away. *)
Lemma volume_operation_turns_away name f (r : Request) w wd st s v :
  (name, f) ∈ volume_operations → GetSubject r = Some s →
  volume_of st (URLParam r "id") = Some v → outsider s v → turned_away (f r w) w wd st.
Proof.
  intros Hf Hs Hv Hout.
  assert (∀ action wd, denied (Storage.open_volume (G := G) (A := A) auth (Some s) action
    (URLParam r "id")) (lens_pick at_storage st) wd) as Hopen.
  { intros. by eapply open_volume_denied. }
  assert (∀ X (m : go (Storage.StorageEnv G * A) X) rows status data,
    denied m (lens_pick at_storage st) wd → error_rows rows internal →
    turned_away (reply (on at_storage m) rows internal status data w r) w wd st) as Hl.
  { intros. by apply reply_turned_away; [apply denied_on|]. }
  unfold volume_operations in Hf. rewrite !elem_of_cons in Hf.
  repeat destruct Hf as [[= -> ->]|Hf]; [..|by apply not_elem_of_nil in Hf].
  all: cbv delta [GetVolume_handler AttachVolume_handler DetachVolume_handler ResizeVolume_handler
    DeleteVolume_handler CreateSnapshot_handler ListSnapshots_handler RestoreSnapshot_handler
    DeleteSnapshot_handler] beta.
  all: unfold signed, signed_in; rewrite Hs; cbv zeta.
  all: try match goal with |- context [match ?d (Request_Body ?q) with _ => _ end] =>
         destruct (d (Request_Body q)) as [req [err|]] end.
  all: try (apply error_turned_away; lia).
  all: apply Hl.
  all: try (split; repeat constructor; cbn; lia).
  all: try (first [apply Hopen | apply denied_bind, Hopen]).
  all: unfold Storage.CreateSnapshot; case_decide;
    (eapply denied_after; [reflexivity|apply denied_bind, Hopen]).
Qed.

Context {B : Type} `{!AuditRepository B, !JWTLibrary, !Digest, !Mux}.
Context (pick : S → AccountStore * B) (place : AccountStore * B → S → S).
Context (place_pick : ∀ st, place (pick st) st = st).
Context (tm : TokenManager) (others : Endpoint → handler) (notfound : handler).

Fixpoint named_operation (name : string) (l : list (string * handler)) : option handler :=
  match l with
  | [] => None
  | (n, f) :: l => if decide (n = name) then Some f else named_operation name l
  end.

Definition volume_endpoint (e : Endpoint) : handler :=
  match e with
  | Endpoint_of "StorageHandler" name => default (others e) (named_operation name volume_operations)
  | _ => others e
  end.
Definition volume_api : handler :=
  ServeHTTP pick place tm auth volume_endpoint notfound server_routes.

Lemma named_operation_in name l : name ∈ l.*1 → ∃ f, named_operation name l = Some f ∧ (name, f) ∈ l.
Proof.
  induction l as [|[n f] l IH]; cbn; [by intros ?%not_elem_of_nil|].
  intros Hin. case_decide as Hn; [subst; exists f; split; [done|by left]|].
  apply elem_of_cons in Hin as [->|Hin]; [done|]. destruct (IH Hin) as (g & Hg & Hgl).
  exists g. split; [done|by right].
Qed.

(** No request to the server lets anybody at a volume of another tenant:
    whatever it asks of the volume or its snapshots, whoever sends it without
    an administrative role gets an error status and no data, and nothing
    changes. *)
Theorem foreign_volume_request_denied (r : Request) (w : ResponseWriter ResourceData) wd st
    (k : nat) params rt name (v : Storage.Volume) :
  FindRoute ((λ rt, (Route_Method rt, Route_Pattern rt)) <$> server_routes)
    (Request_Method r) (Request_Path r) = Some (k, params) →
  server_routes !! k = Some rt →
  Route_Endpoint_ rt = Endpoint_of "StorageHandler" name → name ∈ volume_operations.*1 →
  volume_of st (first_value (λ k, bool_decide (k = "id")) params) = Some v →
  (∀ s, credential pick tm r wd st = Some s → outsider s v) →
  turned_away (volume_api r w) (set_security_headers w) wd st.
Proof.
  intros Hfind Hrt He Hname Hv Hall.
  apply (served_turned_away _ _ _ _ _ _ place_pick r w wd st k params rt Hfind Hrt).
  - rewrite He. intros Hin. revert Hin. unfold public_endpoints. cbn. rewrite !elem_of_cons.
    intros Hin. repeat destruct Hin as [[=]|Hin]. by apply not_elem_of_nil in Hin.
  - intros s wd' Hs. rewrite He. cbn [volume_endpoint].
    destruct (named_operation_in _ _ Hname) as (f & -> & Hf). cbn [default].
    eapply volume_operation_turns_away; eauto.
Qed.
End tenancy.

(** ** A concrete server *)

Section demo.
#[local] Existing Instances tagging_digest plain_jwt segment_mux Commands.loopback_gateway MemoryAuditRepo.

(** Bodies are malformed. *)
Definition unexpected {X} (x : X) : Body → X * option error := λ _, (x, Some (Errorf "unexpected EOF")).
#[local] Instance no_bodies : ResourceDecoder := {
  decode_enroll := unexpected (mkEnrollRequest "" "" "" "" None);
  decode_token := unexpected (mkCreateTokenRequest "" "" 0);
  decode_maintenance := unexpected false;
  decode_pool := unexpected (Ipam.mkCreatePoolRequest "" "" "" "" [] None false);
  decode_allocation := unexpected (mkAllocateIPRequest None "" false "");
  decode_storage_pool := unexpected (Storage.mkCreateStoragePoolRequest "" "" "" 0 None);
  decode_volume := unexpected (Storage.mkCreateVolumeRequest "" "" 0 "" "" false);
  decode_attach := unexpected (mkAttachVolumeRequest "" "" false);
  decode_size := unexpected 0;
  decode_snapshot_name := unexpected ""
}.

(** The accounts of [Http] and the volume of [Storage], with one trail. *)
Definition Shelf : Type := AccountStore * (Storage.StorageEnv Commands.Loopback * AuditStore).
#[program] Definition at_shelf : Lens Shelf (Storage.StorageEnv Commands.Loopback * AuditStore) := {|
  lens_pick := snd; lens_place := λ x s, (s.1, x)
|}.
Next Obligation. by intros []. Qed.
Definition shelf_accounts (s : Shelf) : AccountStore * AuditStore := (s.1, s.2.2).
Definition put_accounts (x : AccountStore * AuditStore) (s : Shelf) : Shelf := (x.1, (s.2.1, x.2)).
Definition shelf : Shelf := (fst with_key, Storage.with_volume).
Definition nowhere : Handler Shelf ResourceData := λ r w,
  RespondError w r 404 "NOT_FOUND" "endpoint not found".

Lemma foreign_volume_request_denied_witness :
  let r := get_request "GET" "/api/v1/volumes/v0" key_header in
  turned_away (volume_api at_shelf DynamicAuthorizer true shelf_accounts put_accounts demo_tm (λ _, nowhere) nowhere
    r blank) (set_security_headers blank) (named "h") shelf.
Proof.
  intros r.
  eassert (volume_of at_shelf shelf "v0" = Some _) as Hv by (vm_compute; reflexivity).
  refine (foreign_volume_request_denied at_shelf DynamicAuthorizer true DynamicAuthorizer_calm
    shelf_accounts put_accounts _ demo_tm (λ _, nowhere) nowhere r blank (named "h") shelf 59
    [("id", "v0")] (mkRoute "GET" "/api/v1/volumes/{id}" true (Some "volume:read")
       (Endpoint_of "StorageHandler" "GetVolume")) "GetVolume" _ _ _ eq_refl _ Hv _).
  - by intros [a [e t]].
  - vm_compute. reflexivity.
  - vm_compute. reflexivity.
  - cbn. by left.
  - intros s Hs. vm_compute in Hs. injection Hs as <-. split; [discriminate|].
    split; [discriminate|]. intros role _. reflexivity.
Defined.
End demo.
